(* ===== verification/_CoqProject ===== *)
-Q . S2P
Prelude.v
Calendar.v
Float.v
Json.v
JsonCanonical.v
JsonLoads.v
Schema.v
Compiled.v
Fixtures.v
ChargeIR.v
Eligibility.v
Apportion.v
DayEnergy.v
Replay.v
ReplayProofs.v
ReplaySafety.v
ReplayReschedule.v
Compiler.v
CompilerFixtures.v
CompilerProofs.v
Admission.v
Comparison.v
ComparisonProofs.v
CpModel.v
OptimizerModels.v
Scenario.v
ScenarioProofs.v
Verification.v
VerificationProofs.v
Lowering.v
LoweringModel.v
LoweringSchedules.v
LoweringProofs.v
LoweringCost.v
LoweringExact.v
LoweringTheorems.v
Solver.v
SolverProofs.v
ReferenceSolver.v
SolverTheorems.v
Results.v
Deletion.v
Energy.v
ProfileHash.v
SemanticIdentity.v
PyText.v
IsoTime.v
Base64.v
Keyrings.v
Espi.v
EspiProofs.v
PgeCsv.v
PgeCsvProofs.v
Normalize.v
Simulated.v
Database.v
AuditLog.v
Jobs.v
JobsProofs.v
JobsHistory.v
Ledger.v
LedgerText.v
LedgerProofs.v
LedgerChains.v
LedgerSafety.v
LedgerModel.v
LedgerWrites.v
LedgerIntegrity.v
LedgerTheorems.v
LedgerRotation.v
DeletionStore.v
Deletions.v
DeletionsInvariant.v
DeletionsProofs.v
DeletionsModel.v
DeletionsTheorems.v
DeletionSweep.v
DeletionSweepProofs.v
DeletionSweepTheorems.v
