(* ===== verification/Prelude.v ===== *)
(** * RateReplay: verification development (root file and prelude)

    RateReplay replays metered household electricity under declaratively
    defined tariffs, compares plans, searches for better schedules of flexible
    loads, and deletes what it stored on request.  This library models the
    program's core (src/packages) as executable functions and proves what makes
    it correct.

    ** The program and how its parts meet

    A metered file is read by an adapter ([espi.py], [pge_csv.py]), normalised
    to a draft and confirmed over a billing period ([normalize.py]); the
    confirmed content has a canonical encoding and hash ([profile_hash.py]).

    A tariff definition is parsed ([schema.py]), checked and lowered by the
    fail-closed compiler ([compiler.py]) to a canonical integer IR
    ([compiled.py]), and released through a content-addressed lock
    ([admission.py]).  The reference evaluator ([billing.py], with the rounding
    of [ir.py]) decides eligibility, evaluates the operators of the IR over the
    metered intervals, and reconciles the bill.  Plan comparison
    ([comparison.py]) and the schedule verifier (optimizer/[verification.py])
    are clients of the evaluator.

    A scenario of flexible loads is admitted ([scenario.py]) and lowered to a
    constraint model ([lowering.py]) that the staged searches ([solver.py]) give
    to CP-SAT; the verifier checks every incumbent, and [results.py] publishes
    the outcome.  The solver is not trusted.

    Work runs as jobs under leases ([jobs.py]) that are audited ([audit.py]).
    A deletion follows the protocol of [deletion_protocol.py], whose steps are
    recorded in an encrypted, hash-chained ledger of files
    ([deletion_ledger.py], with the keys of [keyrings.py]).

    ** Files

    Shared ground:
    - [Prelude]: exceptions and the result monad, Python's ordering, sorting,
      sums and dictionaries, the exception logic [raises], tactics and hints.
    - [Calendar], [Float]: instants and time zones; [timedelta] and floats.
    - [Json], [JsonCanonical], [JsonLoads]: canonical JSON and content hashes
      (tariffs/hashing.py), its injectivity, and reading it back.
    - [PyText], [IsoTime], [Base64]: what the sources use of Python's texts.

    Tariffs:
    - [Schema], [Compiled]: tariffs/schema.py and compiled.py, one record or
      inductive type per model and one definition per validator.
    - [ChargeIR]: tariffs/ir.py; module [Spike] is its two-tier evaluator.
    - [Eligibility], [Apportion], [DayEnergy], [Replay]: tariffs/billing.py in
      the order of the file: [evaluate_eligibility]; the largest-remainder
      division; request models, time-of-use classification and local days; the
      operator loop, whose local variables are the record [LoopState], with
      reconciliation, diagnostics, manifest and hashes.
    - [ReplayProofs], [ReplaySafety], [ReplayReschedule]: the theorems about the
      evaluator; the last relates bills of rescheduled profiles.
    - [Compiler], [CompilerProofs]: tariffs/compiler.py.
    - [Admission]: tariffs/admission.py.
    - [Comparison], [ComparisonProofs]: tariffs/comparison.py.
    - [Fixtures], [CompilerFixtures]: concrete July 2026 tariffs, locks and
      accounts on which the witnesses evaluate the model.

    Optimizer:
    - [OptimizerModels]: optimizer/models.py, and the grid, execution and
      power-cap checks admission and verifier share.
    - [Scenario], [ScenarioProofs]: optimizer/scenario.py.
    - [Verification], [VerificationProofs]: optimizer/verification.py.
    - [CpModel]: constraint models, as the record of the calls made on the
      OR-Tools builder, with the documented meaning of each constraint.
    - [Lowering]: optimizer/lowering.py.  [LoweringModel] describes the model it
      emits, [LoweringSchedules] and [LoweringExact] relate solutions to
      schedules in both directions, [LoweringCost] the cost variables,
      [LoweringProofs] the helpers, [LoweringTheorems] the results.
    - [Solver], [SolverProofs], [SolverTheorems]: optimizer/solver.py;
      [ReferenceSolver] is an exhaustive solver that keeps the promises.
    - [Results]: optimizer/results.py.

    Profiles and files:
    - [Energy]: domain/energy.py over Python's [decimal].
    - [ProfileHash], [SemanticIdentity]: the files of the same names in domain.
    - [Espi], [EspiProofs], [PgeCsv], [PgeCsvProofs], [Normalize], [Simulated]:
      the files of the same names in ingestion.

    Persistence:
    - [Database], [AuditLog], [Jobs], [JobsProofs], [JobsHistory]:
      persistence/jobs.py and audit.py over the tables of models.py.
    - [Deletion]: domain/deletion_protocol.py; module [Protocol] is
      [DeletionProtocolState] as a step relation, module [Registry] is
      [DeletionIntentRegistry].
    - [Keyrings]: persistence/keyrings.py.
    - [Ledger]: persistence/deletion_ledger.py, in the order of the file.  Its
      state is [Disk]; an operation is a function of the disk that ends in a
      value or an exception.  [LedgerText], [LedgerProofs]: what is written is
      read back; [LedgerChains]: the chains of events; [LedgerSafety]: what each
      operation leaves when a write fails; [LedgerWrites]: an operation depends on
      its own writes only, and what a short write does; [LedgerIntegrity],
      [LedgerTheorems], [LedgerRotation]: the results; [LedgerModel]: a platform
      for witnesses.
    - [DeletionStore]: the other tables of models.py.
    - [Deletions]: persistence/deletions.py.  An operation is a function of a
      [World], the committed rows, the services outside the database and the
      counts of draws and commits; [DeletionsInvariant] relates the tables to the
      events of the ledger, [DeletionsProofs] keeps the relation through every
      call, [DeletionsModel] discharges the interface of the ledger and has a
      service for witnesses, [DeletionsTheorems] the results.
    - [DeletionSweep], [DeletionSweepProofs], [DeletionSweepTheorems]:
      persistence/deletion_sweep.py over the same
      [World] and an object store.

    ** What the theorems show

    - Rounding and division: [apportion_integer] sums back exactly, and every
      share is within one unit of its quota.
    - Eligibility: the verdict and the reason codes are equivalent to a
      declarative specification; the only exception besides a stable code is
      the leap-day defect.
    - Replay: the stateful operator loop is equivalent to a state-free
      reference bill; its internal errors are unreachable on validated input;
      all allocations add up to the bill.
    - Compiler: a bundle exists only for a tariff that meets the admission
      contract.
    - Comparison: candidates are ranked in the order of the replayed bills.
    - Scenarios: admission is equivalent to reference feasibility; the verifier
      accepts exactly the feasible schedules.
    - Lowering: the solutions of the emitted model are exactly the schedules
      the verifier accepts, with the same objective values; the six recorded
      bounds hold on them.  A variable is the object OR-Tools returns; its label
      is [var_name], which two variables can share.
    - Solver: whatever the solver answers, only verified schedules are
      selected, never worse than the reference; with a lawful solver the search
      returns and a claimed optimum is one.
    - Ingestion: admitted files hold no declarations in ASCII, and their readings
      are uniform and disjoint with gaps reported exactly; local times are resolved
      to the instants that show them; confirmation accepts exactly the tiled
      periods.
    - Identity: canonical bytes decode to the content they encode.
    - Jobs: a replaced lease is inert after any history, and the oldest
      leasable job is granted.
    - Deletion: a target is deleted only by the full sequence, and an intent is
      consumed only when current, presented with its secret, and unexpired or
      already prepared.
    - Coordinator: with a database and a ledger that share no transaction, with
      commits that are refused or not acknowledged, every deletion moves through
      reachable states of the protocol; a start needs the owner and the secret
      and is durable; a fence stops the work of its target.
    - Sweep: the drain waits for the live writers of the target of its lease; an
      account loses exactly the rows that name it or hang off such rows, and its
      verification advances only when none of them and no object is left; the
      row of the account and the rows its deletion is known by stay until the
      completion; an import or a profile loses all that is derived from it; a
      finished deletion leaves its tombstone and its event in the ledger.
    - Ledger: whatever write fails, the files stay a ledger with the old events
      or the old events and the new one, and every view is audited, unless a
      write of the call was cut short ([cut_short]), which the code does not
      notice and the ledger does not survive; appending is idempotent; the
      signed head pins the committed records; the chains are those of the
      protocol; a migration stores a prefix.  The theorems on longer runs assume
      that no write of the run is cut short ([no_short_writes]).  A rotation that runs
      to its end commits, one interrupted over an uncommitted tail locks the
      ledger.
    - Deviations from what the code says of itself are theorems too, listed as
      findings; lemmas such as [leap_day_window_raises],
      [short_window_unnoticed] and [utf16_declaration_unseen] show the others.

    ** Conventions

    Python integers are unbounded, hence [Z]; 64-bit bounds are statements.  A
    [Fraction] is a reduced [Q].  An instant is in microseconds since the epoch,
    a date in days.  Byte strings and ASCII texts are strings.  An exception is
    a value of [exn], with the source's class and stable code; messages and
    keyword witnesses are left out.  A [dict] is an association list in
    insertion order.  Operations keep the source's names without a leading
    underscore, with a suffix where two files reuse a name.

    A database table is the list of its rows.  A transaction is a function of
    the tables that is rolled back by an exception.  A file is an optional text;
    every write has an outcome given by the platform: stored, refused or cut
    short.  Random tokens are arguments, or drawn from the platform in order.

    What lies outside the repository is a type class or an argument: [Sha256],
    [Crypto] with [LedgerLaws] (HKDF, HMAC, AES-GCM), [ReceiptHasher] (Argon2),
    [ZoneInfo] with [ZoneLaws], CP-SAT with [LawfulSolver], the XML reader and
    schema validator, Unicode normalisation, the texts [json.loads],
    [fromisoformat] and [b64decode] accept beyond those the program writes, the
    parsed files of [Root] and [LockedFiles], and pydantic's parsing.  Each has
    a concrete instance on which the witnesses run.

    Fuel.  [segment_loop] gets one unit per second of the interval, and each
    turn advances by at least a second.  [json_eqb] gets four levels for values
    nested three deep.  [digits_from] gets [Z.log2] units, which no decimal
    length exceeds.  [lease_loop] gets the number of jobs, each turn of which
    finishes one.  [split_chunks] and [read_lines] get the length of the
    payload, of which each turn consumes a part.  [unique_nonce_from] has the
    source's eight attempts.

    ** What is not modelled

    Nested Atom entries are observed after the source cleared them, and the
    progress callback of the ESPI adapter is left out.  Ledger fields are read
    at the types the ledger writes.  Locks are not modelled: transactions run one
    after the other.  A foreign key without a cascade is not checked; it can only
    refuse a commit, and every commit may be refused.  Retention, backups and
    restore, and the publication of imports, replays, comparisons, scenarios and
    reports are transactions and object-store calls around the modelled core.  The
    HTTP API, the workers, telemetry and the command lines are input and output.
    The web front end, migrations, qualification scripts and benchmarks are not
    part of the core.

    Next, in this order: restore and retention, the publication of results. *)

From stdpp Require Export base sets list strings pretty numbers gmap.
From Stdlib Require Export Sorting.Permutation Sorting.Sorted Lia.

#[export] Set Default Goal Selector "!".

Declare Scope replay_scope.
Delimit Scope replay_scope with replay.
Open Scope string_scope.
Open Scope list_scope.
Open Scope Z_scope.

(** ** Exceptions and the result monad

    The exception classes the modelled code raises.  The classes that carry a
    stable [code] attribute keep it; human-readable messages and the witness
    keyword arguments are presentation only and are not modelled.
    [ValidationError] is a rejection by a pydantic validator of the source
    (the text is the validator's own message) and [PyError] is a built-in
    exception such as [OverflowError]. *)
Inductive exn :=
| ReplayError (code : string)
| ChargeIRError (code : string)
| TariffCompileError (code : string)
| ComparisonError (code : string)
| ScenarioValidationError (code : string)
| ScheduleVerificationError (code : string)
| OptimizationLoweringError (code : string)
| DeletionProtocolError (code : string)
| EnergyAdmissionError (code : string)
| ConfirmationError (code : string)
| CanonicalEncodingError (message : string)
| AuditEventError (message : string)
| OptimizationExecutionError (code : string)
| ScenarioResultError (code : string)
| ReportConstructionError (code : string)
| EspiParseError (code : string)
| PgeCsvError (code : string)
| SimulatedProfileError (code : string)
| RetentionError (code : string)
| ServiceError (class code : string)  (** the error classes of the services and workers *)
| ValidationError (message : string)
| PyError (class : string).

#[export] Instance exn_eq_dec : EqDecision exn.
Proof. solve_decision. Defined.

Inductive result (A : Type) :=
| Ok (a : A)
| Raise (e : exn).
Arguments Ok {A} a.
Arguments Raise {A} e.

#[export] Instance result_ret : MRet result := @Ok.
#[export] Instance result_bind : MBind result :=
  fun A B k m => match m with Ok a => k a | Raise e => Raise e end.

#[global] Arguments result_bind {A B} k !m /.

(** [raise_if b e] is the statement [if b: raise e]. *)
Definition raise_if (b : bool) (e : exn) : result unit :=
  if b then Raise e else Ok tt.

(** A Python [for] loop with early exit by exception. *)
Fixpoint foldM {S A} (f : S -> A -> result S) (s : S) (l : list A) : result S :=
  match l with
  | [] => Ok s
  | x :: l' => s' ← f s x; foldM f s' l'
  end.

(** A loop that only checks. *)
Fixpoint forM_ {A} (f : A -> result unit) (l : list A) : result unit :=
  match l with
  | [] => Ok tt
  | x :: l' => _ ← f x; forM_ f l'
  end.

Lemma bind_ok {A B} (m : result A) (k : A -> result B) b :
  m ≫= k = Ok b <-> exists a, m = Ok a /\ k a = Ok b.
Proof.
  destruct m as [a|e]; simpl; split; [by exists a|by intros (? & [= ->] & ?)|done|].
  by intros (? & ? & ?).
Qed.

Lemma ok_inj {A} (x y : A) : Ok x = Ok y -> x = y.
Proof. by injection 1. Qed.

Lemma raise_if_ok b e u : raise_if b e = Ok u <-> b = false.
Proof. destruct b, u; simpl; split; congruence. Qed.

Lemma foldM_app {S A} (f : S -> A -> result S) s l1 l2 :
  foldM f s (l1 ++ l2) = s' ← foldM f s l1; foldM f s' l2.
Proof.
  revert s; induction l1 as [|x l1 IH]; intros s; simpl; [done|].
  destruct (f s x); simpl; [apply IH|done].
Qed.

(** Invariant rule for loops: [P] holds of the processed prefix and the state. *)
Lemma foldM_prefix_inv {S A} (f : S -> A -> result S) (P : list A -> S -> Prop) s0 l r :
  P [] s0 ->
  (forall done x s s', (exists todo, l = done ++ x :: todo) ->
     P done s -> f s x = Ok s' -> P (done ++ [x]) s') ->
  foldM f s0 l = Ok r -> P l r.
Proof.
  intros H0 Hstep.
  cut (forall done todo s, l = done ++ todo -> P done s -> foldM f s todo = Ok r -> P l r).
  { intros H Hr. by apply (H [] l s0). }
  intros done todo; revert done.
  induction todo as [|x todo IH]; intros done s -> Hs Hr; simpl in *.
  - simplify_eq. by rewrite app_nil_r.
  - apply bind_ok in Hr as (s' & Hf & Hr).
    apply (IH (done ++ [x]) s'); [by rewrite <- app_assoc| |done].
    eapply Hstep; eauto.
Qed.

Lemma foldM_inv {S A} (f : S -> A -> result S) (P : S -> Prop) s0 l r :
  P s0 -> (forall x s s', x ∈ l -> P s -> f s x = Ok s' -> P s') ->
  foldM f s0 l = Ok r -> P r.
Proof.
  intros H0 Hstep. apply (foldM_prefix_inv f (fun _ s => P s)); [done|].
  intros done x s s' [todo ->]. apply Hstep. set_solver.
Qed.

Lemma forM_ok {A} (f : A -> result unit) l u :
  forM_ f l = Ok u <-> Forall (fun x => f x = Ok tt) l.
Proof.
  destruct u. induction l as [|x l IH]; simpl; [naive_solver|].
  rewrite Forall_cons, bind_ok, <- IH. split.
  - by intros ([] & ? & ?).
  - intros [??]. by exists tt.
Qed.

Lemma mapM_ok {A B} (f : A -> result B) l k :
  mapM f l = Ok k <-> Forall2 (fun x y => f x = Ok y) l k.
Proof.
  revert k; induction l as [|x l IH]; intros k; simpl.
  - split; [intros [= <-]; constructor|by inversion 1].
  - rewrite bind_ok. split.
    + intros (y & Hy & Hk). apply bind_ok in Hk as (k' & Hk' & [= <-]).
      constructor; [done|by apply IH].
    + inversion 1; subst. exists y; split; [done|].
      apply bind_ok. exists l'; split; [by apply IH|done].
Qed.

Lemma mapM_elem_l {A B} (f : A -> result B) l k x :
  mapM f l = Ok k -> x ∈ l -> exists y, y ∈ k /\ f x = Ok y.
Proof.
  rewrite mapM_ok. induction 1 as [|a b l k Hab _ IH]; intros Hx; [set_solver|].
  apply elem_of_cons in Hx as [->|Hx]; [set_solver|]. destruct (IH Hx) as (y & ? & ?). set_solver.
Qed.

Lemma mapM_elem_r {A B} (f : A -> result B) l k y :
  mapM f l = Ok k -> y ∈ k -> exists x, x ∈ l /\ f x = Ok y.
Proof.
  rewrite mapM_ok. induction 1 as [|a b l k Hab _ IH]; intros Hy; [set_solver|].
  apply elem_of_cons in Hy as [->|Hy]; [set_solver|]. destruct (IH Hy) as (x & ? & ?). set_solver.
Qed.

(** ** Exceptions a computation can raise *)

(** Every exception [m] can raise satisfies [P]. *)
Definition raises {A} (P : exn -> Prop) (m : result A) : Prop := forall e, m = Raise e -> P e.

Lemma raises_bind {A B} P (m : result A) (k : A -> result B) :
  raises P m -> (forall a, m = Ok a -> raises P (k a)) -> raises P (m ≫= k).
Proof. unfold raises. destruct m as [a|e]; simpl; intros Hm Hk e' He; [by eapply Hk|]. apply Hm. congruence. Qed.
Lemma raises_ok {A} P (a : A) : raises P (Ok a).
Proof. by intros e. Qed.
Lemma raises_if P b e : P e -> raises P (raise_if b e).
Proof. intros He e'. destruct b; [|done]. by intros [= <-]. Qed.
Lemma raises_raise {A} (P : exn -> Prop) e : P e -> raises P (Raise e : result A).
Proof. intros He e'. by intros [= <-]. Qed.
Lemma raises_forM {A} P (f : A -> result unit) l : (forall x, x ∈ l -> raises P (f x)) -> raises P (forM_ f l).
Proof.
  induction l as [|x l IH]; intros Hf; simpl; [apply raises_ok|].
  apply raises_bind; [apply Hf; set_solver|]. intros _ _. apply IH. intros; apply Hf; set_solver.
Qed.
Lemma raises_mapM {A B} P (f : A -> result B) l : (forall x, raises P (f x)) -> raises P (mapM f l).
Proof.
  intros Hf. induction l as [|x l IH]; simpl; [apply raises_ok|].
  apply raises_bind; [apply Hf|]. intros y _. apply raises_bind; [done|]. intros. apply raises_ok.
Qed.
Lemma raises_foldM_elem {S A} P (f : S -> A -> result S) s l :
  (forall s x, x ∈ l -> raises P (f s x)) -> raises P (foldM f s l).
Proof.
  revert s. induction l as [|x l IH]; intros s Hf; simpl; [apply raises_ok|].
  apply raises_bind; [apply Hf; set_solver|]. intros s' _. apply IH. intros; apply Hf; set_solver.
Qed.
Lemma raises_foldM {S A} P (f : S -> A -> result S) s l :
  (forall s x, raises P (f s x)) -> raises P (foldM f s l).
Proof. intros Hf. apply raises_foldM_elem. auto. Qed.

Ltac raises_step :=
  first [ apply raises_ok | apply raises_if | apply raises_raise
        | apply raises_bind; [|intros ? _] | apply raises_forM; intros ? _ | apply raises_mapM; intros ?
        | apply raises_foldM; intros ? ? ].

(** ** Orders: Python's [<] on the key types that [sorted] is used with *)
Class PyOrd (K : Type) := {
  py_cmp : K -> K -> comparison;
  py_cmp_eq x y : py_cmp x y = Eq <-> x = y;
  py_cmp_antisym x y : py_cmp y x = CompOpp (py_cmp x y);
  py_cmp_trans x y z : py_cmp x y = Lt -> py_cmp y z = Lt -> py_cmp x z = Lt
}.

Definition py_leb {K} `{PyOrd K} (x y : K) : bool :=
  match py_cmp x y with Gt => false | _ => true end.
Definition py_ltb {K} `{PyOrd K} (x y : K) : bool :=
  match py_cmp x y with Lt => true | _ => false end.

#[export, refine] Instance PyOrd_Z : PyOrd Z := {| py_cmp := Z.compare |}.
Proof.
  - apply Z.compare_eq_iff.
  - intros x y. apply Z.compare_antisym.
  - intros x y z. rewrite !Z.compare_lt_iff. lia.
Defined.

#[export, refine] Instance PyOrd_pair {K1 K2} `{PyOrd K1, PyOrd K2} : PyOrd (K1 * K2) :=
  {| py_cmp x y := match py_cmp x.1 y.1 with Eq => py_cmp x.2 y.2 | c => c end |}.
Proof.
  - intros [a b] [c d]; simpl. pose proof (py_cmp_eq a c). pose proof (py_cmp_eq b d).
    destruct (py_cmp a c) eqn:E; naive_solver.
  - intros [a b] [c d]; simpl. rewrite (py_cmp_antisym a c), (py_cmp_antisym b d).
    by destruct (py_cmp a c).
  - intros [a1 b1] [a2 b2] [a3 b3]; simpl.
    destruct (py_cmp a1 a2) eqn:E12, (py_cmp a2 a3) eqn:E23; intros; try done.
    + apply py_cmp_eq in E12 as ->. rewrite E23. eauto using py_cmp_trans.
    + apply py_cmp_eq in E12 as ->. by rewrite E23.
    + apply py_cmp_eq in E23 as ->. by rewrite E12.
    + by rewrite (py_cmp_trans _ _ _ E12 E23).
Defined.

Fixpoint list_cmp {K} `{PyOrd K} (l1 l2 : list K) : comparison :=
  match l1, l2 with
  | [], [] => Eq
  | [], _ => Lt
  | _, [] => Gt
  | x :: l1', y :: l2' => match py_cmp x y with Eq => list_cmp l1' l2' | c => c end
  end.

#[export, refine] Instance PyOrd_list {K} `{PyOrd K} : PyOrd (list K) :=
  {| py_cmp := list_cmp |}.
Proof.
  - intros l1; induction l1 as [|a l1 IH]; intros [|b l2]; simpl; try naive_solver.
    pose proof (py_cmp_eq a b). pose proof (IH l2). destruct (py_cmp a b) eqn:E; naive_solver.
  - intros l1; induction l1 as [|a l1 IH]; intros [|b l2]; simpl; try done.
    rewrite (py_cmp_antisym a b), IH. by destruct (py_cmp a b).
  - intros l1; induction l1 as [|a l1 IH]; intros [|b l2] [|c l3]; simpl; try done.
    destruct (py_cmp a b) eqn:E12, (py_cmp b c) eqn:E23; intros; try done.
    + apply py_cmp_eq in E12 as ->. rewrite E23. eauto.
    + apply py_cmp_eq in E12 as ->. by rewrite E23.
    + apply py_cmp_eq in E23 as ->. by rewrite E12.
    + by rewrite (py_cmp_trans _ _ _ E12 E23).
Defined.

(** Python compares strings by code point; on the UTF-8 bytes a Rocq [string]
    holds this is the bytewise lexicographic order. *)
Definition string_codes (s : string) : list Z :=
  (fun c => Z.of_N (Ascii.N_of_ascii c)) <$> String.list_ascii_of_string s.

Lemma string_codes_inj s1 s2 : string_codes s1 = string_codes s2 -> s1 = s2.
Proof.
  intros H. rewrite <- (String.string_of_list_ascii_of_string s1),
    <- (String.string_of_list_ascii_of_string s2). f_equal.
  eapply list_fmap_eq_inj; [|exact H].
  intros a b Hab. apply N2Z.inj in Hab.
  by rewrite <- (Ascii.ascii_N_embedding a), Hab, Ascii.ascii_N_embedding.
Qed.

#[export, refine] Instance PyOrd_string : PyOrd string :=
  {| py_cmp s1 s2 := py_cmp (string_codes s1) (string_codes s2) |}.
Proof.
  - intros x y. rewrite py_cmp_eq. split; [apply string_codes_inj|congruence].
  - intros x y. apply py_cmp_antisym.
  - intros x y z. apply py_cmp_trans.
Defined.

Section Order.
Context {K} `{PyOrd K}.

Lemma py_leb_refl x : py_leb x x = true.
Proof. unfold py_leb. by rewrite (proj2 (py_cmp_eq x x)). Qed.

Lemma py_leb_total x y : py_leb x y = true \/ py_leb y x = true.
Proof. unfold py_leb. rewrite (py_cmp_antisym x y). destruct (py_cmp x y); auto. Qed.

Lemma py_leb_antisym x y : py_leb x y = true -> py_leb y x = true -> x = y.
Proof.
  unfold py_leb. rewrite (py_cmp_antisym x y).
  destruct (py_cmp x y) eqn:E; [by apply py_cmp_eq in E|done|done].
Qed.

Lemma py_leb_trans x y z : py_leb x y = true -> py_leb y z = true -> py_leb x z = true.
Proof.
  unfold py_leb. destruct (py_cmp x y) eqn:E1, (py_cmp y z) eqn:E2; intros; try done.
  - apply py_cmp_eq in E1 as ->. by rewrite E2.
  - apply py_cmp_eq in E1 as ->. by rewrite E2.
  - apply py_cmp_eq in E2 as ->. by rewrite E1.
  - by rewrite (py_cmp_trans _ _ _ E1 E2).
Qed.

Lemma py_ltb_leb x y : py_ltb x y = negb (py_leb y x).
Proof.
  unfold py_ltb, py_leb. rewrite (py_cmp_antisym x y). by destruct (py_cmp x y).
Qed.

Lemma py_ltb_ge x y : py_ltb x y = false <-> py_leb y x = true.
Proof. rewrite py_ltb_leb. by destruct (py_leb y x). Qed.
End Order.

Lemma py_leb_Z (x y : Z) : py_leb x y = (x <=? y).
Proof. reflexivity. Qed.
Lemma py_ltb_Z (x y : Z) : py_ltb x y = (x <? y).
Proof. reflexivity. Qed.

(** ** [sorted(l, key=key)]: a stable insertion sort *)
Section Sort.
Context {A K} `{PyOrd K} (key : A -> K).

Fixpoint insert_sorted (x : A) (l : list A) : list A :=
  match l with
  | [] => [x]
  | y :: l' => if py_leb (key x) (key y) then x :: y :: l' else y :: insert_sorted x l'
  end.

Definition sorted_by (l : list A) : list A := foldr insert_sorted [] l.

Definition key_le (x y : A) : Prop := py_leb (key x) (key y) = true.

Lemma insert_sorted_perm x l : insert_sorted x l ≡ₚ x :: l.
Proof.
  induction l as [|y l IH]; simpl; [done|]. case_match; [done|]. rewrite IH. constructor.
Qed.

Lemma sorted_by_perm l : sorted_by l ≡ₚ l.
Proof. induction l as [|x l IH]; simpl; [done|]. by rewrite insert_sorted_perm, IH. Qed.

Lemma insert_sorted_sorted x l :
  StronglySorted key_le l -> StronglySorted key_le (insert_sorted x l).
Proof.
  induction 1 as [|y l Hs IH Hy]; simpl; [repeat constructor|]. case_match eqn:E.
  - constructor; [by constructor|]. constructor; [done|].
    eapply Forall_impl; [exact Hy|]. intros z Hz. eapply py_leb_trans; [exact E|exact Hz].
  - constructor; [done|]. rewrite insert_sorted_perm. constructor; [|done].
    unfold key_le. destruct (py_leb_total (key x) (key y)); congruence.
Qed.

Lemma sorted_by_sorted l : StronglySorted key_le (sorted_by l).
Proof. induction l as [|x l IH]; simpl; [constructor|]. by apply insert_sorted_sorted. Qed.

Lemma sorted_by_id l : StronglySorted key_le l -> sorted_by l = l.
Proof.
  induction 1 as [|x l Hs IH Hx]; simpl; [done|]. rewrite IH.
  destruct Hx as [|y l' Hy]; simpl; [done|]. unfold key_le in Hy. by rewrite Hy.
Qed.

Lemma elem_of_sorted_by x l : x ∈ sorted_by l <-> x ∈ l.
Proof. by rewrite sorted_by_perm. Qed.

Lemma length_sorted_by l : length (sorted_by l) = length l.
Proof. by rewrite sorted_by_perm. Qed.

(** Two sorted permutations whose elements are told apart by their key agree. *)
Lemma StronglySorted_key_unique l1 l2 :
  (forall x y, x ∈ l1 -> y ∈ l1 -> key x = key y -> x = y) ->
  StronglySorted key_le l1 -> StronglySorted key_le l2 -> l1 ≡ₚ l2 -> l1 = l2.
Proof.
  intros Hinj Hs1; revert l2; induction Hs1 as [|x l1 Hs1 IH Hx]; intros l2 Hs2 Hp.
  - by apply Permutation_nil_l in Hp.
  - destruct l2 as [|y l2]; [by apply Permutation_nil_r in Hp|].
    inversion Hs2 as [|?? Hs2' Hy]; subst.
    assert (x = y) as ->.
    { assert (y ∈ x :: l1) as Hyin by (rewrite Hp; set_solver).
      assert (x ∈ y :: l2) as Hxin by (rewrite <- Hp; set_solver).
      apply Hinj; [set_solver|done|].
      apply py_leb_antisym.
      - apply elem_of_cons in Hyin as [->|Hyin]; [apply py_leb_refl|].
        rewrite Forall_forall in Hx. by apply Hx.
      - apply elem_of_cons in Hxin as [->|Hxin]; [apply py_leb_refl|].
        rewrite Forall_forall in Hy. by apply Hy. }
    f_equal. apply IH; [|done|by apply Permutation_cons_inv in Hp].
    intros; apply Hinj; set_solver.
Qed.

Lemma sorted_by_unique l1 l2 :
  (forall x y, x ∈ l1 -> y ∈ l1 -> key x = key y -> x = y) ->
  l1 ≡ₚ l2 -> sorted_by l1 = sorted_by l2.
Proof.
  intros Hinj Hp. apply StronglySorted_key_unique.
  - intros x y. rewrite !elem_of_sorted_by. apply Hinj.
  - apply sorted_by_sorted.
  - apply sorted_by_sorted.
  - by rewrite !sorted_by_perm.
Qed.
End Sort.

(** [sorted(l)] on values that are their own key, and [sorted(set(l))]. *)
Definition py_sorted {K} `{PyOrd K} (l : list K) : list K := sorted_by (fun x => x) l.
Definition sorted_set {K} `{PyOrd K, EqDecision K} (l : list K) : list K :=
  py_sorted (remove_dups l).

Lemma elem_of_sorted_set {K} `{PyOrd K, EqDecision K} (l : list K) x :
  x ∈ sorted_set l <-> x ∈ l.
Proof. unfold sorted_set, py_sorted. by rewrite elem_of_sorted_by, elem_of_remove_dups. Qed.

Lemma sorted_set_nil {K} `{PyOrd K, EqDecision K} (l : list K) : sorted_set l = [] <-> l = [].
Proof.
  split; [|by intros ->]. intros E. destruct l as [|x l]; [done|].
  assert (x ∈ sorted_set (x :: l)) as Hx by (apply elem_of_sorted_set; set_solver).
  rewrite E in Hx. set_solver.
Qed.

Lemma sorted_set_NoDup {K} `{PyOrd K, EqDecision K} (l : list K) : NoDup (sorted_set l).
Proof. unfold sorted_set, py_sorted. rewrite sorted_by_perm. apply NoDup_remove_dups. Qed.

(** ** Sums *)
Definition zsum (l : list Z) : Z := foldr Z.add 0 l.
Definition sum_by {A} (f : A -> Z) (l : list A) : Z := zsum (f <$> l).

Lemma zsum_app l1 l2 : zsum (l1 ++ l2) = zsum l1 + zsum l2.
Proof. unfold zsum. induction l1 as [|x l1 IH]; simpl; lia. Qed.

#[export] Instance zsum_proper : Proper ((≡ₚ) ==> (=)) zsum.
Proof. induction 1; simpl in *; lia. Qed.

Section SumBy.
Context {A : Type}.
Implicit Types (f g : A -> Z) (l : list A).

Lemma sum_by_nil f : sum_by f [] = 0.
Proof. done. Qed.
Lemma sum_by_cons f x l : sum_by f (x :: l) = f x + sum_by f l.
Proof. done. Qed.
Lemma sum_by_app f l1 l2 : sum_by f (l1 ++ l2) = sum_by f l1 + sum_by f l2.
Proof. unfold sum_by. by rewrite fmap_app, zsum_app. Qed.
Lemma sum_by_snoc f x l : sum_by f (l ++ [x]) = sum_by f l + f x.
Proof. rewrite sum_by_app, sum_by_cons, sum_by_nil. lia. Qed.

#[export] Instance sum_by_proper f : Proper ((≡ₚ) ==> (=)) (sum_by f).
Proof. intros l1 l2 Hl. unfold sum_by. by rewrite Hl. Qed.

Lemma sum_by_ext f g l : (forall x, x ∈ l -> f x = g x) -> sum_by f l = sum_by g l.
Proof.
  induction l as [|x l IH]; intros H; [done|].
  rewrite !sum_by_cons, (H x), IH; [done| |]; set_solver.
Qed.
Lemma sum_by_plus f g l : sum_by (fun x => f x + g x) l = sum_by f l + sum_by g l.
Proof. induction l as [|x l IH]; rewrite ?sum_by_cons, ?sum_by_nil; lia. Qed.
Lemma sum_by_scale c f l : sum_by (fun x => c * f x) l = c * sum_by f l.
Proof. induction l as [|x l IH]; rewrite ?sum_by_cons, ?sum_by_nil; lia. Qed.
Lemma sum_by_const c l : sum_by (fun _ => c) l = c * Z.of_nat (length l).
Proof. induction l as [|x l IH]; rewrite ?sum_by_cons, ?sum_by_nil; simpl length; lia. Qed.
Lemma sum_by_le f g l : (forall x, x ∈ l -> f x <= g x) -> sum_by f l <= sum_by g l.
Proof.
  induction l as [|x l IH]; intros H; [done|]. rewrite !sum_by_cons.
  assert (f x <= g x) by (apply H; set_solver).
  assert (sum_by f l <= sum_by g l) by (apply IH; set_solver). lia.
Qed.
Lemma sum_by_nonneg f l : (forall x, x ∈ l -> 0 <= f x) -> 0 <= sum_by f l.
Proof.
  intros H. transitivity (sum_by (fun _ => 0) l); [rewrite sum_by_const; lia|].
  by apply sum_by_le.
Qed.
Lemma sum_by_elem f l x : (forall y, y ∈ l -> 0 <= f y) -> x ∈ l -> f x <= sum_by f l.
Proof.
  intros Hf [l1 [l2 ->]]%list_elem_of_split.
  rewrite sum_by_app, sum_by_cons.
  assert (0 <= sum_by f l1) by (apply sum_by_nonneg; intros; apply Hf; set_solver).
  assert (0 <= sum_by f l2) by (apply sum_by_nonneg; intros; apply Hf; set_solver).
  lia.
Qed.
Lemma sum_by_split (p : A -> bool) f l :
  sum_by f l = sum_by f (List.filter p l) + sum_by f (List.filter (fun x => negb (p x)) l).
Proof.
  induction l as [|x l IH]; simpl; [done|].
  destruct (p x); simpl; rewrite !sum_by_cons; lia.
Qed.
End SumBy.

Lemma sum_by_fmap {A B} (f : B -> Z) (g : A -> B) (l : list A) :
  sum_by f (g <$> l) = sum_by (fun x => f (g x)) l.
Proof. unfold sum_by. by rewrite <- list_fmap_compose. Qed.

Lemma sum_by_swap {A B} (f : A -> B -> Z) (l : list A) (k : list B) :
  sum_by (fun x => sum_by (f x) k) l = sum_by (fun y => sum_by (fun x => f x y) l) k.
Proof.
  induction l as [|x l IH].
  - rewrite sum_by_nil, (sum_by_ext _ (fun _ => 0)) by done. rewrite sum_by_const. lia.
  - rewrite sum_by_cons, IH, <- sum_by_plus. by apply sum_by_ext.
Qed.

Lemma sum_by_indicator {A K} `{EqDecision K} (g : A -> K) (k : K) (c : Z) (l : list A) :
  NoDup (g <$> l) -> k ∈ g <$> l -> sum_by (fun x => if decide (k = g x) then c else 0) l = c.
Proof.
  induction l as [|x l IH]; simpl; [set_solver|]. intros [Hx Hnd]%NoDup_cons Hk.
  rewrite sum_by_cons. destruct (decide (k = g x)) as [->|Hne].
  - rewrite (sum_by_ext _ (fun _ => 0)); [rewrite sum_by_const; lia|].
    intros y Hy. apply decide_False. intros E. apply Hx. rewrite E. apply list_elem_of_fmap. eauto.
  - rewrite IH; [lia|done|set_solver].
Qed.

(** ** Insertion-ordered dictionaries *)
Notation dict K V := (list (K * V)).

Section Dict.
Context {K V : Type} `{EqDecision K}.
Implicit Types (d : dict K V) (k : K).

Fixpoint dict_get (k : K) (d : dict K V) : option V :=
  match d with
  | [] => None
  | (k', v) :: d' => if decide (k = k') then Some v else dict_get k d'
  end.

(** [d[k] = v]: an existing key keeps its place, a new one goes last. *)
Fixpoint dict_set (k : K) (v : V) (d : dict K V) : dict K V :=
  match d with
  | [] => [(k, v)]
  | (k', v') :: d' => if decide (k = k') then (k', v) :: d' else (k', v') :: dict_set k v d'
  end.

(** [d.setdefault(k, v)] returns the stored value and the updated dictionary. *)
Definition dict_setdefault (k : K) (v : V) (d : dict K V) : V * dict K V :=
  match dict_get k d with Some v' => (v', d) | None => (v, dict_set k v d) end.

Lemma dict_get_set_eq k v d : dict_get k (dict_set k v d) = Some v.
Proof. induction d as [|[k' v'] d IH]; simpl; repeat case_decide; simpl; by repeat case_decide. Qed.

Lemma dict_get_set_ne k k' v d : k <> k' -> dict_get k' (dict_set k v d) = dict_get k' d.
Proof.
  intros Hne. induction d as [|[k1 v1] d IH]; simpl; [by rewrite decide_False|].
  case_decide; simpl; repeat case_decide; congruence.
Qed.

Lemma dict_set_fresh k v d : k ∉ d.*1 -> dict_set k v d = d ++ [(k, v)].
Proof.
  induction d as [|[k' v'] d IH]; simpl; [done|]. intros Hk.
  rewrite decide_False by set_solver. f_equal. apply IH. set_solver.
Qed.

Lemma dict_set_keys_in k v d : k ∈ d.*1 -> (dict_set k v d).*1 = d.*1.
Proof.
  induction d as [|[k' v'] d IH]; simpl; [set_solver|]. intros Hk.
  destruct (decide (k = k')) as [->|Hne]; simpl; [done|]. f_equal. apply IH. set_solver.
Qed.

Lemma dict_set_keys_new k v d : k ∉ d.*1 -> (dict_set k v d).*1 = d.*1 ++ [k].
Proof.
  induction d as [|[k' v'] d IH]; simpl; [done|]. intros Hk.
  destruct (decide (k = k')) as [->|Hne]; simpl; [set_solver|]. f_equal. apply IH. set_solver.
Qed.

Lemma dict_set_NoDup k v d : NoDup d.*1 -> NoDup (dict_set k v d).*1.
Proof.
  intros Hd. destruct (decide (k ∈ d.*1)).
  - by rewrite dict_set_keys_in.
  - rewrite dict_set_keys_new by done.
    apply NoDup_app; repeat split; [done|set_solver|apply NoDup_singleton].
Qed.

Lemma dict_get_elem k v d : dict_get k d = Some v -> (k, v) ∈ d.
Proof. induction d as [|[k' v'] d IH]; simpl; [done|]. case_decide; set_solver. Qed.

Lemma dict_elem_get k v d : NoDup d.*1 -> (k, v) ∈ d -> dict_get k d = Some v.
Proof.
  induction d as [|[k' v'] d IH]; simpl; [set_solver|].
  rewrite NoDup_cons, elem_of_cons. intros [Hk Hd] [[= <- <-]|Hin]; [by rewrite decide_True|].
  rewrite decide_False; [by apply IH|]. intros ->. apply Hk.
  apply list_elem_of_fmap. by exists (k', v).
Qed.

Lemma dict_get_None k d : dict_get k d = None <-> k ∉ d.*1.
Proof.
  induction d as [|[k' v'] d IH]; simpl; [set_solver|]. case_decide; set_solver.
Qed.
End Dict.

(** [d[k] = d.get(k, 0) + n]: accumulate in a dictionary of totals. *)
Definition dict_add {K} `{EqDecision K} (k : K) (n : Z) (d : dict K Z) : dict K Z :=
  dict_set k (default 0 (dict_get k d) + n) d.

Definition dict_total {K} (d : dict K Z) : Z := sum_by snd d.

Lemma dict_set_total {K} `{EqDecision K} (k : K) n (d : dict K Z) :
  dict_total (dict_set k n d) = dict_total d + n - default 0 (dict_get k d).
Proof.
  unfold dict_total. induction d as [|[k' v'] d IH]; simpl.
  - rewrite !sum_by_cons, sum_by_nil; simpl; lia.
  - case_decide; rewrite !sum_by_cons; simpl in *; lia.
Qed.

Lemma dict_add_total {K} `{EqDecision K} (k : K) n (d : dict K Z) :
  dict_total (dict_add k n d) = dict_total d + n.
Proof. unfold dict_add. rewrite dict_set_total. lia. Qed.

Lemma dict_add_get {K} `{EqDecision K} (k k' : K) n (d : dict K Z) :
  default 0 (dict_get k' (dict_add k n d)) =
  default 0 (dict_get k' d) + if decide (k = k') then n else 0.
Proof.
  unfold dict_add. case_decide; subst.
  - by rewrite dict_get_set_eq.
  - rewrite dict_get_set_ne by done. lia.
Qed.

(** ** Lists *)

(** A key without duplicates determines the element. *)
Lemma NoDup_fmap_elem {A K} (f : A -> K) (l : list A) x y :
  NoDup (f <$> l) -> x ∈ l -> y ∈ l -> f x = f y -> x = y.
Proof.
  induction l as [|z l IH]; [set_solver|]. rewrite fmap_cons, NoDup_cons. intros [Hz Hl] Hx Hy Hf.
  apply elem_of_cons in Hx as [->|Hx], Hy as [->|Hy]; [done| | |by apply IH].
  - destruct Hz. rewrite Hf. apply list_elem_of_fmap. eauto.
  - destruct Hz. rewrite <- Hf. apply list_elem_of_fmap. eauto.
Qed.

Lemma NoDup_fmap_snoc {A K} (f : A -> K) (l : list A) x :
  NoDup (f <$> l) -> f x ∉ (f <$> l) -> NoDup (f <$> l ++ [x]).
Proof.
  intros Hl Hx. rewrite fmap_app. apply NoDup_app. split; [done|]. split; [|apply NoDup_singleton].
  intros y Hy Hy'. simpl in Hy'. apply list_elem_of_singleton in Hy' as ->. done.
Qed.

Lemma NoDup_fmap_filter {A K} (f : A -> K) (p : A -> bool) (l : list A) :
  NoDup (f <$> l) -> NoDup (f <$> List.filter p l).
Proof.
  induction l as [|x l IH]; [done|]. rewrite fmap_cons, NoDup_cons. intros [Hx Hl]. simpl.
  destruct (p x); [|by apply IH]. rewrite fmap_cons, NoDup_cons. split; [|by apply IH].
  intros (y & Hy & Hin)%list_elem_of_fmap. apply Hx. rewrite Hy. apply list_elem_of_fmap. exists y.
  split; [done|]. apply list_elem_of_In. apply list_elem_of_In, filter_In in Hin. naive_solver.
Qed.

Definition pairwise {A} (l : list A) : list (A * A) := zip l (tail l).

(** [len(l) != len(set(l))]. *)
Definition has_dups {A} `{EqDecision A} (l : list A) : bool := negb (bool_decide (NoDup l)).

Lemma has_dups_false {A} `{EqDecision A} (l : list A) : has_dups l = false <-> NoDup l.
Proof. unfold has_dups. rewrite negb_false_iff. apply bool_decide_eq_true. Qed.

(** Python membership test. *)
Definition mem {A} `{EqDecision A} (x : A) (l : list A) : bool := bool_decide (x ∈ l).

Lemma mem_true {A} `{EqDecision A} (x : A) l : mem x l = true <-> x ∈ l.
Proof. apply bool_decide_eq_true. Qed.
Lemma mem_false {A} `{EqDecision A} (x : A) l : mem x l = false <-> x ∉ l.
Proof. apply bool_decide_eq_false. Qed.

(** Equality of [set(a)] and [set(b)]. *)
Definition same_set {A} `{EqDecision A} (a b : list A) : bool :=
  forallb (fun x => mem x b) a && forallb (fun x => mem x a) b.

Lemma same_set_true {A} `{EqDecision A} (a b : list A) :
  same_set a b = true <-> (forall x, x ∈ a <-> x ∈ b).
Proof.
  unfold same_set. rewrite andb_true_iff, !forallb_forall. split.
  - intros [Hab Hba] x. split; intros Hx; apply mem_true; [apply Hab|apply Hba]; by apply list_elem_of_In.
  - intros Heq. split; intros x Hx%list_elem_of_In; apply mem_true; by apply Heq.
Qed.

(** [enumerate(l)] from a start index. *)
Fixpoint enumerate_from {A} (i : Z) (l : list A) : list (Z * A) :=
  match l with [] => [] | x :: l' => (i, x) :: enumerate_from (i + 1) l' end.
Notation enumerate := (enumerate_from 0).

(** ** Integers *)
Definition SIGNED_INT64_MAX : Z := 2 ^ 63 - 1.

(** ASCII [str.lower()]. *)
Definition ascii_lower (c : Ascii.ascii) : Ascii.ascii :=
  let n := Ascii.N_of_ascii c in
  if ((65 <=? n) && (n <=? 90))%N then Ascii.ascii_of_N (n + 32) else c.
Fixpoint str_lower (s : string) : string :=
  match s with
  | EmptyString => EmptyString
  | String c s' => String (ascii_lower c) (str_lower s')
  end.

(** [l[i]] for an index that is not negative. *)
Definition py_index {A} (l : list A) (i : Z) : result A :=
  match l !! Z.to_nat i with Some x => Ok x | None => Raise (PyError "IndexError") end.

(** [max(l)]; [None] on an empty list. *)
Definition py_max (l : list Z) : option Z :=
  match l with [] => None | x :: l' => Some (foldl Z.max x l') end.

Lemma py_index_ok {A} (l : list A) i x : py_index l i = Ok x <-> l !! Z.to_nat i = Some x.
Proof. unfold py_index. destruct (l !! Z.to_nat i); naive_solver. Qed.

Lemma foldl_max_ge v l : v <= foldl Z.max v l.
Proof. revert v. induction l as [|z l IH]; intros v; simpl; [lia|]. specialize (IH (Z.max v z)). lia. Qed.

Lemma py_max_ge l m x : py_max l = Some m -> x ∈ l -> x <= m.
Proof.
  destruct l as [|y l]; [done|]. simpl. intros [= <-]. revert y.
  induction l as [|z l IH]; intros y Hx; simpl; [set_solver by lia|].
  pose proof (foldl_max_ge (Z.max y z) l).
  apply elem_of_cons in Hx as [->|[->|Hx]%elem_of_cons]; [lia..|]. apply IH. set_solver.
Qed.

(** ** Automation *)
Create HintDb replay.

(** Break a successful monadic computation into its successful steps. *)
Ltac inv_ok :=
  repeat match goal with
  | H : mbind _ _ = Ok _ |- _ => apply bind_ok in H as (? & ? & ?)
  | H : raise_if _ _ = Ok ?u |- _ => apply raise_if_ok in H
  | H : Ok _ = Ok _ |- _ => injection H as H
  | H : mret _ = Ok _ |- _ => injection H as H
  | H : Raise _ = Ok _ |- _ => discriminate H
  | u : unit |- _ => destruct u
  end.

(** Membership in a literal list. *)
Ltac in_list := solve [repeat first [apply list_elem_of_here | apply list_elem_of_further]].

(** Turn boolean facts into arithmetic or logic ones. *)
Ltac bools :=
  repeat match goal with
  | H : (_ && _)%bool = true |- _ => apply andb_true_iff in H as [? ?]
  | H : (_ || _)%bool = false |- _ => apply orb_false_iff in H as [? ?]
  | H : negb _ = true |- _ => apply negb_true_iff in H
  | H : negb _ = false |- _ => apply negb_false_iff in H
  | H : bool_decide _ = true |- _ => apply bool_decide_eq_true in H
  | H : bool_decide _ = false |- _ => apply bool_decide_eq_false in H
  | H : (_ <=? _) = true |- _ => apply Z.leb_le in H
  | H : (_ <=? _) = false |- _ => apply Z.leb_gt in H
  | H : (_ <? _) = true |- _ => apply Z.ltb_lt in H
  | H : (_ <? _) = false |- _ => apply Z.ltb_ge in H
  | H : (_ =? _) = true |- _ => apply Z.eqb_eq in H
  | H : (_ =? _) = false |- _ => apply Z.eqb_neq in H
  | H : has_dups _ = false |- _ => apply has_dups_false in H
  | H : mem _ _ = true |- _ => apply mem_true in H
  | H : mem _ _ = false |- _ => apply mem_false in H
  end.
