(* ===== verification/Calendar.v ===== *)
(** * Calendar: the parts of Python's [datetime] and [zoneinfo] the code uses

    A [date] is the number of days since 1970-01-01, an instant (an aware UTC
    [datetime]) the number of microseconds since the epoch.  [ZoneInfo] is the
    interface to the time-zone database, which is data outside the repository:
    billing is parameterised by it, and [ZoneLaws] states what the diagnostic
    day splitting relies on.  [pacific_2026] is a concrete zone with the 2026
    transitions of America/Los_Angeles; it satisfies the laws and is what the
    witnesses evaluate. *)

From S2P Require Import Prelude.

(** ** Dates *)
Notation date := Z.

Definition date_min : date := -719162.  (* 0001-01-01 *)
Definition date_max : date := 2932896.  (* 9999-12-31 *)

(** Proleptic Gregorian year, month and day of a day number. *)
Definition date_ymd (d : date) : Z * Z * Z :=
  let z := d + 719468 in
  let era := z / 146097 in
  let doe := z mod 146097 in
  let yoe := (doe - doe / 1460 + doe / 36524 - doe / 146096) / 365 in
  let doy := doe - (365 * yoe + yoe / 4 - yoe / 100) in
  let mp := (5 * doy + 2) / 153 in
  let day := doy - (153 * mp + 2) / 5 + 1 in
  let month := if mp <? 10 then mp + 3 else mp - 9 in
  let year := yoe + era * 400 + (if month <=? 2 then 1 else 0) in
  (year, month, day).

Definition date_of_ymd (y m d : Z) : date :=
  let y' := if m <=? 2 then y - 1 else y in
  let era := y' / 400 in
  let yoe := y' mod 400 in
  let doy := (153 * (if 2 <? m then m - 3 else m + 9) + 2) / 5 + d - 1 in
  let doe := yoe * 365 + yoe / 4 - yoe / 100 + doy in
  era * 146097 + doe - 719468.

Definition date_year (d : date) : Z := (date_ymd d).1.1.
Definition date_month (d : date) : Z := (date_ymd d).1.2.
Definition date_day (d : date) : Z := (date_ymd d).2.

(** Monday is 0. *)
Definition weekday (d : date) : Z := (d + 3) mod 7.

Definition is_leap (y : Z) : bool :=
  (y mod 4 =? 0) && (negb (y mod 100 =? 0) || (y mod 400 =? 0)).

(** [d.replace(year=y)]: 29 February has no image in a common year. *)
Definition date_replace_year (d : date) (y : Z) : result date :=
  if (y <? 1) || (9999 <? y) then Raise (PyError "ValueError")
  else if (date_month d =? 2) && (date_day d =? 29) && negb (is_leap y)
  then Raise (PyError "ValueError")
  else Ok (date_of_ymd y (date_month d) (date_day d)).

(** [d + timedelta(days=1)]. *)
Definition date_succ (d : date) : result date :=
  if date_max <=? d then Raise (PyError "OverflowError") else Ok (d + 1).

Definition digit (n : Z) : string :=
  String (Ascii.ascii_of_N (Z.to_N (48 + n mod 10))) EmptyString.
Definition pad2 (n : Z) : string := digit (n / 10) +:+ digit n.
Definition pad4 (n : Z) : string := digit (n / 1000) +:+ digit (n / 100) +:+ pad2 n.

Definition isoformat (d : date) : string :=
  pad4 (date_year d) +:+ "-" +:+ pad2 (date_month d) +:+ "-" +:+ pad2 (date_day d).

(** [d.isoformat()[:7]]. *)
Definition iso_month (d : date) : string :=
  pad4 (date_year d) +:+ "-" +:+ pad2 (date_month d).

(** ** Instants *)
Definition US_PER_SECOND : Z := 1000000.
Definition US_PER_DAY : Z := 86400 * US_PER_SECOND.
Definition instant_min : Z := date_min * US_PER_DAY.
Definition instant_max : Z := (date_max + 1) * US_PER_DAY - 1.

(** A [datetime] computation that leaves years 1 to 9999 overflows. *)
Definition datetime_check (t : Z) : result Z :=
  if (t <? instant_min) || (instant_max <? t) then Raise (PyError "OverflowError") else Ok t.

(** [datetime.fromtimestamp(seconds, tz=UTC)]. *)
Definition fromtimestamp (seconds : Z) : result Z :=
  if (seconds <? - 2 ^ 63) || (2 ^ 63 - 1 <? seconds) then Raise (PyError "OverflowError")
  else if (seconds * US_PER_SECOND <? instant_min) || (instant_max <? seconds * US_PER_SECOND)
  then Raise (PyError "ValueError")
  else Ok (seconds * US_PER_SECOND).

(** [t.isoformat()] of a UTC [datetime]; microseconds are printed when nonzero. *)
Definition datetime_isoformat (t : Z) : string :=
  let second := t mod US_PER_DAY / US_PER_SECOND in
  let us := t mod US_PER_SECOND in
  isoformat (t / US_PER_DAY) +:+ "T" +:+ pad2 (second / 3600) +:+ ":" +:+ pad2 (second / 60 mod 60)
  +:+ ":" +:+ pad2 (second mod 60)
  +:+ (if us =? 0 then EmptyString else "." +:+ pad2 (us / 10000) +:+ pad4 (us mod 10000)) +:+ "+00:00".

Lemma datetime_check_ok t u : datetime_check t = Ok u -> u = t /\ instant_min <= t <= instant_max.
Proof.
  unfold datetime_check. case_match eqn:E; [done|]. intros [= <-]. bools. lia.
Qed.

(** ** Time zones *)
Class ZoneInfo := {
  utcoffset : Z -> Z;  (** offset in force at an instant, in microseconds *)
  localized : Z -> Z   (** the instant of a wall-clock time, [fold=0] *)
}.

Section Zone.
Context `{ZoneInfo}.

(** [t.astimezone(zone)], as wall-clock microseconds. *)
Definition astimezone (t : Z) : result Z := datetime_check (t + utcoffset t).

Definition wall_date (w : Z) : date := w / US_PER_DAY.
(** [hour * 60 + minute]. *)
Definition wall_minute (w : Z) : Z := (w mod US_PER_DAY) / (60 * US_PER_SECOND).

(** [datetime.combine(d, time.min, tzinfo=zone).astimezone(UTC)]. *)
Definition midnight_utc (d : date) : result Z := datetime_check (localized (d * US_PER_DAY)).

Definition local_date (t : Z) : date := wall_date (t + utcoffset t).
End Zone.

(** What day splitting relies on: local midnight exists and is unique, comes
    after every instant of the day before, offsets are whole seconds and, as
    Python's [tzinfo] contract demands, strictly less than a day. *)
Class ZoneLaws `{ZoneInfo} : Prop := {
  zone_next_midnight t : t < localized ((local_date t + 1) * US_PER_DAY);
  zone_midnight_date d : local_date (localized (d * US_PER_DAY)) = d;
  zone_whole_seconds d : localized (d * US_PER_DAY) mod US_PER_SECOND = 0;
  zone_offset_bound t : - US_PER_DAY < utcoffset t < US_PER_DAY;
  zone_localized_bound w : w - US_PER_DAY < localized w < w + US_PER_DAY
}.

(** ** America/Los_Angeles around 2026 *)
Definition dst_start_utc : Z := 1772964000 * US_PER_SECOND. (* 2026-03-08T10:00:00Z *)
Definition dst_end_utc : Z := 1793523600 * US_PER_SECOND.   (* 2026-11-01T09:00:00Z *)
Definition hours_us (n : Z) : Z := n * 3600 * US_PER_SECOND.

#[export] Instance pacific_2026 : ZoneInfo := {
  utcoffset t := if (dst_start_utc <=? t) && (t <? dst_end_utc) then - hours_us 7 else - hours_us 8;
  localized w :=
    if (dst_start_utc - hours_us 7 <=? w) && (w <? dst_end_utc - hours_us 7)
    then w + hours_us 7 else w + hours_us 8
}.

Lemma local_date_bounds (t d off : Z) :
  d * US_PER_DAY <= t + off < (d + 1) * US_PER_DAY <-> (t + off) / US_PER_DAY = d.
Proof.
  assert (0 < US_PER_DAY) by (unfold US_PER_DAY, US_PER_SECOND; lia).
  split; intros Hd.
  - symmetry. apply Z.div_unique with (t + off - d * US_PER_DAY); lia.
  - pose proof (Z.div_mod (t + off) US_PER_DAY). pose proof (Z.mod_pos_bound (t + off) US_PER_DAY).
    nia.
Qed.

#[export] Instance pacific_2026_laws : ZoneLaws.
Proof.
  split.
  - intros t. unfold local_date, wall_date.
    set (d := (t + utcoffset t) / US_PER_DAY).
    assert (d * US_PER_DAY <= t + utcoffset t < (d + 1) * US_PER_DAY) as Hd
      by by apply local_date_bounds.
    revert Hd. generalize d; clear d; intros d Hd. simpl in *.
    unfold dst_start_utc, dst_end_utc, hours_us, US_PER_DAY, US_PER_SECOND in *.
    repeat case_match; bools; lia.
  - intros d. unfold local_date, wall_date. apply local_date_bounds. simpl.
    unfold dst_start_utc, dst_end_utc, hours_us, US_PER_DAY, US_PER_SECOND in *.
    repeat case_match; rewrite ?andb_true_iff, ?andb_false_iff in *; bools; lia.
  - intros d. simpl. unfold hours_us, US_PER_DAY.
    assert (forall a, (a * US_PER_SECOND) mod US_PER_SECOND = 0) as Hm by (intros; apply Z_mod_mult).
    case_match; [rewrite <- (Hm (d * 86400 + 7 * 3600))|rewrite <- (Hm (d * 86400 + 8 * 3600))];
      f_equal; unfold US_PER_SECOND; lia.
  - intros t. simpl. unfold hours_us, US_PER_DAY, US_PER_SECOND. case_match; lia.
  - intros w. simpl. unfold hours_us, US_PER_DAY, US_PER_SECOND. case_match; lia.
Qed.

Example isoformat_july : isoformat (date_of_ymd 2026 7 1) = "2026-07-01".
Proof. reflexivity. Qed.
Example epoch_ymd : date_ymd 0 = (1970, 1, 1).
Proof. reflexivity. Qed.
Example july_2026_weekday : weekday (date_of_ymd 2026 7 1) = 2.
Proof. reflexivity. Qed.
Example july_first_pacific :
  local_date (1782889200 * US_PER_SECOND) = date_of_ymd 2026 7 1.
Proof. reflexivity. Qed.
Example datetime_isoformat_july :
  datetime_isoformat (1782889200 * US_PER_SECOND) = "2026-07-01T07:00:00+00:00"
  /\ datetime_isoformat (1782889200 * US_PER_SECOND + 50) = "2026-07-01T07:00:00.000050+00:00".
Proof. split; reflexivity. Qed.
