(* ===== verification/Float.v ===== *)
(** * Float: Python floats, their [repr] and [timedelta(seconds=x)]

    A Python [float] is an IEEE 754 binary64 value; the arithmetic is that of
    the Standard Library's [SpecFloat].  [timedelta_seconds] is the constructor
    [timedelta(seconds=x)], which keeps whole microseconds and rounds the rest
    half to even; [float_repr] prints the shortest decimal that reads back as
    the same float. *)

From Stdlib Require Import Floats.SpecFloat.
From S2P Require Import Prelude.

Notation float := spec_float.
Definition float_of_int (z : Z) : float := binary_normalize 53 1024 z 0 false.
Definition float_add : float -> float -> float := SFadd 53 1024.
Definition float_sub : float -> float -> float := SFsub 53 1024.
Definition float_mul : float -> float -> float := SFmul 53 1024.
Definition float_div : float -> float -> float := SFdiv 53 1024.

(** [==] on floats and between a float and an integer. *)
Definition float_eqb : float -> float -> bool := SFeqb.
Definition float_is_int (x : float) (z : Z) : bool :=
  match x with
  | S754_zero _ => z =? 0
  | S754_finite sign m e =>
      let v := if sign then Zneg m else Zpos m in
      if 0 <=? e then v * 2 ^ e =? z else v =? z * 2 ^ (- e)
  | _ => false
  end.

(** [a / b] on integers, correctly rounded; [b] is positive. *)
Definition int_truediv (a b : Z) : float :=
  match a, b with
  | Zpos x, Zpos y => float_div (S754_finite false x 0) (S754_finite false y 0)
  | Zneg x, Zpos y => float_div (S754_finite true x 0) (S754_finite false y 0)
  | _, _ => S754_zero false
  end.

(** [min(a, b)] and [max(a, b)]: the first argument unless the second compares
    strictly below (above) it. *)
Definition float_min (a b : float) : float := if SFltb b a then b else a.
Definition float_max (a b : float) : float := if SFltb a b then b else a.

(** [2 ** k] for an integer [k]. *)
Definition float_pow2 (k : Z) : float :=
  if 0 <=? k then float_of_int (2 ^ k) else float_div (float_of_int 1) (float_of_int (2 ^ (- k))).

(** [math.modf]: the integral part of a nonnegative finite float and the rest. *)
Definition modf (x : float) : Z * float :=
  match x with
  | S754_finite false m e =>
      if 0 <=? e then (Zpos m * 2 ^ e, S754_zero false)
      else let i := Zpos m / 2 ^ (- e) in
           (i, binary_normalize 53 1024 (Zpos m - i * 2 ^ (- e)) e false)
  | _ => (0, S754_zero false)
  end.

(** A float in [0, 1) rounded to an integer, ties to the parity of [x]. *)
Definition round_fraction (x : Z) (f : float) : Z :=
  let half := S754_finite false 4503599627370496 (-53) in
  if SFltb f half then 0
  else if SFeqb f half then (if Z.odd x then 1 else 0) else 1.

(** Microseconds of [timedelta(seconds=x)] for a nonnegative finite [x]. *)
Definition timedelta_seconds (x : float) : Z :=
  let '(whole, fraction) := modf x in
  let '(micros, rest) := modf (float_mul (float_of_int 1000000) fraction) in
  let us := whole * 1000000 + micros in
  us + round_fraction us rest.

(** ** [repr] *)

(** The float nearest to [digits * 10 ^ k]. *)
Definition float_of_decimal (digits k : Z) : float :=
  if 0 <=? k then float_of_int (digits * 10 ^ k) else int_truediv digits (10 ^ (- k)).

(** [floor(log10(n / d))] for positive [n] and [d]: the estimate from the binary
    logarithms is off by at most one. *)
Definition decimal_exponent (n d : Z) : Z :=
  let estimate := ((Z.log2 n - Z.log2 d) * 30103) / 100000 in
  let at_least k := if 0 <=? k then 10 ^ k * d <=? n else d <=? n * 10 ^ (- k) in
  if at_least (estimate + 1) then estimate + 1
  else if at_least estimate then estimate else estimate - 1.

(** The [p]-digit decimals next to [n / d] that read back as [x], the nearer one first. *)
Definition short_digits (x : float) (n d exponent p : Z) : option (Z * Z) :=
  let k := exponent - p + 1 in
  let num := if 0 <=? k then n else n * 10 ^ (- k) in
  let den := if 0 <=? k then d * 10 ^ k else d in
  let low := num / den in
  let candidates := if 2 * (num mod den) <=? den then [low; low + 1] else [low + 1; low] in
  (fun digits => (digits, k)) <$> List.find (fun digits => SFeqb (float_of_decimal digits k) x) candidates.

Definition shortest_decimal (x : float) (n d : Z) : Z * Z :=
  let exponent := decimal_exponent n d in
  default (0, 0)
    (head (omap (short_digits x n d exponent) [1; 2; 3; 4; 5; 6; 7; 8; 9; 10; 11; 12; 13; 14; 15; 16; 17])).

Definition string_rep (n : Z) (c : string) : string := Nat.iter (Z.to_nat n) (String.append c) "".

(** Digits [s] with the decimal point after [point] of them. *)
Definition format_digits (s : string) (point : Z) : string :=
  let len := Z.of_nat (String.length s) in
  if (-4 <? point) && (point <=? 16) then
    if point <=? 0 then "0." +:+ string_rep (- point) "0" +:+ s
    else if len <=? point then s +:+ string_rep (point - len) "0" +:+ ".0"
    else String.substring 0 (Z.to_nat point) s +:+ "."
         +:+ String.substring (Z.to_nat point) (String.length s) s
  else
    let exponent := point - 1 in
    let mantissa := if len =? 1 then s
                    else String.substring 0 1 s +:+ "." +:+ String.substring 1 (String.length s) s in
    mantissa +:+ "e" +:+ (if exponent <? 0 then "-" else "+")
    +:+ (if Z.abs exponent <? 10 then "0" else "") +:+ pretty (Z.abs exponent).

(** A shortest decimal can end in zeros only when it was rounded up to a power of ten. *)
Fixpoint strip_zeros (fuel : nat) (digits k : Z) : Z * Z :=
  match fuel with
  | O => (digits, k)
  | S fuel' => if digits mod 10 =? 0 then strip_zeros fuel' (digits / 10) (k + 1) else (digits, k)
  end.

Definition repr_positive (x : float) (n d : Z) : string :=
  let '(digits, k) := shortest_decimal x n d in
  let '(digits, k) := strip_zeros 17 digits k in
  let s := pretty digits in
  format_digits s (Z.of_nat (String.length s) + k).

(** [repr], with the names [json.dumps] gives to the special values. *)
Definition float_repr (x : float) : string :=
  match x with
  | S754_zero sign => if sign then "-0.0" else "0.0"
  | S754_infinity sign => if sign then "-Infinity" else "Infinity"
  | S754_nan => "NaN"
  | S754_finite sign m e =>
      let n := if 0 <=? e then Zpos m * 2 ^ e else Zpos m in
      let d := if 0 <=? e then 1 else 2 ^ (- e) in
      (if sign then "-" else "") +:+ repr_positive (S754_finite false m e) n d
  end.

Example float_repr_examples :
  float_repr (int_truediv 1 10) = "0.1"
  /\ float_repr (int_truediv (-100) 3) = "-33.333333333333336"
  /\ float_repr (float_of_int 5) = "5.0"
  /\ float_repr (float_of_int (10 ^ 16)) = "1e+16"
  /\ float_repr (float_of_int (2 ^ 70)) = "1.1805916207174113e+21"
  /\ float_repr (int_truediv 1 100000) = "1e-05"
  /\ float_repr (int_truediv 12345 100000000) = "0.00012345".
Proof. vm_compute. repeat split. Qed.

Example timedelta_tenth :
  timedelta_seconds (int_truediv 1 10) = 100000
  /\ timedelta_seconds (int_truediv 7 3) = 2333333
  /\ timedelta_seconds (float_of_int 300) = 300000000.
Proof. repeat split. Qed.
