(* ===== verification/Json.v ===== *)
(** * Json: canonical JSON and content hashing (tariffs/hashing.py)

    [json] is the value space of [json.dumps] for the payloads the code hashes
    (floats occur in those of the optimizer), [json_dumps] its serialisation with sorted keys
    and compact separators, with the escapes of [ensure_ascii=False]
    ([canonical_json_bytes]) or [ensure_ascii=True] ([ascii_json_bytes]), and
    [canonical_content_sha256] the domain-separated content hash.  SHA-256
    itself is a parameter. *)

From S2P Require Import Prelude Float.

Inductive json :=
| JNull
| JBool (b : bool)
| JInt (z : Z)
| JFloat (f : float)
| JStr (s : string)
| JList (l : list json)
| JObj (fields : list (string * json)).

Definition chr (n : N) : string := String (Ascii.ascii_of_N n) EmptyString.
Definition QUOTE : string := chr 34.
Definition BACKSLASH : string := chr 92.

Definition hex_digit (n : N) : string :=
  if (n <? 10)%N then chr (48 + n) else chr (87 + n).

(** The escapes of [json.dumps(..., ensure_ascii=False)]. *)
Definition escape_char (c : Ascii.ascii) : string :=
  let n := Ascii.N_of_ascii c in
  if (n =? 34)%N then BACKSLASH +:+ QUOTE
  else if (n =? 92)%N then BACKSLASH +:+ BACKSLASH
  else if (n =? 8)%N then BACKSLASH +:+ "b"
  else if (n =? 9)%N then BACKSLASH +:+ "t"
  else if (n =? 10)%N then BACKSLASH +:+ "n"
  else if (n =? 12)%N then BACKSLASH +:+ "f"
  else if (n =? 13)%N then BACKSLASH +:+ "r"
  else if (n <? 32)%N then BACKSLASH +:+ "u00" +:+ hex_digit (n / 16) +:+ hex_digit (n mod 16)
  else String c EmptyString.

Fixpoint escape (s : string) : string :=
  match s with
  | EmptyString => EmptyString
  | String c s' => escape_char c +:+ escape s'
  end.

(** The code points of a UTF-8 string. *)
Fixpoint code_points (s : list N) : list N :=
  match s with
  | [] => []
  | a :: t =>
      if (a <? 192)%N then a :: code_points t
      else match t with
           | b :: t' =>
               if (a <? 224)%N then ((a - 192) * 64 + b mod 64)%N :: code_points t'
               else match t' with
                    | c :: t'' =>
                        if (a <? 240)%N
                        then ((a - 224) * 4096 + b mod 64 * 64 + c mod 64)%N :: code_points t''
                        else match t'' with
                             | d :: t3 =>
                                 ((a - 240) * 262144 + b mod 64 * 4096 + c mod 64 * 64 + d mod 64)%N
                                 :: code_points t3
                             | [] => []
                             end
                    | [] => []
                    end
           | [] => []
           end
  end.
Definition utf8_bytes (s : string) : list N := Ascii.N_of_ascii <$> String.list_ascii_of_string s.
(** [len(s)]. *)
Definition py_len (s : string) : Z := Z.of_nat (length (code_points (utf8_bytes s))).

Definition hex4 (n : N) : string :=
  BACKSLASH +:+ "u" +:+ hex_digit (n / 4096) +:+ hex_digit (n / 256 mod 16)
  +:+ hex_digit (n / 16 mod 16) +:+ hex_digit (n mod 16).
Definition escape_code_point (n : N) : string :=
  if (n <? 127)%N then escape_char (Ascii.ascii_of_N n)
  else if (n <? 65536)%N then hex4 n
  else hex4 (55296 + (n - 65536) / 1024) +:+ hex4 (56320 + (n - 65536) mod 1024).
(** The escapes of [json.dumps(..., ensure_ascii=True)]. *)
Definition escape_ascii (s : string) : string :=
  foldr (fun n r => escape_code_point n +:+ r) EmptyString (code_points (utf8_bytes s)).

Fixpoint join (sep : string) (l : list string) : string :=
  match l with
  | [] => EmptyString
  | [s] => s
  | s :: l' => s +:+ sep +:+ join sep l'
  end.

Section Dumps.
Context (esc : string -> string).

Definition json_string (s : string) : string := QUOTE +:+ esc s +:+ QUOTE.

Definition json_object (printed : list (string * string)) : string :=
  "{" +:+ join "," ((fun '(k, v) => json_string k +:+ ":" +:+ v) <$> sorted_by fst printed) +:+ "}".

Fixpoint json_dumps (v : json) : string :=
  match v with
  | JNull => "null"
  | JBool b => if b then "true" else "false"
  | JInt z => pretty z
  | JFloat f => float_repr f
  | JStr s => json_string s
  | JList l => "[" +:+ join "," (json_dumps <$> l) +:+ "]"
  | JObj fields => json_object ((fun kv => (kv.1, json_dumps kv.2)) <$> fields)
  end.
End Dumps.

Definition canonical_json_bytes (v : json) : string := json_dumps escape v.
Definition ascii_json_bytes (v : json) : string := json_dumps escape_ascii v.

(** [hashlib.sha256(data).hexdigest()]. *)
Class Sha256 := sha256_hex : string -> string.

Definition canonical_content_sha256 `{Sha256} (domain : string) (value : json) : string :=
  sha256_hex (domain +:+ chr 0 +:+ canonical_json_bytes value).

Definition jopt {A} (f : A -> json) (o : option A) : json :=
  match o with Some a => f a | None => JNull end.

(** A digest for evaluating the model on concrete inputs. *)
Definition toy_sha256 : Sha256 := fun s => pretty (String.length s).

(** Reordering the entries of an object does not change its canonical bytes. *)
Lemma canonical_json_object_perm f1 f2 :
  NoDup f1.*1 -> f1 ≡ₚ f2 -> canonical_json_bytes (JObj f1) = canonical_json_bytes (JObj f2).
Proof.
  intros Hnd Hp. unfold canonical_json_bytes. simpl. unfold json_object. do 4 f_equal.
  apply sorted_by_unique; [|by rewrite Hp].
  intros x y Hx Hy Hk.
  apply list_elem_of_fmap in Hx as ([k1 v1] & -> & H1).
  apply list_elem_of_fmap in Hy as ([k2 v2] & -> & H2).
  simpl in *. subst k2.
  apply (dict_elem_get _ _ _ Hnd) in H1, H2. congruence.
Qed.

Example canonical_json_example :
  canonical_json_bytes (JObj [("b", JList [JInt (-3); JNull]); ("a", JBool true)])
  = "{" +:+ QUOTE +:+ "a" +:+ QUOTE +:+ ":true," +:+ QUOTE +:+ "b" +:+ QUOTE +:+ ":[-3,null]}".
Proof. reflexivity. Qed.
Example ascii_json_example : ascii_json_bytes (JStr (chr 195 +:+ chr 169)) = QUOTE +:+ BACKSLASH +:+ "u00e9" +:+ QUOTE.
Proof. reflexivity. Qed.
