(* ===== verification/JsonCanonical.v ===== *)
(** * JsonCanonical: canonical JSON is injective (tariffs/hashing.py)

    [canon] is the normal form of a JSON value: the entries of every object in
    the order of their keys.  [read_json] reads the compact serialisation back
    and inverts [canonical_json_bytes] up to that normal form, so that equal
    bytes, and equal hash preimages, mean equal content.  Values with floats are
    outside the reader. *)

From Stdlib Require Import Ascii.
From S2P Require Import Prelude Float Json.

(** ** Values *)
Lemma json_nested_ind (P : json -> Prop) :
  P JNull -> (forall b, P (JBool b)) -> (forall z, P (JInt z)) -> (forall f, P (JFloat f)) ->
  (forall s, P (JStr s)) -> (forall l, Forall P l -> P (JList l)) ->
  (forall fs, Forall (fun kv => P kv.2) fs -> P (JObj fs)) ->
  forall v, P v.
Proof.
  intros Hn Hb Hz Hf Hs Hl Ho. fix IH 1.
  intros [|b|z|f|s|l|fs]; [exact Hn|exact (Hb b)|exact (Hz z)|exact (Hf f)|exact (Hs s)| |].
  - apply Hl. induction l as [|x l IHl]; constructor; [apply IH|apply IHl].
  - apply Ho. induction fs as [|[k x] fs IHf]; constructor; [apply IH|apply IHf].
Qed.

Fixpoint canon (v : json) : json :=
  match v with
  | JList l => JList (canon <$> l)
  | JObj fs => JObj (sorted_by fst ((fun kv => (kv.1, canon kv.2)) <$> fs))
  | _ => v
  end.

Fixpoint no_floats (v : json) : bool :=
  match v with
  | JFloat _ => false
  | JList l => forallb no_floats l
  | JObj fs => forallb (fun kv => no_floats kv.2) fs
  | _ => true
  end.

Fixpoint json_size (v : json) : nat :=
  match v with
  | JList l => S (list_sum (json_size <$> l))
  | JObj fs => S (list_sum ((fun kv => json_size kv.2) <$> fs))
  | _ => 1
  end.

(** The serialisation of a value in the order its entries have. *)
Fixpoint json_print (v : json) : string :=
  match v with
  | JList l => "[" +:+ join "," (json_print <$> l) +:+ "]"
  | JObj fs => "{" +:+ join "," ((fun kv => json_string escape kv.1 +:+ ":" +:+ json_print kv.2) <$> fs) +:+ "}"
  | _ => canonical_json_bytes v
  end.

Lemma sorted_by_fst_fmap {A B} (f : A -> B) (l : list (string * A)) :
  (fun kv => (kv.1, f kv.2)) <$> sorted_by fst l = sorted_by fst ((fun kv => (kv.1, f kv.2)) <$> l).
Proof.
  induction l as [|[k x] l IH]; [done|]. rewrite fmap_cons.
  change (sorted_by fst (?y :: ?t)) with (insert_sorted fst y (sorted_by fst t)).
  rewrite <-IH. clear IH.
  induction (sorted_by fst l) as [|[k' x'] t IHt]; [done|]. rewrite fmap_cons.
  cbn [insert_sorted fst snd]. destruct (py_leb k k'); [done|]. by rewrite fmap_cons, IHt.
Qed.

Lemma canonical_bytes_print v : canonical_json_bytes v = json_print (canon v).
Proof.
  unfold canonical_json_bytes.
  induction v as [| | | | |l Hl|fs Hf] using json_nested_ind; try done; simpl.
  - f_equal. f_equal. f_equal. rewrite <-list_fmap_compose.
    apply Forall_fmap_ext_1. exact Hl.
  - unfold json_object. f_equal. f_equal. f_equal.
    assert ((fun kv : string * json => (kv.1, json_dumps escape kv.2)) <$> fs
            = (fun kv : string * json => (kv.1, json_print kv.2)) <$> ((fun kv => (kv.1, canon kv.2)) <$> fs)) as ->.
    { rewrite <-list_fmap_compose. apply Forall_fmap_ext_1.
      eapply Forall_impl; [exact Hf|]. intros [k x] E. simpl in *. by rewrite E. }
    rewrite <-sorted_by_fst_fmap, <-list_fmap_compose. apply list_fmap_ext. by intros ? [k x] _.
Qed.

Lemma no_floats_canon v : no_floats v = true -> no_floats (canon v) = true.
Proof.
  induction v as [| | | | |l Hl|fs Hf] using json_nested_ind; try done; simpl.
  - rewrite !forallb_forall. intros H x (y & <- & Hy)%in_map_iff.
    rewrite Forall_forall in Hl. apply Hl; [by apply list_elem_of_In|auto].
  - rewrite !forallb_forall. intros H [k x] Hx%list_elem_of_In. simpl.
    rewrite elem_of_sorted_by in Hx. apply list_elem_of_fmap in Hx as ([k' x'] & [= -> ->] & Hx).
    rewrite Forall_forall in Hf. apply (Hf (k', x')); [done|]. apply (H (k', x')). by apply list_elem_of_In.
Qed.

(** ** The reader *)
Fixpoint read_digits (acc : N) (s : string) : N * string :=
  match s with
  | String c s' =>
      let n := Ascii.N_of_ascii c in
      if ((48 <=? n) && (n <=? 57))%N then read_digits (10 * acc + (n - 48))%N s' else (acc, s)
  | EmptyString => (acc, EmptyString)
  end.
Definition read_int (s : string) : Z * string :=
  match s with
  | String "-"%char s' => let '(n, r) := read_digits 0 s' in (- Z.of_N n, r)
  | _ => let '(n, r) := read_digits 0 s in (Z.of_N n, r)
  end.

Definition unhex (c : Ascii.ascii) : N :=
  let n := Ascii.N_of_ascii c in if (n <? 58)%N then (n - 48)%N else (n - 87)%N.
Definition unescape_char (c : Ascii.ascii) : Ascii.ascii :=
  match c with
  | "b"%char => "008"%char | "t"%char => "009"%char | "n"%char => "010"%char
  | "f"%char => "012"%char | "r"%char => "013"%char | _ => c
  end.
(** The characters of a string literal up to its closing quote. *)
Fixpoint read_chars (s : string) : option (string * string) :=
  match s with
  | String c s' =>
      if Ascii.eqb c "034" then Some (EmptyString, s')
      else if Ascii.eqb c "092" then
        match s' with
        | String "u"%char (String _ (String _ (String h (String l r)))) =>
            prod_map (String (Ascii.ascii_of_N (16 * unhex h + unhex l))) id <$> read_chars r
        | String d r => prod_map (String (unescape_char d)) id <$> read_chars r
        | EmptyString => None
        end
      else prod_map (String c) id <$> read_chars s'
  | EmptyString => None
  end.

Fixpoint drop_prefix (p s : string) : option string :=
  match p with
  | EmptyString => Some s
  | String c p' => match s with
                   | String d s' => if Ascii.eqb c d then drop_prefix p' s' else None
                   | EmptyString => None
                   end
  end.

Section Sequence.
Context {A : Type} (item : string -> option (A * string)) (close : Ascii.ascii).
Fixpoint read_more (n : nat) (s : string) : option (list A * string) :=
  match s with
  | String c s' =>
      if Ascii.eqb c close then Some ([], s')
      else if Ascii.eqb c "," then
        match n with
        | S n' => '(x, r) ← item s'; '(xs, r') ← read_more n' r; Some (x :: xs, r')
        | O => None
        end
      else None
  | EmptyString => None
  end.
Definition read_seq (n : nat) (s : string) : option (list A * string) :=
  match s with
  | String c s' =>
      if Ascii.eqb c close then Some ([], s')
      else '(x, r) ← item s; '(xs, r') ← read_more n r; Some (x :: xs, r')
  | EmptyString => None
  end.
End Sequence.

Definition read_entry (value : string -> option (json * string)) (s : string) : option ((string * json) * string) :=
  match s with
  | String "034"%char s' =>
      '(k, r) ← read_chars s'; r' ← drop_prefix ":" r; '(v, r'') ← value r'; Some ((k, v), r'')
  | _ => None
  end.

Fixpoint read_value (fuel : nat) (s : string) : option (json * string) :=
  match fuel, s with
  | S k, String c s' =>
      match c with
      | "n"%char => (fun r => (JNull, r)) <$> drop_prefix "null" s
      | "t"%char => (fun r => (JBool true, r)) <$> drop_prefix "true" s
      | "f"%char => (fun r => (JBool false, r)) <$> drop_prefix "false" s
      | "034"%char => prod_map JStr id <$> read_chars s'
      | "["%char => prod_map JList id <$> read_seq (read_value k) "]" k s'
      | "{"%char => prod_map JObj id <$> read_seq (read_entry (read_value k)) "}" k s'
      | _ => Some (prod_map JInt id (read_int s))
      end
  | _, _ => None
  end.

(** The value a whole document denotes. *)
Definition parse_json (s : string) : option json :=
  match read_value (S (String.length s)) s with Some (v, EmptyString) => Some v | _ => None end.

(** ** The reader inverts the printer *)
Lemma string_app_assoc (a b c : string) : (a +:+ b) +:+ c = a +:+ b +:+ c.
Proof. induction a as [|x a IH]; [done|]. change (String x ((a +:+ b) +:+ c) = String x (a +:+ b +:+ c)). by rewrite IH. Qed.
Lemma string_app_length (a b : string) : String.length (a +:+ b) = (String.length a + String.length b)%nat.
Proof. induction a as [|x a IH]; [done|]. change (S (String.length (a +:+ b)) = S (String.length a + String.length b)). by rewrite IH. Qed.

Lemma read_chars_escape s r : read_chars (escape s +:+ QUOTE +:+ r) = Some (s, r).
Proof.
  induction s as [|c s IH]; [done|]. simpl escape. rewrite string_app_assoc.
  assert (forall t, read_chars (escape_char c +:+ t) = prod_map (String c) id <$> read_chars t) as ->.
  { intros t. by destruct c as [[] [] [] [] [] [] [] []]. }
  by rewrite IH.
Qed.

Definition is_digit (c : Ascii.ascii) : bool :=
  let n := Ascii.N_of_ascii c in ((48 <=? n) && (n <=? 57))%N.
(** What may follow a value: anything but a digit. *)
Definition delimited (s : string) : Prop :=
  match s with String c _ => is_digit c = false | EmptyString => True end.

Lemma read_digits_delimited n r : delimited r -> read_digits n r = (n, r).
Proof. destruct r as [|c r]; [done|]. simpl. unfold is_digit. by intros ->. Qed.

Lemma pretty_char_digit n : (n < 10)%N -> Ascii.N_of_ascii (pretty.pretty_N_char n) = (48 + n)%N.
Proof.
  destruct n as [|p]; [done|]. intros Hp.
  do 4 (destruct p as [p|p|]; try done; try (exfalso; lia)).
Qed.

Lemma pretty_go_app x s r : pretty.pretty_N_go x s +:+ r = pretty.pretty_N_go x (s +:+ r).
Proof.
  revert s. induction (N.lt_wf_0 x) as [x _ IH]. intros s.
  destruct (decide (x = 0%N)) as [->|Hx]; [by rewrite !pretty.pretty_N_go_0|].
  rewrite !(pretty.pretty_N_go_step x) by lia. apply IH. apply N.div_lt; lia.
Qed.

Lemma read_digits_char n d s :
  (d < 10)%N -> read_digits n (String (pretty.pretty_N_char d) s) = read_digits (10 * n + d) s.
Proof.
  intros Hd. cbn [read_digits]. rewrite (pretty_char_digit _ Hd).
  assert (((48 <=? 48 + d) && (48 + d <=? 57))%N = true) as ->
    by (apply andb_true_iff; rewrite !N.leb_le; lia).
  f_equal. lia.
Qed.
Lemma read_digits_go x s : read_digits 0 (pretty.pretty_N_go x s) = read_digits x s.
Proof.
  revert s. induction (N.lt_wf_0 x) as [x _ IH]. intros s.
  destruct (decide (x = 0%N)) as [->|Hx]; [by rewrite pretty.pretty_N_go_0|].
  rewrite (pretty.pretty_N_go_step x) by lia. rewrite IH by (apply N.div_lt; lia).
  rewrite read_digits_char by (apply N.mod_lt; lia). f_equal.
  pose proof (N.div_mod x 10 ltac:(lia)). lia.
Qed.

Lemma pretty_go_head x s : (0 < x)%N -> exists c t, pretty.pretty_N_go x s = String c t /\ is_digit c = true.
Proof.
  revert s. induction (N.lt_wf_0 x) as [x _ IH]. intros s Hx.
  rewrite (pretty.pretty_N_go_step x) by lia.
  destruct (decide (x / 10 = 0)%N) as [E|E].
  - rewrite E, pretty.pretty_N_go_0. do 2 eexists. split; [done|]. unfold is_digit.
    pose proof (N.mod_lt x 10 ltac:(lia)) as Hm. rewrite (pretty_char_digit _ Hm).
    apply andb_true_iff. rewrite !N.leb_le. generalize dependent (x mod 10)%N. lia.
  - apply IH; [apply N.div_lt; lia|]. apply N.neq_0_lt_0. exact E.
Qed.

Lemma read_int_pretty z r : delimited r -> read_int (pretty z +:+ r) = (z, r).
Proof.
  intros Hr. destruct z as [|p|p].
  - simpl. rewrite (read_digits_delimited _ _ Hr). done.
  - change (pretty (Z.pos p)) with (pretty.pretty_N_go (N.pos p) "").
    rewrite pretty_go_app. destruct (pretty_go_head (N.pos p) ("" +:+ r)) as (c & t & E & Hc); [lia|].
    assert (read_int (pretty.pretty_N_go (N.pos p) ("" +:+ r))
            = let '(n, r') := read_digits 0 (pretty.pretty_N_go (N.pos p) ("" +:+ r)) in (Z.of_N n, r')) as ->.
    { rewrite E. by destruct c as [[] [] [] [] [] [] [] []]. }
    rewrite read_digits_go. simpl. by rewrite (read_digits_delimited _ _ Hr).
  - change (pretty (Z.neg p)) with (String "-" (pretty.pretty_N_go (N.pos p) "")).
    change (read_int (String "-" (pretty.pretty_N_go (N.pos p) "" +:+ r)) = (Z.neg p, r)).
    unfold read_int. rewrite pretty_go_app, read_digits_go. simpl.
    by rewrite (read_digits_delimited _ _ Hr).
Qed.

(** The first character of a serialised value. *)
Definition value_head (s : string) : Prop :=
  exists c t, s = String c t /\ Ascii.eqb c "]" = false /\ Ascii.eqb c "}" = false.

Lemma pretty_head (z : Z) : exists c t, pretty z = String c t /\ (c = "-"%char \/ is_digit c = true).
Proof.
  destruct z as [|p|p].
  - do 2 eexists. split; [done|]. by right.
  - destruct (pretty_go_head (N.pos p) "") as (c & t & E & Hc); [lia|]. exists c, t. auto.
  - do 2 eexists. split; [done|]. by left.
Qed.
Lemma print_head v r : no_floats v = true -> value_head (json_print v +:+ r).
Proof.
  intros Hf. destruct v as [|[]|z|f|s|l|fs]; try done; try (do 2 eexists; done).
  destruct (pretty_head z) as (c & t & E & Hc). exists c, (t +:+ r). simpl.
  change (canonical_json_bytes (JInt z)) with (pretty z). rewrite E. split; [done|].
  destruct Hc as [->|Hc]; [done|]. by destruct c as [[] [] [] [] [] [] [] []].
Qed.

Section SequenceInverse.
Context {A : Type} (item : string -> option (A * string)) (show : A -> string) (close : Ascii.ascii).
Context (Hclose : Ascii.eqb close "," = false).

Lemma read_more_print l n r :
  (length l <= n)%nat ->
  Forall (fun x => forall t, delimited t -> item (show x +:+ t) = Some (x, t)) l ->
  is_digit close = false ->
  read_more item close n (foldr (fun x t => "," +:+ show x +:+ t) (String close r) l) = Some (l, r).
Proof.
  intros Hn Hl Hd. revert n Hn. induction Hl as [|x l Hx Hl IH]; intros n Hn.
  - destruct n; simpl; by rewrite Ascii.eqb_refl.
  - destruct n as [|n]; simpl in Hn; [lia|]. cbn [foldr].
    change ("," +:+ ?x) with (String "," x). cbn [read_more].
    rewrite Ascii.eqb_sym, Hclose, Ascii.eqb_refl.
    rewrite Hx; [simpl; by rewrite IH by lia|]. by destruct l.
Qed.

Lemma join_foldr (x : A) l r :
  join "," (show <$> (x :: l)) +:+ String close r
  = show x +:+ foldr (fun x t => "," +:+ show x +:+ t) (String close r) l.
Proof.
  revert x. induction l as [|y l IH]; intros x; [done|].
  change (join "," (show <$> x :: y :: l)) with (show x +:+ "," +:+ join "," (show <$> y :: l)).
  rewrite !string_app_assoc, IH. done.
Qed.

Lemma read_seq_print l n r :
  (length l <= n)%nat ->
  Forall (fun x => forall t, delimited t -> item (show x +:+ t) = Some (x, t)) l ->
  Forall (fun x => forall t, exists c u, show x +:+ t = String c u /\ Ascii.eqb c close = false) l ->
  is_digit close = false ->
  read_seq item close n (join "," (show <$> l) +:+ String close r) = Some (l, r).
Proof.
  intros Hn Hl Hh Hd. destruct l as [|x l].
  - simpl. by rewrite Ascii.eqb_refl.
  - rewrite join_foldr. inversion Hl as [|?? Hx Hl']; subst. inversion Hh as [|?? Hxh _]; subst.
    set (t := foldr _ _ _). destruct (Hxh t) as (c & u & E & Ec).
    unfold read_seq. rewrite E, Ec, <-E. rewrite Hx; [|by unfold t; destruct l].
    simpl. unfold t. by rewrite read_more_print by (simpl in Hn; auto with lia).
Qed.
End SequenceInverse.

Lemma length_le_size {A} (f : A -> json) (l : list A) : (length l <= list_sum ((fun x => json_size (f x)) <$> l))%nat.
Proof.
  induction l as [|x l IH]; [done|]. rewrite fmap_cons.
  change (list_sum (?n :: ?t)) with (n + list_sum t)%nat. cbn [length].
  assert (1 <= json_size (f x))%nat by (destruct (f x); simpl; lia). lia.
Qed.
Lemma list_sum_elem {A} (f : A -> nat) (l : list A) x : x ∈ l -> (f x <= list_sum (f <$> l))%nat.
Proof.
  induction 1; rewrite fmap_cons; change (list_sum (?n :: ?t)) with (n + list_sum t)%nat; lia.
Qed.

Lemma read_print v fuel r :
  no_floats v = true -> (json_size v <= fuel)%nat -> delimited r ->
  read_value fuel (json_print v +:+ r) = Some (v, r).
Proof.
  revert fuel r. induction v as [|[]|z|f|s|l Hl|fs Hf] using json_nested_ind;
    intros fuel r Hnf Hfuel Hr; (destruct fuel as [|k]; [simpl in Hfuel; lia|]); try done.
  - destruct (pretty_head z) as (c & t & E & Hc).
    change (json_print (JInt z)) with (pretty z).
    assert (read_value (S k) (pretty z +:+ r) = Some (prod_map JInt id (read_int (pretty z +:+ r)))) as ->.
    { rewrite E. destruct Hc as [->|Hc]; [done|]. by destruct c as [[] [] [] [] [] [] [] []]. }
    by rewrite (read_int_pretty _ _ Hr).
  - change (json_print (JStr s)) with (QUOTE +:+ escape s +:+ QUOTE). rewrite !string_app_assoc.
    change (read_value (S k) (QUOTE +:+ ?t)) with (prod_map JStr id <$> read_chars t).
    by rewrite read_chars_escape.
  - cbn [json_print]. rewrite !string_app_assoc.
    change (read_value (S k) ("[" +:+ ?t)) with (prod_map JList id <$> read_seq (read_value k) "]" k t).
    change ("]" +:+ r) with (String "]" r). cbn [json_size] in Hfuel.
    pose proof (length_le_size id l) as Hlen.
    simpl in Hnf. rewrite forallb_forall in Hnf. rewrite Forall_forall in Hl.
    rewrite read_seq_print; [done|done|change (fun x => json_size (id x)) with json_size in Hlen; lia| | |done].
    + apply Forall_forall. intros x Hx t Ht.
      pose proof (list_sum_elem json_size l x Hx). apply Hl; [done|by apply Hnf, list_elem_of_In|lia|done].
    + apply Forall_forall. intros x Hx t.
      destruct (print_head x t) as (c & u & E & E1 & E2); [by apply Hnf, list_elem_of_In|eauto].
  - cbn [json_print]. rewrite !string_app_assoc.
    change (read_value (S k) ("{" +:+ ?t)) with (prod_map JObj id <$> read_seq (read_entry (read_value k)) "}" k t).
    change ("}" +:+ r) with (String "}" r). cbn [json_size] in Hfuel.
    pose proof (length_le_size snd fs) as Hlen.
    simpl in Hnf. rewrite forallb_forall in Hnf. rewrite Forall_forall in Hf.
    rewrite read_seq_print; [done|done|lia| | |done].
    + apply Forall_forall. intros [key x] Hx t Ht. unfold json_string. simpl fst. simpl snd.
      rewrite !string_app_assoc.
      change (read_entry (read_value k) (QUOTE +:+ ?u)) with
        ('(k', r1) ← read_chars u; r2 ← drop_prefix ":" r1; '(v', r3) ← read_value k r2; Some ((k', v'), r3)).
      rewrite read_chars_escape. cbn [mbind option_bind].
      change (drop_prefix ":" (":" +:+ ?u)) with (Some u). cbn [mbind option_bind].
      pose proof (list_sum_elem (fun kv : string * json => json_size kv.2) fs (key, x) Hx) as Hs. simpl in Hs.
      pose proof (Hf (key, x) Hx k t (Hnf (key, x) ltac:(by apply list_elem_of_In)) ltac:(simpl; lia) Ht) as E.
      simpl in E. by rewrite E.
    + apply Forall_forall. intros [key x] Hx t. by do 2 eexists.
Qed.


Lemma join_length_le {A} (f : A -> nat) (g : A -> string) (l : list A) :
  (forall x, x ∈ l -> (f x <= String.length (g x))%nat) ->
  (list_sum (f <$> l) <= String.length (join "," (g <$> l)))%nat.
Proof.
  intros H. induction l as [|x l IH]; [simpl; lia|].
  pose proof (H x ltac:(left)) as Hx. specialize (IH ltac:(intros y Hy; apply H; by right)).
  destruct l as [|y l].
  - simpl in *. lia.
  - rewrite fmap_cons. change (list_sum (f x :: ?t)) with (f x + list_sum t)%nat.
    change (join "," (g <$> x :: y :: l)) with (g x +:+ "," +:+ join "," (g <$> y :: l)).
    rewrite !string_app_length. lia.
Qed.

Lemma json_size_print v : no_floats v = true -> (json_size v <= String.length (json_print v))%nat.
Proof.
  induction v as [|[]|z|f|s|l Hl|fs Hf] using json_nested_ind; intros Hnf; try (simpl; lia).
  - destruct (pretty_head z) as (c & t & E & _). change (json_print (JInt z)) with (pretty z).
    rewrite E. simpl. lia.
  - done.
  - cbn [json_size json_print]. rewrite !string_app_length. simpl in Hnf. rewrite forallb_forall in Hnf.
    rewrite Forall_forall in Hl. pose proof (join_length_le json_size json_print l) as Hj. simpl.
    rewrite Nat.add_1_r. apply le_n_S, le_S, Hj. intros x Hx. apply Hl; [done|]. by apply Hnf, list_elem_of_In.
  - cbn [json_size json_print]. rewrite !string_app_length. simpl in Hnf. rewrite forallb_forall in Hnf.
    rewrite Forall_forall in Hf.
    pose proof (join_length_le (fun kv : string * json => json_size kv.2)
      (fun kv => json_string escape kv.1 +:+ ":" +:+ json_print kv.2) fs) as Hj.
    change (String.length "{") with 1%nat. change (String.length "}") with 1%nat.
    enough (list_sum ((fun kv => json_size kv.2) <$> fs)
            <= String.length (join "," ((fun kv => json_string escape kv.1 +:+ ":" +:+ json_print kv.2) <$> fs)))%nat by lia.
    apply Hj. intros [k x] Hx. rewrite !string_app_length. simpl snd.
    pose proof (Hf _ Hx (Hnf (k, x) ltac:(by apply list_elem_of_In))). simpl in *. lia.
Qed.

(** Reading the canonical bytes of a value gives its normal form. *)
Lemma parse_canonical v : no_floats v = true -> parse_json (canonical_json_bytes v) = Some (canon v).
Proof.
  intros Hv. rewrite canonical_bytes_print. apply no_floats_canon in Hv.
  unfold parse_json. pose proof (json_size_print _ Hv) as Hs.
  assert (json_print (canon v) = json_print (canon v) +:+ "") as E.
  { clear. induction (json_print (canon v)) as [|c s IH]; [done|].
    change (String c s = String c (s +:+ "")). by rewrite <-IH. }
  rewrite E at 2. rewrite read_print; [done|done|lia|done].
Qed.
Lemma canonical_bytes_inj v1 v2 :
  no_floats v1 = true -> no_floats v2 = true ->
  canonical_json_bytes v1 = canonical_json_bytes v2 -> canon v1 = canon v2.
Proof.
  intros H1 H2 E. apply parse_canonical in H1, H2. rewrite E in H1. congruence.
Qed.

(** ** Hash preimages *)
Lemma separator_unique (d1 d2 b1 b2 : string) :
  (forall c, c ∈ String.list_ascii_of_string d1 -> c <> "000"%char) ->
  (forall c, c ∈ String.list_ascii_of_string d2 -> c <> "000"%char) ->
  d1 +:+ chr 0 +:+ b1 = d2 +:+ chr 0 +:+ b2 -> d1 = d2 /\ b1 = b2.
Proof.
  revert d2. induction d1 as [|c d1 IH]; intros [|c2 d2] H1 H2 E.
  - by injection E.
  - injection E as <- _. exfalso. apply (H2 "000"%char); [left|done].
  - injection E as -> _. exfalso. apply (H1 "000"%char); [left|done].
  - injection E as <- E. apply IH in E as [<- <-]; [done| |].
    + intros x Hx. apply H1. by right.
    + intros x Hx. apply H2. by right.
Qed.

Definition nul_free (s : string) : bool :=
  forallb (fun c => negb (Ascii.eqb c "000")) (String.list_ascii_of_string s).
Lemma nul_free_spec s : nul_free s = true -> forall c, c ∈ String.list_ascii_of_string s -> c <> "000"%char.
Proof. unfold nul_free. rewrite forallb_forall. intros H c Hc%list_elem_of_In ->. by apply H in Hc. Qed.

(** The byte string a content hash is taken of. *)
Definition content_preimage (domain : string) (value : json) : string :=
  domain +:+ chr 0 +:+ canonical_json_bytes value.

(** *** [ensure_ascii=True]

    On printable ASCII both escapings agree. *)
Definition plain_string (s : string) : bool := forallb (fun n => (n <? 127)%N) (utf8_bytes s).
Fixpoint plain (v : json) : bool :=
  match v with
  | JStr s => plain_string s
  | JList l => forallb plain l
  | JObj fs => forallb (fun kv => plain_string kv.1 && plain kv.2) fs
  | _ => true
  end.

Lemma code_points_plain l : forallb (fun n => (n <? 127)%N) l = true -> code_points l = l.
Proof.
  induction l as [|n l IH]; [done|]. simpl. intros [Hn Hl]%andb_true_iff. apply N.ltb_lt in Hn.
  destruct (N.ltb_spec n 192); [|lia]. by rewrite IH.
Qed.
Lemma escape_ascii_plain s : plain_string s = true -> escape_ascii s = escape s.
Proof.
  intros Hs. unfold escape_ascii. rewrite (code_points_plain _ Hs).
  unfold plain_string, utf8_bytes in *. induction s as [|c s IH]; [done|].
  simpl in Hs. apply andb_true_iff in Hs as [Hc Hs].
  cbn [String.list_ascii_of_string fmap list_fmap foldr escape]. rewrite IH by done.
  unfold escape_code_point. rewrite Hc. by rewrite Ascii.ascii_N_embedding.
Qed.
Lemma ascii_bytes_plain v : plain v = true -> ascii_json_bytes v = canonical_json_bytes v.
Proof.
  unfold ascii_json_bytes, canonical_json_bytes.
  induction v as [| | | |s|l Hl|fs Hf] using json_nested_ind; try done.
  - simpl. unfold json_string. intros Hs. by rewrite escape_ascii_plain.
  - simpl. rewrite forallb_forall. intros Hp. do 3 f_equal. apply Forall_fmap_ext_1.
    rewrite Forall_forall in Hl |- *. intros x Hx. apply Hl; [done|]. by apply Hp, list_elem_of_In.
  - simpl. rewrite forallb_forall. intros Hp. rewrite Forall_forall in Hf.
    assert ((fun kv : string * json => (kv.1, json_dumps escape_ascii kv.2)) <$> fs
            = (fun kv => (kv.1, json_dumps escape kv.2)) <$> fs) as ->.
    { apply Forall_fmap_ext_1. apply Forall_forall. intros [k x] Hx. simpl. f_equal.
      apply (Hf (k, x)); [done|]. apply list_elem_of_In, Hp in Hx. by apply andb_true_iff in Hx as [_ ?]. }
    unfold json_object. do 3 f_equal. apply Forall_fmap_ext_1. apply Forall_forall.
    intros [k b] Hk. apply elem_of_sorted_by in Hk.
    apply list_elem_of_fmap in Hk as ([k' x] & [= -> ->] & Hx).
    apply list_elem_of_In, Hp in Hx. apply andb_true_iff in Hx as [Hk _].
    unfold json_string. by rewrite escape_ascii_plain.
Qed.

(** Objects with the same keys in the same order and equal canonical forms have
    equal entries. *)
Lemma same_keys_eq {A} (l1 l2 : list (string * A)) :
  NoDup l1.*1 -> l1.*1 = l2.*1 -> l1 ≡ₚ l2 -> l1 = l2.
Proof.
  revert l2. induction l1 as [|[k x] l1 IH]; intros [|[k2 x2] l2] Hnd Hk Hp; try done.
  injection Hk as <- Hk. apply NoDup_cons in Hnd as [Hx Hnd].
  assert ((k, x) ∈ (k, x2) :: l2) as Hin by (rewrite <-Hp; left).
  apply elem_of_cons in Hin as [E|Hin].
  - injection E as <-. f_equal. apply IH; [done|done|]. by apply Permutation_cons_inv in Hp.
  - exfalso. apply Hx. apply (list_elem_of_fmap_2 fst) in Hin. change (k ∈ l1.*1).
    assert (l1.*1 = l2.*1) as -> by exact Hk. exact Hin.
Qed.
Lemma canon_obj_inj f1 f2 :
  NoDup f1.*1 -> f1.*1 = f2.*1 -> canon (JObj f1) = canon (JObj f2) ->
  (fun kv => (kv.1, canon kv.2)) <$> f1 = (fun kv => (kv.1, canon kv.2)) <$> f2.
Proof.
  assert (forall f : list (string * json), ((fun kv => (kv.1, canon kv.2)) <$> f).*1 = f.*1) as Hfst.
  { intros f. rewrite <-list_fmap_compose. by apply list_fmap_ext. }
  intros Hnd Hk E. apply same_keys_eq; [by rewrite Hfst|by rewrite !Hfst|].
  injection E as E. by rewrite <-(sorted_by_perm fst (_ <$> f1)), E, sorted_by_perm.
Qed.

(** C19: the canonical serialisation can be read back: reading the canonical
    JSON bytes of a value without floats gives the value with the entries of
    its objects sorted by key, and the preimages of two content hashes agree
    exactly when their domains and their normal forms do, so a content hash
    separates domains and contents up to collisions of SHA-256. *)
Theorem canonical_json_round_trip d1 d2 v1 v2 :
  no_floats v1 = true -> no_floats v2 = true -> nul_free d1 = true -> nul_free d2 = true ->
  parse_json (canonical_json_bytes v1) = Some (canon v1)
  /\ (content_preimage d1 v1 = content_preimage d2 v2 <-> d1 = d2 /\ canon v1 = canon v2)
  /\ forall `{Sha256}, canonical_content_sha256 d1 v1 = sha256_hex (content_preimage d1 v1).
Proof.
  intros H1 H2 Hd1 Hd2. pose proof (nul_free_spec _ Hd1). pose proof (nul_free_spec _ Hd2). split; [by apply parse_canonical|]. split; [|done].
  split.
  - intros [-> E]%separator_unique; [|done..]. split; [done|]. by apply canonical_bytes_inj.
  - intros [-> E]. unfold content_preimage. by rewrite !canonical_bytes_print, E.
Qed.
Lemma canonical_json_round_trip_witness :
  parse_json (canonical_json_bytes (JObj [("b", JList [JInt (-30)]); ("a", JStr (chr 10))]))
  = Some (JObj [("a", JStr (chr 10)); ("b", JList [JInt (-30)])]).
Proof.
  exact (proj1 (canonical_json_round_trip "d" "e" (JObj [("b", JList [JInt (-30)]); ("a", JStr (chr 10))]) JNull
                  eq_refl eq_refl eq_refl eq_refl)).
Defined.
