(* ===== verification/JsonLoads.v ===== *)
(** * JsonLoads: reading back the JSON the program writes

    [json.loads] on a document that [json.dumps] wrote with sorted keys and
    compact separators is the reader of [JsonCanonical]; on any other text it is
    a parameter.  Objects are insertion-ordered dictionaries. *)

From S2P Require Import Prelude Float Json JsonCanonical.

(** Objects without repeated keys: what a Python [dict] can hold. *)
Fixpoint unique_keys (v : json) : bool :=
  match v with
  | JList l => forallb unique_keys l
  | JObj fs => negb (has_dups fs.*1) && forallb (fun kv => unique_keys kv.2) fs
  | _ => true
  end.

(** [json.loads(text)] on texts outside the canonical form. *)
Class JsonLoads := other_loads : string -> option json.

Definition canonical_document (s : string) : option json :=
  v ← parse_json s;
  if String.eqb (ascii_json_bytes v) s && unique_keys v then Some v else None.
Fixpoint chomp (s : string) : string :=
  match s with
  | String c EmptyString => if Ascii.eqb c (Ascii.ascii_of_N 10) then EmptyString else s
  | String c s' => String c (chomp s')
  | EmptyString => EmptyString
  end.
Definition json_loads `{JsonLoads} (s : string) : option json :=
  match canonical_document s with
  | Some v => Some v
  | None => match canonical_document (chomp s) with
            | Some v => Some v
            | None => other_loads s
            end
  end.

(** The values the program writes: dictionaries of printable ASCII text,
    integers, booleans and nulls. *)
Definition writable (v : json) : bool := plain v && no_floats v && unique_keys v.

(** ** Normal forms *)
Notation canon_fields := (fun kv : string * json => (kv.1, canon kv.2)).
Lemma canon_fields_keys (fs : list (string * json)) : (canon_fields <$> fs).*1 = fs.*1.
Proof. rewrite <-list_fmap_compose. by apply list_fmap_ext. Qed.

Lemma canon_idemp v : canon (canon v) = canon v.
Proof.
  induction v as [| | | | |l Hl|fs Hf] using json_nested_ind; try done; simpl.
  - f_equal. rewrite <-list_fmap_compose. by apply Forall_fmap_ext_1.
  - f_equal. rewrite (sorted_by_fst_fmap canon), <-list_fmap_compose.
    rewrite sorted_by_id by apply sorted_by_sorted. f_equal. apply Forall_fmap_ext_1.
    eapply Forall_impl; [exact Hf|]. intros [k x] Hx. simpl in *. by rewrite Hx.
Qed.
Lemma unique_canon v : unique_keys v = true -> unique_keys (canon v) = true.
Proof.
  induction v as [| | | | |l Hl|fs Hf] using json_nested_ind; try done; simpl.
  - rewrite !forallb_forall. intros H x (y & <- & Hy)%in_map_iff.
    rewrite Forall_forall in Hl. apply Hl; [by apply list_elem_of_In|auto].
  - rewrite !andb_true_iff, !negb_true_iff, !has_dups_false, !forallb_forall. intros [Hd H]. split.
    + rewrite (fmap_Permutation fst _ _ (sorted_by_perm fst _)), canon_fields_keys. done.
    + intros [k x] Hx%list_elem_of_In. rewrite elem_of_sorted_by in Hx.
      apply list_elem_of_fmap in Hx as ([k' x'] & [= -> ->] & Hx).
      rewrite Forall_forall in Hf. apply (Hf (k', x')); [done|]. apply (H (k', x')). by apply list_elem_of_In.
Qed.
Lemma plain_canon v : plain v = true -> plain (canon v) = true.
Proof.
  induction v as [| | | | |l Hl|fs Hf] using json_nested_ind; try done; simpl.
  - rewrite !forallb_forall. intros H x (y & <- & Hy)%in_map_iff.
    rewrite Forall_forall in Hl. apply Hl; [by apply list_elem_of_In|auto].
  - rewrite !forallb_forall. intros H [k x] Hx%list_elem_of_In. rewrite elem_of_sorted_by in Hx.
    apply list_elem_of_fmap in Hx as ([k' x'] & [= -> ->] & Hx). simpl.
    pose proof Hx as Hin. apply list_elem_of_In, H, andb_true_iff in Hin as [Hk Hv]. simpl in *. rewrite Hk. simpl.
    rewrite Forall_forall in Hf. by apply (Hf (k', x')).
Qed.
Lemma writable_canon v : writable v = true -> writable (canon v) = true.
Proof.
  unfold writable. rewrite !andb_true_iff. intros [[Hp Hf] Hu].
  split_and!; [by apply plain_canon|by apply no_floats_canon|by apply unique_canon].
Qed.
Lemma ascii_bytes_canon v : plain v = true -> ascii_json_bytes (canon v) = ascii_json_bytes v.
Proof.
  intros Hp. rewrite !ascii_bytes_plain by (done || by apply plain_canon).
  by rewrite !canonical_bytes_print, canon_idemp.
Qed.

(** ** Round trip *)
Lemma canonical_document_dumps v : writable v = true -> canonical_document (ascii_json_bytes v) = Some (canon v).
Proof.
  unfold writable. intros Hw. pose proof Hw as Hw'. rewrite !andb_true_iff in Hw. destruct Hw as [[Hp Hf] Hu].
  unfold canonical_document. rewrite (ascii_bytes_plain _ Hp), (parse_canonical _ Hf). cbn [mbind option_bind].
  rewrite (ascii_bytes_canon _ Hp), (ascii_bytes_plain _ Hp), String.eqb_refl, (unique_canon _ Hu). done.
Qed.
Lemma parse_newline v : no_floats v = true -> parse_json (canonical_json_bytes v +:+ chr 10) = None.
Proof.
  intros Hv. rewrite canonical_bytes_print. apply no_floats_canon in Hv.
  unfold parse_json. pose proof (json_size_print _ Hv) as Hs.
  rewrite read_print; [done|done|rewrite string_app_length; lia|done].
Qed.
Lemma chomp_newline s : chomp (s +:+ chr 10) = s.
Proof.
  induction s as [|c s IH]; [done|]. change (String c s +:+ chr 10) with (String c (s +:+ chr 10)).
  cbn [chomp]. rewrite IH. by destruct s.
Qed.

Lemma json_loads_dumps `{JsonLoads} v : writable v = true -> json_loads (ascii_json_bytes v) = Some (canon v).
Proof. intros Hw. unfold json_loads. by rewrite canonical_document_dumps. Qed.
Lemma json_loads_line `{JsonLoads} v :
  writable v = true -> json_loads (ascii_json_bytes v +:+ chr 10) = Some (canon v).
Proof.
  intros Hw. unfold json_loads.
  assert (canonical_document (ascii_json_bytes v +:+ chr 10) = None) as ->.
  { unfold writable in Hw. rewrite !andb_true_iff in Hw. destruct Hw as [[Hp Hf] _].
    unfold canonical_document. by rewrite (ascii_bytes_plain _ Hp), (parse_newline _ Hf). }
  by rewrite chomp_newline, canonical_document_dumps.
Qed.

(** ** Objects *)
Lemma dict_get_reorder (f1 f2 : list (string * json)) k : NoDup f1.*1 -> f1 ≡ₚ f2 -> dict_get k f1 = dict_get k f2.
Proof.
  intros Hn Hp. destruct (dict_get k f2) as [v|] eqn:E.
  - apply dict_elem_get; [done|]. rewrite Hp. by apply dict_get_elem.
  - apply dict_get_None. apply dict_get_None in E. by rewrite Hp.
Qed.
Lemma dict_get_fmap (fs : list (string * json)) k : dict_get k (canon_fields <$> fs) = canon <$> dict_get k fs.
Proof. induction fs as [|[k' v] fs IH]; [done|]. rewrite fmap_cons. cbn [dict_get fst snd]. case_decide; [done|exact IH]. Qed.

(** The fields of an object as they are read back. *)
Definition read_fields (fs : list (string * json)) : list (string * json) :=
  sorted_by fst (canon_fields <$> fs).
Lemma canon_object fs : canon (JObj fs) = JObj (read_fields fs).
Proof. done. Qed.
Lemma read_fields_perm fs : read_fields fs ≡ₚ (canon_fields <$> fs).
Proof. apply sorted_by_perm. Qed.
Lemma read_fields_keys fs : (read_fields fs).*1 ≡ₚ fs.*1.
Proof. by rewrite (read_fields_perm fs), canon_fields_keys. Qed.
Lemma read_fields_get fs k : NoDup fs.*1 -> dict_get k (read_fields fs) = canon <$> dict_get k fs.
Proof.
  intros Hn. rewrite <-dict_get_fmap. apply dict_get_reorder; [by rewrite read_fields_keys|apply read_fields_perm].
Qed.
Lemma same_keys_read fs keys : same_set (read_fields fs).*1 keys = same_set fs.*1 keys.
Proof.
  apply eq_true_iff_eq. rewrite !same_set_true. by setoid_rewrite read_fields_keys.
Qed.

(** Objects with the same entries up to order and normal form have the same
    bytes. *)
Lemma ascii_bytes_perm f1 f2 :
  NoDup f1.*1 -> plain (JObj f1) = true -> plain (JObj f2) = true ->
  (canon_fields <$> f1) ≡ₚ (canon_fields <$> f2) -> ascii_json_bytes (JObj f1) = ascii_json_bytes (JObj f2).
Proof.
  intros Hn P1 P2 Hp. rewrite !ascii_bytes_plain by done. rewrite !canonical_bytes_print. f_equal. simpl. f_equal.
  apply sorted_by_unique; [|done]. intros [k1 x1] [k2 x2] H1 H2 E. simpl in E. subst k2.
  rewrite <-canon_fields_keys in Hn. apply (dict_elem_get _ _ _ Hn) in H1, H2. congruence.
Qed.
Lemma canon_fields_idemp (fs : list (string * json)) : canon_fields <$> (canon_fields <$> fs) = canon_fields <$> fs.
Proof.
  rewrite <-list_fmap_compose. apply list_fmap_ext. intros ? [k v] _. simpl. by rewrite canon_idemp.
Qed.

(** Dropping a field commutes with reading back. *)
Definition without (key : string) (fs : list (string * json)) : list (string * json) := filter (fun kv => kv.1 <> key) fs.
Lemma without_keys key fs : NoDup fs.*1 -> NoDup (without key fs).*1.
Proof.
  unfold without. induction fs as [|[k v] fs IH]; [done|]. rewrite fmap_cons, NoDup_cons. intros [Hk Hn].
  rewrite filter_cons. case_decide; [|by apply IH]. rewrite fmap_cons, NoDup_cons. split; [|by apply IH].
  intros (x & Ex & Hx)%list_elem_of_fmap. apply list_elem_of_filter in Hx as [_ Hx].
  apply Hk, list_elem_of_fmap. eauto.
Qed.
Lemma without_fmap key fs : without key (canon_fields <$> fs) = canon_fields <$> without key fs.
Proof.
  unfold without. induction fs as [|[k v] fs IH]; [done|]. rewrite fmap_cons, !filter_cons. simpl.
  case_decide; [by rewrite fmap_cons, IH|exact IH].
Qed.
Lemma plain_without key fs : plain (JObj fs) = true -> plain (JObj (without key fs)) = true.
Proof.
  simpl. rewrite !forallb_forall. intros H kv Hin%list_elem_of_In. apply list_elem_of_filter in Hin as [_ Hin].
  by apply H, list_elem_of_In.
Qed.
Lemma read_without_bytes key fs :
  NoDup fs.*1 -> plain (JObj fs) = true ->
  ascii_json_bytes (JObj (without key (read_fields fs))) = ascii_json_bytes (JObj (without key fs)).
Proof.
  intros Hn Hp. assert (NoDup (read_fields fs).*1) as Hn' by (by rewrite read_fields_keys).
  apply ascii_bytes_perm; [by apply without_keys| |by apply plain_without|].
  - apply plain_without. exact (plain_canon _ Hp).
  - rewrite <-!without_fmap. unfold without at 1. rewrite (read_fields_perm fs), canon_fields_idemp. done.
Qed.
