(* ===== verification/Schema.v ===== *)
(** * Schema: the tariff-language models (tariffs/schema.py)

    Enumerations, records and validators of the declarative tariff language.
    A [Literal] with one admitted value is a one-constructor type or is left
    out (it carries no information); pydantic's own field constraints
    ([ge], [gt], [min_length]) that a theorem needs are stated by the
    [*_fields_ok] predicates. *)

From S2P Require Import Prelude Calendar Json.

(** ** Enumerations *)
Inductive EligibilityStatus := ELIGIBLE | INELIGIBLE | UNKNOWN.
Inductive IncomeTier := TIER_1 | TIER_2 | TIER_3 | TIER_4.
Inductive BaselineTerritory :=
| TERR_P | TERR_Q | TERR_R | TERR_S | TERR_T | TERR_V | TERR_W | TERR_X | TERR_Y | TERR_Z.
Inductive BaselineQuantityCode := BASIC | ALL_ELECTRIC.
Inductive QualifyingTechnology := EV | HEAT_PUMP | ELECTRIC_WATER_HEAT.
Inductive RoundingOperator := EXACT | HALF_UP_CENT_AT_LINE_ITEM.
Inductive ChargeComponentKey :=
| baseline_allowance | bundled_energy | baseline_adjustment | base_services_charge
| california_climate_credit | minimum_bill_adjustment | explicit_unsupported.
Inductive TimeOfUsePeriod := PEAK | PARTIAL_PEAK | OFF_PEAK.
Inductive DaySelector := EVERY_DAY | NONHOLIDAY_WEEKDAY.
Inductive ServiceProvider := PGE.
Inductive ServiceMode := BUNDLED.

#[export] Instance EligibilityStatus_eq_dec : EqDecision EligibilityStatus.
Proof. solve_decision. Defined.
#[export] Instance IncomeTier_eq_dec : EqDecision IncomeTier.
Proof. solve_decision. Defined.
#[export] Instance BaselineTerritory_eq_dec : EqDecision BaselineTerritory.
Proof. solve_decision. Defined.
#[export] Instance BaselineQuantityCode_eq_dec : EqDecision BaselineQuantityCode.
Proof. solve_decision. Defined.
#[export] Instance QualifyingTechnology_eq_dec : EqDecision QualifyingTechnology.
Proof. solve_decision. Defined.
#[export] Instance RoundingOperator_eq_dec : EqDecision RoundingOperator.
Proof. solve_decision. Defined.
#[export] Instance ChargeComponentKey_eq_dec : EqDecision ChargeComponentKey.
Proof. solve_decision. Defined.
#[export] Instance TimeOfUsePeriod_eq_dec : EqDecision TimeOfUsePeriod.
Proof. solve_decision. Defined.
#[export] Instance DaySelector_eq_dec : EqDecision DaySelector.
Proof. solve_decision. Defined.
#[export] Instance ServiceProvider_eq_dec : EqDecision ServiceProvider.
Proof. solve_decision. Defined.
#[export] Instance ServiceMode_eq_dec : EqDecision ServiceMode.
Proof. solve_decision. Defined.

Definition status_str (s : EligibilityStatus) : string :=
  match s with ELIGIBLE => "ELIGIBLE" | INELIGIBLE => "INELIGIBLE" | UNKNOWN => "UNKNOWN" end.
Definition tier_str (t : IncomeTier) : string :=
  match t with TIER_1 => "TIER_1" | TIER_2 => "TIER_2" | TIER_3 => "TIER_3" | TIER_4 => "TIER_4" end.
Definition territory_str (t : BaselineTerritory) : string :=
  match t with
  | TERR_P => "P" | TERR_Q => "Q" | TERR_R => "R" | TERR_S => "S" | TERR_T => "T"
  | TERR_V => "V" | TERR_W => "W" | TERR_X => "X" | TERR_Y => "Y" | TERR_Z => "Z"
  end.
Definition quantity_code_str (c : BaselineQuantityCode) : string :=
  match c with BASIC => "BASIC" | ALL_ELECTRIC => "ALL_ELECTRIC" end.
Definition technology_str (t : QualifyingTechnology) : string :=
  match t with EV => "EV" | HEAT_PUMP => "HEAT_PUMP" | ELECTRIC_WATER_HEAT => "ELECTRIC_WATER_HEAT" end.
Definition rounding_str (r : RoundingOperator) : string :=
  match r with EXACT => "EXACT" | HALF_UP_CENT_AT_LINE_ITEM => "HALF_UP_CENT_AT_LINE_ITEM" end.
Definition component_str (k : ChargeComponentKey) : string :=
  match k with
  | baseline_allowance => "baseline_allowance" | bundled_energy => "bundled_energy"
  | baseline_adjustment => "baseline_adjustment" | base_services_charge => "base_services_charge"
  | california_climate_credit => "california_climate_credit"
  | minimum_bill_adjustment => "minimum_bill_adjustment"
  | explicit_unsupported => "explicit_unsupported"
  end.
Definition period_str (p : TimeOfUsePeriod) : string :=
  match p with PEAK => "PEAK" | PARTIAL_PEAK => "PARTIAL_PEAK" | OFF_PEAK => "OFF_PEAK" end.
Definition day_selector_str (d : DaySelector) : string :=
  match d with EVERY_DAY => "EVERY_DAY" | NONHOLIDAY_WEEKDAY => "NONHOLIDAY_WEEKDAY" end.

(** ** Date ranges *)
Record DateRange := { dr_start : date; dr_end : option date }.
#[export] Instance DateRange_eq_dec : EqDecision DateRange.
Proof. solve_decision. Defined.

Definition validate_nonempty (r : DateRange) : result unit :=
  match dr_end r with
  | Some e => raise_if (e <=? dr_start r)
                (ValidationError "date range must be nonempty and half-open")
  | None => Ok tt
  end.

Definition contains (r : DateRange) (value : date) : bool :=
  (dr_start r <=? value) && match dr_end r with None => true | Some e => value <? e end.

Definition covers (r other : DateRange) : bool :=
  if dr_start other <? dr_start r then false
  else match dr_end r with
       | None => true
       | Some e => match dr_end other with Some oe => oe <=? e | None => false end
       end.

(** ** Sources and components *)
Record SourceLink := {
  source_id : string; source_sha256 : string; source_sheet_ids : list string
}.

Record TariffComponentVersion := {
  component_version_id : string;
  component_key : string;
  component_effective_range : DateRange;
  precedence : Z;
  component_source : SourceLink;
  extracted_rule_ids : list string
}.

Definition validate_rule_id_set (c : TariffComponentVersion) : result unit :=
  raise_if (has_dups (extracted_rule_ids c))
    (ValidationError "component extracted rule identifiers must be unique").

(** ** Account facts and eligibility predicates *)
Record AccountFacts := {
  service_window : DateRange;
  service_provider : ServiceProvider;
  service_mode : ServiceMode;
  meter_count : Z;
  primary_meter_only : bool;
  income_tier : IncomeTier;
  care_enrolled : bool;
  fera_enrolled : bool;
  medical_baseline : bool;
  cca_service : bool;
  direct_access_service : bool;
  active_bill_protection : bool;
  solar_or_export : bool;
  baseline_territory : BaselineTerritory;
  baseline_quantity_code : BaselineQuantityCode;
  qualifying_technologies : option (list QualifyingTechnology);
  user_attested_at : string
}.

Definition technologies_sorted (l : list QualifyingTechnology) : bool :=
  bool_decide (py_sorted (technology_str <$> l) = technology_str <$> l).

Definition validate_technologies (f : AccountFacts) : result unit :=
  match qualifying_technologies f with
  | None => Ok tt
  | Some l => raise_if (negb (technologies_sorted l))
                (ValidationError "qualifying technologies must be unique and sorted")
  end.

(** The fields [EligibilityPredicate] and [EligibilityPredicateV2] share. *)
Record EligibilityPredicate := {
  predicate_id : string;
  supported_income_tiers : list IncomeTier;
  required_service_provider : ServiceProvider;
  required_service_mode : ServiceMode;
  required_meter_count : Z;
  requires_primary_meter_only : bool;
  requires_care_enrolled : bool;
  requires_fera_enrolled : bool;
  requires_medical_baseline : bool;
  requires_cca_service : bool;
  requires_direct_access_service : bool;
  requires_active_bill_protection : bool;
  requires_solar_or_export : bool;
  required_qualifying_technology : option QualifyingTechnology;
  source_rule_ids : list string
}.

Record EligibilityPredicateV2 := {
  v2_common : EligibilityPredicate;
  required_any_qualifying_technologies : list QualifyingTechnology;
  requires_dated_technology_attestation : bool;
  requires_ev_registration_at_premises : bool;
  requires_whole_house_metering : bool;
  maximum_annual_baseline_ratio_numerator : option Z;
  maximum_annual_baseline_ratio_denominator : option Z
}.

Definition validate_extended_predicate (p : EligibilityPredicateV2) : result unit :=
  _ ← raise_if (negb (technologies_sorted (required_any_qualifying_technologies p)))
        (ValidationError "required qualifying technologies must be unique and sorted");
  raise_if (xorb (bool_decide (maximum_annual_baseline_ratio_numerator p = None))
                 (bool_decide (maximum_annual_baseline_ratio_denominator p = None)))
    (ValidationError "annual baseline ratio requires numerator and denominator").

(** [EligibilityPredicateValue]: the union discriminated by [predicate_version]. *)
Inductive EligibilityPredicateValue :=
| PredicateV1 (p : EligibilityPredicate)
| PredicateV2 (p : EligibilityPredicateV2).

Definition predicate_common (p : EligibilityPredicateValue) : EligibilityPredicate :=
  match p with PredicateV1 p => p | PredicateV2 p => v2_common p end.
Definition predicate_version (p : EligibilityPredicateValue) : string :=
  match p with
  | PredicateV1 _ => "eligibility-predicate-v1"
  | PredicateV2 _ => "eligibility-predicate-v2"
  end.

Record DatedEligibilityFacts := {
  facts_as_of : option date;
  ev_registered_and_charged_at_premises : option bool;
  whole_house_metering : option bool;
  annual_usage_period : option DateRange;
  annual_usage_wh : option Z;
  annual_baseline_allowance_wh : option Z
}.

(** ** Applicability *)
Record RuleApplicability := {
  income_tiers : list IncomeTier;
  baseline_territories : list BaselineTerritory;
  baseline_quantity_codes : list BaselineQuantityCode;
  bill_cycle_months : list Z
}.

Definition unique_sorted {K} `{PyOrd K, EqDecision K} (values : list K) : bool :=
  bool_decide (py_sorted values = values) && negb (has_dups values).

Definition validate_unique_sorted (a : RuleApplicability) : result unit :=
  raise_if (negb (unique_sorted (tier_str <$> income_tiers a)
                  && unique_sorted (territory_str <$> baseline_territories a)
                  && unique_sorted (quantity_code_str <$> baseline_quantity_codes a)
                  && unique_sorted (bill_cycle_months a)))
    (ValidationError "applicability values must be unique and sorted").

(** ** Charge rules *)
Record RuleBase := {
  rule_id : string;
  effective_range : DateRange;
  applicability : RuleApplicability;
  source : SourceLink;
  rounding : RoundingOperator;
  charge_component_key : ChargeComponentKey
}.

Record BaselineAllowance := { ba_base : RuleBase; ba_daily_allowance_wh : Z }.

Inductive TierBoundKind := BASELINE_ALLOWANCE | UNBOUNDED.
#[export] Instance TierBoundKind_eq_dec : EqDecision TierBoundKind.
Proof. solve_decision. Defined.

Record EnergyTier := {
  upper_bound_kind : TierBoundKind;
  upper_bound_numerator : Z;
  upper_bound_denominator : Z;
  rate_microdollars_per_kwh : Z
}.
Definition energy_tier_fields_ok (t : EnergyTier) : bool :=
  (0 <? upper_bound_numerator t) && (0 <? upper_bound_denominator t)
  && (0 <=? rate_microdollars_per_kwh t).

Record TieredEnergyCharge := {
  te_base : RuleBase; te_line_item_key : string; te_tiers : list EnergyTier
}.

Definition validate_tiers (tiers : list EnergyTier) : result unit :=
  _ ← raise_if (bool_decide (upper_bound_kind <$> last tiers <> Some UNBOUNDED))
        (ValidationError "final energy tier must be unbounded");
  raise_if (existsb (fun t => bool_decide (upper_bound_kind t = UNBOUNDED))
              (take (length tiers - 1) tiers))
    (ValidationError "only the final energy tier may be unbounded").

Record TimeOfUseWindow := {
  window_period : TimeOfUsePeriod;
  start_minute_inclusive : Z;
  end_minute_exclusive : Z;
  day_selector : DaySelector
}.
#[export] Instance TimeOfUseWindow_eq_dec : EqDecision TimeOfUseWindow.
Proof. solve_decision. Defined.

Definition validate_window (w : TimeOfUseWindow) : result unit :=
  raise_if (end_minute_exclusive w <=? start_minute_inclusive w)
    (ValidationError "time-of-use windows must be nonempty and within one local day").

Record TimeOfUseSchedule := {
  ts_base : RuleBase;
  ts_windows : list TimeOfUseWindow;
  ts_calendar_id : option string;
  ts_calendar_content_sha256 : option string
}.

Definition window_order_key (w : TimeOfUseWindow) : string * Z :=
  (day_selector_str (day_selector w), start_minute_inclusive w).

Definition windows_clash (p : TimeOfUseWindow * TimeOfUseWindow) : bool :=
  bool_decide (day_selector p.1 = day_selector p.2)
  && (start_minute_inclusive p.2 <? end_minute_exclusive p.1).

Definition validate_schedule (s : TimeOfUseSchedule) : result unit :=
  _ ← raise_if (existsb windows_clash (pairwise (sorted_by window_order_key (ts_windows s))))
        (ValidationError "time-of-use windows overlap");
  _ ← raise_if (xorb (existsb (fun w => bool_decide (day_selector w = NONHOLIDAY_WEEKDAY))
                         (ts_windows s))
                      (bool_decide (ts_calendar_id s <> None)))
        (ValidationError "nonholiday schedules require exactly one calendar");
  raise_if (xorb (bool_decide (ts_calendar_id s = None))
                 (bool_decide (ts_calendar_content_sha256 s = None)))
    (ValidationError "calendar identifier and content hash must be provided together").

Record TimeOfUsePeriodRate := {
  rate_period : TimeOfUsePeriod; period_rate_microdollars_per_kwh : Z
}.

Record TimeOfUseEnergyCharge := {
  tc_base : RuleBase;
  tc_line_item_key : string;
  tc_schedule_rule_id : string;
  tc_period_rates : list TimeOfUsePeriodRate;
  tc_baseline_credit_microdollars_per_kwh : option Z;
  tc_baseline_rule_id : option string;
  tc_baseline_credit_charge_component_key : option ChargeComponentKey
}.

Definition period_rank (p : TimeOfUsePeriod) : Z :=
  match p with PEAK => 0 | PARTIAL_PEAK => 1 | OFF_PEAK => 2 end.

Definition validate_period_rates (c : TimeOfUseEnergyCharge) : result unit :=
  let periods := rate_period <$> tc_period_rates c in
  let absent := [bool_decide (tc_baseline_credit_microdollars_per_kwh c = None);
                 bool_decide (tc_baseline_rule_id c = None);
                 bool_decide (tc_baseline_credit_charge_component_key c = None)] in
  _ ← raise_if (has_dups periods) (ValidationError "time-of-use rate periods must be unique");
  _ ← raise_if (bool_decide (sorted_by period_rank periods <> periods))
        (ValidationError "time-of-use rate periods must be sorted");
  raise_if (xorb (existsb (fun b => b) absent) (forallb (fun b => b) absent))
    (ValidationError "baseline credit requires a baseline rule and component key").

Record FixedDailyCharge := {
  fd_base : RuleBase; fd_line_item_key : string; fd_rate_microdollars_per_day : Z
}.
Record FixedMonthlyCharge := {
  fm_base : RuleBase; fm_line_item_key : string; fm_amount_microdollars : Z
}.
Record ExplicitUnsupportedCharge := {
  eu_base : RuleBase; eu_line_item_key : string; eu_reason_code : string
}.

Inductive TariffRule :=
| RBaselineAllowance (r : BaselineAllowance)
| RTieredEnergyCharge (r : TieredEnergyCharge)
| RTimeOfUseSchedule (r : TimeOfUseSchedule)
| RTimeOfUseEnergyCharge (r : TimeOfUseEnergyCharge)
| RFixedDailyCharge (r : FixedDailyCharge)
| RFixedMonthlyCharge (r : FixedMonthlyCharge)
| RExplicitUnsupportedCharge (r : ExplicitUnsupportedCharge).

Definition rule_base (r : TariffRule) : RuleBase :=
  match r with
  | RBaselineAllowance r => ba_base r
  | RTieredEnergyCharge r => te_base r
  | RTimeOfUseSchedule r => ts_base r
  | RTimeOfUseEnergyCharge r => tc_base r
  | RFixedDailyCharge r => fd_base r
  | RFixedMonthlyCharge r => fm_base r
  | RExplicitUnsupportedCharge r => eu_base r
  end.

(** ** Tariff versions *)
Inductive OptimizationCapability := SUPPORTED | UNSUPPORTED_WITH_REASON.
#[export] Instance OptimizationCapability_eq_dec : EqDecision OptimizationCapability.
Proof. solve_decision. Defined.

Record TariffVersion := {
  tariff_version_id : string;
  plan_code : string;
  admitted_service_windows : list DateRange;
  component_versions : list TariffComponentVersion;
  eligibility_predicate : EligibilityPredicateValue;
  eligibility_questions : list string;
  comparison_component_keys : list ChargeComponentKey;
  optimization_capability : OptimizationCapability;
  optimization_unsupported_reason : option string;
  charge_rules : list TariffRule;
  source_ids : list string;
  source_hashes : list string;
  golden_case_ids : list string
}.

(** Python truth value of an optional string. *)
Definition opt_str_truthy (o : option string) : bool :=
  match o with Some s => negb (String.eqb s "") | None => false end.

Definition validate_collections (t : TariffVersion) : result unit :=
  _ ← raise_if (has_dups (source_ids t) || has_dups (source_hashes t)
                || has_dups (golden_case_ids t)
                || has_dups (rule_id ∘ rule_base <$> charge_rules t)
                || has_dups (component_version_id <$> component_versions t))
        (ValidationError "tariff identifiers and lock lists must be unique");
  _ ← raise_if (bool_decide (py_sorted (source_ids t) <> source_ids t))
        (ValidationError "source identifiers must be sorted");
  _ ← raise_if (bool_decide (py_sorted (source_hashes t) <> source_hashes t))
        (ValidationError "source hashes must be sorted");
  _ ← raise_if (bool_decide (py_sorted (golden_case_ids t) <> golden_case_ids t))
        (ValidationError "golden case identifiers must be sorted");
  _ ← raise_if (bool_decide (optimization_capability t = SUPPORTED)
                && opt_str_truthy (optimization_unsupported_reason t))
        (ValidationError "supported optimization cannot carry an unsupported reason");
  raise_if (bool_decide (optimization_capability t = UNSUPPORTED_WITH_REASON)
            && negb (opt_str_truthy (optimization_unsupported_reason t)))
    (ValidationError "unsupported optimization requires a reason").
