(* ===== verification/Compiled.v ===== *)
(** * Compiled: the canonical integer tariff IR (tariffs/compiled.py)

    The operators a compiled tariff consists of, and the compilation bundle the
    evaluator, the comparison and the optimizer consume.  [normalized_ast] is a
    JSON object in the source; the model keeps the entries the code reads from
    it, each [None] when the entry is absent or pydantic rejects it. *)

From S2P Require Import Prelude Calendar Json Schema.

(** [IRRuleBase] has the fields of [RuleBase]. *)
Definition IRRuleBase : Type := RuleBase.

Record IRBaselineAllowance := { ir_ba_base : IRRuleBase; daily_allowance_wh : Z }.

Record IREnergyTier := {
  tier_upper_bound_operator : TierBoundKind;
  tier_upper_bound_numerator : Z;
  tier_upper_bound_denominator : Z;
  tier_rate_microdollars_per_kwh : Z
}.

Record IRTieredEnergyCharge := {
  ir_te_base : IRRuleBase; ir_te_line_item_key : string; tiers : list IREnergyTier
}.

Record IRTimeOfUseWindow := {
  irw_period : TimeOfUsePeriod;
  irw_start_minute_inclusive : Z;
  irw_end_minute_exclusive : Z;
  irw_day_selector : DaySelector
}.

Record IRTimeOfUseSchedule := {
  ir_ts_base : IRRuleBase;
  windows : list IRTimeOfUseWindow;
  default_period : TimeOfUsePeriod;
  calendar_id : option string;
  calendar_content_sha256 : option string;
  holiday_dates : list string
}.

Record IRTimeOfUsePeriodRate := {
  irp_period : TimeOfUsePeriod; irp_rate_microdollars_per_kwh : Z
}.

Record IRTimeOfUseEnergyCharge := {
  ir_tc_base : IRRuleBase;
  ir_tc_line_item_key : string;
  schedule_rule_id : string;
  period_rates : list IRTimeOfUsePeriodRate;
  baseline_credit_microdollars_per_kwh : option Z;
  baseline_rule_id : option string;
  baseline_credit_charge_component_key : option ChargeComponentKey
}.

Record IRFixedDailyCharge := {
  ir_fd_base : IRRuleBase; ir_fd_line_item_key : string; rate_microdollars_per_day : Z
}.
Record IRFixedMonthlyCharge := {
  ir_fm_base : IRRuleBase; ir_fm_line_item_key : string; amount_microdollars : Z
}.
Record IRExplicitUnsupportedCharge := {
  ir_eu_base : IRRuleBase; ir_eu_line_item_key : string; reason_code : string
}.

Inductive CompiledRule :=
| IRBaseline (r : IRBaselineAllowance)
| IRTiered (r : IRTieredEnergyCharge)
| IRSchedule (r : IRTimeOfUseSchedule)
| IRTimeOfUse (r : IRTimeOfUseEnergyCharge)
| IRFixedDaily (r : IRFixedDailyCharge)
| IRFixedMonthly (r : IRFixedMonthlyCharge)
| IRUnsupported (r : IRExplicitUnsupportedCharge).

Definition ir_base (r : CompiledRule) : IRRuleBase :=
  match r with
  | IRBaseline r => ir_ba_base r
  | IRTiered r => ir_te_base r
  | IRSchedule r => ir_ts_base r
  | IRTimeOfUse r => ir_tc_base r
  | IRFixedDaily r => ir_fd_base r
  | IRFixedMonthly r => ir_fm_base r
  | IRUnsupported r => ir_eu_base r
  end.

(** The [operator] discriminator. *)
Definition operator_name (r : CompiledRule) : string :=
  match r with
  | IRBaseline _ => "BASELINE_ALLOWANCE"
  | IRTiered _ => "TIER_ALLOCATE_AND_MULTIPLY_RATIONAL"
  | IRSchedule _ => "CLASSIFY_LOCAL_TIME_PERIOD"
  | IRTimeOfUse _ => "TIME_OF_USE_MULTIPLY_WITH_OPTIONAL_BASELINE_CREDIT"
  | IRFixedDaily _ => "MULTIPLY_DAYS_BY_INTEGER_RATE"
  | IRFixedMonthly _ => "APPLICABILITY_GATED_INTEGER_AMOUNT"
  | IRUnsupported _ => "EMIT_UNSUPPORTED_PLACEHOLDER"
  end.

Record CanonicalChargeIR := {
  ir_version : string;
  ir_tariff_version_id : string;
  maximum_energy_wh : Z;
  maximum_billing_days : Z;
  operators : list CompiledRule
}.

Record CoverageReport := {
  service_windows : list DateRange;
  complete_component_keys : list string;
  active_component_count_by_key : list Z
}.

Record SourceCoverage := {
  coverage_source_id : string;
  coverage_source_sha256 : string;
  coverage_source_url : string;
  linked_rule_ids : list string
}.

Record GoldenCoverage := {
  coverage_golden_case_ids : list string;
  rule_case_ids : dict string (list string)
}.

Record CompilationReports := {
  normalized_ast_sha256 : string;
  eligibility_predicate_id : string;
  component_vector : CoverageReport;
  source_coverage : list SourceCoverage;
  golden_coverage : GoldenCoverage;
  solver_lowering_supported_operators : list string;
  solver_lowering_unsupported_reasons : list string
}.

Record NormalizedAst := {
  ast_tariff_version_id : option string;
  ast_eligibility_predicate : option EligibilityPredicateValue;
  ast_comparison_component_keys : option (list ChargeComponentKey);
  ast_source_ids : option (list string);
  ast_source_hashes : option (list string)
}.

Record CompilationBundle := {
  normalized_ast : NormalizedAst;
  ir : CanonicalChargeIR;
  reports : CompilationReports;
  compiler_content_sha256 : string
}.

(** Operators by type: the [isinstance] filters of the code. *)
Definition as_baseline (r : CompiledRule) : option IRBaselineAllowance :=
  match r with IRBaseline b => Some b | _ => None end.
Definition as_schedule (r : CompiledRule) : option IRTimeOfUseSchedule :=
  match r with IRSchedule s => Some s | _ => None end.
Definition as_time_of_use (r : CompiledRule) : option IRTimeOfUseEnergyCharge :=
  match r with IRTimeOfUse s => Some s | _ => None end.
