(* ===== verification/Fixtures.v ===== *)
(** * Fixtures: the July 2026 tariffs as concrete inputs

    The compiled E-1 and EV2-A tariffs of tariffs/definitions, and the account
    of their golden cases.  They are the inputs on which the witnesses and the
    golden examples of the later files evaluate the model; no theorem is about
    them only. *)

From S2P Require Import Prelude Calendar Json Schema Compiled.

Definition july_2026 : DateRange :=
  {| dr_start := date_of_ymd 2026 7 1; dr_end := Some (date_of_ymd 2026 8 1) |}.
Definition since_june : DateRange := {| dr_start := date_of_ymd 2026 6 1; dr_end := None |}.

Definition always : RuleApplicability :=
  {| income_tiers := []; baseline_territories := []; baseline_quantity_codes := [];
     bill_cycle_months := [] |}.
Definition baseline_t_basic : RuleApplicability :=
  {| income_tiers := []; baseline_territories := [TERR_T]; baseline_quantity_codes := [BASIC];
     bill_cycle_months := [] |}.
Definition tier_3_only : RuleApplicability :=
  {| income_tiers := [TIER_3]; baseline_territories := []; baseline_quantity_codes := [];
     bill_cycle_months := [] |}.
Definition august_only : RuleApplicability :=
  {| income_tiers := []; baseline_territories := []; baseline_quantity_codes := [];
     bill_cycle_months := [8] |}.

Definition advice (id : string) (sheets : list string) : SourceLink :=
  {| source_id := id; source_sha256 := "00"; source_sheet_ids := sheets |}.

Definition rule_fixture (id : string) (a : RuleApplicability) (r : RoundingOperator)
    (k : ChargeComponentKey) : RuleBase :=
  {| rule_id := id; effective_range := since_june; applicability := a;
     source := advice "pge-advice-7921-e" ["61362-E"]; rounding := r;
     charge_component_key := k |}.

Definition e1_baseline : CompiledRule := IRBaseline
  {| ir_ba_base := rule_fixture "E1_BASELINE_T_BASIC_SUMMER_2026_03_01" baseline_t_basic EXACT
                     baseline_allowance;
     daily_allowance_wh := 6500 |}.

Definition e1_energy : CompiledRule := IRTiered
  {| ir_te_base := rule_fixture "E1_TOTAL_ENERGY_2026_06_01" always HALF_UP_CENT_AT_LINE_ITEM
                     bundled_energy;
     ir_te_line_item_key := "bundled_energy";
     tiers := [{| tier_upper_bound_operator := BASELINE_ALLOWANCE; tier_upper_bound_numerator := 1;
                  tier_upper_bound_denominator := 1; tier_rate_microdollars_per_kwh := 325610 |};
               {| tier_upper_bound_operator := UNBOUNDED; tier_upper_bound_numerator := 1;
                  tier_upper_bound_denominator := 1; tier_rate_microdollars_per_kwh := 407020 |}] |}.

Definition base_services : CompiledRule := IRFixedDaily
  {| ir_fd_base := rule_fixture "BSC_TIER3_2026_06_01" tier_3_only HALF_UP_CENT_AT_LINE_ITEM
                     base_services_charge;
     ir_fd_line_item_key := "base_services_charge"; rate_microdollars_per_day := 793430 |}.

Definition climate_credit : CompiledRule := IRFixedMonthly
  {| ir_fm_base := rule_fixture "CALIFORNIA_CLIMATE_CREDIT_2026" august_only
                     HALF_UP_CENT_AT_LINE_ITEM california_climate_credit;
     ir_fm_line_item_key := "california_climate_credit"; amount_microdollars := -36180000 |}.

Definition ev2a_window (p : TimeOfUsePeriod) (s e : Z) : IRTimeOfUseWindow :=
  {| irw_period := p; irw_start_minute_inclusive := s; irw_end_minute_exclusive := e;
     irw_day_selector := EVERY_DAY |}.

Definition ev2a_schedule : IRTimeOfUseSchedule :=
  {| ir_ts_base := rule_fixture "EV2A_TOU_WINDOWS_2026_03_01" always EXACT bundled_energy;
     windows := [ev2a_window PARTIAL_PEAK 900 960; ev2a_window PEAK 960 1260;
                 ev2a_window PARTIAL_PEAK 1260 1440];
     default_period := OFF_PEAK; calendar_id := None; calendar_content_sha256 := None;
     holiday_dates := [] |}.

Definition ev2a_rate (p : TimeOfUsePeriod) (r : Z) : IRTimeOfUsePeriodRate :=
  {| irp_period := p; irp_rate_microdollars_per_kwh := r |}.

Definition ev2a_energy : CompiledRule := IRTimeOfUse
  {| ir_tc_base := rule_fixture "EV2A_SUMMER_TOTAL_RATES_2026_06_01" always
                     HALF_UP_CENT_AT_LINE_ITEM bundled_energy;
     ir_tc_line_item_key := "bundled_energy";
     schedule_rule_id := "EV2A_TOU_WINDOWS_2026_03_01";
     period_rates := [ev2a_rate PEAK 538090; ev2a_rate PARTIAL_PEAK 427600;
                      ev2a_rate OFF_PEAK 225580];
     baseline_credit_microdollars_per_kwh := None; baseline_rule_id := None;
     baseline_credit_charge_component_key := None |}.

Definition july_predicate : EligibilityPredicate :=
  {| predicate_id := "pge-bundled-residential-import-only-july-2026-v1";
     supported_income_tiers := [TIER_3]; required_service_provider := PGE;
     required_service_mode := BUNDLED; required_meter_count := 1;
     requires_primary_meter_only := true; requires_care_enrolled := false;
     requires_fera_enrolled := false; requires_medical_baseline := false;
     requires_cca_service := false; requires_direct_access_service := false;
     requires_active_bill_protection := false; requires_solar_or_export := false;
     required_qualifying_technology := None;
     source_rule_ids := ["E1_APPLICABILITY_2026_03_01"] |}.

Definition ev2a_predicate : EligibilityPredicateV2 :=
  {| v2_common := {|
       predicate_id := "pge-ev2a-bundled-residential-july-2026-v2";
       supported_income_tiers := [TIER_3]; required_service_provider := PGE;
       required_service_mode := BUNDLED; required_meter_count := 1;
       requires_primary_meter_only := true; requires_care_enrolled := false;
       requires_fera_enrolled := false; requires_medical_baseline := false;
       requires_cca_service := false; requires_direct_access_service := false;
       requires_active_bill_protection := false; requires_solar_or_export := false;
       required_qualifying_technology := Some EV;
       source_rule_ids := ["EV2A_APPLICABILITY_2026_03_01"] |};
     required_any_qualifying_technologies := [];
     requires_dated_technology_attestation := true;
     requires_ev_registration_at_premises := true;
     requires_whole_house_metering := true;
     maximum_annual_baseline_ratio_numerator := Some 8;
     maximum_annual_baseline_ratio_denominator := Some 1 |}.

Definition bundle_fixture (id : string) (p : EligibilityPredicateValue) (window : DateRange)
    (ops : list CompiledRule) : CompilationBundle :=
  {| normalized_ast := {|
       ast_tariff_version_id := Some id;
       ast_eligibility_predicate := Some p;
       ast_comparison_component_keys :=
         Some [bundled_energy; base_services_charge; california_climate_credit];
       ast_source_ids := Some ["pge-advice-7846-e"; "pge-advice-7921-e"];
       ast_source_hashes := Some ["4a"; "c7"] |};
     ir := {| ir_version := "compiled-charge-ir-v1"; ir_tariff_version_id := id;
              maximum_energy_wh := 100000000; maximum_billing_days := 366; operators := ops |};
     reports := {|
       normalized_ast_sha256 := "00"; eligibility_predicate_id := predicate_id (predicate_common p);
       component_vector := {| service_windows := [window]; complete_component_keys := [];
                              active_component_count_by_key := [] |};
       source_coverage := [];
       golden_coverage := {| coverage_golden_case_ids := []; rule_case_ids := [] |};
       solver_lowering_supported_operators := sorted_set (operator_name <$> ops);
       solver_lowering_unsupported_reasons := [] |};
     compiler_content_sha256 := "00" |}.

Definition e1_bundle : CompilationBundle :=
  bundle_fixture "pge-e1-2026-07" (PredicateV1 july_predicate) july_2026
    [e1_baseline; e1_energy; base_services; climate_credit].

Definition ev2a_bundle : CompilationBundle :=
  bundle_fixture "pge-ev2a-2026-07" (PredicateV2 ev2a_predicate) july_2026
    [IRSchedule ev2a_schedule; ev2a_energy; base_services; climate_credit].

Definition facts_fixture (window : DateRange) (techs : option (list QualifyingTechnology))
    : AccountFacts :=
  {| service_window := window; service_provider := PGE; service_mode := BUNDLED;
     meter_count := 1; primary_meter_only := true; income_tier := TIER_3; care_enrolled := false;
     fera_enrolled := false; medical_baseline := false; cca_service := false;
     direct_access_service := false; active_bill_protection := false; solar_or_export := false;
     baseline_territory := TERR_T; baseline_quantity_code := BASIC;
     qualifying_technologies := techs; user_attested_at := "2026-08-02T00:00:00Z" |}.

Definition july_facts : AccountFacts := facts_fixture july_2026 (Some [EV]).

Definition july_dated : DatedEligibilityFacts :=
  {| facts_as_of := Some (date_of_ymd 2026 7 1);
     ev_registered_and_charged_at_premises := Some true;
     whole_house_metering := Some true;
     annual_usage_period := Some {| dr_start := date_of_ymd 2025 7 1;
                                    dr_end := Some (date_of_ymd 2026 7 1) |};
     annual_usage_wh := Some 6000000;
     annual_baseline_allowance_wh := Some 2000000 |}.
