(* ===== verification/ChargeIR.v ===== *)
(** * ChargeIR: exact rounding and the small charge IR (tariffs/ir.py)

    [round_half_up_cents] is the rounding every backend shares.  The module
    [Spike] is the two-tier reference evaluator of the same file.  A Python
    [Fraction] is a reduced [Q]. *)

From Stdlib Require Import QArith.Qreduction.
From S2P Require Import Prelude.

Definition MICRODOLLARS_PER_CENT : Z := 10000.
Definition WATT_HOURS_PER_KILOWATT_HOUR : Z := 1000.

(** [Fraction(n, d)]: always in lowest terms. *)
Definition Fraction (n : Z) (d : positive) : Q := Qred (Qmake n d).
Definition numerator (q : Q) : Z := Qnum q.
Definition denominator (q : Q) : Z := Zpos (Qden q).

Definition round_half_up_nonneg (microdollars : Q) : Z :=
  let threshold := denominator microdollars * MICRODOLLARS_PER_CENT in
  let quotient := numerator microdollars / threshold in
  let remainder := numerator microdollars mod threshold in
  quotient + (if threshold <=? remainder * 2 then 1 else 0).

Definition round_half_up_cents (microdollars : Q) : Z :=
  if numerator microdollars <? 0
  then - round_half_up_nonneg (Qopp microdollars)
  else round_half_up_nonneg microdollars.

(** ** Rounding lemmas *)

(** Half-up rounding of [n / d] for [n >= 0] is [floor (n / d + 1 / 2)]. *)
Lemma half_up_floor n d : 0 < d ->
  n / d + (if d <=? n mod d * 2 then 1 else 0) = (2 * n + d) / (2 * d).
Proof.
  intros Hd. pose proof (Z.div_mod n d ltac:(lia)) as Hdm.
  pose proof (Z.mod_pos_bound n d Hd) as Hr.
  case_match eqn:E; bools.
  - apply Z.div_unique with (2 * (n mod d) - d); lia.
  - apply Z.div_unique with (2 * (n mod d) + d); lia.
Qed.

Lemma Fraction_cross n d :
  numerator (Fraction n d) * Zpos d = n * denominator (Fraction n d).
Proof.
  unfold numerator, denominator, Fraction.
  pose proof (Qred_correct (Qmake n d)) as H. unfold Qeq in H. simpl in H. lia.
Qed.

Lemma Fraction_sign n d : (numerator (Fraction n d) <? 0) = (n <? 0).
Proof.
  pose proof (Fraction_cross n d) as H. unfold denominator in H.
  destruct (Z.ltb_spec (numerator (Fraction n d)) 0), (Z.ltb_spec n 0); try done; nia.
Qed.

(** Rounding does not depend on the representation of the fraction. *)
Lemma floor_half_cross n1 d1 n2 d2 : 0 < d1 -> 0 < d2 -> n1 * d2 = n2 * d1 ->
  (2 * n1 + d1) / (2 * d1) = (2 * n2 + d2) / (2 * d2).
Proof.
  intros H1 H2 Hx.
  rewrite <- (Z.div_mul_cancel_r (2 * n1 + d1) (2 * d1) d2) by lia.
  rewrite <- (Z.div_mul_cancel_r (2 * n2 + d2) (2 * d2) d1) by lia.
  f_equal; lia.
Qed.

(** The closed form used by the optimizer lowering. *)
Lemma round_half_up_cents_closed n d :
  round_half_up_cents (Fraction n d) =
  Z.sgn n * ((2 * Z.abs n + Zpos d * MICRODOLLARS_PER_CENT)
             / (2 * (Zpos d * MICRODOLLARS_PER_CENT))).
Proof.
  assert (forall n d, 0 <= n -> round_half_up_nonneg (Qmake n d) =
    (2 * n + Zpos d * MICRODOLLARS_PER_CENT) / (2 * (Zpos d * MICRODOLLARS_PER_CENT))) as Hnn.
  { intros n' d' Hn. unfold round_half_up_nonneg, numerator, denominator. simpl.
    rewrite half_up_floor; [done|unfold MICRODOLLARS_PER_CENT; lia]. }
  unfold round_half_up_cents. rewrite Fraction_sign.
  pose proof (Fraction_cross n d) as Hx.
  destruct (Fraction n d) as [n' d']; unfold numerator, denominator in Hx; simpl in Hx.
  destruct (Z.ltb_spec n 0) as [Hn|Hn].
  - unfold Qopp; simpl. rewrite Hnn by nia.
    rewrite Z.sgn_neg, Z.abs_neq by lia.
    rewrite (floor_half_cross _ _ (- n) (Zpos d * MICRODOLLARS_PER_CENT));
      unfold MICRODOLLARS_PER_CENT; nia.
  - rewrite Hnn by nia. rewrite Z.abs_eq by lia.
    rewrite (floor_half_cross _ _ n (Zpos d * MICRODOLLARS_PER_CENT));
      unfold MICRODOLLARS_PER_CENT; try nia.
    destruct (Z.eq_dec n 0) as [->|]; [simpl|rewrite Z.sgn_pos by lia; lia].
    rewrite Z.div_small; lia.
Qed.

(** ** The spike evaluator *)
Module Spike.

Record Tier := { upper_bound_wh : option Z; rate_microdollars_per_kwh : Z }.
Record TieredEnergyCharge := {
  te_rule_id : string; te_line_item_key : string; te_tiers : list Tier; te_rounding : string
}.
Record FixedDailyCharge := {
  fd_rule_id : string; fd_line_item_key : string; rate_microdollars_per_day : Z; fd_rounding : string
}.
Record FixedMonthlyCharge := {
  fm_rule_id : string; fm_line_item_key : string; amount_microdollars : Z; fm_rounding : string
}.
Record CompiledChargeIR := {
  version : string;
  tariff_version_id : string;
  tiered_energy : TieredEnergyCharge;
  fixed_daily : FixedDailyCharge;
  fixed_monthly : list FixedMonthlyCharge
}.

Definition check_tier (previous : Z) (tier : Tier) : result Z :=
  _ ← raise_if (rate_microdollars_per_kwh tier <? 0) (ChargeIRError "NEGATIVE_RATE");
  match upper_bound_wh tier with
  | Some b => _ ← raise_if (b <=? previous) (ChargeIRError "INVALID_TIER"); Ok b
  | None => Ok previous
  end.

Definition list_max (l : list Z) : Z :=
  match l with [] => 0 | x :: l' => foldl Z.max x l' end.

Definition validate_bounds (i : CompiledChargeIR) (maximum_energy_wh maximum_days : Z)
    : result unit :=
  let ts := te_tiers (tiered_energy i) in
  _ ← raise_if ((maximum_energy_wh <? 0) || (maximum_days <=? 0)) (ChargeIRError "INVALID_BOUND");
  _ ← foldM check_tier 0 ts;
  _ ← raise_if (match last ts with Some t => bool_decide (upper_bound_wh t <> None) | None => true end)
        (ChargeIRError "UNCOVERED_TIER");
  let max_rate := list_max (rate_microdollars_per_kwh <$> ts) in
  let energy_numerator := maximum_energy_wh * max_rate in
  let fixed_numerator := maximum_days * rate_microdollars_per_day (fixed_daily i) in
  let monthly_numerator := sum_by (fun c => Z.abs (amount_microdollars c)) (fixed_monthly i) in
  raise_if (SIGNED_INT64_MAX <?
              list_max [energy_numerator; fixed_numerator; monthly_numerator;
                        energy_numerator + fixed_numerator + monthly_numerator])
    (ChargeIRError "INT64_OVERFLOW").

Record ChargeLine := {
  line_rule_id : string;
  line_key : string;
  quantity : string;
  rate : string;
  pre_round_microdollars : Q;
  rounded_cents : Z;
  line_rounding : string
}.

Definition tier_line (c : TieredEnergyCharge) (index capacity : Z) (t : Tier) : ChargeLine :=
  let raw := Fraction (capacity * rate_microdollars_per_kwh t) 1000 in
  {| line_rule_id := te_rule_id c;
     line_key := te_line_item_key c +:+ ".tier_" +:+ pretty index;
     quantity := pretty capacity +:+ " Wh";
     rate := pretty (rate_microdollars_per_kwh t) +:+ " microdollars/kWh";
     pre_round_microdollars := raw;
     rounded_cents := round_half_up_cents raw;
     line_rounding := te_rounding c |}.

(** The tier loop, from the 1-based index, with the remaining energy and the
    lower bound of the current tier. *)
Fixpoint tier_lines (c : TieredEnergyCharge) (index remaining lower : Z) (ts : list Tier)
    : list ChargeLine :=
  match ts with
  | [] => []
  | t :: ts' =>
      let capacity := match upper_bound_wh t with
                      | Some b => Z.min remaining (b - lower)
                      | None => remaining
                      end in
      let emitted := if 0 <? capacity then [tier_line c index capacity t] else [] in
      let remaining' := if 0 <? capacity then remaining - capacity else remaining in
      if remaining' =? 0 then emitted
      else emitted ++ tier_lines c (index + 1) remaining'
                        (default lower (upper_bound_wh t)) ts'
  end.

Definition fixed_daily_line (c : FixedDailyCharge) (billing_days : Z) : ChargeLine :=
  let raw := Fraction (billing_days * rate_microdollars_per_day c) 1 in
  {| line_rule_id := fd_rule_id c;
     line_key := fd_line_item_key c;
     quantity := pretty billing_days +:+ " days";
     rate := pretty (rate_microdollars_per_day c) +:+ " microdollars/day";
     pre_round_microdollars := raw;
     rounded_cents := round_half_up_cents raw;
     line_rounding := fd_rounding c |}.

Definition fixed_monthly_line (c : FixedMonthlyCharge) : ChargeLine :=
  let raw := Fraction (amount_microdollars c) 1 in
  {| line_rule_id := fm_rule_id c;
     line_key := fm_line_item_key c;
     quantity := "1 billing cycle";
     rate := pretty (amount_microdollars c) +:+ " microdollars";
     pre_round_microdollars := raw;
     rounded_cents := round_half_up_cents raw;
     line_rounding := fm_rounding c |}.

Definition evaluate_compiled_ir (i : CompiledChargeIR) (energy_wh billing_days : Z)
    : result (list ChargeLine) :=
  _ ← validate_bounds i energy_wh billing_days;
  Ok (tier_lines (tiered_energy i) 1 energy_wh 0 (te_tiers (tiered_energy i))
      ++ [fixed_daily_line (fixed_daily i) billing_days]
      ++ (fixed_monthly_line <$> fixed_monthly i)).

Definition total_cents (lines : list ChargeLine) : Z := sum_by rounded_cents lines.

Definition e1_july_2026_ir (baseline_wh : Z) : CompiledChargeIR := {|
  version := "compiled-charge-ir-v1";
  tariff_version_id := "pge-e1-2026-06-01";
  tiered_energy := {|
    te_rule_id := "E1_TOTAL_ENERGY_2026_06_01";
    te_line_item_key := "bundled_energy";
    te_tiers := [{| upper_bound_wh := Some baseline_wh; rate_microdollars_per_kwh := 325610 |};
                 {| upper_bound_wh := None; rate_microdollars_per_kwh := 407020 |}];
    te_rounding := "HALF_UP_CENT_AT_LINE_ITEM" |};
  fixed_daily := {|
    fd_rule_id := "BSC_TIER3_2026_06_01";
    fd_line_item_key := "base_services_charge";
    rate_microdollars_per_day := 793430;
    fd_rounding := "HALF_UP_CENT_AT_LINE_ITEM" |};
  fixed_monthly := [{|
    fm_rule_id := "CALIFORNIA_CLIMATE_CREDIT_2026";
    fm_line_item_key := "california_climate_credit";
    amount_microdollars := -36180000;
    fm_rounding := "HALF_UP_CENT_AT_LINE_ITEM" |}] |}.

(** The energy of each tier by the clamp formula: what a consumption of
    [energy] has between the tier's bounds; an unbounded tier takes the rest. *)
Fixpoint tier_quantities (energy lower : Z) (ts : list Tier) : list Z :=
  match ts with
  | [] => []
  | t :: ts' =>
      match upper_bound_wh t with
      | Some upper => Z.max 0 (Z.min energy upper - lower) :: tier_quantities energy upper ts'
      | None => Z.max 0 (energy - lower) :: ((fun _ => 0) <$> ts')
      end
  end.

(** The lines of the tiers that have energy, with their 1-based index. *)
Fixpoint lines_of_quantities (c : TieredEnergyCharge) (index : Z) (qs : list Z) (ts : list Tier)
    : list ChargeLine :=
  match qs, ts with
  | q :: qs', t :: ts' =>
      (if 0 <? q then [tier_line c index q t] else []) ++ lines_of_quantities c (index + 1) qs' ts'
  | _, _ => []
  end.

Lemma lines_of_zeros c index (ts ts' : list Tier) :
  lines_of_quantities c index ((fun _ => 0) <$> ts') ts = [].
Proof. revert index ts; induction ts' as [|? ts' IH]; intros index [|t ts]; simpl; auto. Qed.

Lemma tier_quantities_exhausted c energy lower index ts :
  energy <= lower -> StronglySorted Z.lt (lower :: omap upper_bound_wh ts) ->
  lines_of_quantities c index (tier_quantities energy lower ts) ts = [].
Proof.
  revert index lower; induction ts as [|t ts IH]; intros index lower He Hs; simpl; [done|].
  simpl in Hs. destruct (upper_bound_wh t) as [b|]; simpl in *;
    rewrite (proj2 (Z.ltb_ge _ _)) by lia; [|apply lines_of_zeros].
  inversion Hs as [|?? Hs' Hb]; subst. apply Forall_cons in Hb as [Hb _].
  apply IH; [lia|done].
Qed.

Lemma tier_lines_quantities c energy lower index ts :
  lower < energy -> StronglySorted Z.lt (lower :: omap upper_bound_wh ts) ->
  tier_lines c index (energy - lower) lower ts =
  lines_of_quantities c index (tier_quantities energy lower ts) ts.
Proof.
  revert index lower; induction ts as [|t ts IH]; intros index lower He Hs; simpl; [done|].
  simpl in Hs. destruct (upper_bound_wh t) as [b|]; simpl in *.
  - inversion Hs as [|?? Hs' Hb]; subst. apply Forall_cons in Hb as [Hb _].
    replace (Z.max 0 (Z.min energy b - lower)) with (Z.min (energy - lower) (b - lower)) by lia.
    rewrite (proj2 (Z.ltb_lt 0 _)) by lia.
    destruct (Z.eqb_spec (energy - lower - Z.min (energy - lower) (b - lower)) 0) as [E|E].
    + rewrite tier_quantities_exhausted; [by rewrite app_nil_r|lia|done].
    + f_equal.
      replace (energy - lower - Z.min (energy - lower) (b - lower)) with (energy - b) by lia.
      apply IH; [lia|done].
  - rewrite (Z.max_r 0), lines_of_zeros, app_nil_r by lia.
    rewrite (proj2 (Z.ltb_lt 0 (energy - lower))) by lia.
    by rewrite (proj2 (Z.eqb_eq _ 0)) by lia.
Qed.

Lemma zsum_zeros {A} (l : list A) : zsum ((fun _ => 0) <$> l) = 0.
Proof. induction l; simpl in *; auto. Qed.

Lemma tier_quantities_sum energy lower ts :
  lower <= energy -> StronglySorted Z.lt (lower :: omap upper_bound_wh ts) ->
  upper_bound_wh <$> last ts = Some None ->
  zsum (tier_quantities energy lower ts) = energy - lower.
Proof.
  enough (forall lower, StronglySorted Z.lt (lower :: omap upper_bound_wh ts) ->
    upper_bound_wh <$> last ts = Some None ->
    zsum (tier_quantities energy lower ts) = Z.max 0 (energy - lower)) as H.
  { intros. rewrite H by done. lia. }
  clear lower. induction ts as [|t ts IH]; intros lower Hs Hl; simpl in *; [done|].
  destruct (upper_bound_wh t) as [b|] eqn:Eb; simpl.
  - inversion Hs as [|?? Hs' Hb]; subst. apply Forall_cons in Hb as [Hb _].
    rewrite IH; [lia|done|]. destruct ts; [simpl in Hl; congruence|done].
  - rewrite zsum_zeros. lia.
Qed.

Lemma check_tiers_sorted ts previous last' :
  foldM check_tier previous ts = Ok last' ->
  StronglySorted Z.lt (previous :: omap upper_bound_wh ts).
Proof.
  revert previous; induction ts as [|t ts IH]; intros previous H; [repeat constructor|].
  simpl in H. apply bind_ok in H as (b & Hb & H). unfold check_tier in Hb.
  apply bind_ok in Hb as ([] & _ & Hb). apply IH in H. simpl.
  destruct (upper_bound_wh t) as [u|]; inv_ok; bools; subst; [|done].
  inversion H as [|?? Hs Hf]; subst.
  constructor; [done|]. constructor; [done|].
  eapply Forall_impl; [exact Hf|simpl; lia].
Qed.

(** The tier loop of the reference evaluator computes the clamp formula.
    Whenever [evaluate_compiled_ir] accepts its input, the energy lines are
    exactly the tiers with positive clamped quantity at their own rate, the
    quantities sum to the metered energy, and the fixed daily and monthly lines
    follow. *)
Theorem evaluate_compiled_ir_tiers i energy_wh billing_days lines :
  evaluate_compiled_ir i energy_wh billing_days = Ok lines ->
  let ts := te_tiers (tiered_energy i) in
  let qs := tier_quantities energy_wh 0 ts in
  lines = lines_of_quantities (tiered_energy i) 1 qs ts
          ++ fixed_daily_line (fixed_daily i) billing_days
          :: (fixed_monthly_line <$> fixed_monthly i)
  /\ zsum qs = energy_wh.
Proof.
  unfold evaluate_compiled_ir, validate_bounds. intros H. inv_ok. bools. subst lines.
  match goal with Hf : foldM _ _ _ = Ok _ |- _ => apply check_tiers_sorted in Hf as Hs end.
  split.
  - f_equal. destruct (Z.eq_dec energy_wh 0) as [->|].
    + rewrite tier_quantities_exhausted by done.
      destruct (te_tiers _) as [|t ts]; simpl; [done|].
      assert (Z.min 0 (default 0 (upper_bound_wh t) - 0) <= 0) by lia.
      destruct (upper_bound_wh t); simpl in *; [|done].
      by rewrite (proj2 (Z.ltb_ge _ _)) by lia.
    + rewrite <- tier_lines_quantities; [by rewrite Z.sub_0_r|lia|done].
  - rewrite tier_quantities_sum; [lia|done|done|].
    destruct (last _) as [t|]; [|done]. bools. simpl. f_equal.
    by apply dec_stable.
Qed.

Lemma evaluate_compiled_ir_tiers_witness :
  exists lines, evaluate_compiled_ir (e1_july_2026_ir 201500) 750000 31 = Ok lines
  /\ zsum (tier_quantities 750000 0 (te_tiers (tiered_energy (e1_july_2026_ir 201500)))) = 750000.
Proof.
  eexists. split; [vm_compute; reflexivity|].
  eapply (evaluate_compiled_ir_tiers (e1_july_2026_ir 201500) 750000 31). vm_compute. reflexivity.
Defined.

Example e1_total : (total_cents <$> (match evaluate_compiled_ir (e1_july_2026_ir 201500) 750000 31 with
  Ok l => Some l | Raise _ => None end)) = Some 27728.
Proof. reflexivity. Qed.
End Spike.

(** Half-up rounding to cents is exact rounding to nearest with ties away
    from zero.  For any microdollar fraction [n / d] the returned number of
    cents is within half a cent of the exact amount, an exact half cent moves
    away from zero, and the result is an odd function of the amount. *)
Theorem round_half_up_cents_nearest (n : Z) (d : positive) :
  let D := Zpos d * MICRODOLLARS_PER_CENT in
  let r := round_half_up_cents (Fraction n d) in
  Z.abs (2 * (r * D - n)) <= D
  /\ (2 * Z.abs n mod (2 * D) = D -> Z.abs r * D * 2 = 2 * Z.abs n + D)
  /\ round_half_up_cents (Fraction (- n) d) = - r.
Proof.
  cbv zeta. rewrite !round_half_up_cents_closed.
  set (D := Zpos d * MICRODOLLARS_PER_CENT).
  assert (0 < D) by (unfold D, MICRODOLLARS_PER_CENT; lia).
  rewrite Z.sgn_opp, Z.abs_opp.
  pose proof (Z.div_mod (2 * Z.abs n + D) (2 * D) ltac:(lia)) as Hdm.
  pose proof (Z.mod_pos_bound (2 * Z.abs n + D) (2 * D) ltac:(lia)) as Hr.
  set (k := (2 * Z.abs n + D) / (2 * D)) in *.
  assert (Z.sgn n * Z.abs n = n) by lia.
  assert (0 <= k) by (apply Z.div_pos; lia).
  assert (n = 0 -> k = 0) by (intros ->; apply Z.div_small; lia).
  repeat split; [|intros Htie|lia].
  - destruct (Z.lt_trichotomy n 0) as [Hn|[Hn|Hn]]; [rewrite Z.sgn_neg in * by done; nia| |].
    + rewrite Hn. simpl. lia.
    + rewrite Z.sgn_pos in * by done. nia.
  - destruct (Z.eq_dec n 0) as [->|Hn].
    { simpl in Htie. rewrite Z.mod_0_l in Htie; lia. }
    assert (Z.abs (Z.sgn n * k) = k) as -> by (destruct n; simpl Z.sgn; lia).
    assert ((2 * Z.abs n + D) mod (2 * D) = 0) as Hz.
    { rewrite Z.add_mod, Htie, (Z.mod_small D) by lia.
      replace (D + D) with (2 * D) by lia. apply Z_mod_same_full. }
    lia.
Qed.
