(* ===== verification/Eligibility.v ===== *)
(** * Eligibility: who a compiled tariff may be replayed for (tariffs/billing.py)

    [evaluate_eligibility] decides ELIGIBLE, INELIGIBLE or UNKNOWN from account
    facts and dated facts, with the sorted reason codes the code reports;
    [rule_applies] is the applicability decision billing and optimization
    share.  [eligible_spec] is the contract: what must hold of the facts,
    stated without the reason-code bookkeeping. *)

From S2P Require Import Prelude Calendar Json Schema Compiled Fixtures.

(** ** JSON images ([model_dump(mode=json)]) *)
Definition jstr_list {A} (f : A -> string) (l : list A) : json := JList (JStr ∘ f <$> l).
Definition jdate (d : date) : json := JStr (isoformat d).

Definition DateRange_dump (r : DateRange) : json :=
  JObj [("start", jdate (dr_start r)); ("end", jopt jdate (dr_end r))].

Definition AccountFacts_dump (f : AccountFacts) : json :=
  JObj [("schema_version", JStr "account-facts-v1");
        ("service_window", DateRange_dump (service_window f));
        ("service_provider", JStr "PG&E");
        ("service_mode", JStr "BUNDLED");
        ("meter_count", JInt (meter_count f));
        ("primary_meter_only", JBool (primary_meter_only f));
        ("income_tier", JStr (tier_str (income_tier f)));
        ("care_enrolled", JBool (care_enrolled f));
        ("fera_enrolled", JBool (fera_enrolled f));
        ("medical_baseline", JBool (medical_baseline f));
        ("cca_service", JBool (cca_service f));
        ("direct_access_service", JBool (direct_access_service f));
        ("active_bill_protection", JBool (active_bill_protection f));
        ("solar_or_export", JBool (solar_or_export f));
        ("baseline_territory", JStr (territory_str (baseline_territory f)));
        ("baseline_quantity_code", JStr (quantity_code_str (baseline_quantity_code f)));
        ("qualifying_technologies", jopt (jstr_list technology_str) (qualifying_technologies f));
        ("user_attested_at", JStr (user_attested_at f))].

Definition DatedEligibilityFacts_dump (d : DatedEligibilityFacts) : json :=
  JObj [("facts_as_of", jopt jdate (facts_as_of d));
        ("ev_registered_and_charged_at_premises",
          jopt JBool (ev_registered_and_charged_at_premises d));
        ("whole_house_metering", jopt JBool (whole_house_metering d));
        ("annual_usage_period", jopt DateRange_dump (annual_usage_period d));
        ("annual_usage_wh", jopt JInt (annual_usage_wh d));
        ("annual_baseline_allowance_wh", jopt JInt (annual_baseline_allowance_wh d))].

(** ** Operations *)
Record EligibilityResult := {
  status : EligibilityStatus;
  reason_codes : list string;
  result_predicate_id : string;
  result_predicate_version : string;
  result_source_rule_ids : list string;
  account_facts_sha256 : string
}.

Definition predicate (bundle : CompilationBundle) : result EligibilityPredicateValue :=
  match ast_eligibility_predicate (normalized_ast bundle) with
  | Some p => Ok p
  | None => Raise (ReplayError "COMPILED_ELIGIBILITY_INVALID")
  end.

Definition facts_hash `{Sha256} (facts : AccountFacts) (dated : option DatedEligibilityFacts)
    (version : string) : string :=
  if String.eqb version "eligibility-predicate-v1"
  then canonical_content_sha256 "RateReplay.AccountFacts.v1" (AccountFacts_dump facts)
  else canonical_content_sha256 "RateReplay.EligibilityFacts.v2"
         (JObj [("account_facts", AccountFacts_dump facts);
                ("dated_eligibility_facts", jopt DatedEligibilityFacts_dump dated)]).

(** [not values or x in values]. *)
Definition admits {A} `{EqDecision A} (values : list A) (x : A) : bool :=
  bool_decide (values = []) || mem x values.

Definition rule_applies (a : RuleApplicability) (facts : AccountFacts) (bill_cycle_month : Z) : bool :=
  admits (income_tiers a) (income_tier facts)
  && admits (baseline_territories a) (baseline_territory facts)
  && admits (baseline_quantity_codes a) (baseline_quantity_code facts)
  && admits (bill_cycle_months a) bill_cycle_month.

(** The two reason lists the function accumulates. *)
Record Reasons := { unknown : list string; ineligible : list string }.
Definition no_reasons : Reasons := {| unknown := []; ineligible := [] |}.
Definition add_unknown (code : string) : Reasons := {| unknown := [code]; ineligible := [] |}.
Definition add_ineligible (code : string) : Reasons := {| unknown := []; ineligible := [code] |}.
Definition reasons_app (a b : Reasons) : Reasons :=
  {| unknown := unknown a ++ unknown b; ineligible := ineligible a ++ ineligible b |}.

(** The [requirements] tuple. *)
Definition requirements (p : EligibilityPredicate) (f : AccountFacts) : list (bool * string) :=
  [(bool_decide (service_provider f = required_service_provider p), "SERVICE_PROVIDER_MISMATCH");
   (bool_decide (service_mode f = required_service_mode p), "SERVICE_MODE_MISMATCH");
   (meter_count f =? required_meter_count p, "METER_COUNT_MISMATCH");
   (Bool.eqb (primary_meter_only f) (requires_primary_meter_only p),
     "PRIMARY_METER_REQUIREMENT_MISMATCH");
   (Bool.eqb (care_enrolled f) (requires_care_enrolled p), "CARE_STATUS_MISMATCH");
   (Bool.eqb (fera_enrolled f) (requires_fera_enrolled p), "FERA_STATUS_MISMATCH");
   (Bool.eqb (medical_baseline f) (requires_medical_baseline p), "MEDICAL_BASELINE_STATUS_MISMATCH");
   (Bool.eqb (cca_service f) (requires_cca_service p), "CCA_STATUS_MISMATCH");
   (Bool.eqb (direct_access_service f) (requires_direct_access_service p),
     "DIRECT_ACCESS_STATUS_MISMATCH");
   (Bool.eqb (active_bill_protection f) (requires_active_bill_protection p),
     "BILL_PROTECTION_STATUS_MISMATCH");
   (Bool.eqb (solar_or_export f) (requires_solar_or_export p), "SOLAR_EXPORT_STATUS_MISMATCH")].

Definition check_window_and_tier (windows : list DateRange) (p : EligibilityPredicate)
    (f : AccountFacts) : Reasons :=
  {| ineligible := if mem (service_window f) windows then [] else ["SERVICE_WINDOW_NOT_ADMITTED"];
     unknown := if mem (income_tier f) (supported_income_tiers p) then []
                else ["UNSUPPORTED_INCOME_TIER"] |}.

Definition check_requirements (p : EligibilityPredicate) (f : AccountFacts) : Reasons :=
  {| unknown := [];
     ineligible := snd <$> List.filter (fun r => negb (fst r)) (requirements p f) |}.

Definition check_required_technology (p : EligibilityPredicate) (f : AccountFacts) : Reasons :=
  match required_qualifying_technology p with
  | None => no_reasons
  | Some t =>
      match qualifying_technologies f with
      | None => add_unknown "QUALIFYING_TECHNOLOGY_FACT_MISSING"
      | Some l => if mem t l then no_reasons else add_ineligible "QUALIFYING_TECHNOLOGY_MISSING"
      end
  end.

Definition check_any_technology (p : EligibilityPredicateV2) (f : AccountFacts) : Reasons :=
  match required_any_qualifying_technologies p with
  | [] => no_reasons
  | required =>
      match qualifying_technologies f with
      | None => add_unknown "QUALIFYING_TECHNOLOGY_FACT_MISSING"
      | Some l => if existsb (fun t => mem t l) required then no_reasons
                  else add_ineligible "QUALIFYING_TECHNOLOGY_MISSING"
      end
  end.

Definition check_dated_attestation (p : EligibilityPredicateV2) (f : AccountFacts)
    (d : option DatedEligibilityFacts) : Reasons :=
  if requires_dated_technology_attestation p then
    match d ≫= facts_as_of with
    | None => add_unknown "DATED_TECHNOLOGY_FACT_MISSING"
    | Some as_of =>
        if as_of =? dr_start (service_window f) then no_reasons
        else add_unknown "DATED_TECHNOLOGY_FACT_OUTSIDE_WINDOW"
    end
  else no_reasons.

(** The EV registration and whole-house checks have the same shape. *)
Definition check_flag (required : bool) (fact : option bool) (missing mismatch : string) : Reasons :=
  if required then
    match fact with
    | None => add_unknown missing
    | Some true => no_reasons
    | Some false => add_ineligible mismatch
    end
  else no_reasons.

Definition check_annual_baseline (p : EligibilityPredicateV2) (f : AccountFacts)
    (d : option DatedEligibilityFacts) : result Reasons :=
  match maximum_annual_baseline_ratio_numerator p with
  | None => Ok no_reasons
  | Some num =>
      match d ≫= annual_usage_wh, d ≫= annual_baseline_allowance_wh, d ≫= annual_usage_period with
      | Some usage, Some allowance, Some period =>
          let start := dr_start (service_window f) in
          expected_start ← date_replace_year start (date_year start - 1);
          if negb (dr_start period =? expected_start) || bool_decide (dr_end period <> Some start)
          then Ok (add_unknown "ANNUAL_USAGE_PERIOD_MISMATCH")
          else match maximum_annual_baseline_ratio_denominator p with
               | None => Raise (ReplayError "COMPILED_ELIGIBILITY_INVALID")
               | Some den =>
                   if allowance * num <? usage * den
                   then Ok (add_ineligible "ANNUAL_BASELINE_LIMIT_EXCEEDED") else Ok no_reasons
               end
      | _, _, _ => Ok (add_unknown "ANNUAL_BASELINE_FACT_MISSING")
      end
  end.

Definition check_v2 (p : EligibilityPredicateV2) (f : AccountFacts)
    (d : option DatedEligibilityFacts) : result Reasons :=
  annual ← check_annual_baseline p f d;
  Ok (reasons_app (check_any_technology p f)
     (reasons_app (check_dated_attestation p f d)
     (reasons_app (check_flag (requires_ev_registration_at_premises p)
                     (d ≫= ev_registered_and_charged_at_premises)
                     "EV_REGISTRATION_FACT_MISSING" "EV_REGISTRATION_REQUIREMENT_MISMATCH")
     (reasons_app (check_flag (requires_whole_house_metering p) (d ≫= whole_house_metering)
                     "WHOLE_HOUSE_METERING_FACT_MISSING"
                     "WHOLE_HOUSE_METERING_REQUIREMENT_MISMATCH")
        annual)))).

(** [facts.service_window.end.month if facts.service_window.end else 0]. *)
Definition facts_bill_cycle_month (f : AccountFacts) : Z :=
  match dr_end (service_window f) with Some e => date_month e | None => 0 end.

Definition check_baseline_rules (ops : list CompiledRule) (f : AccountFacts) : Reasons :=
  let rules := omap as_baseline ops in
  if negb (bool_decide (rules = []))
     && negb (existsb (fun r => rule_applies (applicability (ir_ba_base r)) f
                                  (facts_bill_cycle_month f)) rules)
  then add_unknown "UNSUPPORTED_BASELINE_CONFIGURATION" else no_reasons.

Definition collect_reasons (bundle : CompilationBundle) (p : EligibilityPredicateValue)
    (f : AccountFacts) (d : option DatedEligibilityFacts) : result Reasons :=
  let c := predicate_common p in
  extended ← match p with PredicateV2 p2 => check_v2 p2 f d | PredicateV1 _ => Ok no_reasons end;
  Ok (reasons_app (check_window_and_tier (service_windows (component_vector (reports bundle))) c f)
     (reasons_app (check_requirements c f)
     (reasons_app (check_required_technology c f)
     (reasons_app extended
        (check_baseline_rules (operators (ir bundle)) f))))).

Definition verdict (r : Reasons) : EligibilityStatus * list string :=
  match ineligible r, unknown r with
  | _ :: _, _ => (INELIGIBLE, sorted_set (ineligible r))
  | [], _ :: _ => (UNKNOWN, sorted_set (unknown r))
  | [], [] => (ELIGIBLE, [])
  end.

Definition evaluate_eligibility `{Sha256} (bundle : CompilationBundle) (f : AccountFacts)
    (d : option DatedEligibilityFacts) : result EligibilityResult :=
  p ← predicate bundle;
  r ← collect_reasons bundle p f d;
  Ok {| status := (verdict r).1;
        reason_codes := (verdict r).2;
        result_predicate_id := predicate_id (predicate_common p);
        result_predicate_version := predicate_version p;
        result_source_rule_ids := source_rule_ids (predicate_common p);
        account_facts_sha256 := facts_hash f d (predicate_version p) |}.

(** ** Specification *)

(** The conditions of the predicate fields both versions share. *)
Definition common_spec (p : EligibilityPredicate) (f : AccountFacts) : Prop :=
  income_tier f ∈ supported_income_tiers p
  /\ service_provider f = required_service_provider p
  /\ service_mode f = required_service_mode p
  /\ meter_count f = required_meter_count p
  /\ primary_meter_only f = requires_primary_meter_only p
  /\ care_enrolled f = requires_care_enrolled p
  /\ fera_enrolled f = requires_fera_enrolled p
  /\ medical_baseline f = requires_medical_baseline p
  /\ cca_service f = requires_cca_service p
  /\ direct_access_service f = requires_direct_access_service p
  /\ active_bill_protection f = requires_active_bill_protection p
  /\ solar_or_export f = requires_solar_or_export p
  /\ (forall t, required_qualifying_technology p = Some t ->
        exists l, qualifying_technologies f = Some l /\ t ∈ l).

(** The dated conditions of a version 2 predicate. *)
Definition dated_spec (p : EligibilityPredicateV2) (f : AccountFacts)
    (d : option DatedEligibilityFacts) : Prop :=
  let start := dr_start (service_window f) in
  (required_any_qualifying_technologies p <> [] ->
     exists t l, qualifying_technologies f = Some l
                 /\ t ∈ required_any_qualifying_technologies p /\ t ∈ l)
  /\ (requires_dated_technology_attestation p = true -> d ≫= facts_as_of = Some start)
  /\ (requires_ev_registration_at_premises p = true ->
        d ≫= ev_registered_and_charged_at_premises = Some true)
  /\ (requires_whole_house_metering p = true -> d ≫= whole_house_metering = Some true)
  /\ (forall num, maximum_annual_baseline_ratio_numerator p = Some num ->
        exists den usage allowance first,
          maximum_annual_baseline_ratio_denominator p = Some den
          /\ d ≫= annual_usage_wh = Some usage
          /\ d ≫= annual_baseline_allowance_wh = Some allowance
          /\ date_replace_year start (date_year start - 1) = Ok first
          /\ d ≫= annual_usage_period = Some {| dr_start := first; dr_end := Some start |}
          /\ usage * den <= allowance * num).

Definition eligible_spec (bundle : CompilationBundle) (p : EligibilityPredicateValue)
    (f : AccountFacts) (d : option DatedEligibilityFacts) : Prop :=
  service_window f ∈ service_windows (component_vector (reports bundle))
  /\ common_spec (predicate_common p) f
  /\ (forall p2, p = PredicateV2 p2 -> dated_spec p2 f d)
  /\ (forall b, IRBaseline b ∈ operators (ir bundle) ->
        exists b', IRBaseline b' ∈ operators (ir bundle)
                   /\ rule_applies (applicability (ir_ba_base b')) f (facts_bill_cycle_month f) = true).

(** ** Lemmas *)
Definition clear (r : Reasons) : Prop := unknown r = [] /\ ineligible r = [].

Lemma clear_app a b : clear (reasons_app a b) <-> clear a /\ clear b.
Proof. unfold clear; simpl. rewrite !app_nil. tauto. Qed.

Lemma verdict_eligible r : (verdict r).1 = ELIGIBLE <-> clear r.
Proof.
  unfold clear, verdict. destruct (ineligible r), (unknown r); simpl; naive_solver.
Qed.

Lemma clear_no_reasons : clear no_reasons <-> True.
Proof. done. Qed.
Lemma clear_add_unknown c : clear (add_unknown c) <-> False.
Proof. by split; [intros [? ?]|]. Qed.
Lemma clear_add_ineligible c : clear (add_ineligible c) <-> False.
Proof. by split; [intros [? ?]|]. Qed.

Lemma mem_spec_if {A} `{EqDecision A} (x : A) l (c : string) :
  (if mem x l then [] else [c]) = [] <-> x ∈ l.
Proof. unfold mem. case_bool_decide; naive_solver. Qed.

Lemma requirements_clear (reqs : list (bool * string)) :
  snd <$> List.filter (fun r => negb (fst r)) reqs = [] <-> Forall (fun r => fst r = true) reqs.
Proof.
  induction reqs as [|[b c] reqs IH]; simpl; [naive_solver|].
  rewrite Forall_cons. destruct b; simpl; naive_solver.
Qed.

Lemma check_requirements_clear p f :
  clear (check_requirements p f) <-> Forall (fun r => fst r = true) (requirements p f).
Proof. rewrite <- requirements_clear. split; [by intros [_ ?]|by split]. Qed.

Lemma check_required_technology_clear p f :
  clear (check_required_technology p f) <->
  (forall t, required_qualifying_technology p = Some t ->
     exists l, qualifying_technologies f = Some l /\ t ∈ l).
Proof.
  unfold check_required_technology, mem.
  repeat case_match; rewrite ?clear_no_reasons, ?clear_add_unknown, ?clear_add_ineligible;
    bools; naive_solver.
Qed.

Lemma common_clear windows p f :
  clear (check_window_and_tier windows p f) /\ clear (check_requirements p f)
  /\ clear (check_required_technology p f) <-> service_window f ∈ windows /\ common_spec p f.
Proof.
  rewrite check_requirements_clear, check_required_technology_clear.
  unfold clear, common_spec, check_window_and_tier, requirements; simpl.
  rewrite !mem_spec_if, !Forall_cons; simpl.
  rewrite !bool_decide_eq_true, !eqb_true_iff, Z.eqb_eq. intuition.
Qed.

Lemma check_flag_clear req fact c1 c2 :
  clear (check_flag req fact c1 c2) <-> (req = true -> fact = Some true).
Proof.
  unfold check_flag. repeat case_match;
    rewrite ?clear_no_reasons, ?clear_add_unknown, ?clear_add_ineligible; naive_solver.
Qed.

Lemma check_any_technology_clear p f :
  clear (check_any_technology p f) <->
  (required_any_qualifying_technologies p <> [] ->
     exists t l, qualifying_technologies f = Some l
                 /\ t ∈ required_any_qualifying_technologies p /\ t ∈ l).
Proof.
  unfold check_any_technology.
  destruct (required_any_qualifying_technologies p) as [|t ts] eqn:E;
    [rewrite clear_no_reasons; tauto|].
  destruct (qualifying_technologies f) as [l|]; [|rewrite clear_add_unknown; split; [done|]; intros (? & ? & ? & _); [done|congruence]].
  destruct (existsb _ _) eqn:Ex; rewrite ?clear_no_reasons, ?clear_add_ineligible.
  - apply existsb_exists in Ex as (t' & Hin & Hm). bools.
    apply list_elem_of_In in Hin. naive_solver.
  - split; [done|]. intros (t' & l' & [= <-] & Hin & Hl); [done|].
    apply not_true_iff_false in Ex. apply Ex, existsb_exists. exists t'.
    rewrite mem_true, <- list_elem_of_In. done.
Qed.

Lemma check_dated_attestation_clear p f d :
  clear (check_dated_attestation p f d) <->
  (requires_dated_technology_attestation p = true ->
     d ≫= facts_as_of = Some (dr_start (service_window f))).
Proof.
  unfold check_dated_attestation. repeat case_match;
    rewrite ?clear_no_reasons, ?clear_add_unknown; bools; naive_solver.
Qed.

Lemma check_annual_baseline_clear p f d r :
  check_annual_baseline p f d = Ok r ->
  clear r <->
  (forall num, maximum_annual_baseline_ratio_numerator p = Some num ->
     let start := dr_start (service_window f) in
     exists den usage allowance first,
       maximum_annual_baseline_ratio_denominator p = Some den
       /\ d ≫= annual_usage_wh = Some usage
       /\ d ≫= annual_baseline_allowance_wh = Some allowance
       /\ date_replace_year start (date_year start - 1) = Ok first
       /\ d ≫= annual_usage_period = Some {| dr_start := first; dr_end := Some start |}
       /\ usage * den <= allowance * num).
Proof.
  unfold check_annual_baseline. cbv zeta.
  destruct (maximum_annual_baseline_ratio_numerator p) as [num|];
    [|by intros [= <-]].
  destruct (d ≫= annual_usage_wh) as [usage|], (d ≫= annual_baseline_allowance_wh) as [al|],
    (d ≫= annual_usage_period) as [period|];
    try (intros [= <-]; rewrite clear_add_unknown; split; [done|]; intros Hn;
         destruct (Hn num eq_refl) as (? & ? & ? & ? & _ & ? & ? & _ & ? & _); congruence).
  intros H. apply bind_ok in H as (first & Hfirst & H). rewrite Hfirst.
  case_match eqn:E.
  - injection H as <-. rewrite clear_add_unknown. split; [done|]. intros Hn.
    destruct (Hn num eq_refl) as (den & u & a & fst' & _ & _ & _ & [= ->] & [= ->] & _). simpl in E.
    rewrite Z.eqb_refl in E. simpl in E. bools. done.
  - bools. apply dec_stable in H1.
    destruct (maximum_annual_baseline_ratio_denominator p) as [den|]; [|done].
    destruct period as [s e]; simpl in *; subst.
    destruct (Z.ltb_spec (al * num) (usage * den)); injection H as <-.
    + rewrite clear_add_ineligible. split; [done|]. intros Hn.
      destruct (Hn num eq_refl) as (? & ? & ? & ? & [= <-] & [= <-] & [= <-] & _ & _ & ?). lia.
    + rewrite clear_no_reasons. split; [|done]. intros _ n [= <-].
      by exists den, usage, al, first.
Qed.

Lemma check_v2_clear p f d r :
  check_v2 p f d = Ok r -> clear r <-> dated_spec p f d.
Proof.
  unfold check_v2, dated_spec. intros H. apply bind_ok in H as (annual & Ha & [= <-]).
  rewrite !clear_app, !check_flag_clear, check_any_technology_clear, check_dated_attestation_clear,
    (check_annual_baseline_clear _ _ _ _ Ha). done.
Qed.

Lemma check_baseline_rules_clear ops f :
  clear (check_baseline_rules ops f) <->
  (forall b, IRBaseline b ∈ ops ->
     exists b', IRBaseline b' ∈ ops
       /\ rule_applies (applicability (ir_ba_base b')) f (facts_bill_cycle_month f) = true).
Proof.
  assert (forall b, b ∈ omap as_baseline ops <-> IRBaseline b ∈ ops) as Hb.
  { intros b. rewrite list_elem_of_omap. split; [|by intros; exists (IRBaseline b)].
    intros ([] & Hin & [= ->]); done. }
  unfold check_baseline_rules. case_match eqn:E;
    rewrite ?clear_no_reasons, ?clear_add_unknown.
  - apply andb_true_iff in E as [Hne Hnone]. bools. split; [done|]. intros Hall.
    apply not_true_iff_false in Hnone. apply Hnone.
    destruct (omap as_baseline ops) as [|b bs] eqn:Eo; [done|].
    destruct (Hall b) as (b' & Hin & Hr); [apply Hb; set_solver|].
    apply existsb_exists. exists b'. rewrite <- list_elem_of_In. by rewrite Hb.
  - split; [|done]. intros _ b Hin%Hb. apply andb_false_iff in E as [E|E]; bools.
    + rewrite E in Hin. set_solver.
    + apply existsb_exists in E as (b' & Hin' & Hr). rewrite <- list_elem_of_In, Hb in Hin'. eauto.
Qed.

Lemma collect_reasons_clear bundle p f d r :
  collect_reasons bundle p f d = Ok r -> clear r <-> eligible_spec bundle p f d.
Proof.
  unfold collect_reasons, eligible_spec. intros H. apply bind_ok in H as (ext & He & [= <-]).
  rewrite !clear_app, check_baseline_rules_clear.
  assert (clear ext <-> forall p2, p = PredicateV2 p2 -> dated_spec p2 f d) as Hext.
  { destruct p as [p1|p2].
    - injection He as <-. rewrite clear_no_reasons. naive_solver.
    - rewrite (check_v2_clear _ _ _ _ He). naive_solver. }
  rewrite Hext. pose proof (common_clear (service_windows (component_vector (reports bundle)))
    (predicate_common p) f). tauto.
Qed.

(** ** More information never revokes an INELIGIBLE verdict *)

(** [extends a b]: every known fact of [a] is known, with the same value, in [b]. *)
Definition extends {A} (a b : option A) : Prop := forall x, a = Some x -> b = Some x.

Definition more_facts (f f' : AccountFacts) (d d' : option DatedEligibilityFacts) : Prop :=
  (exists techs, extends (qualifying_technologies f) techs
     /\ f' = {| service_window := service_window f; service_provider := service_provider f;
                service_mode := service_mode f; meter_count := meter_count f;
                primary_meter_only := primary_meter_only f; income_tier := income_tier f;
                care_enrolled := care_enrolled f; fera_enrolled := fera_enrolled f;
                medical_baseline := medical_baseline f; cca_service := cca_service f;
                direct_access_service := direct_access_service f;
                active_bill_protection := active_bill_protection f;
                solar_or_export := solar_or_export f;
                baseline_territory := baseline_territory f;
                baseline_quantity_code := baseline_quantity_code f;
                qualifying_technologies := techs;
                user_attested_at := user_attested_at f |})
  /\ extends (d ≫= facts_as_of) (d' ≫= facts_as_of)
  /\ extends (d ≫= ev_registered_and_charged_at_premises)
             (d' ≫= ev_registered_and_charged_at_premises)
  /\ extends (d ≫= whole_house_metering) (d' ≫= whole_house_metering)
  /\ extends (d ≫= annual_usage_period) (d' ≫= annual_usage_period)
  /\ extends (d ≫= annual_usage_wh) (d' ≫= annual_usage_wh)
  /\ extends (d ≫= annual_baseline_allowance_wh) (d' ≫= annual_baseline_allowance_wh).

Lemma verdict_ineligible r : (verdict r).1 = INELIGIBLE <-> ineligible r <> [].
Proof. unfold verdict. destruct (ineligible r), (unknown r); simpl; naive_solver. Qed.

Lemma app_subseteq_mono {A} (l1 l2 k1 k2 : list A) : l1 ⊆ k1 -> l2 ⊆ k2 -> l1 ++ l2 ⊆ k1 ++ k2.
Proof. set_solver. Qed.

Lemma check_flag_monotone req fact fact' c1 c2 :
  extends fact fact' ->
  ineligible (check_flag req fact c1 c2) ⊆ ineligible (check_flag req fact' c1 c2).
Proof.
  unfold check_flag. intros Hx. destruct req; [|done].
  destruct fact as [b|]; [|set_solver]. by rewrite (Hx b).
Qed.

Lemma check_annual_monotone p f f' d d' r r' :
  more_facts f f' d d' ->
  check_annual_baseline p f d = Ok r -> check_annual_baseline p f' d' = Ok r' ->
  ineligible r ⊆ ineligible r'.
Proof.
  intros ((techs & _ & ->) & _ & _ & _ & Hp & Hu & Ha). unfold check_annual_baseline. simpl.
  destruct (maximum_annual_baseline_ratio_numerator p) as [num|]; [|intros [= <-] [= <-]; set_solver].
  destruct (d ≫= annual_usage_wh) as [u|], (d ≫= annual_baseline_allowance_wh) as [al|],
    (d ≫= annual_usage_period) as [pe|];
    try (intros [= <-] _; simpl; set_solver).
  rewrite (Hp pe), (Hu u), (Ha al) by done. intros H1 H2.
  assert (Ok r = Ok r') as [= <-] by congruence. done.
Qed.

Lemma check_technology_monotone p f f' d d' :
  more_facts f f' d d' ->
  ineligible (check_required_technology p f) ⊆ ineligible (check_required_technology p f').
Proof.
  intros ((techs & Ht & ->) & _). unfold check_required_technology. simpl.
  destruct (required_qualifying_technology p); [|done].
  destruct (qualifying_technologies f) as [l|]; [|set_solver]. by rewrite (Ht l).
Qed.

Lemma check_any_technology_monotone p f f' d d' :
  more_facts f f' d d' ->
  ineligible (check_any_technology p f) ⊆ ineligible (check_any_technology p f').
Proof.
  intros ((techs & Ht & ->) & _). unfold check_any_technology. simpl.
  destruct (required_any_qualifying_technologies p) as [|t ts]; [done|].
  destruct (qualifying_technologies f) as [l|]; [|set_solver]. by rewrite (Ht l).
Qed.

Lemma check_dated_ineligible p f d : ineligible (check_dated_attestation p f d) = [].
Proof. unfold check_dated_attestation. by repeat case_match. Qed.

Lemma check_baseline_ineligible ops f : ineligible (check_baseline_rules ops f) = [].
Proof. unfold check_baseline_rules. by repeat case_match. Qed.

Lemma check_v2_monotone p f f' d d' r r' :
  more_facts f f' d d' -> check_v2 p f d = Ok r -> check_v2 p f' d' = Ok r' ->
  ineligible r ⊆ ineligible r'.
Proof.
  unfold check_v2. intros Hm H1 H2.
  apply bind_ok in H1 as (a & Ha & [= <-]). apply bind_ok in H2 as (a' & Ha' & [= <-]).
  pose proof (check_annual_monotone _ _ _ _ _ _ _ Hm Ha Ha').
  pose proof (check_any_technology_monotone p _ _ _ _ Hm).
  destruct Hm as (_ & _ & He & Hw & _). simpl. rewrite !check_dated_ineligible. simpl.
  repeat apply app_subseteq_mono; try done; by apply check_flag_monotone.
Qed.

Lemma collect_reasons_monotone bundle p f f' d d' r r' :
  more_facts f f' d d' ->
  collect_reasons bundle p f d = Ok r -> collect_reasons bundle p f' d' = Ok r' ->
  ineligible r ⊆ ineligible r'.
Proof.
  unfold collect_reasons. intros Hm H1 H2.
  apply bind_ok in H1 as (e & He & [= <-]). apply bind_ok in H2 as (e' & He' & [= <-]).
  simpl. rewrite !check_baseline_ineligible.
  assert (ineligible e ⊆ ineligible e') as Hext.
  { destruct p; [by simplify_eq|]. eapply check_v2_monotone; eauto. }
  pose proof (check_technology_monotone (predicate_common p) _ _ _ _ Hm).
  destruct Hm as ((techs & _ & ->) & _). simpl.
  repeat apply app_subseteq_mono; done.
Qed.

(** ** Theorems *)
Section Theorems.
Context `{Sha256}.

(** C22: eligibility is decided exactly by the contract and fails closed.  When
    the evaluation returns, the verdict is ELIGIBLE if and only if every
    condition of the predicate holds of facts that are all present; reason
    codes are empty exactly in that case, sorted and free of duplicates. *)
Theorem evaluate_eligibility_spec bundle p f d res :
  predicate bundle = Ok p -> evaluate_eligibility bundle f d = Ok res ->
  (status res = ELIGIBLE <-> eligible_spec bundle p f d)
  /\ (reason_codes res = [] <-> status res = ELIGIBLE)
  /\ NoDup (reason_codes res)
  /\ StronglySorted (fun a b => py_leb a b = true) (reason_codes res).
Proof.
  unfold evaluate_eligibility. intros -> H'. simpl in H'.
  apply bind_ok in H' as (r & Hr & [= <-]). simpl.
  rewrite verdict_eligible, (collect_reasons_clear _ _ _ _ _ Hr).
  rewrite <- (collect_reasons_clear _ _ _ _ _ Hr). split; [done|].
  unfold verdict, clear. destruct (ineligible r) as [|c cs], (unknown r) as [|u us]; simpl.
  - repeat split; constructor.
  - rewrite sorted_set_nil. split; [naive_solver|]. split; [apply sorted_set_NoDup|].
    apply sorted_by_sorted.
  - rewrite sorted_set_nil. split; [naive_solver|]. split; [apply sorted_set_NoDup|].
    apply sorted_by_sorted.
  - rewrite sorted_set_nil. split; [naive_solver|]. split; [apply sorted_set_NoDup|].
    apply sorted_by_sorted.
Qed.

(** An INELIGIBLE verdict is definite.  Supplying facts that were missing
    (qualifying technologies or dated facts) while keeping the known ones never
    turns INELIGIBLE into ELIGIBLE or UNKNOWN. *)
Theorem ineligible_is_definite bundle f f' d d' res res' :
  more_facts f f' d d' ->
  evaluate_eligibility bundle f d = Ok res -> evaluate_eligibility bundle f' d' = Ok res' ->
  status res = INELIGIBLE -> status res' = INELIGIBLE.
Proof.
  unfold evaluate_eligibility. intros Hm H1 H2. destruct (predicate bundle) as [p|]; [|done].
  simpl in *. apply bind_ok in H1 as (r & Hr & [= <-]). apply bind_ok in H2 as (r' & Hr' & [= <-]).
  simpl. rewrite !verdict_ineligible. intros Hne Hnil.
  pose proof (collect_reasons_monotone _ _ _ _ _ _ _ _ Hm Hr Hr') as Hs. rewrite Hnil in Hs.
  destruct (ineligible r); [done|]. set_solver.
Qed.

(** Eligibility evaluation is total on validated predicates, 29 February
    apart.  If the compiled predicate satisfies its validator and the service
    window starts in year 2 or later on a day other than 29 February, a verdict
    is returned whatever facts are missing. *)
Theorem evaluate_eligibility_total bundle p f d :
  predicate bundle = Ok p ->
  (forall p2, p = PredicateV2 p2 -> validate_extended_predicate p2 = Ok tt) ->
  2 <= date_year (dr_start (service_window f)) <= 9999 ->
  (date_month (dr_start (service_window f)), date_day (dr_start (service_window f))) <> (2, 29) ->
  exists res, evaluate_eligibility bundle f d = Ok res.
Proof.
  intros Hp Hval Hy Hmd. unfold evaluate_eligibility. rewrite Hp. simpl.
  enough (exists r, collect_reasons bundle p f d = Ok r) as [r ->] by (simpl; eauto).
  unfold collect_reasons. destruct p as [p1|p2]; [simpl; eauto|].
  specialize (Hval p2 eq_refl). unfold validate_extended_predicate in Hval. inv_ok.
  enough (exists a, check_annual_baseline p2 f d = Ok a) as [a Ha].
  { unfold check_v2. rewrite Ha. simpl. eauto. }
  unfold check_annual_baseline.
  destruct (maximum_annual_baseline_ratio_numerator p2) as [num|]; [|eauto].
  destruct (maximum_annual_baseline_ratio_denominator p2) as [den|]; [|done].
  do 3 (case_match; [|eauto]). unfold date_replace_year.
  set (y := date_year _) in *.
  assert ((y - 1 <? 1) || (9999 <? y - 1) = false) as -> by (apply orb_false_iff; lia).
  destruct ((date_month _ =? 2) && (date_day _ =? 29)) eqn:E.
  - bools. congruence.
  - simpl. unfold result_bind. repeat case_match; eauto.
Qed.
End Theorems.

(** ** Witnesses *)
Lemma evaluate_eligibility_spec_witness :
  eligible_spec ev2a_bundle (PredicateV2 ev2a_predicate) july_facts (Some july_dated).
Proof.
  destruct (evaluate_eligibility (H := toy_sha256) ev2a_bundle july_facts (Some july_dated))
    as [res|] eqn:E; [|vm_compute in E; discriminate E].
  apply (evaluate_eligibility_spec (H := toy_sha256) ev2a_bundle (PredicateV2 ev2a_predicate)
    _ _ res eq_refl E).
  vm_compute in E. injection E as <-. reflexivity.
Defined.

(** An account with no technology facts that is enrolled in no EV service and
    says so: the whole-house fact alone makes the verdict definite. *)
Definition no_dated : DatedEligibilityFacts :=
  {| facts_as_of := None; ev_registered_and_charged_at_premises := None;
     whole_house_metering := Some false; annual_usage_period := None; annual_usage_wh := None;
     annual_baseline_allowance_wh := None |}.
Definition more_dated : DatedEligibilityFacts :=
  {| facts_as_of := Some (date_of_ymd 2026 7 1); ev_registered_and_charged_at_premises := Some true;
     whole_house_metering := Some false; annual_usage_period := None; annual_usage_wh := None;
     annual_baseline_allowance_wh := None |}.

Lemma ineligible_is_definite_witness :
  exists res, evaluate_eligibility (H := toy_sha256) ev2a_bundle july_facts (Some more_dated) = Ok res
              /\ status res = INELIGIBLE.
Proof.
  eexists. split; [vm_compute; reflexivity|].
  apply (ineligible_is_definite (H := toy_sha256) ev2a_bundle (facts_fixture july_2026 None) july_facts
    (Some no_dated) (Some more_dated)
    {| status := INELIGIBLE; reason_codes := ["WHOLE_HOUSE_METERING_REQUIREMENT_MISMATCH"];
       result_predicate_id := predicate_id (v2_common ev2a_predicate);
       result_predicate_version := "eligibility-predicate-v2";
       result_source_rule_ids := ["EV2A_APPLICABILITY_2026_03_01"];
       account_facts_sha256 := facts_hash (H := toy_sha256) (facts_fixture july_2026 None)
                                 (Some no_dated) "eligibility-predicate-v2" |}).
  - repeat split; try (intros x Hx; vm_compute in Hx |- *; congruence).
    exists (Some [EV]). split; [intros x Hx; discriminate Hx|reflexivity].
  - vm_compute. reflexivity.
  - vm_compute. reflexivity.
  - reflexivity.
Defined.

Lemma evaluate_eligibility_total_witness :
  exists res, evaluate_eligibility (H := toy_sha256) ev2a_bundle (facts_fixture july_2026 None) None
              = Ok res.
Proof.
  apply (evaluate_eligibility_total (H := toy_sha256) ev2a_bundle (PredicateV2 ev2a_predicate)).
  - reflexivity.
  - intros p2 [= <-]. reflexivity.
  - vm_compute. split; discriminate.
  - vm_compute. discriminate.
Defined.

(** ** The leap-day service window *)
Definition leap_window : DateRange :=
  {| dr_start := date_of_ymd 2028 2 29; dr_end := Some (date_of_ymd 2028 3 30) |}.
Definition leap_bundle : CompilationBundle :=
  bundle_fixture "pge-ev2a-2028-02" (PredicateV2 ev2a_predicate) leap_window
    [IRSchedule ev2a_schedule; ev2a_energy; base_services; climate_credit].

(** On a service window that starts on 29 February the annual-baseline
    check raises Python's own [ValueError] instead of a verdict: complete facts
    for an admitted window get no eligibility result. *)
Theorem leap_day_window_raises `{Sha256} :
  evaluate_eligibility leap_bundle (facts_fixture leap_window (Some [EV])) (Some july_dated)
  = Raise (PyError "ValueError").
Proof. reflexivity. Qed.
