(* ===== verification/Apportion.v ===== *)
(** * Apportion: splitting integers exactly over days (tariffs/billing.py)

    [apportion_integer] divides a signed integer over positive weights by the
    largest-remainder method; [energy_slice] cuts a run of watt-hours out of a
    day-by-day energy profile.  A Python dict is an association list whose
    keys have no duplicates. *)

From stdpp Require Import sorting.
From S2P Require Import Prelude Calendar.

Definition positive_items (weights : dict date Z) : dict date Z :=
  List.filter (fun kv => 0 <? kv.2) weights.

(** [divmod(magnitude * weight, weight_total)] for each sorted item. *)
Definition quotas (magnitude weight_total : Z) (items : dict date Z) : dict date Z :=
  (fun kw => (kw.1, magnitude * kw.2 / weight_total)) <$> items.
Definition remainders (magnitude weight_total : Z) (items : dict date Z) : list (Z * date) :=
  (fun kw => ((magnitude * kw.2) mod weight_total, kw.1)) <$> items.

(** [for key in keys: allocations[key] += 1]. *)
Definition bump (allocations : dict date Z) (keys : list date) : dict date Z :=
  foldl (fun d k => dict_add k 1 d) allocations keys.

(** The keys that receive one more unit: largest remainder first, then the
    earlier day. *)
Definition bumped_keys (magnitude weight_total : Z) (items : dict date Z) : list date :=
  let leftover := magnitude - dict_total (quotas magnitude weight_total items) in
  take (Z.to_nat leftover)
    (snd <$> sorted_by (fun rk : Z * date => (- rk.1, rk.2)) (remainders magnitude weight_total items)).

Definition apportion_integer (total : Z) (weights : dict date Z) : result (dict date Z) :=
  let positive := positive_items weights in
  let weight_total := dict_total positive in
  if total =? 0 then Ok ((fun k => (k, 0)) <$> py_sorted positive.*1)
  else
    _ ← raise_if (weight_total =? 0) (ReplayError "DIAGNOSTIC_ALLOCATION_BASIS_MISSING");
    let magnitude := Z.abs total in
    let items := py_sorted positive in
    let allocations := bump (quotas magnitude weight_total items)
                            (bumped_keys magnitude weight_total items) in
    let sign := if 0 <? total then 1 else -1 in
    Ok ((fun kv => (kv.1, sign * kv.2)) <$> allocations).

(** The loop of [_energy_slice]: selected entries, and the offset and quantity
    that remain when it ends or breaks. *)
Fixpoint slice_loop (days : dict date Z) (remaining_offset remaining_quantity : Z)
    : dict date Z * Z * Z :=
  match days with
  | [] => ([], remaining_offset, remaining_quantity)
  | (service_day, energy_wh) :: days' =>
      if energy_wh <=? remaining_offset
      then slice_loop days' (remaining_offset - energy_wh) remaining_quantity
      else
        let available := energy_wh - remaining_offset in
        let taken := Z.min available remaining_quantity in
        let selected := if taken =? 0 then [] else [(service_day, taken)] in
        let remaining_quantity' := remaining_quantity - taken in
        if remaining_quantity' =? 0 then (selected, 0, remaining_quantity')
        else let '(rest, o, q) := slice_loop days' 0 remaining_quantity' in
             (selected ++ rest, o, q)
  end.

Definition energy_slice (daily_energy : dict date Z) (offset_wh quantity_wh : Z)
    : result (dict date Z) :=
  _ ← raise_if ((offset_wh <? 0) || (quantity_wh <? 0))
        (ReplayError "DIAGNOSTIC_ALLOCATION_INVALID");
  let '(selected, remaining_offset, remaining_quantity) :=
    slice_loop daily_energy offset_wh quantity_wh in
  _ ← raise_if (negb (remaining_offset =? 0) || negb (remaining_quantity =? 0))
        (ReplayError "DIAGNOSTIC_ALLOCATION_BASIS_MISSING");
  Ok selected.

(** ** Lemmas on the largest-remainder method *)

Lemma bump_keys keys d : keys ⊆ d.*1 -> (bump d keys).*1 = d.*1.
Proof.
  revert d; induction keys as [|k keys IH]; intros d Hk; simpl; [done|].
  unfold bump in IH. assert (k ∈ d.*1) by set_solver.
  assert ((dict_add k 1 d).*1 = d.*1) as E by by apply dict_set_keys_in.
  rewrite IH; [done|]. rewrite E. set_solver.
Qed.

Lemma bump_total keys d : dict_total (bump d keys) = dict_total d + Z.of_nat (length keys).
Proof.
  revert d; induction keys as [|k keys IH]; intros d; simpl; [lia|].
  unfold bump in IH. rewrite IH, dict_add_total. lia.
Qed.

Lemma bump_get keys d k : NoDup keys ->
  default 0 (dict_get k (bump d keys)) =
  default 0 (dict_get k d) + if decide (k ∈ keys) then 1 else 0.
Proof.
  revert d; induction keys as [|k' keys IH]; intros d Hnd; simpl; [lia|].
  apply NoDup_cons in Hnd as [Hk' Hnd]. unfold bump in IH. rewrite IH, dict_add_get by done.
  destruct (decide (k' = k)) as [->|Hne].
  - rewrite (decide_False (P := k ∈ keys)), decide_True by set_solver. lia.
  - destruct (decide (k ∈ keys)); [rewrite decide_True by set_solver|rewrite decide_False by set_solver];
      lia.
Qed.

Lemma positive_items_pos weights k w : (k, w) ∈ positive_items weights <-> (k, w) ∈ weights /\ 0 < w.
Proof.
  unfold positive_items. rewrite !list_elem_of_In, filter_In. simpl. rewrite Z.ltb_lt. done.
Qed.

Lemma positive_items_NoDup weights : NoDup weights.*1 -> NoDup (positive_items weights).*1.
Proof.
  unfold positive_items. induction weights as [|[k w] weights IH]; simpl; [done|].
  rewrite NoDup_cons. intros [Hk Hnd]. case_match; simpl; [|by apply IH].
  apply NoDup_cons. split; [|by apply IH]. intros Hin. apply Hk.
  apply list_elem_of_fmap in Hin as ([k' w'] & -> & Hin).
  apply list_elem_of_In, filter_In in Hin as [Hin _]. apply list_elem_of_fmap.
  exists (k', w'). by rewrite list_elem_of_In.
Qed.

(** Counting keys of a dictionary. *)
Lemma sum_by_single {V} (d : dict date V) k v c : NoDup d.*1 -> (k, v) ∈ d ->
  sum_by (fun kw => if decide (kw.1 = k) then c else 0) d = c.
Proof.
  induction d as [|[k' v'] d IH]; intros Hnd Hin; [set_solver|].
  simpl in Hnd. apply NoDup_cons in Hnd as [Hk' Hnd]. rewrite sum_by_cons. simpl.
  apply elem_of_cons in Hin as [[= <- <-]|Hin].
  - rewrite decide_True by done. rewrite (sum_by_ext _ (fun _ => 0)); [rewrite sum_by_const; lia|].
    intros [k1 v1] Hin. apply decide_False. simpl. intros ->. apply Hk', list_elem_of_fmap.
    by exists (k, v1).
  - rewrite IH by done. rewrite decide_False; [lia|]. intros ->. apply Hk', list_elem_of_fmap.
    by exists (k, v).
Qed.

Lemma sum_by_member {V} (d : dict date V) (keys : list date) :
  NoDup d.*1 -> NoDup keys -> keys ⊆ d.*1 ->
  sum_by (fun kw => if decide (kw.1 ∈ keys) then 1 else 0) d = Z.of_nat (length keys).
Proof.
  intros Hnd. induction keys as [|k keys IH]; intros Hk Hsub.
  - rewrite (sum_by_ext _ (fun _ => 0)); [rewrite sum_by_const; simpl; lia|].
    intros kw _. apply decide_False. set_solver.
  - apply NoDup_cons in Hk as [Hk Hkeys].
    assert (k ∈ d.*1) as Hkd by set_solver.
    apply list_elem_of_fmap in Hkd as ([k' v] & -> & Hin). simpl in *.
    rewrite (sum_by_ext _ (fun kw => (if decide (kw.1 ∈ keys) then 1 else 0)
                                     + (if decide (kw.1 = k') then 1 else 0))).
    + rewrite sum_by_plus, IH, (sum_by_single d k' v) by (done || set_solver). lia.
    + intros kw _. destruct (decide (kw.1 = k')) as [->|Hne].
      * rewrite decide_True by set_solver. rewrite decide_False by done. lia.
      * destruct (decide (kw.1 ∈ keys)); [rewrite decide_True by set_solver; lia|].
        rewrite decide_False by set_solver. lia.
Qed.

Section Quotas.
Context (magnitude weight_total : Z) (items : dict date Z).
Hypothesis weight_pos : 0 < weight_total.
Hypothesis weight_sum : dict_total items = weight_total.

Let leftover := magnitude - dict_total (quotas magnitude weight_total items).

Lemma quotas_keys : (quotas magnitude weight_total items).*1 = items.*1.
Proof. unfold quotas. by rewrite <- list_fmap_compose. Qed.

Lemma remainders_keys : (remainders magnitude weight_total items).*2 = items.*1.
Proof. unfold remainders. by rewrite <- list_fmap_compose. Qed.

(** The remainders add up to what the quotas leave over. *)
Lemma remainders_sum :
  sum_by fst (remainders magnitude weight_total items) = weight_total * leftover.
Proof.
  unfold leftover, remainders, quotas, dict_total. rewrite !sum_by_fmap. simpl.
  assert (sum_by (fun kw : date * Z => magnitude * kw.2) items = magnitude * weight_total) as Hs.
  { rewrite sum_by_scale. by rewrite <- weight_sum. }
  assert (sum_by (fun kw : date * Z => magnitude * kw.2) items =
    weight_total * sum_by (fun kw : date * Z => magnitude * kw.2 / weight_total) items
    + sum_by (fun kw : date * Z => (magnitude * kw.2) mod weight_total) items) as Hd.
  { rewrite <- sum_by_scale, <- sum_by_plus. apply sum_by_ext. intros kw _.
    apply Z.div_mod. lia. }
  lia.
Qed.

Lemma leftover_bounds : 0 <= leftover /\ (leftover <= Z.of_nat (length items)).
Proof.
  pose proof remainders_sum as Hs.
  assert (0 <= sum_by fst (remainders magnitude weight_total items)) as H0.
  { unfold remainders. rewrite sum_by_fmap. apply sum_by_nonneg. intros kw _. simpl.
    apply Z.mod_pos_bound; lia. }
  assert (sum_by fst (remainders magnitude weight_total items)
          <= weight_total * Z.of_nat (length items)) as H1.
  { unfold remainders. rewrite sum_by_fmap, <- (sum_by_const weight_total). apply sum_by_le.
    intros kw _. simpl. pose proof (Z.mod_pos_bound (magnitude * kw.2) weight_total). lia. }
  nia.
Qed.

Lemma length_bumped : Z.of_nat (length (bumped_keys magnitude weight_total items)) = leftover.
Proof.
  unfold bumped_keys. rewrite length_take, length_fmap, length_sorted_by.
  unfold remainders. rewrite length_fmap. fold leftover.
  pose proof leftover_bounds. lia.
Qed.

Lemma bumped_keys_sub : bumped_keys magnitude weight_total items ⊆ items.*1.
Proof.
  intros k Hk. unfold bumped_keys in Hk. apply subseteq_take in Hk.
  apply list_elem_of_fmap in Hk as (rk & -> & Hk). rewrite elem_of_sorted_by in Hk.
  rewrite <- remainders_keys. apply list_elem_of_fmap. eauto.
Qed.

Lemma bumped_keys_NoDup : NoDup items.*1 -> NoDup (bumped_keys magnitude weight_total items).
Proof.
  intros Hnd. unfold bumped_keys. eapply sublist_NoDup; [|apply sublist_take].
  rewrite sorted_by_perm. by rewrite remainders_keys.
Qed.

Lemma bump_quotas_total :
  dict_total (bump (quotas magnitude weight_total items)
                   (bumped_keys magnitude weight_total items)) = magnitude.
Proof. rewrite bump_total, length_bumped. unfold leftover. lia. Qed.

Lemma bump_quotas_get k w : NoDup items.*1 -> (k, w) ∈ items ->
  dict_get k (bump (quotas magnitude weight_total items)
                   (bumped_keys magnitude weight_total items))
  = Some (magnitude * w / weight_total
          + if decide (k ∈ bumped_keys magnitude weight_total items) then 1 else 0).
Proof.
  intros Hnd Hin.
  assert (dict_get k (quotas magnitude weight_total items) = Some (magnitude * w / weight_total)) as Hq.
  { apply dict_elem_get; [by rewrite quotas_keys|].
    apply list_elem_of_fmap. by exists (k, w). }
  pose proof (bump_get (bumped_keys magnitude weight_total items)
    (quotas magnitude weight_total items) k (bumped_keys_NoDup Hnd)) as Hb.
  rewrite Hq in Hb. simpl in Hb. rewrite <- Hb.
  destruct (dict_get k (bump _ _)) eqn:E; [done|].
  apply dict_get_None in E. rewrite bump_keys, quotas_keys in E;
    [|rewrite quotas_keys; apply bumped_keys_sub].
  exfalso. apply E. apply list_elem_of_fmap. by exists (k, w).
Qed.

Let order (rk : Z * date) : Z * date := (- rk.1, rk.2).

Lemma bumped_first k w k' w' : NoDup items.*1 ->
  (k, w) ∈ items -> (k', w') ∈ items ->
  k ∈ bumped_keys magnitude weight_total items ->
  k' ∉ bumped_keys magnitude weight_total items ->
  (magnitude * w') mod weight_total <= (magnitude * w) mod weight_total.
Proof.
  intros Hnd Hk Hk' Hb Hb'. unfold bumped_keys in Hb, Hb'. fold leftover order in Hb, Hb'.
  rewrite <- fmap_take in Hb, Hb'.
  pose proof (sorted_by_sorted order (remainders magnitude weight_total items)) as Hs.
  rewrite <- (take_drop (Z.to_nat leftover)) in Hs.
  apply list_elem_of_fmap in Hb as ([r k1] & Ek & Hb). simpl in Ek. subst k1.
  assert (((magnitude * w') mod weight_total, k') ∈
    drop (Z.to_nat leftover) (sorted_by order (remainders magnitude weight_total items))) as Hd.
  { assert (((magnitude * w') mod weight_total, k') ∈
      sorted_by order (remainders magnitude weight_total items)) as Hin.
    { rewrite elem_of_sorted_by. apply list_elem_of_fmap. by exists (k', w'). }
    rewrite <- (take_drop (Z.to_nat leftover)) in Hin. apply elem_of_app in Hin as [Hin|Hin]; [|done].
    exfalso. apply Hb', list_elem_of_fmap. by exists ((magnitude * w') mod weight_total, k'). }
  assert (r = (magnitude * w) mod weight_total) as ->.
  { apply subseteq_take in Hb. rewrite elem_of_sorted_by in Hb.
    apply list_elem_of_fmap in Hb as ([k2 w2] & [= -> ->] & Hin). simpl in *.
    pose proof (dict_elem_get _ _ _ Hnd Hk). pose proof (dict_elem_get _ _ _ Hnd Hin). congruence. }
  pose proof (StronglySorted_app_1_elem_of _ _ _ _ _ Hs Hb Hd) as Hle.
  unfold key_le, py_leb in Hle. simpl in Hle.
  destruct (Z.compare_spec (- ((magnitude * w) mod weight_total))
    (- ((magnitude * w') mod weight_total))); [lia|lia|done].
Qed.

(** A key is only bumped when its quota was rounded down. *)
Lemma bumped_remainder_pos k w : NoDup items.*1 -> (k, w) ∈ items ->
  k ∈ bumped_keys magnitude weight_total items -> 0 < (magnitude * w) mod weight_total.
Proof.
  intros Hnd Hk Hb.
  destruct (Z.lt_ge_cases 0 ((magnitude * w) mod weight_total)) as [|Hr]; [done|exfalso].
  pose proof (Z.mod_pos_bound (magnitude * w) weight_total weight_pos) as Hpos.
  pose proof remainders_sum as Hsum. unfold remainders in Hsum.
  rewrite sum_by_fmap in Hsum. simpl in Hsum.
  (* the sum is at most weight_total for each bumped key but [k] *)
  set (bumped := bumped_keys magnitude weight_total items) in *.
  set (f := fun kw : date * Z => (magnitude * kw.2) mod weight_total) in *.
  set (g := fun kw : date * Z => weight_total * (if decide (kw.1 ∈ bumped) then 1 else 0)
                                 - (if decide (kw.1 = k) then weight_total else 0)).
  assert (sum_by f items <= sum_by g items) as Hle.
  { apply sum_by_le. intros [k' w'] Hin. unfold f, g; simpl.
    pose proof (Z.mod_pos_bound (magnitude * w') weight_total weight_pos).
    destruct (decide (k' = k)) as [->|Hne].
    - rewrite decide_True by done.
      pose proof (dict_elem_get _ _ _ Hnd Hk). pose proof (dict_elem_get _ _ _ Hnd Hin).
      assert (w' = w) as -> by congruence. lia.
    - destruct (decide (k' ∈ bumped)); [lia|].
      pose proof (bumped_first k w k' w' Hnd Hk Hin Hb n). lia. }
  assert (sum_by g items = weight_total * leftover - weight_total) as Hg.
  { unfold g. rewrite (sum_by_ext _ (fun kw => weight_total * (if decide (kw.1 ∈ bumped) then 1 else 0)
      + (if decide (kw.1 = k) then - weight_total else 0))).
    2: { intros kw _. destruct (decide (kw.1 = k)); lia. }
    rewrite sum_by_plus, sum_by_scale.
    rewrite (sum_by_member items bumped), (sum_by_single items k w) by
      (done || apply bumped_keys_NoDup, Hnd || apply bumped_keys_sub).
    unfold bumped. rewrite length_bumped. lia. }
  lia.
Qed.
End Quotas.

(** What largest-remainder apportionment promises. *)
Record apportioned (total : Z) (weights r : dict date Z) : Prop := {
  app_total : dict_total r = total;
  app_keys : r.*1 ≡ₚ (positive_items weights).*1;
  app_sorted : StronglySorted Z.le r.*1;
  app_quota k w a : (k, w) ∈ weights -> (k, a) ∈ r ->
    let W := dict_total (positive_items weights) in
    Z.abs (a * W - total * w) < W /\ 0 <= a * total
}.

Lemma fmap_keys_id (f : date * Z -> Z) (d : dict date Z) :
  ((fun kv => (kv.1, f kv)) <$> d).*1 = d.*1.
Proof. by rewrite <- list_fmap_compose. Qed.

Lemma sorted_items_keys (d : dict date Z) :
  StronglySorted Z.le (py_sorted d).*1.
Proof.
  pose proof (sorted_by_sorted (fun x : date * Z => x) d) as Hs. unfold py_sorted.
  induction Hs as [|x l Hs IH Hx]; simpl; constructor; [done|].
  apply Forall_fmap. eapply Forall_impl; [exact Hx|]. intros y Hy. simpl.
  unfold key_le, py_leb in Hy. simpl in Hy. destruct (Z.compare_spec x.1 y.1); simpl; [lia|lia|done].
Qed.

Lemma positive_total_nonneg weights : 0 <= dict_total (positive_items weights).
Proof.
  apply sum_by_nonneg. intros [k w] Hin. apply positive_items_pos in Hin as [_ ?]. simpl; lia.
Qed.

Lemma positive_total_pos weights k w :
  (k, w) ∈ positive_items weights -> 0 < dict_total (positive_items weights).
Proof.
  intros Hin. assert (0 < w) by by apply positive_items_pos in Hin as [_ ?].
  enough (w <= dict_total (positive_items weights)) by lia.
  apply (sum_by_elem snd _ (k, w)); [|done].
  intros [k' w'] Hin'. apply positive_items_pos in Hin' as [_ ?]. simpl; lia.
Qed.

Lemma apportion_zero weights :
  NoDup weights.*1 ->
  apportioned 0 weights ((fun k => (k, 0)) <$> py_sorted (positive_items weights).*1).
Proof.
  intros Hnd. set (keys := py_sorted _).
  assert (keys ≡ₚ (positive_items weights).*1) as Hp by apply sorted_by_perm.
  assert (((fun k : date => (k, 0)) <$> keys).*1 = keys) as Hk.
  { rewrite <- list_fmap_compose. apply list_fmap_id. }
  split.
  - unfold dict_total. rewrite sum_by_fmap. simpl. by rewrite sum_by_const.
  - by rewrite Hk.
  - rewrite Hk. pose proof (sorted_by_sorted (fun x : date => x) (positive_items weights).*1) as Hs.
    fold (py_sorted (positive_items weights).*1) in Hs. fold keys in Hs. clear Hk Hp.
    induction Hs as [|x l Hs IH Hx]; constructor; [done|].
    eapply Forall_impl; [exact Hx|]. intros y Hy. unfold key_le in Hy.
    rewrite py_leb_Z in Hy. by apply Z.leb_le.
  - intros k w a Hin Ha. cbv zeta. apply list_elem_of_fmap in Ha as (k' & [= <- ->] & Hk').
    rewrite Hp in Hk'. apply list_elem_of_fmap in Hk' as ([k2 w2] & -> & Hk2).
    pose proof (positive_total_pos _ _ _ Hk2). lia.
Qed.

Lemma apportion_nonzero total weights (W := dict_total (positive_items weights)) :
  NoDup weights.*1 -> total <> 0 -> W <> 0 ->
  apportioned total weights
    ((fun kv => (kv.1, (if 0 <? total then 1 else -1) * kv.2)) <$>
     bump (quotas (Z.abs total) W (py_sorted (positive_items weights)))
          (bumped_keys (Z.abs total) W (py_sorted (positive_items weights)))).
Proof.
  intros Hnd Ht HW. set (items := py_sorted (positive_items weights)).
  assert (items ≡ₚ positive_items weights) as Hp by apply sorted_by_perm.
  assert (NoDup items.*1) as Hi by (rewrite Hp; by apply positive_items_NoDup).
  assert (dict_total items = W) as Hs by (unfold W, dict_total; by rewrite Hp).
  assert (0 < W) as HW' by (pose proof (positive_total_nonneg weights); unfold W in *; lia).
  set (b := bump _ _). set (sign := if 0 <? total then 1 else -1).
  assert (sign * Z.abs total = total) as Hsign.
  { unfold sign. destruct (Z.ltb_spec 0 total); lia. }
  assert (b.*1 = items.*1) as Hb.
  { unfold b. rewrite bump_keys; rewrite quotas_keys; [done|]. by apply bumped_keys_sub. }
  split.
  - unfold dict_total. rewrite sum_by_fmap. simpl. rewrite sum_by_scale.
    fold (dict_total b). unfold b. rewrite bump_quotas_total; done.
  - rewrite (fmap_keys_id (fun kv => sign * kv.2)), Hb. by rewrite Hp.
  - rewrite (fmap_keys_id (fun kv => sign * kv.2)), Hb. apply sorted_items_keys.
  - intros k w a Hin Ha. fold W. cbv zeta.
    apply list_elem_of_fmap in Ha as ([k' v] & [= -> ->] & Ha). simpl.
    assert ((k', w) ∈ items) as Hki.
    { assert (k' ∈ items.*1) as Hk by (rewrite <- Hb; apply list_elem_of_fmap; by exists (k', v)).
      apply list_elem_of_fmap in Hk as ([k2 w2] & -> & Hk2). simpl in *.
      assert ((k2, w2) ∈ weights) as Hw2 by (rewrite Hp in Hk2; by apply positive_items_pos in Hk2 as [? _]).
      pose proof (dict_elem_get _ _ _ Hnd Hw2). pose proof (dict_elem_get _ _ _ Hnd Hin).
      congruence. }
    apply dict_elem_get in Ha; [|by rewrite Hb].
    unfold b in Ha. rewrite (bump_quotas_get _ _ _ k' w) in Ha by done. injection Ha as <-.
    assert (0 < w) by (rewrite Hp in Hki; by apply positive_items_pos in Hki as [_ ?]).
    pose proof (Z.div_mod (Z.abs total * w) W HW) as Hdm.
    pose proof (Z.mod_pos_bound (Z.abs total * w) W HW') as Hmod.
    assert (0 <= Z.abs total * w / W) by (apply Z.div_pos; nia).
    assert (0 <= sign * total) by (unfold sign; destruct (Z.ltb_spec 0 total); lia).
    set (e := if decide _ then 1 else 0).
    assert (0 <= e /\ Z.abs ((Z.abs total * w / W + e) * W - Z.abs total * w) < W) as [He Hq].
    { unfold e. case_decide as Hbk; [|lia].
      pose proof (bumped_remainder_pos _ _ _ HW' Hs k' w Hi Hki Hbk). lia. }
    replace (total * w) with (sign * (Z.abs total * w)) by (rewrite Z.mul_assoc, Hsign; done).
    rewrite <- Z.mul_assoc, <- Z.mul_sub_distr_l, Z.abs_mul.
    assert (Z.abs sign = 1) as -> by (unfold sign; by destruct (0 <? total)).
    split; [lia|nia].
Qed.

Lemma apportion_integer_apportioned total weights r :
  NoDup weights.*1 -> apportion_integer total weights = Ok r -> apportioned total weights r.
Proof.
  unfold apportion_integer. intros Hnd Hr. destruct (Z.eqb_spec total 0) as [->|Ht].
  - injection Hr as <-. by apply apportion_zero.
  - inv_ok. bools. subst r. by apply apportion_nonzero.
Qed.

(** It fails exactly when a nonzero amount has no positive weight. *)
Lemma apportion_integer_ok total weights :
  (exists r, apportion_integer total weights = Ok r) <->
  total = 0 \/ dict_total (positive_items weights) <> 0.
Proof.
  unfold apportion_integer. destruct (Z.eqb_spec total 0) as [->|Ht]; [naive_solver|].
  destruct (Z.eqb_spec (dict_total (positive_items weights)) 0) as [E|E]; simpl; [|naive_solver].
  split; [by intros []|]. naive_solver.
Qed.

(** ** Slices of a day-by-day profile *)

(** Laid end to end from [c], the days occupy consecutive watt-hour ranges; a
    slice takes from each day the part of its range inside [lo, hi). *)
Definition overlap (c e lo hi : Z) : Z := Z.max 0 (Z.min hi (c + e) - Z.max lo c).

Fixpoint slice_spec (c lo hi : Z) (days : dict date Z) : dict date Z :=
  match days with
  | [] => []
  | (day, e) :: days' =>
      (if overlap c e lo hi =? 0 then [] else [(day, overlap c e lo hi)])
      ++ slice_spec (c + e) lo hi days'
  end.

Definition nonneg_days (days : dict date Z) : Prop := Forall (fun kv => 0 <= kv.2) days.

Lemma nonneg_days_total days : nonneg_days days -> 0 <= dict_total days.
Proof. intros H. apply sum_by_nonneg. intros x Hx. unfold nonneg_days in H. rewrite Forall_forall in H. auto. Qed.

Lemma slice_spec_past c lo hi days : nonneg_days days -> hi <= c -> slice_spec c lo hi days = [].
Proof.
  intros Hd; revert c; induction Hd as [|[day e] days He Hd IH]; intros c Hc; simpl; [done|].
  simpl in He. unfold overlap at 1. rewrite (proj2 (Z.eqb_eq _ 0)) by lia. apply IH. lia.
Qed.

Lemma slice_spec_lo c lo lo' hi days :
  nonneg_days days -> lo <= c -> lo' <= c -> slice_spec c lo hi days = slice_spec c lo' hi days.
Proof.
  intros Hd; revert c; induction Hd as [|[day e] days He Hd IH]; intros c H1 H2; simpl; [done|].
  simpl in He. rewrite IH by lia.
  assert (overlap c e lo hi = overlap c e lo' hi) as -> by (unfold overlap; lia). done.
Qed.

Lemma dict_total_cons {K} (k : K) v (d : dict K Z) : dict_total ((k, v) :: d) = v + dict_total d.
Proof. done. Qed.

Lemma positive_items_total days : nonneg_days days -> dict_total (positive_items days) = dict_total days.
Proof.
  unfold positive_items. induction 1 as [|[k e] days He Hd IH]; simpl; [done|].
  destruct (Z.ltb_spec 0 e); rewrite !dict_total_cons; rewrite IH; simpl in He; lia.
Qed.

Lemma slice_loop_spec c off q days :
  nonneg_days days -> 0 <= off -> 0 <= q ->
  slice_loop days off q =
  (slice_spec c (c + off) (c + off + q) days,
   Z.max 0 (off - dict_total days),
   q - Z.min q (Z.max 0 (dict_total days - off))).
Proof.
  intros Hd; revert c off q; induction Hd as [|[day e] days He Hd IH]; intros c off q Hoff Hq; simpl.
  - change (dict_total []) with 0. f_equal; [f_equal; lia|lia].
  - simpl in He. pose proof (nonneg_days_total _ Hd). rewrite dict_total_cons.
    destruct (Z.leb_spec e off) as [Hle|Hlt].
    + rewrite (IH (c + e) (off - e) q) by lia.
      assert (overlap c e (c + off) (c + off + q) = 0) as -> by (unfold overlap; lia). simpl.
      replace (c + e + (off - e)) with (c + off) by lia. f_equal; [f_equal; lia|lia].
    + assert (overlap c e (c + off) (c + off + q) = Z.min (e - off) q) as -> by (unfold overlap; lia).
      destruct (Z.eqb_spec (q - Z.min (e - off) q) 0) as [E|E].
      * rewrite slice_spec_past, app_nil_r by (done || lia). f_equal; [f_equal; lia|lia].
      * rewrite (IH (c + e) 0 (q - Z.min (e - off) q)) by lia.
        replace (c + e + 0 + (q - Z.min (e - off) q)) with (c + off + q) by lia.
        rewrite (slice_spec_lo (c + e) (c + e + 0) (c + off)) by (done || lia).
        f_equal; [f_equal; lia|lia].
Qed.

Lemma slice_spec_total c lo hi days :
  nonneg_days days ->
  dict_total (slice_spec c lo hi days) = Z.max 0 (Z.min hi (c + dict_total days) - Z.max lo c).
Proof.
  intros Hd; revert c; induction Hd as [|[day e] days He Hd IH]; intros c; simpl.
  - change (dict_total []) with 0. lia.
  - simpl in He. pose proof (nonneg_days_total _ Hd). rewrite dict_total_cons.
    assert (forall t d, dict_total ((if t =? 0 then [] else [(day, t)]) ++ d) = t + dict_total d) as Ht.
    { intros t d. destruct (Z.eqb_spec t 0) as [->|]; [simpl; lia|done]. }
    rewrite Ht, IH. unfold overlap. lia.
Qed.

Lemma slice_spec_keys c lo hi days : (slice_spec c lo hi days).*1 ⊆ days.*1.
Proof.
  revert c; induction days as [|[day e] days IH]; intros c; simpl; [done|].
  rewrite fmap_app. specialize (IH (c + e)). case_match; simpl; set_solver.
Qed.

Lemma slice_spec_NoDup c lo hi days : NoDup days.*1 -> NoDup (slice_spec c lo hi days).*1.
Proof.
  revert c; induction days as [|[day e] days IH]; intros c Hnd; simpl; [done|].
  apply NoDup_cons in Hnd as [Hday Hnd]. rewrite fmap_app. case_match; simpl; [by apply IH|].
  apply NoDup_cons. split; [|by apply IH]. intros Hin. by apply slice_spec_keys in Hin.
Qed.

Lemma slice_spec_nonneg c lo hi days : nonneg_days (slice_spec c lo hi days).
Proof.
  revert c; induction days as [|[day e] days IH]; intros c; simpl; [constructor|].
  apply Forall_app. split; [|apply IH]. case_match; repeat constructor. simpl. unfold overlap. lia.
Qed.

(** [d.get(k, 0)]. *)
Definition amount (k : date) (d : dict date Z) : Z := default 0 (dict_get k d).

Lemma amount_notin k d : k ∉ d.*1 -> amount k d = 0.
Proof. intros H. unfold amount. by rewrite (proj2 (dict_get_None _ _) H). Qed.

Lemma amount_slice_cons k c lo hi day e days :
  NoDup (day :: days.*1) ->
  amount k (slice_spec c lo hi ((day, e) :: days)) =
  if decide (k = day) then overlap c e lo hi else amount k (slice_spec (c + e) lo hi days).
Proof.
  intros [Hday Hnd]%NoDup_cons. simpl.
  destruct (decide (k = day)) as [->|Hne].
  - destruct (Z.eqb_spec (overlap c e lo hi) 0) as [->|E]; simpl.
    + apply amount_notin. intros Hin. by apply slice_spec_keys in Hin.
    + unfold amount; simpl. by rewrite decide_True.
  - case_match; simpl; [done|]. unfold amount; simpl. by rewrite decide_False.
Qed.

Lemma amount_slice_split k c lo mid hi days :
  NoDup days.*1 -> nonneg_days days -> lo <= mid <= hi ->
  amount k (slice_spec c lo mid days) + amount k (slice_spec c mid hi days)
  = amount k (slice_spec c lo hi days).
Proof.
  revert c; induction days as [|[day e] days IH]; intros c Hnd Hd Hm; [done|].
  unfold nonneg_days in Hd. apply Forall_cons in Hd as [He Hd]. simpl in He.
  rewrite !amount_slice_cons by done. apply NoDup_cons in Hnd as [_ Hnd].
  destruct (decide (k = day)); [unfold overlap; lia|]. by apply IH.
Qed.

Lemma amount_slice_all k c lo hi days :
  NoDup days.*1 -> nonneg_days days -> lo <= c -> c + dict_total days <= hi ->
  amount k (slice_spec c lo hi days) = amount k days.
Proof.
  revert c; induction days as [|[day e] days IH]; intros c Hnd Hd Hlo Hhi; [done|].
  unfold nonneg_days in Hd. apply Forall_cons in Hd as [He Hd]. simpl in He.
  rewrite dict_total_cons in Hhi. pose proof (nonneg_days_total _ Hd).
  rewrite amount_slice_cons by done. apply NoDup_cons in Hnd as [_ Hnd].
  unfold amount at 2; simpl. destruct (decide (k = day)); simpl; [unfold overlap; lia|].
  apply IH; done || lia.
Qed.

Lemma energy_slice_eq days off q :
  nonneg_days days ->
  energy_slice days off q =
  if (off <? 0) || (q <? 0) then Raise (ReplayError "DIAGNOSTIC_ALLOCATION_INVALID")
  else if off + q <=? dict_total days then Ok (slice_spec 0 off (off + q) days)
  else Raise (ReplayError "DIAGNOSTIC_ALLOCATION_BASIS_MISSING").
Proof.
  intros Hd. unfold energy_slice. pose proof (nonneg_days_total _ Hd).
  destruct ((off <? 0) || (q <? 0)) eqn:E; simpl; [done|]. bools.
  rewrite (slice_loop_spec 0) by done. simpl.
  destruct (Z.leb_spec (off + q) (dict_total days)).
  - by rewrite !(proj2 (Z.eqb_eq _ 0)) by lia.
  - destruct (Z.eqb_spec (Z.max 0 (off - dict_total days)) 0); simpl; [|done].
    by rewrite (proj2 (Z.eqb_neq _ 0)) by lia.
Qed.

(** ** Theorems *)

(** C21: largest-remainder apportionment is exact and fair.  On a dict of
    weights, either the parts are returned: they sum to the signed total, are
    keyed by the days of positive weight in date order, have the sign of the
    total, and each differs from its proportional share by less than one unit;
    or the total is nonzero, no weight is positive, and the missing-basis error
    is raised. *)
Theorem apportion_integer_exact total weights :
  NoDup weights.*1 ->
  match apportion_integer total weights with
  | Ok r => apportioned total weights r
  | Raise e => e = ReplayError "DIAGNOSTIC_ALLOCATION_BASIS_MISSING"
               /\ total <> 0 /\ Forall (fun kv => kv.2 <= 0) weights
  end.
Proof.
  intros Hnd. destruct (apportion_integer total weights) as [r|e] eqn:E.
  - by apply apportion_integer_apportioned.
  - unfold apportion_integer in E. destruct (Z.eqb_spec total 0); [done|].
    destruct (Z.eqb_spec (dict_total (positive_items weights)) 0) as [HW|]; [|done].
    simpl in E. injection E as <-. repeat split; [done|].
    apply Forall_forall. intros [k w] Hin. simpl.
    destruct (Z.le_gt_cases w 0); [done|].
    pose proof (positive_total_pos weights k w). rewrite positive_items_pos in *. naive_solver lia.
Qed.

Lemma apportion_integer_exact_witness :
  exists r, apportion_integer (-100) [(3, 1); (1, 1); (2, 1); (4, 0)] = Ok r
            /\ apportioned (-100) [(3, 1); (1, 1); (2, 1); (4, 0)] r.
Proof.
  eexists. split; [vm_compute; reflexivity|].
  apply (apportion_integer_exact (-100) [(3, 1); (1, 1); (2, 1); (4, 0)]).
  apply has_dups_false. reflexivity.
Defined.

(** Consecutive energy slices tile the profile.  On a nonnegative daily
    profile, whenever both slices are inside the profile, cutting [q1] and then
    [q2] watt-hours succeeds, each slice has exactly its quantity, and every
    day's energy in the two slices adds up to the day's energy in the joint
    slice; the slice of everything is the profile itself; and a slice that
    exceeds the profile raises the missing-basis error. *)
Theorem energy_slice_tiles days off q1 q2 :
  NoDup days.*1 -> nonneg_days days -> 0 <= off -> 0 <= q1 -> 0 <= q2 ->
  off + q1 + q2 <= dict_total days ->
  exists s1 s2 s12 all,
    energy_slice days off q1 = Ok s1 /\ energy_slice days (off + q1) q2 = Ok s2
    /\ energy_slice days off (q1 + q2) = Ok s12
    /\ energy_slice days 0 (dict_total days) = Ok all
    /\ dict_total s1 = q1 /\ dict_total s2 = q2
    /\ (forall k, amount k s1 + amount k s2 = amount k s12)
    /\ (forall k, amount k all = amount k days)
    /\ energy_slice days off (dict_total days - off + 1)
       = Raise (ReplayError "DIAGNOSTIC_ALLOCATION_BASIS_MISSING").
Proof.
  intros Hnd Hd Ho H1 H2 Hfit.
  assert (forall o q, 0 <= o -> 0 <= q -> energy_slice days o q =
    if o + q <=? dict_total days then Ok (slice_spec 0 o (o + q) days)
    else Raise (ReplayError "DIAGNOSTIC_ALLOCATION_BASIS_MISSING")) as Heq.
  { intros o q Ho' Hq'. rewrite energy_slice_eq by done.
    by rewrite !(proj2 (Z.ltb_ge _ _)) by lia. }
  assert (forall o q, 0 <= o -> 0 <= q -> o + q <= dict_total days ->
    energy_slice days o q = Ok (slice_spec 0 o (o + q) days)) as Hok.
  { intros o q ???. rewrite Heq by done. by rewrite (proj2 (Z.leb_le _ _)). }
  do 4 eexists. rewrite !Hok by lia. repeat split; try reflexivity.
  - rewrite slice_spec_total by done. lia.
  - rewrite slice_spec_total by done. lia.
  - intros k. rewrite <- Z.add_assoc. apply amount_slice_split; done || lia.
  - intros k. apply amount_slice_all; done || lia.
  - rewrite Heq by lia. by rewrite (proj2 (Z.leb_gt _ _)) by lia.
Qed.

Lemma energy_slice_tiles_witness :
  exists s1, energy_slice [(1, 5); (2, 0); (3, 7)] 2 4 = Ok s1 /\ dict_total s1 = 4.
Proof.
  destruct (energy_slice_tiles [(1, 5); (2, 0); (3, 7)] 2 4 3) as (s1 & ? & ? & ? & H1 & _ & _ & _ & H2 & _).
  - apply has_dups_false. reflexivity.
  - repeat constructor; simpl; lia.
  - lia.
  - lia.
  - lia.
  - vm_compute. discriminate.
  - by exists s1.
Defined.
