(* ===== verification/DayEnergy.v ===== *)
(** * DayEnergy: replay requests and energy by period and local day (tariffs/billing.py)

    The request models with their validators, time-of-use classification of an
    interval, and the division of interval energy over local service days.
    Instants are microseconds since the epoch; the time zone is a [ZoneInfo]. *)

From S2P Require Import Prelude Calendar Json Schema Compiled Fixtures Eligibility Apportion.

(** ** Requests *)
Record UserUnsupportedLine := {
  ul_line_item_key : string; description : string; amount_cents : Z
}.

Record ReplayRequestBase := {
  profile_content_sha256 : string;
  account_facts : AccountFacts;
  energy_wh : Z;
  current_bill_total_cents : option Z;
  user_unsupported_lines : list UserUnsupportedLine
}.

Definition canonicalize_unsupported_lines (values : list UserUnsupportedLine)
    : result (list UserUnsupportedLine) :=
  _ ← raise_if (has_dups (ul_line_item_key <$> values))
        (ValidationError "user unsupported line keys must be unique");
  Ok (sorted_by ul_line_item_key values).

Definition validate_reconciliation_inputs (r : ReplayRequestBase) : result unit :=
  raise_if (bool_decide (current_bill_total_cents r = None)
            && negb (bool_decide (length (user_unsupported_lines r) = 0%nat)))
    (ReplayError "UNSUPPORTED_LINES_REQUIRE_BILL_TOTAL").

Record ReplayInterval := {
  start_utc_ns : Z; duration_seconds : Z; interval_energy_wh : Z
}.

(** The field constraints [ge=0], [gt=0], [le=3600]. *)
Definition ReplayInterval_fields_ok (i : ReplayInterval) : bool :=
  (0 <=? start_utc_ns i) && (0 <? duration_seconds i) && (duration_seconds i <=? 3600)
  && (0 <=? interval_energy_wh i).

(** [ReplayRequest | IntervalReplayRequest]. *)
Inductive AnyReplayRequest :=
| ReplayRequest (base : ReplayRequestBase)
| IntervalReplayRequest (base : ReplayRequestBase) (intervals : list ReplayInterval)
    (dated_eligibility_facts : option DatedEligibilityFacts).

Definition request_base (r : AnyReplayRequest) : ReplayRequestBase :=
  match r with ReplayRequest b => b | IntervalReplayRequest b _ _ => b end.

Definition NS_PER_SECOND : Z := 1000000000.
Definition interval_end_ns (i : ReplayInterval) : Z :=
  start_utc_ns i + duration_seconds i * NS_PER_SECOND.

Definition check_interval (previous_end_ns : Z) (i : ReplayInterval) : result Z :=
  _ ← raise_if (negb (start_utc_ns i mod NS_PER_SECOND =? 0))
        (ValidationError "interval starts must align to whole UTC seconds");
  _ ← raise_if (start_utc_ns i <? previous_end_ns)
        (ValidationError "replay intervals must be sorted and disjoint");
  Ok (interval_end_ns i).

Definition validate_intervals (b : ReplayRequestBase) (intervals : list ReplayInterval)
    : result unit :=
  _ ← raise_if (negb (sum_by interval_energy_wh intervals =? energy_wh b))
        (ValidationError "interval energy must equal total energy");
  _ ← foldM check_interval (-1) intervals;
  Ok tt.

(** A request as pydantic admits it. *)
Definition request_valid (r : AnyReplayRequest) : bool :=
  (0 <=? energy_wh (request_base r))
  && match r with
     | ReplayRequest _ => true
     | IntervalReplayRequest b intervals _ =>
         forallb ReplayInterval_fields_ok intervals
         && match validate_intervals b intervals with Ok _ => true | Raise _ => false end
     end.

(** ** Time-of-use classification *)
Definition window_matches (s : IRTimeOfUseSchedule) (w : Z) (window : IRTimeOfUseWindow) : bool :=
  let day_matches :=
    bool_decide (irw_day_selector window = EVERY_DAY)
    || (bool_decide (irw_day_selector window = NONHOLIDAY_WEEKDAY)
        && (weekday (wall_date w) <? 5)
        && negb (mem (isoformat (wall_date w)) (holiday_dates s))) in
  day_matches && (irw_start_minute_inclusive window <=? wall_minute w)
  && (wall_minute w <? irw_end_minute_exclusive window).

(** [local_start] is a wall-clock time in microseconds. *)
Definition classify_local_period (s : IRTimeOfUseSchedule) (local_start : Z) : TimeOfUsePeriod :=
  match find (window_matches s local_start) (windows s) with
  | Some w => irw_period w
  | None => default_period s
  end.

Definition resolve_time_schedule (bundle : CompilationBundle) (id : string)
    : result IRTimeOfUseSchedule :=
  match List.filter (fun s => String.eqb (rule_id (ir_ts_base s)) id)
          (omap as_schedule (operators (ir bundle))) with
  | [s] => Ok s
  | _ => Raise (ReplayError "TOU_SCHEDULE_AMBIGUITY")
  end.

Section Billing.
Context `{ZoneInfo}.

Definition classify_interval_period (s : IRTimeOfUseSchedule) (start_utc duration : Z)
    (window : DateRange) : result TimeOfUsePeriod :=
  end_utc ← datetime_check (start_utc + duration * US_PER_SECOND);
  local_start ← astimezone start_utc;
  final_instant ← datetime_check (end_utc - 1);
  local_final_instant ← astimezone final_instant;
  let start_period := classify_local_period s local_start in
  let end_period := classify_local_period s local_final_instant in
  _ ← raise_if (negb (bool_decide (start_period = end_period)))
        (ReplayError "INTERVAL_CROSSES_TARIFF_BOUNDARY");
  _ ← raise_if (negb (contains window (wall_date local_start))
                || negb (contains window (wall_date local_final_instant)))
        (ReplayError "INTERVAL_OUTSIDE_SERVICE_WINDOW");
  Ok start_period.

(** [datetime.fromtimestamp(start_utc_ns // 1_000_000_000, tz=UTC)]. *)
Definition interval_start (i : ReplayInterval) : result Z :=
  fromtimestamp (start_utc_ns i / NS_PER_SECOND).

Definition interval_period (s : IRTimeOfUseSchedule) (window : DateRange) (i : ReplayInterval)
    : result TimeOfUsePeriod :=
  start_utc ← interval_start i;
  classify_interval_period s start_utc (duration_seconds i) window.

Definition period_energy_of (s : IRTimeOfUseSchedule) (window : DateRange)
    (intervals : list ReplayInterval) : result (dict TimeOfUsePeriod Z) :=
  foldM (fun totals i => p ← interval_period s window i;
                         Ok (dict_add p (interval_energy_wh i) totals)) [] intervals.

Definition period_energy (r : AnyReplayRequest) (s : IRTimeOfUseSchedule)
    : result (dict TimeOfUsePeriod Z) :=
  match r with
  | ReplayRequest _ => Raise (ReplayError "INTERVAL_DATA_REQUIRED")
  | IntervalReplayRequest b intervals _ =>
      period_energy_of s (service_window (account_facts b)) intervals
  end.

(** ** Division over local days *)

(** One round of the [while cursor < end_utc] loop. *)
Definition day_segment (window : DateRange) (cursor end_utc : Z) : result (date * Z * Z) :=
  local_cursor ← astimezone cursor;
  let service_day := wall_date local_cursor in
  _ ← raise_if (negb (contains window service_day)) (ReplayError "INTERVAL_OUTSIDE_SERVICE_WINDOW");
  next_day ← date_succ service_day;
  next_midnight ← midnight_utc next_day;
  let segment_end := Z.min end_utc next_midnight in
  let seconds := Z.quot (segment_end - cursor) US_PER_SECOND in
  _ ← raise_if (seconds <=? 0) (ReplayError "DIAGNOSTIC_INTERVAL_INVALID");
  Ok (service_day, seconds, segment_end).

Fixpoint segment_loop (fuel : nat) (window : DateRange) (cursor end_utc : Z)
    (segments : dict date Z) : result (dict date Z) :=
  if cursor <? end_utc then
    match fuel with
    | O => Raise (PyError "FuelExhausted")
    | S fuel' =>
        seg ← day_segment window cursor end_utc;
        let '(service_day, seconds, segment_end) := seg in
        segment_loop fuel' window segment_end end_utc (dict_add service_day seconds segments)
    end
  else Ok segments.

(** A round consumes at least one second, so the duration bounds the rounds. *)
Definition segment_seconds (i : ReplayInterval) (window : DateRange) : result (dict date Z) :=
  start_utc ← interval_start i;
  end_utc ← datetime_check (start_utc + duration_seconds i * US_PER_SECOND);
  segment_loop (Z.to_nat (duration_seconds i)) window start_utc end_utc [].

Definition interval_daily_energy (i : ReplayInterval) (window : DateRange)
    : result (dict date Z) :=
  segments ← segment_seconds i window;
  apportion_integer (interval_energy_wh i) segments.

(** [for day, wh in parts.items(): totals[day] = totals.get(day, 0) + wh]. *)
Definition dict_add_all {K} `{EqDecision K} (parts totals : dict K Z) : dict K Z :=
  foldl (fun d kv => dict_add kv.1 kv.2 d) totals parts.

Definition daily_energy_of (window : DateRange) (intervals : list ReplayInterval)
    : result (dict date Z) :=
  totals ← foldM (fun totals i => parts ← interval_daily_energy i window;
                                  Ok (dict_add_all parts totals)) [] intervals;
  Ok (py_sorted totals).

Definition period_daily_energy_of (s : IRTimeOfUseSchedule) (window : DateRange)
    (intervals : list ReplayInterval) : result (dict TimeOfUsePeriod (dict date Z)) :=
  totals ← foldM (fun totals i =>
                    p ← interval_period s window i;
                    let '(by_day, totals') := dict_setdefault p [] totals in
                    parts ← interval_daily_energy i window;
                    Ok (dict_set p (dict_add_all parts by_day) totals')) [] intervals;
  Ok ((fun pd => (pd.1, py_sorted pd.2))
        <$> sorted_by (fun pd : TimeOfUsePeriod * dict date Z => period_str pd.1) totals).
End Billing.

(** ** Lemmas on accumulated dictionaries *)
Section Accumulate.
Context {K : Type} `{EqDecision K}.
Implicit Types (d parts totals : dict K Z).

Lemma dict_add_all_total parts totals :
  dict_total (dict_add_all parts totals) = dict_total totals + dict_total parts.
Proof.
  unfold dict_add_all. revert totals; induction parts as [|[k v] parts IH]; intros totals; simpl.
  - change (dict_total []) with 0. lia.
  - rewrite IH, dict_add_total, dict_total_cons. lia.
Qed.

Lemma dict_add_all_NoDup parts totals : NoDup totals.*1 -> NoDup (dict_add_all parts totals).*1.
Proof.
  unfold dict_add_all. revert totals; induction parts as [|[k v] parts IH]; intros totals Hnd; [done|].
  simpl. apply IH. by apply dict_set_NoDup.
Qed.

Lemma dict_add_all_get parts totals k : NoDup parts.*1 ->
  default 0 (dict_get k (dict_add_all parts totals)) =
  default 0 (dict_get k totals) + default 0 (dict_get k parts).
Proof.
  unfold dict_add_all. revert totals; induction parts as [|[k' v] parts IH]; intros totals Hnd; simpl.
  - lia.
  - apply NoDup_cons in Hnd as [Hk' Hnd]. rewrite IH, dict_add_get by done. simpl.
    destruct (decide (k = k')) as [->|Hne].
    + rewrite decide_True by done. rewrite (proj2 (dict_get_None _ _) Hk'). simpl. lia.
    + rewrite decide_False by done. lia.
Qed.

Lemma dict_add_all_keys parts totals k :
  k ∈ (dict_add_all parts totals).*1 <-> k ∈ totals.*1 \/ k ∈ parts.*1.
Proof.
  unfold dict_add_all. revert totals; induction parts as [|[k' v] parts IH]; intros totals; simpl;
    [set_solver|].
  rewrite IH. unfold dict_add. destruct (decide (k' ∈ totals.*1)) as [Hin|Hnin].
  - rewrite dict_set_keys_in by done. set_solver.
  - rewrite dict_set_keys_new by done. set_solver.
Qed.

Lemma dict_get_perm {V} (d1 d2 : dict K V) k :
  NoDup d1.*1 -> d1 ≡ₚ d2 -> dict_get k d1 = dict_get k d2.
Proof.
  intros Hnd Hp. assert (NoDup d2.*1) as Hnd2 by by rewrite <- Hp.
  destruct (dict_get k d2) as [v|] eqn:E.
  - apply dict_get_elem in E. rewrite <- Hp in E. by apply dict_elem_get.
  - apply dict_get_None in E. apply dict_get_None. by rewrite Hp.
Qed.
End Accumulate.

Lemma dict_nonneg_set k v (d : dict date Z) :
  0 <= v -> nonneg_days d -> nonneg_days (dict_set k v d).
Proof.
  intros Hv Hd. induction Hd as [|[k' v'] d Hv' Hd IH]; simpl; [by repeat constructor|].
  case_decide; constructor; done.
Qed.

Lemma nonneg_days_get k (d : dict date Z) : nonneg_days d -> 0 <= default 0 (dict_get k d).
Proof.
  intros Hd. destruct (dict_get k d) as [v|] eqn:E; [|done]. apply dict_get_elem in E.
  unfold nonneg_days in Hd. rewrite Forall_forall in Hd. exact (Hd _ E).
Qed.

Lemma dict_add_all_nonneg (parts totals : dict date Z) :
  nonneg_days parts -> nonneg_days totals -> nonneg_days (dict_add_all parts totals).
Proof.
  intros Hp; revert totals; induction Hp as [|[k v] parts Hv Hp IH]; intros totals Ht; [done|].
  apply IH. simpl in Hv. apply dict_nonneg_set; [|done].
  pose proof (nonneg_days_get k totals Ht). simpl. lia.
Qed.

(** ** Day splitting *)
Section DaySplit.
Context `{ZoneInfo}.

Lemma day_segment_ok window cursor end_utc day secs se :
  day_segment window cursor end_utc = Ok (day, secs, se) ->
  day = local_date cursor /\ contains window day = true
  /\ se = Z.min end_utc (localized ((day + 1) * US_PER_DAY))
  /\ secs = Z.quot (se - cursor) US_PER_SECOND /\ 0 < secs.
Proof.
  unfold day_segment. intros E.
  apply bind_ok in E as (lc & Hlc & E). apply bind_ok in E as (u1 & Hc & E).
  apply bind_ok in E as (nd & Hnd & E). apply bind_ok in E as (nm & Hnm & E).
  apply bind_ok in E as (u2 & Hs & E). inv_ok. bools.
  apply datetime_check_ok in Hlc as [-> _]. apply datetime_check_ok in Hnm as [-> _].
  unfold date_succ in Hnd. case_match; [done|]. simplify_eq. done.
Qed.

Lemma quot_positive a : 0 < Z.quot a US_PER_SECOND -> US_PER_SECOND <= a.
Proof.
  intros Hq. destruct (Z.le_gt_cases US_PER_SECOND a); [done|exfalso].
  destruct (Z.le_gt_cases 0 a).
  - rewrite Z.quot_small in Hq; lia.
  - pose proof (Z.quot_opp_l (- a) US_PER_SECOND ltac:(done)) as Ho.
    rewrite Z.opp_involutive in Ho. pose proof (Z.quot_pos (- a) US_PER_SECOND). 
    assert (0 < US_PER_SECOND) by done. lia.
Qed.

Lemma segment_loop_fuel fuel window cursor end_utc segments :
  end_utc - cursor <= Z.of_nat fuel * US_PER_SECOND ->
  segment_loop fuel window cursor end_utc segments <> Raise (PyError "FuelExhausted").
Proof.
  revert cursor segments; induction fuel as [|fuel IH]; intros cursor segments Hf; simpl.
  - destruct (Z.ltb_spec cursor end_utc); [lia|done].
  - destruct (Z.ltb_spec cursor end_utc); [|done].
    destruct (day_segment window cursor end_utc) as [[[day secs] se]|e] eqn:E; simpl.
    + apply IH. apply day_segment_ok in E as (_ & _ & _ & -> & Hs).
      apply quot_positive in Hs. lia.
    + unfold day_segment, astimezone, midnight_utc, datetime_check, date_succ, raise_if, mbind,
        result_bind in E.
      intros [= ->]. repeat case_match; simplify_eq.
Qed.

(** What the loop accumulates: days of the window, whole seconds that add up. *)
Definition segments_inv (window : DateRange) (segments : dict date Z) : Prop :=
  NoDup segments.*1 /\ nonneg_days segments
  /\ Forall (fun day => contains window day = true) segments.*1.

Lemma segments_inv_add window segments day secs :
  segments_inv window segments -> contains window day = true -> 0 <= secs ->
  segments_inv window (dict_add day secs segments).
Proof.
  intros (Hnd & Hnn & Hw) Hc Hs. unfold dict_add. split; [by apply dict_set_NoDup|]. split.
  - apply dict_nonneg_set; [|done]. pose proof (nonneg_days_get day segments Hnn). lia.
  - destruct (decide (day ∈ segments.*1)).
    + by rewrite dict_set_keys_in.
    + rewrite dict_set_keys_new by done. apply Forall_app. by repeat constructor.
Qed.

Lemma segment_loop_inv fuel window cursor end_utc segments r :
  segments_inv window segments ->
  segment_loop fuel window cursor end_utc segments = Ok r ->
  segments_inv window r /\ dict_total segments <= dict_total r
  /\ (cursor < end_utc -> dict_total segments < dict_total r).
Proof.
  revert cursor segments; induction fuel as [|fuel IH]; intros cursor segments Hi Hr; simpl in Hr;
    destruct (Z.ltb_spec cursor end_utc); try done.
  - simplify_eq. split; [done|]. lia.
  - apply bind_ok in Hr as ([[day secs] se] & Hseg & Hr).
    apply day_segment_ok in Hseg as (_ & Hc & _ & _ & Hs).
    apply IH in Hr as (Hri & Hle & _); [|by apply segments_inv_add; [..|lia]].
    rewrite dict_add_total in Hle. split; [done|]. lia.
  - simplify_eq. split; [done|]. lia.
Qed.

Lemma segments_inv_nil window : segments_inv window [].
Proof. repeat constructor. Qed.

(** Days returned for one interval. *)
Lemma interval_daily_energy_ok i window d :
  0 <= interval_energy_wh i ->
  interval_daily_energy i window = Ok d ->
  dict_total d = interval_energy_wh i /\ segments_inv window d.
Proof.
  intros He Hd. unfold interval_daily_energy in Hd. apply bind_ok in Hd as (segs & Hs & Ha).
  unfold segment_seconds in Hs. apply bind_ok in Hs as (st & _ & Hs).
  apply bind_ok in Hs as (en & _ & Hs).
  apply segment_loop_inv in Hs as ((Hnd & Hnn & Hw) & _); [|apply segments_inv_nil].
  apply apportion_integer_apportioned in Ha as [Ht Hk _ Hq]; [|done].
  split; [done|]. assert (NoDup d.*1) as Hnd' by (rewrite Hk; by apply positive_items_NoDup).
  assert (forall k a, (k, a) ∈ d -> exists w, (k, w) ∈ segs) as Hin.
  { intros k a Hka. assert (k ∈ d.*1) as Hkd by (apply list_elem_of_fmap; by exists (k, a)).
    rewrite Hk in Hkd. apply list_elem_of_fmap in Hkd as ([k' w] & -> & Hin).
    apply positive_items_pos in Hin as [? _]. eauto. }
  split; [done|]. split; apply Forall_forall.
  - intros [k a] Hka. simpl. destruct (Hin _ _ Hka) as [w Hkw].
    destruct (Hq k w a Hkw Hka) as [Hb Hs'].
    destruct (Z.eq_dec (interval_energy_wh i) 0) as [E|E]; [|nia].
    rewrite E in Hb. nia.
  - intros k Hkd. apply list_elem_of_fmap in Hkd as ([k' a] & -> & Hka).
    destruct (Hin _ _ Hka) as [w Hkw]. rewrite Forall_forall in Hw. apply Hw.
    apply list_elem_of_fmap. by exists (k', w).
Qed.
End DaySplit.

(** Under the zone laws the loop succeeds and accounts for every second. *)
Section DaySplitTotal.
Context `{ZoneLaws}.

Definition well_inside (t : Z) : Prop :=
  instant_min + 4 * US_PER_DAY <= t <= instant_max - 4 * US_PER_DAY.

Lemma local_date_range t :
  local_date t * US_PER_DAY <= t + utcoffset t < (local_date t + 1) * US_PER_DAY.
Proof. by apply local_date_bounds. Qed.

Lemma day_segment_total window cursor end_utc :
  well_inside cursor -> cursor < end_utc -> cursor mod US_PER_SECOND = 0 ->
  end_utc mod US_PER_SECOND = 0 -> contains window (local_date cursor) = true ->
  let se := Z.min end_utc (localized ((local_date cursor + 1) * US_PER_DAY)) in
  day_segment window cursor end_utc
  = Ok (local_date cursor, (se - cursor) / US_PER_SECOND, se)
  /\ cursor < se <= end_utc /\ se mod US_PER_SECOND = 0.
Proof.
  intros Hin Hlt Hc He Hw. cbv zeta.
  pose proof (local_date_range cursor) as Hd. pose proof (zone_offset_bound cursor) as Ho.
  pose proof (zone_next_midnight cursor) as Hm.
  pose proof (zone_localized_bound ((local_date cursor + 1) * US_PER_DAY)) as Hl.
  pose proof (zone_whole_seconds (local_date cursor + 1)) as Hs.
  set (nm := localized _) in *. set (day := local_date cursor) in *.
  assert (Z.min end_utc nm mod US_PER_SECOND = 0) as Hse.
  { destruct (Z.min_spec end_utc nm) as [[_ ->]|[_ ->]]; done. }
  assert ((Z.min end_utc nm - cursor) mod US_PER_SECOND = 0) as Hdiff.
  { rewrite Zminus_mod, Hse, Hc. done. }
  assert (0 < (Z.min end_utc nm - cursor) / US_PER_SECOND) as Hpos.
  { assert (0 < US_PER_SECOND) as Hus by done.
    pose proof (Z.div_mod (Z.min end_utc nm - cursor) US_PER_SECOND). nia. }
  repeat split; [|lia|lia|done].
  unfold day_segment, astimezone, midnight_utc, date_succ, well_inside, datetime_check in *.
  unfold instant_min, instant_max, date_min, date_max in *.
  assert (0 < US_PER_DAY) by done.
  rewrite !(proj2 (Z.ltb_ge _ _)) by (unfold date_max in *; lia). simpl.
  fold (local_date cursor). fold day. rewrite Hw. simpl.
  rewrite (proj2 (Z.leb_gt _ _)) by nia. simpl. fold nm.
  rewrite !(proj2 (Z.ltb_ge _ _)) by nia. simpl.
  rewrite Z.quot_div_nonneg by (done || lia).
  by rewrite (proj2 (Z.leb_gt _ _)) by lia.
Qed.

Lemma segment_loop_total fuel window cursor end_utc segments :
  well_inside cursor -> well_inside end_utc -> cursor <= end_utc ->
  cursor mod US_PER_SECOND = 0 -> end_utc mod US_PER_SECOND = 0 ->
  (forall t, cursor <= t < end_utc -> contains window (local_date t) = true) ->
  end_utc - cursor <= Z.of_nat fuel * US_PER_SECOND ->
  exists r, segment_loop fuel window cursor end_utc segments = Ok r
    /\ dict_total r * US_PER_SECOND = dict_total segments * US_PER_SECOND + (end_utc - cursor).
Proof.
  revert cursor segments; induction fuel as [|fuel IH]; intros cursor segments Hc He Hle Hcm Hem Hw Hf.
  - simpl. exists segments. rewrite (proj2 (Z.ltb_ge _ _)) by lia. split; [done|]. lia.
  - destruct (Z.lt_ge_cases cursor end_utc) as [Hlt|Hge].
    2: { exists segments. simpl. rewrite (proj2 (Z.ltb_ge _ _)) by lia. split; [done|]. lia. }
    destruct (day_segment_total window cursor end_utc Hc Hlt Hcm Hem) as (Hseg & Hse & Hsm);
      [apply Hw; lia|].
    set (se := Z.min _ _) in *.
    pose proof (Z.div_mod (se - cursor) US_PER_SECOND ltac:(done)) as Hdm.
    rewrite (Zminus_mod se cursor), Hsm, Hcm in Hdm. change ((0 - 0) mod US_PER_SECOND) with 0 in Hdm.
    assert (US_PER_SECOND <= se - cursor) by (clear -Hdm Hse; unfold US_PER_SECOND in *; lia).
    destruct (IH se (dict_add (local_date cursor) ((se - cursor) / US_PER_SECOND) segments))
      as (r & Hr & Ht); try done; try lia.
    { unfold well_inside in *. lia. }
    { intros t Ht. apply Hw. lia. }
    exists r. split; [|rewrite Ht, dict_add_total; lia].
    simpl. rewrite (proj2 (Z.ltb_lt _ _)) by done. rewrite Hseg. done.
Qed.

Lemma interval_daily_energy_total i window :
  ReplayInterval_fields_ok i = true -> start_utc_ns i mod NS_PER_SECOND = 0 ->
  let start := start_utc_ns i / NS_PER_SECOND * US_PER_SECOND in
  let end_utc := start + duration_seconds i * US_PER_SECOND in
  end_utc <= instant_max - 4 * US_PER_DAY ->
  (forall t, start <= t < end_utc -> contains window (local_date t) = true) ->
  exists segs d, segment_seconds i window = Ok segs /\ interval_daily_energy i window = Ok d
    /\ dict_total segs = duration_seconds i /\ dict_total d = interval_energy_wh i
    /\ segments_inv window d.
Proof.
  intros Hok Hal start end_utc Hmax Hw. unfold ReplayInterval_fields_ok in Hok. bools.
  assert (0 <= start) by (unfold start; apply Z.mul_nonneg_nonneg; [apply Z.div_pos|]; done).
  assert (interval_start i = Ok start) as Hst.
  { unfold interval_start, fromtimestamp, start.
    unfold end_utc, start, instant_max, instant_min, date_max, US_PER_DAY, US_PER_SECOND in *.
    rewrite !(proj2 (Z.ltb_ge _ _)); [done|unfold date_min; lia..]. }
  assert (datetime_check end_utc = Ok end_utc) as Hen.
  { unfold datetime_check. unfold instant_min, instant_max, US_PER_DAY, US_PER_SECOND in *.
    unfold end_utc, date_min, date_max in *.
    rewrite !(proj2 (Z.ltb_ge _ _)); [done|lia..]. }
  destruct (segment_loop_total (Z.to_nat (duration_seconds i)) window start end_utc [])
    as (segs & Hs & Ht).
  - unfold well_inside, instant_min, date_min, end_utc, US_PER_DAY, US_PER_SECOND in *. lia.
  - unfold well_inside, instant_min, date_min, end_utc, US_PER_DAY, US_PER_SECOND in *. lia.
  - unfold end_utc, US_PER_SECOND. lia.
  - unfold start. apply Z_mod_mult.
  - unfold end_utc, start. rewrite <- Z.mul_add_distr_r. apply Z_mod_mult.
  - done.
  - unfold end_utc. lia.
  - change (dict_total []) with 0 in Ht.
    assert (dict_total segs = duration_seconds i) as Hds by (unfold end_utc, US_PER_SECOND in Ht; lia).
    assert (segment_seconds i window = Ok segs) as Hss.
    { unfold segment_seconds. rewrite Hst. simpl. fold end_utc. rewrite Hen. done. }
    destruct (segment_loop_inv _ _ _ _ _ _ (segments_inv_nil window) Hs) as ((Hnd & Hnn & _) & _).
    destruct (proj2 (apportion_integer_ok (interval_energy_wh i) segs)) as [d Hd].
    { right. rewrite positive_items_total by done. lia. }
    exists segs, d. assert (interval_daily_energy i window = Ok d) as Hid.
    { unfold interval_daily_energy. by rewrite Hss. }
    repeat split; try done; by eapply interval_daily_energy_ok.
Qed.
End DaySplitTotal.

(** ** Totals by period and by day *)
Section Totals.
Context `{ZoneInfo} (s : IRTimeOfUseSchedule) (window : DateRange).

(** The energy an interval contributes to a period, and to a day. *)
Definition period_share (p : TimeOfUsePeriod) (i : ReplayInterval) : Z :=
  match interval_period s window i with
  | Ok p' => if decide (p' = p) then interval_energy_wh i else 0
  | Raise _ => 0
  end.
Definition day_share (k : date) (i : ReplayInterval) : Z :=
  match interval_daily_energy i window with Ok d => amount k d | Raise _ => 0 end.

Lemma period_energy_of_ok intervals totals :
  period_energy_of s window intervals = Ok totals ->
  NoDup totals.*1 /\ dict_total totals = sum_by interval_energy_wh intervals
  /\ (forall p, default 0 (dict_get p totals) = sum_by (period_share p) intervals).
Proof.
  unfold period_energy_of. intros Hr. revert Hr.
  apply (foldM_prefix_inv _ (fun done totals => NoDup totals.*1
    /\ dict_total totals = sum_by interval_energy_wh done
    /\ (forall p, default 0 (dict_get p totals) = sum_by (period_share p) done))).
  - repeat split; constructor.
  - intros done i t t' _ (Hnd & Ht & Hg) Hf. apply bind_ok in Hf as (p & Hp & [= <-]).
    rewrite dict_add_total, sum_by_snoc, Ht. split; [by apply dict_set_NoDup|]. split; [done|].
    intros p'. rewrite dict_add_get, Hg, sum_by_snoc. f_equal. unfold period_share. by rewrite Hp.
Qed.

Lemma period_energy_of_all intervals totals :
  period_energy_of s window intervals = Ok totals ->
  Forall (fun i => exists p, interval_period s window i = Ok p) intervals.
Proof.
  unfold period_energy_of. generalize (@nil (TimeOfUsePeriod * Z)).
  induction intervals as [|i intervals IH]; intros d Hr; simpl in Hr; constructor.
  - apply bind_ok in Hr as (t & Ht & _). apply bind_ok in Ht as (p & Hp & _). eauto.
  - apply bind_ok in Hr as (t & _ & Hr). by eapply IH.
Qed.

Lemma sorted_dict_get {V} `{PyOrd (date * V)} (d : dict date V) k :
  NoDup d.*1 -> dict_get k (py_sorted d) = dict_get k d.
Proof.
  intros Hnd. symmetry. apply dict_get_perm; [done|]. symmetry. apply sorted_by_perm.
Qed.

Lemma segments_inv_perm d d' : d ≡ₚ d' -> segments_inv window d -> segments_inv window d'.
Proof. intros Hp. unfold segments_inv, nonneg_days. by rewrite Hp. Qed.

Lemma segments_inv_add_all parts totals :
  segments_inv window parts -> segments_inv window totals ->
  segments_inv window (dict_add_all parts totals).
Proof.
  intros (_ & Hn1 & Hw1) (Hnd & Hn2 & Hw2). split; [by apply dict_add_all_NoDup|]. split.
  - by apply dict_add_all_nonneg.
  - apply Forall_forall. intros k. rewrite dict_add_all_keys.
    rewrite Forall_forall in Hw1, Hw2. intros [Hk|Hk]; [by apply Hw2|by apply Hw1].
Qed.

Lemma daily_energy_of_ok intervals d :
  Forall (fun i => 0 <= interval_energy_wh i) intervals ->
  daily_energy_of window intervals = Ok d ->
  dict_total d = sum_by interval_energy_wh intervals /\ segments_inv window d
  /\ StronglySorted Z.le d.*1 /\ (forall k, amount k d = sum_by (day_share k) intervals).
Proof.
  intros Hnn Hd. unfold daily_energy_of in Hd. apply bind_ok in Hd as (totals & Hf & [= <-]).
  revert Hf.
  assert (py_sorted totals ≡ₚ totals) as Hp by apply sorted_by_perm.
  intros Hf. enough (dict_total totals = sum_by interval_energy_wh intervals
    /\ segments_inv window totals
    /\ (forall k, amount k totals = sum_by (day_share k) intervals)) as (Ht & Hi & Hk).
  { split; [unfold dict_total in *; by rewrite Hp|].
    split; [by apply (segments_inv_perm totals)|]. split; [apply sorted_items_keys|].
    intros k. rewrite <- Hk. unfold amount. rewrite sorted_dict_get; [done|apply Hi]. }
  revert Hf. apply (foldM_prefix_inv _ (fun done totals =>
    dict_total totals = sum_by interval_energy_wh done /\ segments_inv window totals
    /\ (forall k, amount k totals = sum_by (day_share k) done))).
  - split; [done|]. split; [apply segments_inv_nil|done].
  - intros done i t t' [todo ->] (Ht & Hi & Hk) Hf. apply bind_ok in Hf as (parts & Hparts & [= <-]).
    apply Forall_app in Hnn as [_ Hnn]. apply Forall_cons in Hnn as [Hi0 _].
    apply interval_daily_energy_ok in Hparts as Hp'; [|done]. destruct Hp' as [Hpt Hpi].
    rewrite dict_add_all_total, sum_by_snoc. split; [lia|]. split; [by apply segments_inv_add_all|].
    intros k. rewrite sum_by_snoc, <- Hk. unfold amount, day_share.
    rewrite dict_add_all_get, Hparts by apply Hpi. done.
Qed.

Lemma sum_by_dict_set {K V} `{EqDecision K} (f : V -> Z) (k : K) v (d : dict K V) :
  sum_by (fun kv => f kv.2) (dict_set k v d) =
  sum_by (fun kv => f kv.2) d + f v - match dict_get k d with Some v0 => f v0 | None => 0 end.
Proof.
  induction d as [|[k' v'] d IH]; simpl.
  - rewrite sum_by_cons, !sum_by_nil. simpl. lia.
  - destruct (decide (k = k')); rewrite !sum_by_cons; simpl; lia.
Qed.

(** [by_day = totals.setdefault(p, {})] followed by updates of [by_day]. *)
Definition update_period (p : TimeOfUsePeriod) (parts : dict date Z)
    (totals : dict TimeOfUsePeriod (dict date Z)) : dict TimeOfUsePeriod (dict date Z) :=
  let '(by_day, totals') := dict_setdefault p [] totals in
  dict_set p (dict_add_all parts by_day) totals'.

Lemma update_period_get p p' parts totals :
  default [] (dict_get p' (update_period p parts totals)) =
  if decide (p = p') then dict_add_all parts (default [] (dict_get p totals))
  else default [] (dict_get p' totals).
Proof.
  unfold update_period, dict_setdefault. destruct (dict_get p totals) as [v|] eqn:E; simpl;
    (destruct (decide (p = p')) as [->|Hne]; [by rewrite dict_get_set_eq|]).
  - by rewrite dict_get_set_ne.
  - by rewrite !dict_get_set_ne.
Qed.

Lemma update_period_sum k p parts totals : NoDup parts.*1 ->
  sum_by (fun pd => amount k pd.2) (update_period p parts totals) =
  sum_by (fun pd => amount k pd.2) totals + amount k parts.
Proof.
  intros Hnd. unfold update_period, dict_setdefault, amount.
  destruct (dict_get p totals) as [v|] eqn:E;
    rewrite (sum_by_dict_set (fun d => default 0 (dict_get k d))), dict_add_all_get by done.
  - rewrite E. lia.
  - rewrite dict_get_set_eq, (sum_by_dict_set (fun d => default 0 (dict_get k d))), E. simpl. lia.
Qed.

Lemma update_period_NoDup p parts totals :
  NoDup totals.*1 -> NoDup (update_period p parts totals).*1.
Proof.
  intros Hnd. unfold update_period, dict_setdefault. case_match; simplify_eq; case_match; simplify_eq;
    auto using dict_set_NoDup.
Qed.
End Totals.

Section Consistency.
Context `{ZoneInfo} (s : IRTimeOfUseSchedule) (window : DateRange).

(** Loop invariant of [_period_daily_energy]. *)
Definition period_daily_inv (done : list ReplayInterval)
    (totals : dict TimeOfUsePeriod (dict date Z)) : Prop :=
  NoDup totals.*1
  /\ (forall p, segments_inv window (default [] (dict_get p totals)))
  /\ (forall p, dict_total (default [] (dict_get p totals)) = sum_by (period_share s window p) done)
  /\ (forall k, sum_by (fun pd => amount k pd.2) totals = sum_by (day_share window k) done).

Lemma period_daily_step done i p parts totals :
  interval_period s window i = Ok p -> interval_daily_energy i window = Ok parts ->
  0 <= interval_energy_wh i ->
  period_daily_inv done totals -> period_daily_inv (done ++ [i]) (update_period p parts totals).
Proof.
  intros Hp Hparts He (Hnd & Hi & Ht & Hk).
  destruct (interval_daily_energy_ok _ _ _ He Hparts) as [Hpt Hpi].
  split; [by apply update_period_NoDup|]. split; [|split].
  - intros p'. rewrite update_period_get.
    destruct (decide (p = p')) as [->|]; [|apply Hi]. by apply segments_inv_add_all.
  - intros p'. rewrite update_period_get, sum_by_snoc, <- (Ht p'). unfold period_share. rewrite Hp.
    destruct (decide (p = p')) as [->|]; [rewrite dict_add_all_total|]; lia.
  - intros k. rewrite update_period_sum, Hk, sum_by_snoc by apply Hpi. f_equal.
    unfold day_share. by rewrite Hparts.
Qed.

Lemma sorted_periods_get (totals : dict TimeOfUsePeriod (dict date Z)) p :
  NoDup totals.*1 ->
  dict_get p ((fun pd => (pd.1, py_sorted pd.2))
                <$> sorted_by (fun pd : TimeOfUsePeriod * dict date Z => period_str pd.1) totals)
  = py_sorted <$> dict_get p totals.
Proof.
  intros Hnd.
  rewrite (dict_get_perm totals (sorted_by (fun pd => period_str pd.1) totals));
    [|done|symmetry; apply sorted_by_perm].
  induction (sorted_by _ totals) as [|[p' d] l IH]; simpl; [done|]. case_decide; [done|apply IH].
Qed.

Lemma period_daily_energy_of_ok intervals totals :
  Forall (fun i => 0 <= interval_energy_wh i) intervals ->
  period_daily_energy_of s window intervals = Ok totals ->
  (forall p, segments_inv window (default [] (dict_get p totals)))
  /\ (forall p, dict_total (default [] (dict_get p totals)) = sum_by (period_share s window p) intervals)
  /\ (forall k, sum_by (fun pd => amount k pd.2) totals = sum_by (day_share window k) intervals).
Proof.
  intros Hnn Hr. unfold period_daily_energy_of in Hr. apply bind_ok in Hr as (t & Hf & [= <-]).
  assert (period_daily_inv intervals t) as (Hnd & Hi & Ht & Hk).
  { revert Hf. apply foldM_prefix_inv.
    - split; [constructor|]. split; [intros p; apply segments_inv_nil|done].
    - intros done i t1 t2 [todo ->] Hinv Hf. apply bind_ok in Hf as (p & Hp & Hf).
      destruct (dict_setdefault p [] t1) as [by_day t1'] eqn:Es.
      apply bind_ok in Hf as (parts & Hparts & [= <-]).
      apply Forall_app in Hnn as [_ Hnn]. apply Forall_cons in Hnn as [Hi0 _].
      replace (dict_set p (dict_add_all parts by_day) t1') with (update_period p parts t1).
      + by eapply period_daily_step.
      + unfold update_period. by rewrite Es. }
  assert (forall d : dict date Z, py_sorted d ≡ₚ d) as Hsp by (intros d; apply sorted_by_perm).
  split; [|split].
  - intros p. rewrite sorted_periods_get by done. specialize (Hi p).
    destruct (dict_get p t) as [d|]; simpl in *; [|done]. by apply (segments_inv_perm window d).
  - intros p. rewrite sorted_periods_get by done. rewrite <- Ht. unfold dict_total.
    destruct (dict_get p t) as [d|]; simpl; [|done]. by rewrite Hsp.
  - intros k. rewrite <- Hk, sum_by_fmap. simpl.
    rewrite (sorted_by_perm (fun pd => period_str pd.1) t).
    apply sum_by_ext. intros [p d] Hin. simpl. unfold amount. rewrite sorted_dict_get; [done|].
    specialize (Hi p). rewrite (dict_elem_get p d) in Hi by done. apply Hi.
Qed.
End Consistency.

(** ** Endpoint classification decides the whole interval *)
Section Classify.
Context (s : IRTimeOfUseSchedule).

Definition US_PER_MINUTE : Z := 60 * US_PER_SECOND.

(** Minutes of the day at which the applicable window can change. *)
Definition boundary_minutes : list Z :=
  0 :: (windows s ≫= fun w => [irw_start_minute_inclusive w; irw_end_minute_exclusive w]).

(** Windows lie inside the day and distinct boundaries, with the end of the
    day, are at least an hour apart. *)
Definition hour_spaced : Prop :=
  Forall (fun m => 0 <= m <= 1440) boundary_minutes
  /\ forall a b, a ∈ boundary_minutes -> b ∈ boundary_minutes ++ [1440] -> a < b -> a + 60 <= b.

Definition at_boundary (w : Z) : Prop :=
  exists m, m ∈ boundary_minutes /\ w mod US_PER_DAY = m * US_PER_MINUTE.

Lemma wall_split w : w = wall_date w * US_PER_DAY + w mod US_PER_DAY.
Proof. unfold wall_date. pose proof (Z.div_mod w US_PER_DAY ltac:(done)). lia. Qed.

Lemma minute_le m w : (m <=? wall_minute w) = (m * US_PER_MINUTE <=? w mod US_PER_DAY).
Proof.
  unfold wall_minute. fold US_PER_MINUTE. assert (0 < US_PER_MINUTE) as Hp by done.
  pose proof (Z.div_mod (w mod US_PER_DAY) US_PER_MINUTE ltac:(done)) as Hd.
  pose proof (Z.mod_pos_bound (w mod US_PER_DAY) US_PER_MINUTE Hp).
  destruct (Z.leb_spec m (w mod US_PER_DAY / US_PER_MINUTE)),
    (Z.leb_spec (m * US_PER_MINUTE) (w mod US_PER_DAY)); try done; nia.
Qed.

Lemma boundary_crossing m d w1 w2 :
  m ∈ boundary_minutes -> 0 <= m -> wall_date w1 = d -> wall_date w2 = d ->
  w1 mod US_PER_DAY < m * US_PER_MINUTE <= w2 mod US_PER_DAY ->
  exists x, w1 < x <= w2 /\ at_boundary x.
Proof.
  intros Hm Hm0 H1 H2 Hc. exists (d * US_PER_DAY + m * US_PER_MINUTE).
  pose proof (wall_split w1). pose proof (wall_split w2).
  pose proof (Z.mod_pos_bound w2 US_PER_DAY ltac:(done)).
  split; [rewrite H1, H2 in *; lia|]. exists m. split; [done|].
  rewrite Z.add_comm, Z_mod_plus_full. apply Z.mod_small. assert (0 < US_PER_MINUTE) by done. nia.
Qed.

Lemma wall_date_same w1 w2 :
  w1 <= w2 -> (forall x, w1 < x <= w2 -> ~ at_boundary x) -> wall_date w1 = wall_date w2.
Proof.
  intros Hle Hno. pose proof (wall_split w1). pose proof (wall_split w2).
  pose proof (Z.mod_pos_bound w1 US_PER_DAY ltac:(done)).
  pose proof (Z.mod_pos_bound w2 US_PER_DAY ltac:(done)).
  assert (0 < US_PER_DAY) by done.
  destruct (Z.lt_trichotomy (wall_date w1) (wall_date w2)) as [Hlt|[He|Hgt]]; [|done|nia].
  exfalso. apply (Hno (wall_date w2 * US_PER_DAY)); [nia|].
  exists 0. split; [left|]. by rewrite Z_mod_mult.
Qed.

Lemma classify_constant w1 w2 :
  hour_spaced -> w1 <= w2 -> (forall x, w1 < x <= w2 -> ~ at_boundary x) ->
  classify_local_period s w1 = classify_local_period s w2.
Proof.
  intros [Hin _] Hle Hno. pose proof (wall_date_same _ _ Hle Hno) as Hd.
  rewrite Forall_forall in Hin.
  assert (w1 mod US_PER_DAY <= w2 mod US_PER_DAY) as Hmod.
  { pose proof (wall_split w1). pose proof (wall_split w2). rewrite Hd in *. lia. }
  assert (forall m, m ∈ boundary_minutes -> (m <=? wall_minute w1) = (m <=? wall_minute w2)) as Hm.
  { intros m Hbm. rewrite !minute_le.
    destruct (Z.leb_spec (m * US_PER_MINUTE) (w1 mod US_PER_DAY)),
      (Z.leb_spec (m * US_PER_MINUTE) (w2 mod US_PER_DAY)); try done; [lia|].
    exfalso. destruct (boundary_crossing m (wall_date w2) w1 w2) as (x & Hx & Hb);
      [done|by apply Hin|done..|by eapply Hno]. }
  unfold classify_local_period.
  enough (forall ws, (forall w, w ∈ ws -> w ∈ windows s) ->
    find (window_matches s w1) ws = find (window_matches s w2) ws) as -> by done.
  induction ws as [|w ws IH]; intros Hws; simpl; [done|].
  rewrite IH by set_solver. enough (window_matches s w1 w = window_matches s w2 w) as -> by done.
  assert (w ∈ windows s) as Hw by set_solver.
  unfold window_matches. rewrite Hd, (Hm (irw_start_minute_inclusive w)).
  - f_equal. rewrite !Z.ltb_antisym. f_equal. apply Hm. right. apply list_elem_of_bind.
    exists w. set_solver.
  - right. apply list_elem_of_bind. exists w. set_solver.
Qed.

Lemma boundaries_apart x y :
  hour_spaced -> at_boundary x -> at_boundary y -> x < y -> x + 60 * US_PER_MINUTE <= y.
Proof.
  intros [Hin Hsp] (mx & Hmx & Hx) (my & Hmy & Hy) Hlt.
  pose proof (wall_split x) as Hsx. pose proof (wall_split y) as Hsy. rewrite Hx in Hsx. rewrite Hy in Hsy.
  pose proof (Z.mod_pos_bound x US_PER_DAY ltac:(done)). rewrite Hx in *.
  rewrite Forall_forall in Hin. pose proof (Hin _ Hmx). pose proof (Hin _ Hmy).
  assert (US_PER_DAY = 1440 * US_PER_MINUTE) as HD by done.
  assert (0 < US_PER_MINUTE) by done.
  assert (mx < my -> mx + 60 <= my) by (intros; apply Hsp; set_solver).
  assert (mx + 60 <= 1440) by (apply Hsp; [done|set_solver|nia]).
  destruct (Z.lt_trichotomy (wall_date x) (wall_date y)) as [Hd|[Hd|Hd]]; nia.
Qed.
End Classify.

(** ** Theorems *)
Section Theorems.
Context `{ZoneInfo}.

(** Comparing the period of the first and the last instant is enough.  On a
    schedule whose boundaries are at least an hour apart, and over an interval
    of at most an hour during which the zone offset does not change, a period
    returned by [classify_interval_period] is the period of every instant of the
    interval, and the first and last local dates are in the service window. *)
Theorem classify_interval_period_sound s start duration window p :
  hour_spaced s -> duration <= 3600 ->
  (forall t, start <= t < start + duration * US_PER_SECOND -> utcoffset t = utcoffset start) ->
  classify_interval_period s start duration window = Ok p ->
  (forall t, start <= t < start + duration * US_PER_SECOND ->
     classify_local_period s (t + utcoffset t) = p)
  /\ contains window (local_date start) = true.
Proof.
  intros Hsp Hdur Hoff Hc. unfold classify_interval_period in Hc.
  apply bind_ok in Hc as (e & He & Hc). apply bind_ok in Hc as (ls & Hls & Hc).
  apply bind_ok in Hc as (fi & Hfi & Hc). apply bind_ok in Hc as (lf & Hlf & Hc).
  apply datetime_check_ok in He as [-> _]. apply datetime_check_ok in Hls as [-> _].
  apply datetime_check_ok in Hfi as [-> _]. apply datetime_check_ok in Hlf as [-> _].
  apply bind_ok in Hc as (u1 & Hsame & Hc). apply bind_ok in Hc as (u2 & Hwin & [= <-]).
  apply raise_if_ok in Hsame, Hwin. apply negb_false_iff, bool_decide_eq_true in Hsame.
  apply orb_false_iff in Hwin as [Hws _]. apply negb_false_iff in Hws. split; [|done]. intros t Ht.
  set (last := start + duration * US_PER_SECOND - 1) in *.
  rewrite (Hoff t) by done. rewrite (Hoff last) in Hsame by (unfold last; lia).
  set (off := utcoffset start) in *. symmetry. apply dec_stable. intros Hne.
  assert (60 * US_PER_MINUTE = 3600 * US_PER_SECOND) as Hh by done.
  assert (0 < US_PER_SECOND) by done.
  apply Hne. apply classify_constant; [done|lia|]. intros x Hx Hbx.
  apply Hne. rewrite Hsame. symmetry. apply classify_constant; [done|unfold last; lia|].
  intros y Hy Hby. pose proof (boundaries_apart s x y Hsp Hbx Hby ltac:(lia)).
  unfold last in *. nia.
Qed.

(** The day-splitting loop terminates.  For any time zone and any interval
    the number of rounds is bounded by its duration in seconds: the loop never
    runs out of the fuel it is given. *)
Theorem segment_seconds_terminates i window :
  0 <= duration_seconds i -> segment_seconds i window <> Raise (PyError "FuelExhausted").
Proof.
  intros Hd. unfold segment_seconds.
  destruct (interval_start i) as [st|e] eqn:Es; simpl.
  - destruct (datetime_check _) as [en|e] eqn:Ee; simpl.
    + apply datetime_check_ok in Ee as [-> _]. apply segment_loop_fuel. rewrite Z2Nat.id by done. lia.
    + unfold datetime_check in Ee. case_match; [|done]. by injection Ee as <-.
  - unfold interval_start, fromtimestamp in Es. intros [= ->]. repeat case_match; simplify_eq.
Qed.

(** Daily energy is conserved.  For a validated interval request the
    watt-hours per local day add up exactly to the metered energy; the days are
    in date order without duplicates, lie in the service window, and no day is
    negative. *)
Theorem daily_energy_conserved b intervals dated d :
  request_valid (IntervalReplayRequest b intervals dated) = true ->
  daily_energy_of (service_window (account_facts b)) intervals = Ok d ->
  dict_total d = energy_wh b /\ StronglySorted Z.le d.*1 /\ NoDup d.*1
  /\ Forall (fun kv => 0 <= kv.2 /\ contains (service_window (account_facts b)) kv.1 = true) d.
Proof.
  intros Hv Hd. unfold request_valid in Hv. bools.
  assert (Forall (fun i => 0 <= interval_energy_wh i) intervals) as Hnn.
  { apply Forall_forall. intros i Hi. apply list_elem_of_In in Hi.
    match goal with Hf : forallb _ _ = true |- _ => rewrite forallb_forall in Hf; apply Hf in Hi end.
    unfold ReplayInterval_fields_ok in Hi. bools. done. }
  destruct (daily_energy_of_ok _ _ _ Hnn Hd) as (Ht & (Hnd & Hpos & Hw) & Hs & _).
  destruct (validate_intervals b intervals) as [u|] eqn:Ev; [|done].
  unfold validate_intervals in Ev. inv_ok. bools.
  split; [congruence|]. split; [done|]. split; [done|].
  unfold nonneg_days in Hpos. rewrite Forall_fmap in Hw. apply Forall_and. done.
Qed.

(** The period profile and the daily profile agree.  When all three
    computations of a request succeed, the days of each period add up to that
    period's energy, and every day's energy is the sum over the periods. *)
Theorem period_daily_energy_consistent s window intervals by_period by_day by_period_day :
  Forall (fun i => 0 <= interval_energy_wh i) intervals ->
  period_energy_of s window intervals = Ok by_period ->
  daily_energy_of window intervals = Ok by_day ->
  period_daily_energy_of s window intervals = Ok by_period_day ->
  (forall p, dict_total (default [] (dict_get p by_period_day)) = default 0 (dict_get p by_period))
  /\ (forall k, sum_by (fun pd => amount k pd.2) by_period_day = amount k by_day)
  /\ dict_total by_period = dict_total by_day.
Proof.
  intros Hnn Hp Hd Hpd.
  destruct (period_energy_of_ok _ _ _ _ Hp) as (_ & Ht & Hg).
  destruct (daily_energy_of_ok _ _ _ Hnn Hd) as (Htd & _ & _ & Hkd).
  destruct (period_daily_energy_of_ok _ _ _ _ Hnn Hpd) as (_ & Hpt & Hpk).
  split; [intros p; by rewrite Hg, Hpt|]. split; [intros k; by rewrite Hpk, Hkd|]. congruence.
Qed.
End Theorems.

(** Day splitting succeeds on a lawful zone.  An aligned interval whose
    every instant has its local date in the service window is divided over local
    days without error: the seconds per day add up to the duration, the
    watt-hours to the interval's energy, and every day is in the window. *)
Theorem day_split_succeeds `{ZoneLaws} i window :
  ReplayInterval_fields_ok i = true -> start_utc_ns i mod NS_PER_SECOND = 0 ->
  let start := start_utc_ns i / NS_PER_SECOND * US_PER_SECOND in
  let end_utc := start + duration_seconds i * US_PER_SECOND in
  end_utc <= instant_max - 4 * US_PER_DAY ->
  (forall t, start <= t < end_utc -> contains window (local_date t) = true) ->
  exists seconds wh, segment_seconds i window = Ok seconds /\ interval_daily_energy i window = Ok wh
    /\ dict_total seconds = duration_seconds i /\ dict_total wh = interval_energy_wh i
    /\ Forall (fun day => contains window day = true) wh.*1.
Proof.
  intros Hf Ha start end_utc Hmax Hw.
  destruct (interval_daily_energy_total i window Hf Ha Hmax Hw) as (segs & d & ? & ? & ? & ? & Hinv).
  exists segs, d. repeat split; try done. apply Hinv.
Qed.

(** ** Witnesses *)

(** Half an hour around midnight of 2 July 2026 in California. *)
Definition midnight_interval : ReplayInterval :=
  {| start_utc_ns := 1782974700 * NS_PER_SECOND; duration_seconds := 1800;
     interval_energy_wh := 1001 |}.
Definition midnight_base : ReplayRequestBase :=
  {| profile_content_sha256 := "00"; account_facts := july_facts; energy_wh := 1001;
     current_bill_total_cents := None; user_unsupported_lines := [] |}.

Example midnight_split :
  interval_daily_energy midnight_interval july_2026
  = Ok [(date_of_ymd 2026 7 1, 501); (date_of_ymd 2026 7 2, 500)].
Proof. vm_compute. reflexivity. Qed.

Lemma ev2a_hour_spaced : hour_spaced ev2a_schedule.
Proof.
  split; [vm_compute; repeat constructor; discriminate|].
  intros a b Ha Hb. vm_compute in Ha, Hb.
  repeat (apply elem_of_cons in Ha as [->|Ha]); [..|by apply elem_of_nil in Ha];
    repeat (apply elem_of_cons in Hb as [->|Hb]); try (by apply elem_of_nil in Hb); lia.
Qed.

Lemma classify_interval_period_sound_witness :
  contains july_2026 (local_date (1782975600 * US_PER_SECOND)) = true.
Proof.
  apply (classify_interval_period_sound ev2a_schedule (1782975600 * US_PER_SECOND) 3600 july_2026 OFF_PEAK).
  - apply ev2a_hour_spaced.
  - lia.
  - intros t Ht. simpl. unfold dst_start_utc, dst_end_utc, US_PER_SECOND in *.
    repeat case_match; rewrite ?andb_true_iff, ?andb_false_iff in *; bools; lia.
  - vm_compute. reflexivity.
Defined.

Lemma segment_seconds_terminates_witness :
  segment_seconds midnight_interval july_2026 <> Raise (PyError "FuelExhausted").
Proof. apply (segment_seconds_terminates midnight_interval july_2026). vm_compute. discriminate. Defined.

Lemma daily_energy_conserved_witness :
  dict_total [(date_of_ymd 2026 7 1, 501); (date_of_ymd 2026 7 2, 500)] = 1001.
Proof.
  apply (daily_energy_conserved midnight_base [midnight_interval] None).
  - vm_compute. reflexivity.
  - vm_compute. reflexivity.
Defined.

Lemma period_daily_energy_consistent_witness :
  exists by_period_day : dict TimeOfUsePeriod (dict date Z),
    dict_total (default [] (dict_get PARTIAL_PEAK by_period_day)) = 0
    /\ dict_total (default [] (dict_get OFF_PEAK by_period_day)) = 1001.
Proof.
  pose (i := {| start_utc_ns := 1782975600 * NS_PER_SECOND; duration_seconds := 1800;
                interval_energy_wh := 1001 |}).
  exists [(OFF_PEAK, [(date_of_ymd 2026 7 2, 1001)])].
  assert (forall p, dict_total (default [] (dict_get p [(OFF_PEAK, [(date_of_ymd 2026 7 2, 1001)])]))
    = default 0 (dict_get p [(OFF_PEAK, 1001)])) as Ht.
  { apply (period_daily_energy_consistent ev2a_schedule july_2026 [i] [(OFF_PEAK, 1001)]
      [(date_of_ymd 2026 7 2, 1001)]).
    - repeat constructor; simpl; lia.
    - vm_compute. reflexivity.
    - vm_compute. reflexivity.
    - vm_compute. reflexivity. }
  rewrite !Ht. done.
Defined.

Lemma day_split_succeeds_witness :
  exists wh, interval_daily_energy midnight_interval july_2026 = Ok wh /\ dict_total wh = 1001.
Proof.
  destruct (day_split_succeeds midnight_interval july_2026) as (secs & wh & _ & Hwh & _ & Ht & _).
  - vm_compute. reflexivity.
  - vm_compute. reflexivity.
  - vm_compute. discriminate.
  - intros t Ht. assert (1782974700000000 <= t < 1782976500000000) as Hb by exact Ht.
    assert (local_date t = 20635 \/ local_date t = 20636) as [-> | ->].
    { unfold local_date, wall_date.
      assert (utcoffset t = -25200000000) as ->.
      { simpl. rewrite (proj2 (Z.leb_le dst_start_utc t)), (proj2 (Z.ltb_lt t dst_end_utc));
          [done|unfold dst_end_utc, US_PER_SECOND; lia|unfold dst_start_utc, US_PER_SECOND; lia]. }
      change US_PER_DAY with 86400000000.
      assert (20635 <= (t + -25200000000) / 86400000000) by (apply Z.div_le_lower_bound; lia).
      assert ((t + -25200000000) / 86400000000 < 20637) by (apply Z.div_lt_upper_bound; lia). lia. }
    + reflexivity.
    + vm_compute. reflexivity.
  - exists wh. split; [exact Hwh|exact Ht].
Defined.

(** ** A window shorter than the interval *)
Definition short_schedule : IRTimeOfUseSchedule :=
  {| ir_ts_base := rule_fixture "SHORT" always EXACT bundled_energy;
     windows := [ev2a_window PEAK 900 930]; default_period := OFF_PEAK; calendar_id := None;
     calendar_content_sha256 := None; holiday_dates := [] |}.
Definition quarter_to_three : Z := 1782942300 * US_PER_SECOND. (* 2026-07-01T14:45 local *)

(** A window strictly inside an interval goes unnoticed.  On a schedule with
    a half-hour PEAK window, which the tariff schema admits, the hour from 14:45
    to 15:45 is classified OFF_PEAK without the boundary error, although its
    instants from 15:00 on are PEAK: the hour spacing required by the soundness
    of endpoint classification is not checked anywhere. *)
Theorem short_window_unnoticed :
  classify_interval_period short_schedule quarter_to_three 3600 july_2026 = Ok OFF_PEAK
  /\ exists t, quarter_to_three <= t < quarter_to_three + 3600 * US_PER_SECOND
               /\ classify_local_period short_schedule (t + utcoffset t) = PEAK.
Proof.
  split; [vm_compute; reflexivity|]. exists (quarter_to_three + 900 * US_PER_SECOND).
  split; [vm_compute; split; [discriminate|reflexivity]|vm_compute; reflexivity].
Qed.
