(* ===== verification/Replay.v ===== *)
(** * Replay: the reference evaluator (tariffs/billing.py)

    [replay_compiled_tariff] evaluates a compiled tariff on a request: the
    eligibility gate, the operator loop with its tier and time-of-use rounds,
    reconciliation against the entered bill, the diagnostic day allocation, the
    manifest and the content hashes.  The loop's local variables are the record
    [LoopState]. *)

From Stdlib Require Import QArith.QArith_base.
From S2P Require Import Prelude Calendar Json Schema Compiled Fixtures Eligibility.
From S2P Require Import Apportion DayEnergy ChargeIR.

(** ** Result models *)
Record ChargeLineItem := {
  li_rule_id : string;
  li_tariff_version_id : string;
  li_source_id : string;
  li_source_sheet_ids : list string;
  line_item_key : string;
  li_charge_component_key : ChargeComponentKey;
  quantity_numerator : Z;
  quantity_denominator : Z;
  quantity_unit : string;
  rate_numerator_microdollars : Z;
  rate_denominator : Z;
  rate_unit : string;
  pre_round_microdollars_numerator : Z;
  pre_round_microdollars_denominator : Z;
  rounded_cents : Z;
  contributing_service_window : DateRange;
  explanation_key : string;
  rounding_operator : RoundingOperator
}.

Record UnsupportedPlaceholder := {
  ph_rule_id : string; ph_line_item_key : string; ph_source_id : string; ph_reason_code : string
}.

Record ReconciliationPolicy := {
  review_tolerance_cents : Z; warning_threshold_cents : Z
}.
Definition default_policy : ReconciliationPolicy :=
  {| review_tolerance_cents := 100; warning_threshold_cents := 500 |}.

Inductive Classification := C_EXACT | C_WITHIN_REVIEW_TOLERANCE | C_REVIEW_REQUIRED.
Definition classification_str (c : Classification) : string :=
  match c with
  | C_EXACT => "EXACT"
  | C_WITHIN_REVIEW_TOLERANCE => "WITHIN_REVIEW_TOLERANCE"
  | C_REVIEW_REQUIRED => "REVIEW_REQUIRED"
  end.

Record ReconciliationResult := {
  rc_supported_calculated_cents : Z;
  rc_user_unsupported_cents : Z;
  rc_unexplained_residual_cents : Z;
  rc_entered_bill_total_cents : Z;
  classification : Classification;
  input_sha256 : string;
  policy_sha256 : string
}.

Record DailyEnergyChargeAllocation := {
  da_service_day : date;
  da_line_item_key : string;
  da_charge_component_key : ChargeComponentKey;
  da_allocation_weight_wh : Z;
  da_allocated_cents : Z
}.

Record MonthlyEnergyChargeAllocation := {
  ma_calendar_month : string; ma_allocation_weight_wh : Z; ma_allocated_cents : Z
}.

Inductive AdjustmentKind :=
| SUPPORTED_PERIOD_CHARGE | USER_UNSUPPORTED | UNEXPLAINED_RESIDUAL | TIER_RESET_CONTEXT.
#[export] Instance AdjustmentKind_eq_dec : EqDecision AdjustmentKind.
Proof. solve_decision. Defined.
Definition adjustment_str (k : AdjustmentKind) : string :=
  match k with
  | SUPPORTED_PERIOD_CHARGE => "SUPPORTED_PERIOD_CHARGE"
  | USER_UNSUPPORTED => "USER_UNSUPPORTED"
  | UNEXPLAINED_RESIDUAL => "UNEXPLAINED_RESIDUAL"
  | TIER_RESET_CONTEXT => "TIER_RESET_CONTEXT"
  end.

Record BillingPeriodAdjustment := {
  adjustment_kind : AdjustmentKind;
  pa_line_item_key : string;
  pa_charge_component_key : option ChargeComponentKey;
  pa_amount_cents : Z
}.

Record CostAllocationReconciliation := {
  ca_daily_energy_charge_cents : Z;
  ca_supported_period_adjustment_cents : Z;
  ca_supported_calculated_cents : Z;
  ca_user_unsupported_cents : Z;
  ca_unexplained_residual_cents : Z;
  ca_displayed_total_cents : Z
}.

Inductive AllocationStatus := AVAILABLE | INTERVAL_DATA_UNAVAILABLE.
#[export] Instance AllocationStatus_eq_dec : EqDecision AllocationStatus.
Proof. solve_decision. Defined.

Record DiagnosticCostAllocation := {
  allocation_status : AllocationStatus;
  daily_energy_charges : list DailyEnergyChargeAllocation;
  monthly_energy_charges : list MonthlyEnergyChargeAllocation;
  billing_period_adjustments : list BillingPeriodAdjustment;
  allocation_reconciliation : CostAllocationReconciliation
}.

Definition adjustments_of (k : AdjustmentKind) (l : list BillingPeriodAdjustment) : Z :=
  sum_by pa_amount_cents (List.filter (fun a => bool_decide (adjustment_kind a = k)) l).

Definition validate_exact_reconciliation (a : DiagnosticCostAllocation) : result unit :=
  let daily_cents := sum_by da_allocated_cents (daily_energy_charges a) in
  let monthly_cents := sum_by ma_allocated_cents (monthly_energy_charges a) in
  let supported_period_cents := adjustments_of SUPPORTED_PERIOD_CHARGE (billing_period_adjustments a) in
  let user_unsupported_cents := adjustments_of USER_UNSUPPORTED (billing_period_adjustments a) in
  let residual_cents := adjustments_of UNEXPLAINED_RESIDUAL (billing_period_adjustments a) in
  let r := allocation_reconciliation a in
  _ ← raise_if (negb (daily_cents =? monthly_cents))
        (ValidationError "daily and monthly diagnostic allocations must match");
  _ ← raise_if (negb (daily_cents =? ca_daily_energy_charge_cents r))
        (ValidationError "daily diagnostic allocation total does not reconcile");
  _ ← raise_if (negb (supported_period_cents =? ca_supported_period_adjustment_cents r))
        (ValidationError "supported period adjustment total does not reconcile");
  _ ← raise_if (negb (user_unsupported_cents =? ca_user_unsupported_cents r))
        (ValidationError "unsupported period adjustment total does not reconcile");
  _ ← raise_if (negb (residual_cents =? ca_unexplained_residual_cents r))
        (ValidationError "residual period adjustment total does not reconcile");
  _ ← raise_if (negb (daily_cents + supported_period_cents =? ca_supported_calculated_cents r))
        (ValidationError "diagnostic supported charges do not reconcile");
  _ ← raise_if (negb (daily_cents + supported_period_cents + user_unsupported_cents + residual_cents
                      =? ca_displayed_total_cents r))
        (ValidationError "diagnostic displayed total does not reconcile");
  raise_if (bool_decide (allocation_status a = INTERVAL_DATA_UNAVAILABLE)
            && (negb (bool_decide (length (daily_energy_charges a) = 0%nat))
                || negb (bool_decide (length (monthly_energy_charges a) = 0%nat))))
    (ValidationError "unavailable interval diagnostics cannot contain daily data").

(** [CalculationManifest], and [IntervalCalculationManifest] when
    [mf_period_energy_wh] is present. *)
Record CalculationManifest := {
  mf_profile_content_sha256 : string;
  mf_tariff_compiler_content_sha256 : string;
  mf_tariff_ir_version : string;
  mf_tariff_version_id : string;
  mf_account_facts_sha256 : string;
  mf_replay_input_sha256 : string;
  mf_reconciliation_input_sha256 : option string;
  mf_reconciliation_policy_sha256 : option string;
  mf_baseline_allowance_wh : Z;
  mf_billing_days : Z;
  mf_bill_cycle_month : Z;
  mf_period_energy_wh : option (dict TimeOfUsePeriod Z);
  mf_calculation_sha256 : string
}.

Record ReplayResult := {
  result_version : string;
  eligibility : EligibilityResult;
  supported_calculated_cents : Z;
  line_items : list ChargeLineItem;
  tariff_unsupported_placeholders : list UnsupportedPlaceholder;
  res_user_unsupported_lines : list UserUnsupportedLine;
  reconciliation : option ReconciliationResult;
  diagnostic_cost_allocation : DiagnosticCostAllocation;
  provenance_sources : list SourceCoverage;
  manifest : CalculationManifest;
  result_sha256 : string
}.

(** ** JSON images *)
Definition UserUnsupportedLine_dump (u : UserUnsupportedLine) : json :=
  JObj [("line_item_key", JStr (ul_line_item_key u)); ("description", JStr (description u));
        ("amount_cents", JInt (amount_cents u))].

Definition EligibilityResult_dump (e : EligibilityResult) : json :=
  JObj [("status", JStr (status_str (status e)));
        ("reason_codes", jstr_list (fun s => s) (reason_codes e));
        ("predicate_id", JStr (result_predicate_id e));
        ("predicate_version", JStr (result_predicate_version e));
        ("source_rule_ids", jstr_list (fun s => s) (result_source_rule_ids e));
        ("account_facts_sha256", JStr (account_facts_sha256 e))].

Definition ChargeLineItem_dump (l : ChargeLineItem) : json :=
  JObj [("rule_id", JStr (li_rule_id l));
        ("tariff_version_id", JStr (li_tariff_version_id l));
        ("source_id", JStr (li_source_id l));
        ("source_sheet_ids", jstr_list (fun s => s) (li_source_sheet_ids l));
        ("line_item_key", JStr (line_item_key l));
        ("charge_component_key", JStr (component_str (li_charge_component_key l)));
        ("quantity_numerator", JInt (quantity_numerator l));
        ("quantity_denominator", JInt (quantity_denominator l));
        ("quantity_unit", JStr (quantity_unit l));
        ("rate_numerator_microdollars", JInt (rate_numerator_microdollars l));
        ("rate_denominator", JInt (rate_denominator l));
        ("rate_unit", JStr (rate_unit l));
        ("pre_round_microdollars_numerator", JInt (pre_round_microdollars_numerator l));
        ("pre_round_microdollars_denominator", JInt (pre_round_microdollars_denominator l));
        ("rounded_cents", JInt (rounded_cents l));
        ("contributing_service_window", DateRange_dump (contributing_service_window l));
        ("explanation_key", JStr (explanation_key l));
        ("rounding_operator", JStr (rounding_str (rounding_operator l)));
        ("rounding_boundary", JStr "LINE_ITEM")].

Definition UnsupportedPlaceholder_dump (p : UnsupportedPlaceholder) : json :=
  JObj [("rule_id", JStr (ph_rule_id p)); ("line_item_key", JStr (ph_line_item_key p));
        ("source_id", JStr (ph_source_id p)); ("reason_code", JStr (ph_reason_code p));
        ("amount_cents", JNull)].

Definition ReconciliationPolicy_dump (p : ReconciliationPolicy) : json :=
  JObj [("policy_version", JStr "current-bill-reconciliation-v1");
        ("review_tolerance_cents", JInt (review_tolerance_cents p));
        ("warning_threshold_cents", JInt (warning_threshold_cents p))].

Definition ReconciliationResult_dump (r : ReconciliationResult) : json :=
  JObj [("supported_calculated_cents", JInt (rc_supported_calculated_cents r));
        ("user_unsupported_cents", JInt (rc_user_unsupported_cents r));
        ("unexplained_residual_cents", JInt (rc_unexplained_residual_cents r));
        ("entered_bill_total_cents", JInt (rc_entered_bill_total_cents r));
        ("classification", JStr (classification_str (classification r)));
        ("input_sha256", JStr (input_sha256 r));
        ("policy_sha256", JStr (policy_sha256 r))].

Definition DiagnosticCostAllocation_dump (a : DiagnosticCostAllocation) : json :=
  let r := allocation_reconciliation a in
  JObj [("allocation_version", JStr "private-cost-allocation-v1");
        ("status", JStr (match allocation_status a with
                         | AVAILABLE => "AVAILABLE"
                         | INTERVAL_DATA_UNAVAILABLE => "INTERVAL_DATA_UNAVAILABLE" end));
        ("timezone", JStr "America/Los_Angeles");
        ("daily_energy_charges", JList ((fun d =>
           JObj [("service_day", jdate (da_service_day d));
                 ("line_item_key", JStr (da_line_item_key d));
                 ("charge_component_key", JStr (component_str (da_charge_component_key d)));
                 ("allocation_weight_wh", JInt (da_allocation_weight_wh d));
                 ("allocated_cents", JInt (da_allocated_cents d))]) <$> daily_energy_charges a));
        ("monthly_energy_charges", JList ((fun m =>
           JObj [("calendar_month", JStr (ma_calendar_month m));
                 ("allocation_weight_wh", JInt (ma_allocation_weight_wh m));
                 ("allocated_cents", JInt (ma_allocated_cents m))]) <$> monthly_energy_charges a));
        ("billing_period_adjustments", JList ((fun p =>
           JObj [("adjustment_kind", JStr (adjustment_str (adjustment_kind p)));
                 ("line_item_key", JStr (pa_line_item_key p));
                 ("charge_component_key", jopt (fun k => JStr (component_str k)) (pa_charge_component_key p));
                 ("amount_cents", JInt (pa_amount_cents p))]) <$> billing_period_adjustments a));
        ("reconciliation",
           JObj [("daily_energy_charge_cents", JInt (ca_daily_energy_charge_cents r));
                 ("supported_period_adjustment_cents", JInt (ca_supported_period_adjustment_cents r));
                 ("supported_calculated_cents", JInt (ca_supported_calculated_cents r));
                 ("user_unsupported_cents", JInt (ca_user_unsupported_cents r));
                 ("unexplained_residual_cents", JInt (ca_unexplained_residual_cents r));
                 ("displayed_total_cents", JInt (ca_displayed_total_cents r))])].

Definition SourceCoverage_dump (s : SourceCoverage) : json :=
  JObj [("source_id", JStr (coverage_source_id s)); ("source_sha256", JStr (coverage_source_sha256 s));
        ("source_url", JStr (coverage_source_url s));
        ("linked_rule_ids", jstr_list (fun r => r) (linked_rule_ids s))].

Definition ReplayInterval_dump (i : ReplayInterval) : json :=
  JObj [("start_utc_ns", JInt (start_utc_ns i)); ("duration_seconds", JInt (duration_seconds i));
        ("energy_wh", JInt (interval_energy_wh i))].

Definition CalculationManifest_dump (m : CalculationManifest) : json :=
  JObj ([("manifest_version", JStr (match mf_period_energy_wh m with
                                    | Some _ => "historical-replay-manifest-v2"
                                    | None => "e1-calculation-manifest-v1" end));
         ("calculation_time_mode", JStr "HISTORICAL_REPLAY");
         ("profile_content_sha256", JStr (mf_profile_content_sha256 m));
         ("tariff_compiler_content_sha256", JStr (mf_tariff_compiler_content_sha256 m));
         ("tariff_ir_version", JStr (mf_tariff_ir_version m));
         ("tariff_version_id", JStr (mf_tariff_version_id m));
         ("account_facts_sha256", JStr (mf_account_facts_sha256 m));
         ("replay_input_sha256", JStr (mf_replay_input_sha256 m));
         ("reconciliation_input_sha256", jopt JStr (mf_reconciliation_input_sha256 m));
         ("reconciliation_policy_sha256", jopt JStr (mf_reconciliation_policy_sha256 m));
         ("baseline_allowance_wh", JInt (mf_baseline_allowance_wh m));
         ("billing_days", JInt (mf_billing_days m));
         ("bill_cycle_month", JInt (mf_bill_cycle_month m));
         ("calculation_sha256", JStr (mf_calculation_sha256 m))]
        ++ match mf_period_energy_wh m with
           | Some d => [("period_energy_wh", JObj ((fun pe => (period_str pe.1, JInt pe.2)) <$> d))]
           | None => []
           end).

(** ** Operations *)
Definition charge_line (bundle : CompilationBundle) (rule : IRRuleBase) (key : string)
    (quantity : Z) (q_unit : string) (rate : Z) (r_unit : string) (raw_microdollars : Q)
    (window : DateRange) (component : option ChargeComponentKey) : ChargeLineItem :=
  {| li_rule_id := rule_id rule;
     li_tariff_version_id := ir_tariff_version_id (ir bundle);
     li_source_id := source_id (source rule);
     li_source_sheet_ids := source_sheet_ids (source rule);
     line_item_key := key;
     li_charge_component_key := default (charge_component_key rule) component;
     quantity_numerator := quantity;
     quantity_denominator := 1;
     quantity_unit := q_unit;
     rate_numerator_microdollars := rate;
     rate_denominator := 1;
     rate_unit := r_unit;
     pre_round_microdollars_numerator := numerator raw_microdollars;
     pre_round_microdollars_denominator := denominator raw_microdollars;
     rounded_cents := round_half_up_cents raw_microdollars;
     contributing_service_window := window;
     explanation_key := "tariff." +:+ str_lower (rule_id rule);
     rounding_operator := rounding rule |}.

(** An energy line: watt-hours at microdollars per kilowatt-hour. *)
Definition energy_line (bundle : CompilationBundle) (rule : IRRuleBase) (key : string)
    (quantity rate : Z) (window : DateRange) (component : option ChargeComponentKey)
    : ChargeLineItem :=
  charge_line bundle rule key quantity "Wh" rate "microdollars/kWh"
    (Fraction (quantity * rate) 1000) window component.

Definition baseline_allowance_wh (bundle : CompilationBundle) (facts : AccountFacts)
    (billing_days bill_cycle_month : Z) : result Z :=
  let all_baseline_rules := omap as_baseline (operators (ir bundle)) in
  let rules := List.filter (fun r => rule_applies (applicability (ir_ba_base r)) facts bill_cycle_month)
                 all_baseline_rules in
  match all_baseline_rules with
  | [] => Ok 0
  | _ => match rules with
         | [r] => Ok (daily_allowance_wh r * billing_days)
         | _ => Raise (ReplayError "BASELINE_RULE_AMBIGUITY")
         end
  end.

Record LoopState := {
  lines : list ChargeLineItem;
  placeholders : list UnsupportedPlaceholder;
  period_energy_by_schedule : dict string (dict TimeOfUsePeriod Z);
  period_daily_energy_by_schedule : dict string (dict TimeOfUsePeriod (dict date Z));
  line_daily_energy : dict string (dict date Z);
  has_tiered_energy : bool
}.
Definition initial_state : LoopState :=
  {| lines := []; placeholders := []; period_energy_by_schedule := [];
     period_daily_energy_by_schedule := []; line_daily_energy := []; has_tiered_energy := false |}.

Definition add_line (l : ChargeLineItem) (st : LoopState) : LoopState :=
  {| lines := lines st ++ [l]; placeholders := placeholders st;
     period_energy_by_schedule := period_energy_by_schedule st;
     period_daily_energy_by_schedule := period_daily_energy_by_schedule st;
     line_daily_energy := line_daily_energy st; has_tiered_energy := has_tiered_energy st |}.
Definition set_basis (key : string) (basis : dict date Z) (st : LoopState) : LoopState :=
  {| lines := lines st; placeholders := placeholders st;
     period_energy_by_schedule := period_energy_by_schedule st;
     period_daily_energy_by_schedule := period_daily_energy_by_schedule st;
     line_daily_energy := dict_set key basis (line_daily_energy st);
     has_tiered_energy := has_tiered_energy st |}.
Definition mark_tiered (st : LoopState) : LoopState :=
  {| lines := lines st; placeholders := placeholders st;
     period_energy_by_schedule := period_energy_by_schedule st;
     period_daily_energy_by_schedule := period_daily_energy_by_schedule st;
     line_daily_energy := line_daily_energy st; has_tiered_energy := true |}.
Definition add_placeholder (p : UnsupportedPlaceholder) (st : LoopState) : LoopState :=
  {| lines := lines st; placeholders := placeholders st ++ [p];
     period_energy_by_schedule := period_energy_by_schedule st;
     period_daily_energy_by_schedule := period_daily_energy_by_schedule st;
     line_daily_energy := line_daily_energy st; has_tiered_energy := has_tiered_energy st |}.
Definition set_schedules (pe : dict string (dict TimeOfUsePeriod Z))
    (pde : dict string (dict TimeOfUsePeriod (dict date Z))) (st : LoopState) : LoopState :=
  {| lines := lines st; placeholders := placeholders st; period_energy_by_schedule := pe;
     period_daily_energy_by_schedule := pde; line_daily_energy := line_daily_energy st;
     has_tiered_energy := has_tiered_energy st |}.

Definition is_interval (r : AnyReplayRequest) : bool :=
  match r with IntervalReplayRequest _ _ _ => true | ReplayRequest _ => false end.

(** What is fixed while the operators are evaluated. *)
Record ReplayEnv := {
  env_bundle : CompilationBundle;
  env_request : AnyReplayRequest;
  env_window : DateRange;
  env_billing_days : Z;
  env_bill_cycle_month : Z;
  env_baseline_wh : Z;
  env_all_daily_energy : dict date Z
}.
Definition env_energy (env : ReplayEnv) : Z := energy_wh (request_base (env_request env)).
Definition env_facts (env : ReplayEnv) : AccountFacts := account_facts (request_base (env_request env)).

(** One tier: its quantity and upper bound, and the line it adds. *)
Definition tier_bound (env : ReplayEnv) (t : IREnergyTier) : result (option Z) :=
  match tier_upper_bound_operator t with
  | BASELINE_ALLOWANCE =>
      let num := env_baseline_wh env * tier_upper_bound_numerator t in
      _ ← raise_if (negb (num mod tier_upper_bound_denominator t =? 0))
            (ReplayError "NONINTEGRAL_TIER_BOUND");
      Ok (Some (num / tier_upper_bound_denominator t))
  | UNBOUNDED => Ok None
  end.

Definition emit_tier_line (env : ReplayEnv) (op : IRTieredEnergyCharge) (index quantity remaining : Z)
    (t : IREnergyTier) (st : LoopState) : result LoopState :=
  let key := ir_te_line_item_key op +:+ ".tier_" +:+ pretty index in
  let st1 := add_line (energy_line (env_bundle env) (ir_te_base op) key quantity
                         (tier_rate_microdollars_per_kwh t) (env_window env) None) st in
  if is_interval (env_request env) then
    basis ← energy_slice (env_all_daily_energy env) (env_energy env - remaining) quantity;
    Ok (set_basis key basis st1)
  else Ok st1.

Fixpoint tier_loop (env : ReplayEnv) (op : IRTieredEnergyCharge) (index remaining lower_bound : Z)
    (ts : list IREnergyTier) (st : LoopState) : result (Z * LoopState) :=
  match ts with
  | [] => Ok (remaining, st)
  | t :: ts' =>
      upper ← tier_bound env t;
      let quantity := match upper with
                      | Some u => Z.min remaining (u - lower_bound)
                      | None => remaining
                      end in
      _ ← raise_if (quantity <? 0) (ReplayError "INVALID_TIER_BOUND");
      st' ← (if quantity =? 0 then Ok st else emit_tier_line env op index quantity remaining t st);
      let remaining' := remaining - quantity in
      if remaining' =? 0 then Ok (remaining', st')
      else tier_loop env op (index + 1) remaining' (default lower_bound upper) ts' st'
  end.

Definition eval_tiered (env : ReplayEnv) (op : IRTieredEnergyCharge) (st : LoopState)
    : result LoopState :=
  out ← tier_loop env op 1 (env_energy env) 0 (tiers op) (mark_tiered st);
  _ ← raise_if (negb (out.1 =? 0)) (ReplayError "UNCOVERED_TIER");
  Ok out.2.

(** The lines of the period rates. *)
Definition eval_period_rate (env : ReplayEnv) (op : IRTimeOfUseEnergyCharge)
    (pe : dict TimeOfUsePeriod Z) (pde : dict TimeOfUsePeriod (dict date Z))
    (st : LoopState) (r : IRTimeOfUsePeriodRate) : LoopState :=
  let quantity := default 0 (dict_get (irp_period r) pe) in
  if quantity =? 0 then st
  else
    let key := ir_tc_line_item_key op +:+ "." +:+ str_lower (period_str (irp_period r)) in
    set_basis key (default [] (dict_get (irp_period r) pde))
      (add_line (energy_line (env_bundle env) (ir_tc_base op) key quantity
                   (irp_rate_microdollars_per_kwh r) (env_window env) None) st).

Definition eval_baseline_credit (env : ReplayEnv) (op : IRTimeOfUseEnergyCharge) (st : LoopState)
    : result LoopState :=
  match baseline_credit_microdollars_per_kwh op with
  | None => Ok st
  | Some credit =>
      let baseline_quantity := Z.min (env_energy env) (env_baseline_wh env) in
      let key := ir_tc_line_item_key op +:+ ".baseline_credit" in
      let st1 := add_line (energy_line (env_bundle env) (ir_tc_base op) key baseline_quantity credit
                             (env_window env) (baseline_credit_charge_component_key op)) st in
      basis ← energy_slice (env_all_daily_energy env) 0 baseline_quantity;
      Ok (set_basis key basis st1)
  end.

Section Evaluate.
Context `{ZoneInfo}.

Definition eval_time_of_use (env : ReplayEnv) (op : IRTimeOfUseEnergyCharge) (st : LoopState)
    : result LoopState :=
  schedule ← resolve_time_schedule (env_bundle env) (schedule_rule_id op);
  fresh ← period_energy (env_request env) schedule;
  let id := rule_id (ir_ts_base schedule) in
  let '(pe, by_schedule) := dict_setdefault id fresh (period_energy_by_schedule st) in
  match env_request env with
  | ReplayRequest _ => Raise (ReplayError "INTERVAL_DATA_REQUIRED")
  | IntervalReplayRequest b intervals _ =>
      fresh_daily ← period_daily_energy_of schedule (service_window (account_facts b)) intervals;
      let '(pde, daily_by_schedule) :=
        dict_setdefault id fresh_daily (period_daily_energy_by_schedule st) in
      let st1 := set_schedules by_schedule daily_by_schedule st in
      eval_baseline_credit env op (foldl (eval_period_rate env op pe pde) st1 (period_rates op))
  end.

Definition eval_fixed_daily (env : ReplayEnv) (op : IRFixedDailyCharge) (st : LoopState) : LoopState :=
  add_line (charge_line (env_bundle env) (ir_fd_base op) (ir_fd_line_item_key op)
              (env_billing_days env) "days" (rate_microdollars_per_day op) "microdollars/day"
              (Fraction (env_billing_days env * rate_microdollars_per_day op) 1)
              (env_window env) None) st.

Definition eval_fixed_monthly (env : ReplayEnv) (op : IRFixedMonthlyCharge) (st : LoopState) : LoopState :=
  add_line (charge_line (env_bundle env) (ir_fm_base op) (ir_fm_line_item_key op)
              1 "bill_cycle" (amount_microdollars op) "microdollars/bill_cycle"
              (Fraction (amount_microdollars op) 1) (env_window env) None) st.

Definition eval_unsupported (op : IRExplicitUnsupportedCharge) (st : LoopState) : LoopState :=
  add_placeholder {| ph_rule_id := rule_id (ir_eu_base op);
                     ph_line_item_key := ir_eu_line_item_key op;
                     ph_source_id := source_id (source (ir_eu_base op));
                     ph_reason_code := reason_code op |} st.

(** The body of [for operator in bundle.ir.operators]. *)
Definition eval_operator (env : ReplayEnv) (st : LoopState) (op : CompiledRule) : result LoopState :=
  if negb (rule_applies (applicability (ir_base op)) (env_facts env) (env_bill_cycle_month env))
  then Ok st
  else match op with
       | IRBaseline _ | IRSchedule _ => Ok st
       | IRTiered r => eval_tiered env r st
       | IRTimeOfUse r => eval_time_of_use env r st
       | IRFixedDaily r => Ok (eval_fixed_daily env r st)
       | IRFixedMonthly r => Ok (eval_fixed_monthly env r st)
       | IRUnsupported r => Ok (eval_unsupported r st)
       end.
End Evaluate.

(** ** Reconciliation *)
Definition reconcile `{Sha256} (base : ReplayRequestBase) (supported_cents : Z)
    (policy : ReconciliationPolicy) : option ReconciliationResult :=
  match current_bill_total_cents base with
  | None => None
  | Some total =>
      let input_payload :=
        JObj [("entered_bill_total_cents", JInt total);
              ("user_unsupported_lines",
                JList (UserUnsupportedLine_dump <$> user_unsupported_lines base))] in
      let unsupported_cents := sum_by amount_cents (user_unsupported_lines base) in
      let residual := total - supported_cents - unsupported_cents in
      Some {| rc_supported_calculated_cents := supported_cents;
              rc_user_unsupported_cents := unsupported_cents;
              rc_unexplained_residual_cents := residual;
              rc_entered_bill_total_cents := total;
              classification := if residual =? 0 then C_EXACT
                                else if Z.abs residual <=? review_tolerance_cents policy
                                then C_WITHIN_REVIEW_TOLERANCE else C_REVIEW_REQUIRED;
              input_sha256 := canonical_content_sha256 "RateReplay.ReconciliationInput.v1" input_payload;
              policy_sha256 := canonical_content_sha256 "RateReplay.ReconciliationPolicy.v1"
                                 (ReconciliationPolicy_dump policy) |}
  end.

(** ** Diagnostic cost allocation *)

(** The daily entries of one apportioned line. *)
Definition daily_entries (line : ChargeLineItem) (basis allocated : dict date Z)
    : result (list DailyEnergyChargeAllocation) :=
  mapM (fun dc : date * Z =>
          match dict_get dc.1 basis with
          | Some w => Ok {| da_service_day := dc.1; da_line_item_key := line_item_key line;
                            da_charge_component_key := li_charge_component_key line;
                            da_allocation_weight_wh := w; da_allocated_cents := dc.2 |}
          | None => Raise (PyError "KeyError")
          end) allocated.

Definition allocate_line (interval_available : bool) (line_daily : dict string (dict date Z))
    (acc : list DailyEnergyChargeAllocation * list BillingPeriodAdjustment) (line : ChargeLineItem)
    : result (list DailyEnergyChargeAllocation * list BillingPeriodAdjustment) :=
  let period_adjustment :=
    Ok (acc.1, acc.2 ++ [{| adjustment_kind := SUPPORTED_PERIOD_CHARGE;
                            pa_line_item_key := line_item_key line;
                            pa_charge_component_key := Some (li_charge_component_key line);
                            pa_amount_cents := rounded_cents line |}]) in
  match dict_get (line_item_key line) line_daily with
  | Some basis =>
      if interval_available && String.eqb (quantity_unit line) "Wh" then
        allocated ← apportion_integer (rounded_cents line) basis;
        entries ← daily_entries line basis allocated;
        Ok (acc.1 ++ entries, acc.2)
      else period_adjustment
  | None => period_adjustment
  end.

Definition context_adjustments (base : ReplayRequestBase) (interval_available tiered : bool)
    (rec : option ReconciliationResult) : list BillingPeriodAdjustment :=
  (if interval_available && tiered then
     [{| adjustment_kind := TIER_RESET_CONTEXT; pa_line_item_key := "tier_reset.billing_period";
         pa_charge_component_key := None; pa_amount_cents := 0 |}] else [])
  ++ ((fun u => {| adjustment_kind := USER_UNSUPPORTED; pa_line_item_key := ul_line_item_key u;
                   pa_charge_component_key := None; pa_amount_cents := amount_cents u |})
        <$> user_unsupported_lines base)
  ++ match rec with
     | Some r => [{| adjustment_kind := UNEXPLAINED_RESIDUAL;
                     pa_line_item_key := "unexplained_residual"; pa_charge_component_key := None;
                     pa_amount_cents := rc_unexplained_residual_cents r |}]
     | None => []
     end.

(** [monthly_values[month] = (energy + weight, cents + allocated)]. *)
Definition add_month (values : dict string (Z * Z)) (item : DailyEnergyChargeAllocation)
    : dict string (Z * Z) :=
  let month := iso_month (da_service_day item) in
  let '(energy, cents) := default (0, 0) (dict_get month values) in
  dict_set month (energy + da_allocation_weight_wh item, cents + da_allocated_cents item) values.

Definition monthly_lines (daily : list DailyEnergyChargeAllocation)
    : list MonthlyEnergyChargeAllocation :=
  (fun mv => {| ma_calendar_month := mv.1; ma_allocation_weight_wh := mv.2.1;
                ma_allocated_cents := mv.2.2 |})
  <$> sorted_by (fun mv : string * (Z * Z) => mv.1) (foldl add_month [] daily).

Definition diagnostic_cost_allocation_of (request : AnyReplayRequest) (ls : list ChargeLineItem)
    (line_daily : dict string (dict date Z)) (rec : option ReconciliationResult) (tiered : bool)
    : result DiagnosticCostAllocation :=
  let interval_available := is_interval request in
  acc ← foldM (allocate_line interval_available line_daily) ([], []) ls;
  let daily_lines := acc.1 in
  let period_adjustments :=
    acc.2 ++ context_adjustments (request_base request) interval_available tiered rec in
  let daily_cents := sum_by da_allocated_cents daily_lines in
  let supported_period_cents := adjustments_of SUPPORTED_PERIOD_CHARGE period_adjustments in
  let allocation :=
    {| allocation_status := if interval_available then AVAILABLE else INTERVAL_DATA_UNAVAILABLE;
       daily_energy_charges := sorted_by (fun d => (da_service_day d, da_line_item_key d)) daily_lines;
       monthly_energy_charges := monthly_lines daily_lines;
       billing_period_adjustments := period_adjustments;
       allocation_reconciliation :=
         {| ca_daily_energy_charge_cents := daily_cents;
            ca_supported_period_adjustment_cents := supported_period_cents;
            ca_supported_calculated_cents := sum_by rounded_cents ls;
            ca_user_unsupported_cents :=
              match rec with Some r => rc_user_unsupported_cents r | None => 0 end;
            ca_unexplained_residual_cents :=
              match rec with Some r => rc_unexplained_residual_cents r | None => 0 end;
            ca_displayed_total_cents :=
              match rec with
              | Some r => rc_entered_bill_total_cents r
              | None => daily_cents + supported_period_cents
              end |} |} in
  _ ← validate_exact_reconciliation allocation;
  Ok allocation.

(** ** The whole replay *)
Section Replay.
Context `{ZoneInfo} `{Sha256}.

Definition request_dated_facts (r : AnyReplayRequest) : option DatedEligibilityFacts :=
  match r with IntervalReplayRequest _ _ d => d | ReplayRequest _ => None end.

(** The guards before the operator loop: the evaluated environment. *)
Definition replay_env (bundle : CompilationBundle) (request : AnyReplayRequest)
    : result (EligibilityResult * ReplayEnv) :=
  let base := request_base request in
  _ ← validate_reconciliation_inputs base;
  eligible ← evaluate_eligibility bundle (account_facts base) (request_dated_facts request);
  _ ← raise_if (negb (bool_decide (status eligible = ELIGIBLE)))
        (ReplayError ("TARIFF_" +:+ status_str (status eligible)));
  let window := service_window (account_facts base) in
  match dr_end window with
  | None => Raise (ReplayError "UNBOUNDED_BILLING_PERIOD")
  | Some window_end =>
      let billing_days := window_end - dr_start window in
      _ ← raise_if ((billing_days <=? 0) || (maximum_billing_days (ir bundle) <? billing_days))
            (ReplayError "INVALID_BILLING_PERIOD");
      _ ← raise_if (maximum_energy_wh (ir bundle) <? energy_wh base)
            (ReplayError "ENERGY_BOUND_EXCEEDED");
      let bill_cycle_month := date_month window_end in
      baseline_wh ← baseline_allowance_wh bundle (account_facts base) billing_days bill_cycle_month;
      all_daily_energy ← match request with
                         | IntervalReplayRequest _ intervals _ => daily_energy_of window intervals
                         | ReplayRequest _ => Ok []
                         end;
      Ok (eligible, {| env_bundle := bundle; env_request := request; env_window := window;
                       env_billing_days := billing_days; env_bill_cycle_month := bill_cycle_month;
                       env_baseline_wh := baseline_wh; env_all_daily_energy := all_daily_energy |})
  end.

Definition replay_input_hash (request : AnyReplayRequest) (window : DateRange) : string :=
  let base := request_base request in
  let common := [("profile_content_sha256", JStr (profile_content_sha256 base));
                 ("energy_wh", JInt (energy_wh base)); ("service_window", DateRange_dump window)] in
  match request with
  | ReplayRequest _ => canonical_content_sha256 "RateReplay.ReplayInput.v1" (JObj common)
  | IntervalReplayRequest _ intervals dated =>
      canonical_content_sha256 "RateReplay.IntervalReplayInput.v2"
        (JObj (common ++ [("intervals", JList (ReplayInterval_dump <$> intervals));
                          ("dated_eligibility_facts", jopt DatedEligibilityFacts_dump dated)]))
  end.

Definition calculation_hash (request : AnyReplayRequest) (bundle : CompilationBundle)
    (eligible : EligibilityResult) (rec : option ReconciliationResult) (input_hash : string) : string :=
  canonical_content_sha256
    (if is_interval request then "RateReplay.HistoricalReplayCalculation.v2"
     else "RateReplay.HistoricalReplayCalculation.v1")
    (JObj [("profile_content_sha256", JStr (profile_content_sha256 (request_base request)));
           ("tariff_compiler_content_sha256", JStr (compiler_content_sha256 bundle));
           ("account_facts_sha256", JStr (account_facts_sha256 eligible));
           ("replay_input_sha256", JStr input_hash);
           ("reconciliation_input_sha256", jopt (fun r => JStr (input_sha256 r)) rec);
           ("reconciliation_policy_sha256", jopt (fun r => JStr (policy_sha256 r)) rec)]).

(** [combined_period_energy], sorted by period name. *)
Definition combined_period_energy (by_schedule : dict string (dict TimeOfUsePeriod Z))
    : dict TimeOfUsePeriod Z :=
  sorted_by (fun pe : TimeOfUsePeriod * Z => period_str pe.1)
    (foldl (fun acc st => dict_add_all st.2 acc) [] by_schedule).

Definition replay_manifest (env : ReplayEnv) (eligible : EligibilityResult) (st : LoopState)
    (rec : option ReconciliationResult) : CalculationManifest :=
  let request := env_request env in
  let bundle := env_bundle env in
  let input_hash := replay_input_hash request (env_window env) in
  {| mf_profile_content_sha256 := profile_content_sha256 (request_base request);
     mf_tariff_compiler_content_sha256 := compiler_content_sha256 bundle;
     mf_tariff_ir_version := ir_version (ir bundle);
     mf_tariff_version_id := ir_tariff_version_id (ir bundle);
     mf_account_facts_sha256 := account_facts_sha256 eligible;
     mf_replay_input_sha256 := input_hash;
     mf_reconciliation_input_sha256 := input_sha256 <$> rec;
     mf_reconciliation_policy_sha256 := policy_sha256 <$> rec;
     mf_baseline_allowance_wh := env_baseline_wh env;
     mf_billing_days := env_billing_days env;
     mf_bill_cycle_month := env_bill_cycle_month env;
     mf_period_energy_wh := if is_interval request
                            then Some (combined_period_energy (period_energy_by_schedule st))
                            else None;
     mf_calculation_sha256 := calculation_hash request bundle eligible rec input_hash |}.

Definition result_payload (eligible : EligibilityResult) (supported_cents : Z) (st : LoopState)
    (base : ReplayRequestBase) (rec : option ReconciliationResult)
    (allocation : DiagnosticCostAllocation) (sources : list SourceCoverage)
    (m : CalculationManifest) : json :=
  JObj [("eligibility", EligibilityResult_dump eligible);
        ("supported_calculated_cents", JInt supported_cents);
        ("line_items", JList (ChargeLineItem_dump <$> lines st));
        ("tariff_unsupported_placeholders", JList (UnsupportedPlaceholder_dump <$> placeholders st));
        ("user_unsupported_lines", JList (UserUnsupportedLine_dump <$> user_unsupported_lines base));
        ("reconciliation", jopt ReconciliationResult_dump rec);
        ("diagnostic_cost_allocation", DiagnosticCostAllocation_dump allocation);
        ("provenance_sources", JList (SourceCoverage_dump <$> sources));
        ("manifest", CalculationManifest_dump m)].

Definition replay_compiled_tariff (bundle : CompilationBundle) (request : AnyReplayRequest)
    (policy : option ReconciliationPolicy) : result ReplayResult :=
  start ← replay_env bundle request;
  let '(eligible, env) := start in
  st ← foldM (eval_operator env) initial_state (operators (ir bundle));
  let base := request_base request in
  let supported_cents := sum_by rounded_cents (lines st) in
  let rec := reconcile base supported_cents (default default_policy policy) in
  allocation ← diagnostic_cost_allocation_of request (lines st) (line_daily_energy st) rec
                 (has_tiered_energy st);
  let m := replay_manifest env eligible st rec in
  let sources := source_coverage (reports bundle) in
  Ok {| result_version := if is_interval request then "historical-replay-result-v3"
                          else "e1-replay-result-v2";
        eligibility := eligible;
        supported_calculated_cents := supported_cents;
        line_items := lines st;
        tariff_unsupported_placeholders := placeholders st;
        res_user_unsupported_lines := user_unsupported_lines base;
        reconciliation := rec;
        diagnostic_cost_allocation := allocation;
        provenance_sources := sources;
        manifest := m;
        result_sha256 := canonical_content_sha256 "RateReplay.HistoricalReplayResult.v2"
                           (result_payload eligible supported_cents st base rec allocation sources m) |}.
End Replay.

(** ** Golden cases *)
Definition base_fixture (energy : Z) (bill : option Z) : ReplayRequestBase :=
  {| profile_content_sha256 := "00"; account_facts := july_facts; energy_wh := energy;
     current_bill_total_cents := bill; user_unsupported_lines := [] |}.
Definition e1_310kwh : AnyReplayRequest := ReplayRequest (base_fixture 310000 None).
Definition e1_result : result ReplayResult :=
  replay_compiled_tariff (H0 := toy_sha256) e1_bundle e1_310kwh None.

(** The golden case pge-e1-july-2026-territory-t-basic-310kwh. *)
Example e1_golden :
  match e1_result with
  | Ok r => (rounded_cents <$> line_items r, supported_calculated_cents r)
  | Raise _ => ([], 0)
  end = ([6561; 4416; 2460; -3618], 9819).
Proof. vm_compute. reflexivity. Qed.

(** One thousand watt-hours in each hour of July 2026. *)
Fixpoint hourly (n : nat) (start_seconds : Z) : list ReplayInterval :=
  match n with
  | O => []
  | S n' => {| start_utc_ns := start_seconds * NS_PER_SECOND; duration_seconds := 3600;
               interval_energy_wh := 1000 |} :: hourly n' (start_seconds + 3600)
  end.
Definition ev2a_flat : AnyReplayRequest :=
  IntervalReplayRequest (base_fixture 744000 (Some 23000)) (hourly 744 1782889200) (Some july_dated).
Definition ev2a_result : result ReplayResult :=
  replay_compiled_tariff (H0 := toy_sha256) ev2a_bundle ev2a_flat None.

(** The golden case pge-ev2a-july-2026-hourly-flat-load. *)
Example ev2a_golden :
  match ev2a_result with
  | Ok r => (rounded_cents <$> line_items r, supported_calculated_cents r,
             mf_period_energy_wh (manifest r))
  | Raise _ => ([], 0, None)
  end = ([8340; 5302; 10489; 2460; -3618], 22973,
         Some [(OFF_PEAK, 465000); (PARTIAL_PEAK, 124000); (PEAK, 155000)]).
Proof. vm_compute. reflexivity. Qed.
