(* ===== verification/ReplayProofs.v ===== *)
(** * ReplayProofs: what a replay computes

    The operator loop of [replay_compiled_tariff] is equivalent to a
    state-free reference ([operator_lines]); the lemmas on tiers, time-of-use
    rounds and reconciliation that [ReplaySafety] assembles. *)

From Stdlib Require Import QArith.QArith_base.
From S2P Require Import Prelude Calendar Json Schema Compiled Fixtures Eligibility.
From S2P Require Import Apportion DayEnergy ChargeIR Replay.

(** ** The reference bill *)

Definition tier_upper (baseline : Z) (t : IREnergyTier) : option Z :=
  match tier_upper_bound_operator t with
  | BASELINE_ALLOWANCE =>
      Some (baseline * tier_upper_bound_numerator t / tier_upper_bound_denominator t)
  | UNBOUNDED => None
  end.

(** The energy of each tier: the part of [0, energy) between the highest bound
    so far and the tier's own bound. *)
Fixpoint tier_shares (baseline energy lower : Z) (ts : list IREnergyTier) : list Z :=
  match ts with
  | [] => []
  | t :: ts' =>
      let upper := default energy (tier_upper baseline t) in
      Z.max 0 (Z.min energy upper - lower) :: tier_shares baseline energy (Z.max lower upper) ts'
  end.

Fixpoint tier_reference (env : ReplayEnv) (op : IRTieredEnergyCharge) (index : Z)
    (shares : list Z) (ts : list IREnergyTier) : list ChargeLineItem :=
  match shares, ts with
  | q :: shares', t :: ts' =>
      (if q =? 0 then []
       else [energy_line (env_bundle env) (ir_te_base op)
               (ir_te_line_item_key op +:+ ".tier_" +:+ pretty index) q
               (tier_rate_microdollars_per_kwh t) (env_window env) None])
      ++ tier_reference env op (index + 1) shares' ts'
  | _, _ => []
  end.

Definition tiered_reference (env : ReplayEnv) (op : IRTieredEnergyCharge) : list ChargeLineItem :=
  tier_reference env op 1 (tier_shares (env_baseline_wh env) (env_energy env) 0 (tiers op)) (tiers op).

Definition request_intervals (r : AnyReplayRequest) : list ReplayInterval :=
  match r with IntervalReplayRequest _ l _ => l | ReplayRequest _ => [] end.

Definition period_rate_reference `{ZoneInfo} (env : ReplayEnv) (op : IRTimeOfUseEnergyCharge)
    (s : IRTimeOfUseSchedule) (r : IRTimeOfUsePeriodRate) : list ChargeLineItem :=
  let q := sum_by (period_share s (service_window (env_facts env)) (irp_period r))
             (request_intervals (env_request env)) in
  if q =? 0 then []
  else [energy_line (env_bundle env) (ir_tc_base op)
          (ir_tc_line_item_key op +:+ "." +:+ str_lower (period_str (irp_period r))) q
          (irp_rate_microdollars_per_kwh r) (env_window env) None].

Definition credit_reference (env : ReplayEnv) (op : IRTimeOfUseEnergyCharge) : list ChargeLineItem :=
  match baseline_credit_microdollars_per_kwh op with
  | None => []
  | Some credit =>
      [energy_line (env_bundle env) (ir_tc_base op) (ir_tc_line_item_key op +:+ ".baseline_credit")
         (Z.min (env_energy env) (env_baseline_wh env)) credit (env_window env)
         (baseline_credit_charge_component_key op)]
  end.

(** The lines of one operator, from the request alone. *)
Definition operator_lines `{ZoneInfo} (env : ReplayEnv) (op : CompiledRule) : list ChargeLineItem :=
  if negb (rule_applies (applicability (ir_base op)) (env_facts env) (env_bill_cycle_month env))
  then []
  else match op with
       | IRBaseline _ | IRSchedule _ | IRUnsupported _ => []
       | IRTiered r => tiered_reference env r
       | IRTimeOfUse r =>
           match resolve_time_schedule (env_bundle env) (schedule_rule_id r) with
           | Ok s => (period_rates r ≫= period_rate_reference env r s) ++ credit_reference env r
           | Raise _ => []
           end
       | IRFixedDaily r => lines (eval_fixed_daily env r initial_state)
       | IRFixedMonthly r => lines (eval_fixed_monthly env r initial_state)
       end.

(** ** Tiers *)

Lemma tier_shares_done baseline energy lower ts :
  energy <= lower -> Forall (eq 0) (tier_shares baseline energy lower ts).
Proof.
  revert lower; induction ts as [|t ts IH]; intros lower H; simpl; constructor; [lia|].
  apply IH. lia.
Qed.

Lemma tier_reference_zero env op index shares ts :
  Forall (eq 0) shares -> tier_reference env op index shares ts = [].
Proof.
  intros H; revert index ts; induction H as [|q shares <- _ IH]; intros index [|t ts]; simpl; auto.
Qed.

Lemma zsum_zero l : Forall (eq 0) l -> zsum l = 0.
Proof. induction 1 as [|x l <- _ IH]; simpl; auto. Qed.

Lemma tier_reference_quantity env op index baseline energy lower ts :
  sum_by quantity_numerator (tier_reference env op index (tier_shares baseline energy lower ts) ts)
  = zsum (tier_shares baseline energy lower ts).
Proof.
  revert index lower; induction ts as [|t ts IH]; intros index lower; simpl; [done|].
  rewrite sum_by_app, IH. f_equal. destruct (Z.eqb_spec (Z.max 0 (Z.min energy
    (default energy (tier_upper baseline t)) - lower)) 0) as [->|]; [done|].
  rewrite sum_by_cons, sum_by_nil. simpl. lia.
Qed.

Lemma tier_reference_lines env op index shares ts :
  Forall (fun l => li_rule_id l = rule_id (ir_te_base op) /\ quantity_unit l = "Wh")
    (tier_reference env op index shares ts).
Proof.
  revert index ts; induction shares as [|q shares IH]; intros index [|t ts]; simpl; try constructor.
  apply Forall_app. split; [|apply IH]. case_match; by repeat constructor.
Qed.

Lemma tier_bound_upper env t u :
  tier_bound env t = Ok u -> u = tier_upper (env_baseline_wh env) t.
Proof.
  unfold tier_bound, tier_upper. destruct (tier_upper_bound_operator t); [|by intros [= <-]].
  intros H. inv_ok. by subst.
Qed.

Lemma emit_tier_line_lines env op index q rem t st st' :
  emit_tier_line env op index q rem t st = Ok st' ->
  lines st' = lines st ++ [energy_line (env_bundle env) (ir_te_base op)
                (ir_te_line_item_key op +:+ ".tier_" +:+ pretty index) q
                (tier_rate_microdollars_per_kwh t) (env_window env) None].
Proof.
  unfold emit_tier_line. destruct (is_interval _); intros H; inv_ok; by subst.
Qed.

Lemma tier_loop_reference env op index energy lower ts st rem' st' :
  lower < energy \/ (energy = 0 /\ lower = 0) ->
  tier_loop env op index (energy - lower) lower ts st = Ok (rem', st') ->
  let shares := tier_shares (env_baseline_wh env) energy lower ts in
  lines st' = lines st ++ tier_reference env op index shares ts
  /\ rem' = energy - lower - zsum shares.
Proof.
  cbv zeta. revert index lower st; induction ts as [|t ts IH]; intros index lower st Hlt Hl; simpl in Hl |- *.
  - injection Hl as <- <-. rewrite app_nil_r. split; [done|]. unfold zsum; simpl. lia.
  - apply bind_ok in Hl as (u & Hu & Hl). apply tier_bound_upper in Hu as ->.
    apply bind_ok in Hl as ([] & Hneg & Hl). apply raise_if_ok in Hneg. bools.
    apply bind_ok in Hl as (st1 & Hst1 & Hl).
    set (upper := default energy (tier_upper (env_baseline_wh env) t)).
    set (share := Z.max 0 (Z.min energy upper - lower)).
    set (q := match tier_upper (env_baseline_wh env) t with
              | Some u => Z.min (energy - lower) (u - lower) | None => energy - lower end) in *.
    assert (q = share) as Eq.
    { unfold q, share, upper in *. destruct (tier_upper _ t); simpl; lia. }
    assert (lines st1 = lines st ++ tier_reference env op index [share] [t]) as Hst.
    { simpl. rewrite app_nil_r, <- Eq. destruct (q =? 0); [injection Hst1 as <-; by rewrite app_nil_r|].
      by apply emit_tier_line_lines in Hst1. }
    simpl in Hst. rewrite app_nil_r in Hst. rewrite Eq in Hl. fold upper share.
    destruct (Z.eqb_spec (energy - lower - share) 0) as [E|E].
    + injection Hl as <- <-. assert (energy <= Z.max lower upper) by (unfold share in E; lia).
      pose proof (tier_shares_done (env_baseline_wh env) energy _ ts H) as Hz.
      rewrite (tier_reference_zero _ _ _ _ _ Hz), app_nil_r, Hst, (zsum_zero _ Hz). simpl. split; [done|]. lia.
    + assert (tier_upper (env_baseline_wh env) t = Some upper /\ lower <= upper < energy) as [Eu Hup].
      { unfold q, share, upper in *. destruct (tier_upper _ t); simpl in *; [|lia].
        split; [done|]. lia. }
      rewrite Eu in Hl. simpl in Hl. assert (share = upper - lower) as Es by (unfold share; lia).
      replace (energy - lower - share) with (energy - upper) in Hl by lia.
      apply IH in Hl as [Hl Hr]; [|lia]. rewrite (Z.max_r lower upper) by lia.
      rewrite Hl, Hst, <- app_assoc. split; [done|]. simpl. lia.
Qed.

Lemma eval_tiered_reference env op st st' :
  0 <= env_energy env -> eval_tiered env op st = Ok st' ->
  lines st' = lines st ++ tiered_reference env op
  /\ zsum (tier_shares (env_baseline_wh env) (env_energy env) 0 (tiers op)) = env_energy env.
Proof.
  unfold eval_tiered. intros He Hl. apply bind_ok in Hl as ([rem st1] & Hl & Hr).
  inv_ok. bools. simpl in *. subst. rewrite <- (Z.sub_0_r (env_energy env)) in Hl at 1.
  apply tier_loop_reference in Hl as [Hl Hz]; [|lia]. split; [exact Hl|lia].
Qed.

(** ** Time of use *)
Section TimeOfUse.
Context `{ZoneInfo} (env : ReplayEnv).

(** Cached totals are those a fresh computation gives. *)
Definition cache_ok (st : LoopState) : Prop :=
  (forall id pe, dict_get id (period_energy_by_schedule st) = Some pe ->
     exists s, resolve_time_schedule (env_bundle env) id = Ok s
               /\ period_energy (env_request env) s = Ok pe)
  /\ (forall id pde, dict_get id (period_daily_energy_by_schedule st) = Some pde ->
     exists s, resolve_time_schedule (env_bundle env) id = Ok s
       /\ period_daily_energy_of s (service_window (env_facts env))
            (request_intervals (env_request env)) = Ok pde).

Lemma resolve_time_schedule_id bundle id s :
  resolve_time_schedule bundle id = Ok s -> rule_id (ir_ts_base s) = id.
Proof.
  unfold resolve_time_schedule. destruct (List.filter _ _) as [|s' [|]] eqn:E; try done.
  intros [= <-]. assert (In s' [s']) as Hin by (simpl; auto). rewrite <- E in Hin.
  apply filter_In in Hin as [_ Hid]. by apply String.eqb_eq.
Qed.

(** [setdefault] with a value the cache would hold anyway returns that value. *)
Lemma setdefault_coherent {K V} `{EqDecision K} (k : K) (v : V) d :
  (forall v', dict_get k d = Some v' -> v' = v) -> (dict_setdefault k v d).1 = v.
Proof.
  intros Hv. unfold dict_setdefault. destruct (dict_get k d) as [v'|] eqn:E; [|done]. by apply Hv.
Qed.

Lemma setdefault_get {K V} `{EqDecision K} (k k' : K) (v v' : V) d :
  dict_get k' (dict_setdefault k v d).2 = Some v' ->
  dict_get k' d = Some v' \/ (k' = k /\ v' = v).
Proof.
  unfold dict_setdefault. destruct (dict_get k d) as [v0|] eqn:E; simpl; [auto|].
  destruct (decide (k = k')) as [->|Hne].
  - rewrite dict_get_set_eq. intros [= <-]. auto.
  - rewrite dict_get_set_ne by done. auto.
Qed.

Lemma eval_period_rates_lines op s pe pde rates st :
  (forall p, default 0 (dict_get p pe) = sum_by (period_share s (service_window (env_facts env)) p)
                                           (request_intervals (env_request env))) ->
  lines (foldl (eval_period_rate env op pe pde) st rates)
  = lines st ++ (rates ≫= period_rate_reference env op s).
Proof.
  intros Hpe. revert st; induction rates as [|r rates IH]; intros st; simpl; [by rewrite app_nil_r|].
  rewrite IH, app_assoc. f_equal. unfold eval_period_rate, period_rate_reference. rewrite Hpe.
  case_match; [by rewrite app_nil_r|]. done.
Qed.

(** A predicate on states that the period-rate fold preserves. *)
Lemma eval_period_rates_caches op pe pde rates st :
  period_energy_by_schedule (foldl (eval_period_rate env op pe pde) st rates)
    = period_energy_by_schedule st
  /\ period_daily_energy_by_schedule (foldl (eval_period_rate env op pe pde) st rates)
    = period_daily_energy_by_schedule st.
Proof.
  revert st; induction rates as [|r rates IH]; intros st; simpl; [done|].
  destruct (IH (eval_period_rate env op pe pde st r)) as [-> ->].
  unfold eval_period_rate. by case_match.
Qed.

Lemma eval_baseline_credit_lines op st st' :
  eval_baseline_credit env op st = Ok st' ->
  lines st' = lines st ++ credit_reference env op
  /\ period_energy_by_schedule st' = period_energy_by_schedule st
  /\ period_daily_energy_by_schedule st' = period_daily_energy_by_schedule st.
Proof.
  unfold eval_baseline_credit, credit_reference. case_match; intros Hr; inv_ok; subst; [done|].
  by rewrite app_nil_r.
Qed.

Lemma eval_time_of_use_lines op st st' :
  cache_ok st -> eval_time_of_use env op st = Ok st' ->
  cache_ok st' /\ exists s, resolve_time_schedule (env_bundle env) (schedule_rule_id op) = Ok s
    /\ lines st' = lines st ++ (period_rates op ≫= period_rate_reference env op s)
                    ++ credit_reference env op.
Proof.
  intros [Hc1 Hc2] Hr. unfold eval_time_of_use in Hr.
  apply bind_ok in Hr as (s & Hs & Hr). apply bind_ok in Hr as (fresh & Hf & Hr).
  pose proof (resolve_time_schedule_id _ _ _ Hs) as Hid. rewrite Hid in Hr.
  destruct (dict_setdefault (schedule_rule_id op) fresh (period_energy_by_schedule st))
    as [pe by_schedule] eqn:Epe.
  destruct (env_request env) as [b|b intervals dated] eqn:Ereq; [done|].
  apply bind_ok in Hr as (fd & Hfd & Hr).
  destruct (dict_setdefault (schedule_rule_id op) fd (period_daily_energy_by_schedule st))
    as [pde daily_by] eqn:Epde.
  assert (service_window (account_facts b) = service_window (env_facts env)) as Hw
    by (unfold env_facts; by rewrite Ereq).
  assert (pe = fresh) as ->.
  { replace pe with (dict_setdefault (schedule_rule_id op) fresh (period_energy_by_schedule st)).1
      by by rewrite Epe.
    apply setdefault_coherent. intros v Hv. destruct (Hc1 _ _ Hv) as (s' & Hs' & Hp').
    congruence. }
  apply eval_baseline_credit_lines in Hr as (Hl & Hpe & Hpde).
  destruct (eval_period_rates_caches op fresh pde (period_rates op) (set_schedules by_schedule daily_by st))
    as [E1 E2].
  rewrite E1 in Hpe. rewrite E2 in Hpde. simpl in *. split.
  - split; intros id x Hx.
    + rewrite Hpe in Hx. replace by_schedule with
        (dict_setdefault (schedule_rule_id op) fresh (period_energy_by_schedule st)).2 in Hx
        by by rewrite Epe.
      apply setdefault_get in Hx as [Hx|[-> ->]]; rewrite Ereq; [by apply Hc1|]. by exists s.
    + rewrite Hpde in Hx. replace daily_by with
        (dict_setdefault (schedule_rule_id op) fd (period_daily_energy_by_schedule st)).2 in Hx
        by by rewrite Epde.
      apply setdefault_get in Hx as [Hx|[-> ->]]; rewrite Ereq; [by apply Hc2|]. exists s.
      by rewrite <- Hw.
  - exists s. split; [done|]. rewrite Hl, app_assoc. f_equal.
    rewrite (eval_period_rates_lines _ s); [done|].
    intros p. rewrite Ereq. simpl in *. apply period_energy_of_ok in Hf as (_ & _ & Hg).
    rewrite <- Hw. apply Hg.
Qed.

Lemma emit_tier_line_caches op index q rem t st st' :
  emit_tier_line env op index q rem t st = Ok st' ->
  period_energy_by_schedule st' = period_energy_by_schedule st
  /\ period_daily_energy_by_schedule st' = period_daily_energy_by_schedule st.
Proof. unfold emit_tier_line. destruct (is_interval _); intros Hr; inv_ok; by subst. Qed.

Lemma tier_loop_caches op index rem lower ts st rem' st' :
  tier_loop env op index rem lower ts st = Ok (rem', st') ->
  period_energy_by_schedule st' = period_energy_by_schedule st
  /\ period_daily_energy_by_schedule st' = period_daily_energy_by_schedule st.
Proof.
  revert index rem lower st; induction ts as [|t ts IH]; intros index rem lower st Hl; simpl in Hl.
  - by injection Hl as _ <-.
  - apply bind_ok in Hl as (u & _ & Hl). apply bind_ok in Hl as (u' & _ & Hl).
    apply bind_ok in Hl as (st1 & Hst1 & Hl).
    assert (period_energy_by_schedule st1 = period_energy_by_schedule st
      /\ period_daily_energy_by_schedule st1 = period_daily_energy_by_schedule st) as [<- <-].
    { destruct (_ =? 0) in Hst1; [by injection Hst1 as <-|]. by apply emit_tier_line_caches in Hst1. }
    destruct (_ =? 0) in Hl; [by injection Hl as _ <-|]. by apply IH in Hl.
Qed.

Lemma eval_operator_reference op st st' :
  0 <= env_energy env -> cache_ok st -> eval_operator env st op = Ok st' ->
  cache_ok st' /\ lines st' = lines st ++ operator_lines env op.
Proof.
  intros He Hc. unfold eval_operator, operator_lines.
  destruct (rule_applies _ _ _); simpl; [|intros [= <-]; by rewrite app_nil_r].
  destruct op as [r|r|r|r|r|r|r]; intros Hr;
    try (injection Hr as <-; simpl; rewrite ?app_nil_r; by destruct Hc).
  - pose proof Hr as Hr'. apply eval_tiered_reference in Hr as [Hl _]; [|done]. split; [|done].
    unfold eval_tiered in Hr'. apply bind_ok in Hr' as ([rem st1] & Hr' & Hx). inv_ok. subst.
    apply tier_loop_caches in Hr' as [E1 E2]. unfold cache_ok. simpl in *. by rewrite E1, E2.
  - apply eval_time_of_use_lines in Hr as (Hc' & s & -> & Hl); done.
Qed.

Lemma eval_operators_reference ops st :
  0 <= env_energy env -> foldM (eval_operator env) initial_state ops = Ok st ->
  lines st = ops ≫= operator_lines env.
Proof.
  intros He. enough (foldM (eval_operator env) initial_state ops = Ok st ->
    cache_ok st /\ lines st = ops ≫= operator_lines env) as Hx by (intros; by apply Hx).
  apply (foldM_prefix_inv _ (fun done st => cache_ok st /\ lines st = done ≫= operator_lines env)).
  - done.
  - intros done op s s' _ [Hc Hl] Hs. apply eval_operator_reference in Hs as [Hc' Hl']; [|done..].
    split; [done|]. rewrite Hl', Hl, bind_app. simpl. by rewrite app_nil_r.
Qed.
End TimeOfUse.

(** ** Diagnostic allocation *)
Lemma adjustments_of_app k l1 l2 :
  adjustments_of k (l1 ++ l2) = adjustments_of k l1 + adjustments_of k l2.
Proof. unfold adjustments_of. by rewrite List.filter_app, sum_by_app. Qed.

Lemma daily_entries_sum line basis allocated entries :
  daily_entries line basis allocated = Ok entries ->
  sum_by da_allocated_cents entries = dict_total allocated.
Proof.
  unfold daily_entries. rewrite mapM_ok. intros H.
  induction H as [|[k v] e allocated entries He _ IH]; [done|].
  rewrite sum_by_cons, dict_total_cons, IH. f_equal. simpl in He. case_match; by simplify_eq.
Qed.

Lemma allocate_lines_sum avail line_daily ls acc :
  (forall key basis, dict_get key line_daily = Some basis -> NoDup basis.*1) ->
  foldM (allocate_line avail line_daily) ([], []) ls = Ok acc ->
  sum_by da_allocated_cents acc.1 + adjustments_of SUPPORTED_PERIOD_CHARGE acc.2
    = sum_by rounded_cents ls
  /\ Forall (fun a => adjustment_kind a = SUPPORTED_PERIOD_CHARGE) acc.2
  /\ (avail = false -> acc.1 = []).
Proof.
  intros Hnd. apply (foldM_prefix_inv _ (fun done acc =>
    sum_by da_allocated_cents acc.1 + adjustments_of SUPPORTED_PERIOD_CHARGE acc.2
      = sum_by rounded_cents done
    /\ Forall (fun a => adjustment_kind a = SUPPORTED_PERIOD_CHARGE) acc.2
    /\ (avail = false -> acc.1 = []))).
  - split; [done|]. split; [constructor|done].
  - intros done line [d a] acc' _ (Hs & Hk & Hav). rewrite sum_by_snoc. unfold allocate_line. simpl.
    assert (forall acc'', Ok (d, a ++ [{| adjustment_kind := SUPPORTED_PERIOD_CHARGE;
        pa_line_item_key := line_item_key line;
        pa_charge_component_key := Some (li_charge_component_key line);
        pa_amount_cents := rounded_cents line |}]) = Ok acc'' ->
      sum_by da_allocated_cents acc''.1 + adjustments_of SUPPORTED_PERIOD_CHARGE acc''.2
        = sum_by rounded_cents done + rounded_cents line
      /\ Forall (fun a => adjustment_kind a = SUPPORTED_PERIOD_CHARGE) acc''.2
      /\ (avail = false -> acc''.1 = [])) as Hadj.
    { intros acc'' [= <-]. simpl in *. rewrite adjustments_of_app. split; [|split].
      - rewrite <- Hs. unfold adjustments_of at 2. simpl. rewrite sum_by_cons, sum_by_nil. simpl. lia.
      - apply Forall_app. by repeat constructor.
      - done. }
    destruct (dict_get (line_item_key line) line_daily) as [basis|] eqn:Eb; [|apply Hadj].
    destruct avail; simpl; [|apply Hadj]. destruct (String.eqb _ _); [|apply Hadj].
    intros Hr. apply bind_ok in Hr as (al & Hal & Hr). apply bind_ok in Hr as (es & Hes & [= <-]).
    simpl. rewrite sum_by_app, (daily_entries_sum _ _ _ _ Hes).
    apply apportion_integer_apportioned in Hal as [Ht _ _ _]; [|by eapply Hnd].
    simpl in Hs. split; [lia|]. done.
Qed.

Lemma monthly_lines_sum daily :
  sum_by ma_allocated_cents (monthly_lines daily) = sum_by da_allocated_cents daily.
Proof.
  unfold monthly_lines. rewrite sum_by_fmap. simpl. rewrite (sorted_by_perm (fun mv => mv.1)).
  enough (forall values, sum_by (fun mv => mv.2.2) (foldl add_month values daily)
    = sum_by (fun mv => mv.2.2) values + sum_by da_allocated_cents daily) as -> by done.
  induction daily as [|d daily IH]; intros values; simpl; [rewrite sum_by_nil; lia|].
  rewrite IH, sum_by_cons. unfold add_month.
  destruct (default (0, 0) (dict_get (iso_month (da_service_day d)) values)) as [e c] eqn:E.
  rewrite (sum_by_dict_set (fun v : Z * Z => v.2)).
  destruct (dict_get _ values) as [[e0 c0]|]; simpl in *; simplify_eq; lia.
Qed.

Lemma adjustments_of_all k k' l :
  Forall (fun a => adjustment_kind a = k) l -> k' <> k -> adjustments_of k' l = 0.
Proof.
  intros H Hne. unfold adjustments_of.
  induction H as [|a l Ha _ IH]; simpl; [done|]. rewrite bool_decide_eq_false_2 by congruence. done.
Qed.

Lemma adjustments_of_same k l :
  Forall (fun a => adjustment_kind a = k) l -> adjustments_of k l = sum_by pa_amount_cents l.
Proof.
  intros H. unfold adjustments_of.
  induction H as [|a l Ha _ IH]; simpl; [done|]. rewrite bool_decide_eq_true_2 by done.
  by rewrite !sum_by_cons, IH.
Qed.

Lemma adjustments_of_user lines :
  let l := (fun u => {| adjustment_kind := USER_UNSUPPORTED; pa_line_item_key := ul_line_item_key u;
                        pa_charge_component_key := None; pa_amount_cents := amount_cents u |}) <$> lines in
  adjustments_of USER_UNSUPPORTED l = sum_by amount_cents lines
  /\ Forall (fun a => adjustment_kind a = USER_UNSUPPORTED) l.
Proof.
  cbv zeta. set (l := _ <$> lines).
  assert (Forall (fun a => adjustment_kind a = USER_UNSUPPORTED) l) as Hl by by apply Forall_fmap, Forall_true.
  split; [|done]. rewrite (adjustments_of_same _ _ Hl). unfold l. by rewrite sum_by_fmap.
Qed.

Definition rec_residual (rec : option ReconciliationResult) : Z :=
  match rec with Some r => rc_unexplained_residual_cents r | None => 0 end.

Lemma context_adjustments_sums base avail tiered rec :
  let l := context_adjustments base avail tiered rec in
  adjustments_of SUPPORTED_PERIOD_CHARGE l = 0
  /\ adjustments_of USER_UNSUPPORTED l = sum_by amount_cents (user_unsupported_lines base)
  /\ adjustments_of UNEXPLAINED_RESIDUAL l = rec_residual rec.
Proof.
  cbv zeta. unfold context_adjustments. rewrite !adjustments_of_app.
  destruct (adjustments_of_user (user_unsupported_lines base)) as [Hu Hk]. rewrite Hu.
  rewrite !(adjustments_of_all _ _ _ Hk) by done.
  destruct (avail && tiered), rec; simpl; unfold adjustments_of; simpl;
    rewrite ?sum_by_cons, ?sum_by_nil; simpl; lia.
Qed.

Lemma diagnostic_validates `{Sha256} request ls line_daily policy tiered acc :
  (forall key basis, dict_get key line_daily = Some basis -> NoDup basis.*1) ->
  validate_reconciliation_inputs (request_base request) = Ok tt ->
  foldM (allocate_line (is_interval request) line_daily) ([], []) ls = Ok acc ->
  exists a, diagnostic_cost_allocation_of request ls line_daily
              (reconcile (request_base request) (sum_by rounded_cents ls) policy) tiered = Ok a
    /\ validate_exact_reconciliation a = Ok tt.
Proof.
  intros Hnd Hval Hacc. set (rec := reconcile _ _ _).
  destruct (allocate_lines_sum _ _ _ _ Hnd Hacc) as (Hsum & Hkind & Hav).
  destruct (context_adjustments_sums (request_base request) (is_interval request) tiered rec)
    as (C1 & C2 & C3).
  unfold diagnostic_cost_allocation_of. rewrite Hacc. simpl.
  set (alloc := {| allocation_status := _ |}).
  enough (validate_exact_reconciliation alloc = Ok tt) as Hok.
  { exists alloc. by rewrite Hok. }
  unfold validate_exact_reconciliation, alloc; simpl. rewrite monthly_lines_sum.
  assert (sum_by da_allocated_cents (sorted_by (fun d => (da_service_day d, da_line_item_key d)) acc.1)
    = sum_by da_allocated_cents acc.1) as Hsorted by by rewrite sorted_by_perm.
  rewrite !Hsorted, !adjustments_of_app, C1, C2, C3, Z.add_0_r.
  rewrite (adjustments_of_all _ USER_UNSUPPORTED _ Hkind),
    (adjustments_of_all _ UNEXPLAINED_RESIDUAL _ Hkind) by done.
  rewrite Hsum, !Z.eqb_refl, !Z.add_0_l. simpl.
  assert (sum_by amount_cents (user_unsupported_lines (request_base request))
    = match rec with Some r => rc_user_unsupported_cents r | None => 0 end) as Huser.
  { unfold rec, reconcile. unfold validate_reconciliation_inputs in Hval.
    destruct (current_bill_total_cents (request_base request)); [done|].
    apply raise_if_ok in Hval. simpl in Hval. bools.
    destruct (user_unsupported_lines (request_base request)); [done|].
    simpl in *. congruence. }
  rewrite Huser, Z.eqb_refl. simpl.
  change (match rec with Some r => rc_unexplained_residual_cents r | None => 0 end)
    with (rec_residual rec). rewrite ?Z.eqb_refl. simpl.
  assert (sum_by rounded_cents ls + match rec with Some r => rc_user_unsupported_cents r | None => 0 end
    + rec_residual rec = match rec with Some r => rc_entered_bill_total_cents r
                         | None => sum_by rounded_cents ls end) as Htot.
  { unfold rec, rec_residual, reconcile. destruct (current_bill_total_cents _); simpl; lia. }
  rewrite Htot, Z.eqb_refl. simpl.
  destruct (is_interval request); simpl; [done|]. rewrite Hav by done. done.
Qed.
