(* ===== verification/ReplaySafety.v ===== *)
(** * ReplaySafety: the internal errors of a replay are unreachable

    [safe m] says that [m] can only raise an error that describes its input.
    The internal errors (an uncovered tier, a missing allocation basis, a failed
    diagnostic reconciliation, a missing key) are shown unreachable for
    validated requests on well-formed compiled tariffs. *)

From Stdlib Require Import QArith.QArith_base.
From S2P Require Import Prelude Calendar Json Schema Compiled Fixtures Eligibility.
From S2P Require Import Apportion DayEnergy ChargeIR Replay ReplayProofs.

Definition internal_codes : list string :=
  ["UNCOVERED_TIER"; "DIAGNOSTIC_ALLOCATION_INVALID"; "DIAGNOSTIC_ALLOCATION_BASIS_MISSING"].

Definition external (e : exn) : Prop :=
  match e with
  | ReplayError c => c ∉ internal_codes
  | PyError c => c ∈ ["OverflowError"; "ValueError"]
  | _ => False
  end.

Notation safe := (raises external).

Lemma safe_Ok {A} (a : A) : safe (Ok a).
Proof. apply raises_ok. Qed.
Lemma safe_Raise {A} e : external e -> safe (@Raise A e).
Proof. apply raises_raise. Qed.
Lemma safe_bind {A B} (m : result A) (k : A -> result B) :
  safe m -> (forall a, m = Ok a -> safe (k a)) -> safe (m ≫= k).
Proof. apply raises_bind. Qed.
Lemma safe_raise_if b e : (b = true -> external e) -> safe (raise_if b e).
Proof. intros He. destruct b; [by apply safe_Raise, He|apply safe_Ok]. Qed.
Lemma safe_foldM {S A} (f : S -> A -> result S) s l :
  (forall s x, x ∈ l -> safe (f s x)) -> safe (foldM f s l).
Proof. apply raises_foldM_elem. Qed.

#[export] Hint Resolve safe_Ok safe_Raise safe_bind safe_raise_if : replay.

(** One step through a computation; a concrete error is decided by evaluation. *)
Ltac safe_step :=
  match goal with
  | |- safe (Ok _) => apply safe_Ok
  | |- safe (Raise _) => apply safe_Raise; by (apply (bool_decide_unpack _); vm_compute)
  | |- safe (raise_if _ _) => apply safe_raise_if; intros _; by (apply (bool_decide_unpack _); vm_compute)
  | |- safe (_ ≫= _) => apply safe_bind; [|intros ? ?]
  end.

Lemma safe_datetime_check t : safe (datetime_check t).
Proof. unfold datetime_check. case_match; repeat safe_step. Qed.
Lemma safe_fromtimestamp t : safe (fromtimestamp t).
Proof. unfold fromtimestamp. repeat case_match; repeat safe_step. Qed.
Lemma safe_date_succ d : safe (date_succ d).
Proof. unfold date_succ. case_match; repeat safe_step. Qed.
#[export] Hint Resolve safe_datetime_check safe_fromtimestamp safe_date_succ : replay.

Section Safety.
Context `{ZoneInfo}.

Lemma safe_day_segment window c e : safe (day_segment window c e).
Proof.
  unfold day_segment, astimezone, midnight_utc. repeat (safe_step || auto with replay).
Qed.

Lemma safe_segment_loop fuel window c e segs :
  e - c <= Z.of_nat fuel * US_PER_SECOND -> safe (segment_loop fuel window c e segs).
Proof.
  revert c segs; induction fuel as [|fuel IH]; intros c segs Hf; simpl.
  - destruct (Z.ltb_spec c e); [lia|apply safe_Ok].
  - destruct (Z.ltb_spec c e); [|apply safe_Ok].
    apply safe_bind; [apply safe_day_segment|]. intros [[day secs] se] Hseg.
    apply day_segment_ok in Hseg as (_ & _ & _ & -> & Hs). apply quot_positive in Hs. apply IH. lia.
Qed.

Lemma safe_interval_daily_energy i window :
  0 < duration_seconds i -> safe (interval_daily_energy i window).
Proof.
  intros Hd. unfold interval_daily_energy. apply safe_bind.
  - unfold segment_seconds, interval_start. apply safe_bind; [auto with replay|]. intros st _.
    apply safe_bind; [auto with replay|]. intros en Hen. apply datetime_check_ok in Hen as [-> _].
    apply safe_segment_loop. rewrite Z2Nat.id by lia. lia.
  - intros segs Hs e He. exfalso. unfold segment_seconds in Hs.
    apply bind_ok in Hs as (st & _ & Hs). apply bind_ok in Hs as (en & Hen & Hs).
    apply datetime_check_ok in Hen as [-> _].
    apply segment_loop_inv in Hs as ((_ & Hnn & _) & _ & Hlt); [|apply segments_inv_nil].
    assert (0 < US_PER_SECOND) by done. specialize (Hlt ltac:(nia)).
    change (dict_total []) with 0 in Hlt.
    destruct (proj2 (apportion_integer_ok (interval_energy_wh i) segs)) as [r Hr].
    { right. rewrite positive_items_total by done. lia. }
    congruence.
Qed.

Lemma safe_interval_period s window i : safe (interval_period s window i).
Proof.
  unfold interval_period, interval_start, classify_interval_period, astimezone.
  repeat (safe_step || auto with replay).
Qed.

Lemma safe_daily_energy_of window intervals :
  Forall (fun i => 0 < duration_seconds i) intervals -> safe (daily_energy_of window intervals).
Proof.
  intros Hd. rewrite Forall_forall in Hd. unfold daily_energy_of.
  apply safe_bind; [|intros; apply safe_Ok]. apply safe_foldM. intros totals i Hi.
  apply safe_bind; [by apply safe_interval_daily_energy, Hd|intros; apply safe_Ok].
Qed.

Lemma safe_period_energy_of s window intervals : safe (period_energy_of s window intervals).
Proof.
  unfold period_energy_of. apply safe_foldM. intros totals i _.
  apply safe_bind; [apply safe_interval_period|intros; apply safe_Ok].
Qed.

Lemma safe_period_daily_energy_of s window intervals :
  Forall (fun i => 0 < duration_seconds i) intervals ->
  safe (period_daily_energy_of s window intervals).
Proof.
  intros Hd. rewrite Forall_forall in Hd. unfold period_daily_energy_of.
  apply safe_bind; [|intros; apply safe_Ok]. apply safe_foldM. intros totals i Hi.
  apply safe_bind; [apply safe_interval_period|]. intros p _.
  destruct (dict_setdefault p [] totals) as [bd t'].
  apply safe_bind; [by apply safe_interval_daily_energy, Hd|intros; apply safe_Ok].
Qed.

(** ** The environment the operators run in *)

(** What [replay_env] establishes for a validated request. *)
Record env_ok (env : ReplayEnv) : Prop := {
  eo_energy : 0 <= env_energy env;
  eo_baseline : 0 <= env_baseline_wh env;
  eo_days : is_interval (env_request env) = true ->
    NoDup (env_all_daily_energy env).*1 /\ nonneg_days (env_all_daily_energy env)
    /\ dict_total (env_all_daily_energy env) = env_energy env;
  eo_durations : Forall (fun i => 0 < duration_seconds i) (request_intervals (env_request env));
  eo_energies : Forall (fun i => 0 <= interval_energy_wh i) (request_intervals (env_request env))
}.

(** Tiered operators end with an unbounded tier; baseline allowances are not
    negative. *)
Definition rule_well_formed (op : CompiledRule) : Prop :=
  match op with
  | IRTiered r => tier_upper_bound_operator <$> last (tiers r) = Some UNBOUNDED
  | IRBaseline r => 0 <= daily_allowance_wh r
  | _ => True
  end.

Lemma energy_slice_ok (env : ReplayEnv) off q :
  env_ok env -> is_interval (env_request env) = true ->
  0 <= off -> 0 <= q -> off + q <= env_energy env ->
  exists s, energy_slice (env_all_daily_energy env) off q = Ok s
    /\ NoDup s.*1 /\ nonneg_days s /\ dict_total s = q.
Proof.
  intros [He Hb Hd _ _] Hi Ho Hq Hfit. destruct (Hd Hi) as (Hnd & Hnn & Ht).
  exists (slice_spec 0 off (off + q) (env_all_daily_energy env)).
  rewrite energy_slice_eq by done. rewrite !(proj2 (Z.ltb_ge _ _)), (proj2 (Z.leb_le _ _)) by lia.
  split; [done|]. split; [by apply slice_spec_NoDup|]. split; [apply slice_spec_nonneg|].
  rewrite slice_spec_total by done. lia.
Qed.

(** ** Allocation bases *)

(** An energy line with a nonzero amount has a positive basis to spread it on. *)
Definition wh_line_ok (line_daily : dict string (dict date Z)) (l : ChargeLineItem) : Prop :=
  quantity_unit l = "Wh" -> forall basis, dict_get (line_item_key l) line_daily = Some basis ->
  rounded_cents l <> 0 -> dict_total (positive_items basis) <> 0.

Record bases_ok (env : ReplayEnv) (st : LoopState) : Prop := {
  bo_NoDup key basis : dict_get key (line_daily_energy st) = Some basis -> NoDup basis.*1;
  bo_lines : NoDup (line_item_key <$> lines st) ->
    Forall (wh_line_ok (line_daily_energy st)) (lines st);
  bo_interval : is_interval (env_request env) = false -> line_daily_energy st = []
}.

Lemma energy_line_zero bundle rule key rate window c :
  rounded_cents (energy_line bundle rule key 0 rate window c) = 0.
Proof. unfold energy_line, charge_line; simpl. by rewrite round_half_up_cents_closed. Qed.

Lemma bases_ok_energy_line env st bundle rule key q rate window c basis :
  is_interval (env_request env) = true ->
  bases_ok env st -> NoDup basis.*1 -> nonneg_days basis -> dict_total basis = q ->
  bases_ok env (set_basis key basis (add_line (energy_line bundle rule key q rate window c) st)).
Proof.
  intros Hint [Hn Hl Hi] Hnd Hnn Ht. split; simpl; [| |congruence].
  - intros key' b Hb. destruct (decide (key = key')) as [<-|Hne].
    + rewrite dict_get_set_eq in Hb. by injection Hb as <-.
    + rewrite dict_get_set_ne in Hb by done. by eapply Hn.
  - rewrite fmap_app. intros (Hnd1 & Hdis & _)%NoDup_app. apply Forall_app. split.
    + specialize (Hl Hnd1). rewrite Forall_forall in Hl |- *. intros l Hin.
      unfold wh_line_ok. rewrite dict_get_set_ne; [by apply Hl|].
      intros E. apply (Hdis (line_item_key l)); [apply list_elem_of_fmap; by exists l|].
      simpl. rewrite <- E. set_solver.
    + repeat constructor. intros _ b. simpl. rewrite dict_get_set_eq. intros [= <-] Hc.
      rewrite positive_items_total by done. intros Hz. apply Hc. rewrite Hz in Ht. subst q.
      apply (energy_line_zero bundle rule key rate window c).
Qed.

Lemma bases_ok_plain_line env st l :
  quantity_unit l <> "Wh" \/ is_interval (env_request env) = false ->
  bases_ok env st -> bases_ok env (add_line l st).
Proof.
  intros Hl [Hn Hls Hi]. split; simpl; [done| |done].
  rewrite fmap_app. intros (Hnd1 & _)%NoDup_app. apply Forall_app. split; [by apply Hls|].
  repeat constructor. intros Hu b. destruct Hl as [Hl|Hl]; [done|]. by rewrite Hi.
Qed.

Lemma emit_tier_line_safe env op index q rem t st :
  env_ok env -> bases_ok env st -> 0 <= q <= rem -> rem <= env_energy env ->
  safe (emit_tier_line env op index q rem t st)
  /\ (forall st', emit_tier_line env op index q rem t st = Ok st' -> bases_ok env st').
Proof.
  intros Hok Hb Hq Hr. unfold emit_tier_line. destruct (is_interval (env_request env)) eqn:Ei.
  - destruct (energy_slice_ok env (env_energy env - rem) q) as (s & -> & Hnd & Hnn & Ht);
      [done|done|lia..|].
    split; [apply safe_Ok|]. intros st' [= <-]. by apply bases_ok_energy_line.
  - split; [apply safe_Ok|]. intros st' [= <-]. apply bases_ok_plain_line; [by right|done].
Qed.

Lemma tier_loop_safe env op index rem lower ts st :
  env_ok env -> bases_ok env st -> 0 <= rem <= env_energy env ->
  safe (tier_loop env op index rem lower ts st)
  /\ (forall out, tier_loop env op index rem lower ts st = Ok out -> bases_ok env out.2).
Proof.
  intros Hok. revert index rem lower st; induction ts as [|t ts IH]; intros index rem lower st Hb Hr; simpl.
  - split; [apply safe_Ok|]. by intros out [= <-].
  - assert (forall q, 0 <= q <= rem ->
      safe (if q =? 0 then Ok st else emit_tier_line env op index q rem t st)
      /\ (forall st', (if q =? 0 then Ok st else emit_tier_line env op index q rem t st) = Ok st' ->
           bases_ok env st')) as Hemit.
    { intros q Hq. destruct (q =? 0); [split; [apply safe_Ok|by intros st' [= <-]]|].
      apply emit_tier_line_safe; [done|done|done|lia]. }
    split.
    + apply safe_bind.
      { unfold tier_bound. case_match; repeat safe_step. }
      intros u _. apply safe_bind; [safe_step|]. intros ? Hneg. apply raise_if_ok in Hneg. bools.
      assert (match u with Some u => Z.min rem (u - lower) | None => rem end <= rem) by (destruct u; lia).
      apply safe_bind; [by apply Hemit|]. intros st1 Hst1. apply Hemit in Hst1; [|done].
      destruct (_ =? 0); [apply safe_Ok|]. apply IH; [done|lia].
    + intros out Hout. apply bind_ok in Hout as (u & _ & Hout).
      apply bind_ok in Hout as (u' & Hneg & Hout). apply raise_if_ok in Hneg. bools.
      assert (match u with Some u => Z.min rem (u - lower) | None => rem end <= rem) by (destruct u; lia).
      apply bind_ok in Hout as (st1 & Hst1 & Hout). apply Hemit in Hst1; [|done].
      destruct (_ =? 0) in Hout; [by injection Hout as <-|]. eapply IH; [| |exact Hout]; [done|lia].
Qed.

Lemma tier_shares_sum baseline energy lower ts :
  tier_upper_bound_operator <$> last ts = Some UNBOUNDED ->
  zsum (tier_shares baseline energy lower ts) = Z.max 0 (energy - lower).
Proof.
  revert lower; induction ts as [|t ts IH]; intros lower Hl; [done|].
  destruct ts as [|t' ts].
  - simpl in Hl. injection Hl as Hl. simpl. unfold tier_upper. rewrite Hl. simpl. lia.
  - change (zsum (tier_shares baseline energy lower (t :: t' :: ts)))
      with (Z.max 0 (Z.min energy (default energy (tier_upper baseline t)) - lower)
            + zsum (tier_shares baseline energy (Z.max lower (default energy (tier_upper baseline t)))
                      (t' :: ts))).
    rewrite IH by done. lia.
Qed.

Lemma eval_tiered_safe env op st :
  env_ok env -> rule_well_formed (IRTiered op) -> bases_ok env st ->
  safe (eval_tiered env op st)
  /\ (forall st', eval_tiered env op st = Ok st' -> bases_ok env st').
Proof.
  intros Hok Hwf Hb. pose proof (eo_energy _ Hok) as He.
  destruct (tier_loop_safe env op 1 (env_energy env) 0 (tiers op) (mark_tiered st)) as [Hs Hi];
    [done|by destruct Hb|lia|].
  unfold eval_tiered. split.
  - apply safe_bind; [done|]. intros [rem st1] Hl. apply safe_bind; [|intros; apply safe_Ok].
    rewrite <- (Z.sub_0_r (env_energy env)) in Hl at 1.
    apply tier_loop_reference in Hl as [_ ->]; [|lia]. simpl.
    rewrite tier_shares_sum by done. rewrite (proj2 (Z.eqb_eq _ 0)) by lia. apply safe_Ok.
  - intros st' Hr. apply bind_ok in Hr as (out & Hl & Hr). inv_ok. subst. by eapply Hi.
Qed.

Lemma eval_period_rates_bases env op pe pde rates st :
  is_interval (env_request env) = true ->
  (forall p, NoDup (default [] (dict_get p pde)).*1 /\ nonneg_days (default [] (dict_get p pde))
             /\ dict_total (default [] (dict_get p pde)) = default 0 (dict_get p pe)) ->
  bases_ok env st -> bases_ok env (foldl (eval_period_rate env op pe pde) st rates).
Proof.
  intros Hint Hp. revert st; induction rates as [|r rates IH]; intros st Hb; simpl; [done|].
  apply IH. unfold eval_period_rate. case_match; [done|].
  destruct (Hp (irp_period r)) as (? & ? & ?). by apply bases_ok_energy_line.
Qed.

Lemma eval_baseline_credit_safe env op st :
  env_ok env -> is_interval (env_request env) = true -> bases_ok env st ->
  safe (eval_baseline_credit env op st)
  /\ (forall st', eval_baseline_credit env op st = Ok st' -> bases_ok env st').
Proof.
  intros Hok Hint Hb. unfold eval_baseline_credit.
  destruct (baseline_credit_microdollars_per_kwh op); [|split; [apply safe_Ok|by intros st' [= <-]]].
  pose proof (eo_energy _ Hok). pose proof (eo_baseline _ Hok).
  destruct (energy_slice_ok env 0 (Z.min (env_energy env) (env_baseline_wh env)))
    as (s & -> & Hnd & Hnn & Ht); [done|done|lia..|].
  split; [apply safe_Ok|]. intros st' [= <-]. by apply bases_ok_energy_line.
Qed.

Lemma resolve_safe bundle id : safe (resolve_time_schedule bundle id).
Proof. unfold resolve_time_schedule. repeat case_match; repeat safe_step. Qed.

(** The cached profiles used for a time-of-use operator agree with each other. *)
Lemma cached_profiles env s id pe pde :
  Forall (fun i => 0 <= interval_energy_wh i) (request_intervals (env_request env)) ->
  resolve_time_schedule (env_bundle env) id = Ok s ->
  (exists s', resolve_time_schedule (env_bundle env) id = Ok s'
     /\ period_energy (env_request env) s' = Ok pe) ->
  (exists s', resolve_time_schedule (env_bundle env) id = Ok s'
     /\ period_daily_energy_of s' (service_window (env_facts env))
          (request_intervals (env_request env)) = Ok pde) ->
  forall p, NoDup (default [] (dict_get p pde)).*1 /\ nonneg_days (default [] (dict_get p pde))
            /\ dict_total (default [] (dict_get p pde)) = default 0 (dict_get p pe).
Proof.
  intros Hnn Hs (s1 & Hs1 & Hpe) (s2 & Hs2 & Hpde) p.
  assert (s1 = s) as -> by congruence. assert (s2 = s) as -> by congruence.
  unfold period_energy, env_facts in *. destruct (env_request env) as [b|b intervals dated]; [done|].
  simpl in *. destruct (period_energy_of_ok _ _ _ _ Hpe) as (_ & _ & Hg).
  destruct (period_daily_energy_of_ok _ _ _ _ Hnn Hpde) as (Hi & Ht & _).
  destruct (Hi p) as (Hnd & Hn & _). split; [done|]. split; [done|]. by rewrite Ht, Hg.
Qed.

Lemma setdefault_value {K V} `{EqDecision K} (P : V -> Prop) (k : K) v (d : dict K V) :
  (forall v', dict_get k d = Some v' -> P v') -> P v -> P (dict_setdefault k v d).1.
Proof.
  intros Hd Hv. unfold dict_setdefault. destruct (dict_get k d) eqn:E; [by apply Hd|done].
Qed.

Lemma eval_time_of_use_safe env op st :
  env_ok env -> cache_ok env st -> bases_ok env st ->
  safe (eval_time_of_use env op st)
  /\ (forall st', eval_time_of_use env op st = Ok st' -> bases_ok env st').
Proof.
  intros Hok [Hc1 Hc2] Hb. unfold eval_time_of_use.
  destruct (resolve_time_schedule (env_bundle env) (schedule_rule_id op)) as [s|e] eqn:Hs;
    [|split; [|done]; intros e' [= <-]; by eapply resolve_safe].
  simpl. rewrite (resolve_time_schedule_id _ _ _ Hs).
  destruct (period_energy (env_request env) s) as [fresh|e] eqn:Hf; simpl.
  2: { split; [|done]. intros e' [= <-]. unfold period_energy in Hf.
       destruct (env_request env); [injection Hf as <-; by apply (bool_decide_unpack _); vm_compute|].
       by eapply safe_period_energy_of. }
  pose proof (setdefault_value (fun pe => exists s',
    resolve_time_schedule (env_bundle env) (schedule_rule_id op) = Ok s'
    /\ period_energy (env_request env) s' = Ok pe) (schedule_rule_id op) fresh
    (period_energy_by_schedule st) (Hc1 _) ltac:(by exists s)) as Hpe.
  destruct (dict_setdefault _ fresh _) as [pe by_schedule]. simpl in Hpe.
  destruct (env_request env) as [b|b intervals dated] eqn:Er.
  { split; [apply safe_Raise; by apply (bool_decide_unpack _); vm_compute|done]. }
  assert (service_window (account_facts b) = service_window (env_facts env)) as Hw
    by (unfold env_facts; by rewrite Er).
  destruct (period_daily_energy_of s _ intervals) as [fd|e] eqn:Hfd; simpl.
  2: { split; [|done]. intros e' [= <-]. eapply safe_period_daily_energy_of; [|exact Hfd].
       pose proof (eo_durations _ Hok) as Hd. by rewrite Er in Hd. }
  pose proof (setdefault_value (fun pde => exists s',
    resolve_time_schedule (env_bundle env) (schedule_rule_id op) = Ok s'
    /\ period_daily_energy_of s' (service_window (env_facts env)) intervals = Ok pde)
    (schedule_rule_id op) fd (period_daily_energy_by_schedule st) (Hc2 _)
    ltac:(exists s; by rewrite <- Hw)) as Hpde.
  destruct (dict_setdefault _ fd _) as [pde daily_by]. simpl in Hpde.
  apply eval_baseline_credit_safe; [done|by rewrite Er|].
  apply eval_period_rates_bases; [by rewrite Er| |by destruct Hb; split].
  eapply (cached_profiles env s (schedule_rule_id op));
    rewrite ?Er; [|done|exact Hpe|exact Hpde].
  pose proof (eo_energies _ Hok) as He. by rewrite Er in He.
Qed.

Lemma eval_operator_safe env op st :
  env_ok env -> rule_well_formed op -> cache_ok env st -> bases_ok env st ->
  safe (eval_operator env st op)
  /\ (forall st', eval_operator env st op = Ok st' -> bases_ok env st').
Proof.
  intros Hok Hwf Hc Hb. unfold eval_operator.
  destruct (negb _); [split; [apply safe_Ok|by intros st' [= <-]]|].
  destruct op as [r|r|r|r|r|r|r].
  2: by apply eval_tiered_safe.
  3: by apply eval_time_of_use_safe.
  all: split; [apply safe_Ok|intros st' [= <-]].
  - done.
  - done.
  - by apply bases_ok_plain_line; [left|].
  - by apply bases_ok_plain_line; [left|].
  - by destruct Hb; split.
Qed.

Lemma eval_operators_safe env ops :
  env_ok env -> Forall rule_well_formed ops ->
  safe (foldM (eval_operator env) initial_state ops)
  /\ (forall st, foldM (eval_operator env) initial_state ops = Ok st -> bases_ok env st).
Proof.
  intros Hok Hwf. assert (0 <= env_energy env) as He by apply Hok.
  assert (bases_ok env initial_state) as Hb0 by (split; [done|constructor|done]).
  assert (cache_ok env initial_state) as Hc0 by done.
  revert Hb0 Hc0. generalize initial_state. induction Hwf as [|op ops Hop _ IH]; intros st Hb Hc; simpl.
  - split; [apply safe_Ok|by intros st' [= <-]].
  - destruct (eval_operator_safe env op st Hok Hop Hc Hb) as [Hs Hi]. split.
    + apply safe_bind; [done|]. intros st1 H1. apply IH; [by apply Hi|].
      by apply eval_operator_reference in H1 as [? _].
    + intros st' Hr. apply bind_ok in Hr as (st1 & H1 & Hr). eapply IH; [| |exact Hr]; [by apply Hi|].
      by apply eval_operator_reference in H1 as [? _].
Qed.

Lemma daily_entries_safe line basis allocated :
  allocated.*1 ⊆ basis.*1 -> exists es, daily_entries line basis allocated = Ok es.
Proof.
  unfold daily_entries. induction allocated as [|[k v] allocated IH]; intros Hk; simpl; [eauto|].
  destruct (dict_get k basis) eqn:E.
  - destruct IH as [es Hes]; [simpl in Hk; set_solver|]. rewrite Hes. simpl. eauto.
  - apply dict_get_None in E. exfalso. apply E, Hk. simpl. set_solver.
Qed.

Lemma allocate_lines_total avail line_daily ls :
  (forall key basis, dict_get key line_daily = Some basis -> NoDup basis.*1) ->
  Forall (wh_line_ok line_daily) ls -> forall acc,
  exists acc', foldM (allocate_line avail line_daily) acc ls = Ok acc'.
Proof.
  intros Hnd Hls. induction Hls as [|l ls Hl _ IH]; intros acc; simpl; [eauto|].
  enough (exists acc1, allocate_line avail line_daily acc l = Ok acc1) as [acc1 ->] by apply IH.
  unfold allocate_line. destruct (dict_get _ line_daily) as [basis|] eqn:Eb; [|eauto].
  destruct avail; simpl; [|eauto]. destruct (String.eqb_spec (quantity_unit l) "Wh") as [Hu|]; [|eauto].
  assert (exists al, apportion_integer (rounded_cents l) basis = Ok al) as [al Hal].
  { apply apportion_integer_ok. destruct (Z.eq_dec (rounded_cents l) 0); [by left|right].
    by eapply Hl. }
  rewrite Hal. simpl. apply apportion_integer_apportioned in Hal as [_ Hk _ _]; [|by eapply Hnd].
  destruct (daily_entries_safe l basis al) as [es ->]; [|simpl; eauto].
  rewrite Hk. intros k Hin. apply list_elem_of_fmap in Hin as ([k' w] & -> & Hin).
  apply positive_items_pos in Hin as [Hin _]. apply list_elem_of_fmap. by exists (k', w).
Qed.
End Safety.

(** Every applicable time-of-use operator of a completed loop resolved its
    schedule and classified every interval. *)
Lemma eval_operators_resolved `{ZoneInfo} env ops st op :
  foldM (eval_operator env) initial_state ops = Ok st -> IRTimeOfUse op ∈ ops ->
  rule_applies (applicability (ir_tc_base op)) (env_facts env) (env_bill_cycle_month env) = true ->
  exists s, resolve_time_schedule (env_bundle env) (schedule_rule_id op) = Ok s
    /\ Forall (fun i => exists p, interval_period s (service_window (env_facts env)) i = Ok p)
         (request_intervals (env_request env)).
Proof.
  intros Hst Hop Happ. revert Hst. generalize initial_state.
  induction ops as [|o ops IH]; intros st0 Hst; [set_solver|]. simpl in Hst.
  apply bind_ok in Hst as (st1 & H1 & Hst). apply elem_of_cons in Hop as [<-|Hop]; [|by eapply IH].
  unfold eval_operator in H1. simpl in H1. rewrite Happ in H1. simpl in H1.
  unfold eval_time_of_use in H1. apply bind_ok in H1 as (s & Hs & H1).
  apply bind_ok in H1 as (fresh & Hf & _). exists s. split; [done|].
  unfold period_energy in Hf. unfold env_facts.
  destruct (env_request env) as [b|b intervals dated]; [done|]. simpl.
  by apply period_energy_of_all in Hf.
Qed.

(** ** The whole replay *)
Section WholeReplay.
Context `{ZoneInfo} `{Sha256}.

Lemma request_valid_intervals request : request_valid request = true ->
  Forall (fun i => 0 < duration_seconds i) (request_intervals request)
  /\ Forall (fun i => 0 <= interval_energy_wh i) (request_intervals request)
  /\ 0 <= energy_wh (request_base request)
  /\ (is_interval request = true ->
      sum_by interval_energy_wh (request_intervals request) = energy_wh (request_base request)).
Proof.
  unfold request_valid. intros Hv. apply andb_true_iff in Hv as [He Hv]. apply Z.leb_le in He.
  destruct request as [b|b intervals dated]; simpl in *; [by repeat constructor|].
  apply andb_true_iff in Hv as [Hf Hi]. rewrite forallb_forall in Hf.
  assert (forall i, i ∈ intervals -> ReplayInterval_fields_ok i = true) as Hf'
    by (intros i Hin; by apply Hf, list_elem_of_In).
  unfold ReplayInterval_fields_ok in Hf'.
  split; [|split; [|split; [done|]]].
  - apply Forall_forall. intros i Hin. specialize (Hf' i Hin). bools. done.
  - apply Forall_forall. intros i Hin. specialize (Hf' i Hin). bools. done.
  - intros _. destruct (validate_intervals b intervals) eqn:E; [|done].
    unfold validate_intervals in E. inv_ok. by bools.
Qed.

Lemma baseline_allowance_nonneg bundle facts days month wh :
  Forall rule_well_formed (operators (ir bundle)) -> 0 < days ->
  baseline_allowance_wh bundle facts days month = Ok wh -> 0 <= wh.
Proof.
  intros Hwf Hd. unfold baseline_allowance_wh.
  destruct (omap as_baseline (operators (ir bundle))) as [|b bs] eqn:Eb; [by intros [= <-]|].
  rewrite <- Eb. destruct (List.filter _ _) as [|r [|]] eqn:Ef; try done. intros [= <-].
  assert (In r [r]) as Hin by (simpl; auto). rewrite <- Ef in Hin. apply filter_In in Hin as [Hin _].
  apply list_elem_of_In, list_elem_of_omap in Hin as (op & Hop & Ho).
  rewrite Forall_forall in Hwf. specialize (Hwf op Hop). destruct op; simpl in Ho; simplify_eq. apply Z.mul_nonneg_nonneg; [exact Hwf|lia].
Qed.

Lemma replay_env_ok bundle request el env :
  request_valid request = true -> Forall rule_well_formed (operators (ir bundle)) ->
  replay_env bundle request = Ok (el, env) ->
  env_ok env /\ env_bundle env = bundle /\ env_request env = request
  /\ validate_reconciliation_inputs (request_base request) = Ok tt /\ status el = ELIGIBLE.
Proof.
  intros Hv Hwf Hr. destruct (request_valid_intervals _ Hv) as (Hdur & Hen & He & Hsum).
  unfold replay_env in Hr. apply bind_ok in Hr as ([] & Hval & Hr).
  apply bind_ok in Hr as (el' & _ & Hr). apply bind_ok in Hr as (u1 & Hel & Hr).
  apply raise_if_ok in Hel. bools. destruct (dr_end _) as [we|] eqn:Ee; [|done].
  apply bind_ok in Hr as (u2 & Hdays & Hr). apply raise_if_ok in Hdays. bools.
  apply bind_ok in Hr as (u3 & _ & Hr). apply bind_ok in Hr as (bw & Hbw & Hr).
  apply bind_ok in Hr as (daily & Hdaily & [= <- <-]). simpl.
  split; [|done]. split; simpl.
  - unfold env_energy. done.
  - eapply baseline_allowance_nonneg; [done| |exact Hbw]. lia.
  - intros Hint. destruct request as [b|b intervals dated]; [done|].
    destruct (daily_energy_of_ok _ _ _ Hen Hdaily) as (Ht & (Hnd & Hnn & _) & _).
    split; [done|]. split; [done|]. rewrite Ht. by apply Hsum.
  - done.
  - done.
Qed.

(** The compiled limits hold of an environment that was built. *)
Lemma replay_env_limits bundle request el env :
  replay_env bundle request = Ok (el, env) ->
  env_energy env <= maximum_energy_wh (ir bundle)
  /\ 0 < env_billing_days env <= maximum_billing_days (ir bundle).
Proof.
  intros Hr. unfold replay_env in Hr. apply bind_ok in Hr as ([] & _ & Hr).
  apply bind_ok in Hr as (el' & _ & Hr). apply bind_ok in Hr as (u1 & _ & Hr).
  destruct (dr_end _) as [we|]; [|done].
  apply bind_ok in Hr as (u2 & Hdays & Hr). apply raise_if_ok in Hdays. bools.
  apply bind_ok in Hr as (u3 & Hen & Hr). apply raise_if_ok in Hen. bools.
  apply bind_ok in Hr as (bw & _ & Hr). apply bind_ok in Hr as (daily & _ & [= <- <-]).
  unfold env_energy. simpl. lia.
Qed.

Lemma safe_evaluate_eligibility bundle f d : safe (evaluate_eligibility bundle f d).
Proof.
  unfold evaluate_eligibility, predicate, collect_reasons, check_v2, check_annual_baseline,
    date_replace_year.
  repeat first [safe_step | case_match].
Qed.

Lemma safe_replay_env bundle request : request_valid request = true -> safe (replay_env bundle request).
Proof.
  intros Hv. destruct (request_valid_intervals _ Hv) as (Hdur & _).
  unfold replay_env, validate_reconciliation_inputs.
  apply safe_bind; [safe_step|]. intros ? _.
  apply safe_bind; [apply safe_evaluate_eligibility|]. intros el _.
  apply safe_bind.
  { apply safe_raise_if. intros _. destruct (status el); by (apply (bool_decide_unpack _); vm_compute). }
  intros ? _. destruct (dr_end _); [|safe_step].
  apply safe_bind; [safe_step|]. intros ? _. apply safe_bind; [safe_step|]. intros ? _.
  apply safe_bind.
  { unfold baseline_allowance_wh. repeat first [safe_step | case_match]. }
  intros ? _. apply safe_bind; [|intros; apply safe_Ok].
  destruct request; [safe_step|]. by apply safe_daily_energy_of.
Qed.

Lemma replay_safe_lemma bundle request policy :
  request_valid request = true -> Forall rule_well_formed (operators (ir bundle)) ->
  (forall el env, replay_env bundle request = Ok (el, env) ->
     NoDup (line_item_key <$> (operators (ir bundle) ≫= operator_lines env))) ->
  safe (replay_compiled_tariff bundle request policy).
Proof.
  intros Hv Hwf Hkeys. unfold replay_compiled_tariff.
  apply safe_bind; [by apply safe_replay_env|]. intros [el env] Henv.
  destruct (replay_env_ok _ _ _ _ Hv Hwf Henv) as (Hok & _ & Er & Hval & _).
  destruct (eval_operators_safe env _ Hok Hwf) as [Hs Hb].
  apply safe_bind; [done|]. intros st Hst.
  apply safe_bind; [|intros; apply safe_Ok].
  specialize (Hb _ Hst). apply eval_operators_reference in Hst; [|apply Hok].
  destruct (allocate_lines_total (is_interval request) (line_daily_energy st) (lines st)
    (bo_NoDup _ _ Hb)) with (acc := ([], []) : list DailyEnergyChargeAllocation
                                     * list BillingPeriodAdjustment) as [acc Hacc].
  { apply (bo_lines _ _ Hb). rewrite Hst. by eapply Hkeys. }
  destruct (diagnostic_validates request _ _ (default default_policy policy) (has_tiered_energy st) acc
    (bo_NoDup _ _ Hb) Hval Hacc) as (a & -> & _). apply safe_Ok.
Qed.
End WholeReplay.

(** ** Theorems *)
Section Theorems.
Context `{ZoneInfo} `{Sha256}.

(** C1: the evaluator computes the reference bill.  Whenever a replay of a
    validated request succeeds, the account is ELIGIBLE, the line items are, in
    operator order, exactly the lines of the state-free reference (clamped tier
    quantities, period energy sums, baseline credit, fixed charges) of the
    applicable operators, and the supported total is the sum of their rounded
    cents.  The caching of period totals between operators is not observable. *)
Theorem replay_bill_reference bundle request policy el env res :
  request_valid request = true -> Forall rule_well_formed (operators (ir bundle)) ->
  replay_env bundle request = Ok (el, env) ->
  replay_compiled_tariff bundle request policy = Ok res ->
  line_items res = operators (ir bundle) ≫= operator_lines env
  /\ supported_calculated_cents res = sum_by rounded_cents (operators (ir bundle) ≫= operator_lines env)
  /\ status (eligibility res) = ELIGIBLE.
Proof.
  intros Hv Hwf Henv Hr. destruct (replay_env_ok _ _ _ _ Hv Hwf Henv) as (Hok & _ & _ & _ & Hel).
  unfold replay_compiled_tariff in Hr. rewrite Henv in Hr. simpl in Hr.
  apply bind_ok in Hr as (st & Hst & Hr). apply bind_ok in Hr as (a & _ & [= <-]). simpl.
  apply eval_operators_reference in Hst; [|apply Hok]. by rewrite Hst.
Qed.

(** Tiers exhaust the metered energy.  The line items of a successful replay
    contain, for every applicable tiered operator, one contiguous run of tier
    lines whose watt-hours add up to the request's energy. *)
Theorem replay_tiers_conserve_energy bundle request policy el env res op :
  request_valid request = true -> Forall rule_well_formed (operators (ir bundle)) ->
  replay_env bundle request = Ok (el, env) ->
  replay_compiled_tariff bundle request policy = Ok res ->
  IRTiered op ∈ operators (ir bundle) ->
  rule_applies (applicability (ir_te_base op)) (env_facts env) (env_bill_cycle_month env) = true ->
  exists before tier_lines after, line_items res = before ++ tier_lines ++ after
    /\ Forall (fun l => li_rule_id l = rule_id (ir_te_base op) /\ quantity_unit l = "Wh") tier_lines
    /\ sum_by quantity_numerator tier_lines = energy_wh (request_base request).
Proof.
  intros Hv Hwf Henv Hr Hop Happ. destruct (replay_env_ok _ _ _ _ Hv Hwf Henv) as (Hok & _ & Hreq & _).
  pose proof Hwf as Hwf'. rewrite Forall_forall in Hwf'. specialize (Hwf' _ Hop).
  unfold replay_compiled_tariff in Hr. rewrite Henv in Hr. simpl in Hr.
  apply bind_ok in Hr as (st & Hst & Hr). apply bind_ok in Hr as (a & _ & [= <-]). simpl.
  apply eval_operators_reference in Hst; [|apply Hok]. rewrite Hst.
  apply list_elem_of_split in Hop as (l1 & l2 & ->).
  exists (l1 ≫= operator_lines env), (tiered_reference env op), (l2 ≫= operator_lines env).
  split; [|split; [apply tier_reference_lines|]].
  - rewrite bind_app. simpl. unfold operator_lines at 2. simpl. by rewrite Happ.
  - unfold tiered_reference. rewrite tier_reference_quantity, tier_shares_sum by done.
    pose proof (eo_energy _ Hok) as He. unfold env_energy in *. rewrite Hreq in *. lia.
Qed.

(** C5: a successful replay reconciles to the cent.  Daily and monthly
    allocations agree and, with the period charges, add up to the supported
    total; against an entered bill, supported, user-entered and residual cents
    add up to that bill, and the classification is EXACT exactly for a zero
    residual and REVIEW_REQUIRED exactly when it exceeds the tolerance. *)
Theorem replay_reconciles bundle request policy res :
  replay_compiled_tariff bundle request policy = Ok res ->
  let a := diagnostic_cost_allocation res in
  sum_by ma_allocated_cents (monthly_energy_charges a) = sum_by da_allocated_cents (daily_energy_charges a)
  /\ sum_by da_allocated_cents (daily_energy_charges a)
     + adjustments_of SUPPORTED_PERIOD_CHARGE (billing_period_adjustments a)
     = supported_calculated_cents res
  /\ (reconciliation res = None <-> current_bill_total_cents (request_base request) = None)
  /\ (forall r, reconciliation res = Some r ->
        supported_calculated_cents res + rc_user_unsupported_cents r + rc_unexplained_residual_cents r
          = rc_entered_bill_total_cents r
        /\ current_bill_total_cents (request_base request) = Some (rc_entered_bill_total_cents r)
        /\ (classification r = C_EXACT <-> rc_unexplained_residual_cents r = 0)
        /\ (classification r = C_REVIEW_REQUIRED <->
              rc_unexplained_residual_cents r <> 0
              /\ review_tolerance_cents (default default_policy policy)
                 < Z.abs (rc_unexplained_residual_cents r))).
Proof.
  intros Hr. unfold replay_compiled_tariff in Hr. apply bind_ok in Hr as ([el env] & _ & Hr).
  apply bind_ok in Hr as (st & _ & Hr). apply bind_ok in Hr as (a & Ha & [= <-]). simpl.
  assert (validate_exact_reconciliation a = Ok tt
    /\ ca_supported_calculated_cents (allocation_reconciliation a) = sum_by rounded_cents (lines st))
    as [Hval Hsup].
  { unfold diagnostic_cost_allocation_of in Ha. apply bind_ok in Ha as (acc & _ & Ha).
    apply bind_ok in Ha as ([] & Hval & [= <-]). done. }
  unfold validate_exact_reconciliation in Hval. inv_ok. bools.
  split; [congruence|]. split; [congruence|].
  unfold reconcile. destruct (current_bill_total_cents (request_base request)) as [t|]; [|naive_solver].
  split; [naive_solver|]. intros r [= <-]. simpl.
  split; [lia|]. split; [done|]. repeat case_match; bools; split; split; intros; done || lia.
Qed.

(** C2: the internal errors of the evaluator are unreachable.  For a validated
    request on a compiled tariff whose tiers end unbounded and whose bill has
    distinct line keys, any error raised is a [ReplayError] about the input or
    an out-of-range date: never UNCOVERED_TIER, never a missing or invalid
    allocation basis, never a failed diagnostic reconciliation, never a missing
    key or exhausted loop. *)
Theorem replay_internal_errors_unreachable bundle request policy e :
  request_valid request = true -> Forall rule_well_formed (operators (ir bundle)) ->
  (forall el env, replay_env bundle request = Ok (el, env) ->
     NoDup (line_item_key <$> (operators (ir bundle) ≫= operator_lines env))) ->
  replay_compiled_tariff bundle request policy = Raise e -> external e.
Proof. intros Hv Hwf Hk. by apply replay_safe_lemma. Qed.
End Theorems.

(** ** Witnesses *)
Lemma e1_well_formed : Forall rule_well_formed (operators (ir e1_bundle)).
Proof. repeat constructor; simpl; lia. Qed.

Lemma replay_bill_reference_witness :
  exists res, e1_result = Ok res /\ supported_calculated_cents res = 9819
    /\ status (eligibility res) = ELIGIBLE.
Proof.
  destruct e1_result as [res|] eqn:E; [|vm_compute in E; discriminate E].
  exists res. split; [reflexivity|].
  destruct (replay_env (H0 := toy_sha256) e1_bundle e1_310kwh) as [[el env]|] eqn:Ee;
    [|vm_compute in Ee; discriminate Ee].
  destruct (replay_bill_reference (H0 := toy_sha256) e1_bundle e1_310kwh None el env res) as (_ & _ & Hs).
  - vm_compute. reflexivity.
  - apply e1_well_formed.
  - exact Ee.
  - exact E.
  - split; [|exact Hs]. vm_compute in E. injection E as <-. reflexivity.
Defined.

Lemma replay_tiers_conserve_energy_witness :
  exists res before tier_lines after, e1_result = Ok res
    /\ line_items res = before ++ tier_lines ++ after
    /\ sum_by quantity_numerator tier_lines = 310000.
Proof.
  destruct e1_result as [res|] eqn:E; [|vm_compute in E; discriminate E].
  destruct (replay_env (H0 := toy_sha256) e1_bundle e1_310kwh) as [[el env]|] eqn:Ee;
    [|vm_compute in Ee; discriminate Ee].
  pose (op := match e1_energy with IRTiered op => op | _ => {| ir_te_base :=
    rule_fixture EmptyString always EXACT bundled_energy; ir_te_line_item_key := EmptyString;
    tiers := [] |} end).
  destruct (replay_tiers_conserve_energy (H0 := toy_sha256) e1_bundle e1_310kwh None el env res op)
    as (b & t & a & Hl & _ & Hs).
  - vm_compute. reflexivity.
  - apply e1_well_formed.
  - exact Ee.
  - exact E.
  - right. left.
  - vm_compute in Ee. injection Ee as _ <-. vm_compute. reflexivity.
  - exists res, b, t, a. split; [reflexivity|]. split; [exact Hl|exact Hs].
Defined.

Definition e1_with_bill : AnyReplayRequest := ReplayRequest (base_fixture 310000 (Some 10000)).

Lemma replay_reconciles_witness :
  exists res r,
    replay_compiled_tariff (H0 := toy_sha256) e1_bundle e1_with_bill None = Ok res
    /\ reconciliation res = Some r
    /\ supported_calculated_cents res + rc_user_unsupported_cents r + rc_unexplained_residual_cents r
       = rc_entered_bill_total_cents r.
Proof.
  destruct (replay_compiled_tariff (H0 := toy_sha256) e1_bundle e1_with_bill None) as [res|] eqn:E;
    [|vm_compute in E; discriminate E].
  destruct (replay_reconciles (H0 := toy_sha256) e1_bundle e1_with_bill None res E)
    as (_ & _ & Hnone & Hr).
  destruct (reconciliation res) as [r|] eqn:Er.
  - exists res, r. split; [reflexivity|]. split; [exact Er|]. apply (Hr r eq_refl).
  - exfalso. discriminate (proj1 Hnone eq_refl).
Defined.

(** E-1 with a tier bound of one seventh of the baseline allowance. *)
Definition seventh_bundle : CompilationBundle :=
  bundle_fixture "pge-e1-seventh" (PredicateV1 july_predicate) july_2026
    [e1_baseline;
     IRTiered {| ir_te_base := rule_fixture "E1_SEVENTH" always HALF_UP_CENT_AT_LINE_ITEM bundled_energy;
                 ir_te_line_item_key := "bundled_energy";
                 tiers := [{| tier_upper_bound_operator := BASELINE_ALLOWANCE;
                              tier_upper_bound_numerator := 1; tier_upper_bound_denominator := 7;
                              tier_rate_microdollars_per_kwh := 325610 |};
                           {| tier_upper_bound_operator := UNBOUNDED; tier_upper_bound_numerator := 1;
                              tier_upper_bound_denominator := 1;
                              tier_rate_microdollars_per_kwh := 407020 |}] |}].

Lemma replay_internal_errors_unreachable_witness :
  external (ReplayError "NONINTEGRAL_TIER_BOUND").
Proof.
  apply (replay_internal_errors_unreachable (H0 := toy_sha256) seventh_bundle e1_310kwh None).
  - vm_compute. reflexivity.
  - repeat constructor; simpl; lia.
  - intros el env Henv. vm_compute in Henv. injection Henv as _ <-.
    apply has_dups_false. vm_compute. reflexivity.
  - vm_compute. reflexivity.
Defined.
