(* ===== verification/ReplayReschedule.v ===== *)
(** * ReplayReschedule: moving energy between the intervals of a billed request

    Two interval requests are [rescheduled] versions of each other when they
    agree on everything but the energy of the individual intervals.  A bill that
    exists for one exists for the other, and only the period lines of
    time-of-use charges can differ: tiers, credits and fixed charges depend on
    the total alone.  This is the algebraic ground on which the optimizer leaves
    those charges out of its objective. *)

From Stdlib Require Import QArith.QArith_base.
From S2P Require Import Prelude Calendar Json Schema Compiled Fixtures Eligibility.
From S2P Require Import Apportion DayEnergy ChargeIR Replay ReplayProofs ReplaySafety.

Definition same_slot (i j : ReplayInterval) : Prop :=
  start_utc_ns i = start_utc_ns j /\ duration_seconds i = duration_seconds j.

Inductive rescheduled : AnyReplayRequest -> AnyReplayRequest -> Prop :=
| rescheduled_intro b l1 l2 dated : Forall2 same_slot l1 l2 ->
    rescheduled (IntervalReplayRequest b l1 dated) (IntervalReplayRequest b l2 dated).

(** ** Line keys that an operator can emit *)
Fixpoint tier_keys (key : string) (index : Z) (ts : list IREnergyTier) : list string :=
  match ts with [] => [] | _ :: ts' => (key +:+ ".tier_" +:+ pretty index) :: tier_keys key (index + 1) ts' end.
Definition period_key (op : IRTimeOfUseEnergyCharge) (r : IRTimeOfUsePeriodRate) : string :=
  ir_tc_line_item_key op +:+ "." +:+ str_lower (period_str (irp_period r)).
Definition possible_keys (op : CompiledRule) : list string :=
  match op with
  | IRBaseline _ | IRSchedule _ | IRUnsupported _ => []
  | IRTiered r => tier_keys (ir_te_line_item_key r) 1 (tiers r)
  | IRTimeOfUse r =>
      (period_key r <$> period_rates r)
      ++ match baseline_credit_microdollars_per_kwh r with
         | Some _ => [ir_tc_line_item_key r +:+ ".baseline_credit"]
         | None => []
         end
  | IRFixedDaily r => [ir_fd_line_item_key r]
  | IRFixedMonthly r => [ir_fm_line_item_key r]
  end.
Definition line_keys_distinct (ops : list CompiledRule) : Prop := NoDup (ops ≫= possible_keys).

Section Keys.
Context `{ZoneInfo} (env : ReplayEnv).

Lemma tier_reference_keys op index shares ts :
  line_item_key <$> tier_reference env op index shares ts `sublist_of` tier_keys (ir_te_line_item_key op) index ts.
Proof.
  revert index shares. induction ts as [|t ts IH]; intros index [|q shares]; cbn [tier_reference tier_keys]; try done.
  { apply sublist_nil_l. }
  rewrite fmap_app. destruct (q =? 0); cbn; [by apply sublist_cons|by apply sublist_skip].
Qed.

Lemma period_reference_keys op s rs :
  line_item_key <$> (rs ≫= period_rate_reference env op s) `sublist_of` period_key op <$> rs.
Proof.
  induction rs as [|r rs IH]; [done|]. cbn [mbind list_bind]. rewrite fmap_app, fmap_cons.
  unfold period_rate_reference. destruct (_ =? 0); cbn; [by apply sublist_cons|by apply sublist_skip].
Qed.

Lemma operator_lines_keys op : line_item_key <$> operator_lines env op `sublist_of` possible_keys op.
Proof.
  unfold operator_lines. destruct (negb _); [apply sublist_nil_l|]. destruct op as [r|r|r|r|r|r|r]; cbn; try done.
  - apply tier_reference_keys.
  - destruct (resolve_time_schedule _ _) as [s|]; [|apply sublist_nil_l]. rewrite fmap_app.
    apply sublist_app; [apply period_reference_keys|]. unfold credit_reference. by destruct (baseline_credit_microdollars_per_kwh r).
Qed.

Lemma bill_keys_distinct ops :
  line_keys_distinct ops -> NoDup (line_item_key <$> (ops ≫= operator_lines env)).
Proof.
  intros Hnd. eapply sublist_NoDup; [exact Hnd|]. clear Hnd.
  induction ops as [|op ops IH]; [done|]. cbn [mbind list_bind]. rewrite fmap_app.
  apply sublist_app; [apply operator_lines_keys|done].
Qed.
End Keys.

(** ** Existence of the rescheduled bill *)
Section Transfer.
Context `{ZoneInfo} `{Sha256}.

Lemma segment_seconds_same i j window : same_slot i j -> segment_seconds i window = segment_seconds j window.
Proof. intros [Hs Hd]. unfold segment_seconds, interval_start. by rewrite Hs, Hd. Qed.

Lemma interval_period_same s window i j : same_slot i j -> interval_period s window i = interval_period s window j.
Proof. intros [Hs Hd]. unfold interval_period, interval_start. by rewrite Hs, Hd. Qed.

Lemma interval_energy_rescheduled i j window d :
  same_slot i j -> 0 < duration_seconds i -> interval_daily_energy i window = Ok d ->
  exists d', interval_daily_energy j window = Ok d'.
Proof.
  intros Hij Hd Hi. unfold interval_daily_energy in *. rewrite <- (segment_seconds_same i j window Hij).
  apply bind_ok in Hi as (segs & Hs & _). rewrite Hs. cbn [mbind result_bind].
  apply apportion_integer_ok. right. unfold segment_seconds in Hs.
  apply bind_ok in Hs as (st & _ & Hs). apply bind_ok in Hs as (en & Hen & Hs).
  apply datetime_check_ok in Hen as [-> _].
  apply segment_loop_inv in Hs as ((_ & Hnn & _) & _ & Hlt); [|apply segments_inv_nil].
  assert (0 < US_PER_SECOND) by done. specialize (Hlt ltac:(nia)). change (dict_total []) with 0 in Hlt.
  rewrite positive_items_total by done. lia.
Qed.

(** A loop that succeeds on one list succeeds on a list related to it. *)
Lemma foldM_total2 {S A} (f : S -> A -> result S) (R : A -> A -> Prop) l k s s' r :
  foldM f s l = Ok r -> Forall2 R l k ->
  (forall x y s s' r, x ∈ l -> R x y -> f s x = Ok r -> exists r', f s' y = Ok r') ->
  exists r', foldM f s' k = Ok r'.
Proof.
  intros Hf HF Hstep. revert s s' Hf.
  induction HF as [|x y l k Hxy HF IH]; intros s s' Hf; cbn [foldM] in *; [by eexists|].
  apply bind_ok in Hf as (s1 & Hs1 & Hf). destruct (Hstep x y s s' s1) as [s1' Hs1']; [set_solver|done|done|].
  rewrite Hs1'. cbn. eapply IH; [|exact Hf]. intros; eapply Hstep; eauto. set_solver.
Qed.

Context (l1 l2 : list ReplayInterval) (Hsame : Forall2 same_slot l1 l2)
  (Hdur : Forall (fun i => 0 < duration_seconds i) l1).

Lemma daily_energy_total window d : daily_energy_of window l1 = Ok d -> exists d', daily_energy_of window l2 = Ok d'.
Proof.
  unfold daily_energy_of. intros Hd. apply bind_ok in Hd as (t & Ht & _).
  eapply (foldM_total2 _ same_slot _ _ _ []) in Ht as [r Hr]; [|exact Hsame|].
  - rewrite Hr. by eexists.
  - intros x y s s' r Hx Hxy Hr. apply bind_ok in Hr as (parts & Hp & _). rewrite Forall_forall in Hdur.
    destruct (interval_energy_rescheduled x y window parts Hxy (Hdur x Hx) Hp) as [p' ->]. by eexists.
Qed.

Lemma period_energy_total s window d :
  period_energy_of s window l1 = Ok d -> exists d', period_energy_of s window l2 = Ok d'.
Proof.
  unfold period_energy_of. intros Hd. eapply (foldM_total2 _ same_slot); [exact Hd|exact Hsame|].
  intros x y st st' r _ Hxy Hr. apply bind_ok in Hr as (p & Hp & _).
  rewrite <- (interval_period_same s window x y Hxy), Hp. by eexists.
Qed.

Lemma period_daily_energy_total s window d :
  period_daily_energy_of s window l1 = Ok d -> exists d', period_daily_energy_of s window l2 = Ok d'.
Proof.
  unfold period_daily_energy_of. intros Hd. apply bind_ok in Hd as (t & Ht & _).
  eapply (foldM_total2 _ same_slot _ _ _ []) in Ht as [r Hr]; [|exact Hsame|].
  - rewrite Hr. by eexists.
  - intros x y st st' r Hx Hxy Hr. apply bind_ok in Hr as (p & Hp & Hr).
    destruct (dict_setdefault p [] st) as [bd tt1]. apply bind_ok in Hr as (parts & Hpa & _).
    rewrite <- (interval_period_same s window x y Hxy), Hp. cbn [mbind result_bind].
    destruct (dict_setdefault p [] st') as [bd2 tt2]. rewrite Forall_forall in Hdur.
    destruct (interval_energy_rescheduled x y window parts Hxy (Hdur x Hx) Hpa) as [p' ->]. by eexists.
Qed.

Context (b : ReplayRequestBase) (dated : option DatedEligibilityFacts) (bundle : CompilationBundle).
Notation r1 := (IntervalReplayRequest b l1 dated).
Notation r2 := (IntervalReplayRequest b l2 dated).

(** The environments of the two replays. *)
Definition reschedule_env (env : ReplayEnv) (days : dict date Z) : ReplayEnv :=
  {| env_bundle := env_bundle env; env_request := r2; env_window := env_window env;
     env_billing_days := env_billing_days env; env_bill_cycle_month := env_bill_cycle_month env;
     env_baseline_wh := env_baseline_wh env; env_all_daily_energy := days |}.

Lemma replay_env_total el env : replay_env bundle r1 = Ok (el, env) ->
  env_request env = r1 /\ exists days, replay_env bundle r2 = Ok (el, reschedule_env env days).
Proof.
  unfold replay_env. cbn [request_base request_dated_facts]. intros Hr.
  repeat (apply bind_ok in Hr as (? & -> & Hr); cbn [mbind result_bind]).
  destruct (dr_end _) as [we|]; [|done].
  repeat (apply bind_ok in Hr as (? & ?E & Hr)). injection Hr as <- <-.
  destruct (daily_energy_total _ _ E2) as [days Hdays]. split; [done|]. exists days.
  rewrite E, E0, E1. cbn [mbind result_bind]. rewrite Hdays. done.
Qed.

(** Two environments that differ only in the request's intervals and days. *)
Context (env : ReplayEnv) (days : dict date Z) (Hreq : env_request env = r1)
  (Hok2 : env_ok (reschedule_env env days)).
Notation env2 := (reschedule_env env days).

Lemma reschedule_energy : env_energy env2 = env_energy env.
Proof. unfold env_energy. by rewrite Hreq. Qed.
Lemma reschedule_facts : env_facts env2 = env_facts env.
Proof. unfold env_facts. by rewrite Hreq. Qed.

Lemma tier_loop_total op index rem lower ts st1 st2 rem' st1' :
  0 <= rem <= env_energy env -> tier_loop env op index rem lower ts st1 = Ok (rem', st1') ->
  exists st2', tier_loop env2 op index rem lower ts st2 = Ok (rem', st2').
Proof.
  revert index rem lower st1 st2. induction ts as [|t ts IH]; intros index rem lower st1 st2 Hrem Hr; cbn [tier_loop] in *.
  { injection Hr as <- _. by eexists. }
  change (tier_bound env2 t) with (tier_bound env t).
  apply bind_ok in Hr as (u & -> & Hr). cbn [mbind result_bind].
  apply bind_ok in Hr as (x & Hneg & Hr). rewrite Hneg. cbn [mbind result_bind].
  apply raise_if_ok in Hneg. bools.
  set (q := match u with Some u => Z.min rem (u - lower) | None => rem end) in *.
  assert (q <= rem) by (subst q; destruct u; lia).
  apply bind_ok in Hr as (st1a & _ & Hr).
  assert (exists st2a, (if q =? 0 then Ok st2 else emit_tier_line env2 op index q rem t st2) = Ok st2a) as [st2a ->].
  { destruct (q =? 0); [by eexists|]. unfold emit_tier_line. change (is_interval (env_request env2)) with true.
    destruct (energy_slice_ok env2 (env_energy env2 - rem) q) as (sl & -> & _);
      rewrite ?reschedule_energy; [done|done|lia..|by eexists]. }
  cbn [mbind result_bind]. destruct (_ =? 0); [injection Hr as <- _; by eexists|]. eapply IH; [lia|exact Hr].
Qed.

Lemma eval_baseline_credit_total op st :
  exists st', eval_baseline_credit env2 op st = Ok st'.
Proof.
  unfold eval_baseline_credit. destruct (baseline_credit_microdollars_per_kwh op); [|by eexists].
  destruct (energy_slice_ok env2 0 (Z.min (env_energy env2) (env_baseline_wh env2))) as (sl & -> & _);
    [done|done|lia| |lia|by eexists].
  pose proof (eo_energy _ Hok2). pose proof (eo_baseline _ Hok2). lia.
Qed.

Lemma eval_operator_total op st1 st2 st1' :
  eval_operator env st1 op = Ok st1' -> exists st2', eval_operator env2 st2 op = Ok st2'.
Proof.
  unfold eval_operator. rewrite reschedule_facts. cbn [env_bill_cycle_month reschedule_env].
  destruct (negb _); [by eexists|]. destruct op as [r|r|r|r|r|r|r]; intros Hr; try by eexists.
  - unfold eval_tiered in *. apply bind_ok in Hr as ((rem & st) & Hr & H2). apply bind_ok in H2 as (u & Hu & _).
    rewrite reschedule_energy.
    apply (tier_loop_total _ _ _ _ _ _ (mark_tiered st2)) in Hr as [st2' ->];
      [|rewrite <- reschedule_energy; pose proof (eo_energy _ Hok2); lia].
    cbn [mbind result_bind fst]. cbn [fst] in Hu. rewrite Hu. by eexists.
  - unfold eval_time_of_use in *. cbn [env_bundle env_request reschedule_env].
    apply bind_ok in Hr as (s & -> & Hr). cbn [mbind result_bind]. rewrite Hreq in Hr. cbn [period_energy] in *.
    apply bind_ok in Hr as (fr & Hfr & Hr). destruct (period_energy_total _ _ _ Hfr) as [fr2 ->].
    cbn [mbind result_bind]. destruct (dict_setdefault _ fr _) as [pe bs]. destruct (dict_setdefault _ fr2 _) as [pe2 bs2].
    apply bind_ok in Hr as (fd & Hfd & _). destruct (period_daily_energy_total _ _ _ Hfd) as [fd2 ->].
    cbn [mbind result_bind]. destruct (dict_setdefault _ fd2 _) as [pde2 ds2]. apply eval_baseline_credit_total.
Qed.

Lemma eval_operators_total ops st1 st2 st1' :
  foldM (eval_operator env) st1 ops = Ok st1' -> exists st2', foldM (eval_operator env2) st2 ops = Ok st2'.
Proof.
  revert st1 st2. induction ops as [|op ops IH]; intros st1 st2 Hf; cbn [foldM] in *; [by eexists|].
  apply bind_ok in Hf as (st & Hst & Hf). destruct (eval_operator_total op st1 st2 st Hst) as [st' ->].
  cbn [mbind result_bind]. eapply IH, Hf.
Qed.
End Transfer.

(** ** The rescheduled bill *)
Section Bill.
Context `{ZoneInfo} `{Sha256}.

(** The lines of an operator that do not depend on when energy is used. *)
Definition constant_lines (env : ReplayEnv) (op : CompiledRule) : list ChargeLineItem :=
  match op with
  | IRTimeOfUse r =>
      if rule_applies (applicability (ir_tc_base r)) (env_facts env) (env_bill_cycle_month env)
      then match resolve_time_schedule (env_bundle env) (schedule_rule_id r) with
           | Ok _ => credit_reference env r
           | Raise _ => []
           end
      else []
  | _ => operator_lines env op
  end.
(** The period lines of a time-of-use operator. *)
Definition period_lines (env : ReplayEnv) (op : CompiledRule) : list ChargeLineItem :=
  match op with
  | IRTimeOfUse r =>
      if rule_applies (applicability (ir_tc_base r)) (env_facts env) (env_bill_cycle_month env)
      then match resolve_time_schedule (env_bundle env) (schedule_rule_id r) with
           | Ok s => period_rates r ≫= period_rate_reference env r s
           | Raise _ => []
           end
      else []
  | _ => []
  end.

Lemma operator_lines_split env op : operator_lines env op = period_lines env op ++ constant_lines env op.
Proof.
  destruct op as [r|r|r|r|r|r|r]; try done. unfold operator_lines, period_lines, constant_lines. cbn [ir_base].
  destruct (rule_applies _ _ _); cbn [negb]; [|done]. by destruct (resolve_time_schedule _ _).
Qed.

Lemma bill_split env ops :
  sum_by rounded_cents (ops ≫= operator_lines env)
  = sum_by rounded_cents (ops ≫= period_lines env) + sum_by rounded_cents (ops ≫= constant_lines env).
Proof.
  induction ops as [|op ops IH]; [done|]. cbn [mbind list_bind]. rewrite !sum_by_app, operator_lines_split, sum_by_app.
  change (foldr _ _ ops) with (ops ≫= operator_lines env) in *. lia.
Qed.

(** Constant lines depend on the request only through its base. *)
Lemma constant_lines_same env env' op :
  env_bundle env = env_bundle env' -> request_base (env_request env) = request_base (env_request env') ->
  env_window env = env_window env' -> env_billing_days env = env_billing_days env' ->
  env_bill_cycle_month env = env_bill_cycle_month env' -> env_baseline_wh env = env_baseline_wh env' ->
  constant_lines env op = constant_lines env' op.
Proof.
  intros Hb Hr Hw Hd Hm Hbl.
  assert (env_facts env = env_facts env') as Hf by (unfold env_facts; by rewrite Hr).
  assert (env_energy env = env_energy env') as He by (unfold env_energy; by rewrite Hr).
  destruct op as [r|r|r|r|r|r|r]; unfold constant_lines, operator_lines; cbn [ir_base]; rewrite ?Hf, ?Hm, ?Hb; try done.
  - destruct (negb _); [done|]. unfold tiered_reference. rewrite Hbl, He.
    generalize 1. generalize (tier_shares (env_baseline_wh env') (env_energy env') 0 (tiers r)).
    induction (tiers r) as [|t ts IH]; intros [|q sh] i; cbn [tier_reference]; try done. by rewrite Hb, Hw, IH.
  - unfold credit_reference. by rewrite He, Hbl, Hb, Hw.
  - unfold eval_fixed_daily. by rewrite Hd, Hb, Hw.
  - unfold eval_fixed_monthly. by rewrite Hb, Hw.
Qed.

(** A request moved between intervals is billed whenever the original is, with
    the same constant lines. *)
Lemma reschedule_bill bundle q1 q2 policy res1 :
  rescheduled q1 q2 -> request_valid q1 = true -> request_valid q2 = true ->
  Forall rule_well_formed (operators (ir bundle)) -> line_keys_distinct (operators (ir bundle)) ->
  replay_compiled_tariff bundle q1 policy = Ok res1 ->
  exists res2 el env1 env2, replay_compiled_tariff bundle q2 policy = Ok res2 /\
    replay_env bundle q1 = Ok (el, env1) /\ replay_env bundle q2 = Ok (el, env2) /\
    (forall op, constant_lines env2 op = constant_lines env1 op) /\
    env_facts env2 = env_facts env1 /\ env_bill_cycle_month env2 = env_bill_cycle_month env1.
Proof.
  intros [b l1 l2 dated Hsame] Hv1 Hv2 Hwf Hkeys Hr1. pose proof Hr1 as Hr.
  unfold replay_compiled_tariff in Hr. apply bind_ok in Hr as ((el & env) & Henv & Hr).
  apply bind_ok in Hr as (st1 & Hst1 & _).
  destruct (request_valid_intervals _ Hv1) as [Hdur _]. cbn [request_intervals] in Hdur.
  destruct (replay_env_total l1 l2 Hsame Hdur b dated bundle el env Henv) as (Hreq & days & Henv2).
  set (env2 := reschedule_env l2 b dated env days) in *.
  destruct (replay_env_ok _ _ _ _ Hv2 Hwf Henv2) as (Hok2 & Hbd & Hrq & Hval & _).
  destruct (eval_operators_total l1 l2 Hsame Hdur b dated env days Hreq Hok2 _ _ initial_state _ Hst1) as [st2 Hst2].
  fold env2 in Hst2. destruct (eval_operators_safe env2 _ Hok2 Hwf) as [_ Hb2]. specialize (Hb2 _ Hst2).
  pose proof Hst2 as Hlines. apply eval_operators_reference in Hlines; [|apply Hok2].
  destruct (allocate_lines_total true (line_daily_energy st2) (lines st2) (bo_NoDup _ _ Hb2))
    with (acc := ([], []) : list DailyEnergyChargeAllocation * list BillingPeriodAdjustment) as [acc Hacc].
  { apply (bo_lines _ _ Hb2). rewrite Hlines. by apply bill_keys_distinct. }
  destruct (diagnostic_validates (IntervalReplayRequest b l2 dated) _ _ (default default_policy policy)
    (has_tiered_energy st2) acc (bo_NoDup _ _ Hb2) Hval Hacc) as (al & Hal & _).
  eexists _, el, env, env2. split.
  { unfold replay_compiled_tariff. rewrite Henv2. cbn [mbind result_bind]. rewrite Hst2. cbn [mbind result_bind].
    rewrite Hal. reflexivity. }
  split; [done|]. split; [done|]. split.
  - intros op. apply constant_lines_same; try done. by rewrite Hreq.
  - split; [|done]. unfold env_facts. by rewrite Hreq.
Qed.
End Bill.
