(* ===== verification/Compiler.v ===== *)
(** * Compiler: the fail-closed tariff compiler (tariffs/compiler.py)

    Locks are JSON files under the repository root; [Root] maps a path to the
    parsed file, [None] when it cannot be read or parsed.  Parsing a definition
    into a [TariffVersion] is pydantic's work and is the parameter [parse] of
    [load_tariff_definition].  Every check of the compiler is a definition with
    the source's error codes, and [compile_tariff] runs them in the source's
    order. *)

From S2P Require Import Prelude Calendar Float Json Schema Compiled Eligibility Replay.

(** ** JSON access *)

(** [obj.get(key)] on a parsed object; [None] is an absent key. *)
Definition jget (key : string) (v : json) : option json :=
  match v with JObj fields => dict_get key fields | _ => None end.

(** The value of [obj.get(key)], where an absent key reads as [None]. *)
Definition jget_null (key : string) (v : json) : json := default JNull (jget key v).

(** Python [==] on parsed JSON: [True == 1], [False == 0] and [1.0 == 1];
    objects compare as dictionaries. *)
Definition bool_int (b : bool) : Z := if b then 1 else 0.
Fixpoint json_eqb (fuel : nat) (a b : json) : bool :=
  match fuel with
  | O => false
  | S fuel' =>
      match a, b with
      | JNull, JNull => true
      | JBool x, JBool y => Bool.eqb x y
      | JBool x, JInt y => bool_int x =? y
      | JInt x, JBool y => x =? bool_int y
      | JInt x, JInt y => x =? y
      | JFloat x, JFloat y => float_eqb x y
      | JFloat x, JInt y | JInt y, JFloat x => float_is_int x y
      | JFloat x, JBool b | JBool b, JFloat x => float_is_int x (bool_int b)
      | JStr x, JStr y => String.eqb x y
      | JList x, JList y =>
          (length x =? length y)%nat && forallb (fun p => json_eqb fuel' p.1 p.2) (zip x y)
      | JObj x, JObj y =>
          (length x =? length y)%nat
          && forallb (fun kv => match dict_get kv.1 y with
                                | Some w => json_eqb fuel' kv.2 w
                                | None => false
                                end) x
      | _, _ => false
      end
  end.
(** The expected values compared by the compiler are nested three deep. *)
Definition py_eq (a b : json) : bool := json_eqb 4 a b.

Definition truthy (v : json) : bool :=
  match v with
  | JNull => false
  | JBool b => b
  | JInt z => negb (z =? 0)
  | JFloat f => negb (float_is_int f 0)
  | JStr s => negb (String.eqb s "")
  | JList l => negb (bool_decide (length l = 0%nat))
  | JObj l => negb (bool_decide (length l = 0%nat))
  end.

Definition is_object (v : json) : bool := match v with JObj _ => true | _ => false end.
Definition as_string (v : json) : option string := match v with JStr s => Some s | _ => None end.

Class Root := read_json : string -> option json.

Definition read_object `{Root} (path : string) : result json :=
  match read_json path with
  | Some (JObj fields) => Ok (JObj fields)
  | _ => Raise (TariffCompileError "INVALID_JSON")
  end.

(** ** Loading a definition *)
Definition ALLOWED_UNITS : list string :=
  ["Wh/day"; "Wh"; "microdollars/kWh"; "microdollars/day"; "microdollars/bill_cycle"].

(** [unit not in _ALLOWED_UNITS]; testing an unhashable value is a [TypeError]. *)
Definition check_unit (rule : json) (key : string) : result unit :=
  match jget_null key rule with
  | JNull => Ok tt
  | JStr u => raise_if (negb (mem u ALLOWED_UNITS)) (TariffCompileError "UNKNOWN_UNIT")
  | JList _ | JObj _ => Raise (PyError "TypeError")
  | _ => Raise (TariffCompileError "UNKNOWN_UNIT")
  end.

Definition prevalidate_units (raw : json) : result unit :=
  match default (JList []) (jget "charge_rules" raw) with
  | JList rules =>
      forM_ (fun rule => if is_object rule
                         then forM_ (check_unit rule) ["unit"; "quantity_unit"; "rate_unit"]
                         else Ok tt) rules
  | _ => Ok tt
  end.

(** [needle in haystack]. *)
Fixpoint str_contains (needle haystack : string) : bool :=
  String.prefix needle haystack
  || match haystack with EmptyString => false | String _ s => str_contains needle s end.

Definition validation_code (message : string) : string :=
  if str_contains "energy tier" message then "INVALID_TIER"
  else if str_contains "nonholiday schedules require" message
          || str_contains "calendar identifier" message then "CALENDAR_LOCK_MISSING"
  else "SCHEMA_INVALID".

Definition load_tariff_definition `{Root} (parse : json -> result TariffVersion) (path : string)
    : result TariffVersion :=
  raw ← read_object path;
  _ ← prevalidate_units raw;
  match parse raw with
  | Raise (ValidationError message) => Raise (TariffCompileError (validation_code message))
  | r => r
  end.

(** ** Source lock *)
Definition add_source_record (by_id : dict string json) (item : json) : result (dict string json) :=
  match jget "source_id" item with
  | Some (JStr id) =>
      _ ← raise_if (mem id by_id.*1) (TariffCompileError "SOURCE_LOCK_INVALID");
      Ok (dict_set id item by_id)
  | _ => Raise (TariffCompileError "SOURCE_LOCK_INVALID")
  end.

Definition source_records `{Root} : result (json * dict string json) :=
  source_lock ← read_object "tariffs/sources.lock.json";
  match jget "sources" source_lock with
  | Some (JList sources) => by_id ← foldM add_source_record [] sources; Ok (source_lock, by_id)
  | _ => Raise (TariffCompileError "SOURCE_LOCK_INVALID")
  end.

Definition validate_source_link (src : SourceLink) (id : string) (records : dict string json)
    : result unit :=
  match dict_get (source_id src) records with
  | None => Raise (TariffCompileError "SOURCE_MISSING")
  | Some record =>
      _ ← raise_if (negb (py_eq (jget_null "sha256" record) (JStr (source_sha256 src))))
            (TariffCompileError "SOURCE_HASH_MISMATCH");
      _ ← raise_if (match jget "rule_ids" record with
                    | Some (JList locked) => negb (existsb (py_eq (JStr id)) locked)
                    | _ => true
                    end) (TariffCompileError "SOURCE_RULE_MISMATCH");
      raise_if (negb (truthy (jget_null "source_url" record))
                && negb (truthy (jget_null "archive_location" record)))
        (TariffCompileError "SOURCE_UNRETRIEVABLE")
  end.

(** ** Windows *)
Definition check_window_order (previous_end : option date) (w : DateRange) : result (option date) :=
  match dr_end w with
  | None => Raise (TariffCompileError "UNBOUNDED_ADMISSION")
  | Some e =>
      _ ← raise_if (match previous_end with Some p => dr_start w <? p | None => false end)
            (TariffCompileError "ADMISSION_WINDOW_OVERLAP");
      Ok (Some e)
  end.

(** Every range of [ranges] covers every admitted window. *)
Definition check_coverage (ranges windows : list DateRange) (code : string) : result unit :=
  forM_ (fun r => forM_ (fun w => raise_if (negb (covers r w)) (TariffCompileError code)) windows) ranges.

Definition validate_windows (t : TariffVersion) : result unit :=
  _ ← foldM check_window_order None (sorted_by dr_start (admitted_service_windows t));
  _ ← raise_if (has_dups (component_key <$> component_versions t))
        (TariffCompileError "COMPONENT_OVERLAP");
  _ ← check_coverage (component_effective_range <$> component_versions t)
        (admitted_service_windows t) "COMPONENT_COVERAGE_GAP";
  check_coverage (effective_range ∘ rule_base <$> charge_rules t)
    (admitted_service_windows t) "RULE_COVERAGE_GAP".

(** ** Component composition *)
Definition range_json (r : DateRange) : json := JList [jdate (dr_start r); jopt jdate (dr_end r)].

(** [tariff.admitted_service_windows[0]]. *)
Definition first_window (t : TariffVersion) : result DateRange :=
  match admitted_service_windows t with
  | w :: _ => Ok w
  | [] => Raise (PyError "IndexError")
  end.

Definition find_vector (id : string) (vectors : list json) : option json :=
  find (fun item => is_object item && py_eq (jget_null "tariff_id" item) (JStr id)) vectors.

(** [{item.get(component_id): item ...}]: a later item replaces an earlier one,
    and an unhashable key is a [TypeError]. *)
Definition locked_components (items : list json) : result (dict string json) :=
  foldM (fun acc item =>
           if is_object item then
             match jget_null "component_id" item with
             | JStr key => Ok (dict_set key item acc)
             | JList _ | JObj _ => Raise (PyError "TypeError")
             | _ => Ok acc
             end
           else Ok acc) [] items.

(** [extracted_owners[rule_id].append(component_key)]. *)
Definition add_owner (id key : string) (owners : dict string (list string))
    : dict string (list string) :=
  dict_set id (default [] (dict_get id owners) ++ [key]) owners.

Definition check_component (locked_by_key records : dict string json)
    (owners : dict string (list string)) (c : TariffComponentVersion)
    : result (dict string (list string)) :=
  match dict_get (component_key c) locked_by_key with
  | None => Raise (TariffCompileError "COMPONENT_LOCK_MISMATCH")
  | Some locked =>
      _ ← raise_if (negb (py_eq (jget_null "effective_range" locked)
                            (range_json (component_effective_range c)))
                    || negb (py_eq (jget_null "precedence" locked) (JInt (precedence c)))
                    || negb (py_eq (jget_null "source_id" locked)
                               (JStr (source_id (component_source c)))))
            (TariffCompileError "COMPONENT_LOCK_MISMATCH");
      foldM (fun owners id =>
               _ ← validate_source_link (component_source c) id records;
               Ok (add_owner id (component_key c) owners)) owners (extracted_rule_ids c)
  end.

Definition required_rule_ids (t : TariffVersion) : list string :=
  (rule_id ∘ rule_base <$> charge_rules t)
  ++ source_rule_ids (predicate_common (eligibility_predicate t)).

Definition check_owner (components : list TariffComponentVersion)
    (owners : dict string (list string)) (r : RuleBase) : result unit :=
  match dict_get (rule_id r) owners with
  | Some (owner_key :: _) =>
      match find (fun c => String.eqb (component_key c) owner_key) components with
      | Some owner => raise_if (negb (String.eqb (source_id (source r)) (source_id (component_source owner))))
                        (TariffCompileError "RULE_COMPONENT_SOURCE_MISMATCH")
      | None => Raise (PyError "StopIteration")
      end
  | _ => Raise (PyError "IndexError")
  end.

Definition validate_component_composition (t : TariffVersion) (source_lock : json)
    (records : dict string json) : result unit :=
  match jget "tariff_component_vectors" source_lock with
  | Some (JList vectors) =>
      match find_vector (tariff_version_id t) vectors with
      | None => Raise (TariffCompileError "COMPONENT_LOCK_MISSING")
      | Some locked_vector =>
          w ← first_window t;
          _ ← raise_if (negb (py_eq (jget_null "service_window" locked_vector) (range_json w)))
                (TariffCompileError "COMPONENT_WINDOW_MISMATCH");
          match jget "components" locked_vector with
          | Some (JList items) =>
              locked_by_key ← locked_components items;
              owners ← foldM (check_component locked_by_key records) [] (component_versions t);
              _ ← forM_ (fun id => raise_if
                           (negb (bool_decide (length (default [] (dict_get id owners)) = 1%nat)))
                           (TariffCompileError "RULE_COMPONENT_AMBIGUITY")) (required_rule_ids t);
              forM_ (fun r => check_owner (component_versions t) owners (rule_base r)) (charge_rules t)
          | _ => Raise (TariffCompileError "COMPONENT_LOCK_INVALID")
          end
      end
  | _ => Raise (TariffCompileError "COMPONENT_LOCK_INVALID")
  end.

(** ** Target account *)
Definition locked_account_values (p : EligibilityPredicate) (w : DateRange) (tier : IncomeTier) : json :=
  JObj [("service_provider", JStr "PG&E"); ("service_mode", JStr "BUNDLED");
        ("meter_count", JInt (required_meter_count p));
        ("primary_meter_only", JBool (requires_primary_meter_only p));
        ("income_tier", JStr (tier_str tier));
        ("care_enrolled", JBool (requires_care_enrolled p));
        ("fera_enrolled", JBool (requires_fera_enrolled p));
        ("medical_baseline", JBool (requires_medical_baseline p));
        ("cca_service", JBool (requires_cca_service p));
        ("direct_access_service", JBool (requires_direct_access_service p));
        ("active_bill_protection", JBool (requires_active_bill_protection p));
        ("solar_or_export", JBool (requires_solar_or_export p));
        ("service_window", range_json w)].

Definition validate_target_account `{Root} (t : TariffVersion) : result unit :=
  lock ← read_object "tariffs/admission/target-account-v1.json";
  let p := predicate_common (eligibility_predicate t) in
  _ ← raise_if (match eligibility_predicate t with
                | PredicateV1 _ => negb (py_eq (jget_null "predicate_id" lock) (JStr (predicate_id p)))
                | PredicateV2 _ => false
                end) (TariffCompileError "ELIGIBILITY_LOCK_MISMATCH");
  match supported_income_tiers p with
  | [] => Raise (PyError "IndexError")
  | tier :: _ =>
      w ← first_window t;
      raise_if (negb (py_eq (jget_null "required_facts" lock) (locked_account_values p w tier)))
        (TariffCompileError "ELIGIBILITY_LOCK_MISMATCH")
  end.

(** ** Numeric bounds *)
Definition MAXIMUM_COMPILED_ENERGY_WH : Z := 100000000.
Definition MAXIMUM_COMPILED_BILLING_DAYS : Z := 366.

(** [max(values)] of a nonempty list. *)
Definition py_max (values : list Z) : result Z :=
  match values with
  | [] => Raise (PyError "ValueError")
  | v :: vs => Ok (foldl Z.max v vs)
  end.

(** One rule of the bounds loop: (maximum_rate, fixed_bound). *)
Definition bound_step (acc : Z * Z) (rule : TariffRule) : result (Z * Z) :=
  let '(maximum_rate, fixed_bound) := acc in
  match rule with
  | RTieredEnergyCharge r =>
      _ ← forM_ (fun t => raise_if (SIGNED_INT64_MAX / MAXIMUM_COMPILED_ENERGY_WH
                                    <? upper_bound_numerator t)
                            (TariffCompileError "INT64_OVERFLOW")) (te_tiers r);
      Ok (foldl Z.max maximum_rate (rate_microdollars_per_kwh <$> te_tiers r), fixed_bound)
  | RTimeOfUseEnergyCharge r =>
      largest ← py_max (period_rate_microdollars_per_kwh <$> tc_period_rates r);
      let credit := Z.abs (default 0 (tc_baseline_credit_microdollars_per_kwh r)) in
      Ok (Z.max maximum_rate (largest + credit), fixed_bound)
  | RFixedDailyCharge r =>
      Ok (maximum_rate,
          fixed_bound + Z.abs (fd_rate_microdollars_per_day r) * MAXIMUM_COMPILED_BILLING_DAYS)
  | RFixedMonthlyCharge r => Ok (maximum_rate, fixed_bound + Z.abs (fm_amount_microdollars r))
  | _ => Ok acc
  end.

Definition validate_tariff_bounds (t : TariffVersion) : result unit :=
  acc ← foldM bound_step (0, 0) (charge_rules t);
  let energy_bound := MAXIMUM_COMPILED_ENERGY_WH * acc.1 in
  raise_if (SIGNED_INT64_MAX <? Z.max energy_bound (Z.max acc.2 (energy_bound + acc.2)))
    (TariffCompileError "INT64_OVERFLOW").

(** ** Time operators *)
Definition rule_schedule (r : TariffRule) : option TimeOfUseSchedule :=
  match r with RTimeOfUseSchedule s => Some s | _ => None end.
Definition rule_baseline (r : TariffRule) : option BaselineAllowance :=
  match r with RBaselineAllowance b => Some b | _ => None end.
Definition rule_time_of_use (r : TariffRule) : option TimeOfUseEnergyCharge :=
  match r with RTimeOfUseEnergyCharge c => Some c | _ => None end.

Definition schedules_by_id (t : TariffVersion) : dict string TimeOfUseSchedule :=
  foldl (fun d s => dict_set (rule_id (ts_base s)) s d) [] (omap rule_schedule (charge_rules t)).

(** [default_period] is the literal OFF_PEAK. *)
Definition schedule_periods (s : TimeOfUseSchedule) : list TimeOfUsePeriod :=
  OFF_PEAK :: (window_period <$> ts_windows s).

Definition check_time_of_use (schedules : dict string TimeOfUseSchedule) (baseline_ids : list string)
    (c : TimeOfUseEnergyCharge) : result unit :=
  match dict_get (tc_schedule_rule_id c) schedules with
  | None => Raise (TariffCompileError "TOU_SCHEDULE_MISSING")
  | Some s =>
      _ ← raise_if (negb (same_set (rate_period <$> tc_period_rates c) (schedule_periods s)))
            (TariffCompileError "TOU_PERIOD_COVERAGE_MISMATCH");
      raise_if (match tc_baseline_rule_id c with
                | Some id => negb (mem id baseline_ids)
                | None => false
                end) (TariffCompileError "BASELINE_RULE_MISSING")
  end.

Definition validate_time_operators (t : TariffVersion) : result unit :=
  let schedules := schedules_by_id t in
  let charges := omap rule_time_of_use (charge_rules t) in
  let baseline_ids := rule_id ∘ ba_base <$> omap rule_baseline (charge_rules t) in
  _ ← forM_ (check_time_of_use schedules baseline_ids) charges;
  raise_if (negb (same_set schedules.*1 (tc_schedule_rule_id <$> charges)))
    (TariffCompileError "TOU_SCHEDULE_UNUSED").

(** ** Comparison components *)
Definition rule_components (r : TariffRule) : list ChargeComponentKey :=
  match r with
  | RTieredEnergyCharge _ | RFixedDailyCharge _ | RFixedMonthlyCharge _ =>
      [charge_component_key (rule_base r)]
  | RTimeOfUseEnergyCharge c =>
      charge_component_key (tc_base c)
      :: match tc_baseline_credit_charge_component_key c with Some k => [k] | None => [] end
  | _ => []
  end.

Definition validate_comparison_components (t : TariffVersion) : result unit :=
  raise_if (negb (same_set (comparison_component_keys t) (charge_rules t ≫= rule_components)))
    (TariffCompileError "COMPARISON_COMPONENT_COVERAGE_MISMATCH").

(** ** Golden coverage *)

(** Iterating a parsed JSON value: strings give their characters, objects their
    keys, scalars a [TypeError]. *)
Definition iterate (v : json) : result (list json) :=
  match v with
  | JList l => Ok l
  | JObj fields => Ok (JStr <$> fields.*1)
  | JStr s => Ok ((fun c => JStr (String c EmptyString)) <$> String.list_ascii_of_string s)
  | _ => Raise (PyError "TypeError")
  end.

(** Case identifiers are strings; the source casts them without checking. *)
Definition case_id (case : json) : result string :=
  match case with
  | JObj _ => match jget "case_id" case with
              | Some (JStr s) => Ok s
              | Some _ => Raise (PyError "TypeError")
              | None => Raise (PyError "KeyError")
              end
  | _ => Raise (PyError "TypeError")
  end.

(** [case.get(source_ids, suite_source_ids)] with the fallback for [None]. *)
Definition case_source_ids (suite_source_ids : json) (case : json) : json :=
  match default suite_source_ids (jget "source_ids" case) with
  | JNull => match jget_null "source_id" case with JStr s => JList [JStr s] | _ => JList [] end
  | v => v
  end.

Definition add_golden_case (source_ids : list string) (suite_source_ids : json)
    (by_rule : dict string (list string)) (case : json) : result (dict string (list string)) :=
  ids ← iterate (case_source_ids suite_source_ids case);
  _ ← raise_if (negb (forallb (fun v => match v with JStr s => mem s source_ids | _ => false end) ids))
        (TariffCompileError "GOLDEN_SOURCE_MISMATCH");
  match jget_null "rule_ids" case with
  | JNull => Ok by_rule
  | JList rule_ids =>
      id ← case_id case;
      Ok (foldl (fun d r => add_owner r id d) by_rule (omap as_string rule_ids))
  | _ => Raise (TariffCompileError "GOLDEN_INVALID")
  end.

(** The complete bill, the boundary cases and the suite's sources. *)
Definition golden_cases `{Root} (t : TariffVersion) : result (list json * json) :=
  if String.eqb (plan_code t) "E-1" then
    complete ← read_object "tariffs/golden/e1-july-2026-complete-bill.json";
    boundaries ← read_object "tariffs/golden/e1-july-2026-boundaries.json";
    match jget "cases" boundaries with
    | Some (JList l) => Ok (complete :: l, JList [])
    | _ => Raise (TariffCompileError "GOLDEN_INVALID")
    end
  else
    golden_lock ← read_object "tariffs/admission/m3-golden-lock.json";
    tariffs ← iterate (default (JList []) (jget "tariffs" golden_lock));
    match find (fun item => is_object item && py_eq (jget_null "plan_code" item) (JStr (plan_code t)))
            tariffs with
    | None => Raise (TariffCompileError "GOLDEN_LOCK_MISSING")
    | Some locked =>
        path ← match jget "golden_path" locked with
               | Some (JStr p) => Ok p
               | Some _ => Raise (PyError "TypeError")
               | None => Raise (PyError "KeyError")
               end;
        suite ← read_object path;
        match jget_null "complete_bill" suite, jget_null "boundary_cases" suite with
        | JObj fields, JList l => Ok (JObj fields :: l, default (JList []) (jget "source_ids" suite))
        | _, _ => Raise (TariffCompileError "GOLDEN_INVALID")
        end
    end.

Definition load_golden_coverage `{Root} (t : TariffVersion) : result GoldenCoverage :=
  cases_suite ← golden_cases t;
  let '(cases, suite_source_ids) := cases_suite in
  ids ← mapM case_id cases;
  let case_ids := py_sorted ids in
  _ ← raise_if (negb (bool_decide (case_ids = golden_case_ids t)))
        (TariffCompileError "GOLDEN_LOCK_MISMATCH");
  by_rule ← foldM (add_golden_case (source_ids t) suite_source_ids) [] cases;
  _ ← raise_if (existsb (fun id => bool_decide (length (default [] (dict_get id by_rule)) = 0%nat))
                  (required_rule_ids t))
        (TariffCompileError "GOLDEN_COVERAGE_GAP");
  Ok {| coverage_golden_case_ids := case_ids;
        rule_case_ids := (fun kv => (kv.1, py_sorted kv.2))
                           <$> sorted_by (fun kv : string * list string => kv.1) by_rule |}.

(** ** Lowering *)
Definition holiday_date (item : json) : option string :=
  if is_object item then as_string (jget_null "date" item) else None.

Definition load_holidays `{Root} (s : TimeOfUseSchedule) : result (list string) :=
  match ts_calendar_id s with
  | None => Ok []
  | Some id =>
      calendar ← read_object "tariffs/calendars/ca-observed-holidays-2026.json";
      _ ← raise_if (negb (py_eq (jget_null "calendar_id" calendar) (JStr id)))
            (TariffCompileError "CALENDAR_LOCK_MISSING");
      _ ← raise_if (negb (py_eq (jget_null "content_sha256" calendar)
                            (jopt JStr (ts_calendar_content_sha256 s))))
            (TariffCompileError "CALENDAR_HASH_MISMATCH");
      match jget "holidays_used_in_july_window" calendar with
      | Some (JList holidays) => Ok (py_sorted (omap holiday_date holidays))
      | _ => Raise (TariffCompileError "CALENDAR_LOCK_INVALID")
      end
  end.

Definition lower_tier (t : EnergyTier) : IREnergyTier :=
  {| tier_upper_bound_operator := upper_bound_kind t;
     tier_upper_bound_numerator := upper_bound_numerator t;
     tier_upper_bound_denominator := upper_bound_denominator t;
     tier_rate_microdollars_per_kwh := rate_microdollars_per_kwh t |}.

Definition lower_window (w : TimeOfUseWindow) : IRTimeOfUseWindow :=
  {| irw_period := window_period w;
     irw_start_minute_inclusive := start_minute_inclusive w;
     irw_end_minute_exclusive := end_minute_exclusive w;
     irw_day_selector := day_selector w |}.

Definition lower_rule `{Root} (rule : TariffRule) : result CompiledRule :=
  match rule with
  | RBaselineAllowance r =>
      Ok (IRBaseline {| ir_ba_base := ba_base r; daily_allowance_wh := ba_daily_allowance_wh r |})
  | RTieredEnergyCharge r =>
      Ok (IRTiered {| ir_te_base := te_base r; ir_te_line_item_key := te_line_item_key r;
                      tiers := lower_tier <$> te_tiers r |})
  | RTimeOfUseSchedule r =>
      holidays ← load_holidays r;
      Ok (IRSchedule {| ir_ts_base := ts_base r; windows := lower_window <$> ts_windows r;
                        default_period := OFF_PEAK; calendar_id := ts_calendar_id r;
                        calendar_content_sha256 := ts_calendar_content_sha256 r;
                        holiday_dates := holidays |})
  | RTimeOfUseEnergyCharge r =>
      Ok (IRTimeOfUse
            {| ir_tc_base := tc_base r; ir_tc_line_item_key := tc_line_item_key r;
               schedule_rule_id := tc_schedule_rule_id r;
               period_rates := (fun p => {| irp_period := rate_period p;
                                            irp_rate_microdollars_per_kwh :=
                                              period_rate_microdollars_per_kwh p |})
                               <$> tc_period_rates r;
               baseline_credit_microdollars_per_kwh := tc_baseline_credit_microdollars_per_kwh r;
               baseline_rule_id := tc_baseline_rule_id r;
               baseline_credit_charge_component_key := tc_baseline_credit_charge_component_key r |})
  | RFixedDailyCharge r =>
      Ok (IRFixedDaily {| ir_fd_base := fd_base r; ir_fd_line_item_key := fd_line_item_key r;
                          rate_microdollars_per_day := fd_rate_microdollars_per_day r |})
  | RFixedMonthlyCharge r =>
      Ok (IRFixedMonthly {| ir_fm_base := fm_base r; ir_fm_line_item_key := fm_line_item_key r;
                            amount_microdollars := fm_amount_microdollars r |})
  | RExplicitUnsupportedCharge r =>
      Ok (IRUnsupported {| ir_eu_base := eu_base r; ir_eu_line_item_key := eu_line_item_key r;
                           reason_code := eu_reason_code r |})
  end.

(** ** JSON images of the tariff, the IR and the reports *)
Definition jstrs (l : list string) : json := jstr_list (fun s => s) l.

Definition SourceLink_dump (s : SourceLink) : json :=
  JObj [("source_id", JStr (source_id s)); ("source_sha256", JStr (source_sha256 s));
        ("source_sheet_ids", jstrs (source_sheet_ids s))].

Definition RuleApplicability_dump (a : RuleApplicability) : json :=
  JObj [("income_tiers", jstr_list tier_str (income_tiers a));
        ("baseline_territories", jstr_list territory_str (baseline_territories a));
        ("baseline_quantity_codes", jstr_list quantity_code_str (baseline_quantity_codes a));
        ("bill_cycle_months", JList (JInt <$> bill_cycle_months a))].

Definition RuleBase_fields (b : RuleBase) : list (string * json) :=
  [("rule_id", JStr (rule_id b)); ("effective_range", DateRange_dump (effective_range b));
   ("applicability", RuleApplicability_dump (applicability b)); ("source", SourceLink_dump (source b));
   ("rounding", JStr (rounding_str (rounding b)));
   ("charge_component_key", JStr (component_str (charge_component_key b)))].

Definition tier_kind_str (k : TierBoundKind) : string :=
  match k with BASELINE_ALLOWANCE => "BASELINE_ALLOWANCE" | UNBOUNDED => "UNBOUNDED" end.

Definition window_dump (p : TimeOfUsePeriod) (s e : Z) (d : DaySelector) : json :=
  JObj [("period", JStr (period_str p)); ("start_minute_inclusive", JInt s);
        ("end_minute_exclusive", JInt e); ("day_selector", JStr (day_selector_str d))].

Definition tier_dump (bound_field : string) (k : TierBoundKind) (num den rate : Z) : json :=
  JObj [(bound_field, JStr (tier_kind_str k)); ("upper_bound_numerator", JInt num);
        ("upper_bound_denominator", JInt den); ("rate_microdollars_per_kwh", JInt rate)].

Definition period_rate_dump (p : TimeOfUsePeriod) (rate : Z) : json :=
  JObj [("period", JStr (period_str p)); ("rate_microdollars_per_kwh", JInt rate)].

(** The component key is excluded when it is absent. *)
Definition credit_key_fields (k : option ChargeComponentKey) : list (string * json) :=
  match k with
  | Some k => [("baseline_credit_charge_component_key", JStr (component_str k))]
  | None => []
  end.

Definition TariffRule_dump (r : TariffRule) : json :=
  JObj (RuleBase_fields (rule_base r) ++
  match r with
  | RBaselineAllowance r =>
      [("rule_type", JStr "BaselineAllowance"); ("daily_allowance_wh", JInt (ba_daily_allowance_wh r));
       ("unit", JStr "Wh/day")]
  | RTieredEnergyCharge r =>
      [("rule_type", JStr "TieredEnergyCharge"); ("line_item_key", JStr (te_line_item_key r));
       ("quantity_unit", JStr "Wh"); ("rate_unit", JStr "microdollars/kWh");
       ("tiers", JList ((fun t => tier_dump "upper_bound_kind" (upper_bound_kind t)
          (upper_bound_numerator t) (upper_bound_denominator t) (rate_microdollars_per_kwh t))
          <$> te_tiers r))]
  | RTimeOfUseSchedule r =>
      [("rule_type", JStr "TimeOfUseSchedule"); ("timezone", JStr "America/Los_Angeles");
       ("windows", JList ((fun w => window_dump (window_period w) (start_minute_inclusive w)
          (end_minute_exclusive w) (day_selector w)) <$> ts_windows r));
       ("default_period", JStr "OFF_PEAK"); ("calendar_id", jopt JStr (ts_calendar_id r));
       ("calendar_content_sha256", jopt JStr (ts_calendar_content_sha256 r))]
  | RTimeOfUseEnergyCharge r =>
      [("rule_type", JStr "TimeOfUseEnergyCharge"); ("line_item_key", JStr (tc_line_item_key r));
       ("schedule_rule_id", JStr (tc_schedule_rule_id r)); ("quantity_unit", JStr "Wh");
       ("rate_unit", JStr "microdollars/kWh");
       ("period_rates", JList ((fun p => period_rate_dump (rate_period p)
          (period_rate_microdollars_per_kwh p)) <$> tc_period_rates r));
       ("baseline_credit_microdollars_per_kwh", jopt JInt (tc_baseline_credit_microdollars_per_kwh r));
       ("baseline_rule_id", jopt JStr (tc_baseline_rule_id r))]
      ++ credit_key_fields (tc_baseline_credit_charge_component_key r)
  | RFixedDailyCharge r =>
      [("rule_type", JStr "FixedDailyCharge"); ("line_item_key", JStr (fd_line_item_key r));
       ("rate_microdollars_per_day", JInt (fd_rate_microdollars_per_day r));
       ("rate_unit", JStr "microdollars/day")]
  | RFixedMonthlyCharge r =>
      [("rule_type", JStr "FixedMonthlyCharge"); ("line_item_key", JStr (fm_line_item_key r));
       ("amount_microdollars", JInt (fm_amount_microdollars r));
       ("rate_unit", JStr "microdollars/bill_cycle")]
  | RExplicitUnsupportedCharge r =>
      [("rule_type", JStr "ExplicitUnsupportedCharge"); ("line_item_key", JStr (eu_line_item_key r));
       ("reason_code", JStr (eu_reason_code r))]
  end).

Definition Predicate_fields (version : string) (p : EligibilityPredicate) : list (string * json) :=
  [("predicate_id", JStr (predicate_id p)); ("predicate_version", JStr version);
   ("supported_income_tiers", jstr_list tier_str (supported_income_tiers p));
   ("required_service_provider", JStr "PG&E"); ("required_service_mode", JStr "BUNDLED");
   ("required_meter_count", JInt (required_meter_count p));
   ("requires_primary_meter_only", JBool (requires_primary_meter_only p));
   ("requires_care_enrolled", JBool (requires_care_enrolled p));
   ("requires_fera_enrolled", JBool (requires_fera_enrolled p));
   ("requires_medical_baseline", JBool (requires_medical_baseline p));
   ("requires_cca_service", JBool (requires_cca_service p));
   ("requires_direct_access_service", JBool (requires_direct_access_service p));
   ("requires_active_bill_protection", JBool (requires_active_bill_protection p));
   ("requires_solar_or_export", JBool (requires_solar_or_export p));
   ("required_qualifying_technology",
     jopt (fun q => JStr (technology_str q)) (required_qualifying_technology p));
   ("source_rule_ids", jstrs (source_rule_ids p))].

Definition Predicate_dump (p : EligibilityPredicateValue) : json :=
  match p with
  | PredicateV1 p => JObj (Predicate_fields "eligibility-predicate-v1" p)
  | PredicateV2 p =>
      JObj (Predicate_fields "eligibility-predicate-v2" (v2_common p) ++
        [("required_any_qualifying_technologies",
           jstr_list technology_str (required_any_qualifying_technologies p));
         ("requires_dated_technology_attestation", JBool (requires_dated_technology_attestation p));
         ("requires_ev_registration_at_premises", JBool (requires_ev_registration_at_premises p));
         ("requires_whole_house_metering", JBool (requires_whole_house_metering p));
         ("maximum_annual_baseline_ratio_numerator",
           jopt JInt (maximum_annual_baseline_ratio_numerator p));
         ("maximum_annual_baseline_ratio_denominator",
           jopt JInt (maximum_annual_baseline_ratio_denominator p))])
  end.

Definition Component_dump (c : TariffComponentVersion) : json :=
  JObj [("component_version_id", JStr (component_version_id c));
        ("component_key", JStr (component_key c));
        ("effective_range", DateRange_dump (component_effective_range c));
        ("precedence", JInt (precedence c)); ("source", SourceLink_dump (component_source c));
        ("extracted_rule_ids", jstrs (extracted_rule_ids c))].

Definition TariffVersion_dump (t : TariffVersion) : json :=
  JObj [("schema_version", JStr "tariff-schema-v1"); ("compiler_version", JStr "tariff-compiler-v1");
        ("tariff_version_id", JStr (tariff_version_id t)); ("utility", JStr "PG&E");
        ("plan_code", JStr (plan_code t));
        ("admitted_service_windows", JList (DateRange_dump <$> admitted_service_windows t));
        ("component_versions", JList (Component_dump <$> component_versions t));
        ("timezone", JStr "America/Los_Angeles"); ("currency", JStr "USD");
        ("eligibility_predicate", Predicate_dump (eligibility_predicate t));
        ("eligibility_questions", jstrs (eligibility_questions t));
        ("comparison_component_keys", jstr_list component_str (comparison_component_keys t));
        ("optimization_capability",
          JStr (match optimization_capability t with
                | SUPPORTED => "SUPPORTED" | UNSUPPORTED_WITH_REASON => "UNSUPPORTED_WITH_REASON" end));
        ("optimization_unsupported_reason", jopt JStr (optimization_unsupported_reason t));
        ("charge_rules", JList (TariffRule_dump <$> charge_rules t));
        ("source_ids", jstrs (source_ids t)); ("source_hashes", jstrs (source_hashes t));
        ("golden_case_ids", jstrs (golden_case_ids t))].

Definition CompiledRule_dump (r : CompiledRule) : json :=
  JObj (RuleBase_fields (ir_base r) ++ [("operator", JStr (operator_name r))] ++
  match r with
  | IRBaseline r => [("daily_allowance_wh", JInt (daily_allowance_wh r))]
  | IRTiered r =>
      [("line_item_key", JStr (ir_te_line_item_key r));
       ("tiers", JList ((fun t => tier_dump "upper_bound_operator" (tier_upper_bound_operator t)
          (tier_upper_bound_numerator t) (tier_upper_bound_denominator t)
          (tier_rate_microdollars_per_kwh t)) <$> tiers r))]
  | IRSchedule r =>
      [("timezone", JStr "America/Los_Angeles");
       ("windows", JList ((fun w => window_dump (irw_period w) (irw_start_minute_inclusive w)
          (irw_end_minute_exclusive w) (irw_day_selector w)) <$> windows r));
       ("default_period", JStr (period_str (default_period r)));
       ("calendar_id", jopt JStr (calendar_id r));
       ("calendar_content_sha256", jopt JStr (calendar_content_sha256 r));
       ("holiday_dates", jstrs (holiday_dates r))]
  | IRTimeOfUse r =>
      [("line_item_key", JStr (ir_tc_line_item_key r)); ("schedule_rule_id", JStr (schedule_rule_id r));
       ("period_rates", JList ((fun p => period_rate_dump (irp_period p)
          (irp_rate_microdollars_per_kwh p)) <$> period_rates r));
       ("baseline_credit_microdollars_per_kwh", jopt JInt (baseline_credit_microdollars_per_kwh r));
       ("baseline_rule_id", jopt JStr (baseline_rule_id r))]
      ++ credit_key_fields (baseline_credit_charge_component_key r)
  | IRFixedDaily r =>
      [("line_item_key", JStr (ir_fd_line_item_key r));
       ("rate_microdollars_per_day", JInt (rate_microdollars_per_day r))]
  | IRFixedMonthly r =>
      [("line_item_key", JStr (ir_fm_line_item_key r));
       ("amount_microdollars", JInt (amount_microdollars r))]
  | IRUnsupported r =>
      [("line_item_key", JStr (ir_eu_line_item_key r)); ("reason_code", JStr (reason_code r))]
  end).

Definition CanonicalChargeIR_dump (i : CanonicalChargeIR) : json :=
  JObj [("ir_version", JStr (ir_version i)); ("tariff_version_id", JStr (ir_tariff_version_id i));
        ("maximum_energy_wh", JInt (maximum_energy_wh i));
        ("maximum_billing_days", JInt (maximum_billing_days i));
        ("operators", JList (CompiledRule_dump <$> operators i))].

Definition CompilationReports_dump (r : CompilationReports) : json :=
  let v := component_vector r in
  JObj [("normalized_ast_sha256", JStr (normalized_ast_sha256 r));
        ("eligibility_predicate_id", JStr (eligibility_predicate_id r));
        ("component_vector",
          JObj [("service_windows", JList (DateRange_dump <$> service_windows v));
                ("complete_component_keys", jstrs (complete_component_keys v));
                ("active_component_count_by_key", JList (JInt <$> active_component_count_by_key v))]);
        ("source_coverage", JList (SourceCoverage_dump <$> source_coverage r));
        ("golden_coverage",
          JObj [("golden_case_ids", jstrs (coverage_golden_case_ids (golden_coverage r)));
                ("rule_case_ids", JObj ((fun kv => (kv.1, jstrs kv.2)) <$> rule_case_ids (golden_coverage r)))]);
        ("solver_lowering_supported_operators", jstrs (solver_lowering_supported_operators r));
        ("solver_lowering_unsupported_reasons", jstrs (solver_lowering_unsupported_reasons r))].

(** ** Compilation *)
Definition source_coverage_of (t : TariffVersion) (records : dict string json) (id : string)
    : result SourceCoverage :=
  match dict_get id records with
  | None => Raise (PyError "KeyError")
  | Some record =>
      match jget "sha256" record, jget "source_url" record with
      | Some sha, Some url =>
          match sha, url with
          | JStr sha, JStr url =>
              Ok {| coverage_source_id := id; coverage_source_sha256 := sha; coverage_source_url := url;
                    linked_rule_ids := sorted_set
                      ((rule_id <$> List.filter (fun b => String.eqb (source_id (source b)) id)
                                      (rule_base <$> charge_rules t))
                       ++ if String.eqb id "pge-advice-7846-e"
                          then source_rule_ids (predicate_common (eligibility_predicate t)) else []) |}
          | _, _ => Raise (ValidationError "SourceCoverage")
          end
      | _, _ => Raise (PyError "KeyError")
      end
  end.

Definition normalized_ast_of (t : TariffVersion) : NormalizedAst :=
  {| ast_tariff_version_id := Some (tariff_version_id t);
     ast_eligibility_predicate := Some (eligibility_predicate t);
     ast_comparison_component_keys := Some (comparison_component_keys t);
     ast_source_ids := Some (source_ids t);
     ast_source_hashes := Some (source_hashes t) |}.

Definition compilation_reports `{Sha256} (t : TariffVersion) (i : CanonicalChargeIR)
    (sources : list SourceCoverage) (golden : GoldenCoverage) : CompilationReports :=
  let supported := bool_decide (optimization_capability t = SUPPORTED) in
  {| normalized_ast_sha256 := canonical_content_sha256 "RateReplay.TariffAST.v1" (TariffVersion_dump t);
     eligibility_predicate_id := predicate_id (predicate_common (eligibility_predicate t));
     component_vector := {| service_windows := admitted_service_windows t;
                            complete_component_keys := component_key <$> component_versions t;
                            active_component_count_by_key := (fun _ => 1) <$> component_versions t |};
     source_coverage := sources;
     golden_coverage := golden;
     solver_lowering_supported_operators :=
       if supported then sorted_set (operator_name <$> operators i) else [];
     solver_lowering_unsupported_reasons :=
       if supported then [] else [default EmptyString (optimization_unsupported_reason t)] |}.

(** The checks of [compile_tariff] on a loaded definition, in order. *)
Definition check_tariff `{Root} (t : TariffVersion) (source_lock : json) (records : dict string json)
    : result unit :=
  _ ← validate_windows t;
  _ ← validate_component_composition t source_lock records;
  _ ← validate_target_account t;
  _ ← validate_tariff_bounds t;
  _ ← validate_time_operators t;
  _ ← validate_comparison_components t;
  forM_ (fun r => validate_source_link (source (rule_base r)) (rule_id (rule_base r)) records)
    (charge_rules t).

Definition compile_loaded `{Root} `{Sha256} (t : TariffVersion) : result CompilationBundle :=
  lock_records ← source_records;
  let '(source_lock, records) := lock_records in
  _ ← check_tariff t source_lock records;
  golden ← load_golden_coverage t;
  ops ← mapM lower_rule (charge_rules t);
  let i := {| ir_version := "compiled-charge-ir-v1"; ir_tariff_version_id := tariff_version_id t;
              maximum_energy_wh := MAXIMUM_COMPILED_ENERGY_WH;
              maximum_billing_days := MAXIMUM_COMPILED_BILLING_DAYS; operators := ops |} in
  sources ← mapM (source_coverage_of t records) (source_ids t);
  let r := compilation_reports t i sources golden in
  Ok {| normalized_ast := normalized_ast_of t; ir := i; reports := r;
        compiler_content_sha256 := canonical_content_sha256 "RateReplay.TariffCompilationBundle.v1"
          (JObj [("normalized_ast", TariffVersion_dump t); ("ir", CanonicalChargeIR_dump i);
                 ("reports", CompilationReports_dump r)]) |}.

Definition compile_tariff `{Root} `{Sha256} (parse : json -> result TariffVersion)
    (definition_path : option string) : result CompilationBundle :=
  t ← load_tariff_definition parse (default "tariffs/definitions/pge-e1-2026-07.json" definition_path);
  compile_loaded t.
