(* ===== verification/CompilerFixtures.v ===== *)
(** * CompilerFixtures: two tariff definitions with their locks

    The E-1 and EV2-A definitions of July 2026 reduced to one component and one
    source, and lock files under which they compile.  The compiled operators
    are the ones of [Fixtures]. *)

From S2P Require Import Prelude Calendar Json Schema Compiled Fixtures Eligibility Compiler.

Definition tariff_source : SourceLink := advice "pge-advice-7921-e" ["61362-E"].

Definition tariff_fixture (id plan : string) (p : EligibilityPredicateValue) (rules : list TariffRule)
    : TariffVersion :=
  {| tariff_version_id := id; plan_code := plan; admitted_service_windows := [july_2026];
     component_versions :=
       [{| component_version_id := "rates-2026-06-01"; component_key := "rates";
           component_effective_range := since_june; precedence := 1;
           component_source := tariff_source;
           extracted_rule_ids := (rule_id ∘ rule_base <$> rules)
                                 ++ source_rule_ids (predicate_common p) |}];
     eligibility_predicate := p; eligibility_questions := [];
     comparison_component_keys := [bundled_energy; base_services_charge; california_climate_credit];
     optimization_capability := SUPPORTED; optimization_unsupported_reason := None;
     charge_rules := rules; source_ids := ["pge-advice-7921-e"]; source_hashes := ["00"];
     golden_case_ids := ["complete"] |}.

Definition e1_baseline_rule : TariffRule := RBaselineAllowance
  {| ba_base := rule_fixture "E1_BASELINE_T_BASIC_SUMMER_2026_03_01" baseline_t_basic EXACT
                  baseline_allowance;
     ba_daily_allowance_wh := 6500 |}.
Definition e1_energy_rule : TariffRule := RTieredEnergyCharge
  {| te_base := rule_fixture "E1_TOTAL_ENERGY_2026_06_01" always HALF_UP_CENT_AT_LINE_ITEM bundled_energy;
     te_line_item_key := "bundled_energy";
     te_tiers := [{| upper_bound_kind := BASELINE_ALLOWANCE; upper_bound_numerator := 1;
                     upper_bound_denominator := 1; rate_microdollars_per_kwh := 325610 |};
                  {| upper_bound_kind := UNBOUNDED; upper_bound_numerator := 1;
                     upper_bound_denominator := 1; rate_microdollars_per_kwh := 407020 |}] |}.
Definition base_services_rule : TariffRule := RFixedDailyCharge
  {| fd_base := rule_fixture "BSC_TIER3_2026_06_01" tier_3_only HALF_UP_CENT_AT_LINE_ITEM
                  base_services_charge;
     fd_line_item_key := "base_services_charge"; fd_rate_microdollars_per_day := 793430 |}.
Definition climate_credit_rule : TariffRule := RFixedMonthlyCharge
  {| fm_base := rule_fixture "CALIFORNIA_CLIMATE_CREDIT_2026" august_only HALF_UP_CENT_AT_LINE_ITEM
                  california_climate_credit;
     fm_line_item_key := "california_climate_credit"; fm_amount_microdollars := -36180000 |}.

Definition ev2a_schedule_rule : TariffRule := RTimeOfUseSchedule
  {| ts_base := rule_fixture "EV2A_TOU_WINDOWS_2026_03_01" always EXACT bundled_energy;
     ts_windows := [{| window_period := PARTIAL_PEAK; start_minute_inclusive := 900;
                       end_minute_exclusive := 960; day_selector := EVERY_DAY |};
                    {| window_period := PEAK; start_minute_inclusive := 960;
                       end_minute_exclusive := 1260; day_selector := EVERY_DAY |};
                    {| window_period := PARTIAL_PEAK; start_minute_inclusive := 1260;
                       end_minute_exclusive := 1440; day_selector := EVERY_DAY |}];
     ts_calendar_id := None; ts_calendar_content_sha256 := None |}.
Definition ev2a_energy_rule : TariffRule := RTimeOfUseEnergyCharge
  {| tc_base := rule_fixture "EV2A_SUMMER_TOTAL_RATES_2026_06_01" always HALF_UP_CENT_AT_LINE_ITEM
                  bundled_energy;
     tc_line_item_key := "bundled_energy"; tc_schedule_rule_id := "EV2A_TOU_WINDOWS_2026_03_01";
     tc_period_rates := [{| rate_period := PEAK; period_rate_microdollars_per_kwh := 538090 |};
                         {| rate_period := PARTIAL_PEAK; period_rate_microdollars_per_kwh := 427600 |};
                         {| rate_period := OFF_PEAK; period_rate_microdollars_per_kwh := 225580 |}];
     tc_baseline_credit_microdollars_per_kwh := None; tc_baseline_rule_id := None;
     tc_baseline_credit_charge_component_key := None |}.

Definition e1_tariff : TariffVersion :=
  tariff_fixture "pge-e1-2026-07" "E-1" (PredicateV1 july_predicate)
    [e1_baseline_rule; e1_energy_rule; base_services_rule; climate_credit_rule].
Definition ev2a_tariff : TariffVersion :=
  tariff_fixture "pge-ev2a-2026-07" "EV2-A" (PredicateV2 ev2a_predicate)
    [ev2a_schedule_rule; ev2a_energy_rule; base_services_rule; climate_credit_rule].

(** The lock files of a one-component tariff. *)
Definition sources_lock (t : TariffVersion) : json :=
  JObj [("sources", JList [JObj [("source_id", JStr "pge-advice-7921-e"); ("sha256", JStr "00");
           ("rule_ids", JList (JStr <$> required_rule_ids t)); ("source_url", JStr "https://pge")]]);
        ("tariff_component_vectors", JList [JObj
          [("tariff_id", JStr (tariff_version_id t)); ("service_window", range_json july_2026);
           ("components", JList [JObj [("component_id", JStr "rates");
              ("effective_range", range_json since_june); ("precedence", JInt 1);
              ("source_id", JStr "pge-advice-7921-e")]])]])].
Definition golden_bill (t : TariffVersion) : json :=
  JObj [("case_id", JStr "complete"); ("source_ids", JList [JStr "pge-advice-7921-e"]);
        ("rule_ids", JList (JStr <$> required_rule_ids t))].

Definition root_of (t : TariffVersion) : Root := fun path =>
  if String.eqb path "tariffs/sources.lock.json" then Some (sources_lock t)
  else if String.eqb path "tariffs/admission/target-account-v1.json" then
    Some (JObj [("predicate_id", JStr (predicate_id (predicate_common (eligibility_predicate t))));
                ("required_facts", locked_account_values (predicate_common (eligibility_predicate t))
                                     july_2026 TIER_3)])
  else if String.eqb path "tariffs/golden/e1-july-2026-complete-bill.json" then Some (golden_bill t)
  else if String.eqb path "tariffs/golden/e1-july-2026-boundaries.json" then
    Some (JObj [("cases", JList [])])
  else if String.eqb path "tariffs/admission/m3-golden-lock.json" then
    Some (JObj [("tariffs", JList [JObj [("plan_code", JStr (plan_code t));
                                         ("golden_path", JStr "golden.json")]])])
  else if String.eqb path "golden.json" then
    Some (JObj [("complete_bill", golden_bill t); ("boundary_cases", JList [])])
  else None.

Definition e1_compiled : result CompilationBundle :=
  compile_loaded (H := root_of e1_tariff) (H0 := toy_sha256) e1_tariff.
Definition ev2a_compiled : result CompilationBundle :=
  compile_loaded (H := root_of ev2a_tariff) (H0 := toy_sha256) ev2a_tariff.

Definition compiled_ops (r : result CompilationBundle) : list CompiledRule :=
  match r with Ok b => operators (ir b) | Raise _ => [] end.

Example e1_compiles : compiled_ops e1_compiled = operators (ir e1_bundle).
Proof. vm_compute. reflexivity. Qed.
Example ev2a_compiles : compiled_ops ev2a_compiled = operators (ir ev2a_bundle).
Proof. vm_compute. reflexivity. Qed.
