(* ===== verification/CompilerProofs.v ===== *)
(** * CompilerProofs: what a successful compilation guarantees

    [compile_loaded] fails closed: a bundle exists only for a tariff that meets
    the contract [admitted].  A compiled tariff satisfies the hypotheses of the
    replay theorems, stays inside 64-bit integers line by line, and bills every
    watt-hour of a time-of-use plan once. *)

From S2P Require Import Prelude Calendar Json Schema Compiled Fixtures Eligibility.
From S2P Require Import Apportion DayEnergy ChargeIR Replay ReplayProofs ReplaySafety Compiler CompilerFixtures.

(** ** Date ranges *)
Lemma covers_contains r w d : covers r w = true -> contains w d = true -> contains r d = true.
Proof.
  unfold covers, contains. destruct (Z.ltb_spec (dr_start w) (dr_start r)); [done|].
  intros Hc Hd. apply andb_true_iff in Hd as [Hd1 Hd2]. apply Z.leb_le in Hd1.
  apply andb_true_iff. split; [apply Z.leb_le; lia|].
  destruct (dr_end r) as [e|]; [|done]. destruct (dr_end w) as [we|]; [|done].
  apply Z.leb_le in Hc. apply Z.ltb_lt in Hd2. apply Z.ltb_lt. lia.
Qed.

(** [w1] ends no later than [w2] begins. *)
Definition ends_before (w1 w2 : DateRange) : Prop :=
  exists e, dr_end w1 = Some e /\ e <= dr_start w2.

Lemma window_order_sorted ws prev r :
  StronglySorted (key_le dr_start) ws ->
  foldM check_window_order prev ws = Ok r ->
  StronglySorted ends_before ws /\ Forall (fun w => dr_end w <> None) ws
  /\ (forall p, prev = Some p -> Forall (fun w => p <= dr_start w) ws).
Proof.
  intros Hs. revert prev; induction Hs as [|w ws Hs IH Hw]; intros prev Hr; simpl in Hr.
  { repeat split; constructor. }
  apply bind_ok in Hr as (e' & Hw1 & Hr). unfold check_window_order in Hw1.
  destruct (dr_end w) as [e|] eqn:Ee; [|done]. apply bind_ok in Hw1 as (u & Hov & [= <-]).
  apply raise_if_ok in Hov. destruct (IH _ Hr) as (Hso & Hend & Hp).
  specialize (Hp e eq_refl). split; [|split].
  - constructor; [done|]. eapply Forall_impl; [exact Hp|]. intros w' Hw'. by exists e.
  - constructor; [congruence|done].
  - intros p ->. bools. constructor; [lia|]. eapply Forall_impl; [exact Hw|].
    intros w' Hw'. unfold key_le in Hw'. rewrite py_leb_Z in Hw'. bools. lia.
Qed.

Lemma check_coverage_ok ranges ws code :
  check_coverage ranges ws code = Ok tt ->
  forall r w, r ∈ ranges -> w ∈ ws -> covers r w = true.
Proof.
  unfold check_coverage. rewrite forM_ok, Forall_forall. intros H r w Hr Hw.
  specialize (H r Hr). rewrite forM_ok, Forall_forall in H. specialize (H w Hw).
  apply raise_if_ok in H. by apply negb_false_iff in H.
Qed.

(** ** Rule ownership *)

(** How often components of [cs] extract rule [id], and by which keys. *)
Definition owners_of (id : string) (cs : list TariffComponentVersion) : list string :=
  cs ≫= fun c => (fun _ => component_key c) <$> List.filter (String.eqb id) (extracted_rule_ids c).

Lemma add_owner_get id id' key owners :
  default [] (dict_get id' (add_owner id key owners)) =
  default [] (dict_get id' owners) ++ if decide (id = id') then [key] else [].
Proof.
  unfold add_owner. destruct (decide (id = id')) as [->|Hne].
  - by rewrite dict_get_set_eq.
  - rewrite dict_get_set_ne by done. by rewrite app_nil_r.
Qed.

Lemma check_component_owners locked records owners c owners' id :
  check_component locked records owners c = Ok owners' ->
  default [] (dict_get id owners') = default [] (dict_get id owners) ++ owners_of id [c]
  /\ (id ∈ extracted_rule_ids c -> validate_source_link (component_source c) id records = Ok tt).
Proof.
  unfold check_component. destruct (dict_get (component_key c) locked); [|done].
  intros Hr. apply bind_ok in Hr as (u & _ & Hr). unfold owners_of; simpl. rewrite app_nil_r.
  revert owners Hr. induction (extracted_rule_ids c) as [|i ids IH]; intros owners Hr; simpl in Hr.
  - injection Hr as <-. simpl. rewrite app_nil_r. split; [done|]. set_solver.
  - apply bind_ok in Hr as (o1 & H1 & Hr). apply bind_ok in H1 as ([] & Hlink & [= <-]).
    apply IH in Hr as [-> Hl]. rewrite add_owner_get, <- app_assoc. split.
    + f_equal. simpl. destruct (decide (i = id)) as [->|Hne].
      * rewrite String.eqb_refl. done.
      * rewrite (proj2 (String.eqb_neq id i)) by done. done.
    + intros [->|Hin]%elem_of_cons; [done|by apply Hl].
Qed.

Lemma check_components_owners locked records cs owners :
  foldM (check_component locked records) [] cs = Ok owners ->
  (forall id, default [] (dict_get id owners) = owners_of id cs)
  /\ (forall c id, c ∈ cs -> id ∈ extracted_rule_ids c ->
        validate_source_link (component_source c) id records = Ok tt).
Proof.
  apply (foldM_prefix_inv _ (fun done owners =>
    (forall id, default [] (dict_get id owners) = owners_of id done)
    /\ (forall c id, c ∈ done -> id ∈ extracted_rule_ids c ->
          validate_source_link (component_source c) id records = Ok tt))).
  - split; [done|]. intros c id Hc. by apply elem_of_nil in Hc.
  - intros done c o o' _ [Ho Hl] Hc. split.
    + intros id. destruct (check_component_owners _ _ _ _ _ id Hc) as [-> _]. rewrite Ho.
      unfold owners_of. by rewrite bind_app.
    + intros c' id [Hin|Hin]%elem_of_app Hid; [by apply Hl|].
      apply list_elem_of_singleton in Hin as ->.
      by destruct (check_component_owners _ _ _ _ _ id Hc) as [_ Hlink]; apply Hlink.
Qed.

(** ** The admission contract *)
Record admitted (t : TariffVersion) (records : dict string json) : Prop := {
  adm_bounded : Forall (fun w => dr_end w <> None) (admitted_service_windows t);
  adm_disjoint : StronglySorted ends_before (sorted_by dr_start (admitted_service_windows t));
  adm_rules_cover r w d : r ∈ charge_rules t -> w ∈ admitted_service_windows t ->
    contains w d = true -> contains (effective_range (rule_base r)) d = true;
  adm_components_cover c w d : c ∈ component_versions t -> w ∈ admitted_service_windows t ->
    contains w d = true -> contains (component_effective_range c) d = true;
  adm_linked r : r ∈ charge_rules t ->
    validate_source_link (source (rule_base r)) (rule_id (rule_base r)) records = Ok tt;
  adm_owned id : id ∈ required_rule_ids t ->
    exists key, owners_of id (component_versions t) = [key];
  adm_owner_source r : r ∈ charge_rules t ->
    exists c, c ∈ component_versions t
      /\ owners_of (rule_id (rule_base r)) (component_versions t) = [component_key c]
      /\ source_id (source (rule_base r)) = source_id (component_source c)
}.

Lemma validate_windows_ok t : validate_windows t = Ok tt ->
  Forall (fun w => dr_end w <> None) (admitted_service_windows t)
  /\ StronglySorted ends_before (sorted_by dr_start (admitted_service_windows t))
  /\ (forall r w, r ∈ charge_rules t -> w ∈ admitted_service_windows t ->
        covers (effective_range (rule_base r)) w = true)
  /\ (forall c w, c ∈ component_versions t -> w ∈ admitted_service_windows t ->
        covers (component_effective_range c) w = true).
Proof.
  unfold validate_windows. intros Hr. apply bind_ok in Hr as (x & Hord & Hr).
  apply bind_ok in Hr as (u & _ & Hr). apply bind_ok in Hr as ([] & Hc & Hrules).
  destruct (window_order_sorted _ _ _ (sorted_by_sorted dr_start _) Hord) as (Hs & Hb & _).
  rewrite sorted_by_perm in Hb. split; [done|]. split; [done|]. split.
  - intros r w Hr Hw. eapply check_coverage_ok; [exact Hrules| |done].
    apply list_elem_of_fmap. by exists r.
  - intros c w Hcw Hw. eapply check_coverage_ok; [exact Hc| |done].
    apply list_elem_of_fmap. by exists c.
Qed.

Lemma find_component key cs c :
  find (fun c => String.eqb (component_key c) key) cs = Some c -> c ∈ cs /\ component_key c = key.
Proof.
  intros H. apply find_some in H as [Hin He]. rewrite <- list_elem_of_In in Hin.
  by apply String.eqb_eq in He.
Qed.

Lemma validate_component_composition_ok t lock records :
  validate_component_composition t lock records = Ok tt ->
  (forall id, id ∈ required_rule_ids t -> exists key, owners_of id (component_versions t) = [key])
  /\ (forall r, r ∈ charge_rules t -> exists c, c ∈ component_versions t
        /\ owners_of (rule_id (rule_base r)) (component_versions t) = [component_key c]
        /\ source_id (source (rule_base r)) = source_id (component_source c)).
Proof.
  unfold validate_component_composition. destruct (jget _ lock) as [[| | | | |vectors|]|]; try done.
  destruct (find_vector _ _) as [v|]; [|done]. intros Hr.
  apply bind_ok in Hr as (w & _ & Hr). apply bind_ok in Hr as (u & _ & Hr).
  destruct (jget "components" v) as [[| | | | |items|]|]; try done.
  apply bind_ok in Hr as (locked & _ & Hr). apply bind_ok in Hr as (owners & Ho & Hr).
  apply bind_ok in Hr as ([] & Hreq & Hown). apply check_components_owners in Ho as [Ho _].
  rewrite forM_ok, Forall_forall in Hreq. rewrite forM_ok, Forall_forall in Hown.
  assert (forall id, id ∈ required_rule_ids t ->
    exists key, owners_of id (component_versions t) = [key]) as Hone.
  { intros id Hid. specialize (Hreq id Hid). apply raise_if_ok in Hreq. bools.
    rewrite Ho in Hreq. destruct (owners_of id _) as [|key [|]]; try done. eauto. }
  split; [done|]. intros r Hr. specialize (Hown r Hr). unfold check_owner in Hown.
  destruct (Hone (rule_id (rule_base r))) as [key Hkey].
  { apply elem_of_app. left. apply list_elem_of_fmap. by exists r. }
  specialize (Ho (rule_id (rule_base r))). rewrite Hkey in Ho.
  destruct (dict_get (rule_id (rule_base r)) owners) as [ks|]; [|done]. simpl in Ho. subst ks.
  destruct (find _ _) as [c|] eqn:Ef; [|done]. apply find_component in Ef as [Hin <-].
  apply raise_if_ok in Hown. apply negb_false_iff, String.eqb_eq in Hown. eauto.
Qed.

Lemma check_tariff_admitted `{Root} t lock records :
  check_tariff t lock records = Ok tt -> admitted t records.
Proof.
  unfold check_tariff. intros Hr. apply bind_ok in Hr as ([] & Hw & Hr).
  apply bind_ok in Hr as ([] & Hc & Hr). do 4 apply bind_ok in Hr as ([] & _ & Hr).
  rewrite forM_ok, Forall_forall in Hr.
  apply validate_windows_ok in Hw as (Hb & Hs & Hrc & Hcc).
  apply validate_component_composition_ok in Hc as [Ho Hos].
  split; try done.
  - intros r w d Hr1 Hw1. apply covers_contains. by apply Hrc.
  - intros c w d Hc1 Hw1. apply covers_contains. by apply Hcc.
Qed.

(** ** Lowering *)
Lemma lower_rule_base `{Root} r op : lower_rule r = Ok op -> ir_base op = rule_base r.
Proof. destruct r; simpl; intros Hr; inv_ok; by subst. Qed.

Lemma lower_rules_base `{Root} rs ops :
  mapM lower_rule rs = Ok ops -> ir_base <$> ops = rule_base <$> rs.
Proof.
  rewrite mapM_ok. induction 1 as [|r op rs ops Hr _ IH]; simpl; [done|].
  f_equal; [by apply lower_rule_base|exact IH].
Qed.

(** The field constraints and validators pydantic enforces on a rule. *)
Definition rule_schema_ok (r : TariffRule) : Prop :=
  match r with
  | RBaselineAllowance b => 0 < ba_daily_allowance_wh b
  | RTieredEnergyCharge c =>
      Forall (fun t => energy_tier_fields_ok t = true) (te_tiers c) /\ validate_tiers (te_tiers c) = Ok tt
  | RTimeOfUseEnergyCharge c =>
      Forall (fun p => 0 <= period_rate_microdollars_per_kwh p) (tc_period_rates c)
      /\ validate_period_rates c = Ok tt
  | _ => True
  end.

Lemma lower_rule_well_formed `{Root} r op :
  rule_schema_ok r -> lower_rule r = Ok op -> rule_well_formed op.
Proof.
  destruct r as [b|c|s|c|c|c|c]; simpl; intros Hs Hr; inv_ok; subst; simpl; try done; [lia|].
  destruct Hs as [_ Ht]. unfold validate_tiers in Ht. apply bind_ok in Ht as (u & Hl & _).
  apply raise_if_ok in Hl. bools. apply dec_stable in Hl.
  rewrite fmap_last. by destruct (last (te_tiers c)).
Qed.

(** ** Numeric bounds *)
Definition rule_bounded (max_rate fixed : Z) (r : TariffRule) : Prop :=
  match r with
  | RTieredEnergyCharge c => Forall (fun t => rate_microdollars_per_kwh t <= max_rate) (te_tiers c)
  | RTimeOfUseEnergyCharge c =>
      Forall (fun p => period_rate_microdollars_per_kwh p
                       + Z.abs (default 0 (tc_baseline_credit_microdollars_per_kwh c)) <= max_rate)
        (tc_period_rates c) /\ tc_period_rates c <> []
  | RFixedDailyCharge c =>
      Z.abs (fd_rate_microdollars_per_day c) * MAXIMUM_COMPILED_BILLING_DAYS <= fixed
  | RFixedMonthlyCharge c => Z.abs (fm_amount_microdollars c) <= fixed
  | _ => True
  end.

Lemma rule_bounded_mono m m' f f' r :
  m <= m' -> f <= f' -> rule_bounded m f r -> rule_bounded m' f' r.
Proof.
  intros Hm Hf. destruct r; simpl; try done; try lia.
  - intros H. eapply Forall_impl; [exact H|]. simpl; lia.
  - intros [H Hne]. split; [|done]. eapply Forall_impl; [exact H|]. simpl; lia.
Qed.

Lemma foldl_max_le (l : list Z) a : a <= foldl Z.max a l /\ Forall (fun x => x <= foldl Z.max a l) l.
Proof.
  revert a; induction l as [|x l IH]; intros a; simpl; [split; [lia|constructor]|].
  destruct (IH (Z.max a x)) as [Ha Hl]. split; [lia|]. constructor; [lia|done].
Qed.

Lemma bound_step_ok acc r acc' :
  0 <= acc.1 -> 0 <= acc.2 -> bound_step acc r = Ok acc' ->
  acc.1 <= acc'.1 /\ acc.2 <= acc'.2 /\ rule_bounded acc'.1 acc'.2 r.
Proof.
  destruct acc as [m f]. simpl. intros Hm Hf.
  destruct r as [b|c|s|c|c|c|c]; simpl; intros Hr; inv_ok; subst; simpl;
    try (unfold MAXIMUM_COMPILED_BILLING_DAYS; split_and!; simpl; lia || done).
  - destruct (foldl_max_le (rate_microdollars_per_kwh <$> te_tiers c) m) as [H1 H2].
    split; [done|]. split; [done|]. by rewrite Forall_fmap in H2.
  - split; [lia|]. split; [done|]. match goal with H : py_max _ = Ok _ |- _ => rename H into Hmax end.
    unfold py_max in Hmax. destruct (tc_period_rates c) as [|p ps]; [done|].
    simpl in Hmax. injection Hmax as <-. split; [|done].
    destruct (foldl_max_le (period_rate_microdollars_per_kwh <$> ps)
                (period_rate_microdollars_per_kwh p)) as [H1 H2].
    rewrite Forall_fmap in H2. simpl in *. set (top := foldl _ _ _) in *. constructor; [lia|].
    eapply Forall_impl; [exact H2|]. simpl. lia.
Qed.

Lemma validate_tariff_bounds_ok t : validate_tariff_bounds t = Ok tt ->
  exists m f, Forall (rule_bounded m f) (charge_rules t) /\ 0 <= m /\ 0 <= f
    /\ MAXIMUM_COMPILED_ENERGY_WH * m + f <= SIGNED_INT64_MAX.
Proof.
  unfold validate_tariff_bounds. intros Hr. apply bind_ok in Hr as ([m f] & Hf & Hr).
  apply raise_if_ok in Hr. simpl in Hr. bools. exists m, f.
  assert (0 <= m /\ 0 <= f /\ Forall (rule_bounded m f) (charge_rules t)) as (Hm & Hf0 & Hall).
  { change m with ((m, f).1). change f with ((m, f).2) at 1 3. revert Hf.
    apply (foldM_prefix_inv _ (fun done acc => 0 <= acc.1 /\ 0 <= acc.2
      /\ Forall (rule_bounded acc.1 acc.2) done)).
    - split; [done|]. split; [done|constructor].
    - intros done r s s' _ (H1 & H2 & H3) Hs. destruct (bound_step_ok _ _ _ H1 H2 Hs) as (H4 & H5 & H6).
      split; [lia|]. split; [lia|]. apply Forall_app. split; [|by repeat constructor].
      eapply Forall_impl; [exact H3|]. intros r'. by apply rule_bounded_mono. }
  split; [done|]. split; [done|]. split; [done|]. lia.
Qed.

(** ** Line magnitudes *)
Definition line_fits (l : ChargeLineItem) : Prop :=
  Z.abs (quantity_numerator l * rate_numerator_microdollars l) <= SIGNED_INT64_MAX.

Lemma tier_shares_bounds baseline energy lower ts :
  0 <= lower -> 0 <= energy -> Forall (fun q => 0 <= q <= energy) (tier_shares baseline energy lower ts).
Proof.
  revert lower; induction ts as [|t ts IH]; intros lower Hl He; simpl; constructor; [lia|].
  apply IH; lia.
Qed.

Lemma product_fits q r E m f :
  0 <= q <= E -> 0 <= r <= m -> 0 <= f -> E <= MAXIMUM_COMPILED_ENERGY_WH ->
  MAXIMUM_COMPILED_ENERGY_WH * m + f <= SIGNED_INT64_MAX -> Z.abs (q * r) <= SIGNED_INT64_MAX.
Proof.
  intros Hq Hr Hf HE Hb. rewrite Z.abs_eq by nia.
  transitivity (MAXIMUM_COMPILED_ENERGY_WH * m); [|lia]. apply Z.mul_le_mono_nonneg; lia.
Qed.

Section LineBounds.
Context `{ZoneInfo} `{Root} (env : ReplayEnv) (m f : Z).
Hypothesis Henv : env_ok env.
Hypothesis Hmax : env_energy env <= MAXIMUM_COMPILED_ENERGY_WH.
Hypothesis Hdays : 0 <= env_billing_days env <= MAXIMUM_COMPILED_BILLING_DAYS.
Hypothesis Hf0 : 0 <= f.
Hypothesis Hm0 : 0 <= m.
Hypothesis Hbound : MAXIMUM_COMPILED_ENERGY_WH * m + f <= SIGNED_INT64_MAX.
Hypothesis Hsum : is_interval (env_request env) = true ->
  sum_by interval_energy_wh (request_intervals (env_request env)) = env_energy env.

Lemma tier_reference_fits op index shares ts :
  Forall (fun q => 0 <= q <= env_energy env) shares ->
  Forall (fun t => 0 <= tier_rate_microdollars_per_kwh t <= m) ts ->
  Forall line_fits (tier_reference env op index shares ts).
Proof.
  intros Hs; revert index ts; induction Hs as [|q shares Hq _ IH]; intros index [|t ts] Ht; simpl;
    try constructor.
  apply Forall_cons in Ht as [Hr Ht]. apply Forall_app. split; [|by apply IH].
  case_match; repeat constructor. unfold line_fits; simpl.
  by eapply (product_fits q _ (env_energy env) m f).
Qed.

Lemma period_quantity_bounds s p :
  let q := sum_by (period_share s (service_window (env_facts env)) p)
             (request_intervals (env_request env)) in
  0 <= q <= env_energy env.
Proof.
  cbv zeta. pose proof (eo_energies _ Henv) as He. pose proof (eo_energy _ Henv).
  rewrite Forall_forall in He.
  assert (forall i, i ∈ request_intervals (env_request env) ->
    0 <= period_share s (service_window (env_facts env)) p i <= interval_energy_wh i) as Hb.
  { intros i Hi. specialize (He i Hi). simpl in He. unfold period_share.
    destruct (interval_period _ _ _); [case_decide|]; lia. }
  split; [apply sum_by_nonneg; intros i Hi; by apply Hb|].
  destruct (is_interval (env_request env)) eqn:Ei.
  - rewrite <- Hsum by done. apply sum_by_le. intros i Hi. by apply Hb.
  - destruct (env_request env); [|done]. simpl. rewrite sum_by_nil. done.
Qed.

Lemma operator_lines_fit r op :
  rule_schema_ok r -> rule_bounded m f r -> lower_rule r = Ok op ->
  Forall line_fits (operator_lines env op).
Proof.
  intros Hs Hb Hl. unfold operator_lines. destruct (negb _); [constructor|].
  pose proof (eo_energy _ Henv) as He. pose proof (eo_baseline _ Henv) as Hbase.
  destruct r as [b|c|s|c|c|c|c]; simpl in Hl; inv_ok; subst op; simpl; try constructor.
  - apply tier_reference_fits; [by apply tier_shares_bounds|]. apply Forall_fmap.
    destruct Hs as [Hfields _]. simpl in Hb. rewrite Forall_forall in Hfields, Hb.
    apply Forall_forall. intros t Ht. specialize (Hb t Ht). specialize (Hfields t Ht).
    unfold energy_tier_fields_ok in Hfields. simpl. bools. lia.
  - destruct (resolve_time_schedule _ _) as [s|]; [|constructor].
    destruct Hs as [Hrates Hval]. destruct Hb as [Hb Hne]. rewrite Forall_forall in Hrates, Hb.
    apply Forall_app. split.
    + apply Forall_forall. intros l Hin. apply list_elem_of_bind in Hin as (r & Hin & Hr).
      simpl in Hr. apply list_elem_of_fmap in Hr as (p & -> & Hp).
      specialize (Hb p Hp). specialize (Hrates p Hp). unfold period_rate_reference in Hin.
      pose proof (period_quantity_bounds s (rate_period p)) as Hq. simpl in Hin, Hq, Hb, Hrates.
      case_match; [by apply elem_of_nil in Hin|]. apply list_elem_of_singleton in Hin as ->.
      unfold line_fits; simpl. eapply (product_fits _ _ (env_energy env) m f); done || lia.
    + unfold credit_reference. simpl.
      destruct (tc_baseline_credit_microdollars_per_kwh c) as [k|]; repeat constructor.
      unfold line_fits; simpl in *. destruct (tc_period_rates c) as [|p ps]; [done|].
      specialize (Hb p ltac:(left)). specialize (Hrates p ltac:(left)). simpl in Hb.
      set (q := Z.min _ _). assert (Z.abs (q * k) = Z.abs (q * Z.abs k)) as ->
        by by rewrite !Z.abs_mul, Z.abs_idemp.
      assert (0 <= q <= env_energy env) by (unfold q; lia).
      eapply (product_fits _ _ (env_energy env) m f); done || lia.
  - unfold line_fits; simpl. simpl in Hb. rewrite Z.abs_mul, (Z.abs_eq (env_billing_days env)) by lia. nia.
  - done.
  - change (Z.abs (1 * fm_amount_microdollars c) <= SIGNED_INT64_MAX). simpl in Hb.
    rewrite Z.mul_1_l. assert (0 <= MAXIMUM_COMPILED_ENERGY_WH) by done. nia.
  - done.
Qed.
End LineBounds.

(** ** Time-of-use coverage *)
Section Coverage.
Context `{ZoneInfo}.

Lemma classify_local_period_in s w :
  classify_local_period s w ∈ default_period s :: (irw_period <$> windows s).
Proof.
  unfold classify_local_period. destruct (find _ _) as [win|] eqn:E; [|left].
  apply find_some in E as [Hin _]. right. apply list_elem_of_fmap. exists win.
  by rewrite list_elem_of_In.
Qed.

Lemma interval_period_in s window i p :
  interval_period s window i = Ok p -> p ∈ default_period s :: (irw_period <$> windows s).
Proof.
  unfold interval_period, classify_interval_period. intros Hr. inv_ok. subst.
  apply classify_local_period_in.
Qed.

Lemma period_lines_quantity env op s rates :
  sum_by quantity_numerator (rates ≫= period_rate_reference env op s) =
  sum_by (fun r => sum_by (period_share s (service_window (env_facts env)) (irp_period r))
                     (request_intervals (env_request env))) rates.
Proof.
  induction rates as [|r rates IH]; [done|].
  change ((r :: rates) ≫= period_rate_reference env op s)
    with (period_rate_reference env op s r ++ (rates ≫= period_rate_reference env op s)).
  rewrite sum_by_app, IH, sum_by_cons. f_equal.
  unfold period_rate_reference. destruct (Z.eqb_spec (sum_by (period_share s
    (service_window (env_facts env)) (irp_period r)) (request_intervals (env_request env))) 0) as [->|].
  - done.
  - rewrite sum_by_cons, sum_by_nil. simpl. lia.
Qed.

(** With one rate per period and every interval in a rated period, the period
    lines bill each interval once. *)
Lemma period_lines_conserve env op s :
  NoDup (irp_period <$> period_rates op) ->
  (forall i, i ∈ request_intervals (env_request env) ->
     exists p, interval_period s (service_window (env_facts env)) i = Ok p
               /\ p ∈ irp_period <$> period_rates op) ->
  sum_by quantity_numerator (period_rates op ≫= period_rate_reference env op s)
  = sum_by interval_energy_wh (request_intervals (env_request env)).
Proof.
  intros Hnd Hall. rewrite period_lines_quantity, sum_by_swap. apply sum_by_ext. intros i Hi.
  destruct (Hall i Hi) as (p & Hp & Hin).
  rewrite (sum_by_ext _ (fun r => if decide (p = irp_period r) then interval_energy_wh i else 0)).
  - by apply sum_by_indicator.
  - intros r _. unfold period_share. rewrite Hp. done.
Qed.
End Coverage.

Lemma schedules_get_in (l : list TimeOfUseSchedule) d id s :
  dict_get id (foldl (fun d s => dict_set (rule_id (ts_base s)) s d) d l) = Some s ->
  dict_get id d = Some s \/ (s ∈ l /\ rule_id (ts_base s) = id).
Proof.
  revert d; induction l as [|x l IH]; intros d Hs; simpl in Hs; [by left|].
  apply IH in Hs as [Hs|[Hs ?]]; [|right; set_solver].
  destruct (decide (rule_id (ts_base x) = id)) as [<-|Hne].
  - rewrite dict_get_set_eq in Hs. injection Hs as <-. right. set_solver.
  - rewrite dict_get_set_ne in Hs by done. by left.
Qed.

(** The parts of a successful compilation. *)
Lemma compile_loaded_ok `{Root} `{Sha256} t bundle :
  compile_loaded t = Ok bundle ->
  exists lock records,
    source_records = Ok (lock, records) /\ check_tariff t lock records = Ok tt
    /\ mapM lower_rule (charge_rules t) = Ok (operators (ir bundle))
    /\ maximum_energy_wh (ir bundle) = MAXIMUM_COMPILED_ENERGY_WH
    /\ maximum_billing_days (ir bundle) = MAXIMUM_COMPILED_BILLING_DAYS
    /\ service_windows (component_vector (reports bundle)) = admitted_service_windows t
    /\ predicate bundle = Ok (eligibility_predicate t)
    /\ load_golden_coverage t = Ok (golden_coverage (reports bundle)).
Proof.
  unfold compile_loaded. intros Hr. apply bind_ok in Hr as ([lock records] & Hl & Hr).
  apply bind_ok in Hr as ([] & Hc & Hr). apply bind_ok in Hr as (golden & Hg & Hr).
  apply bind_ok in Hr as (ops & Ho & Hr). apply bind_ok in Hr as (srcs & _ & [= <-]).
  exists lock, records. by split_and!.
Qed.

(** A schedule resolved in the bundle has exactly the periods of the rates. *)
Lemma compiled_periods `{Root} t ops c op id s :
  validate_time_operators t = Ok tt -> mapM lower_rule (charge_rules t) = Ok ops ->
  RTimeOfUseEnergyCharge c ∈ charge_rules t -> lower_rule (RTimeOfUseEnergyCharge c) = Ok (IRTimeOfUse op) ->
  id = schedule_rule_id op ->
  List.filter (fun s => String.eqb (rule_id (ir_ts_base s)) id) (omap as_schedule ops) = [s] ->
  forall p, p ∈ irp_period <$> period_rates op <-> p ∈ default_period s :: (irw_period <$> windows s).
Proof.
  intros Hv Hops Hc Hl Hid Hres p. unfold validate_time_operators in Hv.
  apply bind_ok in Hv as ([] & Hch & _). rewrite forM_ok, Forall_forall in Hch.
  specialize (Hch c). unfold check_time_of_use in Hch.
  assert (c ∈ omap rule_time_of_use (charge_rules t)) as Hin.
  { apply list_elem_of_omap. by exists (RTimeOfUseEnergyCharge c). }
  specialize (Hch Hin). injection Hl as <-. simpl in Hid. subst id.
  destruct (dict_get (tc_schedule_rule_id c) (schedules_by_id t)) as [s0|] eqn:Es; [|done].
  apply bind_ok in Hch as (u & Hsame & _). apply raise_if_ok, negb_false_iff in Hsame.
  apply schedules_get_in in Es as [Es|[Es Eid]]; [done|].
  apply list_elem_of_omap in Es as (r & Hr & Er). destruct r; simplify_eq. simpl in Er. injection Er as ->.
  destruct (mapM_elem_l _ _ _ _ Hops Hr) as (o & Ho & Hlow). simpl in Hlow.
  apply bind_ok in Hlow as (hol & _ & [= <-]).
  match type of Ho with IRSchedule ?x ∈ _ => assert (In x [s]) as Hs end.
  { rewrite <- Hres. apply filter_In. split; [|by apply String.eqb_eq].
    apply list_elem_of_In, list_elem_of_omap. eexists. split; [exact Ho|done]. }
  destruct Hs as [E|[]]. rewrite E. simpl.
  assert (forall (A B C : Type) (g : B -> C) (h : A -> B) l, g <$> (h <$> l) = (fun x => g (h x)) <$> l)
    as Hcomp by (intros; by rewrite <- list_fmap_compose).
  rewrite !Hcomp. simpl. apply (proj1 (same_set_true _ _) Hsame p).
Qed.

(** ** Theorems *)
Section Theorems.
Context `{ZoneInfo} `{Root} `{Sha256}.

(** C4: compilation fails closed.  A bundle is produced only for an admitted
    tariff: its windows are bounded and pairwise disjoint, every rule and every
    component is in force on every admitted day, every rule is linked to a
    locked source with the locked hash, belongs to exactly one component and
    shares that component's source; and the bundle offers exactly the tariff's
    windows and predicate. *)
Theorem compile_fails_closed t bundle :
  compile_loaded t = Ok bundle ->
  exists lock records, source_records = Ok (lock, records) /\ admitted t records
    /\ service_windows (component_vector (reports bundle)) = admitted_service_windows t
    /\ predicate bundle = Ok (eligibility_predicate t)
    /\ ir_base <$> operators (ir bundle) = rule_base <$> charge_rules t.
Proof.
  intros Hc. destruct (compile_loaded_ok _ _ Hc) as (lock & records & Hs & Hk & Ho & _ & _ & Hw & Hp & _).
  exists lock, records. split; [done|]. split; [by eapply check_tariff_admitted|].
  split; [done|]. split; [done|]. by apply lower_rules_base.
Qed.

(** Every charge line of a compiled tariff fits in a signed 64-bit integer.
    For a tariff whose rules satisfy their schema, each line of a successful
    replay has quantity times rate within [2^63 - 1] in magnitude. *)
Theorem compiled_lines_fit_int64 t bundle request policy res :
  Forall rule_schema_ok (charge_rules t) -> compile_loaded t = Ok bundle ->
  request_valid request = true -> replay_compiled_tariff bundle request policy = Ok res ->
  Forall line_fits (line_items res).
Proof.
  intros Hschema Hc Hv Hr.
  destruct (compile_loaded_ok _ _ Hc) as (lock & records & _ & Hk & Ho & HmaxE & HmaxD & _ & _ & _).
  assert (Forall rule_well_formed (operators (ir bundle))) as Hwf.
  { apply Forall_forall. intros op Hop. destruct (mapM_elem_r _ _ _ _ Ho Hop) as (r & Hrin & Hl).
    rewrite Forall_forall in Hschema. eapply lower_rule_well_formed; eauto. }
  unfold check_tariff in Hk. do 3 apply bind_ok in Hk as ([] & _ & Hk).
  apply bind_ok in Hk as ([] & Hb & _).
  destruct (validate_tariff_bounds_ok _ Hb) as (m & f & Hall & Hm & Hf & Hbound).
  unfold replay_compiled_tariff in Hr. apply bind_ok in Hr as ([el env] & Henv & Hr).
  destruct (replay_env_ok _ _ _ _ Hv Hwf Henv) as (Hok & Hbun & Hreq & _).
  destruct (replay_env_limits _ _ _ _ Henv) as [Hle Hdays].
  apply bind_ok in Hr as (st & Hst & Hr). apply bind_ok in Hr as (a & _ & [= <-]). simpl.
  apply eval_operators_reference in Hst; [|apply Hok]. rewrite Hst.
  apply Forall_forall. intros l Hin. apply list_elem_of_bind in Hin as (op & Hin & Hop).
  destruct (mapM_elem_r _ _ _ _ Ho Hop) as (r & Hrin & Hl).
  rewrite Forall_forall in Hschema, Hall.
  pose proof (operator_lines_fit env m f Hok) as Hfit. rewrite HmaxE in Hle. rewrite HmaxD in Hdays.
  specialize (Hfit Hle ltac:(lia) Hf Hm Hbound).
  assert (is_interval (env_request env) = true ->
    sum_by interval_energy_wh (request_intervals (env_request env)) = env_energy env) as Hsum.
  { unfold env_energy. rewrite Hreq. by apply (request_valid_intervals _ Hv). }
  specialize (Hfit Hsum r op (Hschema _ Hrin) (Hall _ Hrin) Hl).
  rewrite Forall_forall in Hfit. by apply Hfit.
Qed.

(** A compiled time-of-use plan bills every watt-hour once.  In a successful
    replay of a compiled tariff, each applicable time-of-use operator
    contributes a contiguous run of period lines whose quantities add up to the
    metered energy. *)
Theorem compiled_time_of_use_conserves_energy t bundle request policy res el env op :
  Forall rule_schema_ok (charge_rules t) -> compile_loaded t = Ok bundle ->
  request_valid request = true -> is_interval request = true ->
  replay_env bundle request = Ok (el, env) ->
  replay_compiled_tariff bundle request policy = Ok res ->
  IRTimeOfUse op ∈ operators (ir bundle) ->
  rule_applies (applicability (ir_tc_base op)) (env_facts env) (env_bill_cycle_month env) = true ->
  exists before period_lines after, line_items res = before ++ period_lines ++ after
    /\ sum_by quantity_numerator period_lines = energy_wh (request_base request).
Proof.
  intros Hschema Hc Hv Hint Henv Hr Hop Happ.
  destruct (compile_loaded_ok _ _ Hc) as (lock & records & _ & Hk & Ho & _ & _ & _ & _ & _).
  assert (Forall rule_well_formed (operators (ir bundle))) as Hwf.
  { apply Forall_forall. intros op' Hop'. destruct (mapM_elem_r _ _ _ _ Ho Hop') as (r & Hrin & Hl).
    rewrite Forall_forall in Hschema. eapply lower_rule_well_formed; eauto. }
  unfold check_tariff in Hk. do 4 apply bind_ok in Hk as ([] & _ & Hk).
  apply bind_ok in Hk as ([] & Htime & _).
  destruct (replay_env_ok _ _ _ _ Hv Hwf Henv) as (Hok & Hbun & Hreq & _).
  unfold replay_compiled_tariff in Hr. rewrite Henv in Hr. simpl in Hr.
  apply bind_ok in Hr as (st & Hst & Hr). apply bind_ok in Hr as (a & _ & [= <-]). simpl.
  destruct (eval_operators_resolved env _ _ _ Hst Hop Happ) as (s & Hs & Hall).
  apply eval_operators_reference in Hst; [|apply Hok]. rewrite Hst.
  pose proof Hop as Hop'. apply list_elem_of_split in Hop as (l1 & l2 & El).
  exists (l1 ≫= operator_lines env), (period_rates op ≫= period_rate_reference env op s),
    (credit_reference env op ++ (l2 ≫= operator_lines env)).
  split.
  { rewrite El, bind_app. simpl. unfold operator_lines at 2. simpl. rewrite Happ, Hs. simpl.
    by rewrite <- app_assoc. }
  destruct (mapM_elem_r _ _ _ _ Ho Hop') as (r & Hrin & Hl).
  destruct r as [| | |c| | |]; simpl in Hl; inv_ok; try done.
  rewrite Forall_forall in Hschema. destruct (Hschema _ Hrin) as [_ Hrates].
  unfold resolve_time_schedule in Hs. rewrite Hbun in Hs.
  destruct (List.filter _ _) as [|s' [|]] eqn:Ef; try done. injection Hs as ->.
  rewrite (period_lines_conserve env op s).
  - rewrite Hreq. by apply (request_valid_intervals _ Hv).
  - match goal with E : _ = op |- _ => rewrite <- E end. simpl.
    unfold validate_period_rates in Hrates. apply bind_ok in Hrates as (u & Hd & _).
    apply raise_if_ok in Hd. bools. by rewrite <- list_fmap_compose.
  - intros i Hi. rewrite Forall_forall in Hall. destruct (Hall i Hi) as [p Hp]. exists p. split; [done|].
    apply (compiled_periods t (operators (ir bundle)) c op (schedule_rule_id op) s); try done.
    + simpl. congruence.
    + by apply interval_period_in in Hp.
Qed.
End Theorems.

(** ** Gaps of the numeric and golden checks *)

(** Two stacked energy rules, each at the largest rate the bound admits. *)
Definition stacked_rule (id : string) : TariffRule := RTieredEnergyCharge
  {| te_base := rule_fixture id always HALF_UP_CENT_AT_LINE_ITEM bundled_energy;
     te_line_item_key := id;
     te_tiers := [{| upper_bound_kind := UNBOUNDED; upper_bound_numerator := 1;
                     upper_bound_denominator := 1;
                     rate_microdollars_per_kwh := SIGNED_INT64_MAX / MAXIMUM_COMPILED_ENERGY_WH |}] |}.
Definition stacked_tariff : TariffVersion :=
  tariff_fixture "stacked" "STACKED" (PredicateV1 july_predicate) [stacked_rule "a"; stacked_rule "b"].

(** The overflow check bounds the largest energy rule, not their sum.  A
    tariff with two applicable energy rules passes [_validate_bounds] although
    the products the evaluator forms for them at the admitted energy limit add
    up to more than a signed 64-bit integer holds. *)
Theorem bounds_ignore_stacked_rules :
  validate_tariff_bounds stacked_tariff = Ok tt
  /\ SIGNED_INT64_MAX < sum_by (fun r => match r with
       | RTieredEnergyCharge c => sum_by (fun t => MAXIMUM_COMPILED_ENERGY_WH * rate_microdollars_per_kwh t)
                                    (te_tiers c)
       | _ => 0 end) (charge_rules stacked_tariff).
Proof. split; vm_compute; reflexivity. Qed.

(** the E-1 boundary goldens escape the source check.  E-1 passes an empty
    list, not [None], as the default of [case.get("source_ids", ...)], so a
    boundary case that names its source in [source_id] is accepted whatever
    that source is, for every list of admitted sources. *)
Fact e1_boundary_source_unchecked (ids : list string) (unknown_source id : string) :
  add_golden_case ids (JList []) [] (JObj [("case_id", JStr id); ("source_id", JStr unknown_source)])
  = Ok [].
Proof. reflexivity. Qed.

(** ** Witnesses *)
Lemma e1_schema_ok : Forall rule_schema_ok (charge_rules e1_tariff).
Proof. repeat constructor; simpl; lia. Qed.
Lemma ev2a_schema_ok : Forall rule_schema_ok (charge_rules ev2a_tariff).
Proof. repeat constructor; simpl; lia. Qed.

Lemma compile_fails_closed_witness :
  exists lock records,
    source_records (H := root_of e1_tariff) = Ok (lock, records) /\ admitted e1_tariff records.
Proof.
  destruct e1_compiled as [b|] eqn:E; [|vm_compute in E; discriminate E].
  destruct (compile_fails_closed (H0 := root_of e1_tariff) (H1 := toy_sha256) e1_tariff b E)
    as (lock & records & Hs & Ha & _).
  exists lock, records. split; [exact Hs|exact Ha].
Defined.

Lemma compiled_lines_fit_int64_witness :
  exists b res, e1_compiled = Ok b
    /\ replay_compiled_tariff (H0 := toy_sha256) b e1_310kwh None = Ok res
    /\ Forall line_fits (line_items res).
Proof.
  destruct e1_compiled as [b|] eqn:E; [|vm_compute in E; discriminate E].
  destruct (replay_compiled_tariff (H0 := toy_sha256) b e1_310kwh None) as [res|] eqn:Er.
  - exists b, res. split; [reflexivity|]. split; [exact Er|].
    apply (compiled_lines_fit_int64 (H0 := root_of e1_tariff) (H1 := toy_sha256) e1_tariff b e1_310kwh
      None res e1_schema_ok E eq_refl Er).
  - vm_compute in E. injection E as <-. vm_compute in Er. discriminate Er.
Defined.

(** Two hours of July 2026 billed on EV2-A, one in each of two periods. *)
Definition ev2a_two_hours : AnyReplayRequest :=
  IntervalReplayRequest (base_fixture 1500 None)
    [{| start_utc_ns := 1782889200 * NS_PER_SECOND; duration_seconds := 3600; interval_energy_wh := 500 |};
     {| start_utc_ns := 1782946800 * NS_PER_SECOND; duration_seconds := 3600; interval_energy_wh := 1000 |}]
    (Some july_dated).
Definition ev2a_op : IRTimeOfUseEnergyCharge :=
  match ev2a_energy with
  | IRTimeOfUse op => op
  | _ => {| ir_tc_base := rule_fixture EmptyString always EXACT bundled_energy;
            ir_tc_line_item_key := EmptyString; schedule_rule_id := EmptyString; period_rates := [];
            baseline_credit_microdollars_per_kwh := None; baseline_rule_id := None;
            baseline_credit_charge_component_key := None |}
  end.

Lemma compiled_time_of_use_conserves_energy_witness :
  exists b res before period_lines after, ev2a_compiled = Ok b
    /\ replay_compiled_tariff (H0 := toy_sha256) b ev2a_two_hours None = Ok res
    /\ line_items res = before ++ period_lines ++ after
    /\ sum_by quantity_numerator period_lines = 1500.
Proof.
  destruct ev2a_compiled as [b|] eqn:E; [|vm_compute in E; discriminate E].
  destruct (replay_compiled_tariff (H0 := toy_sha256) b ev2a_two_hours None) as [res|] eqn:Er.
  2: { vm_compute in E. injection E as <-. vm_compute in Er. discriminate Er. }
  destruct (replay_env (H0 := toy_sha256) b ev2a_two_hours) as [[el env]|] eqn:Ee.
  2: { vm_compute in E. injection E as <-. vm_compute in Ee. discriminate Ee. }
  destruct (compiled_time_of_use_conserves_energy (H0 := root_of ev2a_tariff) (H1 := toy_sha256)
    ev2a_tariff b ev2a_two_hours None res el env ev2a_op) as (before & pl & after & Hl & Hs).
  - apply ev2a_schema_ok.
  - exact E.
  - vm_compute. reflexivity.
  - reflexivity.
  - exact Ee.
  - exact Er.
  - vm_compute in E. injection E as <-. right. left.
  - vm_compute in E. injection E as <-. vm_compute in Ee. injection Ee as _ <-. vm_compute. reflexivity.
  - exists b, res, before, pl, after. split; [reflexivity|]. split; [exact Er|].
    split; [exact Hl|exact Hs].
Defined.
