(* ===== verification/Admission.v ===== *)
(** * Admission: content-addressed tariff locks (tariffs/admission.py)

    [load_admitted_tariff] releases a compiled tariff only when every artifact
    and every report agrees with the admission lock of its plan.  The file
    system is the parameter [LockedFiles]; the scope and gate-evidence blocks of
    a lock admit a single value each and carry no information. *)

From S2P Require Import Prelude Calendar Json Schema Compiled Fixtures Eligibility Compiler.
From S2P Require Import CompilerFixtures.

Record LockedArtifact := { artifact_path : string; artifact_sha256 : string }.

Record TariffAdmissionLock := {
  lock_tariff_version_id : string;
  lock_plan_code : string;
  admitted_at : string;
  lock_admitted_service_windows : list (string * string);
  target_account_predicate_id : string;
  definition : LockedArtifact;
  lock_compiler_content_sha256 : string;
  lock_source_ids : list string;
  lock_source_hashes : list string;
  golden_suites : list LockedArtifact
}.

Record AdmittedTariff := { lock : TariffAdmissionLock; compilation : CompilationBundle }.

(** The repository root as the lock validation reads it: [resolve] gives the
    root-relative resolved path unless it escapes the root, [file_sha256] the
    digest of a readable file, [validate_lock] the validated lock at a path. *)
Class LockedFiles := {
  resolve : string -> option string;
  file_sha256 : string -> option string;
  validate_lock : string -> option TariffAdmissionLock
}.

Definition locked_path `{LockedFiles} (artifact : LockedArtifact) : result string :=
  match resolve (artifact_path artifact) with
  | None => Raise (TariffCompileError "ADMISSION_PATH_ESCAPE")
  | Some path =>
      match file_sha256 path with
      | None => Raise (PyError "OSError")
      | Some digest =>
          _ ← raise_if (negb (String.eqb digest (artifact_sha256 artifact)))
                (TariffCompileError "ADMISSION_ARTIFACT_MISMATCH");
          Ok path
      end
  end.

Definition LOCK_PATHS : dict string string :=
  [("E-1", "tariffs/admission/pge-e1-2026-07.json");
   ("E-TOU-C", "tariffs/admission/pge-etouc-2026-07.json");
   ("E-TOU-D", "tariffs/admission/pge-etoud-2026-07.json");
   ("E-ELEC", "tariffs/admission/pge-eelec-2026-07.json");
   ("EV2-A", "tariffs/admission/pge-ev2a-2026-07.json")].

(** [(window.start.isoformat(), window.end.isoformat() if window.end else "")]. *)
Definition window_strings (w : DateRange) : string * string :=
  (isoformat (dr_start w), match dr_end w with Some e => isoformat e | None => EmptyString end).

(** The comparisons of a compilation with its lock, in order. *)
Definition check_lock (l : TariffAdmissionLock) (b : CompilationBundle) : result unit :=
  _ ← raise_if (negb (String.eqb (compiler_content_sha256 b) (lock_compiler_content_sha256 l)))
        (TariffCompileError "ADMISSION_COMPILER_MISMATCH");
  _ ← raise_if (negb (bool_decide (ast_tariff_version_id (normalized_ast b)
                                   = Some (lock_tariff_version_id l))))
        (TariffCompileError "ADMISSION_VERSION_MISMATCH");
  _ ← raise_if (negb (bool_decide (ast_source_ids (normalized_ast b) = Some (lock_source_ids l))))
        (TariffCompileError "ADMISSION_SOURCE_MISMATCH");
  _ ← raise_if (negb (bool_decide (ast_source_hashes (normalized_ast b) = Some (lock_source_hashes l))))
        (TariffCompileError "ADMISSION_SOURCE_MISMATCH");
  _ ← raise_if (negb (String.eqb (eligibility_predicate_id (reports b)) (target_account_predicate_id l)))
        (TariffCompileError "ADMISSION_ELIGIBILITY_MISMATCH");
  raise_if (negb (bool_decide (window_strings <$> service_windows (component_vector (reports b))
                               = lock_admitted_service_windows l)))
    (TariffCompileError "ADMISSION_WINDOW_MISMATCH").

Section Load.
Context `{LockedFiles} `{Root} `{Sha256} (parse : json -> result TariffVersion).

Definition load_admitted_tariff (plan : string) : result AdmittedTariff :=
  match dict_get plan LOCK_PATHS with
  | None => Raise (TariffCompileError "TARIFF_NOT_ADMITTED")
  | Some lock_path =>
      match validate_lock lock_path with
      | None => Raise (TariffCompileError "ADMISSION_LOCK_INVALID")
      | Some l =>
          _ ← raise_if (negb (String.eqb (lock_plan_code l) plan))
                (TariffCompileError "ADMISSION_VERSION_MISMATCH");
          definition_path ← locked_path (definition l);
          _ ← forM_ (fun golden => _ ← locked_path golden; Ok tt) (golden_suites l);
          b ← compile_tariff parse (Some definition_path);
          _ ← check_lock l b;
          Ok {| lock := l; compilation := b |}
      end
  end.

Definition load_admitted_e1 : result AdmittedTariff := load_admitted_tariff "E-1".
Definition load_all_admitted_tariffs : result (list AdmittedTariff) :=
  mapM load_admitted_tariff (LOCK_PATHS.*1).

(** What a lock vouches for: the artifact is inside the root and has the
    recorded digest. *)
Definition artifact_intact (a : LockedArtifact) : Prop :=
  exists path, resolve (artifact_path a) = Some path /\ file_sha256 path = Some (artifact_sha256 a).

Record admitted_by_lock (plan : string) (a : AdmittedTariff) (t : TariffVersion) : Prop := {
  adm_definition : exists path, resolve (artifact_path (definition (lock a))) = Some path /\
    load_tariff_definition parse path = Ok t;
  adm_compiled : compile_loaded t = Ok (compilation a);
  adm_artifacts : Forall artifact_intact (definition (lock a) :: golden_suites (lock a));
  adm_bundle : compiler_content_sha256 (compilation a) = lock_compiler_content_sha256 (lock a);
  adm_plan : lock_plan_code (lock a) = plan;
  adm_version : lock_tariff_version_id (lock a) = tariff_version_id t;
  adm_source_ids : lock_source_ids (lock a) = source_ids t;
  adm_source_hashes : lock_source_hashes (lock a) = source_hashes t;
  adm_predicate : target_account_predicate_id (lock a)
                  = predicate_id (predicate_common (eligibility_predicate t));
  adm_windows : lock_admitted_service_windows (lock a)
                = window_strings <$> Schema.admitted_service_windows t
}.

Lemma locked_path_ok a path :
  locked_path a = Ok path <->
  resolve (artifact_path a) = Some path /\ file_sha256 path = Some (artifact_sha256 a).
Proof.
  unfold locked_path. destruct (resolve (artifact_path a)) as [p|]; [|naive_solver].
  destruct (file_sha256 p) as [d|] eqn:Ed; [|naive_solver].
  destruct (String.eqb d (artifact_sha256 a)) eqn:E; simpl.
  - apply String.eqb_eq in E as ->. naive_solver.
  - apply String.eqb_neq in E. naive_solver.
Qed.

Lemma locked_path_intact a : (exists path, locked_path a = Ok path) <-> artifact_intact a.
Proof. unfold artifact_intact. by setoid_rewrite locked_path_ok. Qed.

Lemma golden_suites_intact l u :
  forM_ (fun golden => _ ← locked_path golden; Ok tt) l = Ok u <-> Forall artifact_intact l.
Proof.
  rewrite forM_ok. apply Forall_iff; intros a. rewrite <- locked_path_intact.
  destruct (locked_path a); simpl; naive_solver.
Qed.

Lemma compile_loaded_ast t b :
  compile_loaded t = Ok b ->
  normalized_ast b = normalized_ast_of t /\
  eligibility_predicate_id (reports b) = predicate_id (predicate_common (eligibility_predicate t)) /\
  service_windows (component_vector (reports b)) = Schema.admitted_service_windows t.
Proof.
  unfold compile_loaded. intros Hb. apply bind_ok in Hb as ([lk rs] & _ & Hb).
  inv_ok. by subst b.
Qed.

Lemma check_lock_ok l b u :
  check_lock l b = Ok u <->
  compiler_content_sha256 b = lock_compiler_content_sha256 l /\
  ast_tariff_version_id (normalized_ast b) = Some (lock_tariff_version_id l) /\
  ast_source_ids (normalized_ast b) = Some (lock_source_ids l) /\
  ast_source_hashes (normalized_ast b) = Some (lock_source_hashes l) /\
  eligibility_predicate_id (reports b) = target_account_predicate_id l /\
  window_strings <$> service_windows (component_vector (reports b)) = lock_admitted_service_windows l.
Proof.
  unfold check_lock. repeat setoid_rewrite bind_ok. repeat setoid_rewrite raise_if_ok.
  repeat setoid_rewrite negb_false_iff. repeat setoid_rewrite String.eqb_eq.
  repeat setoid_rewrite bool_decide_eq_true. split; [naive_solver|].
  intros (?&?&?&?&?&?). by repeat (exists tt; split; [done|]).
Qed.

(** A plan is admitted exactly when its lock file is valid, names the plan,
    every locked artifact lies inside the repository with its recorded digest,
    and the definition it locks compiles to a bundle whose content hash, version,
    sources, predicate and service windows are the lock's; nothing else is ever
    released as an admitted tariff. *)
Theorem admitted_iff_locked plan a :
  load_admitted_tariff plan = Ok a <->
  exists path t, dict_get plan LOCK_PATHS = Some path /\ validate_lock path = Some (lock a) /\
    admitted_by_lock plan a t.
Proof.
  unfold load_admitted_tariff. split.
  - destruct (dict_get plan LOCK_PATHS) as [path|]; [|done].
    destruct (validate_lock path) as [l|] eqn:El; [|done].
    intros Ha. inv_ok. bools. subst a. simpl in *.
    match goal with E : String.eqb _ _ = true |- _ => apply String.eqb_eq in E end.
    match goal with E : compile_tariff _ _ = Ok _ |- _ =>
      unfold compile_tariff in E; apply bind_ok in E as (t & Ht & Hc) end.
    match goal with E : check_lock _ _ = Ok _ |- _ =>
      apply check_lock_ok in E as (? & Hv & Hs & Hh & Hp & Hw) end.
    destruct (compile_loaded_ast _ _ Hc) as (Hast & Hpid & Hsw).
    rewrite Hast in Hv, Hs, Hh. rewrite Hpid in Hp. rewrite Hsw in Hw. simpl in *. simplify_eq.
    match goal with E : locked_path _ = Ok _ |- _ => pose proof E as Hp'; apply locked_path_ok in E as [] end.
    match goal with E : forM_ _ _ = Ok _ |- _ => apply golden_suites_intact in E end.
    exists path, t. split; [done|]. split; [done|].
    split; simpl; eauto. constructor; [|done]. apply locked_path_intact. eauto.
  - intros (path & t & -> & -> & Hadm). destruct Hadm as [(p & Hr & Ht) Hc Hart Hb Hpl Hv Hs Hh Hpr Hw].
    apply Forall_cons in Hart as [(p' & Hp' & Hd) Hg]. simplify_eq.
    rewrite String.eqb_refl. simpl.
    rewrite (proj2 (locked_path_ok _ p) (conj Hr Hd)). simpl.
    rewrite (proj2 (golden_suites_intact _ tt) Hg). simpl.
    unfold compile_tariff. simpl. rewrite Ht. simpl. rewrite Hc. simpl.
    destruct (compile_loaded_ast _ _ Hc) as (Hast & Hpid & Hsw).
    rewrite (proj2 (check_lock_ok _ _ tt)); [by destruct a|].
    rewrite Hast, Hpid, Hsw, Hb, Hv, Hs, Hh, Hpr, Hw. done.
Qed.
End Load.

(** A repository in which E-1 is admitted. *)
Definition e1_lock : TariffAdmissionLock :=
  {| lock_tariff_version_id := "pge-e1-2026-07"; lock_plan_code := "E-1";
     admitted_at := "2026-08-01"; lock_admitted_service_windows := [("2026-07-01", "2026-08-01")];
     target_account_predicate_id := "pge-bundled-residential-import-only-july-2026-v1";
     definition := {| artifact_path := "e1.json"; artifact_sha256 := "d1" |};
     lock_compiler_content_sha256 :=
       match e1_compiled with Ok b => compiler_content_sha256 b | Raise _ => EmptyString end;
     lock_source_ids := ["pge-advice-7921-e"]; lock_source_hashes := ["00"];
     golden_suites := [] |}.
Definition e1_files : LockedFiles :=
  {| resolve path := if String.eqb path "e1.json" then Some path else None;
     file_sha256 path := Some "d1";
     validate_lock path := if String.eqb path "tariffs/admission/pge-e1-2026-07.json"
                           then Some e1_lock else None |}.
Definition e1_root : Root := fun path =>
  if String.eqb path "e1.json" then Some (JObj []) else root_of e1_tariff path.

Example e1_admitted :
  match load_admitted_tariff (H := e1_files) (H0 := e1_root) (H1 := toy_sha256)
          (fun _ => Ok e1_tariff) "E-1" with
  | Ok a => lock a = e1_lock | Raise _ => False end.
Proof. vm_compute. reflexivity. Qed.
