(* ===== verification/Comparison.v ===== *)
(** * Comparison: fail-closed plan comparison (tariffs/comparison.py)

    [compare_admitted_tariffs] replays one interval profile under every admitted
    tariff and ranks the plans only when each of them is eligible and its bill is
    completely covered by the required components. *)

From S2P Require Import Prelude Calendar Json Schema Compiled Fixtures Eligibility.
From S2P Require Import DayEnergy Replay Compiler Admission.

(** ** Models *)
Inductive CoverageStatus := COV_SUPPORTED | COV_NOT_APPLICABLE | COV_BLOCKED.
#[export] Instance CoverageStatus_eq_dec : EqDecision CoverageStatus.
Proof. solve_decision. Defined.

Inductive ExclusionCode :=
| CANDIDATE_ELIGIBILITY_UNKNOWN | CANDIDATE_INELIGIBLE | INCOMPLETE_COMPONENT_VECTOR
| UNSUPPORTED_COMPONENT | UNCLASSIFIED_ACTIVE_COMPONENT.
#[export] Instance ExclusionCode_eq_dec : EqDecision ExclusionCode.
Proof. solve_decision. Defined.

Definition coverage_str (s : CoverageStatus) : string :=
  match s with
  | COV_SUPPORTED => "SUPPORTED" | COV_NOT_APPLICABLE => "NOT_APPLICABLE" | COV_BLOCKED => "BLOCKED"
  end.
Definition exclusion_str (c : ExclusionCode) : string :=
  match c with
  | CANDIDATE_ELIGIBILITY_UNKNOWN => "CANDIDATE_ELIGIBILITY_UNKNOWN"
  | CANDIDATE_INELIGIBLE => "CANDIDATE_INELIGIBLE"
  | INCOMPLETE_COMPONENT_VECTOR => "INCOMPLETE_COMPONENT_VECTOR"
  | UNSUPPORTED_COMPONENT => "UNSUPPORTED_COMPONENT"
  | UNCLASSIFIED_ACTIVE_COMPONENT => "UNCLASSIFIED_ACTIVE_COMPONENT"
  end.

Record ComponentCoverage := {
  cov_component_key : string;
  cov_status : CoverageStatus;
  cov_reason_code : option string;
  contributing_rule_ids : list string
}.

Record ComparisonExclusion := {
  excl_code : ExclusionCode;
  excl_tariff_version_id : string;
  excl_component_key : option string;
  eligibility_reason_codes : list string
}.
#[export] Instance ComparisonExclusion_eq_dec : EqDecision ComparisonExclusion.
Proof. solve_decision. Defined.

Record AlternativePlanResult := {
  alt_tariff_version_id : string;
  alt_plan_code : string;
  alt_supported_calculated_cents : Z;
  alt_line_items : list ChargeLineItem;
  alt_placeholders : list UnsupportedPlaceholder;
  alt_component_coverage : list ComponentCoverage;
  alt_provenance_sources : list SourceCoverage;
  alt_manifest : CalculationManifest;
  alt_result_sha256 : string
}.

Record ComparisonCandidateResult := {
  cand_tariff_version_id : string;
  cand_plan_code : string;
  cand_eligibility : EligibilityResult;
  component_coverage : list ComponentCoverage;
  alternative_plan : option AlternativePlanResult
}.

Record ComparisonResult := {
  cmp_profile_content_sha256 : string;
  current_tariff_version_id : string;
  required_component_keys : list ChargeComponentKey;
  common_supported_component_keys : list ChargeComponentKey;
  candidates : list ComparisonCandidateResult;
  exclusions : list ComparisonExclusion;
  rankable : bool;
  ranked_tariff_version_ids : list string;
  winner_tariff_version_ids : list string;
  savings_against_current_supported_cents : option Z;
  comparison_sha256 : string
}.

(** ** JSON images *)
Definition ComponentCoverage_dump (c : ComponentCoverage) : json :=
  JObj [("component_key", JStr (cov_component_key c)); ("status", JStr (coverage_str (cov_status c)));
        ("reason_code", jopt JStr (cov_reason_code c));
        ("contributing_rule_ids", jstrs (contributing_rule_ids c))].
Definition ComparisonExclusion_dump (e : ComparisonExclusion) : json :=
  JObj [("code", JStr (exclusion_str (excl_code e)));
        ("tariff_version_id", JStr (excl_tariff_version_id e));
        ("component_key", jopt JStr (excl_component_key e));
        ("eligibility_reason_codes", jstrs (eligibility_reason_codes e))].

(** The fields hashed for an alternative plan. *)
Definition alternative_fields (id plan : string) (cents : Z) (ls : list ChargeLineItem)
    (ps : list UnsupportedPlaceholder) (cov : list ComponentCoverage) (sources : list SourceCoverage)
    (m : CalculationManifest) : list (string * json) :=
  [("tariff_version_id", JStr id); ("plan_code", JStr plan);
   ("supported_calculated_cents", JInt cents); ("line_items", JList (ChargeLineItem_dump <$> ls));
   ("tariff_unsupported_placeholders", JList (UnsupportedPlaceholder_dump <$> ps));
   ("component_coverage", JList (ComponentCoverage_dump <$> cov));
   ("provenance_sources", JList (SourceCoverage_dump <$> sources));
   ("manifest", CalculationManifest_dump m)].
Definition AlternativePlanResult_dump (a : AlternativePlanResult) : json :=
  JObj (("result_version", JStr "alternative-plan-result-v1")
        :: alternative_fields (alt_tariff_version_id a) (alt_plan_code a)
             (alt_supported_calculated_cents a) (alt_line_items a) (alt_placeholders a)
             (alt_component_coverage a) (alt_provenance_sources a) (alt_manifest a)
        ++ [("result_sha256", JStr (alt_result_sha256 a))]).
Definition ComparisonCandidateResult_dump (c : ComparisonCandidateResult) : json :=
  JObj [("tariff_version_id", JStr (cand_tariff_version_id c)); ("plan_code", JStr (cand_plan_code c));
        ("eligibility", EligibilityResult_dump (cand_eligibility c));
        ("component_coverage", JList (ComponentCoverage_dump <$> component_coverage c));
        ("alternative_plan", jopt AlternativePlanResult_dump (alternative_plan c))].

(** ** The component universe *)
Definition CHARGE_COMPONENT_KEYS : list ChargeComponentKey :=
  [baseline_allowance; bundled_energy; baseline_adjustment; base_services_charge;
   california_climate_credit; minimum_bill_adjustment; explicit_unsupported].

Definition component_of_json (v : json) : option ChargeComponentKey :=
  match v with
  | JStr s => List.find (fun k => String.eqb (component_str k) s) CHARGE_COMPONENT_KEYS
  | _ => None
  end.

(** [payload.get] raises on a document that is not an object. *)
Definition load_required_component_keys `{Root} : result (list ChargeComponentKey) :=
  match read_json "tariffs/admission/candidate-matrix-v1.json" with
  | None => Raise (ComparisonError "COMPARISON_MATRIX_INVALID")
  | Some (JObj fields) =>
      match dict_get "comparison_component_keys" fields with
      | Some (JList raw) =>
          match mapM component_of_json raw with
          | Some keys =>
              _ ← raise_if (bool_decide (keys = []) || has_dups keys)
                    (ComparisonError "COMPARISON_MATRIX_INVALID");
              Ok (sorted_by component_str keys)
          | None => Raise (ComparisonError "COMPARISON_MATRIX_INVALID")
          end
      | _ => Raise (ComparisonError "COMPARISON_MATRIX_INVALID")
      end
  | Some _ => Raise (PyError "AttributeError")
  end.

(** ** Coverage *)
Definition declared_components (a : AdmittedTariff) : result (list ChargeComponentKey) :=
  match ast_comparison_component_keys (normalized_ast (compilation a)) with
  | Some keys => Ok keys
  | None => Raise (ComparisonError "COMPARISON_COMPONENT_REPORT_INVALID")
  end.

(** [active.setdefault(line.charge_component_key, set()).add(line.rule_id)]. *)
Definition add_active (active : dict ChargeComponentKey (list string)) (l : ChargeLineItem)
    : dict ChargeComponentKey (list string) :=
  dict_set (li_charge_component_key l)
    (li_rule_id l :: default [] (dict_get (li_charge_component_key l) active)) active.
Definition active_rule_ids (ls : list ChargeLineItem) : dict ChargeComponentKey (list string) :=
  foldl add_active [] ls.

Definition unclassified (k : ChargeComponentKey) (ids : list string) : ComponentCoverage :=
  {| cov_component_key := component_str k; cov_status := COV_BLOCKED;
     cov_reason_code := Some "UNCLASSIFIED_ACTIVE_COMPONENT"; contributing_rule_ids := ids |}.

Definition required_coverage (declared : list ChargeComponentKey)
    (active : dict ChargeComponentKey (list string)) (k : ChargeComponentKey) : ComponentCoverage :=
  let rule_ids := sorted_set (default [] (dict_get k active)) in
  if mem k declared then
    {| cov_component_key := component_str k; cov_status := COV_SUPPORTED; cov_reason_code := None;
       contributing_rule_ids := rule_ids |}
  else if negb (bool_decide (rule_ids = [])) then unclassified k rule_ids
  else {| cov_component_key := component_str k; cov_status := COV_NOT_APPLICABLE;
          cov_reason_code := None; contributing_rule_ids := [] |}.

Definition placeholder_coverage (p : UnsupportedPlaceholder) : ComponentCoverage :=
  {| cov_component_key := "explicit_unsupported"; cov_status := COV_BLOCKED;
     cov_reason_code := Some (ph_reason_code p); contributing_rule_ids := [ph_rule_id p] |}.

Definition coverage (a : AdmittedTariff) (required : list ChargeComponentKey)
    (ls : list ChargeLineItem) (ps : list UnsupportedPlaceholder) : result (list ComponentCoverage) :=
  declared ← declared_components a;
  let active := active_rule_ids ls in
  let required_part := required_coverage declared active <$> required in
  let extra_part :=
    (fun kv => unclassified kv.1 (sorted_set kv.2))
    <$> List.filter (fun kv : ChargeComponentKey * list string => negb (mem kv.1 required))
          (sorted_by (fun kv => component_str kv.1) active) in
  Ok (sorted_by (fun c => (cov_component_key c, default EmptyString (cov_reason_code c)))
        (required_part ++ extra_part ++ (placeholder_coverage <$> ps))).

(** ** Replay of one alternative *)
Section Compare.
Context `{ZoneInfo} `{Sha256}.
Variables (base : ReplayRequestBase) (intervals : list ReplayInterval)
  (dated : option DatedEligibilityFacts).
Notation request := (IntervalReplayRequest base intervals dated).

Definition replay_candidate (a : AdmittedTariff) : result ReplayResult :=
  match replay_compiled_tariff (compilation a) request None with
  | Raise (ReplayError _) => Raise (ComparisonError "CANDIDATE_REPLAY_FAILED")
  | r => r
  end.

Definition alternative_result (a : AdmittedTariff) (required : list ChargeComponentKey)
    : result AlternativePlanResult :=
  _ ← raise_if (bool_decide (current_bill_total_cents base <> None)
                || negb (bool_decide (length (user_unsupported_lines base) = 0%nat)))
        (ComparisonError "ALTERNATIVE_RECONCILIATION_FORBIDDEN");
  replay ← replay_candidate a;
  _ ← raise_if (bool_decide (mf_period_energy_wh (manifest replay) = None))
        (ComparisonError "INTERVAL_MANIFEST_REQUIRED");
  cov ← coverage a required (line_items replay) (tariff_unsupported_placeholders replay);
  let id := lock_tariff_version_id (lock a) in
  let plan := lock_plan_code (lock a) in
  Ok {| alt_tariff_version_id := id; alt_plan_code := plan;
        alt_supported_calculated_cents := supported_calculated_cents replay;
        alt_line_items := line_items replay;
        alt_placeholders := tariff_unsupported_placeholders replay;
        alt_component_coverage := cov;
        alt_provenance_sources := provenance_sources replay;
        alt_manifest := manifest replay;
        alt_result_sha256 := canonical_content_sha256 "RateReplay.AlternativePlanResult.v1"
          (JObj (alternative_fields id plan (supported_calculated_cents replay) (line_items replay)
                   (tariff_unsupported_placeholders replay) cov (provenance_sources replay)
                   (manifest replay))) |}.

(** ** The candidate loop *)
Definition exclusion (a : AdmittedTariff) (code : ExclusionCode) (key : option string)
    (reasons : list string) : ComparisonExclusion :=
  {| excl_code := code; excl_tariff_version_id := lock_tariff_version_id (lock a);
     excl_component_key := key; eligibility_reason_codes := reasons |}.

Definition vector_incomplete (a : AdmittedTariff) : bool :=
  existsb (fun count => negb (count =? 1))
    (active_component_count_by_key (component_vector (reports (compilation a)))).

Definition blocked_exclusions (a : AdmittedTariff) (cov : list ComponentCoverage)
    : list ComparisonExclusion :=
  (fun c => exclusion a
     (if bool_decide (cov_reason_code c = Some "UNCLASSIFIED_ACTIVE_COMPONENT")
      then UNCLASSIFIED_ACTIVE_COMPONENT else UNSUPPORTED_COMPONENT)
     (Some (cov_component_key c)) [])
  <$> List.filter (fun c => bool_decide (cov_status c = COV_BLOCKED)) cov.

(** The body of [for admitted in ordered]: the candidate and its exclusions. *)
Definition compare_candidate (required : list ChargeComponentKey) (a : AdmittedTariff)
    : result (ComparisonCandidateResult * list ComparisonExclusion) :=
  eligible ← evaluate_eligibility (compilation a) (account_facts base) dated;
  cov0 ← coverage a required [] [];
  let vector_part :=
    if vector_incomplete a then [exclusion a INCOMPLETE_COMPONENT_VECTOR None []] else [] in
  let candidate cov alt :=
    {| cand_tariff_version_id := lock_tariff_version_id (lock a);
       cand_plan_code := lock_plan_code (lock a); cand_eligibility := eligible;
       component_coverage := cov; alternative_plan := alt |} in
  match status eligible with
  | ELIGIBLE =>
      alt ← alternative_result a required;
      let cov := alt_component_coverage alt in
      Ok (candidate cov (Some alt), vector_part ++ blocked_exclusions a cov)
  | UNKNOWN =>
      Ok (candidate cov0 None,
          vector_part ++ [exclusion a CANDIDATE_ELIGIBILITY_UNKNOWN None (reason_codes eligible)]
          ++ blocked_exclusions a cov0)
  | INELIGIBLE =>
      Ok (candidate cov0 None,
          vector_part ++ [exclusion a CANDIDATE_INELIGIBLE None (reason_codes eligible)]
          ++ blocked_exclusions a cov0)
  end.

(** [cast(AlternativePlanResult, item.alternative_plan).supported_calculated_cents],
    read only once every candidate has an alternative plan. *)
Definition candidate_cents (c : ComparisonCandidateResult) : Z :=
  match alternative_plan c with Some alt => alt_supported_calculated_cents alt | None => 0 end.

Definition rank (cs : list ComparisonCandidateResult) : list ComparisonCandidateResult :=
  sorted_by (fun c => (candidate_cents c, (cand_plan_code c, cand_tariff_version_id c))) cs.

Definition exclusion_order (e : ComparisonExclusion) : string * (string * (string * list string)) :=
  (excl_tariff_version_id e,
   (exclusion_str (excl_code e), (default EmptyString (excl_component_key e), eligibility_reason_codes e))).

(** Ranking, winners and savings of a rankable comparison. *)
Definition ranking (current : string) (cs : list ComparisonCandidateResult)
    : result (list string * list string * option Z) :=
  let ranked := rank cs in
  match ranked, List.find (fun c => String.eqb (cand_tariff_version_id c) current) cs with
  | [], _ => Raise (PyError "IndexError")
  | _, None => Raise (PyError "StopIteration")
  | best :: _, Some current_candidate =>
      let lowest_cost := candidate_cents best in
      Ok (cand_tariff_version_id <$> ranked,
          cand_tariff_version_id <$> List.filter (fun c => candidate_cents c =? lowest_cost) ranked,
          Some (candidate_cents current_candidate - lowest_cost))
  end.

Definition comparison_payload (current : string) (required common : list ChargeComponentKey)
    (cs : list ComparisonCandidateResult) (es : list ComparisonExclusion) (ok : bool)
    (ranked winners : list string) (savings : option Z) : json :=
  JObj [("profile_content_sha256", JStr (profile_content_sha256 base));
        ("current_tariff_version_id", JStr current);
        ("required_component_keys", jstr_list component_str required);
        ("common_supported_component_keys", jstr_list component_str common);
        ("candidates", JList (ComparisonCandidateResult_dump <$> cs));
        ("exclusions", JList (ComparisonExclusion_dump <$> es)); ("rankable", JBool ok);
        ("ranked_tariff_version_ids", jstrs ranked); ("winner_tariff_version_ids", jstrs winners);
        ("savings_against_current_supported_cents", jopt JInt savings)].

Definition tariff_ids (l : list AdmittedTariff) : list string :=
  (fun a => lock_tariff_version_id (lock a)) <$> l.

(** Everything after the argument checks, on the candidates in identifier order. *)
Definition compare_ordered (ordered : list AdmittedTariff) (current : string)
    (required : list ChargeComponentKey) : result ComparisonResult :=
  outcomes ← mapM (compare_candidate required) ordered;
  let cs := outcomes.*1 in
  let es := sorted_by exclusion_order (remove_dups (concat outcomes.*2)) in
  let ok := bool_decide (es = [])
            && forallb (fun c => bool_decide (is_Some (alternative_plan c))) cs in
  out ← (if ok then ranking current cs else Ok ([], [], None));
  let '(ranked, winners, savings) := out in
  declared_sets ← mapM declared_components ordered;
  let common := List.filter (fun k => forallb (mem k) declared_sets) required in
  Ok {| cmp_profile_content_sha256 := profile_content_sha256 base;
        current_tariff_version_id := current; required_component_keys := required;
        common_supported_component_keys := common; candidates := cs; exclusions := es;
        rankable := ok; ranked_tariff_version_ids := ranked; winner_tariff_version_ids := winners;
        savings_against_current_supported_cents := savings;
        comparison_sha256 := canonical_content_sha256 "RateReplay.TariffComparisonResult.v1"
          (comparison_payload current required common cs es ok ranked winners savings) |}.

Definition compare_admitted_tariffs (admitted : list AdmittedTariff) (current : string)
    (required : list ChargeComponentKey) : result ComparisonResult :=
  _ ← raise_if (Z.of_nat (length admitted) <? 2) (ComparisonError "TOO_FEW_CANDIDATES");
  let ordered := sorted_by (fun a => lock_tariff_version_id (lock a)) admitted in
  _ ← raise_if (has_dups (tariff_ids ordered)) (ComparisonError "DUPLICATE_CANDIDATE");
  _ ← raise_if (negb (mem current (tariff_ids ordered))) (ComparisonError "CURRENT_TARIFF_NOT_CANDIDATE");
  _ ← raise_if (negb (bool_decide (sorted_by component_str required = required)) || has_dups required)
        (ComparisonError "COMPARISON_COMPONENTS_NONCANONICAL");
  compare_ordered ordered current required.
End Compare.
