(* ===== verification/ComparisonProofs.v ===== *)
(** * ComparisonProofs: what a plan comparison promises

    A comparison ranks plans exactly when every candidate is comparable; the
    ranking is by the replayed bills, and the result does not depend on the
    order in which the candidates are supplied. *)

From S2P Require Import Prelude Calendar Json Schema Compiled Fixtures Eligibility.
From S2P Require Import DayEnergy Replay Compiler Admission Comparison.

(** ** Coverage *)
Lemma active_rule_ids_get ls k :
  dict_get k (active_rule_ids ls) = None <-> k ∉ li_charge_component_key <$> ls.
Proof.
  unfold active_rule_ids. induction ls as [|l ls IH] using rev_ind; simpl; [set_solver|].
  rewrite foldl_app, fmap_app. simpl. unfold add_active at 1.
  destruct (decide (li_charge_component_key l = k)) as [<-|Hne].
  - rewrite dict_get_set_eq. set_solver.
  - rewrite dict_get_set_ne, IH by done. set_solver.
Qed.

Lemma active_rule_ids_nonempty ls k ids : dict_get k (active_rule_ids ls) = Some ids -> ids <> [].
Proof.
  unfold active_rule_ids.
  revert ids; induction ls as [|l ls IH] using rev_ind; simpl; intros ids; [done|].
  rewrite foldl_app. simpl. unfold add_active at 1. destruct (decide (li_charge_component_key l = k)) as [<-|Hne].
  - rewrite dict_get_set_eq. by intros [= <-].
  - rewrite dict_get_set_ne by done. apply IH.
Qed.

Lemma elem_of_active k ls : k ∈ (active_rule_ids ls).*1 <-> k ∈ (li_charge_component_key <$> ls).
Proof.
  pose proof (active_rule_ids_get ls k) as H. rewrite dict_get_None in H.
  destruct (decide (k ∈ (active_rule_ids ls).*1)), (decide (k ∈ li_charge_component_key <$> ls));
    tauto.
Qed.

Definition blocked (c : ComponentCoverage) : Prop := cov_status c = COV_BLOCKED.

Lemma required_coverage_blocked declared ls k :
  blocked (required_coverage declared (active_rule_ids ls) k) <->
  (k ∉ declared) /\ k ∈ (li_charge_component_key <$> ls).
Proof.
  unfold required_coverage, blocked. destruct (mem k declared) eqn:Em; simpl; bools; [naive_solver|].
  destruct (dict_get k (active_rule_ids ls)) as [ids|] eqn:Eg; simpl.
  - pose proof (active_rule_ids_nonempty _ _ _ Eg) as Hne.
    rewrite (bool_decide_eq_false_2 _) by (by rewrite sorted_set_nil). simpl.
    assert (k ∈ li_charge_component_key <$> ls).
    { apply elem_of_active, list_elem_of_fmap. exists (k, ids). split; [done|].
      by apply dict_get_elem. }
    naive_solver.
  - apply active_rule_ids_get in Eg. naive_solver.
Qed.

(** Nothing is blocked exactly when there is no placeholder and every line's
    component is required and declared. *)
Lemma coverage_unblocked a required declared ls ps cov :
  declared_components a = Ok declared -> coverage a required ls ps = Ok cov ->
  (Forall (fun c => ~ blocked c) cov <->
   ps = [] /\ Forall (fun l => li_charge_component_key l ∈ required
                              /\ li_charge_component_key l ∈ declared) ls).
Proof.
  intros Hd Hcov. unfold coverage in Hcov. rewrite Hd in Hcov. simpl in Hcov. injection Hcov as <-.
  rewrite sorted_by_perm, !Forall_app, !Forall_fmap. split.
  - intros (Hreq & Hextra & Hph). split.
    { destruct ps; [done|]. by apply Forall_cons in Hph as [[] _]. }
    apply Forall_forall. intros l Hl.
    assert (li_charge_component_key l ∈ li_charge_component_key <$> ls) as Hk
      by (apply list_elem_of_fmap; eauto).
    assert (li_charge_component_key l ∈ required) as Hr.
    { destruct (decide (li_charge_component_key l ∈ required)) as [|Hn]; [done|].
      apply elem_of_active, list_elem_of_fmap in Hk as ([k ids] & Ek & Hin). simpl in Ek. subst k.
      rewrite Forall_forall in Hextra. exfalso. apply (Hextra (li_charge_component_key l, ids)); [|done].
      apply list_elem_of_In, filter_In. rewrite <- list_elem_of_In, elem_of_sorted_by.
      split; [done|]. apply negb_true_iff. by apply mem_false. }
    split; [done|]. rewrite Forall_forall in Hreq. specialize (Hreq _ Hr). simpl in Hreq.
    rewrite required_coverage_blocked in Hreq.
    destruct (decide (li_charge_component_key l ∈ declared)); tauto.
  - intros [-> Hls]. rewrite Forall_forall in Hls. split; [|split; [|constructor]].
    + apply Forall_forall. intros k Hk. simpl. rewrite required_coverage_blocked.
      intros [Hn (l & -> & Hl)%list_elem_of_fmap]. naive_solver.
    + apply Forall_forall. intros [k ids] Hin%list_elem_of_In%filter_In. exfalso.
      rewrite <- list_elem_of_In, elem_of_sorted_by in Hin. simpl in Hin. destruct Hin as [Hin Hm].
      bools. assert (k ∈ (active_rule_ids ls).*1) as Hk by (apply list_elem_of_fmap; by exists (k, ids)).
      apply elem_of_active, list_elem_of_fmap in Hk as (l & -> & Hl). naive_solver.
Qed.

Section Compare.
Context `{ZoneInfo} `{Sha256}.
Variables (base : ReplayRequestBase) (intervals : list ReplayInterval)
  (dated : option DatedEligibilityFacts).
Notation request := (IntervalReplayRequest base intervals dated).

(** ** The specification *)

(** A candidate whose bill can be compared: eligible, with a complete component
    vector, a replay without unsupported charges, and every charge in a component
    that is both required and declared. *)
Definition comparable (required : list ChargeComponentKey) (a : AdmittedTariff) : Prop :=
  exists eligible replay declared,
    evaluate_eligibility (compilation a) (account_facts base) dated = Ok eligible /\
    status eligible = ELIGIBLE /\
    replay_compiled_tariff (compilation a) request None = Ok replay /\
    declared_components a = Ok declared /\
    tariff_unsupported_placeholders replay = [] /\
    Forall (fun l => li_charge_component_key l ∈ required /\ li_charge_component_key l ∈ declared)
      (line_items replay) /\
    Forall (fun count => count = 1)
      (active_component_count_by_key (component_vector (reports (compilation a)))).

(** The supported bill of a candidate. *)
Definition plan_cost (a : AdmittedTariff) : Z :=
  match replay_compiled_tariff (compilation a) request None with
  | Ok replay => supported_calculated_cents replay
  | Raise _ => 0
  end.

Lemma replay_candidate_ok a replay :
  replay_candidate base intervals dated a = Ok replay <->
  replay_compiled_tariff (compilation a) request None = Ok replay.
Proof.
  unfold replay_candidate. destruct (replay_compiled_tariff _ _ _) as [r|[]]; naive_solver.
Qed.

Lemma vector_incomplete_false a :
  vector_incomplete a = false <->
  Forall (fun count => count = 1)
    (active_component_count_by_key (component_vector (reports (compilation a)))).
Proof.
  unfold vector_incomplete. induction (active_component_count_by_key _) as [|n l IH]; simpl.
  - by split.
  - rewrite orb_false_iff, negb_false_iff, Z.eqb_eq, IH, Forall_cons. done.
Qed.

Lemma blocked_exclusions_nil a cov :
  blocked_exclusions a cov = [] <-> Forall (fun c => ~ blocked c) cov.
Proof.
  unfold blocked_exclusions, blocked. induction cov as [|c cov IH]; simpl; [by split|].
  case_bool_decide; simpl; rewrite Forall_cons; naive_solver.
Qed.

Lemma alternative_result_ok a required alt :
  alternative_result base intervals dated a required = Ok alt ->
  exists replay, replay_compiled_tariff (compilation a) request None = Ok replay /\
    alt_supported_calculated_cents alt = supported_calculated_cents replay /\
    coverage a required (line_items replay) (tariff_unsupported_placeholders replay)
      = Ok (alt_component_coverage alt).
Proof.
  unfold alternative_result. intros Halt. apply bind_ok in Halt as (? & _ & Halt).
  apply bind_ok in Halt as (replay & Hr & Halt). apply bind_ok in Halt as (? & _ & Halt).
  apply bind_ok in Halt as (cov & Hcov & [= <-]). exists replay.
  by rewrite replay_candidate_ok in Hr.
Qed.

(** One round of the candidate loop: the candidate is ranked without exclusions
    exactly when it is comparable, at its replayed cost. *)
Lemma compare_candidate_outcome required a c es :
  compare_candidate base intervals dated required a = Ok (c, es) ->
  cand_tariff_version_id c = lock_tariff_version_id (lock a) /\
  (is_Some (alternative_plan c) -> candidate_cents c = plan_cost a) /\
  ((es = [] /\ is_Some (alternative_plan c)) <-> comparable required a).
Proof.
  unfold compare_candidate. intros Hc. apply bind_ok in Hc as (e & He & Hc).
  apply bind_ok in Hc as (cov0 & Hcov0 & Hc).
  unfold comparable. rewrite He.
  destruct (status e) eqn:Es.
  - apply bind_ok in Hc as (alt & Halt & [= <- <-]). simpl.
    apply alternative_result_ok in Halt as (replay & Hr & Hcents & Hcov).
    assert (exists declared, declared_components a = Ok declared) as [declared Hd].
    { unfold coverage in Hcov. apply bind_ok in Hcov as (d & ? & _). eauto. }
    pose proof (coverage_unblocked _ _ _ _ _ _ Hd Hcov) as Hun.
    rewrite <- blocked_exclusions_nil in Hun. rewrite app_nil, Hun.
    assert ((if vector_incomplete a then [exclusion a INCOMPLETE_COMPONENT_VECTOR None []] else []) = []
            <-> vector_incomplete a = false) as -> by (destruct (vector_incomplete a); done).
    rewrite vector_incomplete_false. split; [done|]. split.
    { intros _. unfold candidate_cents, plan_cost. simpl. by rewrite Hr, Hcents. }
    rewrite Hr, Hd. split.
    + intros [(Hv & Hp & Hl) _]. exists e, replay, declared. by rewrite Hp.
    + intros (e' & r' & d' & [= <-] & _ & [= <-] & [= <-] & Hp & Hl & Hv). by split.
  - injection Hc as <- <-. simpl. split; [done|]. split; [by intros []|].
    split; [intros [_ []]; done|]. intros (e' & ? & ? & [= <-] & ? & _). congruence.
  - injection Hc as <- <-. simpl. split; [done|]. split; [by intros []|].
    split; [intros [_ []]; done|]. intros (e' & ? & ? & [= <-] & ? & _). congruence.
Qed.

Notation outcome_of required := (fun a o => compare_candidate base intervals dated required a = Ok o).

Lemma outcomes_comparable required l outcomes :
  Forall2 (outcome_of required) l outcomes ->
  ((concat outcomes.*2 = [] /\ Forall (fun c => is_Some (alternative_plan c)) outcomes.*1)
   <-> Forall (comparable required) l).
Proof.
  induction 1 as [|a [c es] l os Ho _ IH]; simpl; [by split|].
  destruct (compare_candidate_outcome _ _ _ _ Ho) as (_ & _ & Hiff).
  rewrite !Forall_cons, app_nil, <- IH, <- Hiff. tauto.
Qed.

Lemma exclusions_nil outcomes :
  sorted_by exclusion_order (remove_dups (concat (outcomes : list (ComparisonCandidateResult * _)).*2)) = []
  <-> concat outcomes.*2 = [].
Proof.
  split; [|by intros ->]. intros E. destruct (concat outcomes.*2) as [|x l] eqn:Ec; [done|].
  assert (x ∈ sorted_by exclusion_order (remove_dups (x :: l))) as Hx
    by (rewrite elem_of_sorted_by, elem_of_remove_dups; set_solver).
  rewrite E in Hx. set_solver.
Qed.

(** The parts of a successful comparison. *)
Lemma compare_ok admitted current required r :
  compare_admitted_tariffs base intervals dated admitted current required = Ok r ->
  exists outcomes out,
    Forall2 (outcome_of required) (sorted_by (fun a => lock_tariff_version_id (lock a)) admitted) outcomes /\
    candidates r = outcomes.*1 /\
    (rankable r = true <-> Forall (comparable required) admitted) /\
    (if rankable r then ranking current outcomes.*1 else Ok ([], [], None)) = Ok out /\
    out = (ranked_tariff_version_ids r, winner_tariff_version_ids r,
           savings_against_current_supported_cents r) /\
    NoDup (tariff_ids admitted).
Proof.
  unfold compare_admitted_tariffs. intros Hr.
  apply bind_ok in Hr as (? & _ & Hr). apply bind_ok in Hr as (? & Hdup & Hr).
  apply bind_ok in Hr as (? & Hcur & Hr). apply bind_ok in Hr as (? & _ & Hr).
  apply raise_if_ok in Hdup. bools. unfold tariff_ids in Hdup. rewrite sorted_by_perm in Hdup.
  set (ordered := sorted_by _ admitted) in *. unfold compare_ordered in Hr.
  apply bind_ok in Hr as (outcomes & Ho & Hr). apply bind_ok in Hr as ([[rk wn] sv] & Hrank & Hr).
  apply bind_ok in Hr as (sets & Hsets & [= <-]). simpl.
  apply mapM_ok in Ho. pose proof (outcomes_comparable _ _ _ Ho) as Hiff.
  exists outcomes, (rk, wn, sv). split; [done|]. split; [done|].
  split; [|done]. etransitivity; [|etransitivity; [exact Hiff|]].
  - rewrite andb_true_iff, bool_decide_eq_true, exclusions_nil, forallb_forall, Forall_forall.
    apply and_iff_compat_l. split; intros Hall c Hin; specialize (Hall c).
    + rewrite bool_decide_eq_true in Hall. apply Hall. by apply list_elem_of_In.
    + rewrite bool_decide_eq_true. apply Hall. by apply list_elem_of_In.
  - subst ordered. by rewrite sorted_by_perm.
Qed.

(** ** Theorems *)

(** A comparison is rankable exactly when every candidate is comparable:
    eligible, with a complete component vector, a replay without unsupported
    charges and every charge line in a component that is required and declared.
    When it is not rankable no ranking, winner or saving is reported. *)
Theorem rankable_iff_comparable admitted current required r :
  compare_admitted_tariffs base intervals dated admitted current required = Ok r ->
  (rankable r = true <-> Forall (comparable required) admitted) /\
  (rankable r = false ->
   ranked_tariff_version_ids r = [] /\ winner_tariff_version_ids r = [] /\
   savings_against_current_supported_cents r = None).
Proof.
  intros (outcomes & out & _ & _ & Hiff & Hout & -> & _)%compare_ok. split; [done|].
  intros E. rewrite E in Hout. by injection Hout.
Qed.

Lemma rank_perm cs : rank cs ≡ₚ cs.
Proof. apply sorted_by_perm. Qed.

Lemma rank_costs required l outcomes :
  Forall2 (outcome_of required) l outcomes ->
  Forall (fun c => is_Some (alternative_plan c)) outcomes.*1 ->
  exists order, order ≡ₚ l /\
    Forall2 (fun a c => cand_tariff_version_id c = lock_tariff_version_id (lock a) /\
                        candidate_cents c = plan_cost a) order (rank outcomes.*1).
Proof.
  intros Ho Hs.
  assert (Forall2 (fun c a => cand_tariff_version_id c = lock_tariff_version_id (lock a) /\
                     candidate_cents c = plan_cost a) outcomes.*1 l) as Hrel.
  { revert Hs. induction Ho as [|a [c es] l os Ha _ IH]; simpl; [constructor|].
    rewrite Forall_cons. intros [Hc Hs].
    destruct (compare_candidate_outcome _ _ _ _ Ha) as (? & ? & _). constructor; eauto. }
  destruct (Permutation_Forall2 (Permutation_sym (rank_perm _)) Hrel) as (order & Hp & Hf).
  exists order. split; [by symmetry|]. apply Forall2_flip. exact Hf.
Qed.

Lemma rank_sorted cs : StronglySorted Z.le (candidate_cents <$> rank cs).
Proof.
  unfold rank. pose proof (sorted_by_sorted
    (fun c => (candidate_cents c, (cand_plan_code c, cand_tariff_version_id c))) cs) as Hs.
  induction Hs as [|c l Hs IH Hc]; simpl; constructor; [done|]. apply Forall_fmap.
  eapply Forall_impl; [exact Hc|]. intros d. unfold key_le, py_leb. simpl.
  destruct (Z.compare_spec (candidate_cents c) (candidate_cents d)); simpl; [lia|lia|done].
Qed.

Lemma Forall2_fmap_eq {A B C} (f : A -> C) (g : B -> C) l k :
  Forall2 (fun a b => g b = f a) l k -> g <$> k = f <$> l.
Proof. induction 1 as [|a b l k E _ IH]; [done|]. by rewrite !fmap_cons, E, IH. Qed.

Lemma Forall2_filter_fmap {A B C} (p : A -> bool) (q : B -> bool) (f : A -> C) (g : B -> C) l k :
  Forall2 (fun a b => g b = f a /\ q b = p a) l k ->
  g <$> List.filter q k = f <$> List.filter p l.
Proof.
  induction 1 as [|a b l k [Hg Hq] _ IH]; simpl; [done|].
  rewrite Hq. destruct (p a); [|done]. by rewrite !fmap_cons, Hg, IH.
Qed.

(** C6: In a rankable comparison the candidates are listed by their replayed
    supported bills, cheapest first; the winners are exactly the candidates of
    minimal cost; and the saving is the current plan's bill minus that minimum,
    hence never negative and zero exactly for a current plan among the cheapest. *)
Theorem comparison_ranks_by_cost admitted current required r :
  compare_admitted_tariffs base intervals dated admitted current required = Ok r ->
  rankable r = true ->
  exists order lowest cur,
    order ≡ₚ admitted /\ ranked_tariff_version_ids r = tariff_ids order /\
    StronglySorted Z.le (plan_cost <$> order) /\
    (forall a, a ∈ admitted -> lowest <= plan_cost a) /\
    winner_tariff_version_ids r = tariff_ids (List.filter (fun a => plan_cost a =? lowest) order) /\
    winner_tariff_version_ids r <> [] /\
    cur ∈ admitted /\ lock_tariff_version_id (lock cur) = current /\
    savings_against_current_supported_cents r = Some (plan_cost cur - lowest) /\
    0 <= plan_cost cur - lowest.
Proof.
  intros (outcomes & out & Ho & _ & Hiff & Hout & -> & _)%compare_ok Hrank.
  rewrite Hrank in Hout, Hiff. unfold ranking in Hout.
  assert (Forall (fun c => is_Some (alternative_plan c)) outcomes.*1) as Hsome.
  { apply (outcomes_comparable required _ _ Ho). rewrite sorted_by_perm. by apply Hiff. }
  destruct (rank_costs _ _ _ Ho Hsome) as (order & Hperm & Hrel).
  rewrite sorted_by_perm in Hperm.
  pose proof (rank_sorted outcomes.*1) as Hsorted.
  assert (Forall2 (fun a c => candidate_cents c = plan_cost a) order (rank outcomes.*1)) as Hcost.
  { eapply Forall2_impl; [exact Hrel|]. naive_solver. }
  assert (Forall2 (fun a c => cand_tariff_version_id c = lock_tariff_version_id (lock a))
            order (rank outcomes.*1)) as Hids.
  { eapply Forall2_impl; [exact Hrel|]. naive_solver. }
  rewrite (Forall2_fmap_eq _ _ _ _ Hcost) in Hsorted.
  destruct (rank outcomes.*1) as [|best rest] eqn:Erank; [done|].
  destruct (List.find _ _) as [curc|] eqn:Efind; [|done].
  rewrite (Forall2_fmap_eq _ _ _ _ Hids) in Hout.
  rewrite (Forall2_filter_fmap (fun a => plan_cost a =? candidate_cents best) _
             (fun a => lock_tariff_version_id (lock a)) _ order) in Hout
    by (eapply Forall2_impl; [exact Hrel|]; by intros a c [-> ->]).
  injection Hout as Hrk Hwn Hsv.
  apply find_some in Efind as [Hcurin Hcurid]. apply String.eqb_eq in Hcurid.
  apply list_elem_of_In in Hcurin.
  assert (curc ∈ best :: rest) as Hcur
    by (rewrite <- Erank; unfold rank; by rewrite elem_of_sorted_by).
  apply list_elem_of_lookup in Hcur as [i Hi].
  destruct (Forall2_lookup_r _ _ _ _ _ Hrel Hi) as (cur & Hcuri & Hcid & Hccost).
  assert (cur ∈ admitted) as Hcadm by (rewrite <- Hperm; by eapply list_elem_of_lookup_2).
  inversion Hrel as [|a0 ? order' ? [Hb1 Hb2] Hrest]; subst order.
  assert (forall a, a ∈ admitted -> candidate_cents best <= plan_cost a) as Hlow.
  { intros a Ha. rewrite <- Hperm in Ha. rewrite Hb2. simpl in Hsorted.
    apply StronglySorted_inv in Hsorted as [_ Hall]. rewrite Forall_fmap, Forall_forall in Hall.
    apply elem_of_cons in Ha as [->|Ha]; [lia|]. by apply Hall. }
  exists (a0 :: order'), (candidate_cents best), cur. rewrite <- Hrk, <- Hwn, <- Hsv, Hccost.
  split; [done|]. split; [done|]. split; [done|]. split; [done|]. split; [done|].
  split; [simpl; by rewrite Hb2, Z.eqb_refl|].
  split; [done|]. split; [congruence|]. split; [done|]. specialize (Hlow _ Hcadm). lia.
Qed.

(** The outcome of a comparison, errors included, does not depend on the
    order in which the admitted tariffs are supplied. *)
Theorem comparison_order_irrelevant admitted1 admitted2 current required :
  admitted1 ≡ₚ admitted2 ->
  compare_admitted_tariffs base intervals dated admitted1 current required
  = compare_admitted_tariffs base intervals dated admitted2 current required.
Proof.
  intros Hp. unfold compare_admitted_tariffs.
  rewrite (Permutation_length Hp). destruct (raise_if (_ <? 2) _); simpl; [|done].
  set (key := fun a => lock_tariff_version_id (lock a)).
  assert (has_dups (tariff_ids (sorted_by key admitted1))
          = has_dups (tariff_ids (sorted_by key admitted2))) as Hd.
  { unfold has_dups, tariff_ids. f_equal. apply bool_decide_ext. by rewrite !sorted_by_perm, Hp. }
  destruct (has_dups (tariff_ids (sorted_by key admitted1))) eqn:E1; rewrite <- Hd; simpl; [done|].
  apply has_dups_false in E1. unfold tariff_ids in E1. rewrite sorted_by_perm in E1.
  rewrite (sorted_by_unique key admitted1 admitted2); [done| |done].
  intros x y Hx Hy Hk.
  apply list_elem_of_lookup in Hx as [i Hi]. apply list_elem_of_lookup in Hy as [j Hj].
  assert (i = j) as ->; [|congruence].
  apply (NoDup_lookup (key <$> admitted1) i j (key x)); [done| |];
    rewrite list_lookup_fmap; [by rewrite Hi|by rewrite Hj, Hk].
Qed.
End Compare.

(** ** A comparison of E-1 and EV2-A over two hours of July 2026 *)
Definition lock_fixture (id plan : string) : TariffAdmissionLock :=
  {| lock_tariff_version_id := id; lock_plan_code := plan; admitted_at := "2026-08-01";
     lock_admitted_service_windows := []; target_account_predicate_id := EmptyString;
     definition := {| artifact_path := EmptyString; artifact_sha256 := EmptyString |};
     lock_compiler_content_sha256 := "00"; lock_source_ids := []; lock_source_hashes := [];
     golden_suites := [] |}.
Definition e1_candidate : AdmittedTariff :=
  {| lock := lock_fixture "pge-e1-2026-07" "E-1"; compilation := e1_bundle |}.
Definition ev2a_candidate : AdmittedTariff :=
  {| lock := lock_fixture "pge-ev2a-2026-07" "EV2-A"; compilation := ev2a_bundle |}.
Definition two_hours : list ReplayInterval :=
  [{| start_utc_ns := 1782889200 * NS_PER_SECOND; duration_seconds := 3600; interval_energy_wh := 500 |};
   {| start_utc_ns := 1782946800 * NS_PER_SECOND; duration_seconds := 3600; interval_energy_wh := 1000 |}].
Definition required_fixture : list ChargeComponentKey :=
  [base_services_charge; bundled_energy; california_climate_credit].
Definition compare_fixture (admitted : list AdmittedTariff) : result ComparisonResult :=
  compare_admitted_tariffs (H0 := toy_sha256) (base_fixture 1500 None) two_hours (Some july_dated)
    admitted "pge-ev2a-2026-07" required_fixture.

Example comparison_evaluates :
  match compare_fixture [ev2a_candidate; e1_candidate] with
  | Ok r => (rankable r, ranked_tariff_version_ids r, winner_tariff_version_ids r,
             savings_against_current_supported_cents r)
  | Raise _ => (false, [], [], None)
  end = (true, ["pge-e1-2026-07"; "pge-ev2a-2026-07"], ["pge-e1-2026-07"], Some 16).
Proof. vm_compute. reflexivity. Qed.

Lemma rankable_iff_comparable_witness :
  exists r, compare_fixture [ev2a_candidate; e1_candidate] = Ok r /\
    Forall (comparable (H0 := toy_sha256) (base_fixture 1500 None) two_hours (Some july_dated)
              required_fixture) [ev2a_candidate; e1_candidate].
Proof.
  destruct (compare_fixture _) as [r|] eqn:E; [|vm_compute in E; discriminate E].
  exists r. split; [reflexivity|].
  destruct (rankable_iff_comparable (H0 := toy_sha256) _ _ _ _ _ _ _ E) as [Hiff _]. apply Hiff.
  vm_compute in E. injection E as <-. reflexivity.
Defined.

Lemma comparison_ranks_by_cost_witness :
  exists r lowest, compare_fixture [ev2a_candidate; e1_candidate] = Ok r /\
    savings_against_current_supported_cents r
    = Some (plan_cost (H0 := toy_sha256) (base_fixture 1500 None) two_hours (Some july_dated)
              ev2a_candidate - lowest).
Proof.
  destruct (compare_fixture _) as [r|] eqn:E; [|vm_compute in E; discriminate E].
  destruct (comparison_ranks_by_cost (H0 := toy_sha256) _ _ _ _ _ _ _ E)
    as (order & lowest & cur & _ & _ & _ & _ & _ & _ & Hin & Hid & Hs & _).
  { vm_compute in E. injection E as <-. reflexivity. }
  exists r, lowest. split; [reflexivity|]. rewrite Hs.
  apply elem_of_cons in Hin as [->|Hin]; [reflexivity|].
  apply list_elem_of_singleton in Hin as ->. discriminate Hid.
Defined.

Lemma comparison_order_irrelevant_witness :
  compare_fixture [ev2a_candidate; e1_candidate] = compare_fixture [e1_candidate; ev2a_candidate].
Proof. apply comparison_order_irrelevant. apply Permutation_swap. Defined.
