(* ===== verification/CpModel.v ===== *)
(** * CpModel: the constraint models the optimizer hands to CP-SAT

    The optimizer builds an OR-Tools [CpModel] by a sequence of calls.  A model
    is the record of those calls: the declared variables with their bounds, the
    constraints, the hints and the objective.  OR-Tools itself is not modelled;
    [holds] and [satisfies] give the documented meaning of the calls, against
    which the lowering is proved and which a solver promises to respect.

    A [cpvar] is the identity of one [IntVar] object, given by the place that
    creates it: the kind of variable with the occurrence and slot, or the rule
    and period, of its loop round.  CP-SAT knows a variable by its index in the
    model and keeps the name passed to [new_int_var] as a label only, so two
    variables whose labels coincide are still two variables; [var_name] of
    [Lowering] gives the labels.  That no place creates two variables in one
    model, so that a [cpvar] is one object, is
    [LoweringTheorems.lowered_variables_distinct]. *)

From S2P Require Import Prelude Json Schema.

(** The place that creates a variable, which identifies the object it creates. *)
Inductive cpvar :=
| energy_var (occurrence index : Z)
| active_var (occurrence index : Z)
| start_var (occurrence candidate : Z)
| changed_var (occurrence index : Z)
| completion_active_var (occurrence index : Z)
| completion_var (occurrence : Z)
| quantity_var (rule : string) (period : TimeOfUsePeriod)
| cents_var (rule : string) (period : TimeOfUsePeriod).
#[export] Instance cpvar_eq_dec : EqDecision cpvar.
Proof. solve_decision. Defined.

(** ** Linear expressions: [sum(coefficient * variable) + offset] *)
Record LinearExpr := { le_terms : list (Z * cpvar); le_offset : Z }.
Definition lvar (v : cpvar) : LinearExpr := {| le_terms := [(1, v)]; le_offset := 0 |}.
Definition lconst (c : Z) : LinearExpr := {| le_terms := []; le_offset := c |}.
Definition ladd (e f : LinearExpr) : LinearExpr :=
  {| le_terms := le_terms e ++ le_terms f; le_offset := le_offset e + le_offset f |}.
Definition lscale (c : Z) (e : LinearExpr) : LinearExpr :=
  {| le_terms := (fun t => (c * t.1, t.2)) <$> le_terms e; le_offset := c * le_offset e |}.
Definition lsum (es : list LinearExpr) : LinearExpr := foldr ladd (lconst 0) es.

Definition assignment : Type := cpvar -> Z.
Definition leval (a : assignment) (e : LinearExpr) : Z :=
  sum_by (fun t => t.1 * a t.2) (le_terms e) + le_offset e.

(** ** Constraints *)
Inductive Cmp := CmpLe | CmpGe | CmpEq | CmpNe.
Inductive literal := Pos (v : cpvar) | Not (v : cpvar).

Inductive CpConstraint :=
| Linear (left : LinearExpr) (cmp : Cmp) (right : LinearExpr) (enforced : option literal)
| ExactlyOne (literals : list cpvar)
| MaxEquality (target : cpvar) (exprs : list LinearExpr)
| DivisionEquality (target : cpvar) (numerator : LinearExpr) (denominator : Z).

Record CpModel := {
  cp_variables : list (cpvar * (Z * Z));
  cp_constraints : list CpConstraint;
  cp_hints : list (cpvar * Z);
  cp_objective : option LinearExpr
}.
Definition empty_model : CpModel :=
  {| cp_variables := []; cp_constraints := []; cp_hints := []; cp_objective := None |}.

Definition new_int_var (lower upper : Z) (v : cpvar) (m : CpModel) : CpModel :=
  {| cp_variables := cp_variables m ++ [(v, (lower, upper))]; cp_constraints := cp_constraints m;
     cp_hints := cp_hints m; cp_objective := cp_objective m |}.
Definition new_bool_var (v : cpvar) (m : CpModel) : CpModel := new_int_var 0 1 v m.
Definition cp_add (c : CpConstraint) (m : CpModel) : CpModel :=
  {| cp_variables := cp_variables m; cp_constraints := cp_constraints m ++ [c];
     cp_hints := cp_hints m; cp_objective := cp_objective m |}.
Definition add_hint (v : cpvar) (value : Z) (m : CpModel) : CpModel :=
  {| cp_variables := cp_variables m; cp_constraints := cp_constraints m;
     cp_hints := cp_hints m ++ [(v, value)]; cp_objective := cp_objective m |}.
Definition minimize (e : LinearExpr) (m : CpModel) : CpModel :=
  {| cp_variables := cp_variables m; cp_constraints := cp_constraints m;
     cp_hints := cp_hints m; cp_objective := Some e |}.

(** ** Meaning *)
Definition literal_holds (a : assignment) (l : literal) : Prop :=
  match l with Pos v => a v = 1 | Not v => a v = 0 end.
Definition cmp_holds (c : Cmp) (x y : Z) : Prop :=
  match c with CmpLe => x <= y | CmpGe => y <= x | CmpEq => x = y | CmpNe => x <> y end.

(** An enforcement literal guards its constraint; literals are 0 or 1, so one of
    them holds when they add up to one; integer division truncates. *)
Definition holds (a : assignment) (c : CpConstraint) : Prop :=
  match c with
  | Linear l cmp r enforced =>
      match enforced with
      | Some lit => literal_holds a lit -> cmp_holds cmp (leval a l) (leval a r)
      | None => cmp_holds cmp (leval a l) (leval a r)
      end
  | ExactlyOne ls => sum_by a ls = 1
  | MaxEquality t es => Forall (fun e => leval a e <= a t) es /\ Exists (fun e => leval a e = a t) es
  | DivisionEquality t n d => a t = Z.quot (leval a n) d
  end.

Definition in_bounds (a : assignment) (d : cpvar * (Z * Z)) : Prop := d.2.1 <= a d.1 <= d.2.2.
Definition satisfies (a : assignment) (m : CpModel) : Prop :=
  Forall (in_bounds a) (cp_variables m) /\ Forall (holds a) (cp_constraints m).

#[export] Instance literal_holds_dec a l : Decision (literal_holds a l).
Proof. destruct l; simpl; apply _. Defined.
#[export] Instance cmp_holds_dec c x y : Decision (cmp_holds c x y).
Proof. destruct c; simpl; apply _. Defined.
#[export] Instance holds_dec a c : Decision (holds a c).
Proof. destruct c as [? ? ? [?|]| | |]; simpl; apply _. Defined.
#[export] Instance satisfies_dec a m : Decision (satisfies a m).
Proof. unfold satisfies, in_bounds. apply _. Defined.

(** ** Evaluation of expressions *)
Lemma leval_var a v : leval a (lvar v) = a v.
Proof. unfold leval. cbn. lia. Qed.
Lemma leval_const a c : leval a (lconst c) = c.
Proof. done. Qed.
Lemma leval_add a e f : leval a (ladd e f) = leval a e + leval a f.
Proof. unfold leval. cbn [ladd le_terms le_offset]. rewrite sum_by_app. lia. Qed.
Lemma leval_scale a c e : leval a (lscale c e) = c * leval a e.
Proof.
  unfold leval. cbn [lscale le_terms le_offset]. rewrite sum_by_fmap.
  rewrite (sum_by_ext _ (fun t => c * (t.1 * a t.2))) by (intros; cbn; lia). rewrite sum_by_scale. lia.
Qed.
Lemma leval_sum a es : leval a (lsum es) = sum_by (leval a) es.
Proof.
  induction es as [|e es IH]; [done|]. cbn [lsum foldr]. rewrite leval_add, sum_by_cons. by rewrite <- IH.
Qed.
Lemma leval_sum_vars a vs : leval a (lsum (lvar <$> vs)) = zsum (a <$> vs).
Proof.
  rewrite leval_sum. unfold sum_by. rewrite <- list_fmap_compose. f_equal.
  apply list_fmap_ext. intros ? v _. apply leval_var.
Qed.
#[export] Hint Rewrite leval_var leval_const leval_add leval_scale leval_sum : leval.

(** ** Satisfaction, call by call *)
Lemma satisfies_empty a : satisfies a empty_model.
Proof. split; constructor. Qed.
Lemma satisfies_new_int_var a lo hi v m :
  satisfies a (new_int_var lo hi v m) <-> satisfies a m /\ lo <= a v <= hi.
Proof. unfold satisfies, in_bounds. cbn. rewrite Forall_app, Forall_singleton. naive_solver. Qed.
Lemma satisfies_new_bool_var a v m :
  satisfies a (new_bool_var v m) <-> satisfies a m /\ 0 <= a v <= 1.
Proof. apply satisfies_new_int_var. Qed.
Lemma satisfies_add a c m : satisfies a (cp_add c m) <-> satisfies a m /\ holds a c.
Proof. unfold satisfies. cbn. rewrite Forall_app, Forall_singleton. naive_solver. Qed.
Lemma satisfies_add_hint a v z m : satisfies a (add_hint v z m) <-> satisfies a m.
Proof. done. Qed.
Lemma satisfies_minimize a e m : satisfies a (minimize e m) <-> satisfies a m.
Proof. done. Qed.
#[export] Hint Rewrite satisfies_new_int_var satisfies_new_bool_var satisfies_add satisfies_add_hint
  satisfies_minimize : satisfies.

(** A loop whose rounds add blocks of calls is satisfied block by block. *)
Lemma satisfies_foldl {A S} (model : S -> CpModel) (f : S -> A -> S) (P : A -> Prop) a s l :
  (forall s x, x ∈ l -> satisfies a (model (f s x)) <-> satisfies a (model s) /\ P x) ->
  satisfies a (model (foldl f s l)) <-> satisfies a (model s) /\ Forall P l.
Proof.
  revert s. induction l as [|x l IH]; intros s Hf; cbn; [naive_solver|].
  rewrite IH by (intros; apply Hf; set_solver). rewrite Hf, Forall_cons by set_solver. naive_solver.
Qed.

(** The variables created in a model. *)
Definition declared (m : CpModel) : list cpvar := (cp_variables m).*1.
Lemma declared_new_int_var lo hi v m : declared (new_int_var lo hi v m) = declared m ++ [v].
Proof. unfold declared. cbn. by rewrite fmap_app. Qed.
Lemma declared_new_bool_var v m : declared (new_bool_var v m) = declared m ++ [v].
Proof. apply declared_new_int_var. Qed.
Lemma declared_add c m : declared (cp_add c m) = declared m.
Proof. done. Qed.
Lemma declared_add_hint v z m : declared (add_hint v z m) = declared m.
Proof. done. Qed.
#[export] Hint Rewrite declared_new_int_var declared_new_bool_var declared_add declared_add_hint : declared.
