(* ===== verification/OptimizerModels.v ===== *)
(** * OptimizerModels: flexible-load scenarios (optimizer/models.py)

    The records of the optimizer, its pydantic field constraints as boolean
    predicates, and the checks that scenario admission and the independent
    verifier perform alike: slot-vector identity, window alignment, execution
    and power caps.  An instant is a UTC [datetime] in microseconds, an
    identifier a UUID given by its 128-bit integer (Python orders [UUID.bytes]
    the same way). *)

From S2P Require Import Prelude Calendar.

Notation uuid := Z (only parsing).

Record CanonicalProfileSlot := {
  ps_start_utc : Z; ps_duration_seconds : Z; measured_energy_wh : Z
}.

(** [ReferenceSlot], [EnergySlot], [ScheduleSlot] and [CandidateProfileSlot]
    have the same fields. *)
Record EnergySlot := { es_start_utc : Z; es_duration_seconds : Z; es_energy_wh : Z }.
Notation ReferenceSlot := EnergySlot (only parsing).
Notation ScheduleSlot := EnergySlot (only parsing).
Notation CandidateProfileSlot := EnergySlot (only parsing).

Inductive ExecutionSpec :=
| InterruptibleModulatingSpec (maximum_power_w minimum_power_when_active_w : Z)
| ContiguousFixedShapeSpec (fixed_slot_shape_wh : list Z).

Record LoadOccurrence := {
  occurrence_id : uuid;
  required_energy_wh : Z;
  earliest_start_utc : Z;
  deadline_utc : Z;
  reference_schedule : list ReferenceSlot
}.

Inductive LoadMode := SHIFT_EXISTING | HISTORICAL_ADDITION.
#[export] Instance LoadMode_eq_dec : EqDecision LoadMode.
Proof. solve_decision. Defined.
Inductive LoadKind := KIND_EV | DISHWASHER | WASHER | DRYER | POOL_PUMP | CUSTOM.

Record FlexibleLoad := {
  load_id : uuid;
  physical_asset_key : string;
  kind : LoadKind;
  mode : LoadMode;
  execution_spec : ExecutionSpec;
  occurrences : list LoadOccurrence
}.

Record ScenarioElectricalConstraints := {
  site_import_cap_w : option Z; flexible_load_aggregate_cap_w : option Z
}.

Record ScenarioInput := {
  sc_profile_content_sha256 : string;
  sc_tariff_version_id : string;
  profile_slots : list CanonicalProfileSlot;
  loads : list FlexibleLoad;
  electrical_constraints : ScenarioElectricalConstraints
}.

(** ** Field constraints *)
Definition profile_slot_fields_ok (s : CanonicalProfileSlot) : bool :=
  (0 <? ps_duration_seconds s) && (0 <=? measured_energy_wh s).
Definition energy_slot_fields_ok (s : EnergySlot) : bool :=
  (0 <? es_duration_seconds s) && (0 <=? es_energy_wh s).
Definition validate_power_range (spec : ExecutionSpec) : bool :=
  match spec with
  | InterruptibleModulatingSpec hi lo => (0 <? hi) && (0 <=? lo) && (lo <=? hi)
  | ContiguousFixedShapeSpec shape =>
      negb (bool_decide (shape = [])) && forallb (Z.leb 0) shape && (0 <? zsum shape)
  end.
Definition validate_occurrence_window (o : LoadOccurrence) : bool :=
  (0 <? required_energy_wh o) && (earliest_start_utc o <? deadline_utc o)
  && negb (bool_decide (length (reference_schedule o) = 0%nat))
  && forallb energy_slot_fields_ok (reference_schedule o).
Definition cap_fields_ok (cap : option Z) : bool :=
  match cap with Some c => 0 <? c | None => true end.
Definition load_fields_ok (l : FlexibleLoad) : bool :=
  validate_power_range (execution_spec l) && negb (bool_decide (length (occurrences l) = 0%nat))
  && forallb validate_occurrence_window (occurrences l).
Definition scenario_fields_ok (s : ScenarioInput) : bool :=
  negb (bool_decide (length (profile_slots s) = 0%nat)) && forallb profile_slot_fields_ok (profile_slots s)
  && negb (bool_decide (length (loads s) = 0%nat)) && forallb load_fields_ok (loads s)
  && cap_fields_ok (site_import_cap_w (electrical_constraints s))
  && cap_fields_ok (flexible_load_aggregate_cap_w (electrical_constraints s)).

(** ** Shared operations *)

(** [slot.slot_start_utc + timedelta(seconds=slot.duration_seconds)]. *)
Definition slot_end (s : CanonicalProfileSlot) : result Z :=
  datetime_check (ps_start_utc s + ps_duration_seconds s * US_PER_SECOND).

(** [[0] * n] and [target[index] += amount] over a vector. *)
Definition zeros (n : nat) : list Z := replicate n 0.
Definition vec_add (a b : list Z) : list Z := zip_with Z.add a b.

(** [vector = [0] * n; vector[k : k + len(shape)] = shape]. *)
Definition place_shape (n : nat) (k : Z) (shape : list Z) : list Z :=
  take (Z.to_nat k) (zeros n) ++ shape ++ drop (Z.to_nat k + length shape) (zeros n).

(** The energies of a slot vector that matches the profile slot by slot. *)
Definition slot_vector (mismatch : exn) (vector : list EnergySlot) (slots : list CanonicalProfileSlot)
    : result (list Z) :=
  _ ← raise_if (negb (bool_decide (length vector = length slots))) mismatch;
  mapM (fun vs : EnergySlot * CanonicalProfileSlot =>
          _ ← raise_if (negb (es_start_utc vs.1 =? ps_start_utc vs.2)
                        || negb (es_duration_seconds vs.1 =? ps_duration_seconds vs.2)) mismatch;
          Ok (es_energy_wh vs.1)) (zip vector slots).

(** The per-slot checks of an interruptible load, with the caller's errors. *)
Definition check_interruptible (outside above below : exn) (hi lo : Z) (energy : list Z)
    (slots : list CanonicalProfileSlot) (w_start w_end : Z) : result unit :=
  forM_ (fun item : Z * (Z * CanonicalProfileSlot) =>
           let '(index, (amount, slot)) := item in
           _ ← raise_if ((0 <? amount) && negb ((w_start <=? index) && (index <? w_end))) outside;
           _ ← raise_if (hi * ps_duration_seconds slot <? amount * 3600) above;
           raise_if ((0 <? amount) && (amount * 3600 <? lo * ps_duration_seconds slot)) below)
    (enumerate (zip energy slots)).

(** The first allowed start at which the fixed shape is the energy vector. *)
Definition matched_start (shape energy : list Z) (w_start w_end : Z) : option Z :=
  List.find (fun k => bool_decide (place_shape (length energy) k shape = energy))
    (seqZ w_start (w_end - Z.of_nat (length shape) + 1 - w_start)).

(** The average-power caps of one profile. *)
Definition over_cap (cap : option Z) (amount : Z) (slot : CanonicalProfileSlot) : bool :=
  match cap with Some c => c * ps_duration_seconds slot <? amount * 3600 | None => false end.
Definition check_caps (site_over flexible_over : exn) (c : ScenarioElectricalConstraints)
    (slots : list CanonicalProfileSlot) (profile flexible : list Z) : result unit :=
  forM_ (fun item : CanonicalProfileSlot * (Z * Z) =>
           let '(slot, (total, flex)) := item in
           _ ← raise_if (over_cap (site_import_cap_w c) total slot) site_over;
           raise_if (over_cap (flexible_load_aggregate_cap_w c) flex slot) flexible_over)
    (zip slots (zip profile flexible)).

(** The starts of the slots, each at its index, and the final end. *)
Definition boundaries (slots : list CanonicalProfileSlot) (final_end : Z) : dict Z Z :=
  dict_set final_end (Z.of_nat (length slots))
    (foldl (fun d item => dict_set (ps_start_utc item.2) item.1 d) [] (enumerate slots)).

(** ** What the checks mean *)

(** [n] slots of [d] seconds from [t0]. *)
Definition on_grid (t0 d : Z) (slots : list CanonicalProfileSlot) : Prop :=
  forall i s, slots !! i = Some s ->
    ps_start_utc s = t0 + Z.of_nat i * (d * US_PER_SECOND) /\ ps_duration_seconds s = d.

Definition slots_match (vector : list EnergySlot) (slots : list CanonicalProfileSlot) : Prop :=
  Forall2 (fun v s => es_start_utc v = ps_start_utc s /\ es_duration_seconds v = ps_duration_seconds s)
    vector slots.

Definition interruptible_ok (hi lo : Z) (energy : list Z) (slots : list CanonicalProfileSlot)
    (w_start w_end : Z) : Prop :=
  forall i amount slot, energy !! i = Some amount -> slots !! i = Some slot ->
    (0 < amount -> w_start <= Z.of_nat i < w_end) /\
    amount * 3600 <= hi * ps_duration_seconds slot /\
    (0 < amount -> lo * ps_duration_seconds slot <= amount * 3600).

Definition shape_ok (shape energy : list Z) (w_start w_end : Z) : Prop :=
  exists k, w_start <= k /\ k + Z.of_nat (length shape) <= w_end /\
    energy = place_shape (length energy) k shape.

(** The energy vector [energy] executes [spec] inside the window and delivers
    [required]. *)
Definition execution_ok (spec : ExecutionSpec) (required : Z) (energy : list Z)
    (slots : list CanonicalProfileSlot) (w_start w_end : Z) : Prop :=
  zsum energy = required /\
  match spec with
  | InterruptibleModulatingSpec hi lo => interruptible_ok hi lo energy slots w_start w_end
  | ContiguousFixedShapeSpec shape => zsum shape = required /\ shape_ok shape energy w_start w_end
  end.

Definition within_cap (cap : option Z) (energy : list Z) (slots : list CanonicalProfileSlot) : Prop :=
  match cap with
  | Some c => Forall2 (fun amount slot => amount * 3600 <= c * ps_duration_seconds slot) energy slots
  | None => True
  end.

(** ** Lemmas *)
Lemma elem_of_enumerate {A} (l : list A) k i x :
  (i, x) ∈ enumerate_from k l <-> exists n, i = k + Z.of_nat n /\ l !! n = Some x.
Proof.
  revert k. induction l as [|y l IH]; intros k; simpl.
  - split; [set_solver|]. intros (n & _ & Hn). by rewrite lookup_nil in Hn.
  - rewrite elem_of_cons, IH. split.
    + intros [[= -> ->]|(n & -> & Hn)]; [exists 0%nat|exists (S n)]; split; try done; lia.
    + intros ([|n] & -> & Hn); simpl in Hn; [left; simplify_eq; f_equal; lia|right].
      exists n. split; [lia|done].
Qed.

Lemma zip_lookup_Some {A B} (l : list A) (k : list B) n x y :
  zip l k !! n = Some (x, y) <-> l !! n = Some x /\ k !! n = Some y.
Proof. rewrite lookup_zip_with_Some. naive_solver. Qed.

Lemma slot_vector_ok mismatch vector slots energy :
  slot_vector mismatch vector slots = Ok energy <->
  slots_match vector slots /\ energy = es_energy_wh <$> vector.
Proof.
  unfold slot_vector, slots_match. rewrite bind_ok.
  setoid_rewrite raise_if_ok. setoid_rewrite negb_false_iff. setoid_rewrite bool_decide_eq_true.
  split.
  - intros (_ & Hlen & Hm). revert slots energy Hlen Hm.
    induction vector as [|v vector IH]; intros [|s slots] energy Hlen Hm; simpl in *; try done.
    { injection Hm as <-. by split. }
    apply bind_ok in Hm as (e & He & Hm). apply bind_ok in Hm as (es & Hes & [= <-]).
    inv_ok. bools. subst e. destruct (IH slots es) as [Hf ->]; [lia|done|].
    split; [by constructor|]. done.
  - intros [Hf ->]. exists tt. split; [by eapply Forall2_length|].
    induction Hf as [|v s vector slots [Hs Hd] _ IH]; simpl; [done|].
    rewrite Hs, Hd, !Z.eqb_refl. simpl. by rewrite IH.
Qed.

Lemma check_interruptible_ok outside above below hi lo energy slots s e u :
  length energy = length slots ->
  check_interruptible outside above below hi lo energy slots s e = Ok u <->
  interruptible_ok hi lo energy slots s e.
Proof.
  intros Hlen. unfold check_interruptible, interruptible_ok. rewrite forM_ok, Forall_forall. split.
  - intros Hall i amount slot Ha Hs.
    assert ((Z.of_nat i, (amount, slot)) ∈ enumerate (zip energy slots)) as Hin.
    { apply elem_of_enumerate. exists i. split; [lia|]. by apply zip_lookup_Some. }
    specialize (Hall _ Hin). simpl in Hall. inv_ok.
    repeat match goal with E : (_ && _)%bool = false |- _ => apply andb_false_iff in E end.
    rewrite ?negb_false_iff, ?andb_true_iff in *. bools.
    repeat match goal with E : _ \/ _ |- _ => rewrite ?Z.ltb_ge, ?Z.leb_le, ?Z.ltb_lt in E end.
    lia.
  - intros Hall [i [amount slot]] Hin. apply elem_of_enumerate in Hin as (n & -> & Hn).
    rewrite Z.add_0_l. apply zip_lookup_Some in Hn as [Ha Hs]. destruct (Hall _ _ _ Ha Hs) as (H1 & H2 & H3). simpl.
    destruct (Z.ltb_spec 0 amount) as [Hpos|Hneg]; simpl.
    + specialize (H1 Hpos). specialize (H3 Hpos).
      destruct (Z.leb_spec s (Z.of_nat n)); [|lia]. destruct (Z.ltb_spec (Z.of_nat n) e); [|lia]. simpl.
      destruct (Z.ltb_spec (hi * ps_duration_seconds slot) (amount * 3600)); [lia|]. simpl.
      by destruct (Z.ltb_spec (amount * 3600) (lo * ps_duration_seconds slot)); [lia|].
    + by destruct (Z.ltb_spec (hi * ps_duration_seconds slot) (amount * 3600)); [lia|].
Qed.

Lemma matched_start_ok shape energy s e :
  is_Some (matched_start shape energy s e) <-> shape_ok shape energy s e.
Proof.
  unfold matched_start, shape_ok. split.
  - intros [k Hk]. apply find_some in Hk as [Hin Hb]. apply list_elem_of_In, elem_of_seqZ in Hin.
    bools. exists k. split; [lia|]. split; [lia|by symmetry].
  - intros (k & H1 & H2 & H3). destruct (List.find _ _) eqn:E; [by eexists|].
    eapply find_none in E; [|apply list_elem_of_In, elem_of_seqZ; split; [exact H1|lia]].
    simpl in E. bools. congruence.
Qed.

Lemma over_cap_false cap amount slot :
  over_cap cap amount slot = false <->
  match cap with Some c => amount * 3600 <= c * ps_duration_seconds slot | None => True end.
Proof. destruct cap; simpl; [rewrite Z.ltb_ge|]; naive_solver. Qed.

Lemma check_caps_ok site_over flexible_over c slots profile flexible u :
  length profile = length slots -> length flexible = length slots ->
  check_caps site_over flexible_over c slots profile flexible = Ok u <->
  within_cap (site_import_cap_w c) profile slots /\
  within_cap (flexible_load_aggregate_cap_w c) flexible slots.
Proof.
  unfold check_caps, within_cap. rewrite forM_ok. revert profile flexible.
  induction slots as [|s slots IH]; intros [|p profile] [|f flexible] Hp Hf; simpl in *; try done.
  - destruct (site_import_cap_w c), (flexible_load_aggregate_cap_w c); split; intros; repeat constructor.
  - rewrite Forall_cons, (IH profile flexible), bind_ok by lia.
    setoid_rewrite raise_if_ok. repeat setoid_rewrite over_cap_false.
    destruct (site_import_cap_w c), (flexible_load_aggregate_cap_w c); rewrite ?Forall2_cons; naive_solver.
Qed.

Lemma dict_build {A K} `{EqDecision K} {V} (f : A -> K) (g : A -> V) (l : list A) (d : dict K V) :
  NoDup (d.*1 ++ (f <$> l)) ->
  foldl (fun d x => dict_set (f x) (g x) d) d l = d ++ ((fun x => (f x, g x)) <$> l).
Proof.
  revert d. induction l as [|x l IH]; intros d Hnd; simpl; [by rewrite app_nil_r|].
  assert (f x ∉ d.*1) as Hx.
  { apply NoDup_app in Hnd as (_ & Hd & _). intros Hin. apply (Hd _ Hin). simpl. set_solver. }
  assert (dict_set (f x) (g x) d = d ++ [(f x, g x)]) as Es.
  { clear -Hx. induction d as [|[k v] d IH]; simpl; [done|]. rewrite decide_False by set_solver.
    f_equal. apply IH. set_solver. }
  rewrite Es, IH, <- app_assoc; [done|].
  rewrite fmap_app, <- app_assoc. done.
Qed.

Section Grid.
Context (t0 d : Z) (slots : list CanonicalProfileSlot) (Hgrid : on_grid t0 d slots) (Hd : 0 < d).
Notation tick i := (t0 + i * (d * US_PER_SECOND)).

Lemma tick_inj i j : tick i = tick j -> i = j.
Proof. unfold US_PER_SECOND. nia. Qed.

Lemma starts_fmap (l : list (Z * CanonicalProfileSlot)) :
  (fun item => ps_start_utc item.2) <$> l = ps_start_utc <$> l.*2.
Proof. by rewrite <- list_fmap_compose. Qed.

Lemma grid_starts :
  ps_start_utc <$> (enumerate slots).*2 = (fun i => tick (Z.of_nat i)) <$> seq 0 (length slots).
Proof.
  assert ((enumerate slots).*2 = slots) as ->.
  { clear Hgrid. generalize 0. induction slots as [|s l IH]; intros k; simpl; [done|].
    by rewrite IH. }
  apply list_eq. intros i. rewrite !list_lookup_fmap.
  destruct (slots !! i) as [s|] eqn:E.
  - rewrite lookup_seq_lt by by eapply lookup_lt_Some. simpl. f_equal. by apply Hgrid.
  - rewrite lookup_seq_ge; [done|]. by apply lookup_ge_None.
Qed.

Lemma grid_starts_NoDup : NoDup (ps_start_utc <$> (enumerate slots).*2).
Proof.
  rewrite grid_starts. apply NoDup_fmap_2_strong; [|apply NoDup_seq].
  intros i j _ _ E%tick_inj. lia.
Qed.

(** Looking a boundary up gives its index on the grid. *)
Lemma boundaries_get t k :
  dict_get t (boundaries slots (tick (Z.of_nat (length slots)))) = Some k <->
  0 <= k <= Z.of_nat (length slots) /\ t = tick k.
Proof.
  unfold boundaries.
  rewrite (dict_build (fun item : Z * CanonicalProfileSlot => ps_start_utc item.2) fst)
    by (rewrite starts_fmap; apply grid_starts_NoDup).
  simpl. set (pairs := (fun x : Z * CanonicalProfileSlot => (ps_start_utc x.2, x.1)) <$> enumerate slots).
  assert (pairs.*1 = ps_start_utc <$> (enumerate slots).*2) as Hkeys.
  { unfold pairs. by rewrite <- !list_fmap_compose. }
  assert (tick (Z.of_nat (length slots)) ∉ pairs.*1) as Hfinal.
  { rewrite Hkeys, grid_starts, list_elem_of_fmap. intros (i & E%tick_inj & Hi%elem_of_seq). lia. }
  assert (NoDup pairs.*1) as Hnd by (rewrite Hkeys; apply grid_starts_NoDup).
  destruct (decide (t = tick (Z.of_nat (length slots)))) as [->|Hne].
  - rewrite dict_get_set_eq. split; [intros [= <-]; split; [lia|done]|].
    intros [Hk E%tick_inj]. by subst.
  - rewrite dict_get_set_ne by done. split.
    + intros Hg%dict_get_elem. apply list_elem_of_fmap in Hg as ([i s] & [= -> ->] & Hin).
      apply elem_of_enumerate in Hin as (n & -> & Hn). destruct (Hgrid _ _ Hn) as [-> _].
      apply lookup_lt_Some in Hn. rewrite Z.add_0_l. split; [lia|done].
    + intros [Hk ->]. apply dict_elem_get; [done|]. apply list_elem_of_fmap.
      assert (k <> Z.of_nat (length slots)) by congruence.
      destruct (lookup_lt_is_Some_2 slots (Z.to_nat k)) as [s Hs]; [lia|].
      exists (k, s). simpl. destruct (Hgrid _ _ Hs) as [-> _].
      split; [by rewrite Z2Nat.id by lia|]. apply elem_of_enumerate. exists (Z.to_nat k). split; [lia|done].
Qed.
End Grid.

(** ** Disjoint windows *)
Definition windows_disjoint (a b : LoadOccurrence) : Prop :=
  deadline_utc a <= earliest_start_utc b \/ deadline_utc b <= earliest_start_utc a.

Lemma StronglySorted_sym_perm {A} (R : A -> A -> Prop) (l k : list A) :
  (forall x y, R x y -> R y x) -> l ≡ₚ k -> StronglySorted R l -> StronglySorted R k.
Proof.
  intros Hsym Hp. induction Hp as [|x l k Hp IH|x y l|l1 l2 l3 _ IH1 _ IH2]; intros Hs; [done| | |auto].
  - apply StronglySorted_inv in Hs as [Hs Hx]. constructor; [auto|]. by rewrite <- Hp.
  - apply StronglySorted_inv in Hs as [Hs Hx]. apply StronglySorted_inv in Hs as [Hs Hy].
    apply Forall_cons in Hx as [Hxy Hx]. repeat constructor; auto.
Qed.

(** On nonempty windows sorted by their start, comparing neighbours decides
    pairwise disjointness. *)
Lemma neighbours_disjoint (l : list LoadOccurrence) :
  StronglySorted (fun a b => earliest_start_utc a <= earliest_start_utc b) l ->
  Forall (fun o => earliest_start_utc o < deadline_utc o) l ->
  (Forall (fun ab : LoadOccurrence * LoadOccurrence => deadline_utc ab.1 <= earliest_start_utc ab.2)
     (pairwise l)
   <-> StronglySorted windows_disjoint l).
Proof.
  unfold pairwise. induction 1 as [|a l Hs IH Ha]; intros Hne; simpl.
  { split; constructor. }
  apply Forall_cons in Hne as [Hna Hne]. specialize (IH Hne). split.
  - destruct l as [|b l]; simpl in *; [by repeat constructor|].
    intros [Hab Hrest]%Forall_cons. constructor; [by apply IH|].
    apply StronglySorted_inv in Hs as [_ Hb]. constructor; [by left|].
    apply Forall_forall. intros c Hc. left. rewrite Forall_forall in Hb. specialize (Hb _ Hc).
    simpl in *. apply Forall_cons in Hne as [Hnb _]. lia.
  - intros Hd. apply StronglySorted_inv in Hd as [Hd Hda]. destruct l as [|b l]; simpl in *; [constructor|].
    constructor; [|by apply IH]. simpl. apply Forall_cons in Hda as [Hab _].
    apply Forall_cons in Ha as [Hle _]. apply Forall_cons in Hne as [Hnb _].
    destruct Hab; lia.
Qed.
