(* ===== verification/Scenario.v ===== *)
(** * Scenario: historical scenario admission (optimizer/scenario.py)

    [validate_and_decompose_scenario] admits a scenario whose reference
    schedules are feasible on the canonical profile, and splits the measured
    profile into fixed background and flexible reference energy. *)

From S2P Require Import Prelude Calendar OptimizerModels.

(** ** Results *)
Record ScenarioDecomposition := {
  fixed_background : list EnergySlot;
  shift_existing_reference : list EnergySlot;
  historical_addition_reference : list EnergySlot;
  reconstructed_measured_profile : list EnergySlot;
  unchanged_reference_profile : list EnergySlot
}.
Record ReferenceValidationRecord := {
  load_count : Z; occurrence_count : Z; slot_count : Z; checked_constraint_codes : list string
}.
Record ValidatedScenario := {
  scenario : ScenarioInput;
  decomposition : ScenarioDecomposition;
  reference_validation : ReferenceValidationRecord
}.

(** ** Validation *)
Definition fail (code : string) : exn := ScenarioValidationError code.

Definition validate_profile (slots : list CanonicalProfileSlot) : result unit :=
  match slots with
  | [] => Raise (PyError "IndexError")
  | first :: _ =>
      _ ← forM_ (fun s => raise_if (negb (ps_duration_seconds s =? ps_duration_seconds first))
                            (fail "PROFILE_RESOLUTION_MISMATCH")) slots;
      forM_ (fun lr : CanonicalProfileSlot * CanonicalProfileSlot =>
               expected ← slot_end lr.1;
               raise_if (negb (ps_start_utc lr.2 =? expected)) (fail "PROFILE_SLOT_VECTOR_INVALID"))
        (pairwise slots)
  end.

Definition validate_identities (ls : list FlexibleLoad) : result unit :=
  _ ← raise_if (has_dups (load_id <$> ls)) (fail "DUPLICATE_LOAD_ID");
  _ ← raise_if (has_dups (physical_asset_key <$> ls)) (fail "DUPLICATE_PHYSICAL_ASSET_KEY");
  raise_if (has_dups (occurrence_id <$> (ls ≫= occurrences))) (fail "DUPLICATE_OCCURRENCE_ID").

Definition validate_disjoint_occurrences (l : FlexibleLoad) : result unit :=
  forM_ (fun lr : LoadOccurrence * LoadOccurrence =>
           raise_if (earliest_start_utc lr.2 <? deadline_utc lr.1)
             (fail "OVERLAPPING_LOAD_OCCURRENCES"))
    (pairwise (sorted_by (fun o => (earliest_start_utc o, deadline_utc o)) (occurrences l))).

Definition aligned_window_indices (o : LoadOccurrence) (slots : list CanonicalProfileSlot)
    : result (Z * Z) :=
  match last slots with
  | None => Raise (PyError "IndexError")
  | Some final =>
      final_end ← slot_end final;
      let b := boundaries slots final_end in
      match dict_get (earliest_start_utc o) b, dict_get (deadline_utc o) b with
      | Some w_start, Some w_end =>
          _ ← raise_if (w_end <=? w_start) (fail "OCCURRENCE_OUTSIDE_PROFILE");
          Ok (w_start, w_end)
      | _, _ => Raise (fail "NON_ALIGNED_OCCURRENCE_BOUNDARY")
      end
  end.

Definition reference_energy (o : LoadOccurrence) (slots : list CanonicalProfileSlot)
    : result (list Z) :=
  energy ← slot_vector (fail "REFERENCE_SLOT_VECTOR_MISMATCH") (reference_schedule o) slots;
  _ ← raise_if (negb (zsum energy =? required_energy_wh o)) (fail "REFERENCE_ENERGY_MISMATCH");
  Ok energy.

Definition validate_fixed_shape (shape : list Z) (o : LoadOccurrence) (energy : list Z)
    (w_start w_end : Z) : result unit :=
  _ ← raise_if (negb (zsum shape =? required_energy_wh o)) (fail "FIXED_SHAPE_ENERGY_MISMATCH");
  raise_if (bool_decide (matched_start shape energy w_start w_end = None))
    (fail "FIXED_SHAPE_REFERENCE_MISMATCH").

Definition validate_occurrence (l : FlexibleLoad) (o : LoadOccurrence)
    (slots : list CanonicalProfileSlot) : result (list Z) :=
  window ← aligned_window_indices o slots;
  energy ← reference_energy o slots;
  _ ← match execution_spec l with
      | InterruptibleModulatingSpec hi lo =>
          check_interruptible (fail "REFERENCE_ENERGY_OUTSIDE_WINDOW")
            (fail "REFERENCE_MAXIMUM_POWER_EXCEEDED") (fail "REFERENCE_MINIMUM_POWER_VIOLATED")
            hi lo energy slots window.1 window.2
      | ContiguousFixedShapeSpec shape => validate_fixed_shape shape o energy window.1 window.2
      end;
  Ok energy.

Definition energy_slots (slots : list CanonicalProfileSlot) (energy : list Z) : list EnergySlot :=
  zip_with (fun s e => {| es_start_utc := ps_start_utc s; es_duration_seconds := ps_duration_seconds s;
                          es_energy_wh := e |}) slots energy.

(** [for load in loads: for occurrence in load.occurrences]. *)
Definition load_occurrences (ls : list FlexibleLoad) : list (FlexibleLoad * LoadOccurrence) :=
  ls ≫= fun l => (fun o => (l, o)) <$> occurrences l.

Record Accumulated := { acc_shift : list Z; acc_addition : list Z; acc_count : Z }.

Definition accumulate (slots : list CanonicalProfileSlot) (acc : Accumulated)
    (lo : FlexibleLoad * LoadOccurrence) : result Accumulated :=
  energy ← validate_occurrence lo.1 lo.2 slots;
  Ok (if bool_decide (mode lo.1 = SHIFT_EXISTING)
      then {| acc_shift := vec_add (acc_shift acc) energy; acc_addition := acc_addition acc;
              acc_count := acc_count acc + 1 |}
      else {| acc_shift := acc_shift acc; acc_addition := vec_add (acc_addition acc) energy;
              acc_count := acc_count acc + 1 |}).

Definition checked_codes : list string :=
  ["PROFILE_SLOT_VECTOR_INVALID"; "DUPLICATE_PHYSICAL_ASSET_KEY"; "OVERLAPPING_LOAD_OCCURRENCES";
   "NON_ALIGNED_OCCURRENCE_BOUNDARY"; "REFERENCE_SLOT_VECTOR_MISMATCH"; "REFERENCE_ENERGY_MISMATCH";
   "REFERENCE_EXECUTION_SPEC"; "NEGATIVE_FIXED_BACKGROUND"; "REFERENCE_SITE_IMPORT_CAP_EXCEEDED";
   "REFERENCE_FLEXIBLE_LOAD_CAP_EXCEEDED"].

Definition validate_and_decompose_scenario (s : ScenarioInput) : result ValidatedScenario :=
  let slots := profile_slots s in
  _ ← validate_profile slots;
  _ ← validate_identities (loads s);
  _ ← forM_ validate_disjoint_occurrences (loads s);
  acc ← foldM (accumulate slots)
          {| acc_shift := zeros (length slots); acc_addition := zeros (length slots); acc_count := 0 |}
          (load_occurrences (loads s));
  let measured := measured_energy_wh <$> slots in
  let background := zip_with Z.sub measured (acc_shift acc) in
  _ ← forM_ (fun amount => raise_if (amount <? 0) (fail "NEGATIVE_FIXED_BACKGROUND")) background;
  let reconstructed := vec_add background (acc_shift acc) in
  _ ← raise_if (negb (bool_decide (reconstructed = measured))) (fail "MEASURED_RECONSTRUCTION_MISMATCH");
  let flexible := vec_add (acc_shift acc) (acc_addition acc) in
  let unchanged := vec_add background flexible in
  _ ← check_caps (fail "REFERENCE_SITE_IMPORT_CAP_EXCEEDED") (fail "REFERENCE_FLEXIBLE_LOAD_CAP_EXCEEDED")
        (electrical_constraints s) slots unchanged flexible;
  Ok {| scenario := s;
        decomposition :=
          {| fixed_background := energy_slots slots background;
             shift_existing_reference := energy_slots slots (acc_shift acc);
             historical_addition_reference := energy_slots slots (acc_addition acc);
             reconstructed_measured_profile := energy_slots slots reconstructed;
             unchanged_reference_profile := energy_slots slots unchanged |};
        reference_validation :=
          {| load_count := Z.of_nat (length (loads s)); occurrence_count := acc_count acc;
             slot_count := Z.of_nat (length slots); checked_constraint_codes := checked_codes |} |}.

(** ** Specification *)
Definition energies (v : list EnergySlot) : list Z := es_energy_wh <$> v.

(** The summed reference energy of the loads in mode [md], slot by slot. *)
Definition reference_total (md : LoadMode) (s : ScenarioInput) : list Z :=
  foldl vec_add (zeros (length (profile_slots s)))
    ((fun lo => energies (reference_schedule lo.2))
     <$> List.filter (fun lo => bool_decide (mode lo.1 = md)) (load_occurrences (loads s))).

(** The slot vector [vector] executes occurrence [o] of load [l] on the grid. *)
Definition executes (t0 d : Z) (slots : list CanonicalProfileSlot) (l : FlexibleLoad)
    (o : LoadOccurrence) (vector : list EnergySlot) : Prop :=
  slots_match vector slots /\
  exists i j, 0 <= i < j /\ j <= Z.of_nat (length slots) /\
    earliest_start_utc o = t0 + i * (d * US_PER_SECOND) /\
    deadline_utc o = t0 + j * (d * US_PER_SECOND) /\
    execution_ok (execution_spec l) (required_energy_wh o) (energies vector) slots i j.
Definition occurrence_feasible (t0 d : Z) (slots : list CanonicalProfileSlot) (l : FlexibleLoad)
    (o : LoadOccurrence) : Prop := executes t0 d slots l o (reference_schedule o).

Record reference_feasible (s : ScenarioInput) (t0 d : Z) : Prop := {
  rf_grid : on_grid t0 d (profile_slots s);
  rf_load_ids : NoDup (load_id <$> loads s);
  rf_assets : NoDup (physical_asset_key <$> loads s);
  rf_occurrence_ids : NoDup (occurrence_id <$> (loads s ≫= occurrences));
  rf_disjoint : Forall (fun l => StronglySorted windows_disjoint (occurrences l)) (loads s);
  rf_occurrences : Forall (fun lo => occurrence_feasible t0 d (profile_slots s) lo.1 lo.2)
                     (load_occurrences (loads s));
  rf_background : Forall2 (fun r p => r <= measured_energy_wh p)
                    (reference_total SHIFT_EXISTING s) (profile_slots s);
  rf_site_cap : within_cap (site_import_cap_w (electrical_constraints s))
    (vec_add (measured_energy_wh <$> profile_slots s) (reference_total HISTORICAL_ADDITION s))
    (profile_slots s);
  rf_flexible_cap : within_cap (flexible_load_aggregate_cap_w (electrical_constraints s))
    (vec_add (reference_total SHIFT_EXISTING s) (reference_total HISTORICAL_ADDITION s))
    (profile_slots s)
}.

(** The profile lies inside the range of [datetime]. *)
Definition profile_in_range (slots : list CanonicalProfileSlot) : Prop :=
  Forall (fun s => instant_min <= ps_start_utc s + ps_duration_seconds s * US_PER_SECOND <= instant_max)
    slots.
