(* ===== verification/ScenarioProofs.v ===== *)
(** * ScenarioProofs: admission is exactly reference feasibility

    The guards of [validate_and_decompose_scenario] are equivalent to the
    declarative [reference_feasible], and an admitted scenario's decomposition
    is exact. *)

From S2P Require Import Prelude Calendar OptimizerModels Scenario.

(** ** The profile grid *)
Lemma on_grid_cons t0 d s slots :
  on_grid t0 d (s :: slots) <->
  ps_start_utc s = t0 /\ ps_duration_seconds s = d /\ on_grid (t0 + d * US_PER_SECOND) d slots.
Proof.
  unfold on_grid. split.
  - intros Hg. destruct (Hg 0%nat s eq_refl) as [Hs Hd]. split; [lia|]. split; [done|].
    intros i p Hp. destruct (Hg (S i) p Hp) as [-> ->]. split; [lia|done].
  - intros (Hs & Hd & Hg) [|i] p Hp; simpl in Hp; [simplify_eq; split; [lia|done]|].
    destruct (Hg _ _ Hp) as [-> ->]. split; [lia|done].
Qed.

Lemma slot_end_in_range s :
  instant_min <= ps_start_utc s + ps_duration_seconds s * US_PER_SECOND <= instant_max ->
  slot_end s = Ok (ps_start_utc s + ps_duration_seconds s * US_PER_SECOND).
Proof.
  intros H. unfold slot_end, datetime_check.
  destruct (Z.ltb_spec (ps_start_utc s + ps_duration_seconds s * US_PER_SECOND) instant_min); [lia|].
  by destruct (Z.ltb_spec instant_max (ps_start_utc s + ps_duration_seconds s * US_PER_SECOND)); [lia|].
Qed.

Lemma forM_cons {A} (f : A -> result unit) x l u :
  forM_ f (x :: l) = Ok u <-> f x = Ok tt /\ forM_ f l = Ok u.
Proof.
  simpl. rewrite bind_ok. split; [by intros ([] & ? & ?)|]. intros [? ?]. by exists tt.
Qed.

Lemma contiguous_grid first slots u :
  profile_in_range (first :: slots) ->
  Forall (fun s => ps_duration_seconds s = ps_duration_seconds first) slots ->
  forM_ (fun lr : CanonicalProfileSlot * CanonicalProfileSlot =>
           expected ← slot_end lr.1;
           raise_if (negb (ps_start_utc lr.2 =? expected)) (fail "PROFILE_SLOT_VECTOR_INVALID"))
    (pairwise (first :: slots)) = Ok u <->
  on_grid (ps_start_utc first) (ps_duration_seconds first) (first :: slots).
Proof.
  unfold pairwise. revert first. induction slots as [|s slots IH]; intros first Hr Hd; simpl zip.
  - rewrite on_grid_cons. split; [|by destruct u]. intros _. split; [done|]. split; [done|].
    intros i p Hp. by rewrite lookup_nil in Hp.
  - apply Forall_cons in Hr as [Hf Hr]. apply Forall_cons in Hd as [Hs Hd].
    rewrite forM_cons, on_grid_cons. simpl. rewrite (slot_end_in_range first Hf). simpl.
    rewrite raise_if_ok, negb_false_iff, Z.eqb_eq.
    specialize (IH s Hr). simpl in IH. rewrite IH by by rewrite Hs. rewrite Hs. split.
    + intros [Es Hg]. split; [done|]. split; [done|]. by rewrite <- Es.
    + intros (_ & _ & Hg). pose proof Hg as Hg'. apply on_grid_cons in Hg' as (Es & _ & _).
      split; [done|]. by rewrite Es.
Qed.

Lemma validate_profile_ok slots u :
  profile_in_range slots ->
  validate_profile slots = Ok u <-> slots <> [] /\ exists t0 d, on_grid t0 d slots.
Proof.
  intros Hr. destruct slots as [|first slots]; [naive_solver|].
  unfold validate_profile. rewrite bind_ok. split.
  - intros ([] & Hd & Hc). split; [done|].
    rewrite forM_ok, Forall_cons in Hd. destruct Hd as [_ Hd].
    exists (ps_start_utc first), (ps_duration_seconds first).
    apply (contiguous_grid _ _ u Hr); [|done].
    eapply Forall_impl; [exact Hd|]. simpl. intros s Hs. inv_ok. bools. done.
  - intros (_ & t0 & d & Hg). assert (Forall (fun s => ps_duration_seconds s = d) (first :: slots)) as Hall.
    { apply Forall_lookup. intros i s Hi. by apply Hg in Hi as [_ ?]. }
    pose proof Hg as Hg0. apply on_grid_cons in Hg0 as (<- & <- & _).
    exists tt. split.
    + apply forM_ok. eapply Forall_impl; [exact Hall|]. simpl. intros s ->. by rewrite Z.eqb_refl.
    + apply contiguous_grid; [done| |done]. by apply Forall_cons in Hall as [_ ?].
Qed.

Lemma grid_final t0 d slots final :
  on_grid t0 d slots -> last slots = Some final ->
  ps_start_utc final + ps_duration_seconds final * US_PER_SECOND
  = t0 + Z.of_nat (length slots) * (d * US_PER_SECOND).
Proof.
  intros Hg Hl. rewrite last_lookup in Hl. destruct (Hg _ _ Hl) as [-> ->].
  apply lookup_lt_Some in Hl. replace (Z.of_nat (length slots)) with (Z.of_nat (pred (length slots)) + 1) by lia.
  lia.
Qed.

(** ** Occurrences *)
Section Occurrence.
Context (t0 d : Z) (slots : list CanonicalProfileSlot).
Context (Hgrid : on_grid t0 d slots) (Hd : 0 < d) (Hne : slots <> []) (Hrange : profile_in_range slots).

Lemma aligned_window_indices_ok o w_start w_end :
  aligned_window_indices o slots = Ok (w_start, w_end) <->
  0 <= w_start < w_end /\ w_end <= Z.of_nat (length slots) /\
  earliest_start_utc o = t0 + w_start * (d * US_PER_SECOND) /\
  deadline_utc o = t0 + w_end * (d * US_PER_SECOND).
Proof.
  unfold aligned_window_indices.
  destruct (last slots) as [final|] eqn:El; [|by apply last_None in El].
  rewrite slot_end_in_range
    by (eapply Forall_forall in Hrange; [exact Hrange|by apply last_Some_elem_of]).
  simpl. rewrite (grid_final t0 d slots final Hgrid El).
  set (b := boundaries _ _).
  assert (forall t k, dict_get t b = Some k <-> _) as Hget by (intros; by apply boundaries_get).
  split.
  - destruct (dict_get (earliest_start_utc o) b) as [i|] eqn:Ei; [|done].
    destruct (dict_get (deadline_utc o) b) as [j|] eqn:Ej; [|done].
    intros Hok. inv_ok. bools. simplify_eq. apply Hget in Ei as [? ?], Ej as [? ?]. split; [lia|]. tauto.
  - intros (H1 & H2 & H3 & H4). rewrite (proj2 (Hget _ w_start)), (proj2 (Hget _ w_end))
      by (split; [lia|done]).
    by destruct (Z.leb_spec w_end w_start); [lia|].
Qed.

Lemma reference_energy_ok o energy :
  reference_energy o slots = Ok energy <->
  slots_match (reference_schedule o) slots /\ energy = energies (reference_schedule o) /\
  zsum energy = required_energy_wh o.
Proof.
  unfold reference_energy. rewrite bind_ok. setoid_rewrite slot_vector_ok. split.
  - intros (e & [Hm ->] & Hok). inv_ok. bools. by subst.
  - intros (Hm & -> & Hs). exists (energies (reference_schedule o)). split; [done|]. by rewrite (proj2 (Z.eqb_eq _ _) Hs).
Qed.

Lemma validate_occurrence_ok l o energy :
  validate_occurrence l o slots = Ok energy <->
  energy = energies (reference_schedule o) /\ occurrence_feasible t0 d slots l o.
Proof.
  unfold validate_occurrence, occurrence_feasible, executes, execution_ok. split.
  - intros Hok. apply bind_ok in Hok as ([i j] & Hw & Hok). apply bind_ok in Hok as (e & He & Hok).
    apply bind_ok in Hok as (u & Hx & [= <-]). simpl in Hx.
    apply aligned_window_indices_ok in Hw as (H1 & H2 & H3 & H4).
    apply reference_energy_ok in He as (Hm & -> & Hs). split; [done|]. split; [done|].
    exists i, j. repeat (split; [done|]). destruct (execution_spec l) as [hi lo|shape].
    + apply check_interruptible_ok in Hx; [done|]. unfold energies. rewrite length_fmap.
      by eapply Forall2_length.
    + unfold validate_fixed_shape in Hx. inv_ok. bools. split; [done|].
      apply matched_start_ok. by apply not_eq_None_Some.
  - intros (-> & Hm & i & j & H1 & H2 & H3 & H4 & Hs & Hx).
    rewrite (proj2 (aligned_window_indices_ok o i j)) by done. simpl.
    rewrite (proj2 (reference_energy_ok o _)) by done. simpl.
    destruct (execution_spec l) as [hi lo|shape].
    + apply (check_interruptible_ok (fail "REFERENCE_ENERGY_OUTSIDE_WINDOW")
        (fail "REFERENCE_MAXIMUM_POWER_EXCEEDED") (fail "REFERENCE_MINIMUM_POWER_VIOLATED")
        _ _ _ _ _ _ tt) in Hx; [by rewrite Hx|].
      unfold energies. rewrite length_fmap. by eapply Forall2_length.
    + destruct Hx as [Hsh Hx]. unfold validate_fixed_shape. rewrite (proj2 (Z.eqb_eq _ _) Hsh). simpl.
      apply matched_start_ok in Hx as [k ->]. done.
Qed.
End Occurrence.

(** ** The accumulation loop *)
Lemma length_vec_add a b : length a = length b -> length (vec_add a b) = length a.
Proof. intros H. unfold vec_add. rewrite length_zip_with. lia. Qed.

Lemma length_foldl_vec_add n a (vs : list (list Z)) :
  length a = n -> Forall (fun v => length v = n) vs -> length (foldl vec_add a vs) = n.
Proof.
  intros Ha Hv. revert a Ha. induction Hv as [|v vs Hv _ IH]; intros a Ha; simpl; [done|].
  apply IH. by rewrite length_vec_add; lia.
Qed.

Lemma zsum_vec_add a b : length a = length b -> zsum (vec_add a b) = zsum a + zsum b.
Proof.
  revert b. induction a as [|x a IH]; intros [|y b] H; simpl in *; try done.
  unfold vec_add in *. rewrite IH by lia. lia.
Qed.

Lemma zsum_foldl_vec_add n a (vs : list (list Z)) :
  length a = n -> Forall (fun v => length v = n) vs ->
  zsum (foldl vec_add a vs) = zsum a + sum_by zsum vs.
Proof.
  intros Ha Hv. revert a Ha. induction Hv as [|v vs Hv _ IH]; intros a Ha; simpl.
  - rewrite sum_by_nil. lia.
  - rewrite IH by (rewrite length_vec_add; lia). rewrite zsum_vec_add, sum_by_cons by lia. lia.
Qed.

Lemma zsum_zero_vector n : zsum (zeros n) = 0.
Proof. induction n as [|n IH]; simpl; [done|]. unfold zeros in IH. simpl in *. lia. Qed.

Definition mode_vectors (md : LoadMode) (los : list (FlexibleLoad * LoadOccurrence)) : list (list Z) :=
  (fun lo => energies (reference_schedule lo.2))
  <$> List.filter (fun lo => bool_decide (mode lo.1 = md)) los.

Lemma mode_vectors_cons md l o los :
  mode_vectors md ((l, o) :: los)
  = (if bool_decide (mode l = md) then [energies (reference_schedule o)] else []) ++ mode_vectors md los.
Proof. unfold mode_vectors. simpl. by case_bool_decide. Qed.

Lemma accumulate_ok t0 d slots acc los acc' :
  on_grid t0 d slots -> 0 < d -> slots <> [] -> profile_in_range slots ->
  foldM (accumulate slots) acc los = Ok acc' <->
  Forall (fun lo => occurrence_feasible t0 d slots lo.1 lo.2) los /\
  acc' = {| acc_shift := foldl vec_add (acc_shift acc) (mode_vectors SHIFT_EXISTING los);
            acc_addition := foldl vec_add (acc_addition acc) (mode_vectors HISTORICAL_ADDITION los);
            acc_count := acc_count acc + Z.of_nat (length los) |}.
Proof.
  intros Hg Hd Hne Hr. revert acc. induction los as [|[l o] los IH]; intros acc; simpl foldM.
  - split.
    + intros [= <-]. split; [constructor|]. destruct acc; simpl. f_equal; lia.
    + intros [_ ->]. destruct acc; simpl. do 2 f_equal. lia.
  - rewrite Forall_cons, bind_ok, !mode_vectors_cons. unfold accumulate at 1. simpl.
    assert (forall e, validate_occurrence l o slots = Ok e <-> _) as Hv
      by (intros; by apply (validate_occurrence_ok t0 d)).
    split.
    + intros (acc1 & Hacc & Hrest). apply bind_ok in Hacc as (e & He & [= <-]).
      apply Hv in He as [-> Hf]. apply IH in Hrest as [Hfs ->]. split; [done|].
      destruct (mode l); simpl; f_equal; try done; lia.
    + intros [[Hf Hfs] ->].
      rewrite (proj2 (Hv (energies (reference_schedule o)))) by done. simpl.
      eexists. split; [done|]. apply IH. split; [done|].
      destruct (mode l); simpl; f_equal; try done; lia.
Qed.

Lemma reference_total_vectors md s :
  reference_total md s
  = foldl vec_add (zeros (length (profile_slots s))) (mode_vectors md (load_occurrences (loads s))).
Proof. done. Qed.

Lemma mode_vectors_length slots md los :
  Forall (fun lo => slots_match (reference_schedule lo.2) slots) los ->
  Forall (fun v => length v = length slots) (mode_vectors md los).
Proof.
  intros H. unfold mode_vectors. apply Forall_fmap, Forall_forall. intros lo Hin.
  apply list_elem_of_In, filter_In in Hin as [Hin _]. apply list_elem_of_In in Hin.
  rewrite Forall_forall in H. unfold energies. simpl. rewrite length_fmap.
  eapply Forall2_length. by apply H.
Qed.

Lemma length_reference_total_match md s :
  Forall (fun lo => slots_match (reference_schedule lo.2) (profile_slots s)) (load_occurrences (loads s)) ->
  length (reference_total md s) = length (profile_slots s).
Proof.
  intros H. rewrite reference_total_vectors. apply length_foldl_vec_add.
  - apply length_replicate.
  - by apply mode_vectors_length.
Qed.

Lemma feasible_match t0 d slots los :
  Forall (fun lo => occurrence_feasible t0 d slots lo.1 lo.2) los ->
  Forall (fun lo => slots_match (reference_schedule lo.2) slots) los.
Proof. intros H. eapply Forall_impl; [exact H|]. by intros lo [? _]. Qed.

Lemma length_reference_total t0 d md s :
  Forall (fun lo => occurrence_feasible t0 d (profile_slots s) lo.1 lo.2) (load_occurrences (loads s)) ->
  length (reference_total md s) = length (profile_slots s).
Proof. intros H. by eapply length_reference_total_match, feasible_match. Qed.

(** ** Background arithmetic *)
Lemma background_reconstructs m r :
  length m = length r -> vec_add (zip_with Z.sub m r) r = m.
Proof.
  unfold vec_add. revert r. induction m as [|x m IH]; intros [|y r] H; simpl in *; try done.
  rewrite IH by lia. f_equal. lia.
Qed.

Lemma unchanged_profile m r a :
  length m = length r -> length a = length r ->
  vec_add (zip_with Z.sub m r) (vec_add r a) = vec_add m a.
Proof.
  unfold vec_add. revert r a. induction m as [|x m IH]; intros [|y r] [|z a] H1 H2; simpl in *; try done.
  rewrite IH by lia. f_equal. lia.
Qed.

Lemma background_nonneg (slots : list CanonicalProfileSlot) r :
  length r = length slots ->
  Forall (fun b => 0 <= b) (zip_with Z.sub (measured_energy_wh <$> slots) r) <->
  Forall2 (fun r p => r <= measured_energy_wh p) r slots.
Proof.
  revert r. induction slots as [|p slots IH]; intros [|x r] H; simpl in *; try done.
  rewrite Forall_cons, Forall2_cons, IH by lia. split; intros [? ?]; (split; [lia|done]).
Qed.

Lemma forM_nonneg (l : list Z) e u :
  forM_ (fun amount => raise_if (amount <? 0) e) l = Ok u <-> Forall (fun b => 0 <= b) l.
Proof.
  rewrite forM_ok. apply Forall_iff. intros b. by rewrite raise_if_ok, Z.ltb_ge.
Qed.

(** ** Guards *)
Lemma validate_identities_ok ls u :
  validate_identities ls = Ok u <->
  NoDup (load_id <$> ls) /\ NoDup (physical_asset_key <$> ls) /\
  NoDup (occurrence_id <$> (ls ≫= occurrences)).
Proof.
  unfold validate_identities. repeat setoid_rewrite bind_ok. repeat setoid_rewrite raise_if_ok.
  repeat setoid_rewrite has_dups_false. split; [naive_solver|].
  intros (?&?&?). by repeat (exists tt; split; [done|]).
Qed.

(** Checking the neighbours of any order by start decides disjointness. *)
Lemma disjoint_check_ok {K} `{PyOrd K} (key : LoadOccurrence -> K) e l u :
  (forall a b, key_le key a b -> earliest_start_utc a <= earliest_start_utc b) ->
  Forall (fun o => earliest_start_utc o < deadline_utc o) l ->
  forM_ (fun lr : LoadOccurrence * LoadOccurrence =>
           raise_if (earliest_start_utc lr.2 <? deadline_utc lr.1) e)
    (pairwise (sorted_by key l)) = Ok u <-> StronglySorted windows_disjoint l.
Proof.
  intros Hkey Hne.
  pose proof (neighbours_disjoint (sorted_by key l)) as Hnb.
  assert (StronglySorted (fun a b => earliest_start_utc a <= earliest_start_utc b)
            (sorted_by key l)) as Hsorted.
  { pose proof (sorted_by_sorted key l) as Hs. clear Hnb.
    induction Hs as [|a k Hs IH Ha]; constructor; [done|]. eapply Forall_impl; [exact Ha|]. auto. }
  specialize (Hnb Hsorted ltac:(by rewrite sorted_by_perm)).
  assert (forall x y, windows_disjoint x y -> windows_disjoint y x) as Hsym
    by (unfold windows_disjoint; tauto).
  transitivity (StronglySorted windows_disjoint (sorted_by key l)).
  - rewrite <- Hnb, forM_ok. apply Forall_iff. intros [a b]. simpl. by rewrite raise_if_ok, Z.ltb_ge.
  - split; apply StronglySorted_sym_perm; auto; [|symmetry]; apply sorted_by_perm.
Qed.

Lemma validate_disjoint_occurrences_ok l u :
  Forall (fun o => earliest_start_utc o < deadline_utc o) (occurrences l) ->
  validate_disjoint_occurrences l = Ok u <-> StronglySorted windows_disjoint (occurrences l).
Proof.
  apply disjoint_check_ok. intros a b. unfold key_le, py_leb. simpl.
  destruct (Z.compare_spec (earliest_start_utc a) (earliest_start_utc b)); [lia|lia|done].
Qed.

(** Well-formed input, as pydantic hands it over. *)
Record scenario_input_ok (s : ScenarioInput) : Prop := {
  sio_fields : scenario_fields_ok s = true;
  sio_range : profile_in_range (profile_slots s)
}.

Lemma input_slots s : scenario_input_ok s ->
  profile_slots s <> [] /\
  Forall (fun p => 0 < ps_duration_seconds p /\ 0 <= measured_energy_wh p) (profile_slots s).
Proof.
  intros [Hf _]. unfold scenario_fields_ok in Hf. bools. split; [by destruct (profile_slots s)|].
  apply Forall_forall. intros p Hp.
  assert (profile_slot_fields_ok p = true) as Hpf.
  { match goal with E : forallb profile_slot_fields_ok _ = true |- _ =>
      rewrite forallb_forall in E; apply E; by apply list_elem_of_In end. }
  unfold profile_slot_fields_ok in Hpf. bools. lia.
Qed.

Lemma input_loads s l o : scenario_input_ok s -> l ∈ loads s -> o ∈ occurrences l ->
  0 < required_energy_wh o /\ earliest_start_utc o < deadline_utc o /\
  Forall (fun r => 0 <= es_energy_wh r) (reference_schedule o).
Proof.
  intros [Hf _] Hl Ho. unfold scenario_fields_ok in Hf. bools.
  assert (load_fields_ok l = true) as Hlf.
  { match goal with E : forallb load_fields_ok _ = true |- _ =>
      rewrite forallb_forall in E; apply E; by apply list_elem_of_In end. }
  unfold load_fields_ok in Hlf. bools.
  assert (validate_occurrence_window o = true) as Hof.
  { match goal with E : forallb validate_occurrence_window _ = true |- _ =>
      rewrite forallb_forall in E; apply E; by apply list_elem_of_In end. }
  unfold validate_occurrence_window in Hof. bools. split; [done|]. split; [done|].
  apply Forall_forall. intros r Hr.
  assert (energy_slot_fields_ok r = true) as Hrf.
  { match goal with E : forallb energy_slot_fields_ok _ = true |- _ =>
      rewrite forallb_forall in E; apply E; by apply list_elem_of_In end. }
  unfold energy_slot_fields_ok in Hrf. by bools.
Qed.

Lemma grid_positive s t0 d : scenario_input_ok s -> on_grid t0 d (profile_slots s) -> 0 < d.
Proof.
  intros Hin Hg. destruct (input_slots s Hin) as [Hne Hall].
  destruct (profile_slots s) as [|p slots]; [done|].
  destruct (Hg 0%nat p eq_refl) as [_ <-]. apply Forall_cons in Hall as [? _]. tauto.
Qed.

Lemma validate_disjoint_all s u : scenario_input_ok s ->
  forM_ validate_disjoint_occurrences (loads s) = Ok u <->
  Forall (fun l => StronglySorted windows_disjoint (occurrences l)) (loads s).
Proof.
  intros Hin. rewrite forM_ok, !Forall_forall.
  assert (forall l, l ∈ loads s -> validate_disjoint_occurrences l = Ok tt <->
            StronglySorted windows_disjoint (occurrences l)) as Hiff.
  { intros l Hl. apply validate_disjoint_occurrences_ok. apply Forall_forall. intros o Ho.
    by destruct (input_loads s l o Hin Hl Ho) as (_ & ? & _). }
  split; intros Hall l Hl; apply Hiff; auto.
Qed.

(** ** The decomposition of a feasible scenario *)
Definition validated_of (s : ScenarioInput) : ValidatedScenario :=
  let slots := profile_slots s in
  let measured := measured_energy_wh <$> slots in
  let shift := reference_total SHIFT_EXISTING s in
  let addition := reference_total HISTORICAL_ADDITION s in
  {| scenario := s;
     decomposition :=
       {| fixed_background := energy_slots slots (zip_with Z.sub measured shift);
          shift_existing_reference := energy_slots slots shift;
          historical_addition_reference := energy_slots slots addition;
          reconstructed_measured_profile := energy_slots slots measured;
          unchanged_reference_profile := energy_slots slots (vec_add measured addition) |};
     reference_validation :=
       {| load_count := Z.of_nat (length (loads s));
          occurrence_count := Z.of_nat (length (load_occurrences (loads s)));
          slot_count := Z.of_nat (length slots); checked_constraint_codes := checked_codes |} |}.

(** Admission succeeds exactly on the feasible scenarios, with this result. *)
Lemma validate_scenario_ok s v : scenario_input_ok s ->
  validate_and_decompose_scenario s = Ok v <->
  (exists t0 d, reference_feasible s t0 d) /\ v = validated_of s.
Proof.
  intros Hin. destruct (input_slots s Hin) as [Hne _]. pose proof (sio_range s Hin) as Hr.
  unfold validate_and_decompose_scenario. split.
  - intros Hok. apply bind_ok in Hok as (u1 & H1 & Hok). apply bind_ok in Hok as (u2 & H2 & Hok).
    apply bind_ok in Hok as (u3 & H3 & Hok). apply bind_ok in Hok as (acc & H4 & Hok).
    apply validate_profile_ok in H1 as (_ & t0 & d & Hg); [|done].
    apply validate_identities_ok in H2 as (? & ? & ?).
    apply validate_disjoint_all in H3; [|done].
    pose proof (grid_positive _ _ _ Hin Hg) as Hd.
    apply (accumulate_ok t0 d) in H4 as [Hocc ->]; [|done..].
    simpl in Hok. rewrite <- !reference_total_vectors in Hok.
    pose proof (length_reference_total t0 d SHIFT_EXISTING s Hocc) as Hl1.
    pose proof (length_reference_total t0 d HISTORICAL_ADDITION s Hocc) as Hl2.
    rewrite background_reconstructs, unchanged_profile in Hok by (rewrite ?length_fmap; lia).
    rewrite (bool_decide_eq_true_2 _ eq_refl) in Hok. simpl in Hok.
    apply bind_ok in Hok as (u5 & H5 & Hok). apply bind_ok in Hok as (u6 & H6 & [= <-]).
    apply forM_nonneg, background_nonneg in H5; [|done].
    apply check_caps_ok in H6 as [? ?]; [|rewrite length_vec_add; rewrite ?length_fmap; lia..].
    split; [exists t0, d; by constructor|done].
  - intros [(t0 & d & Hf) ->]. destruct Hf as [Hg Ha Hb Hc Hdis Hocc Hbg Hsite Hflex].
    pose proof (grid_positive _ _ _ Hin Hg) as Hd.
    pose proof (length_reference_total t0 d SHIFT_EXISTING s Hocc) as Hl1.
    pose proof (length_reference_total t0 d HISTORICAL_ADDITION s Hocc) as Hl2.
    rewrite (proj2 (validate_profile_ok _ tt Hr)) by eauto. simpl.
    rewrite (proj2 (validate_identities_ok _ tt)) by done. simpl.
    rewrite (proj2 (validate_disjoint_all _ tt Hin)) by done. simpl.
    rewrite (proj2 (accumulate_ok t0 d _ _ _ _ Hg Hd Hne Hr)) by done. simpl.
    rewrite <- !reference_total_vectors.
    assert (length (measured_energy_wh <$> profile_slots s) = length (reference_total SHIFT_EXISTING s))
      as Hlm by (rewrite length_fmap; lia).
    rewrite background_reconstructs by exact Hlm.
    rewrite unchanged_profile by first [exact Hlm | lia].
    rewrite (proj2 (forM_nonneg _ _ tt)) by by apply background_nonneg. simpl.
    rewrite (bool_decide_eq_true_2 _ eq_refl). simpl.
    match goal with |- context [check_caps ?a ?b ?c ?d ?e ?f] =>
      assert (check_caps a b c d e f = Ok tt) as -> end; [|done].
    apply check_caps_ok; [rewrite length_vec_add; rewrite ?length_fmap; lia
                         |rewrite length_vec_add; lia|done].
Qed.

(** ** Theorems *)

(** C23: A well-formed scenario is admitted exactly when it is feasible as stated:
    the profile is an equidistant grid, identifiers are unique, the windows of
    one load are pairwise disjoint and aligned to the grid, every reference
    schedule delivers its required energy inside its window within the power
    limits or as the fixed shape, the shifted references fit under the measured
    profile, and both average-power caps hold. *)
Theorem scenario_admitted_iff s :
  scenario_input_ok s ->
  (exists v, validate_and_decompose_scenario s = Ok v) <-> (exists t0 d, reference_feasible s t0 d).
Proof.
  intros Hin. split.
  - intros [v Hv]. by apply validate_scenario_ok in Hv as [? _].
  - intros Hf. exists (validated_of s). by apply validate_scenario_ok.
Qed.

(** The energy required of the loads in mode [md]. *)
Definition required_total (md : LoadMode) (s : ScenarioInput) : Z :=
  sum_by (fun lo => required_energy_wh lo.2)
    (List.filter (fun lo => bool_decide (mode lo.1 = md)) (load_occurrences (loads s))).

Lemma energies_energy_slots slots e :
  length e = length slots -> energies (energy_slots slots e) = e.
Proof.
  unfold energies, energy_slots. revert e. induction slots as [|p slots IH]; intros [|x e] H; simpl in *;
    try done. f_equal. apply IH. lia.
Qed.

Lemma zsum_reference_total t0 d md s :
  Forall (fun lo => occurrence_feasible t0 d (profile_slots s) lo.1 lo.2) (load_occurrences (loads s)) ->
  zsum (reference_total md s) = required_total md s.
Proof.
  intros Hocc. rewrite reference_total_vectors.
  rewrite (zsum_foldl_vec_add (length (profile_slots s))), zsum_zero_vector;
    [|apply length_replicate|by eapply mode_vectors_length, feasible_match].
  rewrite Z.add_0_l. unfold mode_vectors, required_total. rewrite sum_by_fmap. apply sum_by_ext.
  intros lo Hin. apply list_elem_of_In, filter_In in Hin as [Hin _]. apply list_elem_of_In in Hin.
  rewrite Forall_forall in Hocc. by destruct (Hocc _ Hin) as (_ & i & j & _ & _ & _ & _ & ? & _).
Qed.

(** The decomposition of an admitted scenario is exact: the background is
    non-negative, background plus shifted references is the measured profile slot
    by slot, the unchanged profile is the measured one plus the additions, and the
    flexible vectors carry exactly the energy the occurrences require. *)
Theorem decomposition_exact s v :
  scenario_input_ok s -> validate_and_decompose_scenario s = Ok v ->
  let dec := decomposition v in
  let measured := measured_energy_wh <$> profile_slots s in
  let background := energies (fixed_background dec) in
  let shift := energies (shift_existing_reference dec) in
  let addition := energies (historical_addition_reference dec) in
  Forall (fun b => 0 <= b) background /\
  vec_add background shift = measured /\
  energies (reconstructed_measured_profile dec) = measured /\
  energies (unchanged_reference_profile dec) = vec_add background (vec_add shift addition) /\
  zsum shift = required_total SHIFT_EXISTING s /\
  zsum addition = required_total HISTORICAL_ADDITION s /\
  zsum (energies (unchanged_reference_profile dec))
  = zsum measured + required_total HISTORICAL_ADDITION s.
Proof.
  intros Hin Hv. apply validate_scenario_ok in Hv as [(t0 & d & Hf) ->]; [|done].
  pose proof (rf_occurrences _ _ _ Hf) as Hocc.
  pose proof (length_reference_total t0 d SHIFT_EXISTING s Hocc) as Hl1.
  pose proof (length_reference_total t0 d HISTORICAL_ADDITION s Hocc) as Hl2.
  assert (length (measured_energy_wh <$> profile_slots s) = length (profile_slots s)) as Hlm
    by apply length_fmap.
  cbv zeta. unfold validated_of.
  cbn [decomposition fixed_background shift_existing_reference historical_addition_reference
       reconstructed_measured_profile unchanged_reference_profile].
  rewrite !energies_energy_slots
    by (rewrite ?length_zip_with, ?length_vec_add; rewrite ?length_fmap; lia).
  rewrite background_reconstructs, unchanged_profile by lia.
  split; [apply background_nonneg; [done|apply Hf]|]. split; [done|]. split; [done|]. split; [done|].
  split; [by eapply zsum_reference_total|]. split; [by eapply zsum_reference_total|].
  rewrite zsum_vec_add, (zsum_reference_total t0 d) by (done || lia). done.
Qed.

(** ** Errors *)

(** The failures of scenario admission: every code but the reconstruction one. *)
Definition admission_failure (e : exn) : Prop :=
  exists code, e = ScenarioValidationError code /\ code <> "MEASURED_RECONSTRUCTION_MISMATCH".

Lemma fail_admission code :
  String.eqb code "MEASURED_RECONSTRUCTION_MISMATCH" = false -> admission_failure (fail code).
Proof. intros E. exists code. split; [done|]. by apply String.eqb_neq. Qed.
Ltac admission := first [by apply fail_admission | done].

Section Errors.
Context (slots : list CanonicalProfileSlot) (Hne : slots <> []) (Hr : profile_in_range slots).

Lemma slot_end_raises p : p ∈ slots -> raises admission_failure (slot_end p).
Proof.
  intros Hp e He. rewrite slot_end_in_range in He; [done|]. by eapply Forall_forall in Hr.
Qed.

Lemma validate_profile_raises : raises admission_failure (validate_profile slots).
Proof.
  pose proof slot_end_raises as Hse. unfold validate_profile. destruct slots as [|p l]; [done|].
  apply raises_bind; [repeat raises_step; admission|]. intros _ _.
  apply raises_forM. intros [a b] Hab. apply raises_bind; [|intros; raises_step; admission].
  apply Hse. unfold pairwise in Hab. apply elem_of_zip_l in Hab. done.
Qed.

Lemma aligned_raises o : raises admission_failure (aligned_window_indices o slots).
Proof.
  unfold aligned_window_indices. destruct (last slots) as [final|] eqn:El; [|by apply last_None in El].
  apply raises_bind; [apply slot_end_raises; by apply last_Some_elem_of|]. intros f _.
  destruct (dict_get _ _); [|raises_step; admission]. destruct (dict_get _ _); [|raises_step; admission].
  repeat raises_step; admission.
Qed.

Lemma validate_occurrence_raises l o : raises admission_failure (validate_occurrence l o slots).
Proof.
  unfold validate_occurrence. apply raises_bind; [apply aligned_raises|]. intros w _.
  apply raises_bind.
  { unfold reference_energy, slot_vector. repeat raises_step; admission. }
  intros energy _. apply raises_bind; [|intros; raises_step].
  destruct (execution_spec l) as [hi lo|shape].
  - unfold check_interruptible. apply raises_forM. intros [i [a p]] _. repeat raises_step; admission.
  - unfold validate_fixed_shape. repeat raises_step; admission.
Qed.
End Errors.

(** Scenario admission on well-formed input fails only with a
    [ScenarioValidationError], and never with the reconstruction mismatch its
    last consistency check guards against: that check always passes. *)
Theorem admission_errors s e :
  scenario_input_ok s -> validate_and_decompose_scenario s = Raise e -> admission_failure e.
Proof.
  intros Hin. destruct (input_slots s Hin) as [Hne _]. pose proof (sio_range s Hin) as Hr.
  revert e. change (raises admission_failure (validate_and_decompose_scenario s)).
  unfold validate_and_decompose_scenario.
  apply raises_bind; [by apply validate_profile_raises|]. intros u1 H1.
  apply validate_profile_ok in H1 as (_ & t0 & d & Hg); [|done].
  pose proof (grid_positive _ _ _ Hin Hg) as Hd.
  apply raises_bind; [unfold validate_identities; repeat raises_step; admission|]. intros _ _.
  apply raises_bind.
  { apply raises_forM. intros l _. apply raises_forM. intros [a b] _. raises_step; admission. }
  intros _ _. apply raises_bind.
  { apply raises_foldM. intros acc lo. apply raises_bind; [by apply validate_occurrence_raises|].
    intros. raises_step. }
  intros acc Hacc. apply (accumulate_ok t0 d) in Hacc as [Hocc ->]; [|done..]. cbn [acc_shift acc_addition acc_count].
  rewrite <- !reference_total_vectors.
  apply raises_bind; [repeat raises_step; admission|]. intros _ _.
  rewrite background_reconstructs
    by (rewrite length_fmap, (length_reference_total t0 d); done).
  rewrite (bool_decide_eq_true_2 _ eq_refl). simpl. apply raises_bind; [|intros; raises_step].
  unfold check_caps. apply raises_forM. intros [p [a b]] _. repeat raises_step; admission.
Qed.

(** ** A scenario on four hours of 1 July 2026 *)
Definition hour_slot (i : Z) : Z := (1782943200 + i * 3600) * US_PER_SECOND.
Definition profile_fixture : list CanonicalProfileSlot :=
  (fun im => {| ps_start_utc := hour_slot im.1; ps_duration_seconds := 3600; measured_energy_wh := im.2 |})
  <$> [(0, 300); (1, 300); (2, 1300); (3, 300)].
Definition reference_fixture (e : list Z) : list EnergySlot :=
  zip_with (fun i x => {| es_start_utc := hour_slot i; es_duration_seconds := 3600; es_energy_wh := x |})
    [0; 1; 2; 3] e.
Definition ev_occurrence : LoadOccurrence :=
  {| occurrence_id := 11; required_energy_wh := 1000; earliest_start_utc := hour_slot 0;
     deadline_utc := hour_slot 4; reference_schedule := reference_fixture [0; 0; 1000; 0] |}.
Definition ev_load : FlexibleLoad :=
  {| load_id := 1; physical_asset_key := "ev"; kind := KIND_EV; mode := SHIFT_EXISTING;
     execution_spec := InterruptibleModulatingSpec 2000 500; occurrences := [ev_occurrence] |}.
Definition dishwasher_load : FlexibleLoad :=
  {| load_id := 2; physical_asset_key := "dishwasher"; kind := DISHWASHER; mode := HISTORICAL_ADDITION;
     execution_spec := ContiguousFixedShapeSpec [400; 600];
     occurrences := [{| occurrence_id := 21; required_energy_wh := 1000;
                        earliest_start_utc := hour_slot 1; deadline_utc := hour_slot 4;
                        reference_schedule := reference_fixture [0; 0; 400; 600] |}] |}.
Definition scenario_with (ls : list FlexibleLoad) : ScenarioInput :=
  {| sc_profile_content_sha256 := "00"; sc_tariff_version_id := "pge-ev2a-2026-07";
     profile_slots := profile_fixture; loads := ls;
     electrical_constraints := {| site_import_cap_w := Some 3000; flexible_load_aggregate_cap_w := None |} |}.
Definition scenario_fixture : ScenarioInput := scenario_with [ev_load; dishwasher_load].

Lemma scenario_with_ok ls :
  forallb load_fields_ok ls = true -> ls <> [] -> scenario_input_ok (scenario_with ls).
Proof.
  intros Hl Hne. split.
  - unfold scenario_fields_ok. simpl. rewrite Hl. destruct ls; [done|]. reflexivity.
  - repeat constructor; vm_compute; discriminate.
Defined.

Lemma scenario_fixture_ok : scenario_input_ok scenario_fixture.
Proof. apply scenario_with_ok; [vm_compute; reflexivity|discriminate]. Defined.

Lemma scenario_admitted_iff_witness : exists t0 d, reference_feasible scenario_fixture t0 d.
Proof.
  apply (scenario_admitted_iff scenario_fixture scenario_fixture_ok).
  destruct (validate_and_decompose_scenario scenario_fixture) as [v|] eqn:E; [by exists v|].
  vm_compute in E. discriminate E.
Defined.

Lemma decomposition_exact_witness :
  exists v, validate_and_decompose_scenario scenario_fixture = Ok v /\
    energies (fixed_background (decomposition v)) = [300; 300; 300; 300] /\
    vec_add (energies (fixed_background (decomposition v)))
      (energies (shift_existing_reference (decomposition v))) = [300; 300; 1300; 300].
Proof.
  destruct (validate_and_decompose_scenario scenario_fixture) as [v|] eqn:E.
  - exists v. split; [reflexivity|].
    destruct (decomposition_exact _ _ scenario_fixture_ok E) as (_ & H & _). split; [|exact H].
    vm_compute in E. injection E as <-. reflexivity.
  - vm_compute in E. discriminate E.
Defined.

(** Two loads for one physical asset. *)
Lemma admission_errors_witness :
  exists e, validate_and_decompose_scenario (scenario_with [ev_load; ev_load]) = Raise e /\
    admission_failure e.
Proof.
  destruct (validate_and_decompose_scenario (scenario_with [ev_load; ev_load])) as [v|e] eqn:E.
  - vm_compute in E. discriminate E.
  - exists e. split; [reflexivity|]. eapply admission_errors; [|exact E].
    apply scenario_with_ok; [vm_compute; reflexivity|discriminate].
Defined.
