(* ===== verification/Verification.v ===== *)
(** * Verification: the independent schedule verifier (optimizer/verification.py)

    [verify_candidate_schedule] checks a candidate schedule against the scenario
    alone, recomputes its bill with the reference evaluator and its objective
    tuple from scratch; [select_strict_improvement] prefers a verified incumbent
    only when its tuple is strictly smaller than the reference's. *)

From S2P Require Import Prelude Calendar Json Schema Compiled Eligibility DayEnergy Replay.
From S2P Require Import OptimizerModels Scenario.

(** ** Models *)
Record OccurrenceSchedule := { os_occurrence_id : uuid; os_slots : list ScheduleSlot }.
Record CandidateSchedule := { cs_occurrences : list OccurrenceSchedule }.

Record ObjectiveTuple := {
  supported_cost_cents : Z;
  changed_occurrence_slot_count : Z;
  completion_slot_index_sum : Z;
  stable_slot_order_score : Z
}.
Definition ordered_values (o : ObjectiveTuple) : Z * (Z * (Z * Z)) :=
  (supported_cost_cents o,
   (changed_occurrence_slot_count o, (completion_slot_index_sum o, stable_slot_order_score o))).

Record VerificationRecord := {
  objective : ObjectiveTuple;
  candidate_profile : list CandidateProfileSlot;
  billing_result_sha256 : string;
  vr_checked_constraint_codes : list string;
  verification_sha256 : string
}.
Record VerifiedSchedule := {
  schedule : CandidateSchedule; record : VerificationRecord; billing_result : ReplayResult
}.

Inductive SelectedSource := SOLVER_INCUMBENT | REFERENCE.
Inductive SelectionReason :=
| INCUMBENT_STRICTLY_BETTER | REFERENCE_EQUAL_OR_BETTER | NO_VERIFIED_INCUMBENT.
Record SelectionDecision := {
  selected : VerifiedSchedule;
  incumbent : option VerifiedSchedule;
  reference : VerifiedSchedule;
  selected_source : SelectedSource;
  reason : SelectionReason
}.

Definition candidate_fields_ok (c : CandidateSchedule) : bool :=
  forallb (fun o => forallb energy_slot_fields_ok (os_slots o)) (cs_occurrences c).

(** ** JSON images *)
Definition hex_pad (digits : nat) (n : Z) : string :=
  foldl (fun acc i => acc +:+ hex_digit (Z.to_N ((n / 16 ^ (Z.of_nat digits - 1 - Z.of_nat i)) mod 16)))
    EmptyString (seq 0 digits).
Definition uuid_str (u : uuid) : string :=
  hex_pad 8 (u / 2 ^ 96) +:+ "-" +:+ hex_pad 4 (u / 2 ^ 80) +:+ "-" +:+ hex_pad 4 (u / 2 ^ 64)
  +:+ "-" +:+ hex_pad 4 (u / 2 ^ 48) +:+ "-" +:+ hex_pad 12 u.

(** A UTC [datetime] as pydantic serialises it. *)
Definition datetime_str (t : Z) : string :=
  let seconds := (t mod US_PER_DAY) / US_PER_SECOND in
  let micros := t mod US_PER_SECOND in
  isoformat (t / US_PER_DAY) +:+ "T" +:+ pad2 (seconds / 3600) +:+ ":" +:+ pad2 (seconds / 60 mod 60)
  +:+ ":" +:+ pad2 (seconds mod 60)
  +:+ (if micros =? 0 then EmptyString
       else "." +:+ pad2 (micros / 10000) +:+ pad2 (micros / 100 mod 100) +:+ pad2 (micros mod 100))
  +:+ "Z".
Definition EnergySlot_dump (s : EnergySlot) : json :=
  JObj [("slot_start_utc", JStr (datetime_str (es_start_utc s)));
        ("duration_seconds", JInt (es_duration_seconds s)); ("energy_wh", JInt (es_energy_wh s))].
Definition CandidateSchedule_dump (c : CandidateSchedule) : json :=
  JObj [("schedule_version", JStr "candidate-schedule-v1");
        ("occurrences", JList ((fun o =>
           JObj [("occurrence_id", JStr (uuid_str (os_occurrence_id o)));
                 ("slots", JList (EnergySlot_dump <$> os_slots o))]) <$> cs_occurrences c))].
Definition ObjectiveTuple_dump (o : ObjectiveTuple) : json :=
  JObj [("supported_cost_cents", JInt (supported_cost_cents o));
        ("changed_occurrence_slot_count", JInt (changed_occurrence_slot_count o));
        ("completion_slot_index_sum", JInt (completion_slot_index_sum o));
        ("stable_slot_order_score", JInt (stable_slot_order_score o))].

(** ** Checks *)
Definition vfail (code : string) : exn := ScheduleVerificationError code.

Definition occurrence_order (lo : FlexibleLoad * LoadOccurrence) : Z * (Z * (Z * Z)) :=
  (deadline_utc lo.2, (earliest_start_utc lo.2, (load_id lo.1, occurrence_id lo.2))).
Definition canonical_occurrences (s : ScenarioInput) : list (FlexibleLoad * LoadOccurrence) :=
  sorted_by occurrence_order (load_occurrences (loads s)).

(** One round of the boundary loop: the dictionary and the previous slot. *)
Definition boundary_step (resolution : Z) (st : dict Z Z * option CanonicalProfileSlot)
    (item : Z * CanonicalProfileSlot) : result (dict Z Z * option CanonicalProfileSlot) :=
  let '(index, slot) := item in
  _ ← raise_if (negb (ps_duration_seconds slot =? resolution) || (3600 <? ps_duration_seconds slot))
        (vfail "VERIFIER_PROFILE_INVALID");
  _ ← raise_if (negb (ps_start_utc slot mod US_PER_SECOND =? 0)) (vfail "VERIFIER_PROFILE_INVALID");
  let d := dict_set (ps_start_utc slot) index st.1 in
  _ ← match st.2 with
      | None => Ok tt
      | Some previous =>
          expected ← slot_end previous;
          raise_if (negb (ps_start_utc slot =? expected)) (vfail "VERIFIER_PROFILE_INVALID")
      end;
  Ok (d, Some slot).

Definition profile_boundaries (slots : list CanonicalProfileSlot) : result (dict Z Z) :=
  match slots, last slots with
  | first :: _, Some final =>
      out ← foldM (boundary_step (ps_duration_seconds first)) ([], None) (enumerate slots);
      final_end ← slot_end final;
      Ok (dict_set final_end (Z.of_nat (length slots)) out.1)
  | _, _ => Raise (vfail "VERIFIER_PROFILE_INVALID")
  end.

Definition schedule_map (c : CandidateSchedule) (expected_ids : list uuid)
    : result (dict uuid OccurrenceSchedule) :=
  values ← foldM (fun values o =>
             _ ← raise_if (mem (os_occurrence_id o) values.*1) (vfail "VERIFIER_DUPLICATE_OCCURRENCE");
             Ok (dict_set (os_occurrence_id o) o values)) [] (cs_occurrences c);
  _ ← raise_if (negb (same_set values.*1 expected_ids)) (vfail "VERIFIER_OCCURRENCE_SET_MISMATCH");
  Ok values.

Definition energy_vector (o : OccurrenceSchedule) (slots : list CanonicalProfileSlot) : result (list Z) :=
  slot_vector (vfail "VERIFIER_SLOT_VECTOR_MISMATCH") (os_slots o) slots.
Definition reference_vector (o : LoadOccurrence) (slots : list CanonicalProfileSlot) : result (list Z) :=
  slot_vector (vfail "VERIFIER_REFERENCE_INVALID") (reference_schedule o) slots.

Definition window_indices (o : LoadOccurrence) (b : dict Z Z) : result (Z * Z) :=
  match dict_get (earliest_start_utc o) b, dict_get (deadline_utc o) b with
  | Some w_start, Some w_end =>
      _ ← raise_if (w_end <=? w_start) (vfail "VERIFIER_OCCURRENCE_OUTSIDE_PROFILE");
      Ok (w_start, w_end)
  | _, _ => Raise (vfail "VERIFIER_NON_ALIGNED_OCCURRENCE_BOUNDARY")
  end.

(** [if x in seen: fail; seen.add(x)]. *)
Definition add_fresh {K} `{EqDecision K} (e : exn) (seen : list K) (x : K) : result (list K) :=
  _ ← raise_if (mem x seen) e;
  Ok (x :: seen).

Record SeenIds := { seen_loads : list uuid; seen_assets : list string; seen_occurrences : list uuid }.

Definition verify_load_windows (seen : SeenIds) (l : FlexibleLoad) : result SeenIds :=
  let invalid := vfail "VERIFIER_ASSET_IDENTITY_INVALID" in
  _ ← raise_if (mem (load_id l) (seen_loads seen) || mem (physical_asset_key l) (seen_assets seen)) invalid;
  ids ← foldM (fun ids o => add_fresh invalid ids (occurrence_id o)) (seen_occurrences seen) (occurrences l);
  _ ← forM_ (fun lr : LoadOccurrence * LoadOccurrence =>
               raise_if (earliest_start_utc lr.2 <? deadline_utc lr.1)
                 (vfail "VERIFIER_OVERLAPPING_OCCURRENCES"))
        (pairwise (sorted_by earliest_start_utc (occurrences l)));
  Ok {| seen_loads := load_id l :: seen_loads seen;
        seen_assets := physical_asset_key l :: seen_assets seen; seen_occurrences := ids |}.

Definition verify_disjoint_windows (s : ScenarioInput) : result unit :=
  _ ← foldM verify_load_windows {| seen_loads := []; seen_assets := []; seen_occurrences := [] |} (loads s);
  Ok tt.

Definition verify_execution (l : FlexibleLoad) (o : LoadOccurrence) (energy : list Z)
    (slots : list CanonicalProfileSlot) (w_start w_end : Z) : result unit :=
  _ ← raise_if (negb (zsum energy =? required_energy_wh o)) (vfail "VERIFIER_ENERGY_CONSERVATION_FAILED");
  match execution_spec l with
  | InterruptibleModulatingSpec hi lo =>
      check_interruptible (vfail "VERIFIER_WINDOW_VIOLATION") (vfail "VERIFIER_MAXIMUM_POWER_VIOLATION")
        (vfail "VERIFIER_MINIMUM_POWER_VIOLATION") hi lo energy slots w_start w_end
  | ContiguousFixedShapeSpec shape =>
      _ ← raise_if (negb (zsum shape =? required_energy_wh o)) (vfail "VERIFIER_FIXED_SHAPE_ENERGY_MISMATCH");
      raise_if (bool_decide (matched_start shape energy w_start w_end = None))
        (vfail "VERIFIER_CONTIGUITY_VIOLATION")
  end.

Definition reference_step (slots : list CanonicalProfileSlot) (st : list Z * dict uuid (list Z))
    (lo : FlexibleLoad * LoadOccurrence) : result (list Z * dict uuid (list Z)) :=
  ref ← reference_vector lo.2 slots;
  Ok (if bool_decide (mode lo.1 = SHIFT_EXISTING) then vec_add st.1 ref else st.1,
      dict_set (occurrence_id lo.2) ref st.2).

Definition background_and_reference (s : ScenarioInput) : result (list Z * dict uuid (list Z)) :=
  let slots := profile_slots s in
  st ← foldM (reference_step slots) (zeros (length slots), []) (canonical_occurrences s);
  let measured := measured_energy_wh <$> slots in
  let background := zip_with Z.sub measured st.1 in
  _ ← raise_if (existsb (fun amount => amount <? 0) background) (vfail "VERIFIER_DECOMPOSITION_FAILED");
  _ ← raise_if (negb (bool_decide (vec_add background st.1 = measured)))
        (vfail "VERIFIER_DECOMPOSITION_FAILED");
  Ok (background, st.2).

(** ** Objective *)
Definition last_positive (candidate : list Z) : option Z :=
  last ((fun ia => ia.1 + 1) <$> List.filter (fun ia : Z * Z => 0 <? ia.2) (enumerate candidate)).

Record ObjectiveState := { ob_changed : Z; ob_completion : Z; ob_stable : Z; ob_position : Z }.

Definition stable_step (acc : Z * Z) (amount : Z) : Z * Z :=
  let position := acc.1 + 1 in (position, acc.2 + amount * position).

Definition count_changes (candidate ref : list Z) : Z :=
  Z.of_nat (length (List.filter (fun lr : Z * Z => negb (lr.1 =? lr.2)) (zip candidate ref))).

Definition objective_step (candidate_by_id references : dict uuid (list Z)) (st : ObjectiveState)
    (lo : FlexibleLoad * LoadOccurrence) : result ObjectiveState :=
  match dict_get (occurrence_id lo.2) candidate_by_id, dict_get (occurrence_id lo.2) references with
  | Some candidate, Some ref =>
      match last_positive candidate with
      | None => Raise (vfail "VERIFIER_ENERGY_CONSERVATION_FAILED")
      | Some slot =>
          let '(position, stable) := foldl stable_step (ob_position st, ob_stable st) candidate in
          Ok {| ob_changed := ob_changed st + count_changes candidate ref;
                ob_completion := ob_completion st + slot; ob_stable := stable; ob_position := position |}
      end
  | _, _ => Raise (PyError "KeyError")
  end.

Definition compute_objective (s : ScenarioInput) (candidate_by_id references : dict uuid (list Z))
    (cost : Z) : result ObjectiveTuple :=
  st ← foldM (objective_step candidate_by_id references)
         {| ob_changed := 0; ob_completion := 0; ob_stable := 0; ob_position := 0 |}
         (canonical_occurrences s);
  Ok {| supported_cost_cents := cost; changed_occurrence_slot_count := ob_changed st;
        completion_slot_index_sum := ob_completion st; stable_slot_order_score := ob_stable st |}.

Definition candidate_from_reference (s : ScenarioInput) : CandidateSchedule :=
  {| cs_occurrences := (fun lo => {| os_occurrence_id := occurrence_id lo.2;
                                     os_slots := reference_schedule lo.2 |}) <$> canonical_occurrences s |}.

(** ** The verifier *)
Section Verify.
Context `{ZoneInfo} `{Sha256}.

(** [timegm(t.utctimetuple()) * 1_000_000_000 + t.microsecond * 1_000]. *)
Definition utc_ns (t : Z) : Z :=
  (t / US_PER_SECOND) * 1000000000 + (t mod US_PER_SECOND) * 1000.

Definition bill_request (s : ScenarioInput) (profile : list Z) (facts : AccountFacts)
    (dated : option DatedEligibilityFacts) : AnyReplayRequest :=
  IntervalReplayRequest
    {| profile_content_sha256 := sc_profile_content_sha256 s; account_facts := facts;
       energy_wh := zsum profile; current_bill_total_cents := None; user_unsupported_lines := [] |}
    (zip_with (fun slot e => {| start_utc_ns := utc_ns (ps_start_utc slot);
                                duration_seconds := ps_duration_seconds slot;
                                interval_energy_wh := e |}) (profile_slots s) profile) dated.

Definition recompute_bill (s : ScenarioInput) (profile : list Z) (bundle : CompilationBundle)
    (facts : AccountFacts) (dated : option DatedEligibilityFacts) : result ReplayResult :=
  _ ← raise_if (negb (String.eqb (sc_tariff_version_id s) (ir_tariff_version_id (ir bundle))))
        (vfail "VERIFIER_TARIFF_VERSION_MISMATCH");
  let request := bill_request s profile facts dated in
  _ ← raise_if (negb (request_valid request)) (ValidationError "IntervalReplayRequest");
  replay_compiled_tariff bundle request None.

Record CandidateState := {
  candidate_by_id : dict uuid (list Z);
  flexible : list Z;
  canonical_schedules : list OccurrenceSchedule
}.

(** The body of [for load, occurrence in canonical_occurrences]. *)
Definition candidate_step (slots : list CanonicalProfileSlot) (b : dict Z Z)
    (submitted : dict uuid OccurrenceSchedule) (st : CandidateState)
    (lo : FlexibleLoad * LoadOccurrence) : result CandidateState :=
  match dict_get (occurrence_id lo.2) submitted with
  | None => Raise (PyError "KeyError")
  | Some os =>
      energy ← energy_vector os slots;
      window ← window_indices lo.2 b;
      _ ← verify_execution lo.1 lo.2 energy slots window.1 window.2;
      Ok {| candidate_by_id := dict_set (occurrence_id lo.2) energy (candidate_by_id st);
            flexible := vec_add (flexible st) energy;
            canonical_schedules := canonical_schedules st ++ [os] |}
  end.

Definition verifier_codes : list string :=
  ["VERIFIER_DECOMPOSITION_FAILED"; "VERIFIER_ENERGY_CONSERVATION_FAILED"; "VERIFIER_WINDOW_VIOLATION";
   "VERIFIER_MAXIMUM_POWER_VIOLATION"; "VERIFIER_MINIMUM_POWER_VIOLATION"; "VERIFIER_CONTIGUITY_VIOLATION";
   "VERIFIER_SITE_IMPORT_CAP_VIOLATION"; "VERIFIER_FLEXIBLE_LOAD_CAP_VIOLATION"; "VERIFIER_COST_MISMATCH"].

Definition verification_payload (c : CandidateSchedule) (o : ObjectiveTuple) (profile : list EnergySlot)
    (bill_sha : string) : json :=
  JObj [("schedule", CandidateSchedule_dump c); ("objective", ObjectiveTuple_dump o);
        ("candidate_profile", JList (EnergySlot_dump <$> profile));
        ("billing_result_sha256", JStr bill_sha);
        ("checked_constraint_codes", jstr_list (fun s => s) verifier_codes)].

(** The physical checks: background, references and the candidate's vectors. *)
Definition check_candidate (s : ScenarioInput) (c : CandidateSchedule)
    : result (list Z * dict uuid (list Z) * CandidateState) :=
  let slots := profile_slots s in
  b ← profile_boundaries slots;
  _ ← verify_disjoint_windows s;
  let canonical := canonical_occurrences s in
  submitted ← schedule_map c (occurrence_id ∘ snd <$> canonical);
  background_references ← background_and_reference s;
  let '(background, references) := background_references in
  st ← foldM (candidate_step slots b submitted)
         {| candidate_by_id := []; flexible := zeros (length slots); canonical_schedules := [] |} canonical;
  let profile := vec_add background (flexible st) in
  _ ← check_caps (vfail "VERIFIER_SITE_IMPORT_CAP_VIOLATION") (vfail "VERIFIER_FLEXIBLE_LOAD_CAP_VIOLATION")
        (electrical_constraints s) slots profile (flexible st);
  Ok (profile, references, st).

Definition verify_candidate_schedule (s : ScenarioInput) (c : CandidateSchedule)
    (bundle : CompilationBundle) (facts : AccountFacts) (dated : option DatedEligibilityFacts)
    (claimed : option Z) : result VerifiedSchedule :=
  checked ← check_candidate s c;
  let '(profile, references, st) := checked in
  billing ← recompute_bill s profile bundle facts dated;
  _ ← raise_if (match claimed with
                | Some cents => negb (cents =? supported_calculated_cents billing)
                | None => false
                end) (vfail "VERIFIER_COST_MISMATCH");
  obj ← compute_objective s (candidate_by_id st) references (supported_calculated_cents billing);
  let profile_slots_ := energy_slots (profile_slots s) profile in
  let canonical_candidate := {| cs_occurrences := canonical_schedules st |} in
  Ok {| schedule := canonical_candidate;
        record := {| objective := obj; candidate_profile := profile_slots_;
                     billing_result_sha256 := result_sha256 billing;
                     vr_checked_constraint_codes := verifier_codes;
                     verification_sha256 :=
                       canonical_content_sha256 "RateReplay.IndependentScheduleVerification.v1"
                         (verification_payload canonical_candidate obj profile_slots_
                            (result_sha256 billing)) |};
        billing_result := billing |}.
End Verify.

(** ** Selection *)
Definition select_strict_improvement (inc : option VerifiedSchedule) (ref : VerifiedSchedule)
    : SelectionDecision :=
  match inc with
  | None => {| selected := ref; incumbent := None; reference := ref; selected_source := REFERENCE;
               reason := NO_VERIFIED_INCUMBENT |}
  | Some i =>
      if py_ltb (ordered_values (objective (record i))) (ordered_values (objective (record ref)))
      then {| selected := i; incumbent := Some i; reference := ref; selected_source := SOLVER_INCUMBENT;
              reason := INCUMBENT_STRICTLY_BETTER |}
      else {| selected := ref; incumbent := Some i; reference := ref; selected_source := REFERENCE;
              reason := REFERENCE_EQUAL_OR_BETTER |}
  end.
