(* ===== verification/VerificationProofs.v ===== *)
(** * VerificationProofs: the verifier accepts exactly the feasible schedules

    Each check of the independent verifier is characterised by the declarative
    condition it decides; together they give acceptance as an equivalence, the
    faithfulness of the verified record, that an admitted scenario's own
    reference passes, and that selection never worsens the reference. *)

From S2P Require Import Prelude Calendar Json Schema Compiled Fixtures Eligibility DayEnergy Replay.
From S2P Require Import OptimizerModels Scenario ScenarioProofs Verification.

(** ** Vector sums do not depend on the order *)
Lemma vec_add_comm a b : vec_add a b = vec_add b a.
Proof.
  unfold vec_add. revert b. induction a as [|x a IH]; intros [|y b]; simpl; try done.
  rewrite IH. f_equal. lia.
Qed.
Lemma vec_add_assoc a b c : vec_add (vec_add a b) c = vec_add a (vec_add b c).
Proof.
  unfold vec_add. revert b c. induction a as [|x a IH]; intros [|y b] [|z c]; simpl; try done.
  rewrite IH. f_equal. lia.
Qed.

#[export] Instance foldl_vec_add_proper a : Proper ((≡ₚ) ==> (=)) (foldl vec_add a).
Proof.
  intros l k Hp. revert a. induction Hp as [|x l k _ IH|x y l|l1 l2 l3 _ IH1 _ IH2]; intros a; simpl.
  - done.
  - apply IH.
  - by rewrite !vec_add_assoc, (vec_add_comm x y).
  - by rewrite IH1.
Qed.

Lemma canonical_perm s : canonical_occurrences s ≡ₚ load_occurrences (loads s).
Proof. apply sorted_by_perm. Qed.

Lemma filter_perm {A} (p : A -> bool) l k : l ≡ₚ k -> List.filter p l ≡ₚ List.filter p k.
Proof.
  induction 1 as [|x l k _ IH|x y l|l1 l2 l3 _ IH1 _ IH2]; simpl; [done| | |by etrans].
  - destruct (p x); [by constructor|done].
  - destruct (p x), (p y); try done. constructor.
Qed.

Lemma mode_vectors_perm md l k : l ≡ₚ k -> mode_vectors md l ≡ₚ mode_vectors md k.
Proof. intros H. unfold mode_vectors. by rewrite (filter_perm _ _ _ H). Qed.

(** ** The profile *)

(** Slots the verifier supports: at most an hour, on whole UTC seconds. *)
Definition slot_supported (p : CanonicalProfileSlot) : Prop :=
  ps_duration_seconds p <= 3600 /\ ps_start_utc p mod US_PER_SECOND = 0.

Lemma boundary_step_ok res d prev k p out :
  (forall q, prev = Some q ->
     instant_min <= ps_start_utc q + ps_duration_seconds q * US_PER_SECOND <= instant_max) ->
  boundary_step res (d, prev) (k, p) = Ok out <->
  ps_duration_seconds p = res /\ slot_supported p /\
  (forall q, prev = Some q -> ps_start_utc p = ps_start_utc q + ps_duration_seconds q * US_PER_SECOND) /\
  out = (dict_set (ps_start_utc p) k d, Some p).
Proof.
  intros Hq. unfold boundary_step, slot_supported. split.
  - intros Hok. apply bind_ok in Hok as (u1 & H1 & Hok). apply bind_ok in Hok as (u2 & H2 & Hok).
    apply bind_ok in Hok as (u3 & H3 & [= <-]). inv_ok. bools. split; [done|]. split; [done|].
    split; [|done]. intros q ->. simpl in H3. rewrite (slot_end_in_range q) in H3 by by apply Hq.
    simpl in H3. inv_ok. by bools.
  - intros (<- & [Hd Hw] & Hp & ->). rewrite Z.eqb_refl. simpl.
    destruct (Z.ltb_spec 3600 (ps_duration_seconds p)); [lia|]. simpl. rewrite Hw. simpl.
    destruct prev as [q|]; [|done]. rewrite (slot_end_in_range q) by by apply Hq. simpl.
    rewrite (Hp q eq_refl), Z.eqb_refl. done.
Qed.

Lemma boundary_fold_ok res slots prev d k out :
  profile_in_range (prev :: slots) -> ps_duration_seconds prev = res ->
  foldM (boundary_step res) (d, Some prev) (enumerate_from k slots) = Ok out <->
  on_grid (ps_start_utc prev + res * US_PER_SECOND) res slots /\ Forall slot_supported slots /\
  out = (foldl (fun d item => dict_set (ps_start_utc item.2) item.1 d) d (enumerate_from k slots),
         default (Some prev) (Some <$> last slots)).
Proof.
  revert prev d k. induction slots as [|p slots IH]; intros prev d k Hr Hres.
  - simpl. split.
    + intros [= <-]. split; [|by split]. intros i q Hq. by rewrite lookup_nil in Hq.
    + by intros (_ & _ & ->).
  - apply Forall_cons in Hr as [Hprev Hr]. cbn [enumerate_from foldM foldl fst snd].
    rewrite bind_ok, on_grid_cons, Forall_cons.
    assert (forall st, boundary_step res (d, Some prev) (k, p) = Ok st <-> _) as Hstep
      by (intros; apply boundary_step_ok; by intros q [= <-]).
    assert (default (Some p) (Some <$> last slots) = default (Some prev) (Some <$> last (p :: slots)))
      as Hlast by (rewrite last_cons; by destruct (last slots)).
    split.
    + intros (st & Hst & Hrest). apply Hstep in Hst as (Hd & Hsup & Hp & ->).
      apply IH in Hrest as (Hg & Hs & ->); [|done|done]. rewrite Hlast.
      specialize (Hp prev eq_refl). rewrite Hres in Hp. rewrite Hp in Hg. done.
    + intros ((Hp & Hd & Hg) & [Hsup Hs] & ->). eexists. split.
      * apply Hstep. split; [done|]. split; [done|]. split; [|done].
        intros q [= <-]. by rewrite Hres.
      * apply IH; [done|done|]. rewrite Hlast, Hp. done.
Qed.

Lemma profile_boundaries_ok slots b :
  profile_in_range slots ->
  profile_boundaries slots = Ok b <->
  slots <> [] /\ exists t0 d, on_grid t0 d slots /\ Forall slot_supported slots /\
    b = boundaries slots (t0 + Z.of_nat (length slots) * (d * US_PER_SECOND)).
Proof.
  intros Hr. unfold profile_boundaries. destruct slots as [|p slots]; [split; [done|by intros []]|].
  destruct (last (p :: slots)) as [final|] eqn:El; [|by apply last_None in El].
  assert (slot_end final = Ok (ps_start_utc final + ps_duration_seconds final * US_PER_SECOND)) as Hfin.
  { apply slot_end_in_range. eapply Forall_forall in Hr; [exact Hr|by apply last_Some_elem_of]. }
  assert (Hstep : forall st, boundary_step (ps_duration_seconds p) ([], None) (0, p) = Ok st <->
    slot_supported p /\ st = ([(ps_start_utc p, 0)], Some p)).
  { intros st. rewrite boundary_step_ok by done. naive_solver. }
  cbn [enumerate_from foldM]. rewrite Hfin.
  pose proof (boundary_fold_ok (ps_duration_seconds p) slots p [(ps_start_utc p, 0)] (0 + 1)) as Hfold.
  split.
  - intros Hok. apply bind_ok in Hok as (out & Hf & [= <-]). split; [done|].
    apply bind_ok in Hf as (st & Hst & Hf). apply Hstep in Hst as [Hsup ->].
    apply Hfold in Hf as (Hg & Hs & ->); [|done|done].
    assert (on_grid (ps_start_utc p) (ps_duration_seconds p) (p :: slots)) as Hgrid
      by by apply on_grid_cons.
    exists (ps_start_utc p), (ps_duration_seconds p). split; [done|]. split; [by constructor|].
    by rewrite <- (grid_final _ _ _ _ Hgrid El).
  - intros (_ & t0 & d & Hgrid & [Hsup Hs]%Forall_cons & ->).
    rewrite <- (grid_final _ _ _ _ Hgrid El).
    pose proof Hgrid as Hg. apply on_grid_cons in Hg as (<- & <- & Hg).
    rewrite (proj2 (Hstep _) (conj Hsup eq_refl)). simpl mbind.
    erewrite (proj2 (Hfold _ Hr eq_refl)) by done. done.
Qed.

(** ** Identities and windows *)
Lemma add_fresh_fold {A K} `{EqDecision K} (f : A -> K) e seen l out :
  foldM (fun ids x => add_fresh e ids (f x)) seen l = Ok out <->
  NoDup (f <$> l) /\ (forall x, x ∈ f <$> l -> x ∉ seen) /\ out = rev (f <$> l) ++ seen.
Proof.
  revert seen. induction l as [|x l IH]; intros seen; simpl.
  - split; [|by intros (_ & _ & ->)]. intros [= <-]. split; [constructor|]. split; [set_solver|done].
  - rewrite bind_ok. unfold add_fresh at 1. setoid_rewrite bind_ok.
    repeat setoid_rewrite raise_if_ok. setoid_rewrite mem_false. rewrite NoDup_cons. split.
    + intros (ids & (? & Hx & [= <-]) & Hrest). apply IH in Hrest as (Hnd & Hf & ->).
      split; [split; [|done]|]. { intros Hin. apply (Hf _ Hin). set_solver. }
      split; [set_solver|]. by rewrite <- app_assoc.
    + intros ([Hx Hnd] & Hf & ->). exists (f x :: seen). split.
      * exists tt. split; [apply Hf; set_solver|done].
      * apply IH. split; [done|]. split; [set_solver|]. by rewrite <- app_assoc.
Qed.

Lemma verify_load_windows_ok seen l out :
  Forall (fun o => earliest_start_utc o < deadline_utc o) (occurrences l) ->
  verify_load_windows seen l = Ok out <->
  (load_id l ∉ seen_loads seen) /\ (physical_asset_key l ∉ seen_assets seen) /\
  NoDup (occurrence_id <$> occurrences l) /\
  (forall x, x ∈ occurrence_id <$> occurrences l -> x ∉ seen_occurrences seen) /\
  StronglySorted windows_disjoint (occurrences l) /\
  out = {| seen_loads := load_id l :: seen_loads seen;
           seen_assets := physical_asset_key l :: seen_assets seen;
           seen_occurrences := rev (occurrence_id <$> occurrences l) ++ seen_occurrences seen |}.
Proof.
  intros Hne. unfold verify_load_windows.
  assert (forall e u, forM_ (fun lr : LoadOccurrence * LoadOccurrence =>
            raise_if (earliest_start_utc lr.2 <? deadline_utc lr.1) e)
            (pairwise (sorted_by earliest_start_utc (occurrences l))) = Ok u <->
          StronglySorted windows_disjoint (occurrences l)) as Hdis.
  { intros e u. apply disjoint_check_ok; [|done]. intros a b. unfold key_le. rewrite py_leb_Z. apply Z.leb_le. }
  split.
  - intros Hok. apply bind_ok in Hok as (u1 & H1 & Hok). apply bind_ok in Hok as (ids & H2 & Hok).
    apply bind_ok in Hok as (u3 & H3 & [= <-]). inv_ok. bools.
    apply (add_fresh_fold occurrence_id) in H2 as (Hnd & Hf & ->). apply Hdis in H3. done.
  - intros (Hl & Ha & Hnd & Hf & Hs & ->).
    rewrite (proj2 (mem_false _ _) Hl), (proj2 (mem_false _ _) Ha). simpl.
    rewrite (proj2 (add_fresh_fold occurrence_id _ _ _ _)) by (split; [done|]; split; [exact Hf|reflexivity]).
    simpl. by rewrite (proj2 (Hdis _ tt) Hs).
Qed.

Lemma verify_loads_ok seen ls :
  Forall (fun l => Forall (fun o => earliest_start_utc o < deadline_utc o) (occurrences l)) ls ->
  (exists out, foldM verify_load_windows seen ls = Ok out) <->
  (NoDup (load_id <$> ls) /\ forall x, x ∈ load_id <$> ls -> x ∉ seen_loads seen) /\
  (NoDup (physical_asset_key <$> ls) /\
   forall x, x ∈ physical_asset_key <$> ls -> x ∉ seen_assets seen) /\
  (NoDup (occurrence_id <$> (ls ≫= occurrences)) /\
   forall x, x ∈ occurrence_id <$> (ls ≫= occurrences) -> x ∉ seen_occurrences seen) /\
  Forall (fun l => StronglySorted windows_disjoint (occurrences l)) ls.
Proof.
  intros Hne. revert seen. induction Hne as [|l ls Hl _ IH]; intros seen.
  - simpl. split; [|by eexists]. intros _. repeat split; try constructor; set_solver.
  - change ((l :: ls) ≫= occurrences) with (occurrences l ++ (ls ≫= occurrences)).
    rewrite fmap_app, NoDup_app, !fmap_cons, !NoDup_cons, Forall_cons.
    assert ((exists out, foldM verify_load_windows seen (l :: ls) = Ok out) <->
            exists st, verify_load_windows seen l = Ok st /\
                       exists out, foldM verify_load_windows st ls = Ok out) as ->.
    { simpl. split.
      - intros [out Hout]. apply bind_ok in Hout as (st & ? & ?). eauto.
      - intros (st & Hst & out & Hout). exists out. apply bind_ok. eauto. }
    setoid_rewrite IH. setoid_rewrite verify_load_windows_ok; [|done]. split.
    + intros (st & (Hld & Hak & Hnd & Hf & Hs & ->) & (Hn1 & Hf1) & (Hn2 & Hf2) & (Hn3 & Hf3) & Hall).
      simpl in Hf1, Hf2, Hf3. split; [|split; [|split; [|done]]].
      * split; [split; [intros Hin; apply (Hf1 _ Hin); left|done]|].
        intros x [->|Hx]%elem_of_cons; [done|]. intros Hin. apply (Hf1 x Hx). by right.
      * split; [split; [intros Hin; apply (Hf2 _ Hin); left|done]|].
        intros x [->|Hx]%elem_of_cons; [done|]. intros Hin. apply (Hf2 x Hx). by right.
      * split; [split; [done|split; [|done]]|].
        { intros x Hx Hx'. apply (Hf3 x Hx'). apply elem_of_app. left. by apply list_elem_of_In, in_rev, list_elem_of_In in Hx. }
        intros x [Hx|Hx]%elem_of_app; [by apply Hf|]. intros Hin. apply (Hf3 x Hx). apply elem_of_app. by right.
    + intros (([Hld Hn1] & Hf1) & ([Hak Hn2] & Hf2) & ((Hn3 & Hdj & Hn4) & Hf3) & Hs & Hall).
      eexists. split.
      * split; [apply Hf1; left|]. split; [apply Hf2; left|]. split; [done|].
        split; [intros x Hx; apply Hf3, elem_of_app; by left|]. split; [done|reflexivity].
      * simpl. split; [|split; [|split; [|done]]].
        { split; [done|]. intros x Hx [->|Hin]%elem_of_cons; [done|].
          apply (Hf1 x); [by right|done]. }
        { split; [done|]. intros x Hx [->|Hin]%elem_of_cons; [done|].
          apply (Hf2 x); [by right|done]. }
        split; [done|]. intros x Hx [Hin|Hin]%elem_of_app.
        { apply list_elem_of_In, in_rev, list_elem_of_In in Hin. by apply (Hdj x). }
        apply (Hf3 x); [apply elem_of_app; by right|done].
Qed.

Lemma verify_disjoint_windows_ok s u : scenario_input_ok s ->
  verify_disjoint_windows s = Ok u <->
  NoDup (load_id <$> loads s) /\ NoDup (physical_asset_key <$> loads s) /\
  NoDup (occurrence_id <$> (loads s ≫= occurrences)) /\
  Forall (fun l => StronglySorted windows_disjoint (occurrences l)) (loads s).
Proof.
  intros Hin. unfold verify_disjoint_windows. set (start := {| seen_loads := [] |}).
  transitivity (exists out, foldM verify_load_windows start (loads s) = Ok out).
  { destruct u. rewrite bind_ok. naive_solver. }
  rewrite verify_loads_ok.
  - subst start. simpl. split.
    + by intros ((? & _) & (? & _) & (? & _) & ?).
    + intros (? & ? & ? & ?). repeat (split; [split; [done|intros ? _; by apply not_elem_of_nil]|]). done.
  - apply Forall_forall. intros l Hl. apply Forall_forall. intros o Ho.
    by destruct (input_loads s l o Hin Hl Ho) as (_ & ? & _).
Qed.

(** ** The submitted schedules *)
Definition by_occurrence (os : list OccurrenceSchedule) : dict uuid OccurrenceSchedule :=
  (fun o => (os_occurrence_id o, o)) <$> os.

Lemma by_occurrence_keys os : (by_occurrence os).*1 = os_occurrence_id <$> os.
Proof. unfold by_occurrence. by rewrite <- list_fmap_compose. Qed.

Lemma schedule_fold_ok e values os out :
  foldM (fun values o => _ ← raise_if (mem (os_occurrence_id o) values.*1) e;
                         Ok (dict_set (os_occurrence_id o) o values)) values os = Ok out <->
  NoDup (os_occurrence_id <$> os) /\ (forall x, x ∈ os_occurrence_id <$> os -> x ∉ values.*1) /\
  out = values ++ by_occurrence os.
Proof.
  revert values. induction os as [|o os IH]; intros values.
  - simpl. rewrite app_nil_r. split; [|by intros (_ & _ & ->)]. intros [= <-].
    split; [constructor|]. split; [intros ? []%not_elem_of_nil|done].
  - cbn [foldM]. rewrite fmap_cons, NoDup_cons, bind_ok.
    assert (forall x, (os_occurrence_id o ∉ values.*1) ->
      x ∈ (dict_set (os_occurrence_id o) o values).*1 <-> x ∈ values.*1 \/ x = os_occurrence_id o) as Hkeys.
    { intros x Hn. rewrite dict_set_keys_new, elem_of_app, list_elem_of_singleton by done. done. }
    assert ((os_occurrence_id o ∉ values.*1) ->
      dict_set (os_occurrence_id o) o values = values ++ [(os_occurrence_id o, o)]) as Hset.
    { clear. induction values as [|[k v] values IH]; [done|]. simpl. intros Hn.
      rewrite not_elem_of_cons in Hn. rewrite decide_False by tauto. f_equal. apply IH. tauto. }
    split.
    + intros (st & Hst & Hrest). inv_ok. bools. subst st. apply IH in Hrest as (Hnd & Hf & ->).
      match goal with E : os_occurrence_id o ∉ _ |- _ => rename E into Hn end. split; [split; [|done]|].
      { intros Hin. apply (Hf _ Hin). apply Hkeys; [done|]. by right. }
      split; [|by rewrite Hset, <- app_assoc].
      intros x [->|Hx]%elem_of_cons; [done|]. intros Hin. apply (Hf x Hx). apply Hkeys; [done|]. by left.
    + intros ([Ho Hnd] & Hf & ->). assert (os_occurrence_id o ∉ values.*1) as Hn by (apply Hf; left).
      rewrite (proj2 (mem_false _ _) Hn). simpl. eexists. split; [done|]. apply IH. split; [done|].
      split; [|by rewrite Hset, <- app_assoc].
      intros x Hx Hin. apply Hkeys in Hin as [Hin| ->]; [|done|done]. apply (Hf x); [by right|done].
Qed.

Lemma schedule_map_ok c ids m :
  schedule_map c ids = Ok m <->
  NoDup (os_occurrence_id <$> cs_occurrences c) /\
  (forall x, x ∈ os_occurrence_id <$> cs_occurrences c <-> x ∈ ids) /\
  m = by_occurrence (cs_occurrences c).
Proof.
  unfold schedule_map. rewrite bind_ok. setoid_rewrite schedule_fold_ok. split.
  - intros (values & (Hnd & _ & ->) & Hok). inv_ok. bools. subst m. simpl in *.
    match goal with E : same_set _ _ = true |- _ => rewrite same_set_true in E;
      setoid_rewrite by_occurrence_keys in E end. done.
  - intros (Hnd & Hset & ->). eexists. split.
    { split; [done|]. split; [|done]. intros ? _. apply not_elem_of_nil. }
    simpl. rewrite (proj2 (same_set_true _ ids)); [done|]. by setoid_rewrite by_occurrence_keys.
Qed.

(** ** Background and references *)
Definition reference_dict (los : list (FlexibleLoad * LoadOccurrence)) : dict uuid (list Z) :=
  (fun lo => (occurrence_id lo.2, energies (reference_schedule lo.2))) <$> los.

Definition background_of (s : ScenarioInput) : list Z :=
  zip_with Z.sub (measured_energy_wh <$> profile_slots s) (reference_total SHIFT_EXISTING s).

Lemma reference_fold_ok slots st los out :
  foldM (reference_step slots) st los = Ok out <->
  Forall (fun lo => slots_match (reference_schedule lo.2) slots) los /\
  out = (foldl vec_add st.1 (mode_vectors SHIFT_EXISTING los),
         foldl (fun d lo => dict_set (occurrence_id lo.2) (energies (reference_schedule lo.2)) d) st.2 los).
Proof.
  revert st. induction los as [|[l o] los IH]; intros [sh refs].
  - simpl. split; [intros [= <-]; by split|]. by intros [_ ->].
  - cbn [foldM foldl]. rewrite Forall_cons, bind_ok, mode_vectors_cons. unfold reference_step at 1, reference_vector.
    setoid_rewrite bind_ok. setoid_rewrite slot_vector_ok. split.
    + intros (st & (e & [Hm ->] & [= <-]) & Hrest). apply IH in Hrest as [Hall ->]. split; [done|].
      simpl. by destruct (mode l).
    + intros [[Hm Hall] ->]. eexists. split; [eexists; split; [split; [exact Hm|reflexivity]|reflexivity]|].
      apply IH. split; [done|]. simpl. by destruct (mode l).
Qed.

Lemma existsb_negative l : existsb (fun amount => amount <? 0) l = false <-> Forall (fun b => 0 <= b) l.
Proof.
  induction l as [|x l IH]; simpl; [by split|].
  rewrite orb_false_iff, Z.ltb_ge, IH, Forall_cons. done.
Qed.

Lemma load_occurrences_snd ls : (load_occurrences ls).*2 = ls ≫= occurrences.
Proof.
  unfold load_occurrences. induction ls as [|l ls IH]; [done|].
  change ((l :: ls) ≫= occurrences) with (occurrences l ++ (ls ≫= occurrences)).
  rewrite <- IH. simpl. rewrite fmap_app. f_equal.
  rewrite <- list_fmap_compose. induction (occurrences l) as [|o os IHo]; [done|]. simpl. by f_equal.
Qed.

Definition lo_id (lo : FlexibleLoad * LoadOccurrence) : uuid := occurrence_id lo.2.

Lemma lo_id_snd los : lo_id <$> los = occurrence_id <$> los.*2.
Proof. by rewrite <- list_fmap_compose. Qed.

Lemma canonical_ids_NoDup s :
  NoDup (occurrence_id <$> (loads s ≫= occurrences)) -> NoDup (lo_id <$> canonical_occurrences s).
Proof. by rewrite canonical_perm, lo_id_snd, load_occurrences_snd. Qed.

Lemma background_and_reference_ok s out :
  NoDup (occurrence_id <$> (loads s ≫= occurrences)) ->
  background_and_reference s = Ok out <->
  Forall (fun lo => slots_match (reference_schedule lo.2) (profile_slots s)) (load_occurrences (loads s)) /\
  Forall2 (fun r p => r <= measured_energy_wh p) (reference_total SHIFT_EXISTING s) (profile_slots s) /\
  out = (background_of s, reference_dict (canonical_occurrences s)).
Proof.
  intros Hids. unfold background_and_reference. rewrite bind_ok.
  setoid_rewrite reference_fold_ok. cbn [fst snd].
  assert (foldl vec_add (zeros (length (profile_slots s)))
            (mode_vectors SHIFT_EXISTING (canonical_occurrences s)) = reference_total SHIFT_EXISTING s) as ->
    by by rewrite (mode_vectors_perm SHIFT_EXISTING _ _ (canonical_perm s)).
  assert (foldl (fun d lo => dict_set (occurrence_id lo.2) (energies (reference_schedule lo.2)) d) []
            (canonical_occurrences s) = reference_dict (canonical_occurrences s)) as ->.
  { apply (dict_build lo_id (fun lo => energies (reference_schedule lo.2))). simpl.
    by apply canonical_ids_NoDup. }
  split.
  - intros (st & [Hm ->] & Hok). cbn [fst snd] in Hok. rewrite canonical_perm in Hm.
    pose proof (length_reference_total_match SHIFT_EXISTING s Hm) as Hl.
    inv_ok. apply existsb_negative, background_nonneg in H; [|done]. done.
  - intros (Hm & Hbg & ->). eexists. split; [split; [by rewrite canonical_perm|reflexivity]|]. cbn [fst snd].
    pose proof (length_reference_total_match SHIFT_EXISTING s Hm) as Hl.
    rewrite (proj2 (existsb_negative _)) by by apply background_nonneg. simpl.
    rewrite background_reconstructs by (rewrite length_fmap; lia).
    by rewrite (bool_decide_eq_true_2 _ eq_refl).
Qed.

(** ** The candidate's vectors *)
Section Candidate.
Context (t0 d : Z) (slots : list CanonicalProfileSlot) (Hgrid : on_grid t0 d slots) (Hd : 0 < d).
Notation b := (boundaries slots (t0 + Z.of_nat (length slots) * (d * US_PER_SECOND))).

Lemma window_indices_ok o i j :
  window_indices o b = Ok (i, j) <->
  0 <= i < j /\ j <= Z.of_nat (length slots) /\
  earliest_start_utc o = t0 + i * (d * US_PER_SECOND) /\
  deadline_utc o = t0 + j * (d * US_PER_SECOND).
Proof.
  unfold window_indices.
  assert (forall t k, dict_get t b = Some k <-> _) as Hget by (intros; by apply boundaries_get).
  split.
  - destruct (dict_get (earliest_start_utc o) b) as [i'|] eqn:Ei; [|done].
    destruct (dict_get (deadline_utc o) b) as [j'|] eqn:Ej; [|done].
    intros Hok. inv_ok. bools. simplify_eq. apply Hget in Ei as [? ?], Ej as [? ?]. split; [lia|]. tauto.
  - intros (H1 & H2 & H3 & H4). rewrite (proj2 (Hget _ i)), (proj2 (Hget _ j)) by (split; [lia|done]).
    by destruct (Z.leb_spec j i); [lia|].
Qed.

Lemma verify_execution_ok l o energy i j u :
  length energy = length slots ->
  verify_execution l o energy slots i j = Ok u <->
  execution_ok (execution_spec l) (required_energy_wh o) energy slots i j.
Proof.
  intros Hlen. unfold verify_execution, execution_ok.
  assert (forall v (k : unit -> result unit),
    raise_if (negb (v =? required_energy_wh o)) (vfail "VERIFIER_ENERGY_CONSERVATION_FAILED") ≫= k = Ok u
    <-> v = required_energy_wh o /\ k tt = Ok u) as Hsum.
  { intros v k. destruct (Z.eqb_spec v (required_energy_wh o)); simpl; naive_solver. }
  rewrite Hsum. apply and_iff_compat_l. destruct (execution_spec l) as [hi lo|shape].
  - by apply check_interruptible_ok.
  - rewrite <- matched_start_ok, <- not_eq_None_Some.
    destruct (Z.eqb_spec (zsum shape) (required_energy_wh o)); simpl; [|naive_solver].
    rewrite raise_if_ok, bool_decide_eq_false. naive_solver.
Qed.

(** One submitted schedule for one occurrence. *)
Definition candidate_for (submitted : dict uuid OccurrenceSchedule) (lo : FlexibleLoad * LoadOccurrence)
    (os : OccurrenceSchedule) : Prop :=
  dict_get (lo_id lo) submitted = Some os /\ executes t0 d slots lo.1 lo.2 (os_slots os).

Lemma candidate_step_ok submitted st lo out :
  candidate_step slots b submitted st lo = Ok out <->
  exists os, candidate_for submitted lo os /\
    out = {| candidate_by_id := dict_set (lo_id lo) (energies (os_slots os)) (candidate_by_id st);
             flexible := vec_add (flexible st) (energies (os_slots os));
             canonical_schedules := canonical_schedules st ++ [os] |}.
Proof.
  unfold candidate_step, candidate_for, executes, energy_vector. fold (lo_id lo).
  destruct (dict_get (lo_id lo) submitted) as [os|]; [|split; [done|by intros (? & [? _] & _)]].
  assert (slots_match (os_slots os) slots -> length (energies (os_slots os)) = length slots) as Hlen.
  { intros Hm. unfold energies. rewrite length_fmap. by eapply Forall2_length. }
  split.
  - intros Hok. apply bind_ok in Hok as (e & He & Hok). apply slot_vector_ok in He as [Hm ->].
    apply bind_ok in Hok as ([i j] & Hw & Hok). apply bind_ok in Hok as (u & Hx & [= <-]).
    apply window_indices_ok in Hw as (? & ? & ? & ?). apply verify_execution_ok in Hx; [|by apply Hlen].
    exists os. split; [|done]. split; [done|]. split; [done|]. exists i, j. done.
  - intros (os' & ([= <-] & Hm & i & j & H1 & H2 & H3 & H4 & Hx) & ->).
    rewrite (proj2 (slot_vector_ok _ _ _ (energies (os_slots os)))) by done. simpl mbind.
    rewrite (proj2 (window_indices_ok _ i j)) by done. simpl.
    rewrite (proj2 (verify_execution_ok _ _ _ _ _ tt (Hlen Hm)) Hx). done.
Qed.

Lemma candidate_fold_ok submitted st los out :
  foldM (candidate_step slots b submitted) st los = Ok out <->
  exists oss, Forall2 (candidate_for submitted) los oss /\
    out = {| candidate_by_id := foldl (fun d p => dict_set (lo_id p.1) (energies (os_slots p.2)) d)
                                  (candidate_by_id st) (zip los oss);
             flexible := foldl vec_add (flexible st) ((fun os => energies (os_slots os)) <$> oss);
             canonical_schedules := canonical_schedules st ++ oss |}.
Proof.
  revert st. induction los as [|lo los IH]; intros st.
  - simpl. split.
    + intros [= <-]. exists []. split; [constructor|]. rewrite app_nil_r. by destruct st.
    + intros (oss & Hf & ->). inversion Hf. simpl. rewrite app_nil_r. by destruct st.
  - cbn [foldM]. rewrite bind_ok. setoid_rewrite candidate_step_ok. setoid_rewrite IH. split.
    + intros (st1 & (os & Hos & ->) & oss & Hf & ->). exists (os :: oss).
      split; [by constructor|]. simpl. by rewrite <- app_assoc.
    + intros (oss & Hf & ->). inversion Hf as [|? os ? oss' Hos Hrest]; subst. eexists. split.
      { exists os. split; [exact Hos|reflexivity]. }
      exists oss'. split; [done|]. simpl. by rewrite <- app_assoc.
Qed.
End Candidate.

(** ** The specification *)
Definition flexible_total (s : ScenarioInput) (c : CandidateSchedule) : list Z :=
  foldl vec_add (zeros (length (profile_slots s))) ((fun os => energies (os_slots os)) <$> cs_occurrences c).

Definition candidate_profile_of (s : ScenarioInput) (c : CandidateSchedule) : list Z :=
  vec_add (background_of s) (flexible_total s c).

Record schedule_feasible (s : ScenarioInput) (c : CandidateSchedule) (t0 d : Z) : Prop := {
  sf_grid : on_grid t0 d (profile_slots s);
  sf_supported : Forall slot_supported (profile_slots s);
  sf_load_ids : NoDup (load_id <$> loads s);
  sf_assets : NoDup (physical_asset_key <$> loads s);
  sf_occurrence_ids : NoDup (occurrence_id <$> (loads s ≫= occurrences));
  sf_disjoint : Forall (fun l => StronglySorted windows_disjoint (occurrences l)) (loads s);
  sf_references : Forall (fun lo => slots_match (reference_schedule lo.2) (profile_slots s))
                    (load_occurrences (loads s));
  sf_background : Forall2 (fun r p => r <= measured_energy_wh p)
                    (reference_total SHIFT_EXISTING s) (profile_slots s);
  sf_ids : os_occurrence_id <$> cs_occurrences c ≡ₚ lo_id <$> load_occurrences (loads s);
  sf_execution lo os : lo ∈ load_occurrences (loads s) -> os ∈ cs_occurrences c ->
    os_occurrence_id os = lo_id lo -> executes t0 d (profile_slots s) lo.1 lo.2 (os_slots os);
  sf_site_cap : within_cap (site_import_cap_w (electrical_constraints s))
                  (candidate_profile_of s c) (profile_slots s);
  sf_flexible_cap : within_cap (flexible_load_aggregate_cap_w (electrical_constraints s))
                      (flexible_total s c) (profile_slots s)
}.

Lemma by_occurrence_get cs id os :
  NoDup (os_occurrence_id <$> cs) ->
  dict_get id (by_occurrence cs) = Some os <-> os ∈ cs /\ os_occurrence_id os = id.
Proof.
  intros Hnd. split.
  - intros Hg%dict_get_elem. apply list_elem_of_fmap in Hg as (o & [= -> ->] & Hin). done.
  - intros [Hin <-]. apply dict_elem_get; [by rewrite by_occurrence_keys|].
    apply list_elem_of_fmap. by exists os.
Qed.

Lemma Forall_ex_Forall2 {A B} (R : A -> B -> Prop) l :
  Forall (fun x => exists y, R x y) l -> exists k, Forall2 R l k.
Proof.
  induction 1 as [|x l [y Hy] _ [k Hk]]; [by exists []|]. exists (y :: k). by constructor.
Qed.

(** The schedules of the occurrences in canonical order are the submitted ones. *)
Lemma canonical_schedules_perm (los : list (FlexibleLoad * LoadOccurrence)) cs oss :
  NoDup (os_occurrence_id <$> cs) -> os_occurrence_id <$> cs ≡ₚ lo_id <$> los ->
  Forall2 (fun lo os => dict_get (lo_id lo) (by_occurrence cs) = Some os) los oss -> oss ≡ₚ cs.
Proof.
  intros Hnd Hids Hf.
  assert (os_occurrence_id <$> oss = lo_id <$> los) as Heq.
  { clear Hids. induction Hf as [|lo os los oss Hos _ IH]; [done|].
    apply by_occurrence_get in Hos as [_ Hid]; [|done]. by rewrite !fmap_cons, Hid, IH. }
  assert (NoDup (os_occurrence_id <$> oss)) as Hnd' by by rewrite Heq, <- Hids.
  apply list.NoDup_Permutation; [exact (NoDup_fmap_1 _ _ Hnd')|exact (NoDup_fmap_1 _ _ Hnd)|].
  assert (forall x, x ∈ oss -> x ∈ cs) as Hsub.
  { intros x Hx. apply list_elem_of_lookup in Hx as [i Hi].
    destruct (Forall2_lookup_r _ _ _ _ _ Hf Hi) as (lo & _ & Hos).
    by apply by_occurrence_get in Hos as [? _]. }
  intros x. split; [apply Hsub|]. intros Hx.
  assert (os_occurrence_id x ∈ os_occurrence_id <$> oss) as Hid.
  { rewrite Heq, <- Hids. apply list_elem_of_fmap. eauto. }
  apply list_elem_of_fmap in Hid as (y & Hy & Hin). pose proof (Hsub _ Hin) as Hyc.
  assert (Some x = Some y) as [= ->]; [|done].
  rewrite <- (proj2 (by_occurrence_get cs (os_occurrence_id x) x Hnd)) by done.
  by apply by_occurrence_get.
Qed.

Lemma length_flexible_total s c :
  Forall (fun os => slots_match (os_slots os) (profile_slots s)) (cs_occurrences c) ->
  length (flexible_total s c) = length (profile_slots s).
Proof.
  intros Hm. apply length_foldl_vec_add; [apply length_replicate|]. apply Forall_fmap.
  eapply Forall_impl; [exact Hm|]. intros os Hos. simpl. unfold energies. rewrite length_fmap.
  exact (Forall2_length _ _ _ Hos).
Qed.

Lemma length_background s :
  Forall (fun lo => slots_match (reference_schedule lo.2) (profile_slots s)) (load_occurrences (loads s)) ->
  length (background_of s) = length (profile_slots s).
Proof.
  intros Hm. unfold background_of.
  rewrite length_zip_with, length_fmap, (length_reference_total_match _ _ Hm). lia.
Qed.

(** What the physical checks hand on to billing: the profile, the references, and
    the schedules [oss] in canonical order. *)
Definition checked_state (s : ScenarioInput) (c : CandidateSchedule) (oss : list OccurrenceSchedule)
    : list Z * dict uuid (list Z) * CandidateState :=
  (candidate_profile_of s c, reference_dict (canonical_occurrences s),
   {| candidate_by_id := (fun p : (FlexibleLoad * LoadOccurrence) * OccurrenceSchedule =>
                            (lo_id p.1, energies (os_slots p.2))) <$> zip (canonical_occurrences s) oss;
      flexible := flexible_total s c; canonical_schedules := oss |}).

Definition canonical_for (t0 d : Z) (s : ScenarioInput) (c : CandidateSchedule)
    (oss : list OccurrenceSchedule) : Prop :=
  Forall2 (candidate_for t0 d (profile_slots s) (by_occurrence (cs_occurrences c)))
    (canonical_occurrences s) oss.

Section Checked.
Context (s : ScenarioInput) (c : CandidateSchedule) (Hin : scenario_input_ok s).

Lemma canonical_for_matches t0 d los submitted oss :
  Forall2 (candidate_for t0 d (profile_slots s) submitted) los oss ->
  Forall (fun os => slots_match (os_slots os) (profile_slots s)) oss.
Proof. induction 1 as [|lo os los oss [_ [Hm _]] _ IH]; constructor; done. Qed.

Lemma ids_of_set :
  NoDup (os_occurrence_id <$> cs_occurrences c) ->
  NoDup (occurrence_id <$> (loads s ≫= occurrences)) ->
  (forall x, x ∈ os_occurrence_id <$> cs_occurrences c <-> x ∈ lo_id <$> canonical_occurrences s) <->
  os_occurrence_id <$> cs_occurrences c ≡ₚ lo_id <$> load_occurrences (loads s).
Proof.
  intros H1 H2. setoid_rewrite canonical_perm. split.
  - intros Heq. apply list.NoDup_Permutation; [done| |done]. by rewrite lo_id_snd, load_occurrences_snd.
  - intros Hp x. by rewrite Hp.
Qed.

Lemma flexible_of_perm oss :
  oss ≡ₚ cs_occurrences c ->
  foldl vec_add (zeros (length (profile_slots s))) ((fun os => energies (os_slots os)) <$> oss)
  = flexible_total s c.
Proof. intros Hp. unfold flexible_total. by rewrite Hp. Qed.

Lemma by_id_of_zip t0 d oss :
  NoDup (occurrence_id <$> (loads s ≫= occurrences)) -> canonical_for t0 d s c oss ->
  foldl (fun d p => dict_set (lo_id p.1) (energies (os_slots p.2)) d) []
    (zip (canonical_occurrences s) oss)
  = (fun p => (lo_id p.1, energies (os_slots p.2))) <$> zip (canonical_occurrences s) oss.
Proof.
  intros Hnd Hf.
  apply (dict_build (fun p => lo_id p.1) (fun p : _ * OccurrenceSchedule => energies (os_slots p.2))). simpl.
  assert ((fun p : (FlexibleLoad * LoadOccurrence) * OccurrenceSchedule => lo_id p.1)
            <$> zip (canonical_occurrences s) oss = lo_id <$> canonical_occurrences s) as ->.
  { rewrite <- (fst_zip (canonical_occurrences s) oss) at 2
      by (apply Forall2_length in Hf; lia).
    by rewrite <- list_fmap_compose. }
  by apply canonical_ids_NoDup.
Qed.

Lemma check_candidate_sound r :
  check_candidate s c = Ok r ->
  exists t0 d oss, schedule_feasible s c t0 d /\ canonical_for t0 d s c oss /\
    oss ≡ₚ cs_occurrences c /\ r = checked_state s c oss.
Proof.
  unfold check_candidate. intros Hok.
  apply bind_ok in Hok as (b & Hb & Hok). apply bind_ok in Hok as (u & Hdis & Hok).
  apply bind_ok in Hok as (sub & Hsub & Hok). apply bind_ok in Hok as ([bg refs] & Hbr & Hok).
  apply bind_ok in Hok as (st & Hst & Hok). apply bind_ok in Hok as (u' & Hcaps & [= <-]).
  apply profile_boundaries_ok in Hb as (_ & t0 & d & Hg & Hsup & ->); [|apply Hin].
  apply verify_disjoint_windows_ok in Hdis as (Hli & Ha & Ho & Hdj); [|done].
  pose proof (grid_positive _ _ _ Hin Hg) as Hd.
  apply background_and_reference_ok in Hbr as (Hrm & Hbg & [= -> ->]); [|done].
  apply schedule_map_ok in Hsub as (Hnd & Hset & ->).
  apply (ids_of_set Hnd Ho) in Hset as Hids.
  apply (candidate_fold_ok t0 d) in Hst as (oss & Hf & ->); [|done|done]. cbn [candidate_by_id flexible canonical_schedules] in *.
  assert (oss ≡ₚ cs_occurrences c) as Hp.
  { apply (canonical_schedules_perm (canonical_occurrences s)); [done|by rewrite canonical_perm|].
    eapply Forall2_impl; [exact Hf|]. by intros lo os [? _]. }
  assert (Forall (fun os => slots_match (os_slots os) (profile_slots s)) (cs_occurrences c)) as Hm
    by (rewrite <- Hp; by eapply canonical_for_matches).
  rewrite (flexible_of_perm _ Hp) in *.
  apply check_caps_ok in Hcaps as [Hsite Hflex];
    [|rewrite length_vec_add; rewrite (length_background s Hrm), ?(length_flexible_total s c Hm); done
     |by apply length_flexible_total].
  exists t0, d, oss. split; [|split; [done|split; [done|]]].
  - split; try done. intros lo os Hlo Hos Hid.
    rewrite <- canonical_perm in Hlo. apply list_elem_of_lookup in Hlo as [i Hi].
    destruct (Forall2_lookup_l _ _ _ _ _ Hf Hi) as (os' & _ & Hget & Hx).
    rewrite (proj2 (by_occurrence_get _ _ os Hnd)) in Hget by done. by injection Hget as <-.
  - unfold checked_state. by rewrite (by_id_of_zip t0 d).
Qed.

Lemma check_candidate_complete t0 d :
  schedule_feasible s c t0 d -> exists oss, canonical_for t0 d s c oss /\
    oss ≡ₚ cs_occurrences c /\ check_candidate s c = Ok (checked_state s c oss).
Proof.
  intros [Hg Hsup Hli Ha Ho Hdj Hrm Hbg Hids Hex Hsite Hflex].
  pose proof (grid_positive _ _ _ Hin Hg) as Hd. destruct (input_slots s Hin) as [Hne _].
  assert (NoDup (os_occurrence_id <$> cs_occurrences c)) as Hnd.
  { rewrite Hids, lo_id_snd, load_occurrences_snd. done. }
  assert (exists oss, canonical_for t0 d s c oss) as [oss Hf].
  { apply Forall_ex_Forall2, Forall_forall. intros lo Hlo. rewrite canonical_perm in Hlo.
    assert (lo_id lo ∈ os_occurrence_id <$> cs_occurrences c) as Hx.
    { rewrite Hids. apply list_elem_of_fmap. eauto. }
    apply list_elem_of_fmap in Hx as (os & Hid & Hos). exists os.
    split; [by apply by_occurrence_get|]. by apply Hex. }
  assert (oss ≡ₚ cs_occurrences c) as Hp.
  { apply (canonical_schedules_perm (canonical_occurrences s)); [done|by rewrite canonical_perm|].
    eapply Forall2_impl; [exact Hf|]. by intros lo os [? _]. }
  assert (Forall (fun os => slots_match (os_slots os) (profile_slots s)) (cs_occurrences c)) as Hm
    by (rewrite <- Hp; by eapply canonical_for_matches).
  exists oss. split; [done|]. split; [done|]. unfold check_candidate.
  rewrite (proj2 (profile_boundaries_ok _ _ (sio_range s Hin))) by (split; [done|]; by exists t0, d). simpl mbind.
  rewrite (proj2 (verify_disjoint_windows_ok s tt Hin)) by done. simpl mbind.
  rewrite (proj2 (schedule_map_ok _ _ _))
    by (split; [done|]; split; [by apply (ids_of_set Hnd Ho)|reflexivity]). simpl mbind.
  rewrite (proj2 (background_and_reference_ok s _ Ho)) by done. simpl mbind. cbv beta iota.
  rewrite (proj2 (candidate_fold_ok t0 d _ Hg Hd _ _ _ _)) by (exists oss; split; [exact Hf|reflexivity]).
  simpl mbind. cbn [candidate_by_id flexible canonical_schedules].
  rewrite (flexible_of_perm _ Hp), (by_id_of_zip t0 d) by done.
  match goal with |- context [check_caps ?a ?b ?c ?d ?e ?f] =>
    assert (check_caps a b c d e f = Ok tt) as -> end; [|done].
  apply check_caps_ok; [rewrite length_vec_add; rewrite (length_background s Hrm), ?(length_flexible_total s c Hm); done
                       |by apply length_flexible_total|done].
Qed.
End Checked.

(** ** The objective *)
Lemma last_positive_total e : 0 < zsum e -> is_Some (last_positive e).
Proof.
  intros Hpos. unfold last_positive. apply not_eq_None_Some. rewrite last_None.
  intros Hnil. apply fmap_nil_inv in Hnil.
  assert (Forall (fun x => x <= 0) e) as Hall.
  { apply Forall_lookup. intros i x Hi. destruct (Z.le_gt_cases x 0) as [|Hx]; [done|]. exfalso.
    assert ((Z.of_nat i, x) ∈ List.filter (fun ia : Z * Z => 0 <? ia.2) (enumerate e)) as Hel.
    { apply list_elem_of_In, filter_In. split; [|by apply Z.ltb_lt].
      apply list_elem_of_In, elem_of_enumerate. by exists i. }
    rewrite Hnil in Hel. by apply not_elem_of_nil in Hel. }
  assert (zsum e <= 0); [|lia]. clear -Hall. induction Hall; simpl; lia.
Qed.

Lemma count_changes_zero a b : length a = length b -> count_changes a b = 0 <-> a = b.
Proof.
  unfold count_changes. revert b. induction a as [|x a IH]; intros [|y b] Hl; simpl in *; try done.
  specialize (IH b ltac:(lia)). destruct (Z.eqb_spec x y) as [->|Hne]; simpl.
  - rewrite IH. split; [by intros ->|by intros [= ->]].
  - split; [lia|]. by intros [= -> _].
Qed.

Lemma count_changes_nonneg a b : 0 <= count_changes a b.
Proof. unfold count_changes. lia. Qed.

(** The candidate and reference vectors of one occurrence. *)
Definition occurrence_changes (p : (FlexibleLoad * LoadOccurrence) * OccurrenceSchedule) : Z :=
  count_changes (energies (os_slots p.2)) (energies (reference_schedule p.1.2)).
Definition occurrence_completion (p : (FlexibleLoad * LoadOccurrence) * OccurrenceSchedule) : Z :=
  default 0 (last_positive (energies (os_slots p.2))).

Lemma objective_fold by_id refs los oss st :
  Forall2 (fun lo os => dict_get (lo_id lo) by_id = Some (energies (os_slots os)) /\
             dict_get (lo_id lo) refs = Some (energies (reference_schedule lo.2)) /\
             0 < zsum (energies (os_slots os))) los oss ->
  exists out, foldM (objective_step by_id refs) st los = Ok out /\
    ob_changed out = ob_changed st + sum_by occurrence_changes (zip los oss) /\
    ob_completion out = ob_completion st + sum_by occurrence_completion (zip los oss) /\
    (ob_position out, ob_stable out)
    = foldl stable_step (ob_position st, ob_stable st) (concat ((fun os => energies (os_slots os)) <$> oss)).
Proof.
  intros Hf. revert st. induction Hf as [|lo os los oss (Hc & Hr & Hpos) _ IH]; intros st.
  - exists st. simpl. rewrite !sum_by_nil. split; [done|]. split; [lia|]. split; [lia|done].
  - destruct (last_positive_total _ Hpos) as [slot Hslot].
    destruct (foldl stable_step (ob_position st, ob_stable st) (energies (os_slots os))) as [pos stable] eqn:Es.
    set (st1 := {| ob_changed := ob_changed st + count_changes (energies (os_slots os))
                                   (energies (reference_schedule lo.2));
                   ob_completion := ob_completion st + slot; ob_stable := stable; ob_position := pos |}).
    assert (objective_step by_id refs st lo = Ok st1) as Hstep.
    { unfold objective_step. unfold lo_id in Hc, Hr. by rewrite Hc, Hr, Hslot, Es. }
    destruct (IH st1) as (out & Ho & Hch & Hco & Hst). exists out.
    cbn [foldM zip zip_with]. rewrite Hstep. split; [exact Ho|].
    rewrite !sum_by_cons, Hch, Hco, Hst. subst st1. cbn [ob_changed ob_completion ob_position ob_stable].
    unfold occurrence_changes at 2, occurrence_completion at 2. cbn [fst snd]. rewrite Hslot. simpl default.
    split; [lia|]. split; [lia|]. rewrite fmap_cons. cbn [concat]. by rewrite foldl_app, Es.
Qed.

Lemma stable_score pos acc l :
  foldl stable_step (pos, acc) l
  = (pos + Z.of_nat (length l), acc + sum_by (fun ia : Z * Z => ia.2 * (ia.1 + 1)) (enumerate_from pos l)).
Proof.
  revert pos acc. induction l as [|x l IH]; intros pos acc.
  - simpl. rewrite sum_by_nil. f_equal; lia.
  - cbn [foldl enumerate_from]. unfold stable_step at 2. cbn [fst snd]. rewrite IH, sum_by_cons.
    cbn [fst snd length]. f_equal; lia.
Qed.

Lemma elem_of_load_occurrences ls l o :
  (l, o) ∈ load_occurrences ls <-> l ∈ ls /\ o ∈ occurrences l.
Proof.
  unfold load_occurrences. rewrite list_elem_of_bind. split.
  - intros (l' & Hin & Hl). apply list_elem_of_fmap in Hin as (o' & [= -> ->] & Ho). done.
  - intros [Hl Ho]. exists l. split; [|done]. apply list_elem_of_fmap. by exists o.
Qed.

Lemma Forall2_zip_elem {A B} (R : A -> B -> Prop) l k x y :
  Forall2 R l k -> (x, y) ∈ zip l k -> R x y.
Proof.
  induction 1 as [|a b l k Hab _ IH]; simpl; [by intros ?%not_elem_of_nil|].
  intros [[= -> ->]|Hin]%elem_of_cons; auto.
Qed.

Section Objective.
Context (s : ScenarioInput) (c : CandidateSchedule) (t0 d : Z) (oss : list OccurrenceSchedule).
Context (Hin : scenario_input_ok s) (Hids : NoDup (occurrence_id <$> (loads s ≫= occurrences))).
Context (Hf : canonical_for t0 d s c oss).
Notation pairs := (zip (canonical_occurrences s) oss).
Notation by_id := ((fun p : (FlexibleLoad * LoadOccurrence) * OccurrenceSchedule =>
                      (lo_id p.1, energies (os_slots p.2))) <$> pairs).

Lemma pairs_fst : pairs.*1 = canonical_occurrences s.
Proof. apply fst_zip. apply Forall2_length in Hf. lia. Qed.

Lemma by_id_keys : by_id.*1 = lo_id <$> canonical_occurrences s.
Proof.
  transitivity (lo_id <$> pairs.*1); [by rewrite <- !list_fmap_compose|by rewrite pairs_fst].
Qed.

Lemma pair_facts lo os : (lo, os) ∈ pairs ->
  dict_get (lo_id lo) by_id = Some (energies (os_slots os)) /\
  dict_get (lo_id lo) (reference_dict (canonical_occurrences s))
  = Some (energies (reference_schedule lo.2)) /\
  zsum (energies (os_slots os)) = required_energy_wh lo.2 /\ 0 < required_energy_wh lo.2.
Proof.
  intros Hp. pose proof (canonical_ids_NoDup s Hids) as Hnd. split; [|split; [|split]].
  - apply dict_elem_get; [by rewrite by_id_keys|]. apply list_elem_of_fmap. by exists (lo, os).
  - apply dict_elem_get.
    + unfold reference_dict. rewrite <- list_fmap_compose. exact Hnd.
    + apply list_elem_of_fmap. exists lo. split; [done|]. rewrite <- pairs_fst.
      apply list_elem_of_fmap. by exists (lo, os).
  - destruct (Forall2_zip_elem _ _ _ _ _ Hf Hp) as (_ & _ & i & j & _ & _ & _ & _ & Hx & _). done.
  - assert (lo ∈ load_occurrences (loads s)) as Hlo.
    { rewrite <- canonical_perm, <- pairs_fst. apply list_elem_of_fmap. by exists (lo, os). }
    destruct lo as [l o]. apply elem_of_load_occurrences in Hlo as [Hl Ho].
    by destruct (input_loads s l o Hin Hl Ho).
Qed.

Lemma checked_objective cost :
  exists obj, compute_objective s by_id (reference_dict (canonical_occurrences s)) cost = Ok obj /\
    supported_cost_cents obj = cost /\
    changed_occurrence_slot_count obj = sum_by occurrence_changes pairs /\
    completion_slot_index_sum obj = sum_by occurrence_completion pairs /\
    stable_slot_order_score obj
    = sum_by (fun ia : Z * Z => ia.2 * (ia.1 + 1))
        (enumerate (concat ((fun os => energies (os_slots os)) <$> oss))).
Proof.
  destruct (objective_fold by_id (reference_dict (canonical_occurrences s)) (canonical_occurrences s) oss
    {| ob_changed := 0; ob_completion := 0; ob_stable := 0; ob_position := 0 |})
    as (out & Ho & Hch & Hco & Hst).
  { assert (forall l k, (forall x, x ∈ zip l k -> x ∈ pairs) -> length l = length k ->
      Forall2 (fun lo os => dict_get (lo_id lo) by_id = Some (energies (os_slots os)) /\
        dict_get (lo_id lo) (reference_dict (canonical_occurrences s))
        = Some (energies (reference_schedule lo.2)) /\ 0 < zsum (energies (os_slots os))) l k) as Hall.
    { intros l. induction l as [|lo l IH]; intros [|os k] Hsub Hlen; simpl in Hlen; try done.
      constructor; [|apply IH; [|lia]].
      - destruct (pair_facts lo os) as (H1 & H2 & H3 & H4); [apply Hsub; left|]. by rewrite H3.
      - intros x Hx. apply Hsub. by right. }
    apply Hall; [done|]. apply (Forall2_length _ _ _ Hf). }
  unfold compute_objective. rewrite Ho. simpl mbind. eexists. split; [reflexivity|]. simpl.
  rewrite stable_score in Hst. simpl in Hst. injection Hst as _ Hst. simpl in Hch, Hco.
  split; [done|]. split; [lia|]. split; [lia|]. by rewrite Hst.
Qed.
End Objective.

(** ** The reference as a candidate *)
Lemma vec_add_swap a b c e : vec_add (vec_add a b) (vec_add c e) = vec_add (vec_add a c) (vec_add b e).
Proof. by rewrite !vec_add_assoc, <- (vec_add_assoc b c e), (vec_add_comm b c), vec_add_assoc. Qed.

Lemma vec_add_zeros n : vec_add (zeros n) (zeros n) = zeros n.
Proof. unfold vec_add, zeros. induction n as [|n IH]; simpl; [done|]. by rewrite IH. Qed.

Lemma foldl_modes a b (los : list (FlexibleLoad * LoadOccurrence)) :
  foldl vec_add (vec_add a b) ((fun lo => energies (reference_schedule lo.2)) <$> los)
  = vec_add (foldl vec_add a (mode_vectors SHIFT_EXISTING los))
      (foldl vec_add b (mode_vectors HISTORICAL_ADDITION los)).
Proof.
  revert a b. induction los as [|[l o] los IH]; intros a b; [done|].
  rewrite fmap_cons, !mode_vectors_cons. cbn [foldl snd].
  destruct (mode l); simpl app; cbn [foldl].
  - rewrite <- IH. by rewrite vec_add_assoc, (vec_add_comm b), <- vec_add_assoc.
  - rewrite <- IH. by rewrite vec_add_assoc.
Qed.

Lemma reference_flexible s :
  flexible_total s (candidate_from_reference s)
  = vec_add (reference_total SHIFT_EXISTING s) (reference_total HISTORICAL_ADDITION s).
Proof.
  unfold flexible_total, candidate_from_reference. simpl cs_occurrences. rewrite <- list_fmap_compose.
  rewrite canonical_perm, <- (vec_add_zeros (length (profile_slots s))). apply foldl_modes.
Qed.

Lemma reference_profile s t0 d : reference_feasible s t0 d ->
  candidate_profile_of s (candidate_from_reference s)
  = vec_add (measured_energy_wh <$> profile_slots s) (reference_total HISTORICAL_ADDITION s).
Proof.
  intros Hf. pose proof (rf_occurrences _ _ _ Hf) as Hocc.
  pose proof (length_reference_total t0 d SHIFT_EXISTING s Hocc) as Hl1.
  pose proof (length_reference_total t0 d HISTORICAL_ADDITION s Hocc) as Hl2.
  unfold candidate_profile_of, background_of. rewrite reference_flexible.
  by rewrite unchanged_profile by (rewrite ?length_fmap; lia).
Qed.

Lemma canonical_unique s x y : NoDup (occurrence_id <$> (loads s ≫= occurrences)) ->
  x ∈ load_occurrences (loads s) -> y ∈ load_occurrences (loads s) -> lo_id x = lo_id y -> x = y.
Proof.
  intros Hnd Hx Hy E. rewrite <- load_occurrences_snd, <- lo_id_snd in Hnd.
  apply list_elem_of_lookup in Hx as [i Hi]. apply list_elem_of_lookup in Hy as [j Hj].
  assert (i = j) as ->; [|congruence].
  apply (NoDup_lookup _ i j (lo_id x) Hnd); rewrite list_lookup_fmap; [by rewrite Hi|by rewrite Hj, E].
Qed.

Lemma reference_schedule_feasible s t0 d : reference_feasible s t0 d ->
  Forall slot_supported (profile_slots s) -> schedule_feasible s (candidate_from_reference s) t0 d.
Proof.
  intros Hf Hsup. pose proof (reference_profile s t0 d Hf) as Hprof.
  destruct Hf as [Hg Hli Ha Ho Hdj Hocc Hbg Hsite Hflex].
  split; try done.
  - by eapply feasible_match.
  - unfold candidate_from_reference. simpl. rewrite <- list_fmap_compose, canonical_perm. done.
  - intros lo os Hlo Hos Hid. unfold candidate_from_reference in Hos. simpl in Hos.
    apply list_elem_of_fmap in Hos as (lo' & -> & Hin). rewrite canonical_perm in Hin. simpl in *.
    rewrite (canonical_unique s lo lo' Ho Hlo Hin) by done.
    rewrite Forall_forall in Hocc. by apply Hocc.
  - by rewrite Hprof.
  - by rewrite reference_flexible.
Qed.

Lemma reference_pairs s t0 d oss :
  NoDup (occurrence_id <$> (loads s ≫= occurrences)) ->
  canonical_for t0 d s (candidate_from_reference s) oss ->
  Forall2 (fun lo os => energies (os_slots os) = energies (reference_schedule lo.2))
    (canonical_occurrences s) oss.
Proof.
  intros Hnd Hf. unfold canonical_for in Hf.
  assert (forall lo, lo ∈ canonical_occurrences s -> lo ∈ load_occurrences (loads s)) as Hsub
    by (intros lo; by rewrite canonical_perm).
  revert Hsub Hf. generalize (canonical_occurrences s). intros los Hsub Hf.
  induction Hf as [|lo os los oss' [Hget _] _ IH]; constructor.
  - apply dict_get_elem, list_elem_of_fmap in Hget as (o & [= Hid ->] & Hin).
    apply list_elem_of_fmap in Hin as (lo' & -> & Hin). simpl in *. rewrite canonical_perm in Hin.
    rewrite (canonical_unique s lo lo' Hnd); [done| |done|done]. apply Hsub. left.
  - apply IH. intros x Hx. apply Hsub. by right.
Qed.

(** ** Theorems *)
Section Verifier.
Context `{ZoneInfo} `{Sha256} (bundle : CompilationBundle) (facts : AccountFacts)
  (dated : option DatedEligibilityFacts).

(** The claim, if one is made, is the recomputed cost. *)
Definition claim_ok (claimed : option Z) (bill : ReplayResult) : Prop :=
  match claimed with Some cents => cents = supported_calculated_cents bill | None => True end.

Lemma claim_check claimed bill u :
  raise_if (match claimed with
            | Some cents => negb (cents =? supported_calculated_cents bill)
            | None => false
            end) (vfail "VERIFIER_COST_MISMATCH") = Ok u <-> claim_ok claimed bill.
Proof.
  rewrite raise_if_ok. unfold claim_ok. destruct claimed; [|done]. by rewrite negb_false_iff, Z.eqb_eq.
Qed.

Lemma verify_sound s c claimed v : scenario_input_ok s ->
  verify_candidate_schedule s c bundle facts dated claimed = Ok v ->
  exists t0 d oss, schedule_feasible s c t0 d /\ canonical_for t0 d s c oss /\
    oss ≡ₚ cs_occurrences c /\
    recompute_bill s (candidate_profile_of s c) bundle facts dated = Ok (billing_result v) /\
    claim_ok claimed (billing_result v) /\ cs_occurrences (schedule v) = oss /\
    candidate_profile (record v) = energy_slots (profile_slots s) (candidate_profile_of s c) /\
    compute_objective s (candidate_by_id (checked_state s c oss).2)
      (reference_dict (canonical_occurrences s)) (supported_calculated_cents (billing_result v))
    = Ok (objective (record v)).
Proof.
  intros Hin Hv. unfold verify_candidate_schedule in Hv. apply bind_ok in Hv as (r & Hr & Hv).
  apply check_candidate_sound in Hr as (t0 & d & oss & Hsf & Hf & Hp & ->); [|done].
  unfold checked_state in Hv. apply bind_ok in Hv as (bill & Hb & Hv).
  apply bind_ok in Hv as (u & Hc & Hv). apply claim_check in Hc.
  apply bind_ok in Hv as (obj & Ho & [= <-]). exists t0, d, oss. done.
Qed.

Lemma verifier_accepts_lemma s c claimed : scenario_input_ok s ->
  (exists v, verify_candidate_schedule s c bundle facts dated claimed = Ok v) <->
  exists t0 d bill, schedule_feasible s c t0 d /\
    recompute_bill s (candidate_profile_of s c) bundle facts dated = Ok bill /\ claim_ok claimed bill.
Proof.
  intros Hin. split.
  - intros [v Hv]. apply verify_sound in Hv as (t0 & d & oss & Hsf & _ & _ & Hb & Hc & _); [|done].
    exists t0, d, (billing_result v). done.
  - intros (t0 & d & bill & Hsf & Hb & Hc).
    destruct (check_candidate_complete s c Hin t0 d Hsf) as (oss & Hf & Hp & Hcheck).
    destruct (checked_objective s c t0 d oss Hin (sf_occurrence_ids _ _ _ _ Hsf) Hf
                (supported_calculated_cents bill)) as (obj & Ho & _).
    unfold verify_candidate_schedule. rewrite Hcheck. unfold checked_state. simpl mbind. cbv beta iota.
    rewrite Hb. simpl mbind. apply (claim_check _ _ tt) in Hc. rewrite Hc. simpl mbind.
    cbn [candidate_by_id]. rewrite Ho. eauto.
Qed.

(** C3: The verifier accepts a candidate exactly when it is feasible on the
    scenario's profile (every occurrence scheduled once, inside its window, within
    power limits or as the fixed shape, delivering exactly its energy, with
    disjoint windows, non-negative background and both caps respected), its bill
    can be recomputed, and a claimed cost equals the recomputed one. *)
Theorem verifier_accepts_iff s c claimed : scenario_input_ok s ->
  (exists v, verify_candidate_schedule s c bundle facts dated claimed = Ok v) <->
  exists t0 d bill, schedule_feasible s c t0 d /\
    recompute_bill s (candidate_profile_of s c) bundle facts dated = Ok bill /\ claim_ok claimed bill.
Proof. apply verifier_accepts_lemma. Qed.

Lemma zsum_background s :
  Forall (fun lo => slots_match (reference_schedule lo.2) (profile_slots s)) (load_occurrences (loads s)) ->
  zsum (background_of s)
  = sum_by measured_energy_wh (profile_slots s) - zsum (reference_total SHIFT_EXISTING s).
Proof.
  intros Hm. pose proof (length_reference_total_match SHIFT_EXISTING s Hm) as Hl.
  assert (zsum (vec_add (background_of s) (reference_total SHIFT_EXISTING s))
          = sum_by measured_energy_wh (profile_slots s)) as E.
  { unfold background_of. by rewrite background_reconstructs by (rewrite length_fmap; lia). }
  rewrite zsum_vec_add in E by (rewrite length_background; [lia|done]). lia.
Qed.

Lemma zsum_flexible s c t0 d oss : canonical_for t0 d s c oss -> oss ≡ₚ cs_occurrences c ->
  Forall (fun os => slots_match (os_slots os) (profile_slots s)) (cs_occurrences c) ->
  zsum (flexible_total s c) = sum_by (fun lo => required_energy_wh lo.2) (load_occurrences (loads s)).
Proof.
  intros Hf Hp Hm. unfold flexible_total.
  rewrite (zsum_foldl_vec_add (length (profile_slots s))), zsum_zero_vector; [|apply length_replicate|].
  - rewrite sum_by_fmap, <- Hp, <- canonical_perm, Z.add_0_l.
    unfold canonical_for in Hf. revert Hf. generalize (canonical_occurrences s). intros los Hf. clear Hp.
    induction Hf as [|lo os los oss' (_ & _ & i & j & _ & _ & _ & _ & Hx & _) _ IH]; [done|].
    by rewrite !sum_by_cons, IH, Hx.
  - apply Forall_fmap. eapply Forall_impl; [exact Hm|]. intros os Hos. simpl. unfold energies.
    rewrite length_fmap. exact (Forall2_length _ _ _ Hos).
Qed.

Lemma changes_zero t0 d s c oss :
  Forall (fun lo => slots_match (reference_schedule lo.2) (profile_slots s)) (load_occurrences (loads s)) ->
  canonical_for t0 d s c oss ->
  sum_by occurrence_changes (zip (canonical_occurrences s) oss) = 0 <->
  Forall2 (fun lo os => energies (os_slots os) = energies (reference_schedule lo.2))
    (canonical_occurrences s) oss.
Proof.
  intros Hm Hf. rewrite <- canonical_perm in Hm. unfold canonical_for in Hf.
  induction Hf as [|lo os los oss' (_ & Hos & _) _ IH]; simpl; [by split|].
  apply Forall_cons in Hm as [Hlo Hm]. rewrite sum_by_cons, Forall2_cons, <- (IH Hm).
  assert (0 <= sum_by occurrence_changes (zip los oss')) by (apply sum_by_nonneg; intros; apply count_changes_nonneg).
  pose proof (count_changes_nonneg (energies (os_slots os)) (energies (reference_schedule lo.2))).
  rewrite <- count_changes_zero
    by (unfold energies; rewrite !length_fmap; apply Forall2_length in Hos, Hlo; lia).
  unfold occurrence_changes at 1. simpl. lia.
Qed.

Lemma verified_lemma s c claimed v : scenario_input_ok s ->
  verify_candidate_schedule s c bundle facts dated claimed = Ok v ->
  cs_occurrences (schedule v) ≡ₚ cs_occurrences c /\
  energies (candidate_profile (record v)) = candidate_profile_of s c /\
  zsum (energies (candidate_profile (record v)))
  = sum_by measured_energy_wh (profile_slots s) - zsum (reference_total SHIFT_EXISTING s)
    + sum_by (fun lo => required_energy_wh lo.2) (load_occurrences (loads s)) /\
  recompute_bill s (candidate_profile_of s c) bundle facts dated = Ok (billing_result v) /\
  supported_cost_cents (objective (record v)) = supported_calculated_cents (billing_result v) /\
  (changed_occurrence_slot_count (objective (record v)) = 0 <->
   Forall2 (fun lo os => energies (os_slots os) = energies (reference_schedule lo.2))
     (canonical_occurrences s) (cs_occurrences (schedule v))).
Proof.
  intros Hin Hv. apply verify_sound in Hv as (t0 & d & oss & Hsf & Hf & Hp & Hb & Hc & Hsch & Hprof & Ho); [|done].
  pose proof (sf_references _ _ _ _ Hsf) as Hrm.
  assert (Forall (fun os => slots_match (os_slots os) (profile_slots s)) (cs_occurrences c)) as Hm
    by (rewrite <- Hp; by eapply canonical_for_matches).
  assert (length (candidate_profile_of s c) = length (profile_slots s)) as Hlen.
  { unfold candidate_profile_of. rewrite length_vec_add; rewrite length_background, ?length_flexible_total; done. }
  rewrite Hsch, Hprof, energies_energy_slots by done.
  split; [done|]. split; [done|]. split.
  { unfold candidate_profile_of. rewrite zsum_vec_add by (rewrite length_background, length_flexible_total; done).
    by rewrite zsum_background, (zsum_flexible s c t0 d oss). }
  split; [done|].
  destruct (checked_objective s c t0 d oss Hin (sf_occurrence_ids _ _ _ _ Hsf) Hf
              (supported_calculated_cents (billing_result v))) as (obj & Ho' & Hcost & Hch & _).
  unfold checked_state in Ho. cbn [snd candidate_by_id] in Ho. rewrite Ho' in Ho. injection Ho as <-.
  split; [done|]. rewrite Hch. by apply (changes_zero t0 d s c).
Qed.

(** What a verified record states is true of the candidate: the schedule is the
    submitted one in canonical order, the profile is the fixed background plus the
    submitted energies, its total depends on the scenario only, the bill and the
    cost are those of the reference evaluator on that profile, and the change count
    is zero exactly when every occurrence keeps its reference energies. *)
Theorem verified_record_faithful s c claimed v : scenario_input_ok s ->
  verify_candidate_schedule s c bundle facts dated claimed = Ok v ->
  cs_occurrences (schedule v) ≡ₚ cs_occurrences c /\
  energies (candidate_profile (record v)) = candidate_profile_of s c /\
  zsum (energies (candidate_profile (record v)))
  = sum_by measured_energy_wh (profile_slots s) - zsum (reference_total SHIFT_EXISTING s)
    + sum_by (fun lo => required_energy_wh lo.2) (load_occurrences (loads s)) /\
  recompute_bill s (candidate_profile_of s c) bundle facts dated = Ok (billing_result v) /\
  supported_cost_cents (objective (record v)) = supported_calculated_cents (billing_result v) /\
  (changed_occurrence_slot_count (objective (record v)) = 0 <->
   Forall2 (fun lo os => energies (os_slots os) = energies (reference_schedule lo.2))
     (canonical_occurrences s) (cs_occurrences (schedule v))).
Proof. apply verified_lemma. Qed.

(** The reference schedule of an admitted scenario passes the verifier whenever
    its unchanged profile can be billed and its slots are of a supported length:
    the candidate built from the references verifies at the recomputed cost, with
    the unchanged reference profile and no changed slot. *)
Theorem reference_verifies s vs bill : scenario_input_ok s ->
  validate_and_decompose_scenario s = Ok vs -> Forall slot_supported (profile_slots s) ->
  recompute_bill s (energies (unchanged_reference_profile (decomposition vs))) bundle facts dated = Ok bill ->
  exists v, verify_candidate_schedule s (candidate_from_reference s) bundle facts dated
              (Some (supported_calculated_cents bill)) = Ok v /\
    energies (candidate_profile (record v)) = energies (unchanged_reference_profile (decomposition vs)) /\
    changed_occurrence_slot_count (objective (record v)) = 0.
Proof.
  intros Hin Hvs Hsup Hbill. apply validate_scenario_ok in Hvs as [(t0 & d & Hf) ->]; [|done].
  pose proof (reference_profile s t0 d Hf) as Hprof.
  assert (energies (unchanged_reference_profile (decomposition (validated_of s)))
          = candidate_profile_of s (candidate_from_reference s)) as Hun.
  { rewrite Hprof. apply energies_energy_slots. pose proof (rf_occurrences _ _ _ Hf) as Hocc.
    pose proof (length_reference_total t0 d HISTORICAL_ADDITION s Hocc).
    rewrite length_vec_add; rewrite length_fmap; lia. }
  rewrite Hun in *.
  assert (exists v, verify_candidate_schedule s (candidate_from_reference s) bundle facts dated
            (Some (supported_calculated_cents bill)) = Ok v) as [v Hv].
  { apply verifier_accepts_lemma; [done|]. exists t0, d, bill. split; [|done].
    by apply reference_schedule_feasible. }
  exists v. split; [done|].
  destruct (verified_lemma _ _ _ _ Hin Hv) as (_ & -> & _ & _ & _ & Hz). split; [done|]. apply Hz.
  apply verify_sound in Hv as (t1 & d1 & oss & Hsf & Hc & _ & _ & _ & -> & _); [|done].
  exact (reference_pairs s t1 d1 oss (sf_occurrence_ids _ _ _ _ Hsf) Hc).
Qed.
End Verifier.

(** ** Selection *)
Lemma selected_le inc ref :
  py_leb (ordered_values (objective (record (selected (select_strict_improvement inc ref)))))
    (ordered_values (objective (record ref))) = true.
Proof.
  unfold select_strict_improvement. destruct inc as [i|]; [|apply py_leb_refl].
  destruct (py_ltb _ _) eqn:E; simpl; [|apply py_leb_refl].
  unfold py_ltb in E. unfold py_leb. by destruct (py_cmp _ _).
Qed.

(** Selection returns the reference or the incumbent, the incumbent exactly when
    its objective tuple is strictly smaller in lexicographic order, and so a
    selected schedule is never worse than the reference, in tuple or in cost. *)
Theorem selection_never_worse inc ref :
  let sel := select_strict_improvement inc ref in
  (selected_source sel = SOLVER_INCUMBENT <->
   exists i, inc = Some i /\
     py_ltb (ordered_values (objective (record i))) (ordered_values (objective (record ref))) = true) /\
  (selected sel = ref \/ inc = Some (selected sel)) /\
  py_leb (ordered_values (objective (record (selected sel)))) (ordered_values (objective (record ref))) = true /\
  supported_cost_cents (objective (record (selected sel))) <= supported_cost_cents (objective (record ref)).
Proof.
  cbv zeta. split; [|split; [|split; [apply selected_le|]]].
  - unfold select_strict_improvement. destruct inc as [i|]; simpl; [|split; [done|by intros (? & ? & _)]].
    destruct (py_ltb (ordered_values (objective (record i))) _) eqn:E; cbn [selected_source].
    + split; [by exists i|done].
    + split; [done|]. intros (i' & [= <-] & E'). congruence.
  - unfold select_strict_improvement. destruct inc as [i|]; [|by left].
    destruct (py_ltb _ _); cbn [selected]; auto.
  - pose proof (selected_le inc ref) as Hle. revert Hle. unfold py_leb, ordered_values. simpl.
    destruct (Z.compare_spec
      (supported_cost_cents (objective (record (selected (select_strict_improvement inc ref)))))
      (supported_cost_cents (objective (record ref)))); [lia|lia|done].
Qed.

(** ** Witnesses on the scenario fixture, billed on EV2-A *)
Notation verify_fixture c claimed :=
  (verify_candidate_schedule (H0 := toy_sha256) scenario_fixture c ev2a_bundle july_facts
     (Some july_dated) claimed).
Notation fixture_reference := (candidate_from_reference scenario_fixture).
(** The vehicle charged in the partial-peak hour instead. *)
Definition shifted_candidate : CandidateSchedule :=
  {| cs_occurrences := [{| os_occurrence_id := 21; os_slots := reference_fixture [0; 0; 400; 600] |};
                        {| os_occurrence_id := 11; os_slots := reference_fixture [1000; 0; 0; 0] |}] |}.

Example verifier_evaluates :
  (match verify_fixture fixture_reference None, verify_fixture shifted_candidate None with
   | Ok r, Ok i => (ordered_values (objective (record r)), ordered_values (objective (record i)),
                    match selected_source (select_strict_improvement (Some i) r) with
                    | SOLVER_INCUMBENT => true | REFERENCE => false end)
   | _, _ => ((0, (0, (0, 0))), (0, (0, (0, 0))), false)
   end) = ((-989, (0, (7, 10600))), (-1000, (2, (5, 8600))), true).
Proof. vm_compute. reflexivity. Qed.

Lemma verifier_accepts_iff_witness :
  exists t0 d bill, schedule_feasible scenario_fixture shifted_candidate t0 d /\
    claim_ok (Some (-1000)) bill.
Proof.
  destruct (proj1 (verifier_accepts_iff (H0 := toy_sha256) ev2a_bundle july_facts (Some july_dated)
    scenario_fixture shifted_candidate (Some (-1000)) scenario_fixture_ok)) as (t0 & d & bill & Hf & _ & Hc).
  - destruct (verify_fixture shifted_candidate (Some (-1000))) as [v|] eqn:E; [by exists v|].
    vm_compute in E. discriminate E.
  - by exists t0, d, bill.
Defined.

Lemma verified_record_faithful_witness :
  exists v, verify_fixture shifted_candidate None = Ok v /\
    energies (candidate_profile (record v)) = [1300; 300; 700; 900] /\
    supported_cost_cents (objective (record v)) = supported_calculated_cents (billing_result v).
Proof.
  destruct (verify_fixture shifted_candidate None) as [v|] eqn:E; [|vm_compute in E; discriminate E].
  destruct (verified_record_faithful (H0 := toy_sha256) ev2a_bundle july_facts (Some july_dated)
    scenario_fixture shifted_candidate None v scenario_fixture_ok E)
    as (_ & Hp & _ & _ & Hc & _).
  exists v. split; [reflexivity|]. split; [rewrite Hp; vm_compute; reflexivity|exact Hc].
Defined.

Lemma reference_verifies_witness :
  exists v cents, verify_fixture fixture_reference (Some cents) = Ok v /\
    changed_occurrence_slot_count (objective (record v)) = 0.
Proof.
  destruct (validate_and_decompose_scenario scenario_fixture) as [vs|] eqn:Evs;
    [|vm_compute in Evs; discriminate Evs].
  destruct (recompute_bill (H0 := toy_sha256) scenario_fixture
              (energies (unchanged_reference_profile (decomposition vs))) ev2a_bundle july_facts
              (Some july_dated)) as [bill|] eqn:Eb.
  - destruct (reference_verifies (H0 := toy_sha256) ev2a_bundle july_facts (Some july_dated)
      scenario_fixture vs bill scenario_fixture_ok Evs) as (v & Hv & _ & Hz).
    + repeat constructor; vm_compute; discriminate.
    + exact Eb.
    + exists v, (supported_calculated_cents bill). split; [exact Hv|exact Hz].
  - vm_compute in Evs. injection Evs as <-. vm_compute in Eb. discriminate Eb.
Defined.
