(* ===== verification/Lowering.v ===== *)
(** * Lowering: exact CP-SAT lowering of admitted scenarios (optimizer/lowering.py)

    [compile_scenario_model] turns a validated scenario and a compiled tariff
    into a constraint model whose solutions are the feasible schedules and whose
    objective expressions are the verifier's objective tuple.  The model under
    construction is threaded through the functions that the source lets mutate
    it; [_check_int64] receives the list of its keyword values. *)

From S2P Require Import Prelude Calendar Json Schema Compiled Eligibility DayEnergy Replay.
From S2P Require Import CpModel OptimizerModels Scenario Verification.

Definition lfail (code : string) : exn := OptimizationLoweringError code.
Definition contract_violation : exn := lfail "MODEL_CONTRACT_VIOLATION".

Definition WATT_SECONDS_PER_WATT_HOUR : Z := 3600.
Definition WATT_HOUR_RATE_TO_CENTS_DENOMINATOR : Z := 10000000.
Definition HALF_CENT_NUMERATOR : Z := WATT_HOUR_RATE_TO_CENTS_DENOMINATOR / 2.

(** ** Labels of variables *)

(** [occurrence.occurrence_id.hex]. *)
Definition uuid_hex (u : uuid) : string := hex_pad 32 u.
(** The name handed to [new_int_var] or [new_bool_var] for a variable. *)
Definition var_name (v : cpvar) : string :=
  match v with
  | energy_var o i => "energy_" +:+ uuid_hex o +:+ "_" +:+ pretty i
  | active_var o i => "active_" +:+ uuid_hex o +:+ "_" +:+ pretty i
  | start_var o c => "start_" +:+ uuid_hex o +:+ "_" +:+ pretty c
  | changed_var o i => "changed_" +:+ uuid_hex o +:+ "_" +:+ pretty i
  | completion_active_var o i => "completion_active_" +:+ uuid_hex o +:+ "_" +:+ pretty i
  | completion_var o => "completion_" +:+ uuid_hex o
  | quantity_var r p => "quantity_" +:+ r +:+ "_" +:+ period_str p
  | cents_var r p => "cents_" +:+ r +:+ "_" +:+ period_str p
  end.
(** Two variables can carry one label: rule [R] with the off-peak period, rule
    [R_OFF] with the peak.  Labels are therefore no identities. *)
Example var_name_shared : var_name (quantity_var "R" OFF_PEAK) = var_name (quantity_var "R_OFF" PEAK).
Proof. reflexivity. Qed.

(** ** Records *)
Inductive AlgebraicReason :=
| ACCOUNT_APPLICABILITY_FALSE | NON_MONETARY_CLASSIFIER | TOTAL_PROFILE_ENERGY_INVARIANT
| TOTAL_PROFILE_ENERGY_AND_BASELINE_INVARIANT | BILLING_DAYS_INVARIANT | BILLING_PERIOD_INVARIANT
| SUPPORTED_COST_ALWAYS_ZERO.
Definition reason_str (r : AlgebraicReason) : string :=
  match r with
  | ACCOUNT_APPLICABILITY_FALSE => "ACCOUNT_APPLICABILITY_FALSE"
  | NON_MONETARY_CLASSIFIER => "NON_MONETARY_CLASSIFIER"
  | TOTAL_PROFILE_ENERGY_INVARIANT => "TOTAL_PROFILE_ENERGY_INVARIANT"
  | TOTAL_PROFILE_ENERGY_AND_BASELINE_INVARIANT => "TOTAL_PROFILE_ENERGY_AND_BASELINE_INVARIANT"
  | BILLING_DAYS_INVARIANT => "BILLING_DAYS_INVARIANT"
  | BILLING_PERIOD_INVARIANT => "BILLING_PERIOD_INVARIANT"
  | SUPPORTED_COST_ALWAYS_ZERO => "SUPPORTED_COST_ALWAYS_ZERO"
  end.

Record OmittedChargeProof := {
  oc_rule_id : string;
  oc_operator : string;
  oc_subterm : string;
  algebraic_reason : AlgebraicReason;
  invariant_total_energy_wh : Z
}.

Record ObjectiveBounds := {
  minimum_supported_cost_cents : Z;
  maximum_supported_cost_cents : Z;
  maximum_changed_occurrence_slot_count : Z;
  maximum_completion_slot_index_sum : Z;
  maximum_stable_slot_order_score : Z;
  maximum_proxy_rank_score : Z
}.

Record LoweringRecord := {
  lr_tariff_version_id : string;
  supported_operators : list string;
  constant_supported_cost_cents : Z;
  invariant_total_profile_energy_wh : Z;
  omitted_charge_proofs : list OmittedChargeProof;
  off_peak_ranks : list Z;
  rank_calendar_sha256 : string;
  objective_bounds : ObjectiveBounds;
  lowering_sha256 : string
}.

Record LoweredObjectives := {
  supported_cost : LinearExpr;
  changed_occurrence_slots : LinearExpr;
  completion_slot_index_sum_expr : LinearExpr;
  stable_slot_order_score_expr : LinearExpr;
  proxy_rank_score : LinearExpr
}.

Record LoweredScenarioModel := {
  lowered_model : CpModel;
  energy_by_occurrence : dict uuid (list cpvar);
  objectives : LoweredObjectives;
  lowering_record : LoweringRecord
}.

(** The [ge=0] fields. *)
Definition objective_bounds_valid (b : ObjectiveBounds) : bool :=
  (0 <=? maximum_changed_occurrence_slot_count b) && (0 <=? maximum_completion_slot_index_sum b)
  && (0 <=? maximum_stable_slot_order_score b) && (0 <=? maximum_proxy_rank_score b).

Definition OmittedChargeProof_dump (p : OmittedChargeProof) : json :=
  JObj [("rule_id", JStr (oc_rule_id p)); ("operator", JStr (oc_operator p));
        ("subterm", JStr (oc_subterm p)); ("algebraic_reason", JStr (reason_str (algebraic_reason p)));
        ("invariant_total_energy_wh", JInt (invariant_total_energy_wh p));
        ("billing_period_confined", JBool true)].
Definition ObjectiveBounds_dump (b : ObjectiveBounds) : json :=
  JObj [("minimum_supported_cost_cents", JInt (minimum_supported_cost_cents b));
        ("maximum_supported_cost_cents", JInt (maximum_supported_cost_cents b));
        ("maximum_changed_occurrence_slot_count", JInt (maximum_changed_occurrence_slot_count b));
        ("maximum_completion_slot_index_sum", JInt (maximum_completion_slot_index_sum b));
        ("maximum_stable_slot_order_score", JInt (maximum_stable_slot_order_score b));
        ("maximum_proxy_rank_score", JInt (maximum_proxy_rank_score b))].

(** ** Bounds and windows *)
Definition check_int64 (bounds : list Z) : result unit :=
  forM_ (fun value => raise_if (SIGNED_INT64_MAX <? Z.abs value) (lfail "INT64_OBJECTIVE_BOUND")) bounds.

Definition lowering_occurrences (s : ScenarioInput) : list (FlexibleLoad * LoadOccurrence) :=
  sorted_by occurrence_order (load_occurrences (loads s)).

Definition lowering_window_indices (s : ScenarioInput) (o : LoadOccurrence) : result (Z * Z) :=
  match last (profile_slots s) with
  | None => Raise (PyError "IndexError")
  | Some final =>
      final_end ← slot_end final;
      let b := boundaries (profile_slots s) final_end in
      match dict_get (earliest_start_utc o) b, dict_get (deadline_utc o) b with
      | Some w_start, Some w_end => Ok (w_start, w_end)
      | _, _ => Raise contract_violation
      end
  end.

Definition reference_energy_wh (o : LoadOccurrence) : list Z := es_energy_wh <$> reference_schedule o.

Definition in_window (w : Z * Z) (index : Z) : bool := (w.1 <=? index) && (index <? w.2).

(** ** Preflight *)
Record PreflightState := { pf_stable_maximum : Z; pf_slot_maxima : list Z; pf_position : Z }.

Definition preflight_maximum (spec : ExecutionSpec) (w : Z * Z) (index duration : Z) : result Z :=
  match spec with
  | InterruptibleModulatingSpec hi lo =>
      if in_window w index then
        let maximum_power_product := hi * duration in
        let minimum_power_product := lo * duration in
        _ ← check_int64 [maximum_power_product; minimum_power_product];
        Ok (maximum_power_product / WATT_SECONDS_PER_WATT_HOUR)
      else Ok 0
  | ContiguousFixedShapeSpec shape => Ok (default 0 (py_max shape))
  end.

Definition preflight_slot (spec : ExecutionSpec) (w : Z * Z) (st : PreflightState)
    (item : Z * CanonicalProfileSlot) : result PreflightState :=
  maximum ← preflight_maximum spec w item.1 (ps_duration_seconds item.2);
  let position := pf_position st + 1 in
  Ok {| pf_stable_maximum := pf_stable_maximum st + maximum * position;
        pf_slot_maxima := alter (Z.add maximum) (Z.to_nat item.1) (pf_slot_maxima st);
        pf_position := position |}.

Definition preflight_occurrence (s : ScenarioInput) (st : PreflightState)
    (lo : FlexibleLoad * LoadOccurrence) : result PreflightState :=
  w ← lowering_window_indices s lo.2;
  st' ← foldM (preflight_slot (execution_spec lo.1) w) st (enumerate (profile_slots s));
  _ ← check_int64 [required_energy_wh lo.2];
  _ ← forM_ (fun r => check_int64 [es_energy_wh r]) (reference_schedule lo.2);
  Ok st'.

Definition cap_product (cap : option Z) (slot : CanonicalProfileSlot) : list Z :=
  match cap with Some c => [c * ps_duration_seconds slot] | None => [] end.

Definition monetary_step (invariant_energy billing_days bound : Z) (op : CompiledRule) : result Z :=
  match op with
  | IRTiered r =>
      match py_max ((fun t => Z.abs (tier_rate_microdollars_per_kwh t)) <$> tiers r) with
      | None => Raise (PyError "ValueError")
      | Some m => Ok (bound + invariant_energy * m)
      end
  | IRTimeOfUse r =>
      Ok (bound
          + invariant_energy * sum_by (fun p => Z.abs (irp_rate_microdollars_per_kwh p)) (period_rates r)
          + match baseline_credit_microdollars_per_kwh r with
            | Some credit => invariant_energy * Z.abs credit
            | None => 0
            end)
  | IRFixedDaily r => Ok (bound + billing_days * Z.abs (rate_microdollars_per_day r))
  | IRFixedMonthly r => Ok (bound + Z.abs (amount_microdollars r))
  | IRBaseline _ | IRSchedule _ | IRUnsupported _ => Ok bound
  end.

Definition preflight_slot_products (s : ScenarioInput) (flexible_maxima profile_maxima : list Z)
    (item : Z * CanonicalProfileSlot) : result unit :=
  let c := electrical_constraints s in
  profile_maximum ← py_index profile_maxima item.1;
  flexible_maximum ← py_index flexible_maxima item.1;
  check_int64 ([profile_maximum * WATT_SECONDS_PER_WATT_HOUR; flexible_maximum * WATT_SECONDS_PER_WATT_HOUR]
               ++ cap_product (site_import_cap_w c) item.2
               ++ cap_product (flexible_load_aggregate_cap_w c) item.2).

Definition preflight_signed_int64_safety (s : ScenarioInput) (bundle : CompilationBundle)
    (facts : AccountFacts) (background : list Z) (occs : list (FlexibleLoad * LoadOccurrence))
    : result unit :=
  match dr_end (service_window facts) with
  | None => Raise (lfail "UNBOUNDED_BILLING_PERIOD")
  | Some service_end =>
      let slots := profile_slots s in
      let billing_days := service_end - dr_start (service_window facts) in
      st ← foldM (preflight_occurrence s)
             {| pf_stable_maximum := 0; pf_slot_maxima := zeros (length slots); pf_position := 0 |} occs;
      let invariant_energy := zsum background + sum_by (fun lo => required_energy_wh lo.2) occs in
      profile_maxima ← mapM (fun item : Z * Z => m ← py_index (pf_slot_maxima st) item.1; Ok (item.2 + m))
                         (enumerate background);
      _ ← forM_ (preflight_slot_products s (pf_slot_maxima st) profile_maxima) (enumerate slots);
      bound ← foldM (monetary_step invariant_energy billing_days) 0 (operators (ir bundle));
      let entries := Z.of_nat (length occs) * Z.of_nat (length slots) in
      check_int64 [invariant_energy; bound; entries; entries; pf_stable_maximum st;
                   zsum (pf_slot_maxima st) * Z.max 0 (Z.of_nat (length slots) - 1)]
  end.

(** ** The variables of one occurrence *)
Record OccurrenceBuild := { bd_model : CpModel; bd_variables : list cpvar; bd_maxima : list Z }.

(** [model.add(x >= 1).only_enforce_if(b); model.add(x == 0).only_enforce_if(b.Not())]. *)
Definition add_indicator (variable indicator : cpvar) (m : CpModel) : CpModel :=
  cp_add (Linear (lvar variable) CmpEq (lconst 0) (Some (Not indicator)))
    (cp_add (Linear (lvar variable) CmpGe (lconst 1) (Some (Pos indicator))) m).

Definition slot_energy_maximum (hi : Z) (w : Z * Z) (item : Z * CanonicalProfileSlot) : Z :=
  if in_window w item.1 then (hi * ps_duration_seconds item.2) / WATT_SECONDS_PER_WATT_HOUR else 0.

Definition interruptible_slot (id hi lo : Z) (w : Z * Z) (b : OccurrenceBuild)
    (item : Z * CanonicalProfileSlot) : OccurrenceBuild :=
  let maximum := slot_energy_maximum hi w item in
  let variable := energy_var id item.1 in
  let active := active_var id item.1 in
  let m := new_int_var 0 maximum variable (bd_model b) in
  let m := cp_add (Linear (lscale WATT_SECONDS_PER_WATT_HOUR (lvar variable)) CmpLe
                     (lconst (hi * ps_duration_seconds item.2)) None) m in
  let m := add_indicator variable active (new_bool_var active m) in
  let m := if lo =? 0 then m
           else cp_add (Linear (lscale WATT_SECONDS_PER_WATT_HOUR (lvar variable)) CmpGe
                          (lconst (lo * ps_duration_seconds item.2)) (Some (Pos active))) m in
  {| bd_model := m; bd_variables := bd_variables b ++ [variable]; bd_maxima := bd_maxima b ++ [maximum] |}.

(** [range(start, end - len(shape) + 1)]. *)
Definition allowed_starts (shape : list Z) (w : Z * Z) : list Z :=
  seqZ w.1 (w.2 - Z.of_nat (length shape) + 1 - w.1).

Definition contributions (id : Z) (shape : list Z) (starts : list Z) (index : Z) : list (cpvar * Z) :=
  omap (fun candidate =>
          if (candidate <=? index) && (index <? candidate + Z.of_nat (length shape))
          then (fun value => (start_var id candidate, value)) <$> shape !! Z.to_nat (index - candidate)
          else None) starts.

Definition fixed_slot (id : Z) (shape starts : list Z) (b : OccurrenceBuild) (index : Z) : OccurrenceBuild :=
  let cs := contributions id shape starts index in
  let maximum := default 0 (py_max cs.*2) in
  let variable := energy_var id index in
  let m := new_int_var 0 maximum variable (bd_model b) in
  let m := cp_add (Linear (lvar variable) CmpEq (lsum ((fun c => lscale c.2 (lvar c.1)) <$> cs)) None) m in
  {| bd_model := m; bd_variables := bd_variables b ++ [variable]; bd_maxima := bd_maxima b ++ [maximum] |}.

Definition start_build (m : CpModel) : OccurrenceBuild :=
  {| bd_model := m; bd_variables := []; bd_maxima := [] |}.

Definition execution_variables (slots : list CanonicalProfileSlot) (spec : ExecutionSpec) (id : Z)
    (w : Z * Z) (m : CpModel) : result OccurrenceBuild :=
  match spec with
  | InterruptibleModulatingSpec hi lo =>
      Ok (foldl (interruptible_slot id hi lo w) (start_build m) (enumerate slots))
  | ContiguousFixedShapeSpec shape =>
      let starts := allowed_starts shape w in
      _ ← raise_if (bool_decide (starts = [])) contract_violation;
      let m := foldl (fun m candidate => new_bool_var (start_var id candidate) m) m starts in
      let m := cp_add (ExactlyOne (start_var id <$> starts)) m in
      Ok (foldl (fixed_slot id shape starts) (start_build m) (seqZ 0 (Z.of_nat (length slots))))
  end.

Definition create_occurrence_variables (m : CpModel) (s : ScenarioInput)
    (lo : FlexibleLoad * LoadOccurrence) : result OccurrenceBuild :=
  let slots := profile_slots s in
  w ← lowering_window_indices s lo.2;
  b ← execution_variables slots (execution_spec lo.1) (occurrence_id lo.2) w m;
  let m := cp_add (Linear (lsum (lvar <$> bd_variables b)) CmpEq (lconst (required_energy_wh lo.2)) None)
             (bd_model b) in
  _ ← raise_if (negb (bool_decide (length (bd_variables b) = length (reference_energy_wh lo.2))))
        (PyError "ValueError");
  Ok {| bd_model := foldl (fun m vr => add_hint vr.1 vr.2 m) m (zip (bd_variables b) (reference_energy_wh lo.2));
        bd_variables := bd_variables b; bd_maxima := bd_maxima b |}.

(** ** Operators *)
Definition charge_proof (op : CompiledRule) (subterm : string) (r : AlgebraicReason) (invariant_energy : Z)
    : result OmittedChargeProof :=
  _ ← raise_if (invariant_energy <? 0) (ValidationError "OmittedChargeProof");
  Ok {| oc_rule_id := rule_id (ir_base op); oc_operator := operator_name op; oc_subterm := subterm;
        algebraic_reason := r; invariant_total_energy_wh := invariant_energy |}.

Record ActiveState := {
  time_charges : list IRTimeOfUseEnergyCharge;
  proofs : list OmittedChargeProof;
  supported_names : list string
}.

(** The reason an operator is left out of the objective; a time-of-use charge
    is left out only for its credit. *)
Definition omission_reason (op : CompiledRule) : AlgebraicReason :=
  match op with
  | IRBaseline _ | IRSchedule _ => NON_MONETARY_CLASSIFIER
  | IRTiered _ => TOTAL_PROFILE_ENERGY_INVARIANT
  | IRTimeOfUse _ => TOTAL_PROFILE_ENERGY_AND_BASELINE_INVARIANT
  | IRFixedDaily _ => BILLING_DAYS_INVARIANT
  | IRFixedMonthly _ => BILLING_PERIOD_INVARIANT
  | IRUnsupported _ => SUPPORTED_COST_ALWAYS_ZERO
  end.

Definition add_proof (op : CompiledRule) (subterm : string) (r : AlgebraicReason) (invariant_energy : Z)
    (st : ActiveState) : result ActiveState :=
  p ← charge_proof op subterm r invariant_energy;
  Ok {| time_charges := time_charges st; proofs := proofs st ++ [p]; supported_names := supported_names st |}.

Definition active_step (facts : AccountFacts) (bill_cycle_month invariant_energy : Z) (st : ActiveState)
    (op : CompiledRule) : result ActiveState :=
  let st := {| time_charges := time_charges st; proofs := proofs st;
               supported_names := supported_names st ++ [operator_name op] |} in
  if negb (rule_applies (applicability (ir_base op)) facts bill_cycle_month)
  then add_proof op "complete_rule" ACCOUNT_APPLICABILITY_FALSE invariant_energy st
  else match op with
       | IRTimeOfUse r =>
           _ ← raise_if (negb (bool_decide (rounding (ir_tc_base r) = HALF_UP_CENT_AT_LINE_ITEM)))
                 (lfail "UNSUPPORTED_IR_ROUNDING");
           let st := {| time_charges := time_charges st ++ [r]; proofs := proofs st;
                        supported_names := supported_names st |} in
           match baseline_credit_microdollars_per_kwh r with
           | Some _ => add_proof op "baseline_credit" (omission_reason op) invariant_energy st
           | None => Ok st
           end
       | _ => add_proof op "complete_rule" (omission_reason op) invariant_energy st
       end.

Definition active_operators_and_proofs (bundle : CompilationBundle) (facts : AccountFacts)
    (invariant_energy : Z)
    : result (list IRTimeOfUseEnergyCharge * list OmittedChargeProof * list string) :=
  match dr_end (service_window facts) with
  | None => Raise (lfail "UNBOUNDED_BILLING_PERIOD")
  | Some service_end =>
      st ← foldM (active_step facts (date_month service_end) invariant_energy)
             {| time_charges := []; proofs := []; supported_names := [] |} (operators (ir bundle));
      Ok (time_charges st, proofs st, sorted_set (supported_names st))
  end.

(** ** Periods and rates of the slots *)
Section Lower.
Context `{ZoneInfo} `{Sha256}.

(** [except ReplayError as error: _fail(error.code, ...)]. *)
Definition reraise_replay {A} (m : result A) : result A :=
  match m with Raise (ReplayError code) => Raise (lfail code) | _ => m end.

Definition rate_by_period (op : IRTimeOfUseEnergyCharge) : dict TimeOfUsePeriod Z :=
  foldl (fun d r => dict_set (irp_period r) (irp_rate_microdollars_per_kwh r) d) [] (period_rates op).

Definition slot_period (schedule : IRTimeOfUseSchedule) (window : DateRange) (slot : CanonicalProfileSlot)
    : result TimeOfUsePeriod :=
  classify_interval_period schedule (ps_start_utc slot) (ps_duration_seconds slot) window.

Record RateState := { rt_periods : list TimeOfUsePeriod; rt_marginal : list Z }.

Definition slot_rate_step (schedule : IRTimeOfUseSchedule) (window : DateRange)
    (rates : dict TimeOfUsePeriod Z) (st : RateState) (item : Z * CanonicalProfileSlot)
    : result RateState :=
  p ← reraise_replay (slot_period schedule window item.2);
  match dict_get p rates with
  | None => Raise (lfail "UNSUPPORTED_IR_PERIOD")
  | Some rate => Ok {| rt_periods := rt_periods st ++ [p];
                       rt_marginal := alter (Z.add rate) (Z.to_nat item.1) (rt_marginal st) |}
  end.

Definition charge_rate_step (s : ScenarioInput) (bundle : CompilationBundle) (facts : AccountFacts)
    (st : dict string (list TimeOfUsePeriod) * list Z) (op : IRTimeOfUseEnergyCharge)
    : result (dict string (list TimeOfUsePeriod) * list Z) :=
  schedule ← resolve_time_schedule bundle (schedule_rule_id op);
  out ← foldM (slot_rate_step schedule (service_window facts) (rate_by_period op))
          {| rt_periods := []; rt_marginal := st.2 |} (enumerate (profile_slots s));
  Ok (dict_set (rule_id (ir_tc_base op)) (rt_periods out) st.1, rt_marginal out).

(** [rank_by_rate = {rate: rank for rank, rate in enumerate(sorted(distinct))}]. *)
Definition rank_by_rate (marginal_rates : list Z) : dict Z Z :=
  (fun item => (item.2, item.1)) <$> enumerate (sorted_set marginal_rates).
Definition ranks_of (marginal_rates : list Z) : result (list Z) :=
  mapM (fun rate => match dict_get rate (rank_by_rate marginal_rates) with
                    | Some rank => Ok rank
                    | None => Raise (PyError "KeyError")
                    end) marginal_rates.

Definition slot_periods_and_rates (s : ScenarioInput) (bundle : CompilationBundle) (facts : AccountFacts)
    (charges : list IRTimeOfUseEnergyCharge)
    : result (dict string (list TimeOfUsePeriod) * list Z * list Z) :=
  st ← foldM (charge_rate_step s bundle facts) ([], zeros (length (profile_slots s))) charges;
  ranks ← ranks_of st.2;
  Ok (st.1, st.2, ranks).

(** ** Rounded cents *)
Definition rounded_cents_variable (m : CpModel) (quantity : cpvar) (quantity_maximum rate : Z)
    (name : cpvar) : result (CpModel * (Z * Z)) :=
  let magnitude := Z.abs rate in
  let numerator_maximum := quantity_maximum * magnitude + HALF_CENT_NUMERATOR in
  let rounded_maximum := numerator_maximum / WATT_HOUR_RATE_TO_CENTS_DENOMINATOR in
  _ ← check_int64 [numerator_maximum; rounded_maximum];
  let m := new_int_var 0 rounded_maximum name m in
  let m := cp_add (DivisionEquality name
                     (ladd (lscale magnitude (lvar quantity)) (lconst HALF_CENT_NUMERATOR))
                     WATT_HOUR_RATE_TO_CENTS_DENOMINATOR) m in
  Ok (m, (if rate <? 0 then -1 else 1, rounded_maximum)).

(** ** The whole lowering *)
Record LoweringState := {
  lw_model : CpModel;
  lw_energy : dict uuid (list cpvar);
  lw_maximum : dict uuid (list Z);
  lw_changed : list cpvar;
  lw_completion : list cpvar;
  lw_stable : list LinearExpr;
  lw_position : Z
}.

(** One slot of an occurrence: its changed and completion indicators and its
    term of the stable score. *)
Record EntryState := {
  en_model : CpModel; en_changed : list cpvar; en_active : list cpvar;
  en_stable : list LinearExpr; en_position : Z
}.
Definition entry_step (id : Z) (reference : list Z) (st : EntryState) (item : Z * cpvar)
    : result EntryState :=
  let '(index, variable) := item in
  ref ← py_index reference index;
  let changed := changed_var id index in
  let active := completion_active_var id index in
  let m := new_bool_var changed (en_model st) in
  let m := cp_add (Linear (lvar variable) CmpEq (lconst ref) (Some (Not changed))) m in
  let m := cp_add (Linear (lvar variable) CmpNe (lconst ref) (Some (Pos changed))) m in
  let m := add_indicator variable active (new_bool_var active m) in
  let position := en_position st + 1 in
  Ok {| en_model := m; en_changed := en_changed st ++ [changed]; en_active := en_active st ++ [active];
        en_stable := en_stable st ++ [lscale position (lvar variable)]; en_position := position |}.

Definition occurrence_step (s : ScenarioInput) (st : LoweringState) (lo : FlexibleLoad * LoadOccurrence)
    : result LoweringState :=
  let id := occurrence_id lo.2 in
  b ← create_occurrence_variables (lw_model st) s lo;
  en ← foldM (entry_step id (reference_energy_wh lo.2))
         {| en_model := bd_model b; en_changed := lw_changed st; en_active := [];
            en_stable := lw_stable st; en_position := lw_position st |} (enumerate (bd_variables b));
  let completion := completion_var id in
  let m := new_int_var 1 (Z.of_nat (length (profile_slots s))) completion (en_model en) in
  let m := cp_add (MaxEquality completion
                     ((fun ia => lscale (ia.1 + 1) (lvar ia.2)) <$> enumerate (en_active en))) m in
  Ok {| lw_model := m; lw_energy := dict_set id (bd_variables b) (lw_energy st);
        lw_maximum := dict_set id (bd_maxima b) (lw_maximum st);
        lw_changed := en_changed en; lw_completion := lw_completion st ++ [completion];
        lw_stable := en_stable en; lw_position := en_position en |}.

Record SlotState := {
  sl_model : CpModel; sl_profile : list LinearExpr; sl_maxima : list Z
}.
Definition add_cap (cap : option Z) (e : LinearExpr) (slot : CanonicalProfileSlot) (m : CpModel) : CpModel :=
  match cap with
  | Some c => cp_add (Linear (lscale WATT_SECONDS_PER_WATT_HOUR e) CmpLe
                        (lconst (c * ps_duration_seconds slot)) None) m
  | None => m
  end.
Definition profile_step (s : ScenarioInput) (background : list Z) (energy : dict uuid (list cpvar))
    (maximum : dict uuid (list Z)) (st : SlotState) (item : Z * CanonicalProfileSlot) : result SlotState :=
  let '(index, slot) := item in
  slot_variables ← mapM (fun kv : uuid * list cpvar => py_index kv.2 index) energy;
  let flexible := lsum (lvar <$> slot_variables) in
  fixed ← py_index background index;
  let profile := ladd flexible (lconst fixed) in
  maxima ← mapM (fun kv : uuid * list Z => py_index kv.2 index) maximum;
  let flexible_maximum := zsum maxima in
  let profile_maximum := flexible_maximum + fixed in
  _ ← check_int64 [flexible_maximum; profile_maximum; profile_maximum * WATT_SECONDS_PER_WATT_HOUR];
  let c := electrical_constraints s in
  let m := add_cap (site_import_cap_w c) profile slot (sl_model st) in
  let m := add_cap (flexible_load_aggregate_cap_w c) flexible slot m in
  Ok {| sl_model := m; sl_profile := sl_profile st ++ [profile];
        sl_maxima := sl_maxima st ++ [profile_maximum] |}.

(** [(operator.rule_id, f"{operator.line_item_key}.{period_rate.period.lower()}")]. *)
Definition period_line_key (op : IRTimeOfUseEnergyCharge) (r : IRTimeOfUsePeriodRate) : string * string :=
  (rule_id (ir_tc_base op), ir_tc_line_item_key op +:+ "." +:+ str_lower (period_str (irp_period r))).
Definition variable_reference_keys (charges : list IRTimeOfUseEnergyCharge) : list (string * string) :=
  charges ≫= fun op => period_line_key op <$> period_rates op.
Definition reference_variable_cents (charges : list IRTimeOfUseEnergyCharge) (billing : ReplayResult) : Z :=
  sum_by rounded_cents
    (List.filter (fun l => mem (li_rule_id l, line_item_key l) (variable_reference_keys charges))
       (line_items billing)).

Record CostState := {
  co_model : CpModel; co_terms : list LinearExpr; co_minimum : Z; co_maximum : Z
}.
Definition period_indices (p : TimeOfUsePeriod) (periods : list TimeOfUsePeriod) : list Z :=
  (List.filter (fun ip : Z * TimeOfUsePeriod => bool_decide (ip.2 = p)) (enumerate periods)).*1.
Definition cost_rate_step (op : IRTimeOfUseEnergyCharge) (periods : list TimeOfUsePeriod)
    (profile : list LinearExpr) (maxima : list Z) (st : CostState) (r : IRTimeOfUsePeriodRate)
    : result CostState :=
  let indices := period_indices (irp_period r) periods in
  bounds ← mapM (py_index maxima) indices;
  let quantity_maximum := zsum bounds in
  let quantity := quantity_var (rule_id (ir_tc_base op)) (irp_period r) in
  let cents := cents_var (rule_id (ir_tc_base op)) (irp_period r) in
  let m := new_int_var 0 quantity_maximum quantity (co_model st) in
  exprs ← mapM (py_index profile) indices;
  let m := cp_add (Linear (lvar quantity) CmpEq (lsum exprs) None) m in
  rounded ← rounded_cents_variable m quantity quantity_maximum (irp_rate_microdollars_per_kwh r) cents;
  let '(m, (sign, rounded_maximum)) := rounded in
  Ok {| co_model := m; co_terms := co_terms st ++ [lscale sign (lvar cents)];
        co_minimum := if 0 <? sign then co_minimum st else co_minimum st - rounded_maximum;
        co_maximum := if 0 <? sign then co_maximum st + rounded_maximum else co_maximum st |}.
Definition cost_charge_step (periods_by_rule : dict string (list TimeOfUsePeriod))
    (profile : list LinearExpr) (maxima : list Z) (st : CostState) (op : IRTimeOfUseEnergyCharge)
    : result CostState :=
  match dict_get (rule_id (ir_tc_base op)) periods_by_rule with
  | None => Raise (PyError "KeyError")
  | Some periods => foldM (cost_rate_step op periods profile maxima) st (period_rates op)
  end.

Definition rank_payload (s : ScenarioInput) (marginal ranks : list Z) : json :=
  JObj [("contract_version", JStr "off-peak-rank-v1");
        ("tariff_version_id", JStr (sc_tariff_version_id s));
        ("slots", JList ((fun x : CanonicalProfileSlot * (Z * Z) =>
           JObj [("slot_start_utc", JStr (datetime_isoformat (ps_start_utc x.1)));
                 ("duration_seconds", JInt (ps_duration_seconds x.1));
                 ("marginal_rate_microdollars_per_kwh", JInt x.2.1);
                 ("off_peak_rank", JInt x.2.2)]) <$> zip (profile_slots s) (zip marginal ranks)))].

Definition lowering_payload (s : ScenarioInput) (names : list string) (constant invariant_energy : Z)
    (ps : list OmittedChargeProof) (ranks : list Z) (rank_hash : string) (b : ObjectiveBounds) : json :=
  JObj [("tariff_version_id", JStr (sc_tariff_version_id s));
        ("supported_operators", jstr_list (fun n => n) names);
        ("constant_supported_cost_cents", JInt constant);
        ("invariant_total_profile_energy_wh", JInt invariant_energy);
        ("omitted_charge_proofs", JList (OmittedChargeProof_dump <$> ps));
        ("off_peak_ranks", JList (JInt <$> ranks));
        ("rank_calendar_sha256", JStr rank_hash);
        ("objective_bounds", ObjectiveBounds_dump b)].

(** [maximum_by_occurrence[occurrence.occurrence_id]] in canonical order. *)
Definition canonical_maxima (occs : list (FlexibleLoad * LoadOccurrence)) (maximum : dict uuid (list Z))
    : result (list (list Z)) :=
  mapM (fun lo => match dict_get (occurrence_id lo.2) maximum with
                  | Some l => Ok l
                  | None => Raise (PyError "KeyError")
                  end) occs.

Definition guard_lowering (s : ScenarioInput) (bundle : CompilationBundle) : result unit :=
  _ ← raise_if (negb (String.eqb (sc_tariff_version_id s) (ir_tariff_version_id (ir bundle))))
        (lfail "TARIFF_VERSION_MISMATCH");
  _ ← raise_if (negb (bool_decide (solver_lowering_unsupported_reasons (reports bundle) = [])))
        (lfail "TARIFF_OPTIMIZATION_UNAVAILABLE");
  raise_if (bool_decide (solver_lowering_supported_operators (reports bundle) = []))
    (lfail "TARIFF_OPTIMIZATION_UNAVAILABLE").

Definition compile_scenario_model (validated : ValidatedScenario) (bundle : CompilationBundle)
    (facts : AccountFacts) (reference_billing : ReplayResult) : result LoweredScenarioModel :=
  let s := scenario validated in
  let slots := profile_slots s in
  _ ← guard_lowering s bundle;
  let occs := lowering_occurrences s in
  let background := es_energy_wh <$> fixed_background (decomposition validated) in
  let invariant_energy := zsum background + sum_by (fun lo => required_energy_wh lo.2) occs in
  active ← active_operators_and_proofs bundle facts invariant_energy;
  let '(charges, ps, names) := active in
  rates ← slot_periods_and_rates s bundle facts charges;
  let '(periods_by_rule, marginal, ranks) := rates in
  _ ← preflight_signed_int64_safety s bundle facts background occs;
  st ← foldM (occurrence_step s)
         {| lw_model := empty_model; lw_energy := []; lw_maximum := []; lw_changed := [];
            lw_completion := []; lw_stable := []; lw_position := 0 |} occs;
  sl ← foldM (profile_step s background (lw_energy st) (lw_maximum st))
         {| sl_model := lw_model st; sl_profile := []; sl_maxima := [] |} (enumerate slots);
  let constant_cost :=
    supported_calculated_cents reference_billing - reference_variable_cents charges reference_billing in
  co ← foldM (cost_charge_step periods_by_rule (sl_profile sl) (sl_maxima sl))
         {| co_model := sl_model sl; co_terms := [lconst constant_cost]; co_minimum := constant_cost;
            co_maximum := constant_cost |} charges;
  proxy_terms ← mapM (fun iv : Z * cpvar => rank ← py_index ranks iv.1; Ok (lscale rank (lvar iv.2)))
                  ((lw_energy st) ≫= fun kv => enumerate kv.2);
  let entries := Z.of_nat (length occs) * Z.of_nat (length slots) in
  maxima ← canonical_maxima occs (lw_maximum st);
  let maximum_stable := sum_by (fun pm => pm.2 * (pm.1 + 1)) (enumerate (concat maxima)) in
  let maximum_proxy := sum_by (fun l => zsum (zip_with Z.mul l ranks)) maxima in
  _ ← check_int64 [invariant_energy; co_minimum co; co_maximum co; entries; entries; maximum_stable;
                   maximum_proxy];
  let rank_hash := canonical_content_sha256 "RateReplay.OffPeakRankCalendar.v1"
                     (rank_payload s marginal ranks) in
  let bounds :=
    {| minimum_supported_cost_cents := co_minimum co; maximum_supported_cost_cents := co_maximum co;
       maximum_changed_occurrence_slot_count := entries; maximum_completion_slot_index_sum := entries;
       maximum_stable_slot_order_score := maximum_stable; maximum_proxy_rank_score := maximum_proxy |} in
  _ ← raise_if (negb (objective_bounds_valid bounds)) (ValidationError "ObjectiveBounds");
  _ ← raise_if (invariant_energy <? 0) (ValidationError "LoweringRecord");
  Ok {| lowered_model := co_model co; energy_by_occurrence := lw_energy st;
        objectives := {| supported_cost := lsum (co_terms co);
                         changed_occurrence_slots := lsum (lvar <$> lw_changed st);
                         completion_slot_index_sum_expr := lsum (lvar <$> lw_completion st);
                         stable_slot_order_score_expr := lsum (lw_stable st);
                         proxy_rank_score := lsum proxy_terms |};
        lowering_record :=
          {| lr_tariff_version_id := sc_tariff_version_id s; supported_operators := names;
             constant_supported_cost_cents := constant_cost;
             invariant_total_profile_energy_wh := invariant_energy; omitted_charge_proofs := ps;
             off_peak_ranks := ranks; rank_calendar_sha256 := rank_hash; objective_bounds := bounds;
             lowering_sha256 := canonical_content_sha256 "RateReplay.CpSatChargeLowering.v1"
                                  (lowering_payload s names constant_cost invariant_energy ps ranks
                                     rank_hash bounds) |} |}.
End Lower.
