(* ===== verification/LoweringModel.v ===== *)
(** * LoweringModel: what the lowered constraint model says

    Each construction loop of [compile_scenario_model] is shown to add exactly
    the constraints of one block: an assignment satisfies the model after the
    loop iff it satisfied the model before it and the block ([execution_sat],
    [entry_sat], [occurrence_sat], [cap_sat], [charge_sat]).  The variables, the
    objective terms and the maxima the loops collect are given in closed form. *)

From S2P Require Import Prelude Calendar Json Schema Compiled Eligibility DayEnergy Replay.
From S2P Require Import CpModel OptimizerModels Scenario ScenarioProofs Verification VerificationProofs Lowering.

(** ** Generic lemmas *)
Notation indices n := (seqZ 0 (Z.of_nat n)).

Lemma enumerate_from_keys {A} k (l : list A) : (enumerate_from k l).*1 = seqZ k (Z.of_nat (length l)).
Proof.
  revert k. induction l as [|x l IH]; intros k; [done|]. cbn [enumerate_from length]. rewrite fmap_cons, IH.
  rewrite (seqZ_cons k) by lia. cbn. f_equal. f_equal; lia.
Qed.
Lemma length_enumerate_from {A} k (l : list A) : length (enumerate_from k l) = length l.
Proof. revert k. induction l; intros k; cbn; [done|]. by rewrite IHl. Qed.
Lemma enumerate_from_app {A} k (l1 l2 : list A) :
  enumerate_from k (l1 ++ l2) = enumerate_from k l1 ++ enumerate_from (k + Z.of_nat (length l1)) l2.
Proof.
  revert k. induction l1 as [|x l1 IH]; intros k; cbn [app length enumerate_from]; [by rewrite Z.add_0_r|].
  rewrite IH. cbn. do 3 f_equal. lia.
Qed.
Lemma enumerate_from_fmap {A B} (f : A -> B) k (l : list A) :
  enumerate_from k (f <$> l) = (fun ix => (ix.1, f ix.2)) <$> enumerate_from k l.
Proof. revert k. induction l as [|x l IH]; intros k; [done|]. rewrite fmap_cons. cbn [enumerate_from]. by rewrite IH. Qed.
Lemma enumerate_from_seqZ {B} (f : Z -> B) k n :
  enumerate_from k (f <$> seqZ k (Z.of_nat n)) = (fun i => (i, f i)) <$> seqZ k (Z.of_nat n).
Proof.
  revert k. induction n as [|n IH]; intros k; [done|]. rewrite seqZ_cons by lia. cbn [fmap list_fmap enumerate_from].
  replace (Z.pred (Z.of_nat (S n))) with (Z.of_nat n) by lia. rewrite <- Z.add_1_r. by rewrite <- IH.
Qed.
Lemma seqZ_lookup_nat n i : (i < n)%nat -> indices n !! i = Some (Z.of_nat i).
Proof. intros. rewrite lookup_seqZ_lt by lia. f_equal; lia. Qed.
Lemma elem_of_indices n i : i ∈ indices n <-> 0 <= i < Z.of_nat n.
Proof. rewrite elem_of_seqZ. lia. Qed.
Lemma length_indices n : length (indices n) = n.
Proof. rewrite length_seqZ. lia. Qed.

Lemma Forall_enumerate {A} (P : Z * A -> Prop) (l : list A) :
  Forall P (enumerate l) <-> forall i x, l !! i = Some x -> P (Z.of_nat i, x).
Proof.
  rewrite Forall_forall. split.
  - intros HP i x Hx. apply HP, elem_of_enumerate. exists i. split; [lia|done].
  - intros HP [i x] (n & -> & Hn)%elem_of_enumerate. rewrite Z.add_0_l. by apply HP.
Qed.

Lemma zsum_fmap_sum_by {A} (f : A -> Z) l : zsum (f <$> l) = sum_by f l.
Proof. done. Qed.

(** ** Execution variables *)
Definition slot_energy (a : assignment) (id i : Z) : Z := a (energy_var id i).
Definition occurrence_energy (a : assignment) (n : nat) (id : Z) : list Z := slot_energy a id <$> indices n.

(** A 0/1 indicator of a positive integer. *)
Definition indicates (b e : Z) : Prop := 0 <= b <= 1 /\ (b = 1 -> 1 <= e) /\ (b = 0 -> e = 0).

Definition interruptible_sat (a : assignment) (id hi lo : Z) (w : Z * Z)
    (item : Z * CanonicalProfileSlot) : Prop :=
  let e := slot_energy a id item.1 in
  let b := a (active_var id item.1) in
  0 <= e <= slot_energy_maximum hi w item /\ 3600 * e <= hi * ps_duration_seconds item.2 /\
  indicates b e /\ (lo <> 0 -> b = 1 -> lo * ps_duration_seconds item.2 <= 3600 * e).

Definition fixed_maximum (id : Z) (shape starts : list Z) (i : Z) : Z :=
  default 0 (py_max (contributions id shape starts i).*2).
Definition fixed_sat (a : assignment) (id : Z) (shape starts : list Z) (i : Z) : Prop :=
  0 <= slot_energy a id i <= fixed_maximum id shape starts i /\
  slot_energy a id i = sum_by (fun c => c.2 * a c.1) (contributions id shape starts i).

Definition execution_sat (a : assignment) (slots : list CanonicalProfileSlot) (spec : ExecutionSpec)
    (id : Z) (w : Z * Z) : Prop :=
  match spec with
  | InterruptibleModulatingSpec hi lo => Forall (interruptible_sat a id hi lo w) (enumerate slots)
  | ContiguousFixedShapeSpec shape =>
      let starts := allowed_starts shape w in
      Forall (fun k => 0 <= a (start_var id k) <= 1) starts /\
      sum_by (fun k => a (start_var id k)) starts = 1 /\
      Forall (fixed_sat a id shape starts) (indices (length slots))
  end.
Definition execution_maxima (slots : list CanonicalProfileSlot) (spec : ExecutionSpec) (id : Z) (w : Z * Z)
    : list Z :=
  match spec with
  | InterruptibleModulatingSpec hi lo => slot_energy_maximum hi w <$> enumerate slots
  | ContiguousFixedShapeSpec shape => fixed_maximum id shape (allowed_starts shape w) <$> indices (length slots)
  end.

Lemma satisfies_indicator a v b m :
  satisfies a (add_indicator v b (new_bool_var b m)) <-> satisfies a m /\ indicates (a b) (a v).
Proof.
  unfold add_indicator, indicates. autorewrite with satisfies. cbn [holds literal_holds cmp_holds].
  autorewrite with leval. tauto.
Qed.

Lemma interruptible_slot_sat a id hi lo w b item :
  satisfies a (bd_model (interruptible_slot id hi lo w b item)) <->
  satisfies a (bd_model b) /\ interruptible_sat a id hi lo w item.
Proof.
  unfold interruptible_slot, interruptible_sat, slot_energy. cbn [bd_model].
  destruct (Z.eqb_spec lo 0) as [->|Hlo]; autorewrite with satisfies;
    rewrite satisfies_indicator; autorewrite with satisfies; cbn [holds literal_holds cmp_holds];
    autorewrite with leval; unfold WATT_SECONDS_PER_WATT_HOUR; tauto.
Qed.

Lemma interruptible_fold_vars id hi lo w items b :
  bd_variables (foldl (interruptible_slot id hi lo w) b items)
  = bd_variables b ++ (energy_var id <$> items.*1) /\
  bd_maxima (foldl (interruptible_slot id hi lo w) b items)
  = bd_maxima b ++ (slot_energy_maximum hi w <$> items).
Proof.
  revert b. induction items as [|x items IH]; intros b; cbn [foldl]; [by rewrite !app_nil_r|].
  destruct (IH (interruptible_slot id hi lo w b x)) as [-> ->]. cbn [bd_variables bd_maxima interruptible_slot].
  rewrite !fmap_cons, <- !app_assoc. done.
Qed.

Lemma fixed_slot_sat a id shape starts b i :
  satisfies a (bd_model (fixed_slot id shape starts b i)) <->
  satisfies a (bd_model b) /\ fixed_sat a id shape starts i.
Proof.
  unfold fixed_slot, fixed_sat, fixed_maximum, slot_energy. cbn [bd_model]. autorewrite with satisfies.
  cbn [holds cmp_holds]. autorewrite with leval. rewrite sum_by_fmap.
  rewrite (sum_by_ext (fun x => leval a (lscale x.2 (lvar x.1))) (fun c => c.2 * a c.1))
    by (intros; by rewrite leval_scale, leval_var). tauto.
Qed.

Lemma fixed_fold_vars id shape starts ks b :
  bd_variables (foldl (fixed_slot id shape starts) b ks) = bd_variables b ++ (energy_var id <$> ks) /\
  bd_maxima (foldl (fixed_slot id shape starts) b ks) = bd_maxima b ++ (fixed_maximum id shape starts <$> ks).
Proof.
  revert b. induction ks as [|x ks IH]; intros b; cbn [foldl]; [by rewrite !app_nil_r|].
  destruct (IH (fixed_slot id shape starts b x)) as [-> ->]. cbn [bd_variables bd_maxima fixed_slot].
  rewrite !fmap_cons, <- !app_assoc. done.
Qed.

Lemma start_vars_sat a id starts m :
  satisfies a (foldl (fun m k => new_bool_var (start_var id k) m) m starts) <->
  satisfies a m /\ Forall (fun k => 0 <= a (start_var id k) <= 1) starts.
Proof.
  apply (satisfies_foldl (fun m : CpModel => m)). intros. by autorewrite with satisfies.
Qed.

Lemma execution_variables_ok slots spec id w m b :
  execution_variables slots spec id w m = Ok b ->
  bd_variables b = energy_var id <$> indices (length slots) /\
  bd_maxima b = execution_maxima slots spec id w /\
  (forall a, satisfies a (bd_model b) <-> satisfies a m /\ execution_sat a slots spec id w).
Proof.
  destruct spec as [hi lo|shape]; cbn [execution_variables execution_maxima execution_sat]; intros Hb; inv_ok; subst b.
  - destruct (interruptible_fold_vars id hi lo w (enumerate slots) (start_build m)) as [-> ->].
    rewrite enumerate_from_keys. cbn. split; [done|]. split; [done|]. intros a.
    rewrite (satisfies_foldl bd_model _ (interruptible_sat a id hi lo w)); [done|].
    intros; apply interruptible_slot_sat.
  - match goal with |- context [foldl (fixed_slot _ _ _) ?b _] => set (b0 := b) end.
    destruct (fixed_fold_vars id shape (allowed_starts shape w) (indices (length slots)) b0) as [-> ->].
    split; [done|]. split; [done|]. intros a.
    rewrite (satisfies_foldl bd_model _ (fixed_sat a id shape (allowed_starts shape w)));
      [|intros; apply fixed_slot_sat].
    unfold b0. cbn [bd_model start_build]. autorewrite with satisfies. rewrite start_vars_sat.
    cbn [holds]. rewrite sum_by_fmap. tauto.
Qed.

(** ** One occurrence *)
Lemma satisfies_hints a vrs m :
  satisfies a (foldl (fun m (vr : cpvar * Z) => add_hint vr.1 vr.2 m) m vrs) <-> satisfies a m.
Proof. revert m. induction vrs as [|vr vrs IH]; intros m; cbn [foldl]; [done|]. by rewrite IH. Qed.

Lemma create_occurrence_variables_ok m s lo b :
  create_occurrence_variables m s lo = Ok b ->
  exists w, lowering_window_indices s lo.2 = Ok w /\
    length (reference_energy_wh lo.2) = length (profile_slots s) /\
    bd_variables b = energy_var (occurrence_id lo.2) <$> indices (length (profile_slots s)) /\
    bd_maxima b = execution_maxima (profile_slots s) (execution_spec lo.1) (occurrence_id lo.2) w /\
    forall a, satisfies a (bd_model b) <->
      satisfies a m /\ execution_sat a (profile_slots s) (execution_spec lo.1) (occurrence_id lo.2) w /\
      zsum (occurrence_energy a (length (profile_slots s)) (occurrence_id lo.2)) = required_energy_wh lo.2.
Proof.
  intros Hb. unfold create_occurrence_variables in Hb. apply bind_ok in Hb as (w & Hw & Hb).
  apply bind_ok in Hb as (b' & Hb' & Hb). apply bind_ok in Hb as (u & Hu & [= <-]).
  apply raise_if_ok in Hu. bools.
  apply execution_variables_ok in Hb' as (Hv & Hm & Hsat). exists w. cbn [bd_variables bd_maxima bd_model].
  split; [done|]. split; [rewrite <- Hu, Hv, length_fmap; apply length_indices|]. split; [done|]. split; [done|].
  intros a. rewrite satisfies_hints. autorewrite with satisfies. rewrite Hsat. cbn [holds cmp_holds].
  rewrite leval_sum_vars, leval_const, Hv, <- list_fmap_compose. unfold occurrence_energy.
  change (a ∘ energy_var (occurrence_id lo.2)) with (slot_energy a (occurrence_id lo.2)). tauto.
Qed.

Definition entry_sat (a : assignment) (id : Z) (entry : Z * Z) : Prop :=
  let e := slot_energy a id entry.1 in
  let c := a (changed_var id entry.1) in
  0 <= c <= 1 /\ (c = 0 -> e = entry.2) /\ (c = 1 -> e <> entry.2) /\
  indicates (a (completion_active_var id entry.1)) e.

Definition stable_terms (position : Z) (vs : list cpvar) : list LinearExpr :=
  (fun pv => lscale (pv.1 + 1) (lvar pv.2)) <$> enumerate_from position vs.

Lemma entry_fold id refs ks st out :
  foldM (entry_step id refs) st ((fun i => (i, energy_var id i)) <$> ks) = Ok out ->
  Forall (fun i => 0 <= i) ks ->
  en_changed out = en_changed st ++ (changed_var id <$> ks) /\
  en_active out = en_active st ++ (completion_active_var id <$> ks) /\
  en_stable out = en_stable st ++ stable_terms (en_position st) (energy_var id <$> ks) /\
  en_position out = en_position st + Z.of_nat (length ks) /\
  exists rs, Forall2 (fun i r => refs !! Z.to_nat i = Some r) ks rs /\
    forall a, satisfies a (en_model out) <-> satisfies a (en_model st) /\ Forall (entry_sat a id) (zip ks rs).
Proof.
  revert st. induction ks as [|i ks IH]; intros st Hf Hpos; cbn [foldM fmap list_fmap] in Hf.
  { injection Hf as <-. rewrite !app_nil_r. split; [done|]. split; [done|]. split; [done|]. split; [cbn; lia|].
    exists (@nil Z). split; [constructor|]. intros a. cbn. rewrite Forall_nil. tauto. }
  apply Forall_cons in Hpos as [Hi Hpos].
  apply bind_ok in Hf as (st' & Hst & Hf). unfold entry_step in Hst.
  apply bind_ok in Hst as (r & Hr & [= Hst]). apply py_index_ok in Hr.
  destruct (IH st' Hf Hpos) as (-> & -> & -> & -> & rs & Hrs & Hsat). subst st'.
  cbn [en_changed en_active en_stable en_position en_model] in *.
  rewrite <- !app_assoc, !fmap_cons. split; [done|]. split; [done|]. split; [done|].
  split; [cbn [length]; lia|]. exists (r :: rs). split; [by constructor|]. intros a.
  rewrite Hsat, satisfies_indicator. autorewrite with satisfies. cbn [zip_with holds literal_holds cmp_holds].
  rewrite Forall_cons. autorewrite with leval. unfold entry_sat, slot_energy at 1 2 3. cbn [fst snd]. tauto.
Qed.

(** [rs] are the entries of [refs] at [0 .. n-1]. *)
Lemma references_of_indices (refs rs : list Z) n :
  length refs = n -> Forall2 (fun i r => refs !! Z.to_nat i = Some r) (indices n) rs -> rs = refs.
Proof.
  intros Hlen HF. apply list_eq. intros i. destruct (rs !! i) as [r|] eqn:E.
  - destruct (Forall2_lookup_r _ _ _ _ _ HF E) as (k & Hk & Hr).
    apply lookup_seqZ in Hk as [-> _]. by replace (Z.to_nat (0 + Z.of_nat i)) with i in Hr by lia.
  - apply lookup_ge_None in E. symmetry. apply lookup_ge_None. apply Forall2_length in HF.
    rewrite length_indices in HF. lia.
Qed.

Definition completion_sat (a : assignment) (n : nat) (id : Z) : Prop :=
  1 <= a (completion_var id) <= Z.of_nat n /\
  Forall (fun i => (i + 1) * a (completion_active_var id i) <= a (completion_var id)) (indices n) /\
  Exists (fun i => (i + 1) * a (completion_active_var id i) = a (completion_var id)) (indices n).

Definition occurrence_sat (a : assignment) (s : ScenarioInput) (lo : FlexibleLoad * LoadOccurrence)
    (w : Z * Z) : Prop :=
  let id := occurrence_id lo.2 in
  let n := length (profile_slots s) in
  execution_sat a (profile_slots s) (execution_spec lo.1) id w /\
  zsum (occurrence_energy a n id) = required_energy_wh lo.2 /\
  Forall (entry_sat a id) (zip (indices n) (reference_energy_wh lo.2)) /\
  completion_sat a n id.

Definition occurrence_variables (n : nat) (id : Z) : list cpvar := energy_var id <$> indices n.

Lemma occurrence_step_ok s st lo out :
  occurrence_step s st lo = Ok out ->
  let id := occurrence_id lo.2 in
  let n := length (profile_slots s) in
  exists w, lowering_window_indices s lo.2 = Ok w /\
    lw_energy out = dict_set id (occurrence_variables n id) (lw_energy st) /\
    lw_maximum out = dict_set id (execution_maxima (profile_slots s) (execution_spec lo.1) id w) (lw_maximum st) /\
    lw_changed out = lw_changed st ++ (changed_var id <$> indices n) /\
    lw_completion out = lw_completion st ++ [completion_var id] /\
    lw_stable out = lw_stable st ++ stable_terms (lw_position st) (occurrence_variables n id) /\
    lw_position out = lw_position st + Z.of_nat n /\
    forall a, satisfies a (lw_model out) <-> satisfies a (lw_model st) /\ occurrence_sat a s lo w.
Proof.
  cbv zeta. set (n := length (profile_slots s)). set (id := occurrence_id lo.2).
  intros Hs. unfold occurrence_step in Hs. apply bind_ok in Hs as (b & Hb & Hs).
  apply bind_ok in Hs as (en & Hen & [= <-]).
  apply create_occurrence_variables_ok in Hb as (w & Hw & Hlen & Hv & Hm & Hsat).
  rewrite Hv, enumerate_from_seqZ in Hen. apply entry_fold in Hen as (Hc & Hact & Hst & Hpos & rs & Hrs & Hen);
    [|apply Forall_forall; intros i Hi%elem_of_indices; lia].
  apply (references_of_indices _ _ _ Hlen) in Hrs as ->.
  exists w. cbn [lw_energy lw_maximum lw_changed lw_completion lw_stable lw_position lw_model].
  cbn [en_changed en_active en_stable en_position en_model] in *.
  split; [done|]. rewrite Hv, Hm. split; [done|]. split; [done|]. split; [done|]. split; [done|]. split; [done|].
  split; [rewrite Hpos, length_indices; done|]. intros a. autorewrite with satisfies. rewrite Hen, Hsat.
  cbn [holds]. rewrite Hact. cbn [app]. rewrite enumerate_from_seqZ, !Forall_fmap, !Exists_fmap.
  unfold occurrence_sat, completion_sat, compose. fold id n.
  setoid_rewrite leval_scale. setoid_rewrite leval_var. cbn [fst snd]. tauto.
Qed.

(** ** All occurrences *)
Section Occurrences.
Context (s : ScenarioInput).
Notation n := (length (profile_slots s)).

(** The window the lowering finds for an occurrence. *)
Definition window_of (lo : FlexibleLoad * LoadOccurrence) : Z * Z :=
  match lowering_window_indices s lo.2 with Ok w => w | Raise _ => (0, 0) end.
Definition maxima_of (lo : FlexibleLoad * LoadOccurrence) : list Z :=
  execution_maxima (profile_slots s) (execution_spec lo.1) (lo_id lo) (window_of lo).

Definition energy_dict (los : list (FlexibleLoad * LoadOccurrence)) : dict uuid (list cpvar) :=
  (fun lo => (lo_id lo, occurrence_variables n (lo_id lo))) <$> los.
Definition maximum_dict (los : list (FlexibleLoad * LoadOccurrence)) : dict uuid (list Z) :=
  (fun lo => (lo_id lo, maxima_of lo)) <$> los.

Record lowered_occurrences (done : list (FlexibleLoad * LoadOccurrence)) (m0 : CpModel)
    (st : LoweringState) : Prop := {
  lo_windows : Forall (fun lo => lowering_window_indices s lo.2 = Ok (window_of lo)) done;
  lo_energy : lw_energy st = energy_dict done;
  lo_maximum : lw_maximum st = maximum_dict done;
  lo_changed : lw_changed st = done ≫= fun lo => changed_var (lo_id lo) <$> indices n;
  lo_completion : lw_completion st = completion_var ∘ lo_id <$> done;
  lo_stable : lw_stable st = stable_terms 0 (done ≫= fun lo => occurrence_variables n (lo_id lo));
  lo_position : lw_position st = Z.of_nat (length (done ≫= fun lo => occurrence_variables n (lo_id lo)));
  lo_sat a : satisfies a (lw_model st) <->
    satisfies a m0 /\ Forall (fun lo => occurrence_sat a s lo (window_of lo)) done
}.

Lemma stable_terms_app p l1 l2 :
  stable_terms p (l1 ++ l2) = stable_terms p l1 ++ stable_terms (p + Z.of_nat (length l1)) l2.
Proof. unfold stable_terms. by rewrite enumerate_from_app, fmap_app. Qed.

Lemma occurrence_fold_ok los m0 out :
  NoDup (lo_id <$> los) ->
  foldM (occurrence_step s)
    {| lw_model := m0; lw_energy := []; lw_maximum := []; lw_changed := [];
       lw_completion := []; lw_stable := []; lw_position := 0 |} los = Ok out ->
  lowered_occurrences los m0 out.
Proof.
  intros Hnd. apply (foldM_prefix_inv _ (fun done st => lowered_occurrences done m0 st)).
  { split; try done. intros a. rewrite Forall_nil. tauto. }
  intros done lo st st' [todo ->] Hst Hstep.
  apply occurrence_step_ok in Hstep as (w & Hw & He & Hm & Hc & Hco & Hs & Hp & Hsat).
  assert (window_of lo = w) as <- by (unfold window_of; by rewrite Hw).
  fold (lo_id lo) in *. rewrite fmap_app, fmap_cons in Hnd. apply NoDup_app in Hnd as (_ & Hfresh & _).
  assert (lo_id lo ∉ lo_id <$> done) as Hnew by (intros Hin; apply (Hfresh _ Hin); set_solver).
  split.
  - rewrite Forall_app, Forall_singleton. split; [apply Hst|done].
  - rewrite He, (lo_energy _ _ _ Hst), dict_set_fresh; [unfold energy_dict; by rewrite fmap_app|].
    unfold energy_dict. by rewrite <- list_fmap_compose.
  - rewrite Hm, (lo_maximum _ _ _ Hst), dict_set_fresh; [unfold maximum_dict; by rewrite fmap_app|].
    unfold maximum_dict. by rewrite <- list_fmap_compose.
  - rewrite Hc, (lo_changed _ _ _ Hst), bind_app. cbn. by rewrite app_nil_r.
  - rewrite Hco, (lo_completion _ _ _ Hst), fmap_app. done.
  - rewrite Hs, (lo_stable _ _ _ Hst), (lo_position _ _ _ Hst), bind_app, stable_terms_app. cbn.
    by rewrite app_nil_r.
  - rewrite Hp, (lo_position _ _ _ Hst), bind_app, length_app. cbn. rewrite app_nil_r.
    unfold occurrence_variables at 3. rewrite length_fmap, length_indices. lia.
  - intros a. rewrite Hsat, (lo_sat _ _ _ Hst), Forall_app, Forall_singleton. tauto.
Qed.
End Occurrences.

(** ** The profile of the candidate and the caps *)
Section Profile.
Context (s : ScenarioInput) (background : list Z) (los : list (FlexibleLoad * LoadOccurrence)).
Notation n := (length (profile_slots s)).

Definition flexible_value (a : assignment) (i : Z) : Z := sum_by (fun lo => slot_energy a (lo_id lo) i) los.
Definition fixed_value (i : Z) : Z := default 0 (background !! Z.to_nat i).
Definition profile_value (a : assignment) (i : Z) : Z := flexible_value a i + fixed_value i.
Definition flexible_maximum (i : Z) : Z := sum_by (fun lo => default 0 (maxima_of s lo !! Z.to_nat i)) los.
Definition profile_maximum (i : Z) : Z := flexible_maximum i + fixed_value i.

Definition flexible_expr (i : Z) : LinearExpr := lsum (lvar <$> ((fun lo => energy_var (lo_id lo) i) <$> los)).
Definition profile_expr (i : Z) : LinearExpr := ladd (flexible_expr i) (lconst (fixed_value i)).

Lemma leval_flexible a i : leval a (flexible_expr i) = flexible_value a i.
Proof. unfold flexible_expr. rewrite leval_sum_vars, <- list_fmap_compose. done. Qed.
Lemma leval_profile a i : leval a (profile_expr i) = profile_value a i.
Proof. unfold profile_expr. rewrite leval_add, leval_flexible. done. Qed.

Definition below_cap (cap : option Z) (amount : Z) (slot : CanonicalProfileSlot) : Prop :=
  match cap with Some c => 3600 * amount <= c * ps_duration_seconds slot | None => True end.
Definition cap_sat (a : assignment) (item : Z * CanonicalProfileSlot) : Prop :=
  below_cap (site_import_cap_w (electrical_constraints s)) (profile_value a item.1) item.2 /\
  below_cap (flexible_load_aggregate_cap_w (electrical_constraints s)) (flexible_value a item.1) item.2.

Lemma add_cap_sat a cap e slot m :
  satisfies a (add_cap cap e slot m) <-> satisfies a m /\ below_cap cap (leval a e) slot.
Proof.
  destruct cap as [c|]; cbn [add_cap below_cap]; [|tauto]. autorewrite with satisfies. cbn [holds cmp_holds].
  autorewrite with leval. done.
Qed.

Lemma length_execution_maxima slots spec id w : length (execution_maxima slots spec id w) = length slots.
Proof.
  destruct spec; cbn [execution_maxima]; rewrite length_fmap; [apply length_enumerate_from|apply length_indices].
Qed.

Lemma energy_column i vs : 0 <= i < Z.of_nat n ->
  mapM (fun kv : uuid * list cpvar => py_index kv.2 i) (energy_dict s los) = Ok vs ->
  vs = (fun lo => energy_var (lo_id lo) i) <$> los.
Proof.
  intros Hi. rewrite mapM_ok. unfold energy_dict. intros HF. apply Forall2_fmap_l in HF.
  induction HF as [|lo v l k Hv _ IH]; [done|]. rewrite fmap_cons. f_equal; [|done].
  apply py_index_ok in Hv. cbn in Hv. unfold occurrence_variables in Hv.
  rewrite list_lookup_fmap, seqZ_lookup_nat in Hv by lia. cbn in Hv. injection Hv as <-. f_equal. lia.
Qed.

Lemma maximum_column i vs :
  mapM (fun kv : uuid * list Z => py_index kv.2 i) (maximum_dict s los) = Ok vs ->
  zsum vs = flexible_maximum i.
Proof.
  rewrite mapM_ok. unfold maximum_dict, flexible_maximum. intros HF. apply Forall2_fmap_l in HF.
  induction HF as [|lo v l k Hv _ IH]; [done|]. rewrite sum_by_cons. cbn [zsum foldr]. rewrite <- IH.
  apply py_index_ok in Hv. cbn [compose snd] in Hv. rewrite Hv. done.
Qed.

Lemma profile_step_ok st i slot out : 0 <= i < Z.of_nat n ->
  profile_step s background (energy_dict s los) (maximum_dict s los) st (i, slot) = Ok out ->
  sl_profile out = sl_profile st ++ [profile_expr i] /\
  sl_maxima out = sl_maxima st ++ [profile_maximum i] /\
  is_Some (background !! Z.to_nat i) /\
  (forall a, satisfies a (sl_model out) <-> satisfies a (sl_model st) /\ cap_sat a (i, slot)).
Proof.
  intros Hi Hs. unfold profile_step in Hs. apply bind_ok in Hs as (vs & Hvs & Hs).
  apply bind_ok in Hs as (b & Hb & Hs). apply bind_ok in Hs as (ms & Hms & Hs).
  apply bind_ok in Hs as (u & _ & [= <-]). apply energy_column in Hvs as ->; [|done].
  apply maximum_column in Hms. apply py_index_ok in Hb. cbn [sl_profile sl_maxima sl_model].
  unfold profile_expr, profile_maximum, flexible_expr, cap_sat. unfold fixed_value. rewrite Hb, Hms. cbn [default].
  split; [done|]. split; [done|]. split; [done|]. intros a. rewrite !add_cap_sat.
  rewrite leval_add. fold (flexible_expr i). rewrite !leval_flexible. unfold profile_value, fixed_value.
  cbn [fst snd]. rewrite Hb. cbn [default]. rewrite leval_const. tauto.
Qed.

Lemma profile_fold_ok m0 out :
  foldM (profile_step s background (energy_dict s los) (maximum_dict s los))
    {| sl_model := m0; sl_profile := []; sl_maxima := [] |} (enumerate (profile_slots s)) = Ok out ->
  sl_profile out = profile_expr <$> indices n /\ sl_maxima out = profile_maximum <$> indices n /\
  (n <= length background)%nat /\
  (forall a, satisfies a (sl_model out) <->
             satisfies a m0 /\ Forall (cap_sat a) (enumerate (profile_slots s))).
Proof.
  intros Hf. pose (P := fun items st => sl_profile st = profile_expr <$> items.*1 /\
    sl_maxima st = profile_maximum <$> items.*1 /\ Forall (fun i => is_Some (background !! Z.to_nat i)) items.*1 /\
    (forall a, satisfies a (sl_model st) <-> satisfies a m0 /\ Forall (cap_sat a) items)).
  assert (P (enumerate (profile_slots s)) out) as HP.
  { revert Hf. apply (foldM_prefix_inv _ P); unfold P.
    { split; [done|]. split; [done|]. split; [constructor|]. intros a. rewrite Forall_nil. tauto. }
    intros items [i slot] st st' [todo Htodo] (H1 & H2 & H3 & H4) Hstep.
    assert (0 <= i < Z.of_nat n) as Hi.
    { apply elem_of_indices. rewrite <- enumerate_from_keys, Htodo, fmap_app, fmap_cons. set_solver. }
    apply (profile_step_ok _ _ _ _ Hi) in Hstep as (-> & -> & Hb & Hsat). rewrite H1, H2, !fmap_app.
    split; [done|]. split; [done|]. split; [apply Forall_app; split; [done|by constructor]|].
    intros a. rewrite Hsat, H4, Forall_app, Forall_singleton. tauto. }
  unfold P in HP. rewrite enumerate_from_keys in HP. destruct HP as (H1 & H2 & H3 & H4).
  split; [done|]. split; [done|]. split; [|done].
  destruct (decide (n <= length background)%nat) as [|Hlt]; [done|exfalso].
  rewrite Forall_forall in H3. destruct (H3 (Z.of_nat (length background))) as [x Hx]; [apply elem_of_indices; lia|].
  apply lookup_lt_Some in Hx. lia.
Qed.
End Profile.

(** ** Time-of-use cents *)
Section Cost.
Context (s : ScenarioInput) (background : list Z) (los : list (FlexibleLoad * LoadOccurrence))
  (periods_by_rule : dict string (list TimeOfUsePeriod)).
Notation n := (length (profile_slots s)).

Definition rate_entry : Type := IRTimeOfUseEnergyCharge * IRTimeOfUsePeriodRate.
Definition rate_entries (charges : list IRTimeOfUseEnergyCharge) : list rate_entry :=
  charges ≫= fun op => (fun r => (op, r)) <$> period_rates op.
Definition entry_quantity (x : rate_entry) : cpvar := quantity_var (rule_id (ir_tc_base x.1)) (irp_period x.2).
Definition entry_cents (x : rate_entry) : cpvar := cents_var (rule_id (ir_tc_base x.1)) (irp_period x.2).
Definition entry_rate (x : rate_entry) : Z := irp_rate_microdollars_per_kwh x.2.
Definition entry_sign (x : rate_entry) : Z := if entry_rate x <? 0 then -1 else 1.
Definition entry_indices (x : rate_entry) : list Z :=
  period_indices (irp_period x.2) (default [] (dict_get (rule_id (ir_tc_base x.1)) periods_by_rule)).
Definition rounded_of (q rate : Z) : Z :=
  (Z.abs rate * q + HALF_CENT_NUMERATOR) / WATT_HOUR_RATE_TO_CENTS_DENOMINATOR.
Definition entry_quantity_maximum (x : rate_entry) : Z := sum_by (profile_maximum s background los) (entry_indices x).
Definition entry_maximum (x : rate_entry) : Z := rounded_of (entry_quantity_maximum x) (entry_rate x).
Definition entry_value (a : assignment) (x : rate_entry) : Z :=
  sum_by (profile_value background los a) (entry_indices x).

Definition charge_sat (a : assignment) (x : rate_entry) : Prop :=
  0 <= a (entry_quantity x) <= entry_quantity_maximum x /\ a (entry_quantity x) = entry_value a x /\
  0 <= a (entry_cents x) <= entry_maximum x /\
  a (entry_cents x) = Z.quot (Z.abs (entry_rate x) * a (entry_quantity x) + HALF_CENT_NUMERATOR)
                        WATT_HOUR_RATE_TO_CENTS_DENOMINATOR.

Definition cost_term (x : rate_entry) : LinearExpr := lscale (entry_sign x) (lvar (entry_cents x)).
Definition cost_low (x : rate_entry) : Z := if 0 <? entry_sign x then 0 else entry_maximum x.
Definition cost_high (x : rate_entry) : Z := if 0 <? entry_sign x then entry_maximum x else 0.

(** [values[i] for i in ks] over a table of the slots. *)
Lemma column_lookup {A} (f : Z -> A) ks out :
  Forall (fun i => 0 <= i) ks -> mapM (py_index (f <$> indices n)) ks = Ok out -> out = f <$> ks.
Proof.
  rewrite mapM_ok. intros Hks HF. induction HF as [|i v l k Hv _ IH]; [done|].
  apply Forall_cons in Hks as [Hi Hks]. rewrite fmap_cons, <- IH by done. f_equal.
  apply py_index_ok in Hv. rewrite list_lookup_fmap in Hv.
  destruct (indices n !! Z.to_nat i) as [j|] eqn:E; [|done]. cbn in Hv. injection Hv as <-.
  apply lookup_seqZ in E as [-> _]. f_equal. lia.
Qed.

Lemma period_indices_nonneg p periods : Forall (fun i => 0 <= i) (period_indices p periods).
Proof.
  unfold period_indices. apply Forall_fmap, Forall_forall. intros [i x] Hx.
  apply list_elem_of_In, filter_In in Hx as [Hx%list_elem_of_In _].
  apply elem_of_enumerate in Hx as (k & -> & _). cbn. lia.
Qed.

Definition cost_added (st out : CostState) (xs : list rate_entry) : Prop :=
  co_terms out = co_terms st ++ (cost_term <$> xs) /\
  co_minimum out = co_minimum st - sum_by cost_low xs /\
  co_maximum out = co_maximum st + sum_by cost_high xs /\
  forall a, satisfies a (co_model out) <-> satisfies a (co_model st) /\ Forall (charge_sat a) xs.

Lemma cost_rate_step_ok op r periods st out :
  dict_get (rule_id (ir_tc_base op)) periods_by_rule = Some periods ->
  cost_rate_step op periods (profile_expr background los <$> indices n)
    (profile_maximum s background los <$> indices n) st r = Ok out ->
  cost_added st out [(op, r)].
Proof.
  intros Hp Hs. unfold cost_rate_step in Hs. apply bind_ok in Hs as (bs & Hbs & Hs).
  apply bind_ok in Hs as (es & Hes & Hs). apply bind_ok in Hs as ((m & sg & rmax) & Hr & [= <-]).
  apply column_lookup in Hbs as ->; [|apply period_indices_nonneg].
  apply column_lookup in Hes as ->; [|apply period_indices_nonneg].
  unfold rounded_cents_variable in Hr. apply bind_ok in Hr as (u & _ & [= <- <- <-]).
  assert (entry_indices (op, r) = period_indices (irp_period r) periods) as Hx
    by (unfold entry_indices; cbn [fst snd]; by rewrite Hp).
  assert (entry_maximum (op, r)
    = (zsum (profile_maximum s background los <$> period_indices (irp_period r) periods)
       * Z.abs (irp_rate_microdollars_per_kwh r) + HALF_CENT_NUMERATOR) / WATT_HOUR_RATE_TO_CENTS_DENOMINATOR) as Hmax.
  { unfold entry_maximum, entry_quantity_maximum, rounded_of, entry_rate. rewrite Hx. cbn [snd].
    by rewrite (Z.mul_comm (Z.abs _)). }
  unfold cost_added. rewrite !sum_by_cons, !sum_by_nil. unfold cost_low, cost_high. rewrite Hmax.
  cbn [co_terms co_minimum co_maximum co_model]. unfold entry_sign, entry_rate. cbn [snd].
  split; [done|]. split; [destruct (0 <? _); lia|]. split; [destruct (0 <? _); lia|].
  intros a. rewrite Forall_singleton. unfold charge_sat, entry_value, entry_quantity_maximum. rewrite Hx, Hmax.
  autorewrite with satisfies. cbn [holds cmp_holds]. autorewrite with leval.
  rewrite sum_by_fmap, (sum_by_ext (fun x => leval a (profile_expr background los x)) (profile_value background los a))
    by (intros; apply leval_profile). unfold entry_quantity, entry_cents, entry_rate, sum_by. cbn [fst snd]. tauto.
Qed.

Lemma cost_added_trans st st' st'' xs ys :
  cost_added st st' xs -> cost_added st' st'' ys -> cost_added st st'' (xs ++ ys).
Proof.
  intros (H1 & H2 & H3 & H4) (E1 & E2 & E3 & E4). unfold cost_added.
  rewrite E1, E2, E3, H1, H2, H3, fmap_app, app_assoc, !sum_by_app. split; [done|].
  split; [lia|]. split; [lia|]. intros a. rewrite E4, H4, Forall_app. tauto.
Qed.

Lemma cost_fold_ok charges st out :
  foldM (cost_charge_step periods_by_rule (profile_expr background los <$> indices n)
           (profile_maximum s background los <$> indices n)) st charges = Ok out ->
  cost_added st out (rate_entries charges) /\
  Forall (fun op => is_Some (dict_get (rule_id (ir_tc_base op)) periods_by_rule)) charges.
Proof.
  revert st. induction charges as [|op charges IH]; intros st Hf; cbn [foldM] in Hf.
  { injection Hf as <-. split; [|done]. unfold cost_added. cbn. rewrite app_nil_r.
    split; [done|]. split; [lia|]. split; [lia|]. intros a. rewrite Forall_nil. tauto. }
  apply bind_ok in Hf as (st' & Hst & Hf). destruct (IH _ Hf) as [Hadd Hall].
  unfold cost_charge_step in Hst. destruct (dict_get _ _) as [periods|] eqn:Hp; [|done].
  split; [|constructor; [by rewrite Hp|done]]. unfold rate_entries. cbn [mbind list_bind].
  eapply cost_added_trans; [|exact Hadd]. clear -Hp Hst. revert st Hst.
  induction (period_rates op) as [|r rs IHr]; intros st Hst; cbn [foldM] in Hst.
  { injection Hst as <-. unfold cost_added. cbn. rewrite app_nil_r.
    split; [done|]. split; [lia|]. split; [lia|]. intros a. rewrite Forall_nil. tauto. }
  apply bind_ok in Hst as (st1 & H1 & H2). rewrite fmap_cons.
  apply (cost_added_trans _ st1 _ [(op, r)]); [by eapply cost_rate_step_ok|by apply IHr].
Qed.
End Cost.
