(* ===== verification/LoweringSchedules.v ===== *)
(** * LoweringSchedules: solutions of the lowered model are feasible schedules

    The blocks of the lowered model against the feasibility predicates of the
    verifier: a satisfying assignment executes every occurrence, and every
    execution of an occurrence is the energy part of a satisfying assignment.
    The indicator variables count changed slots and find completion slots. *)

From S2P Require Import Prelude Calendar Json Schema Compiled Eligibility DayEnergy Replay.
From S2P Require Import CpModel OptimizerModels Scenario ScenarioProofs Verification VerificationProofs.
From S2P Require Import Lowering LoweringModel.

Lemma occurrence_energy_lookup a n id i e :
  occurrence_energy a n id !! i = Some e <-> (i < n)%nat /\ e = slot_energy a id (Z.of_nat i).
Proof.
  unfold occurrence_energy. rewrite list_lookup_fmap. destruct (decide (i < n)%nat) as [Hi|Hi].
  - rewrite seqZ_lookup_nat by done. cbn. naive_solver.
  - rewrite lookup_seqZ_ge by lia. cbn. naive_solver.
Qed.
Lemma length_occurrence_energy a n id : length (occurrence_energy a n id) = n.
Proof. unfold occurrence_energy. by rewrite length_fmap, length_indices. Qed.

(** ** Interruptible loads *)
Lemma interruptible_sound a slots id hi lo w :
  Forall (interruptible_sat a id hi lo w) (enumerate slots) ->
  interruptible_ok hi lo (occurrence_energy a (length slots) id) slots w.1 w.2.
Proof.
  rewrite Forall_enumerate. intros Hsat i e slot He Hs.
  apply occurrence_energy_lookup in He as [_ ->]. specialize (Hsat i slot Hs).
  unfold interruptible_sat, slot_energy_maximum, indicates in Hsat. cbn [fst snd] in Hsat.
  destruct Hsat as ((H0 & Hmax) & Hhi & (Hb & Hb1 & Hb0) & Hlo).
  assert (a (active_var id (Z.of_nat i)) = 0 \/ a (active_var id (Z.of_nat i)) = 1) as Hcase by lia.
  split; [|split]; [|lia|].
  - intros Hpos. destruct (in_window w (Z.of_nat i)) eqn:E; [|lia]. unfold in_window in E. bools. lia.
  - intros Hpos. destruct Hcase as [E|E]; [specialize (Hb0 E); lia|].
    destruct (decide (lo = 0)) as [->|Hne]; [lia|]. specialize (Hlo Hne E). lia.
Qed.

Lemma interruptible_complete a slots id hi lo w :
  interruptible_ok hi lo (occurrence_energy a (length slots) id) slots w.1 w.2 ->
  (forall i, 0 <= i < Z.of_nat (length slots) -> 0 <= slot_energy a id i /\
     a (active_var id i) = if 0 <? slot_energy a id i then 1 else 0) ->
  Forall (fun slot => 0 < ps_duration_seconds slot) slots -> 0 <= hi ->
  Forall (interruptible_sat a id hi lo w) (enumerate slots).
Proof.
  intros Hok Ha Hdur Hhi. apply Forall_enumerate. intros i slot Hs. pose proof (lookup_lt_Some _ _ _ Hs) as Hi.
  destruct (Hok i (slot_energy a id (Z.of_nat i)) slot) as (Hw & Hmax & Hmin);
    [by apply occurrence_energy_lookup|done|].
  destruct (Ha (Z.of_nat i)) as [H0 Hb]; [lia|]. unfold interruptible_sat, slot_energy_maximum, indicates.
  cbn [fst snd]. rewrite Hb. clear Hb. set (e := slot_energy a id (Z.of_nat i)) in *.
  rewrite Forall_forall in Hdur. assert (0 < ps_duration_seconds slot) as Hd.
  { apply Hdur. by eapply list_elem_of_lookup_2. }
  assert (in_window w (Z.of_nat i) = true \/ e = 0) as Hin.
  { destruct (Z.ltb_spec 0 e); [left|right; lia]. unfold in_window. apply andb_true_iff.
    rewrite Z.leb_le, Z.ltb_lt. by apply Hw. }
  split; [split; [done|]|split; [lia|split]].
  - destruct Hin as [->| ->].
    + unfold WATT_SECONDS_PER_WATT_HOUR. apply Z.div_le_lower_bound; lia.
    + destruct (in_window w (Z.of_nat i)); [|done]. apply Z.div_pos; unfold WATT_SECONDS_PER_WATT_HOUR; nia.
  - destruct (Z.ltb_spec 0 e); lia.
  - intros _. destruct (Z.ltb_spec 0 e); [|lia]. intros _. specialize (Hmin ltac:(done)). lia.
Qed.

(** ** Fixed shapes *)
Definition shape_at (shape : list Z) (j : Z) : Z :=
  if 0 <=? j then default 0 (shape !! Z.to_nat j) else 0.

Lemma contributions_sum a id shape starts i :
  sum_by (fun c => c.2 * a c.1) (contributions id shape starts i)
  = sum_by (fun k => shape_at shape (i - k) * a (start_var id k)) starts.
Proof.
  induction starts as [|k starts IH]; [done|]. rewrite sum_by_cons, <- IH. unfold contributions at 1. cbn [omap list_omap].
  fold (contributions id shape starts i). unfold shape_at.
  destruct (Z.leb_spec k i); destruct (Z.leb_spec 0 (i - k)); try lia; cbn [andb]; [|cbn; lia].
  destruct (Z.ltb_spec i (k + Z.of_nat (length shape))).
  - destruct (lookup_lt_is_Some_2 shape (Z.to_nat (i - k))) as [v Hv]; [lia|]. rewrite Hv. cbn [fmap option_fmap option_map default].
    by rewrite sum_by_cons.
  - rewrite lookup_ge_None_2 by lia. cbn. lia.
Qed.

Lemma py_max_nonneg l : Forall (fun x => 0 <= x) l -> 0 <= default 0 (py_max l).
Proof.
  destruct l as [|x l]; cbn; [lia|]. intros [Hx _]%Forall_cons. pose proof (foldl_max_ge x l). lia.
Qed.
Lemma py_max_default_ge l x : x ∈ l -> x <= default 0 (py_max l).
Proof. intros Hx. destruct (py_max l) as [m|] eqn:E; [by eapply py_max_ge|]. destruct l; [set_solver|done]. Qed.

Lemma contributions_elem id shape starts i x v :
  (x, v) ∈ contributions id shape starts i <->
  exists k, k ∈ starts /\ x = start_var id k /\ k <= i /\ shape !! Z.to_nat (i - k) = Some v.
Proof.
  unfold contributions. rewrite list_elem_of_omap. split; intros (k & Hk & H); exists k; (split; [done|]).
  - destruct (Z.leb_spec k i); [|done]. destruct (Z.ltb_spec i (k + Z.of_nat (length shape))); [|done].
    cbn in H. destruct (shape !! Z.to_nat (i - k)); [|done]. cbn in H. injection H as <- <-. done.
  - destruct H as (-> & Hki & Hv). pose proof (lookup_lt_Some _ _ _ Hv). destruct (Z.leb_spec k i); [|lia].
    destruct (Z.ltb_spec i (k + Z.of_nat (length shape))); [|lia]. cbn. by rewrite Hv.
Qed.

Section Shape.
Context (id : Z) (shape : list Z) (Hpos : Forall (fun x => 0 <= x) shape).

Lemma shape_at_nonneg j : 0 <= shape_at shape j.
Proof.
  unfold shape_at. destruct (0 <=? j); [|lia]. destruct (shape !! Z.to_nat j) as [v|] eqn:E; cbn; [|lia].
  rewrite Forall_forall in Hpos. apply Hpos. by eapply list_elem_of_lookup_2.
Qed.

Lemma fixed_maximum_nonneg starts i : 0 <= fixed_maximum id shape starts i.
Proof.
  apply py_max_nonneg, Forall_forall. intros v Hv. apply list_elem_of_fmap in Hv as ([x v'] & -> & Hv).
  apply contributions_elem in Hv as (k & _ & _ & _ & Hv). rewrite Forall_forall in Hpos. apply Hpos. cbn.
  by eapply list_elem_of_lookup_2.
Qed.

Lemma fixed_maximum_ge starts i k : k ∈ starts -> shape_at shape (i - k) <= fixed_maximum id shape starts i.
Proof.
  intros Hk. pose proof (fixed_maximum_nonneg starts i). unfold shape_at.
  destruct (Z.leb_spec 0 (i - k)); [|done]. destruct (shape !! Z.to_nat (i - k)) as [v|] eqn:Ev; [|done]. cbn.
  apply py_max_default_ge, list_elem_of_fmap. exists (start_var id k, v). split; [done|].
  apply contributions_elem. exists k. repeat split; [done|lia|done].
Qed.

Lemma place_shape_lookup n k i : 0 <= k -> k + Z.of_nat (length shape) <= Z.of_nat n -> (i < n)%nat ->
  place_shape n k shape !! i = Some (shape_at shape (Z.of_nat i - k)).
Proof.
  intros Hk Hn Hi. unfold place_shape, shape_at, zeros.
  assert (length (take (Z.to_nat k) (replicate n 0)) = Z.to_nat k) as Hl
    by (rewrite length_take, length_replicate; lia).
  destruct (Z.leb_spec 0 (Z.of_nat i - k)).
  - rewrite lookup_app_r, Hl by lia. destruct (shape !! Z.to_nat (Z.of_nat i - k)) as [v|] eqn:E.
    + rewrite lookup_app_l by (apply lookup_lt_Some in E; lia). cbn.
      by replace (i - Z.to_nat k)%nat with (Z.to_nat (Z.of_nat i - k)) by lia.
    + apply lookup_ge_None in E. rewrite lookup_app_r, lookup_drop by lia.
      rewrite lookup_replicate_2 by lia. done.
  - rewrite lookup_app_l, lookup_take by lia. rewrite decide_True by lia. rewrite lookup_replicate_2 by lia. done.
Qed.

Lemma place_shape_energy a n k : 0 <= k -> k + Z.of_nat (length shape) <= Z.of_nat n ->
  (forall i, 0 <= i < Z.of_nat n -> slot_energy a id i = shape_at shape (i - k)) <->
  occurrence_energy a n id = place_shape n k shape.
Proof.
  intros Hk Hn. split.
  - intros He. apply list_eq_same_length with n; [|by rewrite length_occurrence_energy|].
    { unfold place_shape, zeros. rewrite !length_app, length_take, length_drop, length_replicate. lia. }
    intros i x y Hi Hx Hy. apply occurrence_energy_lookup in Hx as [_ ->].
    rewrite place_shape_lookup in Hy by done. injection Hy as <-. apply He. lia.
  - intros He i Hi. assert (occurrence_energy a n id !! Z.to_nat i = Some (shape_at shape (i - k))) as Hl.
    { rewrite He, place_shape_lookup by lia. do 2 f_equal. lia. }
    apply occurrence_energy_lookup in Hl as [_ ->]. f_equal. lia.
Qed.
End Shape.

(** Exactly one of a list of 0/1 values is 1. *)
Lemma sum_one {A} `{EqDecision A} (f : A -> Z) l :
  Forall (fun x => 0 <= f x <= 1) l -> sum_by f l = 1 ->
  exists l1 x l2, l = l1 ++ x :: l2 /\ f x = 1 /\ Forall (fun y => f y = 0) (l1 ++ l2).
Proof.
  induction l as [|y l IH]; intros Hb Hs; [done|]. apply Forall_cons in Hb as [Hy Hb]. rewrite sum_by_cons in Hs.
  destruct (decide (f y = 1)) as [E|E].
  - exists [], y, l. split; [done|]. split; [done|]. cbn. apply Forall_forall. intros z Hz.
    rewrite Forall_forall in Hb. pose proof (Hb z Hz).
    pose proof (sum_by_elem f l z ltac:(intros w Hw; apply Hb; done) Hz). lia.
  - destruct IH as (l1 & x & l2 & -> & Hx & Hz); [done|lia|]. exists (y :: l1), x, l2.
    split; [done|]. split; [done|]. cbn. constructor; [lia|done].
Qed.

Lemma sum_selected (f g : Z -> Z) l1 k l2 :
  f k = 1 -> Forall (fun y => f y = 0) (l1 ++ l2) -> sum_by (fun x => g x * f x) (l1 ++ k :: l2) = g k.
Proof.
  intros Hk Hz. rewrite sum_by_app, sum_by_cons, Hk. apply Forall_app in Hz as [H1 H2].
  assert (forall l, Forall (fun y => f y = 0) l -> sum_by (fun x => g x * f x) l = 0) as H0.
  { intros l Hl. induction Hl as [|y l Hy _ IH]; [done|]. rewrite sum_by_cons, IH, Hy. lia. }
  rewrite !H0 by done. lia.
Qed.

Lemma fixed_sound a slots id shape w :
  Forall (fun x => 0 <= x) shape -> 0 <= w.1 -> w.2 <= Z.of_nat (length slots) ->
  execution_sat a slots (ContiguousFixedShapeSpec shape) id w ->
  shape_ok shape (occurrence_energy a (length slots) id) w.1 w.2.
Proof.
  intros Hpos Hw1 Hw2 (Hb & Hsum & Hsat). unfold shape_ok.
  destruct (sum_one _ _ Hb Hsum) as (l1 & k & l2 & Hl & Hk & Hz). exists k.
  assert (k ∈ allowed_starts shape w) as Hin by (rewrite Hl; set_solver).
  unfold allowed_starts in Hin. apply elem_of_seqZ in Hin. split; [lia|]. split; [lia|].
  rewrite length_occurrence_energy. apply place_shape_energy; [lia|lia|]. intros i Hi.
  rewrite Forall_forall in Hsat. destruct (Hsat i) as [_ ->]; [by apply elem_of_indices|].
  rewrite contributions_sum, Hl. by apply (sum_selected (fun k => a (start_var id k)) (fun k => shape_at shape (i - k))).
Qed.

Lemma fixed_complete a slots id shape w k :
  Forall (fun x => 0 <= x) shape -> 0 <= w.1 -> w.1 <= k -> k + Z.of_nat (length shape) <= w.2 ->
  w.2 <= Z.of_nat (length slots) ->
  occurrence_energy a (length slots) id = place_shape (length slots) k shape ->
  (forall k', k' ∈ allowed_starts shape w -> a (start_var id k') = if k' =? k then 1 else 0) ->
  execution_sat a slots (ContiguousFixedShapeSpec shape) id w.
Proof.
  intros Hpos Hw1 Hk1 Hk2 Hw2 He Ha. cbn [execution_sat].
  assert (k ∈ allowed_starts shape w) as Hk by (unfold allowed_starts; apply elem_of_seqZ; lia).
  assert (NoDup (allowed_starts shape w)) as Hnd by apply NoDup_seqZ.
  apply list_elem_of_split in Hk as (l1 & l2 & Hl).
  assert (Forall (fun y => a (start_var id y) = 0) (l1 ++ l2)) as Hz.
  { apply Forall_forall. intros y Hy. rewrite Ha by (rewrite Hl; set_solver). destruct (Z.eqb_spec y k) as [->|]; [|done].
    rewrite Hl in Hnd. apply NoDup_app in Hnd as (_ & H1 & H2). apply NoDup_cons in H2 as [H2 _]. set_solver. }
  assert (a (start_var id k) = 1) as Hone by (rewrite Ha by (rewrite Hl; set_solver); by rewrite Z.eqb_refl).
  pose proof (fun g => sum_selected (fun k => a (start_var id k)) g l1 k l2 Hone Hz) as Hsel.
  split; [|split].
  - apply Forall_forall. intros y Hy. rewrite Ha by done. destruct (y =? k); lia.
  - rewrite Hl, <- (Hsel (fun _ => 1)). apply sum_by_ext. intros; lia.
  - apply Forall_forall. intros i Hi%elem_of_indices. unfold fixed_sat.
    assert (slot_energy a id i = shape_at shape (i - k)) as Hs.
    { by apply (place_shape_energy id shape a (length slots) k); [lia|lia|..]. }
    rewrite Hs, contributions_sum, Hl, (Hsel (fun k => shape_at shape (i - k))). split; [|done].
    split; [by apply shape_at_nonneg|]. apply fixed_maximum_ge; [done|]. set_solver.
Qed.

(** ** Windows *)
Section Windows.
Context (s : ScenarioInput) (t0 d : Z) (Hgrid : on_grid t0 d (profile_slots s)) (Hin : scenario_input_ok s).
Notation n := (length (profile_slots s)).

Lemma lowering_window_ok o i j :
  lowering_window_indices s o = Ok (i, j) <->
  0 <= i <= Z.of_nat n /\ 0 <= j <= Z.of_nat n /\
  earliest_start_utc o = t0 + i * (d * US_PER_SECOND) /\ deadline_utc o = t0 + j * (d * US_PER_SECOND).
Proof.
  destruct (input_slots s Hin) as [Hne _]. unfold lowering_window_indices.
  destruct (last (profile_slots s)) as [final|] eqn:El; [|by apply last_None in El].
  rewrite slot_end_in_range
    by (pose proof (sio_range s Hin) as Hr; eapply Forall_forall in Hr; [exact Hr|by apply last_Some_elem_of]).
  cbn [mbind result_bind]. rewrite (grid_final t0 d _ final Hgrid El).
  set (b := boundaries _ _).
  assert (forall t k, dict_get t b = Some k <-> _) as Hget
    by (intros; apply boundaries_get; [done|by eapply grid_positive]).
  split.
  - destruct (dict_get (earliest_start_utc o) b) as [i'|] eqn:Ei; [|done].
    destruct (dict_get (deadline_utc o) b) as [j'|] eqn:Ej; [|done].
    intros [= <- <-]. apply Hget in Ei, Ej. tauto.
  - intros (H1 & H2 & H3 & H4). by rewrite (proj2 (Hget _ i)), (proj2 (Hget _ j)).
Qed.

(** An occurrence that some vector executes has its window at the same place. *)
Lemma executes_window l o v : executes t0 d (profile_slots s) l o v ->
  exists w, lowering_window_indices s o = Ok w /\ 0 <= w.1 < w.2 /\ w.2 <= Z.of_nat n /\
    slots_match v (profile_slots s) /\
    execution_ok (execution_spec l) (required_energy_wh o) (energies v) (profile_slots s) w.1 w.2.
Proof.
  intros (Hm & i & j & Hij & Hj & He & Hd & Hok). exists (i, j). rewrite lowering_window_ok.
  cbn [fst snd]. repeat (split; [done || lia|]). done.
Qed.

Lemma window_executes l o v w : lowering_window_indices s o = Ok w -> 0 <= w.1 < w.2 ->
  slots_match v (profile_slots s) ->
  execution_ok (execution_spec l) (required_energy_wh o) (energies v) (profile_slots s) w.1 w.2 ->
  executes t0 d (profile_slots s) l o v.
Proof.
  destruct w as [i j]. rewrite lowering_window_ok. intros (H1 & H2 & H3 & H4) Hij Hm Hok.
  cbn [fst snd] in *. split; [done|]. exists i, j. repeat (split; [done || lia|]). done.
Qed.
End Windows.

(** ** Executions *)
Lemma zsum_place_shape n k shape : zsum (place_shape n k shape) = zsum shape.
Proof.
  unfold place_shape, zeros. rewrite take_replicate, drop_replicate, !zsum_app.
  fold (zeros (Z.to_nat k `min` n)). fold (zeros (n - (Z.to_nat k + length shape))). rewrite !zsum_zero_vector. lia.
Qed.
Lemma shape_nonneg shape : validate_power_range (ContiguousFixedShapeSpec shape) = true ->
  Forall (fun x => 0 <= x) shape.
Proof.
  unfold validate_power_range. intros Hv. bools. apply Forall_forall. intros x Hx. apply list_elem_of_In in Hx.
  match goal with E : forallb _ _ = true |- _ => rewrite forallb_forall in E; apply E in Hx end. by bools.
Qed.

Lemma execution_sound a slots spec id w required :
  validate_power_range spec = true -> 0 <= w.1 -> w.2 <= Z.of_nat (length slots) ->
  execution_sat a slots spec id w -> zsum (occurrence_energy a (length slots) id) = required ->
  execution_ok spec required (occurrence_energy a (length slots) id) slots w.1 w.2.
Proof.
  intros Hv Hw1 Hw2 Hsat Hsum. split; [done|]. destruct spec as [hi lo|shape].
  - by apply interruptible_sound.
  - pose proof (shape_nonneg _ Hv) as Hpos. pose proof (fixed_sound a slots id shape w Hpos Hw1 Hw2 Hsat) as Hshape. split; [|done].
    destruct Hshape as (k & Hk1 & Hk2 & He). rewrite He in Hsum. rewrite length_occurrence_energy in Hsum.
    rewrite <- Hsum. symmetry. apply zsum_place_shape.
Qed.

Lemma execution_complete a slots spec id w required :
  validate_power_range spec = true -> 0 <= w.1 -> w.2 <= Z.of_nat (length slots) ->
  Forall (fun slot => 0 < ps_duration_seconds slot) slots ->
  execution_ok spec required (occurrence_energy a (length slots) id) slots w.1 w.2 ->
  Forall (fun e => 0 <= e) (occurrence_energy a (length slots) id) ->
  (forall i, 0 <= i < Z.of_nat (length slots) ->
     a (active_var id i) = if 0 <? slot_energy a id i then 1 else 0) ->
  (forall shape k, spec = ContiguousFixedShapeSpec shape -> k ∈ allowed_starts shape w ->
     a (start_var id k)
     = if bool_decide (matched_start shape (occurrence_energy a (length slots) id) w.1 w.2 = Some k) then 1 else 0) ->
  execution_sat a slots spec id w.
Proof.
  intros Hv Hw1 Hw2 Hdur [Hsum Hok] Hnn Hact Hstart. destruct spec as [hi lo|shape].
  - unfold validate_power_range in Hv. bools. apply interruptible_complete; [done| |done|lia].
    intros i Hi. split; [|by apply Hact]. rewrite Forall_forall in Hnn. apply Hnn.
    unfold occurrence_energy. apply list_elem_of_fmap. exists i. split; [done|]. by apply elem_of_indices.
  - destruct Hok as [_ Hok]. apply matched_start_ok in Hok as [k Hk].
    pose proof Hk as Hk'. unfold matched_start in Hk'. apply find_some in Hk' as [Hin Hb].
    apply list_elem_of_In, elem_of_seqZ in Hin. bools. rewrite length_occurrence_energy in Hb.
    apply (fixed_complete a slots id shape w k); [by apply shape_nonneg|lia..| |].
    + by symmetry.
    + intros k' Hk2. rewrite (Hstart shape k') by done. rewrite Hk.
      destruct (Z.eqb_spec k' k) as [->|Hne]; [by rewrite bool_decide_eq_true_2|].
      rewrite bool_decide_eq_false_2; [done|]. congruence.
Qed.

(** ** Indicators and objectives *)
Lemma count_changes_sum a id (entries : list (Z * Z)) :
  Forall (entry_sat a id) entries ->
  sum_by (fun e => a (changed_var id e.1)) entries
  = count_changes ((fun e => slot_energy a id e.1) <$> entries) entries.*2.
Proof.
  unfold count_changes. induction 1 as [|[i r] entries (Hc & H0 & H1 & _) _ IH]; [done|].
  rewrite !fmap_cons, sum_by_cons, IH. cbn [zip_with List.filter fst snd] in *.
  assert (a (changed_var id i) = 0 \/ a (changed_var id i) = 1) as [E|E] by lia.
  - rewrite E, (H0 E), Z.eqb_refl. cbn. lia.
  - rewrite E. rewrite (proj2 (Z.eqb_neq _ _) (H1 E)). cbn [negb length]. lia.
Qed.

Lemma last_positive_snoc e x :
  last_positive (e ++ [x]) = if 0 <? x then Some (Z.of_nat (length e) + 1) else last_positive e.
Proof.
  unfold last_positive. rewrite enumerate_from_app. cbn [enumerate_from]. rewrite List.filter_app, fmap_app.
  cbn [List.filter snd]. destruct (0 <? x); cbn; [by rewrite last_snoc|]. by rewrite app_nil_r.
Qed.

Lemma last_positive_max e :
  match last_positive e with
  | Some c => (forall i x, e !! i = Some x -> 0 < x -> Z.of_nat i + 1 <= c) /\
              exists i x, e !! i = Some x /\ 0 < x /\ c = Z.of_nat i + 1
  | None => forall i x, e !! i = Some x -> x <= 0
  end.
Proof.
  induction e as [|x e IH] using rev_ind; [by intros i x|]. rewrite last_positive_snoc.
  destruct (Z.ltb_spec 0 x) as [Hx|Hx].
  - split; [|exists (length e), x; rewrite list_lookup_middle by done; done].
    intros i y Hy _. apply lookup_lt_Some in Hy. rewrite length_app in Hy. cbn in Hy. lia.
  - destruct (last_positive e) as [c|].
    + destruct IH as [Hub (i & y & Hy & Hpos & Hc)]. split.
      * intros j z Hz Hpz. apply lookup_app_Some in Hz as [Hz|[_ Hz]]; [by eapply Hub|].
        apply list_lookup_singleton_Some in Hz as [_ ->]. lia.
      * exists i, y. split; [by apply lookup_app_l_Some|done].
    + intros j z Hz. apply lookup_app_Some in Hz as [Hz|[_ Hz]]; [by eapply IH|].
      apply list_lookup_singleton_Some in Hz as [_ ->]. lia.
Qed.

(** The completion variable is the 1-based index of the last active slot. *)
Lemma completion_value a n id :
  (forall i, 0 <= i < Z.of_nat n -> indicates (a (completion_active_var id i)) (slot_energy a id i)) ->
  completion_sat a n id -> last_positive (occurrence_energy a n id) = Some (a (completion_var id)).
Proof.
  intros Hind ((Hlo & Hhi) & Hall & Hex). rewrite Forall_forall in Hall.
  apply Exists_exists in Hex as (k & Hk & Ek). apply elem_of_indices in Hk.
  pose proof (last_positive_max (occurrence_energy a n id)) as Hmax.
  assert (forall i, 0 <= i < Z.of_nat n -> occurrence_energy a n id !! Z.to_nat i = Some (slot_energy a id i)) as Hl.
  { intros i Hi. apply occurrence_energy_lookup. split; [lia|]. f_equal. lia. }
  destruct (Hind k Hk) as (Hb & Hb1 & Hb0).
  assert (a (completion_active_var id k) = 1) as Hk1 by nia. rewrite Hk1 in Ek.
  specialize (Hb1 Hk1). destruct (last_positive _) as [c|].
  - destruct Hmax as [Hub (i & x & Hi & Hpos & ->)]. f_equal. apply Z.le_antisymm.
    + apply occurrence_energy_lookup in Hi as [Hi ->].
      destruct (Hind (Z.of_nat i)) as (Hc & Hc1 & Hc0); [lia|].
      specialize (Hall (Z.of_nat i) ltac:(apply elem_of_indices; lia)). cbn beta in Hall.
      assert (a (completion_active_var id (Z.of_nat i)) = 1) as E.
      { destruct (decide (a (completion_active_var id (Z.of_nat i)) = 0)) as [E|E]; [specialize (Hc0 E)|]; lia. }
      rewrite E in Hall. lia.
    + specialize (Hub _ _ (Hl k Hk) ltac:(lia)). lia.
  - specialize (Hmax _ _ (Hl k Hk)). lia.
Qed.

Lemma completion_complete a n id c :
  (forall i, 0 <= i < Z.of_nat n ->
     a (completion_active_var id i) = if 0 <? slot_energy a id i then 1 else 0) ->
  last_positive (occurrence_energy a n id) = Some c -> a (completion_var id) = c -> completion_sat a n id.
Proof.
  intros Hact Hlast Hc. pose proof (last_positive_max (occurrence_energy a n id)) as Hmax. rewrite Hlast in Hmax.
  destruct Hmax as [Hub (i & x & Hi & Hpos & E)]. apply occurrence_energy_lookup in Hi as [Hi ->].
  unfold completion_sat. rewrite Hc. split; [lia|]. split.
  - apply Forall_forall. intros k Hk%elem_of_indices. rewrite Hact by done.
    destruct (Z.ltb_spec 0 (slot_energy a id k)); [|lia].
    specialize (Hub (Z.to_nat k) (slot_energy a id k)). rewrite occurrence_energy_lookup in Hub.
    assert (Z.of_nat (Z.to_nat k) = k) as Ek by lia. rewrite Ek in Hub. specialize (Hub ltac:(split; [lia|done])). lia.
  - apply Exists_exists. exists (Z.of_nat i). split; [apply elem_of_indices; lia|].
    rewrite Hact by lia. destruct (Z.ltb_spec 0 (slot_energy a id (Z.of_nat i))); lia.
Qed.

(** Terms of the stable score. *)
Lemma leval_stable a p vs :
  leval a (lsum (stable_terms p vs)) = sum_by (fun ia : Z * Z => ia.2 * (ia.1 + 1)) (enumerate_from p (a <$> vs)).
Proof.
  unfold stable_terms. rewrite leval_sum, sum_by_fmap, enumerate_from_fmap, sum_by_fmap. apply sum_by_ext.
  intros [i v] _. cbn [fst snd]. autorewrite with leval. lia.
Qed.
