(* ===== verification/LoweringProofs.v ===== *)
(** * LoweringProofs: the lowering is exact

    Solutions of the lowered model are exactly the schedules the independent
    verifier accepts, and the objective expressions evaluate to the verifier's
    objective tuple: the time-of-use cents plus the constant the lowering takes
    from the reference bill equal the replayed bill of the candidate. *)

From Stdlib Require Import QArith.QArith_base.
From S2P Require Import Prelude Calendar Json Schema Compiled Fixtures Eligibility Apportion DayEnergy ChargeIR.
From S2P Require Import Replay ReplayProofs ReplaySafety ReplayReschedule.
From S2P Require Import CpModel OptimizerModels Scenario ScenarioProofs Verification VerificationProofs.
From S2P Require Import Lowering LoweringModel LoweringSchedules.

(** ** Operators *)
Definition applies (facts : AccountFacts) (month : Z) (op : CompiledRule) : bool :=
  rule_applies (applicability (ir_base op)) facts month.
Definition applicable_charges (ops : list CompiledRule) (facts : AccountFacts) (month : Z)
    : list IRTimeOfUseEnergyCharge :=
  omap as_time_of_use (List.filter (applies facts month) ops).

Lemma applicable_elem ops facts month r :
  r ∈ applicable_charges ops facts month <-> IRTimeOfUse r ∈ ops /\ applies facts month (IRTimeOfUse r) = true.
Proof.
  unfold applicable_charges. rewrite list_elem_of_omap. split.
  - intros (op & Hop & Hr). apply list_elem_of_In, filter_In in Hop as [Hop%list_elem_of_In Ha].
    destruct op; try done. cbn in Hr. by injection Hr as ->.
  - intros [Hop Ha]. exists (IRTimeOfUse r). split; [|done]. apply list_elem_of_In, filter_In. split; [|done].
    by apply list_elem_of_In.
Qed.

Lemma applicable_ids ops facts month :
  NoDup (rule_id ∘ ir_base <$> ops) -> NoDup (rule_id ∘ ir_tc_base <$> applicable_charges ops facts month).
Proof.
  unfold applicable_charges. induction ops as [|op ops IH]; intros Hnd; [constructor|].
  rewrite fmap_cons in Hnd. apply NoDup_cons in Hnd as [Hop Hnd]. specialize (IH Hnd). cbn [List.filter].
  destruct (applies facts month op); [|done]. destruct op as [r|r|r|r|r|r|r]; try done. cbn [omap list_omap as_time_of_use].
  rewrite fmap_cons. apply NoDup_cons. split; [|done]. intros Hin. apply Hop.
  apply list_elem_of_fmap in Hin as (r' & E & Hr'). cbn in E. apply list_elem_of_fmap. exists (IRTimeOfUse r').
  split; [done|]. fold (applicable_charges ops facts month) in Hr'. by apply applicable_elem in Hr' as [? _].
Qed.

(** The proofs the lowering records for one operator. *)
Definition omissions (facts : AccountFacts) (month energy : Z) (op : CompiledRule) : list OmittedChargeProof :=
  let entry subterm r := {| oc_rule_id := rule_id (ir_base op); oc_operator := operator_name op;
                            oc_subterm := subterm; algebraic_reason := r;
                            invariant_total_energy_wh := energy |} in
  if negb (applies facts month op) then [entry "complete_rule" ACCOUNT_APPLICABILITY_FALSE]
  else match op with
       | IRTimeOfUse r =>
           match baseline_credit_microdollars_per_kwh r with
           | Some _ => [entry "baseline_credit" (omission_reason op)]
           | None => []
           end
       | _ => [entry "complete_rule" (omission_reason op)]
       end.

Lemma add_proof_ok op subterm r energy st out :
  add_proof op subterm r energy st = Ok out ->
  0 <= energy /\ time_charges out = time_charges st /\ supported_names out = supported_names st /\
  proofs out = proofs st ++ [{| oc_rule_id := rule_id (ir_base op); oc_operator := operator_name op;
                                oc_subterm := subterm; algebraic_reason := r;
                                invariant_total_energy_wh := energy |}].
Proof. unfold add_proof, charge_proof. intros Hp. inv_ok. bools. subst. done. Qed.

Lemma active_step_ok facts month energy st op out :
  active_step facts month energy st op = Ok out ->
  time_charges out = time_charges st ++ applicable_charges [op] facts month /\
  proofs out = proofs st ++ omissions facts month energy op /\
  supported_names out = supported_names st ++ [operator_name op] /\
  (forall r, r ∈ applicable_charges [op] facts month -> rounding (ir_tc_base r) = HALF_UP_CENT_AT_LINE_ITEM).
Proof.
  unfold active_step, omissions, applicable_charges. cbn [List.filter]. fold (applies facts month op).
  destruct (applies facts month op); cbn [negb]; intros Hs.
  - destruct op as [r|r|r|r|r|r|r]; cbn [omap list_omap as_time_of_use];
      try (apply add_proof_ok in Hs as (_ & -> & -> & ->); rewrite app_nil_r; set_solver).
    apply bind_ok in Hs as (u & Hu & Hs). apply raise_if_ok in Hu. bools.
    destruct (baseline_credit_microdollars_per_kwh r).
    + apply add_proof_ok in Hs as (_ & -> & -> & ->). set_solver.
    + injection Hs as <-. cbn. rewrite app_nil_r. set_solver.
  - apply add_proof_ok in Hs as (_ & -> & -> & ->). cbn. rewrite app_nil_r. set_solver.
Qed.

Lemma active_operators_ok bundle facts energy charges ps names :
  active_operators_and_proofs bundle facts energy = Ok (charges, ps, names) ->
  exists service_end, dr_end (service_window facts) = Some service_end /\
    charges = applicable_charges (operators (ir bundle)) facts (date_month service_end) /\
    ps = operators (ir bundle) ≫= omissions facts (date_month service_end) energy /\
    names = sorted_set (operator_name <$> operators (ir bundle)) /\
    Forall (fun r => rounding (ir_tc_base r) = HALF_UP_CENT_AT_LINE_ITEM) charges.
Proof.
  unfold active_operators_and_proofs. destruct (dr_end _) as [e|]; [|done]. intros Hs.
  apply bind_ok in Hs as (st & Hst & [= <- <- <-]). exists e. split; [done|].
  pose (P := fun ops st => time_charges st = applicable_charges ops facts (date_month e) /\
    proofs st = ops ≫= omissions facts (date_month e) energy /\ supported_names st = operator_name <$> ops /\
    Forall (fun r => rounding (ir_tc_base r) = HALF_UP_CENT_AT_LINE_ITEM)
      (applicable_charges ops facts (date_month e))).
  enough (P (operators (ir bundle)) st) as (-> & -> & -> & Hr) by done.
  revert Hst. apply (foldM_prefix_inv _ P); unfold P; [done|].
  intros done op st0 st1 _ (H1 & H2 & H3 & H4) Hstep. apply active_step_ok in Hstep as (-> & -> & -> & Hr).
  rewrite H1, H2, H3. unfold applicable_charges. rewrite List.filter_app, omap_app, bind_app, fmap_app.
  cbn [mbind list_bind]. rewrite app_nil_r. split; [done|]. split; [done|]. split; [done|].
  apply Forall_app. split; [done|]. apply Forall_forall. exact Hr.
Qed.

(** ** Periods *)
Section Rates.
Context `{ZoneInfo} (s : ScenarioInput) (bundle : CompilationBundle) (facts : AccountFacts).
Notation slots := (profile_slots s).

(** The periods the lowering assigns to the slots of a charge. *)
Definition slot_periods (op : IRTimeOfUseEnergyCharge) (ps : list TimeOfUsePeriod) : Prop :=
  exists schedule, resolve_time_schedule bundle (schedule_rule_id op) = Ok schedule /\
    Forall2 (fun slot p => slot_period schedule (service_window facts) slot = Ok p) slots ps /\
    Forall (fun p => p ∈ irp_period <$> period_rates op) ps.

Lemma reraise_ok {A} (m : result A) x : reraise_replay m = Ok x <-> m = Ok x.
Proof. destruct m as [y|[]]; done. Qed.

Lemma rate_by_period_keys op p : is_Some (dict_get p (rate_by_period op)) -> p ∈ irp_period <$> period_rates op.
Proof.
  unfold rate_by_period. intros Hp.
  assert (is_Some (dict_get p (@nil (TimeOfUsePeriod * Z))) \/ p ∈ irp_period <$> period_rates op) as [[? E]|]; [|done..].
  revert Hp. generalize (@nil (TimeOfUsePeriod * Z)).
  induction (period_rates op) as [|r rs IH]; intros d Hp; cbn [foldl] in Hp; [by left|].
  rewrite fmap_cons. destruct (decide (irp_period r = p)) as [<-|Hne]; [right; set_solver|].
  apply IH in Hp as [Hp|Hp]; [|right; set_solver]. left. by rewrite dict_get_set_ne in Hp.
Qed.

Lemma slot_rates_ok schedule rates items st out :
  foldM (slot_rate_step schedule (service_window facts) rates) st items = Ok out ->
  length (rt_marginal out) = length (rt_marginal st) /\
  exists ps, rt_periods out = rt_periods st ++ ps /\
    Forall2 (fun slot p => slot_period schedule (service_window facts) slot = Ok p) items.*2 ps /\
    Forall (fun p => is_Some (dict_get p rates)) ps.
Proof.
  revert st. induction items as [|[i slot] items IH]; intros st Hf; cbn [foldM] in Hf.
  { injection Hf as <-. split; [done|]. exists (@nil TimeOfUsePeriod). rewrite app_nil_r. split; [done|]. split; constructor. }
  apply bind_ok in Hf as (st' & Hst & Hf). unfold slot_rate_step in Hst.
  apply bind_ok in Hst as (p & Hp & Hst). rewrite reraise_ok in Hp. cbn [snd fst] in *.
  destruct (dict_get p rates) as [rate|] eqn:Er; [|done]. injection Hst as <-.
  destruct (IH _ Hf) as (Hlen & ps & Hps & HF & Hr). cbn [rt_periods rt_marginal] in *.
  split; [by rewrite Hlen, length_alter|]. exists (p :: ps). rewrite Hps, <- app_assoc.
  split; [done|]. split; [apply Forall2_cons; split; [exact Hp|exact HF]|]. constructor; [by rewrite Er|done].
Qed.

Lemma enumerate_from_snd {A} k (l : list A) : (enumerate_from k l).*2 = l.
Proof. revert k. induction l as [|x l IH]; intros k; [done|]. cbn [enumerate_from]. by rewrite fmap_cons, IH. Qed.

Lemma slot_periods_and_rates_ok charges pbr marginal ranks :
  NoDup (rule_id ∘ ir_tc_base <$> charges) ->
  slot_periods_and_rates s bundle facts charges = Ok (pbr, marginal, ranks) ->
  Forall (fun op => exists ps, dict_get (rule_id (ir_tc_base op)) pbr = Some ps /\ slot_periods op ps) charges /\
  length marginal = length slots /\ ranks_of marginal = Ok ranks.
Proof.
  intros Hnd Hr. unfold slot_periods_and_rates in Hr. apply bind_ok in Hr as (st & Hst & Hr).
  apply bind_ok in Hr as (rk & Hrk & [= <- <- <-]).
  pose (P := fun done (st : dict string (list TimeOfUsePeriod) * list Z) => length st.2 = length slots /\
    Forall (fun op => exists ps, dict_get (rule_id (ir_tc_base op)) st.1 = Some ps /\ slot_periods op ps) done).
  enough (P charges st) as [? ?] by done.
  revert Hst. apply (foldM_prefix_inv _ P); unfold P.
  { cbn. unfold zeros. rewrite length_replicate. done. }
  intros done op st0 st1 [todo ->] [Hlen Hall] Hstep. unfold charge_rate_step in Hstep.
  apply bind_ok in Hstep as (schedule & Hsch & Hstep). apply bind_ok in Hstep as (out & Hout & [= <-]).
  apply slot_rates_ok in Hout as (Hlen' & ps & Hps & HF & Hrt). cbn [rt_periods rt_marginal fst snd] in *.
  split; [by rewrite Hlen', Hlen|]. rewrite fmap_app, fmap_cons in Hnd. apply NoDup_app in Hnd as (_ & Hfr & _).
  apply Forall_app. split.
  - apply Forall_forall. intros o Ho. rewrite Forall_forall in Hall. destruct (Hall o Ho) as (ps' & Hg & Hp).
    exists ps'. split; [|done]. rewrite dict_get_set_ne; [done|]. intros E.
    apply (Hfr (rule_id (ir_tc_base o))); [apply list_elem_of_fmap; by exists o|]. cbn. rewrite <- E. set_solver.
  - apply Forall_singleton. exists ps. rewrite dict_get_set_eq, Hps. split; [done|].
    exists schedule. split; [done|]. rewrite enumerate_from_snd in HF. split; [done|].
    eapply Forall_impl; [exact Hrt|]. intros p. apply rate_by_period_keys.
Qed.
End Rates.

Lemma ranks_of_nonneg marginal ranks : ranks_of marginal = Ok ranks -> Forall (fun r => 0 <= r) ranks.
Proof.
  unfold ranks_of. rewrite mapM_ok. intros HF. apply Forall_forall. intros rank Hr.
  apply list_elem_of_lookup in Hr as [i Hi]. destruct (Forall2_lookup_r _ _ _ _ _ HF Hi) as (rate & _ & Hr).
  destruct (dict_get rate (rank_by_rate marginal)) as [r|] eqn:E; [|done]. injection Hr as ->.
  apply dict_get_elem in E. unfold rank_by_rate in E. apply list_elem_of_fmap in E as ((k & x) & [= -> ->] & Hk).
  apply elem_of_enumerate in Hk as (? & -> & _). cbn. lia.
Qed.

(** ** What a completed lowering consists of *)
Section Inversion.
Context `{ZoneInfo} `{Sha256} (vs : ValidatedScenario) (bundle : CompilationBundle) (facts : AccountFacts)
  (billing : ReplayResult).
Notation s := (scenario vs).
Notation slots := (profile_slots s).
Notation los := (canonical_occurrences s).
Notation background := (es_energy_wh <$> fixed_background (decomposition vs)).

Definition schedule_energy (a : assignment) : list Z :=
  concat ((fun lo => occurrence_energy a (length slots) (lo_id lo)) <$> los).

(** The three blocks of the lowered model. *)
Definition lowered_sat (charges : list IRTimeOfUseEnergyCharge) (pbr : dict string (list TimeOfUsePeriod))
    (a : assignment) : Prop :=
  Forall (fun lo => occurrence_sat a s lo (window_of s lo)) los /\
  Forall (cap_sat s background los a) (enumerate slots) /\
  Forall (charge_sat s background los pbr a) (rate_entries charges).

Record lowering_spec (charges : list IRTimeOfUseEnergyCharge) (pbr : dict string (list TimeOfUsePeriod))
    (l : LoweredScenarioModel) : Prop := {
  ls_version : sc_tariff_version_id s = ir_tariff_version_id (ir bundle);
  ls_windows : Forall (fun lo => lowering_window_indices s lo.2 = Ok (window_of s lo)) los;
  ls_background : (length slots <= length background)%nat;
  ls_energy : energy_by_occurrence l = energy_dict s los;
  ls_sat a : satisfies a (lowered_model l) <-> lowered_sat charges pbr a;
  ls_cost a : leval a (supported_cost (objectives l))
    = supported_calculated_cents billing - reference_variable_cents charges billing
      + sum_by (fun x => entry_sign x * a (entry_cents x)) (rate_entries charges);
  ls_changed a : leval a (changed_occurrence_slots (objectives l))
    = sum_by (fun lo => sum_by (fun i => a (changed_var (lo_id lo) i)) (indices (length slots))) los;
  ls_completion a : leval a (completion_slot_index_sum_expr (objectives l))
    = sum_by (fun lo => a (completion_var (lo_id lo))) los;
  ls_stable a : leval a (stable_slot_order_score_expr (objectives l))
    = sum_by (fun ia : Z * Z => ia.2 * (ia.1 + 1)) (enumerate (schedule_energy a));
  ls_ranks : length (off_peak_ranks (lowering_record l)) = length slots;
  ls_proxy a : leval a (proxy_rank_score (objectives l))
    = sum_by (fun lo => zsum (zip_with Z.mul (occurrence_energy a (length slots) (lo_id lo))
                                (off_peak_ranks (lowering_record l)))) los;
  ls_bounds_cost :
    let b := objective_bounds (lowering_record l) in
    let constant := constant_supported_cost_cents (lowering_record l) in
    constant = supported_calculated_cents billing - reference_variable_cents charges billing /\
    minimum_supported_cost_cents b
    = constant - sum_by (cost_low s background los pbr) (rate_entries charges) /\
    maximum_supported_cost_cents b
    = constant + sum_by (cost_high s background los pbr) (rate_entries charges);
  ls_bounds_entries :
    let b := objective_bounds (lowering_record l) in
    maximum_changed_occurrence_slot_count b = Z.of_nat (length los) * Z.of_nat (length slots) /\
    maximum_completion_slot_index_sum b = Z.of_nat (length los) * Z.of_nat (length slots) /\
    maximum_stable_slot_order_score b
    = sum_by (fun pm : Z * Z => pm.2 * (pm.1 + 1)) (enumerate (concat (maxima_of s <$> los)));
  ls_ranks_nonneg : Forall (fun r => 0 <= r) (off_peak_ranks (lowering_record l));
  ls_bounds_proxy : maximum_proxy_rank_score (objective_bounds (lowering_record l))
    = sum_by (fun lo => zsum (zip_with Z.mul (maxima_of s lo) (off_peak_ranks (lowering_record l)))) los;
  ls_int64 :
    let b := objective_bounds (lowering_record l) in
    Forall (fun v => Z.abs v <= SIGNED_INT64_MAX)
      [invariant_total_profile_energy_wh (lowering_record l); minimum_supported_cost_cents b;
       maximum_supported_cost_cents b; maximum_changed_occurrence_slot_count b;
       maximum_completion_slot_index_sum b; maximum_stable_slot_order_score b; maximum_proxy_rank_score b];
  ls_invariant : invariant_total_profile_energy_wh (lowering_record l)
    = zsum background + sum_by (fun lo => required_energy_wh lo.2) los
}.

Lemma check_int64_ok bounds u : check_int64 bounds = Ok u <-> Forall (fun v => Z.abs v <= SIGNED_INT64_MAX) bounds.
Proof.
  unfold check_int64. rewrite forM_ok. split; intros HF; (eapply Forall_impl; [exact HF|]); cbn beta; intros v.
  - rewrite raise_if_ok, Z.ltb_ge. done.
  - intros Hv. rewrite raise_if_ok, Z.ltb_ge. done.
Qed.

Lemma canonical_maxima_ok occs ms :
  NoDup (lo_id <$> occs) -> canonical_maxima occs (maximum_dict s occs) = Ok ms -> ms = maxima_of s <$> occs.
Proof.
  intros Hnd. unfold canonical_maxima. rewrite mapM_ok. intros HF.
  assert (forall lo, lo ∈ occs -> dict_get (lo_id lo) (maximum_dict s occs) = Some (maxima_of s lo)) as Hg.
  { intros lo Hlo. apply dict_elem_get.
    - unfold maximum_dict. by rewrite <- list_fmap_compose.
    - unfold maximum_dict. apply list_elem_of_fmap. by exists lo. }
  revert HF Hg. generalize (maximum_dict s occs). intros d HF. clear Hnd.
  induction HF as [|lo m occs ms Hm _ IH]; intros Hg; [done|]. rewrite fmap_cons.
  unfold lo_id in Hg at 1. rewrite (Hg lo) in Hm by set_solver. injection Hm as <-. f_equal. apply IH.
  intros; apply Hg; set_solver.
Qed.

Lemma sum_by_concat {A B} (f : B -> Z) (g : A -> list B) (l : list A) :
  sum_by f (l ≫= g) = sum_by (fun x => sum_by f (g x)) l.
Proof.
  induction l as [|x l IH]; [done|]. cbn [mbind list_bind]. rewrite sum_by_app, sum_by_cons. f_equal. exact IH.
Qed.

Lemma sum_enumerate_rank (ranks : list Z) (a : assignment) (vars : list cpvar) k :
  (Z.to_nat k + length vars <= length ranks)%nat -> 0 <= k ->
  sum_by (fun iv : Z * cpvar => default 0 (ranks !! Z.to_nat iv.1) * a iv.2) (enumerate_from k vars)
  = zsum (zip_with Z.mul (a <$> vars) (drop (Z.to_nat k) ranks)).
Proof.
  revert k. induction vars as [|v vars IH]; intros k Hlen Hk; [done|]. cbn [enumerate_from length] in *.
  rewrite sum_by_cons, IH by lia. cbn [fst snd].
  destruct (lookup_lt_is_Some_2 ranks (Z.to_nat k)) as [r Hr]; [lia|].
  rewrite (drop_S ranks r (Z.to_nat k)), Hr by done. rewrite fmap_cons. cbn [zip_with default].
  change (zsum (?x :: ?l)) with (x + zsum l). replace (Z.to_nat (k + 1)) with (S (Z.to_nat k)) by lia.
  unfold id. lia.
Qed.

Lemma proxy_terms_ok ranks (d : dict uuid (list cpvar)) px a :
  mapM (fun iv : Z * cpvar => rank ← py_index ranks iv.1; Ok (lscale rank (lvar iv.2)))
    (d ≫= fun kv => enumerate kv.2) = Ok px ->
  Forall (fun kv : uuid * list cpvar => length kv.2 = length ranks) d ->
  leval a (lsum px) = sum_by (fun kv => zsum (zip_with Z.mul (a <$> kv.2) ranks)) d.
Proof.
  intros Hpx Hlen. rewrite leval_sum. apply mapM_ok in Hpx.
  transitivity (sum_by (fun iv : Z * cpvar => default 0 (ranks !! Z.to_nat iv.1) * a iv.2)
                  (d ≫= fun kv => enumerate kv.2)).
  - induction Hpx as [|iv e l px He _ IH]; [done|]. rewrite !sum_by_cons, IH. f_equal.
    apply bind_ok in He as (rank & ->%py_index_ok & [= <-]). by rewrite leval_scale, leval_var.
  - rewrite sum_by_concat. apply sum_by_ext. intros kv Hkv. rewrite Forall_forall in Hlen.
    rewrite (sum_enumerate_rank ranks a kv.2 0) by (rewrite ?(Hlen kv Hkv); lia). by rewrite drop_0.
Qed.

Lemma compile_inv l :
  NoDup (lo_id <$> los) -> NoDup (rule_id ∘ ir_base <$> operators (ir bundle)) ->
  compile_scenario_model vs bundle facts billing = Ok l ->
  exists service_end pbr, dr_end (service_window facts) = Some service_end /\
    let charges := applicable_charges (operators (ir bundle)) facts (date_month service_end) in
    Forall (fun op => exists ps, dict_get (rule_id (ir_tc_base op)) pbr = Some ps /\
                                 slot_periods s bundle facts op ps) charges /\
    omitted_charge_proofs (lowering_record l)
    = (operators (ir bundle) ≫= omissions facts (date_month service_end)
         (invariant_total_profile_energy_wh (lowering_record l))) /\
    lowering_spec charges pbr l.
Proof.
  intros Hids Hrules Hc. unfold compile_scenario_model in Hc.
  apply bind_ok in Hc as (u & Hg & Hc). apply bind_ok in Hc as (((charges & ps) & names) & Hact & Hc).
  apply bind_ok in Hc as (((pbr & marginal) & ranks) & Hrates & Hc). apply bind_ok in Hc as (u1 & _ & Hc).
  apply bind_ok in Hc as (st & Hst & Hc). apply bind_ok in Hc as (sl & Hsl & Hc).
  apply bind_ok in Hc as (co & Hco & Hc). apply bind_ok in Hc as (px & Hpx & Hc).
  apply bind_ok in Hc as (ms & Hms & Hc). apply bind_ok in Hc as (u2 & Hint & Hc).
  apply bind_ok in Hc as (u3 & _ & Hc). apply bind_ok in Hc as (u4 & _ & [= <-]).
  change (lowering_occurrences s) with los in *.
  apply active_operators_ok in Hact as (se & Hse & -> & -> & -> & _). exists se, pbr. split; [done|].
  set (charges := applicable_charges _ facts (date_month se)) in *. cbv zeta.
  assert (NoDup (rule_id ∘ ir_tc_base <$> charges)) as Hch by (by apply applicable_ids).
  apply slot_periods_and_rates_ok in Hrates as (Hper & Hml & Hrk); [|done].
  pose proof (ranks_of_nonneg _ _ Hrk) as Hnn. apply mapM_ok, Forall2_length in Hrk. rewrite Hml in Hrk.
  split; [done|]. split; [done|].
  apply occurrence_fold_ok in Hst; [|done]. destruct Hst as [Hwin Hen Hmx Hchg Hcmp Hstb _ Hsat].
  rewrite Hen, Hmx in Hsl. apply profile_fold_ok in Hsl as (Hpr & Hpm & Hbg & Hcap).
  rewrite Hpr, Hpm in Hco. apply cost_fold_ok in Hco as ((Hterms & Hmin & Hmax & Hcost) & _).
  cbn [co_terms co_minimum co_maximum co_model] in *.
  rewrite Hmx in Hms. apply canonical_maxima_ok in Hms as ->; [|done].
  apply check_int64_ok in Hint. unfold guard_lowering in Hg. inv_ok. bools.
  split; cbn [energy_by_occurrence lowered_model objectives lowering_record supported_cost changed_occurrence_slots
    completion_slot_index_sum_expr stable_slot_order_score_expr objective_bounds constant_supported_cost_cents
    minimum_supported_cost_cents maximum_supported_cost_cents maximum_changed_occurrence_slot_count
    maximum_completion_slot_index_sum maximum_stable_slot_order_score maximum_proxy_rank_score
    invariant_total_profile_energy_wh off_peak_ranks proxy_rank_score]; try done.
  - by apply String.eqb_eq.
  - intros a. rewrite Hcost, Hcap, Hsat. unfold lowered_sat. pose proof (satisfies_empty a). tauto.
  - intros a. rewrite Hterms, leval_sum. cbn [app]. rewrite sum_by_cons, leval_const, sum_by_fmap. f_equal.
    apply sum_by_ext. intros x _. unfold cost_term. by rewrite leval_scale, leval_var.
  - intros a. rewrite Hchg, leval_sum_vars. change (zsum (a <$> ?l)) with (sum_by a l). rewrite sum_by_concat.
    apply sum_by_ext. intros lo _. by rewrite sum_by_fmap.
  - intros a. rewrite Hcmp, leval_sum_vars. change (zsum (a <$> ?l)) with (sum_by a l). by rewrite sum_by_fmap.
  - intros a. rewrite Hstb, leval_stable. do 2 f_equal. unfold schedule_energy. clear.
    induction los as [|lo l IH]; [done|]. cbn [mbind list_bind]. rewrite fmap_app, fmap_cons. cbn [concat].
    f_equal; [|exact IH]. unfold occurrence_variables, occurrence_energy. by rewrite <- list_fmap_compose.
  - intros a. rewrite Hen in Hpx. rewrite (proxy_terms_ok ranks _ px a Hpx).
    + unfold energy_dict. rewrite sum_by_fmap. apply sum_by_ext. intros lo _. cbn [snd].
      unfold occurrence_variables, occurrence_energy. by rewrite <- list_fmap_compose.
    + apply Forall_fmap, Forall_forall. intros lo _. cbn [compose snd]. unfold occurrence_variables.
      rewrite length_fmap, length_indices. lia.
  - by rewrite sum_by_fmap.
Qed.
End Inversion.

(** ** The schedule of an assignment *)
Definition assigned_schedule (s : ScenarioInput) (a : assignment) : CandidateSchedule :=
  {| cs_occurrences := (fun lo =>
       {| os_occurrence_id := lo_id lo;
          os_slots := energy_slots (profile_slots s)
                        (occurrence_energy a (length (profile_slots s)) (lo_id lo)) |})
       <$> canonical_occurrences s |}.

Lemma Forall2_det {A B} (P : A -> B -> Prop) (f : A -> B) l k :
  Forall2 P l k -> (forall x y, x ∈ l -> P x y -> y = f x) -> k = f <$> l.
Proof.
  induction 1 as [|x y l k Hxy _ IH]; intros Hf; [done|]. rewrite fmap_cons. f_equal.
  - apply Hf; [set_solver|done].
  - apply IH. intros; apply Hf; [set_solver|done].
Qed.

Section Assigned.
Context (s : ScenarioInput) (a : assignment).
Notation n := (length (profile_slots s)).
Notation slots := (profile_slots s).
Notation los := (canonical_occurrences s).

Lemma assigned_energies lo :
  energies (energy_slots slots (occurrence_energy a n (lo_id lo))) = occurrence_energy a n (lo_id lo).
Proof. apply energies_energy_slots. apply length_occurrence_energy. Qed.

Lemma energy_slots_match e : length e = n -> slots_match (energy_slots slots e) slots.
Proof.
  intros Hlen. unfold slots_match, energy_slots. apply Forall2_same_length_lookup_2.
  - rewrite length_zip_with. lia.
  - intros i v p Hv Hp. apply lookup_zip_with_Some in Hv as (q & x & -> & Hq & _). by simplify_eq.
Qed.

Lemma assigned_vectors :
  (fun os => energies (os_slots os)) <$> cs_occurrences (assigned_schedule s a)
  = (fun lo => occurrence_energy a n (lo_id lo)) <$> los.
Proof.
  cbn [cs_occurrences assigned_schedule]. rewrite <- list_fmap_compose. apply list_fmap_ext.
  intros i lo _. apply assigned_energies.
Qed.

Lemma foldl_vec_add_column (i : Z) acc (vs : list (list Z)) :
  length acc = n -> Forall (fun v => length v = n) vs -> 0 <= i < Z.of_nat n ->
  default 0 (foldl vec_add acc vs !! Z.to_nat i)
  = default 0 (acc !! Z.to_nat i) + sum_by (fun v => default 0 (v !! Z.to_nat i)) vs.
Proof.
  intros Hacc Hvs Hi. revert acc Hacc. induction Hvs as [|v vs Hv _ IH]; intros acc Hacc; cbn [foldl].
  { rewrite sum_by_nil. lia. }
  rewrite IH by (rewrite length_vec_add; lia). rewrite sum_by_cons. unfold vec_add. rewrite lookup_zip_with.
  destruct (lookup_lt_is_Some_2 acc (Z.to_nat i)) as [x ->]; [lia|].
  destruct (lookup_lt_is_Some_2 v (Z.to_nat i)) as [y ->]; [lia|]. cbn. lia.
Qed.

Lemma indices_table (l : list Z) (f : Z -> Z) :
  length l = n -> (forall i, 0 <= i < Z.of_nat n -> default 0 (l !! Z.to_nat i) = f i) -> l = f <$> indices n.
Proof.
  intros Hlen Hf. apply list_eq. intros i. rewrite list_lookup_fmap. destruct (decide (i < n)%nat) as [Hi|Hi].
  - rewrite seqZ_lookup_nat by done. destruct (lookup_lt_is_Some_2 l i) as [x Hx]; [lia|].
    specialize (Hf (Z.of_nat i) ltac:(lia)). rewrite Nat2Z.id, Hx in Hf. cbn in *. congruence.
  - rewrite lookup_seqZ_ge by lia. cbn. apply lookup_ge_None_2. lia.
Qed.

Lemma assigned_flexible : flexible_total s (assigned_schedule s a) = flexible_value los a <$> indices n.
Proof.
  unfold flexible_total. rewrite assigned_vectors.
  assert (Forall (fun v => length v = n) ((fun lo => occurrence_energy a n (lo_id lo)) <$> los)) as Hl.
  { apply Forall_fmap, Forall_forall. intros lo _. apply length_occurrence_energy. }
  assert (length (zeros n) = n) as Hz by apply length_replicate.
  apply indices_table; [by apply length_foldl_vec_add|]. intros i Hi.
  rewrite foldl_vec_add_column by done. unfold zeros. rewrite lookup_replicate_2 by lia. cbn [default].
  rewrite sum_by_fmap. unfold flexible_value. rewrite Z.add_0_l. apply sum_by_ext. intros lo _.
  rewrite (proj2 (occurrence_energy_lookup a n (lo_id lo) (Z.to_nat i) (slot_energy a (lo_id lo) i))); [done|].
  split; [lia|]. f_equal. lia.
Qed.

Lemma assigned_profile :
  length (background_of s) = n ->
  candidate_profile_of s (assigned_schedule s a) = profile_value (background_of s) los a <$> indices n.
Proof.
  intros Hb. unfold candidate_profile_of. rewrite assigned_flexible. apply indices_table.
  - rewrite length_vec_add; rewrite ?length_fmap, ?length_indices; done.
  - intros i Hi. unfold vec_add. rewrite lookup_zip_with.
    destruct (lookup_lt_is_Some_2 (background_of s) (Z.to_nat i)) as [x Hx]; [lia|].
    rewrite Hx, list_lookup_fmap, seqZ_lookup_nat by lia. cbn. unfold profile_value, fixed_value. rewrite Hx. cbn.
    replace (Z.of_nat (Z.to_nat i)) with i by lia. lia.
Qed.

Lemma within_cap_table cap (f : Z -> Z) :
  within_cap cap (f <$> indices n) slots <->
  Forall (fun item => below_cap cap (f item.1) item.2) (enumerate slots).
Proof.
  unfold within_cap, below_cap. rewrite Forall_enumerate. destruct cap as [c|].
  - rewrite Forall2_fmap_l, Forall2_lookup. unfold compose. split.
    + intros HF i p Hp. specialize (HF i). pose proof (lookup_lt_Some _ _ _ Hp).
      rewrite seqZ_lookup_nat, Hp in HF by done. inversion HF as [? ? Hle|]; subst. cbn [fst snd]. cbn beta in Hle. lia.
    + intros Hall i. destruct (slots !! i) as [p|] eqn:Ep.
      * pose proof (lookup_lt_Some _ _ _ Ep). rewrite seqZ_lookup_nat by done. constructor.
        specialize (Hall i p Ep). cbn [fst snd] in Hall. lia.
      * apply lookup_ge_None in Ep. rewrite lookup_seqZ_ge by lia. constructor.
  - naive_solver.
Qed.

Lemma assigned_ids : os_occurrence_id <$> cs_occurrences (assigned_schedule s a) = lo_id <$> los.
Proof. cbn [cs_occurrences assigned_schedule]. by rewrite <- list_fmap_compose. Qed.

Lemma assigned_elem os : os ∈ cs_occurrences (assigned_schedule s a) ->
  exists lo, lo ∈ los /\ os = {| os_occurrence_id := lo_id lo;
                                 os_slots := energy_slots slots (occurrence_energy a n (lo_id lo)) |}.
Proof. intros Hos. apply list_elem_of_fmap in Hos as (lo & -> & Hlo). by exists lo. Qed.

Lemma assigned_canonical t0 d oss :
  NoDup (lo_id <$> los) -> canonical_for t0 d s (assigned_schedule s a) oss ->
  oss = cs_occurrences (assigned_schedule s a).
Proof.
  intros Hnd Hf. cbn [cs_occurrences assigned_schedule]. eapply Forall2_det; [exact Hf|].
  intros lo os _ [Hg _]. apply by_occurrence_get in Hg as [Hin Hid]; [|by rewrite assigned_ids].
  apply assigned_elem in Hin as (lo' & _ & ->). cbn in Hid. by rewrite Hid.
Qed.
End Assigned.
