(* ===== verification/LoweringCost.v ===== *)
(** * LoweringCost: the lowered cost is the replayed bill

    The cents variables are the half-up rounded period lines of the bill of the
    candidate profile, and the constant taken from the reference bill is the
    part of the bill that [ReplayReschedule] shows unchanged. *)

From Stdlib Require Import QArith.QArith_base.
From S2P Require Import Prelude Calendar Json Schema Compiled Fixtures Eligibility Apportion DayEnergy ChargeIR.
From S2P Require Import Replay ReplayProofs ReplaySafety ReplayReschedule.
From S2P Require Import CpModel OptimizerModels Scenario ScenarioProofs Verification VerificationProofs.
From S2P Require Import Lowering LoweringModel LoweringSchedules LoweringProofs.

(** ** Rounding *)

(** The division constraint computes half-up rounding. *)
Lemma rounded_cents_exact q rate : 0 <= q ->
  round_half_up_cents (Fraction (q * rate) 1000)
  = (if rate <? 0 then -1 else 1) * rounded_of q rate.
Proof.
  intros Hq. rewrite round_half_up_cents_closed. unfold rounded_of, HALF_CENT_NUMERATOR,
    WATT_HOUR_RATE_TO_CENTS_DENOMINATOR, MICRODOLLARS_PER_CENT.
  change (10000000 / 2) with 5000000. change (1000 * 10000) with 10000000.
  assert ((2 * Z.abs (q * rate) + 10000000) / (2 * 10000000) = (Z.abs rate * q + 5000000) / 10000000) as ->.
  { rewrite Z.abs_mul, (Z.abs_eq q) by done.
    replace (2 * (q * Z.abs rate) + 10000000) with (2 * (Z.abs rate * q + 5000000)) by lia.
    by rewrite Z.div_mul_cancel_l by lia. }
  destruct (Z.eq_dec q 0) as [->|Hq0]; [rewrite Z.mul_0_r; cbn; by destruct (rate <? 0)|].
  destruct (Z.ltb_spec rate 0).
  - rewrite Z.sgn_neg by nia. lia.
  - destruct (Z.eq_dec rate 0) as [->|]; [by rewrite Z.mul_0_r|]. rewrite Z.sgn_pos by nia. lia.
Qed.

Lemma rounded_of_nonneg q rate : 0 <= q -> 0 <= rounded_of q rate.
Proof.
  intros. unfold rounded_of, HALF_CENT_NUMERATOR, WATT_HOUR_RATE_TO_CENTS_DENOMINATOR.
  change (10000000 / 2) with 5000000. apply Z.div_pos; nia.
Qed.
Lemma rounded_of_mono q q' rate : q <= q' -> rounded_of q rate <= rounded_of q' rate.
Proof. intros. unfold rounded_of. apply Z.div_le_mono; [done|nia]. Qed.
Lemma rounded_of_zero rate : rounded_of 0 rate = 0.
Proof. unfold rounded_of. by rewrite Z.mul_0_r. Qed.

(** ** Line identities *)
Section Lines.
Context `{ZoneInfo} (env : ReplayEnv).

Lemma tier_reference_rule op index shares ts :
  Forall (fun l => li_rule_id l = rule_id (ir_te_base op)) (tier_reference env op index shares ts).
Proof.
  eapply Forall_impl; [apply tier_reference_lines|]. cbn. tauto.
Qed.

Lemma operator_lines_rule op : Forall (fun l => li_rule_id l = rule_id (ir_base op)) (operator_lines env op).
Proof.
  unfold operator_lines. destruct (negb _); [constructor|]. destruct op as [r|r|r|r|r|r|r]; cbn [ir_base]; try by constructor.
  - apply tier_reference_rule.
  - destruct (resolve_time_schedule _ _) as [s|]; [|constructor]. apply Forall_app. split.
    + apply Forall_bind. apply Forall_forall. intros x _. unfold period_rate_reference.
      unfold compose. case_match; [constructor|by repeat constructor].
    + unfold credit_reference. destruct (baseline_credit_microdollars_per_kwh r); by repeat constructor.
Qed.

Lemma period_lines_keys op l : l ∈ period_lines env op ->
  exists r x, op = IRTimeOfUse r /\ x ∈ period_rates r /\
    rule_applies (applicability (ir_tc_base r)) (env_facts env) (env_bill_cycle_month env) = true /\
    (li_rule_id l, line_item_key l) = period_line_key r x.
Proof.
  unfold period_lines. destruct op as [| | |r| | |]; try by intros ?%not_elem_of_nil.
  destruct (rule_applies _ _ _) eqn:Ea; [|by intros ?%not_elem_of_nil].
  destruct (resolve_time_schedule _ _) as [s|]; [|by intros ?%not_elem_of_nil].
  intros Hl. apply list_elem_of_bind in Hl as (x & Hl & Hx). unfold period_rate_reference in Hl. cbv zeta in Hl.
  destruct (_ =? 0); [by apply not_elem_of_nil in Hl|]. apply list_elem_of_singleton in Hl as ->.
  exists r, x. done.
Qed.

(** The text after the first dot separates period and credit keys. *)
Lemma credit_key_distinct key p : key +:+ "." +:+ str_lower (period_str p) <> key +:+ ".baseline_credit".
Proof. intros E. apply (inj (String.append key)) in E. by destruct p. Qed.

Context (ops : list CompiledRule) (Hids : NoDup (rule_id ∘ ir_base <$> ops)).
Notation charges := (applicable_charges ops (env_facts env) (env_bill_cycle_month env)).

Lemma rule_of_id op op' : op ∈ ops -> op' ∈ ops -> rule_id (ir_base op) = rule_id (ir_base op') -> op = op'.
Proof.
  intros Ho Ho' E. apply list_elem_of_lookup in Ho as [i Hi], Ho' as [j Hj].
  assert (i = j) as ->; [|congruence]. eapply NoDup_lookup; [exact Hids|..].
  - by rewrite list_lookup_fmap, Hi.
  - rewrite list_lookup_fmap, Hj. cbn. by rewrite E.
Qed.

Lemma variable_keys_elem rid key :
  (rid, key) ∈ variable_reference_keys charges <->
  exists r x, r ∈ charges /\ x ∈ period_rates r /\ (rid, key) = period_line_key r x.
Proof.
  unfold variable_reference_keys. rewrite list_elem_of_bind. split.
  - intros (r & Hx & Hr). apply list_elem_of_fmap in Hx as (x & E & Hx). by exists r, x.
  - intros (r & x & Hr & Hx & E). exists r. split; [|done]. apply list_elem_of_fmap. by exists x.
Qed.

Lemma variable_lines_of op : op ∈ ops ->
  List.filter (fun l => mem (li_rule_id l, line_item_key l) (variable_reference_keys charges)) (operator_lines env op)
  = period_lines env op.
Proof.
  intros Hop. rewrite operator_lines_split, List.filter_app.
  assert (forall (f : ChargeLineItem -> bool) l, (forall x, x ∈ l -> f x = true) -> List.filter f l = l) as Hall.
  { intros f l Hf. induction l as [|x l IH]; [done|]. cbn. rewrite Hf by set_solver. f_equal. apply IH. set_solver. }
  assert (forall (f : ChargeLineItem -> bool) l, (forall x, x ∈ l -> f x = false) -> List.filter f l = []) as Hnone.
  { intros f l Hf. induction l as [|x l IH]; [done|]. cbn. rewrite Hf by set_solver. apply IH. set_solver. }
  rewrite Hall, Hnone, app_nil_r; [done|..].
  - intros l Hl. apply mem_false. intros Hk. apply variable_keys_elem in Hk as (r & x & Hr & Hx & E).
    apply applicable_elem in Hr as [Hr Ha]. unfold period_line_key in E. injection E as Eid Ekey.
    assert (li_rule_id l = rule_id (ir_base op)) as Hid.
    { pose proof (operator_lines_rule op) as HF. rewrite Forall_forall in HF. apply HF.
      rewrite operator_lines_split. set_solver. }
    assert (op = IRTimeOfUse r) as -> by (apply rule_of_id; [done|done|]; by rewrite <- Hid, Eid).
    unfold constant_lines in Hl. destruct (rule_applies _ _ _); [|by apply not_elem_of_nil in Hl].
    destruct (resolve_time_schedule _ _); [|by apply not_elem_of_nil in Hl]. unfold credit_reference in Hl.
    destruct (baseline_credit_microdollars_per_kwh r); [|by apply not_elem_of_nil in Hl].
    apply list_elem_of_singleton in Hl as ->. cbn in Ekey. by apply (credit_key_distinct (ir_tc_line_item_key r) (irp_period x)).
  - intros l Hl. apply mem_true. apply variable_keys_elem. apply period_lines_keys in Hl as (r & x & -> & Hx & Ha & E).
    exists r, x. split; [|done]. by apply applicable_elem.
Qed.

Lemma variable_cents :
  sum_by rounded_cents (List.filter (fun l => mem (li_rule_id l, line_item_key l) (variable_reference_keys charges))
                          (ops ≫= operator_lines env))
  = sum_by rounded_cents (ops ≫= period_lines env).
Proof.
  f_equal. f_equal. pose proof variable_lines_of as Hv. revert Hv. generalize (variable_reference_keys charges). intros ks.
  clear Hids. induction ops as [|op l IH]; intros Hv; [done|]. cbn [mbind list_bind]. rewrite List.filter_app.
  f_equal; [apply Hv; set_solver|]. apply IH. intros; apply Hv; set_solver.
Qed.
End Lines.

(** ** Period quantities of a profile *)
Section Quantities.
Context `{ZoneInfo} (s : ScenarioInput).
Notation slots := (profile_slots s).
Notation n := (length (profile_slots s)).

Definition interval_of (slot : CanonicalProfileSlot) (e : Z) : ReplayInterval :=
  {| start_utc_ns := utc_ns (ps_start_utc slot); duration_seconds := ps_duration_seconds slot;
     interval_energy_wh := e |}.

Definition slot_billable (slot : CanonicalProfileSlot) : Prop :=
  slot_supported slot /\ 0 <= utc_ns (ps_start_utc slot) /\ ps_start_utc slot <= instant_max.

Lemma interval_start_slot slot e : slot_billable slot -> interval_start (interval_of slot e) = Ok (ps_start_utc slot).
Proof.
  intros ([_ Hmod] & Hpos & Hmax). unfold interval_start, interval_of, utc_ns in *. cbn [start_utc_ns] in *.
  rewrite Hmod in *. set (q := ps_start_utc slot / US_PER_SECOND) in *.
  assert (ps_start_utc slot = q * US_PER_SECOND) as Hq.
  { pose proof (Z.div_mod (ps_start_utc slot) US_PER_SECOND ltac:(done)). fold q in H0. lia. }
  replace (q * 1000000000 + 0 * 1000) with (q * NS_PER_SECOND) by (unfold NS_PER_SECOND; lia).
  rewrite Z.div_mul by done. unfold fromtimestamp. rewrite Hq in *.
  assert (0 <= q) by lia.
  assert (instant_max < 2 ^ 62 /\ instant_min <= 0) as [Hb1 Hb2] by (split; vm_compute; congruence).
  assert (q <= 2 ^ 62) by (unfold US_PER_SECOND in Hmax; lia).
  destruct (Z.ltb_spec q (- 2 ^ 63)); [lia|]. destruct (Z.ltb_spec (2 ^ 63 - 1) q); [lia|]. cbn [orb].
  destruct (Z.ltb_spec (q * US_PER_SECOND) instant_min); [unfold US_PER_SECOND in *; lia|].
  destruct (Z.ltb_spec instant_max (q * US_PER_SECOND)); [lia|]. done.
Qed.

Lemma interval_period_slot sch window slot e : slot_billable slot ->
  interval_period sch window (interval_of slot e) = slot_period sch window slot.
Proof. intros Hs. unfold interval_period. rewrite interval_start_slot by done. done. Qed.

Lemma period_quantity_from sch window p (f : Z -> Z) k l ps :
  Forall slot_billable l -> Forall2 (fun slot p => slot_period sch window slot = Ok p) l ps ->
  sum_by (period_share sch window p) (zip_with interval_of l (f <$> seqZ k (Z.of_nat (length l))))
  = sum_by f (List.filter (fun ip : Z * TimeOfUsePeriod => bool_decide (ip.2 = p)) (enumerate_from k ps)).*1.
Proof.
  intros Hb HF. revert k Hb. induction HF as [|slot q l ps Hq _ IH]; intros k Hb; [done|].
  apply Forall_cons in Hb as [Hs Hb]. cbn [length]. rewrite seqZ_cons by lia. rewrite fmap_cons.
  cbn [zip_with enumerate_from List.filter]. rewrite sum_by_cons.
  replace (Z.pred (Z.of_nat (S (length l)))) with (Z.of_nat (length l)) by lia. rewrite <- Z.add_1_r, IH by done.
  unfold period_share at 1. rewrite interval_period_slot, Hq by done. cbn [snd].
  destruct (decide (q = p)) as [->|Hne].
  - rewrite bool_decide_eq_true_2 by done. rewrite fmap_cons, sum_by_cons. done.
  - rewrite bool_decide_eq_false_2 by done. lia.
Qed.

Lemma period_quantity sch window p (f : Z -> Z) ps :
  Forall slot_billable slots -> Forall2 (fun slot p => slot_period sch window slot = Ok p) slots ps ->
  sum_by (period_share sch window p) (zip_with interval_of slots (f <$> indices n)) = sum_by f (period_indices p ps).
Proof. apply period_quantity_from. Qed.
End Quantities.

(** ** The cost expression *)
Section Cost.
Context `{ZoneInfo} (s : ScenarioInput) (bundle : CompilationBundle) (facts : AccountFacts) (env : ReplayEnv)
  (f : Z -> Z).
Notation slots := (profile_slots s).
Notation n := (length (profile_slots s)).
Context (Hbill : Forall slot_billable slots) (Hbundle : env_bundle env = bundle) (Hfacts : env_facts env = facts)
  (Hint : request_intervals (env_request env) = zip_with interval_of slots (f <$> indices n))
  (Hpos : forall i, 0 <= i < Z.of_nat n -> 0 <= f i).

Lemma period_indices_bound p ps : length ps = n ->
  Forall (fun i => 0 <= i < Z.of_nat n) (period_indices p ps).
Proof.
  intros Hlen. unfold period_indices. apply Forall_fmap, Forall_forall. intros [i x] Hx.
  apply list_elem_of_In, filter_In in Hx as [Hx%list_elem_of_In _].
  apply elem_of_enumerate in Hx as (k & -> & Hk). apply lookup_lt_Some in Hk. cbn. lia.
Qed.

Lemma period_rate_cents op sch ps r :
  Forall2 (fun slot p => slot_period sch (service_window facts) slot = Ok p) slots ps ->
  sum_by rounded_cents (period_rate_reference env op sch r)
  = entry_sign (op, r) * rounded_of (sum_by f (period_indices (irp_period r) ps)) (irp_rate_microdollars_per_kwh r).
Proof.
  intros HF. unfold period_rate_reference. rewrite Hint, Hfacts, (period_quantity s sch _ _ f ps) by done.
  set (q := sum_by f _).
  assert (0 <= q) as Hq.
  { apply sum_by_nonneg. intros i Hi. apply Hpos. pose proof (period_indices_bound (irp_period r) ps) as Hb.
    rewrite Forall_forall in Hb. apply Hb; [|done]. by apply Forall2_length in HF. }
  unfold entry_sign, entry_rate. cbn [snd]. destruct (Z.eqb_spec q 0) as [->|Hq0].
  - rewrite rounded_of_zero, Z.mul_0_r. done.
  - rewrite sum_by_cons, sum_by_nil. unfold energy_line, charge_line. cbn [rounded_cents].
    rewrite rounded_cents_exact by done. lia.
Qed.

Lemma period_lines_cents pbr ops :
  Forall (fun op => exists ps, dict_get (rule_id (ir_tc_base op)) pbr = Some ps /\ slot_periods s bundle facts op ps)
    (applicable_charges ops facts (env_bill_cycle_month env)) ->
  sum_by rounded_cents (ops ≫= period_lines env)
  = sum_by (fun x => entry_sign x * rounded_of (sum_by f (entry_indices pbr x)) (entry_rate x))
      (rate_entries (applicable_charges ops facts (env_bill_cycle_month env))).
Proof.
  induction ops as [|op ops IH]; intros HF; [done|]. cbn [mbind list_bind]. rewrite sum_by_app.
  change (foldr _ _ ops) with (ops ≫= period_lines env).
  unfold applicable_charges in *. cbn [List.filter] in *. unfold applies at 1. unfold applies at 1 in HF.
  assert (forall x l, rate_entries (x :: l) = ((fun r => (x, r)) <$> period_rates x) ++ rate_entries l) as Hcons by done.
  destruct op as [r|r|r|r|r|r|r]; cbn [period_lines ir_base] in *;
    try (destruct (rule_applies _ _ _); cbn [omap list_omap as_time_of_use] in *; rewrite IH by done; done).
  rewrite Hfacts. destruct (rule_applies _ _ _); [|rewrite IH by done; done].
  cbn [omap list_omap as_time_of_use] in *. apply Forall_cons in HF as [(ps & Hps & sch & Hsch & HF2 & _) HF].
  rewrite Hcons, sum_by_app, IH by done. f_equal. rewrite Hbundle, Hsch, sum_by_concat, sum_by_fmap.
  apply sum_by_ext. intros x _. rewrite (period_rate_cents r sch ps x HF2). unfold entry_indices. cbn [fst snd].
  by rewrite Hps.
Qed.
End Cost.
