(* ===== verification/LoweringExact.v ===== *)
(** * LoweringExact: solutions are the verified schedules, objective included

    Soundness (a solution is a schedule that the verifier accepts, with the
    objective tuple the model computes), completeness (every schedule the
    verifier accepts is a solution), and the recorded objective bounds. *)

From Stdlib Require Import QArith.QArith_base.
From S2P Require Import Prelude Calendar Json Schema Compiled Fixtures Eligibility Apportion DayEnergy ChargeIR.
From S2P Require Import Replay ReplayProofs ReplaySafety ReplayReschedule.
From S2P Require Import CpModel OptimizerModels Scenario ScenarioProofs Verification VerificationProofs.
From S2P Require Import Lowering LoweringModel LoweringSchedules LoweringProofs LoweringCost.

Lemma input_spec s l : scenario_input_ok s -> l ∈ loads s -> validate_power_range (execution_spec l) = true.
Proof.
  intros [Hf _] Hl. unfold scenario_fields_ok in Hf. bools.
  match goal with E : forallb load_fields_ok _ = true |- _ =>
    rewrite forallb_forall in E; specialize (E l (proj1 (list_elem_of_In _ _) Hl)) end.
  unfold load_fields_ok in *. by bools.
Qed.

(** ** Feasibility *)
Section Feasible.
Context (s : ScenarioInput) (t0 d : Z) (c0 : CandidateSchedule).
Context (Hin : scenario_input_ok s) (Hfeas : schedule_feasible s c0 t0 d).
Notation n := (length (profile_slots s)).
Notation slots := (profile_slots s).
Notation los := (canonical_occurrences s).
Context (Hwin : Forall (fun lo => lowering_window_indices s lo.2 = Ok (window_of s lo)) los).

Lemma background_length : length (background_of s) = n.
Proof. apply length_background. apply Hfeas. Qed.

Lemma canonical_elem lo : lo ∈ los <-> lo ∈ load_occurrences (loads s).
Proof. by rewrite canonical_perm. Qed.

Lemma canonical_ids : NoDup (lo_id <$> los).
Proof. apply canonical_ids_NoDup. apply Hfeas. Qed.

Lemma occurrence_input lo : lo ∈ los ->
  validate_power_range (execution_spec lo.1) = true /\ 0 < required_energy_wh lo.2 /\
  length (reference_energy_wh lo.2) = n /\
  lowering_window_indices s lo.2 = Ok (window_of s lo) /\
  0 <= (window_of s lo).1 < (window_of s lo).2 /\ (window_of s lo).2 <= Z.of_nat n.
Proof.
  intros Hlo. pose proof Hlo as Hlo'. rewrite Forall_forall in Hwin. specialize (Hwin lo Hlo).
  apply canonical_elem in Hlo'. destruct lo as [l o]. apply elem_of_load_occurrences in Hlo' as [Hl Ho].
  destruct (input_loads s l o Hin Hl Ho) as (Hreq & Hwd & _).
  assert (slots_match (reference_schedule o) slots) as Href.
  { pose proof (sf_references _ _ _ _ Hfeas) as Hr. rewrite Forall_forall in Hr.
    apply (Hr (l, o)). by apply elem_of_load_occurrences. }
  split; [by apply (input_spec s)|]. split; [done|]. split.
  { unfold reference_energy_wh. rewrite length_fmap. by apply Forall2_length in Href. }
  split; [done|]. destruct (window_of s (l, o)) as [i j]. cbn [fst snd] in *.
  pose proof (grid_positive _ _ _ Hin (sf_grid _ _ _ _ Hfeas)) as Hd.
  apply (lowering_window_ok s t0 d (sf_grid _ _ _ _ Hfeas) Hin) in Hwin as (H1 & H2 & H3 & H4).
  rewrite H3, H4 in Hwd. assert (0 < d * US_PER_SECOND) by (unfold US_PER_SECOND; lia). nia.
Qed.

Lemma solution_feasible a :
  Forall (fun lo => occurrence_sat a s lo (window_of s lo)) los ->
  Forall (cap_sat s (background_of s) los a) (enumerate slots) ->
  schedule_feasible s (assigned_schedule s a) t0 d.
Proof.
  intros Hocc Hcap. destruct Hfeas as [Hg Hs Hl Ha Ho Hd Hr Hb _ _ _ _].
  split; try done.
  - by rewrite assigned_ids, canonical_perm.
  - intros lo os Hlo Hos Hid. apply assigned_elem in Hos as (lo' & Hlo' & ->). cbn [os_occurrence_id os_slots] in *.
    assert (lo' = lo) as -> by (apply (canonical_unique s); [done|by apply canonical_elem|done|done]).
    destruct (occurrence_input lo Hlo') as (Hv & _ & _ & Hw & Hw1 & Hw2).
    rewrite Forall_forall in Hocc. destruct (Hocc lo Hlo') as (Hex & Hsum & _).
    eapply window_executes; [exact Hg|exact Hin|exact Hw|lia|apply energy_slots_match, length_occurrence_energy|].
    rewrite assigned_energies. apply execution_sound; [done|lia|lia|done|done].
  - rewrite assigned_profile by apply background_length. apply within_cap_table.
    eapply Forall_impl; [exact Hcap|]. by intros item [? _].
  - rewrite assigned_flexible. apply within_cap_table. eapply Forall_impl; [exact Hcap|]. by intros item [_ ?].
Qed.

(** ** Objective values *)
Lemma entries_of a lo : Forall (entry_sat a (lo_id lo)) (zip (indices n) (reference_energy_wh lo.2)) ->
  length (reference_energy_wh lo.2) = n ->
  forall i, 0 <= i < Z.of_nat n -> indicates (a (completion_active_var (lo_id lo) i)) (slot_energy a (lo_id lo) i).
Proof.
  intros HF Hlen i Hi. rewrite Forall_forall in HF.
  destruct (lookup_lt_is_Some_2 (reference_energy_wh lo.2) (Z.to_nat i)) as [r Hr]; [lia|].
  destruct (HF (i, r)) as (_ & _ & _ & Hind); [|done].
  apply list_elem_of_lookup. exists (Z.to_nat i). apply zip_lookup_Some. split; [|done].
  rewrite seqZ_lookup_nat by lia. f_equal. lia.
Qed.

Lemma solution_objective a cost :
  Forall (fun lo => occurrence_sat a s lo (window_of s lo)) los ->
  Forall (cap_sat s (background_of s) los a) (enumerate slots) ->
  exists obj, compute_objective s
      (candidate_by_id (checked_state s (assigned_schedule s a) (cs_occurrences (assigned_schedule s a))).2)
      (reference_dict los) cost = Ok obj /\
    supported_cost_cents obj = cost /\
    changed_occurrence_slot_count obj
    = sum_by (fun lo => sum_by (fun i => a (changed_var (lo_id lo) i)) (indices n)) los /\
    completion_slot_index_sum obj = sum_by (fun lo => a (completion_var (lo_id lo))) los /\
    stable_slot_order_score obj
    = sum_by (fun ia : Z * Z => ia.2 * (ia.1 + 1))
        (enumerate (concat ((fun lo => occurrence_energy a n (lo_id lo)) <$> los))).
Proof.
  intros Hocc Hcap. pose proof (solution_feasible a Hocc Hcap) as Hf.
  destruct (check_candidate_complete s _ Hin _ _ Hf) as (oss & Hcan & _ & _).
  pose proof (assigned_canonical s a t0 d oss canonical_ids Hcan) as ->.
  destruct (checked_objective s _ t0 d _ Hin (sf_occurrence_ids _ _ _ _ Hf) Hcan cost)
    as (obj & Hobj & Hc & Hch & Hco & Hst).
  exists obj. split; [exact Hobj|]. split; [done|]. rewrite Hch, Hco, Hst, assigned_vectors.
  cbn [cs_occurrences assigned_schedule].
  assert (forall (f : (FlexibleLoad * LoadOccurrence) * OccurrenceSchedule -> Z) g l,
    (forall lo, lo ∈ l -> f (lo, {| os_occurrence_id := lo_id lo;
       os_slots := energy_slots slots (occurrence_energy a n (lo_id lo)) |}) = g lo) ->
    sum_by f (zip l ((fun lo => {| os_occurrence_id := lo_id lo;
       os_slots := energy_slots slots (occurrence_energy a n (lo_id lo)) |}) <$> l)) = sum_by g l) as Hzip.
  { intros f g l Hfg. induction l as [|lo l IH]; [done|]. rewrite fmap_cons. cbn [zip_with].
    rewrite !sum_by_cons, Hfg, IH by set_solver || (intros; apply Hfg; set_solver). done. }
  rewrite Forall_forall in Hocc. split; [|split; [|done]].
  - apply Hzip. intros lo Hlo. destruct (Hocc lo Hlo) as (_ & _ & Hen & _).
    destruct (occurrence_input lo Hlo) as (_ & _ & Hlen & _).
    unfold occurrence_changes. cbn [fst snd os_slots]. rewrite assigned_energies.
    pose proof (count_changes_sum a (lo_id lo) _ Hen) as Hcc.
    rewrite <- (sum_by_fmap (fun i => a (changed_var (lo_id lo) i)) fst), fst_zip in Hcc
      by (rewrite length_indices; lia). rewrite Hcc. f_equal.
    + unfold occurrence_energy. rewrite <- (fst_zip (indices n) (reference_energy_wh lo.2)) at 1
        by (rewrite length_indices; lia). by rewrite <- list_fmap_compose.
    + rewrite snd_zip by (rewrite length_indices; lia). done.
  - apply Hzip. intros lo Hlo. destruct (Hocc lo Hlo) as (_ & _ & Hen & Hcmp).
    destruct (occurrence_input lo Hlo) as (_ & _ & Hlen & _).
    unfold occurrence_completion. cbn [fst snd os_slots]. rewrite assigned_energies.
    rewrite (completion_value a n (lo_id lo) (entries_of a lo Hen Hlen) Hcmp). done.
Qed.
End Feasible.

(** ** Bills of feasible schedules *)
Section Bills.
Context `{ZoneInfo} `{Sha256} (s : ScenarioInput) (bundle : CompilationBundle) (facts : AccountFacts)
  (dated : option DatedEligibilityFacts).
Notation slots := (profile_slots s).
Notation n := (length (profile_slots s)).

Lemma bill_request_intervals profile :
  request_intervals (bill_request s profile facts dated) = zip_with interval_of slots profile.
Proof. done. Qed.

Lemma bill_rescheduled p1 p2 :
  length p1 = n -> length p2 = n -> zsum p1 = zsum p2 ->
  rescheduled (bill_request s p1 facts dated) (bill_request s p2 facts dated).
Proof.
  intros H1 H2 Hsum. unfold bill_request. rewrite Hsum. constructor.
  apply Forall2_same_length_lookup_2; [rewrite !length_zip_with; lia|].
  intros i x y Hx Hy. apply lookup_zip_with_Some in Hx as (q & e & -> & Hq & _), Hy as (q' & e' & -> & Hq' & _).
  by simplify_eq.
Qed.

Lemma check_intervals_same l1 l2 : Forall2 same_slot l1 l2 ->
  forall prev, foldM check_interval prev l1 = foldM check_interval prev l2.
Proof.
  induction 1 as [|i j l1 l2 [Hs Hd] _ IH]; intros prev; cbn [foldM]; [done|].
  assert (check_interval prev i = check_interval prev j) as ->.
  { unfold check_interval, interval_end_ns. by rewrite Hs, Hd. }
  destruct (check_interval prev j); cbn; [apply IH|done].
Qed.

Lemma rescheduled_valid q1 q2 :
  rescheduled q1 q2 -> request_valid q1 = true ->
  Forall (fun i => 0 <= interval_energy_wh i) (request_intervals q2) ->
  sum_by interval_energy_wh (request_intervals q2) = energy_wh (request_base q2) -> request_valid q2 = true.
Proof.
  intros [b l1 l2 dt Hsame] Hv Hnn Hsum. unfold request_valid in *. cbn [request_base request_intervals] in *.
  apply andb_true_iff in Hv as [He Hv]. apply andb_true_iff in Hv as [Hf Hv]. rewrite He. cbn [andb].
  apply andb_true_iff. split.
  - apply forallb_forall. intros j Hj. apply list_elem_of_In in Hj.
    destruct (list_elem_of_lookup_1 _ _ Hj) as [k Hk].
    destruct (Forall2_lookup_r _ _ _ _ _ Hsame Hk) as (i & Hi & Hs & Hd).
    rewrite forallb_forall in Hf. specialize (Hf i ltac:(apply list_elem_of_In; by eapply list_elem_of_lookup_2)).
    unfold ReplayInterval_fields_ok in *. bools. rewrite <- Hs, <- Hd. rewrite Forall_forall in Hnn.
    specialize (Hnn j Hj). repeat (apply andb_true_iff; split); lia.
  - unfold validate_intervals in *. destruct (raise_if _ _) as [u|] eqn:E1 in Hv; [|done]. cbn in Hv.
    rewrite Hsum, Z.eqb_refl. cbn. by rewrite <- (check_intervals_same l1 l2) by done.
Qed.

Lemma zip_intervals_energy profile : length profile = n ->
  sum_by interval_energy_wh (zip_with interval_of slots profile) = zsum profile /\
  (Forall (fun i => 0 <= interval_energy_wh i) (zip_with interval_of slots profile) <->
   Forall (fun e => 0 <= e) profile).
Proof.
  revert profile. induction slots as [|p l IH]; intros [|e profile] Hlen; cbn [length] in Hlen; try done.
  destruct (IH profile) as [H1 H2]; [lia|]. cbn [zip_with]. rewrite sum_by_cons, H1, !Forall_cons, H2. done.
Qed.

Lemma recompute_bill_ok profile bill :
  recompute_bill s profile bundle facts dated = Ok bill <->
  sc_tariff_version_id s = ir_tariff_version_id (ir bundle) /\
  request_valid (bill_request s profile facts dated) = true /\
  replay_compiled_tariff bundle (bill_request s profile facts dated) None = Ok bill.
Proof.
  unfold recompute_bill. split.
  - intros Hr. apply bind_ok in Hr as (u & H1 & Hr). apply bind_ok in Hr as (u' & H2 & Hr).
    apply raise_if_ok in H1, H2. bools. split; [by apply String.eqb_eq|done].
  - intros (-> & Hv & Hr). rewrite String.eqb_refl. cbn [negb raise_if mbind result_bind]. by rewrite Hv.
Qed.

Context (t0 d : Z) (c0 : CandidateSchedule) (Hin : scenario_input_ok s) (Hf0 : schedule_feasible s c0 t0 d)
  (bill0 : ReplayResult)
  (Hb0 : recompute_bill s (candidate_profile_of s c0) bundle facts dated = Ok bill0)
  (Hwf : Forall rule_well_formed (operators (ir bundle)))
  (Hkeys : line_keys_distinct (operators (ir bundle)))
  (Hrules : NoDup (rule_id ∘ ir_base <$> operators (ir bundle))).

Lemma feasible_profile c : schedule_feasible s c t0 d ->
  length (candidate_profile_of s c) = n /\ length (flexible_total s c) = n /\
  zsum (candidate_profile_of s c)
  = zsum (background_of s) + sum_by (fun lo => required_energy_wh lo.2) (load_occurrences (loads s)).
Proof.
  intros Hf. destruct (check_candidate_complete s c Hin _ _ Hf) as (oss & Hcan & Hperm & _).
  assert (Forall (fun os => slots_match (os_slots os) slots) (cs_occurrences c)) as Hm.
  { rewrite <- Hperm. by eapply canonical_for_matches. }
  pose proof (length_flexible_total s c Hm) as Hl. pose proof (length_background s (sf_references _ _ _ _ Hf)) as Hb.
  unfold candidate_profile_of. split; [rewrite length_vec_add; lia|]. split; [done|].
  rewrite <- (zsum_flexible s c t0 d oss Hcan Hperm Hm). by rewrite zsum_vec_add by lia.
Qed.

Lemma slots_billable : Forall slot_billable slots.
Proof.
  destruct (proj1 (recompute_bill_ok _ _) Hb0) as (_ & Hv & _). destruct (feasible_profile c0 Hf0) as (Hl & _).
  apply Forall_lookup. intros i p Hp.
  pose proof (sf_supported _ _ _ _ Hf0) as Hs. rewrite Forall_lookup in Hs. split; [by eapply Hs|]. split.
  - destruct (lookup_lt_is_Some_2 (candidate_profile_of s c0) i) as [e He];
      [rewrite Hl; by eapply lookup_lt_Some|].
    unfold request_valid in Hv. apply andb_true_iff in Hv as [_ Hv]. cbn [bill_request] in Hv.
    apply andb_true_iff in Hv as [Hv _]. rewrite forallb_forall in Hv. specialize (Hv (interval_of p e)).
    unfold ReplayInterval_fields_ok in Hv. lapply Hv; [intros Hx; by bools|].
    apply list_elem_of_In. eapply list_elem_of_lookup_2. apply lookup_zip_with_Some. by eexists _, _.
  - destruct (input_slots s Hin) as [_ Hdur]. rewrite Forall_lookup in Hdur. destruct (Hdur _ _ Hp) as [Hd0 _].
    pose proof (sio_range s Hin) as Hr. unfold profile_in_range in Hr. rewrite Forall_lookup in Hr.
    specialize (Hr _ _ Hp). cbn beta in Hr. unfold US_PER_SECOND in Hr. lia.
Qed.

Lemma bill_reference profile el env bill :
  request_valid (bill_request s profile facts dated) = true ->
  replay_env bundle (bill_request s profile facts dated) = Ok (el, env) ->
  replay_compiled_tariff bundle (bill_request s profile facts dated) None = Ok bill ->
  env_request env = bill_request s profile facts dated /\ env_bundle env = bundle /\ env_facts env = facts /\
  (forall service_end, dr_end (service_window facts) = Some service_end ->
     env_bill_cycle_month env = date_month service_end) /\
  line_items bill = operators (ir bundle) ≫= operator_lines env /\
  supported_calculated_cents bill = sum_by rounded_cents (operators (ir bundle) ≫= operator_lines env).
Proof.
  intros Hv Henv Hr. destruct (replay_env_ok _ _ _ _ Hv Hwf Henv) as (Hok & Hb & Hq & _ & _).
  split; [done|]. split; [done|]. split; [unfold env_facts; by rewrite Hq|]. split.
  { intros se Hse. unfold replay_env in Henv. cbn [bill_request request_base account_facts] in Henv.
    repeat (apply bind_ok in Henv as (? & _ & Henv)). rewrite Hse in Henv.
    repeat (apply bind_ok in Henv as (? & _ & Henv)). by injection Henv as _ <-. }
  unfold replay_compiled_tariff in Hr. rewrite Henv in Hr. cbn [mbind result_bind] in Hr.
  apply bind_ok in Hr as (st & Hst & Hr). apply bind_ok in Hr as (al & _ & [= <-]). cbn [line_items supported_calculated_cents].
  apply eval_operators_reference in Hst; [|apply Hok]. by rewrite Hst.
Qed.

(** The bill of a feasible schedule exists and differs from the reference bill
    in the time-of-use period lines alone. *)
Lemma feasible_bill c (f : Z -> Z) service_end pbr :
  dr_end (service_window facts) = Some service_end ->
  let charges := applicable_charges (operators (ir bundle)) facts (date_month service_end) in
  Forall (fun op => exists ps, dict_get (rule_id (ir_tc_base op)) pbr = Some ps /\
                               slot_periods s bundle facts op ps) charges ->
  schedule_feasible s c t0 d -> candidate_profile_of s c = f <$> indices n ->
  (forall i, 0 <= i < Z.of_nat n -> 0 <= f i) ->
  exists bill, recompute_bill s (candidate_profile_of s c) bundle facts dated = Ok bill /\
    supported_calculated_cents bill
    = supported_calculated_cents bill0 - reference_variable_cents charges bill0
      + sum_by (fun x => entry_sign x * rounded_of (sum_by f (entry_indices pbr x)) (entry_rate x))
          (rate_entries charges).
Proof.
  intros Hse charges Hper Hf Hprof Hnn. destruct (proj1 (recompute_bill_ok _ _) Hb0) as (Hver & Hv0 & Hr0).
  destruct (feasible_profile c0 Hf0) as (Hl0 & _ & Hz0). destruct (feasible_profile c Hf) as (Hl & _ & Hz).
  destruct (zip_intervals_energy _ Hl) as [Hze Hzn].
  pose proof (bill_rescheduled _ _ Hl0 Hl (eq_trans Hz0 (eq_sym Hz))) as Hres.
  assert (request_valid (bill_request s (candidate_profile_of s c) facts dated) = true) as Hv.
  { eapply rescheduled_valid; [exact Hres|exact Hv0| |].
    - rewrite bill_request_intervals. apply Hzn. rewrite Hprof. apply Forall_fmap, Forall_forall.
      intros i Hi%elem_of_indices. by apply Hnn.
    - rewrite bill_request_intervals, Hze. done. }
  destruct (reschedule_bill _ _ _ _ _ Hres Hv0 Hv Hwf Hkeys Hr0)
    as (bill & el & env1 & env2 & Hr & He1 & He2 & Hconst & _ & _).
  exists bill. split; [apply recompute_bill_ok; done|].
  destruct (bill_reference _ _ _ _ Hv0 He1 Hr0) as (_ & _ & Hfa1 & Hm1 & Hli1 & Hsu1).
  destruct (bill_reference _ _ _ _ Hv He2 Hr) as (Hq2 & Hbd2 & Hfa2 & Hm2 & _ & Hsu2).
  rewrite Hsu1, Hsu2, !bill_split. unfold reference_variable_cents. rewrite Hli1.
  assert (charges = applicable_charges (operators (ir bundle)) (env_facts env1) (env_bill_cycle_month env1)) as Hch1
    by (unfold charges; by rewrite Hfa1, (Hm1 _ Hse)).
  pose proof (variable_cents env1 _ Hrules) as Hvar. rewrite <- Hch1 in Hvar. rewrite Hvar.
  rewrite (period_lines_cents s bundle facts env2 f slots_billable Hbd2 Hfa2) with (pbr := pbr).
  - rewrite (Hm2 _ Hse). fold charges. rewrite (list_bind_ext (constant_lines env2) (constant_lines env1) _ _ Hconst eq_refl).
    lia.
  - rewrite Hq2, bill_request_intervals. by rewrite Hprof.
  - done.
  - by rewrite (Hm2 _ Hse).
Qed.
End Bills.

(** ** Bounds on the energies of a solution *)
Lemma enumerate_from_lookup {A} k (l : list A) i : enumerate_from k l !! i = (fun x => (k + Z.of_nat i, x)) <$> l !! i.
Proof.
  revert k i. induction l as [|x l IH]; intros k [|i]; [done..| |]; cbn [enumerate_from lookup list_lookup].
  - cbn. do 2 f_equal. lia.
  - rewrite IH. destruct (l !! i); [|done]. cbn [fmap option_fmap option_map]. do 2 f_equal. lia.
Qed.

Lemma execution_bounds a slots spec id w i :
  execution_sat a slots spec id w -> 0 <= i < Z.of_nat (length slots) ->
  0 <= slot_energy a id i <= default 0 (execution_maxima slots spec id w !! Z.to_nat i).
Proof.
  intros Hsat Hi. destruct spec as [hi lo|shape]; cbn [execution_sat execution_maxima] in *.
  - rewrite Forall_enumerate in Hsat. destruct (lookup_lt_is_Some_2 slots (Z.to_nat i)) as [p Hp]; [lia|].
    destruct (Hsat _ _ Hp) as [Hb _]. cbn [fst] in Hb. rewrite Z2Nat.id in Hb by lia.
    assert (enumerate slots !! Z.to_nat i = Some (i, p)) as He.
    { rewrite enumerate_from_lookup, Hp. cbn. do 2 f_equal. lia. }
    rewrite list_lookup_fmap, He. done.
  - destruct Hsat as (_ & _ & Hsat). rewrite Forall_forall in Hsat.
    destruct (Hsat i) as [Hb _]; [by apply elem_of_indices|].
    rewrite list_lookup_fmap, seqZ_lookup_nat by lia. cbn. by rewrite Z2Nat.id by lia.
Qed.

Section Solutions.
Context (s : ScenarioInput) (a : assignment) (pbr : dict string (list TimeOfUsePeriod))
  (charges : list IRTimeOfUseEnergyCharge).
Notation n := (length (profile_slots s)).
Notation los := (canonical_occurrences s).
Context (Hocc : Forall (fun lo => occurrence_sat a s lo (window_of s lo)) los)
  (Hbg : Forall (fun b => 0 <= b) (background_of s)).

Lemma flexible_bounds i : 0 <= i < Z.of_nat n ->
  0 <= flexible_value los a i <= flexible_maximum s los i.
Proof.
  intros Hi. unfold flexible_value, flexible_maximum. rewrite Forall_forall in Hocc.
  assert (forall lo, lo ∈ los -> 0 <= slot_energy a (lo_id lo) i <= default 0 (maxima_of s lo !! Z.to_nat i)) as Hb.
  { intros lo Hlo. destruct (Hocc lo Hlo) as [Hex _]. by apply execution_bounds. }
  split; [apply sum_by_nonneg; intros; by apply Hb|]. apply sum_by_le. intros; by apply Hb.
Qed.

Lemma fixed_value_nonneg i : 0 <= fixed_value (background_of s) i.
Proof.
  unfold fixed_value. destruct (background_of s !! Z.to_nat i) as [x|] eqn:E; cbn; [|lia].
  rewrite Forall_forall in Hbg. apply Hbg. by eapply list_elem_of_lookup_2.
Qed.

Lemma profile_bounds i : 0 <= i < Z.of_nat n ->
  0 <= profile_value (background_of s) los a i <= profile_maximum s (background_of s) los i.
Proof.
  intros Hi. pose proof (flexible_bounds i Hi). pose proof (fixed_value_nonneg i).
  unfold profile_value, profile_maximum. lia.
Qed.

Context (Hper : forall x, x ∈ rate_entries charges -> Forall (fun i => 0 <= i < Z.of_nat n) (entry_indices pbr x)).

Lemma entry_value_bounds x : x ∈ rate_entries charges ->
  0 <= entry_value (background_of s) los pbr a x <= entry_quantity_maximum s (background_of s) los pbr x.
Proof.
  intros Hx. specialize (Hper x Hx). rewrite Forall_forall in Hper. unfold entry_value, entry_quantity_maximum. split.
  - apply sum_by_nonneg. intros i Hi. by apply profile_bounds, Hper.
  - apply sum_by_le. intros i Hi. by apply profile_bounds, Hper.
Qed.

(** The constraints of the cents variables determine them. *)
Lemma charge_sat_iff x : x ∈ rate_entries charges ->
  charge_sat s (background_of s) los pbr a x <->
  a (entry_quantity x) = entry_value (background_of s) los pbr a x /\
  a (entry_cents x) = rounded_of (entry_value (background_of s) los pbr a x) (entry_rate x).
Proof.
  intros Hx. pose proof (entry_value_bounds x Hx) as Hb. unfold charge_sat.
  assert (Z.quot (Z.abs (entry_rate x) * entry_value (background_of s) los pbr a x + HALF_CENT_NUMERATOR)
            WATT_HOUR_RATE_TO_CENTS_DENOMINATOR
          = rounded_of (entry_value (background_of s) los pbr a x) (entry_rate x)) as Hq.
  { unfold rounded_of. apply Z.quot_div_nonneg; [|done]. unfold HALF_CENT_NUMERATOR.
    change (WATT_HOUR_RATE_TO_CENTS_DENOMINATOR / 2) with 5000000. nia. }
  split.
  - intros (_ & Hv & _ & Hc). split; [done|]. rewrite Hc, Hv. exact Hq.
  - intros [Hv Hc]. rewrite Hv. split; [done|]. split; [done|]. split; [|by rewrite Hc, Hq].
    rewrite Hc. split; [apply rounded_of_nonneg; lia|]. unfold entry_maximum. apply rounded_of_mono. lia.
Qed.
End Solutions.

(** ** The lowering of an admitted scenario *)
Record tariff_ok (ops : list CompiledRule) : Prop := {
  to_well_formed : Forall rule_well_formed ops;
  to_rule_ids : NoDup (rule_id ∘ ir_base <$> ops);
  to_line_keys : line_keys_distinct ops;
  to_periods r : IRTimeOfUse r ∈ ops -> NoDup (irp_period <$> period_rates r)
}.

(** The values of the four exact objectives at an assignment. *)
Definition objective_values (l : LoweredScenarioModel) (a : assignment) : Z * (Z * (Z * Z)) :=
  (leval a (supported_cost (objectives l)),
   (leval a (changed_occurrence_slots (objectives l)),
    (leval a (completion_slot_index_sum_expr (objectives l)),
     leval a (stable_slot_order_score_expr (objectives l))))).

(** ** The assignment of a schedule *)
Section Assignment.
Context (s : ScenarioInput) (c : CandidateSchedule) (pbr : dict string (list TimeOfUsePeriod))
  (charges : list IRTimeOfUseEnergyCharge).
Notation n := (length (profile_slots s)).
Notation slots := (profile_slots s).
Notation los := (canonical_occurrences s).

Definition schedule_vector (id : Z) : list Z :=
  match dict_get id (by_occurrence (cs_occurrences c)) with Some os => energies (os_slots os) | None => [] end.
Definition find_occurrence (id : Z) : option (FlexibleLoad * LoadOccurrence) :=
  List.find (fun lo => lo_id lo =? id) los.
Definition find_entry (rule : string) (p : TimeOfUsePeriod) : option rate_entry :=
  List.find (fun x => String.eqb (rule_id (ir_tc_base x.1)) rule && bool_decide (irp_period x.2 = p))
    (rate_entries charges).
Definition vector_energy (id i : Z) : Z := default 0 (schedule_vector id !! Z.to_nat i).
Definition vector_profile (i : Z) : Z :=
  sum_by (fun lo => vector_energy (lo_id lo) i) los + fixed_value (background_of s) i.
Definition vector_quantity (rule : string) (p : TimeOfUsePeriod) : Z :=
  sum_by vector_profile (period_indices p (default [] (dict_get rule pbr))).

Definition schedule_assignment (v : cpvar) : Z :=
  match v with
  | energy_var id i => vector_energy id i
  | active_var id i | completion_active_var id i => if 0 <? vector_energy id i then 1 else 0
  | start_var id k =>
      match find_occurrence id with
      | Some lo =>
          match execution_spec lo.1 with
          | ContiguousFixedShapeSpec shape =>
              if bool_decide (matched_start shape (schedule_vector id) (window_of s lo).1 (window_of s lo).2 = Some k)
              then 1 else 0
          | InterruptibleModulatingSpec _ _ => 0
          end
      | None => 0
      end
  | changed_var id i =>
      match find_occurrence id with
      | Some lo => if vector_energy id i =? default 0 (reference_energy_wh lo.2 !! Z.to_nat i) then 0 else 1
      | None => 0
      end
  | completion_var id => default 0 (last_positive (schedule_vector id))
  | quantity_var rule p => vector_quantity rule p
  | cents_var rule p =>
      match find_entry rule p with Some x => rounded_of (vector_quantity rule p) (entry_rate x) | None => 0 end
  end.
Notation a := schedule_assignment.

Context (t0 d : Z) (Hin : scenario_input_ok s) (Hf : schedule_feasible s c t0 d)
  (Hnn : candidate_fields_ok c = true)
  (Hwin : Forall (fun lo => lowering_window_indices s lo.2 = Ok (window_of s lo)) los).

Lemma find_occurrence_id lo : lo ∈ los -> find_occurrence (lo_id lo) = Some lo.
Proof.
  intros Hlo. unfold find_occurrence. destruct (List.find _ _) as [lo'|] eqn:E.
  - apply find_some in E as [Hin' E]. apply list_elem_of_In in Hin'. bools. f_equal.
    apply (canonical_unique s); [apply Hf|by apply canonical_elem|by apply canonical_elem|done].
  - eapply find_none in E; [|by apply list_elem_of_In]. cbn in E. by rewrite Z.eqb_refl in E.
Qed.

Lemma schedule_of lo : lo ∈ los ->
  exists os, os ∈ cs_occurrences c /\ os_occurrence_id os = lo_id lo /\
    dict_get (lo_id lo) (by_occurrence (cs_occurrences c)) = Some os /\
    executes t0 d slots lo.1 lo.2 (os_slots os) /\ Forall (fun e => 0 <= e) (energies (os_slots os)).
Proof.
  intros Hlo. apply canonical_elem in Hlo.
  assert (NoDup (os_occurrence_id <$> cs_occurrences c)) as Hnd.
  { rewrite (sf_ids _ _ _ _ Hf), <- canonical_perm. apply canonical_ids_NoDup. apply Hf. }
  assert (lo_id lo ∈ os_occurrence_id <$> cs_occurrences c) as Hid.
  { rewrite (sf_ids _ _ _ _ Hf). apply list_elem_of_fmap. by exists lo. }
  apply list_elem_of_fmap in Hid as (os & Hid & Hos). exists os. split; [done|]. split; [done|].
  split; [by apply by_occurrence_get|]. split; [by apply (sf_execution _ _ _ _ Hf)|].
  unfold candidate_fields_ok in Hnn. rewrite forallb_forall in Hnn. specialize (Hnn os (proj1 (list_elem_of_In _ _) Hos)).
  rewrite forallb_forall in Hnn. apply Forall_fmap, Forall_forall. intros x Hx.
  specialize (Hnn x (proj1 (list_elem_of_In _ _) Hx)). unfold energy_slot_fields_ok in Hnn. bools. done.
Qed.

Lemma vector_facts lo : lo ∈ los ->
  schedule_vector (lo_id lo) = occurrence_energy a n (lo_id lo) /\
  Forall (fun e => 0 <= e) (schedule_vector (lo_id lo)) /\
  execution_ok (execution_spec lo.1) (required_energy_wh lo.2) (schedule_vector (lo_id lo)) slots
    (window_of s lo).1 (window_of s lo).2.
Proof.
  intros Hlo. destruct (schedule_of lo Hlo) as (os & _ & _ & Hg & Hex & Hpos).
  assert (schedule_vector (lo_id lo) = energies (os_slots os)) as Hv by (unfold schedule_vector; by rewrite Hg).
  apply (executes_window s t0 d (sf_grid _ _ _ _ Hf) Hin) in Hex as (w & Hw & _ & _ & Hm & Hok).
  assert (window_of s lo = w) as <- by (unfold window_of; by rewrite Hw).
  rewrite Hv. split; [|done]. unfold occurrence_energy. apply indices_table.
  - unfold energies. rewrite length_fmap. by apply Forall2_length in Hm.
  - intros i Hi. unfold slot_energy, a. unfold vector_energy. by rewrite Hv.
Qed.

Lemma assignment_occurrence lo : lo ∈ los -> occurrence_sat a s lo (window_of s lo).
Proof.
  intros Hlo. destruct (vector_facts lo Hlo) as (Hv & Hpos & Hok).
  destruct (occurrence_input s t0 d c Hin Hf Hwin lo Hlo) as (Hspec & Hreq & Hlen & _ & Hw1 & Hw2).
  destruct (input_slots s Hin) as [_ Hdur]. pose proof (proj1 Hok) as Hsum. rewrite Hv in *.
  split; [|split; [done|split]].
  - eapply execution_complete; [done|lia|lia| |exact Hok|done|done|].
    + eapply Forall_impl; [exact Hdur|]. by intros p [? _].
    + intros shape k Es _. fold (lo_id lo). unfold a at 1. rewrite find_occurrence_id, Es by done. by rewrite Hv.
  - apply Forall_forall. intros [i r] Hir. apply list_elem_of_lookup in Hir as [k Hk].
    apply zip_lookup_Some in Hk as [Hk Hr]. apply lookup_seqZ in Hk as [-> Hk].
    unfold entry_sat, indicates. cbn [fst snd]. unfold slot_energy. fold (lo_id lo).
    cbn [schedule_assignment]. rewrite find_occurrence_id by done.
    replace (Z.to_nat (0 + Z.of_nat k)) with k by lia. rewrite Hr. cbn [default id].
    assert (0 <= vector_energy (lo_id lo) (0 + Z.of_nat k)).
    { unfold vector_energy. rewrite Hv. clear Hr. destruct (_ !! _) as [x|] eqn:Ex; cbn [default]; [|done].
      rewrite Forall_forall in Hpos. apply Hpos. by eapply list_elem_of_lookup_2. }
    destruct (Z.eqb_spec (vector_energy (lo_id lo) (0 + Z.of_nat k)) r);
      destruct (Z.ltb_spec 0 (vector_energy (lo_id lo) (0 + Z.of_nat k))); repeat split; intros; lia.
  - destruct (last_positive_total (occurrence_energy a n (lo_id lo))) as [m Hm]; [rewrite Hsum; lia|].
    eapply completion_complete; [done|exact Hm|]. cbn [schedule_assignment]. fold (lo_id lo). by rewrite Hv, Hm.
Qed.

Lemma energy_slots_energies v : slots_match v slots -> energy_slots slots (energies v) = v.
Proof.
  unfold slots_match, energy_slots, energies. induction 1 as [|x p v l [Hs Hd] _ IH]; [done|].
  rewrite fmap_cons. cbn [zip_with]. rewrite IH. f_equal. destruct x. cbn in *. by subst.
Qed.

Lemma assignment_canonical oss : canonical_for t0 d s c oss -> oss = cs_occurrences (assigned_schedule s a).
Proof.
  intros Hcan. cbn [cs_occurrences assigned_schedule]. eapply Forall2_det; [exact Hcan|].
  intros lo os Hlo [Hg (Hm & _)]. destruct (schedule_of lo Hlo) as (os' & _ & Hid & Hg' & _).
  rewrite Hg in Hg'. injection Hg' as <-. destruct (vector_facts lo Hlo) as (Hv & _).
  rewrite <- Hv. unfold schedule_vector. rewrite Hg, energy_slots_energies by done. destruct os. cbn in *. by subst.
Qed.

Lemma assignment_schedule : cs_occurrences (assigned_schedule s a) ≡ₚ cs_occurrences c.
Proof.
  destruct (check_candidate_complete s c Hin _ _ Hf) as (oss & Hcan & Hp & _).
  by rewrite <- (assignment_canonical oss Hcan).
Qed.

Lemma assignment_totals : flexible_total s c = flexible_value los a <$> indices n /\
  candidate_profile_of s c = profile_value (background_of s) los a <$> indices n.
Proof.
  assert (flexible_total s c = flexible_total s (assigned_schedule s a)) as Hft.
  { symmetry. apply flexible_of_perm. apply assignment_schedule. }
  split; [by rewrite Hft, assigned_flexible|]. unfold candidate_profile_of. rewrite Hft.
  apply assigned_profile. by eapply background_length.
Qed.

Lemma assignment_caps : Forall (cap_sat s (background_of s) los a) (enumerate slots).
Proof.
  destruct assignment_totals as [Hfl Hpr].
  pose proof (sf_site_cap _ _ _ _ Hf) as H1. pose proof (sf_flexible_cap _ _ _ _ Hf) as H2.
  rewrite Hpr in H1. rewrite Hfl in H2. apply within_cap_table in H1, H2.
  rewrite Forall_forall in *. intros x Hx. split; [by apply H1|by apply H2].
Qed.

Lemma assignment_charges :
  (forall x y, x ∈ rate_entries charges -> y ∈ rate_entries charges ->
     rule_id (ir_tc_base x.1) = rule_id (ir_tc_base y.1) -> irp_period x.2 = irp_period y.2 -> x = y) ->
  Forall (fun b => 0 <= b) (background_of s) ->
  (forall x, x ∈ rate_entries charges -> Forall (fun i => 0 <= i < Z.of_nat n) (entry_indices pbr x)) ->
  Forall (charge_sat s (background_of s) los pbr a) (rate_entries charges).
Proof.
  intros Huniq Hbg Hper. apply Forall_forall. intros x Hx.
  apply (charge_sat_iff s a pbr charges); [apply Forall_forall; intros; by apply assignment_occurrence|done|done|done|].
  assert (vector_quantity (rule_id (ir_tc_base x.1)) (irp_period x.2) = entry_value (background_of s) los pbr a x) as Hq by done.
  unfold entry_quantity, entry_cents. cbn [schedule_assignment]. rewrite Hq. split; [done|].
  unfold find_entry. destruct (List.find _ _) as [y|] eqn:E.
  - apply find_some in E as [Hy E]. bools. rewrite String.eqb_eq in *. f_equal. f_equal. apply Huniq; [by apply list_elem_of_In|done..].
  - eapply find_none in E; [|by apply list_elem_of_In]. cbn in E. rewrite String.eqb_refl in E. cbn in E. by bools.
Qed.
End Assignment.

Section Exact.
Context `{ZoneInfo} `{Sha256} (s : ScenarioInput) (vs : ValidatedScenario) (bundle : CompilationBundle)
  (facts : AccountFacts) (dated : option DatedEligibilityFacts) (ref : VerifiedSchedule)
  (l : LoweredScenarioModel).
Context (Hin : scenario_input_ok s) (Hvs : validate_and_decompose_scenario s = Ok vs)
  (Htariff : tariff_ok (operators (ir bundle)))
  (Href : verify_candidate_schedule s (candidate_from_reference s) bundle facts dated None = Ok ref)
  (Hl : compile_scenario_model vs bundle facts (billing_result ref) = Ok l).
Notation n := (length (profile_slots s)).
Notation slots := (profile_slots s).
Notation los := (canonical_occurrences s).

(** What the admission, the verified reference and the lowering establish. *)
Record setting (t0 d service_end : Z) (pbr : dict string (list TimeOfUsePeriod)) : Prop := {
  se_feasible : schedule_feasible s (candidate_from_reference s) t0 d;
  se_bill : recompute_bill s (candidate_profile_of s (candidate_from_reference s)) bundle facts dated
            = Ok (billing_result ref);
  se_background : Forall (fun b => 0 <= b) (background_of s);
  se_validated : vs = validated_of s;
  se_background_eq : es_energy_wh <$> fixed_background (decomposition vs) = background_of s;
  se_window : dr_end (service_window facts) = Some service_end;
  se_periods : Forall (fun op => exists ps, dict_get (rule_id (ir_tc_base op)) pbr = Some ps /\
                                            slot_periods s bundle facts op ps)
                 (applicable_charges (operators (ir bundle)) facts (date_month service_end));
  se_spec : lowering_spec vs bundle (billing_result ref)
              (applicable_charges (operators (ir bundle)) facts (date_month service_end)) pbr l;
  se_omissions : omitted_charge_proofs (lowering_record l)
    = (operators (ir bundle) ≫= omissions facts (date_month service_end)
         (invariant_total_profile_energy_wh (lowering_record l)))
}.

Lemma setting_holds : exists t0 d service_end pbr, setting t0 d service_end pbr.
Proof.
  destruct (verify_sound bundle facts dated s _ None ref Hin Href) as (t0 & d & oss & Hf & _ & _ & Hb & _).
  pose proof (proj1 (validate_scenario_ok s vs Hin) Hvs) as [_ Ev].
  assert (Forall (fun b => 0 <= b) (background_of s)) as Hbg.
  { pose proof (sf_background _ _ _ _ Hf) as Hb2. apply background_nonneg; [by eapply Forall2_length|done]. }
  pose proof (length_background s (sf_references _ _ _ _ Hf)) as Hbl.
  assert (es_energy_wh <$> fixed_background (decomposition vs) = background_of s) as Ebg.
  { rewrite Ev. cbn [decomposition validated_of fixed_background]. fold (background_of s).
    change (es_energy_wh <$> ?x) with (energies x). by apply energies_energy_slots. }
  assert (scenario vs = s) as Es by (by rewrite Ev).
  destruct (compile_inv vs bundle facts (billing_result ref) l) as (se & pbr & Hse & Hper & Hom & Hspec).
  - rewrite Es. apply canonical_ids_NoDup. apply Hf.
  - apply Htariff.
  - done.
  - exists t0, d, se, pbr. rewrite Es in Hper. split; done.
Qed.

Section Set_.
Context (t0 d service_end : Z) (pbr : dict string (list TimeOfUsePeriod)) (Hset : setting t0 d service_end pbr).
Notation charges := (applicable_charges (operators (ir bundle)) facts (date_month service_end)).

(** The lowered model over the background of the scenario. *)
Lemma model_sat a : satisfies a (lowered_model l) <->
  Forall (fun lo => occurrence_sat a s lo (window_of s lo)) los /\
  Forall (cap_sat s (background_of s) los a) (enumerate slots) /\
  Forall (charge_sat s (background_of s) los pbr a) (rate_entries charges).
Proof.
  rewrite (ls_sat _ _ _ _ _ _ (se_spec _ _ _ _ Hset)). unfold lowered_sat.
  rewrite (se_background_eq _ _ _ _ Hset), (se_validated _ _ _ _ Hset). done.
Qed.

Lemma model_windows : Forall (fun lo => lowering_window_indices s lo.2 = Ok (window_of s lo)) los.
Proof.
  pose proof (ls_windows _ _ _ _ _ _ (se_spec _ _ _ _ Hset)) as Hw. by rewrite (se_validated _ _ _ _ Hset) in Hw.
Qed.

Lemma entry_indices_bound x : x ∈ rate_entries charges ->
  Forall (fun i => 0 <= i < Z.of_nat n) (entry_indices pbr x).
Proof.
  intros Hx. unfold rate_entries in Hx. apply list_elem_of_bind in Hx as (op & Hx & Hop).
  apply list_elem_of_fmap in Hx as (r & -> & _). pose proof (se_periods _ _ _ _ Hset) as Hp.
  rewrite Forall_forall in Hp. destruct (Hp op Hop) as (ps & Hg & sch & _ & HF & _).
  unfold entry_indices. cbn [fst snd]. rewrite Hg. apply period_indices_bound. by apply Forall2_length in HF.
Qed.

Lemma solution_verifies a : satisfies a (lowered_model l) ->
  exists v, verify_candidate_schedule s (assigned_schedule s a) bundle facts dated
              (Some (leval a (supported_cost (objectives l)))) = Ok v /\
    schedule v = assigned_schedule s a /\
    ordered_values (objective (record v)) = objective_values l a.
Proof.
  intros Hsat. apply model_sat in Hsat as (Hocc & Hcap & Hch). destruct Hset as [Hf Hb Hbg Ev _ Hse Hper Hspec _].
  pose proof (solution_feasible s t0 d _ Hin Hf model_windows a Hocc Hcap) as Hfa.
  destruct (feasible_bill s bundle facts dated t0 d _ Hin Hf _ Hb (to_well_formed _ Htariff) (to_line_keys _ Htariff)
    (to_rule_ids _ Htariff) (assigned_schedule s a) (profile_value (background_of s) los a) service_end pbr Hse Hper Hfa
    (assigned_profile s a (background_length s t0 d _ Hf))) as (bill & Hbill & Hcents).
  { intros i Hi. by apply (profile_bounds s a Hocc Hbg). }
  assert (supported_calculated_cents bill = leval a (supported_cost (objectives l))) as Hcost.
  { rewrite (ls_cost _ _ _ _ _ _ Hspec), Hcents. f_equal. apply sum_by_ext. intros x Hx.
    rewrite Forall_forall in Hch.
    by destruct (proj1 (charge_sat_iff s a pbr charges Hocc Hbg entry_indices_bound x Hx) (Hch x Hx)) as [_ ->]. }
  destruct (proj2 (verifier_accepts_lemma bundle facts dated s (assigned_schedule s a)
    (Some (leval a (supported_cost (objectives l)))) Hin)) as [v Hv].
  { exists t0, d, bill. split; [done|]. split; [done|]. cbn. by rewrite Hcost. }
  exists v. split; [done|].
  destruct (verify_sound bundle facts dated s _ _ v Hin Hv) as (t1 & d1 & oss & Hf1 & Hcan & _ & Hb1 & _ & Hsch & _ & Hobj).
  pose proof (assigned_canonical s a t1 d1 oss (canonical_ids s t0 d _ Hf) Hcan) as ->.
  rewrite Hbill in Hb1. injection Hb1 as Eb. rewrite <- Eb in Hobj.
  destruct (solution_objective s t0 d _ Hin Hf model_windows a (supported_calculated_cents bill) Hocc Hcap)
    as (obj & Hobj' & Hc & Hchg & Hcmp & Hst).
  rewrite Hobj in Hobj'. injection Hobj' as Eo. subst obj.
  split; [destruct (schedule v) as [cs]; cbn in Hsch; by rewrite Hsch|].
  unfold ordered_values, objective_values. rewrite Hc, Hchg, Hcmp, Hst, Hcost.
  rewrite (ls_changed _ _ _ _ _ _ Hspec), (ls_completion _ _ _ _ _ _ Hspec), (ls_stable _ _ _ _ _ _ Hspec).
  unfold schedule_energy. by rewrite Ev.
Qed.

Lemma entries_unique x y : x ∈ rate_entries charges -> y ∈ rate_entries charges ->
  rule_id (ir_tc_base x.1) = rule_id (ir_tc_base y.1) -> irp_period x.2 = irp_period y.2 -> x = y.
Proof.
  unfold rate_entries. intros Hx Hy Er Ep. apply list_elem_of_bind in Hx as (op & Hx & Hop), Hy as (op' & Hy & Hop').
  apply list_elem_of_fmap in Hx as (r & -> & Hr), Hy as (r' & -> & Hr'). cbn [fst snd] in *.
  apply applicable_elem in Hop as [Hop _], Hop' as [Hop' _].
  assert (IRTimeOfUse op = IRTimeOfUse op') as [= <-] by (by apply (rule_of_id _ (to_rule_ids _ Htariff))).
  pose proof (to_periods _ Htariff op Hop) as Hnd. apply list_elem_of_lookup in Hr as [i Hi], Hr' as [j Hj].
  assert (i = j) as ->; [|congruence]. eapply NoDup_lookup; [exact Hnd|..].
  - by rewrite list_lookup_fmap, Hi.
  - rewrite list_lookup_fmap, Hj. cbn. by rewrite Ep.
Qed.

Lemma verified_is_solution c claimed v :
  candidate_fields_ok c = true -> verify_candidate_schedule s c bundle facts dated claimed = Ok v ->
  exists a, satisfies a (lowered_model l) /\ schedule v = assigned_schedule s a /\
    ordered_values (objective (record v)) = objective_values l a.
Proof.
  intros Hnn Hv. set (a := schedule_assignment s c pbr charges).
  destruct (verify_sound bundle facts dated s _ _ v Hin Hv) as (t1 & d1 & oss & Hf & Hcan & Hp & Hb & _ & Hsch & _ & Hobj).
  pose proof model_windows as Hwin.
  assert (satisfies a (lowered_model l)) as Hsat.
  { apply model_sat. split; [|split].
    - apply Forall_forall. intros lo Hlo. by apply (assignment_occurrence s c pbr charges t1 d1 Hin Hf Hnn Hwin).
    - by apply (assignment_caps s c pbr charges t1 d1 Hin Hf Hnn).
    - apply (assignment_charges s c pbr charges t1 d1 Hin Hf Hnn Hwin entries_unique).
      + apply Hset.
      + apply entry_indices_bound. }
  exists a. split; [done|]. destruct (solution_verifies a Hsat) as (v' & Hv' & Hs' & Ho').
  destruct (verify_sound bundle facts dated s _ _ v' Hin Hv')
    as (t2 & d2 & oss' & Hf' & Hcan' & Hp' & Hb' & _ & Hsch' & _ & Hobj').
  pose proof (assignment_canonical s c pbr charges t1 d1 Hin Hf Hnn oss Hcan) as Eoss. fold a in Eoss.
  rewrite Hs' in Hsch'. rewrite Eoss in Hsch, Hobj. rewrite <- Hsch' in Hobj'.
  destruct (assignment_totals s c pbr charges t1 d1 Hin Hf Hnn) as [_ Hpr]. fold a in Hpr.
  rewrite Hpr, <- (assigned_profile s a (background_length s t1 d1 c Hf)), Hb' in Hb. injection Hb as Hb.
  split; [destruct (schedule v) as [cs]; cbn in Hsch; by rewrite Hsch|].
  rewrite <- Ho'. f_equal. rewrite <- Hb in Hobj. unfold checked_state in Hobj, Hobj'. cbn [snd candidate_by_id] in *.
  congruence.
Qed.

(** ** Objective bounds *)
Lemma cost_bounds a : satisfies a (lowered_model l) ->
  minimum_supported_cost_cents (objective_bounds (lowering_record l)) <= leval a (supported_cost (objectives l))
  <= maximum_supported_cost_cents (objective_bounds (lowering_record l)).
Proof.
  intros Hsat. apply model_sat in Hsat as (Hocc & _ & Hch). pose proof (se_spec _ _ _ _ Hset) as Hspec.
  destruct (ls_bounds_cost _ _ _ _ _ _ Hspec) as (Hconst & -> & ->). rewrite Hconst, (ls_cost _ _ _ _ _ _ Hspec).
  pose proof (se_background_eq _ _ _ _ Hset) as Eb. rewrite Eb, (se_validated _ _ _ _ Hset). cbn [scenario validated_of].
  rewrite Forall_forall in Hch.
  assert (forall x, x ∈ rate_entries charges ->
    0 - cost_low s (background_of s) los pbr x <= entry_sign x * a (entry_cents x)
    <= cost_high s (background_of s) los pbr x) as Hx.
  { intros x Hx. destruct (Hch x Hx) as (_ & _ & Hc & _). unfold cost_low, cost_high, entry_sign.
    destruct (entry_rate x <? 0); cbn [Z.ltb Z.compare]; lia. }
  assert (sum_by (fun x => 0 - cost_low s (background_of s) los pbr x) (rate_entries charges)
          = - sum_by (cost_low s (background_of s) los pbr) (rate_entries charges)) as Hneg.
  { rewrite (sum_by_ext _ (fun x => -1 * cost_low s (background_of s) los pbr x)) by (intros; lia).
    rewrite sum_by_scale. lia. }
  split.
  - enough (- sum_by (cost_low s (background_of s) los pbr) (rate_entries charges)
            <= sum_by (fun x => entry_sign x * a (entry_cents x)) (rate_entries charges)) by lia.
    rewrite <- Hneg. apply sum_by_le. intros x Hxin. by apply Hx.
  - enough (sum_by (fun x => entry_sign x * a (entry_cents x)) (rate_entries charges)
            <= sum_by (cost_high s (background_of s) los pbr) (rate_entries charges)) by lia.
    apply sum_by_le. intros x Hxin. by apply Hx.
Qed.
End Set_.

End Exact.
