(* ===== verification/LoweringTheorems.v ===== *)
(** * LoweringTheorems: what the exact lowering guarantees

    No place creates two variables of one lowered model, the solutions of the
    model are the verified schedules with their objective tuples, the recorded
    bounds hold,
    and the charges left out of the objective are invariant. *)

From Stdlib Require Import QArith.QArith_base.
From S2P Require Import Prelude Calendar Json Schema Compiled Fixtures Eligibility Apportion DayEnergy ChargeIR.
From S2P Require Import Replay ReplayProofs ReplaySafety ReplayReschedule.
From S2P Require Import CpModel OptimizerModels Scenario ScenarioProofs Verification VerificationProofs.
From S2P Require Import Lowering LoweringModel LoweringSchedules LoweringProofs LoweringCost LoweringExact.

(** ** Distinct variables *)
Section Declared.
Context (s : ScenarioInput).
Notation n := (length (profile_slots s)).

Definition execution_declared (spec : ExecutionSpec) (id : Z) (w : Z * Z) : list cpvar :=
  match spec with
  | InterruptibleModulatingSpec _ _ => indices n ≫= fun i => [energy_var id i; active_var id i]
  | ContiguousFixedShapeSpec shape => (start_var id <$> allowed_starts shape w) ++ (energy_var id <$> indices n)
  end.
Definition occurrence_declared (lo : FlexibleLoad * LoadOccurrence) : list cpvar :=
  execution_declared (execution_spec lo.1) (lo_id lo) (window_of s lo)
  ++ (indices n ≫= fun i => [changed_var (lo_id lo) i; completion_active_var (lo_id lo) i])
  ++ [completion_var (lo_id lo)].

Lemma bind_singleton {A B} (f : A -> B) l : (l ≫= fun x => [f x]) = f <$> l.
Proof. induction l as [|x l IH]; [done|]. rewrite fmap_cons. cbn [mbind list_bind]. by rewrite <- IH. Qed.

Lemma declared_foldl {A S} (model : S -> CpModel) (f : S -> A -> S) (g : A -> list cpvar) st l :
  (forall st x, declared (model (f st x)) = declared (model st) ++ g x) ->
  declared (model (foldl f st l)) = declared (model st) ++ (l ≫= g).
Proof.
  intros Hf. revert st. induction l as [|x l IH]; intros st; cbn [foldl]; [by rewrite app_nil_r|].
  rewrite IH, Hf, <- app_assoc. done.
Qed.

Lemma declared_indicator v b m : declared (add_indicator v b (new_bool_var b m)) = declared m ++ [b].
Proof. unfold add_indicator. by autorewrite with declared. Qed.

Lemma execution_variables_declared spec id w m b :
  execution_variables (profile_slots s) spec id w m = Ok b ->
  declared (bd_model b) = declared m ++ execution_declared spec id w.
Proof.
  destruct spec as [hi lo|shape]; cbn [execution_variables execution_declared]; intros Hb; inv_ok; subst b.
  - rewrite (declared_foldl bd_model _ (fun item => [energy_var id item.1; active_var id item.1])).
    + cbn [bd_model start_build]. f_equal. rewrite <- (enumerate_from_keys 0 (profile_slots s)).
      generalize (enumerate (profile_slots s)). intros l. induction l as [|x l IH]; [done|].
      rewrite fmap_cons. cbn [mbind list_bind]. by rewrite <- IH.
    + intros st x. unfold interruptible_slot. cbn [bd_model].
      destruct (lo =? 0); autorewrite with declared; rewrite declared_indicator; autorewrite with declared;
        by rewrite <- app_assoc.
  - rewrite (declared_foldl bd_model _ (fun i => [energy_var id i])).
    + cbn [bd_model start_build]. rewrite declared_add, (declared_foldl (fun m => m) _ (fun k => [start_var id k]))
        by (intros; by autorewrite with declared).
      by rewrite !bind_singleton, <- app_assoc.
    + intros st x. unfold fixed_slot. cbn [bd_model]. by autorewrite with declared.
Qed.

Lemma declared_hints vrs m :
  declared (foldl (fun m (vr : cpvar * Z) => add_hint vr.1 vr.2 m) m vrs) = declared m.
Proof. revert m. induction vrs as [|vr vrs IH]; intros m; cbn [foldl]; [done|]. by rewrite IH. Qed.

Lemma entries_declared id refs items st out :
  foldM (entry_step id refs) st items = Ok out ->
  declared (en_model out)
  = declared (en_model st) ++ (items.*1 ≫= fun i => [changed_var id i; completion_active_var id i]).
Proof.
  revert st. induction items as [|[i v] items IH]; intros st Hf; cbn [foldM] in Hf.
  { injection Hf as <-. by rewrite app_nil_r. }
  apply bind_ok in Hf as (st' & Hst & Hf). rewrite (IH _ Hf). unfold entry_step in Hst.
  apply bind_ok in Hst as (r & _ & [= <-]). cbn [en_model]. rewrite declared_indicator. autorewrite with declared.
  rewrite <- !app_assoc. done.
Qed.

Lemma occurrence_step_declared st lo out :
  occurrence_step s st lo = Ok out -> declared (lw_model out) = declared (lw_model st) ++ occurrence_declared lo.
Proof.
  intros Ho. unfold occurrence_step in Ho. apply bind_ok in Ho as (b & Hb & Ho).
  apply bind_ok in Ho as (en & Hen & [= <-]). cbn [lw_model]. autorewrite with declared.
  apply entries_declared in Hen. cbn [en_model] in Hen. rewrite Hen, enumerate_from_keys.
  unfold create_occurrence_variables in Hb. apply bind_ok in Hb as (w & Hw & Hb).
  apply bind_ok in Hb as (b' & Hb' & Hb). apply bind_ok in Hb as (u & _ & [= <-]). cbn [bd_model bd_variables].
  rewrite declared_hints. autorewrite with declared. rewrite (execution_variables_declared _ _ _ _ _ Hb').
  apply execution_variables_ok in Hb' as (-> & _ & _). rewrite length_fmap, length_indices.
  unfold occurrence_declared, window_of. rewrite Hw. by rewrite <- !app_assoc.
Qed.

(** The occurrence a variable belongs to. *)
Definition var_occurrence (v : cpvar) : option Z :=
  match v with
  | energy_var o _ | active_var o _ | start_var o _ | changed_var o _ | completion_active_var o _
  | completion_var o => Some o
  | quantity_var _ _ | cents_var _ _ => None
  end.

Lemma occurrence_declared_owner lo v : v ∈ occurrence_declared lo -> var_occurrence v = Some (lo_id lo).
Proof.
  unfold occurrence_declared. intros Hv. apply elem_of_app in Hv as [Hv|[Hv|Hv]%elem_of_app].
  - unfold execution_declared in Hv. destruct (execution_spec lo.1).
    + apply list_elem_of_bind in Hv as (i & Hv & _). set_solver.
    + set_solver.
  - apply list_elem_of_bind in Hv as (i & Hv & _). set_solver.
  - set_solver.
Qed.

Lemma NoDup_bind_pairs {A} (f g : Z -> A) (l : list Z) :
  NoDup l -> (forall i j, f i = f j -> i = j) -> (forall i j, g i = g j -> i = j) -> (forall i j, f i <> g j) ->
  NoDup (l ≫= fun i => [f i; g i]).
Proof.
  intros Hnd Hf Hg Hfg. induction Hnd as [|i l Hi _ IH]; [constructor|]. cbn [mbind list_bind app].
  assert (forall h : Z -> A, (forall i j, h i = h j -> i = j) -> (forall j, h i <> f j) \/ (forall j, h i = f j -> i = j) ->
    (forall j, h i <> g j) \/ (forall j, h i = g j -> i = j) -> h i ∉ l ≫= fun i => [f i; g i]) as Hni.
  { intros h _ H1 H2 Hin. apply list_elem_of_bind in Hin as (j & Hj & Hjl).
    apply elem_of_cons in Hj as [E|Hj]; [destruct H1 as [H1|H1]; [by apply (H1 j)|by rewrite (H1 j E) in Hi]|].
    apply list_elem_of_singleton in Hj as E. destruct H2 as [H2|H2]; [by apply (H2 j)|by rewrite (H2 j E) in Hi]. }
  apply NoDup_cons. split.
  - intros [E|Hin]%elem_of_cons; [by apply (Hfg i i)|]. revert Hin. apply (Hni f); auto.
  - apply NoDup_cons. split; [|exact IH]. apply (Hni g); [done| |auto]. left. intros j E. by apply (Hfg j i).
Qed.

Lemma execution_declared_NoDup spec id w : NoDup (execution_declared spec id w).
Proof.
  unfold execution_declared. destruct spec.
  - apply NoDup_bind_pairs; [apply NoDup_seqZ|congruence..].
  - apply NoDup_app. split; [|split].
    + apply NoDup_fmap_2; [congruence|apply NoDup_seqZ].
    + intros v Hv. set_solver.
    + apply NoDup_fmap_2; [congruence|apply NoDup_seqZ].
Qed.

Lemma occurrence_declared_NoDup lo : NoDup (occurrence_declared lo).
Proof.
  unfold occurrence_declared. apply NoDup_app. split; [apply execution_declared_NoDup|]. split.
  - intros v Hv. assert (forall i, v <> changed_var (lo_id lo) i /\ v <> completion_active_var (lo_id lo) i /\
      v <> completion_var (lo_id lo)) as Hne.
    { intros i. unfold execution_declared in Hv. destruct (execution_spec lo.1).
      - apply list_elem_of_bind in Hv as (j & Hv & _). set_solver.
      - set_solver. }
    intros Hin. apply elem_of_app in Hin as [Hin|Hin].
    + apply list_elem_of_bind in Hin as (i & Hin & _). destruct (Hne i) as (? & ? & ?). set_solver.
    + destruct (Hne 0) as (? & ? & ?). set_solver.
  - apply NoDup_app. split; [apply NoDup_bind_pairs; [apply NoDup_seqZ|congruence..]|]. split; [|apply NoDup_singleton].
    intros v Hv. apply list_elem_of_bind in Hv as (i & Hv & _). set_solver.
Qed.

Lemma occurrences_declared_NoDup los : NoDup (lo_id <$> los) -> NoDup (los ≫= occurrence_declared).
Proof.
  induction los as [|lo los IH]; intros Hnd; [constructor|]. rewrite fmap_cons in Hnd.
  apply NoDup_cons in Hnd as [Hlo Hnd]. cbn [mbind list_bind]. apply NoDup_app. split; [apply occurrence_declared_NoDup|].
  split; [|by apply IH]. intros v Hv Hin. apply occurrence_declared_owner in Hv.
  apply list_elem_of_bind in Hin as (lo' & Hv' & Hlo'). apply occurrence_declared_owner in Hv'. apply Hlo.
  apply list_elem_of_fmap. exists lo'. split; [congruence|done].
Qed.
End Declared.

Lemma rate_declared op periods profile maxima st r out :
  cost_rate_step op periods profile maxima st r = Ok out ->
  declared (co_model out) = declared (co_model st) ++ [entry_quantity (op, r); entry_cents (op, r)].
Proof.
  intros Hs. unfold cost_rate_step in Hs. apply bind_ok in Hs as (bs & _ & Hs). apply bind_ok in Hs as (es & _ & Hs).
  apply bind_ok in Hs as ((m & sg & rmax) & Hr & [= <-]). unfold rounded_cents_variable in Hr.
  apply bind_ok in Hr as (u & _ & [= <- _ _]). cbn [co_model]. autorewrite with declared. by rewrite <- app_assoc.
Qed.

Lemma charges_declared pbr profile maxima charges st out :
  foldM (cost_charge_step pbr profile maxima) st charges = Ok out ->
  declared (co_model out) = declared (co_model st) ++ (rate_entries charges ≫= fun x => [entry_quantity x; entry_cents x]).
Proof.
  revert st. induction charges as [|op charges IH]; intros st Hf; cbn [foldM] in Hf.
  { injection Hf as <-. by rewrite app_nil_r. }
  apply bind_ok in Hf as (st' & Hst & Hf). rewrite (IH _ Hf). unfold rate_entries. cbn [mbind list_bind].
  rewrite bind_app, app_assoc. f_equal. unfold cost_charge_step in Hst. destruct (dict_get _ _) as [ps|]; [|done].
  clear -Hst. revert st Hst. induction (period_rates op) as [|r rs IHr]; intros st Hst; cbn [foldM] in Hst.
  { injection Hst as <-. by rewrite app_nil_r. }
  apply bind_ok in Hst as (st1 & H1 & H2). rewrite (IHr _ H2), (rate_declared _ _ _ _ _ _ _ H1), <- app_assoc. done.
Qed.

Lemma caps_declared s background energy maximum st items out :
  foldM (profile_step s background energy maximum) st items = Ok out ->
  declared (sl_model out) = declared (sl_model st).
Proof.
  intros Hf. eapply (foldM_inv _ (fun o => declared (sl_model o) = declared (sl_model st))); [done| |exact Hf].
  intros [i slot] st1 st2 _ Hd Hs. rewrite <- Hd. unfold profile_step in Hs.
  apply bind_ok in Hs as (vs & _ & Hs). apply bind_ok in Hs as (b & _ & Hs). apply bind_ok in Hs as (ms & _ & Hs).
  apply bind_ok in Hs as (u & _ & [= <-]). cbn [sl_model]. unfold add_cap.
  by destruct (site_import_cap_w _), (flexible_load_aggregate_cap_w _).
Qed.

(** ** Theorems *)
Section Theorems.
Context `{ZoneInfo} `{Sha256} (s : ScenarioInput) (vs : ValidatedScenario) (bundle : CompilationBundle)
  (facts : AccountFacts) (dated : option DatedEligibilityFacts) (ref : VerifiedSchedule)
  (l : LoweredScenarioModel).

Lemma declared_lemma billing :
  NoDup (lo_id <$> canonical_occurrences (scenario vs)) -> tariff_ok (operators (ir bundle)) ->
  compile_scenario_model vs bundle facts billing = Ok l ->
  NoDup (declared (lowered_model l)).
Proof.
  intros Hids Htariff Hc. unfold compile_scenario_model in Hc.
  apply bind_ok in Hc as (u & _ & Hc). apply bind_ok in Hc as (((charges & ps) & names) & Hact & Hc).
  apply bind_ok in Hc as (((pbr & marginal) & ranks) & _ & Hc). apply bind_ok in Hc as (u1 & _ & Hc).
  apply bind_ok in Hc as (st & Hst & Hc). apply bind_ok in Hc as (sl & Hsl & Hc).
  apply bind_ok in Hc as (co & Hco & Hc). apply bind_ok in Hc as (px & _ & Hc).
  apply bind_ok in Hc as (ms & _ & Hc). apply bind_ok in Hc as (u2 & _ & Hc).
  apply bind_ok in Hc as (u3 & _ & Hc). apply bind_ok in Hc as (u4 & _ & [= <-]). cbn [lowered_model].
  apply active_operators_ok in Hact as (se & _ & -> & _ & _ & _).
  apply charges_declared in Hco. apply caps_declared in Hsl. cbn [co_model sl_model] in *. rewrite Hco, Hsl.
  change (lowering_occurrences (scenario vs)) with (canonical_occurrences (scenario vs)) in Hst.
  assert (declared (lw_model st) = canonical_occurrences (scenario vs) ≫= occurrence_declared (scenario vs)) as ->.
  { revert Hst. apply (foldM_prefix_inv _ (fun done st => declared (lw_model st) = done ≫= occurrence_declared (scenario vs)));
      [done|]. intros done lo st0 st1 _ Hd Hs. rewrite bind_app, <- Hd. cbn [mbind list_bind]. rewrite app_nil_r.
    by apply occurrence_step_declared. }
  apply NoDup_app. split; [by apply occurrences_declared_NoDup|]. split.
  - intros v Hv Hin. apply list_elem_of_bind in Hv as (lo & Hv & _). apply occurrence_declared_owner in Hv.
    apply list_elem_of_bind in Hin as (x & Hx & _). set_solver.
  - set (charges := applicable_charges _ _ _).
    assert (NoDup (rate_entries charges)) as Hnd.
    { unfold rate_entries. assert (NoDup charges) as Hch.
      { eapply NoDup_fmap_1, applicable_ids, Htariff. }
      assert (forall op, op ∈ charges -> NoDup (period_rates op)) as Hpr.
      { intros op Hop. apply applicable_elem in Hop as [Hop _]. eapply NoDup_fmap_1. by apply Htariff. }
      revert Hch Hpr. generalize charges. clear. intros l Hch Hpr. induction Hch as [|op l Hop _ IH]; [constructor|].
      cbn [mbind list_bind]. apply NoDup_app. split; [apply NoDup_fmap_2; [congruence|apply Hpr; set_solver]|].
      split; [|apply IH; intros; apply Hpr; set_solver]. intros x Hx Hin. apply list_elem_of_fmap in Hx as (r & -> & _).
      apply list_elem_of_bind in Hin as (op' & Hin & Hop'). apply list_elem_of_fmap in Hin as (r' & [= <- _] & _). done. }
    pose proof (entries_unique bundle facts Htariff se) as Huniq. fold charges in Huniq.
    revert Hnd Huniq. generalize (rate_entries charges). clear. intros xs Hnd Huniq.
    induction Hnd as [|x xs Hx _ IH]; [constructor|]. cbn [mbind list_bind app].
    assert (forall y, y ∈ xs -> entry_quantity x <> entry_quantity y /\ entry_cents x <> entry_cents y) as Hne.
    { intros y Hy. assert (x <> y) as Hxy by congruence.
      split; intros [= E1 E2]; apply Hxy, Huniq; try done; apply elem_of_cons; auto. }
    specialize (IH ltac:(intros; apply Huniq; try done; apply elem_of_cons; auto)).
    apply NoDup_cons. split; [|apply NoDup_cons; split; [|done]].
    + intros [E|Hin]%elem_of_cons; [done|]. apply list_elem_of_bind in Hin as (y & Hin & Hy). specialize (Hne y Hy). set_solver.
    + intros Hin. apply list_elem_of_bind in Hin as (y & Hin & Hy). specialize (Hne y Hy). set_solver.
Qed.

Lemma sum_by_bounds {A} (f : A -> Z) lo hi (xs : list A) :
  (forall x, x ∈ xs -> lo <= f x <= hi) -> lo * Z.of_nat (length xs) <= sum_by f xs <= hi * Z.of_nat (length xs).
Proof.
  intros Hf. rewrite <- (sum_by_const lo xs), <- (sum_by_const hi xs).
  split; apply sum_by_le; intros x Hx; by apply Hf.
Qed.

Lemma stable_bounds (e m : list Z) : Forall2 (fun x y => 0 <= x <= y) e m ->
  forall k, 0 <= k ->
  0 <= sum_by (fun ia : Z * Z => ia.2 * (ia.1 + 1)) (enumerate_from k e)
  <= sum_by (fun ia : Z * Z => ia.2 * (ia.1 + 1)) (enumerate_from k m).
Proof.
  induction 1 as [|x y e m Hxy _ IH]; intros k Hk; [done|]. cbn [enumerate_from]. rewrite !sum_by_cons. cbn [fst snd].
  specialize (IH (k + 1) ltac:(lia)). nia.
Qed.

Lemma zip_mul_bounds (e m ranks : list Z) :
  Forall2 (fun x y => 0 <= x <= y) e m -> Forall (fun r => 0 <= r) ranks ->
  0 <= zsum (zip_with Z.mul e ranks) <= zsum (zip_with Z.mul m ranks).
Proof.
  intros HF. revert ranks. induction HF as [|x y e m Hxy _ IH]; intros ranks Hr; [done|].
  destruct Hr as [|r ranks Hr0 Hr]; [done|]. cbn [zip_with]. specialize (IH ranks Hr).
  change (zsum (?a :: ?l)) with (a + zsum l). nia.
Qed.

(** On a solution every energy variable lies within its recorded maximum. *)
Lemma occurrence_energy_bounded a lo : occurrence_sat a s lo (window_of s lo) ->
  Forall2 (fun x y => 0 <= x <= y) (occurrence_energy a (length (profile_slots s)) (lo_id lo)) (maxima_of s lo).
Proof.
  intros [Hex _]. apply Forall2_same_length_lookup_2.
  - rewrite length_occurrence_energy. unfold maxima_of. by rewrite length_execution_maxima.
  - intros i x y Hx Hy. apply occurrence_energy_lookup in Hx as [Hi ->].
    pose proof (execution_bounds _ _ _ _ _ (Z.of_nat i) Hex ltac:(lia)) as Hb. rewrite Nat2Z.id in Hb.
    unfold maxima_of in Hy. fold (lo_id lo) in Hb. rewrite Hy in Hb. done.
Qed.

(** The changed indicators are booleans, one for every occurrence and slot. *)
Lemma changed_bounds a los : let n := length (profile_slots s) in
  (forall lo, lo ∈ los -> occurrence_sat a s lo (window_of s lo) /\ length (reference_energy_wh lo.2) = n) ->
  0 <= sum_by (fun lo => sum_by (fun i => a (changed_var (lo_id lo) i)) (indices n)) los
  <= Z.of_nat (length los) * Z.of_nat n.
Proof.
  intros n Hocc. rewrite (Z.mul_comm (Z.of_nat _)). apply (sum_by_bounds _ 0 _).
  intros lo Hlo. destruct (Hocc lo Hlo) as [(_ & _ & Hen & _) Hlen].
  pose proof (sum_by_bounds (fun i => a (changed_var (lo_id lo) i)) 0 1 (indices n)) as Hb.
  rewrite length_indices in Hb. lapply Hb; [lia|]. intros i Hi%elem_of_indices.
  destruct (lookup_lt_is_Some_2 (reference_energy_wh lo.2) (Z.to_nat i)) as [r Hr]; [lia|].
  rewrite Forall_forall in Hen. destruct (Hen (i, r)) as [Hc _]; [|done].
  apply list_elem_of_lookup. exists (Z.to_nat i). apply zip_lookup_Some. split; [|done].
  rewrite seqZ_lookup_nat by (unfold n in *; lia). f_equal. lia.
Qed.

Context (Hin : scenario_input_ok s) (Hvs : validate_and_decompose_scenario s = Ok vs)
  (Htariff : tariff_ok (operators (ir bundle)))
  (Href : verify_candidate_schedule s (candidate_from_reference s) bundle facts dated None = Ok ref)
  (Hl : compile_scenario_model vs bundle facts (billing_result ref) = Ok l).

(** The representation of variables is adequate: no place of the lowering creates
    two variables in one model, so a [cpvar] of a lowered model is one [IntVar]
    object.  (Nothing is said of the labels, which may coincide.) *)
Lemma lowered_variables_distinct : NoDup (declared (lowered_model l)).
Proof.
  destruct (setting_holds s vs bundle facts dated ref l Hin Hvs Htariff Href Hl) as (t0 & d & se & pbr & Hset).
  eapply declared_lemma; [|exact Htariff|exact Hl]. rewrite (se_validated _ _ _ _ _ _ _ _ _ _ _ Hset).
  apply canonical_ids_NoDup. apply (se_feasible _ _ _ _ _ _ _ _ _ _ _ Hset).
Qed.

(** C7: every solution of the lowered model is a verified schedule.  The
    schedule read off the energy variables is accepted by the independent
    verifier together with the model's claimed cost, and the verifier recomputes
    from scratch exactly the four values the model's objective expressions have:
    the replayed bill, the changed slots, the completion sum, the stable score. *)
Theorem lowered_solutions_verify a : satisfies a (lowered_model l) ->
  exists v, verify_candidate_schedule s (assigned_schedule s a) bundle facts dated
              (Some (leval a (supported_cost (objectives l)))) = Ok v /\
    schedule v = assigned_schedule s a /\
    ordered_values (objective (record v)) = objective_values l a.
Proof.
  destruct (setting_holds s vs bundle facts dated ref l Hin Hvs Htariff Href Hl) as (t0 & d & se & pbr & Hset).
  by apply (solution_verifies s vs bundle facts dated ref l Hin Htariff t0 d se pbr Hset).
Qed.

(** C8: the lowering loses no schedule.  Every schedule the verifier accepts is
    the energy part of a solution of the lowered model, whose objective
    expressions have the verified objective values. *)
Theorem verified_schedules_are_solutions c claimed v :
  candidate_fields_ok c = true -> verify_candidate_schedule s c bundle facts dated claimed = Ok v ->
  exists a, satisfies a (lowered_model l) /\ schedule v = assigned_schedule s a /\
    ordered_values (objective (record v)) = objective_values l a.
Proof.
  destruct (setting_holds s vs bundle facts dated ref l Hin Hvs Htariff Href Hl) as (t0 & d & se & pbr & Hset).
  apply (verified_is_solution s vs bundle facts dated ref l Hin Htariff t0 d se pbr Hset).
Qed.

(** C9: the recorded objective bounds are sound and fit in 64 bits.  On every
    solution the cost lies between the recorded minimum and maximum, and the
    changed slots, the completion sum, the stable score and the off-peak proxy
    each lie between zero and their recorded maximum; all six recorded bounds
    are within signed 64-bit range, as the solver requires. *)
Theorem objective_bounds_sound a : satisfies a (lowered_model l) ->
  let b := objective_bounds (lowering_record l) in
  let '(cost, (changed, (completion, stable))) := objective_values l a in
  minimum_supported_cost_cents b <= cost <= maximum_supported_cost_cents b /\
  0 <= changed <= maximum_changed_occurrence_slot_count b /\
  0 <= completion <= maximum_completion_slot_index_sum b /\
  0 <= stable <= maximum_stable_slot_order_score b /\
  0 <= leval a (proxy_rank_score (objectives l)) <= maximum_proxy_rank_score b /\
  Forall (fun v => Z.abs v <= SIGNED_INT64_MAX)
    [minimum_supported_cost_cents b; maximum_supported_cost_cents b; maximum_changed_occurrence_slot_count b;
     maximum_completion_slot_index_sum b; maximum_stable_slot_order_score b; maximum_proxy_rank_score b].
Proof.
  intros Hsat. destruct (setting_holds s vs bundle facts dated ref l Hin Hvs Htariff Href Hl) as (t0 & d & se & pbr & Hset).
  pose proof (se_spec _ _ _ _ _ _ _ _ _ _ _ Hset) as Hspec. cbv zeta. unfold objective_values.
  split; [by apply (cost_bounds s vs bundle facts dated ref l t0 d se pbr Hset)|].
  apply (model_sat s vs bundle facts dated ref l t0 d se pbr Hset) in Hsat as (Hocc & _ & _).
  rewrite Forall_forall in Hocc.
  pose proof (ls_int64 _ _ _ _ _ _ Hspec) as Hint. destruct (ls_bounds_entries _ _ _ _ _ _ Hspec) as (E1 & E2 & E3).
  cbv zeta in Hint, E1, E2, E3. rewrite E1, E2, E3 in Hint |- *. rewrite (ls_changed _ _ _ _ _ _ Hspec),
    (ls_completion _ _ _ _ _ _ Hspec), (ls_stable _ _ _ _ _ _ Hspec), (ls_proxy _ _ _ _ _ _ Hspec).
  rewrite (ls_bounds_proxy _ _ _ _ _ _ Hspec) in Hint |- *.
  unfold schedule_energy. rewrite (se_validated _ _ _ _ _ _ _ _ _ _ _ Hset) in *. cbn [scenario validated_of] in *.
  split; [|split; [|split; [|split; [|rewrite !Forall_cons in *; tauto]]]].
  - apply changed_bounds. intros lo Hlo. split; [by apply Hocc|].
    pose proof (model_windows s vs bundle facts dated ref l t0 d se pbr Hset) as Hwin.
    apply (occurrence_input s t0 d _ Hin (se_feasible _ _ _ _ _ _ _ _ _ _ _ Hset) Hwin lo Hlo).
  - rewrite (Z.mul_comm (Z.of_nat _)). apply (sum_by_bounds _ 0 _). intros lo Hlo.
    destruct (Hocc lo Hlo) as (_ & _ & _ & Hc & _). unfold lo_id. lia.
  - apply stable_bounds; [|done]. clear -Hocc. induction (canonical_occurrences s) as [|lo los IH]; [constructor|].
    rewrite !fmap_cons. cbn [concat]. apply Forall2_app; [|apply IH; intros; apply Hocc; set_solver].
    apply occurrence_energy_bounded, Hocc. set_solver.
  - pose proof (fun lo Hlo => zip_mul_bounds _ _ _ (occurrence_energy_bounded a lo (Hocc lo Hlo))
      (ls_ranks_nonneg _ _ _ _ _ _ Hspec)) as Hb.
    split; [apply sum_by_nonneg; intros; by apply Hb|apply sum_by_le; intros; by apply Hb].
Qed.

(** The charges left out of the objective are constant.  The lowering records
    one omission for every operator that is not a time-of-use charge of the
    account, and one for each baseline credit; taking the time-of-use period
    lines out of the bill of any schedule the verifier accepts leaves exactly
    the constant that the lowering adds to its cost objective. *)
Theorem omitted_charges_constant c claimed v service_end :
  candidate_fields_ok c = true -> verify_candidate_schedule s c bundle facts dated claimed = Ok v ->
  dr_end (service_window facts) = Some service_end ->
  let ops := operators (ir bundle) in
  omitted_charge_proofs (lowering_record l)
  = (ops ≫= omissions facts (date_month service_end) (invariant_total_profile_energy_wh (lowering_record l))) /\
  supported_calculated_cents (billing_result v)
  - reference_variable_cents (applicable_charges ops facts (date_month service_end)) (billing_result v)
  = constant_supported_cost_cents (lowering_record l).
Proof.
  intros Hnn Hv Hse ops.
  destruct (setting_holds s vs bundle facts dated ref l Hin Hvs Htariff Href Hl) as (t0 & d & se & pbr & Hset).
  pose proof (se_window _ _ _ _ _ _ _ _ _ _ _ Hset) as Hse'. assert (se = service_end) as -> by congruence.
  split; [apply Hset|]. destruct (ls_bounds_cost _ _ _ _ _ _ (se_spec _ _ _ _ _ _ _ _ _ _ _ Hset)) as (-> & _).
  pose proof (se_feasible _ _ _ _ _ _ _ _ _ _ _ Hset) as Hf0. pose proof (se_bill _ _ _ _ _ _ _ _ _ _ _ Hset) as Hb0.
  destruct (verify_sound bundle facts dated s _ _ v Hin Hv) as (t1 & d1 & oss & Hf & _ & _ & Hb & _).
  destruct (proj1 (recompute_bill_ok s bundle facts dated _ _) Hb0) as (_ & Hv0 & Hr0).
  destruct (proj1 (recompute_bill_ok s bundle facts dated _ _) Hb) as (_ & Hv1 & Hr1).
  destruct (feasible_profile s t0 d Hin _ Hf0) as (Hl0 & _ & Hz0).
  destruct (feasible_profile s t1 d1 Hin _ Hf) as (Hl1 & _ & Hz1).
  pose proof (bill_rescheduled s facts dated _ _ Hl0 Hl1 (eq_trans Hz0 (eq_sym Hz1))) as Hres.
  destruct (reschedule_bill _ _ _ _ _ Hres Hv0 Hv1 (to_well_formed _ Htariff) (to_line_keys _ Htariff) Hr0)
    as (bill & el & env1 & env2 & Hr & He1 & He2 & Hconst & _ & _).
  destruct (bill_reference s bundle facts dated (to_well_formed _ Htariff) _ _ _ _ Hv0 He1 Hr0)
    as (_ & _ & Hfa1 & Hm1 & Hli1 & Hsu1).
  destruct (bill_reference s bundle facts dated (to_well_formed _ Htariff) _ _ _ _ Hv1 He2 Hr1)
    as (_ & _ & Hfa2 & Hm2 & Hli2 & Hsu2).
  unfold reference_variable_cents. rewrite Hli1, Hli2, Hsu1, Hsu2, !bill_split.
  pose proof (variable_cents env1 _ (to_rule_ids _ Htariff)) as Hvar1. rewrite Hfa1, (Hm1 _ Hse) in Hvar1.
  pose proof (variable_cents env2 _ (to_rule_ids _ Htariff)) as Hvar2. rewrite Hfa2, (Hm2 _ Hse) in Hvar2.
  unfold ops. rewrite Hvar1, Hvar2.
  rewrite (list_bind_ext (constant_lines env2) (constant_lines env1) _ _ Hconst eq_refl). lia.
Qed.
End Theorems.

(** ** Witnesses: the two-load scenario on EV2-A *)
Definition lowered_fixture : result LoweredScenarioModel :=
  vs ← validate_and_decompose_scenario scenario_fixture;
  r ← verify_fixture fixture_reference None;
  compile_scenario_model (H0 := toy_sha256) vs ev2a_bundle july_facts (billing_result r).

Definition fixture_charges : list IRTimeOfUseEnergyCharge :=
  applicable_charges (operators (ir ev2a_bundle)) july_facts 8.
Definition fixture_assignment : assignment :=
  schedule_assignment scenario_fixture shifted_candidate
    ((fun op => (rule_id (ir_tc_base op), [PARTIAL_PEAK; PEAK; PEAK; PEAK])) <$> fixture_charges)
    fixture_charges.

(** The stages of a computation that was evaluated to a result. *)
Lemma bind3_stages {A B C} (m1 : result A) (m2 : result B) (f : A -> B -> result C) (P : C -> bool) :
  match (x ← m1; y ← m2; f x y) with Ok c => P c | Raise _ => false end = true ->
  exists x y c, m1 = Ok x /\ m2 = Ok y /\ f x y = Ok c /\ P c = true.
Proof.
  destruct m1 as [x|]; [|done]. destruct m2 as [y|]; [|done]. cbn. destruct (f x y) as [c|] eqn:E; [|done].
  intros HP. by exists x, y, c.
Qed.

Lemma fixture_evaluates :
  match (vs ← validate_and_decompose_scenario scenario_fixture;
         r ← verify_fixture fixture_reference None;
         compile_scenario_model (H0 := toy_sha256) vs ev2a_bundle july_facts (billing_result r)) with
  | Ok l => bool_decide (satisfies fixture_assignment (lowered_model l)) | Raise _ => false end = true.
Proof. vm_compute. reflexivity. Qed.

Lemma fixture_lowered : exists vs r l,
  validate_and_decompose_scenario scenario_fixture = Ok vs /\ verify_fixture fixture_reference None = Ok r /\
  compile_scenario_model (H0 := toy_sha256) vs ev2a_bundle july_facts (billing_result r) = Ok l /\
  satisfies fixture_assignment (lowered_model l).
Proof.
  pose proof fixture_evaluates as Hs. revert Hs.
  generalize (validate_and_decompose_scenario scenario_fixture). generalize (verify_fixture fixture_reference None).
  intros m2 m1 Hs. apply bind3_stages in Hs as (vs & r & l & Hv & Hr & Hl & Hs). apply bool_decide_eq_true in Hs.
  by exists vs, r, l.
Qed.

Lemma lowered_fixture_ok vs r l :
  validate_and_decompose_scenario scenario_fixture = Ok vs -> verify_fixture fixture_reference None = Ok r ->
  compile_scenario_model (H0 := toy_sha256) vs ev2a_bundle july_facts (billing_result r) = Ok l ->
  lowered_fixture = Ok l.
Proof.
  unfold lowered_fixture. generalize (validate_and_decompose_scenario scenario_fixture).
  generalize (verify_fixture fixture_reference None). intros m2 m1 -> -> Hl. exact Hl.
Qed.

Lemma ev2a_tariff_ok : tariff_ok (operators (ir ev2a_bundle)).
Proof.
  split.
  - repeat constructor; cbn; lia.
  - apply has_dups_false. vm_compute. reflexivity.
  - apply has_dups_false. vm_compute. reflexivity.
  - intros r Hr. apply has_dups_false. repeat (apply elem_of_cons in Hr as [Hr|Hr]); try discriminate Hr;
      [injection Hr as ->; vm_compute; reflexivity|by apply not_elem_of_nil in Hr].
Qed.

Lemma lowered_solutions_verify_witness :
  exists l v, lowered_fixture = Ok l /\
    ordered_values (objective (record v)) = objective_values l fixture_assignment /\
    schedule v = assigned_schedule scenario_fixture fixture_assignment.
Proof.
  destruct fixture_lowered as (vs & r & l & Hv & Hr & Hl & Hsat).
  destruct (lowered_solutions_verify (H0 := toy_sha256) scenario_fixture vs ev2a_bundle july_facts (Some july_dated) r l
    scenario_fixture_ok Hv ev2a_tariff_ok Hr Hl fixture_assignment Hsat) as (v & _ & Hs & Ho).
  exists l, v. split; [|split; [exact Ho|exact Hs]]. by apply (lowered_fixture_ok vs r).
Defined.

Lemma verified_schedules_are_solutions_witness :
  exists l a v, lowered_fixture = Ok l /\ satisfies a (lowered_model l) /\
    verify_fixture shifted_candidate (Some (-1000)) = Ok v /\
    ordered_values (objective (record v)) = objective_values l a.
Proof.
  destruct fixture_lowered as (vs & r & l & Hv & Hr & Hl & _).
  destruct (verify_fixture shifted_candidate (Some (-1000))) as [v|] eqn:Ev; [|vm_compute in Ev; discriminate Ev].
  destruct (verified_schedules_are_solutions (H0 := toy_sha256) scenario_fixture vs ev2a_bundle july_facts
    (Some july_dated) r l scenario_fixture_ok Hv ev2a_tariff_ok Hr Hl shifted_candidate (Some (-1000)) v
    ltac:(vm_compute; reflexivity) Ev) as (a & Ha & _ & Ho).
  exists l, a, v. split; [|split; [exact Ha|split; [reflexivity|exact Ho]]].
  by apply (lowered_fixture_ok vs r).
Defined.

Lemma objective_bounds_sound_witness :
  exists l, lowered_fixture = Ok l /\
    minimum_supported_cost_cents (objective_bounds (lowering_record l))
    <= leval fixture_assignment (supported_cost (objectives l)).
Proof.
  destruct fixture_lowered as (vs & r & l & Hv & Hr & Hl & Hsat). exists l. split.
  - by apply (lowered_fixture_ok vs r).
  - exact (proj1 (proj1 (objective_bounds_sound (H0 := toy_sha256) scenario_fixture vs ev2a_bundle july_facts
      (Some july_dated) r l scenario_fixture_ok Hv ev2a_tariff_ok Hr Hl fixture_assignment Hsat))).
Defined.

Lemma omitted_charges_constant_witness :
  exists l v, lowered_fixture = Ok l /\ verify_fixture shifted_candidate None = Ok v /\
    supported_calculated_cents (billing_result v)
    - reference_variable_cents fixture_charges (billing_result v)
    = constant_supported_cost_cents (lowering_record l).
Proof.
  destruct fixture_lowered as (vs & r & l & Hv & Hr & Hl & _).
  destruct (verify_fixture shifted_candidate None) as [v|] eqn:Ev; [|vm_compute in Ev; discriminate Ev].
  exists l, v. split; [|split; [reflexivity|]].
  - by apply (lowered_fixture_ok vs r).
  - exact (proj2 (omitted_charges_constant (H0 := toy_sha256) scenario_fixture vs ev2a_bundle july_facts
      (Some july_dated) r l scenario_fixture_ok Hv ev2a_tariff_ok Hr Hl shifted_candidate None v (date_of_ymd 2026 8 1)
      ltac:(vm_compute; reflexivity) Ev ltac:(vm_compute; reflexivity))).
Defined.
