(* ===== verification/Solver.v ===== *)
(** * Solver: staged CP-SAT searches with verified selection (optimizer/solver.py)

    [optimize_exact] minimises the four objectives of a lowered scenario one
    after the other, fixing each proved optimum before the next stage, has every
    incumbent re-verified independently and keeps it only when it is strictly
    better than the unchanged reference.  [optimize_off_peak_heuristic] does the
    same with the off-peak proxy.  CP-SAT itself is a parameter: the class
    [OrTools] is the part of its interface the code calls. *)

From S2P Require Import Prelude Calendar Float Json Schema Compiled Eligibility DayEnergy Replay.
From S2P Require Import CpModel OptimizerModels Scenario Verification Lowering.

(** ** Contracts *)
Record SolverConfiguration := {
  solver_version : string;
  random_seed : Z;
  max_deterministic_time_per_stage : float
}.
Definition SOLVER_NAME : string := "OR-Tools CP-SAT".
Definition num_search_workers : Z := 1.

Definition SolverConfiguration_dump (c : SolverConfiguration) : json :=
  JObj [("configuration_version", JStr "deterministic-cp-sat-v1"); ("solver_name", JStr SOLVER_NAME);
        ("solver_version", JStr (solver_version c)); ("num_search_workers", JInt num_search_workers);
        ("random_seed", JInt (random_seed c));
        ("max_deterministic_time_per_stage", JFloat (max_deterministic_time_per_stage c));
        ("randomize_search", JBool false); ("log_search_progress", JBool false)].

(** [SolverStageRecord]; [HeuristicStageRecord] has the same fields. *)
Record SolverStageRecord := {
  stage_index : Z;
  stage_name : string;
  stage_status : string;
  incumbent_value : option Z;
  best_objective_bound : option float;
  fixed_optimum : option Z
}.
Notation HeuristicStageRecord := SolverStageRecord (only parsing).

Definition StageRecord_dump (r : SolverStageRecord) : json :=
  JObj [("stage_index", JInt (stage_index r)); ("stage_name", JStr (stage_name r));
        ("status", JStr (stage_status r)); ("incumbent_value", jopt JInt (incumbent_value r));
        ("best_objective_bound", jopt JFloat (best_objective_bound r));
        ("fixed_optimum", jopt JInt (fixed_optimum r))].

Definition STAGE_STATUSES : list string := ["OPTIMAL"; "FEASIBLE"; "UNKNOWN"; "MODEL_INVALID"; "INFEASIBLE"].
Definition EXACT_STAGE_NAMES : list string :=
  ["SUPPORTED_COST"; "CHANGED_OCCURRENCE_SLOTS"; "COMPLETION_SLOT_INDEX_SUM"; "STABLE_SLOT_ORDER_SCORE"].
Definition HEURISTIC_STAGE_NAMES : list string := ["OFF_PEAK_PROXY_RANK"; "STABLE_SLOT_ORDER_SCORE"].

(** [model_validate] of a stage record: an index up to the number of stages, one
    of their names and one of the five statuses. *)
Definition validate_stage_record (names : list string) (r : SolverStageRecord) : result SolverStageRecord :=
  _ ← raise_if (negb ((1 <=? stage_index r) && (stage_index r <=? Z.of_nat (length names))
                      && mem (stage_name r) names && mem (stage_status r) STAGE_STATUSES))
        (ValidationError "StageRecord");
  Ok r.

Inductive ExactSearchStatus :=
| EXACT_OPTIMAL | EXACT_BEST_FOUND | EXACT_UNKNOWN | EXACT_MODEL_INVALID | EXACT_MODEL_CONTRACT_VIOLATION
| EXACT_UNVERIFIED_INCUMBENT.
#[export] Instance ExactSearchStatus_eq_dec : EqDecision ExactSearchStatus.
Proof. solve_decision. Defined.
Definition exact_status_str (s : ExactSearchStatus) : string :=
  match s with
  | EXACT_OPTIMAL => "OPTIMAL"
  | EXACT_BEST_FOUND => "BEST_FOUND"
  | EXACT_UNKNOWN => "UNKNOWN"
  | EXACT_MODEL_INVALID => "MODEL_INVALID"
  | EXACT_MODEL_CONTRACT_VIOLATION => "MODEL_CONTRACT_VIOLATION"
  | EXACT_UNVERIFIED_INCUMBENT => "UNVERIFIED_INCUMBENT"
  end.

Inductive HeuristicSearchStatus :=
| HEURISTIC_PROXY_OPTIMAL | HEURISTIC_BEST_FOUND | HEURISTIC_NO_INCUMBENT | HEURISTIC_MODEL_INVALID
| HEURISTIC_MODEL_CONTRACT_VIOLATION | HEURISTIC_UNVERIFIED_INCUMBENT.
#[export] Instance HeuristicSearchStatus_eq_dec : EqDecision HeuristicSearchStatus.
Proof. solve_decision. Defined.
Definition heuristic_status_str (s : HeuristicSearchStatus) : string :=
  match s with
  | HEURISTIC_PROXY_OPTIMAL => "HEURISTIC_PROXY_OPTIMAL"
  | HEURISTIC_BEST_FOUND => "HEURISTIC_BEST_FOUND"
  | HEURISTIC_NO_INCUMBENT => "HEURISTIC_NO_INCUMBENT"
  | HEURISTIC_MODEL_INVALID => "HEURISTIC_MODEL_INVALID"
  | HEURISTIC_MODEL_CONTRACT_VIOLATION => "HEURISTIC_MODEL_CONTRACT_VIOLATION"
  | HEURISTIC_UNVERIFIED_INCUMBENT => "HEURISTIC_UNVERIFIED_INCUMBENT"
  end.

Inductive SelectionOutcome :=
| HEURISTIC_INCUMBENT_SELECTED | HEURISTIC_REFERENCE_DOMINATES | HEURISTIC_REFERENCE_FALLBACK.
Definition outcome_str (o : SelectionOutcome) : string :=
  match o with
  | HEURISTIC_INCUMBENT_SELECTED => "HEURISTIC_INCUMBENT_SELECTED"
  | HEURISTIC_REFERENCE_DOMINATES => "HEURISTIC_REFERENCE_DOMINATES"
  | HEURISTIC_REFERENCE_FALLBACK => "HEURISTIC_REFERENCE_FALLBACK"
  end.

Definition source_str (s : SelectedSource) : string :=
  match s with SOLVER_INCUMBENT => "SOLVER_INCUMBENT" | REFERENCE => "REFERENCE" end.
Definition selection_reason_str (r : SelectionReason) : string :=
  match r with
  | INCUMBENT_STRICTLY_BETTER => "INCUMBENT_STRICTLY_BETTER"
  | REFERENCE_EQUAL_OR_BETTER => "REFERENCE_EQUAL_OR_BETTER"
  | NO_VERIFIED_INCUMBENT => "NO_VERIFIED_INCUMBENT"
  end.

Record ExactOptimizationResult := {
  ex_search_status : ExactSearchStatus;
  ex_selected : SelectionDecision;
  ex_stage_records : list SolverStageRecord;
  highest_objective_stage_proved_optimal : Z;
  first_open_stage : option Z;
  best_supported_cost_bound : option float;
  absolute_cost_gap_cents : option float;
  relative_cost_gap : option float;
  ex_solver_configuration : SolverConfiguration;
  ex_lowering_record : LoweringRecord;
  ex_result_sha256 : string
}.

Record HeuristicOptimizationResult := {
  he_search_status : HeuristicSearchStatus;
  selection_outcome : SelectionOutcome;
  he_selected : VerifiedSchedule;
  he_incumbent : option VerifiedSchedule;
  he_reference : VerifiedSchedule;
  incumbent_proxy_pair : option (Z * Z);
  reference_proxy_pair : Z * Z;
  he_stage_records : list HeuristicStageRecord;
  he_solver_configuration : SolverConfiguration;
  he_lowering_record : LoweringRecord;
  fallback_reason : option string;
  he_result_sha256 : string
}.

(** ** The interface of CP-SAT *)
Record SatParameters := {
  num_workers : Z;
  sat_random_seed : Z;
  max_deterministic_time : float;
  randomize_search : bool;
  log_search_progress : bool
}.

(** [solver.status_name(status)], [solver.value] and [solver.best_objective_bound]
    after [solver.solve(model)]. *)
Record SolverResponse := {
  status_name : string;
  value : assignment;
  response_objective_bound : float
}.

Class OrTools := {
  ortools_version : string;
  cp_solve : SatParameters -> CpModel -> SolverResponse
}.

Definition has_incumbent (status : string) : bool := mem status ["OPTIMAL"; "FEASIBLE"].

Section Solver.
Context `{ZoneInfo} `{Sha256} `{OrTools}.

Definition default_solver_configuration : SolverConfiguration :=
  {| solver_version := ortools_version; random_seed := 20260813;
     max_deterministic_time_per_stage := float_of_int 5 |}.

Definition configured_solver (c : SolverConfiguration) : SatParameters :=
  {| num_workers := num_search_workers; sat_random_seed := random_seed c;
     max_deterministic_time := max_deterministic_time_per_stage c;
     randomize_search := false; log_search_progress := false |}.

(** ** Verified incumbents *)
Definition extract_slot (r : SolverResponse) (sv : CanonicalProfileSlot * cpvar) : result ScheduleSlot :=
  let slot := {| es_start_utc := ps_start_utc sv.1; es_duration_seconds := ps_duration_seconds sv.1;
                 es_energy_wh := value r sv.2 |} in
  _ ← raise_if (negb (energy_slot_fields_ok slot)) (ValidationError "ScheduleSlot");
  Ok slot.
Definition extract_occurrence (slots : list CanonicalProfileSlot) (r : SolverResponse)
    (entry : uuid * list cpvar) : result OccurrenceSchedule :=
  values ← mapM (extract_slot r) (zip slots entry.2);
  _ ← raise_if (negb (bool_decide (length slots = length entry.2))) (PyError "ValueError");
  _ ← raise_if (bool_decide (length values = 0%nat)) (ValidationError "OccurrenceSchedule");
  Ok {| os_occurrence_id := entry.1; os_slots := values |}.
Definition extract_candidate (lowered : LoweredScenarioModel) (validated : ValidatedScenario)
    (r : SolverResponse) : result CandidateSchedule :=
  occs ← mapM (extract_occurrence (profile_slots (scenario validated)) r) (energy_by_occurrence lowered);
  _ ← raise_if (bool_decide (length occs = 0%nat)) (ValidationError "CandidateSchedule");
  Ok {| cs_occurrences := occs |}.

(** [except ScheduleVerificationError]. *)
Definition reraise_verification {A} (m : result A) : result A :=
  match m with
  | Raise (ScheduleVerificationError _) => Raise (OptimizationExecutionError "UNVERIFIED_SOLVER_INCUMBENT")
  | _ => m
  end.

Definition solver_values (lowered : LoweredScenarioModel) (r : SolverResponse) : Z * (Z * (Z * Z)) :=
  let o := objectives lowered in
  (leval (value r) (supported_cost o), (leval (value r) (changed_occurrence_slots o),
    (leval (value r) (completion_slot_index_sum_expr o), leval (value r) (stable_slot_order_score_expr o)))).

Definition verify_solver_incumbent (lowered : LoweredScenarioModel) (validated : ValidatedScenario)
    (r : SolverResponse) (bundle : CompilationBundle) (facts : AccountFacts)
    (dated : option DatedEligibilityFacts) : result VerifiedSchedule :=
  candidate ← extract_candidate lowered validated r;
  verified ← reraise_verification
    (verify_candidate_schedule (scenario validated) candidate bundle facts dated
       (Some (leval (value r) (supported_cost (objectives lowered)))));
  _ ← raise_if (negb (bool_decide (solver_values lowered r = ordered_values (objective (record verified)))))
        (OptimizationExecutionError "SOLVER_OBJECTIVE_EXTRACTION_MISMATCH");
  Ok verified.

Definition objective_bound (r : SolverResponse) (status : string) : option float :=
  if has_incumbent status then Some (response_objective_bound r) else None.
Definition incumbent_value_of (r : SolverResponse) (expression : LinearExpr) (status : string) : option Z :=
  if has_incumbent status then Some (leval (value r) expression) else None.
Definition cast_int (v : option Z) : result Z :=
  match v with Some z => Ok z | None => Raise (OptimizationExecutionError "MISSING_PROVED_OPTIMUM") end.

(** ** One stage *)
Definition stage : Type := Z * (string * LinearExpr).

Record StageOutcome := { so_model : CpModel; so_response : SolverResponse; so_record : SolverStageRecord }.

(** Minimise the stage's expression, solve, and record what the solver says. *)
Definition solve_stage (names : list string) (c : SolverConfiguration) (item : stage) (m : CpModel)
    : result StageOutcome :=
  let '(index, (name, expression)) := item in
  let m := minimize expression m in
  let r := cp_solve (configured_solver c) m in
  let status := status_name r in
  let v := incumbent_value_of r expression status in
  rec ← validate_stage_record names
    {| stage_index := index; stage_name := name; stage_status := status; incumbent_value := v;
       best_objective_bound := objective_bound r status;
       fixed_optimum := if String.eqb status "OPTIMAL" then v else None |};
  Ok {| so_model := m; so_response := r; so_record := rec |}.

(** [if status_name in {...}: incumbent = _verify_solver_incumbent(...)]. *)
Definition stage_incumbent (lowered : LoweredScenarioModel) (validated : ValidatedScenario)
    (bundle : CompilationBundle) (facts : AccountFacts) (dated : option DatedEligibilityFacts)
    (out : StageOutcome) (current : option VerifiedSchedule) : result (option VerifiedSchedule) :=
  if has_incumbent (stage_status (so_record out))
  then verified ← verify_solver_incumbent lowered validated (so_response out) bundle facts dated;
       Ok (Some verified)
  else Ok current.

(** [lowered.model.add(expression == cast_int(fixed_optimum))]. *)
Definition fix_stage (expression : LinearExpr) (out : StageOutcome) : result CpModel :=
  optimum ← cast_int (fixed_optimum (so_record out));
  Ok (cp_add (Linear expression CmpEq (lconst optimum) None) (so_model out)).

(** ** The exact search *)
Record ExactState := {
  st_model : CpModel;
  st_records : list SolverStageRecord;
  st_incumbent : option VerifiedSchedule;
  highest_optimal : Z;
  first_open : option Z;
  search_status : ExactSearchStatus;
  primary_bound : option float
}.

(** The search status when a stage is not proved optimal. *)
Definition open_status (status : string) (inc : option VerifiedSchedule) : result ExactSearchStatus :=
  if String.eqb status "FEASIBLE" then Ok EXACT_BEST_FOUND
  else if String.eqb status "UNKNOWN"
  then Ok (match inc with Some _ => EXACT_BEST_FOUND | None => EXACT_UNKNOWN end)
  else if String.eqb status "MODEL_INVALID" then Ok EXACT_MODEL_INVALID
  else if String.eqb status "INFEASIBLE" then Ok EXACT_MODEL_CONTRACT_VIOLATION
  else Raise (OptimizationExecutionError "UNRECOGNIZED_SOLVER_STATUS").

Section Search.
Context (lowered : LoweredScenarioModel) (validated : ValidatedScenario) (bundle : CompilationBundle)
  (facts : AccountFacts) (dated : option DatedEligibilityFacts) (c : SolverConfiguration).

(** One round of the loop; the flag says whether it continues. *)
Definition exact_stage (total : Z) (item : stage) (st : ExactState) : result (ExactState * bool) :=
  let '(index, (name, expression)) := item in
  out ← solve_stage EXACT_STAGE_NAMES c item (st_model st);
  let rec := so_record out in
  let status := stage_status rec in
  let bound := if index =? 1 then best_objective_bound rec else primary_bound st in
  inc ← stage_incumbent lowered validated bundle facts dated out (st_incumbent st);
  if String.eqb status "OPTIMAL" then
    m ← fix_stage expression out;
    Ok ({| st_model := m; st_records := st_records st ++ [rec]; st_incumbent := inc;
           highest_optimal := index; first_open := first_open st;
           search_status := if index =? total then EXACT_OPTIMAL else search_status st;
           primary_bound := bound |}, true)
  else
    s ← open_status status inc;
    Ok ({| st_model := so_model out; st_records := st_records st ++ [rec]; st_incumbent := inc;
           highest_optimal := highest_optimal st; first_open := Some index; search_status := s;
           primary_bound := bound |}, false).

Fixpoint exact_stages (total : Z) (stages : list stage) (st : ExactState) : result ExactState :=
  match stages with
  | [] => Ok st
  | item :: rest =>
      out ← exact_stage total item st;
      if (out.2 : bool) then exact_stages total rest out.1 else Ok out.1
  end.

Definition exact_plan : list stage :=
  let o := objectives lowered in
  [(1, ("SUPPORTED_COST", supported_cost o));
   (2, ("CHANGED_OCCURRENCE_SLOTS", changed_occurrence_slots o));
   (3, ("COMPLETION_SLOT_INDEX_SUM", completion_slot_index_sum_expr o));
   (4, ("STABLE_SLOT_ORDER_SCORE", stable_slot_order_score_expr o))].

Definition start_exact : ExactState :=
  {| st_model := lowered_model lowered; st_records := []; st_incumbent := None; highest_optimal := 0;
     first_open := None; search_status := EXACT_UNKNOWN; primary_bound := None |}.

(** ** The heuristic search *)
Record HeuristicState := {
  hs_model : CpModel;
  hs_records : list HeuristicStageRecord;
  hs_incumbent : option VerifiedSchedule;
  hs_fallback_reason : option string;
  hs_status : HeuristicSearchStatus
}.

Definition open_heuristic (name status : string) (inc : option VerifiedSchedule)
    : HeuristicSearchStatus * string :=
  if mem status ["FEASIBLE"; "UNKNOWN"] && match inc with Some _ => true | None => false end
  then (HEURISTIC_BEST_FOUND, name +:+ "_" +:+ status)
  else if String.eqb status "MODEL_INVALID" then (HEURISTIC_MODEL_INVALID, name +:+ "_MODEL_INVALID")
  else if String.eqb status "INFEASIBLE"
  then (HEURISTIC_MODEL_CONTRACT_VIOLATION, name +:+ "_INFEASIBLE")
  else (HEURISTIC_NO_INCUMBENT, name +:+ "_" +:+ status).

Definition heuristic_stage (total : Z) (item : stage) (st : HeuristicState)
    : result (HeuristicState * bool) :=
  let '(index, (name, expression)) := item in
  out ← solve_stage HEURISTIC_STAGE_NAMES c item (hs_model st);
  let rec := so_record out in
  let status := stage_status rec in
  inc ← stage_incumbent lowered validated bundle facts dated out (hs_incumbent st);
  if String.eqb status "OPTIMAL" then
    m ← fix_stage expression out;
    Ok ({| hs_model := m; hs_records := hs_records st ++ [rec]; hs_incumbent := inc;
           hs_fallback_reason := hs_fallback_reason st;
           hs_status := if index =? total then HEURISTIC_PROXY_OPTIMAL else hs_status st |}, true)
  else
    let '(s, why) := open_heuristic name status inc in
    Ok ({| hs_model := so_model out; hs_records := hs_records st ++ [rec]; hs_incumbent := inc;
           hs_fallback_reason := Some why; hs_status := s |}, false).

Fixpoint heuristic_stages (total : Z) (stages : list stage) (st : HeuristicState)
    : result HeuristicState :=
  match stages with
  | [] => Ok st
  | item :: rest =>
      out ← heuristic_stage total item st;
      if (out.2 : bool) then heuristic_stages total rest out.1 else Ok out.1
  end.

Definition heuristic_plan : list stage :=
  let o := objectives lowered in
  [(1, ("OFF_PEAK_PROXY_RANK", proxy_rank_score o));
   (2, ("STABLE_SLOT_ORDER_SCORE", stable_slot_order_score_expr o))].

Definition start_heuristic : HeuristicState :=
  {| hs_model := lowered_model lowered; hs_records := []; hs_incumbent := None;
     hs_fallback_reason := None; hs_status := HEURISTIC_NO_INCUMBENT |}.
End Search.

(** ** Gaps and results *)
Definition cost_gaps (inc : option VerifiedSchedule) (bound : option float) : option float * option float :=
  match inc, bound with
  | Some v, Some b =>
      let cost := supported_cost_cents (objective (record v)) in
      let absolute := float_max (float_of_int 0) (float_sub (float_of_int cost) b) in
      (Some absolute, Some (float_div absolute (float_of_int (Z.max 1 (Z.abs cost)))))
  | _, _ => (None, None)
  end.

Definition verification_hash (v : VerifiedSchedule) : string := verification_sha256 (record v).

Definition exact_payload (st : ExactState) (selection : SelectionDecision) (ref : VerifiedSchedule)
    (gaps : option float * option float) (c : SolverConfiguration) (lowering_hash : string) : json :=
  JObj [("search_status", JStr (exact_status_str (search_status st)));
        ("selected_source", JStr (source_str (selected_source selection)));
        ("selection_reason", JStr (selection_reason_str (reason selection)));
        ("selected_verification_sha256", JStr (verification_hash (selected selection)));
        ("incumbent_verification_sha256", jopt (fun v => JStr (verification_hash v)) (st_incumbent st));
        ("reference_verification_sha256", JStr (verification_hash ref));
        ("stage_records", JList (StageRecord_dump <$> st_records st));
        ("highest_objective_stage_proved_optimal", JInt (highest_optimal st));
        ("first_open_stage", jopt JInt (first_open st));
        ("best_supported_cost_bound", jopt JFloat (primary_bound st));
        ("absolute_cost_gap_cents", jopt JFloat gaps.1);
        ("relative_cost_gap", jopt JFloat gaps.2);
        ("solver_configuration", SolverConfiguration_dump c);
        ("lowering_sha256", JStr lowering_hash)].

Definition exact_result (ref : VerifiedSchedule) (lowered : LoweredScenarioModel) (c : SolverConfiguration)
    (st : ExactState) : ExactOptimizationResult :=
  let selection := select_strict_improvement (st_incumbent st) ref in
  let gaps := cost_gaps (st_incumbent st) (primary_bound st) in
  {| ex_search_status := search_status st; ex_selected := selection; ex_stage_records := st_records st;
     highest_objective_stage_proved_optimal := highest_optimal st; first_open_stage := first_open st;
     best_supported_cost_bound := primary_bound st; absolute_cost_gap_cents := gaps.1;
     relative_cost_gap := gaps.2; ex_solver_configuration := c;
     ex_lowering_record := lowering_record lowered;
     ex_result_sha256 := canonical_content_sha256 "RateReplay.ExactOptimizationResult.v1"
       (exact_payload st selection ref gaps c (lowering_sha256 (lowering_record lowered))) |}.

Definition optimize_exact (validated : ValidatedScenario) (bundle : CompilationBundle)
    (facts : AccountFacts) (dated : option DatedEligibilityFacts)
    (configuration : option SolverConfiguration) : result ExactOptimizationResult :=
  let c := default default_solver_configuration configuration in
  let s := scenario validated in
  ref ← verify_candidate_schedule s (candidate_from_reference s) bundle facts dated None;
  lowered ← compile_scenario_model validated bundle facts (billing_result ref);
  let plan := exact_plan lowered in
  st ← exact_stages lowered validated bundle facts dated c (Z.of_nat (length plan)) plan
         (start_exact lowered);
  Ok (exact_result ref lowered c st).

(** [sum(slot.energy_wh * off_peak_ranks[index] ...)] and the stable score. *)
Definition occurrence_proxy (ranks : list Z) (o : OccurrenceSchedule) : result Z :=
  foldM (fun total item => rank ← py_index ranks item.1; Ok (total + es_energy_wh item.2 * rank)) 0
    (enumerate (os_slots o)).
Definition proxy_pair (v : VerifiedSchedule) (ranks : list Z) : result (Z * Z) :=
  scores ← mapM (occurrence_proxy ranks) (cs_occurrences (schedule v));
  Ok (zsum scores, stable_slot_order_score (objective (record v))).

Definition pair_json (p : Z * Z) : json := JList [JInt p.1; JInt p.2].
Definition heuristic_payload (st : HeuristicState) (outcome : SelectionOutcome) (chosen : VerifiedSchedule)
    (inc_pair : option (Z * Z)) (ref_pair : Z * Z) (c : SolverConfiguration) (l : LoweringRecord) : json :=
  JObj [("heuristic_contract_version", JStr "off-peak-heuristic-v1");
        ("search_status", JStr (heuristic_status_str (hs_status st)));
        ("selection_outcome", JStr (outcome_str outcome));
        ("selected_verification_sha256", JStr (verification_hash chosen));
        ("incumbent_proxy_pair", jopt pair_json inc_pair);
        ("reference_proxy_pair", pair_json ref_pair);
        ("stage_records", JList (StageRecord_dump <$> hs_records st));
        ("solver_configuration", SolverConfiguration_dump c);
        ("rank_calendar_sha256", JStr (rank_calendar_sha256 l));
        ("lowering_sha256", JStr (lowering_sha256 l));
        ("fallback_reason", jopt JStr (hs_fallback_reason st))].

Definition select_heuristic (inc : option VerifiedSchedule) (inc_pair : option (Z * Z))
    (ref : VerifiedSchedule) (ref_pair : Z * Z) : VerifiedSchedule * SelectionOutcome :=
  match inc, inc_pair with
  | None, _ => (ref, HEURISTIC_REFERENCE_FALLBACK)
  | Some v, Some p => if py_ltb p ref_pair then (v, HEURISTIC_INCUMBENT_SELECTED)
                      else (ref, HEURISTIC_REFERENCE_DOMINATES)
  | Some _, None => (ref, HEURISTIC_REFERENCE_DOMINATES)
  end.

Definition heuristic_result_of (ref : VerifiedSchedule) (lowered : LoweredScenarioModel)
    (c : SolverConfiguration) (st : HeuristicState) (ref_pair : Z * Z) (inc_pair : option (Z * Z))
    : HeuristicOptimizationResult :=
  let '(chosen, outcome) := select_heuristic (hs_incumbent st) inc_pair ref ref_pair in
  {| he_search_status := hs_status st; selection_outcome := outcome; he_selected := chosen;
     he_incumbent := hs_incumbent st; he_reference := ref; incumbent_proxy_pair := inc_pair;
     reference_proxy_pair := ref_pair; he_stage_records := hs_records st; he_solver_configuration := c;
     he_lowering_record := lowering_record lowered; fallback_reason := hs_fallback_reason st;
     he_result_sha256 := canonical_content_sha256 "RateReplay.OffPeakHeuristicResult.v1"
       (heuristic_payload st outcome chosen inc_pair ref_pair c (lowering_record lowered)) |}.

Definition optimize_off_peak_heuristic (validated : ValidatedScenario) (bundle : CompilationBundle)
    (facts : AccountFacts) (dated : option DatedEligibilityFacts)
    (configuration : option SolverConfiguration) : result HeuristicOptimizationResult :=
  let c := default default_solver_configuration configuration in
  let s := scenario validated in
  ref ← verify_candidate_schedule s (candidate_from_reference s) bundle facts dated None;
  lowered ← compile_scenario_model validated bundle facts (billing_result ref);
  let plan := heuristic_plan lowered in
  st ← heuristic_stages lowered validated bundle facts dated c (Z.of_nat (length plan)) plan
         (start_heuristic lowered);
  let ranks := off_peak_ranks (lowering_record lowered) in
  ref_pair ← proxy_pair ref ranks;
  inc_pair ← match hs_incumbent st with
             | Some v => p ← proxy_pair v ranks; Ok (Some p)
             | None => Ok None
             end;
  Ok (heuristic_result_of ref lowered c st ref_pair inc_pair).
End Solver.
