(* ===== verification/SolverProofs.v ===== *)
(** * SolverProofs: what the staged searches promise

    A lawful solver is one that keeps CP-SAT's documented promises on its
    statuses.  After [k] stages proved optimal, the solutions of the model are
    the schedules whose first [k] objectives are lexicographically least; the
    stages of both searches share that argument. *)

From S2P Require Import Prelude Calendar Float Json Schema Compiled Eligibility DayEnergy Replay.
From S2P Require Import CpModel OptimizerModels Scenario ScenarioProofs Verification VerificationProofs.
From S2P Require Import Lowering LoweringModel LoweringSchedules LoweringProofs LoweringExact Solver.

(** ** Lexicographic order on vectors of objectives *)
Fixpoint lex_le (x y : list Z) : Prop :=
  match x, y with
  | a :: x', b :: y' => a < b \/ (a = b /\ lex_le x' y')
  | _, _ => True
  end.

Lemma lex_le_refl x : lex_le x x.
Proof. induction x; simpl; auto. Qed.
Lemma lex_le_trans x y z : length x = length y -> length y = length z ->
  lex_le x y -> lex_le y z -> lex_le x z.
Proof.
  revert y z. induction x as [|a x IH]; intros [|b y] [|c z]; simpl; try done.
  intros H1 H2 [?|[-> Hx]] [?|[-> Hy]]; [left; lia..|right]. split; [done|]. eapply IH; [..|done|done]; lia.
Qed.
Lemma lex_le_antisym x y : length x = length y -> lex_le x y -> lex_le y x -> x = y.
Proof.
  revert y. induction x as [|a x IH]; intros [|b y]; simpl; try done.
  intros Hlen [?|[-> H1]] [?|[Hb H2]]; try lia. f_equal. apply IH; [lia|done..].
Qed.
Lemma lex_le_snoc x y u v : length x = length y ->
  lex_le (x ++ [u]) (y ++ [v]) <-> lex_le x y /\ (x = y -> u <= v).
Proof.
  revert y. induction x as [|a x IH]; intros [|b y]; simpl; try done.
  - intros _. split; [intros [?|[? _]]; (split; [done|lia])|intros [_ Hu]]. specialize (Hu eq_refl). lia.
  - intros Hlen. rewrite IH by lia. split.
    + intros [?|[-> [Hx Hu]]].
      * split; [by left|]. intros [= -> _]. lia.
      * split; [by right|]. intros [= ->]. by apply Hu.
    + intros [[?|[-> Hx]] Hu]; [by left|right]. split; [done|]. split; [done|]. intros ->. by apply Hu.
Qed.
Lemma lex_le_take k x y : length x = length y -> lex_le x y -> lex_le (take k x) (take k y).
Proof.
  revert x y. induction k as [|k IH]; intros [|a x] [|b y]; simpl; try done.
  intros Hlen [?|[-> Hx]]; [by left|right]. split; [done|]. apply IH; [lia|done].
Qed.

(** ** Lawful solvers *)
Class LawfulSolver (O : OrTools) : Prop := {
  solve_status p m : status_name (cp_solve p m) ∈ STAGE_STATUSES;
  solve_feasible p m :
    has_incumbent (status_name (cp_solve p m)) = true -> satisfies (value (cp_solve p m)) m;
  solve_optimal p m e a :
    status_name (cp_solve p m) = "OPTIMAL" -> cp_objective m = Some e -> satisfies a m ->
    leval (value (cp_solve p m)) e <= leval a e;
  solve_infeasible p m a : status_name (cp_solve p m) = "INFEASIBLE" -> ~ satisfies a m
}.

Lemma has_incumbent_true status : has_incumbent status = true <-> status = "OPTIMAL" \/ status = "FEASIBLE".
Proof. unfold has_incumbent. rewrite mem_true. set_solver. Qed.

Lemma validate_stage_record_ok names r r' :
  validate_stage_record names r = Ok r' -> r' = r /\ stage_status r ∈ STAGE_STATUSES.
Proof.
  intros Hv. unfold validate_stage_record in Hv. apply bind_ok in Hv as (u & Hu & [= <-]). split; [done|].
  apply raise_if_ok, negb_false_iff in Hu. apply andb_true_iff in Hu as [_ Hu]. by apply mem_true in Hu.
Qed.

(** The answers of a stage that is not optimal: an unlisted status is refused by
    the record before the loop looks at it. *)
Theorem unrecognized_status_refused names r r' inc :
  validate_stage_record names r = Ok r' -> stage_status r' <> "OPTIMAL" ->
  exists s, open_status (stage_status r') inc = Ok s.
Proof.
  intros [-> Hs]%validate_stage_record_ok Hne. unfold STAGE_STATUSES in Hs.
  rewrite !elem_of_cons, elem_of_nil in Hs.
  destruct Hs as [Hs|[Hs|[Hs|[Hs|[Hs|[]]]]]]; rewrite Hs in *; [done|by eexists..].
Qed.

Lemma exact_plan_names l k it : exact_plan l !! k = Some it -> it.1 = Z.of_nat k + 1 /\ it.2.1 ∈ EXACT_STAGE_NAMES.
Proof. intros Hk. do 4 (destruct k as [|k]; [injection Hk as <-; cbn; split; [lia|set_solver]|]). done. Qed.

Lemma heuristic_plan_names l k it :
  heuristic_plan l !! k = Some it -> it.1 = Z.of_nat k + 1 /\ it.2.1 ∈ HEURISTIC_STAGE_NAMES.
Proof. intros Hk. do 2 (destruct k as [|k]; [injection Hk as <-; cbn; split; [lia|set_solver]|]). done. Qed.

Section Searches.
Context `{ZoneInfo} `{Sha256} (O : OrTools) (s : ScenarioInput) (vs : ValidatedScenario)
  (bundle : CompilationBundle) (facts : AccountFacts) (dated : option DatedEligibilityFacts).

(** ** Whatever the solver answers *)
Definition verified_by (v : VerifiedSchedule) : Prop :=
  exists c claimed, candidate_fields_ok c = true /\
    verify_candidate_schedule (scenario vs) c bundle facts dated claimed = Ok v.

Lemma extract_candidate_fields l r c : extract_candidate l vs r = Ok c -> candidate_fields_ok c = true.
Proof.
  intros Hc. unfold extract_candidate in Hc. apply bind_ok in Hc as (occs & Ho & Hc).
  apply bind_ok in Hc as (u & _ & [= <-]). apply forallb_forall. intros os Hos%list_elem_of_In. cbn in Hos.
  destruct (mapM_elem_r _ _ _ _ Ho Hos) as (e & _ & He). unfold extract_occurrence in He.
  apply bind_ok in He as (values & Hv & He). apply bind_ok in He as (? & _ & He). apply bind_ok in He as (? & _ & [= <-]).
  cbn [os_slots]. apply forallb_forall. intros slot Hx%list_elem_of_In.
  destruct (mapM_elem_r _ _ _ _ Hv Hx) as (sv & _ & Hsv). unfold extract_slot in Hsv.
  apply bind_ok in Hsv as (u' & Hu & [= <-]). apply raise_if_ok in Hu. by apply negb_false_iff in Hu.
Qed.

Lemma verify_solver_incumbent_verified l r v :
  verify_solver_incumbent l vs r bundle facts dated = Ok v ->
  verified_by v /\ ordered_values (objective (record v)) = solver_values l r.
Proof.
  intros Hv. unfold verify_solver_incumbent in Hv. apply bind_ok in Hv as (c & Hc & Hv).
  apply bind_ok in Hv as (v' & Hv' & Hv). apply bind_ok in Hv as (u & Hu & [= <-]).
  apply raise_if_ok in Hu. bools. split; [|done]. unfold reraise_verification in Hv'.
  exists c. eexists. split; [by eapply extract_candidate_fields|].
  destruct (verify_candidate_schedule _ _ _ _ _ _) as [w|x] eqn:E; [by rewrite E|]. by destruct x.
Qed.

Lemma stage_incumbent_verified l out inc inc' :
  (forall v, inc = Some v -> verified_by v) ->
  stage_incumbent l vs bundle facts dated out inc = Ok inc' -> forall v, inc' = Some v -> verified_by v.
Proof.
  intros Hinc Hs v ->. unfold stage_incumbent in Hs. destruct (has_incumbent _).
  - apply bind_ok in Hs as (w & Hw & [= <-]). by apply verify_solver_incumbent_verified in Hw as [? _].
  - injection Hs as ->. by apply Hinc.
Qed.

Lemma exact_stages_verified l c total items st out :
  (forall v, st_incumbent st = Some v -> verified_by v) ->
  exact_stages l vs bundle facts dated c total items st = Ok out ->
  forall v, st_incumbent out = Some v -> verified_by v.
Proof.
  revert st. induction items as [|[index [name e]] items IH]; intros st Hst; cbn [exact_stages].
  { intros [= <-]. exact Hst. }
  intros Ho. apply bind_ok in Ho as ([st' go] & Hs & Ho). unfold exact_stage in Hs.
  apply bind_ok in Hs as (so & _ & Hs). apply bind_ok in Hs as (inc & Hinc & Hs).
  pose proof (stage_incumbent_verified _ _ _ _ Hst Hinc) as Hv. cbn [fst snd] in Ho.
  destruct (String.eqb _ _).
  - apply bind_ok in Hs as (m & _ & [= <- <-]). eapply IH; [|exact Ho]; exact Hv.
  - apply bind_ok in Hs as (x & _ & [= <- <-]). injection Ho as <-. exact Hv.
Qed.

Lemma heuristic_stages_verified l c total items st out :
  (forall v, hs_incumbent st = Some v -> verified_by v) ->
  heuristic_stages l vs bundle facts dated c total items st = Ok out ->
  forall v, hs_incumbent out = Some v -> verified_by v.
Proof.
  revert st. induction items as [|[index [name e]] items IH]; intros st Hst; cbn [heuristic_stages].
  { intros [= <-]. exact Hst. }
  intros Ho. apply bind_ok in Ho as ([st' go] & Hs & Ho). unfold heuristic_stage in Hs.
  apply bind_ok in Hs as (so & _ & Hs). apply bind_ok in Hs as (inc & Hinc & Hs).
  pose proof (stage_incumbent_verified _ _ _ _ Hst Hinc) as Hv. cbn [fst snd] in Ho.
  destruct (String.eqb _ _).
  - apply bind_ok in Hs as (m & _ & [= <- <-]). eapply IH; [|exact Ho]; exact Hv.
  - destruct (open_heuristic _ _ _). injection Hs as <- <-. injection Ho as <-. exact Hv.
Qed.

(** ** With a lawful solver *)
Context (l : LoweredScenarioModel) (ref : VerifiedSchedule) (lawful : LawfulSolver O).
Context (Hin : scenario_input_ok s) (Hvs : validate_and_decompose_scenario s = Ok vs)
  (Htariff : tariff_ok (operators (ir bundle)))
  (Href : verify_candidate_schedule s (candidate_from_reference s) bundle facts dated None = Ok ref)
  (Hl : compile_scenario_model vs bundle facts (billing_result ref) = Ok l).
Notation n := (length (profile_slots s)).
Notation slots := (profile_slots s).
Notation los := (canonical_occurrences s).

Lemma scenario_of_validated : scenario vs = s.
Proof. pose proof (proj1 (validate_scenario_ok s vs Hin) Hvs) as [_ ->]. done. Qed.

(** The schedule [v] is the verified schedule of the assignment [a]. *)
Record incumbent_of (v : VerifiedSchedule) (a : assignment) : Prop := {
  io_verified : verify_candidate_schedule s (assigned_schedule s a) bundle facts dated
                  (Some (leval a (supported_cost (objectives l)))) = Ok v;
  io_schedule : schedule v = assigned_schedule s a;
  io_values : ordered_values (objective (record v)) = objective_values l a
}.

Lemma canonical_nonempty : los <> [].
Proof.
  intros Hn. pose proof (canonical_perm s) as Hp. rewrite Hn in Hp. apply Permutation_nil in Hp.
  destruct Hin as [Hf _ _]. unfold scenario_fields_ok in Hf. bools.
  destruct (loads s) as [|ld lds] eqn:El; [done|]. cbn [forallb] in *.
  assert (load_fields_ok ld = true) as Hld by (by bools). unfold load_fields_ok in Hld. bools.
  unfold load_occurrences in Hp. cbn in Hp. destruct (occurrences ld); done.
Qed.

Lemma reference_fields_ok : candidate_fields_ok (candidate_from_reference s) = true.
Proof.
  unfold candidate_fields_ok. apply forallb_forall. intros os Hos%list_elem_of_In.
  apply list_elem_of_fmap in Hos as ([ld o] & -> & Hlo). apply canonical_elem in Hlo.
  apply elem_of_load_occurrences in Hlo as [Hld Ho]. destruct Hin as [Hf _ _]. unfold scenario_fields_ok in Hf. bools.
  match goal with E : forallb load_fields_ok _ = true |- _ =>
    rewrite forallb_forall in E; specialize (E ld (proj1 (list_elem_of_In _ _) Hld)) end.
  unfold load_fields_ok in *. bools.
  match goal with E : forallb validate_occurrence_window _ = true |- _ =>
    rewrite forallb_forall in E; specialize (E o (proj1 (list_elem_of_In _ _) Ho)) end.
  unfold validate_occurrence_window in *. by bools.
Qed.

Lemma extract_slots a id : Forall (fun p => 0 < ps_duration_seconds p) slots ->
  (forall i, 0 <= i < Z.of_nat n -> 0 <= a (energy_var id i)) ->
  forall r, value r = a ->
  mapM (extract_slot r) (zip slots (occurrence_variables n id))
  = Ok (energy_slots slots (occurrence_energy a n id)).
Proof.
  intros Hdur Hnn r <-. apply mapM_ok. unfold energy_slots, occurrence_variables, occurrence_energy, slot_energy.
  apply Forall2_same_length_lookup_2.
  { rewrite !length_zip_with, !length_fmap. done. }
  intros i [p v] e Hp He. apply zip_lookup_Some in Hp as [Hp Hv].
  apply list_lookup_fmap_Some in Hv as (j & -> & Hj).
  apply lookup_zip_with_Some in He as (p' & z & -> & Hp' & Hz). simplify_eq.
  rewrite list_lookup_fmap, Hj in Hz. injection Hz as <-.
  apply list_elem_of_lookup_2, elem_of_indices in Hj. rewrite Forall_lookup in Hdur. specialize (Hdur _ _ Hp).
  unfold extract_slot. cbn [fst snd]. unfold energy_slot_fields_ok. cbn [es_duration_seconds es_energy_wh].
  destruct (Z.ltb_spec 0 (ps_duration_seconds p)); [|lia].
  destruct (Z.leb_spec 0 (value r (energy_var id j))) as [_|Hneg]; [done|]. specialize (Hnn j Hj). lia.
Qed.

Lemma extract_assigned r : satisfies (value r) (lowered_model l) ->
  extract_candidate l vs r = Ok (assigned_schedule s (value r)).
Proof.
  intros Hsat. destruct (setting_holds s vs bundle facts dated ref l Hin Hvs Htariff Href Hl) as (t0 & d & se & pbr & Hset).
  pose proof (ls_energy _ _ _ _ _ _ (se_spec _ _ _ _ _ _ _ _ _ _ _ Hset)) as Hen.
  apply (model_sat s vs bundle facts dated ref l t0 d se pbr Hset) in Hsat as (Hocc & _ & _).
  destruct (input_slots s Hin) as [Hne Hdur]. rewrite scenario_of_validated in Hen.
  unfold extract_candidate. rewrite Hen, scenario_of_validated.
  assert (mapM (extract_occurrence slots r) (energy_dict s los) = Ok (cs_occurrences (assigned_schedule s (value r)))) as ->.
  { apply mapM_ok. unfold energy_dict, assigned_schedule. cbn [cs_occurrences]. rewrite Forall2_fmap_l, Forall2_fmap_r.
    apply Forall_Forall2_diag, Forall_forall. intros lo Hlo. unfold extract_occurrence. cbn [fst snd].
    cbv beta delta [compose]. cbn [fst snd]. rewrite (extract_slots (value r)); [|..|done].
    - cbn [mbind result_bind]. unfold occurrence_variables. rewrite length_fmap, length_indices.
      rewrite (bool_decide_eq_true_2 (n = n)) by done. cbn [negb raise_if mbind result_bind].
      rewrite bool_decide_eq_false_2; [done|]. unfold energy_slots. rewrite length_zip_with, length_occurrence_energy.
      rewrite Nat.min_id. by destruct slots.
    - eapply Forall_impl; [exact Hdur|]. by intros p [? _].
    - intros i Hi. rewrite Forall_forall in Hocc. destruct (Hocc lo Hlo) as [Hex _].
      pose proof (execution_bounds _ _ _ _ _ i Hex Hi) as [Hb _]. exact Hb. }
  cbn [mbind result_bind]. rewrite bool_decide_eq_false_2; [done|]. unfold assigned_schedule. cbn [cs_occurrences].
  rewrite length_fmap. intros Hz%nil_length_inv. by apply canonical_nonempty.
Qed.

Lemma solver_incumbent_verifies r : satisfies (value r) (lowered_model l) ->
  exists v, verify_solver_incumbent l vs r bundle facts dated = Ok v /\ incumbent_of v (value r).
Proof.
  intros Hsat. destruct (setting_holds s vs bundle facts dated ref l Hin Hvs Htariff Href Hl) as (t0 & d & se & pbr & Hset).
  destruct (solution_verifies s vs bundle facts dated ref l Hin Htariff t0 d se pbr Hset (value r) Hsat) as (v & Hv & Hs & Ho).
  exists v. split; [|by split]. unfold verify_solver_incumbent. rewrite extract_assigned by done.
  cbn [mbind result_bind]. rewrite scenario_of_validated, Hv. cbn [reraise_verification mbind result_bind].
  rewrite bool_decide_eq_true_2; [done|]. rewrite Ho. done.
Qed.

(** ** Stages *)
Section Stages.
Context (exprs : list LinearExpr) (names : list string) (c : SolverConfiguration).
Notation M0 := (lowered_model l).

Definition vector (k : nat) (a : assignment) : list Z := take k ((fun e => leval a e) <$> exprs).
(** No solution has smaller first [k] objectives than [a]. *)
Definition optimal_prefix (k : nat) (a : assignment) : Prop :=
  forall b, satisfies b M0 -> lex_le (vector k a) (vector k b).

(** An incumbent found after [k] stages were proved optimal. *)
Definition settled (k : nat) (inc : option VerifiedSchedule) : Prop :=
  match inc with
  | None => k = 0%nat
  | Some v => exists a, incumbent_of v a /\ satisfies a M0 /\ optimal_prefix k a
  end.

Record progress (k : nat) (m : CpModel) (inc : option VerifiedSchedule) : Prop := {
  pr_model a : satisfies a m <-> satisfies a M0 /\ optimal_prefix k a;
  pr_solvable : exists a, satisfies a m;
  pr_settled : settled k inc
}.

Lemma length_vector k a b : length (vector k a) = length (vector k b).
Proof. unfold vector. by rewrite !length_take, !length_fmap. Qed.

Lemma vector_S k e a : exprs !! k = Some e -> vector (S k) a = vector k a ++ [leval a e].
Proof. intros He. unfold vector. apply take_S_r. by rewrite list_lookup_fmap, He. Qed.

Lemma optimal_prefix_S k e a : exprs !! k = Some e ->
  optimal_prefix (S k) a <->
  optimal_prefix k a /\ forall b, satisfies b M0 -> vector k a = vector k b -> leval a e <= leval b e.
Proof.
  intros He. unfold optimal_prefix. split.
  - intros Ho. split; intros b Hb; specialize (Ho b Hb); rewrite !(vector_S k e) in Ho by done;
      apply lex_le_snoc in Ho as [? ?]; auto using length_vector.
  - intros [Hk He'] b Hb. rewrite !(vector_S k e) by done. apply lex_le_snoc; [apply length_vector|]. auto.
Qed.

Lemma optimal_same k a b : satisfies a M0 -> satisfies b M0 -> optimal_prefix k a -> optimal_prefix k b ->
  vector k a = vector k b.
Proof. intros Ha Hb Hoa Hob. apply lex_le_antisym; [apply length_vector|by apply Hoa|by apply Hob]. Qed.

(** Fixing a proved optimum leaves the solutions with one more optimal objective. *)
Lemma progress_optimal k m e a :
  exprs !! k = Some e -> (forall b, satisfies b m <-> satisfies b M0 /\ optimal_prefix k b) ->
  satisfies a m -> (forall b, satisfies b m -> leval a e <= leval b e) ->
  optimal_prefix (S k) a /\
  forall b, satisfies b (cp_add (Linear e CmpEq (lconst (leval a e)) None) (minimize e m)) <->
    satisfies b M0 /\ optimal_prefix (S k) b.
Proof.
  intros He Hm Ha Hmin. pose proof (proj1 (Hm a) Ha) as [Ha0 Hka].
  assert (optimal_prefix (S k) a) as Hopt.
  { rewrite (optimal_prefix_S k e) by done. split; [done|]. intros b Hb Heq. apply Hmin, Hm. split; [done|].
    intros d Hd. rewrite <- Heq. by apply Hka. }
  split; [done|]. intros b. rewrite satisfies_add, satisfies_minimize. cbn [holds cmp_holds]. rewrite leval_const, Hm.
  rewrite (optimal_prefix_S k e) by done. split.
  - intros [[Hb Hkb] Heb]. split; [done|]. split; [done|]. intros d Hd Heq. rewrite Heb. apply Hmin, Hm.
    split; [done|]. intros x Hx. rewrite <- Heq. by apply Hkb.
  - intros [Hb [Hkb Hle]]. split; [done|]. apply Z.le_antisymm.
    + apply Hle; [done|]. by apply optimal_same.
    + apply Hmin, Hm. done.
Qed.

Lemma solve_stage_ok index name e m :
  1 <= index <= Z.of_nat (length names) -> name ∈ names ->
  exists out, solve_stage names c (index, (name, e)) m = Ok out /\ so_model out = minimize e m /\
    so_response out = cp_solve (configured_solver c) (minimize e m) /\
    stage_status (so_record out) = status_name (so_response out) /\
    fixed_optimum (so_record out)
    = (if String.eqb (status_name (so_response out)) "OPTIMAL" then Some (leval (value (so_response out)) e) else None).
Proof.
  intros Hi Hn. unfold solve_stage. cbv zeta. set (r := cp_solve _ _).
  pose proof (solve_status (configured_solver c) (minimize e m)) as Hst. fold r in Hst.
  unfold validate_stage_record. cbn [stage_index stage_name stage_status].
  destruct (Z.leb_spec 1 index); [|lia]. destruct (Z.leb_spec index (Z.of_nat (length names))); [|lia].
  rewrite (proj2 (mem_true name names) Hn), (proj2 (mem_true _ STAGE_STATUSES) Hst). cbn.
  eexists. split; [reflexivity|]. cbn. repeat (split; [done|]).
  destruct (String.eqb (status_name r) "OPTIMAL") eqn:E; [|done]. apply String.eqb_eq in E.
  unfold incumbent_value_of. rewrite (proj2 (has_incumbent_true _)); [done|by left].
Qed.

(** One stage from [k] proved objectives. *)
Lemma stage_step k index name e m inc :
  progress k m inc -> exprs !! k = Some e ->
  1 <= index <= Z.of_nat (length names) -> name ∈ names ->
  exists out inc', solve_stage names c (index, (name, e)) m = Ok out /\
    stage_incumbent l vs bundle facts dated out inc = Ok inc' /\
    let status := stage_status (so_record out) in
    (status = "OPTIMAL" /\ is_Some inc' /\ exists m', fix_stage e out = Ok m' /\ progress (S k) m' inc') \/
    (status = "FEASIBLE" /\ is_Some inc' /\ settled k inc') \/
    (status ∈ ["UNKNOWN"; "MODEL_INVALID"] /\ inc' = inc).
Proof.
  intros [Hm [a0 Ha0] Hinc] He Hi Hn. destruct (solve_stage_ok index name e m Hi Hn) as (out & Ho & Hom & Hor & Hos & Hof).
  exists out. unfold stage_incumbent. rewrite Hos, Hor in *. set (r := cp_solve _ _) in *.
  pose proof (solve_status (configured_solver c) (minimize e m)) as Hst. fold r in Hst.
  pose proof (solve_feasible (configured_solver c) (minimize e m)) as Hfe. fold r in Hfe.
  rewrite satisfies_minimize in Hfe.
  destruct (has_incumbent (status_name r)) eqn:Hhas.
  - specialize (Hfe eq_refl). pose proof (proj1 (Hm _) Hfe) as [Hr0 Hrk].
    destruct (solver_incumbent_verifies r Hr0) as (v & Hv & Hvi). exists (Some v). split; [done|].
    rewrite Hv. split; [done|]. cbv zeta. apply has_incumbent_true in Hhas as [Hs|Hs].
    + left. split; [done|]. split; [done|]. unfold fix_stage. rewrite Hof, Hs, Hom. cbn.
      eexists. split; [reflexivity|].
      destruct (progress_optimal k m e (value r) He Hm Hfe) as [Hopt Hnew].
      { intros b Hb. apply (solve_optimal (configured_solver c) (minimize e m)); done. }
      split; [exact Hnew|exists (value r); by apply Hnew|]. exists (value r). done.
    + right. left. split; [done|]. split; [done|]. exists (value r). done.
  - exists inc. split; [done|]. split; [done|]. right. right. split; [|done].
    unfold STAGE_STATUSES in Hst. rewrite !elem_of_cons, elem_of_nil in Hst.
    destruct Hst as [Hs|[Hs|[Hs|[Hs|[Hs|[]]]]]]; rewrite Hs in *; try done; [set_solver..|].
    exfalso. by apply (solve_infeasible (configured_solver c) (minimize e m) a0).
Qed.

Lemma progress_start : progress 0 M0 None.
Proof.
  split; [|..|done].
  - intros a. split; [|tauto]. intros Ha. split; [done|]. intros b _. done.
  - destruct (setting_holds s vs bundle facts dated ref l Hin Hvs Htariff Href Hl) as (t0 & d & se & pbr & Hset).
    destruct (verified_is_solution s vs bundle facts dated ref l Hin Htariff t0 d se pbr Hset
      (candidate_from_reference s) None ref) as (a & Ha & _); [|done|by exists a].
    apply reference_fields_ok.
Qed.
End Stages.

(** ** The loops *)
Section Loops.
Context (plan : list stage) (names : list string) (c : SolverConfiguration).
Notation exprs := ((fun it : stage => it.2.2) <$> plan).
Notation total := (Z.of_nat (length plan)).
Context (Hplan : forall k it, plan !! k = Some it -> it.1 = Z.of_nat k + 1 /\ it.2.1 ∈ names)
  (Hnames : (length plan <= length names)%nat).

Lemma plan_step k it rest m inc :
  drop k plan = it :: rest -> progress exprs k m inc ->
  plan !! k = Some it /\ drop (S k) plan = rest /\
  exists out inc', solve_stage names c it m = Ok out /\
    stage_incumbent l vs bundle facts dated out inc = Ok inc' /\
    let status := stage_status (so_record out) in
    (status = "OPTIMAL" /\ is_Some inc' /\ exists m', fix_stage it.2.2 out = Ok m' /\ progress exprs (S k) m' inc') \/
    (status = "FEASIBLE" /\ is_Some inc' /\ settled exprs k inc') \/
    (status ∈ ["UNKNOWN"; "MODEL_INVALID"] /\ inc' = inc).
Proof.
  intros Hd Hpr. assert (plan !! k = Some it) as Hk.
  { rewrite <- (Nat.add_0_r k), <- lookup_drop, Hd. done. }
  split; [done|]. split; [rewrite (drop_S _ _ _ Hk) in Hd; by injection Hd|].
  destruct (Hplan k it Hk) as [Hi Hn]. apply lookup_lt_Some in Hk as Hlt. destruct it as [index [name e]].
  apply (stage_step exprs names c k); [done|by rewrite list_lookup_fmap, Hk|cbn in Hi; lia|done].
Qed.

Record exact_final (out : ExactState) (k : nat) : Prop := {
  ef_highest : highest_optimal out = Z.of_nat k;
  ef_settled : settled exprs k (st_incumbent out);
  ef_status :
    (search_status out = EXACT_OPTIMAL /\ k = length plan) \/
    (search_status out = EXACT_BEST_FOUND /\ (k < length plan)%nat /\ is_Some (st_incumbent out)) \/
    (search_status out = EXACT_UNKNOWN /\ (k < length plan)%nat /\ st_incumbent out = None) \/
    (search_status out = EXACT_MODEL_INVALID /\ (k < length plan)%nat)
}.

Lemma exact_stages_progress rest k st :
  names = EXACT_STAGE_NAMES -> drop k plan = rest -> (k <= length plan)%nat ->
  progress exprs k (st_model st) (st_incumbent st) -> highest_optimal st = Z.of_nat k ->
  (k = length plan -> search_status st = EXACT_OPTIMAL) ->
  exists out j, exact_stages l vs bundle facts dated c total rest st = Ok out /\ exact_final out j.
Proof.
  intros En. revert k st. induction rest as [|it rest IH]; intros k st Hd Hk Hpr Hh Hs; cbn [exact_stages].
  { assert (k = length plan) as E. { apply (f_equal length) in Hd. rewrite length_drop in Hd. cbn in Hd. lia. }
    exists st, k. split; [done|]. split; [done|apply Hpr|left; auto]. }
  destruct (plan_step k it rest _ _ Hd Hpr) as (Hit & Hd' & out & inc & Ho & Hi & Hcases).
  destruct (Hplan k it Hit) as [Hidx _]. apply lookup_lt_Some in Hit as Hlt.
  unfold exact_stage. destruct it as [index [name e]]. cbn [fst snd] in Hidx, Hcases.
  rewrite En in Ho. rewrite Ho. cbn [mbind result_bind]. rewrite Hi. cbn [mbind result_bind]. cbv zeta in Hcases.
  destruct Hcases as [(-> & Hsome & m' & Hm & Hpr')|[(-> & Hsome & Hse)|[Hst ->]]].
  - rewrite Hm. cbn [mbind result_bind String.eqb Ascii.eqb Bool.eqb fst snd]. eapply (IH (S k)); [done|lia|exact Hpr'|..].
    + cbn [highest_optimal]. lia.
    + cbn [search_status]. intros E. destruct (Z.eqb_spec index total); [done|lia].
  - cbn. eexists _, k. split; [reflexivity|]. split; [done|done|]. right. left. cbn. done.
  - rewrite !elem_of_cons, elem_of_nil in Hst. destruct Hst as [Hst|[Hst|[]]]; rewrite Hst; cbn.
    + eexists _, k. split; [reflexivity|]. split; [done|apply Hpr|]. cbn.
      destruct (st_incumbent st); [right; left|right; right; left]; cbn; done.
    + eexists _, k. split; [reflexivity|]. split; [done|apply Hpr|]. right; right; right. cbn; done.
Qed.

(** A solver that settles every model of a class settles the whole search. *)
Lemma solve_stage_inv index name e m out :
  solve_stage names c (index, (name, e)) m = Ok out ->
  so_model out = minimize e m /\
  stage_status (so_record out) = status_name (cp_solve (configured_solver c) (minimize e m)).
Proof.
  intros Ho. unfold solve_stage in Ho. apply bind_ok in Ho as (r & Hr & [= <-]).
  by apply validate_stage_record_ok in Hr as [-> _].
Qed.

Context (good : CpModel -> Prop).
Context (Hanswers : forall m e, good m -> e ∈ exprs -> (exists a, satisfies a m) ->
    status_name (cp_solve (configured_solver c) (minimize e m)) = "OPTIMAL")
  (Hkeeps : forall m e z, good m -> e ∈ exprs -> good (cp_add (Linear e CmpEq (lconst z) None) (minimize e m))).

Lemma exact_stages_complete rest k st out :
  names = EXACT_STAGE_NAMES -> drop k plan = rest -> (k <= length plan)%nat -> good (st_model st) ->
  progress exprs k (st_model st) (st_incumbent st) -> highest_optimal st = Z.of_nat k ->
  exact_stages l vs bundle facts dated c total rest st = Ok out -> highest_optimal out = total.
Proof.
  intros En. revert k st. induction rest as [|it rest IH]; intros k st Hd Hk Hg Hpr Hh; cbn [exact_stages].
  { apply (f_equal length) in Hd. rewrite length_drop in Hd. cbn in Hd. intros [= <-]. lia. }
  destruct (plan_step k it rest _ _ Hd Hpr) as (Hit & Hd' & so & inc & Ho & Hi & Hcases).
  destruct (Hplan k it Hit) as [Hidx _]. apply lookup_lt_Some in Hit as Hlt.
  assert (it.2.2 ∈ exprs) as He by (apply (list_elem_of_fmap_2 (fun it : stage => it.2.2)); by eapply list_elem_of_lookup_2).
  unfold exact_stage. destruct it as [index [name e]]. cbn [fst snd] in *.
  pose proof (solve_stage_inv _ _ _ _ _ Ho) as [Hm Hs]. rewrite En in Ho. rewrite Ho. rewrite (Hanswers _ e Hg He (pr_solvable _ _ _ _ Hpr)) in Hs.
  cbn [mbind result_bind]. rewrite Hi. cbn [mbind result_bind]. cbv zeta in Hcases. rewrite Hs in Hcases |- *.
  destruct Hcases as [(_ & _ & m' & Hm' & Hpr')|[[? _]|[Hx _]]]; [|done|set_solver].
  rewrite Hm'. cbn [mbind result_bind String.eqb Ascii.eqb Bool.eqb fst snd].
  apply (IH (S k)); [done|lia| |done|cbn [highest_optimal]; lia].
  unfold fix_stage in Hm'. apply bind_ok in Hm' as (z & _ & [= <-]). rewrite Hm. by apply Hkeeps.
Qed.

Record heuristic_final (out : HeuristicState) (k : nat) : Prop := {
  hf_settled : settled exprs k (hs_incumbent out);
  hf_status :
    (hs_status out = HEURISTIC_PROXY_OPTIMAL /\ k = length plan /\ hs_fallback_reason out = None) \/
    (hs_status out = HEURISTIC_BEST_FOUND /\ (k < length plan)%nat /\ is_Some (hs_incumbent out)) \/
    (hs_status out = HEURISTIC_NO_INCUMBENT /\ (k < length plan)%nat /\ hs_incumbent out = None) \/
    (hs_status out = HEURISTIC_MODEL_INVALID /\ (k < length plan)%nat)
}.

Lemma heuristic_stages_progress rest k st :
  names = HEURISTIC_STAGE_NAMES -> drop k plan = rest -> (k <= length plan)%nat ->
  progress exprs k (hs_model st) (hs_incumbent st) -> hs_fallback_reason st = None ->
  (k = length plan -> hs_status st = HEURISTIC_PROXY_OPTIMAL) ->
  exists out j, heuristic_stages l vs bundle facts dated c total rest st = Ok out /\ heuristic_final out j.
Proof.
  intros En. revert k st. induction rest as [|it rest IH]; intros k st Hd Hk Hpr Hf Hs; cbn [heuristic_stages].
  { assert (k = length plan) as E. { apply (f_equal length) in Hd. rewrite length_drop in Hd. cbn in Hd. lia. }
    exists st, k. split; [done|]. split; [apply Hpr|left; auto]. }
  destruct (plan_step k it rest _ _ Hd Hpr) as (Hit & Hd' & out & inc & Ho & Hi & Hcases).
  destruct (Hplan k it Hit) as [Hidx _]. apply lookup_lt_Some in Hit as Hlt.
  unfold heuristic_stage. destruct it as [index [name e]]. cbn [fst snd] in Hidx, Hcases.
  rewrite En in Ho. rewrite Ho. cbn [mbind result_bind]. rewrite Hi. cbn [mbind result_bind]. cbv zeta in Hcases.
  destruct Hcases as [(-> & Hsome & m' & Hm & Hpr')|[(-> & Hsome & Hse)|[Hst ->]]].
  - rewrite Hm. cbn [mbind result_bind String.eqb Ascii.eqb Bool.eqb fst snd]. eapply (IH (S k)); [done|lia|exact Hpr'|done|].
    cbn [hs_status]. intros E. destruct (Z.eqb_spec index total); [done|lia].
  - destruct Hsome as [v ->]. cbn. eexists _, k. split; [reflexivity|]. split; [done|]. right. left. cbn. eauto.
  - rewrite !elem_of_cons, elem_of_nil in Hst. destruct Hst as [Hst|[Hst|[]]]; rewrite Hst; cbn.
    + pose proof (pr_settled _ _ _ _ Hpr) as Hse. destruct (hs_incumbent st) eqn:Ei; cbn; eexists _, k;
        (split; [reflexivity|]); (split; [exact Hse|]); [right; left; cbn; eauto|right; right; left; cbn; done].
    + eexists _, k. split; [reflexivity|]. split; [apply Hpr|]. right; right; right. cbn; done.
Qed.
Lemma heuristic_stages_complete rest k st out :
  names = HEURISTIC_STAGE_NAMES -> drop k plan = rest -> (k <= length plan)%nat -> good (hs_model st) ->
  progress exprs k (hs_model st) (hs_incumbent st) ->
  (k = length plan -> hs_status st = HEURISTIC_PROXY_OPTIMAL) ->
  heuristic_stages l vs bundle facts dated c total rest st = Ok out -> hs_status out = HEURISTIC_PROXY_OPTIMAL.
Proof.
  intros En. revert k st. induction rest as [|it rest IH]; intros k st Hd Hk Hg Hpr Hh; cbn [heuristic_stages].
  { apply (f_equal length) in Hd. rewrite length_drop in Hd. cbn in Hd. intros [= <-]. apply Hh. lia. }
  destruct (plan_step k it rest _ _ Hd Hpr) as (Hit & Hd' & so & inc & Ho & Hi & Hcases).
  destruct (Hplan k it Hit) as [Hidx _]. apply lookup_lt_Some in Hit as Hlt.
  assert (it.2.2 ∈ exprs) as He by (apply (list_elem_of_fmap_2 (fun it : stage => it.2.2)); by eapply list_elem_of_lookup_2).
  unfold heuristic_stage. destruct it as [index [name e]]. cbn [fst snd] in *.
  pose proof (solve_stage_inv _ _ _ _ _ Ho) as [Hm Hs]. rewrite En in Ho. rewrite Ho.
  rewrite (Hanswers _ e Hg He (pr_solvable _ _ _ _ Hpr)) in Hs.
  cbn [mbind result_bind]. rewrite Hi. cbn [mbind result_bind]. cbv zeta in Hcases. rewrite Hs in Hcases |- *.
  destruct Hcases as [(_ & _ & m' & Hm' & Hpr')|[[? _]|[Hx _]]]; [|done|set_solver].
  rewrite Hm'. cbn [mbind result_bind String.eqb Ascii.eqb Bool.eqb fst snd].
  apply (IH (S k)); [done|lia| |done|].
  - unfold fix_stage in Hm'. apply bind_ok in Hm' as (z & _ & [= <-]). rewrite Hm. by apply Hkeeps.
  - cbn [hs_status]. intros E. destruct (Z.eqb_spec index total); [done|lia].
Qed.
End Loops.

Lemma exact_search c : exists out k,
  exact_stages l vs bundle facts dated c (Z.of_nat (length (exact_plan l))) (exact_plan l) (start_exact l) = Ok out /\
  exact_final (exact_plan l) out k.
Proof.
  apply (exact_stages_progress (exact_plan l) EXACT_STAGE_NAMES c) with (k := 0%nat); try done; [|cbn; lia..|apply progress_start].
  apply exact_plan_names.
Qed.

Lemma heuristic_search c : exists out k,
  heuristic_stages l vs bundle facts dated c (Z.of_nat (length (heuristic_plan l))) (heuristic_plan l)
    (start_heuristic l) = Ok out /\
  heuristic_final (heuristic_plan l) out k.
Proof.
  apply (heuristic_stages_progress (heuristic_plan l) HEURISTIC_STAGE_NAMES c) with (k := 0%nat); try done; [|cbn; lia..|apply progress_start].
  apply heuristic_plan_names.
Qed.
End Searches.
