(* ===== verification/ReferenceSolver.v ===== *)
(** * ReferenceSolver: an exhaustive solver that keeps CP-SAT's promises

    A concrete instance of the solver interface: it refuses a model that speaks
    of undeclared variables, enumerates the assignments of the declared ones and
    returns a solution with the least objective.  It shows that the promises
    asked of a solver can be kept, and completes every search. *)

From S2P Require Import Prelude Float Json Schema CpModel Solver SolverProofs.

(** ** Variables of a model *)
Definition expr_vars (e : LinearExpr) : list cpvar := (le_terms e).*2.
Definition literal_vars (o : option literal) : list cpvar :=
  match o with Some (Pos v) | Some (Not v) => [v] | None => [] end.
Definition constraint_vars (c : CpConstraint) : list cpvar :=
  match c with
  | Linear l _ r enforced => expr_vars l ++ expr_vars r ++ literal_vars enforced
  | ExactlyOne ls => ls
  | MaxEquality t es => t :: (es ≫= expr_vars)
  | DivisionEquality t e _ => t :: expr_vars e
  end.
Definition expr_closed (m : CpModel) (e : LinearExpr) : bool :=
  forallb (fun v => mem v (declared m)) (expr_vars e).
Definition model_closed (m : CpModel) : bool :=
  forallb (fun c => forallb (fun v => mem v (declared m)) (constraint_vars c)) (cp_constraints m)
  && match cp_objective m with Some e => expr_closed m e | None => true end.

(** ** Enumeration *)
Fixpoint assignments (vars : list (cpvar * (Z * Z))) : list (dict cpvar Z) :=
  match vars with
  | [] => [[]]
  | (v, (lo, hi)) :: rest =>
      d ← assignments rest; (fun x => (v, x) :: d) <$> seqZ lo (hi - lo + 1)
  end.
Definition of_dict (d : dict cpvar Z) : assignment := fun v => default 0 (dict_get v d).
Definition solutions (m : CpModel) : list (dict cpvar Z) :=
  List.filter (fun d => bool_decide (satisfies (of_dict d) m)) (assignments (cp_variables m)).

Definition objective_of (m : CpModel) (d : dict cpvar Z) : Z :=
  match cp_objective m with Some e => leval (of_dict d) e | None => 0 end.
Definition argmin (f : dict cpvar Z -> Z) (best : dict cpvar Z) (ds : list (dict cpvar Z)) : dict cpvar Z :=
  foldl (fun best d => if f d <? f best then d else best) best ds.

Definition exhaustive_solve (m : CpModel) : SolverResponse :=
  let answer status d := {| status_name := status; value := of_dict d;
                            response_objective_bound := float_of_int (objective_of m d) |} in
  if model_closed m then
    match solutions m with
    | [] => answer "INFEASIBLE" []
    | d :: ds => answer "OPTIMAL" (argmin (objective_of m) d ds)
    end
  else answer "MODEL_INVALID" [].

#[local] Instance exhaustive_solver : OrTools :=
  {| ortools_version := "reference"; cp_solve := fun _ m => exhaustive_solve m |}.

(** ** Its promises *)
Section Agree.
Context (a b : assignment).

Lemma leval_agree e : (forall v, v ∈ expr_vars e -> a v = b v) -> leval a e = leval b e.
Proof.
  intros Hv. unfold leval. f_equal. apply sum_by_ext. intros t Ht. f_equal. apply Hv.
  unfold expr_vars. by apply list_elem_of_fmap_2.
Qed.

Lemma holds_agree c : (forall v, v ∈ constraint_vars c -> a v = b v) -> holds a c -> holds b c.
Proof.
  destruct c as [l cmp r enforced|ls|t es|t e d]; cbn [constraint_vars holds]; intros Hv.
  - rewrite (leval_agree l), (leval_agree r) by set_solver. destruct enforced as [[v|v]|]; cbn in *; [..|done];
      rewrite <- (Hv v) by set_solver; done.
  - intros <-. apply sum_by_ext. intros v Hin. symmetry. by apply Hv.
  - rewrite !Forall_forall, !Exists_exists.
    assert (forall e, e ∈ es -> leval a e = leval b e) as He.
    { intros e Hin. apply leval_agree. intros v Hin'. apply Hv, elem_of_cons. right. apply list_elem_of_bind. by exists e. }
    rewrite <- (Hv t) by set_solver. intros [Hle (e & Hin & Heq)]. split.
    + intros e' Hin'. rewrite <- He by done. by apply Hle.
    + exists e. split; [done|]. by rewrite <- He.
  - rewrite (leval_agree e), (Hv t) by set_solver. done.
Qed.

Lemma satisfies_agree m : model_closed m = true -> (forall v, v ∈ declared m -> a v = b v) ->
  satisfies a m -> satisfies b m.
Proof.
  unfold model_closed. intros [Hc _]%andb_true_iff Hv [Hb Hh]. rewrite forallb_forall in Hc. split.
  - rewrite Forall_forall in *. intros d Hd. unfold in_bounds in *. rewrite <- Hv; [by apply Hb|].
    unfold declared. by apply list_elem_of_fmap_2.
  - rewrite Forall_forall in *. intros c Hin. eapply holds_agree; [|by apply Hh]. intros v Hin'.
    specialize (Hc c (proj1 (list_elem_of_In _ _) Hin)). rewrite forallb_forall in Hc. apply Hv.
    by apply mem_true, Hc, list_elem_of_In.
Qed.
End Agree.

Lemma elem_of_assignments a vars : Forall (in_bounds a) vars ->
  ((fun d : cpvar * (Z * Z) => (d.1, a d.1)) <$> vars) ∈ assignments vars.
Proof.
  induction 1 as [|[v [lo hi]] vars Hb _ IH]; cbn; [set_solver|]. unfold in_bounds in Hb. cbn in Hb.
  apply list_elem_of_bind. eexists. split; [|exact IH]. apply list_elem_of_fmap. exists (a v).
  split; [done|]. apply elem_of_seqZ. lia.
Qed.

Lemma of_dict_table (a : assignment) (vars : list cpvar) v : v ∈ vars ->
  of_dict ((fun x => (x, a x)) <$> vars) v = a v.
Proof.
  intros Hv. unfold of_dict. induction vars as [|x vars IH]; [set_solver|]. cbn.
  destruct (decide (v = x)) as [->|]; [done|]. apply IH. set_solver.
Qed.

Lemma solutions_complete m a : model_closed m = true -> satisfies a m ->
  exists d, d ∈ solutions m /\ forall v, v ∈ declared m -> of_dict d v = a v.
Proof.
  intros Hc Hs. set (d := (fun x => (x, a x)) <$> declared m).
  assert (forall v, v ∈ declared m -> of_dict d v = a v) as Hd by (intros; by apply of_dict_table).
  exists d. split; [|done]. apply list_elem_of_In, filter_In. split.
  - apply list_elem_of_In. unfold d, declared. rewrite <- list_fmap_compose. apply elem_of_assignments. apply Hs.
  - apply bool_decide_eq_true. eapply satisfies_agree; [done| |exact Hs]. intros v Hv. symmetry. by apply Hd.
Qed.

Lemma argmin_spec f best ds :
  argmin f best ds ∈ best :: ds /\ forall d, d ∈ best :: ds -> f (argmin f best ds) <= f d.
Proof.
  unfold argmin. revert best. induction ds as [|d ds IH]; intros best; cbn [foldl].
  { split; [set_solver|]. intros d Hd. apply list_elem_of_singleton in Hd as ->. lia. }
  destruct (IH (if f d <? f best then d else best)) as [H1 H2]. destruct (Z.ltb_spec (f d) (f best)).
  - split; [set_solver|]. intros x Hx. specialize (H2 d ltac:(set_solver)) as Hd.
    apply elem_of_cons in Hx as [->|Hx]; [lia|by apply H2].
  - split; [set_solver|]. intros x Hx. specialize (H2 best ltac:(set_solver)) as Hb.
    apply elem_of_cons in Hx as [->|Hx]; [lia|]. apply elem_of_cons in Hx as [->|Hx]; [lia|]. apply H2. set_solver.
Qed.

Lemma elem_of_solutions m d : d ∈ solutions m -> satisfies (of_dict d) m.
Proof. intros Hd. apply list_elem_of_In, filter_In in Hd as [_ Hd]. by apply bool_decide_eq_true in Hd. Qed.

Lemma exhaustive_complete p m : model_closed m = true -> (exists a, satisfies a m) ->
  status_name (cp_solve p m) = "OPTIMAL".
Proof.
  intros Hc [a Ha]. cbn. unfold exhaustive_solve. rewrite Hc.
  destruct (solutions_complete m a Hc Ha) as (d & Hd & _). by destruct (solutions m); [set_solver|].
Qed.

#[export] Instance exhaustive_lawful : LawfulSolver exhaustive_solver.
Proof.
  split; intros p m; cbn; unfold exhaustive_solve; destruct (model_closed m) eqn:Hc; cbn; try done.
  - destruct (solutions m); cbn; set_solver.
  - set_solver.
  - destruct (solutions m) as [|d ds] eqn:Es; cbn; [done|]. intros _. apply elem_of_solutions. rewrite Es.
    apply argmin_spec.
  - intros e a. destruct (solutions m) as [|d ds] eqn:Es; cbn; [done|]. intros _ Ho Ha.
    destruct (solutions_complete m a Hc Ha) as (x & Hx & Hagree). rewrite Es in Hx.
    pose proof (proj2 (argmin_spec (objective_of m) d ds) x Hx) as Hle. unfold objective_of in Hle at 1 3.
    rewrite Ho in Hle. etransitivity; [exact Hle|]. apply Z.eq_le_incl, leval_agree. intros v Hv. apply Hagree.
    unfold model_closed in Hc. rewrite Ho in Hc. apply andb_true_iff in Hc as [_ Hc]. unfold expr_closed in Hc.
    rewrite forallb_forall in Hc. by apply mem_true, Hc, list_elem_of_In.
  - intros a. destruct (solutions m) as [|d ds] eqn:Es; cbn; [|done]. intros _ Ha.
    destruct (solutions_complete m a Hc Ha) as (x & Hx & _). rewrite Es in Hx. set_solver.
Qed.

(** ** Complete searches *)
Definition closed_for (exprs : list LinearExpr) (m : CpModel) : Prop :=
  model_closed m = true /\ Forall (fun e => expr_closed m e = true) exprs.

Lemma closed_for_minimize exprs m e : closed_for exprs m -> e ∈ exprs -> model_closed (minimize e m) = true.
Proof.
  intros [Hc He] Hin. rewrite Forall_forall in He. unfold model_closed in *. cbn [cp_constraints cp_objective minimize].
  apply andb_true_iff in Hc as [Hc _]. apply andb_true_iff. split; [exact Hc|exact (He e Hin)].
Qed.

Lemma closed_for_fix exprs m e z : closed_for exprs m -> e ∈ exprs ->
  closed_for exprs (cp_add (Linear e CmpEq (lconst z) None) (minimize e m)).
Proof.
  intros Hc Hin. pose proof (closed_for_minimize _ _ _ Hc Hin) as Hm. destruct Hc as [_ He]. split; [|exact He].
  unfold model_closed in *. cbn [cp_constraints cp_objective minimize cp_add] in *.
  apply andb_true_iff in Hm as [H1 H2]. apply andb_true_iff. split; [|exact H2].
  rewrite forallb_app. apply andb_true_iff. split; [exact H1|]. cbn. rewrite !app_nil_r.
  rewrite Forall_forall in He. rewrite andb_true_r. exact (He e Hin).
Qed.
