(* ===== verification/SolverTheorems.v ===== *)
(** * SolverTheorems: the searches return, are optimal and fail closed

    With any solver whatsoever, a search returns only schedules that the
    independent verifier accepted and that are no worse than the reference; with
    a lawful solver it always returns, and what it says about optimality is true
    of all the schedules the verifier accepts. *)

From S2P Require Import Prelude Calendar Float Json Schema Compiled Fixtures Eligibility DayEnergy Replay.
From S2P Require Import CpModel OptimizerModels Scenario ScenarioProofs Verification VerificationProofs.
From S2P Require Import Lowering LoweringModel LoweringSchedules LoweringProofs LoweringExact LoweringTheorems.
From S2P Require Import Solver SolverProofs ReferenceSolver.

(** Membership in an explicit list. *)

(** The objective tuple of a verified schedule as a vector. *)
Definition tuple_list (t : Z * (Z * (Z * Z))) : list Z := [t.1; t.2.1; t.2.2.1; t.2.2.2].
Definition objective_vector (v : VerifiedSchedule) : list Z := tuple_list (ordered_values (objective (record v))).

Lemma py_leb_lex x y : py_leb x y = true <-> lex_le (tuple_list x) (tuple_list y).
Proof.
  destruct x as [a [b [c d]]], y as [a' [b' [c' d']]]. unfold py_leb. cbn.
  destruct (Z.compare_spec a a'), (Z.compare_spec b b'), (Z.compare_spec c c'), (Z.compare_spec d d');
    intuition (done || lia).
Qed.
Lemma py_leb_pair_lex (x y : Z * Z) : py_leb x y = true <-> lex_le [x.1; x.2] [y.1; y.2].
Proof.
  destruct x as [a b], y as [a' b']. unfold py_leb. cbn.
  destruct (Z.compare_spec a a'), (Z.compare_spec b b'); intuition (done || lia).
Qed.
Lemma py_ltb_false {K} `{PyOrd K} (x y : K) : py_ltb x y = false -> py_leb y x = true.
Proof. rewrite py_ltb_leb. apply negb_false_iff. Qed.
Lemma py_ltb_le {K} `{PyOrd K} (x y : K) : py_ltb x y = true -> py_leb x y = true.
Proof. unfold py_ltb, py_leb. by destruct (py_cmp x y). Qed.

(** ** Proxy pairs *)
Lemma occurrence_proxy_ok slots es ranks id :
  length es = length slots -> length ranks = length slots ->
  occurrence_proxy ranks {| os_occurrence_id := id; os_slots := energy_slots slots es |}
  = Ok (zsum (zip_with Z.mul es ranks)).
Proof.
  intros He Hr. unfold occurrence_proxy. cbn [os_slots].
  assert (forall k acc, (k <= length ranks)%nat -> length es = length slots -> length (drop k ranks) = length slots ->
    foldM (fun total (item : Z * EnergySlot) => rank ← py_index ranks item.1; Ok (total + es_energy_wh item.2 * rank)) acc
      (enumerate_from (Z.of_nat k) (energy_slots slots es))
    = Ok (acc + zsum (zip_with Z.mul es (drop k ranks)))) as Hgo.
  { clear He Hr. revert es. induction slots as [|p slots IH]; intros [|e es] k acc Hk He Hd; try done.
    - cbn. f_equal. lia.
    - unfold energy_slots. cbn [zip_with enumerate_from foldM fst snd].
      destruct (lookup_lt_is_Some_2 ranks k) as [r Hrk]; [rewrite length_drop in Hd; cbn in Hd; lia|].
      rewrite (proj2 (py_index_ok ranks (Z.of_nat k) r)) by (by rewrite Nat2Z.id). cbn [mbind result_bind es_energy_wh].
      replace (Z.of_nat k + 1) with (Z.of_nat (S k)) by lia. change (zip_with _ slots es) with (energy_slots slots es).
      rewrite (drop_S _ _ _ Hrk) in Hd |- *. cbn [length] in Hd, He. cbn [zip_with].
      apply lookup_lt_Some in Hrk. rewrite IH by lia. f_equal.
      change (zsum (?x :: ?l)) with (x + zsum l). lia. }
  specialize (Hgo 0%nat 0 ltac:(lia) He). rewrite drop_0 in Hgo. apply Hgo. done.
Qed.

(** ** With any solver *)
Section AnySolver.
Context `{ZoneInfo} `{Sha256} (O : OrTools) (vs : ValidatedScenario)
  (bundle : CompilationBundle) (facts : AccountFacts) (dated : option DatedEligibilityFacts)
  (configuration : option SolverConfiguration).

Lemma optimize_exact_inv r : optimize_exact vs bundle facts dated configuration = Ok r ->
  exists ref l st, 
    verify_candidate_schedule (scenario vs) (candidate_from_reference (scenario vs)) bundle facts dated None = Ok ref /\
    compile_scenario_model vs bundle facts (billing_result ref) = Ok l /\
    exact_stages l vs bundle facts dated (default default_solver_configuration configuration)
      (Z.of_nat (length (exact_plan l))) (exact_plan l) (start_exact l) = Ok st /\
    r = exact_result ref l (default default_solver_configuration configuration) st.
Proof.
  intros Hr. unfold optimize_exact in Hr. apply bind_ok in Hr as (ref & Href & Hr).
  apply bind_ok in Hr as (l & Hl & Hr). apply bind_ok in Hr as (st & Hst & [= <-]). by exists ref, l, st.
Qed.

Lemma optimize_heuristic_inv r : optimize_off_peak_heuristic vs bundle facts dated configuration = Ok r ->
  exists ref l st ref_pair inc_pair,
    verify_candidate_schedule (scenario vs) (candidate_from_reference (scenario vs)) bundle facts dated None = Ok ref /\
    compile_scenario_model vs bundle facts (billing_result ref) = Ok l /\
    heuristic_stages l vs bundle facts dated (default default_solver_configuration configuration)
      (Z.of_nat (length (heuristic_plan l))) (heuristic_plan l) (start_heuristic l) = Ok st /\
    proxy_pair ref (off_peak_ranks (lowering_record l)) = Ok ref_pair /\
    match hs_incumbent st with
    | Some v => exists p, inc_pair = Some p /\ proxy_pair v (off_peak_ranks (lowering_record l)) = Ok p
    | None => inc_pair = None
    end /\
    r = heuristic_result_of ref l (default default_solver_configuration configuration) st ref_pair inc_pair.
Proof.
  intros Hr. unfold optimize_off_peak_heuristic in Hr. apply bind_ok in Hr as (ref & Href & Hr).
  apply bind_ok in Hr as (l & Hl & Hr). apply bind_ok in Hr as (st & Hst & Hr).
  apply bind_ok in Hr as (rp & Hrp & Hr). apply bind_ok in Hr as (ip & Hip & [= <-]).
  exists ref, l, st, rp, ip. do 4 (split; [done|]). split; [|done]. destruct (hs_incumbent st) as [v|].
  - apply bind_ok in Hip as (p & Hp & [= <-]). by exists p.
  - by injection Hip as <-.
Qed.

Notation verified := (verified_by vs bundle facts dated).
Context (Hscenario : scenario_input_ok (scenario vs)).

Lemma reference_verified ref :
  verify_candidate_schedule (scenario vs) (candidate_from_reference (scenario vs)) bundle facts dated None = Ok ref ->
  verified ref.
Proof. intros Href. exists (candidate_from_reference (scenario vs)), None. split; [by apply reference_fields_ok|done]. Qed.

Lemma exact_selected_verified r :
  optimize_exact vs bundle facts dated configuration = Ok r ->
  verified (selected (ex_selected r)) /\ verified (reference (ex_selected r)).
Proof.
  intros (ref & l & st & Href & Hl & Hst & ->)%optimize_exact_inv. cbn [ex_selected exact_result].
  pose proof (reference_verified ref Href) as Hv.
  assert (forall v, st_incumbent st = Some v -> verified v) as Hinc
    by (eapply exact_stages_verified; [|exact Hst]; done).
  unfold select_strict_improvement. destruct (st_incumbent st) as [v|]; [|done].
  destruct (py_ltb _ _); split; (by apply Hinc) || done.
Qed.

Lemma heuristic_selected_verified r :
  optimize_off_peak_heuristic vs bundle facts dated configuration = Ok r ->
  verified (he_selected r) /\ verified (he_reference r).
Proof.
  intros (ref & l & st & rp & ip & Href & Hl & Hst & Hrp & Hip & ->)%optimize_heuristic_inv.
  pose proof (reference_verified ref Href) as Hv.
  assert (forall v, hs_incumbent st = Some v -> verified v) as Hinc
    by (eapply heuristic_stages_verified; [|exact Hst]; done).
  unfold heuristic_result_of. destruct (hs_incumbent st) as [v|] eqn:Ei; [|done].
  destruct Hip as (p & -> & Hp). cbn [select_heuristic]. destruct (py_ltb p rp); cbn; auto.
Qed.

Lemma exact_selected_no_worse r :
  optimize_exact vs bundle facts dated configuration = Ok r ->
  py_leb (ordered_values (objective (record (selected (ex_selected r)))))
    (ordered_values (objective (record (reference (ex_selected r))))) = true.
Proof.
  intros (ref & l & st & Href & Hl & Hst & ->)%optimize_exact_inv. cbn [ex_selected exact_result].
  assert (reference (select_strict_improvement (st_incumbent st) ref) = ref) as ->; [|apply selected_le].
  unfold select_strict_improvement. destruct (st_incumbent st); [|done]. by destruct (py_ltb _ _).
Qed.

(** C12: the exact search fails closed.  Whatever a solver answers, right or
    wrong, the schedule selected by [optimize_exact] was accepted by the
    independent verifier, and its recomputed objective tuple is no worse than
    that of the unchanged reference, which was verified as well. *)
Theorem exact_selection_verified r :
  optimize_exact vs bundle facts dated configuration = Ok r ->
  verified (selected (ex_selected r)) /\ verified (reference (ex_selected r)) /\
  py_leb (ordered_values (objective (record (selected (ex_selected r)))))
    (ordered_values (objective (record (reference (ex_selected r))))) = true.
Proof.
  intros Hr. destruct (exact_selected_verified r Hr) as [Hs Hv]. split; [done|]. split; [done|].
  by apply exact_selected_no_worse.
Qed.

(** The heuristic fails closed.  Whatever a solver answers, the schedule
    selected by [optimize_off_peak_heuristic] was accepted by the independent
    verifier, and its proxy pair is no worse than the reference's. *)
Theorem heuristic_selection_verified r :
  optimize_off_peak_heuristic vs bundle facts dated configuration = Ok r ->
  verified (he_selected r) /\ verified (he_reference r) /\
  exists p, proxy_pair (he_selected r) (off_peak_ranks (he_lowering_record r)) = Ok p /\
    py_leb p (reference_proxy_pair r) = true.
Proof.
  intros Hr. destruct (heuristic_selected_verified r Hr) as [Hs Hv]. split; [done|]. split; [done|].
  apply optimize_heuristic_inv in Hr as (ref & l & st & rp & ip & Href & Hl & Hst & Hrp & Hip & ->).
  clear Hs Hv. unfold heuristic_result_of. destruct (hs_incumbent st) as [v|].
  - destruct Hip as (p & -> & Hp). cbn [select_heuristic]. destruct (py_ltb p rp) eqn:E; cbn.
    + exists p. split; [done|by apply py_ltb_le].
    + exists rp. split; [done|apply py_leb_refl].
  - cbn. exists rp. split; [done|apply py_leb_refl].
Qed.
End AnySolver.

(** ** With a lawful solver *)
Section Lawful.
Context `{ZoneInfo} `{Sha256} (O : OrTools) (s : ScenarioInput) (vs : ValidatedScenario)
  (bundle : CompilationBundle) (facts : AccountFacts) (dated : option DatedEligibilityFacts)
  (configuration : option SolverConfiguration).
Context (lawful : LawfulSolver O) (Hin : scenario_input_ok s) (Hvs : validate_and_decompose_scenario s = Ok vs)
  (Htariff : tariff_ok (operators (ir bundle))).

Lemma validated_scenario : scenario vs = s.
Proof. by pose proof (proj1 (validate_scenario_ok s vs Hin) Hvs) as [_ ->]. Qed.

(** C13: the exact search returns.  If the reference verifies and the scenario
    lowers, a solver that keeps its promises cannot make [optimize_exact] raise:
    no incumbent is rejected, no objective differs from its recomputation, the
    model is never reported infeasible, and a search that ends [OPTIMAL] or
    [BEST_FOUND] has a verified incumbent. *)
Theorem exact_search_returns ref l :
  verify_candidate_schedule s (candidate_from_reference s) bundle facts dated None = Ok ref ->
  compile_scenario_model vs bundle facts (billing_result ref) = Ok l ->
  exists r, optimize_exact vs bundle facts dated configuration = Ok r /\
    ex_search_status r ∈ [EXACT_OPTIMAL; EXACT_BEST_FOUND; EXACT_UNKNOWN; EXACT_MODEL_INVALID] /\
    (ex_search_status r ∈ [EXACT_OPTIMAL; EXACT_BEST_FOUND] -> is_Some (incumbent (ex_selected r))).
Proof.
  intros Href Hl. destruct (exact_search O s vs bundle facts dated l ref lawful Hin Hvs Htariff Href Hl
    (default default_solver_configuration configuration)) as (st & k & Hst & Hf).
  eexists. split.
  { unfold optimize_exact. rewrite validated_scenario, Href. cbn [mbind result_bind]. rewrite Hl. cbn [mbind result_bind].
    rewrite Hst. reflexivity. }
  cbn [ex_search_status ex_selected exact_result].
  assert (incumbent (select_strict_improvement (st_incumbent st) ref) = st_incumbent st) as ->.
  { unfold select_strict_improvement. destruct (st_incumbent st); [|done]. by destruct (py_ltb _ _). }
  destruct (ef_status _ _ _ _ _ _ _ _ Hf) as [[-> ->]|[(-> & _ & Hs)|[(-> & _ & _)|(-> & _)]]].
  - split; [in_list|]. intros _. pose proof (ef_settled _ _ _ _ _ _ _ _ Hf) as Hse.
    destruct (st_incumbent st); [done|]. by cbn in Hse.
  - split; [in_list|done].
  - split; [in_list|]. intros Hx. by rewrite !elem_of_cons, elem_of_nil in Hx; destruct Hx as [?|[?|[]]].
  - split; [in_list|]. intros Hx. by rewrite !elem_of_cons, elem_of_nil in Hx; destruct Hx as [?|[?|[]]].
Qed.

Lemma exact_optimal_prefix r c claimed v :
  optimize_exact vs bundle facts dated configuration = Ok r ->
  candidate_fields_ok c = true -> verify_candidate_schedule s c bundle facts dated claimed = Ok v ->
  let k := Z.to_nat (highest_objective_stage_proved_optimal r) in
  lex_le (take k (objective_vector (selected (ex_selected r)))) (take k (objective_vector v)) /\
  (ex_search_status r = EXACT_OPTIMAL <-> highest_objective_stage_proved_optimal r = 4).
Proof.
  intros (ref & l & st & Href & Hl & Hst & ->)%optimize_exact_inv Hc Hv k. rewrite validated_scenario in Href.
  destruct (exact_search O s vs bundle facts dated l ref lawful Hin Hvs Htariff Href Hl
    (default default_solver_configuration configuration)) as (st' & j & Hst' & Hf).
  rewrite Hst in Hst'. injection Hst' as <-.
  destruct (setting_holds s vs bundle facts dated ref l Hin Hvs Htariff Href Hl) as (t0 & d & se & pbr & Hset).
  destruct (verified_is_solution s vs bundle facts dated ref l Hin Htariff t0 d se pbr Hset c claimed v Hc Hv) as (b & Hb & _ & Hvb).
  assert (k = j) as -> by (unfold k; cbn; rewrite (ef_highest _ _ _ _ _ _ _ _ Hf); lia).
  split.
  - cbn [ex_selected exact_result]. pose proof (ef_settled _ _ _ _ _ _ _ _ Hf) as Hse.
    unfold select_strict_improvement. destruct (st_incumbent st) as [i|]; [|cbn in Hse; by rewrite Hse].
    destruct Hse as (a & Hia & Ha & Hopt). specialize (Hopt b Hb).
    assert (lex_le (take j (objective_vector i)) (take j (objective_vector v))) as Hiv.
    { unfold objective_vector. rewrite (io_values _ _ _ _ _ _ _ Hia), Hvb. exact Hopt. }
    destruct (py_ltb _ _) eqn:E; cbn [selected]; [done|].
    apply py_ltb_false, py_leb_lex, (lex_le_take j) in E; [|done].
    eapply lex_le_trans; [..|exact E|exact Hiv]; by rewrite !length_take.
  - cbn [ex_search_status highest_objective_stage_proved_optimal exact_result].
    rewrite (ef_highest _ _ _ _ _ _ _ _ Hf).
    destruct (ef_status _ _ _ _ _ _ _ _ Hf) as [[-> ->]|[(-> & Hk & _)|[(-> & Hk & _)|(-> & Hk)]]];
      [done|cbn in Hk; split; [done|lia]..].
Qed.

(** C11: what the exact search claims about optimality is true.  If
    [optimize_exact] reports [k] stages proved optimal, the first [k]
    objectives of the selected schedule are lexicographically least among all
    the schedules the verifier accepts; and the search ends [OPTIMAL] exactly
    when all four stages are proved. *)
Theorem exact_search_optimal r c claimed v :
  optimize_exact vs bundle facts dated configuration = Ok r ->
  candidate_fields_ok c = true -> verify_candidate_schedule s c bundle facts dated claimed = Ok v ->
  let k := Z.to_nat (highest_objective_stage_proved_optimal r) in
  lex_le (take k (objective_vector (selected (ex_selected r)))) (take k (objective_vector v)) /\
  (ex_search_status r = EXACT_OPTIMAL <-> highest_objective_stage_proved_optimal r = 4).
Proof. apply exact_optimal_prefix. Qed.

Lemma proxy_pair_values ref l a v :
  verify_candidate_schedule s (candidate_from_reference s) bundle facts dated None = Ok ref ->
  compile_scenario_model vs bundle facts (billing_result ref) = Ok l ->
  schedule v = assigned_schedule s a -> ordered_values (objective (record v)) = objective_values l a ->
  proxy_pair v (off_peak_ranks (lowering_record l))
  = Ok (leval a (proxy_rank_score (objectives l)), leval a (stable_slot_order_score_expr (objectives l))).
Proof.
  intros Href Hl Hs Ho.
  destruct (setting_holds s vs bundle facts dated ref l Hin Hvs Htariff Href Hl) as (t0 & d & se & pbr & Hset).
  pose proof (se_spec _ _ _ _ _ _ _ _ _ _ _ Hset) as Hspec. pose proof (ls_ranks _ _ _ _ _ _ Hspec) as Hr.
  pose proof (ls_proxy _ _ _ _ _ _ Hspec a) as Hp. rewrite validated_scenario in Hr, Hp.
  unfold proxy_pair. rewrite Hs, Hp.
  assert (mapM (occurrence_proxy (off_peak_ranks (lowering_record l))) (cs_occurrences (assigned_schedule s a))
    = Ok ((fun lo => zsum (zip_with Z.mul (occurrence_energy a (length (profile_slots s)) (lo_id lo))
                            (off_peak_ranks (lowering_record l)))) <$> canonical_occurrences s)) as ->.
  { apply mapM_ok. unfold assigned_schedule. cbn [cs_occurrences]. rewrite Forall2_fmap_l, Forall2_fmap_r.
    apply Forall_Forall2_diag, Forall_forall. intros lo _. apply occurrence_proxy_ok; [apply length_occurrence_energy|done]. }
  cbn [mbind result_bind]. unfold ordered_values, objective_values in Ho. by injection Ho as _ _ _ ->.
Qed.

Lemma verified_pairs ref l :
  verify_candidate_schedule s (candidate_from_reference s) bundle facts dated None = Ok ref ->
  compile_scenario_model vs bundle facts (billing_result ref) = Ok l ->
  forall c claimed v, candidate_fields_ok c = true ->
  verify_candidate_schedule s c bundle facts dated claimed = Ok v ->
  exists b, satisfies b (lowered_model l) /\ proxy_pair v (off_peak_ranks (lowering_record l))
    = Ok (leval b (proxy_rank_score (objectives l)), leval b (stable_slot_order_score_expr (objectives l))).
Proof.
  intros Href Hl c claimed v Hc Hv.
  destruct (setting_holds s vs bundle facts dated ref l Hin Hvs Htariff Href Hl) as (t0 & d & se & pbr & Hset).
  destruct (verified_is_solution s vs bundle facts dated ref l Hin Htariff t0 d se pbr Hset c claimed v Hc Hv)
    as (b & Hb & Hs & Ho). exists b. split; [done|]. by apply (proxy_pair_values ref).
Qed.

Lemma heuristic_optimal_pair ref l :
  verify_candidate_schedule s (candidate_from_reference s) bundle facts dated None = Ok ref ->
  compile_scenario_model vs bundle facts (billing_result ref) = Ok l ->
  exists r q, optimize_off_peak_heuristic vs bundle facts dated configuration = Ok r /\
    proxy_pair (he_selected r) (off_peak_ranks (he_lowering_record r)) = Ok q /\
    he_search_status r
    ∈ [HEURISTIC_PROXY_OPTIMAL; HEURISTIC_BEST_FOUND; HEURISTIC_NO_INCUMBENT; HEURISTIC_MODEL_INVALID] /\
    (he_search_status r = HEURISTIC_PROXY_OPTIMAL ->
     forall c claimed v, candidate_fields_ok c = true ->
       verify_candidate_schedule s c bundle facts dated claimed = Ok v ->
       exists p, proxy_pair v (off_peak_ranks (he_lowering_record r)) = Ok p /\ py_leb q p = true).
Proof.
  intros Href Hl. destruct (heuristic_search O s vs bundle facts dated l ref lawful Hin Hvs Htariff Href Hl
    (default default_solver_configuration configuration)) as (st & k & Hst & Hf).
  pose proof (verified_pairs ref l Href Hl) as Hpairs.
  destruct (Hpairs _ _ ref (reference_fields_ok s Hin) Href) as (b0 & Hb0 & Hrp).
  set (rp := (leval b0 _, leval b0 _)) in Hrp.
  assert (hs_status st ∈ [HEURISTIC_PROXY_OPTIMAL; HEURISTIC_BEST_FOUND; HEURISTIC_NO_INCUMBENT; HEURISTIC_MODEL_INVALID]) as Hstat.
  { destruct (hf_status _ _ _ _ _ _ _ _ Hf) as [(-> & _)|[(-> & _)|[(-> & _)|(-> & _)]]]; in_list. }
  pose proof (hf_settled _ _ _ _ _ _ _ _ Hf) as Hse.
  assert (Hrun : optimize_off_peak_heuristic vs bundle facts dated configuration
    = (inc_pair ← match hs_incumbent st with
                  | Some v => p ← proxy_pair v (off_peak_ranks (lowering_record l)); Ok (Some p)
                  | None => Ok None end;
       Ok (heuristic_result_of ref l (default default_solver_configuration configuration) st rp inc_pair))).
  { unfold optimize_off_peak_heuristic. rewrite validated_scenario, Href. cbn [mbind result_bind]. rewrite Hl.
    cbn [mbind result_bind]. rewrite Hst. cbn [mbind result_bind]. by rewrite Hrp. }
  rewrite Hrun. clear Hrun. unfold heuristic_result_of. destruct (hs_incumbent st) as [i|].
  - destruct Hse as (a & Hia & Ha & Hopt).
    rewrite (proxy_pair_values ref l a i Href Hl (io_schedule _ _ _ _ _ _ _ Hia) (io_values _ _ _ _ _ _ _ Hia)).
    cbn [mbind result_bind select_heuristic]. set (q := (leval a _, leval a _)).
    assert (hs_status st = HEURISTIC_PROXY_OPTIMAL -> forall b, satisfies b (lowered_model l) ->
      py_leb q (leval b (proxy_rank_score (objectives l)), leval b (stable_slot_order_score_expr (objectives l))) = true) as Hbest.
    { intros Es b Hb. apply py_leb_pair_lex.
      destruct (hf_status _ _ _ _ _ _ _ _ Hf) as [(_ & -> & _)|[(E & _)|[(E & _)|(E & _)]]]; [|congruence..].
      specialize (Hopt b Hb). exact Hopt. }
    destruct (py_ltb q rp) eqn:E; eexists; [exists q|exists rp]; (split; [reflexivity|]); cbn.
    + split; [by apply (proxy_pair_values ref); [..|apply Hia|apply Hia]|]. split; [done|]. intros Es c claimed v Hc Hv.
      destruct (Hpairs c claimed v Hc Hv) as (b & Hb & Hp). eexists. split; [exact Hp|]. by apply Hbest.
    + split; [done|]. split; [done|]. intros Es c claimed v Hc Hv.
      destruct (Hpairs c claimed v Hc Hv) as (b & Hb & Hp). eexists. split; [exact Hp|].
      apply py_leb_trans with q; [by apply py_ltb_false|by apply Hbest].
  - cbn [mbind result_bind select_heuristic]. eexists. exists rp. split; [reflexivity|]. cbn. split; [done|]. split; [done|].
    intros Es. cbn in Hse. destruct (hf_status _ _ _ _ _ _ _ _ Hf) as [(_ & E & _)|[(E & _)|[(E & _)|(E & _)]]]; [|congruence..].
    by rewrite Hse in E.
Qed.

(** The heuristic search returns, and what it claims of the proxy is true.
    If the reference verifies and the scenario lowers, a solver that keeps its
    promises cannot make [optimize_off_peak_heuristic] raise; when the result is
    [HEURISTIC_PROXY_OPTIMAL], no schedule the verifier accepts has a smaller
    pair of proxy rank and stable score than the selected one. *)
Theorem heuristic_search_optimal ref l :
  verify_candidate_schedule s (candidate_from_reference s) bundle facts dated None = Ok ref ->
  compile_scenario_model vs bundle facts (billing_result ref) = Ok l ->
  exists r q, optimize_off_peak_heuristic vs bundle facts dated configuration = Ok r /\
    proxy_pair (he_selected r) (off_peak_ranks (he_lowering_record r)) = Ok q /\
    he_search_status r
    ∈ [HEURISTIC_PROXY_OPTIMAL; HEURISTIC_BEST_FOUND; HEURISTIC_NO_INCUMBENT; HEURISTIC_MODEL_INVALID] /\
    (he_search_status r = HEURISTIC_PROXY_OPTIMAL ->
     forall c claimed v, candidate_fields_ok c = true ->
       verify_candidate_schedule s c bundle facts dated claimed = Ok v ->
       exists p, proxy_pair v (off_peak_ranks (he_lowering_record r)) = Ok p /\ py_leb q p = true).
Proof. apply heuristic_optimal_pair. Qed.
End Lawful.

(** With the exhaustive solver a search over a closed model proves all stages. *)
Definition search_exprs (l : LoweredScenarioModel) : list LinearExpr := (fun it : stage => it.2.2) <$> (exact_plan l ++ heuristic_plan l).

Lemma plan_closed_for l plan m : plan ⊆ exact_plan l ++ heuristic_plan l ->
  closed_for (search_exprs l) m -> closed_for ((fun it : stage => it.2.2) <$> plan) m.
Proof.
  intros Hsub [Hc He]. split; [done|]. rewrite Forall_forall in *. intros e (it & -> & Hit)%list_elem_of_fmap.
  apply He. by apply (list_elem_of_fmap_2 (fun it : stage => it.2.2)), Hsub.
Qed.

Section Exhaustive.
Context `{ZoneInfo} `{Sha256} (s : ScenarioInput) (vs : ValidatedScenario) (bundle : CompilationBundle)
  (facts : AccountFacts) (dated : option DatedEligibilityFacts) (configuration : option SolverConfiguration)
  (ref : VerifiedSchedule) (l : LoweredScenarioModel).
Context (Hin : scenario_input_ok s) (Hv : validate_and_decompose_scenario s = Ok vs)
  (Ht : tariff_ok (operators (ir bundle)))
  (Hr : verify_candidate_schedule s (candidate_from_reference s) bundle facts dated None = Ok ref)
  (Hl : compile_scenario_model vs bundle facts (billing_result ref) = Ok l)
  (Hc : closed_for (search_exprs l) (lowered_model l)).
Notation c := (default (default_solver_configuration (H1 := exhaustive_solver)) configuration).

Lemma exhaustive_answers exprs m e : closed_for exprs m -> e ∈ exprs -> (exists a, satisfies a m) ->
  status_name (cp_solve (OrTools := exhaustive_solver) (configured_solver c) (minimize e m)) = "OPTIMAL".
Proof. intros Hg He Hsat. apply exhaustive_complete; [by eapply closed_for_minimize|exact Hsat]. Qed.

Lemma exhaustive_search_completes :
  exists x, optimize_exact (H1 := exhaustive_solver) vs bundle facts dated configuration = Ok x /\
    highest_objective_stage_proved_optimal x = 4.
Proof.
  destruct (exact_search exhaustive_solver s vs bundle facts dated l ref exhaustive_lawful Hin Hv Ht Hr Hl c) as (st & k & Hst & Hf).
  exists (exact_result ref l c st). split.
  - unfold optimize_exact. rewrite (validated_scenario s vs Hin Hv), Hr. cbn [mbind result_bind]. rewrite Hl. cbn [mbind result_bind].
    rewrite Hst. reflexivity.
  - cbn [highest_objective_stage_proved_optimal exact_result]. change 4 with (Z.of_nat (length (exact_plan l))).
    refine (exact_stages_complete exhaustive_solver s vs bundle facts dated l ref exhaustive_lawful Hin Hv Ht Hr Hl
      (exact_plan l) EXACT_STAGE_NAMES c (exact_plan_names l) (Nat.le_refl _) (closed_for _) (exhaustive_answers _)
      (closed_for_fix _) (exact_plan l) 0%nat (start_exact l) st eq_refl eq_refl (Nat.le_0_l _) _ _ eq_refl Hst).
    + apply (plan_closed_for l); [intros it Hit; apply elem_of_app; by left|exact Hc].
    + exact (progress_start s vs bundle facts dated l ref Hin Hv Ht Hr Hl _).
Qed.

Lemma exhaustive_heuristic_completes :
  exists x, optimize_off_peak_heuristic (H1 := exhaustive_solver) vs bundle facts dated configuration = Ok x /\
    he_search_status x = HEURISTIC_PROXY_OPTIMAL.
Proof.
  destruct (heuristic_optimal_pair exhaustive_solver s vs bundle facts dated configuration exhaustive_lawful Hin Hv Ht ref l Hr Hl)
    as (x & q & Hx & _). exists x. split; [done|].
  apply optimize_heuristic_inv in Hx as (ref' & l' & st & rp & ip & Hr' & Hl' & Hst & _ & _ & ->).
  rewrite (validated_scenario s vs Hin Hv), Hr in Hr'. injection Hr' as <-. rewrite Hl in Hl'. injection Hl' as <-.
  unfold heuristic_result_of. destruct (select_heuristic _ _ _ _). cbn [he_search_status].
  refine (heuristic_stages_complete exhaustive_solver s vs bundle facts dated l ref exhaustive_lawful Hin Hv Ht Hr Hl
    (heuristic_plan l) HEURISTIC_STAGE_NAMES c (heuristic_plan_names l) (Nat.le_refl _) (closed_for _) (exhaustive_answers _)
    (closed_for_fix _) (heuristic_plan l) 0%nat (start_heuristic l) st eq_refl eq_refl (Nat.le_0_l _) _ _ _ Hst).
  - apply (plan_closed_for l); [intros it Hit; apply elem_of_app; by right|exact Hc].
  - exact (progress_start s vs bundle facts dated l ref Hin Hv Ht Hr Hl _).
  - done.
Qed.
End Exhaustive.

(** ** Witnesses: the two-load scenario, solved exhaustively *)
Definition fixture_exact : result ExactOptimizationResult :=
  vs ← validate_and_decompose_scenario scenario_fixture;
  optimize_exact (H0 := toy_sha256) (H1 := exhaustive_solver) vs ev2a_bundle july_facts (Some july_dated) None.
Definition fixture_heuristic : result HeuristicOptimizationResult :=
  vs ← validate_and_decompose_scenario scenario_fixture;
  optimize_off_peak_heuristic (H0 := toy_sha256) (H1 := exhaustive_solver) vs ev2a_bundle july_facts
    (Some july_dated) None.

Lemma fixture_closed_evaluates :
  match (vs ← validate_and_decompose_scenario scenario_fixture;
         r ← verify_fixture fixture_reference None;
         compile_scenario_model (H0 := toy_sha256) vs ev2a_bundle july_facts (billing_result r)) with
  | Ok l => model_closed (lowered_model l) && forallb (expr_closed (lowered_model l)) (search_exprs l)
  | Raise _ => false end = true.
Proof. vm_compute. reflexivity. Qed.

Lemma fixture_closed : exists vs r l,
  validate_and_decompose_scenario scenario_fixture = Ok vs /\ verify_fixture fixture_reference None = Ok r /\
  compile_scenario_model (H0 := toy_sha256) vs ev2a_bundle july_facts (billing_result r) = Ok l /\
  closed_for (search_exprs l) (lowered_model l).
Proof.
  pose proof fixture_closed_evaluates as Hs. revert Hs.
  generalize (validate_and_decompose_scenario scenario_fixture). generalize (verify_fixture fixture_reference None).
  intros m2 m1 Hs. apply bind3_stages in Hs as (vs & r & l & Hv & Hr & Hl & Hs). exists vs, r, l.
  refine (conj Hv (conj Hr (conj Hl _))). apply andb_true_iff in Hs as [H1 H2]. split; [done|]. rewrite forallb_forall in H2.
  apply Forall_forall. intros e He. by apply H2, list_elem_of_In.
Qed.

(** The exhaustive solver proves all four stages. *)
Lemma fixture_search : exists vs r l x,
  validate_and_decompose_scenario scenario_fixture = Ok vs /\ verify_fixture fixture_reference None = Ok r /\
  compile_scenario_model (H0 := toy_sha256) vs ev2a_bundle july_facts (billing_result r) = Ok l /\
  optimize_exact (H0 := toy_sha256) (H1 := exhaustive_solver) vs ev2a_bundle july_facts (Some july_dated) None = Ok x /\
  highest_objective_stage_proved_optimal x = 4.
Proof.
  destruct fixture_closed as (vs & r & l & Hv & Hr & Hl & Hc).
  destruct (exhaustive_search_completes (H0 := toy_sha256) scenario_fixture vs ev2a_bundle july_facts (Some july_dated)
    None r l scenario_fixture_ok Hv ev2a_tariff_ok Hr Hl Hc) as (x & Hx & Hk).
  exists vs, r, l, x. exact (conj Hv (conj Hr (conj Hl (conj Hx Hk)))).
Qed.

Lemma fixture_exact_of vs x : validate_and_decompose_scenario scenario_fixture = Ok vs ->
  optimize_exact (H0 := toy_sha256) (H1 := exhaustive_solver) vs ev2a_bundle july_facts (Some july_dated) None = Ok x ->
  fixture_exact = Ok x.
Proof.
  unfold fixture_exact. generalize (validate_and_decompose_scenario scenario_fixture). intros m -> Hx. exact Hx.
Qed.

Lemma exact_selection_verified_witness :
  exists x, fixture_exact = Ok x /\
    py_leb (ordered_values (objective (record (selected (ex_selected x)))))
      (ordered_values (objective (record (reference (ex_selected x))))) = true.
Proof.
  destruct fixture_search as (vs & r & l & x & Hv & Hr & Hl & Hx & Hk). exists x. split.
  - exact (fixture_exact_of vs x Hv Hx).
  - exact (proj2 (proj2 (exact_selection_verified (H0 := toy_sha256) exhaustive_solver vs ev2a_bundle july_facts
      (Some july_dated) None (eq_ind_r scenario_input_ok scenario_fixture_ok (validated_scenario scenario_fixture vs scenario_fixture_ok Hv)) x Hx))).
Defined.

Lemma exact_search_returns_witness :
  exists x, fixture_exact = Ok x /\
    (ex_search_status x ∈ [EXACT_OPTIMAL; EXACT_BEST_FOUND] -> is_Some (incumbent (ex_selected x))).
Proof.
  destruct fixture_lowered as (vs & r & l & Hv & Hr & Hl & _).
  destruct (exact_search_returns (H0 := toy_sha256) exhaustive_solver scenario_fixture vs ev2a_bundle july_facts
    (Some july_dated) None exhaustive_lawful scenario_fixture_ok Hv ev2a_tariff_ok r l Hr Hl) as (x & Hx & _ & Hi).
  exists x. split; [exact (fixture_exact_of vs x Hv Hx)|exact Hi].
Defined.

Lemma exact_search_optimal_witness :
  exists x v, fixture_exact = Ok x /\ highest_objective_stage_proved_optimal x = 4 /\
    verify_fixture shifted_candidate None = Ok v /\
    lex_le (take (Z.to_nat (highest_objective_stage_proved_optimal x)) (objective_vector (selected (ex_selected x))))
      (take (Z.to_nat (highest_objective_stage_proved_optimal x)) (objective_vector v)).
Proof.
  destruct fixture_search as (vs & r & l & x & Hv & Hr & Hl & Hx & Hk).
  destruct (verify_fixture shifted_candidate None) as [v|] eqn:Ev; [|vm_compute in Ev; discriminate Ev].
  exists x, v. refine (conj (fixture_exact_of vs x Hv Hx) (conj Hk (conj eq_refl _))).
  exact (proj1 (exact_search_optimal (H0 := toy_sha256) exhaustive_solver scenario_fixture vs ev2a_bundle july_facts
    (Some july_dated) None exhaustive_lawful scenario_fixture_ok Hv ev2a_tariff_ok x shifted_candidate None v Hx
    ltac:(vm_compute; reflexivity) Ev)).
Defined.

Lemma heuristic_search_optimal_witness :
  exists x q, fixture_heuristic = Ok x /\ proxy_pair (he_selected x) (off_peak_ranks (he_lowering_record x)) = Ok q.
Proof.
  destruct fixture_lowered as (vs & r & l & Hv & Hr & Hl & _).
  destruct (heuristic_search_optimal (H0 := toy_sha256) exhaustive_solver scenario_fixture vs ev2a_bundle july_facts
    (Some july_dated) None exhaustive_lawful scenario_fixture_ok Hv ev2a_tariff_ok r l Hr Hl) as (x & q & Hx & Hq & _).
  exists x, q. split; [|exact Hq]. unfold fixture_heuristic. revert Hv Hx.
  generalize (validate_and_decompose_scenario scenario_fixture). intros m -> Hx. exact Hx.
Defined.

(** A second solver for the heuristic: one that never finds anything. *)
Definition silent_solver : OrTools :=
  {| ortools_version := "silent";
     cp_solve := fun _ _ => {| status_name := "UNKNOWN"; value := fun _ => 0; response_objective_bound := float_of_int 0 |} |}.

Lemma silent_evaluates :
  match (vs ← validate_and_decompose_scenario scenario_fixture;
         optimize_off_peak_heuristic (H0 := toy_sha256) (H1 := silent_solver) vs ev2a_bundle july_facts (Some july_dated) None) with
  | Ok _ => true | Raise _ => false end = true.
Proof. vm_compute. reflexivity. Qed.

Lemma heuristic_selection_verified_witness :
  exists vs x p, validate_and_decompose_scenario scenario_fixture = Ok vs /\
    optimize_off_peak_heuristic (H0 := toy_sha256) (H1 := silent_solver) vs ev2a_bundle july_facts
      (Some july_dated) None = Ok x /\
    proxy_pair (he_selected x) (off_peak_ranks (he_lowering_record x)) = Ok p /\ py_leb p (reference_proxy_pair x) = true.
Proof.
  pose proof silent_evaluates as Hs. pose proof (validated_scenario scenario_fixture) as Hvs. revert Hs Hvs.
  generalize (validate_and_decompose_scenario scenario_fixture).
  intros [vs|e]; [|discriminate]. cbn [mbind result_bind]. intros Hs Hvs. exists vs.
  specialize (Hvs vs scenario_fixture_ok eq_refl).
  destruct (optimize_off_peak_heuristic (H0 := toy_sha256) (H1 := silent_solver) vs ev2a_bundle july_facts
      (Some july_dated) None) as [x|e] eqn:Ex; [|discriminate]. exists x.
  destruct (proj2 (proj2 (heuristic_selection_verified (H0 := toy_sha256) silent_solver vs ev2a_bundle july_facts
    (Some july_dated) None (eq_ind_r scenario_input_ok scenario_fixture_ok Hvs) x Ex))) as (p & Hp & Hle).
  exists p. exact (conj eq_refl (conj eq_refl (conj Hp Hle))).
Defined.
