(* ===== verification/Results.v ===== *)
(** * Results: scenario results and their manifests (optimizer/results.py)

    [build_scenario_result] turns an exact and a heuristic search into the
    immutable scenario resource: it refuses a search that did not produce a
    verified schedule, and seals the inputs, the searches and the result with
    content hashes. *)

From S2P Require Import Prelude Calendar Float Json Schema Compiled Fixtures Eligibility DayEnergy Replay.
From S2P Require Import CpModel OptimizerModels Scenario ScenarioProofs Verification VerificationProofs Lowering LoweringTheorems.
From S2P Require Import LoweringExact Solver SolverProofs ReferenceSolver SolverTheorems.

(** ** Contracts *)
Record VerifiedScheduleResult := {
  vsr_schedule : CandidateSchedule; vsr_verification : VerificationRecord; vsr_billing_result : ReplayResult
}.

Record ExactScenarioResult := {
  er_search_status : ExactSearchStatus;
  er_selected_source : SelectedSource;
  er_selection_reason : SelectionReason;
  er_selected : VerifiedScheduleResult;
  er_incumbent : option VerifiedScheduleResult;
  er_reference : VerifiedScheduleResult;
  er_stage_records : list SolverStageRecord;
  er_highest_objective_stage_proved_optimal : Z;
  er_first_open_stage : option Z;
  er_best_supported_cost_bound : option float;
  er_absolute_cost_gap_cents : option float;
  er_relative_cost_gap : option float;
  er_solver_configuration : SolverConfiguration;
  er_lowering_record : LoweringRecord;
  er_execution_result_sha256 : string
}.

Record HeuristicScenarioResult := {
  hr_search_status : HeuristicSearchStatus;
  hr_selection_outcome : SelectionOutcome;
  hr_selected : VerifiedScheduleResult;
  hr_incumbent : option VerifiedScheduleResult;
  hr_reference : VerifiedScheduleResult;
  hr_incumbent_proxy_pair : option (Z * Z);
  hr_reference_proxy_pair : Z * Z;
  hr_stage_records : list HeuristicStageRecord;
  hr_solver_configuration : SolverConfiguration;
  hr_lowering_record : LoweringRecord;
  hr_fallback_reason : option string;
  hr_execution_result_sha256 : string
}.

Record ScenarioLoadManifest := {
  lm_load_id : string; lm_mode : LoadMode; reference_schedule_sha256 : string
}.

Record ScenarioCalculationManifest := {
  sm_profile_content_sha256 : string;
  sm_tariff_version_id : string;
  sm_tariff_compiler_content_sha256 : string;
  sm_tariff_ir_version : string;
  tariff_source_hashes : list string;
  sm_account_facts_sha256 : string;
  scenario_input_sha256 : string;
  reference_validation_sha256 : string;
  load_modes_and_reference_hashes : list ScenarioLoadManifest;
  sm_solver_name : string;
  sm_solver_version : string;
  sm_solver_configuration : SolverConfiguration;
  solver_lowering_capability_sha256 : string;
  solver_lowering_sha256 : string;
  invariance_proof_sha256 : string;
  exact_execution_result_sha256 : string;
  sm_rank_calendar_sha256 : string;
  heuristic_execution_result_sha256 : string;
  selected_verification_sha256 : string;
  reference_verification_sha256 : string;
  warning_codes : list string;
  calculation_sha256 : string
}.

Record ScenarioOptimizationResult := {
  or_reference_validation : ReferenceValidationRecord;
  or_decomposition : ScenarioDecomposition;
  exact : ExactScenarioResult;
  heuristic : HeuristicScenarioResult;
  or_manifest : ScenarioCalculationManifest;
  or_result_sha256 : string
}.

(** ** JSON images *)
Definition jstrings (l : list string) : json := JList (JStr <$> l).
Definition jslots (l : list EnergySlot) : json := JList (EnergySlot_dump <$> l).

Definition mode_str (m : LoadMode) : string :=
  match m with SHIFT_EXISTING => "SHIFT_EXISTING" | HISTORICAL_ADDITION => "HISTORICAL_ADDITION" end.
Definition kind_str (k : LoadKind) : string :=
  match k with
  | KIND_EV => "EV" | DISHWASHER => "DISHWASHER" | WASHER => "WASHER" | DRYER => "DRYER"
  | POOL_PUMP => "POOL_PUMP" | CUSTOM => "CUSTOM"
  end.
Definition ExecutionSpec_dump (s : ExecutionSpec) : json :=
  match s with
  | InterruptibleModulatingSpec hi lo =>
      JObj [("execution_type", JStr "INTERRUPTIBLE_MODULATING"); ("maximum_power_w", JInt hi);
            ("minimum_power_when_active_w", JInt lo)]
  | ContiguousFixedShapeSpec shape =>
      JObj [("execution_type", JStr "CONTIGUOUS_FIXED_SHAPE"); ("fixed_slot_shape_wh", JList (JInt <$> shape))]
  end.
Definition LoadOccurrence_dump (o : LoadOccurrence) : json :=
  JObj [("occurrence_id", JStr (uuid_str (occurrence_id o)));
        ("required_energy_wh", JInt (required_energy_wh o));
        ("earliest_start_utc", JStr (datetime_str (earliest_start_utc o)));
        ("deadline_utc", JStr (datetime_str (deadline_utc o)));
        ("reference_schedule", jslots (reference_schedule o))].
Definition FlexibleLoad_dump (l : FlexibleLoad) : json :=
  JObj [("load_id", JStr (uuid_str (load_id l))); ("physical_asset_key", JStr (physical_asset_key l));
        ("kind", JStr (kind_str (kind l))); ("mode", JStr (mode_str (mode l)));
        ("execution_spec", ExecutionSpec_dump (execution_spec l));
        ("occurrences", JList (LoadOccurrence_dump <$> occurrences l))].
Definition CanonicalProfileSlot_dump (s : CanonicalProfileSlot) : json :=
  JObj [("slot_start_utc", JStr (datetime_str (ps_start_utc s)));
        ("duration_seconds", JInt (ps_duration_seconds s));
        ("measured_energy_wh", JInt (measured_energy_wh s))].
Definition ScenarioInput_dump (s : ScenarioInput) : json :=
  let c := electrical_constraints s in
  JObj [("scenario_version", JStr "historical-flex-scenario-v1");
        ("profile_content_sha256", JStr (sc_profile_content_sha256 s));
        ("tariff_version_id", JStr (sc_tariff_version_id s));
        ("profile_slots", JList (CanonicalProfileSlot_dump <$> profile_slots s));
        ("loads", JList (FlexibleLoad_dump <$> loads s));
        ("electrical_constraints",
           JObj [("site_import_cap_w", jopt JInt (site_import_cap_w c));
                 ("flexible_load_aggregate_cap_w", jopt JInt (flexible_load_aggregate_cap_w c));
                 ("energy_basis", JStr "METER_SIDE")])].
Definition ReferenceValidationRecord_dump (r : ReferenceValidationRecord) : json :=
  JObj [("validation_version", JStr "reference-validation-v1"); ("status", JStr "VALID");
        ("load_count", JInt (load_count r)); ("occurrence_count", JInt (occurrence_count r));
        ("slot_count", JInt (slot_count r));
        ("checked_constraint_codes", jstrings (checked_constraint_codes r))].
Definition ScenarioDecomposition_dump (d : ScenarioDecomposition) : json :=
  JObj [("decomposition_version", JStr "scenario-decomposition-v1");
        ("calculation_time_mode", JStr "HISTORICAL_REPLAY");
        ("historical_addition_label", JStr "HISTORICAL_COUNTERFACTUAL_NOT_FORECAST");
        ("fixed_background", jslots (fixed_background d));
        ("shift_existing_reference", jslots (shift_existing_reference d));
        ("historical_addition_reference", jslots (historical_addition_reference d));
        ("reconstructed_measured_profile", jslots (reconstructed_measured_profile d));
        ("unchanged_reference_profile", jslots (unchanged_reference_profile d));
        ("exact_measured_reconstruction", JBool true)].
Definition LoweringRecord_dump (r : LoweringRecord) : json :=
  JObj [("lowering_version", JStr "cp-sat-charge-lowering-v1");
        ("tariff_version_id", JStr (lr_tariff_version_id r));
        ("supported_operators", jstrings (supported_operators r));
        ("constant_supported_cost_cents", JInt (constant_supported_cost_cents r));
        ("invariant_total_profile_energy_wh", JInt (invariant_total_profile_energy_wh r));
        ("omitted_charge_proofs", JList (OmittedChargeProof_dump <$> omitted_charge_proofs r));
        ("off_peak_ranks", JList (JInt <$> off_peak_ranks r));
        ("rank_calendar_sha256", JStr (rank_calendar_sha256 r));
        ("objective_bounds", ObjectiveBounds_dump (objective_bounds r));
        ("lowering_sha256", JStr (lowering_sha256 r))].
Definition VerificationRecord_dump (v : VerificationRecord) : json :=
  JObj [("verification_version", JStr "independent-schedule-verifier-v1"); ("status", JStr "VALID");
        ("objective", ObjectiveTuple_dump (objective v));
        ("candidate_profile", jslots (candidate_profile v));
        ("billing_result_sha256", JStr (billing_result_sha256 v));
        ("checked_constraint_codes", jstrings (vr_checked_constraint_codes v));
        ("verification_sha256", JStr (verification_sha256 v))].
Definition ReplayResult_dump (r : ReplayResult) : json :=
  JObj [("result_version", JStr (result_version r));
        ("eligibility", EligibilityResult_dump (eligibility r));
        ("supported_calculated_cents", JInt (supported_calculated_cents r));
        ("line_items", JList (ChargeLineItem_dump <$> line_items r));
        ("tariff_unsupported_placeholders",
           JList (UnsupportedPlaceholder_dump <$> tariff_unsupported_placeholders r));
        ("user_unsupported_lines", JList (UserUnsupportedLine_dump <$> res_user_unsupported_lines r));
        ("reconciliation", jopt ReconciliationResult_dump (reconciliation r));
        ("diagnostic_cost_allocation", DiagnosticCostAllocation_dump (diagnostic_cost_allocation r));
        ("provenance_sources", JList (SourceCoverage_dump <$> provenance_sources r));
        ("manifest", CalculationManifest_dump (manifest r));
        ("result_sha256", JStr (result_sha256 r))].
Definition VerifiedScheduleResult_dump (v : VerifiedScheduleResult) : json :=
  JObj [("schedule", CandidateSchedule_dump (vsr_schedule v));
        ("verification", VerificationRecord_dump (vsr_verification v));
        ("billing_result", ReplayResult_dump (vsr_billing_result v))].

Definition ExactScenarioResult_dump (r : ExactScenarioResult) : json :=
  JObj [("search_status", JStr (exact_status_str (er_search_status r)));
        ("selected_source", JStr (source_str (er_selected_source r)));
        ("selection_reason", JStr (selection_reason_str (er_selection_reason r)));
        ("selected", VerifiedScheduleResult_dump (er_selected r));
        ("incumbent", jopt VerifiedScheduleResult_dump (er_incumbent r));
        ("reference", VerifiedScheduleResult_dump (er_reference r));
        ("stage_records", JList (StageRecord_dump <$> er_stage_records r));
        ("highest_objective_stage_proved_optimal", JInt (er_highest_objective_stage_proved_optimal r));
        ("first_open_stage", jopt JInt (er_first_open_stage r));
        ("best_supported_cost_bound", jopt JFloat (er_best_supported_cost_bound r));
        ("absolute_cost_gap_cents", jopt JFloat (er_absolute_cost_gap_cents r));
        ("relative_cost_gap", jopt JFloat (er_relative_cost_gap r));
        ("solver_configuration", SolverConfiguration_dump (er_solver_configuration r));
        ("lowering_record", LoweringRecord_dump (er_lowering_record r));
        ("execution_result_sha256", JStr (er_execution_result_sha256 r))].
Definition HeuristicScenarioResult_dump (r : HeuristicScenarioResult) : json :=
  JObj [("heuristic_contract_version", JStr "off-peak-heuristic-v1"); ("bill_optimality_claim", JBool false);
        ("search_status", JStr (heuristic_status_str (hr_search_status r)));
        ("selection_outcome", JStr (outcome_str (hr_selection_outcome r)));
        ("selected", VerifiedScheduleResult_dump (hr_selected r));
        ("incumbent", jopt VerifiedScheduleResult_dump (hr_incumbent r));
        ("reference", VerifiedScheduleResult_dump (hr_reference r));
        ("incumbent_proxy_pair", jopt pair_json (hr_incumbent_proxy_pair r));
        ("reference_proxy_pair", pair_json (hr_reference_proxy_pair r));
        ("stage_records", JList (StageRecord_dump <$> hr_stage_records r));
        ("solver_configuration", SolverConfiguration_dump (hr_solver_configuration r));
        ("lowering_record", LoweringRecord_dump (hr_lowering_record r));
        ("fallback_reason", jopt JStr (hr_fallback_reason r));
        ("execution_result_sha256", JStr (hr_execution_result_sha256 r))].
Definition ScenarioLoadManifest_dump (m : ScenarioLoadManifest) : json :=
  JObj [("load_id", JStr (lm_load_id m)); ("mode", JStr (mode_str (lm_mode m)));
        ("reference_schedule_sha256", JStr (reference_schedule_sha256 m))].

(** The fields of [manifest_payload]. *)
Definition manifest_fields (m : ScenarioCalculationManifest) : list (string * json) :=
  [("calculation_contract_version", JStr "verified-scenario-calculation-v1");
   ("calculation_schema_version", JStr "scenario-result-v1");
   ("profile_content_sha256", JStr (sm_profile_content_sha256 m));
   ("tariff_version_id", JStr (sm_tariff_version_id m));
   ("tariff_compiler_content_sha256", JStr (sm_tariff_compiler_content_sha256 m));
   ("tariff_ir_version", JStr (sm_tariff_ir_version m));
   ("tariff_source_hashes", jstrings (tariff_source_hashes m));
   ("account_facts_sha256", JStr (sm_account_facts_sha256 m));
   ("scenario_input_sha256", JStr (scenario_input_sha256 m));
   ("reference_validation_sha256", JStr (reference_validation_sha256 m));
   ("load_modes_and_reference_hashes", JList (ScenarioLoadManifest_dump <$> load_modes_and_reference_hashes m));
   ("solver_configuration", SolverConfiguration_dump (sm_solver_configuration m));
   ("solver_lowering_capability_sha256", JStr (solver_lowering_capability_sha256 m));
   ("solver_lowering_sha256", JStr (solver_lowering_sha256 m));
   ("invariance_proof_sha256", JStr (invariance_proof_sha256 m));
   ("exact_execution_result_sha256", JStr (exact_execution_result_sha256 m));
   ("heuristic_contract_version", JStr "off-peak-heuristic-v1");
   ("rank_calendar_sha256", JStr (sm_rank_calendar_sha256 m));
   ("heuristic_execution_result_sha256", JStr (heuristic_execution_result_sha256 m));
   ("selected_verification_sha256", JStr (selected_verification_sha256 m));
   ("reference_verification_sha256", JStr (reference_verification_sha256 m));
   ("warning_codes", jstrings (warning_codes m))].
Definition ScenarioCalculationManifest_dump (m : ScenarioCalculationManifest) : json :=
  JObj (manifest_fields m ++
        [("manifest_version", JStr "scenario-calculation-manifest-v1");
         ("calculation_time_mode", JStr "HISTORICAL_REPLAY");
         ("historical_addition_label", JStr "HISTORICAL_COUNTERFACTUAL_NOT_FORECAST");
         ("solver_name", JStr (sm_solver_name m)); ("solver_version", JStr (sm_solver_version m));
         ("calculation_sha256", JStr (calculation_sha256 m))]).

(** ** Building a result *)
Definition stored_schedule (v : VerifiedSchedule) : VerifiedScheduleResult :=
  {| vsr_schedule := schedule v; vsr_verification := record v; vsr_billing_result := billing_result v |}.

Definition exact_scenario_result (e : ExactOptimizationResult) : result ExactScenarioResult :=
  let d := ex_selected e in
  _ ← raise_if (negb (bool_decide (ex_search_status e ∈ [EXACT_OPTIMAL; EXACT_BEST_FOUND])))
        (ScenarioResultError ("EXACT_SOLVER_" +:+ exact_status_str (ex_search_status e)));
  Ok {| er_search_status := ex_search_status e; er_selected_source := selected_source d;
        er_selection_reason := reason d; er_selected := stored_schedule (selected d);
        er_incumbent := stored_schedule <$> incumbent d; er_reference := stored_schedule (reference d);
        er_stage_records := ex_stage_records e;
        er_highest_objective_stage_proved_optimal := highest_objective_stage_proved_optimal e;
        er_first_open_stage := first_open_stage e;
        er_best_supported_cost_bound := best_supported_cost_bound e;
        er_absolute_cost_gap_cents := absolute_cost_gap_cents e;
        er_relative_cost_gap := relative_cost_gap e;
        er_solver_configuration := ex_solver_configuration e;
        er_lowering_record := ex_lowering_record e;
        er_execution_result_sha256 := ex_result_sha256 e |}.

Definition heuristic_scenario_result (h : HeuristicOptimizationResult) : result HeuristicScenarioResult :=
  _ ← raise_if (negb (bool_decide (he_search_status h
                       ∈ [HEURISTIC_PROXY_OPTIMAL; HEURISTIC_BEST_FOUND; HEURISTIC_NO_INCUMBENT])))
        (ScenarioResultError (heuristic_status_str (he_search_status h)));
  Ok {| hr_search_status := he_search_status h; hr_selection_outcome := selection_outcome h;
        hr_selected := stored_schedule (he_selected h);
        hr_incumbent := stored_schedule <$> he_incumbent h;
        hr_reference := stored_schedule (he_reference h);
        hr_incumbent_proxy_pair := incumbent_proxy_pair h;
        hr_reference_proxy_pair := reference_proxy_pair h;
        hr_stage_records := he_stage_records h; hr_solver_configuration := he_solver_configuration h;
        hr_lowering_record := he_lowering_record h; hr_fallback_reason := fallback_reason h;
        hr_execution_result_sha256 := he_result_sha256 h |}.

Section Build.
Context `{Sha256}.

Definition load_manifest (l : FlexibleLoad) : ScenarioLoadManifest :=
  {| lm_load_id := uuid_str (load_id l); lm_mode := mode l;
     reference_schedule_sha256 := canonical_content_sha256 "RateReplay.LoadReferenceSchedules.v1"
       (JObj [("load_id", JStr (uuid_str (load_id l)));
              ("occurrences", JList ((fun o =>
                 JObj [("occurrence_id", JStr (uuid_str (occurrence_id o)));
                       ("reference_schedule", jslots (reference_schedule o))]) <$> occurrences l))]) |}.

(** The manifest around its [calculation_sha256]. *)
Definition scenario_manifest (validated : ValidatedScenario) (bundle : CompilationBundle) (facts : AccountFacts)
    (dated : option DatedEligibilityFacts) (e : ExactOptimizationResult) (h : HeuristicOptimizationResult)
    (calculation : string) : ScenarioCalculationManifest :=
  let s := scenario validated in
  let r := reports bundle in
  {| sm_profile_content_sha256 := sc_profile_content_sha256 s;
     sm_tariff_version_id := ir_tariff_version_id (ir bundle);
     sm_tariff_compiler_content_sha256 := compiler_content_sha256 bundle;
     sm_tariff_ir_version := ir_version (ir bundle);
     tariff_source_hashes := sorted_by id (coverage_source_sha256 <$> source_coverage r);
     sm_account_facts_sha256 := canonical_content_sha256 "RateReplay.ScenarioEligibilityFacts.v1"
       (JObj [("account_facts", AccountFacts_dump facts);
              ("dated_eligibility_facts", jopt DatedEligibilityFacts_dump dated)]);
     scenario_input_sha256 := canonical_content_sha256 "RateReplay.ScenarioInput.v1" (ScenarioInput_dump s);
     reference_validation_sha256 := canonical_content_sha256 "RateReplay.ReferenceValidation.v1"
       (ReferenceValidationRecord_dump (reference_validation validated));
     load_modes_and_reference_hashes := load_manifest <$> loads s;
     sm_solver_name := SOLVER_NAME;
     sm_solver_version := solver_version (ex_solver_configuration e);
     sm_solver_configuration := ex_solver_configuration e;
     solver_lowering_capability_sha256 := canonical_content_sha256 "RateReplay.SolverLoweringCapability.v1"
       (JObj [("supported_operators", jstrings (solver_lowering_supported_operators r));
              ("unsupported_reasons", jstrings (solver_lowering_unsupported_reasons r))]);
     solver_lowering_sha256 := lowering_sha256 (ex_lowering_record e);
     invariance_proof_sha256 := canonical_content_sha256 "RateReplay.SolverInvarianceProofs.v1"
       (JList (OmittedChargeProof_dump <$> omitted_charge_proofs (ex_lowering_record e)));
     exact_execution_result_sha256 := ex_result_sha256 e;
     sm_rank_calendar_sha256 := rank_calendar_sha256 (he_lowering_record h);
     heuristic_execution_result_sha256 := he_result_sha256 h;
     selected_verification_sha256 := verification_hash (selected (ex_selected e));
     reference_verification_sha256 := verification_hash (reference (ex_selected e));
     warning_codes := if bool_decide (ex_search_status e = EXACT_BEST_FOUND)
                      then ["EXACT_BEST_FOUND_OPEN_BOUND"] else [];
     calculation_sha256 := calculation |}.

Definition build_scenario_result (validated : ValidatedScenario) (bundle : CompilationBundle)
    (facts : AccountFacts) (dated : option DatedEligibilityFacts) (e : ExactOptimizationResult)
    (h : HeuristicOptimizationResult) : result ScenarioOptimizationResult :=
  er ← exact_scenario_result e;
  hr ← heuristic_scenario_result h;
  let calculation := canonical_content_sha256 "RateReplay.ScenarioCalculation.v1"
    (JObj (manifest_fields (scenario_manifest validated bundle facts dated e h ""))) in
  let m := scenario_manifest validated bundle facts dated e h calculation in
  Ok {| or_reference_validation := reference_validation validated;
        or_decomposition := decomposition validated; exact := er; heuristic := hr; or_manifest := m;
        or_result_sha256 := canonical_content_sha256 "RateReplay.ScenarioResult.v1"
          (JObj [("reference_validation", ReferenceValidationRecord_dump (reference_validation validated));
                 ("decomposition", ScenarioDecomposition_dump (decomposition validated));
                 ("exact", ExactScenarioResult_dump er); ("heuristic", HeuristicScenarioResult_dump hr);
                 ("manifest", ScenarioCalculationManifest_dump m)]) |}.
End Build.

(** ** Theorems *)
Lemma exact_scenario_result_ok e er : exact_scenario_result e = Ok er ->
  (ex_search_status e = EXACT_OPTIMAL \/ ex_search_status e = EXACT_BEST_FOUND) /\
  er_search_status er = ex_search_status e /\ er_selected er = stored_schedule (selected (ex_selected e)) /\
  er_reference er = stored_schedule (reference (ex_selected e)) /\
  er_highest_objective_stage_proved_optimal er = highest_objective_stage_proved_optimal e.
Proof.
  intros Hr. unfold exact_scenario_result in Hr. apply bind_ok in Hr as (u & Hu & [= <-]).
  apply raise_if_ok, negb_false_iff, bool_decide_eq_true in Hu. rewrite !elem_of_cons, elem_of_nil in Hu.
  split; [tauto|done].
Qed.

Lemma heuristic_scenario_result_ok h hr : heuristic_scenario_result h = Ok hr ->
  hr_selected hr = stored_schedule (he_selected h) /\ hr_search_status hr = he_search_status h.
Proof.
  intros Hr. unfold heuristic_scenario_result in Hr. by apply bind_ok in Hr as (u & _ & [= <-]).
Qed.

(** The first component of an ordered tuple of objective values decides. *)
Lemma py_leb_cost (x y : Z * (Z * (Z * Z))) : py_leb x y = true -> x.1 <= y.1.
Proof. intros Hxy%py_leb_lex. cbn in Hxy. destruct Hxy as [?|[? _]]; lia. Qed.

Definition schedule_cost (v : VerifiedScheduleResult) : Z := supported_cost_cents (objective (vsr_verification v)).

(** A scenario result is published exactly for searches that ended with a
    verified schedule.  An exact search that ended otherwise is refused with its
    own status in the error code, and only then a heuristic that failed closed
    with its status; every other pair of searches gives a result, which carries
    the open-bound warning exactly when the exact search was not proved optimal. *)
Theorem scenario_result_gate `{Sha256} vs bundle facts dated e h :
  match build_scenario_result vs bundle facts dated e h with
  | Ok r =>
      ex_search_status e ∈ [EXACT_OPTIMAL; EXACT_BEST_FOUND] /\
      he_search_status h ∈ [HEURISTIC_PROXY_OPTIMAL; HEURISTIC_BEST_FOUND; HEURISTIC_NO_INCUMBENT] /\
      (warning_codes (or_manifest r) = [] <-> ex_search_status e = EXACT_OPTIMAL)
  | Raise x =>
      (x = ScenarioResultError ("EXACT_SOLVER_" +:+ exact_status_str (ex_search_status e)) /\
       ex_search_status e ∉ [EXACT_OPTIMAL; EXACT_BEST_FOUND]) \/
      (x = ScenarioResultError (heuristic_status_str (he_search_status h)) /\
       ex_search_status e ∈ [EXACT_OPTIMAL; EXACT_BEST_FOUND] /\
       he_search_status h ∉ [HEURISTIC_PROXY_OPTIMAL; HEURISTIC_BEST_FOUND; HEURISTIC_NO_INCUMBENT])
  end.
Proof.
  unfold build_scenario_result, exact_scenario_result, heuristic_scenario_result.
  destruct (bool_decide (ex_search_status e ∈ _)) eqn:E1; [|cbn; left; split; [done|by apply bool_decide_eq_false in E1]].
  apply bool_decide_eq_true in E1. cbn [negb raise_if mbind result_bind].
  destruct (bool_decide (he_search_status h ∈ _)) eqn:E2;
    [|cbn; right; split; [done|split; [done|by apply bool_decide_eq_false in E2]]].
  apply bool_decide_eq_true in E2. cbn [negb raise_if mbind result_bind]. split; [done|]. split; [done|].
  cbn [or_manifest warning_codes scenario_manifest]. rewrite !elem_of_cons, elem_of_nil in E1.
  destruct E1 as [->|[->|[]]]; done.
Qed.

Section Published.
Context `{ZoneInfo} `{Sha256} (O : OrTools) (s : ScenarioInput) (vs : ValidatedScenario)
  (bundle : CompilationBundle) (facts : AccountFacts) (dated : option DatedEligibilityFacts)
  (configuration : option SolverConfiguration).
Context (lawful : LawfulSolver O) (Hin : scenario_input_ok s) (Hvs : validate_and_decompose_scenario s = Ok vs)
  (Htariff : tariff_ok (operators (ir bundle))).

(** C14: what a published scenario result says of cost is true.  Composing
    admission, lowering, both searches and publication, with a solver that keeps
    its promises: the exact schedule of any published result, proved optimal or
    only best found, costs no more than the reference; when the exact search
    proved at least its first stage, the cost, it also costs no more than the
    heuristic's schedule; and the manifest names the verification of exactly
    that schedule.  Nothing is claimed of the heuristic's cost against an exact
    schedule whose cost stage was not proved. *)
Theorem published_exact_dominates e h r :
  optimize_exact vs bundle facts dated configuration = Ok e ->
  optimize_off_peak_heuristic vs bundle facts dated configuration = Ok h ->
  build_scenario_result vs bundle facts dated e h = Ok r ->
  schedule_cost (er_selected (exact r)) <= schedule_cost (er_reference (exact r)) /\
  (1 <= er_highest_objective_stage_proved_optimal (exact r) ->
   schedule_cost (er_selected (exact r)) <= schedule_cost (hr_selected (heuristic r))) /\
  selected_verification_sha256 (or_manifest r)
  = verification_sha256 (vsr_verification (er_selected (exact r))).
Proof.
  intros He Hh Hr. unfold build_scenario_result in Hr. apply bind_ok in Hr as (er & Her & Hr).
  apply bind_ok in Hr as (hr & Hhr & [= <-]). cbn [exact heuristic or_manifest selected_verification_sha256 scenario_manifest] in *.
  destruct (exact_scenario_result_ok e er Her) as (_ & _ & -> & -> & Ek). destruct (heuristic_scenario_result_ok h hr Hhr) as [-> _].
  rewrite Ek. pose proof (validated_scenario s vs Hin Hvs) as Es.
  assert (scenario_input_ok (scenario vs)) as Hin' by (by rewrite Es).
  destruct (heuristic_selected_verified O vs bundle facts dated configuration Hin' h Hh) as [Hse _].
  split; [|split; [|done]].
  - exact (py_leb_cost _ _ (exact_selected_no_worse O vs bundle facts dated configuration e He)).
  - intros Hk. destruct Hse as (c & claimed & Hc & Hv). rewrite Es in Hv.
    destruct (exact_optimal_prefix O s vs bundle facts dated configuration lawful Hin Hvs Htariff e c claimed _ He Hc Hv) as [Hlex _].
    destruct (Z.to_nat (highest_objective_stage_proved_optimal e)) as [|j] eqn:Ej; [lia|]. cbn in Hlex.
    unfold schedule_cost. cbn. destruct Hlex as [?|[? _]]; lia.
Qed.
End Published.

(** ** Witness: the two-load scenario, published from exhaustive searches *)
Lemma fixture_published : exists vs e h r,
  validate_and_decompose_scenario scenario_fixture = Ok vs /\
  optimize_exact (H0 := toy_sha256) (H1 := exhaustive_solver) vs ev2a_bundle july_facts (Some july_dated) None = Ok e /\
  optimize_off_peak_heuristic (H0 := toy_sha256) (H1 := exhaustive_solver) vs ev2a_bundle july_facts (Some july_dated) None
  = Ok h /\
  build_scenario_result (H := toy_sha256) vs ev2a_bundle july_facts (Some july_dated) e h = Ok r /\
  er_highest_objective_stage_proved_optimal (exact r) = 4.
Proof.
  destruct fixture_closed as (vs & ref & l & Hv & Hr & Hl & Hc).
  destruct (exhaustive_search_completes (H0 := toy_sha256) scenario_fixture vs ev2a_bundle july_facts (Some july_dated)
    None ref l scenario_fixture_ok Hv ev2a_tariff_ok Hr Hl Hc) as (e & He & Hk).
  destruct (exhaustive_heuristic_completes (H0 := toy_sha256) scenario_fixture vs ev2a_bundle july_facts (Some july_dated)
    None ref l scenario_fixture_ok Hv ev2a_tariff_ok Hr Hl Hc) as (h & Hh & Hs).
  destruct (exact_optimal_prefix (H0 := toy_sha256) exhaustive_solver scenario_fixture vs ev2a_bundle july_facts
    (Some july_dated) None exhaustive_lawful scenario_fixture_ok Hv ev2a_tariff_ok e fixture_reference None ref He
    ltac:(vm_compute; reflexivity) Hr) as [_ Ho].
  apply Ho in Hk as Hes.
  exists vs, e, h. eexists. refine (conj Hv (conj He (conj Hh (conj _ _)))).
  - unfold build_scenario_result, exact_scenario_result, heuristic_scenario_result. rewrite Hes, Hs. reflexivity.
  - cbn. exact Hk.
Qed.

Lemma published_exact_dominates_witness : exists vs e h r,
  validate_and_decompose_scenario scenario_fixture = Ok vs /\
  build_scenario_result (H := toy_sha256) vs ev2a_bundle july_facts (Some july_dated) e h = Ok r /\
  schedule_cost (er_selected (exact r)) <= schedule_cost (hr_selected (heuristic r)).
Proof.
  destruct fixture_published as (vs & e & h & r & Hv & He & Hh & Hr & Hk). exists vs, e, h, r.
  refine (conj Hv (conj Hr _)).
  assert (1 <= er_highest_objective_stage_proved_optimal (exact r)) as Hk1 by (rewrite Hk; lia).
  exact (proj1 (proj2 (published_exact_dominates (H0 := toy_sha256) exhaustive_solver scenario_fixture vs ev2a_bundle
    july_facts (Some july_dated) None exhaustive_lawful scenario_fixture_ok Hv ev2a_tariff_ok e h r He Hh Hr)) Hk1).
Defined.
