(* ===== verification/Deletion.v ===== *)
(** * Deletion: the deletion protocol (domain/deletion_protocol.py)

    [DeletionProtocolState] is a state machine over a lifecycle and an
    append-only ledger; [step] is its transition relation, one constructor per
    operation.  [DeletionIntentRegistry] keeps the pending intents of the
    owners; the Argon2 hasher and SHA-256 are parameters. *)

From S2P Require Import Prelude Calendar Json.

Inductive LifecycleState := ACTIVE | DELETION_PENDING_LEDGER | DELETING | DELETED.
#[export] Instance LifecycleState_eq_dec : EqDecision LifecycleState.
Proof. solve_decision. Defined.
Inductive LedgerPhase := PREPARED | REQUESTED | COMPLETED | ABORTED.
#[export] Instance LedgerPhase_eq_dec : EqDecision LedgerPhase.
Proof. solve_decision. Defined.

Module Protocol.

Record DeletionProtocolState := {
  lifecycle : LifecycleState;
  original_generation : Z;
  generation : Z;
  ledger_chain : list LedgerPhase;
  intent_consumed : bool;
  sweep_checkpoint : option string
}.

(** The default state of a target at generation [g]. *)
Definition initial (g : Z) : DeletionProtocolState :=
  {| lifecycle := ACTIVE; original_generation := g; generation := g; ledger_chain := [];
     intent_consumed := false; sweep_checkpoint := None |}.

(** [replace(self, ledger_chain=...)] and [replace(self, lifecycle=..., sweep_checkpoint=...)]. *)
Definition with_chain (s : DeletionProtocolState) (chain : list LedgerPhase) : DeletionProtocolState :=
  {| lifecycle := lifecycle s; original_generation := original_generation s; generation := generation s;
     ledger_chain := chain; intent_consumed := intent_consumed s; sweep_checkpoint := sweep_checkpoint s |}.
Definition with_lifecycle (s : DeletionProtocolState) (l : LifecycleState) (cp : option string)
    : DeletionProtocolState :=
  {| lifecycle := l; original_generation := original_generation s; generation := generation s;
     ledger_chain := ledger_chain s; intent_consumed := intent_consumed s; sweep_checkpoint := cp |}.

Definition error (code : string) : exn := DeletionProtocolError code.

Definition append_prepared (s : DeletionProtocolState) : result DeletionProtocolState :=
  _ ← raise_if (negb (bool_decide (lifecycle s = ACTIVE)) || negb (bool_decide (ledger_chain s = [])))
        (error "PREPARE_NOT_ALLOWED");
  Ok (with_chain s [PREPARED]).

Definition fence_database (s : DeletionProtocolState) : result DeletionProtocolState :=
  _ ← raise_if (negb (bool_decide (ledger_chain s = [PREPARED])) || negb (bool_decide (lifecycle s = ACTIVE)))
        (error "FENCE_REQUIRES_PREPARED");
  Ok {| lifecycle := DELETION_PENDING_LEDGER; original_generation := original_generation s;
        generation := original_generation s + 1; ledger_chain := ledger_chain s;
        intent_consumed := true; sweep_checkpoint := Some "FENCE" |}.

Definition append_requested (s : DeletionProtocolState) : result DeletionProtocolState :=
  _ ← raise_if (negb (bool_decide (ledger_chain s = [PREPARED]))
                || negb (bool_decide (lifecycle s = DELETION_PENDING_LEDGER)) || negb (intent_consumed s))
        (error "REQUEST_REQUIRES_FENCE");
  Ok (with_chain s (ledger_chain s ++ [REQUESTED])).

Definition begin_sweep (s : DeletionProtocolState) : result DeletionProtocolState :=
  _ ← raise_if (negb (bool_decide (ledger_chain s = [PREPARED; REQUESTED]))
                || negb (bool_decide (lifecycle s = DELETION_PENDING_LEDGER)))
        (error "SWEEP_REQUIRES_REQUESTED");
  Ok (with_lifecycle s DELETING (Some "DRAIN")).

Definition allowed_checkpoints : list string := ["FENCE"; "DRAIN"; "SWEEP"; "VERIFY"; "COMPLETE"].

Definition checkpoint (s : DeletionProtocolState) (phase : string) : result DeletionProtocolState :=
  _ ← raise_if (negb (bool_decide (lifecycle s = DELETING)) || negb (mem phase allowed_checkpoints))
        (error "INVALID_SWEEP_CHECKPOINT");
  Ok (with_lifecycle s (lifecycle s) (Some phase)).

Definition append_completed (s : DeletionProtocolState) : result DeletionProtocolState :=
  _ ← raise_if (negb (bool_decide (lifecycle s = DELETING))
                || negb (bool_decide (sweep_checkpoint s = Some "VERIFY"))
                || negb (bool_decide (ledger_chain s = [PREPARED; REQUESTED])))
        (error "COMPLETE_REQUIRES_VERIFIED_SWEEP");
  Ok (with_chain s (ledger_chain s ++ [COMPLETED])).

Definition finalize_deleted (s : DeletionProtocolState) : result DeletionProtocolState :=
  _ ← raise_if (negb (bool_decide (last (ledger_chain s) = Some COMPLETED))
                || negb (bool_decide (lifecycle s = DELETING)))
        (error "FINALIZE_REQUIRES_COMPLETED");
  Ok (with_lifecycle s DELETED None).

Definition append_aborted (s : DeletionProtocolState) (authoritative_noncommit : bool)
    : result DeletionProtocolState :=
  _ ← raise_if (negb (bool_decide (ledger_chain s = [PREPARED])) || negb (bool_decide (lifecycle s = ACTIVE))
                || negb authoritative_noncommit)
        (error "ABORT_REQUIRES_PROVED_NONCOMMIT");
  Ok (with_chain s (ledger_chain s ++ [ABORTED])).

Definition restore_exposure_allowed (s : DeletionProtocolState) : bool :=
  if negb (bool_decide (lifecycle s = ACTIVE)) then false
  else bool_decide (ledger_chain s = []) || bool_decide (last (ledger_chain s) = Some ABORTED).

Definition validate (s : DeletionProtocolState) : result unit :=
  let suppressive := mem REQUESTED (ledger_chain s) || mem COMPLETED (ledger_chain s) in
  _ ← raise_if (suppressive && bool_decide (lifecycle s = ACTIVE))
        (error "SUPPRESSIVE_EVENT_WITH_ACTIVE_TARGET");
  _ ← raise_if (match ledger_chain s with [] => false | p :: _ => negb (bool_decide (p = PREPARED)) end)
        (error "PREPARED_MUST_BE_FIRST");
  raise_if (mem ABORTED (ledger_chain s) && mem REQUESTED (ledger_chain s)) (error "ILLEGAL_LEDGER_CHAIN").

(** ** Transitions *)
Inductive op :=
| OpPrepared | OpFence | OpRequested | OpBeginSweep | OpCheckpoint (phase : string) | OpCompleted
| OpFinalize | OpAborted (authoritative_noncommit : bool).

Definition apply_op (s : DeletionProtocolState) (o : op) : result DeletionProtocolState :=
  match o with
  | OpPrepared => append_prepared s
  | OpFence => fence_database s
  | OpRequested => append_requested s
  | OpBeginSweep => begin_sweep s
  | OpCheckpoint phase => checkpoint s phase
  | OpCompleted => append_completed s
  | OpFinalize => finalize_deleted s
  | OpAborted b => append_aborted s b
  end.

Inductive step : DeletionProtocolState -> op -> DeletionProtocolState -> Prop :=
| step_op s o s' : apply_op s o = Ok s' -> step s o s'.

Inductive reachable (g : Z) : DeletionProtocolState -> Prop :=
| reachable_init : reachable g (initial g)
| reachable_step s o s' : reachable g s -> step s o s' -> reachable g s'.

(** A sequence of operations. *)
Definition run (s : DeletionProtocolState) (os : list op) : result DeletionProtocolState :=
  foldM apply_op s os.

(** ** The phases of a target's life *)
Inductive phase_of (g : Z) : DeletionProtocolState -> Prop :=
| ph_active : phase_of g (initial g)
| ph_prepared : phase_of g (with_chain (initial g) [PREPARED])
| ph_aborted : phase_of g (with_chain (initial g) [PREPARED; ABORTED])
| ph_fenced chain : chain = [PREPARED] \/ chain = [PREPARED; REQUESTED] ->
    phase_of g {| lifecycle := DELETION_PENDING_LEDGER; original_generation := g; generation := g + 1;
                  ledger_chain := chain; intent_consumed := true; sweep_checkpoint := Some "FENCE" |}
| ph_sweeping chain cp : chain = [PREPARED; REQUESTED] \/ chain = [PREPARED; REQUESTED; COMPLETED] ->
    cp ∈ allowed_checkpoints ->
    phase_of g {| lifecycle := DELETING; original_generation := g; generation := g + 1;
                  ledger_chain := chain; intent_consumed := true; sweep_checkpoint := Some cp |}
| ph_deleted :
    phase_of g {| lifecycle := DELETED; original_generation := g; generation := g + 1;
                  ledger_chain := [PREPARED; REQUESTED; COMPLETED]; intent_consumed := true;
                  sweep_checkpoint := None |}.

#[local] Hint Constructors phase_of : replay.

(** A step from a known state is decided by evaluating its guard. *)
Ltac op_cases Ho :=
  simpl in Ho; unfold append_prepared, fence_database, append_requested, begin_sweep, checkpoint,
    append_completed, finalize_deleted, append_aborted in Ho; simpl in Ho;
  try discriminate Ho.

Lemma phase_step g s o s' : phase_of g s -> step s o s' -> phase_of g s'.
Proof.
  intros Hp Hs. inversion Hs as [? ? ? Ho]; subst.
  destruct Hp as [| | |chain [-> | ->]|chain cp [-> | ->] Hcp|];
    destruct o as [| | | |cp'| | |b]; op_cases Ho.
  - injection Ho as <-. constructor.
  - injection Ho as <-. apply ph_fenced. by left.
  - destruct b; [|discriminate Ho]. injection Ho as <-. apply ph_aborted.
  - injection Ho as <-. apply ph_fenced. by right.
  - injection Ho as <-. apply ph_sweeping; [by left|]. vm_compute. set_solver.
  - apply bind_ok in Ho as (u & Hm & [= <-]). apply raise_if_ok, negb_false_iff, mem_true in Hm.
    apply ph_sweeping; [by left|done].
  - apply bind_ok in Ho as (u & _ & [= <-]). apply ph_sweeping; [by right|done].
  - apply bind_ok in Ho as (u & Hm & [= <-]). apply raise_if_ok, negb_false_iff, mem_true in Hm.
    apply ph_sweeping; [by right|done].
  - apply bind_ok in Ho as (u & Hm & [= <-]). apply raise_if_ok in Hm. bools. done.
  - injection Ho as <-. apply ph_deleted.
Qed.

Lemma reachable_phase g s : reachable g s -> phase_of g s.
Proof. induction 1 as [|s o s' _ IH Hs]; [constructor|]. by eapply phase_step. Qed.

Lemma run_phase g s os s' : phase_of g s -> run s os = Ok s' -> phase_of g s'.
Proof.
  intros Hp. apply (foldM_inv apply_op (phase_of g)); [done|].
  intros o s1 s2 _ H1 Ho. eapply phase_step; [done|]. by constructor.
Qed.

Lemma run_reachable g os s : run (initial g) os = Ok s -> reachable g s.
Proof.
  apply (foldM_inv apply_op (reachable g)); [constructor|].
  intros o s1 s2 _ H1 Ho. eapply reachable_step; [done|]. by constructor.
Qed.

(** Every phase is reached by the operations of a normal deletion. *)
Definition path_to (s : DeletionProtocolState) : list op :=
  match lifecycle s, ledger_chain s with
  | ACTIVE, [] => []
  | ACTIVE, [_] => [OpPrepared]
  | ACTIVE, _ => [OpPrepared; OpAborted true]
  | DELETION_PENDING_LEDGER, [_] => [OpPrepared; OpFence]
  | DELETION_PENDING_LEDGER, _ => [OpPrepared; OpFence; OpRequested]
  | DELETING, [_; _] => [OpPrepared; OpFence; OpRequested; OpBeginSweep;
                         OpCheckpoint (default EmptyString (sweep_checkpoint s))]
  | DELETING, _ => [OpPrepared; OpFence; OpRequested; OpBeginSweep; OpCheckpoint "VERIFY"; OpCompleted;
                    OpCheckpoint (default EmptyString (sweep_checkpoint s))]
  | DELETED, _ => [OpPrepared; OpFence; OpRequested; OpBeginSweep; OpCheckpoint "VERIFY"; OpCompleted;
                   OpFinalize]
  end.

Lemma run_path_to g s : phase_of g s -> run (initial g) (path_to s) = Ok s.
Proof.
  intros Hp. destruct Hp as [| | |chain [-> | ->]|chain cp [-> | ->] Hcp|]; try reflexivity.
  - vm_compute in Hcp |- *. repeat (apply elem_of_cons in Hcp as [->|Hcp]; [reflexivity|]).
    by apply not_elem_of_nil in Hcp.
  - vm_compute in Hcp |- *. repeat (apply elem_of_cons in Hcp as [->|Hcp]; [reflexivity|]).
    by apply not_elem_of_nil in Hcp.
Qed.

(** The reachable states are exactly the phases of the protocol; in each of
    them the ledger validates, exposure may be restored only while the target was
    never fenced, and a deleted target has the complete ledger chain. *)
Theorem reachable_states g s :
  (reachable g s <-> phase_of g s) /\
  (reachable g s ->
   validate s = Ok tt /\
   (restore_exposure_allowed s = true <-> ledger_chain s = [] \/ ledger_chain s = [PREPARED; ABORTED]) /\
   (lifecycle s = ACTIVE -> generation s = original_generation s /\ intent_consumed s = false) /\
   (lifecycle s <> ACTIVE -> generation s = original_generation s + 1 /\ intent_consumed s = true) /\
   (lifecycle s = DELETED -> ledger_chain s = [PREPARED; REQUESTED; COMPLETED])).
Proof.
  split; [split; [apply reachable_phase|intros Hp; eapply run_reachable, run_path_to, Hp]|].
  intros Hr%reachable_phase.
  destruct Hr as [| | |chain [-> | ->]|chain cp [-> | ->] Hcp|]; simpl;
    (split; [reflexivity|]); (split; [naive_solver|]); naive_solver.
Qed.

(** A fence is irrevocable: whatever operations follow, the target never becomes
    active or exposable again, the ledger only grows, and the generation stays. *)
Theorem fence_irrevocable g s os s' :
  reachable g s -> lifecycle s <> ACTIVE -> run s os = Ok s' ->
  lifecycle s' <> ACTIVE /\ restore_exposure_allowed s' = false /\
  ledger_chain s `prefix_of` ledger_chain s' /\ generation s' = generation s.
Proof.
  intros Hr%reachable_phase Hna.
  set (P s' := phase_of g s' /\ lifecycle s' <> ACTIVE /\ ledger_chain s `prefix_of` ledger_chain s' /\
               generation s' = generation s).
  intros Hrun. assert (P s') as (_ & Hl & Hc & Hg).
  { revert Hrun. apply (foldM_inv apply_op P); [done|].
    intros o s1 s2 _ (Hp & Hl & Hc & Hg) Ho.
    assert (phase_of g s2) as Hp2 by (eapply phase_step; [exact Hp|]; by constructor).
    split; [done|].
    assert (lifecycle s2 <> ACTIVE /\ ledger_chain s1 `prefix_of` ledger_chain s2 /\
            generation s2 = generation s1) as (H1 & H2 & H3).
    { clear Hc Hg P Hna Hr Hp2. destruct Hp as [| | |chain [-> | ->]|chain cp [-> | ->] Hcp|]; try done;
        destruct o as [| | | |cp'| | |b]; op_cases Ho;
        repeat (apply bind_ok in Ho as (? & ? & Ho)); injection Ho as <-; simpl;
        (split; [done|]); (split; [|done]); try done; by eexists. }
    split; [done|]. split; [by etrans|congruence]. }
  split; [done|]. split; [|done]. unfold restore_exposure_allowed. by rewrite bool_decide_eq_false_2.
Qed.

Definition is_checkpoint (o : op) : bool := match o with OpCheckpoint _ => true | _ => false end.

(** The operations a history must contain to lead to [s]. *)
Definition history (os : list op) (s : DeletionProtocolState) : Prop :=
  List.filter (fun o => negb (is_checkpoint o)) os
  = List.filter (fun o => negb (is_checkpoint o)) (path_to s) /\
  (lifecycle s = DELETING -> sweep_checkpoint s = Some "VERIFY" -> ledger_chain s = [PREPARED; REQUESTED] ->
   exists l, os = l ++ [OpCheckpoint "VERIFY"]) /\
  (COMPLETED ∈ ledger_chain s -> exists l1 l2, os = l1 ++ [OpCheckpoint "VERIFY"; OpCompleted] ++ l2).

Lemma history_step g os s o s' :
  phase_of g s -> history os s -> apply_op s o = Ok s' -> history (os ++ [o]) s'.
Proof.
  intros Hp (Hf & Hv & Hc) Ho. unfold history. rewrite List.filter_app, Hf.
  assert (COMPLETED ∈ ledger_chain s ->
          exists l1 l2, os ++ [o] = l1 ++ [OpCheckpoint "VERIFY"; OpCompleted] ++ l2) as Hc'.
  { intros Hin. destruct (Hc Hin) as (l1 & l2 & ->). exists l1, (l2 ++ [o]). by rewrite <- !app_assoc. }
  destruct Hp as [| | |chain [-> | ->]|chain cp [-> | ->] Hcp|];
    destruct o as [| | | |cp'| | |b]; op_cases Ho;
    repeat (apply bind_ok in Ho as (? & Hm & Ho)); try (destruct b; [|discriminate Hm]);
    try (rewrite orb_true_r in Hm; discriminate Hm);
    injection Ho as <-; simpl in *; (split; [reflexivity|]); (split; [try done|try set_solver]).
  - intros _ [= ->] _. by exists os.
  - intros _. apply raise_if_ok in Hm. bools. destruct (Hv eq_refl) as [l ->]; [done|done|].
    exists l, []. by rewrite <- app_assoc.
Qed.

(** A target is deleted only by the full sequence: every history that ends in
    [DELETED] consists, apart from sweep checkpoints, of prepare, fence, request,
    sweep, complete and finalize in this order, and the sweep was verified
    immediately before the completion was recorded. *)
Theorem deletion_order g os s :
  run (initial g) os = Ok s -> lifecycle s = DELETED ->
  List.filter (fun o => negb (is_checkpoint o)) os
  = [OpPrepared; OpFence; OpRequested; OpBeginSweep; OpCompleted; OpFinalize] /\
  exists l1 l2, os = l1 ++ [OpCheckpoint "VERIFY"; OpCompleted] ++ l2.
Proof.
  intros Hrun Hd. pose proof (run_phase g _ _ _ (ph_active g) Hrun) as Hp.
  assert (phase_of g s /\ history os s) as [_ (Hf & _ & Hc)].
  { revert Hrun. apply (foldM_prefix_inv apply_op (fun os s => phase_of g s /\ history os s)).
    - split; [constructor|]. split; [done|]. split; [done|]. simpl. set_solver.
    - intros done o s1 s2 _ [Hp1 Hh] Ho. split; [eapply phase_step; [exact Hp1|]; by constructor|].
      by eapply history_step. }
  destruct Hp as [| | |chain [-> | ->]|chain cp [-> | ->] Hcp|]; try done.
  split; [exact Hf|]. apply Hc. simpl. set_solver.
Qed.

Definition deletion_script : list op :=
  [OpPrepared; OpFence; OpRequested; OpBeginSweep; OpCheckpoint "SWEEP"; OpCheckpoint "VERIFY";
   OpCompleted; OpCheckpoint "COMPLETE"; OpFinalize].

Lemma deletion_order_witness :
  exists s, run (initial 3) deletion_script = Ok s /\ lifecycle s = DELETED /\
    exists l1 l2, deletion_script = l1 ++ [OpCheckpoint "VERIFY"; OpCompleted] ++ l2.
Proof.
  destruct (run (initial 3) deletion_script) as [s|] eqn:E; [|discriminate E].
  exists s. split; [reflexivity|]. assert (lifecycle s = DELETED) as Hd by (vm_compute in E; by injection E as <-).
  split; [exact Hd|]. apply (deletion_order 3 deletion_script s E Hd).
Defined.

Lemma fence_irrevocable_witness :
  exists s s', run (initial 3) [OpPrepared; OpFence] = Ok s /\ run s [OpRequested; OpBeginSweep] = Ok s' /\
    restore_exposure_allowed s' = false.
Proof.
  destruct (run (initial 3) [OpPrepared; OpFence]) as [s|] eqn:E; [|discriminate E].
  destruct (run s [OpRequested; OpBeginSweep]) as [s'|] eqn:E'.
  - exists s, s'. split; [reflexivity|]. split; [exact E'|].
    apply (fence_irrevocable 3 s [OpRequested; OpBeginSweep] s').
    + by eapply run_reachable.
    + vm_compute in E. injection E as <-. discriminate.
    + exact E'.
  - vm_compute in E. injection E as <-. discriminate E'.
Defined.

Lemma reachable_states_witness : reachable 3 (initial 3) /\ validate (initial 3) = Ok tt.
Proof.
  split; [constructor|]. destruct (reachable_states 3 (initial 3)) as [_ H]. apply H. constructor.
Defined.
End Protocol.

(** ** Deletion intents *)
Module Registry.

(** Argon2 with an explicit salt, and its documented round trip. *)
Class ReceiptHasher := {
  receipt_hash : string -> string -> string;   (** salt, secret *)
  receipt_verify : string -> string -> bool    (** verifier, secret *)
}.
Class ReceiptLaws `{ReceiptHasher} : Prop :=
  receipt_round_trip salt secret : receipt_verify (receipt_hash salt secret) secret = true.

(** A [datetime], as microseconds of UTC when it is timezone-aware. *)
Inductive timestamp := Naive | Aware (instant : Z).

Record DeletionIntent := {
  deletion_id : string;
  owner_id : string;
  idempotency_key : string;
  receipt_digest : string;
  receipt_verifier : string;
  created_at : Z;
  expires_at : Z;
  consumed : bool;
  prepared : bool;
  session_revoked : bool;
  intent_status : string
}.

Record DeletionIntentRegistry := {
  by_owner : gmap string DeletionIntent;
  by_id : gmap string DeletionIntent
}.
Definition empty_registry : DeletionIntentRegistry := {| by_owner := ∅; by_id := ∅ |}.

Definition INTENT_LIFETIME : Z := 15 * 60 * US_PER_SECOND.

Section Operations.
Context `{Sha256} `{ReceiptHasher}.

Definition digest_of (secret : string) : string :=
  sha256_hex ("RateReplay.DeletionReceipt.v1" +:+ chr 0 +:+ secret).

Definition deletion_id_of (owner key digest : string) : string :=
  String.substring 0 32
    (sha256_hex ("RateReplay.DeletionId.v1" +:+ chr 0 +:+ owner +:+ chr 0 +:+ key +:+ chr 0 +:+ digest)).

Definition verify_receipt (i : DeletionIntent) (secret : string) : bool :=
  receipt_verify (receipt_verifier i) secret.

Definition store (r : DeletionIntentRegistry) (owner id : string) (i : DeletionIntent)
    : DeletionIntentRegistry :=
  {| by_owner := <[owner := i]> (by_owner r); by_id := <[id := i]> (by_id r) |}.

Definition new_intent (owner key secret salt : string) (now expires : Z) : DeletionIntent :=
  let digest := digest_of secret in
  {| deletion_id := deletion_id_of owner key digest; owner_id := owner; idempotency_key := key;
     receipt_digest := digest; receipt_verifier := receipt_hash salt secret; created_at := now;
     expires_at := expires; consumed := false; prepared := false; session_revoked := false;
     intent_status := "INTENT_CREATED" |}.

Definition create_new (r : DeletionIntentRegistry) (owner key secret salt : string) (now : Z)
    : result (DeletionIntentRegistry * DeletionIntent) :=
  expires ← datetime_check (now + INTENT_LIFETIME);
  let i := new_intent owner key secret salt now expires in
  Ok (store r owner (deletion_id i) i, i).

Definition create (r : DeletionIntentRegistry) (owner key secret salt : string) (now : timestamp)
    : result (DeletionIntentRegistry * DeletionIntent) :=
  match now with
  | Naive => Raise (PyError "TypeError")
  | Aware now =>
      match by_owner r !! owner with
      | None => create_new r owner key secret salt now
      | Some current =>
          if String.eqb (idempotency_key current) key
             && String.eqb (receipt_digest current) (digest_of secret)
          then _ ← raise_if ((expires_at current <=? now) && negb (prepared current))
                     (DeletionProtocolError "INTENT_EXPIRED");
               Ok (r, current)
          else _ ← raise_if (prepared current || (now <? expires_at current))
                     (DeletionProtocolError "DELETION_ALREADY_PENDING");
               create_new r owner key secret salt now
      end
  end.

Definition mark_consumed (i : DeletionIntent) : DeletionIntent :=
  {| deletion_id := deletion_id i; owner_id := owner_id i; idempotency_key := idempotency_key i;
     receipt_digest := receipt_digest i; receipt_verifier := receipt_verifier i;
     created_at := created_at i; expires_at := expires_at i; consumed := true; prepared := true;
     session_revoked := true; intent_status := "DELETION_PENDING_LEDGER" |}.

Definition consume (r : DeletionIntentRegistry) (id owner secret : string) (now : timestamp)
    : result (DeletionIntentRegistry * DeletionIntent) :=
  match by_id r !! id with
  | None => Raise (DeletionProtocolError "INVALID_DELETION_PROOF")
  | Some i =>
      _ ← raise_if (negb (String.eqb (owner_id i) owner) || negb (verify_receipt i secret))
            (DeletionProtocolError "INVALID_DELETION_PROOF");
      match now with
      | Naive => Raise (PyError "TypeError")
      | Aware now =>
          _ ← raise_if ((expires_at i <=? now) && negb (prepared i)) (DeletionProtocolError "INTENT_EXPIRED");
          if consumed i then Ok (r, i)
          else Ok (store r owner id (mark_consumed i), mark_consumed i)
      end
  end.

Definition status (r : DeletionIntentRegistry) (id secret : string) : result string :=
  match by_id r !! id with
  | None => Raise (DeletionProtocolError "INVALID_DELETION_PROOF")
  | Some i =>
      _ ← raise_if (negb (verify_receipt i secret)) (DeletionProtocolError "INVALID_DELETION_PROOF");
      Ok (intent_status i)
  end.

(** ** Reachable registries *)

(** The truncated digest does not collide with a stored identifier. *)
Definition no_collision (r : DeletionIntentRegistry) (owner key digest : string) : Prop :=
  forall i, by_id r !! deletion_id_of owner key digest = Some i ->
    owner_id i = owner /\ idempotency_key i = key /\ receipt_digest i = digest.

(** One operation on a clock that never runs backwards: [t] is the time of the
    operation before, [now] its own. *)
Inductive event : Z -> DeletionIntentRegistry -> Z -> DeletionIntentRegistry -> Prop :=
| ev_create t r owner key secret salt now r' i :
    t <= now -> no_collision r owner key (digest_of secret) ->
    create r owner key secret salt (Aware now) = Ok (r', i) -> event t r now r'
| ev_consume t r id owner secret now r' i :
    t <= now -> consume r id owner secret (Aware now) = Ok (r', i) -> event t r now r'.

Inductive evolves (t : Z) (r : DeletionIntentRegistry) : Z -> DeletionIntentRegistry -> Prop :=
| evolves_refl : evolves t r t r
| evolves_event t1 r1 t2 r2 : evolves t r t1 r1 -> event t1 r1 t2 r2 -> evolves t r t2 r2.

Definition reachable (t : Z) (r : DeletionIntentRegistry) : Prop :=
  exists t0, evolves t0 empty_registry t r.

(** What every registry satisfies at time [t]: the owner index points into the
    identifier index; an identifier not current for its owner has expired without
    being prepared; and an intent is consumed exactly when it is prepared. *)
Record registry_ok (t : Z) (r : DeletionIntentRegistry) : Prop := {
  rk_owner owner i : by_owner r !! owner = Some i ->
    owner_id i = owner /\ by_id r !! deletion_id i = Some i;
  rk_id id i : by_id r !! id = Some i ->
    deletion_id i = id /\ consumed i = prepared i /\
    (by_owner r !! owner_id i = Some i \/ (expires_at i <= t /\ prepared i = false))
}.

Lemma registry_ok_later t t' r : t <= t' -> registry_ok t r -> registry_ok t' r.
Proof.
  intros Ht [Ho Hi]. split; [done|]. intros id i Hid. destruct (Hi _ _ Hid) as (? & ? & [?|[? ?]]); [auto|].
  split; [done|]. split; [done|]. right. split; [lia|done].
Qed.

(** Storing an intent keeps the invariant when the intent it displaces for the
    owner is stored under the same identifier or has expired unprepared. *)
Lemma store_ok t r owner i :
  registry_ok t r -> owner_id i = owner -> consumed i = prepared i ->
  (forall j, by_owner r !! owner = Some j ->
     deletion_id j = deletion_id i \/ (expires_at j <= t /\ prepared j = false)) ->
  (forall j, by_id r !! deletion_id i = Some j -> owner_id j = owner) ->
  registry_ok t (store r owner (deletion_id i) i).
Proof.
  intros [Ho Hi] Hown Hcp Hold Hsame. split; simpl.
  - intros o j. rewrite lookup_insert_Some. intros [[<- <-]|[Hne Hj]].
    { split; [done|]. by rewrite lookup_insert_eq. }
    destruct (Ho _ _ Hj) as [Hjo Hjid]. split; [done|]. rewrite lookup_insert_ne; [done|].
    intros E. rewrite <- E in Hjid. apply Hsame in Hjid. congruence.
  - intros id j. rewrite lookup_insert_Some. intros [[<- <-]|[Hne Hj]].
    { split; [done|]. split; [done|]. left. rewrite Hown. by rewrite lookup_insert_eq. }
    destruct (Hi _ _ Hj) as (Hjid & Hjc & Hcur). split; [done|]. split; [done|].
    destruct (decide (owner_id j = owner)) as [E|E].
    + right. destruct Hcur as [Hcur|Hcur]; [|done]. rewrite E in Hcur.
      destruct (Hold _ Hcur) as [Hid|?]; [|done]. congruence.
    + rewrite lookup_insert_ne by done. done.
Qed.

Lemma create_ok_inv t r owner key secret salt now r' i :
  registry_ok t r -> t <= now -> no_collision r owner key (digest_of secret) ->
  create r owner key secret salt (Aware now) = Ok (r', i) -> registry_ok now r'.
Proof.
  intros Hr Ht Hnc. apply (registry_ok_later _ now) in Hr; [|done]. simpl.
  destruct (by_owner r !! owner) as [cur|] eqn:Ecur.
  - destruct (String.eqb _ _ && _) eqn:Esame.
    + intros Hok. apply bind_ok in Hok as (u & _ & [= <- <-]). done.
    + intros Hok. apply bind_ok in Hok as (u & Hexp & Hok). apply raise_if_ok in Hexp. bools.
      unfold create_new in Hok. apply bind_ok in Hok as (ex & _ & [= <- <-]).
      apply store_ok; try done.
      * intros j [= <-]%(eq_trans (eq_sym Ecur)). right. done.
      * intros j Hj. by apply Hnc in Hj as [? _].
  - unfold create_new. intros Hok. apply bind_ok in Hok as (ex & _ & [= <- <-]).
    apply store_ok; try done; [congruence|]. intros j Hj. by apply Hnc in Hj as [? _].
Qed.

(** The intent a successful [consume] acts on is its owner's current one. *)
Lemma consume_current t r id owner secret now r' i' :
  registry_ok t r -> t <= now -> consume r id owner secret (Aware now) = Ok (r', i') ->
  exists i, by_id r !! id = Some i /\ deletion_id i = id /\ owner_id i = owner /\
    verify_receipt i secret = true /\ (prepared i = true \/ now < expires_at i) /\
    by_owner r !! owner = Some i /\
    (if consumed i then r' = r /\ i' = i
     else r' = store r owner id (mark_consumed i) /\ i' = mark_consumed i).
Proof.
  intros [Ho Hi] Ht. unfold consume. destruct (by_id r !! id) as [i|] eqn:Eid; [|done].
  intros Hok. apply bind_ok in Hok as (u & Hp & Hok). apply bind_ok in Hok as (u' & Hx & Hok).
  apply raise_if_ok in Hp, Hx. bools.
  match goal with E : String.eqb _ _ = true |- _ => apply String.eqb_eq in E as <- end.
  apply andb_false_iff in Hx. rewrite Z.leb_gt, negb_false_iff in Hx.
  destruct (Hi _ _ Eid) as (Hid & Hc & Hcur). exists i. split; [done|]. split; [done|]. split; [done|].
  split; [done|]. split; [destruct Hx; auto|]. split.
  - destruct Hcur as [?|[Hexp Hnp]]; [done|]. destruct Hx; [lia|congruence].
  - destruct (consumed i); by injection Hok as <- <-.
Qed.

Lemma consume_ok_inv t r id owner secret now r' i :
  registry_ok t r -> t <= now -> consume r id owner secret (Aware now) = Ok (r', i) -> registry_ok now r'.
Proof.
  intros Hr Ht Hok.
  destruct (consume_current _ _ _ _ _ _ _ _ Hr Ht Hok) as (j & Hj & Hid & Hown & _ & _ & Hcur & Hres).
  apply (registry_ok_later _ now) in Hr; [|done]. destruct (consumed j); destruct Hres as [-> _]; [done|].
  rewrite <- Hid. apply (store_ok now r owner (mark_consumed j)); try done; simpl.
  - intros k Hk. left. congruence.
  - intros k Hk. rewrite Hid, Hj in Hk. congruence.
Qed.

Lemma event_ok t r t' r' : event t r t' r' -> registry_ok t r -> registry_ok t' r'.
Proof. destruct 1; intros Hr; [by eapply create_ok_inv|by eapply consume_ok_inv]. Qed.

Lemma evolves_ok t r t' r' : evolves t r t' r' -> registry_ok t r -> registry_ok t' r'.
Proof. induction 1 as [|t1 r1 t2 r2 _ IH He]; intros Hr; [done|]. eapply event_ok; eauto. Qed.

Lemma reachable_ok t r : reachable t r -> registry_ok t r.
Proof.
  intros [t0 He]. eapply evolves_ok; [exact He|]. split; intros ? ?; simpl; by rewrite lookup_empty.
Qed.

(** C24: On a clock that never runs backwards a deletion proof is only ever honoured
    for the owner's current intent, presented with a receipt that verifies, and
    only while that intent is unexpired or once it has been prepared: a prepared
    intent stays recoverable after its expiry, an intent that expired unprepared
    and one that was superseded can never be consumed.  Consuming leaves the
    intent consumed, and consuming again changes nothing. *)
Theorem consume_only_current t r id owner secret now r' i :
  reachable t r -> t <= now -> consume r id owner secret (Aware now) = Ok (r', i) ->
  exists j, by_owner r !! owner = Some j /\ deletion_id j = id /\ verify_receipt j secret = true /\
    (prepared j = true \/ now < expires_at j) /\
    by_owner r' !! owner = Some i /\ by_id r' !! id = Some i /\ consumed i = true /\
    consume r' id owner secret (Aware now) = Ok (r', i).
Proof.
  intros Hr%reachable_ok Ht Hok.
  destruct (consume_current _ _ _ _ _ _ _ _ Hr Ht Hok) as (j & Hj & Hid & Hown & Hv & Hx & Hcur & Hres).
  pose proof (proj1 (proj2 (rk_id _ _ Hr _ _ Hj))) as Hcp.
  exists j. split; [done|]. split; [done|]. split; [done|]. split; [done|].
  destruct (consumed j) eqn:Ec; destruct Hres as [-> ->].
  - repeat (split; [done|]). done.
  - unfold store at 1 2. simpl. rewrite !lookup_insert_eq. split; [done|]. split; [done|]. split; [done|].
    unfold consume, store at 1. simpl. rewrite lookup_insert_eq. unfold verify_receipt in *. simpl.
    rewrite Hown, String.eqb_refl, Hv. simpl. by rewrite andb_false_r.
Qed.

Lemma event_keeps_prepared t r t' r' owner i :
  registry_ok t r -> by_owner r !! owner = Some i -> prepared i = true -> event t r t' r' ->
  by_owner r' !! owner = Some i.
Proof.
  intros Hr Hi Hp He. destruct He as [t r1 o k s salt now r2 j Ht Hnc Hok|t r1 id o s now r2 j Ht Hok].
  - simpl in Hok. destruct (decide (o = owner)) as [->|Hne].
    + rewrite Hi in Hok. destruct (String.eqb _ _ && _).
      * apply bind_ok in Hok as (? & _ & [= <- <-]). done.
      * rewrite Hp in Hok. done.
    + assert (forall out, create_new r1 o k s salt now = Ok out -> by_owner out.1 !! owner = Some i) as Hnew.
      { intros out Ho. unfold create_new in Ho. apply bind_ok in Ho as (ex & _ & [= <-]). simpl.
        by rewrite lookup_insert_ne. }
      destruct (by_owner r1 !! o) as [cur|]; [|by apply (Hnew (r2, j))].
      destruct (String.eqb _ _ && _); apply bind_ok in Hok as (? & _ & Hok); [by injection Hok as <- <-|].
      by apply (Hnew (r2, j)).
  - destruct (consume_current _ _ _ _ _ _ _ _ Hr Ht Hok) as (c & Hc & Hid & Hown & _ & _ & Hcur & Hres).
    destruct (consumed c) eqn:Ec; destruct Hres as [-> _]; [done|]. simpl.
    destruct (decide (o = owner)) as [->|Hne]; [|by rewrite lookup_insert_ne].
    destruct (rk_id _ _ Hr _ _ Hc) as (_ & Hcp & _). congruence.
Qed.

(** Once an owner's deletion is prepared it is permanent: no sequence of later
    creations and consumptions, by anyone, replaces or changes that owner's intent. *)
Theorem prepared_is_permanent t r owner i t' r' :
  reachable t r -> by_owner r !! owner = Some i -> prepared i = true -> evolves t r t' r' ->
  by_owner r' !! owner = Some i.
Proof.
  intros Hr%reachable_ok Hi Hp He. induction He as [|t1 r1 t2 r2 He IH Hev]; [done|].
  eapply event_keeps_prepared; [by eapply evolves_ok|done|done|exact Hev].
Qed.

(** Creating a deletion intent is idempotent until it expires, and the receipt
    returned by creation is accepted: consuming within the quarter of an hour
    succeeds, moves the status to pending and revokes the session. *)
Theorem create_then_consume `{!ReceiptLaws} t r owner key secret salt now r1 i later :
  reachable t r -> t <= now -> no_collision r owner key (digest_of secret) ->
  by_owner r !! owner = None -> create r owner key secret salt (Aware now) = Ok (r1, i) ->
  now <= later < now + INTENT_LIFETIME ->
  (forall salt', create r1 owner key secret salt' (Aware later) = Ok (r1, i)) /\
  exists r2, consume r1 (deletion_id i) owner secret (Aware later) = Ok (r2, mark_consumed i) /\
    status r2 (deletion_id i) secret = Ok "DELETION_PENDING_LEDGER" /\
    session_revoked (mark_consumed i) = true.
Proof.
  intros Hr Ht Hnc Hnone Hok Hl. simpl in Hok. rewrite Hnone in Hok. unfold create_new in Hok.
  apply bind_ok in Hok as (ex & Hex & [= <- <-]). apply datetime_check_ok in Hex as [-> _].
  set (i := new_intent _ _ _ _ _ _). split.
  - intros salt'. simpl. rewrite lookup_insert_eq. simpl. rewrite !String.eqb_refl. simpl.
    destruct (Z.leb_spec (now + INTENT_LIFETIME) later); [lia|done].
  - unfold consume. simpl. rewrite lookup_insert_eq. unfold verify_receipt. simpl.
    rewrite String.eqb_refl, receipt_round_trip. simpl.
    destruct (Z.leb_spec (now + INTENT_LIFETIME) later); [lia|]. simpl. eexists. split; [done|].
    split; [|done]. unfold status, store. simpl. rewrite lookup_insert_eq. unfold verify_receipt. simpl.
    by rewrite receipt_round_trip.
Qed.
End Operations.

(** ** A registry with one owner *)
Definition plain_hasher : ReceiptHasher :=
  {| receipt_hash salt secret := secret; receipt_verify verifier secret := String.eqb verifier secret |}.
Lemma plain_laws : ReceiptLaws (H := plain_hasher).
Proof. intros salt secret. apply String.eqb_refl. Qed.

Notation create_ann r now :=
  (create (H := toy_sha256) (H0 := plain_hasher) r "ann" "k1" "secret" "salt" (Aware now)).

Lemma no_collision_empty `{Sha256} owner key digest : no_collision empty_registry owner key digest.
Proof. intros i Hi. simpl in Hi. by rewrite lookup_empty in Hi. Qed.

Lemma create_then_consume_witness :
  exists r1 i r2, create_ann empty_registry 100 = Ok (r1, i) /\
    consume (H0 := plain_hasher) r1 (deletion_id i) "ann" "secret" (Aware 200) = Ok (r2, mark_consumed i).
Proof.
  destruct (create_ann empty_registry 100) as [[r1 i]|] eqn:E; [|vm_compute in E; discriminate E].
  destruct (create_then_consume (H := toy_sha256) (H0 := plain_hasher) (H1 := plain_laws)
    0 empty_registry "ann" "k1" "secret" "salt" 100 r1 i 200) as (_ & r2 & Hc & _).
  - exists 0. constructor.
  - lia.
  - apply no_collision_empty.
  - reflexivity.
  - exact E.
  - unfold INTENT_LIFETIME, US_PER_SECOND. lia.
  - exists r1, i, r2. split; [reflexivity|exact Hc].
Defined.

Lemma ann_reachable r1 i : create_ann empty_registry 100 = Ok (r1, i) ->
  reachable (H := toy_sha256) (H0 := plain_hasher) 100 r1.
Proof.
  intros E. exists 0. eapply evolves_event; [constructor|].
  eapply ev_create; [|apply no_collision_empty|exact E]. lia.
Qed.

Lemma consume_only_current_witness :
  exists r1 i r2 j, create_ann empty_registry 100 = Ok (r1, i) /\
    consume (H0 := plain_hasher) r1 (deletion_id i) "ann" "secret" (Aware 200) = Ok (r2, j) /\
    exists k, by_owner r1 !! "ann" = Some k /\ deletion_id k = deletion_id i.
Proof.
  destruct (create_ann empty_registry 100) as [[r1 i]|] eqn:E; [|vm_compute in E; discriminate E].
  destruct (consume (H0 := plain_hasher) r1 (deletion_id i) "ann" "secret" (Aware 200)) as [[r2 j]|] eqn:Ec.
  - exists r1, i, r2, j. split; [reflexivity|]. split; [exact Ec|].
    destruct (consume_only_current (H := toy_sha256) (H0 := plain_hasher) 100 r1 (deletion_id i) "ann" "secret"
      200 r2 j (ann_reachable r1 i E)) as (k & H1 & H2 & _); [lia|exact Ec|].
    exists k. split; [exact H1|exact H2].
  - vm_compute in E. injection E as <- <-. vm_compute in Ec. discriminate Ec.
Defined.

Lemma prepared_is_permanent_witness :
  exists r1 i r2 j, create_ann empty_registry 100 = Ok (r1, i) /\
    consume (H0 := plain_hasher) r1 (deletion_id i) "ann" "secret" (Aware 200) = Ok (r2, j) /\
    by_owner r2 !! "ann" = Some j.
Proof.
  destruct (create_ann empty_registry 100) as [[r1 i]|] eqn:E; [|vm_compute in E; discriminate E].
  destruct (consume (H0 := plain_hasher) r1 (deletion_id i) "ann" "secret" (Aware 200)) as [[r2 j]|] eqn:Ec.
  - exists r1, i, r2, j. split; [reflexivity|]. split; [exact Ec|].
    apply (prepared_is_permanent (H := toy_sha256) (H0 := plain_hasher) 200 r2 "ann" j 200 r2).
    + destruct (ann_reachable r1 i E) as [t0 He]. exists t0. eapply evolves_event; [exact He|].
      eapply ev_consume; [|exact Ec]. lia.
    + vm_compute in E. injection E as <- <-. vm_compute in Ec. injection Ec as <- <-. reflexivity.
    + vm_compute in E. injection E as <- <-. vm_compute in Ec. injection Ec as <- <-. reflexivity.
    + constructor.
  - vm_compute in E. injection E as <- <-. vm_compute in Ec. discriminate Ec.
Defined.
End Registry.
