(* ===== verification/Energy.v ===== *)
(** * Energy: exact energy admission (domain/energy.py)

    [exact_watt_hours] converts a decimal source value to whole watt-hours with
    Python's [decimal] module.  A [Decimal] is a coefficient and an exponent; a
    product is rounded to the context of 28 digits, half to even, as [decimal]'s
    default context prescribes.  Reading a decimal literal is the language's
    own and exact; its outcome is [source_value]. *)

From Stdlib Require Import ZArith.Zpow_facts.
From S2P Require Import Prelude.

(** ** [decimal] *)
Definition PREC : Z := 28.
Definition EMAX : Z := 999999.
Definition ETINY : Z := - EMAX - PREC + 1.
Definition ETOP : Z := EMAX - PREC + 1.

(** A finite non-negative decimal: [coefficient * 10 ^ exponent]. *)
Record decimal := { coefficient : Z; exponent : Z }.

Definition round_half_even (c k : Z) : Z :=
  let p := 10 ^ k in
  let q := c / p in
  let r := c mod p in
  if (p <? 2 * r) || ((2 * r =? p) && Z.odd q) then q + 1 else q.

(** The number of decimal digits of a positive coefficient; [Z.log2 c] divisions
    by ten are enough. *)
Fixpoint digits_from (fuel : nat) (n c : Z) : Z :=
  match fuel with
  | O => n
  | S fuel' => if c <? 10 then n else digits_from fuel' (n + 1) (c / 10)
  end.
Definition digits (c : Z) : Z := digits_from (Z.to_nat (Z.log2 c)) 1 c.

(** Rounding a result to the context. *)
Definition finalize (d : decimal) : result decimal :=
  let n := digits (coefficient d) in
  if coefficient d =? 0 then Ok d
  else
    let exp_min := n + exponent d - PREC in
    if ETOP <? exp_min then Raise (PyError "Overflow")
    else
      let exp_min := Z.max exp_min ETINY in
      if exp_min <=? exponent d then Ok d
      else
        let c := round_half_even (coefficient d) (exp_min - exponent d) in
        let '(c, e) := if c =? 10 ^ PREC then (10 ^ (PREC - 1), exp_min + 1) else (c, exp_min) in
        if ETOP <? e then Raise (PyError "Overflow")
        else Ok {| coefficient := c; exponent := e |}.

Definition decimal_mul (a b : decimal) : result decimal :=
  finalize {| coefficient := coefficient a * coefficient b; exponent := exponent a + exponent b |}.

(** [Decimal(10) ** p]. *)
Definition ten_power (p : Z) : decimal :=
  if 0 <=? p then {| coefficient := 10 ^ p; exponent := 0 |} else {| coefficient := 1; exponent := p |}.

(** [int(d.to_integral_value())], and whether it equals [d]. *)
Definition to_integral (d : decimal) : Z :=
  if 0 <=? exponent d then coefficient d * 10 ^ exponent d
  else round_half_even (coefficient d) (- exponent d).
Definition is_integral (d : decimal) : bool :=
  (0 <=? exponent d) || (coefficient d =? to_integral d * 10 ^ (- exponent d)).

(** ** Units *)
Definition is_space (c : Ascii.ascii) : bool :=
  let n := Ascii.N_of_ascii c in
  ((n =? 32) || ((9 <=? n) && (n <=? 13)) || ((28 <=? n) && (n <=? 31)))%N.
Fixpoint lstrip (s : string) : string :=
  match s with
  | EmptyString => EmptyString
  | String c s' => if is_space c then lstrip s' else s
  end.
Definition rev_string (s : string) : string :=
  String.string_of_list_ascii (rev (String.list_ascii_of_string s)).
(** [s.strip().casefold()] on ASCII text. *)
Definition normalized_unit (s : string) : string :=
  str_lower (rev_string (lstrip (rev_string (lstrip s)))).

Definition unit_multiplier (unit : string) : option Z :=
  if String.eqb unit "wh" then Some 1 else if String.eqb unit "kwh" then Some 1000 else None.

(** ** Admission *)
Inductive source_value :=
| FloatValue                                     (** a binary float *)
| NotDecimal                                     (** [Decimal(value)] fails *)
| NotFinite                                      (** an infinity or a NaN *)
| FiniteValue (negative : bool) (magnitude : decimal).

Definition energy_error (code : string) : exn := EnergyAdmissionError code.

Definition exact_watt_hours (v : source_value) (source_unit : string) (power : Z) : result Z :=
  match v with
  | FloatValue => Raise (PyError "TypeError")
  | NotDecimal | NotFinite => Raise (energy_error "INVALID_ENERGY_VALUE")
  | FiniteValue negative d =>
      _ ← raise_if (negative && negb (coefficient d =? 0)) (energy_error "NEGATIVE_ENERGY");
      match unit_multiplier (normalized_unit source_unit) with
      | None => Raise (energy_error "UNKNOWN_UNIT")
      | Some u =>
          _ ← raise_if (negb ((-12 <=? power) && (power <=? 12))) (energy_error "INVALID_MULTIPLIER");
          scaled ← decimal_mul d {| coefficient := u; exponent := 0 |};
          watt_hours ← decimal_mul scaled (ten_power power);
          _ ← raise_if (negb (is_integral watt_hours)) (energy_error "NON_INTEGRAL_WATT_HOUR");
          Ok (to_integral watt_hours)
      end
  end.

(** ** Exactness *)
Lemma digits_from_bound fuel n c k :
  0 < c -> c < 10 ^ k -> 1 <= k -> digits_from fuel n c <= n + k - 1.
Proof.
  revert n c k. induction fuel as [|fuel IH]; intros n c k Hc Hk H1; simpl; [lia|].
  destruct (Z.ltb_spec c 10); [lia|].
  assert (2 <= k) by (destruct (Z.eq_dec k 1) as [->|]; lia).
  specialize (IH (n + 1) (c / 10) (k - 1)).
  assert (c / 10 < 10 ^ (k - 1)).
  { apply Z.div_lt_upper_bound; [lia|]. rewrite <- Z.pow_succ_r by lia.
    by replace (Z.succ (k - 1)) with k by lia. }
  assert (0 < c / 10) by (apply Z.div_str_pos; lia).
  lia.
Qed.

Lemma digits_bound c k : 0 < c -> c < 10 ^ k -> 1 <= k -> digits c <= k.
Proof. intros. unfold digits. pose proof (digits_from_bound (Z.to_nat (Z.log2 c)) 1 c k). lia. Qed.

(** A result of at most 28 digits with a moderate exponent is not rounded. *)
Lemma finalize_exact c e :
  0 <= c < 10 ^ PREC -> - 900000 <= e <= 900000 ->
  finalize {| coefficient := c; exponent := e |} = Ok {| coefficient := c; exponent := e |}.
Proof.
  intros Hc He. unfold finalize. cbn [coefficient exponent].
  destruct (Z.eqb_spec c 0) as [->|Hne]; [done|].
  pose proof (digits_bound c PREC ltac:(lia) ltac:(lia) ltac:(unfold PREC; lia)).
  destruct (Z.ltb_spec ETOP (digits c + e - PREC)); [unfold ETOP, EMAX, PREC in *; lia|].
  destruct (Z.leb_spec (Z.max (digits c + e - PREC) ETINY) e); [done|].
  unfold ETINY, EMAX, PREC in *. lia.
Qed.

Lemma decimal_mul_exact a e1 b e2 :
  0 <= a * b < 10 ^ PREC -> - 900000 <= e1 + e2 <= 900000 ->
  decimal_mul {| coefficient := a; exponent := e1 |} {| coefficient := b; exponent := e2 |}
  = Ok {| coefficient := a * b; exponent := e1 + e2 |}.
Proof. apply finalize_exact. Qed.

Lemma round_half_even_exact c k : 0 <= k -> round_half_even (c * 10 ^ k) k = c.
Proof.
  intros Hk. assert (0 < 10 ^ k) by (apply Z.pow_pos_nonneg; lia).
  unfold round_half_even. rewrite Z_div_mult, Z_mod_mult by lia.
  destruct (Z.ltb_spec (10 ^ k) (2 * 0)); [lia|].
  by destruct (Z.eqb_spec (2 * 0) (10 ^ k)); [lia|].
Qed.

(** [c * 10 ^ e] as an integer, when it is one. *)
Definition scaled_integer (c e : Z) : option Z :=
  if 0 <=? e then Some (c * 10 ^ e)
  else if c mod 10 ^ (- e) =? 0 then Some (c / 10 ^ (- e)) else None.

Lemma integral_scaled c e :
  (if is_integral {| coefficient := c; exponent := e |}
   then Some (to_integral {| coefficient := c; exponent := e |}) else None) = scaled_integer c e.
Proof.
  unfold is_integral, to_integral, scaled_integer. simpl.
  destruct (Z.leb_spec 0 e); simpl; [done|].
  assert (0 < 10 ^ (- e)) by (apply Z.pow_pos_nonneg; lia).
  destruct (Z.eqb_spec (c mod 10 ^ (- e)) 0) as [Hm|Hm].
  - assert (c = c / 10 ^ (- e) * 10 ^ (- e)) as Hc.
    { pose proof (Z.div_mod c (10 ^ (- e)) ltac:(lia)). lia. }
    assert (round_half_even c (- e) = c / 10 ^ (- e)) as ->.
    { rewrite Hc at 1. apply round_half_even_exact. lia. }
    by rewrite <- Hc, Z.eqb_refl.
  - destruct (Z.eqb_spec c (round_half_even c (- e) * 10 ^ (- e))) as [E|]; [|done].
    exfalso. apply Hm. rewrite E. by apply Z_mod_mult.
Qed.

(** The integer [n] is [c * 10 ^ e]. *)
Definition exact_value (c e n : Z) : Prop := n * 10 ^ Z.max 0 (- e) = c * 10 ^ Z.max 0 e.

Lemma scaled_integer_spec c e n : scaled_integer c e = Some n <-> exact_value c e n.
Proof.
  unfold scaled_integer, exact_value. destruct (Z.leb_spec 0 e).
  - rewrite (Z.max_l 0 (- e)), (Z.max_r 0 e) by lia. rewrite Z.pow_0_r. split; [intros [= <-]; lia|].
    intros E. f_equal. lia.
  - rewrite (Z.max_r 0 (- e)), (Z.max_l 0 e) by lia. rewrite Z.pow_0_r.
    assert (0 < 10 ^ (- e)) by (apply Z.pow_pos_nonneg; lia).
    destruct (Z.eqb_spec (c mod 10 ^ (- e)) 0) as [Hm|Hm]; split.
    + intros [= <-]. pose proof (Z.div_mod c (10 ^ (- e)) ltac:(lia)). lia.
    + intros E. f_equal. assert (c = n * 10 ^ (- e)) as -> by lia. by apply Z_div_mult; lia.
    + done.
    + intros E. exfalso. apply Hm. assert (c = n * 10 ^ (- e)) as -> by lia. by apply Z_mod_mult.
Qed.

Lemma exact_value_shift c e p n : 0 <= p -> exact_value (c * 10 ^ p) e n <-> exact_value c (e + p) n.
Proof.
  intros Hp. unfold exact_value. set (k := Z.max 0 (- e) - Z.max 0 (- (e + p))).
  assert (0 <= k) by lia. assert (0 < 10 ^ k) by (apply Z.pow_pos_nonneg; lia).
  assert (10 ^ Z.max 0 (- e) = 10 ^ Z.max 0 (- (e + p)) * 10 ^ k) as ->.
  { rewrite <- Z.pow_add_r by lia. f_equal. lia. }
  assert (c * 10 ^ p * 10 ^ Z.max 0 e = c * 10 ^ Z.max 0 (e + p) * 10 ^ k) as ->.
  { rewrite <- !Z.mul_assoc, <- !Z.pow_add_r by lia. do 2 f_equal. lia. }
  rewrite Z.mul_assoc. split; [apply Z.mul_reg_r; lia|by intros ->].
Qed.

(** The last two steps of admission. *)
Definition whole_watt_hours (d : decimal) : result Z :=
  _ ← raise_if (negb (is_integral d)) (energy_error "NON_INTEGRAL_WATT_HOUR"); Ok (to_integral d).

Lemma admit_scaled c e :
  whole_watt_hours {| coefficient := c; exponent := e |}
  = match scaled_integer c e with Some n => Ok n | None => Raise (energy_error "NON_INTEGRAL_WATT_HOUR") end.
Proof.
  unfold whole_watt_hours. rewrite <- integral_scaled. by destruct (is_integral {| coefficient := c; exponent := e |}).
Qed.

Lemma watt_hours_scaled c e unit u power :
  unit_multiplier (normalized_unit unit) = Some u -> -12 <= power <= 12 ->
  0 <= c < 10 ^ 13 -> - 800000 <= e <= 800000 ->
  exact_watt_hours (FiniteValue false {| coefficient := c; exponent := e |}) unit power
  = whole_watt_hours (if 0 <=? power then {| coefficient := c * u * 10 ^ power; exponent := e |}
           else {| coefficient := c * u; exponent := e + power |}).
Proof.
  intros Hu Hp Hc He.
  assert (0 <= u <= 1000) as Hub.
  { unfold unit_multiplier in Hu. repeat case_match; simplify_eq; lia. }
  unfold exact_watt_hours. rewrite Hu. simpl raise_if at 1.
  destruct (Z.leb_spec (-12) power); [|lia]. destruct (Z.leb_spec power 12); [|lia].
  cbn [andb negb raise_if].
  cbn [mbind result_bind]. rewrite decimal_mul_exact by (unfold PREC; nia). rewrite Z.add_0_r.
  cbn [mbind result_bind]. unfold ten_power.
  destruct (Z.leb_spec 0 power).
  - assert (1 <= 10 ^ power <= 10 ^ 12).
    { split; [apply (Z.pow_le_mono_r 10 0 power)|apply Z.pow_le_mono_r]; lia. }
    assert (0 <= c * u * 10 ^ power <= (10 ^ 13 - 1) * 1000 * 10 ^ 12).
    { split; [apply Z.mul_nonneg_nonneg; nia|]. apply Z.mul_le_mono_nonneg; nia. }
    rewrite decimal_mul_exact by (unfold PREC; lia). by rewrite Z.add_0_r.
  - rewrite decimal_mul_exact by (unfold PREC; nia). by rewrite Z.mul_1_r.
Qed.

(** A source value of at most thirteen significant digits is converted exactly:
    the result is the whole number of watt-hours the value denotes in its unit and
    power of ten, and a value that denotes no whole number is rejected as
    non-integral. *)
Theorem exact_watt_hours_exact c e unit u power :
  unit_multiplier (normalized_unit unit) = Some u -> -12 <= power <= 12 ->
  0 <= c < 10 ^ 13 -> - 800000 <= e <= 800000 ->
  let r := exact_watt_hours (FiniteValue false {| coefficient := c; exponent := e |}) unit power in
  (forall n, r = Ok n <-> exact_value (c * u) (e + power) n) /\
  ((forall n, r <> Ok n) -> r = Raise (energy_error "NON_INTEGRAL_WATT_HOUR")).
Proof.
  intros Hu Hp Hc He. cbv zeta. rewrite (watt_hours_scaled c e unit u power) by done.
  assert (forall c' e', (forall n, exact_value c' e' n <-> exact_value (c * u) (e + power) n) ->
    (forall n, whole_watt_hours {| coefficient := c'; exponent := e' |} = Ok n <-> exact_value (c * u) (e + power) n) /\
    ((forall n, whole_watt_hours {| coefficient := c'; exponent := e' |} <> Ok n) ->
     whole_watt_hours {| coefficient := c'; exponent := e' |} = Raise (energy_error "NON_INTEGRAL_WATT_HOUR"))) as Hcase.
  { intros c' e' Heq. rewrite admit_scaled. split.
    - intros n. rewrite <- Heq, <- scaled_integer_spec. destruct (scaled_integer c' e'); naive_solver.
    - intros Hno. destruct (scaled_integer c' e') as [n|]; [|done]. by destruct (Hno n). }
  destruct (Z.leb_spec 0 power); apply Hcase; intros n; [by apply exact_value_shift|done].
Qed.

Lemma exact_watt_hours_exact_witness :
  exact_watt_hours (FiniteValue false {| coefficient := 1234; exponent := -3 |}) " kWh " 0 = Ok 1234.
Proof.
  apply (exact_watt_hours_exact 1234 (-3) " kWh " 1000 0); [reflexivity|lia|lia|lia|reflexivity].
Defined.

(** Beyond 28 digits the conversion rounds: a value with a fractional part is
    admitted, and a 29-digit whole number is admitted as a different number. *)
Fact long_values_are_rounded :
  exact_watt_hours (FiniteValue false {| coefficient := 10 ^ 30 + 1; exponent := -30 |}) "Wh" 0 = Ok 1 /\
  exact_watt_hours (FiniteValue false {| coefficient := 10 ^ 28 + 1; exponent := 0 |}) "Wh" 0 = Ok (10 ^ 28).
Proof. split; vm_compute; reflexivity. Qed.
