(* ===== verification/ProfileHash.v ===== *)
(** * ProfileHash: canonical profile content (domain/profile_hash.py)

    A confirmed profile is serialised to a canonical byte vector: big-endian
    64-bit integers, length-prefixed NFC text, tagged optional values and counted
    sequences, with readings, findings, flags and warnings sorted.  The reader
    [decode_profile] inverts the writer, which makes the content hash an identity
    of the content.  Bytes are strings of 8-bit characters; Unicode
    normalisation is a parameter. *)

From S2P Require Import Prelude Json.

(** [unicodedata.normalize("NFC", s)] on the UTF-8 image of [s]. *)
Class Unicode := nfc : string -> string.

(** ** Content *)
Inductive FlowDirection := IMPORT | EXPORT | REVERSE | UNKNOWN_FLOW.
#[export] Instance FlowDirection_eq_dec : EqDecision FlowDirection.
Proof. solve_decision. Defined.
Definition flow_str (f : FlowDirection) : string :=
  match f with IMPORT => "IMPORT" | EXPORT => "EXPORT" | REVERSE => "REVERSE" | UNKNOWN_FLOW => "UNKNOWN" end.

Record CanonicalReading := {
  cr_start_utc_ns : Z;
  cr_duration_seconds : Z;
  cr_energy_wh : Z;
  cr_flow_direction : FlowDirection;
  cr_source_unit : string;
  cr_source_multiplier : Z;
  cr_source_reading_type : string;
  cr_source_service_category : string;
  cr_source_commodity : string;
  cr_source_accumulation_behavior : string;
  cr_source_data_qualifier : string;
  cr_source_time_attribute : string;
  cr_source_local_time_parameters_hash : option string;
  cr_source_timezone_offset_seconds : option Z;
  cr_source_dst_offset_seconds : option Z;
  cr_quality_flags : list string  (** a [frozenset] *)
}.

Record CanonicalFinding := {
  cf_code : string; cf_severity : string; cf_field_path : string; cf_safe_value : string
}.

Record CanonicalProfileContentV1 := {
  pc_parser_contract_version : string;
  pc_adapter_fingerprint : string;
  pc_finding_policy_version : string;
  pc_confirmation_policy_version : string;
  pc_billing_period_start_utc_ns : Z;
  pc_billing_period_end_utc_ns : Z;
  pc_tariff_timezone : string;
  pc_interval_resolution_seconds : Z;
  pc_readings : list CanonicalReading;
  pc_findings : list CanonicalFinding;
  pc_acknowledged_warning_ids : list string
}.

(** The order of the dataclass [CanonicalFinding]. *)
Definition finding_key (f : CanonicalFinding) : string * (string * (string * string)) :=
  (cf_code f, (cf_severity f, (cf_field_path f, cf_safe_value f))).
Definition reading_key (r : CanonicalReading) : Z * Z := (cr_start_utc_ns r, cr_duration_seconds r).

(** ** Writers *)
Definition encoding_error (message : string) : exn := CanonicalEncodingError message.

Fixpoint be_bytes (n : nat) (z : Z) : string :=
  match n with
  | O => EmptyString
  | S n' => chr (Z.to_N (z / 256 ^ Z.of_nat n' mod 256)) +:+ be_bytes n' z
  end.

Definition DOMAIN_SEPARATOR : string := "RateReplay.ProfileContent.v1".

(** [struct.pack(">q", value)] and [struct.pack(">I", value)]. *)
Definition int64 (z : Z) : result string :=
  _ ← raise_if (negb ((- 2 ^ 63 <=? z) && (z <? 2 ^ 63)))
        (encoding_error "Integer is outside the signed 64-bit range");
  Ok (be_bytes 8 z).
Definition uint32 (z : Z) : result string :=
  _ ← raise_if (negb ((0 <=? z) && (z <? 2 ^ 32)))
        (encoding_error "Length is outside the unsigned 32-bit range");
  Ok (be_bytes 4 z).

Definition byte_length (s : string) : Z := Z.of_nat (String.length s).

Definition concat_bytes (l : list string) : string := foldr String.append EmptyString l.

Definition sequence (items : list string) : result string :=
  n ← uint32 (Z.of_nat (length items));
  Ok (n +:+ concat_bytes items).

Section Writers.
Context `{Unicode}.

Definition normalize (value : string) : result string :=
  _ ← raise_if (negb (String.eqb value (nfc value))) (encoding_error "String input is not NFC-normalized");
  Ok (nfc value).

Definition text (value : string) : result string :=
  encoded ← normalize value;
  n ← uint32 (byte_length encoded);
  Ok (n +:+ encoded).

Definition optional_text (value : option string) : result string :=
  match value with None => Ok (chr 0) | Some v => t ← text v; Ok (chr 1 +:+ t) end.
Definition optional_int64 (value : option Z) : result string :=
  match value with None => Ok (chr 0) | Some v => t ← int64 v; Ok (chr 1 +:+ t) end.

(** [a + b + ...], evaluated from left to right. *)
Definition fields (l : list (result string)) : result string :=
  parts ← mapM id l; Ok (concat_bytes parts).

Definition reading_bytes (r : CanonicalReading) : result string :=
  fields
    [int64 (cr_start_utc_ns r); int64 (cr_duration_seconds r); int64 (cr_energy_wh r);
     text (flow_str (cr_flow_direction r)); text (cr_source_unit r); int64 (cr_source_multiplier r);
     text (cr_source_reading_type r); text (cr_source_service_category r); text (cr_source_commodity r);
     text (cr_source_accumulation_behavior r); text (cr_source_data_qualifier r);
     text (cr_source_time_attribute r); optional_text (cr_source_local_time_parameters_hash r);
     optional_int64 (cr_source_timezone_offset_seconds r); optional_int64 (cr_source_dst_offset_seconds r);
     flags ← mapM text (sorted_set (cr_quality_flags r)); sequence flags].

Definition finding_bytes (f : CanonicalFinding) : result string :=
  fields [text (cf_code f); text (cf_severity f); text (cf_field_path f); text (cf_safe_value f)].

Definition to_bytes (c : CanonicalProfileContentV1) : result string :=
  let sorted_readings := sorted_by reading_key (pc_readings c) in
  let keys := reading_key <$> sorted_readings in
  _ ← raise_if (has_dups keys) (encoding_error "Duplicate canonical interval key");
  _ ← raise_if (pc_interval_resolution_seconds c <=? 0) (encoding_error "Interval resolution must be positive");
  _ ← raise_if (pc_billing_period_end_utc_ns c <=? pc_billing_period_start_utc_ns c)
        (encoding_error "Billing period must be a nonempty half-open range");
  let warning_ids := sorted_by id (pc_acknowledged_warning_ids c) in
  _ ← raise_if (has_dups warning_ids) (encoding_error "Duplicate acknowledged warning identity");
  body ← fields
    [text (pc_parser_contract_version c); text (pc_adapter_fingerprint c); text (pc_finding_policy_version c);
     text (pc_confirmation_policy_version c); int64 (pc_billing_period_start_utc_ns c);
     int64 (pc_billing_period_end_utc_ns c); text (pc_tariff_timezone c);
     int64 (pc_interval_resolution_seconds c);
     (items ← mapM reading_bytes sorted_readings; sequence items);
     (items ← mapM finding_bytes (sorted_by finding_key (pc_findings c)); sequence items);
     (items ← mapM text warning_ids; sequence items)];
  Ok (DOMAIN_SEPARATOR +:+ chr 0 +:+ body).

Definition profile_sha256 `{Sha256} (c : CanonicalProfileContentV1) : result string :=
  bs ← to_bytes c; Ok (sha256_hex bs).
End Writers.

(** ** Readers *)
Definition parser (A : Type) : Type := string -> option (A * string).
Definition p_ret {A} (x : A) : parser A := fun s => Some (x, s).
Definition p_bind {A B} (p : parser A) (f : A -> parser B) : parser B :=
  fun s => match p s with Some (x, rest) => f x rest | None => None end.
Notation "'let*' x := p 'in' q" := (p_bind p (fun x => q)) (at level 200, x name, p at level 100, q at level 200).

Fixpoint p_be (n : nat) (acc : Z) : parser Z :=
  fun s => match n with
           | O => Some (acc, s)
           | S n' => match s with
                     | String c s' => p_be n' (acc * 256 + Z.of_N (Ascii.N_of_ascii c)) s'
                     | EmptyString => None
                     end
           end.
Definition signed64 (z : Z) : Z := if z <? 2 ^ 63 then z else z - 2 ^ 64.
Definition p_int64 : parser Z := let* z := p_be 8 0 in p_ret (signed64 z).
Definition p_uint32 : parser Z := p_be 4 0.

Fixpoint p_take (n : nat) : parser string :=
  fun s => match n with
           | O => Some (EmptyString, s)
           | S n' => match s with
                     | String c s' => match p_take n' s' with
                                      | Some (t, rest) => Some (String c t, rest)
                                      | None => None
                                      end
                     | EmptyString => None
                     end
           end.
Definition p_text : parser string := let* n := p_uint32 in p_take (Z.to_nat n).
Definition p_optional {A} (p : parser A) : parser (option A) :=
  let* tag := p_take 1 in
  if String.eqb tag (chr 0) then p_ret None else let* x := p in p_ret (Some x).
Fixpoint p_repeat {A} (p : parser A) (n : nat) : parser (list A) :=
  match n with
  | O => p_ret []
  | S n' => let* x := p in let* l := p_repeat p n' in p_ret (x :: l)
  end.
Definition p_sequence {A} (p : parser A) : parser (list A) := let* n := p_uint32 in p_repeat p (Z.to_nat n).

Definition p_flow : parser FlowDirection :=
  let* s := p_text in
  match List.find (fun f => String.eqb (flow_str f) s) [IMPORT; EXPORT; REVERSE; UNKNOWN_FLOW] with
  | Some f => p_ret f
  | None => fun _ => None
  end.

Definition p_reading : parser CanonicalReading :=
  let* start := p_int64 in let* duration := p_int64 in let* energy := p_int64 in
  let* flow := p_flow in let* unit := p_text in let* multiplier := p_int64 in
  let* reading_type := p_text in let* category := p_text in let* commodity := p_text in
  let* accumulation := p_text in let* qualifier := p_text in let* time_attribute := p_text in
  let* local_hash := p_optional p_text in let* tz := p_optional p_int64 in
  let* dst := p_optional p_int64 in let* flags := p_sequence p_text in
  p_ret {| cr_start_utc_ns := start; cr_duration_seconds := duration; cr_energy_wh := energy;
           cr_flow_direction := flow; cr_source_unit := unit; cr_source_multiplier := multiplier;
           cr_source_reading_type := reading_type; cr_source_service_category := category;
           cr_source_commodity := commodity; cr_source_accumulation_behavior := accumulation;
           cr_source_data_qualifier := qualifier; cr_source_time_attribute := time_attribute;
           cr_source_local_time_parameters_hash := local_hash; cr_source_timezone_offset_seconds := tz;
           cr_source_dst_offset_seconds := dst; cr_quality_flags := flags |}.

Definition p_finding : parser CanonicalFinding :=
  let* code := p_text in let* severity := p_text in let* path := p_text in let* value := p_text in
  p_ret {| cf_code := code; cf_severity := severity; cf_field_path := path; cf_safe_value := value |}.

Definition p_content : parser CanonicalProfileContentV1 :=
  let* parser_version := p_text in let* adapter := p_text in let* finding_policy := p_text in
  let* confirmation_policy := p_text in let* period_start := p_int64 in let* period_end := p_int64 in
  let* timezone := p_text in let* resolution := p_int64 in
  let* readings := p_sequence p_reading in let* findings := p_sequence p_finding in
  let* warnings := p_sequence p_text in
  p_ret {| pc_parser_contract_version := parser_version; pc_adapter_fingerprint := adapter;
           pc_finding_policy_version := finding_policy; pc_confirmation_policy_version := confirmation_policy;
           pc_billing_period_start_utc_ns := period_start; pc_billing_period_end_utc_ns := period_end;
           pc_tariff_timezone := timezone; pc_interval_resolution_seconds := resolution;
           pc_readings := readings; pc_findings := findings; pc_acknowledged_warning_ids := warnings |}.

Definition decode_profile (s : string) : option CanonicalProfileContentV1 :=
  match (let* domain := p_take (String.length DOMAIN_SEPARATOR + 1) in
         if String.eqb domain (DOMAIN_SEPARATOR +:+ chr 0) then p_content else fun _ => None) s with
  | Some (c, EmptyString) => Some c
  | _ => None
  end.

(** The content with everything in the order in which it is written. *)
Definition sorted_reading (r : CanonicalReading) : CanonicalReading :=
  {| cr_start_utc_ns := cr_start_utc_ns r; cr_duration_seconds := cr_duration_seconds r;
     cr_energy_wh := cr_energy_wh r; cr_flow_direction := cr_flow_direction r;
     cr_source_unit := cr_source_unit r; cr_source_multiplier := cr_source_multiplier r;
     cr_source_reading_type := cr_source_reading_type r;
     cr_source_service_category := cr_source_service_category r; cr_source_commodity := cr_source_commodity r;
     cr_source_accumulation_behavior := cr_source_accumulation_behavior r;
     cr_source_data_qualifier := cr_source_data_qualifier r;
     cr_source_time_attribute := cr_source_time_attribute r;
     cr_source_local_time_parameters_hash := cr_source_local_time_parameters_hash r;
     cr_source_timezone_offset_seconds := cr_source_timezone_offset_seconds r;
     cr_source_dst_offset_seconds := cr_source_dst_offset_seconds r;
     cr_quality_flags := sorted_set (cr_quality_flags r) |}.
Definition canonical_form (c : CanonicalProfileContentV1) : CanonicalProfileContentV1 :=
  {| pc_parser_contract_version := pc_parser_contract_version c; pc_adapter_fingerprint := pc_adapter_fingerprint c;
     pc_finding_policy_version := pc_finding_policy_version c;
     pc_confirmation_policy_version := pc_confirmation_policy_version c;
     pc_billing_period_start_utc_ns := pc_billing_period_start_utc_ns c;
     pc_billing_period_end_utc_ns := pc_billing_period_end_utc_ns c;
     pc_tariff_timezone := pc_tariff_timezone c;
     pc_interval_resolution_seconds := pc_interval_resolution_seconds c;
     pc_readings := sorted_reading <$> sorted_by reading_key (pc_readings c);
     pc_findings := sorted_by finding_key (pc_findings c);
     pc_acknowledged_warning_ids := sorted_by id (pc_acknowledged_warning_ids c) |}.

(** ** Round trips *)
Lemma append_cons c (a b : string) : String c a +:+ b = String c (a +:+ b).
Proof. done. Qed.
Lemma append_assoc (a b c : string) : (a +:+ b) +:+ c = a +:+ (b +:+ c).
Proof. induction a as [|x a IH]; [done|]. by rewrite !append_cons, IH. Qed.
Lemma append_nil_r (a : string) : a +:+ EmptyString = a.
Proof. induction a as [|x a IH]; [done|]. by rewrite append_cons, IH. Qed.

(** [p] reads back what [e] writes, whatever follows. *)
Definition reads {A} (p : parser A) (e : result string) (x : A) : Prop :=
  forall bs rest, e = Ok bs -> p (bs +:+ rest) = Some (x, rest).

Lemma reads_fields_nil {A} (x : A) : reads (p_ret x) (fields []) x.
Proof. intros bs rest [= <-]. done. Qed.
Lemma reads_fields_cons {A B} (p : parser A) (f : A -> parser B) e es x y :
  reads p e x -> reads (f x) (fields es) y -> reads (p_bind p f) (fields (e :: es)) y.
Proof.
  intros Hp Hf bs rest Hb. unfold fields in Hb. cbn [mapM] in Hb. apply bind_ok in Hb as (parts & Hparts & [= <-]).
  apply bind_ok in Hparts as (b & Hb & Hparts). apply bind_ok in Hparts as (bs & Hbs & [= <-]).
  cbn [concat_bytes foldr]. unfold p_bind. rewrite append_assoc, (Hp b _ Hb). apply Hf. unfold fields. by rewrite Hbs.
Qed.

Lemma p_be_bytes n z acc rest : p_be n acc (be_bytes n z +:+ rest) = Some (acc * 256 ^ Z.of_nat n + z mod 256 ^ Z.of_nat n, rest).
Proof.
  revert acc. induction n as [|n IH]; intros acc; cbn [be_bytes p_be].
  - rewrite Z.mod_1_r. change (256 ^ Z.of_nat 0) with 1. do 2 f_equal. lia.
  - unfold chr. rewrite !append_cons. change (EmptyString +:+ ?s) with s. rewrite IH. do 2 f_equal.
    set (p := 256 ^ Z.of_nat n). assert (0 < p) by (unfold p; apply Z.pow_pos_nonneg; lia).
    assert (256 ^ Z.of_nat (S n) = 256 * p) as ->.
    { unfold p. rewrite Nat2Z.inj_succ, Z.pow_succ_r by lia. done. }
    pose proof (Z.mod_pos_bound (z / p) 256 ltac:(lia)) as Hb.
    rewrite Ascii.N_ascii_embedding by lia. rewrite Z2N.id by lia.
    assert (z mod (256 * p) = p * ((z / p) mod 256) + z mod p) as ->; [|lia].
    rewrite (Z.mul_comm 256 p), Z.rem_mul_r by lia. lia.
Qed.

Lemma reads_int64 z : reads p_int64 (int64 z) z.
Proof.
  intros bs rest Hz. unfold int64 in Hz. apply bind_ok in Hz as (u & Hu & <-%ok_inj). apply raise_if_ok in Hu.
  apply negb_false_iff, andb_true_iff in Hu as [H1 H2]. apply Z.leb_le in H1. apply Z.ltb_lt in H2.
  unfold p_int64, p_bind. rewrite p_be_bytes. unfold p_ret. do 2 f_equal. change (256 ^ Z.of_nat 8) with (2 ^ 64).
  rewrite Z.mul_0_l, Z.add_0_l. unfold signed64. destruct (Z.lt_ge_cases z 0) as [Hn|Hp].
  - rewrite <- (Z_mod_plus_full z 1), Z.mod_small by lia. destruct (Z.ltb_spec (z + 1 * 2 ^ 64) (2 ^ 63)); lia.
  - rewrite Z.mod_small by lia. destruct (Z.ltb_spec z (2 ^ 63)); lia.
Qed.

Lemma reads_uint32 z : reads p_uint32 (uint32 z) z.
Proof.
  intros bs rest Hz. unfold uint32 in Hz. apply bind_ok in Hz as (u & Hu & <-%ok_inj). apply raise_if_ok in Hu.
  apply negb_false_iff, andb_true_iff in Hu as [H1 H2]. apply Z.leb_le in H1. apply Z.ltb_lt in H2.
  unfold p_uint32. rewrite p_be_bytes. do 2 f_equal. change (256 ^ Z.of_nat 4) with (2 ^ 32). rewrite Z.mod_small by lia. lia.
Qed.

Lemma p_take_append s rest : p_take (String.length s) (s +:+ rest) = Some (s, rest).
Proof. induction s as [|c s IH]; [done|]. rewrite append_cons. cbn [String.length p_take]. by rewrite IH. Qed.

Lemma p_take_S_append s n rest : n = String.length s -> p_take n (s +:+ rest) = Some (s, rest).
Proof. intros ->. apply p_take_append. Qed.

Section RoundTrip.
Context `{Unicode}.

Lemma reads_text s : reads p_text (text s) s.
Proof.
  intros bs rest Ht. unfold text in Ht. apply bind_ok in Ht as (e & He & Ht). apply bind_ok in Ht as (n & Hn & [= <-]).
  unfold normalize in He. apply bind_ok in He as (u & Hu & [= <-]). apply raise_if_ok, negb_false_iff, String.eqb_eq in Hu.
  rewrite <- Hu in *. unfold p_text, p_bind. rewrite append_assoc, (reads_uint32 _ _ _ Hn).
  apply p_take_S_append. unfold byte_length. lia.
Qed.

Lemma reads_optional {A} (p : parser A) (w : A -> result string) o :
  (forall x, reads p (w x) x) ->
  reads (p_optional p) (match o with None => Ok (chr 0) | Some v => t ← w v; Ok (chr 1 +:+ t) end) o.
Proof.
  intros Hp bs rest Ho. destruct o as [v|].
  - apply bind_ok in Ho as (t & Ht & [= <-]). unfold p_optional, p_bind. rewrite append_assoc.
    change (p_take 1 (chr 1 +:+ ?s)) with (Some (chr 1, s)). cbn [String.eqb]. 
    change (String.eqb (chr 1) (chr 0)) with false. cbn beta iota. by rewrite (Hp v t rest Ht).
  - injection Ho as <-. done.
Qed.

Lemma reads_sequence {A B} (p : parser B) (w : A -> result string) (f : A -> B) l :
  (forall x, reads p (w x) (f x)) ->
  reads (p_sequence p) (items ← mapM w l; sequence items) (f <$> l).
Proof.
  intros Hp bs rest Hs. apply bind_ok in Hs as (items & Hi & Hs). unfold sequence in Hs.
  apply bind_ok in Hs as (n & Hn & [= <-]). unfold p_sequence, p_bind. rewrite append_assoc, (reads_uint32 _ _ _ Hn).
  apply mapM_ok in Hi. rewrite Nat2Z.id. clear Hn n. revert rest.
  induction Hi as [|x item l items Hx _ IH]; intros rest; [done|]. cbn [concat_bytes foldr length p_repeat]. unfold p_bind.
  rewrite append_assoc, (Hp x item _ Hx), IH. done.
Qed.

Lemma reads_flow f : reads p_flow (text (flow_str f)) f.
Proof.
  intros bs rest Ht. unfold p_flow, p_bind. rewrite (reads_text _ _ _ Ht). by destruct f.
Qed.

Ltac read_fields :=
  repeat first [apply reads_fields_nil | eapply reads_fields_cons];
  try first [apply reads_int64 | apply reads_text | apply reads_flow | apply reads_optional, reads_text
            | apply reads_optional, reads_int64].

Lemma reads_reading r : reads p_reading (reading_bytes r) (sorted_reading r).
Proof.
  unfold p_reading, reading_bytes, sorted_reading. read_fields.
  rewrite <- (list_fmap_id (sorted_set (cr_quality_flags r))) at 2. apply reads_sequence, reads_text.
Qed.

Lemma reads_finding f : reads p_finding (finding_bytes f) f.
Proof.
  destruct f as [code severity path value]. unfold p_finding, finding_bytes.
  cbn [cf_code cf_severity cf_field_path cf_safe_value]. read_fields.
Qed.

Lemma to_bytes_inv c bs : to_bytes c = Ok bs ->
  NoDup (reading_key <$> pc_readings c) /\ NoDup (pc_acknowledged_warning_ids c) /\
  0 < pc_interval_resolution_seconds c /\
  pc_billing_period_start_utc_ns c < pc_billing_period_end_utc_ns c /\ decode_profile bs = Some (canonical_form c).
Proof.
  intros Hb. unfold to_bytes in Hb. apply bind_ok in Hb as (u1 & H1 & Hb). apply bind_ok in Hb as (u2 & H2 & Hb).
  apply bind_ok in Hb as (u3 & H3 & Hb). apply bind_ok in Hb as (u4 & H4 & Hb). apply bind_ok in Hb as (body & Hbody & <-%ok_inj).
  apply raise_if_ok in H1, H2, H3, H4. rewrite has_dups_false in H1. rewrite has_dups_false in H4. rewrite Z.leb_gt in H2, H3.
  split; [by rewrite <- (sorted_by_perm reading_key (pc_readings c))|].
  split; [by rewrite <- (sorted_by_perm id (pc_acknowledged_warning_ids c))|]. split; [done|]. split; [done|].
  unfold decode_profile, p_bind. rewrite <- append_assoc, p_take_S_append by reflexivity. rewrite String.eqb_refl.
  assert (reads p_content (Ok body) (canonical_form c)) as Hr.
  { rewrite <- Hbody. unfold p_content, canonical_form. read_fields.
    - apply reads_sequence, reads_reading.
    - rewrite <- (list_fmap_id (sorted_by finding_key (pc_findings c))) at 2. apply reads_sequence, reads_finding.
    - rewrite <- (list_fmap_id (sorted_by id (pc_acknowledged_warning_ids c))) at 2. apply reads_sequence, reads_text. }
  specialize (Hr body EmptyString eq_refl). rewrite append_nil_r in Hr. by rewrite Hr.
Qed.

(** Writing is a function of the canonical form. *)
Lemma remove_dups_id {A} `{EqDecision A} (l : list A) : NoDup l -> remove_dups l = l.
Proof.
  induction 1 as [|x l Hx _ IH]; [done|]. cbn. destruct (decide_rel _ x l); [done|]. by rewrite IH.
Qed.
Lemma sorted_set_idemp {K} `{PyOrd K, EqDecision K} (l : list K) : sorted_set (sorted_set l) = sorted_set l.
Proof.
  unfold sorted_set at 1, py_sorted. rewrite (remove_dups_id (sorted_set l)) by apply sorted_set_NoDup.
  apply sorted_by_id. apply sorted_by_sorted.
Qed.

Lemma sorted_by_idemp {A K} `{PyOrd K} (key : A -> K) (l : list A) : sorted_by key (sorted_by key l) = sorted_by key l.
Proof. apply sorted_by_id, sorted_by_sorted. Qed.

Lemma reading_bytes_sorted r : reading_bytes (sorted_reading r) = reading_bytes r.
Proof. unfold reading_bytes. cbn [cr_quality_flags sorted_reading]. by rewrite sorted_set_idemp. Qed.

Lemma sorted_readings_canonical l :
  sorted_by reading_key (sorted_reading <$> sorted_by reading_key l) = sorted_reading <$> sorted_by reading_key l.
Proof.
  apply sorted_by_id. pose proof (sorted_by_sorted reading_key l) as Hs.
  induction Hs as [|x k Hs IH Hx]; [constructor|]. rewrite fmap_cons. constructor; [exact IH|].
  apply Forall_fmap. exact Hx.
Qed.

Lemma mapM_fmap_same {A B} (f : A -> result B) (g : A -> A) l :
  (forall x, f (g x) = f x) -> mapM f (g <$> l) = mapM f l.
Proof. intros Hf. induction l as [|x l IH]; [done|]. cbn. by rewrite Hf, IH. Qed.

Lemma to_bytes_canonical c : to_bytes (canonical_form c) = to_bytes c.
Proof.
  unfold to_bytes. cbn [pc_readings pc_findings pc_acknowledged_warning_ids canonical_form pc_interval_resolution_seconds
    pc_billing_period_start_utc_ns pc_billing_period_end_utc_ns].
  rewrite sorted_readings_canonical, !sorted_by_idemp, (mapM_fmap_same _ _ _ reading_bytes_sorted).
  assert (reading_key <$> (sorted_reading <$> sorted_by reading_key (pc_readings c))
          = reading_key <$> sorted_by reading_key (pc_readings c)) as ->; [|done].
  rewrite <- list_fmap_compose. by apply list_fmap_ext.
Qed.

(** C18: canonical profile bytes can be read back.  Whatever [to_bytes] writes,
    the reader recovers exactly the profile in canonical order: every integer,
    text, optional value, flag, finding and reading, with nothing left over. *)
Theorem profile_bytes_round_trip c bs : to_bytes c = Ok bs -> decode_profile bs = Some (canonical_form c).
Proof. apply to_bytes_inv. Qed.

(** The canonical bytes identify the profile.  Two profiles that can be
    written have the same bytes exactly when they have the same content up to
    the order of readings, findings, flags and warnings; so a content hash
    without collisions separates different profiles and never depends on order. *)
Theorem profile_bytes_identify c1 c2 b1 b2 : to_bytes c1 = Ok b1 -> to_bytes c2 = Ok b2 ->
  b1 = b2 <-> canonical_form c1 = canonical_form c2.
Proof.
  intros H1 H2. split.
  - intros ->. destruct (to_bytes_inv c1 b2 H1) as (_ & _ & _ & _ & D1).
    destruct (to_bytes_inv c2 b2 H2) as (_ & _ & _ & _ & D2). congruence.
  - intros E. rewrite <- to_bytes_canonical, E, to_bytes_canonical in H1. congruence.
Qed.
End RoundTrip.

(** ** Witnesses: two readings in the wrong order *)
Definition plain_unicode : Unicode := fun s => s.
Definition reading_fixture (start energy : Z) (flags : list string) : CanonicalReading :=
  {| cr_start_utc_ns := start; cr_duration_seconds := 3600; cr_energy_wh := energy; cr_flow_direction := IMPORT;
     cr_source_unit := "Wh"; cr_source_multiplier := -3; cr_source_reading_type := "12";
     cr_source_service_category := "0"; cr_source_commodity := "1"; cr_source_accumulation_behavior := "4";
     cr_source_data_qualifier := "12"; cr_source_time_attribute := "0";
     cr_source_local_time_parameters_hash := Some "ab"; cr_source_timezone_offset_seconds := Some (-28800);
     cr_source_dst_offset_seconds := None; cr_quality_flags := flags |}.
Definition content_fixture (rs : list CanonicalReading) : CanonicalProfileContentV1 :=
  {| pc_parser_contract_version := "interval-import-parser-v1"; pc_adapter_fingerprint := "espi";
     pc_finding_policy_version := "f1"; pc_confirmation_policy_version := "c1";
     pc_billing_period_start_utc_ns := 0; pc_billing_period_end_utc_ns := 7200000000000;
     pc_tariff_timezone := "America/Los_Angeles"; pc_interval_resolution_seconds := 3600; pc_readings := rs;
     pc_findings := [{| cf_code := "GAP"; cf_severity := "WARNING"; cf_field_path := "readings"; cf_safe_value := "" |}];
     pc_acknowledged_warning_ids := ["w2"; "w1"] |}.
Definition first_reading : CanonicalReading := reading_fixture 0 120 ["b"; "a"].
Definition second_reading : CanonicalReading := reading_fixture 3600000000000 80 [].

Lemma profile_bytes_round_trip_witness : exists bs,
  to_bytes (H := plain_unicode) (content_fixture [second_reading; first_reading]) = Ok bs /\
  decode_profile bs = Some (canonical_form (content_fixture [second_reading; first_reading])).
Proof.
  destruct (to_bytes (H := plain_unicode) (content_fixture [second_reading; first_reading])) as [bs|] eqn:E;
    [|vm_compute in E; discriminate E].
  exists bs. split; [reflexivity|exact (profile_bytes_round_trip (H := plain_unicode) _ bs E)].
Defined.

Lemma profile_bytes_identify_witness : exists b1 b2,
  to_bytes (H := plain_unicode) (content_fixture [second_reading; first_reading]) = Ok b1 /\
  to_bytes (H := plain_unicode) (content_fixture [first_reading; second_reading]) = Ok b2 /\ b1 = b2.
Proof.
  destruct (to_bytes (H := plain_unicode) (content_fixture [second_reading; first_reading])) as [b1|] eqn:E1;
    [|vm_compute in E1; discriminate E1].
  destruct (to_bytes (H := plain_unicode) (content_fixture [first_reading; second_reading])) as [b2|] eqn:E2;
    [|vm_compute in E2; discriminate E2].
  exists b1, b2. split; [reflexivity|]. split; [reflexivity|].
  apply (profile_bytes_identify (H := plain_unicode) _ _ b1 b2 E1 E2). vm_compute. reflexivity.
Defined.
