(* ===== verification/SemanticIdentity.v ===== *)
(** * SemanticIdentity: calculation identities (domain/semantic_identity.py)

    The key under which a calculation is shared: the versions and content hashes
    of everything that determines its result, validated on construction and
    hashed in a canonical JSON form in which the order of the hash lists is
    immaterial. *)

From S2P Require Import Prelude Json JsonCanonical.

Definition is_hex (c : Ascii.ascii) : bool :=
  let n := Ascii.N_of_ascii c in (((48 <=? n) && (n <=? 57)) || ((97 <=? n) && (n <=? 102)))%N.
(** [re.fullmatch(r"[0-9a-f]{64}", s)]. *)
Definition SHA256_PATTERN (s : string) : bool :=
  (String.length s =? 64)%nat && forallb is_hex (String.list_ascii_of_string s).

Record SemanticCalculationIdentity := {
  job_kind : string;
  request_schema_version : string;
  calculation_contract_version : string;
  environment_lock_hash : string;
  tariff_compiler_version : option string;
  billing_evaluator_version : option string;
  profile_version_hash : option string;
  tariff_ast_hashes : list string;
  component_vector_hashes : list string;
  account_facts_hash : option string;
  billing_period_identity_hash : option string;
  reconciliation_inputs_hash : option string;
  reconciliation_policy_hash : option string;
  comparison_coverage_version : option string;
  scenario_and_reference_hashes : list string;
  heuristic_contract_version : option string;
  heuristic_rank_calendar_hash : option string;
  heuristic_solver_configuration_hash : option string;
  solver_lowering_version : option string;
  solver_name_and_version : option string;
  solver_configuration_hash : option string;
  verifier_version : option string;
  report_template_version : option string
}.

Definition identity_error : exn := PyError "ValueError".
Definition JOB_KINDS : list string := ["REPLAY"; "COMPARISON"; "SCENARIO"; "REPORT"].

Definition hash_fields (i : SemanticCalculationIdentity) : list (option string) :=
  [Some (environment_lock_hash i); profile_version_hash i; account_facts_hash i; billing_period_identity_hash i;
   reconciliation_inputs_hash i; reconciliation_policy_hash i; heuristic_rank_calendar_hash i;
   heuristic_solver_configuration_hash i; solver_configuration_hash i].
Definition hash_lists (i : SemanticCalculationIdentity) : list (list string) :=
  [tariff_ast_hashes i; component_vector_hashes i; scenario_and_reference_hashes i].

Definition post_init (i : SemanticCalculationIdentity) : result unit :=
  _ ← raise_if (negb (mem (job_kind i) JOB_KINDS)) identity_error;
  _ ← forM_ (fun v => raise_if (String.eqb v "" || (64 <? py_len v)) identity_error)
        [request_schema_version i; calculation_contract_version i];
  _ ← forM_ (fun h => match h with
                      | Some v => raise_if (negb (SHA256_PATTERN v)) identity_error
                      | None => Ok tt
                      end) (hash_fields i);
  forM_ (fun vs => raise_if (has_dups vs || existsb (fun v => negb (SHA256_PATTERN v)) vs) identity_error)
    (hash_lists i).

Definition sorted_strings (l : list string) : json := JList (JStr <$> sorted_by id l).

Definition canonical_payload (i : SemanticCalculationIdentity) : json :=
  JObj [("job_kind", JStr (job_kind i)); ("request_schema_version", JStr (request_schema_version i));
        ("calculation_contract_version", JStr (calculation_contract_version i));
        ("environment_lock_hash", JStr (environment_lock_hash i));
        ("tariff_compiler_version", jopt JStr (tariff_compiler_version i));
        ("billing_evaluator_version", jopt JStr (billing_evaluator_version i));
        ("profile_version_hash", jopt JStr (profile_version_hash i));
        ("tariff_ast_hashes", sorted_strings (tariff_ast_hashes i));
        ("component_vector_hashes", sorted_strings (component_vector_hashes i));
        ("account_facts_hash", jopt JStr (account_facts_hash i));
        ("billing_period_identity_hash", jopt JStr (billing_period_identity_hash i));
        ("reconciliation_inputs_hash", jopt JStr (reconciliation_inputs_hash i));
        ("reconciliation_policy_hash", jopt JStr (reconciliation_policy_hash i));
        ("comparison_coverage_version", jopt JStr (comparison_coverage_version i));
        ("scenario_and_reference_hashes", sorted_strings (scenario_and_reference_hashes i));
        ("heuristic_contract_version", jopt JStr (heuristic_contract_version i));
        ("heuristic_rank_calendar_hash", jopt JStr (heuristic_rank_calendar_hash i));
        ("heuristic_solver_configuration_hash", jopt JStr (heuristic_solver_configuration_hash i));
        ("solver_lowering_version", jopt JStr (solver_lowering_version i));
        ("solver_name_and_version", jopt JStr (solver_name_and_version i));
        ("solver_configuration_hash", jopt JStr (solver_configuration_hash i));
        ("verifier_version", jopt JStr (verifier_version i));
        ("report_template_version", jopt JStr (report_template_version i))].

Definition identity_sha256 `{Sha256} (i : SemanticCalculationIdentity) : string :=
  sha256_hex ("RateReplay.SemanticCalculationIdentity.v1" +:+ chr 0 +:+ ascii_json_bytes (canonical_payload i)).

(** ** What the identity hash identifies *)

(** Equal up to the order of the hash lists. *)
Definition scalars (i : SemanticCalculationIdentity) :=
  ([job_kind i; request_schema_version i; calculation_contract_version i; environment_lock_hash i],
   [tariff_compiler_version i; billing_evaluator_version i; profile_version_hash i; account_facts_hash i;
    billing_period_identity_hash i; reconciliation_inputs_hash i; reconciliation_policy_hash i;
    comparison_coverage_version i; heuristic_contract_version i; heuristic_rank_calendar_hash i;
    heuristic_solver_configuration_hash i; solver_lowering_version i; solver_name_and_version i;
    solver_configuration_hash i; verifier_version i; report_template_version i]).
Definition same_calculation (i j : SemanticCalculationIdentity) : Prop :=
  scalars i = scalars j
  /\ tariff_ast_hashes i ≡ₚ tariff_ast_hashes j
  /\ component_vector_hashes i ≡ₚ component_vector_hashes j
  /\ scenario_and_reference_hashes i ≡ₚ scenario_and_reference_hashes j.

Lemma sorted_strings_perm l1 l2 : sorted_strings l1 = sorted_strings l2 <-> l1 ≡ₚ l2.
Proof.
  unfold sorted_strings. split.
  - intros [= E]. assert (Inj (=) (=) JStr) by (by intros ?? [= ->]). apply (inj (fmap JStr)) in E. by rewrite <-(sorted_by_perm id l1), E, sorted_by_perm.
  - intros Hp. do 2 f_equal. by apply sorted_by_unique.
Qed.

Definition versions (i : SemanticCalculationIdentity) : list (option string) :=
  [Some (request_schema_version i); Some (calculation_contract_version i); tariff_compiler_version i;
   billing_evaluator_version i; comparison_coverage_version i; heuristic_contract_version i;
   solver_lowering_version i; solver_name_and_version i; verifier_version i; report_template_version i].
Definition plain_opt (o : option string) : bool := from_option plain_string true o.

Lemma hex_plain s : SHA256_PATTERN s = true -> plain_string s = true.
Proof.
  unfold SHA256_PATTERN, plain_string, utf8_bytes. intros [_ H]%andb_true_iff.
  induction (String.list_ascii_of_string s) as [|c l IH]; [done|]. simpl in H.
  apply andb_true_iff in H as [Hc Hl]. rewrite fmap_cons. cbn [forallb]. rewrite IH by done.
  by destruct c as [[] [] [] [] [] [] [] []].
Qed.
Lemma plain_jopt o : plain (jopt JStr o) = plain_opt o.
Proof. by destruct o. Qed.
Lemma plain_sorted l : forallb plain_string l = true -> plain (sorted_strings l) = true.
Proof.
  unfold sorted_strings. simpl. rewrite !forallb_forall. intros H v Hv%list_elem_of_In.
  apply list_elem_of_fmap in Hv as (s & -> & Hs). rewrite elem_of_sorted_by in Hs. simpl.
  by apply H, list_elem_of_In.
Qed.

Lemma post_init_hashes i :
  post_init i = Ok tt ->
  mem (job_kind i) JOB_KINDS = true
  /\ forallb (from_option SHA256_PATTERN true) (hash_fields i) = true
  /\ forallb (forallb SHA256_PATTERN) (hash_lists i) = true.
Proof.
  unfold post_init. intros H. inv_ok.
  repeat match goal with
         | H : forM_ _ _ = Ok _ |- _ => apply forM_ok in H; rewrite Forall_forall in H
         end.
  split; [by destruct (mem _ _)|]. rewrite !forallb_forall. split.
  - intros [h|] Hh%list_elem_of_In; [|done]. simpl.
    match goal with H : forall o, o ∈ hash_fields i -> _ |- _ => apply H in Hh end.
    inv_ok. by destruct (SHA256_PATTERN h).
  - intros vs Hv%list_elem_of_In.
    match goal with H : forall vs, vs ∈ hash_lists i -> _ |- _ => apply H in Hv end.
    apply raise_if_ok, orb_false_iff in Hv as [_ Hv]. apply forallb_forall. intros h Hh.
    destruct (SHA256_PATTERN h) eqn:E; [done|]. exfalso.
    assert (existsb (fun v => negb (SHA256_PATTERN v)) vs = true) by (apply existsb_exists; exists h; by rewrite E).
    congruence.
Qed.

Lemma payload_plain i :
  post_init i = Ok tt -> forallb plain_opt (versions i) = true -> plain (canonical_payload i) = true.
Proof.
  intros (Hk & Hf & Hl)%post_init_hashes Hv.
  assert (plain_string (job_kind i) = true) as Hkind.
  { unfold JOB_KINDS in Hk. apply mem_true in Hk.
    repeat (apply elem_of_cons in Hk as [->|Hk]; [done|]). by apply elem_of_nil in Hk. }
  assert (forall o, o ∈ hash_fields i -> plain_opt o = true) as Hfields.
  { rewrite forallb_forall in Hf. intros [h|] Ho; [|done]. by apply list_elem_of_In, Hf, hex_plain in Ho. }
  assert (forall l, l ∈ hash_lists i -> plain (sorted_strings l) = true) as Hlists.
  { rewrite forallb_forall in Hl. intros l Ho. apply plain_sorted. apply list_elem_of_In, Hl in Ho.
    rewrite forallb_forall in Ho |- *. intros h Hh. by apply hex_plain, Ho. }
  assert (forall o, o ∈ versions i -> plain_opt o = true) as Hversions.
  { rewrite forallb_forall in Hv. intros o Ho. by apply Hv, list_elem_of_In. }
  assert (plain_string (environment_lock_hash i) = true) as He by (apply (Hfields (Some _)); left).
  assert (plain_string (request_schema_version i) = true) as Hr by (apply (Hversions (Some _)); left).
  assert (plain_string (calculation_contract_version i) = true) as Hc by (apply (Hversions (Some _)); right; left).
  unfold canonical_payload. cbn [plain forallb fst snd]. rewrite !plain_jopt, Hkind, He, Hr, Hc.
  repeat match goal with
         | |- context [plain (sorted_strings ?l)] => rewrite (Hlists l) by (unfold hash_lists; in_list)
         | |- context [plain_opt ?o] =>
             first [rewrite (Hfields o) by (unfold hash_fields; in_list)
                   |rewrite (Hversions o) by (unfold versions; in_list)]
         end.
  reflexivity.
Qed.

Lemma canon_strings l : canon (sorted_strings l) = sorted_strings l.
Proof. unfold sorted_strings. simpl. f_equal. rewrite <-list_fmap_compose. by apply list_fmap_ext. Qed.
Lemma canon_jopt o : canon (jopt JStr o) = jopt JStr o.
Proof. by destruct o. Qed.
Lemma payload_no_floats i : no_floats (canonical_payload i) = true.
Proof.
  assert (forall o : option string, no_floats (jopt JStr o) = true) as Ho by (by intros []).
  assert (forall l, no_floats (sorted_strings l) = true) as Hl.
  { intros l. unfold sorted_strings. simpl. by induction (sorted_by id l). }
  unfold canonical_payload. cbn [no_floats forallb snd]. by rewrite !Ho, !Hl.
Qed.
Lemma jopt_inj (o1 o2 : option string) : jopt JStr o1 = jopt JStr o2 -> o1 = o2.
Proof. destruct o1, o2; simpl; congruence. Qed.

Lemma canonical_payload_inj i j : canon (canonical_payload i) = canon (canonical_payload j) -> same_calculation i j.
Proof.
  intros E%canon_obj_inj; [|by apply (bool_decide_unpack _); vm_compute|done].
  unfold fmap in E. cbn [list_fmap fst snd] in E. rewrite !canon_strings, !canon_jopt in E.
  injection E. intros.
  repeat match goal with
         | H : jopt JStr _ = jopt JStr _ |- _ => apply jopt_inj in H
         | H : _ <$> sorted_by id _ = _ <$> sorted_by id _ |- _ =>
             apply (f_equal JList), sorted_strings_perm in H
         end.
  unfold same_calculation, scalars. split_and!; [congruence|assumption..].
Qed.
Lemma canonical_payload_same i j : same_calculation i j -> canonical_payload i = canonical_payload j.
Proof.
  intros (E & Ht & Hc & Hs). apply sorted_strings_perm in Ht, Hc, Hs.
  unfold scalars in E. injection E. intros. unfold canonical_payload. congruence.
Qed.

Definition identity_preimage (i : SemanticCalculationIdentity) : string :=
  "RateReplay.SemanticCalculationIdentity.v1" +:+ chr 0 +:+ ascii_json_bytes (canonical_payload i).

(** C20: the hash under which calculations are shared identifies the calculation:
    for identities that pass their validation and whose version strings are
    printable ASCII, the bytes that are hashed agree exactly when every scalar
    field agrees and the hash lists agree up to order, so two requests share a
    stored result only if they are the same calculation or SHA-256 collides. *)
Theorem identity_hash_identifies i j :
  post_init i = Ok tt -> post_init j = Ok tt ->
  forallb plain_opt (versions i) = true -> forallb plain_opt (versions j) = true ->
  (identity_preimage i = identity_preimage j <-> same_calculation i j)
  /\ forall `{Sha256}, same_calculation i j -> identity_sha256 i = identity_sha256 j.
Proof.
  intros Hi Hj Vi Vj. unfold identity_preimage, identity_sha256.
  pose proof (payload_plain _ Hi Vi) as Pi. pose proof (payload_plain _ Hj Vj) as Pj.
  split; [|intros sha S; by rewrite (canonical_payload_same _ _ S)].
  split; [|intros S; by rewrite (canonical_payload_same _ _ S)].
  rewrite (ascii_bytes_plain _ Pi), (ascii_bytes_plain _ Pj).
  intros E%(inj (String.append _))%(inj (String.append _)). apply canonical_payload_inj.
  apply canonical_bytes_inj; [apply payload_no_floats..|done].
Qed.

Definition example_identity (lists : list string) : SemanticCalculationIdentity :=
  let h := "0123456789abcdef0123456789abcdef0123456789abcdef0123456789abcdef" in
  {| job_kind := "REPLAY"; request_schema_version := "1"; calculation_contract_version := "2";
     environment_lock_hash := h; tariff_compiler_version := Some "3"; billing_evaluator_version := None;
     profile_version_hash := Some h; tariff_ast_hashes := lists; component_vector_hashes := [];
     account_facts_hash := None; billing_period_identity_hash := None; reconciliation_inputs_hash := None;
     reconciliation_policy_hash := None; comparison_coverage_version := None;
     scenario_and_reference_hashes := []; heuristic_contract_version := None;
     heuristic_rank_calendar_hash := None; heuristic_solver_configuration_hash := None;
     solver_lowering_version := None; solver_name_and_version := None; solver_configuration_hash := None;
     verifier_version := None; report_template_version := None |}.
Definition example_hashes : list string :=
  ["0123456789abcdef0123456789abcdef0123456789abcdef0123456789abcdef";
   "1123456789abcdef0123456789abcdef0123456789abcdef0123456789abcdef"].
Lemma identity_hash_identifies_witness :
  identity_preimage (example_identity example_hashes) = identity_preimage (example_identity (rev example_hashes)).
Proof.
  refine (proj2 (proj1 (identity_hash_identifies (example_identity example_hashes)
                          (example_identity (rev example_hashes)) _ _ _ _)) _).
  1-4: vm_compute; reflexivity.
  split; [reflexivity|]. split; [apply Permutation_rev|]. split; reflexivity.
Defined.
