(* ===== verification/PyText.v ===== *)
(** * PyText: the text operations of Python the importers use

    Strings are their UTF-8 images.  [py_strip] is [str.strip()], [py_int] is
    [int(text)] and [decimal_text] is [decimal.Decimal(text)], each on the code
    points of the text; the decimal digits outside ASCII are those of the Unicode
    database, a parameter. *)

From Stdlib Require Import Ascii.
From S2P Require Import Prelude Float Json Energy.

(** [unicodedata.decimal(chr(n), None)] for a code point outside ASCII. *)
Class UnicodeDigits := unicode_decimal : N -> option N.

(** ** Code points *)
Definition points (s : string) : list N := code_points (utf8_bytes s).
Definition bytes_string (l : list N) : string := String.string_of_list_ascii (Ascii.ascii_of_N <$> l).

Definition utf8_point (n : N) : list N :=
  (if n <? 128 then [n]
   else if n <? 2048 then [192 + n / 64; 128 + n mod 64]
   else if n <? 65536 then [224 + n / 4096; 128 + n / 64 mod 64; 128 + n mod 64]
   else [240 + n / 262144; 128 + n / 4096 mod 64; 128 + n / 64 mod 64; 128 + n mod 64])%N.
Definition utf8_encode (l : list N) : string := bytes_string (l ≫= utf8_point).

(** [chr(n).isspace()]. *)
Definition is_whitespace (n : N) : bool :=
  (((9 <=? n) && (n <=? 13)) || ((28 <=? n) && (n <=? 32)) || (n =? 133) || (n =? 160) || (n =? 5760)
   || ((8192 <=? n) && (n <=? 8202)) || (n =? 8232) || (n =? 8233) || (n =? 8239) || (n =? 8287)
   || (n =? 12288))%N.

Fixpoint drop_spaces (l : list N) : list N :=
  match l with n :: t => if is_whitespace n then drop_spaces t else l | [] => [] end.
Definition strip_points (l : list N) : list N := rev (drop_spaces (rev (drop_spaces l))).
(** [s.strip()]. *)
Definition py_strip (s : string) : string := utf8_encode (strip_points (points s)).

Definition digit_of `{UnicodeDigits} (n : N) : option N :=
  if ((48 <=? n) && (n <=? 57))%N then Some (n - 48)%N else if (n <? 128)%N then None else unicode_decimal n.

(** ** [int(text)] *)
Fixpoint all_digits `{UnicodeDigits} (l : list N) : option (list N) :=
  match l with
  | [] => Some []
  | n :: t => d ← digit_of n; ds ← all_digits t; Some (d :: ds)
  end.
Definition digits_value (ds : list N) : Z := foldl (fun acc d => 10 * acc + Z.of_N d) 0 ds.

(** Digits with single underscores between them; [after_digit] says that the
    preceding character was a digit. *)
Fixpoint int_digits `{UnicodeDigits} (after_digit : bool) (l : list N) : option (list N) :=
  match l with
  | [] => if after_digit then Some [] else None
  | n :: t =>
      if (n =? 95)%N then if after_digit then int_digits false t else None
      else d ← digit_of n; ds ← int_digits true t; Some (d :: ds)
  end.
Definition signed (l : list N) : bool * list N :=
  match l with
  | n :: t => if (n =? 45)%N then (true, t) else if (n =? 43)%N then (false, t) else (false, l)
  | [] => (false, [])
  end.
(** [sys.get_int_max_str_digits()]. *)
Definition MAX_STR_DIGITS : nat := 4300.
Definition py_int `{UnicodeDigits} (s : string) : option Z :=
  let '(negative, l) := signed (strip_points (points s)) in
  ds ← int_digits false l;
  if (MAX_STR_DIGITS <? length ds)%nat then None
  else Some (if negative then - digits_value ds else digits_value ds).

(** ** [Decimal(text)] *)

(** [MAX_EMAX] and [MIN_ETINY] of the [decimal] module. *)
Definition DECIMAL_MAX_EMAX : Z := 999999999999999999.
Definition DECIMAL_MIN_ETINY : Z := -1999999999999999997.

Definition lower_point (n : N) : N := if ((65 <=? n) && (n <=? 90))%N then (n + 32)%N else n.
Fixpoint split_at (p : N -> bool) (l : list N) : list N * option (list N) :=
  match l with
  | [] => ([], None)
  | n :: t => if p n then ([], Some t) else prod_map (cons n) id (split_at p t)
  end.

Definition exponent_of `{UnicodeDigits} (l : list N) : option Z :=
  let '(negative, t) := signed l in
  ds ← all_digits t;
  if (length ds =? 0)%nat then None else Some (if negative then - digits_value ds else digits_value ds).

(** A finite literal: digits, an optional fraction and an optional exponent. *)
Definition finite_decimal `{UnicodeDigits} (l : list N) : option decimal :=
  let '(mantissa, exp) := split_at (fun n => (n =? 101)%N) l in
  e ← match exp with Some t => exponent_of t | None => Some 0 end;
  let '(whole, fraction) := split_at (fun n => (n =? 46)%N) mantissa in
  ws ← all_digits whole;
  fs ← all_digits (default [] fraction);
  if (length (ws ++ fs) =? 0)%nat then None
  else Some {| coefficient := digits_value (ws ++ fs); exponent := e - Z.of_nat (length fs) |}.
(** The literals the exact conversion represents. *)
Definition representable (d : decimal) : bool :=
  (DECIMAL_MIN_ETINY <=? exponent d)
  && (if coefficient d =? 0 then exponent d <=? DECIMAL_MAX_EMAX
      else digits (coefficient d) - 1 + exponent d <=? DECIMAL_MAX_EMAX).

Definition word (s : string) : list N := utf8_bytes s.
Definition is_nan `{UnicodeDigits} (l : list N) : bool :=
  match l with
  | a :: b :: c :: t =>
      bool_decide ([a; b; c] = word "nan") && bool_decide (is_Some (all_digits t))
  | _ => false
  end.
Definition special_value `{UnicodeDigits} (l : list N) : bool :=
  bool_decide (l = word "inf") || bool_decide (l = word "infinity") || is_nan l
  || match l with n :: t => (n =? 115)%N && is_nan t | [] => false end.

Definition decimal_text `{UnicodeDigits} (s : string) : source_value :=
  let l := lower_point <$> filter (fun n => n <> 95%N) (strip_points (points s)) in
  let '(negative, t) := signed l in
  if special_value t then NotFinite
  else match finite_decimal t with
       | Some d => if representable d then FiniteValue negative d else NotDecimal
       | None => NotDecimal
       end.

(** ** Substrings *)
Definition ascii_upper (c : Ascii.ascii) : Ascii.ascii :=
  let n := Ascii.N_of_ascii c in if ((97 <=? n) && (n <=? 122))%N then Ascii.ascii_of_N (n - 32) else c.
Notation bytes := (list Ascii.ascii).
Definition bytes_of (s : string) : bytes := String.list_ascii_of_string s.

Fixpoint is_prefix (p l : bytes) : bool :=
  match p, l with
  | [], _ => true
  | a :: p', b :: l' => Ascii.eqb a b && is_prefix p' l'
  | _, _ => false
  end.
(** [p in l] on byte strings. *)
Fixpoint contains (p l : bytes) : bool :=
  is_prefix p l || match l with _ :: l' => contains p l' | [] => false end.

(** [s.startswith(p)]. *)
Definition startswith (s p : string) : bool := is_prefix (bytes_of p) (bytes_of s).

Fixpoint drop_char (c : Ascii.ascii) (l : bytes) : bytes :=
  match l with a :: t => if Ascii.eqb a c then drop_char c t else l | [] => [] end.
(** [s.rstrip(c)]. *)
Definition rstrip_char (c : Ascii.ascii) (s : string) : string :=
  String.string_of_list_ascii (rev (drop_char c (rev (bytes_of s)))).
Fixpoint after_char (c : Ascii.ascii) (l : bytes) : option bytes :=
  match l with a :: t => if Ascii.eqb a c then Some t else after_char c t | [] => None end.
(** [s.rsplit(c, 1)[0]]. *)
Definition rsplit_head (c : Ascii.ascii) (s : string) : string :=
  match after_char c (rev (bytes_of s)) with
  | Some t => String.string_of_list_ascii (rev t)
  | None => s
  end.

(** ** Facts *)
Lemma is_prefix_spec p l : is_prefix p l = true <-> exists t, l = p ++ t.
Proof.
  revert l. induction p as [|a p IH]; intros l; simpl.
  - split; [by exists l|done].
  - destruct l as [|b l]; [split; [done|by intros (t & ?)]|].
    rewrite andb_true_iff, IH, Ascii.eqb_eq. split.
    + intros (-> & t & ->). by exists t.
    + intros (t & [= -> ->]). eauto.
Qed.
Lemma contains_spec p l : contains p l = true <-> exists u t, l = u ++ p ++ t.
Proof.
  induction l as [|b l IH]; simpl; rewrite orb_true_iff, is_prefix_spec.
  - split; [|intros (u & t & E); left; exists t; by destruct u; [|discriminate E]].
    intros [(t & E)|?]; [|done]. by exists [], t.
  - rewrite IH. split.
    + intros [(t & E)|(u & t & ->)]; [by exists [], t|by exists (b :: u), t].
    + intros ([|x u] & t & E); [left; by exists t|right]. injection E as -> ->. by exists u, t.
Qed.

Section Examples.
Local Instance ascii_digits : UnicodeDigits := fun _ => None.
Example py_int_examples :
  py_int " -28_800 " = Some (-28800) /\ py_int "3600" = Some 3600 /\ py_int "1__0" = None /\ py_int "" = None
  /\ py_int "+7" = Some 7 /\ py_int "12.0" = None.
Proof. split_and!; vm_compute; reflexivity. Qed.
Example decimal_text_examples :
  decimal_text "1.50" = FiniteValue false {| coefficient := 150; exponent := -2 |}
  /\ decimal_text "-2E3" = FiniteValue true {| coefficient := 2; exponent := 3 |}
  /\ decimal_text "Infinity" = NotFinite /\ decimal_text "1.2.3" = NotDecimal
  /\ decimal_text ".5e-1" = FiniteValue false {| coefficient := 5; exponent := -2 |}
  /\ decimal_text "1e99999999999999999999" = NotDecimal.
Proof. split_and!; vm_compute; reflexivity. Qed.
Example py_strip_examples :
  py_strip (" a b" +:+ chr 10) = "a b" /\ py_strip (chr 194 +:+ chr 160 +:+ chr 195 +:+ chr 169) = chr 195 +:+ chr 169
  /\ rsplit_head "/"%char "a/b/c" = "a/b" /\ rstrip_char "/"%char "a//" = "a".
Proof. split_and!; vm_compute; reflexivity. Qed.
End Examples.
