(* ===== verification/IsoTime.v ===== *)
(** * IsoTime: reading back the timestamps the program writes

    [datetime.isoformat()] of a UTC instant is read by [datetime.fromisoformat]
    as the same instant.  On every other text the parser is a parameter. *)

From S2P Require Import Prelude Float Json Calendar PyText.

(** [datetime.fromisoformat(text)] on texts that are not the [isoformat] of a
    UTC [datetime]: [None] for a [ValueError], [Some None] for a naive value and
    [Some (Some t)] for an aware one at instant [t]. *)
Class IsoFormats := other_iso : string -> option (option Z).

Definition code_value (n : N) : Z := Z.of_N n - 48.
Definition codes2 (a b : N) : Z := 10 * code_value a + code_value b.
Definition codes4 (a b c d : N) : Z := 100 * codes2 a b + codes2 c d.

Definition iso_instant (y m d h n s us : Z) : Z :=
  (date_of_ymd y m d * 86400 + h * 3600 + n * 60 + s) * US_PER_SECOND + us.

(** The instant of ["YYYY-MM-DDTHH:MM:SS[.ffffff]+00:00"]. *)
Definition iso_candidate (l : list N) : option Z :=
  match l with
  | y1 :: y2 :: y3 :: y4 :: _ :: m1 :: m2 :: _ :: d1 :: d2 :: _ :: h1 :: h2 :: _ :: n1 :: n2 :: _ :: s1 :: s2 :: rest =>
      let at_us us := Some (iso_instant (codes4 y1 y2 y3 y4) (codes2 m1 m2) (codes2 d1 d2) (codes2 h1 h2)
                              (codes2 n1 n2) (codes2 s1 s2) us) in
      match rest with
      | [_; _; _; _; _; _] => at_us 0
      | [_; u1; u2; u3; u4; u5; u6; _; _; _; _; _; _] => at_us (10000 * codes2 u1 u2 + codes4 u3 u4 u5 u6)
      | _ => None
      end
  | _ => None
  end.
Definition read_iso (s : string) : option Z :=
  t ← iso_candidate (utf8_bytes s);
  if String.eqb (datetime_isoformat t) s && (instant_min <=? t) && (t <=? instant_max) then Some t else None.

Definition fromisoformat `{IsoFormats} (s : string) : option (option Z) :=
  match read_iso s with Some t => Some (Some t) | None => other_iso s end.

(** ** Dates *)
Lemma year_of_era doe :
  0 <= doe < 146097 ->
  let yoe := (doe - doe / 1460 + doe / 36524 - doe / 146096) / 365 in
  0 <= yoe < 400 /\ 0 <= doe - (365 * yoe + yoe / 4 - yoe / 100) <= 365.
Proof.
  intros H yoe. assert (0 <= yoe < 400) as Hy by (unfold yoe; Z.to_euclidean_division_equations; lia).
  split; [done|]. revert Hy. unfold yoe. Z.to_euclidean_division_equations. lia.
Qed.

Lemma date_of_date_ymd d : let '(y, m, day) := date_ymd d in date_of_ymd y m day = d /\ 1 <= m <= 12 /\ 1 <= day <= 31.
Proof.
  unfold date_ymd, date_of_ymd. set (z := d + 719468).
  pose proof (Z.mod_pos_bound z 146097 ltac:(lia)) as Hdoe. pose proof (Z.div_mod z 146097 ltac:(lia)) as Hz.
  destruct (year_of_era (z mod 146097) Hdoe) as [Hy Hdoy].
  set (doe := z mod 146097) in *. set (era := z / 146097) in *.
  set (yoe := (doe - doe / 1460 + doe / 36524 - doe / 146096) / 365) in *.
  set (doy := doe - (365 * yoe + yoe / 4 - yoe / 100)) in *.
  set (mp := (5 * doy + 2) / 153).
  assert (0 <= mp <= 11) as Hmp by (unfold mp; Z.to_euclidean_division_equations; lia).
  destruct (Z.ltb_spec mp 10).
  - destruct (Z.leb_spec (mp + 3) 2); [lia|]. destruct (Z.ltb_spec 2 (mp + 3)); [|lia].
    replace (mp + 3 - 3) with mp by lia.
    replace ((yoe + era * 400 + 0) / 400) with era by (apply (Z.div_unique _ _ _ yoe); lia).
    replace ((yoe + era * 400 + 0) mod 400) with yoe by (apply (Z.mod_unique _ _ era); lia).
    split; [unfold doy; lia|]. unfold mp. Z.to_euclidean_division_equations. lia.
  - destruct (Z.leb_spec (mp - 9) 2); [|lia]. destruct (Z.ltb_spec 2 (mp - 9)); [lia|].
    replace (mp - 9 + 9) with mp by lia.
    replace ((yoe + era * 400 + 1 - 1) / 400) with era by (apply (Z.div_unique _ _ _ yoe); lia).
    replace ((yoe + era * 400 + 1 - 1) mod 400) with yoe by (apply (Z.mod_unique _ _ era); lia).
    split; [unfold doy; lia|]. unfold mp. Z.to_euclidean_division_equations. lia.
Qed.

Lemma date_year_bounds d : date_min <= d <= date_max -> 1 <= date_year d <= 9999.
Proof.
  unfold date_min, date_max, date_year, date_ymd. intros Hd. cbn [fst].
  set (z := d + 719468) in *. pose proof (Z.mod_pos_bound z 146097 ltac:(lia)) as Hdoe.
  pose proof (Z.div_mod z 146097 ltac:(lia)) as Hz. destruct (year_of_era (z mod 146097) Hdoe) as [Hy Hdoy].
  set (doe := z mod 146097) in *. set (era := z / 146097) in *.
  set (yoe := (doe - doe / 1460 + doe / 36524 - doe / 146096) / 365) in *.
  set (doy := doe - (365 * yoe + yoe / 4 - yoe / 100)) in *.
  assert (0 <= era <= 24) by lia.
  assert (0 <= (5 * doy + 2) / 153 <= 11) as Hmp by (Z.to_euclidean_division_equations; lia).
  assert (era = 24 -> yoe <= 399 /\ (yoe = 399 -> (5 * doy + 2) / 153 < 10)) as Hlast.
  { intros E. split; [lia|]. intros Ey. assert (doe <= 146036) by lia.
    assert (doy = doe - (365 * 399 + 99 - 3)) as -> by (unfold doy; rewrite Ey; reflexivity).
    Z.to_euclidean_division_equations; lia. }
  assert (era = 0 -> yoe = 0 -> 10 <= (5 * doy + 2) / 153) as Hfirst.
  { intros E Ey. assert (306 <= doe) by lia.
    assert (doy = doe) as -> by (unfold doy; rewrite Ey; change (0 / 4) with 0; change (0 / 100) with 0; lia).
    Z.to_euclidean_division_equations; lia. }
  destruct (Z.ltb_spec ((5 * doy + 2) / 153) 10) as [Hlt|Hge].
  - destruct (Z.leb_spec ((5 * doy + 2) / 153 + 3) 2); lia.
  - destruct (Z.leb_spec ((5 * doy + 2) / 153 - 9) 2); lia.
Qed.

(** ** Digits *)
Lemma utf8_bytes_app (a b : string) : utf8_bytes (a +:+ b) = utf8_bytes a ++ utf8_bytes b.
Proof.
  unfold utf8_bytes. induction a as [|c a IH]; [done|].
  change (String c a +:+ b) with (String c (a +:+ b)). cbn [String.list_ascii_of_string].
  by rewrite fmap_cons, IH.
Qed.
Definition digit_code (n : Z) : N := Z.to_N (48 + n mod 10).
Lemma utf8_digit n : utf8_bytes (digit n) = [digit_code n].
Proof.
  unfold utf8_bytes, digit. cbn [String.list_ascii_of_string]. rewrite fmap_cons, fmap_nil. f_equal.
  apply Ascii.N_ascii_embedding. unfold digit_code. pose proof (Z.mod_pos_bound n 10 ltac:(lia)) as Hm.
  generalize dependent (n mod 10). lia.
Qed.
Lemma utf8_pad2 n : utf8_bytes (pad2 n) = [digit_code (n / 10); digit_code n].
Proof. unfold pad2. by rewrite utf8_bytes_app, !utf8_digit. Qed.
Lemma utf8_pad4 n :
  utf8_bytes (pad4 n) = [digit_code (n / 1000); digit_code (n / 100); digit_code (n / 10); digit_code n].
Proof. unfold pad4. by rewrite !utf8_bytes_app, utf8_pad2, !utf8_digit. Qed.

Lemma code_value_digit n : code_value (digit_code n) = n mod 10.
Proof. unfold code_value, digit_code. pose proof (Z.mod_pos_bound n 10 ltac:(lia)) as Hm.
  generalize dependent (n mod 10). lia. Qed.
Lemma codes2_digits n : 0 <= n < 100 -> codes2 (digit_code (n / 10)) (digit_code n) = n.
Proof. intros Hn. unfold codes2. rewrite !code_value_digit. Z.to_euclidean_division_equations; lia. Qed.
Lemma codes4_digits n :
  0 <= n < 10000 ->
  codes4 (digit_code (n / 1000)) (digit_code (n / 100)) (digit_code (n / 10)) (digit_code n) = n.
Proof. intros Hn. unfold codes4, codes2. rewrite !code_value_digit. Z.to_euclidean_division_equations; lia. Qed.

Lemma iso_candidate_iso t : instant_min <= t <= instant_max -> iso_candidate (utf8_bytes (datetime_isoformat t)) = Some t.
Proof.
  intros Ht. unfold datetime_isoformat, isoformat. set (sec := t mod US_PER_DAY / US_PER_SECOND).
  set (us := t mod US_PER_SECOND). set (d := t / US_PER_DAY).
  assert (0 <= sec < 86400) as Hsec.
  { unfold sec, US_PER_DAY, US_PER_SECOND. Z.to_euclidean_division_equations; lia. }
  assert (0 <= us < 1000000) as Hus by (unfold us, US_PER_SECOND; apply Z.mod_pos_bound; lia).
  assert (t = (d * 86400 + sec) * US_PER_SECOND + us) as Et.
  { unfold d, sec, us, US_PER_DAY, US_PER_SECOND. Z.to_euclidean_division_equations; lia. }
  assert (date_min <= d <= date_max) as Hd.
  { unfold d, instant_min, instant_max, US_PER_DAY, US_PER_SECOND in *. Z.to_euclidean_division_equations; lia. }
  pose proof (date_year_bounds d Hd) as Hyear. pose proof (date_of_date_ymd d) as Hymd.
  unfold date_year, date_month, date_day in *. destruct (date_ymd d) as [[y m] day] eqn:E. cbn [fst snd] in *.
  destruct Hymd as (Hd' & Hm & Hday).
  assert (0 <= sec / 3600 < 24 /\ 0 <= sec / 60 mod 60 < 60 /\ 0 <= sec mod 60 < 60
          /\ sec = sec / 3600 * 3600 + sec / 60 mod 60 * 60 + sec mod 60) as (H1 & H2 & H3 & Hs).
  { Z.to_euclidean_division_equations; lia. }
  assert (iso_instant y m day (sec / 3600) (sec / 60 mod 60) (sec mod 60) us = t) as Hinst.
  { unfold iso_instant. rewrite Hd'. lia. }
  rewrite !utf8_bytes_app, utf8_pad4, !utf8_pad2.
  destruct (Z.eqb_spec us 0) as [E0|E0].
  - cbn [app utf8_bytes]. cbn. rewrite codes4_digits, !codes2_digits by lia. congruence.
  - rewrite !utf8_bytes_app, utf8_pad4, utf8_pad2. cbn.
    assert (0 <= us / 10000 < 100 /\ 0 <= us mod 10000 < 10000 /\ us = 10000 * (us / 10000) + us mod 10000) as (H4 & H5 & H6)
      by (Z.to_euclidean_division_equations; lia).
    rewrite !codes4_digits, !codes2_digits by lia. rewrite <-H6. congruence.
Qed.

(** A UTC timestamp survives being written and read. *)
Lemma fromisoformat_isoformat `{IsoFormats} t :
  instant_min <= t <= instant_max -> fromisoformat (datetime_isoformat t) = Some (Some t).
Proof.
  intros Ht. unfold fromisoformat, read_iso. rewrite (iso_candidate_iso _ Ht). cbn [mbind option_bind].
  rewrite String.eqb_refl. destruct (Z.leb_spec instant_min t), (Z.leb_spec t instant_max); [done|lia..].
Qed.
