(* ===== verification/Base64.v ===== *)
(** * Base64: the encoding of the binary fields (base64.b64encode / b64decode)

    Byte strings are lists of codes below 256.  [b64decode] is specified on the
    texts [b64encode] produces; on any other text it is a parameter. *)

From S2P Require Import Prelude Float Json JsonCanonical PyText.

(** [base64.b64decode(text, validate=True)] outside the range of the encoder:
    [None] for [binascii.Error]. *)
Class LooseBase64 := other_b64 : string -> option string.

(** The alphabet [A-Za-z0-9+/]. *)
Definition b64_char (n : N) : N :=
  (if n <? 26 then 65 + n else if n <? 52 then 71 + n else if n <? 62 then n - 4
   else if n =? 62 then 43 else 47)%N.
Definition b64_value (c : N) : N :=
  (if 97 <=? c then c - 71 else if 65 <=? c then c - 65 else if 48 <=? c then c + 4
   else if c =? 43 then 62 else 63)%N.
Definition PAD : N := 61.

Fixpoint b64_codes (l : list N) : list N :=
  match l with
  | a :: b :: c :: t =>
      b64_char (a / 4) :: b64_char (a mod 4 * 16 + b / 16)
      :: b64_char (b mod 16 * 4 + c / 64) :: b64_char (c mod 64) :: b64_codes t
  | [a; b] => [b64_char (a / 4); b64_char (a mod 4 * 16 + b / 16); b64_char (b mod 16 * 4); PAD]
  | [a] => [b64_char (a / 4); b64_char (a mod 4 * 16); PAD; PAD]
  | [] => []
  end%N.
Fixpoint b64_bytes (l : list N) : list N :=
  match l with
  | w :: x :: y :: z :: t =>
      (b64_value w * 4 + b64_value x / 16)
      :: (if y =? PAD then []
          else (b64_value x mod 16 * 16 + b64_value y / 4)
               :: (if z =? PAD then [] else (b64_value y mod 4 * 64 + b64_value z) :: b64_bytes t))
  | _ => []
  end%N.

Definition b64encode (s : string) : string := bytes_string (b64_codes (utf8_bytes s)).
Definition b64decode `{LooseBase64} (s : string) : option string :=
  let c := bytes_string (b64_bytes (utf8_bytes s)) in
  if String.eqb (b64encode c) s then Some c else other_b64 s.

(** ** Bytes *)
Definition bytes_ok (l : list N) : Prop := Forall (fun n => (n < 256)%N) l.
Lemma utf8_bytes_ok s : bytes_ok (utf8_bytes s).
Proof.
  apply Forall_forall. intros n (c & -> & _)%list_elem_of_fmap. destruct c as [[] [] [] [] [] [] [] []]; done.
Qed.
Lemma utf8_bytes_of l : bytes_ok l -> utf8_bytes (bytes_string l) = l.
Proof.
  unfold utf8_bytes, bytes_string. rewrite String.list_ascii_of_string_of_list_ascii, <-list_fmap_compose.
  induction 1 as [|n l Hn _ IH]; [done|]. rewrite fmap_cons, IH. f_equal. by apply Ascii.N_ascii_embedding.
Qed.
Lemma bytes_string_of s : bytes_string (utf8_bytes s) = s.
Proof.
  unfold utf8_bytes, bytes_string. rewrite <-list_fmap_compose.
  rewrite <-(String.string_of_list_ascii_of_string s) at 2. f_equal.
  induction (String.list_ascii_of_string s) as [|c l IH]; [done|].
  rewrite fmap_cons, IH. f_equal. apply Ascii.ascii_N_embedding.
Qed.

(** ** Characters *)
Definition b64_code (c : N) : Prop := (43 <= c <= 122 /\ c <> 92 /\ c <> 61)%N.
Lemma b64_char_ok n : (n < 64)%N -> b64_value (b64_char n) = n /\ b64_code (b64_char n).
Proof.
  intros Hn. unfold b64_value, b64_char, b64_code.
  repeat match goal with |- context [(?a <? ?b)%N] => destruct (N.ltb_spec a b) end;
  try destruct (N.eqb_spec n 62); repeat match goal with |- context [(?a <=? ?b)%N] => destruct (N.leb_spec a b) end;
  repeat match goal with |- context [(?a =? ?b)%N] => destruct (N.eqb_spec a b) end; lia.
Qed.
Lemma b64_value_char n : (n < 64)%N -> b64_value (b64_char n) = n.
Proof. intros Hn. by apply b64_char_ok. Qed.
Lemma b64_char_unpadded n : (n < 64)%N -> (b64_char n =? PAD)%N = false.
Proof. intros Hn. destruct (b64_char_ok n Hn) as [_ (_ & _ & H)]. by apply N.eqb_neq. Qed.

Lemma three_step_ind {A} (P : list A -> Prop) :
  P [] -> (forall a, P [a]) -> (forall a b, P [a; b]) -> (forall a b c t, P t -> P (a :: b :: c :: t)) -> forall l, P l.
Proof.
  intros H0 H1 H2 H3. fix IH 1. intros [|a [|b [|c t]]]; [done|apply H1|apply H2|apply H3, IH].
Qed.

Ltac split_bytes :=
  unfold bytes_ok in *; repeat match goal with H : Forall _ (_ :: _) |- _ => apply Forall_cons in H as [? H] end; cbn beta in *.
Ltac byte_arith := zify; Z.to_euclidean_division_equations; lia.
Ltac sextets :=
  repeat (rewrite b64_value_char; [|byte_arith]); repeat (rewrite b64_char_unpadded; [|byte_arith]).

Lemma b64_bytes_codes l : bytes_ok l -> b64_bytes (b64_codes l) = l.
Proof.
  induction l as [|a|a b|a b c t IH] using three_step_ind; intros Hl; [done| | |]; split_bytes; cbn [b64_codes b64_bytes].
  all: rewrite ?N.eqb_refl; sextets.
  all: repeat (f_equal; try byte_arith).
  by apply IH.
Qed.

Lemma b64_codes_range l : bytes_ok l -> Forall (fun c => b64_code c \/ c = PAD) (b64_codes l).
Proof.
  induction l as [|a|a b|a b c t IH] using three_step_ind; intros Hl; [constructor| | |]; split_bytes; cbn [b64_codes].
  all: repeat (apply Forall_cons; split; [first [by right|left; apply b64_char_ok; byte_arith]|]); try constructor.
  by apply IH.
Qed.
Lemma b64_codes_bytes l : bytes_ok l -> bytes_ok (b64_codes l).
Proof.
  intros Hl. eapply Forall_impl; [by apply b64_codes_range|]. unfold b64_code, PAD. simpl. intros c [H|H]; lia.
Qed.

(** Decoding inverts encoding. *)
Lemma b64decode_encode `{LooseBase64} s : b64decode (b64encode s) = Some s.
Proof.
  unfold b64decode. pose proof (utf8_bytes_ok s) as Hs.
  assert (bytes_string (b64_bytes (utf8_bytes (b64encode s))) = s) as ->; [|by rewrite String.eqb_refl].
  unfold b64encode. rewrite utf8_bytes_of; [|by apply b64_codes_bytes]. by rewrite b64_bytes_codes, bytes_string_of.
Qed.
(** Encoded text is printable ASCII. *)
Lemma b64encode_plain s : plain_string (b64encode s) = true.
Proof.
  unfold plain_string, b64encode. pose proof (utf8_bytes_ok s) as Hs. rewrite utf8_bytes_of; [|by apply b64_codes_bytes].
  apply forallb_forall. intros c Hc%list_elem_of_In. apply N.ltb_lt.
  apply b64_codes_range in Hs. rewrite Forall_forall in Hs. apply Hs in Hc. unfold b64_code, PAD in Hc. lia.
Qed.
Lemma b64encode_nonempty s : s <> "" -> b64encode s <> "".
Proof. intros Hs E. assert (LooseBase64) as LB by exact (fun _ => None). apply Hs.
  pose proof (b64decode_encode s) as D. rewrite E in D. vm_compute in D. congruence. Qed.
