(* ===== verification/Keyrings.v ===== *)
(** * Keyrings: versioned keyrings (persistence/keyrings.py)

    A keyring maps version names to 32-byte keys and names the version new data
    is written with.  Byte strings are strings of bytes.  The files of a key
    directory are given with their contents, [None] where reading fails. *)

From Stdlib Require Import Ascii.
From S2P Require Import Prelude Float Json JsonCanonical PyText Base64.

Definition keyring_error (code : string) : exn := ServiceError "KeyringError" code.

(** ** Hexadecimal *)
Definition hex_value (n : N) : option N :=
  (if (48 <=? n) && (n <=? 57) then Some (n - 48)
   else if (97 <=? n) && (n <=? 102) then Some (n - 87)
   else if (65 <=? n) && (n <=? 70) then Some (n - 55) else None)%N.
Definition ascii_space (n : N) : bool := ((n =? 32) || ((9 <=? n) && (n <=? 13)))%N.
(** [bytes.fromhex(text)]: pairs of digits, spaces between pairs. *)
Fixpoint fromhex_codes (l : list N) : option (list N) :=
  match l with
  | [] => Some []
  | a :: t =>
      if ascii_space a then fromhex_codes t
      else match t with
           | b :: t' => x ← hex_value a; y ← hex_value b; r ← fromhex_codes t'; Some ((16 * x + y)%N :: r)
           | [] => None
           end
  end.
Definition fromhex (s : string) : option string := bytes_string <$> fromhex_codes (utf8_bytes s).
(** [data.hex()]. *)
Fixpoint hex (s : string) : string :=
  match s with
  | EmptyString => EmptyString
  | String c s' => let n := Ascii.N_of_ascii c in hex_digit (n / 16) +:+ hex_digit (n mod 16) +:+ hex s'
  end.

(** ** Keyrings *)
Record VersionedKeyring := { current_version : string; keys : list (string * string) }.

Definition version_char (c : Ascii.ascii) : bool :=
  let n := Ascii.N_of_ascii c in
  (((65 <=? n) && (n <=? 90)) || ((97 <=? n) && (n <=? 122)) || ((48 <=? n) && (n <=? 57))
   || (n =? 46) || (n =? 95) || (n =? 45))%N.
Definition KEY_VERSION (s : string) : bool :=
  (1 <=? String.length s)%nat && (String.length s <=? 64)%nat && forallb version_char (String.list_ascii_of_string s).

Definition check_key (item : string * string) : result unit :=
  _ ← raise_if (negb (KEY_VERSION item.1)) (keyring_error "KEY_VERSION_INVALID");
  raise_if (negb (String.length item.2 =? 32)%nat) (keyring_error "KEY_LENGTH_INVALID").
Definition keyring_post_init (k : VersionedKeyring) : result unit :=
  _ ← raise_if (negb (KEY_VERSION (current_version k))) (keyring_error "KEY_VERSION_INVALID");
  _ ← forM_ check_key (keys k);
  _ ← raise_if (bool_decide (keys k = [])) (keyring_error "KEYRING_EMPTY");
  raise_if (negb (mem (current_version k) (keys k).*1)) (keyring_error "CURRENT_KEY_UNAVAILABLE").
Definition make_keyring (version : string) (items : list (string * string)) : result VersionedKeyring :=
  let k := {| current_version := version; keys := items |} in _ ← keyring_post_init k; Ok k.
Definition single (version key : string) : result VersionedKeyring := make_keyring version [(version, key)].
Definition require (k : VersionedKeyring) (version : string) : result string :=
  match dict_get version (keys k) with Some key => Ok key | None => Raise (keyring_error "KEY_VERSION_UNAVAILABLE") end.
Definition current_key (k : VersionedKeyring) : result string :=
  match dict_get (current_version k) (keys k) with Some key => Ok key | None => Raise (PyError "KeyError") end.

(** [encoded.strip()] on bytes. *)
Definition strip_bytes (s : string) : string :=
  let drop := fix drop (l : list Ascii.ascii) := match l with
    | c :: t => if ascii_space (Ascii.N_of_ascii c) then drop t else l | [] => [] end in
  String.string_of_list_ascii (rev (drop (rev (drop (String.list_ascii_of_string s))))).
(** One key file: 32 raw bytes or 64 hexadecimal digits. *)
Definition read_key (file : string * option string) : result (string * string) :=
  _ ← raise_if (negb (KEY_VERSION file.1)) (keyring_error "KEY_VERSION_INVALID");
  match file.2 with
  | None => Raise (keyring_error "KEYRING_UNREADABLE")
  | Some encoded =>
      key ← (if (String.length (strip_bytes encoded) =? 64)%nat
             then match fromhex (strip_bytes encoded) with
                  | Some k => Ok k
                  | None => Raise (keyring_error "KEY_ENCODING_INVALID")
                  end
             else Ok encoded);
      _ ← raise_if (negb (String.length key =? 32)%nat) (keyring_error "KEY_LENGTH_INVALID");
      Ok (file.1, key)
  end.
(** The readable files of the directory in name order, or [None]. *)
Definition load_keyring (directory : option (list (string * option string))) (version : string) :
    result VersionedKeyring :=
  match directory with
  | None => Raise (keyring_error "KEYRING_UNREADABLE")
  | Some [] => Raise (keyring_error "KEYRING_EMPTY")
  | Some files => items ← mapM read_key (sorted_by fst files); make_keyring version items
  end.
