(* ===== verification/Espi.v ===== *)
(** * Espi: ESPI documents (ingestion/espi.py)

    An ESPI Atom feed is streamed in chunks through lxml's pull parser, each
    completed [entry] element is reduced to an [_Entry], and the entries are
    resolved along their links to one meter stream whose readings are normalised.
    The pull parser, the schema validator and the stream are parameters; elements
    are trees as lxml presents them. *)

From Stdlib Require Import Ascii.
From S2P Require Import Prelude Float Json Energy PyText.

Definition ATOM : string := "http://www.w3.org/2005/Atom".
Definition ESPI : string := "http://naesb.org/espi".
Definition MAX_XML_BYTES : Z := 10 * 1024 * 1024.
Definition MAX_XML_DEPTH : Z := 64.
Definition XML_CHUNK_BYTES : Z := 64 * 1024.
Definition ALLOWED_RESOURCE_KINDS : list string :=
  ["ElectricPowerUsageSummary"; "IntervalBlock"; "LocalTimeParameters"; "MeterReading"; "ReadingType"; "UsagePoint"].

Definition espi_error (code : string) : exn := EspiParseError code.

(** ** Data *)
Record EspiFinding := { ef_code : string; ef_severity : string; ef_field_path : string }.
#[export] Instance EspiFinding_eq_dec : EqDecision EspiFinding.
Proof. solve_decision. Defined.

Record EspiReading := {
  er_start_utc_seconds : Z; er_duration_seconds : Z; er_energy_wh : Z;
  er_quality_flags : list string  (** a [frozenset] *)
}.
Record EspiDocument := {
  ed_source_hash : string; ed_interval_seconds : Z; ed_timezone_offset_seconds : Z; ed_dst_offset_seconds : Z;
  ed_readings : list EspiReading; ed_findings : list EspiFinding
}.
Record RawReading := {
  rr_start : option string; rr_duration : option string; rr_value : option string; rr_quality_codes : list string
}.
Record Entry := {
  self_href : string; kind : string; values : list (string * string); raw_readings : list RawReading;
  links : list (string * string)
}.

(** [_Entry.value]. *)
Definition entry_value (e : Entry) (name : string) : result (option string) :=
  match snd <$> filter (fun kv => fst kv = name) (values e) with
  | [] => Ok None
  | [v] => Ok (Some v)
  | _ => Raise (espi_error "AMBIGUOUS_READING_SEMANTIC")
  end.

(** ** Elements *)

(** A node of an lxml tree: an element with its qualified name, attributes,
    leading text and children, or a comment or processing instruction. *)
Inductive node :=
| Element (namespace : option string) (localname : string) (attributes : list (string * string))
    (text : option string) (children : list node)
| OtherNode.

Inductive event :=
| StartEvent (namespace : option string) (localname : string)
| EndEvent (element : node).

(** lxml: the events a pull parser reports when a further chunk is fed to it
    after earlier ones, [None] for a syntax error; whether the document is
    complete; and schema validation of one resource. *)
Class Lxml := {
  feed : list string -> string -> option (list event);
  close : list string -> bool
}.
Class EspiSchema := validate : node -> bool.

Definition has_tag (ns local : string) (n : node) : bool :=
  match n with
  | Element (Some ns') local' _ _ _ => String.eqb ns ns' && String.eqb local local'
  | _ => false
  end.
Definition children_of (n : node) : list node :=
  match n with Element _ _ _ _ c => c | OtherNode => [] end.
Definition is_element (n : node) : bool := match n with Element _ _ _ _ _ => true | OtherNode => false end.
(** [element.findall] and [element.find] of a child tag. *)
Definition findall (ns local : string) (n : node) : list node := filter (fun c => has_tag ns local c) (children_of n).
Definition find (ns local : string) (n : node) : option node := head (findall ns local n).
Definition get (key : string) (n : node) : option string :=
  match n with Element _ _ a _ _ => dict_get key a | OtherNode => None end.
Definition raw_text (n : node) : option string :=
  match n with Element _ _ _ t _ => t | OtherNode => None end.
(** [_text]. *)
Definition text_of (n : option node) : option string := e ← n; t ← raw_text e; Some (py_strip t).

Definition espi_find (local : string) (n : node) : option node := find ESPI local n.

Definition entry_links (atom_entry : node) : list (string * string) :=
  (fun l => (default "" (get "rel" l), default "" (get "href" l)))
    <$> filter (fun l => default "" (get "href" l) <> "") (findall ATOM "link" atom_entry).

Definition resource_values (k : string) (resource : node) : list (string * string) :=
  if String.eqb k "UsagePoint" then
    (* [find] of a path takes the first match below any of the categories *)
    match text_of (head (findall ESPI "ServiceCategory" resource ≫= findall ESPI "kind")) with
    | Some t => [("serviceCategory", t)]
    | None => []
    end
  else if mem k ["ReadingType"; "LocalTimeParameters"] then
    omap (fun c => match c with
                   | Element _ local _ (Some t) _ => Some (local, py_strip t)
                   | _ => None
                   end) (children_of resource)
  else [].

Definition raw_reading (interval : node) : RawReading :=
  let period := espi_find "timePeriod" interval in
  {| rr_start := text_of (p ← period; espi_find "start" p);
     rr_duration := text_of (p ← period; espi_find "duration" p);
     rr_value := text_of (espi_find "value" interval);
     rr_quality_codes :=
       omap (fun q => text_of (Some q)) (findall ESPI "ReadingQuality" interval ≫= findall ESPI "quality") |}.

Definition parse_atom_entry (schema : option EspiSchema) (atom_entry : node) : result Entry :=
  let links := entry_links atom_entry in
  let graph_links := filter (fun l => fst l ∈ ["self"; "up"; "related"]) links in
  _ ← raise_if (has_dups graph_links) (espi_error "DUPLICATE_RELATIONSHIP");
  match snd <$> filter (fun l => fst l = "self") links with
  | [self] =>
      let resources := from_option (fun c => filter (fun n => is_element n) (children_of c)) []
                         (find ATOM "content" atom_entry) in
      match resources with
      | [Element ns k a t c as resource] =>
          _ ← raise_if (negb (bool_decide (ns = Some ESPI))) (espi_error "UNSUPPORTED_READING_SEMANTICS");
          _ ← raise_if (negb (mem k ALLOWED_RESOURCE_KINDS)) (espi_error "UNSUPPORTED_READING_SEMANTICS");
          _ ← raise_if (match schema with Some s => negb (s resource) | None => false end)
                (espi_error "XML_SCHEMA_FAILURE");
          Ok {| self_href := self; kind := k; values := resource_values k resource;
                raw_readings := if String.eqb k "IntervalBlock"
                                then raw_reading <$> findall ESPI "IntervalReading" resource else [];
                links := links |}
      | _ => Raise (espi_error "AMBIGUOUS_RELATIONSHIP")
      end
  | _ => Raise (espi_error "AMBIGUOUS_RELATIONSHIP")
  end.

(** ** Streaming *)
Inductive payload :=
| Bytes (data : string)
| Stream (chunks : list string)  (** what successive reads of a file return *).

(** The non-empty reads of at most [n] bytes. *)
Fixpoint split_chunks (n fuel : nat) (l : bytes) : list bytes :=
  match fuel, l with
  | S fuel', _ :: _ => take n l :: split_chunks n fuel' (drop n l)
  | _, _ => []
  end.
Fixpoint until_empty (l : list bytes) : list bytes :=
  match l with [] :: _ | [] => [] | c :: t => c :: until_empty t end.
Definition chunks_of (p : payload) : list bytes :=
  match p with
  | Bytes s => split_chunks (Z.to_nat XML_CHUNK_BYTES) (String.length s) (bytes_of s)
  | Stream cs => until_empty (bytes_of <$> cs)
  end.

Record StreamState := {
  ss_entries : dict string Entry; ss_depth : Z; ss_root_seen : bool; ss_size : Z; ss_scan_tail : bytes;
  ss_fed : list string
}.
Definition start_stream : StreamState :=
  {| ss_entries := []; ss_depth := 0; ss_root_seen := false; ss_size := 0; ss_scan_tail := []; ss_fed := [] |}.

Definition DOCTYPE : bytes := bytes_of "<!DOCTYPE".
Definition ENTITY : bytes := bytes_of "<!ENTITY".
Definition scan_window (tail chunk : bytes) : bytes := ascii_upper <$> (tail ++ chunk).
(** [w[-16:]]. *)
Definition last16 (w : bytes) : bytes := drop (length w - 16) w.

Definition handle_event (schema : option EspiSchema) (s : StreamState) (e : event) : result StreamState :=
  match e with
  | StartEvent ns local =>
      _ ← raise_if (MAX_XML_DEPTH <? ss_depth s + 1) (espi_error "EXCESSIVE_NESTING");
      _ ← raise_if (negb (ss_root_seen s) && negb (bool_decide (ns = Some ATOM) && String.eqb local "feed"))
            (espi_error "UNSUPPORTED_CONTENT_TYPE");
      Ok {| ss_entries := ss_entries s; ss_depth := ss_depth s + 1; ss_root_seen := true;
            ss_size := ss_size s; ss_scan_tail := ss_scan_tail s; ss_fed := ss_fed s |}
  | EndEvent element =>
      entries ← (if has_tag ATOM "entry" element then
                   entry ← parse_atom_entry schema element;
                   _ ← raise_if (mem (self_href entry) (ss_entries s).*1) (espi_error "DUPLICATE_RELATIONSHIP");
                   Ok (dict_set (self_href entry) entry (ss_entries s))
                 else Ok (ss_entries s));
      Ok {| ss_entries := entries; ss_depth := ss_depth s - 1; ss_root_seen := ss_root_seen s;
            ss_size := ss_size s; ss_scan_tail := ss_scan_tail s; ss_fed := ss_fed s |}
  end.

Section Parser.
Context `{Lxml} `{Sha256} `{UnicodeDigits}.

Definition handle_chunk (schema : option EspiSchema) (s : StreamState) (chunk : bytes) : result StreamState :=
  let size := ss_size s + Z.of_nat (length chunk) in
  _ ← raise_if (MAX_XML_BYTES <? size) (espi_error "OVERSIZED_FILE");
  let window := scan_window (ss_scan_tail s) chunk in
  _ ← raise_if (contains DOCTYPE window) (espi_error "EXTERNAL_ENTITY_REFERENCE");
  _ ← raise_if (contains ENTITY window) (espi_error "XML_ENTITY_EXPANSION");
  let text := String.string_of_list_ascii chunk in
  match feed (ss_fed s) text with
  | None => Raise (espi_error "XML_SCHEMA_FAILURE")
  | Some events =>
      foldM (handle_event schema)
        {| ss_entries := ss_entries s; ss_depth := ss_depth s; ss_root_seen := ss_root_seen s; ss_size := size;
           ss_scan_tail := last16 window; ss_fed := ss_fed s ++ [text] |} events
  end.

Definition concat_text (l : list string) : string := foldr String.append EmptyString l.

Definition stream_entries (p : payload) (schema : option EspiSchema) : result (list Entry * string) :=
  _ ← match p with
      | Bytes data =>
          _ ← raise_if (String.eqb data "") (espi_error "EMPTY_FILE");
          raise_if (MAX_XML_BYTES <? Z.of_nat (String.length data)) (espi_error "OVERSIZED_FILE")
      | Stream _ => Ok tt
      end;
  s ← foldM (handle_chunk schema) start_stream (chunks_of p);
  _ ← raise_if (ss_size s =? 0) (espi_error "EMPTY_FILE");
  _ ← raise_if (negb (close (ss_fed s))) (espi_error "XML_SCHEMA_FAILURE");
  _ ← raise_if (bool_decide (ss_entries s = [])) (espi_error "EMPTY_FILE");
  Ok ((ss_entries s).*2, sha256_hex (concat_text (ss_fed s))).

(** ** Resolution *)
Definition required_int (e : Entry) (name : string) : result Z :=
  raw ← entry_value e name;
  match raw with
  | None => Raise (espi_error "MISSING_READING_SEMANTIC")
  | Some text => match py_int text with
                 | Some z => Ok z
                 | None => Raise (espi_error "INVALID_READING_SEMANTIC")
                 end
  end.

Definition rstrip_slash (s : string) : string := rstrip_char "/"%char s.
Definition hrefs (relation : string) (e : Entry) : list string :=
  rstrip_slash <$> (snd <$> filter (fun l => fst l = relation) (links e)).

Definition validate_up_relationship (e : Entry) : result unit :=
  match hrefs "up" e with
  | [up] => raise_if (negb (String.eqb up (rsplit_head "/"%char (rstrip_slash (self_href e)))))
              (espi_error "DANGLING_RELATIONSHIP")
  | _ => Raise (espi_error "AMBIGUOUS_RELATIONSHIP")
  end.

Definition owns (relation href : string) : bool :=
  String.eqb (rstrip_slash href) relation || startswith (rstrip_slash href) (relation +:+ "/").
Definition related (e : Entry) (entries : list Entry) (k : string) : list Entry :=
  filter (fun c => kind c = k /\ existsb (fun r => owns r (self_href c)) (hrefs "related" e) = true) entries.

(** ** Readings *)
Definition quality_name (code : string) : option string :=
  if String.eqb code "7" then Some "MANUALLY_EDITED"
  else if String.eqb code "8" then Some "ESTIMATED_USING_REFERENCE_DAY"
  else None.
Definition add_flag (flags : list string) (code : string) : result (list string) :=
  match quality_name code with
  | None => Raise (espi_error "UNSUPPORTED_READING_QUALITY")
  | Some f => Ok (if mem f flags then flags else flags ++ [f])
  end.

(** [raise EspiParseError(error.code, ...)] for an [EnergyAdmissionError]. *)
Definition as_espi_error {A} (r : result A) : result A :=
  match r with Raise (EnergyAdmissionError code) => Raise (espi_error code) | _ => r end.

Definition normalized_reading (interval_seconds multiplier : Z) (raw : RawReading) :
    result (EspiReading * list EspiFinding) :=
  match rr_start raw, rr_duration raw, rr_value raw with
  | Some start_text, Some duration_text, Some value =>
      match py_int start_text, py_int duration_text with
      | Some start, Some duration =>
          _ ← raise_if (negb (duration =? interval_seconds)) (espi_error "MIXED_INTERVAL_DURATIONS");
          flags ← foldM add_flag [] (rr_quality_codes raw);
          energy ← as_espi_error (exact_watt_hours (decimal_text value) "Wh" multiplier);
          Ok ({| er_start_utc_seconds := start; er_duration_seconds := duration; er_energy_wh := energy;
                 er_quality_flags := flags |},
              (fun f => {| ef_code := f; ef_severity := "WARNING";
                           ef_field_path := "readings[" +:+ pretty start +:+ "]" |}) <$> flags)
      | _, _ => Raise (espi_error "INVALID_READING_SEMANTIC")
      end
  | _, _, _ => Raise (espi_error "MISSING_READING_SEMANTIC")
  end.

Definition reading_key (r : EspiReading) : Z * Z := (er_start_utc_seconds r, er_duration_seconds r).
Definition reading_end (r : EspiReading) : Z := er_start_utc_seconds r + er_duration_seconds r.
Definition finding_key (f : EspiFinding) : string * string := (ef_code f, ef_field_path f).
Definition warning (code path : string) : EspiFinding :=
  {| ef_code := code; ef_severity := "WARNING"; ef_field_path := path |}.

Definition check_adjacent (findings : list EspiFinding) (pair : EspiReading * EspiReading) :
    result (list EspiFinding) :=
  let '(previous, current) := pair in
  _ ← raise_if (er_start_utc_seconds current <? reading_end previous) (espi_error "OVERLAPPING_INTERVALS");
  Ok (if reading_end previous <? er_start_utc_seconds current
      then findings ++ [warning "INTERVAL_GAP" "readings"] else findings).

Definition normalized_readings (interval_blocks : list Entry) (interval_seconds multiplier : Z) :
    result (list EspiReading * list EspiFinding) :=
  found ← mapM (normalized_reading interval_seconds multiplier) (interval_blocks ≫= raw_readings);
  let readings := found.*1 in
  _ ← raise_if (bool_decide (readings = [])) (espi_error "EMPTY_FILE");
  let findings := (found.*2 ≫= id)
    ++ (if bool_decide (reading_key <$> readings = py_sorted (reading_key <$> readings)) then []
        else [warning "NON_MONOTONIC_INTERVALS" "readings"]) in
  let normalized := sorted_by reading_key readings in
  _ ← raise_if (has_dups (reading_key <$> normalized)) (espi_error "DUPLICATE_INTERVALS");
  findings ← foldM check_adjacent findings (pairwise normalized);
  Ok (normalized, sorted_by finding_key (remove_dups findings)).

(** ** The document *)
Inductive SchemaFile :=
| NoSchema
| MissingSchema
| InvalidSchema
| CompiledSchema (schema : EspiSchema).
Definition compile_schema (path : SchemaFile) : result (option EspiSchema) :=
  match path with
  | NoSchema => Ok None
  | MissingSchema => Raise (espi_error "SCHEMA_LOCK_MISSING")
  | InvalidSchema => Raise (espi_error "SCHEMA_LOCK_INVALID")
  | CompiledSchema s => Ok (Some s)
  end.

Definition expected_semantics : list (string * Z) :=
  [("accumulationBehaviour", 4); ("commodity", 1); ("dataQualifier", 12); ("flowDirection", 1); ("kind", 12);
   ("timeAttribute", 0); ("uom", 72)].
Definition check_semantic (reading_type : Entry) (field : string * Z) : result unit :=
  v ← required_int reading_type field.1;
  raise_if (negb (v =? field.2))
    (espi_error (if String.eqb field.1 "commodity" then "WRONG_COMMODITY" else "UNSUPPORTED_READING_SEMANTICS")).

Definition resolve_document (entries : list Entry) (source_hash : string) : result EspiDocument :=
  match filter (fun e => kind e = "UsagePoint") entries with
  | [usage_point] =>
      _ ← validate_up_relationship usage_point;
      category ← required_int usage_point "serviceCategory";
      _ ← raise_if (negb (category =? 0)) (espi_error "WRONG_COMMODITY");
      match related usage_point entries "MeterReading" with
      | [meter_reading] =>
          let interval_blocks := related meter_reading entries "IntervalBlock" in
          match related meter_reading entries "ReadingType", interval_blocks,
                related usage_point entries "LocalTimeParameters" with
          | [reading_type], _ :: _, [local_time] =>
              _ ← forM_ validate_up_relationship (meter_reading :: reading_type :: interval_blocks ++ [local_time]);
              _ ← forM_ (check_semantic reading_type) expected_semantics;
              interval_seconds ← required_int reading_type "intervalLength";
              _ ← raise_if (negb (mem interval_seconds [900; 3600])) (espi_error "UNSUPPORTED_READING_SEMANTICS");
              multiplier ← required_int reading_type "powerOfTenMultiplier";
              timezone_offset ← required_int local_time "tzOffset";
              dst_offset ← required_int local_time "dstOffset";
              _ ← raise_if (negb (timezone_offset =? -28800) || negb (dst_offset =? 3600))
                    (espi_error "TIMEZONE_METADATA_CONFLICT");
              '(readings, findings) ← normalized_readings interval_blocks interval_seconds multiplier;
              Ok {| ed_source_hash := source_hash; ed_interval_seconds := interval_seconds;
                    ed_timezone_offset_seconds := timezone_offset; ed_dst_offset_seconds := dst_offset;
                    ed_readings := readings; ed_findings := findings |}
          | _, _, _ => Raise (espi_error "DANGLING_RELATIONSHIP")
          end
      | _ => Raise (espi_error "AMBIGUOUS_RELATIONSHIP")
      end
  | _ => Raise (espi_error "MULTIPLE_USAGE_POINTS")
  end.

Definition parse_espi (p : payload) (schema_path : SchemaFile) : result EspiDocument :=
  schema ← compile_schema schema_path;
  '(entries, source_hash) ← stream_entries p schema;
  resolve_document entries source_hash.
End Parser.
