(* ===== verification/EspiProofs.v ===== *)
(** * EspiProofs: what an admitted ESPI document guarantees

    The byte scan sees every declaration whatever the chunking, and an admitted
    document is a disjoint, ordered, uniform sequence of readings whose gaps are
    all reported. *)

From Stdlib Require Import Ascii.
From S2P Require Import Prelude Float Json Energy PyText Espi.

(** ** The declaration scan *)
Lemma ascii_upper_idemp c : ascii_upper (ascii_upper c) = ascii_upper c.
Proof. by destruct c as [[] [] [] [] [] [] [] []]. Qed.
Lemma upper_idemp (l : bytes) : ascii_upper <$> (ascii_upper <$> l) = ascii_upper <$> l.
Proof. rewrite <-list_fmap_compose. apply list_fmap_ext. intros ? c _. apply ascii_upper_idemp. Qed.

Lemma last16_app (x y : bytes) : last16 (last16 x ++ y) = last16 (x ++ y).
Proof.
  unfold last16. rewrite !length_app, length_drop.
  destruct (decide (length x <= 16)%nat).
  - replace (length x - 16)%nat with 0%nat by lia. simpl. rewrite drop_0. do 2 f_equal. lia.
  - rewrite <-drop_app_le by lia. rewrite drop_drop. f_equal. lia.
Qed.

Lemma contains_window p (x y : bytes) :
  (length p <= 17)%nat -> contains p (x ++ y) = true ->
  contains p x = true \/ contains p (last16 x ++ y) = true.
Proof.
  rewrite !contains_spec. intros Hp (u & t & E).
  destruct (decide (length u + length p <= length x)%nat) as [Hle|Hgt].
  - left. exists u, (drop (length u + length p) x).
    rewrite <-(take_drop (length u + length p) x) at 1. rewrite app_assoc. f_equal.
    apply (f_equal (take (length u + length p))) in E. rewrite take_app_le in E by lia.
    rewrite app_assoc, <-length_app, take_app_length in E. by rewrite <-length_app.
  - right. unfold last16. exists (drop (length x - 16) u), t.
    apply (f_equal (drop (length x - 16))) in E.
    rewrite !drop_app_le in E by lia. exact E.
Qed.

(** ** What a payload holds *)

(** The events the pull parser reports for successive chunks, and the [entry]
    elements among them in the order in which they end. *)
Fixpoint events_from `{Lxml} (fed chunks : list string) : list event :=
  match chunks with
  | [] => []
  | c :: cs => default [] (feed fed c) ++ events_from (fed ++ [c]) cs
  end.
Definition payload_events `{Lxml} (p : payload) : list event :=
  events_from [] (String.string_of_list_ascii <$> chunks_of p).
Definition entry_elements (es : list event) : list node :=
  omap (fun e => match e with
                 | EndEvent el => if has_tag ATOM "entry" el then Some el else None
                 | StartEvent _ _ => None
                 end) es.
(** The raw readings that the entries of a feed hold for its one meter: those of
    the interval blocks related to the meter reading of the one usage point, with
    the interval and multiplier of that meter's reading type. *)
Definition meter_readings `{UnicodeDigits} (entries : list Entry) (interval multiplier : Z) (raws : list RawReading)
    : Prop :=
  exists usage_point meter reading_type,
    filter (fun e => kind e = "UsagePoint") entries = [usage_point]
    /\ related usage_point entries "MeterReading" = [meter]
    /\ related meter entries "ReadingType" = [reading_type]
    /\ required_int reading_type "intervalLength" = Ok interval
    /\ required_int reading_type "powerOfTenMultiplier" = Ok multiplier
    /\ raws = (related meter entries "IntervalBlock" ≫= raw_readings).

Lemma events_from_app `{Lxml} fed cs1 cs2 :
  events_from fed (cs1 ++ cs2) = events_from fed cs1 ++ events_from (fed ++ cs1) cs2.
Proof.
  revert fed. induction cs1 as [|c cs1 IH]; intros fed; cbn [app events_from]; [by rewrite app_nil_r|].
  by rewrite IH, <-!app_assoc.
Qed.
Lemma entry_elements_app es1 es2 : entry_elements (es1 ++ es2) = entry_elements es1 ++ entry_elements es2.
Proof. apply omap_app. Qed.

(** The entries of a stream are those of the elements seen, in their order. *)
Definition parsed (schema : option EspiSchema) (es : list event) (entries : dict string Entry) : Prop :=
  Forall2 (fun el e => parse_atom_entry schema el = Ok e) (entry_elements es) entries.*2 /\ NoDup entries.*1.

(** A byte string in which neither declaration can be read as ASCII, in any
    letter case.  The test is on bytes: in another encoding, such as UTF-16, a
    declaration is not seen ([utf16_declaration_unseen]). *)
Definition no_declarations (l : bytes) : Prop :=
  contains DOCTYPE (ascii_upper <$> l) = false /\ contains ENTITY (ascii_upper <$> l) = false.

Section Stream.
Context {LX : Lxml} {SH : Sha256} {UD : UnicodeDigits}.

Definition stream_inv (schema : option EspiSchema) (done : list bytes) (s : StreamState) : Prop :=
  ss_scan_tail s = last16 (ascii_upper <$> concat done)
  /\ no_declarations (concat done)
  /\ ss_size s = Z.of_nat (length (concat done)) /\ ss_size s <= MAX_XML_BYTES
  /\ ss_fed s = String.string_of_list_ascii <$> done
  /\ ss_depth s <= MAX_XML_DEPTH
  /\ parsed schema (events_from [] (String.string_of_list_ascii <$> done)) (ss_entries s).

Lemma handle_event_frame schema s e s' es :
  handle_event schema s e = Ok s' ->
  ss_depth s <= MAX_XML_DEPTH -> parsed schema es (ss_entries s) ->
  ss_scan_tail s' = ss_scan_tail s /\ ss_size s' = ss_size s /\ ss_fed s' = ss_fed s
  /\ ss_depth s' <= MAX_XML_DEPTH /\ parsed schema (es ++ [e]) (ss_entries s').
Proof.
  intros Hs Hd [Hp Hn]. unfold parsed. rewrite entry_elements_app. destruct e as [ns local|element]; simpl in Hs.
  - inv_ok. subst s'. simpl. bools. rewrite app_nil_r. by split_and!.
  - apply bind_ok in Hs as (entries & He & [= <-]). cbn [entry_elements omap list_omap ss_entries ss_scan_tail
      ss_size ss_fed ss_depth]. split_and!; [done..|lia| |].
    + destruct (has_tag ATOM "entry" element); [|injection He as <-; by rewrite app_nil_r].
      inv_ok. subst entries. bools. rewrite dict_set_fresh, fmap_app by done.
      apply Forall2_app; [done|]. by repeat constructor.
    + destruct (has_tag ATOM "entry" element); [|by injection He as <-].
      inv_ok. subst entries. bools. by apply dict_set_NoDup.
Qed.
Lemma handle_events_frame schema events s s' es :
  foldM (handle_event schema) s events = Ok s' ->
  ss_depth s <= MAX_XML_DEPTH -> parsed schema es (ss_entries s) ->
  ss_scan_tail s' = ss_scan_tail s /\ ss_size s' = ss_size s /\ ss_fed s' = ss_fed s
  /\ ss_depth s' <= MAX_XML_DEPTH /\ parsed schema (es ++ events) (ss_entries s').
Proof.
  revert s es. induction events as [|e events IH]; intros s es Hs Hd Hn; simpl in Hs.
  - injection Hs as <-. rewrite app_nil_r. auto.
  - apply bind_ok in Hs as (s1 & H1 & Hs).
    destruct (handle_event_frame _ _ _ _ _ H1 Hd Hn) as (E1 & E2 & E3 & Hd1 & Hn1).
    destruct (IH _ _ Hs Hd1 Hn1) as (F1 & F2 & F3 & Hd2 & Hn2). rewrite <-app_assoc in Hn2. split_and!; congruence || done.
Qed.

Lemma window_upper done chunk :
  scan_window (last16 (ascii_upper <$> concat done)) chunk
  = last16 (ascii_upper <$> concat done) ++ (ascii_upper <$> chunk).
Proof.
  unfold scan_window. rewrite fmap_app. f_equal. unfold last16. by rewrite fmap_drop, upper_idemp.
Qed.
Lemma contains_extend p done chunk :
  (length p <= 17)%nat -> contains p (ascii_upper <$> concat done) = false ->
  contains p (scan_window (last16 (ascii_upper <$> concat done)) chunk) = false ->
  contains p (ascii_upper <$> concat (done ++ [chunk])) = false.
Proof.
  intros Hp H1 H2. rewrite window_upper in H2. rewrite concat_app, fmap_app. simpl. rewrite app_nil_r.
  apply not_true_is_false. intros [E|E]%contains_window; [congruence..|done].
Qed.

Lemma handle_chunk_inv schema done chunk s s' :
  stream_inv schema done s -> handle_chunk schema s chunk = Ok s' -> stream_inv schema (done ++ [chunk]) s'.
Proof.
  intros (Ht & [Hd He] & Hz & Hb & Hf & Hdepth & Hn) Hc. unfold handle_chunk in Hc. rewrite Ht in Hc.
  apply bind_ok in Hc as ([] & Hsize & Hc). apply bind_ok in Hc as ([] & Hdoc & Hc).
  apply bind_ok in Hc as ([] & Hent & Hc). apply raise_if_ok in Hsize, Hdoc, Hent.
  destruct (feed _ _) as [events|] eqn:Hev; [|done].
  eapply handle_events_frame in Hc as (E1 & E2 & E3 & Hd' & Hn'); [|done|exact Hn]. simpl in *.
  apply Z.ltb_ge in Hsize. unfold stream_inv. rewrite E1, E2, E3. split_and!; try done.
  - rewrite window_upper, last16_app, concat_app, fmap_app. simpl. by rewrite app_nil_r.
  - split; apply contains_extend; done || (vm_compute; lia).
  - rewrite concat_app, length_app, Hz. simpl. rewrite app_nil_r. lia.
  - by rewrite fmap_app, Hf.
  - rewrite fmap_app, events_from_app. cbn [app events_from fmap list_fmap]. rewrite Hf in Hev. rewrite Hev. cbn [default].
    rewrite app_nil_r. exact Hn'.
Qed.

Lemma chunks_inv schema cs s : foldM (handle_chunk schema) start_stream cs = Ok s -> stream_inv schema cs s.
Proof.
  apply foldM_prefix_inv.
  - unfold stream_inv, no_declarations, parsed. simpl. split_and!; try done; constructor.
  - intros done c s1 s2 _ Hi Hc. by eapply handle_chunk_inv.
Qed.
End Stream.

(** ** Readings *)
Section Readings.
Context {UD : UnicodeDigits}.

Lemma round_half_even_nonneg c k : 0 <= c -> 0 <= round_half_even c k.
Proof.
  intros Hc. unfold round_half_even. pose proof (Z.pow_nonneg 10 k ltac:(lia)) as Hp.
  assert (0 <= c / 10 ^ k).
  { destruct (decide (10 ^ k = 0)) as [->|]; [by rewrite Zdiv_0_r|]. apply Z.div_pos; lia. }
  case_match; lia.
Qed.
Lemma finalize_nonneg d d' : finalize d = Ok d' -> 0 <= coefficient d -> 0 <= coefficient d'.
Proof.
  unfold finalize. intros Hf Hc. destruct (coefficient d =? 0); [by injection Hf as <-|].
  destruct (ETOP <? _); [done|]. destruct (Z.max _ _ <=? _); [by injection Hf as <-|].
  pose proof (round_half_even_nonneg (coefficient d)
    (Z.max (digits (coefficient d) + exponent d - PREC) ETINY - exponent d) Hc) as Hr.
  destruct (round_half_even _ _ =? _); (destruct (ETOP <? _); [done|]); injection Hf as <-; simpl; [lia|done].
Qed.
Lemma decimal_mul_nonneg a b d :
  decimal_mul a b = Ok d -> 0 <= coefficient a -> 0 <= coefficient b -> 0 <= coefficient d.
Proof. intros Hm Ha Hb. eapply finalize_nonneg; [exact Hm|]. simpl. nia. Qed.
Lemma to_integral_nonneg d : 0 <= coefficient d -> 0 <= to_integral d.
Proof.
  intros Hd. unfold to_integral. case_match; [|by apply round_half_even_nonneg].
  pose proof (Z.pow_nonneg 10 (exponent d)). nia.
Qed.

Lemma digits_value_nonneg ds : 0 <= digits_value ds.
Proof.
  unfold digits_value. assert (forall acc, 0 <= acc -> 0 <= foldl (fun acc d => 10 * acc + Z.of_N d) acc ds) as Hl.
  { induction ds as [|d ds IH]; intros acc Hacc; simpl; [done|]. apply IH. lia. }
  by apply Hl.
Qed.
Lemma decimal_text_nonneg s negative d : decimal_text s = FiniteValue negative d -> 0 <= coefficient d.
Proof.
  unfold decimal_text. destruct (signed _) as [neg t]. destruct (special_value t); [done|].
  destruct (finite_decimal t) as [d'|] eqn:E; [|done]. destruct (representable d'); [|done]. intros [= _ <-].
  unfold finite_decimal in E. destruct (split_at _ t) as [m x].
  destruct (match x with Some t => exponent_of t | None => Some 0 end); [|done]. simpl in E.
  destruct (split_at _ m) as [w f]. destruct (all_digits w) as [ws|]; [|done].
  destruct (all_digits (default [] f)) as [gs|]; [|done]. simpl in E. destruct (length _ =? 0)%nat; [done|].
  injection E as <-. simpl. apply digits_value_nonneg.
Qed.
Lemma exact_watt_hours_nonneg s unit power n : exact_watt_hours (decimal_text s) unit power = Ok n -> 0 <= n.
Proof.
  intros Hx. unfold exact_watt_hours in Hx. destruct (decimal_text s) as [| | |neg d] eqn:E; try done.
  apply decimal_text_nonneg in E. apply bind_ok in Hx as ([] & _ & Hx).
  destruct (unit_multiplier _) as [u|] eqn:Hu; [|done].
  apply bind_ok in Hx as ([] & _ & Hx). apply bind_ok in Hx as (d1 & H1 & Hx).
  apply bind_ok in Hx as (d2 & H2 & Hx). apply bind_ok in Hx as ([] & _ & [= <-]).
  apply to_integral_nonneg. eapply decimal_mul_nonneg; [exact H2| |].
  - eapply decimal_mul_nonneg; [exact H1|done|]. simpl. unfold unit_multiplier in Hu. repeat case_match; simplify_eq; lia.
  - unfold ten_power. case_match; simpl; [apply Z.pow_nonneg; lia|lia].
Qed.

Lemma as_espi_error_ok {A} (r : result A) a : as_espi_error r = Ok a -> r = Ok a.
Proof. destruct r as [|[]]; simpl; congruence. Qed.

(** The codes a reading's own findings can have. *)
Definition QUALITY_FLAGS : list string := ["MANUALLY_EDITED"; "ESTIMATED_USING_REFERENCE_DAY"].
Lemma add_flags_sound codes flags :
  foldM add_flag [] codes = Ok flags -> flags ⊆ QUALITY_FLAGS.
Proof.
  apply (foldM_inv add_flag (fun fl => fl ⊆ QUALITY_FLAGS)); [set_solver|].
  intros c fl fl' _ Hfl Ha. unfold add_flag in Ha. destruct (quality_name c) as [f|] eqn:E; [|done].
  injection Ha as <-. assert (f ∈ QUALITY_FLAGS).
  { unfold quality_name in E. repeat case_match; simplify_eq; set_solver. }
  case_match; [done|]. set_solver.
Qed.

Lemma normalized_reading_sound interval multiplier raw r fs :
  normalized_reading interval multiplier raw = Ok (r, fs) ->
  er_duration_seconds r = interval /\ 0 <= er_energy_wh r
  /\ er_quality_flags r ⊆ QUALITY_FLAGS
  /\ fs = (fun f => warning f ("readings[" +:+ pretty (er_start_utc_seconds r) +:+ "]")) <$> er_quality_flags r.
Proof.
  unfold normalized_reading. destruct (rr_start raw), (rr_duration raw), (rr_value raw) as [v|]; try done.
  destruct (py_int s) as [start|], (py_int s0) as [duration|]; try done.
  intros Hr. apply bind_ok in Hr as ([] & Hd & Hr). apply bind_ok in Hr as (flags & Hf & Hr).
  apply bind_ok in Hr as (energy & He & [= <- <-]). simpl.
  apply as_espi_error_ok, exact_watt_hours_nonneg in He. apply add_flags_sound in Hf.
  apply raise_if_ok in Hd. bools. done.
Qed.

Definition gap_between (p : EspiReading * EspiReading) : Prop := reading_end p.1 < er_start_utc_seconds p.2.
Definition in_order (p : EspiReading * EspiReading) : Prop := reading_end p.1 <= er_start_utc_seconds p.2.

Lemma check_adjacent_sound ps fs0 fs :
  foldM check_adjacent fs0 ps = Ok fs ->
  Forall in_order ps
  /\ forall f, f ∈ fs <-> f ∈ fs0 \/ (f = warning "INTERVAL_GAP" "readings" /\ Exists gap_between ps).
Proof.
  revert fs0. induction ps as [|[a b] ps IH]; intros fs0 Hf; simpl in Hf.
  - injection Hf as <-. split; [constructor|]. intros f. rewrite Exists_nil. tauto.
  - apply bind_ok in Hf as (fs1 & H1 & Hf). apply bind_ok in H1 as ([] & Ho & [= <-]).
    apply raise_if_ok, Z.ltb_ge in Ho. destruct (IH _ Hf) as [Hps Hiff].
    split; [constructor; done|]. intros f. rewrite Hiff, Exists_cons. unfold gap_between at 2. simpl.
    destruct (Z.ltb_spec (reading_end a) (er_start_utc_seconds b)) as [Hg|Hg].
    + rewrite elem_of_app, list_elem_of_singleton. tauto.
    + split; [tauto|]. intros [?|[? [?|?]]]; [auto|lia|auto].
Qed.

(** The readings of a document, from its raw readings: the normalised readings of
    the raw ones in order of time. *)
Record readings_ok (interval multiplier : Z) (raws : list RawReading) (rs : list EspiReading) (fs : list EspiFinding) : Prop := {
  ro_nonempty : rs <> [];
  ro_count : length rs = length raws;
  ro_content : exists found,
    Forall2 (fun raw x => normalized_reading interval multiplier raw = Ok x) raws found /\ rs ≡ₚ found.*1;
  ro_uniform : Forall (fun r => er_duration_seconds r = interval /\ 0 <= er_energy_wh r) rs;
  ro_disjoint : Forall in_order (pairwise rs);
  ro_gaps : warning "INTERVAL_GAP" "readings" ∈ fs <-> Exists gap_between (pairwise rs);
  ro_flags r f : r ∈ rs -> f ∈ er_quality_flags r ->
    warning f ("readings[" +:+ pretty (er_start_utc_seconds r) +:+ "]") ∈ fs;
  ro_warnings f : f ∈ fs -> ef_severity f = "WARNING"
}.

Lemma normalized_readings_sound blocks interval multiplier rs fs :
  normalized_readings blocks interval multiplier = Ok (rs, fs) ->
  readings_ok interval multiplier (blocks ≫= raw_readings) rs fs.
Proof.
  unfold normalized_readings. intros Hn. apply bind_ok in Hn as (found & Hm & Hn).
  apply bind_ok in Hn as ([] & Hne & Hn). apply bind_ok in Hn as ([] & _ & Hn).
  apply bind_ok in Hn as (fs1 & Hadj & [= <- <-]).
  apply raise_if_ok in Hne. bools. apply check_adjacent_sound in Hadj as [Hord Hiff].
  assert (forall x, x ∈ found -> er_duration_seconds x.1 = interval /\ 0 <= er_energy_wh x.1
            /\ er_quality_flags x.1 ⊆ QUALITY_FLAGS
            /\ x.2 = (fun f => warning f ("readings[" +:+ pretty (er_start_utc_seconds x.1) +:+ "]"))
                       <$> er_quality_flags x.1) as Hfound.
  { intros [r f] Hx. destruct (mapM_elem_r _ _ _ _ Hm Hx) as (raw & _ & Hr).
    by apply normalized_reading_sound in Hr. }
  assert (forall f, f ∈ found.*2 ≫= id -> exists q path, f = warning q path /\ q ∈ QUALITY_FLAGS) as Hown.
  { intros f Hf. apply list_elem_of_bind in Hf as (l & Hl & Hx). unfold id in Hl.
    apply list_elem_of_fmap in Hx as (x & -> & Hx). destruct (Hfound x Hx) as (_ & _ & Hq & Ef).
    rewrite Ef in Hl. apply list_elem_of_fmap in Hl as (q & -> & Hq'). eauto. }
  split.
  - intros E. apply Hne, length_zero_iff_nil. rewrite <-(length_sorted_by reading_key), E. done.
  - rewrite length_sorted_by, length_fmap. apply mapM_ok, Forall2_length in Hm. congruence.
  - exists found. split; [by apply mapM_ok|apply sorted_by_perm].
  - apply Forall_forall. intros r Hr. rewrite elem_of_sorted_by in Hr.
    apply list_elem_of_fmap in Hr as (x & -> & Hx). by destruct (Hfound x Hx) as (? & ? & _).
  - done.
  - rewrite elem_of_sorted_by, elem_of_remove_dups, Hiff. split; [|auto].
    intros [Hf|[_ ?]]; [|done]. exfalso. apply elem_of_app in Hf as [Hf|Hf].
    + apply Hown in Hf as (q & path & [= <- _] & Hq). unfold QUALITY_FLAGS in Hq. set_solver.
    + case_match; set_solver.
  - intros r f Hr Hf. rewrite elem_of_sorted_by in Hr. apply list_elem_of_fmap in Hr as (x & -> & Hx).
    rewrite elem_of_sorted_by, elem_of_remove_dups, Hiff. left. apply elem_of_app. left.
    apply list_elem_of_bind. exists x.2. split; [|by apply list_elem_of_fmap_2].
    destruct (Hfound x Hx) as (_ & _ & _ & Ef). unfold id. rewrite Ef.
    by apply (list_elem_of_fmap_2 (fun f => warning f _)).
  - intros f. rewrite elem_of_sorted_by, elem_of_remove_dups, Hiff.
    intros [[Hf|Hf]%elem_of_app|[-> _]]; [by apply Hown in Hf as (q & path & -> & _)| |done].
    case_match; [set_solver|]. by apply list_elem_of_singleton in Hf as ->.
Qed.
End Readings.

(** ** Admitted documents *)
Lemma split_chunks_concat n fuel l :
  (0 < n)%nat -> (length l <= fuel)%nat -> concat (split_chunks n fuel l) = l.
Proof.
  intros Hn. revert l. induction fuel as [|fuel IH]; intros [|a l] Hl; [done|simpl in Hl; lia|done|].
  cbn [split_chunks concat]. rewrite IH; [apply take_drop|].
  rewrite length_drop. simpl length in Hl |- *. lia.
Qed.
Lemma list_ascii_length s : length (bytes_of s) = String.length s.
Proof. induction s as [|c s IH]; [done|]. simpl. by rewrite <-IH. Qed.
Lemma chunks_bytes s : concat (chunks_of (Bytes s)) = bytes_of s.
Proof. apply split_chunks_concat; [unfold XML_CHUNK_BYTES; lia|by rewrite list_ascii_length]. Qed.
Lemma concat_text_bytes (l : list bytes) :
  concat_text (String.string_of_list_ascii <$> l) = String.string_of_list_ascii (concat l).
Proof.
  induction l as [|c l IH]; [done|]. rewrite fmap_cons.
  change (concat_text (?x :: ?t)) with (x +:+ concat_text t). rewrite IH. clear IH.
  simpl concat. induction c as [|a c IH]; [done|].
  change (String a (String.string_of_list_ascii c +:+ String.string_of_list_ascii (concat l))
    = String a (String.string_of_list_ascii (c ++ concat l))). by rewrite IH.
Qed.

Section Document.
Context {LX : Lxml} {SH : Sha256} {UD : UnicodeDigits}.

Lemma resolve_document_sound entries hash d :
  resolve_document entries hash = Ok d ->
  ed_source_hash d = hash /\ ed_interval_seconds d ∈ [900; 3600]
  /\ ed_timezone_offset_seconds d = -28800 /\ ed_dst_offset_seconds d = 3600
  /\ exists raws multiplier, meter_readings entries (ed_interval_seconds d) multiplier raws
    /\ readings_ok (ed_interval_seconds d) multiplier raws (ed_readings d) (ed_findings d).
Proof.
  unfold resolve_document. intros Hd.
  destruct (filter _ entries) as [|up [|]] eqn:Eu; [done| |done].
  apply bind_ok in Hd as ([] & _ & Hd). apply bind_ok in Hd as (cat & _ & Hd).
  apply bind_ok in Hd as ([] & _ & Hd).
  destruct (related up entries "MeterReading") as [|meter [|]] eqn:Em; [done| |done].
  destruct (related meter entries "ReadingType") as [|rtype [|]] eqn:Et; [done| |done].
  destruct (related meter entries "IntervalBlock") as [|block blocks] eqn:Eb; [done|].
  destruct (related up entries "LocalTimeParameters") as [|local [|]]; [done| |done].
  apply bind_ok in Hd as ([] & _ & Hd). apply bind_ok in Hd as ([] & _ & Hd).
  apply bind_ok in Hd as (interval & Hil & Hd). apply bind_ok in Hd as ([] & Hi & Hd).
  apply bind_ok in Hd as (multiplier & Hmu & Hd). apply bind_ok in Hd as (tz & _ & Hd).
  apply bind_ok in Hd as (dst & _ & Hd). apply bind_ok in Hd as ([] & Ho & Hd).
  apply bind_ok in Hd as ([rs fs] & Hn & [= <-]). simpl. apply raise_if_ok in Hi, Ho. bools.
  split_and!; [done|done|done|done|]. apply normalized_readings_sound in Hn. rewrite <-Eb in Hn.
  eexists _, multiplier. split; [|exact Hn]. by exists up, meter, rtype.
Qed.

Lemma parse_espi_sound p schema d :
  parse_espi p schema = Ok d ->
  let data := concat (chunks_of p) in
  no_declarations data /\ 0 < Z.of_nat (length data) <= MAX_XML_BYTES
  /\ ed_source_hash d = sha256_hex (String.string_of_list_ascii data)
  /\ ed_interval_seconds d ∈ [900; 3600]
  /\ exists sch entries raws multiplier, compile_schema schema = Ok sch
    /\ Forall2 (fun el e => parse_atom_entry sch el = Ok e) (entry_elements (payload_events p)) entries
    /\ meter_readings entries (ed_interval_seconds d) multiplier raws
    /\ readings_ok (ed_interval_seconds d) multiplier raws (ed_readings d) (ed_findings d).
Proof.
  unfold parse_espi. intros Hd. apply bind_ok in Hd as (sch & Hsch & Hd).
  apply bind_ok in Hd as ([entries hash] & Hs & Hd). unfold stream_entries in Hs.
  apply bind_ok in Hs as ([] & _ & Hs). apply bind_ok in Hs as (s & Hc & Hs).
  apply bind_ok in Hs as ([] & Hz & Hs). apply bind_ok in Hs as ([] & _ & Hs).
  apply bind_ok in Hs as ([] & _ & [= <- <-]). apply raise_if_ok in Hz. bools.
  apply chunks_inv in Hc as (_ & Hnd & Hsz & Hmax & Hfed & _ & Hp & _).
  apply resolve_document_sound in Hd as (Hh & Hi & _ & _ & raws & mu & Hm & Hr). simpl.
  split_and!; [done|lia|lia| |done|by exists sch, (ss_entries s).*2, raws, mu].
  by rewrite Hh, Hfed, concat_text_bytes.
Qed.
End Document.

(** C16: what an admitted ESPI document guarantees.  The whole payload, whatever
    its chunking, is within the size limit and holds neither [<!DOCTYPE] nor
    [<!ENTITY] as ASCII bytes in any letter case (a declaration in another
    encoding, such as UTF-16, is not excluded), and the source hash is that of
    the payload.  The readings are those of the payload: the [entry] elements
    the parser reports for its chunks each parse to an entry, the interval
    blocks of the one meter among them hold the raw readings, and the document
    has exactly their normalised readings, one for each, of the reading type's
    duration, which is an admitted one, ordered, disjoint and non-negative, with
    a gap reported exactly when two neighbours do not touch. *)
Theorem espi_document_admitted `{Lxml, Sha256, UnicodeDigits} p schema d :
  parse_espi p schema = Ok d ->
  let data := concat (chunks_of p) in
  no_declarations data /\ 0 < Z.of_nat (length data) <= MAX_XML_BYTES
  /\ ed_source_hash d = sha256_hex (String.string_of_list_ascii data)
  /\ ed_interval_seconds d ∈ [900; 3600]
  /\ exists sch entries raws multiplier, compile_schema schema = Ok sch
    /\ Forall2 (fun el e => parse_atom_entry sch el = Ok e) (entry_elements (payload_events p)) entries
    /\ meter_readings entries (ed_interval_seconds d) multiplier raws
    /\ readings_ok (ed_interval_seconds d) multiplier raws (ed_readings d) (ed_findings d).
Proof. apply parse_espi_sound. Qed.

(** ** A concrete feed *)
Section Example.
Local Existing Instance toy_sha256.
Local Instance no_unicode_digits : UnicodeDigits := fun _ => None.

Definition leaf (name text : string) : node := Element (Some ESPI) name [] (Some text) [].
Definition espi_node (name : string) (c : list node) : node := Element (Some ESPI) name [] None c.
Definition atom_entry (hrefs : list (string * string)) (resource : node) : node :=
  Element (Some ATOM) "entry" [] None
    (((fun l => Element (Some ATOM) "link" [("rel", l.1); ("href", l.2)] None []) <$> hrefs)
     ++ [Element (Some ATOM) "content" [] None [OtherNode; resource]]).
Definition interval_node (start value : string) : node :=
  espi_node "IntervalReading"
    [espi_node "timePeriod" [leaf "duration" "3600"; leaf "start" start]; leaf "value" value;
     espi_node "ReadingQuality" [leaf "quality" "8"]].
Definition example_entries : list node :=
  [atom_entry [("self", "U/1"); ("up", "U"); ("related", "U/1/M"); ("related", "L/1")]
     (espi_node "UsagePoint" [espi_node "ServiceCategory" [leaf "kind" " 0 "]]);
   atom_entry [("self", "U/1/M/1"); ("up", "U/1/M"); ("related", "U/1/M/1/I"); ("related", "R/7")]
     (espi_node "MeterReading" []);
   atom_entry [("self", "R/7"); ("up", "R")]
     (espi_node "ReadingType"
        [leaf "accumulationBehaviour" "4"; leaf "commodity" "1"; leaf "dataQualifier" "12"; leaf "flowDirection" "1";
         leaf "intervalLength" "3600"; leaf "kind" "12"; leaf "powerOfTenMultiplier" "0"; leaf "timeAttribute" "0";
         leaf "uom" "72"]);
   atom_entry [("self", "U/1/M/1/I/1"); ("up", "U/1/M/1/I")]
     (espi_node "IntervalBlock" [interval_node "7200" "500"; interval_node "0" "250"]);
   atom_entry [("self", "L/1"); ("up", "L")]
     (espi_node "LocalTimeParameters" [leaf "dstOffset" "3600"; leaf "tzOffset" "-28800"])].
Definition example_events : list event :=
  StartEvent (Some ATOM) "feed"
  :: (example_entries ≫= fun e => [StartEvent (Some ATOM) "entry"; EndEvent e])
  ++ [EndEvent (Element (Some ATOM) "feed" [] None [])].
(** A parser that reports the example feed for any document of one chunk. *)
Local Instance example_lxml : Lxml :=
  {| feed fed chunk := if decide (fed = []) then Some example_events else None; close fed := true |}.

Lemma espi_document_admitted_witness :
  exists d, parse_espi (Bytes "<feed/>") NoSchema = Ok d
    /\ no_declarations (concat (chunks_of (Bytes "<feed/>")))
    /\ exists entries raws multiplier,
         meter_readings entries (ed_interval_seconds d) multiplier raws
         /\ readings_ok (ed_interval_seconds d) multiplier raws (ed_readings d) (ed_findings d).
Proof.
  destruct (parse_espi (Bytes "<feed/>") NoSchema) as [d|] eqn:E; [|vm_compute in E; discriminate E].
  exists d. split; [reflexivity|].
  pose proof (espi_document_admitted (Bytes "<feed/>") NoSchema d E) as Hd.
  split; [exact (proj1 Hd)|]. destruct (proj2 (proj2 (proj2 (proj2 Hd)))) as (sch & entries & raws & mu & _ & _ & Hm & Hr).
  exists entries, raws, mu. exact (conj Hm Hr).
Defined.
Example example_readings :
  (d ← parse_espi (Bytes "<feed/>") NoSchema;
   Ok ((fun r => (er_start_utc_seconds r, er_energy_wh r)) <$> ed_readings d, ef_code <$> ed_findings d))
  = Ok ([(0, 250); (7200, 500)],
        ["ESTIMATED_USING_REFERENCE_DAY"; "ESTIMATED_USING_REFERENCE_DAY"; "INTERVAL_GAP"; "NON_MONOTONIC_INTERVALS"]).
Proof. vm_compute. reflexivity. Qed.

(** The scan reads bytes: a declaration in a UTF-16 document is not seen. *)
Definition utf16_bytes (s : string) : bytes :=
  bytes_of (chr 255 +:+ chr 254) ++ (bytes_of s ≫= fun c => [c; "000"%char]).
Theorem utf16_declaration_unseen :
  no_declarations (utf16_bytes "<!DOCTYPE a [<!ENTITY b 'c'>]><feed/>").
Proof. split; vm_compute; reflexivity. Qed.
End Example.
