(* ===== verification/PgeCsv.v ===== *)
(** * PgeCsv: the provider's CSV export (ingestion/pge_csv.py)

    The payload is split into lines, decoded, fed to the [csv] module's record
    parser (the default dialect with [strict=True]) and the rows are resolved to
    UTC intervals; a repeated wall clock of the autumn transition is resolved by
    the order of its two occurrences. *)

From Stdlib Require Import Ascii.
From S2P Require Import Prelude Float Json Calendar Energy PyText.

Definition ADAPTER_FINGERPRINT : string := "pge-green-button-csv-v1".
Definition EXPECTED_HEADER : list string :=
  ["TYPE"; "DATE"; "START TIME"; "END TIME"; "USAGE"; "UNITS"; "COST"; "NOTES"].
Definition EXPECTED_PROLOGUE_KEYS : list string := ["Name"; "Address"; "Account Number"; "Service"].
Definition MAX_CSV_BYTES : Z := 20 * 1024 * 1024.
Definition MAX_CSV_ROWS : Z := 100000.
Definition MAX_CSV_LINE_BYTES : Z := 64 * 1024.

Definition csv_error (code : string) : exn := PgeCsvError code.

Record CsvFinding := { cf_code : string; cf_severity : string; cf_field_path : string }.
#[export] Instance CsvFinding_eq_dec : EqDecision CsvFinding.
Proof. solve_decision. Defined.
Record CsvReading := { cr_start_utc_seconds : Z; cr_duration_seconds : Z; cr_energy_wh : Z }.
Record PgeCsvDocument := {
  pd_source_hash : string; pd_adapter_fingerprint : string; pd_timezone : string; pd_interval_seconds : Z;
  pd_readings : list CsvReading; pd_findings : list CsvFinding
}.

(** ** Lines *)

(** [source.readline(n)]. *)
Fixpoint read_line (n : nat) (l : bytes) : bytes * bytes :=
  match n, l with
  | S n', c :: t => if Ascii.eqb c "010"%char then ([c], t) else prod_map (cons c) id (read_line n' t)
  | _, _ => ([], l)
  end.
Fixpoint read_lines (n fuel : nat) (l : bytes) : list bytes :=
  match fuel, l with
  | S fuel', _ :: _ => let '(line, t) := read_line n l in line :: read_lines n fuel' t
  | _, _ => []
  end.
Definition payload_lines (payload : bytes) : list bytes :=
  read_lines (Z.to_nat (MAX_CSV_LINE_BYTES + 1)) (length payload) payload.

Definition BOM : bytes := bytes_of (chr 239 +:+ chr 187 +:+ chr 191).

Definition continuation (n : N) : bool := ((128 <=? n) && (n <=? 191))%N.
(** [data.decode("utf-8")]: [None] for a [UnicodeDecodeError]. *)
Fixpoint utf8_decode (l : list N) : option (list N) :=
  (match l with
   | [] => Some []
   | a :: t =>
       if a <? 128 then cons a <$> utf8_decode t
       else match t with
            | b :: t' =>
                if (194 <=? a) && (a <=? 223) && continuation b
                then cons ((a - 192) * 64 + (b - 128)) <$> utf8_decode t'
                else match t' with
                     | c :: t'' =>
                         if (224 <=? a) && (a <=? 239) && continuation b && continuation c
                            && negb ((a =? 224) && (b <? 160)) && negb ((a =? 237) && (160 <=? b))
                         then cons ((a - 224) * 4096 + (b - 128) * 64 + (c - 128)) <$> utf8_decode t''
                         else match t'' with
                              | d :: t3 =>
                                  if (240 <=? a) && (a <=? 244) && continuation b && continuation c && continuation d
                                     && negb ((a =? 240) && (b <? 144)) && negb ((a =? 244) && (144 <=? b))
                                  then cons ((a - 240) * 262144 + (b - 128) * 4096 + (c - 128) * 64 + (d - 128))
                                         <$> utf8_decode t3
                                  else None
                              | [] => None
                              end
                     | [] => None
                     end
            | [] => None
            end
   end)%N.

Definition decode_error : exn := PyError "UnicodeDecodeError".
Definition csv_module_error : exn := PyError "csv.Error".

(** One step of [_DecodedCsvLines.__iter__]: the bytes counted so far and the
    text of the next line. *)
Definition decode_line (first : bool) (byte_count : Z) (line : bytes) : result (Z * list N) :=
  _ ← raise_if (MAX_CSV_LINE_BYTES <? Z.of_nat (length line)) (csv_error "MALFORMED_CSV");
  let byte_count := byte_count + Z.of_nat (length line) in
  _ ← raise_if (MAX_CSV_BYTES <? byte_count) (csv_error "OVERSIZED_FILE");
  _ ← raise_if (first && negb (is_prefix BOM line)) (csv_error "UNKNOWN_CSV_FINGERPRINT");
  let line := if first then drop 3 line else line in
  match utf8_decode (Ascii.N_of_ascii <$> line) with
  | Some text => Ok (byte_count, text)
  | None => Raise decode_error
  end.

(** ** [csv.reader(lines, strict=True)] *)
Inductive csv_state := START_RECORD | START_FIELD | IN_FIELD | IN_QUOTED_FIELD | QUOTE_IN_QUOTED_FIELD | EAT_CRNL.
#[export] Instance csv_state_eq_dec : EqDecision csv_state.
Proof. solve_decision. Defined.
Record csv_reader := { csv_at : csv_state; csv_field : list N; csv_fields : list string }.
Definition csv_reset : csv_reader := {| csv_at := START_RECORD; csv_field := []; csv_fields := [] |}.
Definition FIELD_LIMIT : Z := 131072.

Definition is_newline (c : N) : bool := ((c =? 10) || (c =? 13))%N.
Definition move (r : csv_reader) (s : csv_state) : csv_reader :=
  {| csv_at := s; csv_field := csv_field r; csv_fields := csv_fields r |}.
Definition save_field (r : csv_reader) (s : csv_state) : csv_reader :=
  {| csv_at := s; csv_field := []; csv_fields := csv_fields r ++ [utf8_encode (csv_field r)] |}.
Definition add_char (r : csv_reader) (c : N) (s : csv_state) : result csv_reader :=
  _ ← raise_if (FIELD_LIMIT <=? Z.of_nat (length (csv_field r))) csv_module_error;
  Ok {| csv_at := s; csv_field := csv_field r ++ [c]; csv_fields := csv_fields r |}.

(** A character, or [None] for the end of a line. *)
Definition start_field (r : csv_reader) (c : option N) : result csv_reader :=
  match c with
  | None => Ok (save_field r START_RECORD)
  | Some c =>
      if is_newline c then Ok (save_field r EAT_CRNL)
      else if (c =? 34)%N then Ok (move r IN_QUOTED_FIELD)
      else if (c =? 44)%N then Ok (save_field r START_FIELD)
      else add_char r c IN_FIELD
  end.
Definition process_char (r : csv_reader) (c : option N) : result csv_reader :=
  match csv_at r with
  | START_RECORD =>
      match c with
      | None => Ok r
      | Some n => if is_newline n then Ok (move r EAT_CRNL) else start_field r c
      end
  | START_FIELD => start_field r c
  | IN_FIELD =>
      match c with
      | None => Ok (save_field r START_RECORD)
      | Some c =>
          if is_newline c then Ok (save_field r EAT_CRNL)
          else if (c =? 44)%N then Ok (save_field r START_FIELD)
          else add_char r c IN_FIELD
      end
  | IN_QUOTED_FIELD =>
      match c with
      | None => Ok r
      | Some c => if (c =? 34)%N then Ok (move r QUOTE_IN_QUOTED_FIELD) else add_char r c IN_QUOTED_FIELD
      end
  | QUOTE_IN_QUOTED_FIELD =>
      match c with
      | None => Ok (save_field r START_RECORD)
      | Some c =>
          if (c =? 34)%N then add_char r c IN_QUOTED_FIELD
          else if (c =? 44)%N then Ok (save_field r START_FIELD)
          else if is_newline c then Ok (save_field r EAT_CRNL)
          else Raise csv_module_error
      end
  | EAT_CRNL =>
      match c with
      | None => Ok (move r START_RECORD)
      | Some c => if is_newline c then Ok r else Raise csv_module_error
      end
  end.

(** The rows the reader yields from the remaining lines, and how it ends. *)
Fixpoint csv_rows (lines : list bytes) (first : bool) (byte_count : Z) (r : csv_reader) :
    list (list string) * result unit :=
  match lines with
  | [] =>
      ([], raise_if (negb (bool_decide (csv_field r = [])) || bool_decide (csv_at r = IN_QUOTED_FIELD))
             csv_module_error)
  | line :: rest =>
      match ('(count, text) ← decode_line first byte_count line;
             r' ← foldM process_char r ((Some <$> text) ++ [None]);
             Ok (count, r')) with
      | Raise e => ([], Raise e)
      | Ok (count, r') =>
          if bool_decide (csv_at r' = START_RECORD)
          then prod_map (cons (csv_fields r')) id (csv_rows rest false count csv_reset)
          else csv_rows rest false count r'
      end
  end.

(** The two handlers shared by both loops over the reader. *)
Definition as_csv_error (e : exn) : exn :=
  if bool_decide (e = decode_error) then csv_error "INVALID_CSV_ENCODING"
  else if bool_decide (e = csv_module_error) then csv_error "MALFORMED_CSV"
  else e.

(** ** Local times *)

(** The UTC offset of a wall-clock time with [fold=0] and [fold=1]. *)
Class ZoneFolds := fold_offset : bool -> Z -> Z.

Section Local.
Context `{ZoneInfo} `{ZoneFolds} `{UnicodeDigits}.

(** The instant [local.replace(tzinfo=PACIFIC, fold=fold)] denotes, if its local
    time is [local] again. *)
Definition fold_candidate (local : Z) (fold : bool) : result (option Z) :=
  utc ← datetime_check (local - fold_offset fold local);
  back ← astimezone utc;
  Ok (if back =? local then Some utc else None).
Definition local_candidates (local : Z) : result (list Z) :=
  a ← fold_candidate local false;
  b ← fold_candidate local true;
  Ok (sorted_set (omap id [a; b])).

Definition days_in_month (y m : Z) : Z :=
  if m =? 2 then if is_leap y then 29 else 28 else if mem m [4; 6; 9; 11] then 30 else 31.

Definition in_range (lo hi n : N) : bool := ((lo <=? n) && (n <=? hi))%N.
Definition ascii_value (n : N) : Z := Z.of_N n - 48.

(** The fields of the format ["%Y-%m-%d %H:%M"], each with the text after it. *)
Definition year_field (l : list N) : option (Z * list N) :=
  match l with
  | a :: b :: c :: d :: t =>
      ds ← all_digits [a; b; c; d]; Some (digits_value ds, t)
  | _ => None
  end.
Definition month_field (l : list N) : option (Z * list N) :=
  match l with
  | a :: b :: t =>
      if (a =? 49)%N && in_range 48 50 b then Some (10 + ascii_value b, t)
      else if (a =? 48)%N && in_range 49 57 b then Some (ascii_value b, t)
      else if in_range 49 57 a then Some (ascii_value a, b :: t) else None
  | [a] => if in_range 49 57 a then Some (ascii_value a, []) else None
  | [] => None
  end.
Definition day_field (l : list N) : option (Z * list N) :=
  match l with
  | a :: b :: t =>
      if (a =? 51)%N && in_range 48 49 b then Some (30 + ascii_value b, t)
      else match (if in_range 49 50 a then digit_of b else None) with
           | Some d => Some (10 * ascii_value a + Z.of_N d, t)
           | None =>
               if (a =? 48)%N && in_range 49 57 b then Some (ascii_value b, t)
               else if in_range 49 57 a then Some (ascii_value a, b :: t)
               else if (a =? 32)%N && in_range 49 57 b then Some (ascii_value b, t) else None
           end
  | _ => None
  end.
Definition hour_field (l : list N) : option (Z * list N) :=
  match l with
  | a :: b :: t =>
      if (a =? 50)%N && in_range 48 51 b then Some (20 + ascii_value b, t)
      else match (if in_range 48 49 a then digit_of b else None) with
           | Some d => Some (10 * ascii_value a + Z.of_N d, t)
           | None => d ← digit_of a; Some (Z.of_N d, b :: t)
           end
  | _ => None
  end.
Definition minute_field (l : list N) : option Z :=
  match l with
  | [a; b] => if in_range 48 53 a then d ← digit_of b; Some (10 * ascii_value a + Z.of_N d) else None
  | [a] => Z.of_N <$> digit_of a
  | _ => None
  end.
Definition literal (c : N) (l : list N) : option (list N) :=
  match l with a :: t => if (a =? c)%N then Some t else None | [] => None end.
Definition some_spaces (l : list N) : option (list N) :=
  match l with a :: t => if is_whitespace a then Some (drop_spaces t) else None | [] => None end.

(** [datetime.strptime(text, "%Y-%m-%d %H:%M")], in microseconds of wall time. *)
Definition strptime (l : list N) : option Z :=
  '(year, l) ← year_field l; l ← literal 45 l;
  '(month, l) ← month_field l; l ← literal 45 l;
  '(day, l) ← day_field l; l ← some_spaces l;
  '(hour, l) ← hour_field l; l ← literal 58 l;
  minute ← minute_field l;
  if (1 <=? year) && (day <=? days_in_month year month)
  then Some ((date_of_ymd year month day * 86400 + hour * 3600 + minute * 60) * US_PER_SECOND)
  else None.

Definition parse_local (date_text time_text : string) : result Z :=
  match strptime (points date_text ++ 32%N :: points time_text) with
  | Some w => Ok w
  | None => Raise (csv_error "INVALID_LOCAL_TIMESTAMP")
  end.

(** ** Rows *)
Definition as_pge_error {A} (r : result A) : result A :=
  match r with Raise (EnergyAdmissionError code) => Raise (csv_error code) | _ => r end.

Record RowState := {
  rs_count : Z; rs_readings : list CsvReading; rs_ambiguous : dict Z Z; rs_interval : option Z
}.
Definition start_rows : RowState := {| rs_count := 0; rs_readings := []; rs_ambiguous := []; rs_interval := None |}.

Definition row_duration (local_start local_end_label : Z) : result Z :=
  local_end_label ← (if local_end_label <? local_start then datetime_check (local_end_label + US_PER_DAY)
                     else Ok local_end_label);
  nominal_end ← datetime_check (local_end_label + 60 * US_PER_SECOND);
  Ok (Z.quot (nominal_end - local_start) US_PER_SECOND).

(** The instant of a row's wall clock, and the updated occurrence counter. *)
Definition resolve_start (ambiguous : dict Z Z) (local_start : Z) : result (Z * dict Z Z) :=
  candidates ← local_candidates local_start;
  let occurrence := default 0 (dict_get local_start ambiguous) in
  match candidates with
  | [] => Raise (csv_error "NONEXISTENT_LOCAL_TIMESTAMP")
  | [first; second] =>
      _ ← raise_if (2 <=? occurrence) (csv_error "AMBIGUOUS_LOCAL_TIMESTAMP");
      Ok (if occurrence =? 0 then first else second, dict_set local_start (occurrence + 1) ambiguous)
  | first :: _ => Ok (first, ambiguous)
  end.

Definition read_row (s : RowState) (row : list string) : result RowState :=
  let count := rs_count s + 1 in
  _ ← raise_if (MAX_CSV_ROWS <? count) (csv_error "TOO_MANY_ROWS");
  match row with
  | [usage_type; date_text; start_text; end_text; usage; unit; _; _] =>
      _ ← raise_if (negb (String.eqb usage_type "Electric usage")) (csv_error "UNSUPPORTED_READING_SEMANTICS");
      _ ← raise_if (negb (String.eqb unit "kWh")) (csv_error "UNKNOWN_ENERGY_UNIT");
      local_start ← parse_local date_text start_text;
      local_end_label ← parse_local date_text end_text;
      duration ← row_duration local_start local_end_label;
      _ ← raise_if (negb (mem duration [900; 3600])) (csv_error "UNSUPPORTED_INTERVAL_DURATION");
      _ ← raise_if (negb (default duration (rs_interval s) =? duration)) (csv_error "MIXED_INTERVAL_DURATIONS");
      '(start_utc, ambiguous) ← resolve_start (rs_ambiguous s) local_start;
      energy ← as_pge_error (exact_watt_hours (decimal_text usage) "kWh" 0);
      Ok {| rs_count := count;
            rs_readings := rs_readings s ++ [{| cr_start_utc_seconds := Z.quot start_utc US_PER_SECOND;
                                                cr_duration_seconds := duration; cr_energy_wh := energy |}];
            rs_ambiguous := ambiguous; rs_interval := Some (default duration (rs_interval s)) |}
  | _ => Raise (csv_error "MALFORMED_CSV")
  end.

(** ** The document *)
Definition check_prologue (pair : list string * string) : result unit :=
  let '(row, expected_key) := pair in
  raise_if (match row with
            | [key; value] => negb (String.eqb key expected_key) || String.eqb (py_strip value) ""
            | _ => true
            end) (csv_error "UNKNOWN_CSV_FINGERPRINT").

Definition reading_key (r : CsvReading) : Z * Z := (cr_start_utc_seconds r, cr_duration_seconds r).
Definition reading_end (r : CsvReading) : Z := cr_start_utc_seconds r + cr_duration_seconds r.
Definition gap_finding (r : CsvReading) : CsvFinding :=
  {| cf_code := "INTERVAL_GAP"; cf_severity := "WARNING";
     cf_field_path := "readings[" +:+ pretty (cr_start_utc_seconds r) +:+ "]" |}.
Definition check_adjacent (findings : list CsvFinding) (pair : CsvReading * CsvReading) : result (list CsvFinding) :=
  let '(prior, current) := pair in
  _ ← raise_if (cr_start_utc_seconds current <? reading_end prior) (csv_error "OVERLAPPING_INTERVALS");
  Ok (if reading_end prior <? cr_start_utc_seconds current then findings ++ [gap_finding current] else findings).

Definition locked_rows (rows : list (list string)) (ending : result unit) (empty : bool) : result (list (list string)) :=
  if (6 <=? length rows)%nat then Ok (take 6 rows)
  else match ending with
       | Raise e => Raise (as_csv_error e)
       | Ok _ => Raise (csv_error (if empty then "EMPTY_FILE" else "UNKNOWN_CSV_FINGERPRINT"))
       end.

Definition finish_document `{Sha256} (payload : bytes) (s : RowState) : result PgeCsvDocument :=
  match rs_interval s with
  | None => Raise (csv_error "EMPTY_FILE")
  | Some interval =>
      let readings := rs_readings s in
      _ ← raise_if (bool_decide (readings = [])) (csv_error "EMPTY_FILE");
      _ ← raise_if (existsb (fun kv => negb (kv.2 =? 2)) (rs_ambiguous s)) (csv_error "AMBIGUOUS_LOCAL_TIMESTAMP");
      let keys := reading_key <$> readings in
      _ ← raise_if (negb (bool_decide (keys = py_sorted keys))) (csv_error "NON_MONOTONIC_INTERVALS");
      _ ← raise_if (has_dups keys) (csv_error "DUPLICATE_INTERVALS");
      findings ← foldM check_adjacent [] (pairwise readings);
      Ok {| pd_source_hash := sha256_hex (String.string_of_list_ascii payload);
            pd_adapter_fingerprint := ADAPTER_FINGERPRINT; pd_timezone := "America/Los_Angeles";
            pd_interval_seconds := interval; pd_readings := readings;
            pd_findings := sorted_by cf_field_path (remove_dups findings) |}
  end.

Definition parse_pge_csv `{Sha256} (payload : bytes) : result PgeCsvDocument :=
  let lines := payload_lines payload in
  let '(rows, ending) := csv_rows lines true 0 csv_reset in
  locked ← locked_rows rows ending (bool_decide (lines = []));
  _ ← forM_ check_prologue (zip locked EXPECTED_PROLOGUE_KEYS);
  _ ← raise_if (negb (bool_decide (locked !! 4%nat = Some [] /\ locked !! 5%nat = Some EXPECTED_HEADER)))
        (csv_error "UNKNOWN_CSV_FINGERPRINT");
  s ← foldM read_row start_rows (drop 6 rows);
  _ ← match ending with Ok _ => Ok tt | Raise e => Raise (as_csv_error e) end;
  finish_document payload s.
End Local.
