(* ===== verification/PgeCsvProofs.v ===== *)
(** * PgeCsvProofs: what an admitted CSV export guarantees

    Every admitted row is resolved to an instant whose local time is the row's
    wall clock, the readings are uniform, ordered and disjoint with every gap
    reported, and the wall clocks of a run of intervals, repeated hour included,
    resolve back to the instants they came from. *)

From Stdlib Require Import Ascii.
From stdpp Require sorting.
From S2P Require Import Prelude Float Json Calendar Energy PyText EspiProofs PgeCsv.

(** Every instant with a given local time is the one or the other reading of it
    ([fold=0] and [fold=1] of PEP 495), and offsets are whole seconds. *)
Class ZoneFoldLaws `{ZoneInfo} `{ZoneFolds} : Prop := {
  fold_complete t : exists f, t = t + utcoffset t - fold_offset f (t + utcoffset t);
  offset_seconds t : utcoffset t mod US_PER_SECOND = 0
}.

Section Resolution.
Context {ZI : ZoneInfo} {ZF : ZoneFolds} {UD : UnicodeDigits}.

Definition wall (t : Z) : Z := t + utcoffset t.
Definition in_calendar (t : Z) : Prop := instant_min <= t <= instant_max.

Lemma datetime_check_in t : in_calendar t -> datetime_check t = Ok t.
Proof. unfold in_calendar, datetime_check. intros Ht. case_match eqn:E; [|done]. bools; lia. Qed.

Lemma fold_candidate_sound w f t : fold_candidate w f = Ok (Some t) -> wall t = w /\ in_calendar t.
Proof.
  unfold fold_candidate, astimezone. intros Hc. apply bind_ok in Hc as (u & Hu & Hc).
  apply bind_ok in Hc as (b & Hb & [= Hc]). apply datetime_check_ok in Hu as [-> Hu], Hb as [-> Hb].
  destruct (Z.eqb_spec (w - fold_offset f w + utcoffset (w - fold_offset f w)) w) as [E|]; [|done].
  injection Hc as <-. done.
Qed.
Lemma local_candidates_sound w l t : local_candidates w = Ok l -> t ∈ l -> wall t = w /\ in_calendar t.
Proof.
  unfold local_candidates. intros Hl Ht. apply bind_ok in Hl as (a & Ha & Hl).
  apply bind_ok in Hl as (b & Hb & <-%ok_inj). rewrite elem_of_sorted_set in Ht.
  apply list_elem_of_omap in Ht as (x & Hx & E). unfold id in E. subst x.
  apply elem_of_cons in Hx as [<-|Hx%list_elem_of_singleton].
  - by eapply fold_candidate_sound.
  - subst b. by eapply fold_candidate_sound.
Qed.

Lemma resolve_start_sound ambiguous w t ambiguous' :
  resolve_start ambiguous w = Ok (t, ambiguous') -> wall t = w /\ in_calendar t.
Proof.
  unfold resolve_start. intros Hr. apply bind_ok in Hr as (l & Hl & Hr).
  assert (t ∈ l) as Ht; [|by eapply local_candidates_sound].
  destruct l as [|a [|b [|]]]; [done|by injection Hr as <- _; left| |by injection Hr as <- _; left].
  apply bind_ok in Hr as ([] & _ & [= <- _]). case_match; [left|right; left].
Qed.

(** ** Completeness and the repeated hour *)
Context {LAWS : ZoneFoldLaws}.

(** Both readings of a wall clock stay in the calendar. *)
Definition readable (w : Z) : Prop :=
  forall f, in_calendar (w - fold_offset f w) /\ in_calendar (wall (w - fold_offset f w)).

Lemma fold_candidate_complete w f :
  readable w ->
  fold_candidate w f
  = Ok (if wall (w - fold_offset f w) =? w then Some (w - fold_offset f w) else None).
Proof.
  intros Hr. destruct (Hr f) as [H1 H2]. unfold fold_candidate, astimezone.
  rewrite (datetime_check_in _ H1). cbn [mbind result_bind]. by rewrite (datetime_check_in _ H2 : datetime_check (_ + _) = _).
Qed.

Lemma leb_Z (a b : Z) : py_leb a b = true -> a <= b.
Proof. unfold py_leb, py_cmp, PyOrd_Z. destruct (Z.compare_spec a b); [lia..|done]. Qed.
Lemma length_remove_dups (l : list Z) : (length (remove_dups l) <= length l)%nat.
Proof. induction l as [|x l IH]; simpl; [lia|]. case_decide; simpl; lia. Qed.

(** The candidates of a wall clock are exactly the instants that show it. *)
Lemma local_candidates_spec w :
  readable w -> exists l, local_candidates w = Ok l /\ NoDup l /\ StronglySorted Z.le l /\ (length l <= 2)%nat
    /\ forall t, t ∈ l <-> wall t = w.
Proof.
  intros Hr. unfold local_candidates. rewrite !fold_candidate_complete by done. cbn [mbind result_bind].
  eexists. split; [reflexivity|]. set (l := omap id _). split; [apply sorted_set_NoDup|]. split_and!.
  - unfold sorted_set, py_sorted.
    induction (sorted_by_sorted (fun x : Z => x) (remove_dups l)) as [|a t Ht IH Hf]; constructor; [done|].
    eapply Forall_impl; [exact Hf|]. intros b. apply leb_Z.
  - unfold sorted_set, py_sorted. rewrite length_sorted_by.
    assert (length l <= 2)%nat as Hl by (unfold l; repeat case_match; simpl; lia).
    pose proof (length_remove_dups l). lia.
  - intros t. rewrite elem_of_sorted_set. unfold l. rewrite list_elem_of_omap. split.
    + intros (x & Hx & E). unfold id in E. subst x. apply elem_of_cons in Hx as [E|E%list_elem_of_singleton];
        (case_match eqn:E'; [injection E as ->; by apply Z.eqb_eq in E'|done]).
    + intros <-. destruct (fold_complete t) as [f E]. fold (wall t) in E. exists (Some t). split; [|done].
      destruct f; [apply list_elem_of_further|]; apply elem_of_cons; left; rewrite <-E;
        by rewrite Z.eqb_refl.
Qed.

(** Resolving a sequence of wall clocks. *)
Definition resolve_clock (s : list Z * dict Z Z) (w : Z) : result (list Z * dict Z Z) :=
  '(t, ambiguous) ← resolve_start s.2 w; Ok (s.1 ++ [t], ambiguous).

(** A run that contains both or neither of two instants with the same clock. *)
Definition paired (l : list Z) : Prop := forall t u, t ∈ l -> wall u = wall t -> u ∈ l.

Definition occurrences (done : list Z) (w : Z) : Z := Z.of_nat (length (filter (fun t => wall t = w) done)).
Definition counts_ok (done : list Z) (ambiguous : dict Z Z) : Prop :=
  NoDup ambiguous.*1
  /\ (forall w, w ∈ ambiguous.*1 -> exists t u, t ∈ done /\ t <> u /\ wall t = w /\ wall u = w)
  /\ forall t u, t <> u -> wall t = wall u ->
       default 0 (dict_get (wall t) ambiguous) = occurrences done (wall t).

Lemma occurrences_snoc done t w :
  occurrences (done ++ [t]) w = occurrences done w + (if decide (wall t = w) then 1 else 0).
Proof.
  unfold occurrences. rewrite filter_app, length_app, filter_cons, filter_nil. case_decide; simpl; lia.
Qed.

Lemma at_most_two t u v :
  readable (wall t) -> t <> u -> wall u = wall t -> wall v = wall t -> v = t \/ v = u.
Proof.
  intros Hr Hne Hu Hv. destruct (local_candidates_spec _ Hr) as (l & _ & Hnd & _ & Hlen & Hl).
  destruct (decide (v = t)); [auto|]. destruct (decide (v = u)); [auto|]. exfalso.
  assert ([t; u; v] ⊆+ l) as Hsub%submseteq_length; [|simpl in Hsub; lia].
  apply NoDup_submseteq; [repeat constructor; set_solver|]. intros x Hx. apply Hl. set_solver.
Qed.

Lemma sorted_lt_before (done todo : list Z) t u :
  StronglySorted Z.lt (done ++ t :: todo) -> u ∈ done ++ t :: todo -> u <> t -> (u ∈ done <-> u < t).
Proof.
  intros Hs Hu Hne. apply sorting.StronglySorted_app in Hs as (Hlt & _ & Hs).
  apply StronglySorted_inv in Hs as [_ Ht]. rewrite Forall_forall in Ht.
  split; [intros Hd; by apply Hlt; [|left]|]. intros Hlt'.
  apply elem_of_app in Hu as [?|[?|Hu]%elem_of_cons]; [done..|]. apply Ht in Hu. lia.
Qed.
Lemma sorted_lt_NoDup (l : list Z) : StronglySorted Z.lt l -> NoDup l.
Proof.
  induction 1 as [|x l _ IH Hx]; constructor; [|done]. rewrite Forall_forall in Hx. intros Hin%Hx. lia.
Qed.

(** The instants seen so far that show the clock of the next one. *)
Lemma occurrences_next done t todo u :
  StronglySorted Z.lt (done ++ t :: todo) -> paired (done ++ t :: todo) -> readable (wall t) ->
  u <> t -> wall u = wall t ->
  occurrences done (wall t) = (if u <? t then 1 else 0).
Proof.
  intros Hs Hp Hr Hne Hu.
  assert (u ∈ done ++ t :: todo) as Hin by (eapply Hp; [|exact Hu]; set_solver).
  pose proof (sorted_lt_before _ _ _ _ Hs Hin Hne) as Hbefore.
  pose proof (sorted_lt_NoDup _ Hs) as Hnd. apply NoDup_app in Hnd as (Hnd & Hdisj & _).
  assert (forall x, x ∈ filter (fun x => wall x = wall t) done -> x = u) as Hall.
  { intros x [Hx Hd]%list_elem_of_filter. destruct (at_most_two t u x Hr) as [->| ->]; [done..| |done].
    exfalso. apply (Hdisj t Hd). left. }
  unfold occurrences. destruct (Z.ltb_spec u t) as [Hlt|Hge].
  - assert (filter (fun x => wall x = wall t) done ≡ₚ [u]) as ->; [|done].
    apply list.NoDup_Permutation; [by apply NoDup_filter|apply NoDup_singleton|]. intros x.
    rewrite list_elem_of_singleton. split; [apply Hall|]. intros ->. apply list_elem_of_filter. tauto.
  - destruct (filter _ done) as [|x k] eqn:E; [done|]. exfalso.
    assert (x = u) as -> by (apply Hall; left).
    assert (u ∈ filter (fun x => wall x = wall t) done) as [_ Hd]%list_elem_of_filter by (rewrite E; left).
    apply Hbefore in Hd. lia.
Qed.

Lemma counts_set done t u ambiguous :
  counts_ok done ambiguous -> t <> u -> wall u = wall t ->
  counts_ok (done ++ [t]) (dict_set (wall t) (occurrences done (wall t) + 1) ambiguous).
Proof.
  intros (Hnd & Hkeys & Hcount) Hne Hu. split; [by apply dict_set_NoDup|]. split.
  - intros w Hw. destruct (decide (w = wall t)) as [->|Hwne]; [exists t, u; set_solver|].
    assert (w ∈ ambiguous.*1) as (t' & u' & ? & ?)%Hkeys; [|exists t', u'; set_solver].
    destruct (decide (wall t ∈ ambiguous.*1)); [by rewrite dict_set_keys_in in Hw|].
    rewrite dict_set_keys_new in Hw by done. set_solver.
  - intros t' u' Hne' Hw'. rewrite occurrences_snoc. case_decide as Hd.
    + rewrite <-Hd, dict_get_set_eq. done.
    + rewrite dict_get_set_ne by done. rewrite (Hcount t' u') by done. lia.
Qed.

Lemma resolve_next done t todo ambiguous :
  StronglySorted Z.lt (done ++ t :: todo) -> paired (done ++ t :: todo) -> readable (wall t) ->
  counts_ok done ambiguous ->
  exists ambiguous', resolve_start ambiguous (wall t) = Ok (t, ambiguous') /\ counts_ok (done ++ [t]) ambiguous'.
Proof.
  intros Hs Hp Hr Hc. destruct (local_candidates_spec _ Hr) as (l & El & Hnd & Hsort & Hlen & Hl).
  assert (t ∈ l) as Ht by (by apply Hl).
  unfold resolve_start. rewrite El. cbn [mbind result_bind].
  destruct l as [|a [|b [|]]]; [by apply elem_of_nil in Ht| | |simpl in Hlen; lia].
  - apply list_elem_of_singleton in Ht as ->. exists ambiguous. split; [done|].
    destruct Hc as (Hn & Hkeys & Hcount). split; [done|]. split.
    + intros w (t' & u' & ? & ?)%Hkeys. exists t', u'. set_solver.
    + intros t' u' Hne Hw. rewrite (Hcount t' u'), occurrences_snoc by done. case_decide as Hd; [|lia].
      exfalso. apply Hne. transitivity a; [|symmetry]; apply list_elem_of_singleton, Hl; congruence.
  - assert (a < b) as Hab.
    { apply StronglySorted_inv in Hsort as [_ Hsort]. apply Forall_cons in Hsort as [Hsort _].
      apply NoDup_cons in Hnd as [Hnd _]. assert (a <> b) by set_solver. lia. }
    assert (wall a = wall t /\ wall b = wall t) as [Ha Hb] by (split; apply Hl; set_solver).
    pose proof (proj2 (proj2 Hc)) as Hcount.
    apply elem_of_cons in Ht as [->|Ht%list_elem_of_singleton]; [|subst t].
    + rewrite (Hcount a b) by (congruence || lia).
      pose proof (occurrences_next _ _ _ b Hs Hp Hr ltac:(lia) Hb) as Ho.
      destruct (Z.ltb_spec b a); [lia|]. pose proof (counts_set done a b ambiguous Hc ltac:(lia) Hb) as Hset. rewrite Ho in Hset |- *.
      eexists. by split.
    + rewrite (Hcount b a) by (congruence || lia).
      pose proof (occurrences_next _ _ _ a Hs Hp Hr ltac:(lia) Ha) as Ho.
      destruct (Z.ltb_spec a b); [|lia]. pose proof (counts_set done b a ambiguous Hc ltac:(lia) Ha) as Hset. rewrite Ho in Hset |- *.
      eexists. by split.
Qed.

Lemma resolve_run l :
  StronglySorted Z.lt l -> paired l -> (forall t, t ∈ l -> readable (wall t)) ->
  exists ambiguous, foldM resolve_clock ([], []) (wall <$> l) = Ok (l, ambiguous) /\ counts_ok l ambiguous.
Proof.
  intros Hs Hp Hr.
  cut (forall todo done ambiguous, l = done ++ todo -> counts_ok done ambiguous ->
    exists ambiguous', foldM resolve_clock (done, ambiguous) (wall <$> todo) = Ok (l, ambiguous') /\ counts_ok l ambiguous').
  { intros H. apply (H l [] []); [done|]. split; [constructor|]. split; [intros w Hw; by apply elem_of_nil in Hw|done]. }
  induction todo as [|t todo IH]; intros done ambiguous El Hc.
  - rewrite app_nil_r in El. subst done. by exists ambiguous.
  - rewrite El in Hs, Hp. destruct (resolve_next _ _ _ _ Hs Hp (Hr t ltac:(set_solver)) Hc) as (amb' & E & Hc').
    assert (resolve_clock (done, ambiguous) (wall t) = Ok (done ++ [t], amb')) as E'.
    { unfold resolve_clock. cbn [snd fst]. by rewrite E. }
    rewrite fmap_cons. cbn [foldM]. rewrite E'. cbn [mbind result_bind].
    apply IH; [|done]. by rewrite El, <-app_assoc.
Qed.

Lemma counts_settled l ambiguous :
  StronglySorted Z.lt l -> paired l -> (forall t, t ∈ l -> readable (wall t)) -> counts_ok l ambiguous ->
  existsb (fun kv => negb (kv.2 =? 2)) ambiguous = false.
Proof.
  intros Hs Hp Hr (Hnd & Hkeys & Hcount). apply not_true_is_false. intros ([w n] & Hin & Hn)%existsb_exists.
  apply list_elem_of_In in Hin. simpl in Hn.
  destruct (Hkeys w) as (t & u & Ht & Hne & Hwt & Hwu); [by apply (list_elem_of_fmap_2 fst) in Hin|].
  assert (n = occurrences l w) as Hocc.
  { apply (dict_elem_get _ _ _ Hnd) in Hin. specialize (Hcount t u Hne). rewrite Hwt, Hwu, Hin in Hcount. by apply Hcount. }
  assert (filter (fun x => wall x = w) l ≡ₚ [t; u]) as Hperm.
  { apply list.NoDup_Permutation; [by apply NoDup_filter, sorted_lt_NoDup|repeat constructor; set_solver|].
    intros x. rewrite list_elem_of_filter. split.
    - intros [Hx Hl]. destruct (at_most_two t u x) as [->| ->]; [by apply Hr|done|congruence..|set_solver|set_solver].
    - intros Hx. assert (x = t \/ x = u) as [->| ->] by set_solver; split; try done.
      apply (Hp t); [done|congruence]. }
  unfold occurrences in Hocc. rewrite Hperm in Hocc. subst n. done.
Qed.
End Resolution.

(** Wall clocks resolve back to the instants they came from: for a run of
    instants in increasing order that contains both or neither of two instants
    with the same local time (PEP 495 folds), resolving the local times of the
    run in order, as the rows of an export, gives exactly the run, the first
    occurrence of a repeated clock to the earlier instant and the second to the
    later one, and leaves no unmatched clock. *)
Theorem wall_clock_round_trip `{ZoneFoldLaws} l :
  StronglySorted Z.lt l -> paired l -> (forall t, t ∈ l -> readable (wall t)) ->
  exists ambiguous, foldM resolve_clock ([], []) (wall <$> l) = Ok (l, ambiguous)
    /\ existsb (fun kv => negb (kv.2 =? 2)) ambiguous = false.
Proof.
  intros Hs Hp Hr. destruct (resolve_run l Hs Hp Hr) as (ambiguous & E & Hc).
  exists ambiguous. split; [done|]. by eapply counts_settled.
Qed.

(** ** The 2026 transitions *)
#[export] Instance pacific_folds : ZoneFolds := fun fold w =>
  let before := if fold then - hours_us 7 else - hours_us 8 in
  let after := if fold then - hours_us 8 else - hours_us 7 in
  if (dst_start_utc - hours_us 8 <=? w) && (w <? dst_start_utc - hours_us 7) then before
  else if (dst_end_utc - hours_us 8 <=? w) && (w <? dst_end_utc - hours_us 7) then after
  else if (dst_start_utc - hours_us 7 <=? w) && (w <? dst_end_utc - hours_us 8) then - hours_us 7
  else - hours_us 8.
#[export] Instance pacific_fold_laws : ZoneFoldLaws.
Proof.
  split.
  - intros t. unfold fold_offset, pacific_folds, utcoffset, pacific_2026, hours_us, dst_start_utc, dst_end_utc, US_PER_SECOND.
    destruct (Z.leb_spec (1772964000 * 1000000) t), (Z.ltb_spec t (1793523600 * 1000000)); simpl.
    all: repeat match goal with |- context [?a <=? ?b] => destruct (Z.leb_spec a b) end.
    all: repeat match goal with |- context [?a <? ?b] => destruct (Z.ltb_spec a b) end.
    all: simpl; try lia; first [exists false; simpl; lia | exists true; simpl; lia].
  - intros t. unfold utcoffset, pacific_2026. case_match; reflexivity.
Qed.

(** Hours around the end of daylight saving time. *)
Definition november_run : list Z := (fun h => dst_end_utc + h * 3600 * US_PER_SECOND) <$> [-2; -1; 0; 1].
Lemma wall_clock_round_trip_witness :
  exists ambiguous, foldM resolve_clock ([], []) (wall <$> november_run) = Ok (november_run, ambiguous)
    /\ existsb (fun kv => negb (kv.2 =? 2)) ambiguous = false.
Proof.
  apply (wall_clock_round_trip november_run).
  - repeat constructor.
  - intros t u Ht Hu. destruct (fold_complete u) as [f E]. fold (wall u) in E. rewrite Hu in E. rewrite E. clear E Hu u.
    unfold november_run in Ht.
    repeat (apply elem_of_cons in Ht as [->|Ht];
      [destruct f; apply (bool_decide_unpack _); vm_compute; exact I|]).
    by apply elem_of_nil in Ht.
  - intros t Ht f. unfold november_run in Ht.
    repeat (apply elem_of_cons in Ht as [->|Ht]; [destruct f; vm_compute; split; split; discriminate|]).
    by apply elem_of_nil in Ht.
Defined.

(** ** Admitted documents *)
Section Document.
Context {ZI : ZoneInfo} {ZF : ZoneFolds} {UD : UnicodeDigits} {SH : Sha256}.

(** A reading is the row it came from: its start shows the row's wall clock and
    its energy is the row's usage in kilowatt-hours. *)
Definition row_reading (row : list string) (r : CsvReading) : Prop :=
  match row with
  | [_; date_text; start_text; _; usage; _; _; _] =>
      exists t, parse_local date_text start_text = Ok (wall t)
        /\ cr_start_utc_seconds r = Z.quot t US_PER_SECOND
        /\ exact_watt_hours (decimal_text usage) "kWh" 0 = Ok (cr_energy_wh r)
  | _ => False
  end.

Definition rows_ok (done : list (list string)) (s : RowState) : Prop :=
  rs_count s = Z.of_nat (length done) /\ rs_count s <= MAX_CSV_ROWS
  /\ Forall2 row_reading done (rs_readings s)
  /\ (forall r, r ∈ rs_readings s -> rs_interval s = Some (cr_duration_seconds r))
  /\ (forall d, rs_interval s = Some d -> d ∈ [900; 3600]).

Lemma as_pge_error_ok {A} (r : result A) a : as_pge_error r = Ok a -> r = Ok a.
Proof. destruct r as [|[]]; simpl; congruence. Qed.

Lemma read_row_ok done s row s' : rows_ok done s -> read_row s row = Ok s' -> rows_ok (done ++ [row]) s'.
Proof.
  intros (Hc & Hmax & Hrows & Hint & Hadm) Hr. unfold read_row in Hr.
  apply bind_ok in Hr as ([] & Hmax' & Hr).
  destruct row as [|ty [|dt [|st [|et [|us [|un [|co [|no [|]]]]]]]]]; try done.
  apply bind_ok in Hr as ([] & _ & Hr). apply bind_ok in Hr as ([] & _ & Hr).
  apply bind_ok in Hr as (w & Hw & Hr). apply bind_ok in Hr as (we & _ & Hr).
  apply bind_ok in Hr as (d & _ & Hr). apply bind_ok in Hr as ([] & Hd & Hr).
  apply bind_ok in Hr as ([] & Hi & Hr). apply bind_ok in Hr as ([t amb] & Ht & Hr).
  apply bind_ok in Hr as (energy & He & Hr). apply ok_inj in Hr as <-.
  apply raise_if_ok in Hmax', Hd, Hi. apply Z.ltb_ge in Hmax'. apply negb_false_iff in Hd, Hi.
  apply mem_true in Hd. apply Z.eqb_eq in Hi. apply as_pge_error_ok in He.
  apply resolve_start_sound in Ht as [Ht _].
  unfold rows_ok. cbn [rs_count rs_readings rs_interval]. rewrite Hi. split_and!.
  - rewrite length_app, Hc. simpl. lia.
  - done.
  - apply Forall2_app; [done|]. constructor; [|constructor]. exists t. by rewrite Ht.
  - intros r [Hin|Hin%list_elem_of_singleton]%elem_of_app; [|by subst r].
    apply Hint in Hin. rewrite Hin in Hi. simpl in Hi. congruence.
  - by intros ? [= <-].
Qed.

Definition gap_before (p : CsvReading * CsvReading) : Prop := reading_end p.1 < cr_start_utc_seconds p.2.
Lemma check_adjacent_csv ps fs0 fs :
  foldM check_adjacent fs0 ps = Ok fs ->
  Forall (fun p => reading_end p.1 <= cr_start_utc_seconds p.2) ps
  /\ forall f, f ∈ fs <-> f ∈ fs0 \/ exists p, p ∈ ps /\ gap_before p /\ f = gap_finding p.2.
Proof.
  revert fs0. induction ps as [|[a b] ps IH]; intros fs0 Hf; simpl in Hf.
  - injection Hf as <-. split; [constructor|]. intros f. split; [auto|]. intros [?|(p & Hp & _)]; [done|].
    by apply elem_of_nil in Hp.
  - apply bind_ok in Hf as (fs1 & H1 & Hf). apply bind_ok in H1 as ([] & Ho & [= <-]).
    apply raise_if_ok, Z.ltb_ge in Ho. destruct (IH _ Hf) as [Hps Hiff].
    split; [constructor; done|]. intros f. rewrite Hiff. clear IH Hf Hiff.
    destruct (Z.ltb_spec (reading_end a) (cr_start_utc_seconds b)) as [Hg|Hg].
    + rewrite elem_of_app, list_elem_of_singleton. split.
      * intros [[?| ->]|(p & Hp & ?)]; [auto| |right; exists p; split; [by right|done]].
        right. exists (a, b). split; [left|done].
      * intros [?|(p & [->|Hp]%elem_of_cons & Hgap & ->)]; [auto| |]; [left; by right|].
        right. by exists p.
    + split.
      * intros [?|(p & Hp & ?)]; [auto|]. right. exists p. split; [by right|done].
      * intros [?|(p & [->|Hp]%elem_of_cons & Hgap & ->)]; [auto|unfold gap_before in Hgap; simpl in Hgap; lia|].
        right. by exists p.
Qed.
End Document.

Section WholeExport.
Context {ZI : ZoneInfo} {ZF : ZoneFolds} {UD : UnicodeDigits} {SH : Sha256}.

(** What an admitted export guarantees. *)
Record csv_document_ok (payload : bytes) (d : PgeCsvDocument) : Prop := {
  co_rows : exists rows, (csv_rows (payload_lines payload) true 0 csv_reset).1 = take 6 (csv_rows (payload_lines payload) true 0 csv_reset).1 ++ rows
      /\ Forall2 row_reading rows (pd_readings d) /\ Z.of_nat (length rows) <= MAX_CSV_ROWS;
  co_nonempty : pd_readings d <> [];
  co_interval : pd_interval_seconds d ∈ [900; 3600];
  co_uniform r : r ∈ pd_readings d -> cr_duration_seconds r = pd_interval_seconds d /\ 0 <= cr_energy_wh r;
  co_disjoint : Forall (fun p => reading_end p.1 <= cr_start_utc_seconds p.2) (pairwise (pd_readings d));
  co_gaps f : f ∈ pd_findings d <-> exists p, p ∈ pairwise (pd_readings d) /\ gap_before p /\ f = gap_finding p.2;
  co_identity : pd_adapter_fingerprint d = ADAPTER_FINGERPRINT /\ pd_timezone d = "America/Los_Angeles"
    /\ pd_source_hash d = sha256_hex (String.string_of_list_ascii payload)
}.

Lemma parse_pge_csv_sound payload d : parse_pge_csv payload = Ok d -> csv_document_ok payload d.
Proof.
  unfold parse_pge_csv. destruct (csv_rows _ _ _ _) as [rows ending] eqn:Erows. intros Hd.
  apply bind_ok in Hd as (locked & _ & Hd). apply bind_ok in Hd as ([] & _ & Hd).
  apply bind_ok in Hd as ([] & _ & Hd). apply bind_ok in Hd as (s & Hs & Hd).
  apply bind_ok in Hd as ([] & _ & Hd).
  assert (rows_ok (drop 6 rows) s) as (Hc & Hmax & Hrows & Hint & Hadm).
  { revert Hs. apply foldM_prefix_inv; [|intros dn row s1 s2 _; apply read_row_ok].
    unfold rows_ok. simpl. split_and!; [done|done|constructor|intros r Hr; by apply elem_of_nil in Hr|done]. }
  unfold finish_document in Hd. destruct (rs_interval s) as [interval|] eqn:Ei; [|done].
  apply bind_ok in Hd as ([] & Hne & Hd). apply bind_ok in Hd as ([] & _ & Hd).
  apply bind_ok in Hd as ([] & _ & Hd). apply bind_ok in Hd as ([] & _ & Hd).
  apply bind_ok in Hd as (fs & Hadj & Hd). apply ok_inj in Hd as <-.
  apply check_adjacent_csv in Hadj as [Hord Hgap]. apply raise_if_ok, bool_decide_eq_false in Hne.
  split; cbn [pd_readings pd_interval_seconds pd_findings pd_adapter_fingerprint pd_timezone pd_source_hash]; try done.
  - exists (drop 6 rows). rewrite Erows. cbn [fst]. rewrite take_drop. split; [done|]. split; [done|lia].
  - by apply Hadm.
  - intros r Hr. split; [apply Hint in Hr; congruence|].
    apply list_elem_of_lookup in Hr as [i Hi]. apply (Forall2_lookup_r _ _ _ _ _ Hrows) in Hi as (row & _ & Hrow).
    destruct row as [|? [|? [|? [|? [|? [|? [|? [|? [|]]]]]]]]]; try done.
    destruct Hrow as (t & _ & _ & He). by eapply exact_watt_hours_nonneg.
  - intros f. rewrite elem_of_sorted_by, elem_of_remove_dups, Hgap. split; [|auto].
    intros [Hf|?]; [by apply elem_of_nil in Hf|done].
Qed.
End WholeExport.

(** C17: an admitted CSV export is faithful and well formed: there is one reading
    per data row, its start is an instant whose local time is the row's wall
    clock and its energy the row's usage in whole watt-hours, the readings are
    of one admitted duration, ordered and disjoint, and the findings are exactly
    the gaps between neighbours. *)
Theorem csv_document_admitted `{ZoneInfo, ZoneFolds, UnicodeDigits, Sha256} payload d :
  parse_pge_csv payload = Ok d -> csv_document_ok payload d.
Proof. apply parse_pge_csv_sound. Qed.

(** ** A concrete export *)
Definition line (s : string) : string := s +:+ chr 10.
Definition example_export (rows : list string) : bytes :=
  bytes_of (foldr String.append EmptyString
    ((chr 239 +:+ chr 187 +:+ chr 191 +:+ line "Name,A B")
     :: line "Address,1 Main St" :: line "Account Number,12" :: line "Service,Service 1" :: line ""
     :: line "TYPE,DATE,START TIME,END TIME,USAGE,UNITS,COST,NOTES" :: (line <$> rows))).
Section Example.
Local Instance no_unicode_digits : UnicodeDigits := fun _ => None.
Local Existing Instance toy_sha256.

Definition november_export : bytes := example_export
  ["Electric usage,2026-11-01,00:00,00:59,0.25,kWh,$0.10,"; "Electric usage,2026-11-01,01:00,01:59,1.5,kWh,,";
   "Electric usage,2026-11-01,01:00,01:59,2,kWh,,"; "Electric usage,2026-11-01,03:00,03:59,0,kWh,,"].
Definition november_document : result PgeCsvDocument := Eval vm_compute in parse_pge_csv november_export.
Lemma csv_document_admitted_witness :
  exists d, november_document = Ok d /\ csv_document_ok november_export d.
Proof.
  eexists. split; [reflexivity|].
  apply csv_document_admitted. vm_compute. reflexivity.
Defined.
Example november_starts :
  (d ← november_document; Ok (cr_energy_wh <$> pd_readings d, length (pd_findings d))) = Ok ([250; 1500; 2000; 0], 1%nat).
Proof. reflexivity. Qed.

(** An interval that ends the last day of the calendar escapes the importer's
    own error class: the end label plus one minute overflows. *)
Theorem last_day_overflow :
  parse_pge_csv (example_export ["Electric usage,9999-12-31,23:00,23:59,1,kWh,,"]) = Raise (PyError "OverflowError").
Proof. vm_compute. reflexivity. Qed.
End Example.
