(* ===== verification/Normalize.v ===== *)
(** * Normalize: drafts and confirmation (ingestion/normalize.py)

    Parsed documents of either adapter become a [NormalizedDraft] of canonical
    readings; [confirm_draft] turns the readings of a billing period into profile
    content when they tile the period exactly and every warning is acknowledged. *)

From S2P Require Import Prelude Float Json ProfileHash Calendar Energy PyText Espi EspiProofs PgeCsv PgeCsvProofs.

Definition PARSER_CONTRACT_VERSION : string := "interval-import-parser-v1".
Definition FINDING_POLICY_VERSION : string := "import-finding-policy-v1".
Definition CONFIRMATION_POLICY_VERSION : string := "profile-confirmation-policy-v1".
Definition NS_PER_SECOND : Z := 1000000000.

Definition confirmation_error (code : string) : exn := ConfirmationError code.

Record NormalizedDraft := {
  nd_source_hash : string; nd_adapter_fingerprint : string; nd_tariff_timezone : string;
  nd_interval_resolution_seconds : Z; nd_readings : list CanonicalReading; nd_findings : list CanonicalFinding
}.

Section Draft.
Context `{Sha256}.

Definition warning_id (f : CanonicalFinding) : string :=
  sha256_hex ("RateReplay.ImportWarning.v1" +:+ chr 0
    +:+ ProfileHash.cf_code f +:+ chr 0 +:+ ProfileHash.cf_severity f +:+ chr 0
    +:+ ProfileHash.cf_field_path f +:+ chr 0 +:+ cf_safe_value f).
Definition warning_ids (d : NormalizedDraft) : list string :=
  warning_id <$> filter (fun f => ProfileHash.cf_severity f = "WARNING") (nd_findings d).

Definition local_time_hash (timezone_offset dst_offset : Z) : string :=
  sha256_hex ("RateReplay.LocalTimeParameters.v1" +:+ chr 0 +:+ pretty timezone_offset +:+ chr 0 +:+ pretty dst_offset).

Definition canonical_finding (code severity field_path : string) : CanonicalFinding :=
  {| ProfileHash.cf_code := code; ProfileHash.cf_severity := severity; ProfileHash.cf_field_path := field_path;
     cf_safe_value := "" |}.

Definition espi_reading (d : EspiDocument) (r : EspiReading) : CanonicalReading :=
  {| cr_start_utc_ns := er_start_utc_seconds r * NS_PER_SECOND;
     ProfileHash.cr_duration_seconds := er_duration_seconds r;
     ProfileHash.cr_energy_wh := er_energy_wh r; cr_flow_direction := IMPORT; cr_source_unit := "Wh";
     cr_source_multiplier := 0; cr_source_reading_type := "12"; cr_source_service_category := "0";
     cr_source_commodity := "1"; cr_source_accumulation_behavior := "4"; cr_source_data_qualifier := "12";
     cr_source_time_attribute := "0";
     cr_source_local_time_parameters_hash :=
       Some (local_time_hash (ed_timezone_offset_seconds d) (ed_dst_offset_seconds d));
     cr_source_timezone_offset_seconds := Some (ed_timezone_offset_seconds d);
     cr_source_dst_offset_seconds := Some (ed_dst_offset_seconds d); cr_quality_flags := er_quality_flags r |}.
Definition normalize_espi (d : EspiDocument) : NormalizedDraft :=
  {| nd_source_hash := ed_source_hash d; nd_adapter_fingerprint := "espi-4.0-download-my-data-v1";
     nd_tariff_timezone := "America/Los_Angeles"; nd_interval_resolution_seconds := ed_interval_seconds d;
     nd_readings := espi_reading d <$> ed_readings d;
     nd_findings := (fun f => canonical_finding (ef_code f) (ef_severity f) (ef_field_path f)) <$> ed_findings d |}.

Definition csv_reading (r : CsvReading) : CanonicalReading :=
  {| cr_start_utc_ns := cr_start_utc_seconds r * NS_PER_SECOND;
     ProfileHash.cr_duration_seconds := PgeCsv.cr_duration_seconds r;
     ProfileHash.cr_energy_wh := PgeCsv.cr_energy_wh r; cr_flow_direction := IMPORT; cr_source_unit := "kWh";
     cr_source_multiplier := 0; cr_source_reading_type := "PROVIDER_INTERVAL_ENERGY";
     cr_source_service_category := "ELECTRICITY"; cr_source_commodity := "ELECTRICITY";
     cr_source_accumulation_behavior := "DELTA_DATA"; cr_source_data_qualifier := "NORMAL";
     cr_source_time_attribute := "NOT_APPLICABLE"; cr_source_local_time_parameters_hash := None;
     cr_source_timezone_offset_seconds := None; cr_source_dst_offset_seconds := None; cr_quality_flags := [] |}.
Definition normalize_pge_csv (d : PgeCsvDocument) : NormalizedDraft :=
  {| nd_source_hash := pd_source_hash d; nd_adapter_fingerprint := pd_adapter_fingerprint d;
     nd_tariff_timezone := pd_timezone d; nd_interval_resolution_seconds := pd_interval_seconds d;
     nd_readings := csv_reading <$> pd_readings d;
     nd_findings := (fun f => canonical_finding (PgeCsv.cf_code f) (PgeCsv.cf_severity f) (PgeCsv.cf_field_path f))
                      <$> pd_findings d |}.

(** ** Confirmation *)
Definition reading_end_ns (r : CanonicalReading) : Z :=
  cr_start_utc_ns r + ProfileHash.cr_duration_seconds r * NS_PER_SECOND.
Definition in_period (lo hi : Z) (r : CanonicalReading) : Prop := lo <= cr_start_utc_ns r /\ reading_end_ns r <= hi.

Definition advance (resolution : Z) (expected_start : Z) (r : CanonicalReading) : result Z :=
  _ ← raise_if (negb (ProfileHash.cr_duration_seconds r =? resolution)) (confirmation_error "MIXED_INTERVAL_DURATIONS");
  _ ← raise_if (negb (cr_start_utc_ns r =? expected_start)) (confirmation_error "INCOMPLETE_BILLING_PERIOD");
  Ok (expected_start + ProfileHash.cr_duration_seconds r * NS_PER_SECOND).

Definition confirm_draft (d : NormalizedDraft) (start_ns end_ns : Z) (acknowledged : list string) (attested : bool) :
    result CanonicalProfileContentV1 :=
  _ ← raise_if (negb attested) (confirmation_error "PGE_SERVICE_ATTESTATION_REQUIRED");
  _ ← raise_if (has_dups acknowledged || negb (same_set acknowledged (warning_ids d)))
        (confirmation_error "WARNING_ACKNOWLEDGEMENT_MISMATCH");
  let selected := filter (in_period start_ns end_ns) (nd_readings d) in
  _ ← raise_if (bool_decide (selected = [])) (confirmation_error "INCOMPLETE_BILLING_PERIOD");
  final ← foldM (advance (nd_interval_resolution_seconds d)) start_ns selected;
  _ ← raise_if (negb (final =? end_ns)) (confirmation_error "INCOMPLETE_BILLING_PERIOD");
  Ok {| pc_parser_contract_version := PARSER_CONTRACT_VERSION; pc_adapter_fingerprint := nd_adapter_fingerprint d;
        pc_finding_policy_version := FINDING_POLICY_VERSION;
        pc_confirmation_policy_version := CONFIRMATION_POLICY_VERSION;
        pc_billing_period_start_utc_ns := start_ns; pc_billing_period_end_utc_ns := end_ns;
        pc_tariff_timezone := nd_tariff_timezone d;
        pc_interval_resolution_seconds := nd_interval_resolution_seconds d;
        pc_readings := selected; pc_findings := nd_findings d;
        pc_acknowledged_warning_ids := py_sorted acknowledged |}.

(** ** Tilings *)

(** The readings follow each other without gap or overlap from [lo] to [hi]. *)
Fixpoint tiles (resolution lo hi : Z) (l : list CanonicalReading) : Prop :=
  match l with
  | [] => lo = hi
  | r :: t => ProfileHash.cr_duration_seconds r = resolution /\ cr_start_utc_ns r = lo
              /\ tiles resolution (lo + resolution * NS_PER_SECOND) hi t
  end.

Lemma advance_tiles resolution l lo hi : foldM (advance resolution) lo l = Ok hi <-> tiles resolution lo hi l.
Proof.
  revert lo. induction l as [|r l IH]; intros lo; cbn [foldM tiles]; [split; [by intros [= ->]|by intros ->]|].
  rewrite bind_ok. split.
  - intros (mid & Ha & Hr). unfold advance in Ha. inv_ok. bools.
    rewrite <-IH. split_and!; [done|done|]. congruence.
  - intros (Hd & Hs & Ht). exists (lo + resolution * NS_PER_SECOND). split; [|by apply IH].
    unfold advance. rewrite Hd, Hs, !Z.eqb_refl. done.
Qed.

Lemma confirm_draft_iff d lo hi acknowledged attested c :
  confirm_draft d lo hi acknowledged attested = Ok c <->
  attested = true /\ NoDup acknowledged /\ (forall x, x ∈ acknowledged <-> x ∈ warning_ids d)
  /\ filter (in_period lo hi) (nd_readings d) <> []
  /\ tiles (nd_interval_resolution_seconds d) lo hi (filter (in_period lo hi) (nd_readings d))
  /\ c = {| pc_parser_contract_version := PARSER_CONTRACT_VERSION;
            pc_adapter_fingerprint := nd_adapter_fingerprint d;
            pc_finding_policy_version := FINDING_POLICY_VERSION;
            pc_confirmation_policy_version := CONFIRMATION_POLICY_VERSION;
            pc_billing_period_start_utc_ns := lo; pc_billing_period_end_utc_ns := hi;
            pc_tariff_timezone := nd_tariff_timezone d;
            pc_interval_resolution_seconds := nd_interval_resolution_seconds d;
            pc_readings := filter (in_period lo hi) (nd_readings d); pc_findings := nd_findings d;
            pc_acknowledged_warning_ids := py_sorted acknowledged |}.
Proof.
  unfold confirm_draft. split.
  - intros Hc. apply bind_ok in Hc as ([] & Ha & Hc). apply bind_ok in Hc as ([] & Hw & Hc).
    apply bind_ok in Hc as ([] & Hne & Hc). apply bind_ok in Hc as (final & Hf & Hc).
    apply bind_ok in Hc as ([] & Hfin & Hc). apply ok_inj in Hc as <-.
    apply raise_if_ok in Ha, Hw, Hne, Hfin. bools. subst final. split_and!; [done|done| |done| |done].
    + by apply same_set_true.
    + by apply advance_tiles.
  - intros (-> & Hnd & Hset & Hne & Ht & ->). apply same_set_true in Hset. apply advance_tiles in Ht.
    assert (has_dups acknowledged = false) as -> by (by apply has_dups_false). rewrite Hset.
    rewrite bool_decide_false by done. cbn [negb orb raise_if mbind result_bind]. rewrite Ht.
    cbn [mbind result_bind]. by rewrite Z.eqb_refl.
Qed.

Lemma tiles_app resolution lo hi l1 l2 :
  tiles resolution lo hi (l1 ++ l2)
  <-> exists mid, tiles resolution lo mid l1 /\ tiles resolution mid hi l2.
Proof.
  revert lo. induction l1 as [|r l1 IH]; intros lo; cbn [app tiles].
  - split; [intros Ht; by exists lo|]. by intros (mid & -> & ?).
  - rewrite IH. naive_solver.
Qed.
Lemma tiles_length resolution lo hi l :
  tiles resolution lo hi l -> hi = lo + Z.of_nat (length l) * (resolution * NS_PER_SECOND).
Proof.
  revert lo. induction l as [|r l IH]; intros lo; cbn [tiles length]; [intros ->; lia|].
  intros (_ & _ & Ht%IH). lia.
Qed.
Lemma tiles_elem resolution lo hi l r :
  0 < resolution -> tiles resolution lo hi l -> r ∈ l ->
  lo <= cr_start_utc_ns r /\ reading_end_ns r <= hi
  /\ reading_end_ns r = cr_start_utc_ns r + resolution * NS_PER_SECOND.
Proof.
  intros Hres Ht Hr. apply list_elem_of_split in Hr as (l1 & l2 & ->).
  apply tiles_app in Ht as (mid & H1%tiles_length & Hd & Hs & H2%tiles_length).
  unfold reading_end_ns. rewrite Hd, Hs. unfold NS_PER_SECOND in *. nia.
Qed.

Lemma filter_all {A} (P : A -> Prop) `{forall x, Decision (P x)} (l : list A) :
  (forall x, x ∈ l -> P x) -> filter P l = l.
Proof.
  induction l as [|x l IH]; intros Hl; [done|]. rewrite filter_cons_True by (apply Hl; left). f_equal.
  apply IH. intros y Hy. apply Hl. by right.
Qed.
Lemma filter_none {A} (P : A -> Prop) `{forall x, Decision (P x)} (l : list A) :
  (forall x, x ∈ l -> ~ P x) -> filter P l = [].
Proof.
  induction l as [|x l IH]; intros Hl; [done|]. rewrite filter_cons_False by (apply Hl; left).
  apply IH. intros y Hy. apply Hl. by right.
Qed.

(** Cutting a billing period out of a gapless draft selects exactly its part. *)
Lemma period_selects resolution a b pre mid post lo hi :
  0 < resolution -> tiles resolution a b (pre ++ mid ++ post) ->
  tiles resolution a lo pre -> tiles resolution lo hi mid ->
  filter (in_period lo hi) (pre ++ mid ++ post) = mid.
Proof.
  intros Hres Hall Hpre Hmid.
  assert (tiles resolution hi b post) as Hpost.
  { apply tiles_app in Hall as (m1 & H1 & (m2 & H2 & H3)%tiles_app).
    apply tiles_length in H1, Hpre. replace m1 with lo in * by lia.
    apply tiles_length in H2, Hmid. by replace m2 with hi in * by lia. }
  assert (0 < resolution * NS_PER_SECOND) by (unfold NS_PER_SECOND; lia).
  rewrite !filter_app, (filter_all _ mid), (filter_none _ pre), (filter_none _ post); [by rewrite app_nil_r| | |].
  - intros r Hr [_ Hp]. destruct (tiles_elem _ _ _ _ _ Hres Hpost Hr) as (H1 & _ & H3). lia.
  - intros r Hr [Hp _]. destruct (tiles_elem _ _ _ _ _ Hres Hpre Hr) as (_ & H2 & H3). lia.
  - intros r Hr. destruct (tiles_elem _ _ _ _ _ Hres Hmid Hr) as (H1 & H2 & _). done.
Qed.

(** A gapless draft can be confirmed for every period made of its readings. *)
Lemma gapless_confirmable d a b pre mid post acknowledged :
  0 < nd_interval_resolution_seconds d -> tiles (nd_interval_resolution_seconds d) a b (nd_readings d) ->
  nd_readings d = pre ++ mid ++ post -> mid <> [] ->
  NoDup acknowledged -> (forall x, x ∈ acknowledged <-> x ∈ warning_ids d) ->
  exists lo hi c, confirm_draft d lo hi acknowledged true = Ok c
    /\ pc_readings c = mid /\ tiles (nd_interval_resolution_seconds d) lo hi mid
    /\ lo = a + Z.of_nat (length pre) * (nd_interval_resolution_seconds d * NS_PER_SECOND)
    /\ hi = lo + Z.of_nat (length mid) * (nd_interval_resolution_seconds d * NS_PER_SECOND).
Proof.
  intros Hres Hall E Hne Hnd Hset. pose proof Hall as Hall'. rewrite E in Hall'.
  pose proof Hall' as Hsplit. apply tiles_app in Hsplit as (lo & Hpre & (hi & Hmid & _)%tiles_app).
  pose proof (period_selects _ _ _ _ _ _ _ _ Hres Hall' Hpre Hmid) as Hsel. rewrite <-E in Hsel.
  exists lo, hi. eexists. rewrite confirm_draft_iff. split; [split_and!; [done|done|done| | |reflexivity]|].
  - by rewrite Hsel.
  - by rewrite Hsel.
  - simpl. rewrite Hsel. split_and!; [done|done|by apply tiles_length in Hpre|by apply tiles_length in Hmid].
Qed.
End Draft.

(** ** Admitted documents without gaps *)

(** A uniform sequence whose neighbours touch tiles its span. *)
Lemma contiguous_tiles {A} (f : A -> CanonicalReading) resolution (l : list A) :
  Forall (fun x => ProfileHash.cr_duration_seconds (f x) = resolution) l ->
  Forall (fun p => reading_end_ns (f p.1) = cr_start_utc_ns (f p.2)) (pairwise l) ->
  l <> [] -> exists a b, tiles resolution a b (f <$> l).
Proof.
  intros Hu Hp Hne. destruct l as [|x l]; [done|]. clear Hne. exists (cr_start_utc_ns (f x)).
  revert x Hu Hp. induction l as [|y l IH]; intros x Hu Hp.
  - exists (cr_start_utc_ns (f x) + resolution * NS_PER_SECOND). simpl.
    apply Forall_cons in Hu as [Hx _]. done.
  - apply Forall_cons in Hu as [Hx Hu]. apply Forall_cons in Hp as [Hxy Hp]. simpl in Hxy.
    destruct (IH y Hu Hp) as [b Hb]. exists b. rewrite fmap_cons. cbn [tiles]. split_and!; [done..|].
    unfold reading_end_ns in Hxy. rewrite Hx in Hxy. by rewrite Hxy.
Qed.

Section Composition.
Context {SH : Sha256} {UD : UnicodeDigits}.

Lemma espi_gapless {LX : Lxml} p schema d :
  parse_espi p schema = Ok d -> warning "INTERVAL_GAP" "readings" ∉ ed_findings d ->
  0 < ed_interval_seconds d /\ exists a b, tiles (ed_interval_seconds d) a b (nd_readings (normalize_espi d)).
Proof.
  intros (_ & _ & _ & Hi & sch & entries & raws & mu & _ & _ & _ & Hr)%parse_espi_sound Hgap.
  destruct Hr as [Hne _ _ Hu Hd Hg _ _].
  split; [repeat (apply elem_of_cons in Hi as [->|Hi]; [lia|]); by apply elem_of_nil in Hi|].
  apply contiguous_tiles; [|apply Forall_forall; intros [x y] Hxy|done].
  - eapply Forall_impl; [exact Hu|]. by intros r [? _].
  - rewrite Forall_forall in Hd. apply Hd in Hxy as Hxy'. unfold EspiProofs.in_order, Espi.reading_end in Hxy'. simpl in Hxy'.
    unfold reading_end_ns. simpl. assert (er_start_utc_seconds x + er_duration_seconds x = er_start_utc_seconds y).
    { apply Z.le_antisymm; [done|]. apply Z.nlt_ge. intros Hlt. apply Hgap, Hg, Exists_exists.
      exists (x, y). split; [done|]. exact Hlt. }
    unfold NS_PER_SECOND. lia.
Qed.

Lemma csv_gapless {ZI : ZoneInfo} {ZF : ZoneFolds} payload d :
  parse_pge_csv payload = Ok d -> pd_findings d = [] ->
  0 < pd_interval_seconds d /\ exists a b, tiles (pd_interval_seconds d) a b (nd_readings (normalize_pge_csv d)).
Proof.
  intros Hd%parse_pge_csv_sound Hgap. destruct Hd as [_ Hne Hi Hu Hd Hg _].
  split; [repeat (apply elem_of_cons in Hi as [->|Hi]; [lia|]); by apply elem_of_nil in Hi|].
  apply contiguous_tiles; [|apply Forall_forall; intros [x y] Hxy|done].
  - apply Forall_forall. intros r Hr. by apply Hu.
  - rewrite Forall_forall in Hd. apply Hd in Hxy as Hxy'. unfold PgeCsv.reading_end in Hxy'. simpl in Hxy'.
    unfold reading_end_ns. simpl. assert (cr_start_utc_seconds x + PgeCsv.cr_duration_seconds x = cr_start_utc_seconds y).
    { apply Z.le_antisymm; [done|]. apply Z.nlt_ge. intros Hlt.
      assert (gap_finding y ∈ pd_findings d) as Hin; [|rewrite Hgap in Hin; by apply elem_of_nil in Hin].
      apply Hg. by exists (x, y). }
    unfold NS_PER_SECOND. lia.
Qed.
End Composition.

(** C15: confirmation accepts exactly the complete periods: it succeeds if and
    only if the service is attested, every warning is acknowledged exactly once
    and the readings inside the half-open period are of the draft's resolution
    and follow each other without gap or overlap from its start to its end; the
    confirmed content then holds exactly those readings. *)
Theorem confirmation_exact `{Sha256} d lo hi acknowledged attested :
  (exists c, confirm_draft d lo hi acknowledged attested = Ok c
     /\ pc_readings c = filter (in_period lo hi) (nd_readings d)
     /\ pc_billing_period_start_utc_ns c = lo /\ pc_billing_period_end_utc_ns c = hi)
  <-> attested = true /\ NoDup acknowledged /\ (forall x, x ∈ acknowledged <-> x ∈ warning_ids d)
      /\ filter (in_period lo hi) (nd_readings d) <> []
      /\ tiles (nd_interval_resolution_seconds d) lo hi (filter (in_period lo hi) (nd_readings d)).
Proof.
  split.
  - intros (c & Hc & _). apply confirm_draft_iff in Hc as (? & ? & ? & ? & ? & _). done.
  - intros (Ha & Hnd & Hset & Hne & Ht). eexists. rewrite confirm_draft_iff. split; [split_and!; done|done].
Qed.

(** An import without gaps can be confirmed: if either importer admits a
    document and reports no interval gap, then every non-empty run of its
    readings is the content of a billing period that confirmation accepts once
    the warnings are acknowledged, and the period spans exactly the run. *)
Theorem gapless_import_confirmable
    `{Sha256, UnicodeDigits, Lxml, ZoneInfo, ZoneFolds} d pre mid post acknowledged :
  (exists p schema doc, parse_espi p schema = Ok doc /\ d = normalize_espi doc
     /\ warning "INTERVAL_GAP" "readings" ∉ ed_findings doc)
  \/ (exists payload doc, parse_pge_csv payload = Ok doc /\ d = normalize_pge_csv doc /\ pd_findings doc = []) ->
  nd_readings d = pre ++ mid ++ post -> mid <> [] ->
  NoDup acknowledged -> (forall x, x ∈ acknowledged <-> x ∈ warning_ids d) ->
  exists lo hi c, confirm_draft d lo hi acknowledged true = Ok c /\ pc_readings c = mid
    /\ hi = lo + Z.of_nat (length mid) * (nd_interval_resolution_seconds d * NS_PER_SECOND).
Proof.
  intros Hdoc E Hne Hnd Hset.
  assert (0 < nd_interval_resolution_seconds d
          /\ exists a b, tiles (nd_interval_resolution_seconds d) a b (nd_readings d)) as (Hres & a & b & Ht).
  { destruct Hdoc as [(p & schema & doc & Hp & -> & Hg)|(payload & doc & Hp & -> & Hg)].
    - by eapply espi_gapless.
    - by eapply csv_gapless. }
  destruct (gapless_confirmable d a b pre mid post acknowledged Hres Ht E Hne Hnd Hset) as (lo & hi & c & Hc & Hr & _ & _ & Hh).
  exists lo, hi, c. done.
Qed.

(** ** A concrete import *)
Section Example.
Local Instance no_unicode_digits : UnicodeDigits := fun _ => None.
Local Existing Instance toy_sha256.
Local Instance no_lxml : Lxml := {| feed _ _ := None; close _ := false |}.

Definition july_export : PyText.bytes := example_export
  ["Electric usage,2026-07-01,00:00,00:59,0.25,kWh,,"; "Electric usage,2026-07-01,01:00,01:59,1.5,kWh,,";
   "Electric usage,2026-07-01,02:00,02:59,2,kWh,,"].
Definition july_draft : NormalizedDraft := Eval vm_compute in
  match parse_pge_csv july_export with
  | Ok d => normalize_pge_csv d
  | Raise _ => {| nd_source_hash := ""; nd_adapter_fingerprint := ""; nd_tariff_timezone := "";
                  nd_interval_resolution_seconds := 0; nd_readings := []; nd_findings := [] |}
  end.
Lemma gapless_import_confirmable_witness :
  exists lo hi c, confirm_draft july_draft lo hi [] true = Ok c /\ pc_readings c = take 2 (nd_readings july_draft)
    /\ hi = lo + Z.of_nat (length (take 2 (nd_readings july_draft)))
                 * (nd_interval_resolution_seconds july_draft * NS_PER_SECOND).
Proof.
  refine (gapless_import_confirmable july_draft [] (take 2 (nd_readings july_draft)) (drop 2 (nd_readings july_draft)) []
            _ _ _ _ _).
  - right. exists july_export. eexists. split; [vm_compute; reflexivity|]. split; reflexivity.
  - reflexivity.
  - discriminate.
  - constructor.
  - intros x. split; intros Hx; by apply elem_of_nil in Hx.
Defined.
End Example.
