(* ===== verification/Simulated.v ===== *)
(** * Simulated: the built-in simulated profile (ingestion/simulated.py)

    The demo profile is loaded through a content lock and admitted when its
    readings tile the locked July service window.  Files and the structural
    decoding of JSON are parameters; the field constraints and the validator of
    [SimulatedProfile] are modelled. *)

From S2P Require Import Prelude Float Json ProfileHash Calendar Energy PyText Espi EspiProofs PgeCsv PgeCsvProofs Normalize.

Definition simulated_error (code : string) : exn := SimulatedProfileError code.

Record SimulatedReading := { sr_start_utc : string; sr_duration_seconds : Z; sr_energy_wh : Z }.
Record SimulatedProfile := {
  sp_profile_schema_version : string; sp_label : string; sp_tariff_timezone : string;
  sp_interval_resolution_seconds : Z; sp_service_window_local : string * string;
  sp_source_timezone_interpretation : string; sp_total_energy_wh : Z; sp_transformation : string;
  sp_readings : list SimulatedReading
}.
Record LockedSimulatedProfile := {
  lp_artifact_path : string; lp_artifact_sha256 : string; lp_label : string; lp_content : CanonicalProfileContentV1
}.

(** ** Times *)
Definition two (a b : N) : option Z := ds ← @all_digits (fun _ => None) [a; b]; Some (digits_value ds).
Definition four (a b c d : N) : option Z := ds ← @all_digits (fun _ => None) [a; b; c; d]; Some (digits_value ds).
(** [SimulatedReading.start]: the instant of ["YYYY-MM-DDTHH:MM:SSZ"]. *)
Definition reading_start (r : SimulatedReading) : result Z :=
  let bad := Raise (PyError "ValueError") in
  match points (sr_start_utc r) with
  | [y1; y2; y3; y4; 45%N; m1; m2; 45%N; d1; d2; 84%N; h1; h2; 58%N; n1; n2; 58%N; s1; s2; 90%N] =>
      match four y1 y2 y3 y4, two m1 m2, two d1 d2, two h1 h2, two n1 n2, two s1 s2 with
      | Some y, Some m, Some d, Some h, Some n, Some s =>
          if (1 <=? y) && (1 <=? m) && (m <=? 12) && (1 <=? d) && (d <=? days_in_month y m)
             && (h <=? 23) && (n <=? 59) && (s <=? 59)
          then Ok ((date_of_ymd y m d * 86400 + h * 3600 + n * 60 + s) * US_PER_SECOND)
          else bad
      | _, _, _, _, _, _ => bad
      end
  | _ => bad
  end.

(** ** Validation *)
Definition WINDOW_START : Z := 1782889200 * US_PER_SECOND. (* 2026-07-01T07:00:00Z *)
Definition WINDOW_END : Z := 1785567600 * US_PER_SECOND.   (* 2026-08-01T07:00:00Z *)
Definition value_error : exn := PyError "ValueError".

Definition reading_fields_ok (r : SimulatedReading) : bool := (0 <? sr_duration_seconds r) && (0 <=? sr_energy_wh r).
Definition profile_fields_ok (p : SimulatedProfile) : bool :=
  String.eqb (sp_profile_schema_version p) "simulated-profile-v1" && startswith (sp_label p) "SIMULATED "
  && String.eqb (sp_tariff_timezone p) "America/Los_Angeles" && (0 <? sp_interval_resolution_seconds p)
  && bool_decide (sp_service_window_local p = ("2026-07-01", "2026-08-01"))
  && negb (String.eqb (sp_source_timezone_interpretation p) "") && (0 <? sp_total_energy_wh p)
  && negb (String.eqb (sp_transformation p) "") && negb (bool_decide (length (sp_readings p) = 0%nat))
  && forallb reading_fields_ok (sp_readings p).

Definition reading_end (r : SimulatedReading) : result Z :=
  t ← reading_start r; datetime_check (t + sr_duration_seconds r * US_PER_SECOND).
Definition check_contiguous (pair : SimulatedReading * SimulatedReading) : result unit :=
  expected ← reading_end pair.1;
  right ← reading_start pair.2;
  raise_if (negb (right =? expected)) value_error.

Definition validate_vector (p : SimulatedProfile) : result unit :=
  let readings := sp_readings p in
  _ ← raise_if (existsb (fun r => negb (sr_duration_seconds r =? sp_interval_resolution_seconds p)) readings)
        value_error;
  _ ← forM_ check_contiguous (pairwise readings);
  _ ← raise_if (negb (sum_by sr_energy_wh readings =? sp_total_energy_wh p)) value_error;
  match head readings, last readings with
  | Some first_reading, Some last_reading =>
      first ← reading_start first_reading;
      final_end ← reading_end last_reading;
      raise_if (negb (first =? WINDOW_START) || negb (final_end =? WINDOW_END)) value_error
  | _, _ => Ok tt
  end.

(** [SimulatedProfile.model_validate_json(payload)] after structural decoding:
    a failed constraint or a [ValueError] of the validator is a [ValidationError]. *)
Definition model_validate (decoded : option SimulatedProfile) : result SimulatedProfile :=
  match decoded with
  | None => Raise (ValidationError "structure")
  | Some p =>
      _ ← raise_if (negb (profile_fields_ok p)) (ValidationError "field");
      match validate_vector p with
      | Ok _ => Ok p
      | Raise e => if bool_decide (e = value_error) then Raise (ValidationError "vector") else Raise e
      end
  end.

(** ** Loading *)
Class Files := {
  read_bytes : string -> option string;
  load_json : string -> option json;             (** [json.loads] *)
  decode_profile : string -> option SimulatedProfile
}.

Section Load.
Context `{Files} `{Sha256}.

Definition canonical_reading (start : Z) (r : SimulatedReading) : CanonicalReading :=
  {| cr_start_utc_ns := Z.quot start US_PER_SECOND * NS_PER_SECOND;
     ProfileHash.cr_duration_seconds := sr_duration_seconds r; ProfileHash.cr_energy_wh := sr_energy_wh r;
     cr_flow_direction := IMPORT; cr_source_unit := "Wh"; cr_source_multiplier := 0;
     cr_source_reading_type := "SIMULATED_INTERVAL_ENERGY"; cr_source_service_category := "ELECTRICITY";
     cr_source_commodity := "ELECTRICITY"; cr_source_accumulation_behavior := "DELTA_DATA";
     cr_source_data_qualifier := "SIMULATED"; cr_source_time_attribute := "NOT_APPLICABLE";
     cr_source_local_time_parameters_hash := None; cr_source_timezone_offset_seconds := None;
     cr_source_dst_offset_seconds := None; cr_quality_flags := [] |}.

Definition read_lock : result (string * string) :=
  match (b ← read_bytes "data/demo/profile.lock.json"; load_json b) with
  | Some (JObj fs) =>
      match dict_get "artifact_path" fs, dict_get "artifact_sha256" fs with
      | Some (JStr p), Some (JStr h) => Ok (p, h)
      | _, _ => Raise (simulated_error "SIMULATED_PROFILE_LOCK_INVALID")
      end
  | _ => Raise (simulated_error "SIMULATED_PROFILE_LOCK_INVALID")
  end.

Definition load_locked_simulated_profile : result LockedSimulatedProfile :=
  '(artifact_path, expected_hash) ← read_lock;
  match read_bytes artifact_path with
  | None => Raise (simulated_error "SIMULATED_PROFILE_MISSING")
  | Some payload =>
      let observed_hash := sha256_hex payload in
      _ ← raise_if (negb (String.eqb observed_hash expected_hash)) (simulated_error "SIMULATED_PROFILE_HASH_MISMATCH");
      profile ← match model_validate (decode_profile payload) with
                | Raise (ValidationError _) => Raise (simulated_error "SIMULATED_PROFILE_CONTRACT_INVALID")
                | r => r
                end;
      readings ← mapM (fun r => s ← reading_start r; Ok (canonical_reading s r)) (sp_readings profile);
      start_ns ← match head readings with Some r => Ok (cr_start_utc_ns r) | None => Raise (PyError "IndexError") end;
      end_ns ← match last readings with Some r => Ok (reading_end_ns r) | None => Raise (PyError "IndexError") end;
      Ok {| lp_artifact_path := artifact_path; lp_artifact_sha256 := observed_hash; lp_label := sp_label profile;
            lp_content :=
              {| pc_parser_contract_version := "simulated-profile-parser-v1";
                 pc_adapter_fingerprint := "nrel-derived-frozen-demo-v1";
                 pc_finding_policy_version := "simulated-profile-findings-v1";
                 pc_confirmation_policy_version := "locked-simulated-profile-v1";
                 pc_billing_period_start_utc_ns := start_ns; pc_billing_period_end_utc_ns := end_ns;
                 pc_tariff_timezone := sp_tariff_timezone profile;
                 pc_interval_resolution_seconds := sp_interval_resolution_seconds profile;
                 pc_readings := readings; pc_findings := []; pc_acknowledged_warning_ids := [] |} |}
  end.
End Load.

(** ** The loaded profile *)
Lemma reading_start_seconds r t : reading_start r = Ok t -> t mod US_PER_SECOND = 0.
Proof.
  unfold reading_start. intros Ht. repeat (case_match; try done). injection Ht as <-. apply Z.mod_mul. done.
Qed.
Definition start_of (r : SimulatedReading) : Z := match reading_start r with Ok t => t | Raise _ => 0 end.
Definition canonical_of (r : SimulatedReading) : CanonicalReading := canonical_reading (start_of r) r.

Lemma seconds_exact t : t mod US_PER_SECOND = 0 -> exists s, t = s * US_PER_SECOND /\ Z.quot t US_PER_SECOND = s.
Proof.
  intros Hm. exists (t / US_PER_SECOND). pose proof (Z.div_mod t US_PER_SECOND ltac:(done)) as E. split; [lia|].
  replace t with (t / US_PER_SECOND * US_PER_SECOND) at 1 by lia. by apply Z.quot_mul.
Qed.

(** Neighbours the validator accepts touch. *)
Lemma contiguous_pair x y :
  check_contiguous (x, y) = Ok tt -> reading_end_ns (canonical_of x) = cr_start_utc_ns (canonical_of y).
Proof.
  unfold check_contiguous, reading_end. cbn [fst snd]. intros Hc. apply bind_ok in Hc as (e & He & Hc).
  apply bind_ok in He as (tx & Hx & He). apply bind_ok in Hc as (ty & Hy & Hc).
  apply datetime_check_ok in He as [-> _]. apply raise_if_ok, negb_false_iff, Z.eqb_eq in Hc.
  unfold canonical_of, start_of. rewrite Hx, Hy. unfold reading_end_ns, canonical_reading. cbn.
  apply reading_start_seconds, seconds_exact in Hx as (sx & -> & ->).
  apply reading_start_seconds, seconds_exact in Hy as (sy & -> & ->).
  assert (sy = sx + sr_duration_seconds x); [|lia]. unfold US_PER_SECOND in Hc. lia.
Qed.

Lemma tiles_head resolution a b r l : tiles resolution a b (r :: l) -> a = cr_start_utc_ns r.
Proof. by intros (_ & -> & _). Qed.
Lemma tiles_last resolution a b l r : tiles resolution a b l -> last l = Some r -> b = reading_end_ns r.
Proof.
  revert a. induction l as [|x l IH]; intros a Ht Hl; [done|]. destruct Ht as (Hd & Hs & Ht).
  destruct l as [|y l].
  - injection Hl as ->. unfold reading_end_ns. rewrite Hd, Hs. symmetry. exact Ht.
  - eapply IH; [exact Ht|exact Hl].
Qed.

Lemma valid_vector_tiles p :
  profile_fields_ok p = true -> validate_vector p = Ok tt ->
  tiles (sp_interval_resolution_seconds p) (WINDOW_START / US_PER_SECOND * NS_PER_SECOND)
    (WINDOW_END / US_PER_SECOND * NS_PER_SECOND) (canonical_of <$> sp_readings p)
  /\ sum_by sr_energy_wh (sp_readings p) = sp_total_energy_wh p.
Proof.
  intros Hf Hv. unfold profile_fields_ok in Hf.
  assert (sp_readings p <> []) as Hne.
  { intros E. rewrite E in Hf. rewrite !andb_false_r in Hf. done. }
  unfold validate_vector in Hv. apply bind_ok in Hv as ([] & Hu & Hv). apply bind_ok in Hv as ([] & Hc & Hv).
  apply bind_ok in Hv as ([] & Hsum & Hv). apply raise_if_ok, negb_false_iff, Z.eqb_eq in Hsum.
  split; [|done]. apply raise_if_ok in Hu. apply forM_ok in Hc.
  destruct (contiguous_tiles canonical_of (sp_interval_resolution_seconds p) (sp_readings p)) as (a & b & Ht); [| |done|].
  - apply Forall_forall. intros r Hr. cbn. apply Z.eqb_eq.
    destruct (sr_duration_seconds r =? sp_interval_resolution_seconds p) eqn:E; [done|]. exfalso.
    assert (existsb (fun r => negb (sr_duration_seconds r =? sp_interval_resolution_seconds p)) (sp_readings p) = true) as Hx;
      [|congruence]. apply existsb_exists. exists r. rewrite E. split; [by apply list_elem_of_In|done].
  - eapply Forall_impl; [exact Hc|]. intros [x y]. apply contiguous_pair.
  - destruct (sp_readings p) as [|r l] eqn:El; [by destruct Hne|]. cbn [head] in Hv.
    destruct (last (r :: l)) as [z|] eqn:Ez; [|by apply last_None in Ez].
    apply bind_ok in Hv as (first & Hfirst & Hv). apply bind_ok in Hv as (final & Hfinal & Hv).
    apply raise_if_ok, orb_false_iff in Hv as [H1 H2]. apply negb_false_iff, Z.eqb_eq in H1, H2. subst first final.
    assert (last (canonical_of <$> r :: l) = Some (canonical_of z)) as Hlast by (by rewrite fmap_last, Ez).
    pose proof (tiles_last _ _ _ _ _ Ht Hlast) as Hb. rewrite fmap_cons in Ht. pose proof (tiles_head _ _ _ _ _ Ht) as Ha.
    apply bind_ok in Hfinal as (tz & Hz & Hfinal). apply datetime_check_ok in Hfinal as [Hfinal _].
    unfold canonical_of, start_of in Ha, Hb. rewrite Hfirst in Ha. rewrite Hz in Hb.
    apply reading_start_seconds, seconds_exact in Hz as (sz & -> & Hq).
    unfold reading_end_ns, canonical_reading in Hb. cbn in Ha, Hb. rewrite Hq in Hb.
    replace (WINDOW_START / US_PER_SECOND * NS_PER_SECOND) with a by (rewrite Ha; reflexivity).
    replace (WINDOW_END / US_PER_SECOND * NS_PER_SECOND) with b; [done|].
    rewrite Hb, Hfinal. replace (sz * US_PER_SECOND + sr_duration_seconds z * US_PER_SECOND)
      with ((sz + sr_duration_seconds z) * US_PER_SECOND) by lia.
    rewrite Z.div_mul by done. lia.
Qed.

(** The built-in profile is complete: when the locked profile loads, its
    artifact hashes to the locked hash, and its readings, of one resolution,
    tile the July 2026 service window in Pacific time without gap or overlap and
    sum to the declared energy. *)
Theorem simulated_profile_tiles `{Files, Sha256} p :
  load_locked_simulated_profile = Ok p ->
  (exists payload, read_bytes (lp_artifact_path p) = Some payload /\ lp_artifact_sha256 p = sha256_hex payload
     /\ read_lock = Ok (lp_artifact_path p, lp_artifact_sha256 p))
  /\ tiles (pc_interval_resolution_seconds (lp_content p)) (pc_billing_period_start_utc_ns (lp_content p))
       (pc_billing_period_end_utc_ns (lp_content p)) (pc_readings (lp_content p))
  /\ pc_billing_period_start_utc_ns (lp_content p) = 1782889200 * NS_PER_SECOND
  /\ pc_billing_period_end_utc_ns (lp_content p) = 1785567600 * NS_PER_SECOND
  /\ 0 < sum_by ProfileHash.cr_energy_wh (pc_readings (lp_content p)).
Proof.
  unfold load_locked_simulated_profile. intros Hl. apply bind_ok in Hl as ([path hash] & Hlock & Hl).
  destruct (read_bytes path) as [payload|] eqn:Hp; [|done]. apply bind_ok in Hl as ([] & Hh & Hl).
  apply raise_if_ok, negb_false_iff, String.eqb_eq in Hh.
  apply bind_ok in Hl as (profile & Hm & Hl). apply bind_ok in Hl as (readings & Hr & Hl).
  apply bind_ok in Hl as (a & Ha & Hl). apply bind_ok in Hl as (b & Hb & Hl). apply ok_inj in Hl as <-.
  assert (profile_fields_ok profile = true /\ validate_vector profile = Ok tt) as [Hf Hv].
  { unfold model_validate in Hm. destruct (decode_profile payload) as [q|]; [|done].
    destruct (profile_fields_ok q) eqn:Eq; [|done]. cbn in Hm.
    destruct (validate_vector q) as [[]|e] eqn:Ev; [injection Hm as <-; done|]. by case_bool_decide; destruct e. }
  destruct (valid_vector_tiles _ Hf Hv) as [Ht Hsum].
  assert (readings = canonical_of <$> sp_readings profile) as ->.
  { apply mapM_ok in Hr. clear -Hr. induction Hr as [|x y l k Hxy _ IH]; [done|]. rewrite fmap_cons. f_equal; [|done].
    apply bind_ok in Hxy as (s & Hs & Hy). apply ok_inj in Hy as <-. unfold canonical_of, start_of. by rewrite Hs. }
  cbn [lp_artifact_path lp_artifact_sha256 lp_content pc_interval_resolution_seconds pc_billing_period_start_utc_ns
       pc_billing_period_end_utc_ns pc_readings].
  destruct (canonical_of <$> sp_readings profile) as [|r l] eqn:El; [done|]. injection Ha as <-.
  destruct (last (r :: l)) as [z|] eqn:Ez; [|done]. injection Hb as <-.
  pose proof (tiles_head _ _ _ _ _ Ht) as Ea. pose proof (tiles_last _ _ _ _ _ Ht Ez) as Eb.
  rewrite <-Ea, <-Eb. split_and!; [|done|done|done|].
  - exists payload. rewrite Hlock. split_and!; congruence.
  - rewrite <-El. unfold sum_by in *. rewrite <-list_fmap_compose.
    replace (zsum (ProfileHash.cr_energy_wh ∘ canonical_of <$> sp_readings profile)) with (sp_total_energy_wh profile).
    unfold profile_fields_ok in Hf. bools. lia.
Qed.

(** Two readings that cover the window. *)
Section Example.
Local Existing Instance toy_sha256.
Definition example_profile : SimulatedProfile :=
  {| sp_profile_schema_version := "simulated-profile-v1"; sp_label := "SIMULATED July";
     sp_tariff_timezone := "America/Los_Angeles"; sp_interval_resolution_seconds := 1339200;
     sp_service_window_local := ("2026-07-01", "2026-08-01"); sp_source_timezone_interpretation := "UTC";
     sp_total_energy_wh := 30; sp_transformation := "scaled";
     sp_readings := [{| sr_start_utc := "2026-07-01T07:00:00Z"; sr_duration_seconds := 1339200; sr_energy_wh := 10 |};
                     {| sr_start_utc := "2026-07-16T19:00:00Z"; sr_duration_seconds := 1339200; sr_energy_wh := 20 |}] |}.
Local Instance example_files : Files :=
  {| read_bytes path := if String.eqb path "data/demo/profile.lock.json" then Some "lock" else Some "profile";
     load_json _ := Some (JObj [("artifact_path", JStr "data/demo/p.json"); ("artifact_sha256", JStr "7")]);
     decode_profile _ := Some example_profile |}.
Lemma simulated_profile_tiles_witness :
  exists p, load_locked_simulated_profile = Ok p
    /\ pc_billing_period_start_utc_ns (lp_content p) = 1782889200 * NS_PER_SECOND.
Proof.
  destruct load_locked_simulated_profile as [p|] eqn:E; [|vm_compute in E; discriminate E].
  exists p. split; [reflexivity|]. exact (proj1 (proj2 (proj2 (simulated_profile_tiles p E)))).
Defined.
End Example.
