(* ===== verification/Database.v ===== *)
(** * Database: the relational records of the job system (persistence/models.py)

    A table is the list of its rows in the order the database returns them, so
    a theorem about every table is one about every row order.  [row_id] is the
    primary key; a session reads a row with [table_get] and writes the mutated
    object back with [table_put].  Instants are UTC microseconds.  A column that
    a check constraint restricts to an enumeration is an inductive type. *)

From S2P Require Import Prelude Calendar Json.

(** ** Tables *)
Class Row (A : Type) := row_id : A -> string.

Section Table.
Context {A : Type} `{Row A}.
Implicit Types (t : list A) (r : A).

(** [database.get(Record, id)]. *)
Fixpoint table_get (id : string) t : option A :=
  match t with
  | [] => None
  | r :: t' => if decide (row_id r = id) then Some r else table_get id t'
  end.

(** Flushing a mutated object: the row with its key takes its values. *)
Definition table_put r t : list A :=
  (fun r' => if decide (row_id r' = row_id r) then r else r') <$> t.

Definition table_put_opt (o : option A) t : list A :=
  match o with Some r => table_put r t | None => t end.

(** [database.add(row)]: the primary key is unique. *)
Definition table_add r t : result (list A) :=
  _ ← raise_if (mem (row_id r) (row_id <$> t)) (PyError "IntegrityError"); Ok (t ++ [r]).

(** [delete(Record).where(...)]. *)
Definition table_delete (p : A -> bool) t : list A := List.filter (fun r => negb (p r)) t.

Lemma table_get_elem id t r : table_get id t = Some r -> r ∈ t /\ row_id r = id.
Proof. induction t as [|r' t IH]; simpl; [done|]. case_decide; [intros [= ->]|]; set_solver. Qed.

Lemma table_get_None id t : table_get id t = None <-> id ∉ row_id <$> t.
Proof. induction t as [|r' t IH]; simpl; [set_solver|]. case_decide; set_solver. Qed.

Lemma table_elem_get t r : NoDup (row_id <$> t) -> r ∈ t -> table_get (row_id r) t = Some r.
Proof.
  induction t as [|r' t IH]; simpl; [set_solver|]. intros [Hr' Ht]%NoDup_cons Hr.
  apply elem_of_cons in Hr as [->|Hr]; [by rewrite decide_True|].
  rewrite decide_False; [by apply IH|]. intros E. apply Hr'. rewrite E. apply list_elem_of_fmap. eauto.
Qed.

Lemma table_put_ids r t : row_id <$> table_put r t = row_id <$> t.
Proof.
  unfold table_put. rewrite <- list_fmap_compose. apply list_fmap_ext. intros i x _. simpl.
  by case_decide.
Qed.

Lemma table_get_put r t id :
  table_get id (table_put r t) =
  if decide (row_id r = id) then (if decide (id ∈ row_id <$> t) then Some r else None)
  else table_get id t.
Proof.
  unfold table_put. induction t as [|r' t IH].
  - simpl. repeat case_decide; set_solver.
  - rewrite !fmap_cons. cbn [table_get]. rewrite IH. destruct (decide (row_id r' = row_id r)) as [E|E]; repeat case_decide; set_solver.
Qed.

Lemma table_get_put_eq r t r0 : table_get (row_id r) t = Some r0 -> table_get (row_id r) (table_put r t) = Some r.
Proof.
  intros Hg. rewrite table_get_put, !decide_True; [done| |done].
  destruct (decide (row_id r ∈ row_id <$> t)) as [|Hn]; [done|]. apply table_get_None in Hn. congruence.
Qed.

Lemma table_get_put_ne r t id : row_id r <> id -> table_get id (table_put r t) = table_get id t.
Proof. intros Hne. by rewrite table_get_put, decide_False. Qed.

Lemma elem_of_table_put r t x : x ∈ table_put r t -> x = r \/ (x ∈ t /\ row_id x <> row_id r).
Proof.
  unfold table_put. intros (y & -> & Hy)%list_elem_of_fmap. case_decide; auto.
Qed.

Lemma table_add_ok r t t' : table_add r t = Ok t' <-> row_id r ∉ row_id <$> t /\ t' = t ++ [r].
Proof.
  unfold table_add. destruct (mem (row_id r) (row_id <$> t)) eqn:E; simpl; bools.
  - naive_solver.
  - split; [intros [= <-]|intros [_ ->]]; done.
Qed.

Lemma table_get_snoc id t r :
  row_id r ∉ row_id <$> t -> table_get id (t ++ [r]) =
  if decide (row_id r = id) then Some r else table_get id t.
Proof.
  induction t as [|r' t IH]; simpl; [done|]. intros Hr. rewrite IH by set_solver.
  repeat case_decide; set_solver.
Qed.
End Table.

#[global] Arguments table_put : simpl never.

(** ** Lifecycles *)
Inductive RowLifecycle := LC_ACTIVE | LC_DELETION_PENDING_LEDGER | LC_DELETING | LC_DELETED.
#[export] Instance RowLifecycle_eq_dec : EqDecision RowLifecycle.
Proof. solve_decision. Defined.

(** ** Records *)
Record UserRecord := {
  usr_id : string;
  username_canonical : string;
  password_hash : string;
  usr_created_at : Z;
  usr_lifecycle_state : RowLifecycle;
  usr_lifecycle_generation : Z;
  usr_deletion_scope_id : string
}.
#[export] Instance UserRecord_row : Row UserRecord := usr_id.

Inductive ImportState := IMP_QUEUED | IMP_PROCESSING | IMP_READY | IMP_CONFIRMED | IMP_FAILED | IMP_DELETED.
#[export] Instance ImportState_eq_dec : EqDecision ImportState.
Proof. solve_decision. Defined.

Record ImportRecord := {
  imp_id : string;
  imp_owner_user_id : string;
  imp_state : ImportState;
  imp_lifecycle_state : RowLifecycle;
  imp_lifecycle_generation : Z;
  imp_deletion_scope_id : string;
  imp_adapter : string;
  raw_content_hash : string;
  imp_created_at : Z;
  imp_published_at : option Z;
  imp_confirmed_at : option Z;
  imp_failure_code : option string;
  imp_profile_version_id : option string
}.
#[export] Instance ImportRecord_row : Row ImportRecord := imp_id.

(** [imported.state = state; imported.failure_code = code]. *)
Definition set_import_state (state : ImportState) (code : option string) (i : ImportRecord) : ImportRecord :=
  {| imp_id := imp_id i; imp_owner_user_id := imp_owner_user_id i; imp_state := state;
     imp_lifecycle_state := imp_lifecycle_state i; imp_lifecycle_generation := imp_lifecycle_generation i;
     imp_deletion_scope_id := imp_deletion_scope_id i; imp_adapter := imp_adapter i;
     raw_content_hash := raw_content_hash i; imp_created_at := imp_created_at i;
     imp_published_at := imp_published_at i; imp_confirmed_at := imp_confirmed_at i;
     imp_failure_code := code; imp_profile_version_id := imp_profile_version_id i |}.

Record ProfileVersionRecord := {
  pv_id : string;
  pv_owner_user_id : string;
  pv_import_id : string;
  pv_content_hash : string;
  canonical_content : string;
  pv_billing_period_start_utc_ns : Z;
  pv_billing_period_end_utc_ns : Z;
  pv_tariff_timezone : string;
  pv_interval_resolution_seconds : Z;
  pv_lifecycle_state : RowLifecycle;
  pv_lifecycle_generation : Z;
  pv_deletion_scope_id : string;
  pv_created_at : Z
}.
#[export] Instance ProfileVersionRecord_row : Row ProfileVersionRecord := pv_id.

Inductive JobState := QUEUED | LEASED | RUNNING | SUCCEEDED | FAILED | CANCELLED.
#[export] Instance JobState_eq_dec : EqDecision JobState.
Proof. solve_decision. Defined.

(** The columns of a job row that are written once, when it is submitted. *)
Record JobSubmission := {
  job_id : string;
  job_owner_user_id : option string;
  job_kind : string;
  job_request_schema_version : string;
  job_request_hash : string;
  job_scope_mode : string;
  job_request_json : string;
  job_import_id : option string;
  job_profile_version_id : option string;
  captured_account_generation : Z;
  captured_import_generation : option Z;
  captured_profile_generation : option Z;
  max_attempts : Z;
  requested_semantic_hash : option string;
  calculation_contract_version : option string;
  job_created_at : Z
}.

(** A job row: the submitted columns and the ones execution updates. *)
Record JobRecord := {
  job_submission :> JobSubmission;
  job_state : JobState;
  attempt_count : Z;
  fencing_generation : Z;
  lease_owner : option string;
  lease_acquired_at : option Z;
  lease_expires_at : option Z;
  heartbeat_at : option Z;
  not_before : Z;
  cancel_requested : bool;
  job_failure_code : option string;
  terminal_result_type : option string;
  terminal_result_id : option string;
  terminal_semantic_hash : option string;
  job_completed_at : option Z
}.
#[export] Instance JobRecord_row : Row JobRecord := fun j => job_id j.

Inductive AttemptState := ATT_LEASED | ATT_RUNNING | ATT_SUCCEEDED | ATT_FAILED | ATT_CANCELLED | ATT_EXPIRED.
#[export] Instance AttemptState_eq_dec : EqDecision AttemptState.
Proof. solve_decision. Defined.

Record JobAttemptRecord := {
  att_id : string;
  att_job_id : string;
  attempt_number : Z;
  att_fencing_generation : Z;
  att_worker_id : string;
  att_state : AttemptState;
  leased_at : Z;
  att_lease_expires_at : Z;
  att_completed_at : option Z;
  att_failure_code : option string
}.
#[export] Instance JobAttemptRecord_row : Row JobAttemptRecord := att_id.

Record AuditEventRecord := {
  ev_id : string;
  ev_owner_user_id : option string;
  ev_schema_version : string;
  ev_event_type : string;
  ev_subject_type : string;
  ev_subject_id : string;
  ev_sequence : Z;
  ev_outcome : string;
  ev_recorded_at : Z;
  ev_event_hash : string
}.
#[export] Instance AuditEventRecord_row : Row AuditEventRecord := ev_id.

(** ** The tables the job system touches *)
Record Database := {
  users : list UserRecord;
  imports : list ImportRecord;
  profile_versions : list ProfileVersionRecord;
  jobs : list JobRecord;
  job_attempts : list JobAttemptRecord;
  audit_events : list AuditEventRecord
}.

(** Flushing the objects a transaction changed. *)
Definition write_jobs (db : Database) (job : JobRecord) (imported : option ImportRecord)
    (attempt : option JobAttemptRecord) (events : list AuditEventRecord) : Database :=
  {| users := users db; imports := table_put_opt imported (imports db);
     profile_versions := profile_versions db; jobs := table_put job (jobs db);
     job_attempts := table_put_opt attempt (job_attempts db); audit_events := events |}.

(** [with session_factory.begin()]: an exception rolls the transaction back. *)
Definition transaction {A} (body : Database -> result (Database * A)) (db : Database) : Database * result A :=
  match body db with
  | Ok (db', a) => (db', Ok a)
  | Raise e => (db, Raise e)
  end.
