(* ===== verification/AuditLog.v ===== *)
(** * Audit: append-only audit events (persistence/audit.py)

    [append_audit_event] adds one content-hashed event per transition, and is
    idempotent: the same transition is recorded once.  [secrets.token_hex] is
    random, so the drawn token is an argument. *)

From S2P Require Import Prelude Calendar Json Database.

Definition AUDIT_SCHEMA_VERSION : string := "ratereplay-audit-event-v1".

(** [[A-Za-z0-9_-]{1,64}]. *)
Definition subject_char (c : Ascii.ascii) : bool :=
  let n := Ascii.N_of_ascii c in
  ((65 <=? n) && (n <=? 90) || (97 <=? n) && (n <=? 122) || (48 <=? n) && (n <=? 57)
   || (n =? 95) || (n =? 45))%N.
Definition AUDIT_SUBJECT_PATTERN (s : string) : bool :=
  forallb subject_char (String.list_ascii_of_string s)
  && (1 <=? String.length s)%nat && (String.length s <=? 64)%nat.

Section Audit.
Context `{Sha256}.

Definition event_hash (event_id : string) (owner_user_id : option string)
    (event_type subject_type subject_id : string) (sequence : Z) (outcome : string) (recorded_at : Z)
    : string :=
  sha256_hex ("RateReplay.AuditEvent.v1" +:+ chr 0 +:+ ascii_json_bytes (JObj [
    ("event_id", JStr event_id); ("event_type", JStr event_type); ("outcome", JStr outcome);
    ("owner_user_id", jopt JStr owner_user_id); ("recorded_at", JStr (datetime_isoformat recorded_at));
    ("schema_version", JStr AUDIT_SCHEMA_VERSION); ("sequence", JInt sequence);
    ("subject_id", JStr subject_id); ("subject_type", JStr subject_type)])).

Definition verify_audit_event (e : AuditEventRecord) : bool :=
  if negb (String.eqb (ev_schema_version e) AUDIT_SCHEMA_VERSION) then false
  else String.eqb (ev_event_hash e)
         (event_hash (ev_id e) (ev_owner_user_id e) (ev_event_type e) (ev_subject_type e)
            (ev_subject_id e) (ev_sequence e) (ev_outcome e) (ev_recorded_at e)).

(** The columns of the unique constraint [uq_audit_event_transition]. *)
Definition transition_key (e : AuditEventRecord) : option string * string * string * string * Z :=
  (ev_owner_user_id e, ev_event_type e, ev_subject_type e, ev_subject_id e, ev_sequence e).

Definition append_audit_event (owner_user_id : option string)
    (event_type subject_type subject_id : string) (sequence : Z) (outcome : string) (now : Z)
    (token : string) (events : list AuditEventRecord)
    : result (AuditEventRecord * list AuditEventRecord) :=
  _ ← raise_if (match owner_user_id with Some o => negb (py_len o =? 32) | None => false end)
        (AuditEventError "Audit owner identifier is invalid");
  _ ← raise_if (negb (AUDIT_SUBJECT_PATTERN subject_id))
        (AuditEventError "Audit subject identifier is invalid");
  _ ← raise_if (sequence <? 0) (AuditEventError "Audit event sequence cannot be negative");
  match List.find (fun e => bool_decide (transition_key e =
                      (owner_user_id, event_type, subject_type, subject_id, sequence))) events with
  | Some existing =>
      _ ← raise_if (negb (String.eqb (ev_outcome existing) outcome) || negb (verify_audit_event existing))
            (AuditEventError "Existing audit transition conflicts with the requested event");
      Ok (existing, events)
  | None =>
      let event := {| ev_id := token; ev_owner_user_id := owner_user_id;
                      ev_schema_version := AUDIT_SCHEMA_VERSION; ev_event_type := event_type;
                      ev_subject_type := subject_type; ev_subject_id := subject_id;
                      ev_sequence := sequence; ev_outcome := outcome; ev_recorded_at := now;
                      ev_event_hash := event_hash token owner_user_id event_type subject_type
                                         subject_id sequence outcome now |} in
      events' ← table_add event events;
      Ok (event, events')
  end.

(** ** The log *)

(** Every event verifies, and no transition is recorded twice. *)
Definition audit_ok (events : list AuditEventRecord) : Prop :=
  Forall (fun e => verify_audit_event e = true) events
  /\ NoDup (transition_key <$> events) /\ NoDup (ev_id <$> events).

Lemma fresh_event_verifies token o ty st sid seq out now :
  verify_audit_event
    {| ev_id := token; ev_owner_user_id := o; ev_schema_version := AUDIT_SCHEMA_VERSION;
       ev_event_type := ty; ev_subject_type := st; ev_subject_id := sid; ev_sequence := seq;
       ev_outcome := out; ev_recorded_at := now;
       ev_event_hash := event_hash token o ty st sid seq out now |} = true.
Proof. unfold verify_audit_event. simpl. by rewrite String.eqb_refl. Qed.

(** What appending does to the log: it is unchanged when the transition is
    recorded already, and gets one verified event otherwise. *)
Lemma append_audit_event_ok o ty st sid seq out now token events e events' :
  append_audit_event o ty st sid seq out now token events = Ok (e, events') ->
  transition_key e = (o, ty, st, sid, seq) /\ ev_outcome e = out /\ verify_audit_event e = true
  /\ ((e ∈ events /\ events' = events)
      \/ (events' = events ++ [e] /\ (transition_key e ∉ (transition_key <$> events))
          /\ (ev_id e ∉ (ev_id <$> events)))).
Proof.
  unfold append_audit_event. intros Ha.
  do 3 apply bind_ok in Ha as (_ & _ & Ha). destruct (List.find _ events) as [x|] eqn:Hf.
  - apply List.find_some in Hf as [Hin Hk]. apply bind_ok in Ha as ([] & Hc & [= <- <-]).
    apply raise_if_ok in Hc. bools. apply list_elem_of_In in Hin.
    repeat split; [done|by apply String.eqb_eq|done|by left].
  - apply bind_ok in Ha as (t & [Hid ->]%table_add_ok & [= <- <-]).
    repeat split; [apply fresh_event_verifies|]. right. repeat split; [|done].
    intros (x & Hx & Hin)%list_elem_of_fmap. apply list_elem_of_In in Hin.
    pose proof (List.find_none _ _ Hf x Hin) as Hn. simpl in Hn. bools. by apply Hn.
Qed.

Lemma append_audit_event_audit_ok o ty st sid seq out now token events e events' :
  audit_ok events -> append_audit_event o ty st sid seq out now token events = Ok (e, events') ->
  audit_ok events'.
Proof.
  intros (Hv & Hk & Hi) (_ & _ & Hve & [[_ ->]|(-> & Hnk & Hni)])%append_audit_event_ok; [done|].
  repeat split; [apply Forall_app; by split; [|constructor]|by apply NoDup_fmap_snoc|by apply NoDup_fmap_snoc].
Qed.

(** Appending the same transition again changes nothing. *)
Lemma append_audit_event_idempotent o ty st sid seq out now token now' token' events e events' :
  audit_ok events -> append_audit_event o ty st sid seq out now token events = Ok (e, events') ->
  append_audit_event o ty st sid seq out now' token' events' = Ok (e, events').
Proof.
  intros Hok Ha. pose proof (append_audit_event_audit_ok _ _ _ _ _ _ _ _ _ _ _ Hok Ha) as (_ & Hnd & _).
  pose proof (append_audit_event_ok _ _ _ _ _ _ _ _ _ _ _ Ha) as (Hke & Hout & Hve & Hin).
  assert (e ∈ events') as He by (destruct Hin as [[? ->]|[-> _]]; set_solver).
  unfold append_audit_event in Ha |- *.
  apply bind_ok in Ha as ([] & -> & Ha); simpl. apply bind_ok in Ha as ([] & -> & Ha); simpl.
  apply bind_ok in Ha as ([] & -> & Ha); simpl.
  destruct (List.find _ events') as [x|] eqn:Hf.
  - apply List.find_some in Hf as [Hx Hkx]. bools. apply list_elem_of_In in Hx.
    assert (x = e) as ->.
    { eapply (NoDup_fmap_elem transition_key); [exact Hnd|done|done|congruence]. }
    by rewrite Hout, String.eqb_refl, Hve.
  - pose proof (List.find_none _ _ Hf e (proj1 (list_elem_of_In _ _) He)) as Hn. simpl in Hn. bools. done.
Qed.
End Audit.
