(* ===== verification/Jobs.v ===== *)
(** * Jobs: leased job execution (persistence/jobs.py)

    [JobService] over the tables of [Database]: leasing with attempt fencing,
    heartbeats, bounded retry, cancellation and rescue of expired leases.  A
    method is a function of the database; each of its transactions is atomic.
    The random identifiers a method draws are arguments. *)

From S2P Require Import Prelude Calendar Json Float Database AuditLog.

(** [timedelta(seconds=20)], in microseconds. *)
Definition LEASE_DURATION : Z := 20 * US_PER_SECOND.
(** [RETRY_BASE.total_seconds()]. *)
Definition RETRY_BASE_SECONDS : float := float_of_int 2.

Record JobDefinition := {
  jd_kind : string; jd_scope_mode : string; requires_import : bool; requires_profile : bool
}.

Definition JOB_DEFINITIONS : dict string JobDefinition :=
  (fun d => (jd_kind d, d)) <$>
  [ {| jd_kind := "IMPORT"; jd_scope_mode := "ACTIVE_SCOPE"; requires_import := true; requires_profile := false |};
    {| jd_kind := "REPLAY"; jd_scope_mode := "ACTIVE_SCOPE"; requires_import := true; requires_profile := true |};
    {| jd_kind := "COMPARISON"; jd_scope_mode := "ACTIVE_SCOPE"; requires_import := true; requires_profile := true |};
    {| jd_kind := "SCENARIO"; jd_scope_mode := "ACTIVE_SCOPE"; requires_import := true; requires_profile := true |};
    {| jd_kind := "REPORT"; jd_scope_mode := "ACTIVE_SCOPE"; requires_import := true; requires_profile := true |};
    {| jd_kind := "RETENTION"; jd_scope_mode := "SYSTEM_SCOPE"; requires_import := false; requires_profile := false |};
    {| jd_kind := "DELETION"; jd_scope_mode := "DELETING_SCOPE"; requires_import := false; requires_profile := false |} ].

Record JobLease := {
  l_job_id : string;
  l_import_id : option string;
  l_worker_id : string;
  l_attempt_number : Z;
  l_fencing_generation : Z;
  l_lease_expires_at : Z;
  l_kind : string;
  l_profile_version_id : option string;
  l_scope_mode : string
}.

Record JobOperationalSnapshot := {
  snap_kind : string; queue_depth : Z; oldest_lease_age_seconds : float; retry_attempts : Z
}.

(** ** Assignments to a job row *)
Definition set_state (s : JobState) (j : JobRecord) : JobRecord :=
  {| job_submission := job_submission j; job_state := s; attempt_count := attempt_count j;
     fencing_generation := fencing_generation j; lease_owner := lease_owner j;
     lease_acquired_at := lease_acquired_at j; lease_expires_at := lease_expires_at j;
     heartbeat_at := heartbeat_at j; not_before := not_before j; cancel_requested := cancel_requested j;
     job_failure_code := job_failure_code j; terminal_result_type := terminal_result_type j;
     terminal_result_id := terminal_result_id j; terminal_semantic_hash := terminal_semantic_hash j;
     job_completed_at := job_completed_at j |}.
(** [lease_owner = None; lease_expires_at = None]. *)
Definition clear_lease (j : JobRecord) : JobRecord :=
  {| job_submission := job_submission j; job_state := job_state j; attempt_count := attempt_count j;
     fencing_generation := fencing_generation j; lease_owner := None;
     lease_acquired_at := lease_acquired_at j; lease_expires_at := None;
     heartbeat_at := heartbeat_at j; not_before := not_before j; cancel_requested := cancel_requested j;
     job_failure_code := job_failure_code j; terminal_result_type := terminal_result_type j;
     terminal_result_id := terminal_result_id j; terminal_semantic_hash := terminal_semantic_hash j;
     job_completed_at := job_completed_at j |}.
(** [failure_code = code; completed_at = now]. *)
Definition set_outcome (code : option string) (now : Z) (j : JobRecord) : JobRecord :=
  {| job_submission := job_submission j; job_state := job_state j; attempt_count := attempt_count j;
     fencing_generation := fencing_generation j; lease_owner := lease_owner j;
     lease_acquired_at := lease_acquired_at j; lease_expires_at := lease_expires_at j;
     heartbeat_at := heartbeat_at j; not_before := not_before j; cancel_requested := cancel_requested j;
     job_failure_code := code; terminal_result_type := terminal_result_type j;
     terminal_result_id := terminal_result_id j; terminal_semantic_hash := terminal_semantic_hash j;
     job_completed_at := Some now |}.
Definition set_not_before (t : Z) (j : JobRecord) : JobRecord :=
  {| job_submission := job_submission j; job_state := job_state j; attempt_count := attempt_count j;
     fencing_generation := fencing_generation j; lease_owner := lease_owner j;
     lease_acquired_at := lease_acquired_at j; lease_expires_at := lease_expires_at j;
     heartbeat_at := heartbeat_at j; not_before := t; cancel_requested := cancel_requested j;
     job_failure_code := job_failure_code j; terminal_result_type := terminal_result_type j;
     terminal_result_id := terminal_result_id j; terminal_semantic_hash := terminal_semantic_hash j;
     job_completed_at := job_completed_at j |}.
(** [heartbeat_at = now; lease_expires_at = expires]. *)
Definition set_heartbeat (now expires : Z) (j : JobRecord) : JobRecord :=
  {| job_submission := job_submission j; job_state := job_state j; attempt_count := attempt_count j;
     fencing_generation := fencing_generation j; lease_owner := lease_owner j;
     lease_acquired_at := lease_acquired_at j; lease_expires_at := Some expires;
     heartbeat_at := Some now; not_before := not_before j; cancel_requested := cancel_requested j;
     job_failure_code := job_failure_code j; terminal_result_type := terminal_result_type j;
     terminal_result_id := terminal_result_id j; terminal_semantic_hash := terminal_semantic_hash j;
     job_completed_at := job_completed_at j |}.
Definition set_cancel_requested (j : JobRecord) : JobRecord :=
  {| job_submission := job_submission j; job_state := job_state j; attempt_count := attempt_count j;
     fencing_generation := fencing_generation j; lease_owner := lease_owner j;
     lease_acquired_at := lease_acquired_at j; lease_expires_at := lease_expires_at j;
     heartbeat_at := heartbeat_at j; not_before := not_before j; cancel_requested := true;
     job_failure_code := job_failure_code j; terminal_result_type := terminal_result_type j;
     terminal_result_id := terminal_result_id j; terminal_semantic_hash := terminal_semantic_hash j;
     job_completed_at := job_completed_at j |}.
(** The assignments of [lease_next] that grant the lease. *)
Definition grant_lease (worker_id : string) (now expires : Z) (j : JobRecord) : JobRecord :=
  {| job_submission := job_submission j; job_state := LEASED; attempt_count := attempt_count j + 1;
     fencing_generation := fencing_generation j + 1; lease_owner := Some worker_id;
     lease_acquired_at := Some now; lease_expires_at := Some expires; heartbeat_at := Some now;
     not_before := not_before j; cancel_requested := cancel_requested j;
     job_failure_code := job_failure_code j; terminal_result_type := terminal_result_type j;
     terminal_result_id := terminal_result_id j; terminal_semantic_hash := terminal_semantic_hash j;
     job_completed_at := job_completed_at j |}.

(** An attempt row with its state and outcome columns replaced. *)
Definition set_attempt (s : AttemptState) (code : option string) (completed : option Z)
    (a : JobAttemptRecord) : JobAttemptRecord :=
  {| att_id := att_id a; att_job_id := att_job_id a; attempt_number := attempt_number a;
     att_fencing_generation := att_fencing_generation a; att_worker_id := att_worker_id a;
     att_state := s; leased_at := leased_at a; att_lease_expires_at := att_lease_expires_at a;
     att_completed_at := completed; att_failure_code := code |}.
Definition extend_attempt (expires : Z) (a : JobAttemptRecord) : JobAttemptRecord :=
  {| att_id := att_id a; att_job_id := att_job_id a; attempt_number := attempt_number a;
     att_fencing_generation := att_fencing_generation a; att_worker_id := att_worker_id a;
     att_state := att_state a; leased_at := leased_at a; att_lease_expires_at := expires;
     att_completed_at := att_completed_at a; att_failure_code := att_failure_code a |}.

(** ** Scopes *)

(** The value of a nullable column when it is truthy. *)
Definition truthy_id (o : option string) : option string :=
  match o with Some s => if String.eqb s EmptyString then None else Some s | None => None end.

Definition load_scope (db : Database) (job : JobRecord)
    : option UserRecord * option ImportRecord * option ProfileVersionRecord :=
  (o ← truthy_id (job_owner_user_id job); table_get o (users db),
   i ← truthy_id (job_import_id job); table_get i (imports db),
   p ← truthy_id (job_profile_version_id job); table_get p (profile_versions db)).

Definition deletion_scope_is_valid (job : JobRecord) (user : option UserRecord)
    (imported : option ImportRecord) (profile : option ProfileVersionRecord) : bool :=
  match user with
  | None => false
  | Some u =>
      if negb (usr_lifecycle_generation u =? captured_account_generation job) then false
      else if String.eqb (job_request_schema_version job) "account-deletion-v1" then
        bool_decide (usr_lifecycle_state u = LC_DELETING)
        && bool_decide (job_import_id job = None)
        && bool_decide (job_profile_version_id job = None)
        && bool_decide (captured_import_generation job = None)
        && bool_decide (captured_profile_generation job = None)
      else if negb (bool_decide (usr_lifecycle_state u = LC_ACTIVE)) then false
      else if String.eqb (job_request_schema_version job) "import-deletion-v1" then
        match imported with
        | Some i =>
            bool_decide (imp_owner_user_id i = usr_id u)
            && bool_decide (imp_lifecycle_state i = LC_DELETING)
            && bool_decide (Some (imp_lifecycle_generation i) = captured_import_generation job)
            && bool_decide (job_profile_version_id job = None)
            && bool_decide (captured_profile_generation job = None)
        | None => false
        end
      else if String.eqb (job_request_schema_version job) "profile-deletion-v1" then
        match imported, profile with
        | Some i, Some p =>
            bool_decide (imp_owner_user_id i = usr_id u)
            && bool_decide (imp_lifecycle_state i = LC_ACTIVE)
            && bool_decide (Some (imp_lifecycle_generation i) = captured_import_generation job)
            && bool_decide (pv_owner_user_id p = usr_id u)
            && bool_decide (pv_import_id p = imp_id i)
            && bool_decide (pv_lifecycle_state p = LC_DELETING)
            && bool_decide (Some (pv_lifecycle_generation p) = captured_profile_generation job)
        | _, _ => false
        end
      else false
  end.

Definition scope_is_valid (job : JobRecord) (definition : JobDefinition) (user : option UserRecord)
    (imported : option ImportRecord) (profile : option ProfileVersionRecord) : bool :=
  if negb (String.eqb (job_scope_mode job) (jd_scope_mode definition)) then false
  else if String.eqb (job_kind job) "DELETION" then deletion_scope_is_valid job user imported profile
  else if String.eqb (jd_scope_mode definition) "SYSTEM_SCOPE" then
    bool_decide (job_owner_user_id job = None)
    && bool_decide (job_import_id job = None)
    && bool_decide (job_profile_version_id job = None)
    && (captured_account_generation job =? 0)
    && bool_decide (captured_import_generation job = None)
    && bool_decide (captured_profile_generation job = None)
  else
    match user with
    | None => false
    | Some u =>
        if negb (usr_lifecycle_generation u =? captured_account_generation job) then false
        else
          let expected_lifecycle :=
            if String.eqb (jd_scope_mode definition) "ACTIVE_SCOPE" then LC_ACTIVE else LC_DELETING in
          if negb (bool_decide (usr_lifecycle_state u = expected_lifecycle)) then false
          else
            let import_ok :=
              if requires_import definition then
                match imported with
                | Some i =>
                    bool_decide (Some (imp_owner_user_id i) = job_owner_user_id job)
                    && bool_decide (imp_lifecycle_state i = LC_ACTIVE)
                    && bool_decide (Some (imp_lifecycle_generation i) = captured_import_generation job)
                | None => false
                end
              else bool_decide (job_import_id job = None)
                   && bool_decide (captured_import_generation job = None) in
            if negb import_ok then false
            else if requires_profile definition then
              match profile with
              | Some p =>
                  bool_decide (Some (pv_owner_user_id p) = job_owner_user_id job)
                  && bool_decide (Some (pv_import_id p) = job_import_id job)
                  && bool_decide (pv_lifecycle_state p = LC_ACTIVE)
                  && bool_decide (Some (pv_lifecycle_generation p) = captured_profile_generation job)
              | None => false
              end
            else bool_decide (job_profile_version_id job = None)
                 && bool_decide (captured_profile_generation job = None)
    end.

(** [definition is not None and _scope_is_valid(job, definition, *_load_scope(database, job))]. *)
Definition scope_ok (db : Database) (job : JobRecord) : bool :=
  match dict_get (job_kind job) JOB_DEFINITIONS with
  | None => false
  | Some definition =>
      let '(user, imported, profile) := load_scope db job in
      scope_is_valid job definition user imported profile
  end.
(** The import of [_load_scope]. *)
Definition scope_import (db : Database) (job : JobRecord) : option ImportRecord := (load_scope db job).1.2.

(** ** Helpers *)
Definition lease_matches (job : JobRecord) (lease : JobLease) : bool :=
  bool_decide (lease_owner job = Some (l_worker_id lease))
  && (fencing_generation job =? l_fencing_generation lease)
  && String.eqb (job_kind job) (l_kind lease)
  && String.eqb (job_scope_mode job) (l_scope_mode lease)
  && bool_decide (job_import_id job = l_import_id lease)
  && bool_decide (job_profile_version_id job = l_profile_version_id lease).

Definition lease_live (job : JobRecord) (now : Z) : bool :=
  match lease_expires_at job with Some expires => now <? expires | None => false end.

Definition terminal (s : JobState) : bool := mem s [SUCCEEDED; FAILED; CANCELLED].

Definition find_attempt (db : Database) (id : string) (generation : Z) : option JobAttemptRecord :=
  List.find (fun a => String.eqb (att_job_id a) id && (att_fencing_generation a =? generation))
    (job_attempts db).

(** [_finish_without_lease]. *)
Definition finish_without_lease (state : JobState) (code : string) (now : Z) (job : JobRecord) : JobRecord :=
  clear_lease (set_outcome (Some code) now (set_state state job)).

(** [if job.kind == 'IMPORT' and imported is not None: imported.state = state]. *)
Definition import_follows (job : JobRecord) (state : ImportState) (imported : option ImportRecord)
    : option ImportRecord :=
  i ← imported;
  if String.eqb (job_kind job) "IMPORT" then Some (set_import_state state (imp_failure_code i) i) else None.

(** [_mark_import_terminal]. *)
Definition mark_import_terminal (job : JobRecord) (imported : option ImportRecord) (code : option string)
    : option ImportRecord :=
  i ← imported;
  if String.eqb (job_kind job) "IMPORT" then Some (set_import_state IMP_FAILED code i) else None.

Definition hex_value (c : Ascii.ascii) : Z :=
  let n := Z.of_N (Ascii.N_of_ascii c) in
  if (48 <=? n) && (n <=? 57) then n - 48 else if (97 <=? n) && (n <=? 102) then n - 87 else 0.
(** [int.from_bytes(digest[:2], 'big')] of a hexadecimal digest. *)
Definition digest_prefix (hex : string) : Z :=
  foldl (fun acc c => acc * 16 + hex_value c) 0 (take 4 (String.list_ascii_of_string hex)).

(** [n.to_bytes(4, 'big')]. *)
Definition to_bytes4 (n : Z) : result string :=
  if (n <? 0) || (2 ^ 32 <=? n) then Raise (PyError "OverflowError")
  else Ok (chr (Z.to_N (n / 2 ^ 24)) +:+ chr (Z.to_N (n / 2 ^ 16 mod 256))
           +:+ chr (Z.to_N (n / 2 ^ 8 mod 256)) +:+ chr (Z.to_N (n mod 256))).

Section Service.
Context `{Sha256}.

(** Microseconds of [_retry_delay(job_id, attempt_count)]. *)
Definition retry_delay (id : string) (attempts : Z) : result Z :=
  let bounded_attempt := Z.min attempts 8 in
  let base_seconds := float_mul RETRY_BASE_SECONDS (float_pow2 (bounded_attempt - 1)) in
  count ← to_bytes4 attempts;
  let digest := sha256_hex ("RateReplay.RetryJitter.v1" +:+ chr 0 +:+ id +:+ count) in
  let jitter := int_truediv (digest_prefix digest) 65535 in
  let quarter := int_truediv 1 4 in
  Ok (timedelta_seconds (float_min (float_of_int 300)
        (float_mul base_seconds (float_add (float_of_int 1) (float_mul quarter jitter))))).

Definition job_event (event_type outcome : string) (job : JobRecord) (now : Z) (token : string)
    (events : list AuditEventRecord) : result (list AuditEventRecord) :=
  r ← append_audit_event (job_owner_user_id job) event_type "JOB" (job_id job)
        (fencing_generation job) outcome now token events;
  Ok r.2.

(** ** [rescue_expired] *)
Definition expired (now : Z) (job : JobRecord) : bool :=
  mem (job_state job) [LEASED; RUNNING]
  && match lease_expires_at job with Some expires => expires <=? now | None => false end.

Definition rescue_job (now : Z) (token : Z -> string) (st : Database * Z) (id : string)
    : result (Database * Z) :=
  let '(db, rescued) := st in
  match table_get id (jobs db) with
  | None => Ok st
  | Some job =>
      let imported := scope_import db job in
      let attempt := set_attempt ATT_EXPIRED (Some "LEASE_EXPIRED") (Some now)
                       <$> find_attempt db (job_id job) (fencing_generation job) in
      let '(job', imported', event_type, outcome) :=
        if negb (scope_ok db job) then
          (set_outcome (Some "SCOPE_FENCED") now (set_state CANCELLED job), None,
           "JOB_CANCELLED", "CANCELLED")
        else if max_attempts job <=? attempt_count job then
          (set_outcome (Some "ATTEMPT_BUDGET_EXHAUSTED") now (set_state FAILED job),
           mark_import_terminal job imported (Some "ATTEMPT_BUDGET_EXHAUSTED"), "JOB_FAILED", "FAILED")
        else
          (set_not_before now (set_state QUEUED job), import_follows job IMP_QUEUED imported,
           "JOB_RETRY_SCHEDULED", "RETRY_SCHEDULED") in
      events ← job_event event_type outcome job' now (token rescued) (audit_events db);
      Ok (write_jobs db (clear_lease job') imported' attempt events, rescued + 1)
  end.

(** The selected rows are the session's objects; the loop visits each once. *)
Definition rescue_expired (now : Z) (token : Z -> string) (db : Database) : result (Database * Z) :=
  foldM (rescue_job now token) (db, 0) (row_id <$> List.filter (expired now) (jobs db)).

(** ** [lease_next] *)
Definition leasable (now : Z) (kinds : list string) (job : JobRecord) : bool :=
  bool_decide (job_state job = QUEUED) && (not_before job <=? now) && negb (cancel_requested job)
  && mem (job_kind job) kinds.

(** [ORDER BY created_at, id LIMIT 1]. *)
Definition job_key (j : JobRecord) : Z * string := (job_created_at j, row_id j).
Definition next_job (now : Z) (kinds : list string) (db : Database) : option JobRecord :=
  head (sorted_by job_key (List.filter (leasable now kinds) (jobs db))).

(** [database.add(JobAttemptRecord(...))] with its unique constraints. *)
Definition add_attempt (a : JobAttemptRecord) (attempts : list JobAttemptRecord)
    : result (list JobAttemptRecord) :=
  _ ← raise_if (existsb (fun b => String.eqb (att_job_id b) (att_job_id a)
                          && ((attempt_number b =? attempt_number a)
                              || (att_fencing_generation b =? att_fencing_generation a))) attempts)
        (PyError "IntegrityError");
  table_add a attempts.

Definition lease_of (job : JobRecord) (worker_id : string) (expires : Z) : JobLease :=
  {| l_job_id := job_id job; l_import_id := job_import_id job; l_worker_id := worker_id;
     l_attempt_number := attempt_count job; l_fencing_generation := fencing_generation job;
     l_lease_expires_at := expires; l_kind := job_kind job;
     l_profile_version_id := job_profile_version_id job; l_scope_mode := job_scope_mode job |}.

Definition attempt_of (job : JobRecord) (id worker_id : string) (now expires : Z) : JobAttemptRecord :=
  {| att_id := id; att_job_id := job_id job; attempt_number := attempt_count job;
     att_fencing_generation := fencing_generation job; att_worker_id := worker_id;
     att_state := ATT_LEASED; leased_at := now; att_lease_expires_at := expires;
     att_completed_at := None; att_failure_code := None |}.

(** The grant at the end of the loop body. *)
Definition grant (worker_id : string) (now : Z) (attempt_token event_token : string)
    (db : Database) (job : JobRecord) : result (Database * option JobLease) :=
  expires ← datetime_check (now + LEASE_DURATION);
  let job' := grant_lease worker_id now expires job in
  events ← job_event "JOB_LEASED" "LEASED" job' now event_token (audit_events db);
  attempts ← add_attempt (attempt_of job' attempt_token worker_id now expires) (job_attempts db);
  let db' := write_jobs db job' (import_follows job IMP_PROCESSING (scope_import db job)) None events in
  Ok ({| users := users db'; imports := imports db'; profile_versions := profile_versions db';
         jobs := jobs db'; job_attempts := attempts; audit_events := audit_events db' |},
      Some (lease_of job' worker_id expires)).

(** The [while True] loop; every turn but the last finishes a queued job. *)
Fixpoint lease_loop (fuel : nat) (worker_id : string) (now : Z) (kinds : list string)
    (attempt_token event_token : string) (db : Database) : result (Database * option JobLease) :=
  match next_job now kinds db with
  | None => Ok (db, None)
  | Some job =>
      match fuel with
      | O => Raise (PyError "FuelExhausted")
      | S fuel' =>
          let continue job' imported' :=
            lease_loop fuel' worker_id now kinds attempt_token event_token
              (write_jobs db job' imported' None (audit_events db)) in
          match dict_get (job_kind job) JOB_DEFINITIONS with
          | None => continue (finish_without_lease FAILED "UNKNOWN_JOB_KIND" now job) None
          | Some definition =>
              let '(user, imported, profile) := load_scope db job in
              if negb (scope_is_valid job definition user imported profile) then
                continue (finish_without_lease CANCELLED "SCOPE_FENCED" now job) None
              else if max_attempts job <=? attempt_count job then
                continue (finish_without_lease FAILED "ATTEMPT_BUDGET_EXHAUSTED" now job)
                  (mark_import_terminal job imported (Some "ATTEMPT_BUDGET_EXHAUSTED"))
              else grant worker_id now attempt_token event_token db job
          end
      end
  end.

Definition lease_next (worker_id : string) (now : Z) (kinds : option (list string))
    (rescue_token : Z -> string) (attempt_token event_token : string) (db : Database)
    : Database * result (option JobLease) :=
  match transaction (rescue_expired now rescue_token) db with
  | (db1, Raise e) => (db1, Raise e)
  | (db1, Ok _) =>
      let selected_kinds := default (JOB_DEFINITIONS.*1) kinds in
      if existsb (fun k => negb (mem k (JOB_DEFINITIONS.*1))) selected_kinds
      then (db1, Raise (PyError "ValueError"))
      else match selected_kinds with
           | [] => (db1, Ok None)
           | _ => transaction (lease_loop (length (jobs db1)) worker_id now selected_kinds
                                 attempt_token event_token) db1
           end
  end.

(** ** The holder's operations *)

(** [_conditional_state]. *)
Definition conditional_state (expected next : JobState) (next_attempt : AttemptState)
    (lease : JobLease) (now : Z) (db : Database) : result (Database * bool) :=
  match table_get (l_job_id lease) (jobs db) with
  | None => Ok (db, false)
  | Some job =>
      if negb (bool_decide (job_state job = expected) && lease_matches job lease && lease_live job now
               && negb (cancel_requested job) && scope_ok db job)
      then Ok (db, false)
      else
        let attempt := (fun a => set_attempt next_attempt (att_failure_code a) (att_completed_at a) a)
                         <$> find_attempt db (job_id job) (l_fencing_generation lease) in
        Ok (write_jobs db (set_state next job) None attempt (audit_events db), true)
  end.

Definition start (lease : JobLease) (now : Z) (db : Database) : Database * result bool :=
  transaction (conditional_state LEASED RUNNING ATT_RUNNING lease now) db.

Definition heartbeat (lease : JobLease) (now : Z) (db : Database) : Database * result bool :=
  transaction (fun db =>
    match table_get (l_job_id lease) (jobs db) with
    | None => Ok (db, false)
    | Some job =>
        if negb (mem (job_state job) [LEASED; RUNNING] && lease_matches job lease && lease_live job now
                 && scope_ok db job)
        then Ok (db, false)
        else
          expires ← datetime_check (now + LEASE_DURATION);
          let attempt := extend_attempt expires
                           <$> find_attempt db (job_id job) (l_fencing_generation lease) in
          Ok (write_jobs db (set_heartbeat now expires job) None attempt (audit_events db), true)
    end) db.

Definition fail (lease : JobLease) (code : string) (retryable : bool) (now : Z) (token : string)
    (db : Database) : Database * result bool :=
  transaction (fun db =>
    match table_get (l_job_id lease) (jobs db) with
    | None => Ok (db, false)
    | Some job =>
        if negb (mem (job_state job) [LEASED; RUNNING]) || negb (lease_matches job lease)
        then Ok (db, false)
        else
          let imported := scope_import db job in
          let attempt := find_attempt db (job_id job) (l_fencing_generation lease) in
          if negb (scope_ok db job) then
            let job' := set_outcome (Some "SCOPE_FENCED") now (set_state CANCELLED job) in
            events ← job_event "JOB_CANCELLED" "CANCELLED" job' now token (audit_events db);
            Ok (write_jobs db (clear_lease job') None
                  (set_attempt ATT_CANCELLED (Some "SCOPE_FENCED") (Some now) <$> attempt) events, true)
          else
            let attempt' := set_attempt ATT_FAILED (Some code) (Some now) <$> attempt in
            if retryable && (attempt_count job <? max_attempts job) then
              delay ← retry_delay (job_id job) (attempt_count job);
              again ← datetime_check (now + delay);
              let job' := set_not_before again (set_state QUEUED job) in
              events ← job_event "JOB_RETRY_SCHEDULED" "RETRY_SCHEDULED" job' now token (audit_events db);
              Ok (write_jobs db (clear_lease job') (import_follows job IMP_QUEUED imported) attempt' events, true)
            else
              let failure := if negb retryable then code else "ATTEMPT_BUDGET_EXHAUSTED" in
              let job' := set_outcome (Some failure) now (set_state FAILED job) in
              events ← job_event "JOB_FAILED" "FAILED" job' now token (audit_events db);
              Ok (write_jobs db (clear_lease job') (mark_import_terminal job imported (Some failure))
                    attempt' events, true)
    end) db.

(** [current_fenced_job]. *)
Definition current_fenced_job (lease : JobLease) (now : Z) (expected_states : list JobState) (db : Database)
    : option JobRecord :=
  job ← table_get (l_job_id lease) (jobs db);
  if mem (job_state job) expected_states && lease_matches job lease && lease_live job now
     && negb (cancel_requested job) && scope_ok db job
  then Some job else None.

Definition complete_system (lease : JobLease) (now : Z) (token : string) (db : Database)
    : Database * result bool :=
  if negb (String.eqb (l_kind lease) "RETENTION") || negb (String.eqb (l_scope_mode lease) "SYSTEM_SCOPE")
  then (db, Raise (PyError "ValueError"))
  else transaction (fun db =>
    match current_fenced_job lease now [RUNNING] db with
    | None => Ok (db, false)
    | Some job =>
        match find_attempt db (job_id job) (l_fencing_generation lease) with
        | None => Ok (db, false)
        | Some attempt =>
            let job' := set_outcome (job_failure_code job) now (set_state SUCCEEDED job) in
            events ← job_event "JOB_SUCCEEDED" "SUCCEEDED" job' now token (audit_events db);
            Ok (write_jobs db (clear_lease job') None
                  (Some (set_attempt ATT_SUCCEEDED (att_failure_code attempt) (Some now) attempt)) events, true)
        end
    end) db.

Definition cancel (owner_user_id id : string) (now : Z) (token : string) (db : Database)
    : Database * result bool :=
  transaction (fun db =>
    match table_get id (jobs db) with
    | Some job =>
        if negb (bool_decide (job_owner_user_id job = Some owner_user_id)) then Ok (db, false)
        else if terminal (job_state job) then Ok (db, true)
        else
          let job' := set_outcome (Some "CANCELLED_BY_OWNER") now
                        (set_state CANCELLED (set_cancel_requested job)) in
          events ← job_event "JOB_CANCELLED" "CANCELLED" job' now token (audit_events db);
          Ok (write_jobs db job' (mark_import_terminal job (scope_import db job) (Some "CANCELLED_BY_OWNER"))
                None events, true)
    | None => Ok (db, false)
    end) db.
End Service.

(** ** [operational_snapshots] *)
Definition min_opt (l : list Z) : option Z :=
  foldr (fun x o => Some (match o with Some y => Z.min x y | None => x end)) None l.

Definition snapshot (now : Z) (db : Database) (kind : string) : JobOperationalSnapshot :=
  let rows := List.filter (fun j => mem (job_state j) [QUEUED; LEASED; RUNNING]
                                    && String.eqb (job_kind j) kind) (jobs db) in
  {| snap_kind := kind;
     queue_depth := sum_by (fun j => if bool_decide (job_state j = QUEUED) then 1 else 0) rows;
     oldest_lease_age_seconds :=
       match min_opt (omap (fun j => if mem (job_state j) [LEASED; RUNNING]
                                     then lease_acquired_at j else None) rows) with
       | None => float_of_int 0
       | Some oldest =>
           float_max (float_of_int 0)
             (int_truediv (now - oldest) US_PER_SECOND)
       end;
     retry_attempts := sum_by (fun j => if 1 <? attempt_count j then attempt_count j - 1 else 0) rows |}.

Definition operational_snapshots (now : Z) (db : Database) : list JobOperationalSnapshot :=
  snapshot now db <$> py_sorted (JOB_DEFINITIONS.*1).
