(* ===== verification/JobsProofs.v ===== *)
(** * JobsProofs: fencing, bounded retry and rescue of leased jobs

    [db_ok] relates every job row to its attempt rows; each operation of the
    service preserves it.  A history is a sequence of operations by any number
    of workers ([execute]); the theorems are about every history. *)

From S2P Require Import Prelude Calendar Json Float Database AuditLog Jobs.

(** ** The invariant *)
Definition attempts_of (db : Database) (id : string) : list JobAttemptRecord :=
  List.filter (fun a => String.eqb (att_job_id a) id) (job_attempts db).

Definition attempt_open (a : JobAttemptRecord) : bool := mem (att_state a) [ATT_LEASED; ATT_RUNNING].

(** The last attempt is open, the earlier ones are closed. *)
Definition last_open (s : AttemptState) (owner : option string) (expires : option Z)
    (atts : list JobAttemptRecord) : Prop :=
  exists prev a, atts = prev ++ [a] /\ Forall (fun a => attempt_open a = false) prev
    /\ att_state a = s /\ owner = Some (att_worker_id a) /\ expires = Some (att_lease_expires_at a).

Definition all_closed (atts : list JobAttemptRecord) : Prop := Forall (fun a => attempt_open a = false) atts.

(** A job row agrees with its attempt rows: one per grant, numbered from one. *)
Record job_ok (j : JobRecord) (atts : list JobAttemptRecord) : Prop := {
  jo_generation : fencing_generation j = attempt_count j;
  jo_budget : 0 <= attempt_count j <= max_attempts j;
  jo_attempts : (fun a => (attempt_number a, att_fencing_generation a)) <$> atts
                = (fun n => (n, n)) <$> seqZ 1 (attempt_count j);
  jo_state : match job_state j with
             | QUEUED => attempt_count j < max_attempts j /\ lease_owner j = None /\ all_closed atts
             | LEASED => last_open ATT_LEASED (lease_owner j) (lease_expires_at j) atts
             | RUNNING => last_open ATT_RUNNING (lease_owner j) (lease_expires_at j) atts
             | SUCCEEDED | FAILED => all_closed atts
             | CANCELLED => all_closed (take (length atts - 1) atts)
             end
}.

(** Every job event in the log has the outcome of its type. *)
Definition JOB_OUTCOMES : list (string * string) :=
  [("JOB_LEASED", "LEASED"); ("JOB_RETRY_SCHEDULED", "RETRY_SCHEDULED"); ("JOB_SUCCEEDED", "SUCCEEDED");
   ("JOB_FAILED", "FAILED"); ("JOB_CANCELLED", "CANCELLED")].
Definition job_log_ok `{Sha256} (events : list AuditEventRecord) : Prop :=
  audit_ok events /\ Forall (fun e => ev_subject_type e = "JOB" ->
                       mem (ev_event_type e, ev_outcome e) JOB_OUTCOMES = true) events.

Record db_ok `{Sha256} (db : Database) : Prop := {
  do_jobs : NoDup (row_id <$> jobs db);
  do_attempts : NoDup (row_id <$> job_attempts db);
  do_owned : forall a, a ∈ job_attempts db -> att_job_id a ∈ (row_id <$> jobs db);
  do_job : forall j, j ∈ jobs db -> job_ok j (attempts_of db (job_id j));
  do_audit : job_log_ok (audit_events db)
}.

(** ** Attempt rows *)
Lemma attempts_of_elem db id a : a ∈ attempts_of db id <-> a ∈ job_attempts db /\ att_job_id a = id.
Proof.
  unfold attempts_of. rewrite !list_elem_of_In, filter_In, String.eqb_eq. done.
Qed.

Lemma find_filter {A} (p q : A -> bool) l : List.find (fun x => p x && q x) l = List.find q (List.filter p l).
Proof. induction l as [|x l IH]; simpl; [done|]. destruct (p x); simpl; [by rewrite IH|done]. Qed.

Lemma find_attempt_of db id g :
  find_attempt db id g = List.find (fun a => att_fencing_generation a =? g) (attempts_of db id).
Proof. apply find_filter. Qed.

Lemma filter_fmap_same {A} (p : A -> bool) (f : A -> A) l :
  (forall x, x ∈ l -> p (f x) = p x) -> List.filter p (f <$> l) = f <$> List.filter p l.
Proof.
  induction l as [|x l IH]; intros Hp; [done|]. rewrite fmap_cons. simpl.
  rewrite Hp, IH by set_solver. by destruct (p x).
Qed.

Lemma seqZ_snoc m n : 0 <= n -> seqZ m (n + 1) = seqZ m n ++ [m + n].
Proof. intros Hn. rewrite seqZ_app by lia. f_equal. Qed.

(** The attempts of a job whose last attempt carries its generation. *)
Lemma numbered_last atts n prev a :
  (fun a => (attempt_number a, att_fencing_generation a)) <$> atts = (fun n => (n, n)) <$> seqZ 1 n ->
  atts = prev ++ [a] -> att_fencing_generation a = n /\ n = Z.of_nat (length atts)
  /\ Forall (fun b => att_fencing_generation b < n) prev.
Proof.
  intros Hn ->. assert (n = Z.of_nat (length (prev ++ [a]))) as Hlen.
  { apply (f_equal length) in Hn. rewrite !length_fmap, length_seqZ, length_app in Hn. simpl in Hn.
    rewrite length_app. simpl. lia. }
  assert (forall i b, (prev ++ [a]) !! i = Some b -> att_fencing_generation b = 1 + Z.of_nat i) as Hi.
  { intros i b Hb. assert (((fun a => (attempt_number a, att_fencing_generation a)) <$> (prev ++ [a])) !! i
      = Some (attempt_number b, att_fencing_generation b)) as E by (rewrite list_lookup_fmap, Hb; done).
    rewrite Hn, list_lookup_fmap in E. destruct (seqZ 1 n !! i) as [m|] eqn:Em; [|done].
    apply lookup_seqZ in Em as [-> _]. simpl in E. congruence. }
  rewrite length_app in Hlen. simpl in Hlen. repeat split.
  - rewrite (Hi (length prev) a); [lia|]. by rewrite lookup_app_r, Nat.sub_diag by lia.
  - rewrite length_app. simpl. lia.
  - apply Forall_lookup. intros i b Hb. rewrite (Hi i b); [|by apply lookup_app_l_Some].
    apply lookup_lt_Some in Hb. lia.
Qed.

Lemma find_last atts n prev a :
  (fun a => (attempt_number a, att_fencing_generation a)) <$> atts = (fun n => (n, n)) <$> seqZ 1 n ->
  atts = prev ++ [a] -> List.find (fun a => att_fencing_generation a =? n) atts = Some a.
Proof.
  intros Hn Ha. destruct (numbered_last _ _ _ _ Hn Ha) as (Hg & _ & Hlt). subst atts. clear Hn.
  induction Hlt as [|b prev Hb _ IH]; simpl.
  - by rewrite Hg, Z.eqb_refl.
  - rewrite (proj2 (Z.eqb_neq _ _)) by lia. apply IH.
Qed.

Lemma find_none_numbered atts n g :
  (fun a => (attempt_number a, att_fencing_generation a)) <$> atts = (fun n => (n, n)) <$> seqZ 1 n ->
  n < g -> List.find (fun a => att_fencing_generation a =? g) atts = None.
Proof.
  intros Hn Hg. destruct (List.find _ atts) as [a|] eqn:Hf; [|done].
  apply List.find_some in Hf as [Ha Hag]. bools. apply list_elem_of_In in Ha.
  assert ((attempt_number a, att_fencing_generation a) ∈ ((fun n => (n, n)) <$> seqZ 1 n)) as Hin.
  { rewrite <- Hn. apply list_elem_of_fmap. eauto. }
  apply list_elem_of_fmap in Hin as (m & [= _ Hm] & Hm'). apply elem_of_seqZ in Hm'. lia.
Qed.

(** ** Writing a job row back *)
Section Write.
Context `{Sha256}.

Lemma attempts_of_put db job imp a events id :
  (forall b, b ∈ job_attempts db -> att_id b = att_id a -> att_job_id b = att_job_id a) ->
  attempts_of (write_jobs db job imp (Some a) events) id = table_put a (attempts_of db id).
Proof.
  intros Hid. unfold attempts_of. simpl. unfold table_put. apply filter_fmap_same.
  intros b Hb. case_decide as E; [|done]. by rewrite (Hid b Hb E).
Qed.

Lemma table_put_last (prev : list JobAttemptRecord) a a' :
  NoDup (row_id <$> prev ++ [a]) -> att_id a' = att_id a -> table_put a' (prev ++ [a]) = prev ++ [a'].
Proof.
  unfold table_put. rewrite !fmap_app. intros (_ & Hd & _)%NoDup_app Hid. f_equal.
  - rewrite <- (list_fmap_id prev) at 2. apply list_fmap_ext. intros i b Hb. rewrite decide_False; [done|].
    intros E. eapply (Hd (row_id b)); [apply list_elem_of_fmap; eauto using list_elem_of_lookup_2|].
    apply list_elem_of_fmap. exists a. split; [|set_solver]. rewrite E. done.
  - simpl. by rewrite decide_True.
Qed.

(** The general step: one job row, and possibly its attempt row, are replaced. *)
Lemma write_jobs_ok db (j j' : JobRecord) imp att events :
  db_ok db -> table_get (job_id j) (jobs db) = Some j -> job_id j' = job_id j -> job_log_ok events ->
  match att with
  | None => job_ok j' (attempts_of db (job_id j))
  | Some a' => exists a, a ∈ attempts_of db (job_id j) /\ att_id a' = att_id a /\ att_job_id a' = job_id j
      /\ job_ok j' (table_put a' (attempts_of db (job_id j)))
  end ->
  db_ok (write_jobs db j' imp att events).
Proof.
  intros Hok Hj Hid Hev Hatt. pose proof (do_jobs db Hok) as Hnd.
  assert (att_ids : row_id <$> job_attempts (write_jobs db j' imp att events) = row_id <$> job_attempts db).
  { simpl. destruct att; [apply table_put_ids|done]. }
  assert (forall i, i <> job_id j -> attempts_of (write_jobs db j' imp att events) i = attempts_of db i) as Hoth.
  { intros i Hi. destruct att as [a'|]; [|done]. destruct Hatt as (a & Ha & E & Ej & _).
    apply attempts_of_elem in Ha as [Ha Haj]. rewrite attempts_of_put.
    - unfold table_put. rewrite <- (list_fmap_id (attempts_of db i)) at 2. apply list_fmap_ext.
      intros k b Hb%list_elem_of_lookup_2. rewrite decide_False; [done|]. intros E'.
      apply attempts_of_elem in Hb as [Hb Hbi]. apply Hi. rewrite <- Hbi, <- Haj. f_equal.
      eapply (NoDup_fmap_elem row_id); [apply (do_attempts db Hok)|done|done|]. by rewrite E'.
    - intros b Hb E'. rewrite Ej, <- Haj. f_equal.
      eapply (NoDup_fmap_elem row_id); [apply (do_attempts db Hok)|done|done|]. unfold row_id, JobAttemptRecord_row. congruence. }
  constructor.
  - simpl. by rewrite table_put_ids.
  - rewrite att_ids. apply (do_attempts db Hok).
  - intros a Ha. simpl in Ha |- *. rewrite table_put_ids. destruct att as [a'|]; [|by apply (do_owned db Hok)].
    apply elem_of_table_put in Ha as [->|[Ha _]]; [|by apply (do_owned db Hok)].
    destruct Hatt as (b & Hb & _ & Ej & _). apply attempts_of_elem in Hb as [Hb Hbj].
    rewrite Ej, <- Hbj. by apply (do_owned db Hok).
  - intros k Hk. simpl in Hk. apply elem_of_table_put in Hk as [->|[Hk Hne]].
    + rewrite Hid. destruct att as [a'|]; [|exact Hatt]. destruct Hatt as (a & Ha & E & Ej & Hjo).
      rewrite attempts_of_put; [done|]. apply attempts_of_elem in Ha as [Ha Haj].
      intros b Hb E'. rewrite Ej, <- Haj. f_equal.
      eapply (NoDup_fmap_elem row_id); [apply (do_attempts db Hok)|done|done|]. unfold row_id, JobAttemptRecord_row. congruence.
    + rewrite Hoth; [by apply (do_job db Hok)|]. intros E. apply Hne. unfold row_id, JobRecord_row. congruence.
  - done.
Qed.

Lemma job_get db (j : JobRecord) : db_ok db -> j ∈ jobs db -> table_get (job_id j) (jobs db) = Some j.
Proof. intros Hok Hj. change (job_id j) with (row_id j). apply (table_elem_get (jobs db) j); [apply (do_jobs db Hok)|done]. Qed.

(** ** Row transitions *)
Definition active (j : JobRecord) : Prop := job_state j = LEASED \/ job_state j = RUNNING.

(** The counters and the submitted columns are kept. *)
Definition same_counts (j j' : JobRecord) : Prop :=
  job_submission j' = job_submission j /\ attempt_count j' = attempt_count j
  /\ fencing_generation j' = fencing_generation j.

Definition same_attempt (a a' : JobAttemptRecord) : Prop :=
  att_id a' = att_id a /\ att_job_id a' = att_job_id a /\ attempt_number a' = attempt_number a
  /\ att_fencing_generation a' = att_fencing_generation a.

Lemma active_attempt db (j : JobRecord) :
  db_ok db -> j ∈ jobs db -> active j ->
  exists prev a, attempts_of db (job_id j) = prev ++ [a] /\ all_closed prev
    /\ find_attempt db (job_id j) (fencing_generation j) = Some a
    /\ lease_owner j = Some (att_worker_id a) /\ lease_expires_at j = Some (att_lease_expires_at a).
Proof.
  intros Hok Hj Hact. pose proof (do_job db Hok j Hj) as Hjo. pose proof (jo_state _ _ Hjo) as Hs.
  assert (exists s, last_open s (lease_owner j) (lease_expires_at j) (attempts_of db (job_id j)))
    as (s & prev & a & E & Hc & _ & Ho & He) by (destruct Hact as [E|E]; rewrite E in Hs; eauto).
  exists prev, a. repeat split; [done|done| |done|done].
  rewrite find_attempt_of, (jo_generation _ _ Hjo). eapply find_last; [apply (jo_attempts _ _ Hjo)|done].
Qed.

Lemma put_last_attempts db (j : JobRecord) prev a a' :
  db_ok db -> attempts_of db (job_id j) = prev ++ [a] -> same_attempt a a' ->
  table_put a' (attempts_of db (job_id j)) = prev ++ [a']
  /\ (fun a => (attempt_number a, att_fencing_generation a)) <$> (prev ++ [a'])
     = (fun a => (attempt_number a, att_fencing_generation a)) <$> attempts_of db (job_id j).
Proof.
  intros Hok E (Hid & _ & Hn & Hg). rewrite E. split.
  - apply table_put_last; [|done]. rewrite <- E. unfold attempts_of.
    apply NoDup_fmap_filter, (do_attempts db Hok).
  - rewrite !fmap_app. simpl. by rewrite Hn, Hg.
Qed.

(** An active job keeps or ends its lease, its attempt follows. *)
Lemma write_active_ok db (j j' : JobRecord) imp prev a a' events :
  db_ok db -> j ∈ jobs db -> attempts_of db (job_id j) = prev ++ [a] -> all_closed prev ->
  same_counts j j' -> same_attempt a a' -> job_log_ok events ->
  match job_state j' with
  | QUEUED => attempt_count j < max_attempts j /\ lease_owner j' = None /\ attempt_open a' = false
  | LEASED => att_state a' = ATT_LEASED /\ lease_owner j' = Some (att_worker_id a')
              /\ lease_expires_at j' = Some (att_lease_expires_at a')
  | RUNNING => att_state a' = ATT_RUNNING /\ lease_owner j' = Some (att_worker_id a')
              /\ lease_expires_at j' = Some (att_lease_expires_at a')
  | SUCCEEDED | FAILED => attempt_open a' = false
  | CANCELLED => True
  end ->
  db_ok (write_jobs db j' imp (Some a') events).
Proof.
  intros Hok Hj E Hc (Hsub & Hcnt & Hgen) Hsame Hev Hst. pose proof (do_job db Hok j Hj) as Hjo.
  destruct (put_last_attempts db j prev a a' Hok E Hsame) as [Hput Hnum].
  apply (write_jobs_ok db j); [done|by apply job_get|by rewrite Hsub|done|].
  destruct Hsame as (Hid & Hji & _). exists a.
  assert (a ∈ attempts_of db (job_id j)) as Ha by (rewrite E; set_solver).
  split; [done|]. split; [done|]. split; [rewrite Hji; by apply attempts_of_elem in Ha as [_ ?]|].
  rewrite Hput. constructor.
  - rewrite Hgen, Hcnt. apply (jo_generation _ _ Hjo).
  - rewrite Hcnt, Hsub. apply (jo_budget _ _ Hjo).
  - rewrite Hnum, Hcnt. apply (jo_attempts _ _ Hjo).
  - assert (attempt_open a' = false -> all_closed (prev ++ [a'])) as Hall.
    { intros Ho. apply Forall_app. split; [done|by repeat constructor]. }
    destruct (job_state j'); rewrite ?Hcnt, ?Hsub.
    + destruct Hst as (? & ? & ?). auto.
    + exists prev, a'. naive_solver.
    + exists prev, a'. naive_solver.
    + auto.
    + auto.
    + rewrite length_app. simpl. replace (length prev + 1 - 1)%nat with (length prev) by lia.
      by rewrite take_app_length.
Qed.

(** A job that leaves the queue without an attempt, or is cancelled. *)
Lemma write_settled_ok db (j j' : JobRecord) imp events :
  db_ok db -> j ∈ jobs db -> same_counts j j' -> job_log_ok events ->
  (job_state j = QUEUED /\ terminal (job_state j') = true) \/ (terminal (job_state j) = false /\ job_state j' = CANCELLED) ->
  db_ok (write_jobs db j' imp None events).
Proof.
  intros Hok Hj (Hsub & Hcnt & Hgen) Hev Hst. pose proof (do_job db Hok j Hj) as Hjo.
  apply (write_jobs_ok db j); [done|by apply job_get|by rewrite Hsub|done|].
  assert (forall l : list JobAttemptRecord, all_closed l -> all_closed (take (length l - 1) l)) as Htake
    by (intros l Hl; by apply Forall_take).
  constructor.
  - rewrite Hgen, Hcnt. apply (jo_generation _ _ Hjo).
  - rewrite Hcnt, Hsub. apply (jo_budget _ _ Hjo).
  - rewrite Hcnt. apply (jo_attempts _ _ Hjo).
  - pose proof (jo_state _ _ Hjo) as Hs. destruct Hst as [[Hq Ht]|[Ht ->]].
    + rewrite Hq in Hs. destruct Hs as (_ & _ & Hs). destruct (job_state j'); try done; auto.
    + destruct (job_state j); try done; [naive_solver| |].
      * destruct Hs as (prev & a & -> & Hc & _). rewrite length_app. simpl.
        replace (length prev + 1 - 1)%nat with (length prev) by lia. by rewrite take_app_length.
      * destruct Hs as (prev & a & -> & Hc & _). rewrite length_app. simpl.
        replace (length prev + 1 - 1)%nat with (length prev) by lia. by rewrite take_app_length.
Qed.
End Write.

(** ** What one operation does to the rows *)
Definition leases_of (id : string) (gs : list JobLease) : list JobLease :=
  List.filter (fun l => String.eqb (l_job_id l) id) gs.

(** The rows stay, terminal rows are untouched, and the leases [gs] granted on
    the way carry consecutive generations. *)
Record evolves (gs : list JobLease) (db db' : Database) : Prop := {
  ev_ids : row_id <$> jobs db' = row_id <$> jobs db;
  ev_granted : forall l, l ∈ gs -> l_job_id l ∈ (row_id <$> jobs db);
  ev_row : forall id (j : JobRecord), table_get id (jobs db) = Some j ->
    exists j' : JobRecord, table_get id (jobs db') = Some j' /\ job_submission j' = job_submission j
      /\ (terminal (job_state j) = true -> j' = j)
      /\ attempt_count j' = attempt_count j + Z.of_nat (length (leases_of id gs))
      /\ l_fencing_generation <$> leases_of id gs
         = seqZ (attempt_count j + 1) (Z.of_nat (length (leases_of id gs)))
}.

Lemma evolves_refl db : evolves [] db db.
Proof. constructor; [done|set_solver|]. intros id j Hj. exists j. repeat split; [done|simpl; lia]. Qed.

Lemma evolves_trans gs1 gs2 db1 db2 db3 :
  evolves gs1 db1 db2 -> evolves gs2 db2 db3 -> evolves (gs1 ++ gs2) db1 db3.
Proof.
  intros [Hi1 Hg1 Hr1] [Hi2 Hg2 Hr2]. constructor.
  - congruence.
  - intros l [Hl|Hl]%elem_of_app; [by apply Hg1|]. rewrite <- Hi1. by apply Hg2.
  - intros id j Hj. destruct (Hr1 id j Hj) as (j2 & Hj2 & Hs2 & Ht2 & Hc2 & Hn2).
    destruct (Hr2 id j2 Hj2) as (j3 & Hj3 & Hs3 & Ht3 & Hc3 & Hn3). exists j3.
    assert (leases_of id (gs1 ++ gs2) = leases_of id gs1 ++ leases_of id gs2) as -> by apply List.filter_app.
    split; [done|]. split; [congruence|].
    split; [intros Ht; pose proof (Ht2 Ht); subst j2; auto|].
    rewrite fmap_app, length_app, Nat2Z.inj_add, Hn2, Hn3. split; [lia|].
    rewrite seqZ_app by lia. f_equal. f_equal. lia.
Qed.

Section Operations.
Context `{Sha256}.

Lemma write_evolves db (j j' : JobRecord) imp att events :
  db_ok db -> j ∈ jobs db -> same_counts j j' -> terminal (job_state j) = false ->
  evolves [] db (write_jobs db j' imp att events).
Proof.
  intros Hok Hj (Hsub & Hcnt & _) Ht. constructor; [apply table_put_ids|set_solver|].
  intros id k Hk. simpl. rewrite table_get_put.
  destruct (decide (row_id j' = id)) as [<-|Hne].
  - assert (k = j) as ->.
    { assert (row_id j' = job_id j) as E by (change (job_id j' = job_id j); by rewrite Hsub).
      rewrite E, (job_get db j Hok Hj) in Hk. congruence. }
    rewrite decide_True.
    + exists j'. repeat split; [done|congruence|simpl; lia].
    + apply table_get_elem in Hk as [Hk <-]. apply list_elem_of_fmap. eauto.
  - exists k. repeat split; [done|simpl; lia].
Qed.

Lemma job_event_ok ty out j now tok events events' :
  job_log_ok events -> mem (ty, out) JOB_OUTCOMES = true ->
  job_event ty out j now tok events = Ok events' -> job_log_ok events'.
Proof.
  intros [Hok Hout] Hm He. unfold job_event in He. apply bind_ok in He as ([e l] & He & [= <-]). simpl.
  split; [by eapply append_audit_event_audit_ok|].
  apply append_audit_event_ok in He as ([= _ Ety _ _ _] & Eo & _ & [[_ ->]|(-> & _)]); [done|].
  apply Forall_app. split; [done|]. repeat constructor. intros _. by rewrite Ety, Eo.
Qed.

Definition valid_ids (j : JobSubmission) : Prop :=
  (forall o, job_owner_user_id j = Some o -> py_len o = 32) /\ AUDIT_SUBJECT_PATTERN (job_id j) = true.

(** Recording a transition of a well-formed job never conflicts with the log. *)
Lemma job_event_total ty out (j : JobRecord) now tok events :
  job_log_ok events -> mem (ty, out) JOB_OUTCOMES = true -> valid_ids j -> 0 <= fencing_generation j ->
  tok ∉ (ev_id <$> events) ->
  exists events', job_event ty out j now tok events = Ok events'
    /\ (forall t, t ∈ (ev_id <$> events') -> t = tok \/ t ∈ (ev_id <$> events)).
Proof.
  intros [(Hv & _ & _) Hout] Hm [Hown Hid] Hg Htok. unfold job_event, append_audit_event.
  assert (match job_owner_user_id j with Some o => negb (py_len o =? 32) | None => false end = false) as ->.
  { destruct (job_owner_user_id j) as [o|]; [|done]. by rewrite (Hown o). }
  rewrite Hid, (proj2 (Z.ltb_ge _ _)) by done. simpl.
  destruct (List.find _ events) as [x|] eqn:Hf.
  - apply List.find_some in Hf as [Hx Hk]. apply bool_decide_eq_true in Hk. injection Hk as _ Ety Est _ _.
    apply list_elem_of_In in Hx. rewrite Forall_forall in Hv, Hout. rewrite (Hv x Hx), orb_false_r.
    specialize (Hout x Hx Est). rewrite Ety in Hout.
    assert (ev_outcome x = out) as ->.
    { apply mem_true in Hout, Hm. assert (NoDup JOB_OUTCOMES.*1) as Hnd by (apply (bool_decide_unpack _); vm_compute; exact I).
      pose proof (NoDup_fmap_elem fst _ _ _ Hnd Hout Hm eq_refl). congruence. }
    rewrite String.eqb_refl. simpl. eexists. split; [done|]. auto.
  - unfold table_add. rewrite (proj2 (mem_false _ _)) by done. simpl. eexists. split; [done|].
    intros t. rewrite fmap_app. simpl. rewrite elem_of_app, list_elem_of_singleton. tauto.
Qed.

Definition good (gs : list JobLease) (db db' : Database) : Prop := db_ok db' /\ evolves gs db db'.

Lemma good_refl db : db_ok db -> good [] db db.
Proof. split; [done|apply evolves_refl]. Qed.

Lemma good_trans gs1 gs2 db1 db2 db3 : good gs1 db1 db2 -> good gs2 db2 db3 -> good (gs1 ++ gs2) db1 db3.
Proof. intros [? ?] [? ?]. split; [done|by eapply evolves_trans]. Qed.

Lemma active_not_terminal j : active j -> terminal (job_state j) = false.
Proof. by intros [-> | ->]. Qed.

(** Ending or extending a live lease. *)
Lemma write_active_good db (j j' : JobRecord) imp att events :
  db_ok db -> j ∈ jobs db -> active j -> same_counts j j' -> job_log_ok events ->
  (forall a, find_attempt db (job_id j) (fencing_generation j) = Some a ->
     lease_owner j = Some (att_worker_id a) -> lease_expires_at j = Some (att_lease_expires_at a) ->
     exists a', att = Some a' /\ same_attempt a a' /\
     match job_state j' with
     | QUEUED => attempt_count j < max_attempts j /\ lease_owner j' = None /\ attempt_open a' = false
     | LEASED => att_state a' = ATT_LEASED /\ lease_owner j' = Some (att_worker_id a')
                 /\ lease_expires_at j' = Some (att_lease_expires_at a')
     | RUNNING => att_state a' = ATT_RUNNING /\ lease_owner j' = Some (att_worker_id a')
                 /\ lease_expires_at j' = Some (att_lease_expires_at a')
     | SUCCEEDED | FAILED => attempt_open a' = false
     | CANCELLED => True
     end) ->
  good [] db (write_jobs db j' imp att events).
Proof.
  intros Hok Hj Hact Hsame Hev Hatt.
  destruct (active_attempt db j Hok Hj Hact) as (prev & a & E & Hc & Hf & Ho & He).
  destruct (Hatt a Hf Ho He) as (a' & -> & Ha & Hst). split.
  - by eapply write_active_ok.
  - by eapply write_evolves, active_not_terminal.
Qed.

Lemma write_settled_good db (j j' : JobRecord) imp events :
  db_ok db -> j ∈ jobs db -> same_counts j j' -> job_log_ok events ->
  (job_state j = QUEUED /\ terminal (job_state j') = true) \/ (terminal (job_state j) = false /\ job_state j' = CANCELLED) ->
  good [] db (write_jobs db j' imp None events).
Proof.
  intros Hok Hj Hsame Hev Hst. split; [by eapply write_settled_ok|]. eapply write_evolves; [done|done|done|].
  destruct Hst as [[-> _]|[-> _]]; done.
Qed.

Lemma lease_matches_generation j l : lease_matches j l = true -> fencing_generation j = l_fencing_generation l.
Proof. unfold lease_matches. intros. bools. done. Qed.

Lemma mem_active j : mem (job_state j) [LEASED; RUNNING] = true -> active j.
Proof. intros. bools. unfold active. set_solver. Qed.

(** A result of [transaction]. *)
Lemma transaction_inv {A} (body : Database -> result (Database * A)) db db' r :
  transaction body db = (db', r) ->
  (exists a, r = Ok a /\ body db = Ok (db', a)) \/ (exists e, r = Raise e /\ db' = db).
Proof.
  unfold transaction. destruct (body db) as [[d a]|e]; intros [= <- <-]; eauto.
Qed.

Lemma transaction_good {A} (body : Database -> result (Database * A)) db db' r :
  db_ok db -> transaction body db = (db', r) -> (forall a, body db = Ok (db', a) -> good [] db db') -> good [] db db'.
Proof.
  intros Hok Ht Hb. apply transaction_inv in Ht as [(a & -> & E)|(e & -> & ->)]; [by eapply Hb|by apply good_refl].
Qed.

Lemma start_good lease now db db' r : db_ok db -> start lease now db = (db', r) -> good [] db db'.
Proof.
  intros Hok Hs. eapply transaction_good; [done|exact Hs|]. intros b. unfold conditional_state.
  destruct (table_get _ _) as [j|] eqn:Hg; [|intros [= <- <-]; by apply good_refl].
  apply table_get_elem in Hg as [Hj _]. case_match eqn:Hc; [intros [= <- <-]; by apply good_refl|].
  intros [= <- <-]. bools. rewrite <- (lease_matches_generation j lease) by done.
  apply (write_active_good _ j); [done|done|by left|done|apply (do_audit _ Hok)|].
  intros a -> Ho He. eexists. split; [done|]. simpl. by rewrite Ho, He.
Qed.

Lemma heartbeat_good lease now db db' r : db_ok db -> heartbeat lease now db = (db', r) -> good [] db db'.
Proof.
  intros Hok Hs. eapply transaction_good; [done|exact Hs|]. intros b. cbv beta.
  destruct (table_get _ _) as [j|] eqn:Hg; [|intros [= <- <-]; by apply good_refl].
  apply table_get_elem in Hg as [Hj _]. case_match eqn:Hc; [intros [= <- <-]; by apply good_refl|].
  intros Hr. apply bind_ok in Hr as (expires & _ & [= <- <-]). apply negb_false_iff in Hc.
  do 3 apply andb_true_iff in Hc as [Hc ?]. apply mem_active in Hc.
  rewrite <- (lease_matches_generation j lease) by done.
  apply (write_active_good _ j); [done|done|done|done|apply (do_audit _ Hok)|].
  intros a Hf Ho He. rewrite Hf. eexists. split; [done|]. split; [done|]. simpl.
  destruct (active_attempt db j Hok Hj Hc) as (prev & a2 & E & _ & Hf2 & _).
  assert (a2 = a) as -> by congruence.
  pose proof (jo_state _ _ (do_job db Hok j Hj)) as Hs'. rewrite E in Hs'.
  destruct Hc as [Hc|Hc]; rewrite Hc in Hs' |- *;
    destruct Hs' as (p & b2 & [_ ->]%app_inj_tail & _ & Hst & _); by rewrite Ho.
Qed.

(** A live lease that ends: the attempt is closed. *)
Lemma write_ended_good db (j j' : JobRecord) imp s code events :
  db_ok db -> j ∈ jobs db -> active j -> same_counts j j' -> job_log_ok events ->
  mem s [ATT_LEASED; ATT_RUNNING] = false ->
  (match job_state j' with
   | QUEUED => attempt_count j < max_attempts j /\ lease_owner j' = None
   | LEASED | RUNNING => False
   | _ => True end) ->
  forall now, good [] db (write_jobs db j' imp
     (set_attempt s code (Some now) <$> find_attempt db (job_id j) (fencing_generation j)) events).
Proof.
  intros Hok Hj Hact Hsame Hev Hs Hst now. apply (write_active_good _ j); [done..|].
  intros a Hf _ _. rewrite Hf. eexists. split; [done|]. split; [done|].
  destruct (job_state j'); try done. naive_solver.
Qed.

Lemma fail_good lease code retryable now token db db' r :
  db_ok db -> fail lease code retryable now token db = (db', r) -> good [] db db'.
Proof.
  intros Hok Hs. eapply transaction_good; [done|exact Hs|]. intros b. cbv beta.
  destruct (table_get _ _) as [j|] eqn:Hg; [|intros [= <- <-]; by apply good_refl].
  apply table_get_elem in Hg as [Hj _]. case_match eqn:Hc; [intros [= <- <-]; by apply good_refl|].
  apply orb_false_iff in Hc as [Hact Hm]. apply negb_false_iff in Hact, Hm. apply mem_active in Hact.
  rewrite <- (lease_matches_generation j lease) by done.
  pose proof (do_audit _ Hok) as Hev. destruct (scope_ok db j); simpl.
  - destruct (retryable && _) eqn:Hr; intros Hx.
    + bools. apply bind_ok in Hx as (d & _ & Hx). apply bind_ok in Hx as (again & _ & Hx).
      apply bind_ok in Hx as (events & He & [= <- <-]). apply job_event_ok in He; [|done|done].
      apply (write_ended_good _ j); done.
    + apply bind_ok in Hx as (events & He & [= <- <-]). apply job_event_ok in He; [|done|done].
      apply (write_ended_good _ j); done.
  - intros Hx. apply bind_ok in Hx as (events & He & [= <- <-]). apply job_event_ok in He; [|done|done].
    apply (write_ended_good _ j); done.
Qed.

Lemma current_fenced_job_inv lease now states db j :
  current_fenced_job lease now states db = Some j ->
  j ∈ jobs db /\ job_id j = l_job_id lease /\ job_state j ∈ states /\ lease_matches j lease = true
  /\ lease_live j now = true /\ cancel_requested j = false /\ scope_ok db j = true.
Proof.
  unfold current_fenced_job. destruct (table_get _ _) as [k|] eqn:Hg; simpl; [|done].
  apply table_get_elem in Hg as [Hk Hid]. case_match eqn:Hc; [|done]. intros [= <-].
  do 4 apply andb_true_iff in Hc as [Hc ?]. bools. done.
Qed.

Lemma complete_system_good lease now token db db' r :
  db_ok db -> complete_system lease now token db = (db', r) -> good [] db db'.
Proof.
  intros Hok. unfold complete_system. case_match; [intros [= <- <-]; by apply good_refl|].
  intros Hs. eapply transaction_good; [done|exact Hs|]. intros b. cbv beta.
  destruct (current_fenced_job _ _ _ _) as [j|] eqn:Hg; [|intros [= <- <-]; by apply good_refl].
  apply current_fenced_job_inv in Hg as (Hj & _ & Hst & Hm & _).
  rewrite <- (lease_matches_generation j lease) by done.
  destruct (find_attempt _ _ _) as [a|] eqn:Hf; [|intros [= <- <-]; by apply good_refl].
  intros Hx. apply bind_ok in Hx as (events & He & [= <- <-]).
  apply job_event_ok in He; [|apply (do_audit _ Hok)|done].
  apply (write_active_good _ j); [done|done|right; set_solver|done|done|].
  intros a2 Hf2 _ _. assert (a2 = a) as -> by congruence. eexists. done.
Qed.

Lemma cancel_good owner id now token db db' r :
  db_ok db -> cancel owner id now token db = (db', r) -> good [] db db'.
Proof.
  intros Hok Hs. eapply transaction_good; [done|exact Hs|]. intros b. cbv beta.
  destruct (table_get _ _) as [j|] eqn:Hg; [|intros [= <- <-]; by apply good_refl].
  apply table_get_elem in Hg as [Hj _]. case_match; [intros [= <- <-]; by apply good_refl|].
  destruct (terminal (job_state j)) eqn:Ht; [intros [= <- <-]; by apply good_refl|].
  intros Hx. apply bind_ok in Hx as (events & He & [= <- <-]).
  apply job_event_ok in He; [|apply (do_audit _ Hok)|done].
  apply (write_settled_good _ j); [done|done|done|done|by right].
Qed.

Lemma rescue_job_good now token db n id db' n' :
  db_ok db -> (forall j, table_get id (jobs db) = Some j -> expired now j = true) ->
  rescue_job now token (db, n) id = Ok (db', n') -> good [] db db'.
Proof.
  intros Hok Hex. unfold rescue_job.
  destruct (table_get _ _) as [j|] eqn:Hg; [|intros [= <- <-]; by apply good_refl].
  specialize (Hex j eq_refl). apply andb_true_iff in Hex as [Hact%mem_active _].
  apply table_get_elem in Hg as [Hj _]. pose proof (do_audit _ Hok) as Hev.
  pose proof (jo_budget _ _ (do_job _ Hok j Hj)) as Hb.
  destruct (scope_ok db j); simpl; [destruct (Z.leb_spec (max_attempts j) (attempt_count j))|]; simpl;
    intros Hx; apply bind_ok in Hx as (events & He & [= <- <-]); (apply job_event_ok in He; [|done|done]);
    apply (write_ended_good _ j); done.
Qed.

(** ** Rescue *)
Lemma rescue_job_row now token db n id db' n' (j : JobRecord) :
  table_get id (jobs db) = Some j -> rescue_job now token (db, n) id = Ok (db', n') ->
  n' = n + 1 /\ exists j' : JobRecord, jobs db' = table_put j' (jobs db) /\ row_id j' = id /\ expired now j' = false.
Proof.
  intros Hg. unfold rescue_job. rewrite Hg. apply table_get_elem in Hg as [_ Hid].
  destruct (scope_ok db j); simpl; [destruct (max_attempts j <=? attempt_count j)|]; simpl;
    intros Hx; apply bind_ok in Hx as (events & _ & [= <- <-]); (split; [done|]); by eexists.
Qed.

Lemma rescue_loop now token ids db n db' n' :
  NoDup ids -> db_ok db ->
  (forall id, id ∈ ids -> exists j, table_get id (jobs db) = Some j /\ expired now j = true) ->
  foldM (rescue_job now token) (db, n) ids = Ok (db', n') ->
  good [] db db' /\ n' = n + Z.of_nat (length ids)
  /\ forall j, j ∈ jobs db' -> expired now j = true -> (row_id j ∉ ids) /\ j ∈ jobs db.
Proof.
  revert db n. induction ids as [|id ids IH]; intros db n Hnd Hok Hex Hf; simpl in Hf.
  - injection Hf as <- <-. split; [by apply good_refl|]. split; [simpl; lia|]. set_solver.
  - apply NoDup_cons in Hnd as [Hid Hnd]. apply bind_ok in Hf as ([db1 n1] & H1 & Hf).
    destruct (Hex id) as (j & Hj & Hej); [set_solver|].
    destruct (rescue_job_row _ _ _ _ _ _ _ _ Hj H1) as (-> & j' & Hjobs & Hid' & Hne).
    apply rescue_job_good in H1; [|done|intros k Hk; congruence].
    apply (IH db1) in Hf as (Hg & Hn & Hleft); [|done|apply H1|].
    + split; [by apply (good_trans [] [] db db1)|]. split; [simpl; lia|].
      intros k Hk Hek. destruct (Hleft k Hk Hek) as [Hk1 Hk2]. rewrite Hjobs in Hk2.
      apply elem_of_table_put in Hk2 as [->|[Hk2 Hk3]]; [congruence|]. set_solver.
    + intros i Hi. destruct (Hex i) as (k & Hk & Hek); [set_solver|]. exists k. split; [|done].
      rewrite Hjobs, table_get_put_ne; [done|]. rewrite Hid'. intros ->. done.
Qed.

Lemma rescue_expired_good now token db db' n :
  db_ok db -> rescue_expired now token db = Ok (db', n) ->
  good [] db db' /\ Forall (fun j => expired now j = false) (jobs db')
  /\ n = Z.of_nat (length (List.filter (expired now) (jobs db))).
Proof.
  intros Hok Hr. unfold rescue_expired in Hr. apply rescue_loop in Hr as (Hg & Hn & Hleft).
  - split; [done|]. split; [|by rewrite length_fmap in Hn]. apply Forall_forall. intros j Hj.
    destruct (expired now j) eqn:He; [|done]. destruct (Hleft j Hj He) as [Hni Hj0]. destruct Hni.
    apply list_elem_of_fmap. exists j. split; [done|]. apply list_elem_of_In, filter_In.
    by rewrite <- list_elem_of_In.
  - apply NoDup_fmap_filter, (do_jobs _ Hok).
  - done.
  - intros id (j & -> & Hj)%list_elem_of_fmap. apply list_elem_of_In, filter_In in Hj as [Hj He].
    apply list_elem_of_In in Hj. exists j. split; [|done]. apply table_elem_get; [apply (do_jobs _ Hok)|done].
Qed.

(** ** Granting a lease *)
Lemma grant_good worker now tok1 tok2 db (j : JobRecord) db' r :
  db_ok db -> j ∈ jobs db -> job_state j = QUEUED ->
  grant worker now tok1 tok2 db j = Ok (db', r) ->
  exists l, r = Some l /\ good [l] db db' /\ l_job_id l = job_id j
    /\ l_worker_id l = worker /\ l_lease_expires_at l = now + LEASE_DURATION
    /\ exists j' : JobRecord, table_get (job_id j) (jobs db') = Some j' /\ job_state j' = LEASED
        /\ lease_matches j' l = true /\ lease_expires_at j' = Some (now + LEASE_DURATION).
Proof.
  intros Hok Hj Hq. unfold grant. intros Hg.
  apply bind_ok in Hg as (expires & [-> _]%datetime_check_ok & Hg).
  apply bind_ok in Hg as (events & He & Hg). apply job_event_ok in He; [|apply (do_audit _ Hok)|done].
  apply bind_ok in Hg as (atts & Ha & [= <- <-]).
  unfold add_attempt in Ha. apply bind_ok in Ha as (u & Hu & [Hid ->]%table_add_ok). clear u Hu.
  set (j' := grant_lease worker now (now + LEASE_DURATION) j) in *.
  set (a := attempt_of j' tok1 worker now (now + LEASE_DURATION)) in *.
  pose proof (do_job _ Hok j Hj) as Hjo. pose proof (jo_state _ _ Hjo) as Hs. rewrite Hq in Hs.
  destruct Hs as (Hlt & _ & Hclosed).
  set (dbn := {| users := _ |}).
  assert (forall i, attempts_of dbn i = attempts_of db i ++ (if decide (i = job_id j) then [a] else [])) as Hatt.
  { intros i. unfold attempts_of. simpl. rewrite List.filter_app. f_equal. simpl.
    destruct (String.eqb_spec (job_id j) i); case_decide; congruence. }
  eexists. split; [done|]. split; [split|].
  - constructor.
    + simpl. rewrite table_put_ids. apply (do_jobs _ Hok).
    + simpl. apply NoDup_fmap_snoc; [apply (do_attempts _ Hok)|done].
    + intros b Hb. simpl in *. rewrite table_put_ids. apply elem_of_app in Hb as [Hb|Hb]; [by apply (do_owned _ Hok)|].
      apply list_elem_of_singleton in Hb as ->. apply list_elem_of_fmap. by exists j.
    + intros k Hk. simpl in Hk. apply elem_of_table_put in Hk as [->|[Hk Hne]].
      * rewrite Hatt. simpl. rewrite decide_True by done. constructor; simpl.
        -- pose proof (jo_generation _ _ Hjo). lia.
        -- pose proof (jo_budget _ _ Hjo). lia.
        -- rewrite seqZ_snoc by (pose proof (jo_budget _ _ Hjo); lia).
           rewrite !fmap_app, (jo_attempts _ _ Hjo). f_equal. unfold a, attempt_of. cbn.
           by rewrite (jo_generation _ _ Hjo), (Z.add_comm 1).
        -- exists (attempts_of db (job_id j)), a. done.
      * rewrite Hatt, decide_False; [rewrite app_nil_r; by apply (do_job _ Hok)|].
        intros E. apply Hne. change (job_id k = job_id j). done.
    + done.
  - constructor.
    + apply table_put_ids.
    + intros l ->%list_elem_of_singleton. apply list_elem_of_fmap. by exists j.
    + intros id k Hk. simpl. rewrite table_get_put. destruct (decide (row_id j' = id)) as [<-|Hne].
      * assert (k = j) as -> by (rewrite (job_get db j Hok Hj : table_get (row_id j') _ = _) in Hk; congruence).
        rewrite decide_True by (apply list_elem_of_fmap; by exists j). exists j'.
        unfold leases_of. simpl. rewrite String.eqb_refl. simpl.
        split; [done|]. split; [done|]. rewrite Hq. split; [done|]. split; [lia|].
        change (Z.of_nat 1) with (0 + 1). rewrite (seqZ_snoc _ 0) by lia. cbn.
        by rewrite (jo_generation _ _ Hjo), Z.add_0_r.
      * exists k. unfold leases_of. simpl. destruct (String.eqb_spec (job_id j) id) as [E|E]; [by destruct Hne|].
        simpl. repeat split; [done|lia].
  - repeat split. exists j'. split.
    + simpl. change (job_id j) with (row_id j'). eapply table_get_put_eq.
      exact (job_get db j Hok Hj).
    + split; [done|]. split; [|done]. unfold lease_matches. simpl.
      by rewrite !bool_decide_eq_true_2, Z.eqb_refl, !String.eqb_refl by done.
Qed.
End Operations.
