(* ===== verification/JobsHistory.v ===== *)
(** * JobsHistory: histories of the job service

    The selection loop of [lease_next] finds the oldest leasable job whose
    captured scope is still valid.  [execute] runs a sequence of operations by
    any number of workers; the theorems hold after every such sequence. *)

From S2P Require Import Prelude Calendar Json Float Database AuditLog Jobs JobsProofs.

Section Loop.
Context `{Sha256}.

(** ** The selection loop *)

(** The first element of a sorted list that satisfies [p] is a least one. *)
Lemma find_first_sorted {A K} `{PyOrd K} (key : A -> K) (p : A -> bool) l x y :
  StronglySorted (key_le key) l -> List.find p l = Some x -> y ∈ l -> p y = true ->
  py_leb (key x) (key y) = true.
Proof.
  induction 1 as [|z l Hs IH Hz]; simpl; [done|]. destruct (p z) eqn:Ez.
  - intros [= ->] Hy Hp. apply elem_of_cons in Hy as [->|Hy]; [apply py_leb_refl|].
    rewrite Forall_forall in Hz. by apply Hz.
  - intros Hf Hy Hp. apply elem_of_cons in Hy as [->|Hy]; [congruence|]. by apply IH.
Qed.
Definition candidates (now : Z) (kinds : list string) (db : Database) : list JobRecord :=
  sorted_by job_key (List.filter (leasable now kinds) (jobs db)).

Lemma candidates_elem now kinds db j :
  j ∈ candidates now kinds db <-> j ∈ jobs db /\ leasable now kinds j = true.
Proof. unfold candidates. rewrite elem_of_sorted_by, !list_elem_of_In, filter_In. done. Qed.

(** Settling the head of the candidates leaves the rest of them. *)
Lemma candidates_settled now kinds db (j j' : JobRecord) imp att events rest :
  db_ok db -> candidates now kinds db = j :: rest -> row_id j' = row_id j -> leasable now kinds j' = false ->
  candidates now kinds (write_jobs db j' imp att events) = rest.
Proof.
  intros Hok Hc Hid Hl. unfold candidates in *.
  pose proof (sorted_by_perm job_key (List.filter (leasable now kinds) (jobs db))) as Hp.
  pose proof (sorted_by_sorted job_key (List.filter (leasable now kinds) (jobs db))) as Hs.
  rewrite Hc in Hp, Hs. inversion Hs as [|?? Hrest _]; subst.
  assert (NoDup (row_id <$> j :: rest)) as Hnd.
  { rewrite Hp. apply NoDup_fmap_filter, (do_jobs _ Hok). }
  apply (StronglySorted_key_unique job_key).
  - intros x y Hx%elem_of_sorted_by%list_elem_of_In%filter_In Hy%elem_of_sorted_by%list_elem_of_In%filter_In [= _ E].
    destruct Hx as [Hx _], Hy as [Hy _]. apply list_elem_of_In in Hx, Hy. simpl in Hx, Hy.
    eapply (NoDup_fmap_elem row_id); [|exact Hx|exact Hy|done].
    rewrite table_put_ids. apply (do_jobs _ Hok).
  - apply sorted_by_sorted.
  - done.
  - rewrite sorted_by_perm. apply list.NoDup_Permutation.
    + eapply NoDup_fmap_1, NoDup_fmap_filter. simpl. rewrite table_put_ids. apply (do_jobs _ Hok).
    + apply (NoDup_fmap_1 row_id). by apply NoDup_cons in Hnd as [_ ?].
    + intros x. rewrite list_elem_of_In, filter_In, <- list_elem_of_In. simpl.
      apply NoDup_cons in Hnd as [Hnj _]. split.
      * intros [[->|[Hx Hne]]%elem_of_table_put Hlx]; [congruence|].
        assert (x ∈ j :: rest) as Hin.
        { rewrite Hp. apply list_elem_of_In, filter_In. by rewrite <- list_elem_of_In. }
        apply elem_of_cons in Hin as [->|?]; [congruence|done].
      * intros Hx. assert (x ∈ j :: rest) as Hin by set_solver.
        rewrite Hp in Hin. apply list_elem_of_In, filter_In in Hin as [Hin Hlx].
        apply list_elem_of_In in Hin. split; [|done]. apply list_elem_of_fmap. exists x. split; [|done].
        rewrite decide_False; [done|]. intros E. apply Hnj. rewrite <- Hid, <- E. apply list_elem_of_fmap. eauto.
Qed.

(** The row a candidate with a stale scope is given. *)
Definition fenced (now : Z) (j : JobRecord) : JobRecord :=
  match dict_get (job_kind j) JOB_DEFINITIONS with
  | None => finish_without_lease FAILED "UNKNOWN_JOB_KIND" now j
  | Some _ => finish_without_lease CANCELLED "SCOPE_FENCED" now j
  end.
Definition fence_row (now : Z) (db : Database) (j : JobRecord) : Database :=
  write_jobs db (fenced now j) None None (audit_events db).

Lemma fenced_row now j : same_counts j (fenced now j) /\ terminal (job_state (fenced now j)) = true.
Proof. unfold fenced. destruct (dict_get _ _); repeat split. Qed.

Lemma fence_row_good now db j : db_ok db -> j ∈ jobs db -> job_state j = QUEUED -> good [] db (fence_row now db j).
Proof.
  intros Hok Hj Hq. destruct (fenced_row now j) as [Hs Ht].
  apply (write_settled_good _ j); [done|done|done|apply (do_audit _ Hok)|by left].
Qed.

(** A queued job of an invariant database has attempts left. *)
Lemma lease_loop_step fuel worker now kinds tok1 tok2 db :
  db_ok db ->
  lease_loop fuel worker now kinds tok1 tok2 db =
  match candidates now kinds db with
  | [] => Ok (db, None)
  | j :: _ =>
      match fuel with
      | O => Raise (PyError "FuelExhausted")
      | S fuel' => if scope_ok db j then grant worker now tok1 tok2 db j
                   else lease_loop fuel' worker now kinds tok1 tok2 (fence_row now db j)
      end
  end.
Proof.
  intros Hok. assert (next_job now kinds db = head (candidates now kinds db)) as Hn by done.
  destruct fuel as [|fuel]; cbn [lease_loop]; rewrite Hn;
    destruct (candidates now kinds db) as [|j t] eqn:Hc; cbn [head]; try done.
  assert (j ∈ jobs db /\ leasable now kinds j = true) as [Hj Hl] by (apply candidates_elem; rewrite Hc; set_solver).
  unfold leasable in Hl. bools.
  pose proof (jo_state _ _ (do_job _ Hok j Hj)) as Hs. rewrite H0 in Hs. destruct Hs as [Hb _].
  unfold scope_ok, fence_row, fenced. destruct (dict_get _ _) as [d|]; [|done].
  destruct (load_scope db j) as [[u i] p] eqn:El. destruct (scope_is_valid j d u i p); cbn [negb]; [|done].
  by rewrite (proj2 (Z.leb_gt _ _)) by lia.
Qed.

(** Scopes do not depend on the job table. *)
Lemma scope_ok_fence now db j k : scope_ok (fence_row now db j) k = scope_ok db k.
Proof. done. Qed.

(** What the loop returns: the candidates before the first one with a valid
    scope are settled, and that one is granted. *)
Lemma lease_loop_spec fuel worker now kinds tok1 tok2 db cand :
  db_ok db -> candidates now kinds db = cand -> (length cand <= fuel)%nat ->
  exists db1, good [] db db1
    /\ (forall j, j ∈ jobs db -> j ∈ jobs db1 \/
          (fenced now j ∈ jobs db1 /\ leasable now kinds j = true /\ scope_ok db j = false))
    /\ (forall k, k ∈ jobs db1 -> k ∈ jobs db \/ terminal (job_state k) = true)
    /\ (audit_events db1 = audit_events db /\ job_attempts db1 = job_attempts db)
    /\ lease_loop fuel worker now kinds tok1 tok2 db =
       match List.find (scope_ok db) cand with
       | None => Ok (db1, None)
       | Some j => grant worker now tok1 tok2 db1 j
       end.
Proof.
  revert fuel db. induction cand as [|j cand IH]; intros fuel db Hok Hc Hf; rewrite lease_loop_step, Hc by done.
  - exists db. split; [by apply good_refl|]. repeat split; [by left|by left].
  - destruct fuel as [|fuel]; [simpl in Hf; lia|]. simpl.
    assert (j ∈ jobs db /\ leasable now kinds j = true) as [Hj Hl] by (apply candidates_elem; rewrite Hc; set_solver).
    destruct (scope_ok db j) eqn:Hs.
    + exists db. split; [by apply good_refl|]. repeat split; [by left|by left].
    + assert (job_state j = QUEUED) as Hq by (unfold leasable in Hl; bools; done).
      pose proof (fence_row_good now db j Hok Hj Hq) as Hg. destruct (fenced_row now j) as [(Hsub & _) Ht].
      destruct (IH fuel (fence_row now db j)) as (db1 & Hg1 & Hrows & Hback & Hlog & Hloop).
      * apply Hg.
      * eapply candidates_settled; [done|exact Hc|change (job_id (fenced now j) = job_id j); by rewrite Hsub|].
        unfold leasable. destruct (job_state (fenced now j)); done.
      * simpl in Hf. lia.
      * exists db1. split; [by apply (good_trans [] [] _ (fence_row now db j))|]. split; [|split; [|split; [exact Hlog|exact Hloop]]].
        2: { intros k [Hk|Hk]%Hback; [|by right]. apply elem_of_table_put in Hk as [->|[Hk _]]; [by right|by left]. }
        intros k Hk. destruct (decide (row_id k = row_id j)) as [E|Hne].
        -- assert (k = j) as -> by (eapply (NoDup_fmap_elem row_id); [apply (do_jobs _ Hok)|done|done|done]).
           right. split; [|done]. assert (fenced now j ∈ jobs (fence_row now db j)) as Hfj.
           { apply list_elem_of_fmap. exists j. split; [|done]. rewrite decide_True; [done|].
             change (job_id j = job_id (fenced now j)). by rewrite Hsub. }
           destruct (Hrows _ Hfj) as [?|(_ & Hl2 & _)]; [done|].
           unfold leasable in Hl2. bools. by rewrite H0 in Ht.
        -- apply (Hrows k). apply list_elem_of_fmap. exists k. split; [|done]. rewrite decide_False; [done|].
           intros E. apply Hne. rewrite E. change (job_id (fenced now j) = job_id j). by rewrite Hsub.
Qed.

(** ** [lease_next] *)

(** A granted lease is the job's current one and runs from [now]. *)
Definition granted_to (worker : string) (now : Z) (j : JobRecord) (l : JobLease) (db' : Database) : Prop :=
  l_job_id l = job_id j /\ l_worker_id l = worker /\ l_lease_expires_at l = now + LEASE_DURATION
  /\ exists j' : JobRecord, table_get (job_id j) (jobs db') = Some j' /\ job_state j' = LEASED
      /\ lease_matches j' l = true /\ lease_expires_at j' = Some (now + LEASE_DURATION).

Lemma grant_rows worker now tok1 tok2 db (j : JobRecord) db' r :
  grant worker now tok1 tok2 db j = Ok (db', r) ->
  exists j' : JobRecord, jobs db' = table_put j' (jobs db) /\ lease_expires_at j' = Some (now + LEASE_DURATION).
Proof.
  unfold grant. intros Hg. apply bind_ok in Hg as (expires & [-> _]%datetime_check_ok & Hg).
  apply bind_ok in Hg as (events & _ & Hg). apply bind_ok in Hg as (atts & _ & [= <- <-]). by eexists.
Qed.

Lemma lease_next_cases worker now kinds rt tok1 tok2 db db' r :
  db_ok db -> lease_next worker now kinds rt tok1 tok2 db = (db', r) ->
  (exists e, r = Raise e /\ good [] db db')
  \/ exists db1 n, rescue_expired now rt db = Ok (db1, n) /\ good [] db db1 /\
     Forall (fun j => expired now j = false) (jobs db') /\
     match List.find (scope_ok db1) (candidates now (default (JOB_DEFINITIONS.*1) kinds) db1) with
     | None => r = Ok None /\ good [] db1 db'
     | Some j => exists l, r = Ok (Some l) /\ good [l] db1 db' /\ granted_to worker now j l db'
     end.
Proof.
  intros Hok Hl. unfold lease_next in Hl.
  destruct (transaction _ db) as [db1 r1] eqn:Ht.
  apply transaction_inv in Ht as [(n & -> & Hr)|(e & -> & ->)].
  2: { injection Hl as <- <-. left. exists e. split; [done|by apply good_refl]. }
  apply rescue_expired_good in Hr as Hr2; [|done]. destruct Hr2 as (Hg1 & Hx & _).
  destruct (existsb _ _) eqn:Hk; [injection Hl as <- <-; left; eauto|].
  destruct (default (JOB_DEFINITIONS.*1) kinds) as [|k ks] eqn:Ek.
  - injection Hl as <- <-. right. exists db1, n.
    assert (candidates now [] db1 = []) as ->.
    { unfold candidates. replace (List.filter (leasable now []) (jobs db1)) with (@nil JobRecord); [done|].
      clear. induction (jobs db1) as [|x l IH]; [done|]. simpl. unfold leasable at 1.
      by rewrite andb_false_r. }
    split; [done|]. split; [exact Hg1|]. split; [exact Hx|]. split; [done|]. apply good_refl, Hg1.
  - rewrite <- Ek in *. clear Ek k ks.
    destruct (lease_loop_spec (length (jobs db1)) worker now (default (JOB_DEFINITIONS.*1) kinds) tok1 tok2 db1 _
      (proj1 Hg1) eq_refl) as (db2 & Hg2 & Hrows & Hback & _ & Hloop).
    { unfold candidates. rewrite length_sorted_by. apply List.filter_length_le. }
    assert (Forall (fun j => expired now j = false) (jobs db2)) as Hx2.
    { apply Forall_forall. intros k [Hk2|Hk2]%Hback; [by eapply Forall_forall in Hx|].
      unfold expired. by destruct (job_state k). }
    apply transaction_inv in Hl as [(o & -> & Hl)|(e & -> & ->)]; [|left; eauto].
    rewrite Hloop in Hl. right. exists db1, n. split; [done|]. split; [done|].
    destruct (List.find _ _) as [j|] eqn:Hf; [|injection Hl as <- <-; done].
    apply List.find_some in Hf as [Hj Hs]. apply list_elem_of_In, candidates_elem in Hj as [Hj Hlj].
    assert (j ∈ jobs db2) as Hj2 by (destruct (Hrows j Hj) as [?|(_ & _ & ?)]; [done|congruence]).
    assert (job_state j = QUEUED) as Hq by (unfold leasable in Hlj; bools; done).
    destruct (grant_rows _ _ _ _ _ _ _ _ Hl) as (jg & Hjg & Heg).
    destruct (grant_good _ _ _ _ _ _ _ _ (proj1 Hg2) Hj2 Hq Hl) as (l & -> & Hgl & Hrest).
    split.
    + rewrite Hjg. apply Forall_forall. intros k [->|[Hk2 _]]%elem_of_table_put; [|by eapply Forall_forall in Hx2].
      unfold expired. rewrite Heg. apply andb_false_iff. right. apply Z.leb_gt. unfold LEASE_DURATION, US_PER_SECOND. lia.
    + exists l. split; [done|]. split; [by apply (good_trans [] [l] _ db2)|]. exact Hrest.
Qed.

(** ** Availability *)
Definition event_ids (db : Database) : list string := ev_id <$> audit_events db.

Lemma rescue_job_total now rt db n id :
  db_ok db -> (forall j : JobRecord, j ∈ jobs db -> valid_ids j) -> rt n ∉ event_ids db ->
  (exists j, table_get id (jobs db) = Some j) ->
  exists db', rescue_job now rt (db, n) id = Ok (db', n + 1)
    /\ (forall t, t ∈ event_ids db' -> t = rt n \/ t ∈ event_ids db)
    /\ row_id <$> job_attempts db' = row_id <$> job_attempts db.
Proof.
  intros Hok Hv Ht [j Hj]. unfold rescue_job. rewrite Hj. apply table_get_elem in Hj as [Hj _].
  pose proof (do_job _ Hok j Hj) as Hjo.
  assert (0 <= fencing_generation j) as Hg by (rewrite (jo_generation _ _ Hjo); apply (jo_budget _ _ Hjo)).
  assert (forall ty out j', mem (ty, out) JOB_OUTCOMES = true -> same_counts j j' ->
    exists events, job_event ty out j' now (rt n) (audit_events db) = Ok events
      /\ (forall t, t ∈ (ev_id <$> events) -> t = rt n \/ t ∈ event_ids db)) as Hev.
  { intros ty out j' Hm (Hsub & _ & Hgen). apply job_event_total; [apply (do_audit _ Hok)|done| |lia|done].
    pose proof (Hv j Hj) as Hvj. unfold valid_ids in *. by rewrite Hsub. }
  assert (forall f, row_id <$> table_put_opt (set_attempt ATT_EXPIRED f (Some now)
            <$> find_attempt db (job_id j) (fencing_generation j)) (job_attempts db)
          = row_id <$> job_attempts db) as Hids.
  { intros f. destruct (find_attempt _ _ _); [apply table_put_ids|done]. }
  destruct (scope_ok db j); cbn [negb]; [destruct (max_attempts j <=? attempt_count j)|];
    lazymatch goal with |- context [job_event ?ty ?out ?k] =>
      destruct (Hev ty out k eq_refl) as (events & -> & Hi); [done|] end; eexists; repeat split; try done; apply Hids.
Qed.

Lemma evolves_valid_ids gs db db' :
  db_ok db -> db_ok db' -> evolves gs db db' -> (forall j : JobRecord, j ∈ jobs db -> valid_ids j) ->
  forall j : JobRecord, j ∈ jobs db' -> valid_ids j.
Proof.
  intros Hok Hok' Hev Hv k Hk. pose proof (table_elem_get (jobs db') k (do_jobs _ Hok') Hk) as Hgk.
  assert (row_id k ∈ (row_id <$> jobs db)) as Hin.
  { rewrite <- (ev_ids _ _ _ Hev). apply list_elem_of_fmap. eauto. }
  apply list_elem_of_fmap in Hin as (k0 & Ek & Hk0).
  pose proof (table_elem_get (jobs db) k0 (do_jobs _ Hok) Hk0) as Hgk0. rewrite <- Ek in Hgk0.
  destruct (ev_row _ _ _ Hev _ _ Hgk0) as (k1 & Hk1 & Hsub & _). assert (k1 = k) as -> by congruence.
  pose proof (Hv k0 Hk0) as Hvk. unfold valid_ids in *. by rewrite Hsub.
Qed.

Lemma rescue_loop_total now rt ids db n :
  db_ok db -> (forall j : JobRecord, j ∈ jobs db -> valid_ids j) -> NoDup ids ->
  (forall id, id ∈ ids -> exists j, table_get id (jobs db) = Some j /\ expired now j = true) ->
  (forall i, n <= i -> rt i ∉ event_ids db) -> (forall i k, rt i = rt k -> i = k) ->
  exists db' n', foldM (rescue_job now rt) (db, n) ids = Ok (db', n')
    /\ (forall t, t ∈ event_ids db' -> (exists i, t = rt i) \/ t ∈ event_ids db)
    /\ row_id <$> job_attempts db' = row_id <$> job_attempts db.
Proof.
  revert db n. induction ids as [|id ids IH]; intros db n Hok Hv Hnd Hex Hfresh Hinj; cbn [foldM].
  - exists db, n. auto.
  - destruct (Hex id) as (j & Hj & Hej); [set_solver|].
    destruct (rescue_job_total now rt db n id Hok Hv (Hfresh n ltac:(lia)) ltac:(eauto)) as (db1 & H1 & Hev & Hatt).
    destruct (rescue_job_row _ _ _ _ _ _ _ _ Hj H1) as (_ & j' & Hjobs & Hid' & _).
    assert (forall k, table_get id (jobs db) = Some k -> expired now k = true) as Hex1 by (intros k Hk; congruence).
    pose proof (rescue_job_good _ _ _ _ _ _ _ Hok Hex1 H1) as [Hok1 Hev1].
    rewrite H1. simpl. apply NoDup_cons in Hnd as [Hid Hnd].
    destruct (IH db1 (n + 1)) as (db' & n' & Hf & Hi & Ha); [done| |done| | |done|].
    + by apply (evolves_valid_ids [] db db1).
    + intros i Hi. destruct (Hex i) as (k & Hk & Hek); [set_solver|]. exists k. split; [|done].
      rewrite Hjobs, table_get_put_ne; [done|]. rewrite Hid'. intros ->. done.
    + intros i Hi [E|Hin]%Hev; [apply Hinj in E; lia|]. by apply (Hfresh i ltac:(lia)).
    + exists db', n'. split; [done|]. split; [|congruence]. intros t [?|Ht]%Hi; [by left|].
      apply Hev in Ht as [->|?]; eauto.
Qed.

Lemma grant_total worker now tok1 tok2 db (j : JobRecord) :
  db_ok db -> j ∈ jobs db -> valid_ids j -> tok2 ∉ event_ids db -> tok1 ∉ (row_id <$> job_attempts db) ->
  instant_min <= now -> now + LEASE_DURATION <= instant_max ->
  exists x, grant worker now tok1 tok2 db j = Ok x.
Proof.
  intros Hok Hj Hv Ht2 Ht1 Hlo Hhi. unfold grant, datetime_check.
  rewrite (proj2 (Z.ltb_ge _ _)), (proj2 (Z.ltb_ge _ _)) by (unfold LEASE_DURATION, US_PER_SECOND in *; lia). simpl.
  pose proof (do_job _ Hok j Hj) as Hjo.
  destruct (job_event_total "JOB_LEASED" "LEASED" (grant_lease worker now (now + LEASE_DURATION) j) now tok2
    (audit_events db)) as (events & -> & _); [apply (do_audit _ Hok)|done|done| |done|].
  { simpl. rewrite (jo_generation _ _ Hjo). pose proof (jo_budget _ _ Hjo). lia. }
  simpl. unfold add_attempt. simpl.
  assert (existsb (fun b => String.eqb (att_job_id b) (job_id j) && ((attempt_number b =? attempt_count j + 1)
    || (att_fencing_generation b =? fencing_generation j + 1))) (job_attempts db) = false) as ->.
  { apply not_true_iff_false. intros (b & Hb & Hc)%existsb_exists. apply andb_true_iff in Hc as [Hbj Hc].
    apply String.eqb_eq in Hbj. apply list_elem_of_In in Hb.
    assert ((attempt_number b, att_fencing_generation b) ∈ ((fun n => (n, n)) <$> seqZ 1 (attempt_count j))) as Hin.
    { rewrite <- (jo_attempts _ _ Hjo). apply list_elem_of_fmap. exists b. split; [done|]. by apply attempts_of_elem. }
    apply list_elem_of_fmap in Hin as (m & [= E1 E2] & Hm). apply elem_of_seqZ in Hm.
    rewrite E1, E2, (jo_generation _ _ Hjo) in Hc. apply orb_true_iff in Hc as [Hc|Hc]; bools; lia. }
  simpl. unfold table_add. rewrite (proj2 (mem_false _ _)) by done. simpl. eauto.
Qed.

(** The random tokens do not collide with identifiers in use, nor with each other. *)
Record fresh_tokens (rt : Z -> string) (tok1 tok2 : string) (db : Database) : Prop := {
  ft_rescue : forall i, rt i ∉ event_ids db;
  ft_inj : forall i k, rt i = rt k -> i = k;
  ft_event : tok2 ∉ event_ids db;
  ft_event_rescue : forall i, rt i <> tok2;
  ft_attempt : tok1 ∉ (row_id <$> job_attempts db)
}.

Lemma lease_next_succeeds worker now kinds rt tok1 tok2 db :
  db_ok db -> (forall j : JobRecord, j ∈ jobs db -> valid_ids j) -> fresh_tokens rt tok1 tok2 db ->
  Forall (fun k => k ∈ JOB_DEFINITIONS.*1) (default [] kinds) ->
  instant_min <= now -> now + LEASE_DURATION <= instant_max ->
  exists db' r, lease_next worker now kinds rt tok1 tok2 db = (db', Ok r).
Proof.
  intros Hok Hv [Hf1 Hinj Hf2 Hne Hf3] Hkinds Hlo Hhi. unfold lease_next, transaction at 1.
  destruct (rescue_loop_total now rt (row_id <$> List.filter (expired now) (jobs db)) db 0) as (db1 & n & Hr & Hi & Ha);
    [done|done|apply NoDup_fmap_filter, (do_jobs _ Hok)| |auto|done|].
  { intros id (j & -> & Hj)%list_elem_of_fmap. apply list_elem_of_In, filter_In in Hj as [Hj He].
    apply list_elem_of_In in Hj. exists j. split; [|done]. apply table_elem_get; [apply (do_jobs _ Hok)|done]. }
  unfold rescue_expired at 1. rewrite Hr.
  destruct (rescue_expired_good now rt db db1 n Hok Hr) as ([Hok1 Hev1] & _ & _).
  assert (existsb (fun k => negb (mem k JOB_DEFINITIONS.*1)) (default JOB_DEFINITIONS.*1 kinds) = false) as ->.
  { apply not_true_iff_false. intros (k & Hk & Hm)%existsb_exists. apply list_elem_of_In in Hk.
    apply negb_true_iff, mem_false in Hm. destruct kinds as [ks|]; [|done]. simpl in *.
    rewrite Forall_forall in Hkinds. by apply Hm, Hkinds. }
  destruct (default JOB_DEFINITIONS.*1 kinds) as [|k ks] eqn:Ek; [eauto|]. rewrite <- Ek. clear Ek k ks.
  destruct (lease_loop_spec (length (jobs db1)) worker now (default (JOB_DEFINITIONS.*1) kinds) tok1 tok2 db1 _
      Hok1 eq_refl) as (db2 & Hg2 & Hrows & _ & [He2 Ha2] & Hloop).
  { unfold candidates. rewrite length_sorted_by. apply List.filter_length_le. }
  unfold transaction. rewrite Hloop. destruct (List.find _ _) as [j|] eqn:Hf; [|eauto].
  apply List.find_some in Hf as [Hj Hs]. apply list_elem_of_In, candidates_elem in Hj as [Hj _].
  assert (j ∈ jobs db2) as Hj2 by (destruct (Hrows j Hj) as [?|(_ & _ & ?)]; [done|congruence]).
  destruct (grant_total worker now tok1 tok2 db2 j) as [[db' r] ->]; [apply Hg2|done| | | |done|done|eauto].
  - by apply (evolves_valid_ids [] db db1).
  - unfold event_ids. rewrite He2. intros [[i E]|E]%Hi; [by apply (Hne i)|done].
  - by rewrite Ha2, Ha.
Qed.
End Loop.

(** ** Histories *)

(** What can happen to the job tables: a submission, a change of the scopes a
    job captured, and the operations of the service. *)
Inductive op :=
| Submit (s : JobSubmission) (ready : Z)
| SetScopes (us : list UserRecord) (ims : list ImportRecord) (ps : list ProfileVersionRecord)
| LeaseNext (worker : string) (now : Z) (kinds : option (list string))
    (rescue_token : Z -> string) (attempt_token event_token : string)
| Start (lease : JobLease) (now : Z)
| Heartbeat (lease : JobLease) (now : Z)
| Fail (lease : JobLease) (code : string) (retryable : bool) (now : Z) (token : string)
| CompleteSystem (lease : JobLease) (now : Z) (token : string)
| Cancel (owner id : string) (now : Z) (token : string).

(** The row a submission adds. *)
Definition submitted (s : JobSubmission) (ready : Z) : JobRecord :=
  {| job_submission := s; job_state := QUEUED; attempt_count := 0; fencing_generation := 0;
     lease_owner := None; lease_acquired_at := None; lease_expires_at := None; heartbeat_at := None;
     not_before := ready; cancel_requested := false; job_failure_code := None;
     terminal_result_type := None; terminal_result_id := None; terminal_semantic_hash := None;
     job_completed_at := None |}.

Definition submit (s : JobSubmission) (ready : Z) (db : Database) : Database :=
  if mem (job_id s) (row_id <$> jobs db) || (max_attempts s <=? 0) then db
  else {| users := users db; imports := imports db; profile_versions := profile_versions db;
          jobs := jobs db ++ [submitted s ready]; job_attempts := job_attempts db;
          audit_events := audit_events db |}.

Definition set_scopes us ims ps (db : Database) : Database :=
  {| users := us; imports := ims; profile_versions := ps; jobs := jobs db;
     job_attempts := job_attempts db; audit_events := audit_events db |}.

Section History.
Context `{Sha256}.

(** The database after an operation and the leases it granted. *)
Definition perform (o : op) (db : Database) : Database * list JobLease :=
  match o with
  | Submit s ready => (submit s ready db, [])
  | SetScopes us ims ps => (set_scopes us ims ps db, [])
  | LeaseNext worker now kinds rt tok1 tok2 =>
      match lease_next worker now kinds rt tok1 tok2 db with
      | (db', Ok (Some l)) => (db', [l])
      | (db', _) => (db', [])
      end
  | Start lease now => ((start lease now db).1, [])
  | Heartbeat lease now => ((heartbeat lease now db).1, [])
  | Fail lease code retryable now token => ((fail lease code retryable now token db).1, [])
  | CompleteSystem lease now token => ((complete_system lease now token db).1, [])
  | Cancel owner id now token => ((cancel owner id now token db).1, [])
  end.

Fixpoint execute (ops : list op) (db : Database) : Database * list JobLease :=
  match ops with
  | [] => (db, [])
  | o :: ops' =>
      let '(db1, gs1) := perform o db in
      let '(db2, gs2) := execute ops' db1 in
      (db2, gs1 ++ gs2)
  end.

Definition empty_database : Database :=
  {| users := []; imports := []; profile_versions := []; jobs := []; job_attempts := []; audit_events := [] |}.

(** The leases granted so far are numbered by the generations of their jobs. *)
Definition history_ok (db : Database) (gs : list JobLease) : Prop :=
  db_ok db /\ (forall l, l ∈ gs -> l_job_id l ∈ (row_id <$> jobs db))
  /\ forall j : JobRecord, j ∈ jobs db -> l_fencing_generation <$> leases_of (job_id j) gs = seqZ 1 (attempt_count j).

Lemma service_good o db db' gs :
  db_ok db -> perform o db = (db', gs) ->
  match o with Submit _ _ | SetScopes _ _ _ => True | _ => good gs db db' end.
Proof.
  intros Hok Hp. destruct o; try done; simpl in Hp.
  - destruct (lease_next _ _ _ _ _ _ _) as [db1 r] eqn:Hl.
    apply lease_next_cases in Hl as [(e & -> & Hg)|(db0 & n & _ & Hg0 & _ & Hm)]; [|..|done].
    + by injection Hp as <- <-.
    + destruct (List.find _ _) as [j|].
      * destruct Hm as (l & -> & Hg & _). injection Hp as <- <-. by apply (good_trans [] [l] _ db0).
      * destruct Hm as (-> & Hg). injection Hp as <- <-. by apply (good_trans [] [] _ db0).
  - injection Hp as <- <-. eapply start_good; [done|apply surjective_pairing].
  - injection Hp as <- <-. eapply heartbeat_good; [done|apply surjective_pairing].
  - injection Hp as <- <-. eapply fail_good; [done|apply surjective_pairing].
  - injection Hp as <- <-. eapply complete_system_good; [done|apply surjective_pairing].
  - injection Hp as <- <-. eapply cancel_good; [done|apply surjective_pairing].
Qed.

Lemma leases_of_app id gs1 gs2 : leases_of id (gs1 ++ gs2) = leases_of id gs1 ++ leases_of id gs2.
Proof. apply List.filter_app. Qed.

Lemma leases_of_nil id gs : (forall l, l ∈ gs -> l_job_id l <> id) -> leases_of id gs = [].
Proof.
  induction gs as [|l gs IH]; intros Hl; [done|]. unfold leases_of. simpl.
  destruct (String.eqb_spec (l_job_id l) id) as [E|_]; [by apply (Hl l) in E; [|set_solver]|].
  apply IH. set_solver.
Qed.

Lemma history_evolves db db' gs gs' :
  history_ok db gs -> good gs' db db' -> history_ok db' (gs ++ gs').
Proof.
  intros (Hok & Hin & Hn) [Hok' Hev]. split; [done|]. split.
  - intros l. rewrite (ev_ids _ _ _ Hev). intros [Hl|Hl]%elem_of_app; [by apply Hin|by apply (ev_granted _ _ _ Hev)].
  - intros j' Hj'. assert (row_id j' ∈ (row_id <$> jobs db)) as Hi.
    { rewrite <- (ev_ids _ _ _ Hev). apply list_elem_of_fmap. eauto. }
    apply list_elem_of_fmap in Hi as (j & Ej & Hj).
    destruct (ev_row _ _ _ Hev (job_id j) j) as (j1 & Hj1 & _ & _ & Hc & Hg); [by apply job_get|].
    assert (job_id j' = job_id j) as Eid by exact Ej.
    assert (j1 = j') as -> by (pose proof (job_get db' j' Hok' Hj') as Hx; rewrite Eid in Hx; congruence).
    rewrite Eid, leases_of_app, fmap_app, (Hn j Hj), Hg, Hc.
    rewrite seqZ_app by (pose proof (jo_budget _ _ (do_job _ Hok j Hj)); lia).
    f_equal. f_equal. lia.
Qed.

Lemma submit_history s ready db gs : history_ok db gs -> history_ok (submit s ready db) gs.
Proof.
  intros (Hok & Hin & Hn). unfold submit. case_match eqn:Hc; [done|]. bools.
  assert (attempts_of db (job_id s) = []) as Hnone.
  { unfold attempts_of. destruct (List.filter _ _) as [|a l] eqn:E; [done|]. exfalso.
    assert (a ∈ attempts_of db (job_id s)) as Ha by (unfold attempts_of; rewrite E; set_solver).
    apply attempts_of_elem in Ha as [Ha Hs]. apply (do_owned _ Hok) in Ha. rewrite Hs in Ha. done. }
  split; [constructor|split].
  - simpl. apply NoDup_fmap_snoc; [apply (do_jobs _ Hok)|done].
  - apply (do_attempts _ Hok).
  - intros a Ha. simpl. rewrite fmap_app. apply elem_of_app. left. by apply (do_owned _ Hok).
  - intros j Hj. simpl in Hj. apply elem_of_app in Hj as [Hj| ->%list_elem_of_singleton].
    + by apply (do_job _ Hok).
    + change (attempts_of _ _) with (attempts_of db (job_id s)). rewrite Hnone.
      constructor; simpl; [done|lia|done|]. split; [lia|]. by split; [|constructor].
  - apply (do_audit _ Hok).
  - intros l Hl. simpl. rewrite fmap_app. apply elem_of_app. left. by apply Hin.
  - intros j Hj. simpl in Hj. apply elem_of_app in Hj as [Hj| ->%list_elem_of_singleton]; [by apply Hn|].
    simpl. rewrite leases_of_nil; [done|]. intros l Hl E. apply Hin in Hl. rewrite E in Hl. done.
Qed.

Lemma perform_history o db gs db' gs' :
  history_ok db gs -> perform o db = (db', gs') -> history_ok db' (gs ++ gs').
Proof.
  intros Hh Hp. pose proof (service_good o db db' gs' (proj1 Hh) Hp) as Hg.
  destruct o; simpl in Hg; try by eapply history_evolves.
  - injection Hp as <- <-. rewrite app_nil_r. by apply submit_history.
  - injection Hp as <- <-. rewrite app_nil_r. destruct Hh as ([] & ? & ?). split; [by constructor|done].
Qed.

Lemma execute_history ops db gs db' gs' :
  history_ok db gs -> execute ops db = (db', gs') -> history_ok db' (gs ++ gs').
Proof.
  revert db gs gs'. induction ops as [|o ops IH]; intros db gs gs' Hh He; cbn [execute] in He.
  - injection He as <- <-. by rewrite app_nil_r.
  - destruct (perform o db) as [db1 gs1] eqn:Hp. destruct (execute ops db1) as [db2 gs2] eqn:Hx.
    injection He as <- <-. rewrite app_assoc. eapply IH; [by eapply perform_history|done].
Qed.

Lemma empty_history : history_ok empty_database [].
Proof. split; [constructor; try apply NoDup_nil; try set_solver|]; [|set_solver]. repeat split; constructor. Qed.

Lemma reachable_history ops db gs : execute ops empty_database = (db, gs) -> history_ok db gs.
Proof. intros He. apply (execute_history _ _ [] _ _ empty_history He). Qed.
End History.

(** ** A concrete history *)
Definition retention_job : JobSubmission := {|
  job_id := "5f2b0c"; job_owner_user_id := None; job_kind := "RETENTION";
  job_request_schema_version := "retention-sweep-v1"; job_request_hash := "5f2b0c";
  job_scope_mode := "SYSTEM_SCOPE"; job_request_json := "{}"; job_import_id := None;
  job_profile_version_id := None; captured_account_generation := 0; captured_import_generation := None;
  captured_profile_generation := None; max_attempts := 2; requested_semantic_hash := None;
  calculation_contract_version := None; job_created_at := 0 |}.
Definition orphan_job : JobSubmission := {|
  job_id := "00aa11"; job_owner_user_id := Some "0123456789abcdef0123456789abcdef"; job_kind := "REPLAY";
  job_request_schema_version := "replay-v1"; job_request_hash := "00aa11";
  job_scope_mode := "ACTIVE_SCOPE"; job_request_json := "{}"; job_import_id := None;
  job_profile_version_id := None; captured_account_generation := 0; captured_import_generation := None;
  captured_profile_generation := None; max_attempts := 3; requested_semantic_hash := None;
  calculation_contract_version := None; job_created_at := 0 |}.

Definition tokens (prefix : string) (i : Z) : string := prefix +:+ pretty i.
Definition seconds (n : Z) : Z := n * US_PER_SECOND.

(** Two workers: the first lets its lease expire, the second is granted the job. *)
Definition two_workers : list op :=
  [ Submit retention_job 0; Submit orphan_job 0;
    LeaseNext "worker-a" (seconds 1) None (tokens "r") "a1" "e1";
    LeaseNext "worker-b" (seconds 30) None (tokens "s") "a2" "e2" ].
Definition after_two_workers : Database * list JobLease :=
  @execute toy_sha256 two_workers empty_database.

Example two_workers_leases :
  (fun l => (l_job_id l, l_worker_id l, l_fencing_generation l)) <$> after_two_workers.2
  = [("5f2b0c", "worker-a", 1); ("5f2b0c", "worker-b", 2)]
  /\ (fun j : JobRecord => (job_id j, job_state j, job_failure_code j)) <$> jobs after_two_workers.1
  = [("5f2b0c", LEASED, None); ("00aa11", CANCELLED, Some "SCOPE_FENCED")].
Proof. split; vm_compute; reflexivity. Qed.

(** ** Theorems *)
Section Theorems.
Context `{Sha256}.

Lemma generation_current db gs (j : JobRecord) l :
  history_ok db gs -> j ∈ jobs db -> l ∈ gs -> l_job_id l = job_id j ->
  1 <= l_fencing_generation l <= fencing_generation j.
Proof.
  intros (Hok & _ & Hn) Hj Hl El. rewrite (jo_generation _ _ (do_job _ Hok j Hj)).
  assert (l_fencing_generation l ∈ (l_fencing_generation <$> leases_of (job_id j) gs)) as Hin.
  { apply list_elem_of_fmap. exists l. split; [done|]. apply list_elem_of_In, filter_In.
    rewrite <- list_elem_of_In, El, String.eqb_refl. done. }
  rewrite (Hn j Hj) in Hin. apply elem_of_seqZ in Hin. lia.
Qed.

(** C25: A lease that has been replaced is inert.  After any history of
    submissions, scope changes, leases, heartbeats, failures, completions and
    cancellations by any number of workers, a lease whose job was granted again
    under a later generation can no longer start, extend, fail or finish the job:
    every operation with it returns false and leaves the database unchanged. *)
Theorem stale_leases_are_inert ops db gs old new :
  execute ops empty_database = (db, gs) -> old ∈ gs -> new ∈ gs -> l_job_id old = l_job_id new ->
  l_fencing_generation old < l_fencing_generation new ->
  forall now code retryable token,
    start old now db = (db, Ok false) /\ heartbeat old now db = (db, Ok false)
    /\ fail old code retryable now token db = (db, Ok false)
    /\ (forall states, current_fenced_job old now states db = None).
Proof.
  intros He Ho Hn Eid Hlt now code retryable token. apply reachable_history in He.
  destruct (table_get (l_job_id old) (jobs db)) as [j|] eqn:Hg.
  - apply table_get_elem in Hg as Hj. destruct Hj as [Hj Ej].
    assert (lease_matches j old = false) as Hm.
    { apply not_true_iff_false. intros Hm%lease_matches_generation.
      assert (l_job_id new = job_id j) as Enew by (rewrite <- Eid; symmetry; exact Ej).
      pose proof (generation_current db gs j new He Hj Hn Enew). lia. }
    unfold start, conditional_state, heartbeat, fail, current_fenced_job, transaction. rewrite Hg. simpl.
    rewrite Hm, !andb_false_r, !orb_true_r. simpl. repeat split. intros states. by rewrite andb_false_r.
  - unfold start, conditional_state, heartbeat, fail, current_fenced_job, transaction. by rewrite Hg.
Qed.

(** Retries are bounded and attempts are numbered.  After any history the
    leases granted for a job carry the generations 1, 2, 3, ... without a gap or a
    repetition, there are as many of them as the job's attempt count, and the
    count never exceeds the submitted maximum. *)
Theorem attempts_bounded ops db gs (j : JobRecord) :
  execute ops empty_database = (db, gs) -> j ∈ jobs db ->
  l_fencing_generation <$> leases_of (job_id j) gs = seqZ 1 (attempt_count j)
  /\ fencing_generation j = attempt_count j /\ 0 <= attempt_count j <= max_attempts j.
Proof.
  intros (Hok & _ & Hn)%reachable_history Hj. pose proof (do_job _ Hok j Hj) as Hjo.
  split; [by apply Hn|]. split; [apply (jo_generation _ _ Hjo)|apply (jo_budget _ _ Hjo)].
Qed.

(** A finished job never changes.  Once a job has succeeded, failed or been
    cancelled, no later operation of the service, by any worker and with any
    lease, changes any column of its row. *)
Theorem terminal_jobs_frozen ops db gs id j o db' gs' :
  execute ops empty_database = (db, gs) -> table_get id (jobs db) = Some j -> terminal (job_state j) = true ->
  perform o db = (db', gs') -> table_get id (jobs db') = Some j.
Proof.
  intros (Hok & _)%reachable_history Hj Ht Hp. pose proof (service_good o db db' gs' Hok Hp) as Hg.
  assert (good gs' db db' -> table_get id (jobs db') = Some j) as Hfrozen.
  { intros [_ Hev]. destruct (ev_row _ _ _ Hev _ _ Hj) as (j' & Hj' & _ & Hf & _). by rewrite (Hf Ht) in Hj'. }
  destruct o; try by apply Hfrozen.
  - injection Hp as <- <-. unfold submit. case_match eqn:Hc; [done|]. bools. simpl.
    rewrite table_get_snoc by done. rewrite decide_False; [done|]. intros E.
    apply table_get_elem in Hj as [Hj Ej]. destruct H0. apply list_elem_of_fmap. exists j.
    split; [|done]. rewrite Ej, <- E. done.
  - by injection Hp as <- <-.
Qed.

(** C26: Leasing is fair, safe and available.  After any history, with valid
    identifiers, colliding with nothing, [lease_next] returns: first the expired
    leases are rescued, so that no active job has an expired lease afterwards;
    then the oldest leasable job (by creation time, then identifier) whose
    captured scope is still valid is granted to the caller for twenty seconds,
    and nothing is granted only if there is no such job. *)
Theorem lease_next_grants_oldest ops db gs worker now kinds rt tok1 tok2 :
  execute ops empty_database = (db, gs) -> (forall j : JobRecord, j ∈ jobs db -> valid_ids j) ->
  fresh_tokens rt tok1 tok2 db -> Forall (fun k => k ∈ JOB_DEFINITIONS.*1) (default [] kinds) ->
  instant_min <= now -> now + LEASE_DURATION <= instant_max ->
  exists db1 n db' r, rescue_expired now rt db = Ok (db1, n)
    /\ lease_next worker now kinds rt tok1 tok2 db = (db', Ok r)
    /\ Forall (fun j => expired now j = false) (jobs db')
    /\ let ready j := j ∈ jobs db1 /\ leasable now (default (JOB_DEFINITIONS.*1) kinds) j = true
                      /\ scope_ok db1 j = true in
       match r with
       | None => forall j, ~ ready j
       | Some l => exists j, ready j /\ granted_to worker now j l db'
                     /\ forall k, ready k -> py_leb (job_key j) (job_key k) = true
       end.
Proof.
  intros (Hok & _)%reachable_history Hv Hf Hk Hlo Hhi.
  destruct (lease_next_succeeds worker now kinds rt tok1 tok2 db Hok Hv Hf Hk Hlo Hhi) as (db' & r & Hl).
  destruct (lease_next_cases _ _ _ _ _ _ _ _ _ Hok Hl) as [(e & ? & _)|(db1 & n & Hr & _ & Hx & Hm)]; [done|].
  exists db1, n, db', r. split; [done|]. split; [done|]. split; [done|]. cbv zeta.
  destruct (List.find _ _) as [j|] eqn:Hfind.
  - destruct Hm as (l & [= ->] & _ & Hgr). exists j.
    apply List.find_some in Hfind as Hj. destruct Hj as [Hj Hs]. apply list_elem_of_In, candidates_elem in Hj.
    split; [naive_solver|]. split; [done|]. intros k (Hk1 & Hk2 & Hk3).
    assert (k ∈ candidates now (default JOB_DEFINITIONS.*1 kinds) db1) as Hkc by by apply candidates_elem.
    eapply find_first_sorted; [apply sorted_by_sorted|exact Hfind|exact Hkc|done].
  - destruct Hm as ([= ->] & _). intros k (Hk1 & Hk2 & Hk3).
    assert (k ∈ candidates now (default JOB_DEFINITIONS.*1 kinds) db1) as Hkc by by apply candidates_elem.
    apply list_elem_of_In in Hkc. pose proof (List.find_none _ _ Hfind k Hkc). congruence.
Qed.
End Theorems.

(** ** Witnesses *)
Definition retention_lease (worker : string) (generation expires : Z) : JobLease := {|
  l_job_id := "5f2b0c"; l_import_id := None; l_worker_id := worker; l_attempt_number := generation;
  l_fencing_generation := generation; l_lease_expires_at := expires; l_kind := "RETENTION";
  l_profile_version_id := None; l_scope_mode := "SYSTEM_SCOPE" |}.

Lemma two_workers_granted :
  after_two_workers.2 = [retention_lease "worker-a" 1 (seconds 21); retention_lease "worker-b" 2 (seconds 50)].
Proof. vm_compute. reflexivity. Qed.

Lemma two_workers_run : @execute toy_sha256 two_workers empty_database = (after_two_workers.1, after_two_workers.2).
Proof. apply surjective_pairing. Qed.

Lemma stale_leases_are_inert_witness :
  start (retention_lease "worker-a" 1 (seconds 21)) (seconds 31) after_two_workers.1
  = (after_two_workers.1, Ok false).
Proof.
  destruct (stale_leases_are_inert (H := toy_sha256) two_workers _ _
    (retention_lease "worker-a" 1 (seconds 21)) (retention_lease "worker-b" 2 (seconds 50)) two_workers_run)
    with (now := seconds 31) (code := "X") (retryable := true) (token := "t") as [Hs _].
  - rewrite two_workers_granted. set_solver.
  - rewrite two_workers_granted. set_solver.
  - reflexivity.
  - reflexivity.
  - exact Hs.
Defined.

Lemma attempts_bounded_witness :
  exists j : JobRecord, j ∈ jobs after_two_workers.1 /\ attempt_count j = 2 /\ attempt_count j <= max_attempts j.
Proof.
  destruct (jobs after_two_workers.1) as [|j l] eqn:E; [by vm_compute in E|].
  assert (attempt_count j = 2) as Hc.
  { assert (head (attempt_count <$> jobs after_two_workers.1) = Some 2) as Hh by (vm_compute; reflexivity).
    rewrite E in Hh. simpl in Hh. congruence. }
  exists j. split; [set_solver|]. split; [done|].
  apply (attempts_bounded (H := toy_sha256) two_workers _ _ j two_workers_run). rewrite E. set_solver.
Defined.

Lemma terminal_jobs_frozen_witness :
  exists j : JobRecord, table_get "00aa11" (jobs after_two_workers.1) = Some j /\
  table_get "00aa11" (jobs (@perform toy_sha256
    (Cancel "0123456789abcdef0123456789abcdef" "00aa11" (seconds 40) "t") after_two_workers.1).1) = Some j.
Proof.
  destruct (table_get "00aa11" (jobs after_two_workers.1)) as [j|] eqn:E; [|by vm_compute in E].
  exists j. split; [done|]. eapply (terminal_jobs_frozen (H := toy_sha256) two_workers _ _ _ _ _ _ _ two_workers_run E);
    [|apply surjective_pairing].
  assert (((fun k : JobRecord => terminal (job_state k)) <$> table_get "00aa11" (jobs after_two_workers.1)) = Some true)
    as Ht by (vm_compute; reflexivity).
  rewrite E in Ht. simpl in Ht. congruence.
Defined.

Lemma tokens_inj p i k : tokens p i = tokens p k -> i = k.
Proof. unfold tokens. intros E. apply (inj (String.append p)) in E. by apply (inj pretty) in E. Qed.

Lemma lease_next_grants_oldest_witness :
  exists db' r, @lease_next toy_sha256 "worker-c" (seconds 60) None (tokens "q") "a3" "e3" after_two_workers.1
    = (db', Ok r) /\ Forall (fun j => expired (seconds 60) j = false) (jobs db').
Proof.
  destruct (lease_next_grants_oldest (H := toy_sha256) two_workers _ _ "worker-c" (seconds 60) None
    (tokens "q") "a3" "e3" two_workers_run) as (db1 & n & db' & r & _ & Hl & Hx & _).
  - intros j Hj. assert (job_submission j ∈ [retention_job; orphan_job]) as Hs.
    { replace [retention_job; orphan_job] with (job_submission <$> jobs after_two_workers.1) by (vm_compute; reflexivity).
      apply list_elem_of_fmap. eauto. }
    apply elem_of_cons in Hs as [-> |Hs]; [by split|]. apply list_elem_of_singleton in Hs as ->.
    split; [|done]. intros o [= <-]. reflexivity.
  - assert (event_ids after_two_workers.1 = ["e1"; "s0"; "e2"]) as He by (vm_compute; reflexivity).
    constructor; rewrite ?He.
    + intros i Hin. repeat (apply elem_of_cons in Hin as [Hin|Hin]; [discriminate Hin|]). set_solver.
    + apply tokens_inj.
    + set_solver.
    + intros i Hi. discriminate Hi.
    + replace (row_id <$> job_attempts after_two_workers.1) with ["a1"; "a2"] by (vm_compute; reflexivity). set_solver.
  - constructor.
  - vm_compute. discriminate.
  - vm_compute. discriminate.
  - exists db', r. done.
Defined.
