(* ===== verification/Ledger.v ===== *)
(** * Ledger: the encrypted deletion ledger (persistence/deletion_ledger.py)

    The ledger is four files: three signed control files (active, genesis, head)
    and an append-only stream of encrypted records, chained by hash.  Operations
    run under an exclusive lock, so each is a function of the disk that may raise
    and still leave it changed ([io]).  Every write has an outcome of its own
    ([Platform]): it may be cut short, raise, or both.  The random tokens come
    from the same class; AES-GCM, HKDF and HMAC are [Crypto].  A [datetime] is an
    instant, or [None] when it is naive; [now] is the reading of the clock.  The
    fields of a decrypted event are read at the types the ledger writes. *)

From Stdlib Require Import Ascii.
From S2P Require Import Prelude Float Json JsonCanonical JsonLoads Calendar PyText IsoTime Base64 Keyrings Deletion.

Definition ledger_error (code : string) : exn := ServiceError "DeletionLedgerError" code.
Definition type_error : exn := PyError "TypeError".
Definition value_error : exn := PyError "ValueError".
Definition os_error : exn := PyError "OSError".

(** ** The platform *)

(** What became of one write: the number of bytes that reached the file, when
    not all of them did, and whether an [OSError] was raised. *)
Record outcome := { kept : option nat; failed : bool }.
Definition stored : outcome := {| kept := None; failed := false |}.

Class Platform := {
  token_bytes : nat -> nat -> string;  (** the [i]-th random token, of [n] bytes *)
  write_outcome : nat -> outcome       (** the outcome of the [i]-th write *)
}.
Class Crypto := {
  hkdf_sha256 : string -> string -> string -> string;    (** salt, info, master key *)
  hmac_sha256_hex : string -> string -> string;          (** key, message *)
  aes_encrypt : string -> string -> string -> string -> string;         (** key, nonce, data, associated data *)
  aes_decrypt : string -> string -> string -> string -> option string   (** [None] for [InvalidTag] *)
}.

Inductive control := Active | Genesis | Head.
Record Disk := {
  d_active : option string; d_genesis : option string; d_head : option string; d_stream : option string;
  d_marker : bool;              (** [.deletion-ledger-migration-in-progress] *)
  d_legacy : bool;              (** a plaintext v1 stream or genesis *)
  d_artifact : option string;   (** the key-rotation artifact *)
  d_draws : nat; d_writes : nat
}.
Definition control_file (f : control) (d : Disk) : option string :=
  match f with Active => d_active d | Genesis => d_genesis d | Head => d_head d end.
Definition put_control (f : control) (s : string) (d : Disk) : Disk :=
  {| d_active := match f with Active => Some s | _ => d_active d end;
     d_genesis := match f with Genesis => Some s | _ => d_genesis d end;
     d_head := match f with Head => Some s | _ => d_head d end;
     d_stream := d_stream d; d_marker := d_marker d; d_legacy := d_legacy d; d_artifact := d_artifact d;
     d_draws := d_draws d; d_writes := d_writes d |}.
Definition put_stream (s : string) (d : Disk) : Disk :=
  {| d_active := d_active d; d_genesis := d_genesis d; d_head := d_head d; d_stream := Some s;
     d_marker := d_marker d; d_legacy := d_legacy d; d_artifact := d_artifact d;
     d_draws := d_draws d; d_writes := d_writes d |}.
Definition put_artifact (s : string) (d : Disk) : Disk :=
  {| d_active := d_active d; d_genesis := d_genesis d; d_head := d_head d; d_stream := d_stream d;
     d_marker := d_marker d; d_legacy := d_legacy d; d_artifact := Some s;
     d_draws := d_draws d; d_writes := d_writes d |}.
Definition tick (draws writes : nat) (d : Disk) : Disk :=
  {| d_active := d_active d; d_genesis := d_genesis d; d_head := d_head d; d_stream := d_stream d;
     d_marker := d_marker d; d_legacy := d_legacy d; d_artifact := d_artifact d;
     d_draws := draws + d_draws d; d_writes := writes + d_writes d |}.

(** ** Operations on the disk *)
Definition io (A : Type) : Type := Disk -> result A * Disk.
#[export] Instance io_ret : MRet io := fun A a d => (Ok a, d).
#[export] Instance io_bind : MBind io :=
  fun A B k m d => match m d with (Ok a, d') => k a d' | (Raise e, d') => (Raise e, d') end.
Definition lift {A} (m : result A) : io A := fun d => (m, d).
Definition io_raise {A} (e : exn) : io A := lift (Raise e).
Definition io_raise_if (b : bool) (e : exn) : io unit := lift (raise_if b e).
Definition get_disk : io Disk := fun d => (Ok d, d).
(** [try: m except: raise handler]. *)
Definition except {A} (handler : exn -> exn) (m : result A) : result A :=
  match m with Ok a => Ok a | Raise e => Raise (handler e) end.
Definition io_except {A} (handler : exn -> exn) (m : io A) : io A :=
  fun d => let (r, d') := m d in (except handler r, d').
Fixpoint io_foldM {S A} (f : S -> A -> io S) (s : S) (l : list A) : io S :=
  match l with [] => mret s | x :: l' => s' ← f s x; io_foldM f s' l' end.
(** [except OSError as error: raise e from error]. *)
Definition on_os_error (e : exn) (raised : exn) : exn := if decide (raised = os_error) then e else raised.

Section Platform.
Context `{Platform}.

Definition draw (n : nat) : io string := fun d => (Ok (token_bytes (d_draws d) n), tick 1 0 d).
Definition token_hex (n : nat) : io string := t ← draw n; mret (hex t).

Definition kept_part (o : outcome) (s : string) : string :=
  match kept o with Some n => String.substring 0 n s | None => s end.
Definition outcome_result (o : outcome) : result unit := raise_if (failed o) os_error.

(** [os.write] at the end of the stream. *)
Definition append_stream (payload : string) : io unit := fun d =>
  match d_stream d with
  | None => (Raise os_error, d)
  | Some s => let o := write_outcome (d_writes d) in
              (outcome_result o, tick 0 1 (put_stream (s +:+ kept_part o payload) d))
  end.
(** A file is replaced by a complete temporary file: an error before the
    replacement leaves it alone, one after it does not. *)
Definition replace_file (put : string -> Disk -> Disk) (payload : string) : io unit := fun d =>
  let o := write_outcome (d_writes d) in
  let replaced := match kept o with Some _ => negb (failed o) | None => true end in
  (outcome_result o, tick 0 1 (if replaced then put (kept_part o payload) d else d)).
Definition atomic_write (put : string -> Disk -> Disk) (payload : string) : io unit :=
  _ ← draw 8; replace_file put payload.
(** [os.open(..., O_CREAT | O_EXCL)] and [fsync]. *)
Definition create_stream : io unit := fun d =>
  let o := write_outcome (d_writes d) in
  match d_stream d, kept o, failed o with
  | Some _, _, _ => (Raise os_error, tick 0 1 d)
  | None, Some _, true => (Raise os_error, tick 0 1 d)
  | None, _, _ => (outcome_result o, tick 0 1 (put_stream "" d))
  end.
Definition fsync_directory : io unit := fun d => (outcome_result (write_outcome (d_writes d)), tick 0 1 d).
End Platform.

(** ** Events *)
Definition phase_str (p : LedgerPhase) : string :=
  match p with PREPARED => "PREPARED" | REQUESTED => "REQUESTED" | COMPLETED => "COMPLETED" | ABORTED => "ABORTED" end.
Definition phase_of (s : string) : option LedgerPhase :=
  if String.eqb s "PREPARED" then Some PREPARED else if String.eqb s "REQUESTED" then Some REQUESTED
  else if String.eqb s "COMPLETED" then Some COMPLETED else if String.eqb s "ABORTED" then Some ABORTED else None.

Definition LEGAL_CHAINS : list (list LedgerPhase) :=
  [[PREPARED]; [PREPARED; REQUESTED]; [PREPARED; REQUESTED; COMPLETED]; [PREPARED; ABORTED]].
Definition ALLOWED_ACTORS : list string :=
  ["API_COORDINATOR"; "PREPARATION_RECONCILER"; "DELETION_WORKER"; "RESTORE_QUALIFIER"; "RETENTION_WORKER";
   "ROTATION_CLI"; "MIGRATION_CLI"; "TEST"].
Definition ALLOWED_OPERATIONS : list string :=
  ["APPEND_PREPARED"; "APPEND_REQUESTED"; "APPEND_COMPLETED"; "APPEND_ABORTED"; "READ_EVENTS"; "READ_CHAIN";
   "ENUMERATE_UNRESOLVED"; "IMPORT_LEGACY"; "VALIDATE"].

Record LedgerEvent := {
  ev_schema_version : string; ev_deletion_id : string; ev_phase : LedgerPhase; ev_scope_token : string;
  ev_restore_key_version : string; ev_original_generation : Z; ev_proposed_generation : Z;
  ev_preparation_digest : string; ev_intent_proof_digest : string; ev_occurred_at : string;
  ev_previous_receipt : option string; ev_receipt : string
}.
#[export] Instance LedgerEvent_eq_dec : EqDecision LedgerEvent.
Proof. solve_decision. Defined.
(** [asdict(event)]. *)
Definition event_fields (e : LedgerEvent) : list (string * json) :=
  [("schema_version", JStr (ev_schema_version e)); ("deletion_id", JStr (ev_deletion_id e));
   ("phase", JStr (phase_str (ev_phase e))); ("scope_token", JStr (ev_scope_token e));
   ("restore_key_version", JStr (ev_restore_key_version e)); ("original_generation", JInt (ev_original_generation e));
   ("proposed_generation", JInt (ev_proposed_generation e)); ("preparation_digest", JStr (ev_preparation_digest e));
   ("intent_proof_digest", JStr (ev_intent_proof_digest e)); ("occurred_at", JStr (ev_occurred_at e));
   ("previous_receipt", jopt JStr (ev_previous_receipt e)); ("receipt", JStr (ev_receipt e))].
Definition event_keys : list string :=
  ["schema_version"; "deletion_id"; "phase"; "scope_token"; "restore_key_version"; "original_generation";
   "proposed_generation"; "preparation_digest"; "intent_proof_digest"; "occurred_at"; "previous_receipt"; "receipt"].
Definition canonical (fs : list (string * json)) : string := ascii_json_bytes (JObj fs).
Definition canonical_without_receipt (e : LedgerEvent) : string := canonical (without "receipt" (event_fields e)).

(** ** Reading fields *)
Definition required_text (fs : list (string * json)) (key : string) : result string :=
  match dict_get key fs with
  | Some (JStr s) => if String.eqb s "" then Raise type_error else Ok s
  | _ => Raise type_error
  end.
Definition required_integer (fs : list (string * json)) (key : string) : result Z :=
  match dict_get key fs with Some (JInt n) => Ok n | _ => Raise type_error end.

Definition jtext (v : option json) : option string := match v with Some (JStr s) => Some s | _ => None end.
Definition jint (v : option json) : option Z := match v with Some (JInt n) => Some n | _ => None end.
Definition jtext_opt (v : option json) : option (option string) :=
  match v with Some (JStr s) => Some (Some s) | Some JNull => Some None | _ => None end.
(** [LedgerEvent( **raw )]. *)
Definition event_of (fs : list (string * json)) : option LedgerEvent :=
  if same_set fs.*1 event_keys then
    let text key := jtext (dict_get key fs) in
    sv ← text "schema_version"; id ← text "deletion_id"; ph ← text "phase"; ph ← phase_of ph;
    sc ← text "scope_token"; rk ← text "restore_key_version";
    og ← jint (dict_get "original_generation" fs); pg ← jint (dict_get "proposed_generation" fs);
    pd ← text "preparation_digest"; ip ← text "intent_proof_digest"; oc ← text "occurred_at";
    pr ← jtext_opt (dict_get "previous_receipt" fs); rc ← text "receipt";
    Some {| ev_schema_version := sv; ev_deletion_id := id; ev_phase := ph; ev_scope_token := sc;
            ev_restore_key_version := rk; ev_original_generation := og; ev_proposed_generation := pg;
            ev_preparation_digest := pd; ev_intent_proof_digest := ip; ev_occurred_at := oc;
            ev_previous_receipt := pr; ev_receipt := rc |}
  else None.

Record KeyRotation := {
  kr_sequence : Z; kr_record_sha256 : string; kr_previous_head_sha256 : string;
  kr_previous_ledger_key_version : string; kr_current_ledger_key_version : string;
  kr_previous_restore_key_version : string; kr_current_restore_key_version : string; kr_occurred_at : string
}.
Record LedgerState := {
  ls_ledger_id : string; ls_events : list LedgerEvent; ls_rotations : list KeyRotation; ls_last_sequence : Z;
  ls_last_record_sha256 : option string; ls_nonces : list (string * string)
}.

(** ** Comparisons with stored values *)
Definition ascii_text (s : string) : bool := forallb (fun n => (n <? 128)%N) (utf8_bytes s).
(** [hmac.compare_digest] on [str]. *)
Definition compare_digest (a b : string) : result bool :=
  if ascii_text a && ascii_text b then Ok (String.eqb a b) else Raise type_error.
(** [payload.get(key) == text] and [payload.get(key) == text_or_none]. *)
Definition is_text (v : option json) (s : string) : bool :=
  match v with Some (JStr t) => String.eqb t s | _ => false end.
Definition is_text_opt (v : option json) (o : option string) : bool :=
  match v, o with
  | Some (JStr t), Some s => String.eqb t s
  | Some JNull, None | None, None => true
  | _, _ => false
  end.
(** [value == n] of an [int], a [bool] being one. *)
Definition is_int (v : option json) (n : Z) : bool :=
  match v with Some (JInt z) => z =? n | Some (JBool b) => Z.b2z b =? n | _ => false end.
(** [value in frozenset]: lists and objects are not hashable. *)
Definition in_set (v : option json) (l : list string) : result bool :=
  match v with
  | Some (JStr s) => Ok (mem s l)
  | Some (JList _) | Some (JObj _) => Raise type_error
  | _ => Ok false
  end.

(** [text.splitlines()] on ASCII. *)
Definition line_break (c : ascii) : bool :=
  let n := N_of_ascii c in (((10 <=? n) && (n <=? 13)) || ((28 <=? n) && (n <=? 30)))%N.
Fixpoint splitlines_from (line s : string) : list string :=
  match s with
  | EmptyString => if String.eqb line "" then [] else [line]
  | String c s' =>
      if line_break c then
        match s' with
        | String c' s'' =>
            if (Ascii.eqb c "013" && Ascii.eqb c' "010")%char then line :: splitlines_from "" s''
            else line :: splitlines_from "" s'
        | EmptyString => [line]
        end
      else splitlines_from (line +:+ String c "") s'
  end.
Definition splitlines (s : string) : list string := splitlines_from "" s.

(** ** The adapter *)
Record Ledger := {
  lg_keyring : VersionedKeyring; lg_restore_key_version : string;
  lg_expected_ledger_key_version : string; lg_expected_restore_key_version : string; lg_actor : string
}.
Inductive RecordType := LEDGER_EVENT | ACCESS_AUDIT | KEY_ROTATION.
Definition record_type_str (t : RecordType) : string :=
  match t with LEDGER_EVENT => "LEDGER_EVENT" | ACCESS_AUDIT => "ACCESS_AUDIT" | KEY_ROTATION => "KEY_ROTATION" end.
Definition record_type_of (s : string) : option RecordType :=
  if String.eqb s "LEDGER_EVENT" then Some LEDGER_EVENT else if String.eqb s "ACCESS_AUDIT" then Some ACCESS_AUDIT
  else if String.eqb s "KEY_ROTATION" then Some KEY_ROTATION else None.

Definition RECORD_KEYS : list string :=
  ["schema_version"; "ledger_id"; "sequence"; "record_type"; "key_version"; "nonce"; "previous_record_sha256";
   "ciphertext"; "record_sha256"].
Definition HKDF_SALT : string := "RateReplay.DeletionLedger.HKDF.v2" +:+ chr 0.
Definition AAD_DOMAIN : string := "RateReplay.DeletionLedger.RecordAAD.v2" +:+ chr 0.
Definition MAXIMUM_NONCE_ATTEMPTS : nat := 8.
Definition control_purpose (f : control) : string :=
  match f with Active => "active" | Genesis => "genesis" | Head => "head" end.
Definition is_class (class : string) (e : exn) : bool :=
  match e with ServiceError c _ => String.eqb c class | _ => false end.

(** ** Chains of events *)
Definition group_event (by_id : list (string * list LedgerEvent)) (event : LedgerEvent)
    : list (string * list LedgerEvent) :=
  let '(chain, by_id) := dict_setdefault (ev_deletion_id event) [] by_id in
  dict_set (ev_deletion_id event) (chain ++ [event]) by_id.
Definition link_event (by_id : list (string * list LedgerEvent)) (event : LedgerEvent)
    : result (list (string * list LedgerEvent)) :=
  let chain := (dict_setdefault (ev_deletion_id event) [] by_id).1 in
  _ ← raise_if (negb (bool_decide (ev_previous_receipt event = ev_receipt <$> last chain)))
        (ledger_error "LEDGER_CHAIN_BROKEN");
  Ok (group_event by_id event).
Definition validate_event_chains (events : list LedgerEvent) : result unit :=
  by_id ← foldM link_event [] events;
  raise_if (existsb (fun c => negb (mem (ev_phase <$> c.2) LEGAL_CHAINS)) by_id) (ledger_error "ILLEGAL_LEDGER_CHAIN").

(** ** Key rotations *)
Record RotationScan := {
  rs_previous_ledger : string; rs_previous_restore : option string;
  rs_committed_ledger : string; rs_committed_restore : option string
}.
Definition rotation_step (head_sequence : Z) (s : RotationScan) (r : KeyRotation) : result RotationScan :=
  _ ← raise_if (negb (String.eqb (kr_previous_ledger_key_version r) (rs_previous_ledger s))
                || match rs_previous_restore s with
                   | Some v => negb (String.eqb (kr_previous_restore_key_version r) v) | None => false end)
        (ledger_error "LEDGER_ROTATION_CHAIN_BROKEN");
  let committed := kr_sequence r <=? head_sequence in
  Ok {| rs_previous_ledger := kr_current_ledger_key_version r;
        rs_previous_restore := Some (kr_current_restore_key_version r);
        rs_committed_ledger := if committed then kr_current_ledger_key_version r else rs_committed_ledger s;
        rs_committed_restore := if committed then Some (kr_current_restore_key_version r)
                                else rs_committed_restore s |}.
Definition validate_rotation_chain (lg : Ledger) (rotations : list KeyRotation) (genesis_ledger_key_version : string)
    (head_sequence : Z) (head_ledger_key_version head_restore_key_version : string) (has_tail : bool) : result unit :=
  s ← foldM (rotation_step head_sequence)
        {| rs_previous_ledger := genesis_ledger_key_version; rs_previous_restore := None;
           rs_committed_ledger := genesis_ledger_key_version; rs_committed_restore := None |} rotations;
  _ ← raise_if (negb (String.eqb (rs_committed_ledger s) head_ledger_key_version)
                || match rs_committed_restore s with
                   | Some v => negb (String.eqb v head_restore_key_version) | None => false end)
        (ledger_error "LEDGER_ROTATION_HEAD_MISMATCH");
  let tail r := head_sequence <? kr_sequence r in
  match last rotations, List.find tail rotations with
  | Some latest, Some first_tail =>
      raise_if (has_tail && tail latest
                && (negb (String.eqb (kr_previous_ledger_key_version first_tail) head_ledger_key_version)
                    || negb (String.eqb (kr_previous_restore_key_version first_tail) head_restore_key_version)
                    || negb (String.eqb (kr_current_ledger_key_version latest) (current_version (lg_keyring lg)))
                    || negb (String.eqb (kr_current_restore_key_version latest) (lg_restore_key_version lg))))
        (ledger_error "LEDGER_ROTATION_TAIL_INVALID")
  | _, _ => Ok tt
  end.
Definition rotation_keys : list string :=
  ["schema_version"; "operation_id"; "actor"; "outcome"; "previous_head_sha256"; "previous_ledger_key_version";
   "current_ledger_key_version"; "previous_restore_key_version"; "current_restore_key_version"; "occurred_at"].

(** The keyword arguments of [append] that identify a deletion. *)
Record Request := {
  rq_deletion_id : string; rq_scope_token : string; rq_restore_key_version : string; rq_original_generation : Z;
  rq_proposed_generation : Z; rq_preparation_digest : string; rq_intent_proof_digest : string
}.
#[export] Instance Request_eq_dec : EqDecision Request.
Proof. solve_decision. Defined.

Section Adapter.
Context {PF : Platform} {CR : Crypto} {SH : Sha256} {JL : JsonLoads} {IF : IsoFormats} {LB : LooseBase64}.
Implicit Type lg : Ledger.

Definition derived_key lg (version purpose : string) : result string :=
  master ← require (lg_keyring lg) version;
  Ok (hkdf_sha256 HKDF_SALT ("RateReplay.DeletionLedger." +:+ purpose +:+ ".v2" +:+ chr 0 +:+ version) master).

(** ** Events and rotations in payloads *)
Definition event_receipt (key : string) (unsigned : LedgerEvent) : string :=
  hmac_sha256_hex key ("RateReplay.DeletionLedgerReceipt.v2" +:+ chr 0 +:+ canonical_without_receipt unsigned).
Definition with_receipt (e : LedgerEvent) (receipt : string) : LedgerEvent :=
  {| ev_schema_version := ev_schema_version e; ev_deletion_id := ev_deletion_id e; ev_phase := ev_phase e;
     ev_scope_token := ev_scope_token e; ev_restore_key_version := ev_restore_key_version e;
     ev_original_generation := ev_original_generation e; ev_proposed_generation := ev_proposed_generation e;
     ev_preparation_digest := ev_preparation_digest e; ev_intent_proof_digest := ev_intent_proof_digest e;
     ev_occurred_at := ev_occurred_at e; ev_previous_receipt := ev_previous_receipt e; ev_receipt := receipt |}.

Definition event_request (e : LedgerEvent) : Request :=
  {| rq_deletion_id := ev_deletion_id e; rq_scope_token := ev_scope_token e;
     rq_restore_key_version := ev_restore_key_version e; rq_original_generation := ev_original_generation e;
     rq_proposed_generation := ev_proposed_generation e; rq_preparation_digest := ev_preparation_digest e;
     rq_intent_proof_digest := ev_intent_proof_digest e |}.

Definition unsigned_event (rq : Request) (phase : LedgerPhase) (occurred_at : Z) (previous_receipt : option string)
    : LedgerEvent :=
  {| ev_schema_version := "deletion-ledger-event-v2"; ev_deletion_id := rq_deletion_id rq; ev_phase := phase;
     ev_scope_token := rq_scope_token rq; ev_restore_key_version := rq_restore_key_version rq;
     ev_original_generation := rq_original_generation rq; ev_proposed_generation := rq_proposed_generation rq;
     ev_preparation_digest := rq_preparation_digest rq; ev_intent_proof_digest := rq_intent_proof_digest rq;
     ev_occurred_at := datetime_isoformat occurred_at; ev_previous_receipt := previous_receipt; ev_receipt := "" |}.
Definition make_event lg (rq : Request) (phase : LedgerPhase) (occurred_at : Z) (previous_receipt : option string)
    (receipt_key_version : string) : result LedgerEvent :=
  t ← datetime_check occurred_at;
  let unsigned := unsigned_event rq phase t previous_receipt in
  key ← derived_key lg receipt_key_version "event-receipt";
  Ok (with_receipt unsigned (event_receipt key unsigned)).

Definition aware (text : string) : result Z :=
  match fromisoformat text with Some (Some t) => Ok t | _ => Raise value_error end.
Definition validate_event (e : LedgerEvent) : result Z :=
  _ ← raise_if (negb (mem (ev_schema_version e) ["deletion-ledger-event-v1"; "deletion-ledger-event-v2"])
                || String.eqb (ev_deletion_id e) "" || String.eqb (ev_scope_token e) ""
                || String.eqb (ev_restore_key_version e) "" || (ev_original_generation e <? 0)
                || (ev_proposed_generation e <=? ev_original_generation e)
                || negb (py_len (ev_preparation_digest e) =? 64) || negb (py_len (ev_intent_proof_digest e) =? 64)
                || negb (py_len (ev_receipt e) =? 64)) value_error;
  aware (ev_occurred_at e).

Definition from_option {A} (e : exn) (o : option A) : result A :=
  match o with Some a => Ok a | None => Raise e end.
Definition as_object (v : option json) : result (list (string * json)) :=
  match v with Some (JObj fs) => Ok fs | _ => Raise type_error end.
(** [except (TypeError, ValueError)], as a ledger error. *)
Definition on_bad_value (code : string) (e : exn) : exn :=
  if decide (e = type_error \/ e = value_error) then ledger_error code else e.

Definition decode_legacy (payload : list (string * json)) : result LedgerEvent :=
  source ← required_text payload "migration_source_sha256";
  _ ← from_option value_error (fromhex source);
  text ← required_text payload "migrated_at";
  _ ← aware text;
  _ ← raise_if (negb (py_len source =? 64)) value_error;
  raw ← as_object (dict_get "event" payload);
  legacy ← from_option type_error (event_of raw);
  _ ← validate_event legacy;
  _ ← raise_if (negb (String.eqb (ev_schema_version legacy) "deletion-ledger-event-v1")) value_error;
  Ok legacy.
Definition decode_current lg (raw : list (string * json)) (receipt_key_version : string)
    : result (LedgerEvent * LedgerEvent) :=
  event ← from_option type_error (event_of raw);
  occurred_at ← validate_event event;
  _ ← raise_if (negb (String.eqb (ev_schema_version event) "deletion-ledger-event-v2")) value_error;
  expected ← make_event lg (event_request event) (ev_phase event) occurred_at (ev_previous_receipt event)
               receipt_key_version;
  Ok (event, expected).
Definition decode_event lg (payload : list (string * json)) (envelope_key_version : string) : result LedgerEvent :=
  let unreadable := ledger_error "LEDGER_UNREADABLE" in
  if is_text (dict_get "schema_version" payload) "deletion-ledger-migrated-event-payload-v1" then
    _ ← raise_if (negb (same_set payload.*1
                          ["schema_version"; "provenance"; "migration_source_sha256"; "migrated_at"; "event"])
                  || negb (is_text (dict_get "provenance" payload) "MIGRATED_V1_ASSERTED")) unreadable;
    except (on_bad_value "LEDGER_UNREADABLE") (decode_legacy payload)
  else
    _ ← raise_if (negb (same_set payload.*1 ["schema_version"; "receipt_key_version"; "event"])) unreadable;
    _ ← raise_if (negb (is_text (dict_get "schema_version" payload) "deletion-ledger-event-payload-v2")) unreadable;
    receipt_key_version ← required_text payload "receipt_key_version";
    _ ← raise_if (negb (String.eqb receipt_key_version envelope_key_version))
          (ledger_error "LEDGER_RECEIPT_KEY_MISMATCH");
    raw ← except (fun _ => unreadable) (as_object (dict_get "event" payload));
    pair ← except (on_bad_value "LEDGER_UNREADABLE") (decode_current lg raw receipt_key_version);
    same ← compare_digest (ev_receipt pair.2) (ev_receipt pair.1);
    _ ← raise_if (negb same) (ledger_error "LEDGER_RECEIPT_INVALID");
    Ok pair.1.

Definition audit_keys : list string :=
  ["schema_version"; "operation_id"; "actor"; "operation"; "occurred_at"; "previous_sequence";
   "previous_record_sha256"; "outcome"].
Definition validate_audit (payload : list (string * json)) (previous_sequence : Z)
    (previous_record_sha256 : option string) : result unit :=
  let invalid := ledger_error "LEDGER_AUDIT_INVALID" in
  let get key := dict_get key payload in
  _ ← raise_if (negb (same_set payload.*1 audit_keys)) invalid;
  _ ← raise_if (negb (is_text (get "schema_version") "deletion-ledger-access-audit-v2")) invalid;
  actor ← in_set (get "actor") ALLOWED_ACTORS;
  _ ← raise_if (negb actor) invalid;
  operation ← in_set (get "operation") ALLOWED_OPERATIONS;
  _ ← raise_if (negb operation
                || negb (is_text (get "outcome") "AUTHORIZED")
                || negb match get "operation_id" with Some (JStr s) => py_len s =? 32 | _ => false end
                || negb (is_int (get "previous_sequence") previous_sequence)
                || negb (is_text_opt (get "previous_record_sha256") previous_record_sha256)) invalid;
  text ← required_text payload "occurred_at";
  _ ← except (fun _ => invalid) (aware text);
  Ok tt.

Definition rotation_fields (payload : list (string * json)) (sequence : Z) (record_sha256 envelope_key_version : string)
    : result KeyRotation :=
  previous_head ← required_text payload "previous_head_sha256";
  previous_ledger ← required_text payload "previous_ledger_key_version";
  current_ledger ← required_text payload "current_ledger_key_version";
  previous_restore ← required_text payload "previous_restore_key_version";
  current_restore ← required_text payload "current_restore_key_version";
  occurred_at ← required_text payload "occurred_at";
  _ ← aware occurred_at;
  _ ← from_option value_error (fromhex previous_head);
  operation_id ← required_text payload "operation_id";
  _ ← raise_if (negb (same_set payload.*1 rotation_keys)
                || negb (is_text (dict_get "schema_version" payload) "deletion-ledger-key-rotation-v1")
                || negb (is_text (dict_get "actor" payload) "ROTATION_CLI")
                || negb (is_text (dict_get "outcome" payload) "AUTHORIZED")
                || negb (py_len operation_id =? 32) || negb (py_len previous_head =? 64)
                || String.eqb previous_ledger current_ledger || String.eqb previous_restore current_restore
                || negb (String.eqb current_ledger envelope_key_version)) value_error;
  Ok {| kr_sequence := sequence; kr_record_sha256 := record_sha256; kr_previous_head_sha256 := previous_head;
        kr_previous_ledger_key_version := previous_ledger; kr_current_ledger_key_version := current_ledger;
        kr_previous_restore_key_version := previous_restore; kr_current_restore_key_version := current_restore;
        kr_occurred_at := occurred_at |}.
(** Any exception of the checks, the ones of a missing key included. *)
Definition rotation_from_payload (payload : list (string * json)) (sequence : Z)
    (record_sha256 envelope_key_version : string) : result KeyRotation :=
  except (fun _ => ledger_error "LEDGER_ROTATION_RECORD_INVALID")
    (rotation_fields payload sequence record_sha256 envelope_key_version).

(** ** Signed control files *)
Definition control_signature (f : control) (key : string) (signed : list (string * json)) : string :=
  hmac_sha256_hex key ("RateReplay.DeletionLedger." +:+ control_purpose f +:+ ".v2" +:+ chr 0 +:+ canonical signed).
Definition control_key lg (f : control) (version : string) : result string :=
  derived_key lg version (control_purpose f +:+ "-hmac").

Definition read_ascii (file : option string) : result string :=
  match file with
  | Some s => if ascii_text s then Ok s else Raise value_error
  | None => Raise os_error
  end.
Definition load_object (text : string) : result (list (string * json)) :=
  v ← from_option value_error (json_loads text); as_object (Some v).
Definition on_control_error (e : exn) : exn :=
  if is_class "KeyringError" e then ledger_error "LEDGER_KEY_VERSION_UNAVAILABLE"
  else ledger_error "LEDGER_UNREADABLE".
Definition signed_fields lg (f : control) (file : option string)
    : result (list (string * json) * (string * string)) :=
  text ← read_ascii file;
  fields ← load_object text;
  signature ← required_text fields "hmac_sha256";
  key_version ← required_text fields "signing_key_version";
  key ← control_key lg f key_version;
  Ok (fields, (signature, control_signature f key (without "hmac_sha256" fields))).
Definition read_signed lg (f : control) (d : Disk) : result (list (string * json)) :=
  read ← except on_control_error (signed_fields lg f (control_file f d));
  same ← compare_digest read.2.1 read.2.2;
  _ ← raise_if (negb same) (ledger_error "LEDGER_SIGNATURE_INVALID");
  Ok read.1.

Definition signed_document lg (f : control) (payload : list (string * json)) (key : string) : string :=
  let signed := payload ++ [("signing_key_version", JStr (current_version (lg_keyring lg)))] in
  canonical (signed ++ [("hmac_sha256", JStr (control_signature f key signed))]) +:+ chr 10.
Definition write_signed lg (f : control) (payload : list (string * json)) : io unit :=
  key ← lift (control_key lg f (current_version (lg_keyring lg)));
  io_except (on_os_error (ledger_error "LEDGER_CONTROL_WRITE_FAILED"))
    (atomic_write (put_control f) (signed_document lg f payload key)).
Definition head_fields lg (s : LedgerState) : list (string * json) :=
  [("schema_version", JStr "deletion-ledger-head-v2"); ("ledger_id", JStr (ls_ledger_id s));
   ("last_sequence", JInt (ls_last_sequence s)); ("last_record_sha256", jopt JStr (ls_last_record_sha256 s));
   ("current_ledger_key_version", JStr (current_version (lg_keyring lg)));
   ("current_restore_key_version", JStr (lg_restore_key_version lg))].
Definition write_head lg (s : LedgerState) : io unit := write_signed lg Head (head_fields lg s).

(** ** Records *)
Fixpoint unique_nonce_from (attempts : nat) (s : LedgerState) (key_version : string) : io string :=
  match attempts with
  | O => io_raise (ledger_error "LEDGER_NONCE_REUSE")
  | S n => nonce ← draw 12;
           if mem (key_version, hex nonce) (ls_nonces s) then unique_nonce_from n s key_version else mret nonce
  end.
Definition unique_nonce (s : LedgerState) (key_version : string) : io string :=
  unique_nonce_from MAXIMUM_NONCE_ATTEMPTS s key_version.

Definition record_header (s : LedgerState) (t : RecordType) (key_version nonce : string) : list (string * json) :=
  [("schema_version", JStr "deletion-ledger-record-v2"); ("ledger_id", JStr (ls_ledger_id s));
   ("sequence", JInt (ls_last_sequence s + 1)); ("record_type", JStr (record_type_str t));
   ("key_version", JStr key_version); ("nonce", JStr (hex nonce));
   ("previous_record_sha256", jopt JStr (ls_last_record_sha256 s))].
Definition unsigned_record (s : LedgerState) (t : RecordType) (key_version nonce key : string)
    (payload : list (string * json)) : list (string * json) :=
  let header := record_header s t key_version nonce in
  header ++ [("ciphertext",
              JStr (b64encode (aes_encrypt key nonce (canonical payload) (AAD_DOMAIN +:+ canonical header))))].
Definition signed_record (unsigned : list (string * json)) : list (string * json) :=
  unsigned ++ [("record_sha256", JStr (sha256_hex (canonical unsigned)))].
(** The state after a record with this hash and nonce. *)
Definition advance (s : LedgerState) (record_sha256 : string) (nonce : string * string) : LedgerState :=
  {| ls_ledger_id := ls_ledger_id s; ls_events := ls_events s; ls_rotations := ls_rotations s;
     ls_last_sequence := ls_last_sequence s + 1; ls_last_record_sha256 := Some record_sha256;
     ls_nonces := nonce :: ls_nonces s |}.
Definition with_events (s : LedgerState) (events : list LedgerEvent) : LedgerState :=
  {| ls_ledger_id := ls_ledger_id s; ls_events := events; ls_rotations := ls_rotations s;
     ls_last_sequence := ls_last_sequence s; ls_last_record_sha256 := ls_last_record_sha256 s;
     ls_nonces := ls_nonces s |}.

Definition append_record lg (s : LedgerState) (t : RecordType) (payload : list (string * json))
    : io (string * LedgerState) :=
  let key_version := current_version (lg_keyring lg) in
  nonce ← unique_nonce s key_version;
  key ← lift (derived_key lg key_version "envelope-encryption");
  let unsigned := unsigned_record s t key_version nonce key payload in
  let record_sha256 := sha256_hex (canonical unsigned) in
  _ ← io_except (on_os_error (ledger_error "LEDGER_APPEND_FAILED"))
        (append_stream (canonical (signed_record unsigned) +:+ chr 10));
  let s := advance s record_sha256 (key_version, hex nonce) in
  _ ← write_head lg s;
  mret (record_sha256, s).

Definition audit_payload lg (s : LedgerState) (operation operation_id : string) (now : Z) : list (string * json) :=
  [("schema_version", JStr "deletion-ledger-access-audit-v2"); ("operation_id", JStr operation_id);
   ("actor", JStr (lg_actor lg)); ("operation", JStr operation); ("occurred_at", JStr (datetime_isoformat now));
   ("previous_sequence", JInt (ls_last_sequence s));
   ("previous_record_sha256", jopt JStr (ls_last_record_sha256 s)); ("outcome", JStr "AUTHORIZED")].
Definition on_audit_error (e : exn) : exn :=
  if is_class "DeletionLedgerError" e || bool_decide (e = os_error) then ledger_error "LEDGER_ACCESS_AUDIT_FAILED" else e.
Definition audit lg (now : Z) (s : LedgerState) (operation : string) : io LedgerState :=
  operation_id ← token_hex 16;
  p ← io_except on_audit_error (append_record lg s ACCESS_AUDIT (audit_payload lg s operation operation_id now));
  mret p.2.

(** ** Reading the stream *)
Record Decoded := {
  dr_type : RecordType; dr_key_version : string; dr_sequence : Z; dr_previous : option string;
  dr_sha256 : string; dr_nonce : string * string; dr_payload : list (string * json)
}.
Definition decode_fields lg (record : list (string * json)) (ledger_id : string) (expected_sequence : Z)
    (expected_previous : option string) (nonces : list (string * string)) : result Decoded :=
  let get key := dict_get key record in
  _ ← raise_if (negb (same_set record.*1 RECORD_KEYS)) type_error;
  _ ← raise_if (negb (is_text (get "schema_version") "deletion-ledger-record-v2")) type_error;
  _ ← raise_if (negb (is_text (get "ledger_id") ledger_id)) (ledger_error "LEDGER_RECORD_LEDGER_MISMATCH");
  _ ← raise_if (negb match get "sequence" with Some (JInt n) => n =? expected_sequence | _ => false end)
        (ledger_error "LEDGER_SEQUENCE_INVALID");
  _ ← raise_if (negb (is_text_opt (get "previous_record_sha256") expected_previous))
        (ledger_error "LEDGER_GLOBAL_CHAIN_BROKEN");
  t ← from_option type_error (jtext (get "record_type") ≫= record_type_of);
  key_version ← required_text record "key_version";
  nonce_text ← required_text record "nonce";
  nonce ← from_option value_error (fromhex nonce_text);
  _ ← raise_if (negb (String.length nonce =? 12)%nat || negb (String.eqb nonce_text (hex nonce))) type_error;
  _ ← raise_if (mem (key_version, nonce_text) nonces) (ledger_error "LEDGER_NONCE_REUSE");
  record_sha256 ← required_text record "record_sha256";
  let unsigned := without "record_sha256" record in
  same ← compare_digest (sha256_hex (canonical unsigned)) record_sha256;
  _ ← raise_if (negb same) (ledger_error "LEDGER_RECORD_HASH_INVALID");
  encoded ← required_text record "ciphertext";
  ciphertext ← from_option value_error (b64decode encoded);
  key ← derived_key lg key_version "envelope-encryption";
  plaintext ← from_option (ledger_error "LEDGER_RECORD_AUTHENTICATION_FAILED")
    (aes_decrypt key nonce ciphertext (AAD_DOMAIN +:+ canonical (without "ciphertext" unsigned)));
  text ← read_ascii (Some plaintext);
  payload ← load_object text;
  Ok {| dr_type := t; dr_key_version := key_version; dr_sequence := expected_sequence;
        dr_previous := expected_previous; dr_sha256 := record_sha256; dr_nonce := (key_version, nonce_text);
        dr_payload := payload |}.
Definition on_record_error (e : exn) : exn :=
  if is_class "DeletionLedgerError" e then e
  else if is_class "KeyringError" e then ledger_error "LEDGER_KEY_VERSION_UNAVAILABLE"
  else ledger_error "LEDGER_UNREADABLE".
Definition decode_record lg (line ledger_id : string) (expected_sequence : Z) (expected_previous : option string)
    (nonces : list (string * string)) : result Decoded :=
  except on_record_error
    (record ← load_object line; decode_fields lg record ledger_id expected_sequence expected_previous nonces).

(** The lists [_read_state] accumulates; [previous_record_sha256] is the last
    hash and [expected_sequence] the number of hashes plus one. *)
Record Scan := {
  sc_events : list LedgerEvent; sc_rotations : list KeyRotation; sc_nonces : list (string * string);
  sc_hashes : list string
}.
Definition empty_scan : Scan := {| sc_events := []; sc_rotations := []; sc_nonces := []; sc_hashes := [] |}.
Definition scan_record lg (s : Scan) (r : Decoded) : result Scan :=
  let nonces := dr_nonce r :: sc_nonces s in
  let hashes := sc_hashes s ++ [dr_sha256 r] in
  match dr_type r with
  | LEDGER_EVENT =>
      event ← decode_event lg (dr_payload r) (dr_key_version r);
      Ok {| sc_events := sc_events s ++ [event]; sc_rotations := sc_rotations s; sc_nonces := nonces; sc_hashes := hashes |}
  | ACCESS_AUDIT =>
      _ ← validate_audit (dr_payload r) (dr_sequence r - 1) (dr_previous r);
      Ok {| sc_events := sc_events s; sc_rotations := sc_rotations s; sc_nonces := nonces; sc_hashes := hashes |}
  | KEY_ROTATION =>
      rotation ← rotation_from_payload (dr_payload r) (dr_sequence r) (dr_sha256 r) (dr_key_version r);
      Ok {| sc_events := sc_events s; sc_rotations := sc_rotations s ++ [rotation]; sc_nonces := nonces; sc_hashes := hashes |}
  end.
Definition scan_line lg (ledger_id : string) (s : Scan) (line : string) : result Scan :=
  r ← decode_record lg line ledger_id (Z.of_nat (length (sc_hashes s)) + 1) (last (sc_hashes s)) (sc_nonces s);
  scan_record lg s r.
Definition scan_state (ledger_id : string) (s : Scan) : LedgerState :=
  {| ls_ledger_id := ledger_id; ls_events := sc_events s; ls_rotations := sc_rotations s;
     ls_last_sequence := Z.of_nat (length (sc_hashes s)); ls_last_record_sha256 := last (sc_hashes s);
     ls_nonces := sc_nonces s |}.

Definition check_controls lg (active genesis head : list (string * json)) : result string :=
  ledger_id ← required_text active "ledger_id";
  _ ← raise_if (negb (is_text (dict_get "schema_version" active) "deletion-ledger-active-v2")
                || negb (is_text (dict_get "schema_version" genesis) "deletion-ledger-genesis-v2")
                || negb (is_text (dict_get "schema_version" head) "deletion-ledger-head-v2")
                || negb (is_text (dict_get "ledger_id" genesis) ledger_id)
                || negb (is_text (dict_get "ledger_id" head) ledger_id)) (ledger_error "LEDGER_CONTROL_MISMATCH");
  _ ← raise_if (negb (is_text (dict_get "current_ledger_key_version" head) (lg_expected_ledger_key_version lg)))
        (ledger_error "LEDGER_KEY_CONFIGURATION_MISMATCH");
  _ ← raise_if (negb (is_text (dict_get "current_restore_key_version" head) (lg_expected_restore_key_version lg)))
        (ledger_error "RESTORE_KEY_CONFIGURATION_MISMATCH");
  Ok ledger_id.
Definition head_hash (hashes : list string) (head_sequence : Z) : option string :=
  if head_sequence =? 0 then None else hashes !! Z.to_nat (head_sequence - 1).
(** The head is a prefix of the stream, and its keys are those of the prefix. *)
Definition check_head lg (genesis head : list (string * json)) (s : Scan) : result Z :=
  head_sequence ← required_integer head "last_sequence";
  let count := Z.of_nat (length (sc_hashes s)) in
  _ ← raise_if ((head_sequence <? 0) || (count <? head_sequence)) (ledger_error "LEDGER_HEAD_AHEAD");
  _ ← raise_if (negb (is_text_opt (dict_get "last_record_sha256" head) (head_hash (sc_hashes s) head_sequence)))
        (ledger_error "LEDGER_HEAD_MISMATCH");
  genesis_version ← required_text genesis "ledger_key_version";
  head_ledger ← required_text head "current_ledger_key_version";
  head_restore ← required_text head "current_restore_key_version";
  _ ← validate_rotation_chain lg (sc_rotations s) genesis_version head_sequence head_ledger head_restore
        (head_sequence <? count);
  Ok head_sequence.
(** What a disk holds: the state, and how much of it the head has committed. *)
Definition load_state lg (d : Disk) : result (LedgerState * Z) :=
  active ← read_signed lg Active d;
  genesis ← read_signed lg Genesis d;
  head ← read_signed lg Head d;
  ledger_id ← check_controls lg active genesis head;
  text ← except (fun _ => ledger_error "LEDGER_UNREADABLE") (read_ascii (d_stream d));
  s ← foldM (scan_line lg ledger_id) empty_scan (splitlines text);
  _ ← validate_event_chains (sc_events s);
  head_sequence ← check_head lg genesis head s;
  Ok (scan_state ledger_id s, head_sequence).
Definition read_state lg (recover_head : bool) : io LedgerState :=
  d ← get_disk;
  p ← lift (load_state lg d);
  if p.2 <? ls_last_sequence p.1 then
    if recover_head then _ ← write_head lg p.1; mret p.1
    else io_raise (ledger_error "LEDGER_HEAD_BEHIND")
  else mret p.1.

(** ** Operations *)
Definition chain_of (deletion_id : string) (events : list LedgerEvent) : list LedgerEvent :=
  filter (fun e => ev_deletion_id e = deletion_id) events.
Definition same_event (first second : LedgerEvent) : bool :=
  let strip e := canonical (without "receipt" (without "schema_version" (event_fields e))) in
  String.eqb (strip first) (strip second).
Definition event_payload lg (event : LedgerEvent) : list (string * json) :=
  [("schema_version", JStr "deletion-ledger-event-payload-v2");
   ("receipt_key_version", JStr (current_version (lg_keyring lg))); ("event", JObj (event_fields event))].

Definition append lg (now : Z) (rq : Request) (phase : LedgerPhase) (occurred_at : option Z) : io LedgerEvent :=
  match occurred_at with
  | None => io_raise type_error
  | Some occurred_at =>
      let version := current_version (lg_keyring lg) in
      s ← read_state lg true;
      s ← audit lg now s ("APPEND_" +:+ phase_str phase);
      let chain := chain_of (rq_deletion_id rq) (ls_events s) in
      _ ← io_raise_if (match head chain with Some first => negb (bool_decide (rq = event_request first)) | None => false end)
            (ledger_error "LEDGER_IDENTITY_MISMATCH");
      match List.find (fun e => bool_decide (ev_phase e = phase)) chain with
      | Some existing =>
          candidate ← lift (make_event lg rq phase occurred_at (ev_previous_receipt existing) version);
          _ ← io_raise_if (negb (same_event candidate existing)) (ledger_error "LEDGER_DUPLICATE_MISMATCH");
          mret existing
      | None =>
          _ ← io_raise_if (negb (mem ((ev_phase <$> chain) ++ [phase]) LEGAL_CHAINS)) (ledger_error "ILLEGAL_LEDGER_CHAIN");
          event ← lift (make_event lg rq phase occurred_at (ev_receipt <$> last chain) version);
          _ ← append_record lg s LEDGER_EVENT (event_payload lg event);
          mret event
      end
  end.

Definition legacy_payload (source_sha256 : string) (migrated_at : Z) (event : LedgerEvent) : list (string * json) :=
  [("schema_version", JStr "deletion-ledger-migrated-event-payload-v1"); ("provenance", JStr "MIGRATED_V1_ASSERTED");
   ("migration_source_sha256", JStr source_sha256); ("migrated_at", JStr (datetime_isoformat migrated_at));
   ("event", JObj (event_fields event))].
Definition import_event lg (source_sha256 : string) (migrated_at : Z) (s : LedgerState) (event : LedgerEvent)
    : io LedgerState :=
  t ← lift (datetime_check migrated_at);
  p ← append_record lg s LEDGER_EVENT (legacy_payload source_sha256 t event);
  mret (with_events p.2 (ls_events p.2 ++ [event])).
Definition import_legacy_events lg (now : Z) (events : list LedgerEvent) (source_sha256 : string)
    (migrated_at : option Z) : io unit :=
  _ ← io_raise_if (negb (String.eqb (lg_actor lg) "MIGRATION_CLI")) (ledger_error "LEDGER_MIGRATION_ACTOR_REQUIRED");
  match migrated_at with
  | None => io_raise type_error
  | Some migrated_at =>
      _ ← lift (from_option value_error (fromhex source_sha256));
      _ ← io_raise_if (negb (py_len source_sha256 =? 64)) value_error;
      _ ← io_raise_if (existsb (fun e => negb (String.eqb (ev_schema_version e) "deletion-ledger-event-v1")) events)
            (ledger_error "LEDGER_MIGRATION_EVENT_INVALID");
      _ ← lift (validate_event_chains events);
      s ← read_state lg true;
      _ ← io_raise_if (negb (ls_last_sequence s =? 0) || negb (bool_decide (ls_events s = []))
                       || negb (bool_decide (length (ls_rotations s) = 0%nat)))
            (ledger_error "LEDGER_MIGRATION_DESTINATION_NOT_EMPTY");
      s ← audit lg now s "IMPORT_LEGACY";
      _ ← io_foldM (import_event lg source_sha256 migrated_at) s events;
      mret tt
  end.

Definition audited {A} lg (now : Z) (operation : string) (view : LedgerState -> A) : io A :=
  s ← read_state lg true; s ← audit lg now s operation; mret (view s).
Definition events lg (now : Z) : io (list LedgerEvent) := audited lg now "READ_EVENTS" ls_events.
Definition chain lg (now : Z) (deletion_id : string) : io (list LedgerEvent) :=
  audited lg now "READ_CHAIN" (fun s => chain_of deletion_id (ls_events s)).
Definition unresolved (events : list LedgerEvent) : list LedgerEvent :=
  c ← (foldl group_event [] events).*2;
  if bool_decide (ev_phase <$> c = [PREPARED]) then option_list (head c) else [].
Definition unresolved_preparations lg (now : Z) : io (list LedgerEvent) :=
  audited lg now "ENUMERATE_UNRESOLVED" (fun s => unresolved (ls_events s)).
Definition validate lg (now : Z) : io unit := audited lg now "VALIDATE" (fun _ => tt).

(** ** Creating and opening a ledger *)
Definition control_fields (schema ledger_id created_at : string) (extra : string * json) : list (string * json) :=
  [("schema_version", JStr schema); ("ledger_id", JStr ledger_id); ("created_at", JStr created_at); extra].
Definition initialize lg (now : Z) : io unit :=
  ledger_id ← token_hex 16;
  let created_at := datetime_isoformat now in
  _ ← create_stream;
  _ ← write_signed lg Genesis (control_fields "deletion-ledger-genesis-v2" ledger_id created_at
        ("ledger_key_version", JStr (current_version (lg_keyring lg))));
  _ ← write_head lg (scan_state ledger_id empty_scan);
  _ ← write_signed lg Active (control_fields "deletion-ledger-active-v2" ledger_id created_at
        ("format", JStr "ENCRYPTED_GLOBAL_CHAIN"));
  fsync_directory.

(** [value or default]. *)
Definition text_or (o : option string) (default : string) : string :=
  match o with Some s => if String.eqb s "" then default else s | None => default end.
Definition key_source (integrity_key : option string) (keyring : option VersionedKeyring) : result VersionedKeyring :=
  match integrity_key, keyring with
  | Some key, None => _ ← raise_if (negb (String.length key =? 32)%nat) value_error; single "ledger-v1" key
  | None, Some k => Ok k
  | _, _ => Raise value_error
  end.
Definition missing (file : option string) : bool := match file with None => true | Some _ => false end.
Definition open_ledger (integrity_key : option string) (keyring : option VersionedKeyring)
    (restore_key_version actor : string) (require_existing : bool)
    (expected_ledger expected_restore : option string) (now : Z) : io Ledger :=
  k ← lift (key_source integrity_key keyring);
  _ ← io_raise_if (negb (mem actor ALLOWED_ACTORS)) value_error;
  _ ← io_raise_if (String.eqb restore_key_version "" || (64 <? py_len restore_key_version)) value_error;
  let lg := {| lg_keyring := k; lg_restore_key_version := restore_key_version;
               lg_expected_ledger_key_version := text_or expected_ledger (current_version k);
               lg_expected_restore_key_version := text_or expected_restore restore_key_version;
               lg_actor := actor |} in
  d ← get_disk;
  _ ← io_raise_if (d_marker d) (ledger_error "LEDGER_MIGRATION_INCOMPLETE");
  _ ← io_raise_if (missing (d_active d) && d_legacy d) (ledger_error "LEDGER_FORMAT_MIGRATION_REQUIRED");
  _ ← io_raise_if (require_existing && (missing (d_active d) || missing (d_genesis d) || missing (d_stream d)
                                        || missing (d_head d))) (ledger_error "LEDGER_MISSING");
  _ ← (if negb require_existing && missing (d_active d) then
         _ ← io_raise_if (negb (missing (d_genesis d) && missing (d_stream d) && missing (d_head d)))
               (ledger_error "LEDGER_INITIALIZATION_INCOMPLETE");
         initialize lg now
       else mret tt);
  mret lg.

(** ** Key rotation *)
Record LedgerRotationArtifact := {
  ra_ledger_id : string; ra_previous_head_sha256 : string; ra_rotated_head_sha256 : string;
  ra_rotation_record_sha256 : string; ra_rotation_sequence : Z;
  ra_previous_ledger_key_version : string; ra_current_ledger_key_version : string;
  ra_previous_restore_key_version : string; ra_current_restore_key_version : string; ra_rotated_at : string;
  ra_artifact_sha256 : string
}.
(** [asdict(artifact)] without the hash; [schema_version] is a constant. *)
Definition artifact_payload (a : LedgerRotationArtifact) : list (string * json) :=
  [("schema_version", JStr "deletion-key-rotation-artifact-v1"); ("ledger_id", JStr (ra_ledger_id a));
   ("previous_head_sha256", JStr (ra_previous_head_sha256 a)); ("rotated_head_sha256", JStr (ra_rotated_head_sha256 a));
   ("rotation_record_sha256", JStr (ra_rotation_record_sha256 a)); ("rotation_sequence", JInt (ra_rotation_sequence a));
   ("previous_ledger_key_version", JStr (ra_previous_ledger_key_version a));
   ("current_ledger_key_version", JStr (ra_current_ledger_key_version a));
   ("previous_restore_key_version", JStr (ra_previous_restore_key_version a));
   ("current_restore_key_version", JStr (ra_current_restore_key_version a)); ("rotated_at", JStr (ra_rotated_at a))].
Definition artifact_fields (a : LedgerRotationArtifact) : list (string * json) :=
  artifact_payload a ++ [("artifact_sha256", JStr (ra_artifact_sha256 a))].
Definition artifact_hash (a : LedgerRotationArtifact) : string :=
  sha256_hex ("RateReplay.DeletionKeyRotationArtifact.v1" +:+ chr 0 +:+ canonical (artifact_payload a)).
Definition artifact_json (a : LedgerRotationArtifact) : string := canonical (artifact_fields a) +:+ chr 10.
Definition with_artifact_hash (a : LedgerRotationArtifact) (hash : string) : LedgerRotationArtifact :=
  {| ra_ledger_id := ra_ledger_id a; ra_previous_head_sha256 := ra_previous_head_sha256 a;
     ra_rotated_head_sha256 := ra_rotated_head_sha256 a; ra_rotation_record_sha256 := ra_rotation_record_sha256 a;
     ra_rotation_sequence := ra_rotation_sequence a; ra_previous_ledger_key_version := ra_previous_ledger_key_version a;
     ra_current_ledger_key_version := ra_current_ledger_key_version a;
     ra_previous_restore_key_version := ra_previous_restore_key_version a;
     ra_current_restore_key_version := ra_current_restore_key_version a; ra_rotated_at := ra_rotated_at a;
     ra_artifact_sha256 := hash |}.
Definition rotation_artifact (ledger_id : string) (r : KeyRotation) (rotated_head_sha256 : string) : LedgerRotationArtifact :=
  let unsigned :=
    {| ra_ledger_id := ledger_id; ra_previous_head_sha256 := kr_previous_head_sha256 r;
       ra_rotated_head_sha256 := rotated_head_sha256; ra_rotation_record_sha256 := kr_record_sha256 r;
       ra_rotation_sequence := kr_sequence r; ra_previous_ledger_key_version := kr_previous_ledger_key_version r;
       ra_current_ledger_key_version := kr_current_ledger_key_version r;
       ra_previous_restore_key_version := kr_previous_restore_key_version r;
       ra_current_restore_key_version := kr_current_restore_key_version r; ra_rotated_at := kr_occurred_at r;
       ra_artifact_sha256 := "" |} in
  with_artifact_hash unsigned (artifact_hash unsigned).
Definition artifact_keys : list string :=
  ["schema_version"; "ledger_id"; "previous_head_sha256"; "rotated_head_sha256"; "rotation_record_sha256";
   "rotation_sequence"; "previous_ledger_key_version"; "current_ledger_key_version"; "previous_restore_key_version";
   "current_restore_key_version"; "rotated_at"; "artifact_sha256"].
Definition verify_artifact_fields (fs : list (string * json)) : result LedgerRotationArtifact :=
  _ ← raise_if (negb (same_set fs.*1 artifact_keys)
                || negb (is_text (dict_get "schema_version" fs) "deletion-key-rotation-artifact-v1")) value_error;
  ledger_id ← required_text fs "ledger_id";
  previous_head ← required_text fs "previous_head_sha256";
  rotated_head ← required_text fs "rotated_head_sha256";
  record ← required_text fs "rotation_record_sha256";
  sequence ← required_integer fs "rotation_sequence";
  previous_ledger ← required_text fs "previous_ledger_key_version";
  current_ledger ← required_text fs "current_ledger_key_version";
  previous_restore ← required_text fs "previous_restore_key_version";
  current_restore ← required_text fs "current_restore_key_version";
  rotated_at ← required_text fs "rotated_at";
  digest ← required_text fs "artifact_sha256";
  let a := {| ra_ledger_id := ledger_id; ra_previous_head_sha256 := previous_head;
              ra_rotated_head_sha256 := rotated_head; ra_rotation_record_sha256 := record;
              ra_rotation_sequence := sequence; ra_previous_ledger_key_version := previous_ledger;
              ra_current_ledger_key_version := current_ledger; ra_previous_restore_key_version := previous_restore;
              ra_current_restore_key_version := current_restore; ra_rotated_at := rotated_at;
              ra_artifact_sha256 := digest |} in
  _ ← raise_if ((sequence <=? 0) || negb (py_len previous_head =? 64) || negb (py_len rotated_head =? 64)
                || negb (py_len record =? 64)) value_error;
  _ ← aware rotated_at;
  same ← compare_digest digest (artifact_hash a);
  _ ← raise_if (negb same) value_error;
  Ok a.
Definition verify_rotation_artifact (fs : list (string * json)) : result LedgerRotationArtifact :=
  except (fun _ => ledger_error "KEY_ROTATION_ARTIFACT_INVALID") (verify_artifact_fields fs).
Definition write_rotation_artifact (a : LedgerRotationArtifact) : io unit :=
  verified ← lift (verify_rotation_artifact (artifact_fields a));
  io_except (on_os_error (ledger_error "KEY_ROTATION_ARTIFACT_WRITE_FAILED"))
    (atomic_write put_artifact (artifact_json verified)).

Definition file_sha256 (file : option string) : result string :=
  match file with Some s => Ok (sha256_hex s) | None => Raise (ledger_error "LEDGER_UNREADABLE") end.
Definition rotation_payload lg (operation_id expected_head_sha256 : string) (rotated_at : Z) : list (string * json) :=
  [("schema_version", JStr "deletion-ledger-key-rotation-v1"); ("operation_id", JStr operation_id);
   ("actor", JStr "ROTATION_CLI"); ("outcome", JStr "AUTHORIZED"); ("previous_head_sha256", JStr expected_head_sha256);
   ("previous_ledger_key_version", JStr (lg_expected_ledger_key_version lg));
   ("current_ledger_key_version", JStr (current_version (lg_keyring lg)));
   ("previous_restore_key_version", JStr (lg_expected_restore_key_version lg));
   ("current_restore_key_version", JStr (lg_restore_key_version lg));
   ("occurred_at", JStr (datetime_isoformat rotated_at))].
Definition rotation_matches lg (expected_head_sha256 : string) (r : KeyRotation) : bool :=
  String.eqb (kr_previous_head_sha256 r) expected_head_sha256
  && String.eqb (kr_previous_ledger_key_version r) (lg_expected_ledger_key_version lg)
  && String.eqb (kr_current_ledger_key_version r) (current_version (lg_keyring lg))
  && String.eqb (kr_previous_restore_key_version r) (lg_expected_restore_key_version lg)
  && String.eqb (kr_current_restore_key_version r) (lg_restore_key_version lg).
(** The adapter once its expected versions are the current ones. *)
Definition committed lg : Ledger :=
  {| lg_keyring := lg_keyring lg; lg_restore_key_version := lg_restore_key_version lg;
     lg_expected_ledger_key_version := current_version (lg_keyring lg);
     lg_expected_restore_key_version := lg_restore_key_version lg; lg_actor := lg_actor lg |}.

(** The rotation that started from this head, or a new record of it. *)
Definition rotation_record lg (s : LedgerState) (expected_head_sha256 : string) (rotated_at : Z) : io KeyRotation :=
  match List.find (rotation_matches lg expected_head_sha256) (ls_rotations s) with
  | Some r => mret r
  | None =>
      operation_id ← token_hex 16;
      t ← lift (datetime_check rotated_at);
      let payload := rotation_payload lg operation_id expected_head_sha256 t in
      p ← append_record lg s KEY_ROTATION payload;
      lift (rotation_from_payload payload (ls_last_sequence s + 1) p.1 (current_version (lg_keyring lg)))
  end.
(** Reading the record back under the new keys. *)
Definition confirm_rotation lg (matching : KeyRotation) : io LedgerRotationArtifact :=
  verified ← read_state (committed lg) false;
  _ ← io_raise_if (negb (existsb (fun r => (kr_sequence r =? kr_sequence matching)
                                           && String.eqb (kr_record_sha256 r) (kr_record_sha256 matching))
                           (ls_rotations verified))) (ledger_error "LEDGER_ROTATION_VERIFICATION_FAILED");
  d ← get_disk;
  rotated ← lift (file_sha256 (d_head d));
  mret (rotation_artifact (ls_ledger_id verified) matching rotated).
Definition rotate lg (expected_head_sha256 : string) (rotated_at : Z) : io LedgerRotationArtifact :=
  d ← get_disk;
  actual ← lift (file_sha256 (d_head d));
  same ← lift (compare_digest expected_head_sha256 actual);
  _ ← io_raise_if (negb same) (ledger_error "LEDGER_ROTATION_CONFLICT");
  s ← read_state lg true;
  matching ← rotation_record lg s expected_head_sha256 rotated_at;
  confirm_rotation lg matching.
Definition rotate_keys (ledger_keyring restore_keyring : VersionedKeyring)
    (expected_ledger_key_version expected_restore_key_version expected_head_sha256 : string)
    (rotated_at : option Z) (now : Z) : io LedgerRotationArtifact :=
  match rotated_at with
  | None => io_raise type_error
  | Some rotated_at =>
      let invalid := ledger_error "KEY_ROTATION_CONFIGURATION_INVALID" in
      _ ← io_raise_if (negb (py_len expected_head_sha256 =? 64)) value_error;
      keys ← lift (except (fun _ => invalid)
        (_ ← from_option value_error (fromhex expected_head_sha256);
         old_ledger ← require ledger_keyring expected_ledger_key_version;
         new_ledger ← current_key ledger_keyring;
         old_restore ← require restore_keyring expected_restore_key_version;
         new_restore ← current_key restore_keyring;
         Ok ((old_ledger, new_ledger), (old_restore, new_restore))));
      _ ← io_raise_if (String.eqb expected_ledger_key_version (current_version ledger_keyring)
                       || String.eqb expected_restore_key_version (current_version restore_keyring)
                       || String.eqb keys.1.1 keys.1.2 || String.eqb keys.2.1 keys.2.2) invalid;
      lg ← open_ledger None (Some ledger_keyring) (current_version restore_keyring) "ROTATION_CLI" true
             (Some expected_ledger_key_version) (Some expected_restore_key_version) now;
      rotate lg expected_head_sha256 rotated_at
  end.
End Adapter.
