(* ===== verification/LedgerText.v ===== *)
(** * LedgerText: the texts of the ledger and how they are read back

    Everything the ledger writes is one printable line of ASCII: hexadecimal and
    base64 text and JSON objects.  The lemmas here say that each of them is read
    back as it was written. *)

From Stdlib Require Import Ascii.
From S2P Require Import Prelude Float Json JsonCanonical JsonLoads Calendar PyText IsoTime Base64 Keyrings Deletion Ledger.

(** ** Character ranges *)
Definition all_codes (p : N -> bool) (s : string) : bool := forallb p (utf8_bytes s).
Definition printable_code (n : N) : bool := ((32 <=? n) && (n <? 127))%N.
Notation printable := (all_codes printable_code).

Lemma all_codes_app p a b : all_codes p (a +:+ b) = all_codes p a && all_codes p b.
Proof. unfold all_codes. by rewrite utf8_bytes_app, forallb_app. Qed.
Lemma all_codes_cons p c s : all_codes p (String c s) = p (N_of_ascii c) && all_codes p s.
Proof. done. Qed.
Lemma all_codes_impl (p q : N -> bool) s :
  (forall n, p n = true -> q n = true) -> all_codes p s = true -> all_codes q s = true.
Proof. unfold all_codes. rewrite !forallb_forall. intros Hpq H n Hn. by apply Hpq, H. Qed.
Lemma all_codes_join p sep l :
  all_codes p sep = true -> Forall (fun s => all_codes p s = true) l -> all_codes p (join sep l) = true.
Proof.
  intros Hs. induction 1 as [|s l Hx Hl IH]; [done|]. destruct l as [|s' l]; [done|].
  change (join sep (s :: s' :: l)) with (s +:+ sep +:+ join sep (s' :: l)).
  by rewrite !all_codes_app, Hx, Hs, IH.
Qed.

Lemma printable_plain s : printable s = true -> plain_string s = true.
Proof. apply all_codes_impl. intros n. unfold printable_code. by intros [_ ?]%andb_true_iff. Qed.
Lemma plain_ascii s : plain_string s = true -> ascii_text s = true.
Proof. apply (all_codes_impl (fun n => (n <? 127)%N)). intros n. rewrite !N.ltb_lt. lia. Qed.
Lemma plain_app a b : plain_string (a +:+ b) = plain_string a && plain_string b.
Proof. apply all_codes_app. Qed.
Lemma plain_len s : plain_string s = true -> py_len s = Z.of_nat (String.length s).
Proof.
  intros Hs. unfold py_len. rewrite (code_points_plain _ Hs). unfold utf8_bytes. rewrite length_fmap.
  f_equal. induction s as [|c s IH]; [done|]. simpl. f_equal. apply IH.
  change (plain_string (String c s)) with ((N_of_ascii c <? 127)%N && plain_string s) in Hs.
  by apply andb_true_iff in Hs as [_ ?].
Qed.

(** ** Hexadecimal text *)
Lemma hex_digit_code n : (n < 16)%N -> utf8_bytes (hex_digit n) = [if (n <? 10)%N then 48 + n else 87 + n]%N.
Proof.
  intros Hn. unfold hex_digit. destruct (N.ltb_spec n 10); unfold utf8_bytes, chr;
    cbn [String.list_ascii_of_string]; rewrite fmap_cons, fmap_nil; f_equal; apply N_ascii_embedding; lia.
Qed.
Lemma hex_value_digit n :
  (n < 16)%N -> hex_value (if n <? 10 then 48 + n else 87 + n)%N = Some n
                /\ ascii_space (if n <? 10 then 48 + n else 87 + n)%N = false.
Proof.
  intros Hn. unfold hex_value, ascii_space. destruct (N.ltb_spec n 10).
  - rewrite (proj2 (N.leb_le 48 _)), (proj2 (N.leb_le _ 57)) by lia. cbn [andb].
    rewrite (proj2 (N.eqb_neq _ 32)), (proj2 (N.leb_gt _ 13)), andb_false_r by lia. split; [f_equal; lia|done].
  - rewrite (proj2 (N.leb_gt _ 57)), andb_false_r by lia.
    rewrite (proj2 (N.leb_le 97 _)), (proj2 (N.leb_le _ 102)) by lia. cbn [andb].
    rewrite (proj2 (N.eqb_neq _ 32)), (proj2 (N.leb_gt _ 13)), andb_false_r by lia. split; [f_equal; lia|done].
Qed.
Lemma nibbles c : (N_of_ascii c / 16 < 16 /\ N_of_ascii c mod 16 < 16)%N.
Proof. destruct c as [[] [] [] [] [] [] [] []]; split; reflexivity. Qed.

Lemma fromhex_hex s : fromhex (hex s) = Some s.
Proof.
  unfold fromhex. rewrite <-(bytes_string_of s) at 2. rewrite fmap_Some. exists (utf8_bytes s). split; [|done].
  induction s as [|c s IH]; [done|]. cbn [hex]. destruct (nibbles c) as [Hh Hl].
  rewrite !utf8_bytes_app, !hex_digit_code by done. cbn [app fromhex_codes].
  destruct (hex_value_digit _ Hh) as [Vh Sh], (hex_value_digit _ Hl) as [Vl _].
  rewrite Sh, Vh, Vl. cbn [mbind option_bind]. rewrite IH. cbn [mbind option_bind].
  f_equal. change (utf8_bytes (String c s)) with (N_of_ascii c :: utf8_bytes s). f_equal.
  symmetry. apply N.div_mod. done.
Qed.
Lemma hex_printable s : printable (hex s) = true.
Proof.
  induction s as [|c s IH]; [done|]. cbn [hex]. rewrite !all_codes_app, IH, andb_true_r.
  destruct (nibbles c) as [Hh Hl]. unfold all_codes. rewrite !hex_digit_code by done. simpl.
  unfold printable_code. rewrite !andb_true_iff, !N.leb_le, !N.ltb_lt.
  destruct (N.ltb_spec (N_of_ascii c / 16) 10), (N.ltb_spec (N_of_ascii c mod 16) 10);
    generalize dependent (N_of_ascii c / 16)%N; generalize dependent (N_of_ascii c mod 16)%N;
    intros; split_and!; done || lia.
Qed.
Lemma hex_length s : String.length (hex s) = (2 * String.length s)%nat.
Proof.
  induction s as [|c s IH]; [done|]. cbn [hex]. rewrite !string_app_length, IH.
  assert (forall n, String.length (hex_digit n) = 1%nat) as Hd by (intros n; unfold hex_digit; by case_match).
  rewrite !Hd. simpl. lia.
Qed.

(** ** JSON lines *)
Lemma escape_char_printable c : (N_of_ascii c <? 127)%N = true -> printable (escape_char c) = true.
Proof. destruct c as [[] [] [] [] [] [] [] []]; vm_compute; intros H; done. Qed.
Lemma escape_printable s : plain_string s = true -> printable (escape s) = true.
Proof.
  induction s as [|c s IH]; [done|]. cbn [escape]. intros Hs.
  change (plain_string (String c s)) with ((N_of_ascii c <? 127)%N && plain_string s) in Hs.
  apply andb_true_iff in Hs as [Hc Hs]. by rewrite all_codes_app, escape_char_printable, IH.
Qed.
Lemma pretty_go_printable n s : printable s = true -> printable (pretty.pretty_N_go n s) = true.
Proof.
  revert s. induction (N.lt_wf_0 n) as [n _ IH]. intros s Hs.
  destruct (decide (n = 0%N)) as [->|Hn]; [by rewrite pretty.pretty_N_go_0|].
  rewrite pretty.pretty_N_go_step by lia. apply IH; [apply N.div_lt; lia|].
  rewrite all_codes_cons, Hs, andb_true_r, pretty_char_digit by (apply N.mod_lt; lia).
  pose proof (N.mod_lt n 10 ltac:(lia)). unfold printable_code. rewrite andb_true_iff, N.leb_le, N.ltb_lt.
  generalize dependent (n mod 10)%N. lia.
Qed.
Lemma pretty_printable (z : Z) : printable (pretty z) = true.
Proof.
  destruct z as [|p|p]; [done| |].
  - change (pretty (Z.pos p)) with (pretty.pretty_N_go (N.pos p) ""). by apply pretty_go_printable.
  - change (pretty (Z.neg p)) with (String "-" (pretty.pretty_N_go (N.pos p) "")).
    rewrite all_codes_cons. by rewrite pretty_go_printable.
Qed.
Lemma json_string_printable s : plain_string s = true -> printable (json_string escape s) = true.
Proof. intros Hs. unfold json_string. by rewrite !all_codes_app, escape_printable. Qed.
Lemma print_printable v : plain v = true -> no_floats v = true -> printable (json_print v) = true.
Proof.
  induction v as [|[]|z|f|s|l Hl|fs Hf] using json_nested_ind; try done; simpl.
  - intros _ _. apply pretty_printable.
  - intros Hs _. by apply json_string_printable.
  - rewrite !forallb_forall. intros Hp Hn. rewrite !all_codes_app. apply andb_true_iff. split; [done|].
    rewrite andb_true_r. apply all_codes_join; [done|]. rewrite Forall_fmap. rewrite Forall_forall in Hl |- *.
    intros x Hx. apply Hl; [done|apply Hp|apply Hn]; by apply list_elem_of_In.
  - rewrite !forallb_forall. intros Hp Hn. rewrite !all_codes_app. apply andb_true_iff. split; [done|].
    rewrite andb_true_r. apply all_codes_join; [done|]. rewrite Forall_fmap. rewrite Forall_forall in Hf |- *.
    intros [k x] Hx. simpl. pose proof Hx as Hi. apply list_elem_of_In in Hi.
    pose proof (Hp _ Hi) as Hpx. pose proof (Hn _ Hi) as Hnx. simpl in Hpx, Hnx. apply andb_true_iff in Hpx as [Hk Hv].
    rewrite !all_codes_app, json_string_printable by done. simpl. by apply (Hf (k, x)).
Qed.
Lemma canonical_printable fs : writable (JObj fs) = true -> printable (canonical fs) = true.
Proof.
  unfold canonical, writable. rewrite !andb_true_iff. intros [[Hp Hf] _].
  rewrite (ascii_bytes_plain _ Hp), canonical_bytes_print.
  apply print_printable; [by apply plain_canon|by apply no_floats_canon].
Qed.

(** ** Lines *)
Definition stream_text (lines : list string) : string :=
  foldr (fun l r => l +:+ chr 10 +:+ r) "" lines.

Lemma stream_text_snoc ls l : stream_text (ls ++ [l]) = stream_text ls +:+ l +:+ chr 10.
Proof.
  induction ls as [|x ls IH]; [done|]. cbn [app stream_text foldr]. fold stream_text in *.
  change (foldr _ "" (ls ++ [l])) with (stream_text (ls ++ [l])). rewrite IH.
  change (foldr _ "" ls) with (stream_text ls). by rewrite !string_app_assoc.
Qed.
Lemma string_app_nil (s : string) : s +:+ "" = s.
Proof. induction s as [|c s IH]; [done|]. change (String c s +:+ "") with (String c (s +:+ "")). by rewrite IH. Qed.
Lemma printable_no_break c : printable_code (N_of_ascii c) = true -> line_break c = false.
Proof. destruct c as [[] [] [] [] [] [] [] []]; vm_compute; congruence. Qed.
Lemma splitlines_line line l r :
  printable l = true -> splitlines_from line (l +:+ chr 10 +:+ r) = (line +:+ l) :: splitlines_from "" r.
Proof.
  revert line. induction l as [|c l IH]; intros line Hl.
  - rewrite string_app_nil. destruct r as [|c r]; [done|]. simpl. done.
  - rewrite all_codes_cons in Hl. apply andb_true_iff in Hl as [Hc Hl].
    change (String c l +:+ chr 10 +:+ r) with (String c (l +:+ chr 10 +:+ r)). cbn [splitlines_from].
    rewrite (printable_no_break _ Hc), IH by done. by rewrite string_app_assoc.
Qed.
Lemma splitlines_stream ls : Forall (fun l => printable l = true) ls -> splitlines (stream_text ls) = ls.
Proof.
  unfold splitlines. induction 1 as [|l ls Hl _ IH]; [done|]. cbn [stream_text foldr].
  rewrite splitlines_line by done. f_equal. exact IH.
Qed.
Lemma ascii_app a b : ascii_text (a +:+ b) = ascii_text a && ascii_text b.
Proof. apply all_codes_app. Qed.
Lemma printable_ascii s : printable s = true -> ascii_text s = true.
Proof. intros Hs. by apply plain_ascii, printable_plain. Qed.
Lemma stream_ascii ls : Forall (fun l => printable l = true) ls -> ascii_text (stream_text ls) = true.
Proof.
  induction 1 as [|l ls Hl _ IH]; [done|]. cbn [stream_text foldr]. rewrite !ascii_app, (printable_ascii _ Hl). done.
Qed.

(** ** Fields that are read back *)
Section Fields.
Context (fs : list (string * json)) (Hn : NoDup fs.*1).
Implicit Types (k s : string).

Lemma is_text_read k s : is_text (dict_get k (read_fields fs)) s = is_text (dict_get k fs) s.
Proof. rewrite read_fields_get by done. by destruct (dict_get k fs) as [[]|]. Qed.
Lemma is_text_opt_read k o : is_text_opt (dict_get k (read_fields fs)) o = is_text_opt (dict_get k fs) o.
Proof. rewrite read_fields_get by done. by destruct (dict_get k fs) as [[]|]. Qed.
Lemma is_int_read k n : is_int (dict_get k (read_fields fs)) n = is_int (dict_get k fs) n.
Proof. rewrite read_fields_get by done. by destruct (dict_get k fs) as [[]|]. Qed.
Lemma in_set_read k l : in_set (dict_get k (read_fields fs)) l = in_set (dict_get k fs) l.
Proof. rewrite read_fields_get by done. by destruct (dict_get k fs) as [[]|]. Qed.
Lemma required_text_read k : required_text (read_fields fs) k = required_text fs k.
Proof. unfold required_text. rewrite read_fields_get by done. by destruct (dict_get k fs) as [[]|]. Qed.
Lemma required_integer_read k : required_integer (read_fields fs) k = required_integer fs k.
Proof. unfold required_integer. rewrite read_fields_get by done. by destruct (dict_get k fs) as [[]|]. Qed.
Lemma jtext_read k : jtext (dict_get k (read_fields fs)) = jtext (dict_get k fs).
Proof. rewrite read_fields_get by done. by destruct (dict_get k fs) as [[]|]. Qed.
Lemma jint_read k : jint (dict_get k (read_fields fs)) = jint (dict_get k fs).
Proof. rewrite read_fields_get by done. by destruct (dict_get k fs) as [[]|]. Qed.
Lemma jtext_opt_read k : jtext_opt (dict_get k (read_fields fs)) = jtext_opt (dict_get k fs).
Proof. rewrite read_fields_get by done. by destruct (dict_get k fs) as [[]|]. Qed.
End Fields.

Lemma required_text_get fs k s : dict_get k fs = Some (JStr s) -> s <> "" -> required_text fs k = Ok s.
Proof. intros E Hs. unfold required_text. rewrite E. destruct (String.eqb_spec s ""); [done|done]. Qed.

(** *** Events *)
Lemma phase_of_str p : phase_of (phase_str p) = Some p.
Proof. by destruct p. Qed.
Lemma event_of_fields e : event_of (event_fields e) = Some e.
Proof. destruct e as [v i [] ? ? ? ? ? ? ? [] ?]; done. Qed.
Lemma event_fields_keys e : (event_fields e).*1 = event_keys.
Proof. done. Qed.
Lemma event_keys_nodup : NoDup event_keys.
Proof. by apply (bool_decide_unpack _). Qed.
Lemma event_of_read e : event_of (read_fields (event_fields e)) = Some e.
Proof.
  assert (NoDup (event_fields e).*1) as Hn by (rewrite event_fields_keys; exact event_keys_nodup).
  unfold event_of. rewrite same_keys_read, !jtext_read, !jint_read, jtext_opt_read by done.
  exact (event_of_fields e).
Qed.
