(* ===== verification/LedgerProofs.v ===== *)
(** * LedgerProofs: the ledger reads back what it wrote

    [LedgerLaws] is what the ledger relies on: digests are 64 hexadecimal
    characters, AES-GCM decrypts what it encrypted, tokens have the length asked
    for.  From it follow the lemmas on each kind of file content: a signed
    control file, an encrypted record and each payload are read back as they
    were written. *)

From Stdlib Require Import Ascii.
From S2P Require Import Prelude Float Json JsonCanonical JsonLoads Calendar PyText IsoTime Base64 Keyrings Deletion.
From S2P Require Import Ledger LedgerText.

Definition digest (s : string) : Prop := plain_string s = true /\ String.length s = 64%nat.
Lemma digest_len s : digest s -> py_len s = 64.
Proof. intros [Hp Hl]. by rewrite plain_len, Hl. Qed.
Lemma digest_nonempty s : digest s -> s <> "".
Proof. by intros [_ Hl] ->. Qed.

Class LedgerLaws {PF : Platform} {CR : Crypto} {SH : Sha256} := {
  token_length i n : String.length (token_bytes i n) = n;
  hmac_digest k m : digest (hmac_sha256_hex k m);
  sha_digest m : digest (sha256_hex m);
  aes_inverse k n p a : aes_decrypt k n (aes_encrypt k n p a) a = Some p;
  aes_tag k n p a : aes_encrypt k n p a <> ""
}.

(** ** Writable objects *)
Lemma writable_str s : plain_string s = true -> writable (JStr s) = true.
Proof. intros Hs. unfold writable. simpl. by rewrite Hs. Qed.
Lemma writable_opt o : (forall s, o = Some s -> plain_string s = true) -> writable (jopt JStr o) = true.
Proof. destruct o as [s|]; [|done]. intros Hs. by apply writable_str, Hs. Qed.
Lemma writable_object fs :
  NoDup fs.*1 -> Forall (fun kv => plain_string kv.1 = true /\ writable kv.2 = true) fs -> writable (JObj fs) = true.
Proof.
  intros Hn Hf. unfold writable. simpl. apply has_dups_false in Hn. rewrite Hn. rewrite Forall_forall in Hf.
  rewrite !andb_true_iff, !forallb_forall. split_and!; try done.
  all: intros x Hx%list_elem_of_In; destruct (Hf _ Hx) as [Hk Hw]; unfold writable in Hw;
    rewrite !andb_true_iff in Hw; destruct Hw as [[Hp Hw1] Hw2]; by rewrite ?Hk, ?Hp, ?Hw1, ?Hw2.
Qed.
Lemma writable_parts fs :
  writable (JObj fs) = true -> NoDup fs.*1 /\ plain (JObj fs) = true /\ forall k v, (k, v) ∈ fs -> plain_string k = true /\ writable v = true.
Proof.
  unfold writable. simpl. rewrite !andb_true_iff, !forallb_forall, negb_true_iff, has_dups_false.
  intros [[Hp Hf] [Hn Hu]]. split_and!; [done|done|].
  intros k v Hi%list_elem_of_In. pose proof (Hp _ Hi) as Hkv. simpl in Hkv. apply andb_true_iff in Hkv as [Hk Hv].
  pose proof (Hf _ Hi) as Hfv. pose proof (Hu _ Hi) as Huv. simpl in *. by rewrite Hv, Hfv, Huv.
Qed.
Lemma writable_snoc fs k s :
  writable (JObj fs) = true -> k ∉ fs.*1 -> plain_string k = true -> plain_string s = true ->
  writable (JObj (fs ++ [(k, JStr s)])) = true.
Proof.
  intros (Hn & _ & Hf)%writable_parts Hk Hp Hs. apply writable_object.
  - rewrite fmap_app. apply NoDup_app. split_and!; [done|set_solver|]. apply NoDup_singleton.
  - apply Forall_app. split; [|by rewrite Forall_singleton; split; [|apply writable_str]].
    apply Forall_forall. intros [k' v]. apply Hf.
Qed.
Lemma without_snoc k (v : json) (fs : list (string * json)) : k ∉ fs.*1 -> without k (fs ++ [(k, v)]) = fs.
Proof.
  intros Hk. unfold without. rewrite filter_app, filter_cons_False, filter_nil, app_nil_r by (simpl; naive_solver).
  induction fs as [|[k' v'] fs IH]; [done|]. rewrite filter_cons_True; [|simpl; set_solver]. f_equal. apply IH. set_solver.
Qed.
Lemma dict_get_snoc k (v : json) (fs : list (string * json)) : k ∉ fs.*1 -> dict_get k (fs ++ [(k, v)]) = Some v.
Proof.
  induction fs as [|[k' v'] fs IH]; intros Hk; cbn [app dict_get]; [by rewrite decide_True|].
  rewrite decide_False by set_solver. apply IH. set_solver.
Qed.
Lemma dict_get_app k v (fs1 fs2 : list (string * json)) : dict_get k fs1 = Some v -> dict_get k (fs1 ++ fs2) = Some v.
Proof. induction fs1 as [|[k' v'] fs1 IH]; [done|]. cbn [app dict_get]. case_decide; [done|exact IH]. Qed.

(** One statement of a computation that succeeded. *)
Ltac step_ok H x E := apply bind_ok in H as (x & E & H).
Ltac check_ok H E := let u := fresh "u" in step_ok H u E; apply raise_if_ok in E; rewrite ?negb_false_iff in E.

Create HintDb ledger.
#[export] Hint Resolve writable_str : ledger.
#[export] Hint Resolve printable_plain hex_printable b64encode_plain : ledger.
Ltac solve_keys := by apply (bool_decide_unpack _); vm_compute.
Ltac solve_writable :=
  apply writable_object; [solve_keys|];
  repeat (apply Forall_cons; split; [split; [reflexivity|]|]); [..|apply Forall_nil; exact I];
  cbn [snd]; auto with ledger.

(** ** Versions *)
Lemma version_char_plain c : version_char c = true -> (N_of_ascii c <? 127)%N = true.
Proof. destruct c as [[] [] [] [] [] [] [] []]; vm_compute; done. Qed.
Lemma KEY_VERSION_text s : KEY_VERSION s = true -> plain_string s = true /\ s <> "".
Proof.
  unfold KEY_VERSION. rewrite !andb_true_iff, forallb_forall. intros [[Hl _] Hc]. split; [|by intros ->].
  unfold plain_string, utf8_bytes. apply forallb_forall. intros n (c & <- & Hin)%in_map_iff.
  by apply version_char_plain, Hc.
Qed.

(** A usable configuration. *)
Record config_ok (lg : Ledger) : Prop := {
  co_keyring : keyring_post_init (lg_keyring lg) = Ok tt;
  co_restore : plain_string (lg_restore_key_version lg) = true /\ lg_restore_key_version lg <> "";
  co_actor : lg_actor lg ∈ ALLOWED_ACTORS
}.
Lemma current_version_ok lg :
  config_ok lg -> plain_string (current_version (lg_keyring lg)) = true /\ current_version (lg_keyring lg) <> ""
  /\ exists key, require (lg_keyring lg) (current_version (lg_keyring lg)) = Ok key.
Proof.
  intros [Hk _ _]. unfold keyring_post_init in Hk.
  apply bind_ok in Hk as ([] & H1 & Hk). apply raise_if_ok, negb_false_iff in H1.
  destruct (KEY_VERSION_text _ H1) as [Hp Hne]. split_and!; [done|done|].
  do 2 (apply bind_ok in Hk as ([] & _ & Hk)). apply raise_if_ok, negb_false_iff in Hk. unfold mem in Hk. bools.
  unfold require. destruct (dict_get (current_version (lg_keyring lg)) (keys (lg_keyring lg))) as [key|] eqn:E; [by exists key|].
  by apply dict_get_None in E.
Qed.

Section Reading.
Context {PF : Platform} {CR : Crypto} {SH : Sha256} {JL : JsonLoads} {IF : IsoFormats} {LB : LooseBase64}.
Context {LL : LedgerLaws}.
Implicit Types (lg : Ledger) (d : Disk).

Lemma derived_key_ok lg purpose :
  config_ok lg -> exists key, derived_key lg (current_version (lg_keyring lg)) purpose = Ok key.
Proof. intros (_ & _ & key & E)%current_version_ok. unfold derived_key. rewrite E. simpl. eauto. Qed.
Lemma compare_digest_eq s : digest s -> compare_digest s s = Ok true.
Proof. intros [Hp _]. unfold compare_digest. by rewrite (plain_ascii _ Hp), String.eqb_refl. Qed.
Lemma compare_digest_true a b : compare_digest a b = Ok true -> a = b.
Proof.
  unfold compare_digest. case_match; [|done]. intros E%ok_inj. by apply String.eqb_eq.
Qed.
Lemma load_canonical fs : writable (JObj fs) = true -> load_object (canonical fs) = Ok (read_fields fs).
Proof. intros Hw. unfold load_object, canonical. by rewrite json_loads_dumps. Qed.
Lemma load_canonical_line fs : writable (JObj fs) = true -> load_object (canonical fs +:+ chr 10) = Ok (read_fields fs).
Proof. intros Hw. unfold load_object, canonical. by rewrite json_loads_line. Qed.
Lemma canonical_without key fs :
  writable (JObj fs) = true -> canonical (without key (read_fields fs)) = canonical (without key fs).
Proof. intros (Hn & Hp & _)%writable_parts. by apply read_without_bytes. Qed.

(** ** Control files *)
Definition control_document lg (f : control) (payload : list (string * json)) (key : string) : list (string * json) :=
  let signed := payload ++ [("signing_key_version", JStr (current_version (lg_keyring lg)))] in
  signed ++ [("hmac_sha256", JStr (control_signature f key signed))].

Lemma control_document_writable lg f payload key :
  config_ok lg -> writable (JObj payload) = true -> "signing_key_version" ∉ payload.*1 -> "hmac_sha256" ∉ payload.*1 ->
  writable (JObj (control_document lg f payload key)) = true.
Proof.
  intros (Hv & _)%current_version_ok Hw Hs Hh. unfold control_document. apply writable_snoc; [by apply writable_snoc| |done|].
  - rewrite fmap_app. set_solver.
  - apply hmac_digest.
Qed.

Lemma read_signed_document lg f d payload key :
  config_ok lg -> writable (JObj payload) = true -> "signing_key_version" ∉ payload.*1 -> "hmac_sha256" ∉ payload.*1 ->
  control_key lg f (current_version (lg_keyring lg)) = Ok key ->
  control_file f d = Some (signed_document lg f payload key) ->
  read_signed lg f d = Ok (read_fields (control_document lg f payload key)).
Proof.
  intros Hc Hw Hs Hh Hk Hf. pose proof (control_document_writable lg f payload key Hc Hw Hs Hh) as Hd.
  destruct (writable_parts _ Hd) as (Hn & _ & _). destruct (current_version_ok _ Hc) as (_ & Hv & _).
  unfold read_signed, signed_fields. rewrite Hf.
  assert (signed_document lg f payload key = canonical (control_document lg f payload key) +:+ chr 10) as -> by done.
  unfold read_ascii. rewrite ascii_app, (printable_ascii _ (canonical_printable _ Hd)). cbn [andb mbind result_bind].
  change (ascii_text (chr 10)) with true. cbn iota. cbn [mbind result_bind]. rewrite (load_canonical_line _ Hd). cbn [mbind result_bind].
  set (signed := payload ++ [("signing_key_version", JStr (current_version (lg_keyring lg)))]).
  assert ("hmac_sha256" ∉ signed.*1) as Hh' by (unfold signed; rewrite fmap_app; set_solver).
  rewrite !required_text_read by done.
  assert (required_text (control_document lg f payload key) "hmac_sha256" = Ok (control_signature f key signed)) as ->.
  { apply required_text_get; [by apply dict_get_snoc|]. apply digest_nonempty, hmac_digest. }
  assert (required_text (control_document lg f payload key) "signing_key_version" = Ok (current_version (lg_keyring lg))) as ->.
  { apply required_text_get; [|done]. apply dict_get_app. by apply dict_get_snoc. }
  cbn [mbind result_bind]. rewrite Hk. cbn [mbind result_bind except fst snd].
  assert (control_signature f key (without "hmac_sha256" (read_fields (control_document lg f payload key)))
          = control_signature f key signed) as ->.
  { unfold control_signature at 1. rewrite (canonical_without _ _ Hd). unfold control_document.
    by rewrite without_snoc. }
  by rewrite compare_digest_eq by apply hmac_digest.
Qed.

(** ** Records *)
Definition record_line (s : LedgerState) (t : RecordType) (version nonce key : string) (payload : list (string * json)) : string :=
  canonical (signed_record (unsigned_record s t version nonce key payload)).
Definition record_hash (s : LedgerState) (t : RecordType) (version nonce key : string) (payload : list (string * json)) : string :=
  sha256_hex (canonical (unsigned_record s t version nonce key payload)).

Lemma unsigned_record_writable s t version nonce key payload :
  plain_string (ls_ledger_id s) = true -> plain_string version = true ->
  (forall h, ls_last_record_sha256 s = Some h -> plain_string h = true) ->
  writable (JObj (unsigned_record s t version nonce key payload)) = true.
Proof.
  intros Hi Hv Hp. unfold unsigned_record, record_header. cbn [app]. solve_writable; [by destruct t|by apply writable_opt].
Qed.
Lemma signed_record_writable s t version nonce key payload :
  plain_string (ls_ledger_id s) = true -> plain_string version = true ->
  (forall h, ls_last_record_sha256 s = Some h -> plain_string h = true) ->
  writable (JObj (signed_record (unsigned_record s t version nonce key payload))) = true.
Proof.
  intros Hi Hv Hp. apply writable_snoc; [by apply unsigned_record_writable| |done|apply sha_digest].
  apply (bool_decide_unpack _). by vm_compute.
Qed.

Lemma record_type_of_str t : record_type_of (record_type_str t) = Some t.
Proof. by destruct t. Qed.

(** A record that was written is decoded. *)
Lemma decode_record_line lg s t nonce key payload nonces :
  config_ok lg -> String.length nonce = 12%nat ->
  derived_key lg (current_version (lg_keyring lg)) "envelope-encryption" = Ok key ->
  writable (JObj payload) = true -> plain_string (ls_ledger_id s) = true ->
  (forall h, ls_last_record_sha256 s = Some h -> plain_string h = true) ->
  (current_version (lg_keyring lg), hex nonce) ∉ nonces ->
  let version := current_version (lg_keyring lg) in
  decode_record lg (record_line s t version nonce key payload) (ls_ledger_id s) (ls_last_sequence s + 1)
    (ls_last_record_sha256 s) nonces
  = Ok {| dr_type := t; dr_key_version := version; dr_sequence := ls_last_sequence s + 1;
          dr_previous := ls_last_record_sha256 s; dr_sha256 := record_hash s t version nonce key payload;
          dr_nonce := (version, hex nonce); dr_payload := read_fields payload |}.
Proof.
  intros Hc Hl Hk Hw Hi Hp Hfresh version. destruct (current_version_ok _ Hc) as (Hv & Hne & _). fold version in Hv, Hne, Hk, Hfresh.
  pose proof (signed_record_writable s t version nonce key payload Hi Hv Hp) as Hr.
  destruct (writable_parts _ Hr) as (Hn & _ & _).
  unfold decode_record, record_line. rewrite (load_canonical _ Hr). cbn [mbind result_bind].
  unfold decode_fields. rewrite same_keys_read, !is_text_read, !is_text_opt_read, !jtext_read, !required_text_read by done.
  rewrite read_fields_get by done. rewrite (canonical_without _ _ Hr).
  set (unsigned := unsigned_record s t version nonce key payload) in *.
  assert ("record_sha256" ∉ unsigned.*1) as Hsha by (apply (bool_decide_unpack _); by vm_compute).
  assert (without "record_sha256" (signed_record unsigned) = unsigned) as Hwo by (by apply without_snoc).
  rewrite Hwo.
  assert (required_text (signed_record unsigned) "nonce" = Ok (hex nonce)) as En.
  { apply required_text_get; [done|]. intros E. pose proof (hex_length nonce) as L. rewrite E, Hl in L. done. }
  assert (required_text (signed_record unsigned) "key_version" = Ok version) as Ev by (by apply required_text_get).
  assert (required_text (signed_record unsigned) "record_sha256" = Ok (sha256_hex (canonical unsigned))) as Es.
  { apply required_text_get; [by apply dict_get_snoc|]. apply digest_nonempty, sha_digest. }
  set (header := record_header s t version nonce).
  set (cipher := aes_encrypt key nonce (canonical payload) (AAD_DOMAIN +:+ canonical header)).
  assert (required_text (signed_record unsigned) "ciphertext" = Ok (b64encode cipher)) as Ec.
  { apply required_text_get; [done|]. apply b64encode_nonempty, aes_tag. }
  rewrite En, Ev, Es, Ec.
  assert (canonical (without "ciphertext" (without "record_sha256" (read_fields (signed_record unsigned)))) = canonical header) as Eh.
  { unfold canonical. apply ascii_bytes_perm.
    - apply without_keys, without_keys. by rewrite read_fields_keys.
    - apply plain_without, plain_without. destruct (writable_parts _ (writable_canon _ Hr)) as (_ & Hpl & _). exact Hpl.
    - assert (writable (JObj unsigned) = true) as Hu by (by apply unsigned_record_writable).
      assert (header = without "ciphertext" unsigned) as -> by (symmetry; apply without_snoc; solve_keys).
      apply plain_without. by destruct (writable_parts _ Hu) as (_ & ? & _).
    - rewrite <-!without_fmap. assert (header = without "ciphertext" (without "record_sha256" (signed_record unsigned))) as ->.
      { rewrite Hwo. symmetry. apply without_snoc. solve_keys. }
      rewrite <-!without_fmap. unfold without. by rewrite (read_fields_perm (signed_record unsigned)), canon_fields_idemp. }
  rewrite Eh.
  assert (dict_get "sequence" (signed_record unsigned) = Some (JInt (ls_last_sequence s + 1))) as -> by done.
  assert (is_text (dict_get "ledger_id" (signed_record unsigned)) (ls_ledger_id s) = true) as -> by apply String.eqb_refl.
  assert (is_text_opt (dict_get "previous_record_sha256" (signed_record unsigned)) (ls_last_record_sha256 s) = true) as ->.
  { cbn. destruct (ls_last_record_sha256 s); [apply String.eqb_refl|done]. }
  assert (jtext (dict_get "record_type" (signed_record unsigned)) = Some (record_type_str t)) as -> by done.
  assert (same_set (signed_record unsigned).*1 RECORD_KEYS = true) as -> by done.
  cbn [fmap option_fmap option_map canon mbind option_bind]. rewrite Z.eqb_refl, record_type_of_str.
  cbn [from_option negb raise_if mbind result_bind]. rewrite fromhex_hex. cbn [from_option mbind result_bind].
  rewrite Hl, String.eqb_refl. cbn [Nat.eqb negb orb raise_if mbind result_bind].
  assert (mem (version, hex nonce) nonces = false) as -> by (unfold mem; by apply bool_decide_eq_false).
  cbn [raise_if mbind result_bind]. rewrite compare_digest_eq by apply sha_digest. cbn [negb raise_if mbind result_bind].
  rewrite b64decode_encode. cbn [from_option mbind result_bind]. rewrite Hk. cbn [mbind result_bind].
  unfold cipher. rewrite aes_inverse. cbn [from_option mbind result_bind]. unfold read_ascii.
  rewrite (printable_ascii _ (canonical_printable _ Hw)). cbn [mbind result_bind].
  by rewrite (load_canonical _ Hw).
Qed.

(** ** Payloads *)
Definition in_calendar (t : Z) : Prop := instant_min <= t <= instant_max.
Lemma check_in_calendar t : in_calendar t -> datetime_check t = Ok t.
Proof.
  unfold in_calendar, datetime_check. intros [H1 H2]. destruct (Z.ltb_spec t instant_min), (Z.ltb_spec instant_max t); done || lia.
Qed.
Lemma aware_isoformat t : in_calendar t -> aware (datetime_isoformat t) = Ok t.
Proof. intros Ht. unfold aware. by rewrite fromisoformat_isoformat. Qed.
Lemma isoformat_text t : plain_string (datetime_isoformat t) = true /\ datetime_isoformat t <> "".
Proof.
  assert (forall n, plain_string (digit n) = true) as Hd.
  { intros n. unfold plain_string. rewrite utf8_digit. simpl. rewrite andb_true_r. apply N.ltb_lt. unfold digit_code.
    pose proof (Z.mod_pos_bound n 10 ltac:(lia)). generalize dependent (n mod 10). lia. }
  split.
  - unfold datetime_isoformat, isoformat, pad4, pad2. destruct (_ =? 0); rewrite !plain_app, !Hd; done.
  - unfold datetime_isoformat, isoformat, pad4. intros E. apply (f_equal String.length) in E.
    rewrite !string_app_length in E. simpl in E. lia.
Qed.

(** *** Audits *)
Lemma in_set_str s l : s ∈ l -> in_set (Some (JStr s)) l = Ok true.
Proof. intros Hs. unfold in_set, mem. by rewrite bool_decide_true. Qed.
Lemma audit_payload_writable lg s operation token now :
  lg_actor lg ∈ ALLOWED_ACTORS -> operation ∈ ALLOWED_OPERATIONS ->
  (forall h, ls_last_record_sha256 s = Some h -> plain_string h = true) ->
  writable (JObj (audit_payload lg s operation (hex token) now)) = true.
Proof.
  intros Ha Ho Hp. pose proof (isoformat_text now) as [Hiso _]. unfold audit_payload. solve_writable.
  - apply writable_str. revert Ha. generalize (lg_actor lg). apply Forall_forall. solve_keys.
  - apply writable_str. revert Ho. generalize operation. apply Forall_forall. solve_keys.
  - by apply writable_opt.
Qed.
Lemma validate_written_audit lg s operation token now :
  lg_actor lg ∈ ALLOWED_ACTORS -> operation ∈ ALLOWED_OPERATIONS -> String.length token = 16%nat -> in_calendar now ->
  validate_audit (read_fields (audit_payload lg s operation (hex token) now)) (ls_last_sequence s) (ls_last_record_sha256 s)
  = Ok tt.
Proof.
  intros Ha Ho Hl Ht. assert (NoDup (audit_payload lg s operation (hex token) now).*1) as Hn by solve_keys.
  unfold validate_audit. rewrite same_keys_read, !is_text_read, !in_set_read, is_int_read, is_text_opt_read, required_text_read by done.
  rewrite read_fields_get by done.
  assert (required_text (audit_payload lg s operation (hex token) now) "occurred_at" = Ok (datetime_isoformat now)) as ->.
  { apply required_text_get; [done|apply isoformat_text]. }
  set (p := audit_payload lg s operation (hex token) now).
  assert (in_set (dict_get "actor" p) ALLOWED_ACTORS = Ok true) as -> by exact (in_set_str _ _ Ha).
  assert (in_set (dict_get "operation" p) ALLOWED_OPERATIONS = Ok true) as -> by exact (in_set_str _ _ Ho).
  assert (is_int (dict_get "previous_sequence" p) (ls_last_sequence s) = true) as -> by apply Z.eqb_refl.
  assert (is_text_opt (dict_get "previous_record_sha256" p) (ls_last_record_sha256 s) = true) as ->
    by (cbn; destruct (ls_last_record_sha256 s); [apply String.eqb_refl|done]).
  assert (dict_get "operation_id" p = Some (JStr (hex token))) as -> by done.
  cbn [fmap option_fmap option_map canon].
  rewrite (plain_len _ (printable_plain _ (hex_printable token))), hex_length, Hl.
  change (same_set p.*1 audit_keys) with true. cbn. by rewrite (aware_isoformat _ Ht).
Qed.

(** *** Events *)
Record request_ok (rq : Request) : Prop := {
  ro_deletion_id : plain_string (rq_deletion_id rq) = true /\ rq_deletion_id rq <> "";
  ro_scope_token : plain_string (rq_scope_token rq) = true /\ rq_scope_token rq <> "";
  ro_restore_key_version : plain_string (rq_restore_key_version rq) = true /\ rq_restore_key_version rq <> "";
  ro_generations : 0 <= rq_original_generation rq < rq_proposed_generation rq;
  ro_digests : digest (rq_preparation_digest rq) /\ digest (rq_intent_proof_digest rq)
}.
(** Events as the ledger stores them. *)
Record event_ok (e : LedgerEvent) : Prop := {
  eo_request : request_ok (event_request e);
  eo_receipt : digest (ev_receipt e);
  eo_previous : forall r, ev_previous_receipt e = Some r -> plain_string r = true;
  eo_occurred_at : exists t, in_calendar t /\ ev_occurred_at e = datetime_isoformat t
}.
Lemma event_fields_writable e :
  event_ok e -> plain_string (ev_schema_version e) = true -> writable (JObj (event_fields e)) = true.
Proof.
  intros [[[? ?] [? ?] [? ?] ? [[? ?] [? ?]]] [? ?] ? (t & _ & Ht)] Hs. destruct (isoformat_text t) as [? _].
  unfold event_fields. solve_writable.
  - by destruct (ev_phase e).
  - rewrite Ht. auto with ledger.
  - by apply writable_opt.
Qed.
Lemma validate_event_ok e t :
  event_ok e -> ev_schema_version e ∈ ["deletion-ledger-event-v1"; "deletion-ledger-event-v2"] ->
  in_calendar t -> ev_occurred_at e = datetime_isoformat t -> validate_event e = Ok t.
Proof.
  intros [[[? Hd] [? Hsc] [? Hr] Hg [Hp Hi]] Hrc _ _] Hs Ht E. unfold validate_event. rewrite E, (aware_isoformat _ Ht).
  unfold mem. rewrite bool_decide_true by done. simpl in *.
  rewrite (proj2 (String.eqb_neq _ _) Hd), (proj2 (String.eqb_neq _ _) Hsc), (proj2 (String.eqb_neq _ _) Hr).
  rewrite (proj2 (Z.ltb_ge _ _)), (proj2 (Z.leb_gt _ _)) by lia. by rewrite !digest_len.
Qed.

Lemma make_event_ok lg rq phase t previous :
  config_ok lg -> request_ok rq -> in_calendar t -> (forall r, previous = Some r -> plain_string r = true) ->
  exists e, make_event lg rq phase t previous (current_version (lg_keyring lg)) = Ok e
    /\ event_ok e /\ ev_schema_version e = "deletion-ledger-event-v2" /\ event_request e = rq /\ ev_phase e = phase
    /\ ev_occurred_at e = datetime_isoformat t /\ ev_previous_receipt e = previous.
Proof.
  intros Hc Hrq Ht Hp. unfold make_event. rewrite (check_in_calendar _ Ht). cbn [mbind result_bind].
  destruct (derived_key_ok lg "event-receipt" Hc) as [key ->]. cbn [mbind result_bind].
  eexists. split; [done|]. split; [|by destruct rq]. split; cbn.
  - by destruct rq.
  - apply hmac_digest.
  - done.
  - eauto.
Qed.
Lemma event_payload_writable lg e :
  config_ok lg -> event_ok e -> ev_schema_version e = "deletion-ledger-event-v2" -> writable (JObj (event_payload lg e)) = true.
Proof.
  intros Hc He Hs. destruct (current_version_ok _ Hc) as (Hv & _ & _). unfold event_payload. solve_writable.
  apply event_fields_writable; [done|by rewrite Hs].
Qed.
Lemma decode_written_event lg rq phase t previous e :
  config_ok lg -> request_ok rq -> in_calendar t -> (forall r, previous = Some r -> plain_string r = true) ->
  make_event lg rq phase t previous (current_version (lg_keyring lg)) = Ok e ->
  decode_event lg (read_fields (event_payload lg e)) (current_version (lg_keyring lg)) = Ok e.
Proof.
  intros Hc Hrq Ht Hp He. destruct (make_event_ok lg rq phase t previous Hc Hrq Ht Hp) as (e' & E & Hok & Hs & Hr & Hph & Hoc & Hpr).
  rewrite E in He. apply ok_inj in He as ->. destruct (current_version_ok _ Hc) as (_ & Hne & _).
  assert (NoDup (event_payload lg e).*1) as Hn by solve_keys.
  unfold decode_event. rewrite !same_keys_read, !is_text_read, required_text_read by done.
  rewrite read_fields_get by done.
  assert (required_text (event_payload lg e) "receipt_key_version" = Ok (current_version (lg_keyring lg))) as ->
    by (by apply required_text_get).
  set (p := event_payload lg e).
  change (is_text (dict_get "schema_version" p) "deletion-ledger-migrated-event-payload-v1") with false.
  change (is_text (dict_get "schema_version" p) "deletion-ledger-event-payload-v2") with true.
  change (same_set p.*1 ["schema_version"; "receipt_key_version"; "event"]) with true.
  change (canon <$> dict_get "event" p) with (Some (JObj (read_fields (event_fields e)))).
  cbn [negb raise_if mbind result_bind as_object except]. rewrite String.eqb_refl. cbn [negb raise_if mbind result_bind].
  unfold decode_current. rewrite event_of_read. cbn [from_option mbind result_bind].
  rewrite (validate_event_ok e t Hok) by (done || rewrite Hs; set_solver). cbn [mbind result_bind].
  rewrite Hs, Hr, Hph, Hpr, E. cbn.
  rewrite compare_digest_eq by apply Hok. done.
Qed.

(** *** Migrated events *)
Lemma legacy_payload_writable source t e :
  event_ok e -> ev_schema_version e = "deletion-ledger-event-v1" -> plain_string source = true ->
  writable (JObj (legacy_payload source t e)) = true.
Proof.
  intros He Hs Hsrc. destruct (isoformat_text t) as [Ht _]. unfold legacy_payload. solve_writable.
  apply event_fields_writable; [done|by rewrite Hs].
Qed.
Lemma decode_written_legacy lg source t e bytes version :
  event_ok e -> ev_schema_version e = "deletion-ledger-event-v1" -> plain_string source = true ->
  fromhex source = Some bytes -> py_len source = 64 -> in_calendar t ->
  decode_event lg (read_fields (legacy_payload source t e)) version = Ok e.
Proof.
  intros He Hs Hsrc Hhex Hlen Ht. destruct (isoformat_text t) as [_ Hiso].
  assert (source <> "") as Hne by (by intros ->).
  assert (NoDup (legacy_payload source t e).*1) as Hn by solve_keys.
  unfold decode_event, decode_legacy. rewrite !same_keys_read, !is_text_read, !required_text_read by done.
  rewrite read_fields_get by done. set (p := legacy_payload source t e).
  change (is_text (dict_get "schema_version" p) "deletion-ledger-migrated-event-payload-v1") with true.
  change (is_text (dict_get "provenance" p) "MIGRATED_V1_ASSERTED") with true.
  change (same_set p.*1 ["schema_version"; "provenance"; "migration_source_sha256"; "migrated_at"; "event"]) with true.
  change (canon <$> dict_get "event" p) with (Some (JObj (read_fields (event_fields e)))).
  cbn [negb orb raise_if mbind result_bind].
  rewrite (required_text_get p "migration_source_sha256" source eq_refl Hne).
  cbn [mbind result_bind]. rewrite Hhex. cbn [from_option mbind result_bind].
  rewrite (required_text_get p "migrated_at" _ eq_refl Hiso). cbn [mbind result_bind].
  rewrite (aware_isoformat _ Ht), Hlen. cbn [mbind result_bind Z.eqb Pos.eqb negb raise_if as_object].
  rewrite event_of_read. cbn [from_option mbind result_bind]. destruct (eo_occurred_at _ He) as (u & Hu & Eu).
  rewrite (validate_event_ok e u He) by (done || rewrite Hs; set_solver). by rewrite Hs.
Qed.

(** *** Rotations *)
Lemma rotation_read p sequence hash version :
  NoDup p.*1 -> rotation_from_payload (read_fields p) sequence hash version = rotation_from_payload p sequence hash version.
Proof.
  intros Hn. unfold rotation_from_payload, rotation_fields.
  by rewrite !required_text_read, same_keys_read, !is_text_read by done.
Qed.
Definition rotation_of lg (expected_head hash : string) (sequence t : Z) : KeyRotation :=
  {| kr_sequence := sequence; kr_record_sha256 := hash; kr_previous_head_sha256 := expected_head;
     kr_previous_ledger_key_version := lg_expected_ledger_key_version lg;
     kr_current_ledger_key_version := current_version (lg_keyring lg);
     kr_previous_restore_key_version := lg_expected_restore_key_version lg;
     kr_current_restore_key_version := lg_restore_key_version lg; kr_occurred_at := datetime_isoformat t |}.
Record rotation_ok lg (expected_head : string) : Prop := {
  rk_head : plain_string expected_head = true /\ py_len expected_head = 64 /\ exists bytes, fromhex expected_head = Some bytes;
  rk_ledger : plain_string (lg_expected_ledger_key_version lg) = true /\ lg_expected_ledger_key_version lg <> ""
              /\ lg_expected_ledger_key_version lg <> current_version (lg_keyring lg);
  rk_restore : plain_string (lg_expected_restore_key_version lg) = true /\ lg_expected_restore_key_version lg <> ""
               /\ lg_expected_restore_key_version lg <> lg_restore_key_version lg
}.
Lemma rotation_payload_writable lg token expected_head t :
  config_ok lg -> rotation_ok lg expected_head -> writable (JObj (rotation_payload lg (hex token) expected_head t)) = true.
Proof.
  intros Hc [(Hh & _) (Hl & _) (Hr & _)]. destruct (current_version_ok _ Hc) as (Hv & _), (isoformat_text t) as [Ht _].
  destruct (co_restore _ Hc) as [Hrs _]. unfold rotation_payload. solve_writable.
Qed.
Lemma rotation_from_written lg token expected_head t sequence hash :
  config_ok lg -> rotation_ok lg expected_head -> String.length token = 16%nat -> in_calendar t ->
  rotation_from_payload (rotation_payload lg (hex token) expected_head t) sequence hash (current_version (lg_keyring lg))
  = Ok (rotation_of lg expected_head hash sequence t).
Proof.
  intros Hc [(Hh & Hlen & bytes & Hhex) (_ & Hle & Hln) (_ & Hre & Hrn)] Htok Ht.
  destruct (current_version_ok _ Hc) as (_ & Hv & _), (isoformat_text t) as [_ Hiso], (co_restore _ Hc) as [_ Hrs].
  assert (expected_head <> "") as Hhe by (by intros ->).
  assert (hex token <> "") as Hte by (intros E; pose proof (hex_length token) as L; rewrite E, Htok in L; done).
  unfold rotation_from_payload, rotation_fields. set (p := rotation_payload lg (hex token) expected_head t).
  rewrite (required_text_get p "previous_head_sha256" _ eq_refl Hhe).
  rewrite (required_text_get p "previous_ledger_key_version" _ eq_refl Hle).
  rewrite (required_text_get p "current_ledger_key_version" _ eq_refl Hv).
  rewrite (required_text_get p "previous_restore_key_version" _ eq_refl Hre).
  rewrite (required_text_get p "current_restore_key_version" _ eq_refl Hrs).
  rewrite (required_text_get p "occurred_at" _ eq_refl Hiso).
  rewrite (required_text_get p "operation_id" _ eq_refl Hte).
  cbn [mbind result_bind]. rewrite (aware_isoformat _ Ht), Hhex, Hlen. cbn [from_option mbind result_bind].
  rewrite (plain_len _ (printable_plain _ (hex_printable token))), hex_length, Htok, String.eqb_refl.
  rewrite (proj2 (String.eqb_neq _ _) Hln), (proj2 (String.eqb_neq _ _) Hrn).
  change (same_set p.*1 rotation_keys) with true.
  change (is_text (dict_get "schema_version" p) "deletion-ledger-key-rotation-v1") with true.
  change (is_text (dict_get "actor" p) "ROTATION_CLI") with true.
  change (is_text (dict_get "outcome" p) "AUTHORIZED") with true. done.
Qed.
End Reading.
