(* ===== verification/LedgerChains.v ===== *)
(** * LedgerChains: the per-deletion chains of ledger events

    [validate_event_chains] groups the events by deletion in a dictionary.  Here
    it is characterised on the sequence alone: every event names the receipt of
    its predecessor, and the phases of every deletion are a legal chain.  The
    protocol of [Deletion] only builds such chains. *)

From S2P Require Import Prelude Float Json JsonCanonical JsonLoads Calendar PyText IsoTime Base64 Keyrings Deletion Ledger.

Implicit Types (events : list LedgerEvent) (e : LedgerEvent) (id : string).

(** Every event carries the receipt of the previous event of its deletion. *)
Definition linked events : Prop :=
  forall i e, events !! i = Some e ->
  ev_previous_receipt e = ev_receipt <$> last (chain_of (ev_deletion_id e) (take i events)).
Definition legal events : Prop :=
  forall id, chain_of id events <> [] -> ev_phase <$> chain_of id events ∈ LEGAL_CHAINS.

Lemma chain_of_app id l1 l2 : chain_of id (l1 ++ l2) = chain_of id l1 ++ chain_of id l2.
Proof. apply filter_app. Qed.
Lemma chain_of_one id e : chain_of id [e] = if decide (ev_deletion_id e = id) then [e] else [].
Proof. unfold chain_of. rewrite filter_cons. by case_decide. Qed.
Lemma linked_snoc events e :
  linked (events ++ [e]) <->
  linked events /\ ev_previous_receipt e = ev_receipt <$> last (chain_of (ev_deletion_id e) events).
Proof.
  unfold linked. split.
  - intros H. split.
    + intros i x Hx. pose proof (lookup_lt_Some _ _ _ Hx). rewrite (H i x) by (by apply lookup_app_l_Some).
      by rewrite take_app_le by lia.
    + rewrite (H (length events) e) by (by apply list_lookup_middle). by rewrite take_app_length.
  - intros [H He] i x [Hx|[Hi Hx]]%lookup_app_Some.
    + pose proof (lookup_lt_Some _ _ _ Hx). rewrite take_app_le by lia. by apply H.
    + apply list_lookup_singleton_Some in Hx as [Hz <-]. by replace i with (length events) by lia; rewrite take_app_length.
Qed.

Lemma group_event_get id d e :
  dict_get id (group_event d e) =
  if decide (ev_deletion_id e = id) then Some (default [] (dict_get id d) ++ [e]) else dict_get id d.
Proof.
  unfold group_event, dict_setdefault. destruct (dict_get (ev_deletion_id e) d) as [c|] eqn:E; case_decide as Hid.
  - subst id. by rewrite dict_get_set_eq, E.
  - by rewrite dict_get_set_ne.
  - subst id. by rewrite dict_get_set_eq, E.
  - by rewrite !dict_get_set_ne.
Qed.
Lemma group_event_keys d e : NoDup d.*1 -> NoDup (group_event d e).*1.
Proof.
  intros Hd. unfold group_event, dict_setdefault.
  destruct (dict_get (ev_deletion_id e) d); by repeat apply dict_set_NoDup.
Qed.
(** The dictionary of the events seen so far. *)
Lemma grouped events :
  let groups := foldl group_event [] events in
  NoDup groups.*1 /\ forall id, dict_get id groups = if decide (chain_of id events = []) then None else Some (chain_of id events).
Proof.
  induction events as [|e events [IHn IH]] using rev_ind; simpl; [split; [constructor|done]|].
  rewrite foldl_app. simpl. split; [by apply group_event_keys|]. intros id.
  rewrite group_event_get, IH, chain_of_app, chain_of_one.
  destruct (decide (ev_deletion_id e = id)), (decide (chain_of id events = [])) as [E|E]; rewrite ?E, ?app_nil_r; try done.
  - rewrite decide_False; [done|]. by destruct (chain_of id events).
  - by rewrite decide_False.
Qed.
Lemma group_chain id events : default [] (dict_get id (foldl group_event [] events)) = chain_of id events.
Proof. destruct (grouped events) as [_ ->]. by case_decide. Qed.

Lemma link_events events d :
  foldM link_event [] events = Ok d <-> linked events /\ d = foldl group_event [] events.
Proof.
  revert d. induction events as [|e events IH] using rev_ind; intros d.
  - simpl. split; [intros <-%ok_inj; split; [by intros i x|done]|by intros [_ ->]].
  - rewrite foldM_app, bind_ok, linked_snoc, foldl_app. setoid_rewrite IH. simpl.
    assert (forall g : list (string * list LedgerEvent), (dict_setdefault (ev_deletion_id e) [] g).1 = default [] (dict_get (ev_deletion_id e) g)) as Hs
      by (intros g; unfold dict_setdefault; by destruct (dict_get (ev_deletion_id e) g)).
    unfold link_event. rewrite <-group_chain. split.
    + intros (g & [Hl ->] & H). apply bind_ok in H as (d' & H & <-%ok_inj). apply bind_ok in H as ([] & H & <-%ok_inj).
      rewrite Hs in H. apply raise_if_ok, negb_false_iff in H. bools. done.
    + intros [[Hl Hp] ->]. eexists. split; [done|]. rewrite Hs, Hp, bool_decide_true by done. done.
Qed.

(** Validation of the stored events. *)
Lemma validate_chains_iff events : validate_event_chains events = Ok tt <-> linked events /\ legal events.
Proof.
  unfold validate_event_chains. rewrite bind_ok. setoid_rewrite link_events. setoid_rewrite raise_if_ok.
  destruct (grouped events) as [Hn Hg]. split.
  - intros (d & [Hl ->] & Hx). split; [done|]. intros id Hid.
    assert (dict_get id (foldl group_event [] events) = Some (chain_of id events)) as Hd by (by rewrite Hg, decide_False).
    apply dict_get_elem in Hd. destruct (mem (ev_phase <$> chain_of id events) LEGAL_CHAINS) eqn:E; [by apply bool_decide_eq_true in E|].
    exfalso. revert Hx. apply not_false_iff_true, existsb_exists. exists (id, chain_of id events).
    split; [by apply list_elem_of_In|]. simpl. by rewrite E.
  - intros [Hl Hg']. eexists. split; [done|]. apply not_true_iff_false. rewrite existsb_exists.
    intros ([id c] & Hin%list_elem_of_In & Hc). apply dict_elem_get in Hin; [|done]. rewrite Hg in Hin.
    destruct (decide (chain_of id events = [])) as [|Hne]; [done|]. injection Hin as <-. simpl in Hc.
    apply negb_true_iff, bool_decide_eq_false in Hc. by apply Hc, Hg'.
Qed.

(** Adding the next event of a deletion. *)
Lemma validate_chains_snoc events e :
  validate_event_chains events = Ok tt ->
  ev_previous_receipt e = ev_receipt <$> last (chain_of (ev_deletion_id e) events) ->
  (ev_phase <$> chain_of (ev_deletion_id e) events) ++ [ev_phase e] ∈ LEGAL_CHAINS ->
  validate_event_chains (events ++ [e]) = Ok tt.
Proof.
  rewrite !validate_chains_iff, linked_snoc. intros [Hl Hg] Hp Hc. split_and!; [done|done|].
  intros id. rewrite chain_of_app, chain_of_one. case_decide as Hid.
  - subst id. intros _. by rewrite fmap_app.
  - rewrite app_nil_r. apply Hg.
Qed.

(** The preparations that were neither requested nor aborted. *)
Lemma chain_of_elem id e events : e ∈ chain_of id events <-> ev_deletion_id e = id /\ e ∈ events.
Proof. unfold chain_of. by rewrite list_elem_of_filter. Qed.
Lemma elem_of_unresolved e events :
  e ∈ unresolved events <-> ev_phase e = PREPARED /\ chain_of (ev_deletion_id e) events = [e].
Proof.
  unfold unresolved. rewrite list_elem_of_bind. destruct (grouped events) as [Hn Hg]. split.
  - intros (c & He & Hc). apply list_elem_of_fmap in Hc as ([id c'] & -> & Hin). simpl in He.
    apply dict_elem_get in Hin; [|done]. rewrite Hg in Hin. case_decide; [done|]. injection Hin as <-.
    case_bool_decide as Hp; [|set_solver]. destruct (chain_of id events) as [|x [|y l]] eqn:Ec; try done.
    apply list_elem_of_singleton in He as ->. injection Hp as Hp. split; [done|].
    assert (x ∈ chain_of id events) as Hx by (rewrite Ec; left). apply chain_of_elem in Hx as [-> _]. done.
  - intros [Hp Hc]. exists [e]. simpl. rewrite bool_decide_true by (by rewrite Hp). split; [set_solver|].
    apply list_elem_of_fmap. exists (ev_deletion_id e, [e]). split; [done|]. apply dict_get_elem.
    by rewrite Hg, Hc.
Qed.

(** ** The protocol *)
(** The ledger chain of every reachable protocol state is empty or legal. *)
Lemma protocol_chains_legal g s :
  Protocol.reachable g s -> Protocol.ledger_chain s = [] \/ Protocol.ledger_chain s ∈ LEGAL_CHAINS.
Proof.
  intros Hr%Protocol.reachable_phase. unfold LEGAL_CHAINS.
  inversion Hr; simpl; subst; (by left) || (right; set_solver).
Qed.

(** A prefix of a valid sequence is valid. *)
Lemma legal_prefix phases p : (phases ++ [p]) ∈ LEGAL_CHAINS -> phases <> [] -> phases ∈ LEGAL_CHAINS.
Proof.
  intros H Hne. assert (Forall (fun c => removelast c = [] \/ removelast c ∈ LEGAL_CHAINS) LEGAL_CHAINS) as Hc.
  { repeat constructor; first [by left|right; by apply (bool_decide_unpack _)]. }
  rewrite Forall_forall in Hc. apply Hc in H. rewrite removelast_last in H. by destruct H.
Qed.
Lemma validate_chains_prefix events e :
  validate_event_chains (events ++ [e]) = Ok tt ->
  validate_event_chains events = Ok tt.
Proof.
  rewrite !validate_chains_iff, linked_snoc. intros [[Hl _] Hg]. split; [done|]. intros id Hne.
  specialize (Hg id). rewrite chain_of_app, chain_of_one in Hg. destruct (decide (ev_deletion_id e = id)).
  - rewrite fmap_app in Hg. eapply legal_prefix; [apply Hg; by destruct (chain_of id events)|by destruct (chain_of id events)].
  - rewrite app_nil_r in Hg. by apply Hg.
Qed.
Lemma validate_chains_take events rest : validate_event_chains (events ++ rest) = Ok tt -> validate_event_chains events = Ok tt.
Proof.
  induction rest as [|e rest IH] using rev_ind; [by rewrite app_nil_r|].
  rewrite app_assoc. intros H%validate_chains_prefix. by apply IH.
Qed.
