(* ===== verification/LedgerSafety.v ===== *)
(** * LedgerSafety: crash safety of the ledger

    [Holds lg d id sc n] says that the files of [d] are a ledger with the scanned
    records [sc], of which the signed head commits the first [n].  Every
    operation keeps it, also when a write fails half-way through the operation:
    the disk holds the old records, possibly with those the operation appended. *)

From S2P Require Import Prelude Float Json JsonCanonical JsonLoads Calendar PyText IsoTime Base64 Keyrings Deletion.
From S2P Require Import Ledger LedgerText LedgerProofs LedgerChains.

(** ** Outcomes of operations *)
Definition wp {A} (m : io A) (d : Disk) (Q : result A -> Disk -> Prop) : Prop := let '(r, d') := m d in Q r d'.

Lemma wp_bind {A B} (m : io A) (k : A -> io B) d Q :
  wp m d (fun r d' => match r with Ok a => wp (k a) d' Q | Raise e => Q (Raise e) d' end) -> wp (m ≫= k) d Q.
Proof. unfold wp, mbind, io_bind. destruct (m d) as [[a|e] d']; done. Qed.
Lemma wp_mono {A} (m : io A) d (P Q : result A -> Disk -> Prop) :
  (forall r d', P r d' -> Q r d') -> wp m d P -> wp m d Q.
Proof. unfold wp. destruct (m d). auto. Qed.
Lemma wp_except {A} h (m : io A) d Q : wp m d (fun r d' => Q (except h r) d') -> wp (io_except h m) d Q.
Proof. unfold wp, io_except. by destruct (m d). Qed.
Lemma wp_run {A} (m : io A) d Q r d' : wp m d Q -> m d = (r, d') -> Q r d'.
Proof. unfold wp. by intros H E; rewrite E in H. Qed.
Lemma wp_intro {A} (m : io A) d (Q : result A -> Disk -> Prop) : (forall r d', m d = (r, d') -> Q r d') -> wp m d Q.
Proof. unfold wp. destruct (m d). auto. Qed.

(** ** Files *)
Record same_files (d d' : Disk) : Prop := {
  sf_controls f : control_file f d' = control_file f d;
  sf_stream : d_stream d' = d_stream d
}.
Lemma same_files_refl d : same_files d d.
Proof. done. Qed.
Lemma same_files_trans d1 d2 d3 : same_files d1 d2 -> same_files d2 d3 -> same_files d1 d3.
Proof. intros [H1 S1] [H2 S2]. split; [intros f; by rewrite H2, H1|congruence]. Qed.
Lemma same_files_tick i j d : same_files d (tick i j d).
Proof. split; [by intros []|done]. Qed.

(** A write that is not cut short: it is stored whole, whether or not an error
    follows, or it raises and stores nothing.  [os.write] promises neither: it may
    store a part and return its length, which [_append_record] and [_atomic_write]
    ignore.  [no_short_writes] is therefore a fact about a run, never a law of the
    platform; [short_write_breaks_ledger] is what happens without it, and the
    theorems on single calls conclude [cut_short] instead of assuming it. *)
Definition whole_outcome (o : outcome) : Prop := kept o = None \/ (kept o = Some 0%nat /\ failed o = true).
#[export] Instance whole_outcome_dec o : Decision (whole_outcome o).
Proof. unfold whole_outcome. apply _. Defined.
Definition no_short_writes `{Platform} : Prop := forall i, whole_outcome (write_outcome i).
(** One of the writes made between two states of the disk was cut short. *)
Definition cut_short `{Platform} (d d' : Disk) : Prop :=
  exists i, (d_writes d <= i < d_writes d')%nat /\ ~ whole_outcome (write_outcome i).

(** The two ways an operation can fail in itself: a write raises, or eight
    tokens in a row have been used as nonces. *)
Definition write_failure `{Platform} : Prop := exists i, failed (write_outcome i) = true.
Definition nonce_of `{Platform} (lg : Ledger) (i : nat) : string * string :=
  (current_version (lg_keyring lg), hex (token_bytes i 12)).
Definition stuck `{Platform} (lg : Ledger) (nonces : list (string * string)) : Prop :=
  exists i, forall j, (j < MAXIMUM_NONCE_ATTEMPTS)%nat -> nonce_of lg (i + j) ∈ nonces.

Section Safety.
Context {PF : Platform} {CR : Crypto} {SH : Sha256} {JL : JsonLoads} {IF : IsoFormats} {LB : LooseBase64}.
Context {LL : LedgerLaws}.
Implicit Types (lg : Ledger) (d : Disk) (id : string) (sc : Scan).

Lemma append_stream_wp line d s :
  no_short_writes -> d_stream d = Some s ->
  wp (append_stream line) d (fun r d' =>
    (r = Ok tt \/ (r = Raise os_error /\ write_failure))
    /\ ((r <> Ok tt /\ same_files d d')
        \/ ((forall f, control_file f d' = control_file f d) /\ d_stream d' = Some (s +:+ line)))).
Proof.
  intros Ha Hs. unfold wp, append_stream. rewrite Hs. unfold outcome_result.
  destruct (failed (write_outcome (d_writes d))) eqn:Hf, (Ha (d_writes d)) as [Hk|[Hk Hf']]; try congruence.
  all: unfold kept_part; rewrite Hk; split; [first [by left|by right; split; [|eexists]]|].
  - right. split; [by intros []|done].
  - left. split; [done|]. split; [by intros []|]. cbn. rewrite Hs. f_equal. rewrite <-(string_app_nil s) at 2.
    f_equal. by destruct line.
  - right. split; [by intros []|done].
Qed.
Lemma atomic_write_wp f line d :
  no_short_writes ->
  wp (atomic_write (put_control f) line) d (fun r d' =>
    (r = Ok tt \/ (r = Raise os_error /\ write_failure))
    /\ ((r <> Ok tt /\ same_files d d')
        \/ (control_file f d' = Some line /\ (forall g, g <> f -> control_file g d' = control_file g d)
            /\ d_stream d' = d_stream d))).
Proof.
  intros Ha. unfold wp, atomic_write, mbind, io_bind, draw, replace_file. cbn. unfold outcome_result.
  destruct (failed (write_outcome (d_writes d))) eqn:Hf, (Ha (d_writes d)) as [Hk|[Hk Hf']]; try congruence.
  all: unfold kept_part; rewrite Hk; split; [first [by left|by right; split; [|eexists]]|].
  - right. split_and!; [by destruct f|by intros [] Hne; destruct f|by destruct f].
  - left. split; [done|]. split; [by intros []|done].
  - right. split_and!; [by destruct f|by intros [] Hne; destruct f|by destruct f].
Qed.
Lemma unique_nonce_from_wp lg attempts s d :
  wp (unique_nonce_from attempts s (current_version (lg_keyring lg))) d (fun r d' =>
    same_files d d' /\
    match r with
    | Ok nonce => exists k, nonce = token_bytes k 12 /\ nonce_of lg k ∉ ls_nonces s
    | Raise e => e = ledger_error "LEDGER_NONCE_REUSE"
                 /\ forall j, (j < attempts)%nat -> nonce_of lg (d_draws d + j) ∈ ls_nonces s
    end).
Proof.
  revert d. induction attempts as [|n IH]; intros d; [split; [done|split; [done|lia]]|]. cbn [unique_nonce_from]. apply wp_bind.
  unfold wp at 1, draw. fold (nonce_of lg (d_draws d)). destruct (mem (nonce_of lg (d_draws d)) (ls_nonces s)) eqn:E; unfold mem in E; bools.
  - eapply wp_mono; [|apply IH]. intros r d' [Hf Hr]. split; [by eapply same_files_trans; [apply same_files_tick|]|].
    destruct r as [nonce|e]; [done|]. destruct Hr as [-> Hr]. split; [done|]. intros [|j] Hj.
    + by rewrite Nat.add_0_r.
    + replace (d_draws d + S j)%nat with (d_draws (tick 1 0 d) + j)%nat by (cbn; lia). apply Hr. lia.
  - split; [apply same_files_tick|]. eauto.
Qed.

(** ** What a disk holds *)
Record Sound lg d (active genesis head : list (string * json)) id (lines : list string) sc (n : Z) : Prop := {
  so_active : read_signed lg Active d = Ok active;
  so_genesis : read_signed lg Genesis d = Ok genesis;
  so_head : read_signed lg Head d = Ok head;
  so_controls : check_controls lg active genesis head = Ok id;
  so_stream : d_stream d = Some (stream_text lines);
  so_lines : Forall (fun l => printable l = true) lines;
  so_scan : foldM (scan_line lg id) empty_scan lines = Ok sc;
  so_chains : validate_event_chains (sc_events sc) = Ok tt;
  so_check : check_head lg genesis head sc = Ok n;
  so_rotations : Forall (fun r => kr_sequence r <= n) (sc_rotations sc);
  so_id : plain_string id = true;
  so_receipts : Forall (fun e => plain_string (ev_receipt e) = true) (sc_events sc)
}.
Definition Holds lg d id sc (n : Z) : Prop :=
  exists active genesis head lines, Sound lg d active genesis head id lines sc n.
Definition record_count sc : Z := Z.of_nat (length (sc_hashes sc)).
(** The adapter expects the keys it writes with. *)
Definition settled lg : Prop :=
  lg_expected_ledger_key_version lg = current_version (lg_keyring lg)
  /\ lg_expected_restore_key_version lg = lg_restore_key_version lg.

Lemma holds_load lg d id sc n : Holds lg d id sc n -> load_state lg d = Ok (scan_state id sc, n).
Proof.
  intros (a & g & h & ls & [Ha Hg Hh Hc Hs Hl Hsc Hch Hck _ _ _]). unfold load_state.
  rewrite Ha, Hg, Hh. cbn [mbind result_bind]. rewrite Hc. cbn [mbind result_bind]. rewrite Hs. unfold read_ascii.
  rewrite stream_ascii by done. cbn [except mbind result_bind]. rewrite splitlines_stream by done.
  rewrite Hsc. cbn [mbind result_bind]. rewrite Hch. cbn [mbind result_bind]. by rewrite Hck.
Qed.
Lemma read_signed_files lg f d d' : control_file f d' = control_file f d -> read_signed lg f d' = read_signed lg f d.
Proof. intros E. unfold read_signed. by rewrite E. Qed.
Lemma holds_files lg d d' id sc n : same_files d d' -> Holds lg d id sc n -> Holds lg d' id sc n.
Proof.
  intros [Hf Hs] (a & g & h & ls & H). exists a, g, h, ls. destruct H.
  split; try done; [by rewrite (read_signed_files _ _ _ _ (Hf _))..|by rewrite Hs].
Qed.

(** ** Records that decode *)
Record DecodesTo lg (record : list (string * json)) id (sequence : Z) (previous : option string)
    (nonces : list (string * string)) (r : Decoded) : Prop := {
  dt_keys : same_set record.*1 RECORD_KEYS = true;
  dt_schema : is_text (dict_get "schema_version" record) "deletion-ledger-record-v2" = true;
  dt_id : is_text (dict_get "ledger_id" record) id = true;
  dt_sequence : dict_get "sequence" record = Some (JInt sequence) /\ dr_sequence r = sequence;
  dt_previous : is_text_opt (dict_get "previous_record_sha256" record) previous = true /\ dr_previous r = previous;
  dt_type : jtext (dict_get "record_type" record) ≫= record_type_of = Some (dr_type r);
  dt_version : required_text record "key_version" = Ok (dr_key_version r);
  dt_nonce : required_text record "nonce" = Ok (dr_nonce r).2 /\ (dr_nonce r).1 = dr_key_version r /\ dr_nonce r ∉ nonces;
  dt_hash : required_text record "record_sha256" = Ok (dr_sha256 r)
            /\ dr_sha256 r = sha256_hex (canonical (without "record_sha256" record));
  dt_payload : exists nonce text ciphertext key plaintext,
      fromhex (dr_nonce r).2 = Some nonce /\ (dr_nonce r).2 = hex nonce /\ required_text record "ciphertext" = Ok text
      /\ b64decode text = Some ciphertext /\ derived_key lg (dr_key_version r) "envelope-encryption" = Ok key
      /\ aes_decrypt key nonce ciphertext (AAD_DOMAIN +:+ canonical (without "ciphertext" (without "record_sha256" record)))
         = Some plaintext
      /\ read_ascii (Some plaintext) = Ok plaintext /\ load_object plaintext = Ok (dr_payload r)
}.
Lemma from_option_ok {A} e (o : option A) a : from_option e o = Ok a -> o = Some a.
Proof. destruct o; simpl; congruence. Qed.
Lemma read_ascii_ok o s : read_ascii o = Ok s -> o = Some s.
Proof. destruct o as [t|]; simpl; [|done]. destruct (ascii_text t); congruence. Qed.

Lemma decode_fields_ok lg record id sequence previous nonces r :
  decode_fields lg record id sequence previous nonces = Ok r -> DecodesTo lg record id sequence previous nonces r.
Proof.
  unfold decode_fields. intros H. check_ok H Hk. check_ok H Hs. check_ok H Hi. check_ok H Hq. check_ok H Hp.
  step_ok H t Ht. step_ok H v Hv. step_ok H nt Hn. step_ok H nonce Hx. check_ok H Hl. check_ok H Hfresh.
  step_ok H hash Hh. step_ok H same Hc. check_ok H Hsame. step_ok H text He. step_ok H ct Hct. step_ok H key Hkey.
  step_ok H pt Hpt. step_ok H tx Htx. step_ok H payload Hpl. apply ok_inj in H as <-.
  apply from_option_ok in Ht, Hx, Hct, Hpt. pose proof (read_ascii_ok _ _ Htx) as [= ->]. subst same.
  apply orb_false_iff in Hl as [_ Hhex]. apply negb_false_iff, String.eqb_eq in Hhex.
  unfold mem in Hfresh. bools. apply compare_digest_true in Hc. split; try done.
  - destruct (dict_get "sequence" record) as [[]|]; try done. apply Z.eqb_eq in Hq as ->. done.
  - by exists nonce, text, ct, key, tx.
Qed.
Lemma decode_record_ok lg line id sequence previous nonces r :
  decode_record lg line id sequence previous nonces = Ok r ->
  exists record, load_object line = Ok record /\ DecodesTo lg record id sequence previous nonces r.
Proof.
  unfold decode_record. destruct (load_object line) as [record|e]; [|done]. cbn [mbind result_bind].
  destruct (decode_fields _ _ _ _ _ _) as [r'|e] eqn:E; [|done]. simpl. intros <-%ok_inj.
  eauto using decode_fields_ok.
Qed.
Lemma scan_record_hashes lg sc r sc' : scan_record lg sc r = Ok sc' -> sc_hashes sc' = sc_hashes sc ++ [dr_sha256 r].
Proof. unfold scan_record. destruct (dr_type r); intros (x & _ & <-%ok_inj)%bind_ok; done. Qed.
Lemma scan_hashes lg id lines sc :
  foldM (scan_line lg id) empty_scan lines = Ok sc -> Forall digest (sc_hashes sc).
Proof.
  apply (foldM_inv _ (fun sc => Forall digest (sc_hashes sc))); [constructor|].
  intros line sc1 sc2 _ Hd H. unfold scan_line in H. apply bind_ok in H as (r & Hr & H).
  apply decode_record_ok in Hr as (record & _ & Hr). rewrite (scan_record_hashes _ _ _ _ H).
  apply Forall_app. split; [done|]. rewrite Forall_singleton. destruct (dt_hash _ _ _ _ _ _ _ Hr) as [_ ->]. apply sha_digest.
Qed.
Lemma last_hash_plain lg d a g h id ls sc n :
  Sound lg d a g h id ls sc n -> forall s, ls_last_record_sha256 (scan_state id sc) = Some s -> plain_string s = true.
Proof.
  intros H s Hs. cbn in Hs. pose proof (scan_hashes _ _ _ _ (so_scan _ _ _ _ _ _ _ _ _ H)) as Hd.
  rewrite Forall_forall in Hd. apply Hd. rewrite last_lookup in Hs. by eapply list_elem_of_lookup_2.
Qed.

(** ** The head *)
Lemma check_head_iff lg genesis head sc n :
  check_head lg genesis head sc = Ok n <->
  required_integer head "last_sequence" = Ok n /\ 0 <= n <= record_count sc
  /\ is_text_opt (dict_get "last_record_sha256" head) (head_hash (sc_hashes sc) n) = true
  /\ exists gv hl hr, required_text genesis "ledger_key_version" = Ok gv
     /\ required_text head "current_ledger_key_version" = Ok hl /\ required_text head "current_restore_key_version" = Ok hr
     /\ validate_rotation_chain lg (sc_rotations sc) gv n hl hr (n <? record_count sc) = Ok tt.
Proof.
  unfold check_head. fold (record_count sc). split.
  - intros H. step_ok H m Hm. check_ok H Hb. check_ok H Hh. step_ok H gv Hgv. step_ok H hl Hhl. step_ok H hr Hhr.
    step_ok H w Hv. apply ok_inj in H as ->. destruct w. bools. split_and!; [done|lia|lia|done|]. eauto 10.
  - intros (E1 & Hb & E2 & gv & hl & hr & E3 & E4 & E5 & Hv). rewrite E1. cbn [mbind result_bind].
    destruct (Z.ltb_spec n 0), (Z.ltb_spec (record_count sc) n); [lia..|]. rewrite E2.
    cbn [orb negb raise_if mbind result_bind]. rewrite E3, E4, E5. cbn [mbind result_bind]. by rewrite Hv.
Qed.

Lemma rotation_fold_eq n m rs s :
  Forall (fun r => kr_sequence r <= n) rs -> n <= m -> foldM (rotation_step n) s rs = foldM (rotation_step m) s rs.
Proof.
  intros Hr Hm. revert s. induction Hr as [|r rs Hn _ IH]; intros s; [done|]. cbn [foldM].
  assert (rotation_step n s r = rotation_step m s r) as ->; [|by destruct (rotation_step m s r); simpl].
  unfold rotation_step. destruct (Z.leb_spec (kr_sequence r) n), (Z.leb_spec (kr_sequence r) m); done || lia.
Qed.
Lemma rotation_chain_eq lg rs gv n m hl hr b b' :
  Forall (fun r => kr_sequence r <= n) rs -> n <= m ->
  validate_rotation_chain lg rs gv n hl hr b = validate_rotation_chain lg rs gv m hl hr b'.
Proof.
  intros Hr Hm. unfold validate_rotation_chain. rewrite (rotation_fold_eq n m) by done.
  assert (forall k, n <= k -> List.find (fun r => k <? kr_sequence r) rs = None) as Hf.
  { intros k Hk. clear -Hr Hk. induction Hr as [|r rs Hn _ IH]; [done|]. simpl. destruct (Z.ltb_spec k (kr_sequence r)); [lia|done]. }
  rewrite !Hf by lia. by destruct (last rs).
Qed.

Lemma head_hash_app hashes h n : 0 <= n <= Z.of_nat (length hashes) -> head_hash (hashes ++ [h]) n = head_hash hashes n.
Proof. intros Hn. unfold head_hash. destruct (Z.eqb_spec n 0); [done|]. apply lookup_app_l. lia. Qed.
Lemma head_hash_last hashes : head_hash hashes (Z.of_nat (length hashes)) = last hashes.
Proof.
  unfold head_hash. destruct (Z.eqb_spec (Z.of_nat (length hashes)) 0) as [E|E].
  - by destruct hashes.
  - rewrite last_lookup. f_equal. lia.
Qed.

(** ** Growing the stream *)
(** The records after an audit ([evs] empty) or an event. *)
Definition grow sc (evs : list LedgerEvent) (hash : string) (nonce : string * string) : Scan :=
  {| sc_events := sc_events sc ++ evs; sc_rotations := sc_rotations sc; sc_nonces := nonce :: sc_nonces sc;
     sc_hashes := sc_hashes sc ++ [hash] |}.

Lemma sound_grow lg d d' a g h id ls sc n line evs hash nonce :
  Sound lg d a g h id ls sc n -> (forall f, control_file f d' = control_file f d) ->
  d_stream d' = Some (stream_text (ls ++ [line])) -> printable line = true ->
  scan_line lg id sc line = Ok (grow sc evs hash nonce) ->
  validate_event_chains (sc_events sc ++ evs) = Ok tt -> Forall (fun e => plain_string (ev_receipt e) = true) evs ->
  Sound lg d' a g h id (ls ++ [line]) (grow sc evs hash nonce) n.
Proof.
  intros [Ha Hg Hh Hc Hs Hl Hsc Hch Hck Hr Hi Hrc] Hf Hs' Hline Hscan Hv Hp.
  split; rewrite ?(read_signed_files _ _ _ _ (Hf _)); try done.
  - apply Forall_app. by rewrite Forall_singleton.
  - by rewrite foldM_app, Hsc; cbn [mbind result_bind foldM]; rewrite Hscan.
  - apply check_head_iff in Hck as (H1 & H2 & H3 & gv & hl & hr & H4 & H5 & H6 & H7). apply check_head_iff.
    unfold record_count in *. cbn [grow sc_hashes sc_rotations]. rewrite length_app. cbn [length].
    split_and!; [done|lia|lia|by rewrite head_hash_app by lia|]. exists gv, hl, hr. split_and!; try done.
    by rewrite (rotation_chain_eq lg _ gv n n hl hr _ (n <? Z.of_nat (length (sc_hashes sc)))).
  - by apply Forall_app.
Qed.

(** ** Writing the head *)
Lemma head_writable lg s :
  config_ok lg -> plain_string (ls_ledger_id s) = true ->
  (forall h, ls_last_record_sha256 s = Some h -> plain_string h = true) -> writable (JObj (head_fields lg s)) = true.
Proof.
  intros Hc Hi Hp. destruct (current_version_ok _ Hc) as (Hv & _). destruct (co_restore _ Hc) as [Hr _].
  unfold head_fields. solve_writable. by apply writable_opt.
Qed.
Lemma head_key_fresh lg s : "signing_key_version" ∉ (head_fields lg s).*1 /\ "hmac_sha256" ∉ (head_fields lg s).*1.
Proof. split; solve_keys. Qed.

Lemma check_controls_ok lg a g h id :
  check_controls lg a g h = Ok id <->
  required_text a "ledger_id" = Ok id
  /\ (is_text (dict_get "schema_version" a) "deletion-ledger-active-v2" = true
      /\ is_text (dict_get "schema_version" g) "deletion-ledger-genesis-v2" = true
      /\ is_text (dict_get "schema_version" h) "deletion-ledger-head-v2" = true
      /\ is_text (dict_get "ledger_id" g) id = true /\ is_text (dict_get "ledger_id" h) id = true)
  /\ is_text (dict_get "current_ledger_key_version" h) (lg_expected_ledger_key_version lg) = true
  /\ is_text (dict_get "current_restore_key_version" h) (lg_expected_restore_key_version lg) = true.
Proof.
  unfold check_controls. split.
  - intros H. step_ok H i Hi. check_ok H Hb. check_ok H Hl. check_ok H Hr. apply ok_inj in H as ->. bools. done.
  - intros (-> & (H1 & H2 & H3 & H4 & H5) & H6 & H7). cbn [mbind result_bind]. by rewrite H1, H2, H3, H4, H5, H6, H7.
Qed.
Lemma is_text_required fs k s t : is_text (dict_get k fs) s = true -> required_text fs k = Ok t -> t = s.
Proof.
  unfold is_text, required_text. destruct (dict_get k fs) as [[]|]; try done. intros ->%String.eqb_eq.
  destruct (String.eqb s ""); [done|]. by intros <-%ok_inj.
Qed.

(** A head that was written commits the whole stream. *)
Lemma sound_head lg d d' a g h id ls sc n key :
  config_ok lg -> settled lg -> Sound lg d a g h id ls sc n ->
  control_key lg Head (current_version (lg_keyring lg)) = Ok key ->
  control_file Head d' = Some (signed_document lg Head (head_fields lg (scan_state id sc)) key) ->
  (forall f, f <> Head -> control_file f d' = control_file f d) -> d_stream d' = d_stream d ->
  Sound lg d' a g (read_fields (control_document lg Head (head_fields lg (scan_state id sc)) key)) id ls sc (record_count sc).
Proof.
  intros Hc [Hel Her] HS Hk Hh Hf Hs. pose proof (last_hash_plain _ _ _ _ _ _ _ _ _ HS) as Hlast.
  destruct HS as [Ha Hg Hh0 Hck Hst Hl Hsc Hch Hhd Hr Hi Hrc].
  pose proof (head_writable lg (scan_state id sc) Hc Hi Hlast) as Hw.
  destruct (head_key_fresh lg (scan_state id sc)) as [F1 F2].
  pose proof (control_document_writable lg Head _ key Hc Hw F1 F2) as Hd. destruct (writable_parts _ Hd) as (Hn & _ & _).
  destruct (current_version_ok _ Hc) as (_ & Hv & _), (co_restore _ Hc) as [_ Hrs].
  apply check_controls_ok in Hck as (C1 & (C2 & C3 & C4 & C5 & C6) & C7 & C8).
  apply check_head_iff in Hhd as (H1 & H2 & H3 & gv & hl & hr & H4 & H5 & H6 & H7).
  rewrite (is_text_required _ _ _ _ C7 H5), Hel in H7. rewrite (is_text_required _ _ _ _ C8 H6), Her in H7.
  split; try done.
  - by rewrite (read_signed_files _ _ _ _ (Hf Active ltac:(done))).
  - by rewrite (read_signed_files _ _ _ _ (Hf Genesis ltac:(done))).
  - by apply read_signed_document.
  - apply check_controls_ok. rewrite !is_text_read by done.
    split_and!; try done; [apply String.eqb_refl|rewrite Hel; apply String.eqb_refl|rewrite Her; apply String.eqb_refl].
  - by rewrite Hs.
  - apply check_head_iff. rewrite required_integer_read, is_text_opt_read, !required_text_read by done.
    split_and!; [done|unfold record_count; lia|lia| |].
    + unfold record_count. rewrite head_hash_last. cbn. destruct (last (sc_hashes sc)); [apply String.eqb_refl|done].
    + exists gv, (current_version (lg_keyring lg)), (lg_restore_key_version lg).
      split_and!; [done|by apply required_text_get..|]. erewrite <-rotation_chain_eq; [exact H7|done|lia].
  - eapply Forall_impl; [exact Hr|]. simpl. lia.
Qed.

Definition is_ledger_error (e : exn) : Prop := is_class "DeletionLedgerError" e = true.

Lemma write_head_wp lg d id sc n :
  config_ok lg -> settled lg -> no_short_writes -> Holds lg d id sc n ->
  wp (write_head lg (scan_state id sc)) d (fun r d' =>
    exists n', Holds lg d' id sc n' /\ d_stream d' = d_stream d
    /\ match r with Ok _ => n' = record_count sc | Raise e => is_ledger_error e /\ write_failure end).
Proof.
  intros Hc Hset Ha (a & g & h & ls & HS). unfold write_head, write_signed. apply wp_bind.
  destruct (derived_key_ok lg (control_purpose Head +:+ "-hmac") Hc) as [key Hk].
  unfold wp at 1, lift. unfold control_key at 1. rewrite Hk.
  apply wp_except. eapply wp_mono; [|by apply atomic_write_wp]. cbn beta.
  intros r d' [Hr [[Hne Hf]|(Hh & Hf & Hs)]].
  - destruct Hr as [->|[-> Hw]]; [done|]. exists n. split; [|split; [apply Hf|done]].
    apply (holds_files _ _ _ _ _ _ Hf). by exists a, g, h, ls.
  - exists (record_count sc). split; [do 4 eexists; by eapply sound_head|]. split; [done|]. by destruct Hr as [-> |[-> Hw]].
Qed.

(** A line was added to the stream that decodes, after the records of [sc], to a
    record of this type and payload. *)
Definition record_stored lg d d' id sc (t : RecordType) (payload : list (string * json)) : Prop :=
  exists s line r, d_stream d = Some s /\ d_stream d' = Some (s +:+ (line +:+ chr 10))
  /\ decode_record lg line id (record_count sc + 1) (last (sc_hashes sc)) (sc_nonces sc) = Ok r
  /\ dr_type r = t /\ dr_payload r = read_fields payload.
(** One record: the disk holds the old records or one more, and one more when
    the call succeeds. *)
Lemma append_record_wp lg d id sc n t payload evs :
  config_ok lg -> settled lg -> no_short_writes -> Holds lg d id sc n -> writable (JObj payload) = true ->
  (forall hash nonce,
     scan_record lg sc {| dr_type := t; dr_key_version := current_version (lg_keyring lg);
                          dr_sequence := record_count sc + 1; dr_previous := last (sc_hashes sc); dr_sha256 := hash;
                          dr_nonce := (current_version (lg_keyring lg), nonce); dr_payload := read_fields payload |}
     = Ok (grow sc evs hash (current_version (lg_keyring lg), nonce))) ->
  validate_event_chains (sc_events sc ++ evs) = Ok tt -> Forall (fun e => plain_string (ev_receipt e) = true) evs ->
  wp (append_record lg (scan_state id sc) t payload) d (fun r d' =>
    exists sc' n', Holds lg d' id sc' n'
    /\ (sc' = sc \/ exists hash k, sc' = grow sc evs hash (nonce_of lg k))
    /\ match r with
       | Ok p => n' = record_count sc' /\ record_stored lg d d' id sc t payload
                 /\ exists hash k, sc' = grow sc evs hash (nonce_of lg k)
                                  /\ p = (hash, advance (scan_state id sc) hash (nonce_of lg k))
       | Raise e => is_ledger_error e /\ (write_failure \/ stuck lg (sc_nonces sc))
       end).
Proof.
  intros Hc Hset Ha HH Hw Hdec Hv Hp. unfold append_record. set (version := current_version (lg_keyring lg)) in *.
  apply wp_bind. eapply wp_mono; [|apply unique_nonce_from_wp]. cbn beta. intros r1 d1 [Hf1 Hr1].
  apply (holds_files _ _ _ _ _ _ Hf1) in HH. destruct r1 as [nonce|e]; 
    [|destruct Hr1 as [-> Hr1]; exists sc, n; split_and!; [done|by left|done|right; by eexists]].
  destruct Hr1 as (k & -> & Hfresh). pose proof (token_length k 12) as Hlen. set (nonce := token_bytes k 12) in *. apply wp_bind. destruct (derived_key_ok lg "envelope-encryption" Hc) as [key Hk].
  fold version in Hk. unfold wp at 1, lift. rewrite Hk.
  destruct HH as (a & g & h & ls & HS). pose proof HS as [_ _ _ _ Hst Hl _ _ _ _ Hi _].
  pose proof (last_hash_plain _ _ _ _ _ _ _ _ _ HS) as Hlast.
  set (s := scan_state id sc) in *. set (hash := record_hash s t version nonce key payload).
  set (line := record_line s t version nonce key payload).
  assert (printable line = true) as Hprint.
  { apply canonical_printable, signed_record_writable; [done| |done]. by destruct (current_version_ok _ Hc). }
  assert (exists r, decode_record lg line id (record_count sc + 1) (last (sc_hashes sc)) (sc_nonces sc) = Ok r
    /\ dr_type r = t /\ dr_payload r = read_fields payload /\ scan_record lg sc r = Ok (grow sc evs hash (version, hex nonce)))
    as (rec & Hdr & Ht & Hpl & Hrec).
  { pose proof (decode_record_line lg s t nonce key payload (sc_nonces sc) Hc Hlen Hk Hw Hi Hlast Hfresh) as E.
    cbn zeta in E. fold version line hash in E. unfold s in E. cbn [scan_state ls_ledger_id ls_last_sequence ls_last_record_sha256] in E.
    eexists. split; [exact E|]. split_and!; [done|done|apply Hdec]. }
  assert (scan_line lg id sc line = Ok (grow sc evs hash (version, hex nonce))) as Hscan.
  { unfold scan_line. fold (record_count sc). by rewrite Hdr. }
  apply wp_bind, wp_except. eapply wp_mono; [|by apply append_stream_wp]. cbn beta.
  intros r2 d2 [Hr2 [[Hne Hf2]|(Hf2 & Hs2)]].
  { destruct Hr2 as [->|[-> Hwf]]; [done|]. exists sc, n. split_and!; [|by left|done|by left]. apply (holds_files _ _ _ _ _ _ Hf2). by exists a, g, h, ls. }
  assert (Sound lg d2 a g h id (ls ++ [line]) (grow sc evs hash (version, hex nonce)) n) as HS2.
  { eapply sound_grow; try done. rewrite stream_text_snoc. exact Hs2. }
  assert (Holds lg d2 id (grow sc evs hash (version, hex nonce)) n) as HH2 by (by do 4 eexists).
  destruct Hr2 as [-> |[-> Hwf]]; [|eexists _, n; split_and!; [exact HH2|right; by exists hash, k|done|by left]].
  cbn [except]. apply wp_bind. assert (advance s hash (version, hex nonce)
    = with_events (scan_state id (grow sc evs hash (version, hex nonce))) (sc_events sc)) as Eadv.
  { unfold advance, with_events, s, scan_state. cbn. rewrite length_app, last_snoc. f_equal. simpl. lia. }
  assert (write_head lg (advance s hash (version, hex nonce)) = write_head lg (scan_state id (grow sc evs hash (version, hex nonce)))) as Ehead
    by (by rewrite Eadv).
  change (sha256_hex (canonical (unsigned_record s t version nonce key payload))) with hash.
  rewrite Ehead. eapply wp_mono; [|by apply (write_head_wp lg d2 id _ n)]. cbn beta.
  intros r3 d3 (n3 & HH3 & Hst3 & Hr3). destruct r3 as [u|e]; exists (grow sc evs hash (version, hex nonce)), n3.
  - split_and!; [done|right; by exists hash, k|done| |by exists hash, k].
    exists (stream_text ls), line, rec. rewrite Hst3, Hs2, <-(sf_stream _ _ Hf1). by split_and!.
  - destruct Hr3 as [He Hwf]. split_and!; [done|right; by exists hash, k|done|by left].
Qed.

(** ** Reading and auditing *)
Lemma holds_count lg d id sc n : Holds lg d id sc n -> 0 <= n <= record_count sc.
Proof. intros (a & g & h & ls & HS). apply so_check, check_head_iff in HS. naive_solver. Qed.
Lemma holds_chains lg d id sc n : Holds lg d id sc n -> validate_event_chains (sc_events sc) = Ok tt.
Proof. intros (a & g & h & ls & HS). by destruct HS. Qed.
Lemma holds_receipts lg d id sc n : Holds lg d id sc n -> Forall (fun e => plain_string (ev_receipt e) = true) (sc_events sc).
Proof. intros (a & g & h & ls & HS). by destruct HS. Qed.
Lemma holds_last lg d id sc n h : Holds lg d id sc n -> last (sc_hashes sc) = Some h -> plain_string h = true.
Proof. intros (a & g & hd & ls & HS). by apply (last_hash_plain _ _ _ _ _ _ _ _ _ HS). Qed.

Lemma read_state_wp lg d id sc n :
  config_ok lg -> settled lg -> no_short_writes -> Holds lg d id sc n ->
  wp (read_state lg true) d (fun r d' =>
    exists n', Holds lg d' id sc n' /\ d_stream d' = d_stream d
    /\ match r with Ok s => s = scan_state id sc /\ n' = record_count sc | Raise e => is_ledger_error e /\ write_failure end).
Proof.
  intros Hc Hs Ha HH. unfold read_state. apply wp_bind. unfold wp at 1, get_disk. apply wp_bind.
  unfold wp at 1, lift. rewrite (holds_load _ _ _ _ _ HH). cbn [fst snd]. pose proof (holds_count _ _ _ _ _ HH) as Hn.
  change (ls_last_sequence (scan_state id sc)) with (record_count sc). destruct (Z.ltb_spec n (record_count sc)).
  - apply wp_bind. eapply wp_mono; [|by apply (write_head_wp lg d id sc n)]. cbn beta.
    intros [u|e] d' (n' & H' & Hst & Hr); exists n'; [|done]. by split_and!.
  - unfold wp. exists n. split; [done|]. split; [done|]. split; [done|]. lia.
Qed.

Lemma advance_grow id sc hash nonce : advance (scan_state id sc) hash nonce = scan_state id (grow sc [] hash nonce).
Proof. unfold advance, scan_state, grow. cbn. rewrite app_nil_r, length_app, last_snoc. f_equal. simpl. lia. Qed.

(** The record of an audited operation was added to the stream. *)
Definition audit_stored lg d d' id sc (operation : string) : Prop :=
  exists s line r, d_stream d = Some s /\ d_stream d' = Some (s +:+ (line +:+ chr 10))
  /\ decode_record lg line id (record_count sc + 1) (last (sc_hashes sc)) (sc_nonces sc) = Ok r
  /\ dr_type r = ACCESS_AUDIT /\ dict_get "operation" (dr_payload r) = Some (JStr operation)
  /\ dict_get "actor" (dr_payload r) = Some (JStr (lg_actor lg)).
Lemma audit_record_stored lg d d' id sc s operation operation_id now :
  record_stored lg d d' id sc ACCESS_AUDIT (audit_payload lg s operation operation_id now) ->
  audit_stored lg d d' id sc operation.
Proof.
  intros (t & line & r & H1 & H2 & H3 & H4 & H5). exists t, line, r. rewrite H5, !read_fields_get by (cbn; solve_keys).
  by split_and!.
Qed.
Lemma audit_wp lg now d id sc n operation :
  config_ok lg -> settled lg -> no_short_writes -> in_calendar now -> operation ∈ ALLOWED_OPERATIONS -> Holds lg d id sc n ->
  wp (audit lg now (scan_state id sc) operation) d (fun r d' =>
    exists sc' n', Holds lg d' id sc' n' /\ (sc' = sc \/ exists hash k, sc' = grow sc [] hash (nonce_of lg k))
    /\ match r with
       | Ok s => n' = record_count sc' /\ s = scan_state id sc' /\ audit_stored lg d d' id sc operation
                 /\ exists hash k, sc' = grow sc [] hash (nonce_of lg k)
       | Raise e => e = ledger_error "LEDGER_ACCESS_AUDIT_FAILED" /\ (write_failure \/ stuck lg (sc_nonces sc))
       end).
Proof.
  intros Hc Hs Ha Hnow Hop HH. unfold audit. apply wp_bind. unfold token_hex. apply wp_bind.
  unfold wp at 1, draw. unfold wp at 1, mret, io_ret. set (token := token_bytes (d_draws d) 16).
  apply (holds_files _ _ _ _ _ _ (same_files_tick 1 0 d)) in HH. apply wp_bind, wp_except.
  set (payload := audit_payload lg (scan_state id sc) operation (hex token) now).
  assert (writable (JObj payload) = true) as Hw.
  { apply audit_payload_writable; [by apply co_actor|done|]. intros h. by apply (holds_last _ _ _ _ _ h HH). }
  eapply wp_mono; [|apply (append_record_wp lg _ id sc n ACCESS_AUDIT payload [] Hc Hs Ha HH Hw)].
  - cbn beta. intros r d' (sc' & n' & H' & Hsc & Hr). destruct r as [p|e]; cbn [except].
    + destruct Hr as (Hn & Hst & hash & k & -> & ->). unfold wp, mret, io_ret.
      exists (grow sc [] hash (nonce_of lg k)), n'. split_and!; [done|done|done|apply advance_grow| |eauto].
      by apply audit_record_stored in Hst.
    + exists sc', n'. split_and!; [done|done| |apply Hr]. destruct Hr as [Hr _]. unfold on_audit_error.
      unfold is_ledger_error in Hr. by rewrite Hr.
  - intros hash nonce. unfold scan_record. cbn [dr_type dr_payload dr_sequence dr_previous].
    replace (record_count sc + 1 - 1) with (ls_last_sequence (scan_state id sc)) by (cbn; unfold record_count; lia).
    change (last (sc_hashes sc)) with (ls_last_record_sha256 (scan_state id sc)).
    unfold payload. rewrite validate_written_audit; [|by apply co_actor|done|apply token_length|done].
    cbn. unfold grow. by rewrite app_nil_r.
  - rewrite app_nil_r. by apply (holds_chains _ _ _ _ _ HH).
  - constructor.
Qed.

(** Reading the ledger through an audited operation. *)
Lemma audited_wp {A} lg now d id sc n operation (view : LedgerState -> A) :
  config_ok lg -> settled lg -> no_short_writes -> in_calendar now -> operation ∈ ALLOWED_OPERATIONS -> Holds lg d id sc n ->
  wp (audited lg now operation view) d (fun r d' =>
    exists sc' n', Holds lg d' id sc' n' /\ (sc' = sc \/ exists hash k, sc' = grow sc [] hash (nonce_of lg k))
    /\ match r with
       | Ok v => n' = record_count sc' /\ v = view (scan_state id sc') /\ audit_stored lg d d' id sc operation
                 /\ exists hash k, sc' = grow sc [] hash (nonce_of lg k)
       | Raise e => is_ledger_error e /\ (write_failure \/ stuck lg (sc_nonces sc))
       end).
Proof.
  intros Hc Hs Ha Hnow Hop HH. unfold audited. apply wp_bind.
  eapply wp_mono; [|by apply (read_state_wp lg d id sc n)]. cbn beta. intros [s|e] d1 (n1 & H1 & Hst1 & Hr1).
  - destruct Hr1 as [-> ->]. apply wp_bind. eapply wp_mono; [|by apply (audit_wp lg now d1 id sc (record_count sc) operation)]. cbn beta.
    intros [s'|e] d2 (sc2 & n2 & H2 & Hsc & Hr2); 
      [|destruct Hr2 as [-> Hf]; exists sc2, n2; split_and!; done].
    destruct Hr2 as (-> & -> & Hst2 & Hg). unfold audit_stored in Hst2. rewrite Hst1 in Hst2.
    unfold wp. exists sc2, (record_count sc2). split_and!; done.
  - destruct Hr1. exists sc, n1. split_and!; [done|by left|done|by left].
Qed.

(** ** Appending an event *)
Lemma phase_operation phase : "APPEND_" +:+ phase_str phase ∈ ALLOWED_OPERATIONS.
Proof. destruct phase; solve_keys. Qed.

(** The contract of [append] on the list of events: a repeated request returns
    the event it created, and a new event extends a legal chain. *)
Definition append_spec lg (rq : Request) (phase : LedgerPhase) (t : Z) (events : list LedgerEvent)
    : result (LedgerEvent * list LedgerEvent) :=
  let version := current_version (lg_keyring lg) in
  let chain := chain_of (rq_deletion_id rq) events in
  _ ← raise_if (match head chain with Some first => negb (bool_decide (rq = event_request first)) | None => false end)
        (ledger_error "LEDGER_IDENTITY_MISMATCH");
  match List.find (fun e => bool_decide (ev_phase e = phase)) chain with
  | Some existing =>
      candidate ← make_event lg rq phase t (ev_previous_receipt existing) version;
      _ ← raise_if (negb (same_event candidate existing)) (ledger_error "LEDGER_DUPLICATE_MISMATCH");
      Ok (existing, events)
  | None =>
      _ ← raise_if (negb (mem ((ev_phase <$> chain) ++ [phase]) LEGAL_CHAINS)) (ledger_error "ILLEGAL_LEDGER_CHAIN");
      event ← make_event lg rq phase t (ev_receipt <$> last chain) version;
      Ok (event, events ++ [event])
  end.

(** The operation failed for lack of a write or a nonce. *)
Definition fault {A} lg sc (r : result A) : Prop :=
  exists e, r = Raise e /\ is_ledger_error e /\ (write_failure \/ exists k, stuck lg (nonce_of lg k :: sc_nonces sc)).
Lemma stuck_cons lg k nonces : stuck lg nonces -> stuck lg (nonce_of lg k :: nonces).
Proof. intros [i Hi]. exists i. intros j Hj. right. auto. Qed.
Lemma fault_intro {A} lg sc e :
  is_ledger_error e -> write_failure \/ stuck lg (sc_nonces sc) -> fault (A := A) lg sc (Raise e).
Proof.
  intros He Hf. exists e. split_and!; [done|done|]. destruct Hf; [by left|right]. exists 0%nat. by apply stuck_cons.
Qed.

Definition append_only sc sc' : Prop := sc_hashes sc `prefix_of` sc_hashes sc'.
Lemma grow_append_only sc evs hash nonce : append_only sc (grow sc evs hash nonce).
Proof. by eexists. Qed.
#[global] Instance append_only_preorder : PreOrder append_only.
Proof. split; [intros sc; by exists []; rewrite app_nil_r|]. intros a b c. unfold append_only. by etrans. Qed.

(** The outcome of [append] on a disk that holds [sc]. *)
Definition append_result lg d' id sc (spec : result (LedgerEvent * list LedgerEvent)) (r : result LedgerEvent) : Prop :=
  exists sc' n', Holds lg d' id sc' n' /\ append_only sc sc' /\
  match spec with
  | Ok (e, evs) => (r = Ok e /\ sc_events sc' = evs /\ n' = record_count sc')
                   \/ (fault lg sc r /\ (sc_events sc' = sc_events sc \/ sc_events sc' = evs))
  | Raise x => (r = Raise x \/ fault lg sc r) /\ sc_events sc' = sc_events sc
  end.
Lemma append_result_fault lg d' id sc spec r sc' n' :
  Holds lg d' id sc' n' -> append_only sc sc' -> sc_events sc' = sc_events sc -> fault lg sc r -> append_result lg d' id sc spec r.
Proof. intros H1 H2 H3 H4. exists sc', n'. split_and!; [done|done|]. destruct spec as [[e evs]|x]; auto. Qed.

Lemma event_record_wp lg d id sc n rq phase t previous e :
  config_ok lg -> settled lg -> no_short_writes -> request_ok rq -> in_calendar t ->
  (forall r, previous = Some r -> plain_string r = true) -> Holds lg d id sc n ->
  make_event lg rq phase t previous (current_version (lg_keyring lg)) = Ok e ->
  validate_event_chains (sc_events sc ++ [e]) = Ok tt ->
  wp (append_record lg (scan_state id sc) LEDGER_EVENT (event_payload lg e)) d (fun r d' =>
    exists sc' n', Holds lg d' id sc' n'
    /\ (sc' = sc \/ exists hash k, sc' = grow sc [e] hash (nonce_of lg k))
    /\ match r with
       | Ok p => n' = record_count sc' /\ exists hash k, sc' = grow sc [e] hash (nonce_of lg k)
       | Raise x => is_ledger_error x /\ (write_failure \/ stuck lg (sc_nonces sc))
       end).
Proof.
  intros Hc Hs Ha Hrq Ht Hp HH He Hv.
  destruct (make_event_ok lg rq phase t previous Hc Hrq Ht Hp) as (e' & E & Hok & Hsv & _).
  rewrite He in E. apply ok_inj in E as <-.
  eapply wp_mono; [|apply (append_record_wp lg d id sc n LEDGER_EVENT (event_payload lg e) [e] Hc Hs Ha HH)].
  - cbn beta. intros r d' (sc' & n' & H' & Hsc & Hr). exists sc', n'. split_and!; [done|done|].
    destruct r as [p|x]; [|done]. destruct Hr as (-> & _ & hash & k & -> & _). eauto.
  - by apply event_payload_writable.
  - intros hash nonce. unfold scan_record. cbn [dr_type dr_payload dr_key_version].
    by rewrite (decode_written_event lg rq phase t previous e).
  - done.
  - rewrite Forall_singleton. apply Hok.
Qed.

Lemma last_receipt_plain lg d id sc n did r :
  Holds lg d id sc n -> ev_receipt <$> last (chain_of did (sc_events sc)) = Some r -> plain_string r = true.
Proof.
  intros HH (e & He & ->)%fmap_Some. apply symmetry in He. pose proof (holds_receipts _ _ _ _ _ HH) as Hr.
  rewrite Forall_forall in Hr. apply Hr. rewrite last_lookup in He. symmetry in He. apply list_elem_of_lookup_2, chain_of_elem in He. naive_solver.
Qed.

Ltac on_check code := match goal with |- context [raise_if ?b (ledger_error code)] => destruct b end.
(** After the audit record: the decision of [append_spec] and the event record. *)
Lemma append_decide_wp lg d id sc0 sc n rq phase t :
  config_ok lg -> settled lg -> no_short_writes -> request_ok rq -> in_calendar t -> Holds lg d id sc n ->
  sc_events sc = sc_events sc0 -> append_only sc0 sc -> n = record_count sc ->
  (exists k, sc_nonces sc = nonce_of lg k :: sc_nonces sc0) ->
  let version := current_version (lg_keyring lg) in
  let s := scan_state id sc in
  let chain := chain_of (rq_deletion_id rq) (ls_events s) in
  wp (_ ← io_raise_if (match head chain with Some first => negb (bool_decide (rq = event_request first)) | None => false end)
            (ledger_error "LEDGER_IDENTITY_MISMATCH");
      match List.find (fun e => bool_decide (ev_phase e = phase)) chain with
      | Some existing =>
          candidate ← lift (make_event lg rq phase t (ev_previous_receipt existing) version);
          _ ← io_raise_if (negb (same_event candidate existing)) (ledger_error "LEDGER_DUPLICATE_MISMATCH");
          mret existing
      | None =>
          _ ← io_raise_if (negb (mem ((ev_phase <$> chain) ++ [phase]) LEGAL_CHAINS)) (ledger_error "ILLEGAL_LEDGER_CHAIN");
          event ← lift (make_event lg rq phase t (ev_receipt <$> last chain) version);
          _ ← append_record lg s LEDGER_EVENT (event_payload lg event);
          mret event
      end) d (fun r d' => append_result lg d' id sc0 (append_spec lg rq phase t (sc_events sc0)) r).
Proof.
  intros Hc Hset Ha Hrq Ht HH Hev Hpre Hn Hnon version s chain.
  assert (forall r, r = append_spec lg rq phase t (sc_events sc0) ->
    (forall x, r = Raise x -> append_result lg d id sc0 r (Raise x))
    /\ (forall e, r = Ok (e, sc_events sc0) -> append_result lg d id sc0 r (Ok e))) as Hpure.
  { intros r _. split.
    - intros x ->. exists sc, n. split_and!; [done|done|by left|done].
    - intros e ->. exists sc, n. split_and!; [done|done|]. by left. }
  specialize (Hpure _ eq_refl). destruct Hpure as [Hraise Hok].
  unfold append_spec in *. rewrite <-Hev in *. change (sc_events sc) with (ls_events s) in *. fold chain version in Hraise, Hok |- *.
  apply wp_bind. unfold wp at 1, io_raise_if, lift. on_check "LEDGER_IDENTITY_MISMATCH"; cbn [raise_if mbind result_bind] in *; [by apply Hraise|].
  destruct (List.find _ chain) as [existing|] eqn:Ef.
  - apply wp_bind. unfold wp at 1. destruct (make_event _ _ _ _ _ _) as [c|x]; cbn [mbind result_bind] in *; [|by apply Hraise].
    apply wp_bind. unfold wp at 1. on_check "LEDGER_DUPLICATE_MISMATCH"; cbn [raise_if mbind result_bind] in *; [by apply Hraise|].
    by apply Hok.
  - apply wp_bind. unfold wp at 1. destruct (mem _ LEGAL_CHAINS) eqn:El; cbn [negb raise_if mbind result_bind] in *; [|by apply Hraise].
    apply wp_bind. unfold wp at 1.
    assert (forall r, ev_receipt <$> last chain = Some r -> plain_string r = true) as Hp
      by (intros r; by apply (last_receipt_plain _ _ _ _ _ _ _ HH)).
    destruct (make_event_ok lg rq phase t _ Hc Hrq Ht Hp) as (e & E & _ & _ & Hreq & Hph & _ & Hprev). fold version in E.
    rewrite E. cbn [mbind result_bind]. apply wp_bind. unfold mem in El. bools.
    assert (ev_deletion_id e = rq_deletion_id rq) as Hid by (by rewrite <-Hreq).
    eapply wp_mono; [|apply (event_record_wp lg d id sc n rq phase t _ e Hc Hset Ha Hrq Ht Hp HH E)].
    + cbn beta. intros r d' (sc' & n' & H' & Hsc & Hr).
      assert (append_only sc0 sc') as Hpre' by (destruct Hsc as [->|(hash & k & ->)]; [done|etrans; [exact Hpre|apply grow_append_only]]).
      destruct r as [p|x].
      * destruct Hr as (-> & hash & k & ->). exists (grow sc [e] hash (nonce_of lg k)), (record_count (grow sc [e] hash (nonce_of lg k))).
        split_and!; [done|done|]. by left.
      * destruct Hr as [Hx Hf]. exists sc', n'. split_and!; [done|done|]. right. split.
        -- exists x. split_and!; [done|done|]. destruct Hf as [|Hf]; [by left|right]. destruct Hnon as [k Hk]. exists k. by rewrite <-Hk.
        -- destruct Hsc as [->|(hash & k & ->)]; [by left|by right].
    + apply validate_chains_snoc; [by apply (holds_chains _ _ _ _ _ HH)| |]; rewrite Hid; [done|by rewrite Hph].
Qed.

Lemma append_wp lg now d id sc n rq phase t :
  config_ok lg -> settled lg -> no_short_writes -> in_calendar now -> request_ok rq -> in_calendar t -> Holds lg d id sc n ->
  wp (append lg now rq phase (Some t)) d (fun r d' =>
    append_result lg d' id sc (append_spec lg rq phase t (sc_events sc)) r).
Proof.
  intros Hc Hs Ha Hnow Hrq Ht HH. unfold append. apply wp_bind.
  eapply wp_mono; [|by apply (read_state_wp lg d id sc n)]. cbn beta. intros [s|e] d1 (n1 & H1 & _ & Hr1).
  2: { destruct Hr1 as [He Hf]. eapply append_result_fault; [done|done|done|]. apply fault_intro; auto. }
  destruct Hr1 as [-> ->]. apply wp_bind.
  eapply wp_mono; [|by apply (audit_wp lg now d1 id sc (record_count sc)); [..|apply phase_operation|]]. cbn beta.
  intros [s|e] d2 (sc2 & n2 & H2 & Hsc & Hr2).
  - destruct Hr2 as (-> & -> & _ & hash & k & ->).
    apply (append_decide_wp lg d2 id sc (grow sc [] hash (nonce_of lg k)) (record_count (grow sc [] hash (nonce_of lg k)))
             rq phase t); try done.
    + cbn. by rewrite app_nil_r.
    + apply grow_append_only.
    + by exists k.
  - destruct Hr2 as [-> Hf]. eapply append_result_fault; [done| | |by apply fault_intro].
    + destruct Hsc as [->|(hash & k & ->)]; [done|apply grow_append_only].
    + destruct Hsc as [->|(hash & k & ->)]; [done|]. cbn. by rewrite app_nil_r.
Qed.

(** ** A new ledger *)
Lemma write_signed_wp lg f payload d :
  config_ok lg -> no_short_writes ->
  wp (write_signed lg f payload) d (fun r d' =>
    match r with
    | Ok _ => exists key, control_key lg f (current_version (lg_keyring lg)) = Ok key
              /\ control_file f d' = Some (signed_document lg f payload key)
              /\ (forall g, g <> f -> control_file g d' = control_file g d) /\ d_stream d' = d_stream d
    | Raise _ => write_failure
    end).
Proof.
  intros Hc Ha. unfold write_signed. apply wp_bind. destruct (derived_key_ok lg (control_purpose f +:+ "-hmac") Hc) as [key Hk].
  unfold wp at 1, lift. unfold control_key at 1. rewrite Hk. apply wp_except. eapply wp_mono; [|by apply atomic_write_wp].
  cbn beta. intros r d' [[->|[-> Hw]] H]; [|done]. destruct H as [[? _]|H]; [done|]. by exists key.
Qed.
Lemma create_stream_wp d :
  no_short_writes -> d_stream d = None ->
  wp create_stream d (fun r d' =>
    match r with
    | Ok _ => (forall f, control_file f d' = control_file f d) /\ d_stream d' = Some ""
    | Raise _ => write_failure
    end).
Proof.
  intros Ha Hs. unfold wp, create_stream. rewrite Hs. unfold outcome_result.
  destruct (failed (write_outcome (d_writes d))) eqn:Hf, (Ha (d_writes d)) as [Hk|[Hk Hf']]; try congruence; rewrite Hk; cbn.
  1,2: by exists (d_writes d). split; [by intros []|done].
Qed.
Lemma control_fields_ok schema id created_at k s :
  plain_string schema = true -> plain_string id = true -> plain_string created_at = true -> plain_string s = true ->
  k ∈ ["ledger_key_version"; "format"] ->
  let fs := control_fields schema id created_at (k, JStr s) in
  writable (JObj fs) = true /\ "signing_key_version" ∉ fs.*1 /\ "hmac_sha256" ∉ fs.*1.
Proof.
  intros H1 H2 H3 H4 Hk. rewrite !elem_of_cons, elem_of_nil in Hk. destruct Hk as [->|[->|[]]]; cbn zeta;
    (split; [unfold control_fields; solve_writable|split; solve_keys]).
Qed.
Lemma hex_token_nonempty i : hex (token_bytes i 16) <> "".
Proof. intros E. pose proof (hex_length (token_bytes i 16)) as L. by rewrite E, token_length in L. Qed.

Lemma sound_new lg d a g h id :
  config_ok lg -> settled lg -> plain_string id = true -> id <> "" -> d_stream d = Some "" ->
  read_signed lg Active d = Ok (read_fields a) -> read_signed lg Genesis d = Ok (read_fields g) ->
  read_signed lg Head d = Ok (read_fields h) -> NoDup a.*1 -> NoDup g.*1 -> NoDup h.*1 ->
  dict_get "schema_version" a = Some (JStr "deletion-ledger-active-v2") ->
  dict_get "schema_version" g = Some (JStr "deletion-ledger-genesis-v2") ->
  dict_get "schema_version" h = Some (JStr "deletion-ledger-head-v2") ->
  dict_get "ledger_id" a = Some (JStr id) -> dict_get "ledger_id" g = Some (JStr id) -> dict_get "ledger_id" h = Some (JStr id) ->
  dict_get "ledger_key_version" g = Some (JStr (current_version (lg_keyring lg))) ->
  dict_get "current_ledger_key_version" h = Some (JStr (current_version (lg_keyring lg))) ->
  dict_get "current_restore_key_version" h = Some (JStr (lg_restore_key_version lg)) ->
  dict_get "last_sequence" h = Some (JInt 0) -> dict_get "last_record_sha256" h = Some JNull ->
  Holds lg d id empty_scan 0.
Proof.
  intros Hc [Hel Her] Hi Hne Hs Ra Rg Rh Na Ng Nh A1 G1 H1 A2 G2 H2 G3 H3 H4 H5 H6.
  destruct (current_version_ok _ Hc) as (_ & Hv & _), (co_restore _ Hc) as [_ Hrs].
  exists (read_fields a), (read_fields g), (read_fields h), [].
  split; [done|done|done| |done|constructor|done|done| |constructor|done|constructor].
  - apply check_controls_ok. rewrite !is_text_read, required_text_read by done. rewrite A1, G1, H1, G2, H2, H3, H4, Hel, Her.
    cbn. rewrite !String.eqb_refl. split_and!; try done. by apply required_text_get.
  - apply check_head_iff. rewrite required_integer_read, is_text_opt_read, !required_text_read by done.
    unfold required_integer. rewrite H5, H6. split_and!; try done.
    exists (current_version (lg_keyring lg)), (current_version (lg_keyring lg)), (lg_restore_key_version lg).
    split_and!; [by apply required_text_get..|]. unfold validate_rotation_chain. cbn. by rewrite String.eqb_refl.
Qed.
Lemma initialize_wp lg now d :
  config_ok lg -> settled lg -> no_short_writes -> d_stream d = None ->
  wp (initialize lg now) d (fun r d' =>
    match r with Ok _ => exists id, Holds lg d' id empty_scan 0 | Raise _ => write_failure end).
Proof.
  intros Hc Hset Ha Hs. unfold initialize, token_hex. apply wp_bind, wp_bind. unfold wp at 1, draw. unfold wp at 1, mret, io_ret.
  set (id := hex (token_bytes (d_draws d) 16)). set (d1 := tick 1 0 d). assert (d_stream d1 = None) as Hs1 by done. clearbody d1.
  pose proof (hex_token_nonempty (d_draws d)) as Hne. fold id in Hne.
  assert (plain_string id = true) as Hi by (unfold id; auto with ledger). clearbody id.
  destruct (isoformat_text now) as [Hiso _], (current_version_ok _ Hc) as (Hv & Hvne & _), (co_restore _ Hc) as [_ Hrs].
  set (genesis := control_fields "deletion-ledger-genesis-v2" id (datetime_isoformat now)
                    ("ledger_key_version", JStr (current_version (lg_keyring lg)))).
  set (active := control_fields "deletion-ledger-active-v2" id (datetime_isoformat now) ("format", JStr "ENCRYPTED_GLOBAL_CHAIN")).
  destruct (control_fields_ok "deletion-ledger-genesis-v2" id (datetime_isoformat now) "ledger_key_version" _ eq_refl Hi Hiso Hv ltac:(set_solver))
    as (Wg & G1 & G2).
  destruct (control_fields_ok "deletion-ledger-active-v2" id (datetime_isoformat now) "format" "ENCRYPTED_GLOBAL_CHAIN" eq_refl Hi Hiso eq_refl ltac:(set_solver))
    as (Wa & A1 & A2). fold genesis in Wg, G1, G2. fold active in Wa, A1, A2.
  apply wp_bind. eapply wp_mono; [|by apply create_stream_wp]. cbn beta. intros [u2|e] d2 H2; [|done]. destruct H2 as [Hf2 Hs2].
  apply wp_bind. eapply wp_mono; [|by apply write_signed_wp]. cbn beta. intros [u3|e] d3 H3; [|done].
  destruct H3 as (kg & Kg & Fg & Og & Hs3).
  apply wp_bind. eapply wp_mono; [|by apply write_signed_wp]. cbn beta. intros [u4|e] d4 H4; [|done].
  destruct H4 as (kh & Kh & Fh & Oh & Hs4).
  apply wp_bind. eapply wp_mono; [|by apply write_signed_wp]. cbn beta. intros [u5|e] d5 H5; [|done].
  destruct H5 as (ka & Ka & Fa & Oa & Hs5).
  apply wp_intro. intros r6 d6 E6. unfold fsync_directory, outcome_result in E6.
  destruct (failed (write_outcome (d_writes d5))) eqn:Ef; cbn in E6; injection E6 as <- <-; [by eexists|].
  exists id. apply (holds_files _ _ _ _ _ _ (same_files_tick 0 1 d5)).
  assert (forall s, ls_last_record_sha256 (scan_state id empty_scan) = Some s -> plain_string s = true) as Hlast by done.
  pose proof (head_writable lg (scan_state id empty_scan) Hc Hi Hlast) as Wh.
  destruct (head_key_fresh lg (scan_state id empty_scan)) as [F1 F2].
  assert (read_signed lg Genesis d5 = Ok (read_fields (control_document lg Genesis genesis kg))) as Rg.
  { apply read_signed_document; [exact Hc|exact Wg|exact G1|exact G2|exact Kg|]. rewrite Oa, Oh by discriminate. exact Fg. }
  assert (read_signed lg Head d5 = Ok (read_fields (control_document lg Head (head_fields lg (scan_state id empty_scan)) kh))) as Rh.
  { apply read_signed_document; [exact Hc|exact Wh|exact F1|exact F2|exact Kh|]. rewrite Oa by discriminate. exact Fh. }
  assert (read_signed lg Active d5 = Ok (read_fields (control_document lg Active active ka))) as Ra.
  { apply read_signed_document; [exact Hc|exact Wa|exact A1|exact A2|exact Ka|exact Fa]. }
  pose proof (writable_parts _ (control_document_writable lg Genesis genesis kg Hc Wg G1 G2)) as (Ng & _ & _).
  pose proof (writable_parts _ (control_document_writable lg Head _ kh Hc Wh F1 F2)) as (Nh & _ & _).
  pose proof (writable_parts _ (control_document_writable lg Active active ka Hc Wa A1 A2)) as (Na & _ & _).
  assert (d_stream d5 = Some "") as Hs5' by (by rewrite Hs5, Hs4, Hs3, Hs2).
  by apply (sound_new lg d5 _ _ _ id Hc Hset Hi Hne Hs5' Ra Rg Rh Na Ng Nh).
Qed.
(** ** Configurations over the same keys *)
Definition same_keys lg lg' : Prop := keys (lg_keyring lg') = keys (lg_keyring lg).
Lemma bind_ext {A B} (m : result A) (k1 k2 : A -> result B) : (forall a, k1 a = k2 a) -> m ≫= k1 = m ≫= k2.
Proof. destruct m; simpl; auto. Qed.
Lemma derived_key_same lg lg' version purpose :
  same_keys lg lg' -> derived_key lg' version purpose = derived_key lg version purpose.
Proof. intros E. unfold derived_key, require. by rewrite E. Qed.
Ltac same_key Hk := repeat (first [rewrite (derived_key_same _ _ _ _ Hk)|apply bind_ext; intros ?]); reflexivity.
Lemma read_signed_same lg lg' f d : same_keys lg lg' -> read_signed lg' f d = read_signed lg f d.
Proof. intros Hk. unfold read_signed, signed_fields, control_key. do 2 f_equal. same_key Hk. Qed.
Lemma decode_event_same lg lg' payload version :
  same_keys lg lg' -> decode_event lg' payload version = decode_event lg payload version.
Proof.
  intros Hk. unfold decode_event. case_match; [done|]. repeat (apply bind_ext; intros ?).
  assert (forall raw v, decode_current lg' raw v = decode_current lg raw v) as ->; [|done].
  intros raw v. unfold decode_current, make_event. same_key Hk.
Qed.
Lemma scan_line_same lg lg' id sc line : same_keys lg lg' -> scan_line lg' id sc line = scan_line lg id sc line.
Proof.
  intros Hk. unfold scan_line, decode_record.
  assert (forall record q p ns, decode_fields lg' record id q p ns = decode_fields lg record id q p ns) as Hd.
  { intros record q p ns. unfold decode_fields. same_key Hk. }
  assert ((record ← load_object line; decode_fields lg' record id (Z.of_nat (length (sc_hashes sc)) + 1) (last (sc_hashes sc)) (sc_nonces sc))
          = (record ← load_object line; decode_fields lg record id (Z.of_nat (length (sc_hashes sc)) + 1) (last (sc_hashes sc)) (sc_nonces sc))) as ->.
  { apply bind_ext. intros record. apply Hd. }
  apply bind_ext. intros r. unfold scan_record. case_match; [|done|done]. by rewrite (decode_event_same lg lg').
Qed.
Lemma scan_same lg lg' id lines s :
  same_keys lg lg' -> foldM (scan_line lg' id) s lines = foldM (scan_line lg id) s lines.
Proof.
  intros Hk. revert s. induction lines as [|l lines IH]; intros s; [done|]. cbn [foldM].
  rewrite (scan_line_same lg lg' id s l Hk). apply bind_ext. intros s'. apply IH.
Qed.

(** What a disk holds depends on the keys and the expected versions. *)
Lemma holds_same lg lg' d id sc n :
  same_keys lg lg' -> lg_expected_ledger_key_version lg' = lg_expected_ledger_key_version lg ->
  lg_expected_restore_key_version lg' = lg_expected_restore_key_version lg -> Holds lg d id sc n -> Holds lg' d id sc n.
Proof.
  intros Hk El Er (a & g & h & ls & [Ra Rg Rh Hck Hst Hl Hsc Hch Hhd Hrot Hi Hrc]). exists a, g, h, ls.
  split; rewrite ?(read_signed_same lg lg') by done; try done.
  - apply check_controls_ok in Hck. apply check_controls_ok. by rewrite El, Er.
  - by rewrite (scan_same lg lg').
  - apply check_head_iff in Hhd as (H1 & H2 & H3 & gv & hl & hr & H4 & H5 & H6 & H7). apply check_head_iff.
    split_and!; [done|lia|lia|done|]. exists gv, hl, hr. split_and!; try done.
    rewrite (rotation_chain_eq lg _ gv n n hl hr _ false) in H7 by done.
    rewrite (rotation_chain_eq lg' _ gv n n hl hr _ false) by done. exact H7.
Qed.

(** ** Importing legacy events *)
Definition legacy_event (e : LedgerEvent) : Prop := event_ok e /\ ev_schema_version e = "deletion-ledger-event-v1".
Record source_ok (source : string) : Prop := {
  sk_plain : plain_string source = true; sk_length : py_len source = 64; sk_hex : exists bytes, fromhex source = Some bytes
}.
Lemma with_events_grow id sc e hash nonce :
  with_events (advance (scan_state id sc) hash nonce) (ls_events (advance (scan_state id sc) hash nonce) ++ [e])
  = scan_state id (grow sc [e] hash nonce).
Proof. unfold with_events, advance, scan_state, grow. cbn. rewrite length_app, last_snoc. f_equal. simpl. lia. Qed.

Lemma import_event_wp lg d id sc n source t e :
  config_ok lg -> settled lg -> no_short_writes -> source_ok source -> in_calendar t -> legacy_event e -> Holds lg d id sc n ->
  validate_event_chains (sc_events sc ++ [e]) = Ok tt ->
  wp (import_event lg source t (scan_state id sc) e) d (fun r d' =>
    exists sc' n', Holds lg d' id sc' n' /\ append_only sc sc' /\ (sc_events sc' = sc_events sc \/ sc_events sc' = sc_events sc ++ [e])
    /\ match r with
       | Ok s => n' = record_count sc' /\ s = scan_state id sc' /\ sc_events sc' = sc_events sc ++ [e]
       | Raise x => is_ledger_error x
       end).
Proof.
  intros Hc Hs Ha [Hsp Hsl [bytes Hsh]] Ht [He Hv] HH Hch. unfold import_event. apply wp_bind. unfold wp at 1, lift.
  rewrite (check_in_calendar _ Ht). apply wp_bind.
  eapply wp_mono; [|apply (append_record_wp lg d id sc n LEDGER_EVENT (legacy_payload source t e) [e] Hc Hs Ha HH)].
  - cbn beta. intros r d' (sc' & n' & H' & Hsc & Hr).
    assert (append_only sc sc') as Hp by (destruct Hsc as [->|(hash & k & ->)]; [done|apply grow_append_only]).
    destruct r as [p|x].
    + destruct Hr as (-> & _ & hash & k & -> & ->). unfold wp, mret, io_ret. eexists _, _. split; [exact H'|]. split; [done|].
      split; [by right|]. split_and!; [done|apply with_events_grow|done].
    + exists sc', n'. split_and!; [done|done| |apply Hr]. destruct Hsc as [->|(hash & k & ->)]; [by left|by right].
  - by apply legacy_payload_writable.
  - intros hash nonce. unfold scan_record. cbn [dr_type dr_payload dr_key_version].
    by rewrite (decode_written_legacy lg source t e bytes).
  - done.
  - rewrite Forall_singleton. apply He.
Qed.
Lemma import_events_wp lg d id sc n source t events :
  config_ok lg -> settled lg -> no_short_writes -> source_ok source -> in_calendar t -> Forall legacy_event events ->
  Holds lg d id sc n -> validate_event_chains (sc_events sc ++ events) = Ok tt ->
  wp (io_foldM (import_event lg source t) (scan_state id sc) events) d (fun r d' =>
    exists sc' n' stored rest, Holds lg d' id sc' n' /\ append_only sc sc' /\ events = stored ++ rest
    /\ sc_events sc' = sc_events sc ++ stored
    /\ match r with Ok _ => rest = [] | Raise x => is_ledger_error x end).
Proof.
  intros Hc Hs Ha Hsrc Ht. revert d sc n. induction events as [|e events IH]; intros d sc n Hev HH Hch; cbn [io_foldM].
  { unfold wp, mret, io_ret. exists sc, n, [], []. split_and!; [done|done|done|by rewrite app_nil_r|done]. }
  apply Forall_cons in Hev as [He Hev]. apply wp_bind. assert (validate_event_chains (sc_events sc ++ [e]) = Ok tt) as Hch1.
  { apply (validate_chains_take _ events). by rewrite <-app_assoc. }
  eapply wp_mono; [|by apply (import_event_wp lg d id sc n source t e)]. cbn beta. intros [s|x] d1 (sc1 & n1 & H1 & Hp1 & Hev1 & Hr1).
  - destruct Hr1 as (-> & -> & E1). eapply wp_mono; [|apply (IH d1 sc1 (record_count sc1) Hev H1)].
    + cbn beta. intros r d2 (sc2 & n2 & stored & rest & H2 & Hp2 & E2 & E3 & Hr2). exists sc2, n2, (e :: stored), rest.
      split_and!; [done|by etrans|by rewrite E2|by rewrite E3, E1, <-app_assoc|done].
    + by rewrite E1, <-app_assoc.
  - destruct Hev1 as [E|E].
    + exists sc1, n1, [], (e :: events). split_and!; [done|done|done|by rewrite app_nil_r|done].
    + exists sc1, n1, [e], events. split_and!; done.
Qed.
End Safety.
