(* ===== verification/LedgerModel.v ===== *)
(** * LedgerModel: a concrete platform on which the ledger runs

    Digests are 64 decimal digits of a checksum, tokens are the digits of their
    index, encryption marks its plaintext, and the writes of a given set of
    indices fail.  All the laws the ledger relies on hold. *)

From S2P Require Import Prelude Float Json JsonCanonical JsonLoads Calendar PyText IsoTime Base64 Keyrings Deletion.
From S2P Require Import Ledger LedgerText LedgerProofs LedgerChains LedgerSafety.

Fixpoint low_digits (n : nat) (z : Z) : string :=
  match n with O => "" | S n' => String (Ascii.ascii_of_N (Z.to_N (48 + z mod 10))) (low_digits n' (z / 10)) end.
Lemma low_digits_length n z : String.length (low_digits n z) = n.
Proof. revert z. induction n as [|n IH]; intros z; [done|]. simpl. by rewrite IH. Qed.
Lemma low_digit_code z : Ascii.N_of_ascii (Ascii.ascii_of_N (Z.to_N (48 + z mod 10))) = Z.to_N (48 + z mod 10).
Proof.
  apply Ascii.N_ascii_embedding. pose proof (Z.mod_pos_bound z 10 ltac:(lia)) as Hm. generalize dependent (z mod 10). lia.
Qed.
Lemma low_digits_plain n z : plain_string (low_digits n z) = true.
Proof.
  revert z. induction n as [|n IH]; intros z; [done|]. cbn [low_digits].
  change (plain_string (String ?c ?s)) with ((Ascii.N_of_ascii c <? 127)%N && plain_string s). rewrite IH, andb_true_r, low_digit_code.
  apply N.ltb_lt. pose proof (Z.mod_pos_bound z 10 ltac:(lia)) as Hm. generalize dependent (z mod 10). lia.
Qed.
Lemma low_digits_next n i : low_digits (S n) i <> low_digits (S n) (i + 1).
Proof.
  cbn [low_digits]. intros [= E _]. apply (f_equal Ascii.N_of_ascii) in E. rewrite !low_digit_code in E.
  pose proof (Z.mod_pos_bound i 10 ltac:(lia)). pose proof (Z.mod_pos_bound (i + 1) 10 ltac:(lia)).
  assert (i mod 10 = (i + 1) mod 10) as E' by lia. revert E'. Z.to_euclidean_division_equations. lia.
Qed.

Definition checksum (s : string) : Z :=
  foldl (fun acc n => (acc * 257 + Z.of_N n + 1) mod 10 ^ 60) 0 (utf8_bytes s).
Definition toy_digest (s : string) : string := low_digits 64 (checksum s).

Definition toy_platform (fails : nat -> bool) : Platform :=
  {| token_bytes i n := low_digits n (Z.of_nat i);
     write_outcome i := if fails i then {| kept := Some 0%nat; failed := true |} else stored |}.
Definition toy_crypto : Crypto :=
  {| hkdf_sha256 salt info master := info +:+ master;
     hmac_sha256_hex key message := toy_digest (key +:+ message);
     aes_encrypt key nonce data aad := String (Ascii.ascii_of_N 42) data;
     aes_decrypt key nonce data aad := match data with String _ d => Some d | EmptyString => None end |}.
Definition toy_sha : Sha256 := toy_digest.
Definition no_loads : JsonLoads := fun _ => None.
Definition no_iso : IsoFormats := fun _ => None.
Definition no_b64 : LooseBase64 := fun _ => None.

Lemma toy_laws fails : @LedgerLaws (toy_platform fails) toy_crypto toy_sha.
Proof.
  split; intros; try done.
  - apply low_digits_length.
  - split; [apply low_digits_plain|apply low_digits_length].
  - split; [apply low_digits_plain|apply low_digits_length].
Qed.
Lemma toy_whole fails : @no_short_writes (toy_platform fails).
Proof. intros i. cbn. destruct (fails i); [by right|by left]. Qed.
Lemma toy_supply fails lg nonces k :
  (forall i, @nonce_of (toy_platform fails) lg i ∉ nonces) ->
  ~ @stuck (toy_platform fails) lg (@nonce_of (toy_platform fails) lg k :: nonces).
Proof.
  intros Hf [i Hi]. pose proof (Hi 0%nat) as H0. pose proof (Hi 1%nat) as H1. unfold MAXIMUM_NONCE_ATTEMPTS in *.
  specialize (H0 ltac:(lia)). specialize (H1 ltac:(lia)). apply elem_of_cons in H0 as [H0|H0]; [|by apply Hf in H0].
  apply elem_of_cons in H1 as [H1|H1]; [|by apply Hf in H1]. rewrite <-H1 in H0.
  apply (f_equal (fun p => fromhex p.2)) in H0. unfold nonce_of in H0. cbn [snd] in H0. rewrite !fromhex_hex in H0.
  apply (inj Some) in H0. apply (low_digits_next 11 (Z.of_nat (i + 0))).
  replace (Z.of_nat (i + 0) + 1) with (Z.of_nat (i + 1)) by lia. exact H0.
Qed.

(** A keyring with an old and a new key, and adapters with either. *)
Definition key_a : string := low_digits 32 1.
Definition key_b : string := low_digits 32 2.
Definition toy_ledger (current expected restore expected_restore actor : string) : Ledger :=
  {| lg_keyring := {| current_version := current; keys := [("k1", key_a); ("k2", key_b)] |};
     lg_restore_key_version := restore; lg_expected_ledger_key_version := expected;
     lg_expected_restore_key_version := expected_restore; lg_actor := actor |}.
Definition old_ledger : Ledger := toy_ledger "k1" "k1" "r1" "r1" "TEST".
Definition staged_ledger : Ledger := toy_ledger "k2" "k1" "r2" "r1" "ROTATION_CLI".
Definition migration_ledger : Ledger := toy_ledger "k1" "k1" "r1" "r1" "MIGRATION_CLI".
Lemma toy_config current expected restore expected_restore actor :
  current ∈ ["k1"; "k2"] -> restore ∈ ["r1"; "r2"] -> actor ∈ ALLOWED_ACTORS ->
  config_ok (toy_ledger current expected restore expected_restore actor).
Proof.
  intros Hc Hr Ha. split; [| |done].
  - revert Hc. rewrite !elem_of_cons, elem_of_nil. intros [->|[->|[]]]; vm_compute; done.
  - revert Hr. rewrite !elem_of_cons, elem_of_nil. intros [->|[->|[]]]; by vm_compute.
Qed.

Definition empty_disk : Disk :=
  {| d_active := None; d_genesis := None; d_head := None; d_stream := None; d_marker := false; d_legacy := false;
     d_artifact := None; d_draws := 0; d_writes := 0 |}.
Definition toy_request : Request :=
  {| rq_deletion_id := "d1"; rq_scope_token := "s"; rq_restore_key_version := "r1"; rq_original_generation := 1;
     rq_proposed_generation := 2; rq_preparation_digest := low_digits 64 5; rq_intent_proof_digest := low_digits 64 6 |}.
Lemma toy_request_ok : request_ok toy_request.
Proof.
  split; cbn; try done; split; split; by rewrite ?low_digits_plain, ?low_digits_length.
Qed.
(** A ledger that was just created. *)
Definition created (fails : nat -> bool) : result unit * Disk :=
  initialize (PF := toy_platform fails) (CR := toy_crypto) old_ledger 0 empty_disk.
Definition new_disk (fails : nat -> bool) : Disk := (created fails).2.
Notation toy_holds := (Holds (CR := toy_crypto) (SH := toy_sha) (JL := no_loads) (IF := no_iso) (LB := no_b64)).
Lemma old_config : config_ok old_ledger /\ settled old_ledger.
Proof. split; [apply toy_config; solve_keys|done]. Qed.
Lemma new_disk_holds fails : (created fails).1 = Ok tt -> exists id, toy_holds old_ledger (new_disk fails) id empty_scan 0.
Proof.
  destruct old_config as [Hc Hs].
  pose proof (initialize_wp (SH := toy_sha) (JL := no_loads) (IF := no_iso) (LB := no_b64) (LL := toy_laws fails)
    old_ledger 0 empty_disk Hc Hs (toy_whole fails) eq_refl) as H.
  unfold wp in H. unfold new_disk. fold (created fails) in H. destruct (created fails) as [r d]. cbn. by intros ->.
Qed.
Lemma epoch_ok : in_calendar 0.
Proof. by vm_compute. Qed.
Lemma toy_digest_ok z : digest (low_digits 64 z).
Proof. split; [apply low_digits_plain|apply low_digits_length]. Qed.
Lemma low_digits_hex n z : exists bytes, fromhex_codes (utf8_bytes (low_digits (n + n) z)) = Some bytes.
Proof.
  revert z. induction n as [|n IH]; intros z; [by exists []|]. replace (S n + S n)%nat with (S (S (n + n))) by lia.
  cbn [low_digits]. destruct (IH (z / 10 / 10)) as [bytes E].
  change (utf8_bytes (String ?a (String ?b ?s))) with (Ascii.N_of_ascii a :: Ascii.N_of_ascii b :: utf8_bytes s).
  rewrite !low_digit_code. cbn [fromhex_codes].
  assert (forall y, ascii_space (Z.to_N (48 + y mod 10)) = false /\ exists v, hex_value (Z.to_N (48 + y mod 10)) = Some v) as Hd.
  { intros y. pose proof (Z.mod_pos_bound y 10 ltac:(lia)) as Hy. generalize dependent (y mod 10). intros m Hm.
    assert (m ∈ [0; 1; 2; 3; 4; 5; 6; 7; 8; 9]) as Hin by (assert (Z.to_nat m ∈ seq 0 10) as Hs by (apply elem_of_seq; lia);
      replace m with (Z.of_nat (Z.to_nat m)) by lia; revert Hs; generalize (Z.to_nat m); apply Forall_forall; by apply (bool_decide_unpack _)).
    revert Hin. clear. revert m. apply Forall_forall. repeat (apply Forall_cons; split; [split; [done|eexists; reflexivity]|]). constructor. }
  destruct (Hd z) as [Hs [x Hx]], (Hd (z / 10)) as [_ [y Hy]]. rewrite Hs, Hx, Hy. cbn [mbind option_bind]. rewrite E. eexists. done.
Qed.
