(* ===== verification/LedgerWrites.v ===== *)
(** * LedgerWrites: what an operation owes to the writes it makes

    An operation of the ledger depends on the outcomes of its own writes only:
    whatever holds of it on platforms without short writes therefore holds of
    every run in which none of its writes was cut short.  The rest of the file is
    about a run in which one was: [_append_record] ignores how much [os.write]
    has written, and the ledger does not survive it. *)

From S2P Require Import Prelude Float Json JsonCanonical JsonLoads Calendar PyText IsoTime Base64 Keyrings Deletion.
From S2P Require Import Ledger LedgerText LedgerProofs LedgerChains LedgerSafety LedgerModel.

Create HintDb local.

(** ** Platforms with the same tokens *)
Section Locality.
Context {PF : Platform} {CR : Crypto} {SH : Sha256} {JL : JsonLoads} {IF : IsoFormats} {LB : LooseBase64}.
Variable outcomes : nat -> outcome.
Definition with_outcomes : Platform := {| token_bytes := token_bytes; write_outcome := outcomes |}.
(** The outcomes of the writes made between two states of the disk are the same. *)
Definition agree d d' : Prop := forall i, (d_writes d <= i < d_writes d')%nat -> write_outcome i = outcomes i.
(** Two operations run alike while the outcomes of their writes agree. *)
Definition alike {A} (m m' : io A) : Prop :=
  forall d, (d_writes d <= d_writes (m d).2)%nat /\ (agree d (m d).2 -> m' d = m d).

Lemma alike_bind {A B} (m m' : io A) (k k' : A -> io B) :
  alike m m' -> (forall a, alike (k a) (k' a)) -> alike (m ≫= k) (m' ≫= k').
Proof.
  intros Hm Hk d. destruct (Hm d) as [H1 H2]. unfold mbind, io_bind. destruct (m d) as [[a|e] d1]; cbn in *.
  - destruct (Hk a d1) as [H3 H4]. split; [lia|]. intros Hag. rewrite H2 by (intros i Hi; apply Hag; lia).
    apply H4. intros i Hi. apply Hag. lia.
  - split; [done|]. intros Hag. by rewrite H2.
Qed.
(** An operation that does not look at the platform, or only at its tokens. *)
Lemma alike_refl {A} (m : io A) : (forall d, (d_writes d <= d_writes (m d).2)%nat) -> alike m m.
Proof. intros H d. by split. Qed.
Lemma alike_lift {A} (r : result A) : alike (lift r) (lift r).
Proof. by apply alike_refl. Qed.
Lemma alike_ret {A} (a : A) : alike (mret a) (mret a).
Proof. by apply alike_refl. Qed.
Lemma alike_raise {A} e : alike (io_raise (A := A) e) (io_raise e).
Proof. by apply alike_refl. Qed.
Lemma alike_raise_if b e : alike (io_raise_if b e) (io_raise_if b e).
Proof. by apply alike_refl. Qed.
Lemma alike_disk : alike get_disk get_disk.
Proof. by apply alike_refl. Qed.
Lemma alike_draw n : alike (draw n) (draw (H := with_outcomes) n).
Proof. intros d. by split. Qed.
Lemma alike_except {A} h (m m' : io A) : alike m m' -> alike (io_except h m) (io_except h m').
Proof.
  intros Hm d. destruct (Hm d) as [H1 H2]. unfold io_except. destruct (m d) as [r d1] eqn:E. cbn in *. split; [done|].
  intros Hag. by rewrite H2.
Qed.
Lemma alike_append_stream line : alike (append_stream line) (append_stream (H := with_outcomes) line).
Proof.
  intros d. unfold append_stream. destruct (d_stream d); [|by split]. cbn. split; [lia|].
  intros Hag. cbn in Hag. by rewrite <-(Hag (d_writes d)) by (cbn; lia).
Qed.
Lemma alike_replace_file put line :
  (forall s d, d_writes (put s d) = d_writes d) ->
  alike (replace_file put line) (replace_file (H := with_outcomes) put line).
Proof.
  intros Hp d. unfold replace_file. cbn.
  assert (forall b : bool, d_writes (if b then put (kept_part (write_outcome (d_writes d)) line) d else d) = d_writes d) as Hw by (by intros []).
  rewrite Hw. split; [lia|]. intros Hag. by rewrite <-(Hag (d_writes d)) by (cbn; rewrite Hw; lia).
Qed.
End Locality.
#[export] Hint Resolve alike_lift alike_ret alike_raise alike_raise_if alike_disk alike_draw alike_append_stream : local.
Ltac alikes :=
  repeat lazymatch goal with
    | |- alike _ (_ ≫= _) (_ ≫= _) => apply alike_bind; [|intros ?]
    | |- alike _ (io_except _ _) (io_except _ _) => apply alike_except
    | |- alike _ (match ?x with _ => _ end) _ => destruct x
    | |- alike _ _ _ => solve [auto with local]
    end.

Section Operations.
Context {PF : Platform} {CR : Crypto} {SH : Sha256} {JL : JsonLoads} {IF : IsoFormats} {LB : LooseBase64}.
Variable outcomes : nat -> outcome.
Notation PF' := (with_outcomes outcomes).
Implicit Types (lg : Ledger) (s : LedgerState).
Lemma alike_token n : alike outcomes (token_hex n) (token_hex (H := PF') n).
Proof. unfold token_hex. alikes. Qed.
Lemma alike_write_head lg s : alike outcomes (write_head lg s) (write_head (PF := PF') lg s).
Proof.
  unfold write_head, write_signed, atomic_write. alikes. apply alike_replace_file. done.
Qed.
Lemma alike_nonce n s version :
  alike outcomes (unique_nonce_from n s version) (unique_nonce_from (PF := PF') n s version).
Proof. induction n as [|n IH]; cbn [unique_nonce_from]; alikes; done. Qed.
#[local] Hint Resolve alike_token alike_write_head alike_nonce : local.
Lemma alike_append_record lg s t payload :
  alike outcomes (append_record lg s t payload) (append_record (PF := PF') lg s t payload).
Proof. unfold append_record, unique_nonce. alikes. Qed.
Lemma alike_read_state lg b : alike outcomes (read_state lg b) (read_state (PF := PF') lg b).
Proof. unfold read_state. alikes. Qed.
#[local] Hint Resolve alike_append_record alike_read_state : local.
Lemma alike_audit lg now s operation : alike outcomes (audit lg now s operation) (audit (PF := PF') lg now s operation).
Proof. unfold audit. alikes. Qed.
#[local] Hint Resolve alike_audit : local.
Lemma alike_audited {A} lg now operation (view : LedgerState -> A) :
  alike outcomes (audited lg now operation view) (audited (PF := PF') lg now operation view).
Proof. unfold audited. alikes. Qed.
Lemma alike_append lg now rq phase t : alike outcomes (append lg now rq phase t) (append (PF := PF') lg now rq phase t).
Proof. unfold append. alikes. Qed.
End Operations.

(** ** Runs in which no write was cut short *)
Section Runs.
Context {PF : Platform} {CR : Crypto} {SH : Sha256} {JL : JsonLoads} {IF : IsoFormats} {LB : LooseBase64}.
Context {LL : LedgerLaws}.
Implicit Types (d : Disk).
#[global] Instance cut_short_dec d d' : Decision (cut_short d d').
Proof.
  destruct (decide (Exists (fun i => ~ whole_outcome (write_outcome i)) (seq (d_writes d) (d_writes d' - d_writes d)))) as [H|H]; [left|right].
  - abstract (apply Exists_exists in H as (i & Hi%elem_of_seq & Hw); exists i; split; [lia|done]).
  - abstract (intros (i & Hi & Hw); apply H, Exists_exists; exists i; split; [apply elem_of_seq; lia|done]).
Defined.
(** The writes of the run as they were, and all others whole. *)
Definition repaired d d' (i : nat) : outcome := if decide (d_writes d <= i < d_writes d')%nat then write_outcome i else stored.
Lemma repaired_agree d d' : agree (repaired d d') d d'.
Proof. intros i Hi. unfold repaired. by rewrite decide_True. Qed.
Lemma repaired_whole d d' : ~ cut_short d d' -> no_short_writes (H := with_outcomes (repaired d d')).
Proof.
  intros Hc i. cbn. unfold repaired. case_decide as Hi; [|by left]. apply dec_stable. intros Hw. apply Hc. by exists i.
Qed.
Lemma repaired_failure d d' : write_failure (H := with_outcomes (repaired d d')) -> write_failure.
Proof. intros [i Hi]. cbn in Hi. unfold repaired in Hi. case_decide; [by exists i|done]. Qed.
#[global] Instance with_outcomes_laws f : LedgerLaws (PF := with_outcomes f).
Proof. destruct LL. by split. Qed.

Lemma uncut {A} (m : io A) (m' : (nat -> outcome) -> io A) d r d' (Q : result A -> Disk -> Prop) :
  (forall f, alike f m (m' f)) ->
  (forall f, no_short_writes (H := with_outcomes f) -> (write_failure (H := with_outcomes f) -> write_failure) -> wp (m' f) d Q) ->
  m d = (r, d') -> cut_short d d' \/ Q r d'.
Proof.
  intros Hm HQ E. destruct (decide (cut_short d d')) as [Hc|Hc]; [by left|right].
  destruct (Hm (repaired d d') d) as [_ Ha]. rewrite E in Ha. specialize (Ha (repaired_agree d d')).
  eapply wp_run; [|exact Ha]. apply HQ; [by apply repaired_whole|by apply repaired_failure].
Qed.
Lemma fault_outcomes {A} f lg sc (r : result A) :
  (write_failure (H := with_outcomes f) -> write_failure) -> fault (PF := with_outcomes f) lg sc r -> fault lg sc r.
Proof. intros Hw (e & -> & He & [Hf|Hs]); exists e; split_and!; [done|done|left; auto|done|done|by right]. Qed.
Lemma append_result_outcomes f lg d id sc spec r :
  (write_failure (H := with_outcomes f) -> write_failure) ->
  append_result (PF := with_outcomes f) lg d id sc spec r -> append_result lg d id sc spec r.
Proof.
  intros Hw (sc' & n' & H1 & H2 & H3). exists sc', n'. split_and!; [done|done|].
  destruct spec as [[e evs]|x].
  - destruct H3 as [H3|[H3 H4]]; [by left|right]. split; [by eapply fault_outcomes|done].
  - destruct H3 as [[H3|H3] H4]; split; try done; [by left|right; by eapply fault_outcomes].
Qed.
End Runs.

(** ** A write that is cut short *)
Lemma splitlines_last line p : printable p = true -> splitlines_from line p = if String.eqb (line +:+ p) "" then [] else [line +:+ p].
Proof.
  revert line. induction p as [|c p IH]; intros line Hp; cbn [splitlines_from]; [by rewrite string_app_nil|].
  rewrite all_codes_cons in Hp. apply andb_true_iff in Hp as [Hc Hp]. rewrite (printable_no_break _ Hc), IH by done.
  by rewrite string_app_assoc.
Qed.
Lemma splitlines_tail ls p :
  Forall (fun l => printable l = true) ls -> printable p = true -> p <> "" -> splitlines (stream_text ls +:+ p) = ls ++ [p].
Proof.
  intros Hl Hp Hne. unfold splitlines. induction Hl as [|l ls Hx _ IH].
  - change (stream_text [] +:+ p) with p. rewrite splitlines_last by done. change ("" +:+ p) with p. by destruct p.
  - cbn [stream_text foldr]. fold (stream_text ls). rewrite !string_app_assoc, splitlines_line by done. cbn. f_equal. exact IH.
Qed.
Lemma substring_codes p k s : all_codes p s = true -> all_codes p (String.substring 0 k s) = true.
Proof.
  revert k. induction s as [|c s IH]; intros [|k] Hs; [done..|]. rewrite all_codes_cons in Hs. apply andb_true_iff in Hs as [Hc Hs].
  cbn [String.substring]. by rewrite all_codes_cons, Hc, IH.
Qed.
Lemma substring_app k s t : (k <= String.length s)%nat -> String.substring 0 k (s +:+ t) = String.substring 0 k s.
Proof.
  revert k. induction s as [|c s IH]; intros [|k] Hk; [by destruct t|cbn in Hk; lia|done|].
  change (String c s +:+ t) with (String c (s +:+ t)). cbn [String.substring]. rewrite IH; [done|]. cbn in Hk. lia.
Qed.
Lemma substring_nonempty k s : (0 < k)%nat -> s <> "" -> String.substring 0 k s <> "".
Proof. destruct k; [lia|]. by destruct s. Qed.

Section ShortWrites.
Context {PF : Platform} {CR : Crypto} {SH : Sha256} {JL : JsonLoads} {IF : IsoFormats} {LB : LooseBase64}.
Context {LL : LedgerLaws}.
Implicit Types (lg : Ledger) (d : Disk) (id : string) (sc : Scan).
(** A head that was written. *)
Lemma write_head_stored lg s d :
  config_ok lg -> write_outcome (d_writes d) = stored ->
  exists key, control_key lg Head (current_version (lg_keyring lg)) = Ok key
  /\ write_head lg s d = (Ok tt, tick 0 1 (put_control Head (signed_document lg Head (head_fields lg s) key) (tick 1 0 d))).
Proof.
  intros Hc Ho. destruct (derived_key_ok lg (control_purpose Head +:+ "-hmac") Hc) as [key Hk]. exists key. split; [exact Hk|].
  unfold write_head, write_signed, control_key. unfold mbind, io_bind, lift. rewrite Hk.
  unfold io_except, atomic_write, mbind, io_bind, draw, replace_file. cbn [d_writes tick Nat.add]. by rewrite Ho.
Qed.

(** A stream that ends with a part of a line. *)
Lemma cut_line_unreadable lg d a g h h' id ls sc n d' p :
  Sound lg d a g h id ls sc n -> read_signed lg Active d' = Ok a -> read_signed lg Genesis d' = Ok g ->
  read_signed lg Head d' = Ok h' -> check_controls lg a g h' = Ok id -> d_stream d' = Some (stream_text ls +:+ p) ->
  printable p = true -> p <> "" -> json_loads p = None -> load_state lg d' = Raise (ledger_error "LEDGER_UNREADABLE").
Proof.
  intros [_ _ _ _ _ Hl Hsc _ _ _ _ _] Ra Rg Rh Hck Hs Hp Hne Hj. unfold load_state.
  rewrite Ra, Rg, Rh. cbn [mbind result_bind]. rewrite Hck. cbn [mbind result_bind]. rewrite Hs. unfold read_ascii.
  rewrite ascii_app, (stream_ascii _ Hl), (printable_ascii _ Hp). cbn [andb except mbind result_bind].
  rewrite (splitlines_tail _ _ Hl Hp Hne), foldM_app, Hsc. cbn [mbind result_bind foldM].
  unfold scan_line, decode_record, load_object. by rewrite Hj.
Qed.
(** A ledger that cannot be read stays as it is: every operation reads it first. *)
Lemma unreadable_run {A} lg d e (k : LedgerState -> io A) b :
  load_state lg d = Raise e -> (s ← read_state lg b; k s) d = (Raise e, d).
Proof. intros He. unfold read_state, mbind, io_bind, get_disk, lift. by rewrite He. Qed.

(** The access record that an audited read writes: its first random token is the
    identity of the access and its second the nonce. *)
Definition access_nonce lg d : string * string := nonce_of lg (S (d_draws d)).
Definition access_payload lg (now : Z) d id sc (operation : string) : list (string * json) :=
  audit_payload lg (scan_state id sc) operation (hex (token_bytes (d_draws d) 16)) now.
Definition access_line lg now d id sc operation (key : string) : string :=
  record_line (scan_state id sc) ACCESS_AUDIT (current_version (lg_keyring lg)) (token_bytes (S (d_draws d)) 12) key
    (access_payload lg now d id sc operation).
Definition access_hash lg now d id sc operation (key : string) : string :=
  record_hash (scan_state id sc) ACCESS_AUDIT (current_version (lg_keyring lg)) (token_bytes (S (d_draws d)) 12) key
    (access_payload lg now d id sc operation).
Definition after_access lg now d id sc operation key : Scan :=
  grow sc [] (access_hash lg now d id sc operation key) (access_nonce lg d).
Lemma access_line_scans lg now d id sc n operation key :
  config_ok lg -> in_calendar now -> operation ∈ ALLOWED_OPERATIONS -> Holds lg d id sc n ->
  derived_key lg (current_version (lg_keyring lg)) "envelope-encryption" = Ok key -> access_nonce lg d ∉ sc_nonces sc ->
  let line := access_line lg now d id sc operation key in
  printable line = true /\ scan_line lg id sc line = Ok (after_access lg now d id sc operation key).
Proof.
  intros Hc Hnow Hop HH Hk Hfresh line. pose proof HH as (a & g & h & ls & HS).
  pose proof (last_hash_plain _ _ _ _ _ _ _ _ _ HS) as Hlast. pose proof (so_id _ _ _ _ _ _ _ _ _ HS) as Hi.
  assert (writable (JObj (access_payload lg now d id sc operation)) = true) as Hw
    by (apply audit_payload_writable; [by apply co_actor|done|exact Hlast]).
  split; [apply canonical_printable, signed_record_writable; [done| |done]; by destruct (current_version_ok _ Hc)|].
  pose proof (decode_record_line lg (scan_state id sc) ACCESS_AUDIT (token_bytes (S (d_draws d)) 12) key _ (sc_nonces sc) Hc
    (token_length _ _) Hk Hw Hi Hlast Hfresh) as E. cbn zeta in E. cbn [scan_state ls_ledger_id ls_last_sequence ls_last_record_sha256] in E.
  unfold scan_line, line, access_line. rewrite E. cbn [mbind result_bind]. unfold scan_record. cbn [dr_type dr_payload dr_sequence dr_previous].
  replace (Z.of_nat (length (sc_hashes sc)) + 1 - 1) with (ls_last_sequence (scan_state id sc)) by (cbn; lia).
  change (last (sc_hashes sc)) with (ls_last_record_sha256 (scan_state id sc)).
  unfold access_payload. rewrite validate_written_audit; [|by apply co_actor|done|apply token_length|done].
  unfold after_access, grow. by rewrite app_nil_r.
Qed.
Lemma unique_nonce_first lg s d :
  nonce_of lg (d_draws d) ∉ ls_nonces s ->
  unique_nonce s (current_version (lg_keyring lg)) d = (Ok (token_bytes (d_draws d) 12), tick 1 0 d).
Proof.
  intros Hf. unfold unique_nonce. cbn [unique_nonce_from MAXIMUM_NONCE_ATTEMPTS]. unfold mbind, io_bind, draw.
  assert (mem (current_version (lg_keyring lg), hex (token_bytes (d_draws d) 12)) (ls_nonces s) = false) as ->; [|done].
  unfold mem. by apply bool_decide_eq_false.
Qed.

(** The audit when the write of its record stores [part]: with an error it fails,
    without one it commits the record all the same. *)
Lemma cut_audit_run lg now d id sc operation key text k f :
  config_ok lg -> d_stream d = Some text -> derived_key lg (current_version (lg_keyring lg)) "envelope-encryption" = Ok key ->
  access_nonce lg d ∉ sc_nonces sc ->
  write_outcome (d_writes d) = {| kept := Some k; failed := f |} -> write_outcome (S (d_writes d)) = stored ->
  let line := access_line lg now d id sc operation key in
  let s' := scan_state id (after_access lg now d id sc operation key) in
  exists d', audit lg now (scan_state id sc) operation d
      = (if f then Raise (ledger_error "LEDGER_ACCESS_AUDIT_FAILED") else Ok s', d')
  /\ d_stream d' = Some (text +:+ String.substring 0 k (line +:+ chr 10))
  /\ (forall c, c <> Head -> control_file c d' = control_file c d)
  /\ (if f then control_file Head d' = control_file Head d
      else exists hkey, control_key lg Head (current_version (lg_keyring lg)) = Ok hkey
           /\ control_file Head d' = Some (signed_document lg Head (head_fields lg s') hkey)).
Proof.
  intros Hc Hs Hk Hfresh Ho1 Ho2 line s'.
  assert (s' = advance (scan_state id sc) (access_hash lg now d id sc operation key) (access_nonce lg d)) as Es by (by rewrite advance_grow).
  unfold audit, token_hex, append_record, io_except, lift. unfold mbind, io_bind, draw, mret, io_ret.
  rewrite (unique_nonce_first lg (scan_state id sc) (tick 1 0 d)), Hk by exact Hfresh. unfold append_stream.
  assert (d_stream (tick 1 0 (tick 1 0 d)) = Some text) as -> by exact Hs.
  assert (d_writes (tick 1 0 (tick 1 0 d)) = d_writes d) as -> by done. rewrite Ho1. cbn [outcome_result failed kept_part kept].
  set (d1 := tick 0 1 _). destruct f; cbn [raise_if except].
  - exists d1. split_and!; [done|done|by intros []|done].
  - destruct (write_head_stored lg s' d1 Hc Ho2) as (hkey & Hhk & Hrun). rewrite Es in Hrun at 1.
    eexists. split.
    { change (sha256_hex _) with (access_hash lg now d id sc operation key).
      change (current_version (lg_keyring lg), hex (token_bytes (d_draws (tick 1 0 d)) 12)) with (access_nonce lg d).
      rewrite Hrun. cbn [snd except]. by rewrite <-Es. }
    split_and!; [done|by intros []|by exists hkey].
Qed.
(** The head that such an audit writes passes the checks of the control files. *)
Lemma committed_head lg now d id sc a g h ls n key hkey d' :
  config_ok lg -> settled lg -> in_calendar now -> Sound lg d a g h id ls sc n ->
  derived_key lg (current_version (lg_keyring lg)) "envelope-encryption" = Ok key -> access_nonce lg d ∉ sc_nonces sc ->
  control_key lg Head (current_version (lg_keyring lg)) = Ok hkey ->
  control_file Head d'
  = Some (signed_document lg Head (head_fields lg (scan_state id (after_access lg now d id sc "READ_EVENTS" key))) hkey) ->
  exists h', read_signed lg Head d' = Ok h' /\ check_controls lg a g h' = Ok id.
Proof.
  intros Hc Hset Hnow HS Hk Hfresh Hhk Hh. assert (Holds lg d id sc n) as HH by (by exists a, g, h, ls).
  destruct (access_line_scans lg now d id sc n "READ_EVENTS" key Hc Hnow ltac:(solve_keys) HH Hk Hfresh) as [Hp Hscan].
  set (line := access_line lg now d id sc "READ_EVENTS" key) in *. set (sc' := after_access lg now d id sc "READ_EVENTS" key) in *.
  set (d1 := put_stream (stream_text (ls ++ [line])) d).
  assert (Sound lg d1 a g h id (ls ++ [line]) sc' n) as HS1.
  { apply (sound_grow lg d d1 a g h id ls sc n line [] (access_hash lg now d id sc "READ_EVENTS" key) (access_nonce lg d));
      [done|by intros []|done|done|done| |constructor]. rewrite app_nil_r. by apply (holds_chains _ _ _ _ _ HH). }
  set (d2 := put_control Head (signed_document lg Head (head_fields lg (scan_state id sc')) hkey) d1).
  pose proof (sound_head lg d1 d2 a g h id _ sc' n hkey Hc Hset HS1 Hhk eq_refl) as HS2.
  destruct HS2 as [_ _ Rh Hck _ _ _ _ _ _ _ _]; [by intros []|done|]. eexists. split; [|exact Hck].
  rewrite <-Rh. by apply read_signed_files.
Qed.

(** C10: a short write destroys the ledger.  [_append_record] does not look at how
    much of a record [os.write] has written.  When a read of a committed ledger
    writes only the first [k] bytes of its access record, no JSON document as no
    proper part of a record is, the ledger is unreadable from then on: every
    later read and append fails and changes nothing.  If an error followed the
    part, of the flush for instance, the read fails; if [os.write] just returned,
    as it may, the read signs a head for the record that is not there and returns
    the events as if they had been audited. *)
Theorem short_write_breaks_ledger lg now d id sc key k f :
  config_ok lg -> settled lg -> in_calendar now -> Holds lg d id sc (record_count sc) ->
  derived_key lg (current_version (lg_keyring lg)) "envelope-encryption" = Ok key -> access_nonce lg d ∉ sc_nonces sc ->
  (0 < k <= String.length (access_line lg now d id sc "READ_EVENTS" key))%nat ->
  json_loads (String.substring 0 k (access_line lg now d id sc "READ_EVENTS" key)) = None ->
  write_outcome (d_writes d) = {| kept := Some k; failed := f |} -> write_outcome (S (d_writes d)) = stored ->
  exists d', events lg now d = (if f then Raise (ledger_error "LEDGER_ACCESS_AUDIT_FAILED") else Ok (sc_events sc), d')
  /\ load_state lg d' = Raise (ledger_error "LEDGER_UNREADABLE")
  /\ (forall now2, events lg now2 d' = (Raise (ledger_error "LEDGER_UNREADABLE"), d'))
  /\ (forall now2 rq phase t, append lg now2 rq phase (Some t) d' = (Raise (ledger_error "LEDGER_UNREADABLE"), d')).
Proof.
  intros Hc Hset Hnow HH Hk Hfresh Hlen Hj Ho1 Ho2. pose proof HH as (a & g & h & ls & HS).
  destruct (access_line_scans lg now d id sc _ "READ_EVENTS" key Hc Hnow ltac:(solve_keys) HH Hk Hfresh) as [Hp _].
  destruct (cut_audit_run lg now d id sc "READ_EVENTS" key _ k f Hc (so_stream _ _ _ _ _ _ _ _ _ HS) Hk Hfresh Ho1 Ho2)
    as (d' & Hrun & Hs & Hctl & Hhead).
  rewrite substring_app in Hs by lia. set (line := access_line lg now d id sc "READ_EVENTS" key) in *. exists d'.
  assert (load_state lg d' = Raise (ledger_error "LEDGER_UNREADABLE")) as Hload.
  { pose proof HS as [Ra Rg Rh Hck _ _ _ _ _ _ _ _].
    assert (exists h', read_signed lg Head d' = Ok h' /\ check_controls lg a g h' = Ok id) as (h' & Rh' & Hck').
    { destruct f; [exists h; by rewrite (read_signed_files _ _ _ _ Hhead)|]. destruct Hhead as (hkey & Hhk & Hh).
      by eapply committed_head. }
    apply (cut_line_unreadable lg d a g h h' id ls sc (record_count sc) d' (String.substring 0 k line)); try done.
    - by rewrite (read_signed_files lg Active d d' (Hctl Active ltac:(done))).
    - by rewrite (read_signed_files lg Genesis d d' (Hctl Genesis ltac:(done))).
    - by apply substring_codes.
    - apply substring_nonempty; [lia|]. intros E. rewrite E in Hlen. cbn in Hlen. lia. }
  split_and!; [|done|intros now2; by apply unreadable_run|intros now2 rq phase t; by apply unreadable_run].
  assert (read_state lg true d = (Ok (scan_state id sc), d)) as Hread.
  { unfold read_state, mbind, io_bind, get_disk, lift. rewrite (holds_load _ _ _ _ _ HH). cbn [fst snd].
    change (ls_last_sequence (scan_state id sc)) with (record_count sc). by rewrite Z.ltb_irrefl. }
  unfold events, audited, mbind, io_bind. rewrite Hread, Hrun. destruct f; [done|]. cbn. by rewrite app_nil_r.
Qed.
End ShortWrites.

(** ** An example *)
Section Example.
(** The first write of the read stores one byte and returns its count. *)
Let sound : nat -> bool := fun _ => false.
Definition one_byte (i : nat) : outcome := if Nat.eqb i 5 then {| kept := Some 1%nat; failed := false |} else stored.
#[local] Instance short_platform : Platform := with_outcomes (PF := toy_platform sound) one_byte.
#[local] Instance short_laws : @LedgerLaws short_platform toy_crypto toy_sha := with_outcomes_laws (LL := toy_laws sound) one_byte.
#[local] Existing Instance toy_crypto.
#[local] Existing Instance toy_sha.
#[local] Existing Instance no_loads.
#[local] Existing Instance no_iso.
#[local] Existing Instance no_b64.
Lemma canonical_brace fs : exists rest, canonical fs = "{" +:+ rest.
Proof. eexists. reflexivity. Qed.
Lemma brace_no_document : json_loads "{" = None.
Proof. by vm_compute. Qed.
Lemma short_write_breaks_ledger_witness :
  exists d', events old_ledger 0 (new_disk sound) = (Ok [], d')
  /\ events old_ledger 0 d' = (Raise (ledger_error "LEDGER_UNREADABLE"), d').
Proof.
  destruct (new_disk_holds sound eq_refl) as [id HH]. destruct old_config as [Hc Hs].
  destruct (derived_key_ok old_ledger "envelope-encryption" Hc) as [key Hk].
  destruct (canonical_brace (signed_record (unsigned_record (scan_state id empty_scan) ACCESS_AUDIT "k1"
    (token_bytes (S (d_draws (new_disk sound))) 12) key (access_payload old_ledger 0 (new_disk sound) id empty_scan "READ_EVENTS")))) as [rest El].
  assert (access_line old_ledger 0 (new_disk sound) id empty_scan "READ_EVENTS" key = "{" +:+ rest) as E by exact El. clear El.
  pose proof (short_write_breaks_ledger old_ledger 0 (new_disk sound) id empty_scan key 1 false Hc Hs epoch_ok HH Hk (not_elem_of_nil _)) as T.
  rewrite E in T. destruct T as (d' & H1 & _ & H2 & _); [split; [lia|apply le_n_S, Nat.le_0_l]|destruct rest; exact brace_no_document|reflexivity|reflexivity|].
  exists d'. split; [exact H1|apply H2].
Defined.
End Example.
