(* ===== verification/LedgerIntegrity.v ===== *)
(** * LedgerIntegrity: the signed head pins the committed records

    The head carries the hash of the last committed record, and every record the
    hash of the one before it.  Two streams that load under the same head have
    the same committed records, unless two of their records collide. *)

From S2P Require Import Prelude Float Json JsonCanonical JsonLoads Calendar PyText IsoTime Base64 Keyrings Deletion.
From S2P Require Import Ledger LedgerText LedgerProofs LedgerChains LedgerSafety LedgerModel.

(** Documented behaviour of the parsers outside the canonical texts: objects
    have distinct keys, and strict base64 only accepts its alphabet. *)
Class ParserLaws {JL : JsonLoads} {LB : LooseBase64} := {
  loads_unique s v : other_loads s = Some v -> unique_keys v = true;
  base64_alphabet s b : other_b64 s = Some b -> plain_string s = true
}.

Section Integrity.
Context {PF : Platform} {CR : Crypto} {SH : Sha256} {JL : JsonLoads} {IF : IsoFormats} {LB : LooseBase64}.
Context {LL : LedgerLaws} {PL : ParserLaws}.
Implicit Types (lg : Ledger) (d : Disk) (id line : string) (sc : Scan) (record : list (string * json)).

Lemma canonical_document_unique s v : canonical_document s = Some v -> unique_keys v = true.
Proof.
  unfold canonical_document. destruct (parse_json s) as [w|]; [|done]. cbn [mbind option_bind].
  destruct (_ && _) eqn:E; [|done]. intros [= <-]. by apply andb_true_iff in E as [_ ?].
Qed.
Lemma load_object_unique line record : load_object line = Ok record -> NoDup record.*1.
Proof.
  unfold load_object, json_loads. intros H. step_ok H v Hv. apply from_option_ok in Hv.
  assert (unique_keys v = true) as Hu.
  { destruct (canonical_document line) as [v1|] eqn:E1; [injection Hv as ->; by apply canonical_document_unique in E1|].
    destruct (canonical_document (chomp line)) as [v2|] eqn:E2; [injection Hv as ->; by apply canonical_document_unique in E2|].
    by apply loads_unique in Hv. }
  destruct v; try done. apply ok_inj in H as ->. simpl in Hu.
  apply andb_true_iff in Hu as [Hu _]. by apply negb_true_iff, has_dups_false in Hu.
Qed.
Lemma b64decode_plain s b : b64decode s = Some b -> plain_string s = true.
Proof.
  unfold b64decode. destruct (String.eqb_spec (b64encode (bytes_string (b64_bytes (utf8_bytes s)))) s) as [<-|_].
  - intros _. apply b64encode_plain.
  - apply base64_alphabet.
Qed.
Lemma required_text_inv fs k s : required_text fs k = Ok s -> dict_get k fs = Some (JStr s).
Proof.
  unfold required_text. destruct (dict_get k fs) as [[]|]; try done. by destruct (String.eqb _ _); [|intros <-%ok_inj].
Qed.
Lemma is_text_inv v s : is_text v s = true -> v = Some (JStr s).
Proof. destruct v as [[]|]; try done. simpl. by intros ->%String.eqb_eq. Qed.
Lemma dict_get_without k k' (fs : list (string * json)) : k <> k' -> dict_get k (without k' fs) = dict_get k fs.
Proof.
  intros Hk. unfold without. induction fs as [|[k1 v] fs IH]; [done|]. rewrite filter_cons. cbn [dict_get fst].
  case_decide as H1; cbn [dict_get]; case_decide; [done|done|congruence|done].
Qed.
Lemma derived_key_version lg version purpose key :
  keyring_post_init (lg_keyring lg) = Ok tt -> derived_key lg version purpose = Ok key -> plain_string version = true.
Proof.
  intros Hk H. unfold derived_key in H. step_ok H m Hm. unfold require in Hm.
  destruct (dict_get version (keys (lg_keyring lg))) as [x|] eqn:E; [|done]. apply dict_get_elem in E.
  unfold keyring_post_init in Hk. check_ok Hk H1. step_ok Hk w Hc. apply forM_ok in Hc. rewrite Forall_forall in Hc.
  apply Hc in E. unfold check_key in E. check_ok E Hv. by apply KEY_VERSION_text in Hv as [? _].
Qed.

(** The fields of a record that decodes are flat texts. *)
Lemma decoded_writable lg line record id sequence previous nonces r :
  keyring_post_init (lg_keyring lg) = Ok tt -> plain_string id = true ->
  (forall h, previous = Some h -> plain_string h = true) ->
  load_object line = Ok record -> DecodesTo lg record id sequence previous nonces r -> writable (JObj record) = true.
Proof.
  intros Hk Hi Hp Hl D. pose proof (load_object_unique _ _ Hl) as Hn.
  assert (forall k, k ∈ record.*1 <-> k ∈ RECORD_KEYS) as Hkeys by (apply same_set_true; by destruct D).
  apply writable_object; [done|]. apply Forall_forall. intros [k v] Hin. cbn [fst snd].
  assert (k ∈ RECORD_KEYS) as Hkk by (apply Hkeys; apply list_elem_of_fmap; by exists (k, v)).
  split; [revert Hkk; generalize k; apply Forall_forall; solve_keys|].
  apply (dict_elem_get k v) in Hin; [|done].
  destruct D as [_ D2 D3 [D4 _] [D5 _] D6 D7 (D8 & _ & _) [D9 D9'] (nonce & text & ct & key & pt & E1 & E2 & E3 & E4 & E5 & _)].
  apply is_text_inv in D2, D3. apply required_text_inv in D7, D8, D9, E3.
  unfold RECORD_KEYS in Hkk. rewrite !elem_of_cons, elem_of_nil in Hkk.
  destruct Hkk as [->|[->|[->|[->|[->|[->|[->|[->|[->|[]]]]]]]]]]; rewrite Hin in *.
  - injection D2 as ->. done.
  - injection D3 as ->. by apply writable_str.
  - injection D4 as ->. done.
  - destruct v as [| | | |s| |]; try done. apply writable_str. simpl in D6. unfold record_type_of in D6.
    repeat case_match; try done; by match goal with H : String.eqb s _ = true |- _ => apply String.eqb_eq in H as -> end.
  - injection D7 as ->. apply writable_str. by eapply derived_key_version.
  - injection D8 as ->. apply writable_str. rewrite E2. auto with ledger.
  - destruct v as [| | | |s| |], previous as [h|]; try done. simpl in D5. apply String.eqb_eq in D5 as ->. by apply writable_str, Hp.
  - injection E3 as ->. apply writable_str. by eapply b64decode_plain.
  - injection D9 as ->. apply writable_str. rewrite D9'. apply sha_digest.
Qed.

(** What a record hash is taken of. *)
Definition record_preimage line : option string :=
  match load_object line with Ok record => Some (canonical (without "record_sha256" record)) | Raise _ => None end.
(** SHA-256 separates the records of two streams. *)
Definition collision_free (lines1 lines2 : list string) : Prop :=
  forall l1 l2 p1 p2, l1 ∈ lines1 -> l2 ∈ lines2 -> record_preimage l1 = Some p1 -> record_preimage l2 = Some p2 ->
  sha256_hex p1 = sha256_hex p2 -> p1 = p2.

Lemma canonical_inj fs1 fs2 :
  writable (JObj fs1) = true -> writable (JObj fs2) = true -> canonical fs1 = canonical fs2 -> read_fields fs1 = read_fields fs2.
Proof.
  intros W1 W2 E. apply canonical_document_dumps in W1, W2. unfold canonical in E. rewrite E in W1.
  rewrite W1 in W2. by injection W2.
Qed.
Lemma writable_without k fs : writable (JObj fs) = true -> writable (JObj (without k fs)) = true.
Proof.
  intros (Hn & _ & Hf)%writable_parts. apply writable_object; [by apply without_keys|].
  apply Forall_forall. intros [k' v] [_ Hin]%list_elem_of_filter. by apply Hf.
Qed.
Lemma is_text_opt_unique v o1 o2 : is_text_opt (Some v) o1 = true -> is_text_opt (Some v) o2 = true -> o1 = o2.
Proof.
  destruct v, o1, o2; simpl; try done. intros ->%String.eqb_eq. by intros ->%String.eqb_eq.
Qed.
Definition flat (v : json) : Prop := canon v = v /\ forall w, canon w = v -> w = v.
Lemma flat_str s : flat (JStr s).
Proof. split; [done|]. by intros []. Qed.
Lemma flat_int n : flat (JInt n).
Proof. split; [done|]. by intros []. Qed.

(** Records with the same fields decode to the same record. *)
Lemma decode_same_fields lg rec1 rec2 id q1 q2 p1 p2 ns1 ns2 r1 r2 :
  writable (JObj rec1) = true -> writable (JObj rec2) = true ->
  DecodesTo lg rec1 id q1 p1 ns1 r1 -> DecodesTo lg rec2 id q2 p2 ns2 r2 ->
  canonical (without "record_sha256" rec1) = canonical (without "record_sha256" rec2) ->
  r1 = r2 /\ p1 = p2.
Proof.
  intros W1 W2 D1 D2 E.
  pose proof (writable_without "record_sha256" _ W1) as U1. pose proof (writable_without "record_sha256" _ W2) as U2.
  pose proof (canonical_inj _ _ U1 U2 E) as ER.
  assert (forall k, k <> "record_sha256" -> canon <$> dict_get k rec1 = canon <$> dict_get k rec2) as Hget.
  { intros k Hk. apply writable_parts in U1 as (N1 & _), U2 as (N2 & _).
    rewrite <-(dict_get_without k "record_sha256" rec1), <-(dict_get_without k "record_sha256" rec2) by done.
    rewrite <-!read_fields_get by done. by rewrite ER. }
  assert (forall k v, k <> "record_sha256" -> flat v -> dict_get k rec1 = Some v -> dict_get k rec2 = Some v) as Hflat.
  { intros k v Hk [Hc Hf] H1. specialize (Hget k Hk). rewrite H1 in Hget. destruct (dict_get k rec2) as [w|]; [|done].
    injection Hget as Hw. rewrite Hc in Hw. f_equal. by apply Hf. }
  assert (canonical (without "ciphertext" (without "record_sha256" rec1)) = canonical (without "ciphertext" (without "record_sha256" rec2))) as EA.
  { rewrite <-(canonical_without _ _ U1), <-(canonical_without _ _ U2). by rewrite ER. }
  destruct D1 as [_ _ _ [S1 S1'] [P1 P1'] T1 V1 (N1 & N1' & _) [H1 H1'] (n1 & t1 & c1 & k1 & x1 & A1 & _ & B1 & C1 & K1 & X1 & _ & L1)].
  destruct D2 as [_ _ _ [S2 S2'] [P2 P2'] T2 V2 (N2 & N2' & _) [H2 H2'] (n2 & t2 & c2 & k2 & x2 & A2 & _ & B2 & C2 & K2 & X2 & _ & L2)].
  apply required_text_inv in V1, V2, N1, N2, B1, B2.
  apply Hflat in S1, V1, N1, B1; try done; try apply flat_str; try apply flat_int.
  assert (dict_get "record_type" rec1 = dict_get "record_type" rec2) as ET.
  { destruct (dict_get "record_type" rec1) as [[| | | |s| |]|] eqn:E1; try done.
    symmetry. apply Hflat; [done|apply flat_str|done]. }
  assert (p1 = p2) as Ep.
  { specialize (Hget "previous_record_sha256" ltac:(done)).
    destruct (dict_get "previous_record_sha256" rec1) as [v1|], (dict_get "previous_record_sha256" rec2) as [v2|]; try done.
    - injection Hget as Hv. apply (is_text_opt_unique (canon v1)); [by destruct v1|]. rewrite Hv. by destruct v2.
    - by destruct p1, p2. }
  split; [|done].
  assert (dr_sequence r1 = dr_sequence r2) by congruence. assert (dr_key_version r1 = dr_key_version r2) as Ev by congruence.
  assert (dr_nonce r1 = dr_nonce r2) as En.
  { destruct (dr_nonce r1), (dr_nonce r2). simpl in *. congruence. }
  assert (dr_type r1 = dr_type r2) by congruence. assert (dr_sha256 r1 = dr_sha256 r2) by congruence.
  assert (dr_previous r1 = dr_previous r2) by congruence.
  assert (dr_payload r1 = dr_payload r2).
  { rewrite En in A1. rewrite Ev in K1. assert (n1 = n2) as -> by congruence. assert (k1 = k2) as -> by congruence.
    assert (t1 = t2) as -> by congruence. assert (c1 = c2) as -> by congruence. rewrite EA in X1. congruence. }
  destruct r1, r2. simpl in *. congruence.
Qed.

(** ** The committed prefix *)
Lemma scan_length lg id lines sc :
  foldM (scan_line lg id) empty_scan lines = Ok sc -> length (sc_hashes sc) = length lines.
Proof.
  apply (foldM_prefix_inv _ (fun l sc => length (sc_hashes sc) = length l)); [done|].
  intros l x s s' _ Hs H. unfold scan_line in H. step_ok H r Hr. rewrite (scan_record_hashes _ _ _ _ H), !length_app. simpl. lia.
Qed.
Lemma scan_determined lg id lines1 lines2 sc1 sc2 :
  keyring_post_init (lg_keyring lg) = Ok tt -> plain_string id = true -> collision_free lines1 lines2 ->
  length lines1 = length lines2 -> last (sc_hashes sc1) = last (sc_hashes sc2) ->
  foldM (scan_line lg id) empty_scan lines1 = Ok sc1 -> foldM (scan_line lg id) empty_scan lines2 = Ok sc2 -> sc1 = sc2.
Proof.
  intros Hk Hi. revert lines2 sc1 sc2. induction lines1 as [|l1 lines1 IH] using rev_ind; intros lines2 sc1 sc2 Hcf Hlen Hlast H1 H2.
  { destruct lines2; [|done]. simpl in *. congruence. }
  destruct lines2 as [|l2 lines2 _] using rev_ind; [rewrite length_app in Hlen; simpl in Hlen; lia|].
  rewrite !length_app in Hlen. simpl in Hlen. rewrite foldM_app in H1, H2. step_ok H1 s1 F1. step_ok H2 s2 F2.
  simpl in H1, H2. step_ok H1 u1 S1. step_ok H2 u2 S2. apply ok_inj in H1 as ->, H2 as ->.
  unfold scan_line in S1, S2. step_ok S1 r1 R1. step_ok S2 r2 R2.
  apply decode_record_ok in R1 as (rec1 & L1 & D1), R2 as (rec2 & L2 & D2).
  assert (forall s lines, foldM (scan_line lg id) empty_scan lines = Ok s -> forall h, last (sc_hashes s) = Some h -> plain_string h = true) as Hplain.
  { intros s lines F h Hh. apply scan_hashes in F. rewrite Forall_forall in F. rewrite last_lookup in Hh.
    by apply list_elem_of_lookup_2, F in Hh as [? _]. }
  pose proof (decoded_writable _ _ _ _ _ _ _ _ Hk Hi (Hplain _ _ F1) L1 D1) as W1.
  pose proof (decoded_writable _ _ _ _ _ _ _ _ Hk Hi (Hplain _ _ F2) L2 D2) as W2.
  rewrite (scan_record_hashes _ _ _ _ S1), (scan_record_hashes _ _ _ _ S2), !last_snoc in Hlast. injection Hlast as Hlast.
  assert (canonical (without "record_sha256" rec1) = canonical (without "record_sha256" rec2)) as Epre.
  { destruct (dt_hash _ _ _ _ _ _ _ D1) as [_ E1], (dt_hash _ _ _ _ _ _ _ D2) as [_ E2]. rewrite E1, E2 in Hlast.
    apply (Hcf l1 l2); [set_solver|set_solver|unfold record_preimage; by rewrite L1|unfold record_preimage; by rewrite L2|done]. }
  destruct (decode_same_fields _ _ _ _ _ _ _ _ _ _ _ _ W1 W2 D1 D2 Epre) as [-> Hprev].
  assert (s1 = s2) as ->; [|congruence].
  apply (IH lines2); [|lia|done|done|done]. intros a b pa pb Ha Hb. apply Hcf; set_solver.
Qed.

Lemma scan_extends lg id q lines sc :
  foldM (scan_line lg id) q lines = Ok sc ->
  sc_hashes q `prefix_of` sc_hashes sc /\ sc_events q `prefix_of` sc_events sc.
Proof.
  apply (foldM_inv _ (fun s => sc_hashes q `prefix_of` sc_hashes s /\ sc_events q `prefix_of` sc_events s)); [done|].
  intros l s s' _ [Hh He] H. unfold scan_line in H. step_ok H r Hr. rewrite (scan_record_hashes _ _ _ _ H).
  split; [by apply prefix_app_r|]. unfold scan_record in H.
  destruct (dr_type r); step_ok H x Hx; apply ok_inj in H as <-; [by apply prefix_app_r|done|done].
Qed.
Lemma scan_take lg id lines sc n :
  foldM (scan_line lg id) empty_scan lines = Ok sc -> 0 <= n <= record_count sc ->
  exists q, foldM (scan_line lg id) empty_scan (take (Z.to_nat n) lines) = Ok q
    /\ last (sc_hashes q) = head_hash (sc_hashes sc) n /\ sc_events q `prefix_of` sc_events sc
    /\ length (take (Z.to_nat n) lines) = Z.to_nat n.
Proof.
  intros H Hn. pose proof (scan_length _ _ _ _ H) as Hlen. unfold record_count in Hn.
  rewrite <-(take_drop (Z.to_nat n) lines), foldM_app in H. step_ok H q Hq. exists q.
  destruct (scan_extends _ _ _ _ _ H) as [[rest Hr] He]. pose proof (scan_length _ _ _ _ Hq) as Hql.
  rewrite length_take in Hql. split_and!; [done| |done|rewrite length_take; lia].
  unfold head_hash. destruct (Z.eqb_spec n 0) as [->|Hne].
  - by destruct (sc_hashes q).
  - rewrite Hr, last_lookup, lookup_app_l by lia. f_equal. lia.
Qed.
Lemma is_text_opt_fun v o1 o2 : is_text_opt v o1 = true -> is_text_opt v o2 = true -> o1 = o2.
Proof. destruct v as [v|]; [apply is_text_opt_unique|]. by destruct o1, o2. Qed.

(** The records that a head at [n] commits. *)
Definition committed_scan lg id d (n : Z) : result Scan :=
  match d_stream d with
  | Some s => foldM (scan_line lg id) empty_scan (take (Z.to_nat n) (splitlines s))
  | None => Raise os_error
  end.

(** C36: the signed head pins the history.  Take a ledger and any other files
    that load with the same head, whatever was done to their stream: the same
    number of records is committed, these records are the same, and the events
    among them are the first events that are read; only records after the head
    can differ, unless two records have the same SHA-256 hash. *)
Theorem head_pins_history lg d1 d2 id sc n s2 n2 text1 text2 :
  config_ok lg -> Holds lg d1 id sc n -> load_state lg d2 = Ok (s2, n2) -> d_head d2 = d_head d1 ->
  d_stream d1 = Some text1 -> d_stream d2 = Some text2 -> collision_free (splitlines text1) (splitlines text2) ->
  n2 = n /\ ls_ledger_id s2 = id
  /\ exists q, committed_scan lg id d1 n = Ok q /\ committed_scan lg id d2 n = Ok q
     /\ sc_events q `prefix_of` sc_events sc /\ sc_events q `prefix_of` ls_events s2.
Proof.
  intros Hc (a & g & h & ls & [_ _ Hh Hck Hst Hl Hsc _ Hhd _ Hi _]) Hload Hhead T1 T2 Hcf.
  rewrite T1 in Hst. injection Hst as ->. rewrite (splitlines_stream _ Hl) in Hcf.
  unfold load_state in Hload. step_ok Hload a2 Ha2. step_ok Hload g2 Hg2. step_ok Hload h2 Hh2. step_ok Hload id2 Hck2.
  step_ok Hload text Htext. step_ok Hload sc2 Hsc2. step_ok Hload u Hch. step_ok Hload m Hhd2. injection Hload as <- <-.
  assert (read_signed lg Head d2 = read_signed lg Head d1) as Er by (by apply read_signed_files).
  rewrite Er, Hh in Hh2. apply ok_inj in Hh2 as <-.
  apply check_controls_ok in Hck as (_ & (_ & _ & _ & _ & I1) & _), Hck2 as (_ & (_ & _ & _ & _ & I2) & _).
  apply is_text_inv in I1, I2. assert (id2 = id) as -> by congruence.
  apply check_head_iff in Hhd as (N1 & B1 & E1 & _), Hhd2 as (N2 & B2 & E2 & _). assert (m = n) as -> by congruence.
  rewrite T2 in Htext. cbn in Htext. destruct (ascii_text text2); [|done]. apply ok_inj in Htext as <-.
  destruct (scan_take _ _ _ _ _ Hsc B1) as (q1 & Q1 & L1 & P1 & Len1).
  destruct (scan_take _ _ _ _ _ Hsc2 B2) as (q2 & Q2 & L2 & P2 & Len2).
  assert (q1 = q2) as <-.
  { eapply (scan_determined lg id); [apply Hc|done| |by rewrite Len1, Len2| |exact Q1|exact Q2].
    - intros x y px py Hx Hy. apply Hcf.
      + rewrite <-(take_drop (Z.to_nat n) ls). set_solver.
      + rewrite <-(take_drop (Z.to_nat n) (splitlines text2)). set_solver.
    - rewrite L1, L2. by eapply is_text_opt_fun. }
  split_and!; [done|done|]. exists q1. unfold committed_scan. rewrite T1, T2, (splitlines_stream _ Hl). done.
Qed.
End Integrity.

Lemma toy_parser_laws : @ParserLaws no_loads no_b64.
Proof. split; done. Qed.
(** A ledger with an event, and the same files with the record of a later read
    at the end of the stream but the head of before. *)
#[local] Definition sound : nat -> bool := fun _ => false.
Notation toy_run f := (f (toy_platform sound) toy_crypto toy_sha no_loads no_iso no_b64 old_ledger 0).
Definition grown_disk : Disk := (toy_run (@append) toy_request PREPARED (Some 0) (new_disk sound)).2.
Definition tail_disk : Disk := put_stream (default "" (d_stream (toy_run (@events) grown_disk).2)) grown_disk.
Notation toy_load := (load_state (CR := toy_crypto) (SH := toy_sha) (JL := no_loads) (IF := no_iso) (LB := no_b64) old_ledger).
Definition distinct_hashes (lines1 lines2 : list string) : bool :=
  forallb (fun l1 => forallb (fun l2 =>
    match record_preimage (JL := no_loads) l1, record_preimage (JL := no_loads) l2 with
    | Some p1, Some p2 => negb (String.eqb (toy_digest p1) (toy_digest p2)) || String.eqb p1 p2
    | _, _ => true
    end) lines2) lines1.
Lemma distinct_collision_free lines1 lines2 :
  distinct_hashes lines1 lines2 = true -> collision_free (SH := toy_sha) (JL := no_loads) lines1 lines2.
Proof.
  unfold distinct_hashes. rewrite forallb_forall. intros H l1 l2 p1 p2 H1%list_elem_of_In H2%list_elem_of_In E1 E2 E.
  specialize (H l1 H1). rewrite forallb_forall in H. specialize (H l2 H2). cbn beta in H. rewrite E1, E2 in H.
  change (toy_digest p1 = toy_digest p2) in E. rewrite E, String.eqb_refl in H. by apply String.eqb_eq in H.
Qed.
Lemma tail_loads :
  match toy_load tail_disk, d_stream grown_disk, d_stream tail_disk with
  | Ok (_, n), Some t1, Some t2 => n = 2 /\ length (splitlines t2) = 3%nat /\ distinct_hashes (splitlines t1) (splitlines t2) = true
  | _, _, _ => False
  end.
Proof. by vm_compute. Qed.
Lemma grown_holds : exists id sc n, toy_holds old_ledger grown_disk id sc n.
Proof.
  destruct (new_disk_holds sound eq_refl) as [id HH]. destruct old_config as [Hc Hs].
  pose proof (wp_run _ _ _ _ _ (append_wp (LL := toy_laws sound) old_ledger 0 (new_disk sound) id empty_scan 0 toy_request PREPARED 0 Hc Hs
    (toy_whole sound) epoch_ok toy_request_ok epoch_ok HH) (surjective_pairing _)) as (sc & n & H & _).
  exists id, sc, n. unfold grown_disk. exact H.
Qed.
Lemma put_stream_head t d : d_head (put_stream t d) = d_head d.
Proof. done. Qed.
Lemma tail_head : d_head tail_disk = d_head grown_disk.
Proof. apply put_stream_head. Qed.
Lemma head_pins_history_witness :
  exists id sc s2 q, toy_holds old_ledger grown_disk id sc 2 /\ toy_load tail_disk = Ok (s2, 2)
  /\ committed_scan (CR := toy_crypto) (SH := toy_sha) (JL := no_loads) (IF := no_iso) (LB := no_b64) old_ledger id grown_disk 2 = Ok q
  /\ committed_scan (CR := toy_crypto) (SH := toy_sha) (JL := no_loads) (IF := no_iso) (LB := no_b64) old_ledger id tail_disk 2 = Ok q.
Proof.
  pose proof grown_holds as HG. pose proof tail_loads as HL. pose proof tail_head as Hh. revert HG HL Hh.
  generalize tail_disk as d2, grown_disk as d1. intros d2 d1 (id & sc & n & HH) HL Hh. destruct old_config as [Hc _].
  destruct (toy_load d2) as [[s2 n2]|x] eqn:El; [|destruct HL].
  destruct (d_stream d1) as [t1|] eqn:E1; [|destruct HL]. destruct (d_stream d2) as [t2|] eqn:E2; [|destruct HL].
  destruct HL as (-> & _ & Hd).
  destruct (head_pins_history (LL := toy_laws sound) (PL := toy_parser_laws) old_ledger d1 d2 id sc n s2 2 t1 t2
    Hc HH El Hh E1 E2 (distinct_collision_free _ _ Hd)) as (<- & _ & q & H1 & H2 & _).
  exists id, sc, s2, q. split; [exact HH|]. split; [reflexivity|]. split; [exact H1|exact H2].
Defined.
