(* ===== verification/LedgerTheorems.v ===== *)
(** * LedgerTheorems: what the deletion ledger guarantees

    Appending refines a contract on the list of events, survives failing writes
    and is idempotent; every access is audited before it returns; a new ledger
    is empty; the chains the deletion protocol builds are the legal ones. *)

From S2P Require Import Prelude Float Json JsonCanonical JsonLoads Calendar PyText IsoTime Base64 Keyrings Deletion.
From S2P Require Import Ledger LedgerText LedgerProofs LedgerChains LedgerSafety LedgerIntegrity LedgerModel LedgerWrites.

(** ** Audited reads *)
Section Reads.
Context {PF : Platform} {CR : Crypto} {SH : Sha256} {JL : JsonLoads} {IF : IsoFormats} {LB : LooseBase64}.
Context {LL : LedgerLaws}.
Implicit Types (lg : Ledger) (d : Disk) (id : string) (sc : Scan).
(** What an audited read leaves: the same events and, when it returns, one more
    record, committed, which is the access record of this operation by the actor
    of the adapter; without that record nothing is returned. *)
Definition audited_read {A} lg d d' id sc (operation : string) (r : result A) (v : A) : Prop :=
  exists sc' n', Holds lg d' id sc' n' /\ sc_events sc' = sc_events sc /\ append_only sc sc' /\
  match r with
  | Ok a => a = v /\ n' = record_count sc' /\ record_count sc' = record_count sc + 1 /\ audit_stored lg d d' id sc operation
  | Raise _ => fault lg sc r
  end.
Lemma audited_read_wp {A} lg now d id sc n operation (view : LedgerState -> A) (v : A) :
  config_ok lg -> settled lg -> no_short_writes -> in_calendar now -> operation ∈ ALLOWED_OPERATIONS ->
  Holds lg d id sc n -> (forall s, ls_events s = sc_events sc -> view s = v) ->
  wp (audited lg now operation view) d (fun r d' => audited_read lg d d' id sc operation r v).
Proof.
  intros Hc Hs Ha Hnow Hop HH Hview. eapply wp_mono; [|by apply (audited_wp lg now d id sc n operation view)].
  cbn beta. intros r d' (sc' & n' & H' & Hsc & Hr).
  assert (sc_events sc' = sc_events sc) as Hev by (destruct Hsc as [->|(hash & k & ->)]; [done|cbn; by rewrite app_nil_r]).
  exists sc', n'. split_and!; [done|done| |].
  - destruct Hsc as [->|(hash & k & ->)]; [done|apply grow_append_only].
  - destruct r as [a|e].
    + destruct Hr as (-> & -> & Hst & hash & k & ->). split_and!; [by apply Hview|done| |done]. unfold record_count. cbn.
      rewrite length_app. simpl. lia.
    + destruct Hr. by apply fault_intro.
Qed.
End Reads.

Section Theorems.
Context {PF : Platform} {CR : Crypto} {SH : Sha256} {JL : JsonLoads} {IF : IsoFormats} {LB : LooseBase64}.
Context {LL : LedgerLaws}.
Implicit Types (lg : Ledger) (d : Disk) (id : string) (sc : Scan).

(** C35: appending an event survives failing writes.  On a disk that holds a
    ledger, whatever writes fail while [append] runs, the disk holds a ledger
    afterwards whose records extend the old ones, unless one of these writes was
    cut short: it stored a part of its bytes, or none without an error, which is
    all that the platform lets [os.write] do and the code does not look for.  When
    the contract of [append] on the stored events returns an event, the call
    returns that event with the event stored and committed, or fails for lack of a
    write or a nonce with the events either unchanged or already extended; when
    the contract refuses, the events are unchanged.  Nothing is assumed of the
    writes of other calls. *)
Theorem append_crash_safe lg now d id sc n rq phase t r d' :
  config_ok lg -> settled lg -> in_calendar now -> in_calendar t -> request_ok rq ->
  Holds lg d id sc n -> append lg now rq phase (Some t) d = (r, d') ->
  cut_short d d' \/ append_result lg d' id sc (append_spec lg rq phase t (sc_events sc)) r.
Proof.
  intros Hc Hs Hn Ht Hrq HH.
  apply (uncut _ (fun f => append (PF := with_outcomes f) lg now rq phase (Some t)) d r d'
           (fun r d' => append_result lg d' id sc (append_spec lg rq phase t (sc_events sc)) r)); [intros f; apply alike_append|].
  intros f Hf Hw. eapply wp_mono; [|by apply (append_wp (PF := with_outcomes f) lg now d id sc n rq phase t)].
  intros r' d1. by apply append_result_outcomes.
Qed.

(** *** Progress *)
(** Among any eight tokens in a row one has not been used as a nonce, even if
    one more is used. *)
Definition nonce_supply lg sc : Prop := forall k, ~ stuck lg (nonce_of lg k :: sc_nonces sc).
Lemma supply_no_fault {A} lg sc (r : result A) : nonce_supply lg sc -> ~ write_failure -> ~ fault lg sc r.
Proof. intros Hs Hw (e & _ & _ & [H|[k Hk]]); [done|]. by apply (Hs k). Qed.

(** A retry of the contract. *)
Lemma same_event_refl e : same_event e e = true.
Proof. unfold same_event. apply String.eqb_refl. Qed.
Lemma find_snoc (p : LedgerEvent -> bool) l e : List.find p l = None -> p e = true -> List.find p (l ++ [e]) = Some e.
Proof. induction l as [|x l IH]; simpl; intros Hf Hp; [by rewrite Hp|]. destruct (p x); [done|]. by apply IH. Qed.
Lemma make_event_fields lg rq phase t previous version e :
  make_event lg rq phase t previous version = Ok e ->
  event_request e = rq /\ ev_phase e = phase /\ ev_previous_receipt e = previous.
Proof.
  unfold make_event. intros H. apply bind_ok in H as (u & _ & H). apply bind_ok in H as (key & _ & <-%ok_inj).
  by destruct rq.
Qed.
Lemma append_spec_again lg rq phase t events e events' :
  append_spec lg rq phase t events = Ok (e, events') ->
  append_spec lg rq phase t events' = Ok (e, events') /\ e ∈ events'
  /\ ev_deletion_id e = rq_deletion_id rq /\ ev_phase e = phase.
Proof.
  intros H. pose proof H as H0. unfold append_spec in H. check_ok H Hid. destruct (List.find _ _) as [x|] eqn:Ef.
  - step_ok H c Hc. check_ok H Hsame. injection H as <- <-. split; [done|].
    apply find_some in Ef as [Hin%list_elem_of_In Hp]. apply chain_of_elem in Hin. bools. naive_solver.
  - check_ok H Hl. step_ok H c Hc. injection H as <- <-. destruct (make_event_fields _ _ _ _ _ _ _ Hc) as (Hr & Hp & Hpr).
    assert (ev_deletion_id c = rq_deletion_id rq) as Hcid by (by rewrite <-Hr).
    split; [|split_and!; [set_solver|done|done]].
    unfold append_spec. rewrite chain_of_app, chain_of_one, decide_True by done.
    assert (match head (chain_of (rq_deletion_id rq) events ++ [c]) with
            | Some first => negb (bool_decide (rq = event_request first)) | None => false end = false) as ->.
    { destruct (chain_of (rq_deletion_id rq) events) as [|x l]; [|exact Hid]. simpl. by rewrite bool_decide_true. }
    cbn [raise_if mbind result_bind]. rewrite (find_snoc _ _ c Ef) by (by rewrite bool_decide_true).
    rewrite Hpr, Hc. cbn [mbind result_bind]. by rewrite same_event_refl.
Qed.

(** C37: with storage that works and random tokens that are not used up, [append] returns what
    its contract says, stores and commits it, and is idempotent: repeating the
    request returns the event the first call created and leaves the list of
    events alone. *)
Theorem append_returns_once lg now d id sc n rq phase t e events r1 d1 now2 r2 d2 :
  config_ok lg -> settled lg -> no_short_writes -> ~ write_failure -> in_calendar now -> in_calendar now2 -> in_calendar t ->
  request_ok rq -> Holds lg d id sc n -> append_spec lg rq phase t (sc_events sc) = Ok (e, events) ->
  append lg now rq phase (Some t) d = (r1, d1) -> append lg now2 rq phase (Some t) d1 = (r2, d2) ->
  nonce_supply lg sc ->
  r1 = Ok e /\ e ∈ events /\ exists sc1,
  Holds lg d1 id sc1 (record_count sc1) /\ sc_events sc1 = events /\ append_only sc sc1
  /\ (nonce_supply lg sc1 -> r2 = Ok e /\ exists sc2,
      Holds lg d2 id sc2 (record_count sc2) /\ sc_events sc2 = events /\ append_only sc1 sc2).
Proof.
  intros Hc Hs Ha Hw Hn Hn2 Ht Hrq HH Hspec H1 H2 Hfresh.
  destruct (append_spec_again _ _ _ _ _ _ _ Hspec) as (Hspec2 & Hin & _).
  apply (wp_run _ _ _ _ _ (append_wp lg now d id sc n rq phase t Hc Hs Ha Hn Hrq Ht HH)) in H1. rewrite Hspec in H1.
  destruct H1 as (sc1 & n1 & HH1 & Hpre1 & [(-> & Hev & ->)|[Hf _]]); [|by apply supply_no_fault in Hf].
  split_and!; [done|done|]. exists sc1. split_and!; [done|done|done|]. intros Hfresh1.
  rewrite <-Hev in Hspec2.
  apply (wp_run _ _ _ _ _ (append_wp lg now2 d1 id sc1 _ rq phase t Hc Hs Ha Hn2 Hrq Ht HH1)) in H2. rewrite Hspec2 in H2.
  destruct H2 as (sc2 & n2 & HH2 & Hpre2 & [(-> & Hev2 & ->)|[Hf _]]); [|by apply supply_no_fault in Hf].
  split; [done|]. exists sc2. by rewrite Hev2.
Qed.

(** ** Reading *)
Lemma audited_read_outcomes {A} f lg d d' id sc operation (r : result A) v :
  (write_failure (H := with_outcomes f) -> write_failure) ->
  audited_read (PF := with_outcomes f) lg d d' id sc operation r v -> audited_read lg d d' id sc operation r v.
Proof.
  intros Hw (sc' & n' & H1 & H2 & H3 & H4). exists sc', n'. split_and!; [done|done|done|]. destruct r; [done|by eapply fault_outcomes].
Qed.
Lemma audited_read_uncut {A} lg now d id sc n operation (view : LedgerState -> A) (v : A) r d' :
  config_ok lg -> settled lg -> in_calendar now -> operation ∈ ALLOWED_OPERATIONS ->
  Holds lg d id sc n -> (forall s, ls_events s = sc_events sc -> view s = v) ->
  audited lg now operation view d = (r, d') -> cut_short d d' \/ audited_read lg d d' id sc operation r v.
Proof.
  intros Hc Hs Hnow Hop HH Hview.
  apply (uncut _ (fun f => audited (PF := with_outcomes f) lg now operation view) d r d'
           (fun r d' => audited_read lg d d' id sc operation r v)); [intros f; apply alike_audited|].
  intros f Hf Hw. eapply wp_mono; [|by apply (audited_read_wp (PF := with_outcomes f) lg now d id sc n operation view v)].
  intros r' d1. by apply audited_read_outcomes.
Qed.

(** C38: every read of the ledger is audited first.  [events], [chain] and
    [unresolved_preparations] return the stored events, the events of one
    deletion and exactly the preparations without a later event; each return is
    preceded by a new committed record, an access record of exactly that
    operation by the actor of the adapter, a read whose record cannot be stored
    returns nothing, and no read changes the events.  This holds of every call,
    whatever writes fail, unless a write of the call itself was cut short. *)
Theorem reads_are_audited lg now d id sc n :
  config_ok lg -> settled lg -> in_calendar now -> Holds lg d id sc n ->
  (forall r d', events lg now d = (r, d') ->
     cut_short d d' \/ audited_read lg d d' id sc "READ_EVENTS" r (sc_events sc))
  /\ (forall did r d', chain lg now did d = (r, d') ->
     cut_short d d' \/ audited_read lg d d' id sc "READ_CHAIN" r (chain_of did (sc_events sc)))
  /\ (forall r d', unresolved_preparations lg now d = (r, d') ->
     cut_short d d' \/ audited_read lg d d' id sc "ENUMERATE_UNRESOLVED" r (unresolved (sc_events sc)))
  /\ (forall e, e ∈ unresolved (sc_events sc) <->
                ev_phase e = PREPARED /\ chain_of (ev_deletion_id e) (sc_events sc) = [e]).
Proof.
  intros Hc Hs Hnow HH. split_and!; [intros r d' Hrun|intros did r d' Hrun|intros r d' Hrun|intros e; apply elem_of_unresolved].
  all: eapply (audited_read_uncut lg now d id sc n); [exact Hc|exact Hs|exact Hnow| |exact HH| |exact Hrun].
  1,3,5: solve_keys. all: intros s Es; cbn; congruence.
Qed.

(** ** New ledgers *)
Definition new_ledger_result (restore actor : string) (r : result Ledger) (d' : Disk) : Prop :=
  match r with
  | Ok lg => config_ok lg /\ settled lg /\ exists id, Holds lg d' id empty_scan 0
  | Raise e => write_failure \/ e = value_error /\ (actor ∉ ALLOWED_ACTORS \/ restore = "" \/ 64 < py_len restore)
  end.
(** Opening a ledger on an empty directory creates one that holds no events
    and that the returned adapter reads, with all control files committed; a
    write that fails is reported as an error. *)
Theorem new_ledger_empty k restore actor now d r d' :
  keyring_post_init k = Ok tt -> plain_string restore = true -> no_short_writes ->
  d_active d = None -> d_genesis d = None -> d_head d = None -> d_stream d = None -> d_marker d = false -> d_legacy d = false ->
  open_ledger None (Some k) restore actor false None None now d = (r, d') -> new_ledger_result restore actor r d'.
Proof.
  intros Hk Hp Ha H1 H2 H3 H4 H5 H6 Hrun. revert Hrun. apply wp_run. unfold open_ledger. apply wp_bind. unfold wp at 1, lift. cbn [key_source].
  apply wp_bind. unfold wp at 1, io_raise_if, lift. destruct (mem actor ALLOWED_ACTORS) eqn:Eact; unfold mem in Eact; bools; cbn [negb raise_if];
    [|right; auto].
  apply wp_bind. unfold wp at 1. destruct (String.eqb_spec restore "") as [->|Hne]; cbn [orb raise_if]; [right; auto|].
  destruct (Z.ltb_spec 64 (py_len restore)) as [Hl|Hl]; cbn [raise_if]; [right; auto|].
  apply wp_bind. unfold wp at 1, get_disk. rewrite H1, H2, H3, H4, H5, H6.
  do 3 (apply wp_bind; unfold wp at 1, io_raise_if, lift; cbn [andb orb missing raise_if]).
  set (lg := {| lg_keyring := k; lg_restore_key_version := restore; lg_expected_ledger_key_version := _;
                lg_expected_restore_key_version := _; lg_actor := actor |}).
  assert (config_ok lg) as Hc by done. assert (settled lg) as Hs by done.
  apply wp_bind. cbn [negb andb]. apply wp_bind. unfold wp at 1. cbn [negb andb raise_if].
  eapply wp_mono; [|by apply initialize_wp]. cbn beta. intros [u|e] d1 Hd1; [|by left]. destruct Hd1 as [id Hid].
  unfold wp. split_and!; eauto.
Qed.

(** ** Chains *)
(** The stored events are accepted exactly when every event names the
    receipt of the previous event of its deletion and the phases of every
    deletion are a legal chain; these are the nonempty chains that the deletion
    protocol builds. *)
Theorem ledger_chains_sound evs g :
  (validate_event_chains evs = Ok tt <-> linked evs /\ legal evs)
  /\ (forall s, Protocol.reachable g s -> Protocol.ledger_chain s = [] \/ Protocol.ledger_chain s ∈ LEGAL_CHAINS)
  /\ (forall phases, phases ∈ LEGAL_CHAINS -> exists s, Protocol.reachable g s /\ Protocol.ledger_chain s = phases).
Proof.
  split_and!; [apply validate_chains_iff|apply protocol_chains_legal|].
  intros phases Hp. unfold LEGAL_CHAINS in Hp.
  assert (forall s, Protocol.phase_of g s -> Protocol.reachable g s) as Hreach by (intros s Hs; by eapply Protocol.run_reachable, Protocol.run_path_to).
  rewrite !elem_of_cons, elem_of_nil in Hp. destruct Hp as [->|[->|[->|[->|[]]]]].
  - eexists. split; [apply Hreach, Protocol.ph_prepared|done].
  - eexists. split; [apply Hreach, (Protocol.ph_fenced _ [PREPARED; REQUESTED])|]; auto.
  - eexists. split; [apply Hreach, Protocol.ph_deleted|done].
  - eexists. split; [apply Hreach, Protocol.ph_aborted|done].
Qed.

(** ** Migration *)
Definition import_result lg d' id sc (evs : list LedgerEvent) (r : result unit) : Prop :=
  exists sc' n' stored rest, Holds lg d' id sc' n' /\ append_only sc sc' /\ evs = stored ++ rest
  /\ sc_events sc' = sc_events sc ++ stored
  /\ match r with Ok _ => rest = [] /\ record_count sc = 0 /\ sc_events sc = [] | Raise e => is_ledger_error e end.
(** Importing the events of a plaintext ledger stores them in order.
    Whatever writes fail, the new ledger holds a prefix of the events and is
    readable; when the import returns, it started from an empty ledger and holds
    all of them. *)
Theorem import_stores_prefix lg now d id sc n evs source t r d' :
  config_ok lg -> settled lg -> no_short_writes -> in_calendar now -> in_calendar t -> source_ok source ->
  lg_actor lg = "MIGRATION_CLI" -> Forall legacy_event evs -> validate_event_chains evs = Ok tt -> Holds lg d id sc n ->
  import_legacy_events lg now evs source (Some t) d = (r, d') ->
  import_result lg d' id sc evs r.
Proof.
  intros Hc Hs Ha Hnow Ht Hsrc Hact Hev Hch HH Hrun. revert Hrun.
  apply (wp_run _ _ (fun r d' => import_result lg d' id sc evs r)). unfold import_legacy_events. apply wp_bind.
  unfold wp at 1, io_raise_if, lift. rewrite Hact. cbn [String.eqb negb raise_if]. change (String.eqb "MIGRATION_CLI" "MIGRATION_CLI") with true. cbn [negb raise_if].
  destruct (sk_hex _ Hsrc) as [bytes Hb]. apply wp_bind. unfold wp at 1. rewrite Hb. cbn [from_option].
  apply wp_bind. unfold wp at 1. rewrite (sk_length _ Hsrc). cbn [Z.eqb Pos.eqb negb raise_if].
  apply wp_bind. unfold wp at 1.
  assert (existsb (fun e => negb (String.eqb (ev_schema_version e) "deletion-ledger-event-v1")) evs = false) as ->.
  { apply not_true_iff_false. rewrite existsb_exists. intros (e & He%list_elem_of_In & Hne). rewrite Forall_forall in Hev.
    destruct (Hev _ He) as [_ E]. by rewrite E in Hne. }
  cbn [raise_if]. apply wp_bind. unfold wp at 1. rewrite Hch. apply wp_bind.
  assert (forall d2 sc2 n2 e, Holds lg d2 id sc2 n2 -> append_only sc sc2 -> sc_events sc2 = sc_events sc -> is_ledger_error e ->
    import_result lg d2 id sc evs (Raise e)) as Hnothing.
  { intros d2 sc2 n2 e H2 Hp E He. exists sc2, n2, [], evs. split_and!; [done|done|done|by rewrite app_nil_r|done]. }
  eapply wp_mono; [|by apply (read_state_wp lg d id sc n)]. cbn beta. intros [s|e] d1 (n1 & H1 & _ & Hr1); [|by eapply Hnothing; [..|apply Hr1]].
  destruct Hr1 as [-> ->]. apply wp_bind. unfold wp at 1, io_raise_if, lift.
  match goal with |- context [raise_if ?b _] => destruct b eqn:Eb end; [by eapply Hnothing|]. cbn [raise_if].
  apply orb_false_iff in Eb as [Eb _]. apply orb_false_iff in Eb as [E0 Ee]. apply negb_false_iff in E0, Ee.
  apply Z.eqb_eq in E0. apply bool_decide_eq_true in Ee. cbn in E0, Ee. fold (record_count sc) in E0.
  apply wp_bind. eapply wp_mono; [|by apply (audit_wp lg now d1 id sc (record_count sc) "IMPORT_LEGACY"); [..|solve_keys|]]. cbn beta.
  intros [s|e] d2 (sc2 & n2 & H2 & Hsc & Hr2).
  - destruct Hr2 as (-> & -> & _ & hash & k & ->). apply wp_bind.
    assert (sc_events (grow sc [] hash (nonce_of lg k)) = sc_events sc) as Eg by (cbn; by rewrite app_nil_r).
    eapply wp_mono; [|apply (import_events_wp lg d2 id _ _ source t evs Hc Hs Ha Hsrc Ht Hev H2); by rewrite Eg, Ee].
    cbn beta. intros r3 d3 (sc3 & n3 & stored & rest & H3 & Hp3 & E3 & E4 & Hr3).
    destruct r3 as [s|e]; exists sc3, n3, stored, rest; rewrite E4, Eg.
    + unfold wp. split_and!; [done|etrans; [apply grow_append_only|done]|done|done|done|done|done].
    + split_and!; [done|etrans; [apply grow_append_only|done]|done|done|done].
  - destruct Hr2 as [-> _]. eapply Hnothing; [exact H2| | |done].
    + destruct Hsc as [->|(hash & k & ->)]; [done|apply grow_append_only].
    + destruct Hsc as [->|(hash & k & ->)]; [done|]. cbn. by rewrite app_nil_r.
Qed.
End Theorems.

(** ** Examples *)
Section Examples.
(** The write of the first head after the creation fails. *)
Let flaky : nat -> bool := fun i => Nat.eqb i 6.
Let sound : nat -> bool := fun _ => false.
Lemma never_cut fails d d' : ~ cut_short (H := toy_platform fails) d d'.
Proof. intros (i & _ & Hi). apply Hi, toy_whole. Qed.

Lemma append_crash_safe_witness :
  exists id, let run := append (PF := toy_platform flaky) (CR := toy_crypto) (SH := toy_sha) (JL := no_loads) (IF := no_iso)
      (LB := no_b64) old_ledger 0 toy_request PREPARED (Some 0) (new_disk flaky) in
  append_result (PF := toy_platform flaky) (CR := toy_crypto) (SH := toy_sha) (JL := no_loads) (IF := no_iso) (LB := no_b64)
       old_ledger run.2 id empty_scan
       (append_spec (CR := toy_crypto) old_ledger toy_request PREPARED 0 []) run.1.
Proof.
  destruct (new_disk_holds flaky eq_refl) as [id HH]. exists id. cbn zeta.
  destruct old_config as [Hc Hs].
  destruct (append_crash_safe (LL := toy_laws flaky) old_ledger 0 (new_disk flaky) id empty_scan 0 toy_request PREPARED 0 _ _ Hc Hs
           epoch_ok epoch_ok toy_request_ok HH (surjective_pairing _)) as [Hcut|H]; [destruct (never_cut _ _ _ Hcut)|exact H].
Defined.

(** Fewer nonces than the tokens of one draw. *)
Lemma low_digits_last n a b : low_digits (S n) a = low_digits (S n) b -> a mod 10 = b mod 10.
Proof.
  cbn [low_digits]. intros [= E _]. apply (f_equal Ascii.N_of_ascii) in E. rewrite !low_digit_code in E.
  pose proof (Z.mod_pos_bound a 10 ltac:(lia)). pose proof (Z.mod_pos_bound b 10 ltac:(lia)). lia.
Qed.
Lemma short_supply fails lg sc :
  (S (length (sc_nonces sc)) < MAXIMUM_NONCE_ATTEMPTS)%nat -> nonce_supply (PF := toy_platform fails) lg sc.
Proof.
  intros Hl k [i Hi]. unfold MAXIMUM_NONCE_ATTEMPTS in *.
  set (drawn := (fun j => @nonce_of (toy_platform fails) lg (i + j)) <$> seq 0 8).
  assert (NoDup drawn) as Hn.
  { apply NoDup_fmap_2_strong; [|apply NoDup_seq]. intros x y Hx%elem_of_seq Hy%elem_of_seq E.
    apply (f_equal (fun p => fromhex p.2)) in E. unfold nonce_of in E. cbn [snd] in E. rewrite !fromhex_hex in E.
    apply (inj Some), (low_digits_last 11) in E. revert E. Z.to_euclidean_division_equations. lia. }
  assert (drawn ⊆ @nonce_of (toy_platform fails) lg k :: sc_nonces sc) as Hsub.
  { intros x (j & -> & Hj%elem_of_seq)%list_elem_of_fmap. apply Hi. lia. }
  apply (NoDup_submseteq _ _ Hn), submseteq_length in Hsub. unfold drawn in Hsub. rewrite length_fmap, length_seq in Hsub. cbn in Hsub. lia.
Qed.
Notation toy_append := (append (PF := toy_platform sound) (CR := toy_crypto) (SH := toy_sha) (JL := no_loads) (IF := no_iso)
  (LB := no_b64) old_ledger 0 toy_request PREPARED (Some 0)).
Lemma appended_nonces :
  match load_state (CR := toy_crypto) (SH := toy_sha) (JL := no_loads) (IF := no_iso) (LB := no_b64) old_ledger (toy_append (new_disk sound)).2 with
  | Ok (s, _) => (S (length (ls_nonces s)) < MAXIMUM_NONCE_ATTEMPTS)%nat
  | Raise _ => False
  end.
Proof. vm_compute. lia. Qed.
Lemma append_returns_once_witness :
  exists id e events sc2, let run1 := toy_append (new_disk sound) in let run2 := toy_append run1.2 in
  run1.1 = Ok e /\ e ∈ events /\ run2.1 = Ok e /\ toy_holds old_ledger run2.2 id sc2 (record_count sc2) /\ sc_events sc2 = events.
Proof.
  destruct (new_disk_holds sound eq_refl) as [id HH]. destruct old_config as [Hc Hs].
  assert (exists e events, append_spec (CR := toy_crypto) old_ledger toy_request PREPARED 0 [] = Ok (e, events)) as (e & events & E)
    by (do 2 eexists; reflexivity).
  assert (~ @write_failure (toy_platform sound)) as Hw by (by intros [i Hi]).
  pose proof appended_nonces as Hn. cbv zeta.
  destruct (append_returns_once (LL := toy_laws sound) old_ledger 0 (new_disk sound) id empty_scan 0 toy_request PREPARED 0 e events
    _ _ 0 _ _ Hc Hs (toy_whole sound) Hw epoch_ok epoch_ok epoch_ok toy_request_ok HH E (surjective_pairing _) (surjective_pairing _))
    as (H1 & H2 & sc1 & H3 & H4 & _ & H5).
  - apply short_supply. cbn. unfold MAXIMUM_NONCE_ATTEMPTS. lia.
  - rewrite (holds_load _ _ _ _ _ H3) in Hn. destruct (H5 (short_supply sound old_ledger sc1 Hn)) as (H6 & sc2 & H7 & H8 & _).
    exists id, e, events, sc2. split; [exact H1|]. split; [exact H2|]. split; [exact H6|]. split; [exact H7|exact H8].
Defined.

Lemma reads_are_audited_witness :
  exists id, let run := events (PF := toy_platform sound) (CR := toy_crypto) (SH := toy_sha) (JL := no_loads) (IF := no_iso)
      (LB := no_b64) old_ledger 0 (new_disk sound) in
  audited_read (PF := toy_platform sound) (CR := toy_crypto) (SH := toy_sha) (JL := no_loads) (IF := no_iso)
    (LB := no_b64) old_ledger (new_disk sound) run.2 id empty_scan "READ_EVENTS" run.1 [].
Proof.
  destruct (new_disk_holds sound eq_refl) as [id HH]. destruct old_config as [Hc Hs]. exists id. cbn zeta.
  destruct (reads_are_audited (LL := toy_laws sound) old_ledger 0 (new_disk sound) id empty_scan 0 Hc Hs epoch_ok HH)
    as [H _].
  destruct (H _ _ (surjective_pairing _)) as [Hcut|Hr]; [destruct (never_cut _ _ _ Hcut)|exact Hr].
Defined.

Lemma ledger_chains_sound_witness :
  (validate_event_chains [] = Ok tt <-> linked [] /\ legal [])
  /\ exists s, Protocol.reachable 3 s /\ Protocol.ledger_chain s = [PREPARED].
Proof. destruct (ledger_chains_sound [] 3) as (H1 & _ & H3). split; [exact H1|]. apply H3. set_solver. Defined.

Lemma new_ledger_empty_witness :
  exists r d', open_ledger (PF := toy_platform sound) (CR := toy_crypto) None (Some (lg_keyring old_ledger)) "r1" "TEST" false None None 0 empty_disk
    = (r, d')
  /\ new_ledger_result (PF := toy_platform sound) (CR := toy_crypto) (SH := toy_sha) (JL := no_loads) (IF := no_iso) (LB := no_b64) "r1" "TEST" r d'.
Proof.
  do 2 eexists. split; [apply surjective_pairing|].
  apply (new_ledger_empty (LL := toy_laws sound) (lg_keyring old_ledger) "r1" "TEST" 0 empty_disk);
    [done|done|apply toy_whole|done|done|done|done|done|done|apply surjective_pairing].
Defined.

Definition toy_legacy : LedgerEvent :=
  {| ev_schema_version := "deletion-ledger-event-v1"; ev_deletion_id := "d1"; ev_phase := PREPARED; ev_scope_token := "s";
     ev_restore_key_version := "r1"; ev_original_generation := 1; ev_proposed_generation := 2;
     ev_preparation_digest := low_digits 64 5; ev_intent_proof_digest := low_digits 64 6;
     ev_occurred_at := datetime_isoformat 0; ev_previous_receipt := None; ev_receipt := low_digits 64 7 |}.
Lemma import_stores_prefix_witness :
  exists id, toy_holds migration_ledger (new_disk sound) id empty_scan 0
  /\ let run := import_legacy_events (PF := toy_platform sound) (CR := toy_crypto) (SH := toy_sha) (JL := no_loads) (IF := no_iso)
       (LB := no_b64) migration_ledger 0 [toy_legacy] (low_digits 64 8) (Some 0) (new_disk sound) in
     import_result (CR := toy_crypto) (SH := toy_sha) (JL := no_loads) (IF := no_iso) (LB := no_b64)
                        migration_ledger run.2 id empty_scan [toy_legacy] run.1.
Proof.
  destruct (new_disk_holds sound eq_refl) as [id HH]. exists id.
  assert (toy_holds migration_ledger (new_disk sound) id empty_scan 0) as HH' by (by apply (holds_same old_ledger)).
  split; [done|]. cbn zeta.
  apply (import_stores_prefix (LL := toy_laws sound) migration_ledger 0 (new_disk sound) id empty_scan 0 [toy_legacy] (low_digits 64 8) 0);
    [apply toy_config; solve_keys|by split|apply toy_whole|apply epoch_ok|apply epoch_ok| |reflexivity| |reflexivity|exact HH'
    |apply surjective_pairing].
  - split; [apply low_digits_plain|by vm_compute|by vm_compute; eexists].
  - apply Forall_singleton. split; [|done]. split; [apply toy_request_ok|apply toy_digest_ok|done|by exists 0].
Defined.
End Examples.
