(* ===== verification/LedgerRotation.v ===== *)
(** * LedgerRotation: rotating the ledger and restore keys

    A rotation appends a record under the new key and signs a head with it.  The
    configuration of the old keys is refused from then on.  A rotation that finds
    records after the head first signs a recovered head, with the new keys and
    before the rotation record exists; if it is interrupted there, no
    configuration can read the ledger again. *)

From S2P Require Import Prelude Float Json JsonCanonical JsonLoads Calendar PyText IsoTime Base64 Keyrings Deletion.
From S2P Require Import Ledger LedgerText LedgerProofs LedgerChains LedgerSafety LedgerIntegrity LedgerModel LedgerWrites.

Section Rotation.
Context {PF : Platform} {CR : Crypto} {SH : Sha256} {JL : JsonLoads} {IF : IsoFormats} {LB : LooseBase64}.
Context {LL : LedgerLaws}.
Implicit Types (lg : Ledger) (d : Disk) (id : string) (sc : Scan).

(** ** Committing with new keys *)
Lemma committed_keys lg : same_keys lg (committed lg).
Proof. done. Qed.
Lemma sound_commit lg d a g id ls sc key gv :
  config_ok lg -> read_signed lg Active d = Ok a -> read_signed lg Genesis d = Ok g ->
  required_text a "ledger_id" = Ok id -> is_text (dict_get "schema_version" a) "deletion-ledger-active-v2" = true ->
  is_text (dict_get "schema_version" g) "deletion-ledger-genesis-v2" = true -> is_text (dict_get "ledger_id" g) id = true ->
  required_text g "ledger_key_version" = Ok gv -> d_stream d = Some (stream_text ls) ->
  Forall (fun l => printable l = true) ls -> foldM (scan_line lg id) empty_scan ls = Ok sc ->
  validate_event_chains (sc_events sc) = Ok tt -> plain_string id = true ->
  Forall (fun e => plain_string (ev_receipt e) = true) (sc_events sc) ->
  control_key lg Head (current_version (lg_keyring lg)) = Ok key ->
  control_file Head d = Some (signed_document lg Head (head_fields lg (scan_state id sc)) key) ->
  validate_rotation_chain lg (sc_rotations sc) gv (record_count sc) (current_version (lg_keyring lg)) (lg_restore_key_version lg) false = Ok tt ->
  Forall (fun r => kr_sequence r <= record_count sc) (sc_rotations sc) ->
  Holds (committed lg) d id sc (record_count sc).
Proof.
  intros Hc Ra Rg A1 A2 G1 G2 Hgv Hst Hl Hsc Hch Hi Hrc Hk Hh Hrot Hseq.
  assert (forall s, ls_last_record_sha256 (scan_state id sc) = Some s -> plain_string s = true) as Hlast.
  { intros s Hs. pose proof (scan_hashes _ _ _ _ Hsc) as Hd. rewrite Forall_forall in Hd. apply Hd.
    cbn in Hs. rewrite last_lookup in Hs. by eapply list_elem_of_lookup_2. }
  pose proof (head_writable lg (scan_state id sc) Hc Hi Hlast) as Hw.
  destruct (head_key_fresh lg (scan_state id sc)) as [F1 F2].
  destruct (writable_parts _ (control_document_writable lg Head _ key Hc Hw F1 F2)) as (Hn & _ & _).
  pose proof (read_signed_document lg Head d _ key Hc Hw F1 F2 Hk Hh) as Rh.
  destruct (current_version_ok _ Hc) as (_ & Hv & _), (co_restore _ Hc) as [_ Hrs].
  exists a, g, (read_fields (control_document lg Head (head_fields lg (scan_state id sc)) key)), ls.
  split; rewrite ?(read_signed_same lg (committed lg)) by done; try done.
  - apply check_controls_ok. rewrite !is_text_read by done. split_and!; try done; apply String.eqb_refl.
  - apply check_head_iff. rewrite required_integer_read, is_text_opt_read, !required_text_read by done.
    split_and!; [done|unfold record_count; lia|lia| |].
    + unfold record_count. rewrite head_hash_last. cbn. destruct (last (sc_hashes sc)); [apply String.eqb_refl|done].
    + exists gv, (current_version (lg_keyring lg)), (lg_restore_key_version lg). rewrite Z.ltb_irrefl.
      split_and!; [done|by apply required_text_get..|done].
Qed.

(** ** Recovery under staged keys *)
Definition all_stored : Prop := forall i, write_outcome i = stored.

Lemma kept_nothing b s : kept_part {| kept := Some 0%nat; failed := b |} s = "".
Proof. by destruct s. Qed.
Lemma unique_nonce_fresh lg s d :
  (forall i, nonce_of lg i ∉ ls_nonces s) ->
  unique_nonce s (current_version (lg_keyring lg)) d = (Ok (token_bytes (d_draws d) 12), tick 1 0 d).
Proof.
  intros Hf. unfold unique_nonce. cbn [unique_nonce_from MAXIMUM_NONCE_ATTEMPTS]. unfold mbind, io_bind, draw.
  assert (mem (current_version (lg_keyring lg), hex (token_bytes (d_draws d) 12)) (ls_nonces s) = false) as ->; [|done].
  unfold mem. apply bool_decide_eq_false, Hf.
Qed.

(** The head of a ledger without rotations is under the key of its genesis. *)
Lemma genesis_version lg d a g h id ls sc n gv :
  Sound lg d a g h id ls sc n -> sc_rotations sc = [] -> required_text g "ledger_key_version" = Ok gv ->
  gv = lg_expected_ledger_key_version lg.
Proof.
  intros HS Hr Hgv. destruct HS as [_ _ _ Hck _ _ _ _ Hhd _ _ _].
  apply check_controls_ok in Hck as (_ & _ & Hel & _). apply check_head_iff in Hhd as (_ & _ & _ & gv' & hl & hr & E1 & E2 & _ & Hv).
  rewrite Hr in Hv. rewrite Hgv in E1. apply ok_inj in E1 as <-. apply (is_text_required _ _ _ _ Hel) in E2 as ->.
  unfold validate_rotation_chain in Hv. cbn in Hv. destruct (String.eqb_spec gv (lg_expected_ledger_key_version lg)); [done|].
  done.
Qed.

(** A disk whose head was recovered under the staged keys of [lg] while no
    rotation record exists. *)
Lemma recovered_unreadable lg d d' a g h id ls sc n key lg' :
  config_ok lg -> Sound lg d a g h id ls sc n -> sc_rotations sc = [] ->
  lg_expected_ledger_key_version lg <> current_version (lg_keyring lg) ->
  control_key lg Head (current_version (lg_keyring lg)) = Ok key ->
  control_file Head d' = Some (signed_document lg Head (head_fields lg (scan_state id sc)) key) ->
  control_file Active d' = control_file Active d -> control_file Genesis d' = control_file Genesis d ->
  d_stream d' = d_stream d -> same_keys lg lg' -> exists e, load_state lg' d' = Raise e.
Proof.
  intros Hc HS Hrot Hne Hk Hh Ha Hg Hs Hkeys. pose proof (last_hash_plain _ _ _ _ _ _ _ _ _ HS) as Hlast.
  pose proof (fun gv => genesis_version lg d a g h id ls sc n gv HS Hrot) as Hgen.
  destruct HS as [Ra Rg _ Hck Hst Hl Hsc Hch Hhd _ Hi _].
  pose proof (head_writable lg (scan_state id sc) Hc Hi Hlast) as Hw. destruct (head_key_fresh lg (scan_state id sc)) as [F1 F2].
  destruct (writable_parts _ (control_document_writable lg Head _ key Hc Hw F1 F2)) as (Hn & _ & _).
  pose proof (read_signed_document lg Head d' _ key Hc Hw F1 F2 Hk Hh) as Rh.
  set (doc := control_document lg Head (head_fields lg (scan_state id sc)) key) in *.
  unfold load_state. rewrite !(read_signed_same lg lg') by done.
  rewrite (read_signed_files lg Active d d'), (read_signed_files lg Genesis d d'), Ra, Rg, Rh by done. cbn [mbind result_bind].
  destruct (check_controls lg' a g (read_fields doc)) as [id'|e] eqn:Eck; [|by exists e]. cbn [mbind result_bind].
  apply check_controls_ok in Hck as (I1 & _), Eck as (I2 & _). assert (id' = id) as -> by congruence.
  rewrite Hs, Hst. unfold read_ascii. rewrite (stream_ascii _ Hl). cbn [except mbind result_bind].
  rewrite (splitlines_stream _ Hl), (scan_same lg lg'), Hsc by done. cbn [mbind result_bind]. rewrite Hch. cbn [mbind result_bind].
  apply check_head_iff in Hhd as (_ & _ & _ & gv & _ & _ & Egv & _). pose proof (Hgen _ Egv) as ->.
  destruct (check_head lg' g (read_fields doc) sc) as [m|e] eqn:Ehd; [|by exists e]. exfalso.
  apply check_head_iff in Ehd as (_ & _ & _ & gv & hl & hr & E1 & E2 & _ & Hv). rewrite Egv in E1. apply ok_inj in E1 as <-.
  rewrite required_text_read in E2 by done. apply required_text_inv in E2.
  assert (dict_get "current_ledger_key_version" doc = Some (JStr (current_version (lg_keyring lg)))) as E3 by done.
  rewrite E3 in E2. injection E2 as <-. rewrite Hrot in Hv. unfold validate_rotation_chain in Hv. cbn in Hv.
  by rewrite (proj2 (String.eqb_neq _ _) Hne) in Hv.
Qed.

Lemma rotate_run lg headtext t d s d1 :
  d_head d = Some headtext -> read_state lg true d = (Ok s, d1) ->
  rotate lg (sha256_hex headtext) t d = (r ← rotation_record lg s (sha256_hex headtext) t; confirm_rotation lg r) d1.
Proof.
  intros Hhead Hread. unfold rotate, mbind at 1, io_bind at 1, get_disk at 1. rewrite Hhead. cbn [file_sha256].
  unfold mbind at 1, io_bind at 1, lift at 1. unfold mbind at 1, io_bind at 1, lift at 1.
  rewrite compare_digest_eq by apply sha_digest. unfold mbind at 1, io_bind at 1, io_raise_if at 1, lift at 1. cbn [negb raise_if].
  unfold mbind at 1, io_bind at 1. by rewrite Hread.
Qed.
Lemma confirm_run lg d id sc r headtext :
  Holds (committed lg) d id sc (record_count sc) -> r ∈ sc_rotations sc -> d_head d = Some headtext ->
  confirm_rotation lg r d = (Ok (rotation_artifact id r (sha256_hex headtext)), d).
Proof.
  intros HH Hr Hh. unfold confirm_rotation, read_state, mbind, io_bind, get_disk, lift. rewrite (holds_load _ _ _ _ _ HH).
  cbn [fst snd]. change (ls_last_sequence (scan_state id sc)) with (record_count sc). rewrite Z.ltb_irrefl.
  unfold mret, io_ret, io_raise_if, lift.
  assert (existsb (fun x => (kr_sequence x =? kr_sequence r) && String.eqb (kr_record_sha256 x) (kr_record_sha256 r))
            (ls_rotations (scan_state id sc)) = true) as ->.
  { apply existsb_exists. exists r. rewrite Z.eqb_refl, String.eqb_refl. split; [by apply list_elem_of_In|done]. }
  cbn [negb raise_if]. by rewrite Hh.
Qed.

(** An audit whose head cannot be written leaves a record after the head. *)
Lemma audit_head_fails lg now s operation d text :
  config_ok lg -> (forall i, nonce_of lg i ∉ ls_nonces s) -> d_stream d = Some text ->
  write_outcome (d_writes d) = stored -> write_outcome (S (d_writes d)) = {| kept := Some 0%nat; failed := true |} ->
  exists e d' line, audit lg now s operation d = (Raise e, d') /\ (forall f, control_file f d' = control_file f d)
  /\ d_stream d' = Some (text +:+ line +:+ chr 10) /\ d_writes d' = S (S (d_writes d)).
Proof.
  intros Hc Hf Hs Ho1 Ho2. destruct (derived_key_ok lg "envelope-encryption" Hc) as [key Hk].
  destruct (derived_key_ok lg (control_purpose Head +:+ "-hmac") Hc) as [hkey Hhk].
  unfold audit, token_hex, append_record, write_head, write_signed, control_key, atomic_write, replace_file, io_except, lift.
  unfold mbind, io_bind, draw, mret, io_ret. rewrite (unique_nonce_fresh lg s _ Hf), Hk. unfold append_stream.
  assert (d_stream (tick 1 0 (tick 1 0 d)) = Some text) as -> by exact Hs.
  assert (d_writes (tick 1 0 (tick 1 0 d)) = d_writes d) as -> by done. rewrite Ho1. cbn [outcome_result stored failed raise_if except].
  rewrite Hhk. change (kept_part stored ?x) with x.
  match goal with |- context [write_outcome (d_writes ?x)] => assert (d_writes x = S (d_writes d)) as -> by done end.
  rewrite Ho2. do 3 eexists. split; [reflexivity|]. split; [by intros []|]. split; [reflexivity|done].
Qed.

(** C40: an interrupted key rotation can make the ledger unreadable for ever.
    When the stream has records after the head, no rotation yet, and the key
    rotation is interrupted by a failing write after the head was recovered,
    every configuration over the same keys, old or new, fails to load the
    ledger: the head already carries the new key version and no record explains
    it. *)
Theorem interrupted_rotation_locks_ledger lg d id sc n headtext t :
  config_ok lg -> lg_expected_ledger_key_version lg <> current_version (lg_keyring lg) ->
  Holds lg d id sc n -> n < record_count sc -> sc_rotations sc = [] ->
  d_head d = Some headtext -> in_calendar t -> (forall i, nonce_of lg i ∉ sc_nonces sc) ->
  write_outcome (d_writes d) = stored -> write_outcome (S (d_writes d)) = {| kept := Some 0%nat; failed := true |} ->
  exists d', rotate lg (sha256_hex headtext) t d = (Raise (ledger_error "LEDGER_APPEND_FAILED"), d')
  /\ forall lg', same_keys lg lg' -> exists e, load_state lg' d' = Raise e.
Proof.
  intros Hc Hne HH Hn Hrot Hhead Ht Hfresh Ho1 Ho2. pose proof HH as (a & g & h & ls & HS). pose proof (so_stream _ _ _ _ _ _ _ _ _ HS) as Hst.
  destruct (write_head_stored lg (scan_state id sc) d Hc Ho1) as (key & Hk & Hwrite).
  set (d1 := tick 0 1 (put_control Head (signed_document lg Head (head_fields lg (scan_state id sc)) key) (tick 1 0 d))) in *.
  assert (read_state lg true d = (Ok (scan_state id sc), d1)) as Hread.
  { unfold read_state, mbind, io_bind, get_disk, lift. rewrite (holds_load _ _ _ _ _ HH). cbn [fst snd].
    change (ls_last_sequence (scan_state id sc)) with (record_count sc).
    destruct (Z.ltb_spec n (record_count sc)); [|lia]. by rewrite Hwrite. }
  destruct (derived_key_ok lg "envelope-encryption" Hc) as [ekey Hek].
  assert (exists d', append_record lg (scan_state id sc) KEY_ROTATION
            (rotation_payload lg (hex (token_bytes (d_draws d1) 16)) (sha256_hex headtext) t) (tick 1 0 d1)
          = (Raise (ledger_error "LEDGER_APPEND_FAILED"), d') /\ same_files d1 d') as (d' & Happend & Hfiles).
  { eexists. unfold append_record, mbind, io_bind. rewrite (unique_nonce_fresh lg) by done. unfold lift. rewrite Hek.
    unfold io_except, append_stream.
    assert (d_stream (tick 1 0 (tick 1 0 d1)) = Some (stream_text ls)) as -> by exact Hst.
    assert (d_writes (tick 1 0 (tick 1 0 d1)) = S (d_writes d)) as -> by done.
    rewrite Ho2, kept_nothing, string_app_nil. split; [reflexivity|]. split; [by intros []|]. exact (eq_sym Hst). }
  exists d'. split.
  - rewrite (rotate_run lg headtext t d _ d1 Hhead Hread). unfold mbind, io_bind, rotation_record.
    cbn [scan_state ls_rotations]. rewrite Hrot. cbn [List.find].
    unfold mbind, io_bind, token_hex, mbind, io_bind, draw, mret, io_ret, lift. rewrite (check_in_calendar _ Ht).
    by rewrite Happend.
  - intros lg' Hkeys. destruct Hfiles as [Hf Hs]. by eapply (recovered_unreadable lg d).
Qed.

(** ** Artifacts *)
Lemma verify_written_artifact id r head :
  id <> "" -> digest (kr_previous_head_sha256 r) -> digest head -> digest (kr_record_sha256 r) -> 0 < kr_sequence r ->
  kr_previous_ledger_key_version r <> "" -> kr_current_ledger_key_version r <> "" ->
  kr_previous_restore_key_version r <> "" -> kr_current_restore_key_version r <> "" ->
  (exists t, in_calendar t /\ kr_occurred_at r = datetime_isoformat t) ->
  verify_rotation_artifact (artifact_fields (rotation_artifact id r head)) = Ok (rotation_artifact id r head).
Proof.
  intros Hid Hph Hh Hrh Hq H1 H2 H3 H4 (t & Ht & Et). set (a := rotation_artifact id r head).
  unfold verify_rotation_artifact, verify_artifact_fields. change (same_set (artifact_fields a).*1 artifact_keys) with true.
  change (is_text (dict_get "schema_version" (artifact_fields a)) "deletion-key-rotation-artifact-v1") with true.
  cbn [negb orb raise_if mbind result_bind].
  rewrite (required_text_get (artifact_fields a) "ledger_id" id eq_refl Hid).
  rewrite (required_text_get (artifact_fields a) "previous_head_sha256" _ eq_refl (digest_nonempty _ Hph)).
  rewrite (required_text_get (artifact_fields a) "rotated_head_sha256" _ eq_refl (digest_nonempty _ Hh)).
  rewrite (required_text_get (artifact_fields a) "rotation_record_sha256" _ eq_refl (digest_nonempty _ Hrh)).
  rewrite (required_text_get (artifact_fields a) "previous_ledger_key_version" _ eq_refl H1), (required_text_get (artifact_fields a) "current_ledger_key_version" _ eq_refl H2).
  rewrite (required_text_get (artifact_fields a) "previous_restore_key_version" _ eq_refl H3), (required_text_get (artifact_fields a) "current_restore_key_version" _ eq_refl H4).
  change (required_integer (artifact_fields a) "rotation_sequence") with (Ok (kr_sequence r)).
  assert (required_text (artifact_fields a) "rotated_at" = Ok (kr_occurred_at r)) as ->.
  { apply required_text_get; [done|]. rewrite Et. apply isoformat_text. }
  assert (required_text (artifact_fields a) "artifact_sha256" = Ok (artifact_hash a)) as ->.
  { apply required_text_get; [done|]. apply digest_nonempty, sha_digest. }
  cbn [mbind result_bind]. rewrite !digest_len by done. rewrite (proj2 (Z.leb_gt _ 0)) by done.
  cbn [Z.eqb Pos.eqb negb orb raise_if mbind result_bind]. rewrite Et, (aware_isoformat _ Ht). cbn [mbind result_bind].
  rewrite <-Et. match goal with |- context [compare_digest (artifact_hash a) (artifact_hash ?b)] => change (artifact_hash b) with (artifact_hash a) end.
  by rewrite compare_digest_eq by apply sha_digest.
Qed.

(** ** A rotation that completes *)
Lemma append_record_stored lg s t payload d text :
  config_ok lg -> all_stored -> (forall i, nonce_of lg i ∉ ls_nonces s) -> d_stream d = Some text ->
  exists key hkey d', derived_key lg (current_version (lg_keyring lg)) "envelope-encryption" = Ok key
  /\ control_key lg Head (current_version (lg_keyring lg)) = Ok hkey
  /\ let version := current_version (lg_keyring lg) in
     let nonce := token_bytes (d_draws d) 12 in
     let hash := record_hash s t version nonce key payload in
     append_record lg s t payload d = (Ok (hash, advance s hash (version, hex nonce)), d')
     /\ d_stream d' = Some (text +:+ record_line s t version nonce key payload +:+ chr 10)
     /\ d_head d' = Some (signed_document lg Head (head_fields lg (advance s hash (version, hex nonce))) hkey)
     /\ d_active d' = d_active d /\ d_genesis d' = d_genesis d.
Proof.
  intros Hc Ha Hf Hs. destruct (derived_key_ok lg "envelope-encryption" Hc) as [key Hk].
  set (version := current_version (lg_keyring lg)) in *. set (nonce := token_bytes (d_draws d) 12).
  set (hash := record_hash s t version nonce key payload).
  set (d1 := tick 0 1 (put_stream (text +:+ record_line s t version nonce key payload +:+ chr 10) (tick 1 0 d))).
  destruct (write_head_stored lg (advance s hash (version, hex nonce)) d1 Hc (Ha _)) as (hkey & Hhk & Hw).
  exists key, hkey. eexists. split; [done|]. split; [done|]. cbn zeta. fold nonce hash. split.
  - pose proof (unique_nonce_fresh lg s d Hf) as Hun. fold version in Hun.
    unfold append_record, mbind, io_bind. fold version. rewrite Hun. unfold lift. rewrite Hk.
    unfold io_except, append_stream. assert (d_stream (tick 1 0 d) = Some text) as -> by exact Hs. rewrite Ha. cbn [outcome_result stored failed raise_if except].
    change (kept_part stored ?x) with x.
    change (tick 0 1 (put_stream (text +:+ canonical (signed_record (unsigned_record s t version (token_bytes (d_draws d) 12) key payload)) +:+ chr 10) (tick 1 0 d))) with d1.
    change (sha256_hex (canonical (unsigned_record s t version (token_bytes (d_draws d) 12) key payload))) with hash.
    fold nonce. rewrite Hw. reflexivity.
  - done.
Qed.

Lemma rotation_chain_snoc lg rs gv m m' hl hr b r :
  validate_rotation_chain lg rs gv m hl hr b = Ok tt -> Forall (fun r => kr_sequence r <= m) rs -> m <= m' -> kr_sequence r <= m' ->
  kr_previous_ledger_key_version r = hl -> kr_previous_restore_key_version r = hr ->
  validate_rotation_chain lg (rs ++ [r]) gv m' (kr_current_ledger_key_version r) (kr_current_restore_key_version r) false = Ok tt.
Proof.
  intros Hv Hrs Hm Hr El Er. unfold validate_rotation_chain in *. step_ok Hv s Hs. check_ok Hv Hc. apply orb_false_iff in Hc as [Hc1 Hc2].
  apply negb_false_iff, String.eqb_eq in Hc1.
  assert (rs_previous_ledger s = rs_committed_ledger s /\ rs_previous_restore s = rs_committed_restore s) as [E1 E2].
  { revert Hs. rewrite Forall_forall in Hrs.
    apply (foldM_inv _ (fun s => rs_previous_ledger s = rs_committed_ledger s /\ rs_previous_restore s = rs_committed_restore s)); [done|].
    intros x s1 s2 Hx _ H. unfold rotation_step in H. check_ok H Hx'. apply ok_inj in H as <-. cbn.
    by rewrite (proj2 (Z.leb_le _ _) (Hrs _ Hx)). }
  rewrite foldM_app, <-(rotation_fold_eq m m') by done. rewrite Hs. cbn [mbind result_bind foldM].
  unfold rotation_step. rewrite El, Er, E1, E2, Hc1, String.eqb_refl.
  assert (match rs_committed_restore s with Some v => negb (String.eqb hr v) | None => false end = false) as ->.
  { destruct (rs_committed_restore s) as [v|]; [|done]. apply negb_false_iff, String.eqb_eq in Hc2 as ->. by rewrite String.eqb_refl. }
  rewrite (proj2 (Z.leb_le _ _) Hr). cbn [negb orb raise_if mbind result_bind rs_committed_ledger rs_committed_restore].
  rewrite !String.eqb_refl. cbn [negb orb raise_if mbind result_bind]. by repeat case_match.
Qed.

(** The records after a rotation. *)
Definition rotated lg sc (head hash : string) (t : Z) (nonce : string * string) : Scan :=
  {| sc_events := sc_events sc; sc_rotations := sc_rotations sc ++ [rotation_of lg head hash (record_count sc + 1) t];
     sc_nonces := nonce :: sc_nonces sc; sc_hashes := sc_hashes sc ++ [hash] |}.
Lemma rotation_scans lg id sc head t token nonce key :
  config_ok lg -> rotation_ok lg head -> in_calendar t -> String.length token = 16%nat -> String.length nonce = 12%nat ->
  plain_string id = true -> (forall h, last (sc_hashes sc) = Some h -> plain_string h = true) ->
  (current_version (lg_keyring lg), hex nonce) ∉ sc_nonces sc ->
  derived_key lg (current_version (lg_keyring lg)) "envelope-encryption" = Ok key ->
  let s := scan_state id sc in
  let version := current_version (lg_keyring lg) in
  let payload := rotation_payload lg (hex token) head t in
  scan_line lg id sc (record_line s KEY_ROTATION version nonce key payload)
  = Ok (rotated lg sc head (record_hash s KEY_ROTATION version nonce key payload) t (version, hex nonce)).
Proof.
  intros Hc Hrk Ht Htok Hnl Hi Hlast Hfresh Hk s version payload. pose proof (rotation_payload_writable lg token head t Hc Hrk) as Hw.
  pose proof (decode_record_line lg s KEY_ROTATION nonce key payload (sc_nonces sc) Hc Hnl Hk Hw Hi Hlast Hfresh) as E.
  cbn zeta in E. fold version in E. unfold scan_line. unfold s at 2 3 4 in E. cbn [scan_state ls_ledger_id ls_last_sequence ls_last_record_sha256] in E.
  rewrite E. unfold scan_record. cbn [mbind result_bind dr_type dr_payload dr_sequence dr_sha256 dr_key_version dr_nonce].
  assert (NoDup payload.*1) as Hn by solve_keys. rewrite (rotation_read _ _ _ _ Hn).
  pose proof (fun q h => rotation_from_written lg token head t q h Hc Hrk Htok Ht) as ER. fold payload version in ER.
  rewrite ER. reflexivity.
Qed.
Lemma rotated_count lg sc head hash t nonce : record_count (rotated lg sc head hash t nonce) = record_count sc + 1.
Proof. unfold record_count. cbn. rewrite length_app. simpl. lia. Qed.
Lemma rotated_holds lg d d' id sc head t line hash nonce hkey :
  config_ok lg -> Holds lg d id sc (record_count sc) ->
  control_key lg Head (current_version (lg_keyring lg)) = Ok hkey -> printable line = true ->
  scan_line lg id sc line = Ok (rotated lg sc head hash t nonce) ->
  (forall text, d_stream d = Some text -> d_stream d' = Some (text +:+ line +:+ chr 10)) ->
  d_head d' = Some (signed_document lg Head (head_fields lg (advance (scan_state id sc) hash nonce)) hkey) ->
  d_active d' = d_active d -> d_genesis d' = d_genesis d ->
  Holds (committed lg) d' id (rotated lg sc head hash t nonce) (record_count sc + 1).
Proof.
  intros Hc (a & g & h & ls & HS) Hhk Hprint Hscan Hs Hh Ha Hg.
  destruct HS as [Ra Rg _ Hck Hst Hl Hsc Hch Hhd Hrot Hi Hrc]. specialize (Hs _ Hst).
  set (sc' := rotated lg sc head hash t nonce) in *.
  pose proof (rotated_count lg sc head hash t nonce) as Hcount. fold sc' in Hcount.
  assert (head_fields lg (scan_state id sc') = head_fields lg (advance (scan_state id sc) hash nonce)) as Ehead.
  { unfold head_fields. change (ls_last_sequence (scan_state id sc')) with (record_count sc').
    change (ls_last_record_sha256 (scan_state id sc')) with (last (sc_hashes sc ++ [hash])). by rewrite Hcount, last_snoc. }
  rewrite <-Hcount. apply check_controls_ok in Hck as (A1 & (A2 & G1 & _ & G2 & _) & C7 & C8).
  apply check_head_iff in Hhd as (_ & Hb & _ & gv & hl & hr & H4 & H5 & H6 & H7).
  apply (is_text_required _ _ _ _ C7) in H5 as ->. apply (is_text_required _ _ _ _ C8) in H6 as ->.
  apply (sound_commit lg d' a g id (ls ++ [line]) sc' hkey gv);
    [exact Hc| | |exact A1|exact A2|exact G1|exact G2|exact H4| | | |exact Hch|exact Hi|exact Hrc|exact Hhk| | |].
  - by rewrite (read_signed_files lg Active d d').
  - by rewrite (read_signed_files lg Genesis d d').
  - by rewrite stream_text_snoc.
  - apply Forall_app. by rewrite Forall_singleton.
  - by rewrite foldM_app, Hsc; cbn [mbind result_bind foldM]; rewrite Hscan.
  - by rewrite Ehead.
  - rewrite Hcount. cbn [sc' rotated sc_rotations].
    apply (rotation_chain_snoc lg (sc_rotations sc) gv (record_count sc) (record_count sc + 1) _ _ _
             (rotation_of lg head hash (record_count sc + 1) t) H7 Hrot); simpl; done || lia.
  - rewrite Hcount. cbn [sc' rotated sc_rotations]. apply Forall_app. rewrite Forall_singleton. simpl. split; [|lia].
    eapply Forall_impl; [exact Hrot|]. simpl. lia.
Qed.

Lemma required_text_nonempty fs k s : required_text fs k = Ok s -> s <> "".
Proof.
  unfold required_text. destruct (dict_get k fs) as [[| | | |x| |]|]; try done.
  destruct (String.eqb_spec x ""); [done|]. by intros <-%ok_inj.
Qed.
Lemma old_configuration_refused lg d id sc n lg' :
  Holds (committed lg) d id sc n -> same_keys lg lg' -> lg_expected_ledger_key_version lg' <> current_version (lg_keyring lg) ->
  load_state lg' d = Raise (ledger_error "LEDGER_KEY_CONFIGURATION_MISMATCH").
Proof.
  intros (a & g & h & ls & HS) Hk Hne. destruct HS as [Ra Rg Rh Hck _ _ _ _ _ _ _ _].
  assert (same_keys (committed lg) lg') as Hk' by done.
  unfold load_state. rewrite !(read_signed_same (committed lg) lg') by done. rewrite Ra, Rg, Rh. cbn [mbind result_bind].
  apply check_controls_ok in Hck as (A1 & (A2 & G1 & H1 & G2 & H2) & C7 & _). unfold check_controls.
  rewrite A1, A2, G1, H1. cbn [mbind result_bind]. rewrite G2, H2. cbn [negb orb raise_if mbind result_bind].
  apply is_text_inv in C7. rewrite C7. cbn [is_text committed lg_expected_ledger_key_version].
  rewrite (proj2 (String.eqb_neq _ _)); [done|]. intros E. by apply Hne.
Qed.

(** C39: a key rotation that runs to its end commits.  On a ledger with nothing
    to recover and storage that works, it succeeds; the ledger then holds the
    same events with one more rotation record, it is read under the new keys
    and refused under the old configuration, and the artifact returned verifies
    and names the old head and the new record. *)
Theorem rotation_commits lg d id sc headtext t :
  config_ok lg -> rotation_ok lg (sha256_hex headtext) -> Holds lg d id sc (record_count sc) -> d_head d = Some headtext ->
  all_stored -> (forall i, nonce_of lg i ∉ sc_nonces sc) -> in_calendar t ->
  List.find (rotation_matches lg (sha256_hex headtext)) (sc_rotations sc) = None ->
  exists artifact d' sc', rotate lg (sha256_hex headtext) t d = (Ok artifact, d')
  /\ Holds (committed lg) d' id sc' (record_count sc') /\ append_only sc sc' /\ sc_events sc' = sc_events sc
  /\ sc_rotations sc' = sc_rotations sc ++ [rotation_of lg (sha256_hex headtext) (ra_rotation_record_sha256 artifact) (record_count sc + 1) t]
  /\ (forall lg', same_keys lg lg' -> lg_expected_ledger_key_version lg' = lg_expected_ledger_key_version lg ->
      load_state lg' d' = Raise (ledger_error "LEDGER_KEY_CONFIGURATION_MISMATCH"))
  /\ verify_rotation_artifact (artifact_fields artifact) = Ok artifact
  /\ ra_previous_head_sha256 artifact = sha256_hex headtext.
Proof.
  intros Hc Hrk HH Hhead Hst Hfresh Ht Hfind.
  assert (exists text, d_stream d = Some text) as [text Htext] by (destruct HH as (a & g & h & ls & HS); destruct HS; eauto).
  assert (plain_string id = true /\ id <> "") as [Hi Hine].
  { destruct HH as (a & g & h & ls & HS). destruct HS as [_ _ _ Hck _ _ _ _ _ _ Hi _]. split; [done|].
    apply check_controls_ok in Hck as (A1 & _). by apply required_text_nonempty in A1. }
  pose proof (fun h => holds_last lg d id sc (record_count sc) h HH) as Hlast.
  assert (read_state lg true d = (Ok (scan_state id sc), d)) as Hread.
  { unfold read_state, mbind, io_bind, get_disk, lift. rewrite (holds_load _ _ _ _ _ HH). cbn [fst snd].
    change (ls_last_sequence (scan_state id sc)) with (record_count sc). by rewrite Z.ltb_irrefl. }
  set (token := token_bytes (d_draws d) 16). set (payload := rotation_payload lg (hex token) (sha256_hex headtext) t).
  destruct (append_record_stored lg (scan_state id sc) KEY_ROTATION payload (tick 1 0 d) text Hc Hst Hfresh Htext)
    as (key & hkey & d' & Hk & Hhk & Happend & Hs' & Hh' & Ha' & Hg').
  cbn zeta in Happend, Hs', Hh'. set (version := current_version (lg_keyring lg)) in *.
  set (nonce := token_bytes (d_draws (tick 1 0 d)) 12) in *.
  pose proof (token_length (d_draws d) 16) as Htok. fold token in Htok.
  assert (String.length nonce = 12%nat) as Hnl by apply token_length.
  pose proof (rotation_scans lg id sc (sha256_hex headtext) t token nonce key Hc Hrk Ht Htok Hnl Hi Hlast (Hfresh _) Hk) as Hscan.
  cbn zeta in Hscan. fold payload version in Hscan.
  assert (printable (record_line (scan_state id sc) KEY_ROTATION version nonce key payload) = true) as Hprint.
  { apply canonical_printable, signed_record_writable; [done| |done]. by destruct (current_version_ok _ Hc). }
  assert (digest (record_hash (scan_state id sc) KEY_ROTATION version nonce key payload)) as Hdig by apply sha_digest.
  set (line := record_line (scan_state id sc) KEY_ROTATION version nonce key payload) in *.
  set (hash := record_hash (scan_state id sc) KEY_ROTATION version nonce key payload) in *. clearbody line hash.
  set (sc' := rotated lg sc (sha256_hex headtext) hash t (version, hex nonce)).
  assert (Holds (committed lg) d' id sc' (record_count sc + 1)) as HH'.
  { apply (rotated_holds lg d d' id sc (sha256_hex headtext) t line hash (version, hex nonce) hkey); try done.
    intros text' E. rewrite Htext in E. injection E as <-. exact Hs'. }
  pose proof (rotated_count lg sc (sha256_hex headtext) hash t (version, hex nonce)) as Hcount. fold sc' in Hcount.
  rewrite <-Hcount in HH'. set (r := rotation_of lg (sha256_hex headtext) hash (record_count sc + 1) t).
  exists (rotation_artifact id r (sha256_hex (signed_document lg Head (head_fields lg (advance (scan_state id sc) hash (version, hex nonce))) hkey))), d', sc'.
  split_and!.
  - rewrite (rotate_run lg headtext t d _ d Hhead Hread). unfold mbind, io_bind, rotation_record.
    cbn [scan_state ls_rotations]. rewrite Hfind.
    unfold mbind, io_bind, token_hex, mbind, io_bind, draw, mret, io_ret, lift. rewrite (check_in_calendar _ Ht).
    fold token payload. rewrite Happend. cbn [fst].
    assert (rotation_from_payload payload (ls_last_sequence (scan_state id sc) + 1) hash (current_version (lg_keyring lg)) = Ok r) as ->
      by (by apply rotation_from_written).
    eapply confirm_run; [exact HH'|apply elem_of_app; right; by left|exact Hh'].
  - done.
  - by eexists.
  - done.
  - done.
  - intros lg' Hkeys Eold. eapply old_configuration_refused; [exact HH'|done|]. rewrite Eold. apply (rk_ledger _ _ Hrk).
  - destruct (current_version_ok _ Hc) as (_ & Hv & _), (co_restore _ Hc) as [_ Hrs], Hrk as [_ (_ & Hl & _) (_ & Hr & _)].
    pose proof (holds_count _ _ _ _ _ HH) as Hb.
    apply verify_written_artifact; try done; [apply sha_digest|apply sha_digest|simpl; lia|]. by exists t.
  - done.
Qed.
End Rotation.

(** ** Examples *)
Section Examples.
Let sound : nat -> bool := fun _ => false.
(** The head of the first record and the record of the rotation fail. *)
Let flaky : nat -> bool := fun i => Nat.eqb i 6 || Nat.eqb i 8.

Lemma staged_config : config_ok staged_ledger.
Proof. apply toy_config; solve_keys. Qed.
Lemma rotation_commits_witness :
  exists id headtext, toy_holds staged_ledger (new_disk sound) id empty_scan 0 /\ d_head (new_disk sound) = Some headtext
  /\ exists artifact d' sc', rotate (PF := toy_platform sound) (CR := toy_crypto) (SH := toy_sha) (JL := no_loads) (IF := no_iso)
       (LB := no_b64) staged_ledger (toy_sha headtext) 0 (new_disk sound) = (Ok artifact, d')
     /\ toy_holds (committed staged_ledger) d' id sc' (record_count sc').
Proof.
  destruct (new_disk_holds sound eq_refl) as [id HH]. apply (holds_same _ staged_ledger) in HH; [|done..].
  assert (exists headtext, d_head (new_disk sound) = Some headtext) as [headtext Hh] by (eexists; reflexivity).
  exists id, headtext. split; [exact HH|]. split; [exact Hh|].
  assert (rotation_ok staged_ledger (toy_sha headtext)) as Hrk.
  { split; [|by vm_compute|by vm_compute]. destruct (toy_digest_ok (checksum headtext)) as [Hp Hl].
    split; [exact Hp|]. split; [by apply digest_len|]. destruct (low_digits_hex 32 (checksum headtext)) as [b Hb].
    exists (bytes_string b). unfold fromhex, toy_sha, toy_digest. change 64%nat with (32 + 32)%nat. by rewrite Hb. }
  destruct (rotation_commits (LL := toy_laws sound) staged_ledger (new_disk sound) id empty_scan headtext 0 staged_config Hrk HH Hh)
    as (artifact & d' & sc' & H1 & H2 & _); [done|intros i; apply not_elem_of_nil|apply epoch_ok|done|].
  exists artifact, d', sc'. split; [exact H1|exact H2].
Defined.

(** A ledger with one record after the head, from any new ledger. *)
Lemma uncommitted_tail d0 id headtext :
  toy_holds old_ledger d0 id empty_scan 0 -> d_stream d0 = Some "" -> d_writes d0 = 5%nat -> d_head d0 = Some headtext ->
  exists d sc, toy_holds staged_ledger d id sc 0 /\ record_count sc = 1 /\ sc_rotations sc = []
  /\ (forall i, @nonce_of (toy_platform flaky) staged_ledger i ∉ sc_nonces sc) /\ d_writes d = 7%nat /\ d_head d = Some headtext.
Proof.
  intros HH Hs0 Hw0 Hh. destruct old_config as [Hc Hs].
  pose proof (audit_wp (JL := no_loads) (IF := no_iso) (LB := no_b64) (LL := toy_laws flaky) old_ledger 0 d0 id
    empty_scan 0 "VALIDATE" Hc Hs (toy_whole flaky) epoch_ok ltac:(solve_keys) HH) as W.
  destruct (audit_head_fails (PF := toy_platform flaky) (CR := toy_crypto) (SH := toy_sha) old_ledger 0 (scan_state id empty_scan)
    "VALIDATE" d0 "" Hc (fun i => not_elem_of_nil _) Hs0 ltac:(by rewrite Hw0) ltac:(by rewrite Hw0))
    as (e & d & line & E & Hf & Hstream & Hwrites).
  unfold wp in W. rewrite E in W. destruct W as (sc & n & H1 & Hsc & _). exists d.
  assert (d_stream d <> Some "") as Hne by (rewrite Hstream; by destruct line).
  destruct Hsc as [->|(hash & k & ->)].
  { exfalso. destruct H1 as (a & g & h & ls & HS). pose proof (scan_length _ _ _ _ (so_scan _ _ _ _ _ _ _ _ _ HS)) as Hl.
    destruct ls; [|done]. apply Hne. exact (so_stream _ _ _ _ _ _ _ _ _ HS). }
  assert (n = 0) as ->.
  { destruct HH as (a0 & g0 & h0 & ls0 & HS0), H1 as (a & g & h & ls & HS). destruct HS0 as [_ _ R0 _ _ _ _ _ C0 _ _ _], HS as [_ _ R _ _ _ _ _ C _ _ _].
    rewrite (read_signed_files _ _ _ _ (Hf Head)), R0 in R. apply ok_inj in R as <-.
    apply check_head_iff in C0 as (N0 & _), C as (N & _). congruence. }
  exists (grow empty_scan [] hash (@nonce_of (toy_platform flaky) old_ledger k)).
  split; [by apply (holds_same old_ledger)|]. split; [done|]. split; [done|]. split.
  - intros i Hi. cbn in Hi. apply list_elem_of_singleton in Hi. discriminate (f_equal fst Hi).
  - split; [by rewrite Hwrites, Hw0|]. change (control_file Head d = Some headtext). rewrite (Hf Head). exact Hh.
Qed.
Lemma new_disk_writes : d_writes (new_disk flaky) = 5%nat /\ d_stream (new_disk flaky) = Some "".
Proof. split; vm_compute; reflexivity. Qed.
Lemma uncommitted_record :
  exists d id sc headtext, toy_holds staged_ledger d id sc 0 /\ record_count sc = 1 /\ sc_rotations sc = []
  /\ (forall i, @nonce_of (toy_platform flaky) staged_ledger i ∉ sc_nonces sc) /\ d_writes d = 7%nat /\ d_head d = Some headtext.
Proof.
  destruct (new_disk_holds flaky eq_refl) as [id HH], new_disk_writes as [Hw Hs].
  assert (exists headtext, d_head (new_disk flaky) = Some headtext) as [headtext Hh] by (eexists; reflexivity).
  revert HH Hw Hs Hh. generalize (new_disk flaky). intros d0 HH Hw Hs Hh.
  destruct (uncommitted_tail d0 id headtext HH Hs Hw Hh) as (d & sc & H). by exists d, id, sc, headtext.
Qed.
Lemma interrupted_rotation_locks_ledger_witness :
  exists d headtext d', rotate (PF := toy_platform flaky) (CR := toy_crypto) (SH := toy_sha) (JL := no_loads) (IF := no_iso)
      (LB := no_b64) staged_ledger (toy_sha headtext) 0 d = (Raise (ledger_error "LEDGER_APPEND_FAILED"), d')
  /\ exists e, load_state (CR := toy_crypto) (SH := toy_sha) (JL := no_loads) (IF := no_iso) (LB := no_b64) old_ledger d' = Raise e.
Proof.
  destruct uncommitted_record as (d & id & sc & headtext & HH & Hcount & Hrot & Hfresh & Hw & Hh). exists d, headtext.
  destruct (interrupted_rotation_locks_ledger (JL := no_loads) (IF := no_iso) (LB := no_b64) (LL := toy_laws flaky) staged_ledger d id sc 0 headtext 0 staged_config ltac:(intros E; discriminate E)
    HH ltac:(rewrite Hcount; done) Hrot Hh epoch_ok Hfresh ltac:(rewrite Hw; done) ltac:(rewrite Hw; done)) as (d' & H1 & H2).
  exists d'. split; [exact H1|]. by apply H2.
Defined.
End Examples.
