(* ===== verification/DeletionStore.v ===== *)
(** * DeletionStore: the tables of the deletion service (persistence/models.py)

    Rows as in [Database]: a table is the list of its rows, a column with a
    check constraint an inductive type.  Adding a row raises [IntegrityError]
    when a unique constraint of the table fails.  The rows that hang off an
    account, an import or a profile are an [Archive]; deleting a parent row
    deletes the rows whose foreign key says [ON DELETE CASCADE]. *)

From S2P Require Import Prelude Calendar Json Deletion Database.

(** ** Rows of an account *)
Record RawObjectRecord := {
  raw_id : string; raw_owner_user_id : string; raw_import_id : string; raw_object_key : string;
  raw_object_content_hash : string; raw_size_bytes : Z; raw_state : string; raw_created_at : Z; raw_expires_at : Z;
  raw_deleted_at : option Z
}.
#[export] Instance RawObjectRecord_row : Row RawObjectRecord := raw_id.
Record OperationRequestRecord := {
  or_id : string; or_owner_user_id : string; or_route_id : string; or_idempotency_key : string;
  or_request_schema_version : string; or_canonical_payload_hash : string; or_operation_id : string; or_created_at : Z;
  or_expires_at : Z
}.
#[export] Instance OperationRequestRecord_row : Row OperationRequestRecord := or_id.
Record ImportReadingRecord := {
  rd_id : string; rd_import_id : string; rd_start_utc_ns : Z; rd_duration_seconds : Z; rd_energy_wh : Z;
  rd_flow_direction : string; rd_source_unit : string; rd_source_multiplier : Z; rd_source_reading_type : string;
  rd_source_service_category : string; rd_source_commodity : string; rd_source_accumulation_behavior : string;
  rd_source_data_qualifier : string; rd_source_time_attribute : string;
  rd_source_local_time_parameters_hash : option string; rd_source_timezone_offset_seconds : option Z;
  rd_source_dst_offset_seconds : option Z; rd_quality_flags_json : string
}.
#[export] Instance ImportReadingRecord_row : Row ImportReadingRecord := rd_id.
Record ImportFindingRecord := {
  fd_id : string; fd_import_id : string; fd_code : string; fd_severity : string; fd_field_path : string;
  fd_safe_value : string; fd_warning_id : option string
}.
#[export] Instance ImportFindingRecord_row : Row ImportFindingRecord := fd_id.

Inductive UploadState := UP_REGISTERED | UP_STAGED | UP_ACCEPTED | UP_DELETE_PENDING | UP_DELETED.
#[export] Instance UploadState_eq_dec : EqDecision UploadState.
Proof. solve_decision. Defined.
Definition upload_state_str (s : UploadState) : string :=
  match s with
  | UP_REGISTERED => "REGISTERED" | UP_STAGED => "STAGED" | UP_ACCEPTED => "ACCEPTED"
  | UP_DELETE_PENDING => "DELETE_PENDING" | UP_DELETED => "DELETED"
  end.
Record ObjectUploadRegistrationRecord := {
  ul_id : string; ul_owner_user_id : string; ul_job_id : string; ul_attempt_number : Z; ul_fencing_generation : Z;
  ul_artifact_class : string; ul_object_key : string; ul_upload_identifier : string; ul_state : UploadState;
  ul_content_hash : option string; ul_size_bytes : option Z; ul_created_at : Z; ul_updated_at : Z;
  ul_accepted_at : option Z; ul_deleted_at : option Z
}.
#[export] Instance ObjectUploadRegistrationRecord_row : Row ObjectUploadRegistrationRecord := ul_id.
Record JobResultClaimRecord := {
  jc_id : string; jc_owner_user_id : string; jc_job_kind : string; jc_semantic_hash : string;
  jc_calculation_contract_version : string; jc_result_type : string; jc_result_id : string; jc_accepted_job_id : string;
  jc_created_at : Z
}.
#[export] Instance JobResultClaimRecord_row : Row JobResultClaimRecord := jc_id.
Record ReplayResultRecord := {
  rp_id : string; rp_owner_user_id : string; rp_profile_version_id : string; rp_job_id : string;
  rp_tariff_version_id : string; rp_operation_request_hash : string; rp_semantic_hash : string; rp_result_hash : string;
  rp_result_json : string; rp_lifecycle_state : string; rp_lifecycle_generation : Z; rp_created_at : Z
}.
#[export] Instance ReplayResultRecord_row : Row ReplayResultRecord := rp_id.
Record ScenarioRecord := {
  sn_id : string; sn_owner_user_id : string; sn_profile_version_id : string; sn_job_id : string;
  sn_tariff_version_id : string; sn_operation_request_hash : string; sn_input_hash : string; sn_input_json : string;
  sn_state : string; sn_lifecycle_state : string; sn_lifecycle_generation : Z; sn_created_at : Z;
  sn_completed_at : option Z
}.
#[export] Instance ScenarioRecord_row : Row ScenarioRecord := sn_id.
Record ScenarioLoadRecord := {
  sl_id : string; sl_scenario_id : string; sl_load_id : string; sl_physical_asset_key : string; sl_kind : string;
  sl_mode : string; sl_execution_spec_json : string
}.
#[export] Instance ScenarioLoadRecord_row : Row ScenarioLoadRecord := sl_id.
Record ScenarioReferenceScheduleRecord := {
  ss_id : string; ss_scenario_load_id : string; ss_occurrence_id : string; ss_required_energy_wh : Z;
  ss_earliest_start_utc : Z; ss_deadline_utc : Z; ss_schedule_hash : string; ss_schedule_json : string
}.
#[export] Instance ScenarioReferenceScheduleRecord_row : Row ScenarioReferenceScheduleRecord := ss_id.
Record ScenarioResultRecord := {
  sr_id : string; sr_owner_user_id : string; sr_scenario_id : string; sr_profile_version_id : string; sr_job_id : string;
  sr_operation_request_hash : string; sr_semantic_hash : string; sr_result_hash : string; sr_result_json : string;
  sr_lifecycle_state : string; sr_lifecycle_generation : Z; sr_created_at : Z
}.
#[export] Instance ScenarioResultRecord_row : Row ScenarioResultRecord := sr_id.
Record CalculationManifestRecord := {
  cm_id : string; cm_replay_id : option string; cm_scenario_result_id : option string; cm_calculation_hash : string;
  cm_manifest_json : string; cm_created_at : Z
}.
#[export] Instance CalculationManifestRecord_row : Row CalculationManifestRecord := cm_id.
Record ComparisonResultRecord := {
  cr_id : string; cr_owner_user_id : string; cr_profile_version_id : string; cr_current_replay_id : string;
  cr_job_id : string; cr_operation_request_hash : string; cr_semantic_hash : string; cr_result_hash : string;
  cr_result_json : string; cr_lifecycle_state : string; cr_lifecycle_generation : Z; cr_created_at : Z
}.
#[export] Instance ComparisonResultRecord_row : Row ComparisonResultRecord := cr_id.
Record ReportExportRecord := {
  rx_id : string; rx_owner_user_id : string; rx_scenario_id : string; rx_scenario_result_id : string;
  rx_profile_version_id : string; rx_job_id : string; rx_semantic_hash : string; rx_report_hash : string;
  rx_redaction_policy_version : string; rx_report_template_version : string; rx_content_json : string;
  rx_object_key : string; rx_lifecycle_state : string; rx_lifecycle_generation : Z; rx_created_at : Z
}.
#[export] Instance ReportExportRecord_row : Row ReportExportRecord := rx_id.
Inductive FenceKind := FK_JOB_ATTEMPT | FK_UPLOAD.
#[export] Instance FenceKind_eq_dec : EqDecision FenceKind.
Proof. solve_decision. Defined.
Record DeletionFenceTargetRecord := {
  ft_id : string; ft_deletion_id : string; ft_target_kind : FenceKind; ft_target_id : string; ft_observed_generation : Z;
  ft_observed_state : string; ft_created_at : Z; ft_resolved_at : option Z
}.
#[export] Instance DeletionFenceTargetRecord_row : Row DeletionFenceTargetRecord := ft_id.

(** ** The tables *)
Record Archive := {
  ar_raw_objects : list RawObjectRecord;
  ar_operations : list OperationRequestRecord;
  ar_readings : list ImportReadingRecord;
  ar_findings : list ImportFindingRecord;
  ar_uploads : list ObjectUploadRegistrationRecord;
  ar_claims : list JobResultClaimRecord;
  ar_replays : list ReplayResultRecord;
  ar_scenarios : list ScenarioRecord;
  ar_loads : list ScenarioLoadRecord;
  ar_schedules : list ScenarioReferenceScheduleRecord;
  ar_results : list ScenarioResultRecord;
  ar_manifests : list CalculationManifestRecord;
  ar_comparisons : list ComparisonResultRecord;
  ar_reports : list ReportExportRecord;
  ar_fences : list DeletionFenceTargetRecord
}.
Definition empty_archive : Archive :=
  {| ar_raw_objects := []; ar_operations := []; ar_readings := []; ar_findings := []; ar_uploads := []; ar_claims := [];
     ar_replays := []; ar_scenarios := []; ar_loads := []; ar_schedules := []; ar_results := []; ar_manifests := [];
     ar_comparisons := []; ar_reports := []; ar_fences := [] |}.
Definition set_raw_objects (l : list RawObjectRecord) (a : Archive) : Archive :=
  {| ar_raw_objects := l; ar_operations := ar_operations a; ar_readings := ar_readings a;
     ar_findings := ar_findings a; ar_uploads := ar_uploads a; ar_claims := ar_claims a; ar_replays := ar_replays a;
     ar_scenarios := ar_scenarios a; ar_loads := ar_loads a; ar_schedules := ar_schedules a;
     ar_results := ar_results a; ar_manifests := ar_manifests a; ar_comparisons := ar_comparisons a;
     ar_reports := ar_reports a; ar_fences := ar_fences a |}.
Definition set_operations (l : list OperationRequestRecord) (a : Archive) : Archive :=
  {| ar_raw_objects := ar_raw_objects a; ar_operations := l; ar_readings := ar_readings a;
     ar_findings := ar_findings a; ar_uploads := ar_uploads a; ar_claims := ar_claims a; ar_replays := ar_replays a;
     ar_scenarios := ar_scenarios a; ar_loads := ar_loads a; ar_schedules := ar_schedules a;
     ar_results := ar_results a; ar_manifests := ar_manifests a; ar_comparisons := ar_comparisons a;
     ar_reports := ar_reports a; ar_fences := ar_fences a |}.
Definition set_readings (l : list ImportReadingRecord) (a : Archive) : Archive :=
  {| ar_raw_objects := ar_raw_objects a; ar_operations := ar_operations a; ar_readings := l;
     ar_findings := ar_findings a; ar_uploads := ar_uploads a; ar_claims := ar_claims a; ar_replays := ar_replays a;
     ar_scenarios := ar_scenarios a; ar_loads := ar_loads a; ar_schedules := ar_schedules a;
     ar_results := ar_results a; ar_manifests := ar_manifests a; ar_comparisons := ar_comparisons a;
     ar_reports := ar_reports a; ar_fences := ar_fences a |}.
Definition set_findings (l : list ImportFindingRecord) (a : Archive) : Archive :=
  {| ar_raw_objects := ar_raw_objects a; ar_operations := ar_operations a; ar_readings := ar_readings a;
     ar_findings := l; ar_uploads := ar_uploads a; ar_claims := ar_claims a; ar_replays := ar_replays a;
     ar_scenarios := ar_scenarios a; ar_loads := ar_loads a; ar_schedules := ar_schedules a;
     ar_results := ar_results a; ar_manifests := ar_manifests a; ar_comparisons := ar_comparisons a;
     ar_reports := ar_reports a; ar_fences := ar_fences a |}.
Definition set_uploads (l : list ObjectUploadRegistrationRecord) (a : Archive) : Archive :=
  {| ar_raw_objects := ar_raw_objects a; ar_operations := ar_operations a; ar_readings := ar_readings a;
     ar_findings := ar_findings a; ar_uploads := l; ar_claims := ar_claims a; ar_replays := ar_replays a;
     ar_scenarios := ar_scenarios a; ar_loads := ar_loads a; ar_schedules := ar_schedules a;
     ar_results := ar_results a; ar_manifests := ar_manifests a; ar_comparisons := ar_comparisons a;
     ar_reports := ar_reports a; ar_fences := ar_fences a |}.
Definition set_claims (l : list JobResultClaimRecord) (a : Archive) : Archive :=
  {| ar_raw_objects := ar_raw_objects a; ar_operations := ar_operations a; ar_readings := ar_readings a;
     ar_findings := ar_findings a; ar_uploads := ar_uploads a; ar_claims := l; ar_replays := ar_replays a;
     ar_scenarios := ar_scenarios a; ar_loads := ar_loads a; ar_schedules := ar_schedules a;
     ar_results := ar_results a; ar_manifests := ar_manifests a; ar_comparisons := ar_comparisons a;
     ar_reports := ar_reports a; ar_fences := ar_fences a |}.
Definition set_replays (l : list ReplayResultRecord) (a : Archive) : Archive :=
  {| ar_raw_objects := ar_raw_objects a; ar_operations := ar_operations a; ar_readings := ar_readings a;
     ar_findings := ar_findings a; ar_uploads := ar_uploads a; ar_claims := ar_claims a; ar_replays := l;
     ar_scenarios := ar_scenarios a; ar_loads := ar_loads a; ar_schedules := ar_schedules a;
     ar_results := ar_results a; ar_manifests := ar_manifests a; ar_comparisons := ar_comparisons a;
     ar_reports := ar_reports a; ar_fences := ar_fences a |}.
Definition set_scenarios (l : list ScenarioRecord) (a : Archive) : Archive :=
  {| ar_raw_objects := ar_raw_objects a; ar_operations := ar_operations a; ar_readings := ar_readings a;
     ar_findings := ar_findings a; ar_uploads := ar_uploads a; ar_claims := ar_claims a; ar_replays := ar_replays a;
     ar_scenarios := l; ar_loads := ar_loads a; ar_schedules := ar_schedules a; ar_results := ar_results a;
     ar_manifests := ar_manifests a; ar_comparisons := ar_comparisons a; ar_reports := ar_reports a;
     ar_fences := ar_fences a |}.
Definition set_loads (l : list ScenarioLoadRecord) (a : Archive) : Archive :=
  {| ar_raw_objects := ar_raw_objects a; ar_operations := ar_operations a; ar_readings := ar_readings a;
     ar_findings := ar_findings a; ar_uploads := ar_uploads a; ar_claims := ar_claims a; ar_replays := ar_replays a;
     ar_scenarios := ar_scenarios a; ar_loads := l; ar_schedules := ar_schedules a; ar_results := ar_results a;
     ar_manifests := ar_manifests a; ar_comparisons := ar_comparisons a; ar_reports := ar_reports a;
     ar_fences := ar_fences a |}.
Definition set_schedules (l : list ScenarioReferenceScheduleRecord) (a : Archive) : Archive :=
  {| ar_raw_objects := ar_raw_objects a; ar_operations := ar_operations a; ar_readings := ar_readings a;
     ar_findings := ar_findings a; ar_uploads := ar_uploads a; ar_claims := ar_claims a; ar_replays := ar_replays a;
     ar_scenarios := ar_scenarios a; ar_loads := ar_loads a; ar_schedules := l; ar_results := ar_results a;
     ar_manifests := ar_manifests a; ar_comparisons := ar_comparisons a; ar_reports := ar_reports a;
     ar_fences := ar_fences a |}.
Definition set_results (l : list ScenarioResultRecord) (a : Archive) : Archive :=
  {| ar_raw_objects := ar_raw_objects a; ar_operations := ar_operations a; ar_readings := ar_readings a;
     ar_findings := ar_findings a; ar_uploads := ar_uploads a; ar_claims := ar_claims a; ar_replays := ar_replays a;
     ar_scenarios := ar_scenarios a; ar_loads := ar_loads a; ar_schedules := ar_schedules a; ar_results := l;
     ar_manifests := ar_manifests a; ar_comparisons := ar_comparisons a; ar_reports := ar_reports a;
     ar_fences := ar_fences a |}.
Definition set_manifests (l : list CalculationManifestRecord) (a : Archive) : Archive :=
  {| ar_raw_objects := ar_raw_objects a; ar_operations := ar_operations a; ar_readings := ar_readings a;
     ar_findings := ar_findings a; ar_uploads := ar_uploads a; ar_claims := ar_claims a; ar_replays := ar_replays a;
     ar_scenarios := ar_scenarios a; ar_loads := ar_loads a; ar_schedules := ar_schedules a;
     ar_results := ar_results a; ar_manifests := l; ar_comparisons := ar_comparisons a; ar_reports := ar_reports a;
     ar_fences := ar_fences a |}.
Definition set_comparisons (l : list ComparisonResultRecord) (a : Archive) : Archive :=
  {| ar_raw_objects := ar_raw_objects a; ar_operations := ar_operations a; ar_readings := ar_readings a;
     ar_findings := ar_findings a; ar_uploads := ar_uploads a; ar_claims := ar_claims a; ar_replays := ar_replays a;
     ar_scenarios := ar_scenarios a; ar_loads := ar_loads a; ar_schedules := ar_schedules a;
     ar_results := ar_results a; ar_manifests := ar_manifests a; ar_comparisons := l; ar_reports := ar_reports a;
     ar_fences := ar_fences a |}.
Definition set_reports (l : list ReportExportRecord) (a : Archive) : Archive :=
  {| ar_raw_objects := ar_raw_objects a; ar_operations := ar_operations a; ar_readings := ar_readings a;
     ar_findings := ar_findings a; ar_uploads := ar_uploads a; ar_claims := ar_claims a; ar_replays := ar_replays a;
     ar_scenarios := ar_scenarios a; ar_loads := ar_loads a; ar_schedules := ar_schedules a;
     ar_results := ar_results a; ar_manifests := ar_manifests a; ar_comparisons := ar_comparisons a;
     ar_reports := l; ar_fences := ar_fences a |}.
Definition set_fences (l : list DeletionFenceTargetRecord) (a : Archive) : Archive :=
  {| ar_raw_objects := ar_raw_objects a; ar_operations := ar_operations a; ar_readings := ar_readings a;
     ar_findings := ar_findings a; ar_uploads := ar_uploads a; ar_claims := ar_claims a; ar_replays := ar_replays a;
     ar_scenarios := ar_scenarios a; ar_loads := ar_loads a; ar_schedules := ar_schedules a;
     ar_results := ar_results a; ar_manifests := ar_manifests a; ar_comparisons := ar_comparisons a;
     ar_reports := ar_reports a; ar_fences := l |}.

(** ** Deleting *)
(** [select(Record.id).where(p)]. *)
Definition ids {A} `{Row A} (p : A -> bool) (t : list A) : list string := row_id <$> List.filter p t.
(** [column.in_(values)]; a [NULL] is in no list. *)
Definition in_list (values : list string) (v : string) : bool := mem v values.
Definition in_list_opt (values : list string) (v : option string) : bool :=
  match v with Some v => mem v values | None => false end.

Definition delete_raw_objects (p : RawObjectRecord -> bool) (a : Archive) : Archive :=
  set_raw_objects (table_delete p (ar_raw_objects a)) a.
Definition delete_operations (p : OperationRequestRecord -> bool) (a : Archive) : Archive :=
  set_operations (table_delete p (ar_operations a)) a.
Definition delete_readings (p : ImportReadingRecord -> bool) (a : Archive) : Archive :=
  set_readings (table_delete p (ar_readings a)) a.
Definition delete_findings (p : ImportFindingRecord -> bool) (a : Archive) : Archive :=
  set_findings (table_delete p (ar_findings a)) a.
Definition delete_uploads (p : ObjectUploadRegistrationRecord -> bool) (a : Archive) : Archive :=
  set_uploads (table_delete p (ar_uploads a)) a.
Definition delete_claims (p : JobResultClaimRecord -> bool) (a : Archive) : Archive :=
  set_claims (table_delete p (ar_claims a)) a.
Definition delete_manifests (p : CalculationManifestRecord -> bool) (a : Archive) : Archive :=
  set_manifests (table_delete p (ar_manifests a)) a.
Definition delete_comparisons (p : ComparisonResultRecord -> bool) (a : Archive) : Archive :=
  set_comparisons (table_delete p (ar_comparisons a)) a.
Definition delete_reports (p : ReportExportRecord -> bool) (a : Archive) : Archive :=
  set_reports (table_delete p (ar_reports a)) a.
Definition delete_schedules (p : ScenarioReferenceScheduleRecord -> bool) (a : Archive) : Archive :=
  set_schedules (table_delete p (ar_schedules a)) a.
Definition delete_fences (p : DeletionFenceTargetRecord -> bool) (a : Archive) : Archive :=
  set_fences (table_delete p (ar_fences a)) a.
(** The rows that cascade. *)
Definition delete_loads (p : ScenarioLoadRecord -> bool) (a : Archive) : Archive :=
  let gone := ids p (ar_loads a) in
  set_loads (table_delete p (ar_loads a)) (delete_schedules (fun r => in_list gone (ss_scenario_load_id r)) a).
Definition delete_scenarios (p : ScenarioRecord -> bool) (a : Archive) : Archive :=
  let gone := ids p (ar_scenarios a) in
  set_scenarios (table_delete p (ar_scenarios a)) (delete_loads (fun r => in_list gone (sl_scenario_id r)) a).
Definition delete_replays (p : ReplayResultRecord -> bool) (a : Archive) : Archive :=
  let gone := ids p (ar_replays a) in
  set_replays (table_delete p (ar_replays a)) (delete_manifests (fun r => in_list_opt gone (cm_replay_id r)) a).
Definition delete_results (p : ScenarioResultRecord -> bool) (a : Archive) : Archive :=
  let gone := ids p (ar_results a) in
  set_results (table_delete p (ar_results a)) (delete_manifests (fun r => in_list_opt gone (cm_scenario_result_id r)) a).
(** What a deleted import takes with it. *)
Definition cascade_imports (gone : list string) (a : Archive) : Archive :=
  delete_findings (fun r => in_list gone (fd_import_id r))
    (delete_readings (fun r => in_list gone (rd_import_id r))
      (delete_raw_objects (fun r => in_list gone (raw_import_id r)) a)).

(** ** Rows of a deletion *)
Inductive TargetKind := ACCOUNT | IMPORT | PROFILE.
#[export] Instance TargetKind_eq_dec : EqDecision TargetKind.
Proof. solve_decision. Defined.
Definition kind_str (k : TargetKind) : string :=
  match k with ACCOUNT => "ACCOUNT" | IMPORT => "IMPORT" | PROFILE => "PROFILE" end.

Record SessionRecord := {
  ses_id : string; ses_user_id : string; ses_token_hash : string; ses_csrf_hash : string;
  ses_created_at : Z; ses_last_seen_at : Z; ses_idle_expires_at : Z; ses_absolute_expires_at : Z;
  ses_revoked_at : option Z
}.
#[export] Instance SessionRecord_row : Row SessionRecord := ses_id.

Inductive IntentState := DI_INTENT_CREATED | DI_PREPARED | DI_CONSUMED | DI_INVALIDATED.
#[export] Instance IntentState_eq_dec : EqDecision IntentState.
Proof. solve_decision. Defined.

Record DeletionIntentRecord := {
  di_deletion_id : string;
  di_owner_user_id : string;
  di_idempotency_key : string;
  di_request_schema_version : string;
  di_canonical_payload_hash : string;
  di_receipt_digest : string;
  di_target_kind : TargetKind;
  di_target_scope_id : string;
  di_original_generation : Z;
  di_proposed_generation : Z;
  di_state : IntentState;
  di_preparation_digest : option string;
  di_preparation_receipt : option string;
  di_created_at : Z;
  di_expires_at : Z;
  di_prepared_at : option Z;
  di_consumed_at : option Z;
  di_invalidated_at : option Z
}.
#[export] Instance DeletionIntentRecord_row : Row DeletionIntentRecord := di_deletion_id.

Inductive ReceiptStatus :=
| RS_INTENT_CREATED | RS_PREPARED | RS_DELETION_PENDING_LEDGER | RS_DELETING | RS_DRAIN | RS_SWEEP | RS_VERIFY
| RS_COMPLETE | RS_DELETED | RS_ABORTED.
#[export] Instance ReceiptStatus_eq_dec : EqDecision ReceiptStatus.
Proof. solve_decision. Defined.

Record DeletionReceiptRecord := {
  rc_deletion_id : string;
  rc_receipt_verifier : string;
  rc_status : ReceiptStatus;
  rc_artifact_counts_json : string;
  rc_created_at : Z;
  rc_completed_at : option Z;
  rc_verifier_expires_at : option Z
}.
#[export] Instance DeletionReceiptRecord_row : Row DeletionReceiptRecord := rc_deletion_id.

Inductive ControlPhase := CP_FENCE | CP_REQUESTED | CP_DRAIN | CP_SWEEP | CP_VERIFY | CP_COMPLETE.
#[export] Instance ControlPhase_eq_dec : EqDecision ControlPhase.
Proof. solve_decision. Defined.
Definition control_phase_str (p : ControlPhase) : string :=
  match p with
  | CP_FENCE => "FENCE" | CP_REQUESTED => "REQUESTED" | CP_DRAIN => "DRAIN" | CP_SWEEP => "SWEEP"
  | CP_VERIFY => "VERIFY" | CP_COMPLETE => "COMPLETE"
  end.

Record DeletionControlOperationRecord := {
  dc_deletion_id : string;
  dc_target_kind : TargetKind;
  dc_target_scope_id : string;
  dc_scope_token : string;
  dc_restore_key_version : string;
  dc_original_generation : Z;
  dc_deletion_generation : Z;
  dc_preparation_digest : string;
  dc_intent_proof_digest : string;
  dc_phase : ControlPhase;
  dc_deletion_job_id : option string;
  dc_artifact_counts_json : string;
  dc_created_at : Z;
  dc_updated_at : Z
}.
#[export] Instance DeletionControlOperationRecord_row : Row DeletionControlOperationRecord := dc_deletion_id.

Record DeletionLedgerReceiptRecord := {
  lr_id : string;
  lr_deletion_id : string;
  lr_phase : LedgerPhase;
  lr_canonical_digest : string;
  lr_integrity_receipt : string;
  lr_acknowledged_at : Z
}.
#[export] Instance DeletionLedgerReceiptRecord_row : Row DeletionLedgerReceiptRecord := lr_id.

Record DeletionAuditRecord := {
  da_deletion_id : string;
  da_target_kind : TargetKind;
  da_receipt_verifier : option string;
  da_verifier_expires_at : Z;
  da_scope_token : string;
  da_restore_key_version : string;
  da_deletion_generation : Z;
  da_completed_at : Z;
  da_artifact_counts_json : string;
  da_status : string;
  da_status_code : string
}.
#[export] Instance DeletionAuditRecord_row : Row DeletionAuditRecord := da_deletion_id.

(** ** The tables *)
Record Store := {
  st_base : Database;
  st_sessions : list SessionRecord;
  st_intents : list DeletionIntentRecord;
  st_receipts : list DeletionReceiptRecord;
  st_controls : list DeletionControlOperationRecord;
  st_ledger_receipts : list DeletionLedgerReceiptRecord;
  st_audits : list DeletionAuditRecord;
  st_archive : Archive
}.
Definition set_base (b : Database) (s : Store) : Store :=
  {| st_base := b; st_sessions := st_sessions s; st_intents := st_intents s; st_receipts := st_receipts s;
     st_controls := st_controls s; st_ledger_receipts := st_ledger_receipts s; st_audits := st_audits s;
     st_archive := st_archive s |}.
Definition set_sessions (l : list SessionRecord) (s : Store) : Store :=
  {| st_base := st_base s; st_sessions := l; st_intents := st_intents s; st_receipts := st_receipts s;
     st_controls := st_controls s; st_ledger_receipts := st_ledger_receipts s; st_audits := st_audits s;
     st_archive := st_archive s |}.
Definition set_intents (l : list DeletionIntentRecord) (s : Store) : Store :=
  {| st_base := st_base s; st_sessions := st_sessions s; st_intents := l; st_receipts := st_receipts s;
     st_controls := st_controls s; st_ledger_receipts := st_ledger_receipts s; st_audits := st_audits s;
     st_archive := st_archive s |}.
Definition set_receipts (l : list DeletionReceiptRecord) (s : Store) : Store :=
  {| st_base := st_base s; st_sessions := st_sessions s; st_intents := st_intents s; st_receipts := l;
     st_controls := st_controls s; st_ledger_receipts := st_ledger_receipts s; st_audits := st_audits s;
     st_archive := st_archive s |}.
Definition set_controls (l : list DeletionControlOperationRecord) (s : Store) : Store :=
  {| st_base := st_base s; st_sessions := st_sessions s; st_intents := st_intents s; st_receipts := st_receipts s;
     st_controls := l; st_ledger_receipts := st_ledger_receipts s; st_audits := st_audits s;
     st_archive := st_archive s |}.
Definition set_ledger_receipts (l : list DeletionLedgerReceiptRecord) (s : Store) : Store :=
  {| st_base := st_base s; st_sessions := st_sessions s; st_intents := st_intents s; st_receipts := st_receipts s;
     st_controls := st_controls s; st_ledger_receipts := l; st_audits := st_audits s;
     st_archive := st_archive s |}.
Definition set_audits (l : list DeletionAuditRecord) (s : Store) : Store :=
  {| st_base := st_base s; st_sessions := st_sessions s; st_intents := st_intents s; st_receipts := st_receipts s;
     st_controls := st_controls s; st_ledger_receipts := st_ledger_receipts s; st_audits := l;
     st_archive := st_archive s |}.
Definition set_archive (a : Archive) (s : Store) : Store :=
  {| st_base := st_base s; st_sessions := st_sessions s; st_intents := st_intents s; st_receipts := st_receipts s;
     st_controls := st_controls s; st_ledger_receipts := st_ledger_receipts s; st_audits := st_audits s;
     st_archive := a |}.
Definition set_jobs (l : list JobRecord) (s : Store) : Store :=
  let b := st_base s in
  set_base {| users := users b; imports := imports b; profile_versions := profile_versions b; jobs := l;
              job_attempts := job_attempts b; audit_events := audit_events b |} s.

(** [uq_deletion_intent_active_target] and [uq_deletion_intent_idempotency]. *)
Definition intent_conflict (i j : DeletionIntentRecord) : bool :=
  String.eqb (di_deletion_id i) (di_deletion_id j)
  || (String.eqb (di_target_scope_id i) (di_target_scope_id j)
      && negb (bool_decide (di_state i = DI_INVALIDATED)) && negb (bool_decide (di_state j = DI_INVALIDATED)))
  || (String.eqb (di_owner_user_id i) (di_owner_user_id j)
      && String.eqb (di_idempotency_key i) (di_idempotency_key j)).
Definition add_intent (i : DeletionIntentRecord) (s : Store) : result Store :=
  _ ← raise_if (existsb (intent_conflict i) (st_intents s)) (PyError "IntegrityError");
  Ok (set_intents (st_intents s ++ [i]) s).
Definition add_receipt (r : DeletionReceiptRecord) (s : Store) : result Store :=
  t ← table_add r (st_receipts s); Ok (set_receipts t s).
(** [uq_deletion_control_target_scope] and [uq_deletion_control_scope_token]; a
    new control has no job. *)
Definition control_conflict (c d : DeletionControlOperationRecord) : bool :=
  String.eqb (dc_deletion_id c) (dc_deletion_id d) || String.eqb (dc_target_scope_id c) (dc_target_scope_id d)
  || String.eqb (dc_scope_token c) (dc_scope_token d).
Definition add_control (c : DeletionControlOperationRecord) (s : Store) : result Store :=
  _ ← raise_if (existsb (control_conflict c) (st_controls s)) (PyError "IntegrityError");
  Ok (set_controls (st_controls s ++ [c]) s).
Definition put_intent (i : DeletionIntentRecord) (s : Store) : Store := set_intents (table_put i (st_intents s)) s.
Definition put_receipt (r : DeletionReceiptRecord) (s : Store) : Store := set_receipts (table_put r (st_receipts s)) s.
Definition put_control (c : DeletionControlOperationRecord) (s : Store) : Store :=
  set_controls (table_put c (st_controls s)) s.

(** ** Deletion targets *)
Inductive DeletionTarget := TUser (u : UserRecord) | TImport (i : ImportRecord) | TProfile (p : ProfileVersionRecord).
Definition target_id (t : DeletionTarget) : string :=
  match t with TUser u => usr_id u | TImport i => imp_id i | TProfile p => pv_id p end.
Definition target_lifecycle_state (t : DeletionTarget) : RowLifecycle :=
  match t with
  | TUser u => usr_lifecycle_state u | TImport i => imp_lifecycle_state i | TProfile p => pv_lifecycle_state p
  end.
Definition target_lifecycle_generation (t : DeletionTarget) : Z :=
  match t with
  | TUser u => usr_lifecycle_generation u | TImport i => imp_lifecycle_generation i
  | TProfile p => pv_lifecycle_generation p
  end.
Definition target_deletion_scope_id (t : DeletionTarget) : string :=
  match t with
  | TUser u => usr_deletion_scope_id u | TImport i => imp_deletion_scope_id i | TProfile p => pv_deletion_scope_id p
  end.
(** [target.lifecycle_state = state; target.lifecycle_generation = generation]. *)
Definition set_lifecycle (state : RowLifecycle) (generation : Z) (t : DeletionTarget) : DeletionTarget :=
  match t with
  | TUser u => TUser {| usr_id := usr_id u; username_canonical := username_canonical u; password_hash := password_hash u;
                        usr_created_at := usr_created_at u; usr_lifecycle_state := state;
                        usr_lifecycle_generation := generation; usr_deletion_scope_id := usr_deletion_scope_id u |}
  | TImport i => TImport {| imp_id := imp_id i; imp_owner_user_id := imp_owner_user_id i; imp_state := imp_state i;
                        imp_lifecycle_state := state; imp_lifecycle_generation := generation;
                        imp_deletion_scope_id := imp_deletion_scope_id i; imp_adapter := imp_adapter i;
                        raw_content_hash := raw_content_hash i; imp_created_at := imp_created_at i;
                        imp_published_at := imp_published_at i; imp_confirmed_at := imp_confirmed_at i;
                        imp_failure_code := imp_failure_code i; imp_profile_version_id := imp_profile_version_id i |}
  | TProfile p => TProfile {| pv_id := pv_id p; pv_owner_user_id := pv_owner_user_id p; pv_import_id := pv_import_id p;
                        pv_content_hash := pv_content_hash p; canonical_content := canonical_content p;
                        pv_billing_period_start_utc_ns := pv_billing_period_start_utc_ns p;
                        pv_billing_period_end_utc_ns := pv_billing_period_end_utc_ns p;
                        pv_tariff_timezone := pv_tariff_timezone p;
                        pv_interval_resolution_seconds := pv_interval_resolution_seconds p;
                        pv_lifecycle_state := state; pv_lifecycle_generation := generation;
                        pv_deletion_scope_id := pv_deletion_scope_id p; pv_created_at := pv_created_at p |}
  end.
Definition put_target (t : DeletionTarget) (s : Store) : Store :=
  let b := st_base s in
  set_base match t with
    | TUser u => {| users := table_put u (users b); imports := imports b; profile_versions := profile_versions b;
                    jobs := jobs b; job_attempts := job_attempts b; audit_events := audit_events b |}
    | TImport i => {| users := users b; imports := table_put i (imports b); profile_versions := profile_versions b;
                    jobs := jobs b; job_attempts := job_attempts b; audit_events := audit_events b |}
    | TProfile p => {| users := users b; imports := imports b; profile_versions := table_put p (profile_versions b);
                    jobs := jobs b; job_attempts := job_attempts b; audit_events := audit_events b |}
    end s.
