(* ===== verification/Deletions.v ===== *)
(** * Deletions: the deletion coordinator (persistence/deletions.py)

    [DeletionCoordinator] advances a deletion over two stores that share no
    transaction: the database and the external ledger.  Its world is both, the
    tokens drawn and the transactions ended so far; the ledger is any
    implementation of [DeletionLedger].  A transaction whose body raises, or
    whose commit is refused, leaves the tables alone but not the ledger. *)

From S2P Require Import Prelude Float Json JsonCanonical JsonLoads Calendar PyText IsoTime Base64 Keyrings Deletion.
From S2P Require Import Ledger Database DeletionStore.

Definition INTENT_LIFETIME : Z := 15 * 60 * US_PER_SECOND.
Definition RECEIPT_LIFETIME : Z := 30 * 86400 * US_PER_SECOND.
Definition INTENT_SCHEMA : string := "deletion-intent-v1".
Definition RESTORE_KEY_VERSION : string := "restore-v1".

Definition service_error (code : string) : exn := ServiceError "DeletionServiceError" code.

Record DeletionIntentView := {
  iv_deletion_id : string; iv_status : ReceiptStatus; iv_expires_at : Z; iv_repeated : bool
}.
Record DeletionStatus := {
  ds_deletion_id : string; ds_status : ReceiptStatus; ds_artifact_counts : list (string * json);
  ds_completed_at : option Z
}.
Record ReconciliationResult := {
  rr_prepared_examined : Z; rr_controls_examined : Z; rr_advanced : Z; rr_quarantined : Z
}.
Inductive DeletionCheckpoint := AFTER_PREPARED_COMMIT | AFTER_FENCE_COMMIT | AFTER_REQUESTED_APPEND_BEFORE_ACK.

(** ** What the coordinator runs on *)

(** What it calls of the ledger. *)
Class DeletionLedger (L : Type) := {
  ledger_append : Request -> LedgerPhase -> Z -> L -> result LedgerEvent * L;
  ledger_chain : string -> L -> result (list LedgerEvent) * L;
  ledger_unresolved_preparations : L -> result (list LedgerEvent) * L
}.

(** A commit happens or is refused; the connection may be lost in either case. *)
Inductive commit := Committed | Refused | Unacknowledged.
Class Runtime := {
  random_id : nat -> string;       (** the [i]-th [secrets.token_hex(16)] *)
  receipt_salt : nat -> string;    (** the salt of the [i]-th receipt hash *)
  commit_outcome : nat -> commit;  (** the outcome of the [i]-th commit *)
  checkpoint_observer : DeletionCheckpoint -> LedgerEvent -> result unit
}.

Record World (L : Type) := { w_store : Store; w_ledger : L; w_draws : nat; w_commits : nat }.
Arguments w_store {L}. Arguments w_ledger {L}. Arguments w_draws {L}. Arguments w_commits {L}.
Arguments Build_World {L}.

Definition set_store {L} (s : Store) (w : World L) : World L :=
  {| w_store := s; w_ledger := w_ledger w; w_draws := w_draws w; w_commits := w_commits w |}.

Definition op (L A : Type) : Type := World L -> result A * World L.
#[export] Instance op_ret L : MRet (op L) := fun A a w => (Ok a, w).
#[export] Instance op_bind L : MBind (op L) :=
  fun A B k m w => match m w with (Ok a, w') => k a w' | (Raise e, w') => (Raise e, w') end.
Definition pure {L A} (m : result A) : op L A := fun w => (m, w).
Definition raise {L A} (e : exn) : op L A := pure (Raise e).
Definition require_that {L} (b : bool) (code : string) : op L unit := pure (raise_if (negb b) (service_error code)).
Definition get_store {L} : op L Store := fun w => (Ok (w_store w), w).
Definition update {L} (f : Store -> Store) : op L unit := fun w => (Ok tt, set_store (f (w_store w)) w).
Definition try_update {L} (f : Store -> result Store) : op L unit := fun w =>
  match f (w_store w) with Ok s => (Ok tt, set_store s w) | Raise e => (Raise e, w) end.
Definition call_ledger {L A} (f : L -> result A * L) : op L A := fun w =>
  let (r, l) := f (w_ledger w) in
  (r, {| w_store := w_store w; w_ledger := l; w_draws := w_draws w; w_commits := w_commits w |}).
Definition draw_id {L} (f : nat -> string) : op L string := fun w =>
  (Ok (f (w_draws w)),
   {| w_store := w_store w; w_ledger := w_ledger w; w_draws := S (w_draws w); w_commits := w_commits w |}).
Fixpoint op_foldM {L S A} (f : S -> A -> op L S) (s : S) (l : list A) : op L S :=
  match l with [] => mret s | x :: l' => s' ← f s x; op_foldM f s' l' end.

(** [with self._session_factory.begin() as database: body]. *)
Definition transaction {L A} `{Runtime} (body : op L A) : op L A := fun w =>
  match body w with
  | (Ok a, w') =>
      let next s := {| w_store := s; w_ledger := w_ledger w'; w_draws := w_draws w'; w_commits := S (w_commits w') |} in
      match commit_outcome (w_commits w') with
      | Committed => (Ok a, next (w_store w'))
      | Refused => (Raise (PyError "OperationalError"), next (w_store w))
      | Unacknowledged => (Raise (PyError "OperationalError"), next (w_store w'))
      end
  | (Raise e, w') => (Raise e, set_store (w_store w) w')
  end.

(** [except (DeletionLedgerError, DeletionServiceError)]: whether the body returned. *)
Definition attempt {L} (body : op L unit) : op L bool := fun w =>
  match body w with
  | (Ok _, w') => (Ok true, w')
  | (Raise e, w') =>
      if is_class "DeletionLedgerError" e || is_class "DeletionServiceError" e then (Ok false, w') else (Raise e, w')
  end.

(** ** Queries *)
(** [where(column == value)]. *)
Definition scoped {A} (column : A -> string) (value : string) (row : A) : bool := String.eqb (column row) value.
Definition find_by {A} (p : A -> bool) (l : list A) : option A := List.find p l.
Definition kind_user (s : Store) (p : UserRecord -> bool) : option DeletionTarget := TUser <$> find_by p (users (st_base s)).
Definition kind_import (s : Store) (p : ImportRecord -> bool) : option DeletionTarget :=
  TImport <$> find_by p (imports (st_base s)).
Definition kind_profile (s : Store) (p : ProfileVersionRecord -> bool) : option DeletionTarget :=
  TProfile <$> find_by p (profile_versions (st_base s)).

Definition target_by_resource_id (s : Store) (kind : TargetKind) (target_resource_id owner_user_id : string)
    : option DeletionTarget :=
  match kind with
  | ACCOUNT => kind_user s (fun u => String.eqb (usr_id u) target_resource_id && String.eqb (usr_id u) owner_user_id)
  | IMPORT => kind_import s (fun i => String.eqb (imp_id i) target_resource_id
                                      && String.eqb (imp_owner_user_id i) owner_user_id)
  | PROFILE => kind_profile s (fun p => String.eqb (pv_id p) target_resource_id
                                        && String.eqb (pv_owner_user_id p) owner_user_id)
  end.
Definition target_by_scope (s : Store) (kind : TargetKind) (scope : string) : option DeletionTarget :=
  match kind with
  | ACCOUNT => kind_user s (scoped usr_deletion_scope_id scope)
  | IMPORT => kind_import s (scoped imp_deletion_scope_id scope)
  | PROFILE => kind_profile s (scoped pv_deletion_scope_id scope)
  end.
Definition target_owner_id (kind : TargetKind) (t : DeletionTarget) : result string :=
  match t with
  | TUser u => if decide (kind = ACCOUNT) then Ok (usr_id u) else Raise (service_error "DELETION_CONTROL_CORRUPT")
  | TImport i => Ok (imp_owner_user_id i)
  | TProfile p => Ok (pv_owner_user_id p)
  end.
Definition parent_scope_is_active (kind : TargetKind) (user : option UserRecord) : bool :=
  match user with
  | None => false
  | Some u => bool_decide (kind = ACCOUNT)
              || (bool_decide (usr_lifecycle_state u = LC_ACTIVE) && (0 <=? usr_lifecycle_generation u))
  end.
Definition profile_import_generation (s : Store) (t : DeletionTarget) : result Z :=
  let corrupt := service_error "DELETION_CONTROL_CORRUPT" in
  match t with
  | TProfile p =>
      match table_get (pv_import_id p) (imports (st_base s)) with
      | Some i => if String.eqb (imp_owner_user_id i) (pv_owner_user_id p)
                     && bool_decide (imp_lifecycle_state i = LC_ACTIVE)
                  then Ok (imp_lifecycle_generation i) else Raise corrupt
      | None => Raise corrupt
      end
  | _ => Raise corrupt
  end.
Definition receipt_status (s : Store) (deletion_id : string) : result ReceiptStatus :=
  match table_get deletion_id (st_receipts s) with
  | Some r => Ok (rc_status r)
  | None => Raise (service_error "DELETION_CONTROL_CORRUPT")
  end.
Definition has_unresolved_preparation (s : Store) (target_scope_id : string) : bool :=
  let prepared := List.filter (fun i => String.eqb (di_target_scope_id i) target_scope_id
                                        && bool_decide (is_Some (di_preparation_receipt i))) (st_intents s) in
  existsb (fun i => negb (existsb (fun r => String.eqb (lr_deletion_id r) (di_deletion_id i)
                                            && mem (lr_phase r) [REQUESTED; ABORTED]) (st_ledger_receipts s))) prepared.

(** ** Assignments *)
Definition set_intent (state : IntentState) (digest receipt : option string) (prepared consumed invalidated : option Z)
    (i : DeletionIntentRecord) : DeletionIntentRecord :=
  {| di_deletion_id := di_deletion_id i; di_owner_user_id := di_owner_user_id i;
     di_idempotency_key := di_idempotency_key i; di_request_schema_version := di_request_schema_version i;
     di_canonical_payload_hash := di_canonical_payload_hash i; di_receipt_digest := di_receipt_digest i;
     di_target_kind := di_target_kind i; di_target_scope_id := di_target_scope_id i;
     di_original_generation := di_original_generation i; di_proposed_generation := di_proposed_generation i;
     di_state := state; di_preparation_digest := digest; di_preparation_receipt := receipt;
     di_created_at := di_created_at i; di_expires_at := di_expires_at i; di_prepared_at := prepared;
     di_consumed_at := consumed; di_invalidated_at := invalidated |}.
Definition invalidate (now : Z) (i : DeletionIntentRecord) : DeletionIntentRecord :=
  set_intent DI_INVALIDATED (di_preparation_digest i) (di_preparation_receipt i) (di_prepared_at i) (di_consumed_at i)
    (Some now) i.
Definition set_receipt_status (status : ReceiptStatus) (r : DeletionReceiptRecord) : DeletionReceiptRecord :=
  {| rc_deletion_id := rc_deletion_id r; rc_receipt_verifier := rc_receipt_verifier r; rc_status := status;
     rc_artifact_counts_json := rc_artifact_counts_json r; rc_created_at := rc_created_at r;
     rc_completed_at := rc_completed_at r; rc_verifier_expires_at := rc_verifier_expires_at r |}.
Definition begin_drain (job_id : string) (now : Z) (c : DeletionControlOperationRecord) : DeletionControlOperationRecord :=
  {| dc_deletion_id := dc_deletion_id c; dc_target_kind := dc_target_kind c; dc_target_scope_id := dc_target_scope_id c;
     dc_scope_token := dc_scope_token c; dc_restore_key_version := dc_restore_key_version c;
     dc_original_generation := dc_original_generation c; dc_deletion_generation := dc_deletion_generation c;
     dc_preparation_digest := dc_preparation_digest c; dc_intent_proof_digest := dc_intent_proof_digest c;
     dc_phase := CP_DRAIN; dc_deletion_job_id := Some job_id; dc_artifact_counts_json := dc_artifact_counts_json c;
     dc_created_at := dc_created_at c; dc_updated_at := now |}.
Definition cancel_job (code : string) (now : Z) (j : JobRecord) : JobRecord :=
  let queued := bool_decide (job_state j = QUEUED) in
  {| job_submission := job_submission j; job_state := if queued then CANCELLED else job_state j;
     attempt_count := attempt_count j; fencing_generation := fencing_generation j; lease_owner := lease_owner j;
     lease_acquired_at := lease_acquired_at j; lease_expires_at := lease_expires_at j; heartbeat_at := heartbeat_at j;
     not_before := not_before j; cancel_requested := true;
     job_failure_code := if queued then Some code else job_failure_code j;
     terminal_result_type := terminal_result_type j; terminal_result_id := terminal_result_id j;
     terminal_semantic_hash := terminal_semantic_hash j;
     job_completed_at := if queued then Some now else job_completed_at j |}.
Definition dependent_job (kind : TargetKind) (t : DeletionTarget) (owner : string) (j : JobRecord) : bool :=
  bool_decide (job_owner_user_id j = Some owner) && mem (job_state j) [QUEUED; LEASED; RUNNING]
  && match kind with
     | ACCOUNT => mem (job_scope_mode j) ["ACTIVE_SCOPE"; "DELETING_SCOPE"]
     | IMPORT => bool_decide (job_import_id j = Some (target_id t))
     | PROFILE => bool_decide (job_profile_version_id j = Some (target_id t))
     end.
Definition fence_dependent_work (kind : TargetKind) (t : DeletionTarget) (owner : string) (now : Z) (s : Store) : Store :=
  set_jobs ((fun j => if dependent_job kind t owner j then cancel_job (kind_str kind +:+ "_DELETION") now j else j)
              <$> jobs (st_base s)) s.
Definition revoke_sessions (user_id : string) (now : Z) (s : Store) : Store :=
  set_sessions ((fun r => if String.eqb (ses_user_id r) user_id && negb (bool_decide (is_Some (ses_revoked_at r)))
                          then {| ses_id := ses_id r; ses_user_id := ses_user_id r; ses_token_hash := ses_token_hash r;
                                  ses_csrf_hash := ses_csrf_hash r; ses_created_at := ses_created_at r;
                                  ses_last_seen_at := ses_last_seen_at r; ses_idle_expires_at := ses_idle_expires_at r;
                                  ses_absolute_expires_at := ses_absolute_expires_at r; ses_revoked_at := Some now |}
                          else r) <$> st_sessions s) s.

Section Coordinator.
Context {L : Type} {DL : DeletionLedger L} {RT : Runtime} {CR : Crypto} {SH : Sha256} {RH : Registry.ReceiptHasher}.
Context {JL : JsonLoads} {IF : IsoFormats}.
(** The restore keyring of the coordinator. *)
Variable keyring : VersionedKeyring.

(** ** Digests *)
Definition receipt_digest (secret : string) : string :=
  sha256_hex ("RateReplay.DeletionReceipt.v1" +:+ chr 0 +:+ secret).
Definition intent_payload_hash (receipt_digest : string) (kind : TargetKind) (target_scope_id : string) : string :=
  sha256_hex ("RateReplay.DeletionIntentPayload.v1" +:+ chr 0 +:+ canonical [
    ("receipt_digest", JStr receipt_digest); ("schema_version", JStr INTENT_SCHEMA);
    ("target_kind", JStr (kind_str kind)); ("target_scope_id", JStr target_scope_id)]).
Definition intent_proof_digest (i : DeletionIntentRecord) : string :=
  sha256_hex ("RateReplay.DeletionIntentProof.v1" +:+ chr 0 +:+ canonical [
    ("canonical_payload_hash", JStr (di_canonical_payload_hash i)); ("deletion_id", JStr (di_deletion_id i));
    ("original_generation", JInt (di_original_generation i)); ("owner_user_id", JStr (di_owner_user_id i));
    ("receipt_digest", JStr (di_receipt_digest i)); ("target_kind", JStr (kind_str (di_target_kind i)));
    ("target_scope_id", JStr (di_target_scope_id i))]).
Definition preparation_digest (deletion_id scope_token restore_key_version : string)
    (original_generation proposed_generation : Z) (intent_proof_digest : string) : string :=
  sha256_hex ("RateReplay.DeletionPreparation.v1" +:+ chr 0 +:+ canonical [
    ("deletion_id", JStr deletion_id); ("intent_proof_digest", JStr intent_proof_digest);
    ("original_generation", JInt original_generation); ("proposed_generation", JInt proposed_generation);
    ("restore_key_version", JStr restore_key_version); ("scope_token", JStr scope_token)]).
Definition scope_token (restore_key target_scope_id : string) : result string :=
  _ ← raise_if (negb (ascii_text target_scope_id)) value_error;
  Ok (hmac_sha256_hex restore_key ("RateReplay.RestoreSuppressionScope.v1" +:+ chr 0 +:+ target_scope_id)).

(** ** Identities *)
Definition validate_receipt_secret (secret : string) : result unit :=
  raise_if (negb (String.length secret =? 32)%nat) (service_error "INVALID_DELETION_PROOF").
Definition canonical_sha256 (e : LedgerEvent) : string := sha256_hex (canonical_without_receipt e).
Definition validate_stored_receipt (stored : DeletionLedgerReceiptRecord) (e : LedgerEvent) : result unit :=
  same_digest ← compare_digest (lr_canonical_digest stored) (canonical_sha256 e);
  same_receipt ← (if (same_digest : bool) then compare_digest (lr_integrity_receipt stored) (ev_receipt e) else Ok false);
  raise_if (negb same_receipt) (service_error "LEDGER_RECEIPT_MISMATCH").
(** [LedgerAppendArguments] of a [PREPARED] event. *)
Definition prepared_arguments (i : DeletionIntentRecord) (restore_key_version : string) : result Request :=
  restore_key ← except (fun _ => service_error "RESTORE_KEY_VERSION_UNAVAILABLE") (require keyring restore_key_version);
  token ← scope_token restore_key (di_target_scope_id i);
  let proof := intent_proof_digest i in
  Ok {| rq_deletion_id := di_deletion_id i; rq_scope_token := token; rq_restore_key_version := restore_key_version;
        rq_original_generation := di_original_generation i; rq_proposed_generation := di_proposed_generation i;
        rq_preparation_digest := preparation_digest (di_deletion_id i) token restore_key_version
                                   (di_original_generation i) (di_proposed_generation i) proof;
        rq_intent_proof_digest := proof |}.
(** The times of ledger events are aware: the ledger accepts no others. *)
Definition validate_event (e : LedgerEvent) (i : DeletionIntentRecord) : result unit :=
  _ ← aware (ev_occurred_at e);
  expected ← prepared_arguments i (text_or (Some (ev_restore_key_version e)) (current_version keyring));
  raise_if (negb (bool_decide (ev_phase e = PREPARED)) || negb (bool_decide (event_request e = expected)))
    (service_error "PREPARATION_IDENTITY_MISMATCH").
Definition control_request (c : DeletionControlOperationRecord) : Request :=
  {| rq_deletion_id := dc_deletion_id c; rq_scope_token := dc_scope_token c;
     rq_restore_key_version := dc_restore_key_version c; rq_original_generation := dc_original_generation c;
     rq_proposed_generation := dc_deletion_generation c; rq_preparation_digest := dc_preparation_digest c;
     rq_intent_proof_digest := dc_intent_proof_digest c |}.
Definition validate_control_event (e : LedgerEvent) (c : DeletionControlOperationRecord) (expected : LedgerPhase)
    : result unit :=
  raise_if (negb (bool_decide (ev_phase e = expected)) || negb (bool_decide (event_request e = control_request c)))
    (service_error "LEDGER_IDENTITY_MISMATCH").

Definition find_phase (phase : LedgerPhase) (chain : list LedgerEvent) : option LedgerEvent :=
  List.find (fun e => bool_decide (ev_phase e = phase)) chain.
Definition store_ledger_receipt (e : LedgerEvent) : op L unit :=
  s ← get_store;
  match find_by (fun r => String.eqb (lr_deletion_id r) (ev_deletion_id e) && bool_decide (lr_phase r = ev_phase e))
          (st_ledger_receipts s) with
  | Some stored => pure (validate_stored_receipt stored e)
  | None =>
      id ← draw_id random_id;
      acknowledged ← pure (aware (ev_occurred_at e));
      let row := {| lr_id := id; lr_deletion_id := ev_deletion_id e; lr_phase := ev_phase e;
                    lr_canonical_digest := canonical_sha256 e; lr_integrity_receipt := ev_receipt e;
                    lr_acknowledged_at := acknowledged |} in
      try_update (fun s => t ← except (fun _ => service_error "LEDGER_RECEIPT_CONFLICT") (table_add row (st_ledger_receipts s));
                           Ok (set_ledger_receipts t s))
  end.

(** ** Intents *)
Definition new_intent (deletion_id owner key payload_hash digest : string) (kind : TargetKind) (t : DeletionTarget)
    (now expires_at : Z) : DeletionIntentRecord :=
  {| di_deletion_id := deletion_id; di_owner_user_id := owner; di_idempotency_key := key;
     di_request_schema_version := INTENT_SCHEMA; di_canonical_payload_hash := payload_hash;
     di_receipt_digest := digest; di_target_kind := kind; di_target_scope_id := target_deletion_scope_id t;
     di_original_generation := target_lifecycle_generation t;
     di_proposed_generation := target_lifecycle_generation t + 1; di_state := DI_INTENT_CREATED;
     di_preparation_digest := None; di_preparation_receipt := None; di_created_at := now;
     di_expires_at := expires_at; di_prepared_at := None; di_consumed_at := None; di_invalidated_at := None |}.
Definition new_receipt (deletion_id verifier : string) (now : Z) : DeletionReceiptRecord :=
  {| rc_deletion_id := deletion_id; rc_receipt_verifier := verifier; rc_status := RS_INTENT_CREATED;
     rc_artifact_counts_json := "{}"; rc_created_at := now; rc_completed_at := None; rc_verifier_expires_at := None |}.
Definition expired_intent (i : DeletionIntentRecord) (now : Z) : bool :=
  bool_decide (di_state i = DI_INTENT_CREATED) && (di_expires_at i <=? now).

(** A repeated request. *)
Definition keyed_intent (keyed : DeletionIntentRecord) (payload_hash : string) (now : Z) (s : Store)
    : result DeletionIntentView :=
  same ← compare_digest (di_canonical_payload_hash keyed) payload_hash;
  _ ← raise_if (negb same) (service_error "IDEMPOTENCY_CONFLICT");
  _ ← raise_if (bool_decide (di_state keyed = DI_INVALIDATED) || expired_intent keyed now) (service_error "INTENT_EXPIRED");
  status ← receipt_status s (di_deletion_id keyed);
  Ok {| iv_deletion_id := di_deletion_id keyed; iv_status := status; iv_expires_at := di_expires_at keyed;
        iv_repeated := true |}.
(** An expired intent of the target makes room for a new one. *)
Definition replace_active (target_scope_id : string) (now : Z) : op L unit :=
  s ← get_store;
  match find_by (fun i => String.eqb (di_target_scope_id i) target_scope_id
                          && negb (bool_decide (di_state i = DI_INVALIDATED))) (st_intents s) with
  | None => mret tt
  | Some active =>
      _ ← require_that (expired_intent active now) "DELETION_ALREADY_PENDING";
      update (put_intent (invalidate now active))
  end.
Definition create_intent_for (owner_user_id : string) (kind : TargetKind) (target_resource_id idempotency_key
    receipt_secret : string) (now : Z) : op L DeletionIntentView :=
  _ ← pure (validate_receipt_secret receipt_secret);
  _ ← require_that (negb (String.eqb idempotency_key "") && (py_len idempotency_key <=? 128)) "INVALID_IDEMPOTENCY_KEY";
  let digest := receipt_digest receipt_secret in
  transaction (
    s ← get_store;
    _ ← require_that match table_get owner_user_id (users (st_base s)) with
                     | Some u => bool_decide (usr_lifecycle_state u = LC_ACTIVE) | None => false end "ACCOUNT_NOT_ACTIVE";
    match target_by_resource_id s kind target_resource_id owner_user_id with
    | None => raise (service_error (kind_str kind +:+ "_NOT_FOUND"))
    | Some target =>
        let scope := target_deletion_scope_id target in
        let payload_hash := intent_payload_hash digest kind scope in
        match find_by (fun i => String.eqb (di_owner_user_id i) owner_user_id
                                && String.eqb (di_idempotency_key i) idempotency_key) (st_intents s) with
        | Some keyed => pure (keyed_intent keyed payload_hash now s)
        | None =>
            _ ← require_that (bool_decide (target_lifecycle_state target = LC_ACTIVE)) "DELETION_ALREADY_PENDING";
            _ ← replace_active scope now;
            s ← get_store;
            _ ← require_that (negb (has_unresolved_preparation s scope)) "DELETION_ALREADY_PENDING";
            deletion_id ← draw_id random_id;
            expires_at ← pure (datetime_check (now + INTENT_LIFETIME));
            salt ← draw_id receipt_salt;
            _ ← try_update (add_intent (new_intent deletion_id owner_user_id idempotency_key payload_hash digest kind
                                          target now expires_at));
            _ ← try_update (add_receipt (new_receipt deletion_id (Registry.receipt_hash salt receipt_secret) now));
            mret {| iv_deletion_id := deletion_id; iv_status := RS_INTENT_CREATED; iv_expires_at := expires_at;
                    iv_repeated := false |}
        end
    end).
Definition create_intent (owner_user_id idempotency_key receipt_secret : string) (now : Z) : op L DeletionIntentView :=
  create_intent_for owner_user_id ACCOUNT owner_user_id idempotency_key receipt_secret now.

Definition authorized_intent (owner_user_id deletion_id receipt_secret : string) (now : Z) : op L DeletionIntentRecord :=
  s ← get_store;
  match table_get deletion_id (st_intents s), table_get deletion_id (st_receipts s) with
  | Some i, Some r =>
      _ ← require_that (String.eqb (di_owner_user_id i) owner_user_id
                        && Registry.receipt_verify (rc_receipt_verifier r) receipt_secret) "INVALID_DELETION_PROOF";
      _ ← require_that (negb (bool_decide (di_state i = DI_INVALIDATED) || expired_intent i now)) "INTENT_EXPIRED";
      mret i
  | _, _ => raise (service_error "INVALID_DELETION_PROOF")
  end.

(** ** Preparing and fencing *)
Definition mark_prepared (prepared : LedgerEvent) (prepared_at : Z) (i : DeletionIntentRecord) : DeletionIntentRecord :=
  set_intent DI_PREPARED (Some (ev_preparation_digest prepared)) (Some (ev_receipt prepared)) (Some prepared_at)
    (di_consumed_at i) (di_invalidated_at i) i.
(** The event of the ledger, or a new one. *)
Definition prepared_event (current : DeletionIntentRecord) (now : Z) : op L LedgerEvent :=
  chain ← call_ledger (ledger_chain (di_deletion_id current));
  match head chain with
  | Some prepared => _ ← pure (validate_event prepared current); mret prepared
  | None => rq ← pure (prepared_arguments current (current_version keyring)); call_ledger (ledger_append rq PREPARED now)
  end.
Definition acknowledge_prepared (current : DeletionIntentRecord) (prepared : LedgerEvent) : op L LedgerEvent :=
  _ ← pure (validate_event prepared current);
  _ ← store_ledger_receipt prepared;
  _ ← (if bool_decide (di_state current = DI_INTENT_CREATED) then
         prepared_at ← pure (aware (ev_occurred_at prepared));
         update (put_intent (mark_prepared prepared prepared_at current))
       else mret tt);
  s ← get_store;
  match table_get (di_deletion_id current) (st_receipts s) with
  | None => raise (service_error "DELETION_CONTROL_CORRUPT")
  | Some receipt =>
      _ ← (if bool_decide (rc_status receipt = RS_INTENT_CREATED)
           then update (put_receipt (set_receipt_status RS_PREPARED receipt)) else mret tt);
      mret prepared
  end.
Definition ensure_prepared (deletion_id : string) (now : Z) : op L LedgerEvent :=
  transaction (
    s ← get_store;
    match table_get deletion_id (st_intents s) with
    | None => raise (service_error "DELETION_CONTROL_CORRUPT")
    | Some current => prepared ← prepared_event current now; acknowledge_prepared current prepared
    end).

Definition fenced (t : DeletionTarget) : bool :=
  mem (target_lifecycle_state t) [LC_DELETION_PENDING_LEDGER; LC_DELETING].
Definition owned_by (kind : TargetKind) (owner : string) (t : DeletionTarget) : result bool :=
  id ← target_owner_id kind t; Ok (String.eqb id owner).
(** The control of a fence that was committed before. *)
Definition fence_matches (prepared : LedgerEvent) (i : DeletionIntentRecord) (c : DeletionControlOperationRecord)
    (target : option DeletionTarget) (user : option UserRecord) : result bool :=
  if String.eqb (dc_target_scope_id c) (di_target_scope_id i) && bool_decide (dc_target_kind c = di_target_kind i)
     && String.eqb (dc_scope_token c) (ev_scope_token prepared)
     && (dc_deletion_generation c =? ev_proposed_generation prepared)
     && String.eqb (dc_preparation_digest c) (ev_preparation_digest prepared)
     && String.eqb (dc_intent_proof_digest c) (ev_intent_proof_digest prepared) then
    match target with
    | None => Ok false
    | Some t =>
        owned ← owned_by (di_target_kind i) (di_owner_user_id i) t;
        Ok (owned && fenced t && (target_lifecycle_generation t =? ev_proposed_generation prepared)
            && parent_scope_is_active (di_target_kind i) user)
    end
  else Ok false.
(** What a fence needs of the live rows. *)
Definition fence_allowed (prepared : LedgerEvent) (i : DeletionIntentRecord) (target : option DeletionTarget)
    (user : option UserRecord) : result bool :=
  match user, target with
  | Some u, Some t =>
      owned ← owned_by (di_target_kind i) (di_owner_user_id i) t;
      Ok (owned && bool_decide (target_lifecycle_state t = LC_ACTIVE)
          && (target_lifecycle_generation t =? ev_original_generation prepared)
          && parent_scope_is_active (di_target_kind i) user
          && mem (di_state i) [DI_INTENT_CREATED; DI_PREPARED] && bool_decide (di_consumed_at i = None))
  | _, _ => Ok false
  end.
Definition consume_intent (prepared : LedgerEvent) (prepared_at now : Z) (i : DeletionIntentRecord) : DeletionIntentRecord :=
  set_intent DI_CONSUMED (Some (ev_preparation_digest prepared)) (Some (ev_receipt prepared)) (Some prepared_at)
    (Some now) (di_invalidated_at i) i.
Definition fence_control (prepared : LedgerEvent) (i : DeletionIntentRecord) (now : Z) : DeletionControlOperationRecord :=
  {| dc_deletion_id := ev_deletion_id prepared; dc_target_kind := di_target_kind i;
     dc_target_scope_id := di_target_scope_id i; dc_scope_token := ev_scope_token prepared;
     dc_restore_key_version := ev_restore_key_version prepared;
     dc_original_generation := ev_original_generation prepared;
     dc_deletion_generation := ev_proposed_generation prepared;
     dc_preparation_digest := ev_preparation_digest prepared;
     dc_intent_proof_digest := ev_intent_proof_digest prepared; dc_phase := CP_FENCE; dc_deletion_job_id := None;
     dc_artifact_counts_json := "{}"; dc_created_at := now; dc_updated_at := now |}.
(** The rows a fence writes; the control is inserted when the session commits. *)
Definition write_fence (prepared : LedgerEvent) (i : DeletionIntentRecord) (t : DeletionTarget) (user_id : string)
    (prepared_at now : Z) (s : Store) : result Store :=
  let s := put_target (set_lifecycle LC_DELETION_PENDING_LEDGER (ev_proposed_generation prepared) t) s in
  let s := put_intent (consume_intent prepared prepared_at now i) s in
  match table_get (ev_deletion_id prepared) (st_receipts s) with
  | None => Raise (service_error "DELETION_CONTROL_CORRUPT")
  | Some receipt =>
      let s := put_receipt (set_receipt_status RS_DELETION_PENDING_LEDGER receipt) s in
      let s := fence_dependent_work (di_target_kind i) t user_id now s in
      let s := if decide (di_target_kind i = ACCOUNT) then revoke_sessions user_id now s else s in
      add_control (fence_control prepared i now) s
  end.
Definition fence_prepared (prepared : LedgerEvent) (now : Z) : op L unit :=
  _ ← require_that (bool_decide (ev_phase prepared = PREPARED)) "PREPARATION_INVALID";
  transaction (
    s ← get_store;
    match table_get (ev_deletion_id prepared) (st_intents s) with
    | None => raise (service_error "PREPARATION_QUARANTINED")
    | Some i =>
        let user := table_get (di_owner_user_id i) (users (st_base s)) in
        let target := target_by_scope s (di_target_kind i) (di_target_scope_id i) in
        _ ← pure (validate_event prepared i);
        _ ← store_ledger_receipt prepared;
        match table_get (ev_deletion_id prepared) (st_controls s) with
        | Some control =>
            matches ← pure (fence_matches prepared i control target user);
            require_that matches "DELETION_CONTROL_CORRUPT"
        | None =>
            allowed ← pure (fence_allowed prepared i target user);
            _ ← require_that allowed "PREPARATION_QUARANTINED";
            prepared_at ← pure (aware (ev_occurred_at prepared));
            match target, user with
            | Some t, Some u => try_update (write_fence prepared i t (usr_id u) prepared_at now)
            | _, _ => raise (service_error "PREPARATION_QUARANTINED")
            end
        end
    end).

(** ** Requesting *)
Definition owner_of (s : Store) (c : DeletionControlOperationRecord) (target : option DeletionTarget)
    : result (option UserRecord) :=
  match target with
  | Some t => id ← target_owner_id (dc_target_kind c) t; Ok (table_get id (users (st_base s)))
  | None => Ok None
  end.
Definition at_fence (c : DeletionControlOperationRecord) (target : option DeletionTarget) (user : option UserRecord) : bool :=
  match target with
  | Some t => fenced t && (target_lifecycle_generation t =? dc_deletion_generation c)
              && parent_scope_is_active (dc_target_kind c) user
  | None => false
  end.
(** [target_kind.lower()]. *)
Definition kind_lower (k : TargetKind) : string :=
  match k with ACCOUNT => "account" | IMPORT => "import" | PROFILE => "profile" end.
Definition deletion_job (job_id : string) (c : DeletionControlOperationRecord) (t : DeletionTarget) (u : UserRecord)
    (import_generation : option Z) (now : Z) : JobRecord :=
  let schema := kind_lower (dc_target_kind c) +:+ "-deletion-v1" in
  let request := canonical [("deletion_id", JStr (dc_deletion_id c)); ("schema_version", JStr schema);
                            ("target_kind", JStr (kind_str (dc_target_kind c)))] in
  {| job_submission :=
       {| job_id := job_id; job_owner_user_id := Some (usr_id u); job_kind := "DELETION";
          job_request_schema_version := schema; job_request_hash := sha256_hex request;
          job_scope_mode := "DELETING_SCOPE"; job_request_json := request;
          job_import_id := match dc_target_kind c with
                           | IMPORT => Some (target_id t)
                           | _ => match t with TProfile p => Some (pv_import_id p) | _ => None end
                           end;
          job_profile_version_id := match dc_target_kind c with PROFILE => Some (target_id t) | _ => None end;
          captured_account_generation := usr_lifecycle_generation u;
          captured_import_generation := import_generation;
          captured_profile_generation := match dc_target_kind c with
                                         | PROFILE => Some (target_lifecycle_generation t) | _ => None end;
          max_attempts := 100; requested_semantic_hash := None; calculation_contract_version := None;
          job_created_at := now |};
     job_state := QUEUED; attempt_count := 0; fencing_generation := 0; lease_owner := None; lease_acquired_at := None;
     lease_expires_at := None; heartbeat_at := None; not_before := now; cancel_requested := false;
     job_failure_code := None; terminal_result_type := None; terminal_result_id := None;
     terminal_semantic_hash := None; job_completed_at := None |}.
Definition captured_import (s : Store) (c : DeletionControlOperationRecord) (t : DeletionTarget) : result (option Z) :=
  match dc_target_kind c with
  | IMPORT => Ok (Some (target_lifecycle_generation t))
  | PROFILE => g ← profile_import_generation s t; Ok (Some g)
  | ACCOUNT => Ok None
  end.
(** The rows that put the sweep job into the queue. *)
Definition write_drain (job_id : string) (c : DeletionControlOperationRecord) (t : DeletionTarget) (u : UserRecord)
    (import_generation : option Z) (now : Z) (s : Store) : result Store :=
  jobs' ← table_add (deletion_job job_id c t u import_generation now) (jobs (st_base s));
  let s := set_jobs jobs' s in
  let s := put_target (set_lifecycle LC_DELETING (target_lifecycle_generation t) t) s in
  let s := put_control (begin_drain job_id now c) s in
  match table_get (dc_deletion_id c) (st_receipts s) with
  | None => Raise (service_error "DELETION_CONTROL_CORRUPT")
  | Some receipt => Ok (put_receipt (set_receipt_status RS_DELETING receipt) s)
  end.
Definition acknowledge_requested (deletion_id : string) (requested : LedgerEvent) (now : Z) : op L unit :=
  transaction (
    s ← get_store;
    match table_get deletion_id (st_controls s) with
    | None => raise (service_error "DELETION_CONTROL_CORRUPT")
    | Some control =>
        let target := target_by_scope s (dc_target_kind control) (dc_target_scope_id control) in
        user ← pure (owner_of s control target);
        _ ← pure (validate_control_event requested control REQUESTED);
        _ ← require_that (at_fence control target user) "DELETION_CONTROL_CORRUPT";
        match target, user with
        | Some t, Some u =>
            _ ← store_ledger_receipt requested;
            if decide (target_lifecycle_state t = LC_DELETING) then
              require_that (bool_decide (is_Some (dc_deletion_job_id control))) "DELETION_CONTROL_CORRUPT"
            else
              job_id ← draw_id random_id;
              import_generation ← pure (captured_import s control t);
              try_update (write_drain job_id control t u import_generation now)
        | _, _ => raise (service_error "DELETION_CONTROL_CORRUPT")
        end
    end).
(** The control at its fence, read without a lock. *)
Definition fenced_control (deletion_id : string) : op L DeletionControlOperationRecord :=
  s ← get_store;
  match table_get deletion_id (st_controls s) with
  | None => raise (service_error "PREPARATION_QUARANTINED")
  | Some control =>
      let target := target_by_scope s (dc_target_kind control) (dc_target_scope_id control) in
      user ← pure (owner_of s control target);
      _ ← require_that (at_fence control target user) "DELETION_CONTROL_CORRUPT";
      mret control
  end.
Definition ensure_requested (deletion_id : string) (now : Z) : op L unit :=
  control ← fenced_control deletion_id;
  chain ← call_ledger (ledger_chain deletion_id);
  requested ← match find_phase REQUESTED chain with
              | Some e => mret e
              | None => e ← call_ledger (ledger_append (control_request control) REQUESTED now);
                        _ ← pure (checkpoint_observer AFTER_REQUESTED_APPEND_BEFORE_ACK e);
                        mret e
              end;
  acknowledge_requested deletion_id requested now.

(** ** Status *)
Definition artifact_counts (text : string) : result (list (string * json)) :=
  v ← from_option value_error (json_loads text);
  match v with
  | JObj counts =>
      _ ← raise_if (negb (forallb (fun kv => match kv.2 with JInt n => 0 <=? n | JBool _ => true | _ => false end) counts))
            (service_error "DELETION_CONTROL_CORRUPT");
      Ok counts
  | _ => Raise (service_error "DELETION_CONTROL_CORRUPT")
  end.
Definition passed (t : option Z) (now : Z) : bool := match t with Some t => t <=? now | None => false end.
Definition read_status (deletion_id receipt_secret : string) (now : Z) (s : Store) : result DeletionStatus :=
  let invalid := service_error "INVALID_DELETION_PROOF" in
  match table_get deletion_id (st_receipts s) with
  | None =>
      _ ← raise_if match table_get deletion_id (st_audits s) with
                   | Some a => da_verifier_expires_at a <=? now | None => false end
            (service_error "DELETION_RECEIPT_EXPIRED");
      Raise invalid
  | Some receipt =>
      _ ← raise_if (negb (Registry.receipt_verify (rc_receipt_verifier receipt) receipt_secret)) invalid;
      _ ← raise_if match table_get deletion_id (st_intents s) with
                   | Some i => bool_decide (rc_status receipt = RS_INTENT_CREATED) && (di_expires_at i <=? now)
                               && bool_decide (di_preparation_receipt i = None)
                   | None => false end (service_error "INTENT_EXPIRED");
      _ ← raise_if (passed (rc_verifier_expires_at receipt) now) (service_error "DELETION_RECEIPT_EXPIRED");
      counts ← artifact_counts (rc_artifact_counts_json receipt);
      Ok {| ds_deletion_id := rc_deletion_id receipt; ds_status := rc_status receipt; ds_artifact_counts := counts;
            ds_completed_at := rc_completed_at receipt |}
  end.
Definition status (deletion_id receipt_secret : string) (now : Z) : op L DeletionStatus :=
  _ ← pure (validate_receipt_secret receipt_secret);
  s ← get_store;
  pure (read_status deletion_id receipt_secret now s).

(** ** Starting a deletion *)
Definition authorize_and_start (owner_user_id deletion_id receipt_secret : string) (now : Z) : op L DeletionStatus :=
  _ ← pure (validate_receipt_secret receipt_secret);
  intent ← authorized_intent owner_user_id deletion_id receipt_secret now;
  prepared ← ensure_prepared (di_deletion_id intent) now;
  _ ← pure (checkpoint_observer AFTER_PREPARED_COMMIT prepared);
  _ ← fence_prepared prepared now;
  _ ← pure (checkpoint_observer AFTER_FENCE_COMMIT prepared);
  _ ← ensure_requested deletion_id now;
  status deletion_id receipt_secret now.
Definition start_resource_deletion (owner_user_id : string) (kind : TargetKind) (target_resource_id idempotency_key
    receipt_secret : string) (now : Z) : op L DeletionStatus :=
  intent ← create_intent_for owner_user_id kind target_resource_id idempotency_key receipt_secret now;
  authorize_and_start owner_user_id (iv_deletion_id intent) receipt_secret now.

(** ** Aborting *)
(** The target is live at the generation the intent was created for. *)
Definition target_untouched (i : DeletionIntentRecord) (target : option DeletionTarget) : result bool :=
  match target with
  | Some t =>
      if bool_decide (target_lifecycle_state t = LC_ACTIVE) && (target_lifecycle_generation t =? di_original_generation i)
      then owned_by (di_target_kind i) (di_owner_user_id i) t else Ok false
  | None => Ok false
  end.
Definition preparation_has_proved_noncommit (prepared : LedgerEvent) : op L bool :=
  s ← get_store;
  match table_get (ev_deletion_id prepared) (st_intents s) with
  | None => mret false
  | Some i =>
      let target := target_by_scope s (di_target_kind i) (di_target_scope_id i) in
      match validate_event prepared i with
      | Raise e => if is_class "DeletionServiceError" e then mret false else raise e
      | Ok _ =>
          if bool_decide (di_state i = DI_INVALIDATED) && bool_decide (is_Some (di_invalidated_at i))
             && negb (bool_decide (is_Some (table_get (ev_deletion_id prepared) (st_controls s))))
          then pure (target_untouched i target) else mret false
      end
  end.
Definition ensure_aborted (prepared : LedgerEvent) (now : Z) : op L unit :=
  proved ← preparation_has_proved_noncommit prepared;
  _ ← require_that proved "ABORT_NOT_PROVABLE";
  chain ← call_ledger (ledger_chain (ev_deletion_id prepared));
  aborted ← match find_phase ABORTED chain with
            | Some e => mret e
            | None => call_ledger (ledger_append (event_request prepared) ABORTED now)
            end;
  transaction (
    _ ← store_ledger_receipt aborted;
    s ← get_store;
    match table_get (ev_deletion_id prepared) (st_receipts s) with
    | None => raise (service_error "DELETION_CONTROL_CORRUPT")
    | Some receipt => update (put_receipt (set_receipt_status RS_ABORTED receipt))
    end).
Definition prove_noncommit_and_abort (deletion_id : string) (now : Z) : op L unit :=
  chain ← call_ledger (ledger_chain deletion_id);
  match chain with
  | [prepared] =>
      _ ← require_that (bool_decide (ev_phase prepared = PREPARED)) "ABORT_NOT_PROVABLE";
      _ ← transaction (
            s ← get_store;
            match table_get deletion_id (st_intents s) with
            | None => raise (service_error "ABORT_NOT_PROVABLE")
            | Some i =>
                let target := target_by_scope s (di_target_kind i) (di_target_scope_id i) in
                _ ← pure (validate_event prepared i);
                provable ← (if negb (bool_decide (is_Some (table_get deletion_id (st_controls s))))
                               && mem (di_state i) [DI_INTENT_CREATED; DI_PREPARED]
                            then pure (target_untouched i target) else mret false);
                _ ← require_that provable "ABORT_NOT_PROVABLE";
                update (put_intent (invalidate now i))
            end);
      ensure_aborted prepared now
  | _ => raise (service_error "ABORT_NOT_PROVABLE")
  end.

(** ** Reconciliation *)
(** One examined item: whether it advanced or was quarantined. *)
Definition reconcile_item (item : op L unit) (counts : Z * Z) : op L (Z * Z) :=
  advanced ← attempt item;
  mret (if (advanced : bool) then (counts.1 + 1, counts.2) else (counts.1, counts.2 + 1)).
Definition reconcile_preparation (event : LedgerEvent) (now : Z) : op L unit :=
  proved ← preparation_has_proved_noncommit event;
  if (proved : bool) then ensure_aborted event now
  else _ ← fence_prepared event now; ensure_requested (ev_deletion_id event) now.
Definition fence_ids (s : Store) : list string :=
  dc_deletion_id <$> List.filter (fun c => bool_decide (dc_phase c = CP_FENCE)) (st_controls s).
Definition reconcile (now : Z) : op L ReconciliationResult :=
  prepared_events ← call_ledger ledger_unresolved_preparations;
  counts ← op_foldM (fun counts e => reconcile_item (reconcile_preparation e now) counts) (0, 0) prepared_events;
  s ← get_store;
  let control_ids := fence_ids s in
  counts ← op_foldM (fun counts id => reconcile_item (ensure_requested id now) counts) counts control_ids;
  mret {| rr_prepared_examined := Z.of_nat (length prepared_events); rr_controls_examined := Z.of_nat (length control_ids);
          rr_advanced := counts.1; rr_quarantined := counts.2 |}.
End Coordinator.

(** [DeletionCoordinator.__init__]. *)
Definition coordinator_keyring (restore_key : option string) (restore_key_version : string)
    (restore_keyring : option VersionedKeyring) : result VersionedKeyring :=
  match restore_key, restore_keyring with
  | Some key, None => except (fun _ => value_error) (single restore_key_version key)
  | None, Some k => Ok k
  | _, _ => Raise value_error
  end.
