(* ===== verification/DeletionsInvariant.v ===== *)
(** * DeletionsInvariant: the two stores of a deletion agree

    [view] reads off the database and the events of the ledger the protocol
    state of one deletion; [Consistent] says what keeps the views of all
    deletions in the protocol.  The lemmas show what each write to the tables and
    each new ledger event does to them. *)

From S2P Require Import Prelude Float Json JsonCanonical JsonLoads Calendar PyText IsoTime Base64 Keyrings Deletion.
From S2P Require Import Ledger LedgerProofs LedgerChains Database DeletionStore Deletions.

(** ** What the coordinator relies on *)
Class DigestLaws {CR : Crypto} {SH : Sha256} := {
  mac_digest k m : digest (hmac_sha256_hex k m);
  hash_digest m : digest (sha256_hex m)
}.
Class RuntimeLaws {RT : Runtime} := {
  random_id_text i : plain_string (random_id i) = true /\ random_id i <> "";
  random_id_new : Inj (=) (=) random_id
}.
#[export] Existing Instance random_id_new.

Notation phases evs id := (ev_phase <$> chain_of id evs).
(** One event more: it is the next one of its deletion. *)
Record extends (rq : Request) (phase : LedgerPhase) (evs : list LedgerEvent) (e : LedgerEvent)
    (evs' : list LedgerEvent) : Prop := {
  ext_events : evs' = evs ++ [e];
  ext_request : event_request e = rq;
  ext_phase : ev_phase e = phase;
  ext_legal : phases evs (rq_deletion_id rq) ++ [phase] ∈ LEGAL_CHAINS;
  ext_first first : head (chain_of (rq_deletion_id rq) evs) = Some first -> event_request first = rq
}.
(** What a ledger promises: it stores events, an append adds at most one event,
    whatever it returns, and the readers return what is stored. *)
Class DeletionLedgerLaws (L : Type) {DL : DeletionLedger L} := {
  stored : L -> list LedgerEvent -> Prop;
  stored_legal l evs : stored l evs -> legal evs;
  append_law l evs rq phase t r l' :
    stored l evs -> request_ok rq -> in_calendar t -> ledger_append rq phase t l = (r, l') ->
    exists evs', stored l' evs' /\ (evs' = evs \/ exists e, extends rq phase evs e evs')
    /\ forall e, r = Ok e -> e ∈ evs' /\ ev_deletion_id e = rq_deletion_id rq /\ ev_phase e = phase;
  chain_law l evs id r l' :
    stored l evs -> ledger_chain id l = (r, l') -> stored l' evs /\ forall c, r = Ok c -> c = chain_of id evs;
  unresolved_law l evs r l' :
    stored l evs -> ledger_unresolved_preparations l = (r, l') ->
    stored l' evs /\ forall c, r = Ok c -> Forall (fun e => e ∈ evs /\ ev_phase e = PREPARED) c
}.

(** ** Protocol states *)
Import Protocol.
Definition life (l : RowLifecycle) : LifecycleState :=
  match l with
  | LC_ACTIVE => ACTIVE | LC_DELETION_PENDING_LEDGER => DELETION_PENDING_LEDGER | LC_DELETING => DELETING
  | LC_DELETED => DELETED
  end.
Definition control_of (s : Store) (id : string) : option DeletionControlOperationRecord := table_get id (st_controls s).
Definition intent_of (s : Store) (id : string) : option DeletionIntentRecord := table_get id (st_intents s).
Definition control_target (s : Store) (c : DeletionControlOperationRecord) : option DeletionTarget :=
  target_by_scope s (dc_target_kind c) (dc_target_scope_id c).
(** The generation a deletion started from. *)
Definition start_generation (s : Store) (evs : list LedgerEvent) (id : string) : Z :=
  match control_of s id, intent_of s id, head (chain_of id evs) with
  | Some c, _, _ => dc_original_generation c
  | None, Some i, _ => di_original_generation i
  | None, None, Some e => ev_original_generation e
  | None, None, None => 0
  end.
Definition view (s : Store) (evs : list LedgerEvent) (id : string) : DeletionProtocolState :=
  let g := start_generation s evs id in
  match control_of s id with
  | Some c =>
      {| lifecycle := match control_target s c with Some t => life (target_lifecycle_state t) | None => DELETED end;
         original_generation := g; generation := dc_deletion_generation c; ledger_chain := phases evs id;
         intent_consumed := true; sweep_checkpoint := Some (control_phase_str (dc_phase c)) |}
  | None =>
      if decide (COMPLETED ∈ phases evs id) then
        {| lifecycle := DELETED; original_generation := g; generation := g + 1; ledger_chain := phases evs id;
           intent_consumed := true; sweep_checkpoint := None |}
      else with_chain (initial g) (phases evs id)
  end.
Definition known (s : Store) (evs : list LedgerEvent) (id : string) : Prop :=
  is_Some (control_of s id) \/ is_Some (intent_of s id) \/ chain_of id evs <> [].

(** ** Agreement *)
Record intent_ok (i : DeletionIntentRecord) : Prop := {
  io_id : plain_string (di_deletion_id i) = true /\ di_deletion_id i <> "";
  io_generation : 0 <= di_original_generation i /\ di_proposed_generation i = di_original_generation i + 1
}.
Record control_ok (s : Store) (evs : list LedgerEvent) (c : DeletionControlOperationRecord) : Prop := {
  ko_request : request_ok (control_request c);
  ko_generation : dc_deletion_generation c = dc_original_generation c + 1;
  ko_intent : exists i, intent_of s (dc_deletion_id c) = Some i /\ di_state i = DI_CONSUMED;
  ko_target : exists t, control_target s c = Some t /\ target_lifecycle_generation t = dc_deletion_generation c;
  ko_first : event_request <$> head (chain_of (dc_deletion_id c) evs) = Some (control_request c);
  ko_phase : phase_of (dc_original_generation c) (view s evs (dc_deletion_id c))
}.
Definition generations_ok (s : Store) : Prop :=
  Forall (fun u => 0 <= usr_lifecycle_generation u) (users (st_base s))
  /\ Forall (fun i => 0 <= imp_lifecycle_generation i) (imports (st_base s))
  /\ Forall (fun p => 0 <= pv_lifecycle_generation p) (profile_versions (st_base s)).
Record Tables (s : Store) : Prop := {
  tb_users : NoDup (row_id <$> users (st_base s));
  tb_imports : NoDup (row_id <$> imports (st_base s));
  tb_profiles : NoDup (row_id <$> profile_versions (st_base s));
  tb_intents : NoDup (di_deletion_id <$> st_intents s);
  tb_control_ids : NoDup (dc_deletion_id <$> st_controls s);
  tb_scopes : NoDup (dc_target_scope_id <$> st_controls s);
  tb_intent : Forall intent_ok (st_intents s);
  tb_generations : generations_ok s
}.
Record Consistent (s : Store) (evs : list LedgerEvent) : Prop := {
  co_legal : legal evs;
  co_tables : Tables s;
  co_control : Forall (control_ok s evs) (st_controls s);
  co_unfenced id : control_of s id = None -> REQUESTED ∈ phases evs id -> COMPLETED ∈ phases evs id;
  co_aborted id i : intent_of s id = Some i -> ABORTED ∈ phases evs id -> di_state i = DI_INVALIDATED;
  co_consumed id i : intent_of s id = Some i -> di_state i = DI_CONSUMED -> is_Some (control_of s id);
  co_live id i : intent_of s id = Some i -> di_state i <> DI_CONSUMED -> COMPLETED ∉ phases evs id
}.

Lemma legal_phases evs id :
  legal evs -> phases evs id ∈ [] :: LEGAL_CHAINS.
Proof.
  intros Hl. destruct (decide (chain_of id evs = [])) as [->|Hne]; [by left|]. right. by apply Hl.
Qed.
Ltac legal_cases H := unfold LEGAL_CHAINS in H; rewrite !elem_of_cons, elem_of_nil in H; destruct H as [H|[H|[H|[H|[H|[]]]]]].
Ltac legal_cases4 H := unfold LEGAL_CHAINS in H; rewrite !elem_of_cons, elem_of_nil in H; destruct H as [H|[H|[H|[H|[]]]]].

(** Every known deletion is in the protocol. *)
Lemma consistent_phase s evs id :
  Consistent s evs -> phase_of (start_generation s evs id) (view s evs id).
Proof.
  intros HC. unfold view, start_generation. destruct (control_of s id) as [c|] eqn:Ec.
  - destruct (table_get_elem _ _ _ Ec) as [Hin Hid]. pose proof (co_control _ _ HC) as Hall. rewrite Forall_forall in Hall.
    pose proof (ko_phase _ _ _ (Hall _ Hin)) as Hp. change (dc_deletion_id c = id) in Hid. rewrite Hid in Hp.
    unfold view, start_generation in Hp. rewrite Ec in Hp. exact Hp.
  - set (g := match intent_of s id with Some _ => _ | None => _ end). clearbody g.
    pose proof (legal_phases evs id (co_legal _ _ HC)) as Hp. pose proof (co_unfenced _ _ HC id Ec) as Hu. legal_cases Hp.
    all: rewrite ?Hp in *; cbn; try constructor.
    exfalso. specialize (Hu ltac:(set_solver)). set_solver.
Qed.
Lemma control_elem s evs id c : Consistent s evs -> control_of s id = Some c -> control_ok s evs c /\ dc_deletion_id c = id.
Proof.
  intros HC Hc. destruct (table_get_elem _ _ _ Hc) as [Hin Hid]. split; [|done]. pose proof (co_control _ _ HC) as Hall.
  rewrite Forall_forall in Hall. by apply Hall.
Qed.
Lemma intent_elem s evs id i : Consistent s evs -> intent_of s id = Some i -> intent_ok i /\ di_deletion_id i = id.
Proof.
  intros HC Hc. destruct (table_get_elem _ _ _ Hc) as [Hin Hid]. split; [|done]. pose proof (tb_intent _ (co_tables _ _ HC)) as Hall.
  rewrite Forall_forall in Hall. by apply Hall.
Qed.
Lemma control_phase s evs id c :
  Consistent s evs -> control_of s id = Some c -> phase_of (dc_original_generation c) (view s evs id).
Proof. intros HC Hc. destruct (control_elem _ _ _ _ HC Hc) as [Hk <-]. apply Hk. Qed.

(** ** Refinement *)
Record Refines (s : Store) (evs : list LedgerEvent) (s' : Store) (evs' : list LedgerEvent) : Prop := {
  re_prefix : evs `prefix_of` evs';
  re_known id : known s evs id -> known s' evs' id;
  re_run id : known s evs id -> exists os, run (view s evs id) os = Ok (view s' evs' id)
}.
Lemma run_app st os1 os2 st1 : run st os1 = Ok st1 -> run st (os1 ++ os2) = run st1 os2.
Proof. unfold run. intros H. by rewrite foldM_app, H. Qed.
Lemma refines_trans s1 e1 s2 e2 s3 e3 : Refines s1 e1 s2 e2 -> Refines s2 e2 s3 e3 -> Refines s1 e1 s3 e3.
Proof.
  intros [P1 K1 R1] [P2 K2 R2]. split; [by etrans|auto|]. intros id Hk. destruct (R1 id Hk) as [os1 H1], (R2 id (K1 id Hk)) as [os2 H2].
  exists (os1 ++ os2). by rewrite (run_app _ _ _ _ H1).
Qed.
(** One deletion makes a step, the others stay. *)
Lemma refines_step s evs s' evs' d os :
  evs `prefix_of` evs' -> (forall id, known s evs id -> known s' evs' id) ->
  (forall id, id <> d -> known s evs id -> view s' evs' id = view s evs id) ->
  (known s evs d -> run (view s evs d) os = Ok (view s' evs' d)) -> Refines s evs s' evs'.
Proof.
  intros Hp Hk Hv Hd. split; [done|done|]. intros id Hid. destruct (decide (id = d)) as [->|Hne]; [eauto|].
  exists []. by rewrite (Hv id Hne Hid).
Qed.
Lemma refines_same s evs s' :
  (forall id, known s evs id -> known s' evs id) -> (forall id, known s evs id -> view s' evs id = view s evs id) ->
  Refines s evs s' evs.
Proof. intros Hk Hv. split; [done|done|]. intros id Hid. exists []. by rewrite Hv. Qed.
Lemma refines_refl s evs : Refines s evs s evs.
Proof. by apply refines_same. Qed.

(** ** Targets *)
Lemma find_put_other {A} `{Row A} (f : A -> string) (x x' : A) (t : list A) scope :
  NoDup (row_id <$> t) -> x ∈ t -> row_id x' = row_id x -> f x' = f x -> f x <> scope ->
  find_by (scoped f scope) (table_put x' t) = find_by (scoped f scope) t.
Proof.
  intros Hn Hx Hid Hf Hne. revert Hn Hx. unfold table_put. induction t as [|y t IH]; intros Hn Hx; [done|].
  rewrite fmap_cons. apply NoDup_cons in Hn as [Hy Hn]. cbn [find_by List.find]. unfold find_by, scoped in *.
  destruct (decide (row_id y = row_id x')) as [E|E].
  - assert (y = x) as ->.
    { apply elem_of_cons in Hx as [->|Hx]; [done|]. exfalso. apply Hy, list_elem_of_fmap. exists x. split; [congruence|done]. }
    rewrite Hf. apply String.eqb_neq in Hne as ->. f_equal. rewrite <-(list_fmap_id t) at 2. apply list_fmap_ext.
    intros i z Hz. simpl. rewrite decide_False; [done|]. intros E'. apply Hy. rewrite E, <-E'. apply list_elem_of_fmap.
    exists z. split; [done|]. by eapply list_elem_of_lookup_2.
  - apply elem_of_cons in Hx as [->|Hx]; [by rewrite Hid in E|]. destruct (String.eqb (f y) scope); [done|]. by apply IH.
Qed.
Lemma find_put_same {A} `{Row A} (f : A -> string) (x x' : A) (t : list A) scope :
  NoDup (row_id <$> t) -> find_by (scoped f scope) t = Some x -> row_id x' = row_id x -> f x' = f x ->
  find_by (scoped f scope) (table_put x' t) = Some x'.
Proof.
  intros Hn Hx Hid Hf. revert Hn Hx. unfold table_put. induction t as [|y t IH]; intros Hn Hx; [done|].
  rewrite fmap_cons. apply NoDup_cons in Hn as [Hy Hn]. unfold find_by in *. cbn [List.find] in *. unfold scoped in *.
  destruct (String.eqb (f y) scope) eqn:E.
  - injection Hx as ->. rewrite decide_True by done. by rewrite Hf, E.
  - rewrite decide_False; [by rewrite E; apply IH|]. intros E'. apply Hy, list_elem_of_fmap.
    exists x. split; [congruence|]. apply list_elem_of_In. by apply List.find_some in Hx as [? _].
Qed.

Lemma put_target_same s evs kind scope t state g :
  Consistent s evs -> target_by_scope s kind scope = Some t ->
  target_by_scope (put_target (set_lifecycle state g t) s) kind scope = Some (set_lifecycle state g t).
Proof.
  intros HC Ht. destruct kind; cbn in Ht; unfold kind_user, kind_import, kind_profile in Ht.
  1: destruct (find_by _ (users _)) as [x|] eqn:E in Ht; [|done]. 2: destruct (find_by _ (imports _)) as [x|] eqn:E in Ht; [|done].
  3: destruct (find_by _ (profile_versions _)) as [x|] eqn:E in Ht; [|done].
  all: injection Ht as <-; cbn -[table_put find_by scoped]; unfold kind_user, kind_import, kind_profile; cbn -[table_put find_by scoped].
  1: erewrite (find_put_same usr_deletion_scope_id x); try done; apply (co_tables _ _ HC).
  1: erewrite (find_put_same imp_deletion_scope_id x); try done; apply (co_tables _ _ HC).
  1: erewrite (find_put_same pv_deletion_scope_id x); try done; apply (co_tables _ _ HC).
Qed.
Lemma put_target_other s evs kind scope t state g kind' scope' :
  Consistent s evs -> target_by_scope s kind scope = Some t -> scope' <> scope ->
  target_by_scope (put_target (set_lifecycle state g t) s) kind' scope' = target_by_scope s kind' scope'.
Proof.
  intros HC Ht Hne. destruct kind; cbn in Ht; unfold kind_user, kind_import, kind_profile in Ht.
  1: destruct (find_by _ (users _)) as [x|] eqn:E in Ht; [|done]. 2: destruct (find_by _ (imports _)) as [x|] eqn:E in Ht; [|done].
  3: destruct (find_by _ (profile_versions _)) as [x|] eqn:E in Ht; [|done].
  all: apply List.find_some in E as [Hin%list_elem_of_In Hs%String.eqb_eq]; injection Ht as <-;
    destruct kind'; cbn -[table_put find_by scoped]; unfold kind_user, kind_import, kind_profile; cbn -[table_put find_by scoped]; f_equal.
  1: apply (find_put_other usr_deletion_scope_id x); try done; [apply (co_tables _ _ HC)|congruence].
  1: apply (find_put_other imp_deletion_scope_id x); try done; [apply (co_tables _ _ HC)|congruence].
  1: apply (find_put_other pv_deletion_scope_id x); try done; [apply (co_tables _ _ HC)|congruence].
Qed.
Lemma put_target_ids t s :
  row_id <$> users (st_base (put_target t s)) = row_id <$> users (st_base s)
  /\ row_id <$> imports (st_base (put_target t s)) = row_id <$> imports (st_base s)
  /\ row_id <$> profile_versions (st_base (put_target t s)) = row_id <$> profile_versions (st_base s).
Proof. destruct t; cbn -[table_put]; split_and!; try done; by rewrite table_put_ids. Qed.

(** ** What a write leaves alone *)
Lemma view_frame s evs s' evs' id :
  control_of s' id = control_of s id -> (forall c, control_of s id = Some c -> control_target s' c = control_target s c) ->
  di_original_generation <$> intent_of s' id = di_original_generation <$> intent_of s id ->
  chain_of id evs' = chain_of id evs -> view s' evs' id = view s evs id.
Proof.
  intros Hc Ht Hi He. unfold view, start_generation. rewrite Hc, He. destruct (control_of s id) as [c|]; [by rewrite (Ht c)|].
  destruct (intent_of s' id), (intent_of s id); cbn in Hi; try done. injection Hi as ->. done.
Qed.
Lemma control_ok_frame s evs s' evs' c :
  control_ok s evs c -> control_of s (dc_deletion_id c) = Some c -> control_of s' (dc_deletion_id c) = Some c ->
  intent_of s' (dc_deletion_id c) = intent_of s (dc_deletion_id c) -> control_target s' c = control_target s c ->
  chain_of (dc_deletion_id c) evs' = chain_of (dc_deletion_id c) evs -> control_ok s' evs' c.
Proof.
  intros [H1 H2 H3 H4 H5 H6] Hc Hc' Hi Ht He. split; [done|done|by rewrite Hi|by rewrite Ht|by rewrite He|].
  rewrite (view_frame s evs s' evs'); [done|congruence| |by rewrite Hi|done]. intros c' E. congruence.
Qed.
Lemma known_frame s evs s' evs' id :
  control_of s' id = control_of s id -> (is_Some (intent_of s id) -> is_Some (intent_of s' id)) ->
  (chain_of id evs <> [] -> chain_of id evs' <> []) -> known s evs id -> known s' evs' id.
Proof. unfold known. intros -> Hi He. tauto. Qed.

(** The tables a deletion's state is read off. *)
Record same_rows (s s' : Store) : Prop := {
  sr_users : users (st_base s') = users (st_base s);
  sr_imports : imports (st_base s') = imports (st_base s);
  sr_profiles : profile_versions (st_base s') = profile_versions (st_base s);
  sr_intents : st_intents s' = st_intents s;
  sr_controls : st_controls s' = st_controls s
}.
Lemma same_target s s' kind scope : same_rows s s' -> target_by_scope s' kind scope = target_by_scope s kind scope.
Proof. intros [H1 H2 H3 _ _]. destruct kind; cbn; unfold kind_user, kind_import, kind_profile; by rewrite ?H1, ?H2, ?H3. Qed.
Definition step_ok (s : Store) (evs : list LedgerEvent) (s' : Store) (evs' : list LedgerEvent) : Prop :=
  Consistent s' evs' /\ Refines s evs s' evs'.
Lemma step_ok_refl s evs : Consistent s evs -> step_ok s evs s evs.
Proof. split; [done|apply refines_refl]. Qed.
Lemma step_ok_trans s1 e1 s2 e2 s3 e3 : step_ok s1 e1 s2 e2 -> step_ok s2 e2 s3 e3 -> step_ok s1 e1 s3 e3.
Proof. intros [_ R1] [C R2]. split; [done|by eapply refines_trans]. Qed.
Lemma control_in s evs c : Consistent s evs -> c ∈ st_controls s -> control_of s (dc_deletion_id c) = Some c.
Proof. intros HC Hc. apply (table_elem_get (A := DeletionControlOperationRecord)); [apply (co_tables _ _ HC)|done]. Qed.
Lemma same_rows_step s s' evs : Consistent s evs -> same_rows s s' -> step_ok s evs s' evs.
Proof.
  intros HC Hs. pose proof Hs as [H1 H2 H3 H4 H5].
  assert (forall id, control_of s' id = control_of s id) as Ec by (intros id; unfold control_of; by rewrite H5).
  assert (forall id, intent_of s' id = intent_of s id) as Ei by (intros id; unfold intent_of; by rewrite H4).
  split.
  - pose proof HC as [A1 A2 A9 A10 A11 A12 A13]. split; try done.
    + destruct A2 as [? ? ? ? ? ? ? ?]. split; unfold generations_ok; rewrite ?H1, ?H2, ?H3, ?H4, ?H5; done.
    + rewrite H5. apply Forall_forall. intros c Hc. rewrite Forall_forall in A9. apply (control_ok_frame s evs); [by apply A9| | |done| |done].
      1,2: rewrite ?Ec; exact (control_in _ _ _ HC Hc). unfold control_target. by rewrite (same_target s).
    + intros id. rewrite Ec. apply A10.
    + intros id i. rewrite Ei. apply A11.
    + intros id i. rewrite Ei, Ec. apply A12.
    + intros id i. rewrite Ei. apply A13.
  - apply refines_same; intros id Hk.
    + revert Hk. apply known_frame; [done|by rewrite Ei|done].
    + apply view_frame; [done| |by rewrite Ei|done]. intros c _. unfold control_target. by rewrite (same_target s).
Qed.

(** ** Intents *)
Lemma table_put_opt_get id (i : DeletionIntentRecord) t i0 :
  table_get (di_deletion_id i) t = Some i0 -> table_get id (table_put i t) = if decide (di_deletion_id i = id) then Some i else table_get id t.
Proof.
  intros Hg. destruct (decide (di_deletion_id i = id)) as [<-|Hne].
  - exact (table_get_put_eq i t i0 Hg).
  - by apply (table_get_put_ne i).
Qed.
Definition same_identity (i i' : DeletionIntentRecord) : Prop :=
  di_deletion_id i' = di_deletion_id i /\ di_original_generation i' = di_original_generation i
  /\ di_proposed_generation i' = di_proposed_generation i.
Lemma intent_ok_same i i' : same_identity i i' -> intent_ok i -> intent_ok i'.
Proof. intros (H1 & H2 & H3) [[? ?] [? ?]]. split; rewrite ?H1, ?H2, ?H3; auto. Qed.
Lemma set_intent_same state digest receipt p c n i : same_identity i (set_intent state digest receipt p c n i).
Proof. done. Qed.
Lemma put_intent_tables s i : Tables s -> intent_ok i -> Tables (put_intent i s).
Proof.
  intros [B1 B2 B3 B4 B5 B6 B7 B8] Hi. split; try done.
  - cbn -[table_put]. change di_deletion_id with (row_id (A := DeletionIntentRecord)). by rewrite table_put_ids.
  - apply Forall_forall. intros j [->|[Hj _]]%elem_of_table_put; [done|]. rewrite Forall_forall in B7. by apply B7.
Qed.
Lemma put_intent_step s evs i i' :
  Consistent s evs -> intent_of s (di_deletion_id i) = Some i -> same_identity i i' -> di_state i <> DI_CONSUMED ->
  di_state i' <> DI_CONSUMED -> (di_state i = DI_INVALIDATED -> di_state i' = DI_INVALIDATED) ->
  step_ok s evs (put_intent i' s) evs.
Proof.
  intros HC Hi Hs Hn Hn' Hinv. pose proof Hs as (Eid & Eg & _). destruct (intent_elem _ _ _ _ HC Hi) as [Hok _].
  assert (forall id, intent_of (put_intent i' s) id = if decide (di_deletion_id i = id) then Some i' else intent_of s id) as Ei.
  { intros id. unfold intent_of, put_intent. cbn -[table_put table_get]. rewrite (table_put_opt_get _ _ _ i); [by rewrite Eid|].
    by rewrite Eid. }
  assert (forall c, c ∈ st_controls s -> dc_deletion_id c <> di_deletion_id i) as Hfree.
  { intros c Hc E. pose proof (co_control _ _ HC) as Hall. rewrite Forall_forall in Hall.
    destruct (ko_intent _ _ _ (Hall _ Hc)) as (j & Hj & Hst). rewrite E in Hj. congruence. }
  split.
  - pose proof HC as [A1 A2 A9 A10 A11 A12 A13]. split; try done.
    + apply put_intent_tables; [done|]. by eapply intent_ok_same.
    + apply Forall_forall. intros c Hc. rewrite Forall_forall in A9. apply (control_ok_frame s evs); [by apply A9| | | |done|done].
      1,2: exact (control_in _ _ _ HC Hc). rewrite Ei. rewrite decide_False; [done|]. intros E. by apply (Hfree c Hc).
    + intros id j. rewrite Ei. case_decide as E; [|apply A11]. intros [= <-] Hab. apply Hinv. eapply A11; [exact Hi|by rewrite E].
    + intros id j. rewrite Ei. case_decide as E; [|apply A12]. intros [= <-] Hst. by destruct Hn'.
    + intros id j. rewrite Ei. case_decide as E; [|apply A13]. intros [= <-] _. rewrite <-E. by eapply A13.
  - apply refines_same; intros id Hk.
    + revert Hk. apply known_frame; [done| |done]. rewrite Ei. case_decide; [done|done].
    + apply view_frame; [done|done| |done]. rewrite Ei. case_decide as E; [|done]. rewrite <-E, Hi. cbn. by rewrite Eg.
Qed.
Lemma add_intent_step s evs i s' :
  Consistent s evs -> intent_ok i -> di_state i = DI_INTENT_CREATED -> chain_of (di_deletion_id i) evs = [] ->
  add_intent i s = Ok s' -> step_ok s evs s' evs.
Proof.
  intros HC Hok Hst Hch. unfold add_intent. intros Ha. apply bind_ok in Ha as ([] & Hx%raise_if_ok & [= <-]).
  assert (di_deletion_id i ∉ di_deletion_id <$> st_intents s) as Hnew.
  { intros (j & E & Hj)%list_elem_of_fmap. apply not_true_iff_false in Hx. apply Hx, existsb_exists. exists j.
    split; [by apply list_elem_of_In|]. unfold intent_conflict. apply String.eqb_eq in E. by rewrite E. }
  assert (forall id, intent_of (set_intents (st_intents s ++ [i]) s) id = if decide (di_deletion_id i = id) then Some i else intent_of s id) as Ei.
  { intros id. unfold intent_of. cbn -[table_get]. by apply (table_get_snoc (A := DeletionIntentRecord)). }
  assert (intent_of s (di_deletion_id i) = None) as Hnone by (by apply table_get_None).
  assert (forall c, c ∈ st_controls s -> dc_deletion_id c <> di_deletion_id i) as Hfree.
  { intros c Hc E. pose proof (co_control _ _ HC) as Hall. rewrite Forall_forall in Hall.
    destruct (ko_intent _ _ _ (Hall _ Hc)) as (j & Hj & _). rewrite E in Hj. congruence. }
  assert (control_of s (di_deletion_id i) = None) as Hcn.
  { destruct (control_of s (di_deletion_id i)) as [c|] eqn:E; [|done]. destruct (table_get_elem _ _ _ E) as [Hc Hid]. by destruct (Hfree c). }
  split.
  - pose proof HC as [A1 A2 A9 A10 A11 A12 A13]. split; try done.
    + destruct A2 as [B1 B2 B3 B4 B5 B6 B7 B8]. split; try done; [by apply NoDup_fmap_snoc|].
      apply Forall_app. split; [done|by constructor].
    + apply Forall_forall. intros c Hc. rewrite Forall_forall in A9. apply (control_ok_frame s evs); [by apply A9| | | |done|done].
      1,2: exact (control_in _ _ _ HC Hc). rewrite Ei, decide_False; [done|]. intros E. by apply (Hfree c Hc).
    + intros id j. rewrite Ei. case_decide as E; [|apply A11]. intros [= <-]. rewrite <-E, Hch. intros Hab. by apply elem_of_nil in Hab.
    + intros id j. rewrite Ei. case_decide as E; [|apply A12]. intros [= <-] H. congruence.
    + intros id j. rewrite Ei. case_decide as E; [|apply A13]. intros [= <-] _. rewrite <-E, Hch. apply not_elem_of_nil.
  - apply refines_same; intros id Hk.
    + revert Hk. apply known_frame; [done| |done]. rewrite Ei. by case_decide.
    + apply view_frame; [done|done| |done]. rewrite Ei, decide_False; [done|]. intros <-. destruct Hk as [Hk|[Hk|Hk]].
      * rewrite Hcn in Hk. by destruct Hk.
      * rewrite Hnone in Hk. by destruct Hk.
      * done.
Qed.

(** ** Events *)
Lemma extends_chain rq phase evs e evs' id :
  extends rq phase evs e evs' ->
  chain_of id evs' = if decide (rq_deletion_id rq = id) then chain_of id evs ++ [e] else chain_of id evs.
Proof.
  intros [-> Hrq _ _ _]. rewrite chain_of_app, chain_of_one. subst rq. cbn. case_decide; [done|]. by rewrite app_nil_r.
Qed.
Lemma append_step s evs rq phase e evs' o :
  Consistent s evs -> legal evs' -> extends rq phase evs e evs' -> let d := rq_deletion_id rq in
  known s evs d -> run (view s evs d) [o] = Ok (view s evs' d) ->
  (forall c, control_of s d = Some c -> control_ok s evs c -> control_ok s evs' c) ->
  (control_of s d = None -> phase <> REQUESTED) ->
  (forall i, intent_of s d = Some i -> phase = ABORTED -> di_state i = DI_INVALIDATED) -> phase <> COMPLETED ->
  step_ok s evs s evs'.
Proof.
  intros HC Hl Hext d Hk Hrun Hctl Hreq Hab Hcomp. pose proof (fun id => extends_chain _ _ _ _ _ id Hext) as Hch.
  assert (forall id, id <> d -> chain_of id evs' = chain_of id evs) as Hother by (intros id Hne; rewrite Hch, decide_False; [done|]; by intros <-).
  assert (phases evs' d = phases evs d ++ [phase]) as Hd.
  { rewrite Hch, decide_True by done. rewrite fmap_app. cbn. by rewrite (ext_phase _ _ _ _ _ Hext). }
  split.
  - pose proof HC as [A1 A2 A9 A10 A11 A12 A13]. split; try done.
    + apply Forall_forall. intros c Hc. rewrite Forall_forall in A9. pose proof (control_in _ _ _ HC Hc) as Hcc.
      destruct (decide (dc_deletion_id c = d)) as [E|E]; [rewrite E in Hcc; by apply Hctl, A9|].
      apply (control_ok_frame s evs); auto.
    + intros id Hn. destruct (decide (id = d)) as [->|E]; [|rewrite Hother by done; by apply A10]. rewrite Hd, !elem_of_app.
      intros [Hin|Hin%list_elem_of_singleton]; [by left; apply A10|]. by destruct (Hreq Hn).
    + intros id i Hi. destruct (decide (id = d)) as [->|E]; [|rewrite Hother by done; by apply A11]. rewrite Hd, elem_of_app.
      intros [Hin|Hin%list_elem_of_singleton]; [by eapply A11|]. by apply (Hab i).
    + intros id i Hi Hst. destruct (decide (id = d)) as [->|E]; [|rewrite Hother by done; by eapply A13]. rewrite Hd, elem_of_app.
      intros [Hin|Hin%list_elem_of_singleton]; [by eapply A13|]. done.
  - apply (refines_step _ _ _ _ d [o]).
    + destruct Hext as [-> _ _ _ _]. by eexists.
    + intros id. apply known_frame; [done|done|]. rewrite Hch. case_decide; [|done]. by destruct (chain_of id evs).
    + intros id Hne _. by apply view_frame; auto.
    + done.
Qed.
Lemma append_prepared_step s evs rq e evs' i :
  Consistent s evs -> legal evs' -> extends rq PREPARED evs e evs' ->
  intent_of s (rq_deletion_id rq) = Some i -> control_of s (rq_deletion_id rq) = None -> step_ok s evs s evs'.
Proof.
  intros HC Hl Hext Hi Hn. assert (chain_of (rq_deletion_id rq) evs = []) as Hnil.
  { pose proof (ext_legal _ _ _ _ _ Hext) as H. destruct (chain_of (rq_deletion_id rq) evs) as [|x [|y [|z l]]]; [done|..]; exfalso;
      legal_cases4 H; simplify_list_eq; by destruct l. }
  apply (append_step _ _ _ _ _ _ OpPrepared HC Hl Hext); try done; [right; left; by exists i| |by intros c Hc; rewrite Hn in Hc].
  pose proof (extends_chain _ _ _ _ _ (rq_deletion_id rq) Hext) as Hch. rewrite decide_True in Hch by done.
  unfold view, start_generation. rewrite Hn, Hi, Hch, Hnil. cbn. by rewrite (ext_phase _ _ _ _ _ Hext).
Qed.
Lemma append_requested_step s evs rq e evs' c :
  Consistent s evs -> legal evs' -> extends rq REQUESTED evs e evs' -> control_of s (rq_deletion_id rq) = Some c ->
  step_ok s evs s evs'.
Proof.
  intros HC Hl Hext Hc. pose proof (extends_chain _ _ _ _ _ (rq_deletion_id rq) Hext) as Hch. rewrite decide_True in Hch by done.
  assert (phases evs (rq_deletion_id rq) = [PREPARED]) as Hp.
  { pose proof (ext_legal _ _ _ _ _ Hext) as H. destruct (phases evs (rq_deletion_id rq)) as [|x [|y [|z l]]];
      legal_cases4 H; simplify_list_eq; try done; by destruct l. }
  assert (phases evs' (rq_deletion_id rq) = [PREPARED; REQUESTED]) as Hp'.
  { rewrite Hch, fmap_app, Hp. cbn. by rewrite (ext_phase _ _ _ _ _ Hext). }
  pose proof (control_phase _ _ _ _ HC Hc) as Hph. destruct (control_elem _ _ _ _ HC Hc) as [Hok Eid].
  assert (run (view s evs (rq_deletion_id rq)) [OpRequested] = Ok (view s evs' (rq_deletion_id rq))
          /\ phase_of (dc_original_generation c) (view s evs' (rq_deletion_id rq))) as [Hrun Hph'].
  { revert Hph. unfold view, start_generation. rewrite Hc, Hp, Hp'. intros Hph.
    inversion Hph; subst; try (by match goal with H : _ \/ _ |- _ => destruct H as [H|H]; discriminate H end); try done.
    split; [reflexivity|]. apply ph_fenced. by right. }
  apply (append_step _ _ _ _ _ _ OpRequested HC Hl Hext); try done; [left; by exists c| |by rewrite Hc].
  intros c'. rewrite Hc. intros [= <-] [H1 H2 H3 H4 H5 H6]. split; try done; rewrite Eid in *; [|done].
  rewrite Hch. destruct (chain_of (rq_deletion_id rq) evs); [done|exact H5].
Qed.
Lemma append_aborted_step s evs rq e evs' :
  Consistent s evs -> legal evs' -> extends rq ABORTED evs e evs' -> control_of s (rq_deletion_id rq) = None ->
  (forall i, intent_of s (rq_deletion_id rq) = Some i -> di_state i = DI_INVALIDATED) -> step_ok s evs s evs'.
Proof.
  intros HC Hl Hext Hn Hinv. assert (phases evs (rq_deletion_id rq) = [PREPARED]) as Hp.
  { pose proof (ext_legal _ _ _ _ _ Hext) as H. destruct (phases evs (rq_deletion_id rq)) as [|x [|y [|z l]]];
      legal_cases4 H; simplify_list_eq; try done; by destruct l. }
  pose proof (extends_chain _ _ _ _ _ (rq_deletion_id rq) Hext) as Hch. rewrite decide_True in Hch by done.
  apply (append_step _ _ _ _ _ _ (OpAborted true) HC Hl Hext); try done; [right; right| |by intros c Hc; rewrite Hn in Hc|by auto].
  - intros E. by rewrite E in Hp.
  - unfold view, start_generation. rewrite Hn, Hch, fmap_app, Hp. cbn. rewrite (ext_phase _ _ _ _ _ Hext).
    assert (head (chain_of (rq_deletion_id rq) evs ++ [e]) = head (chain_of (rq_deletion_id rq) evs)) as ->
      by (destruct (chain_of (rq_deletion_id rq) evs); done).
    by destruct (intent_of s (rq_deletion_id rq)), (head (chain_of (rq_deletion_id rq) evs)).
Qed.

(** ** Controls *)
Lemma control_step s evs s' c d os :
  Consistent s evs -> Tables s' ->
  (forall id, control_of s' id = if decide (d = id) then Some c else control_of s id) ->
  (forall id, id <> d -> intent_of s' id = intent_of s id) ->
  (forall c0, c0 ∈ st_controls s' -> c0 = c \/ c0 ∈ st_controls s) ->
  (forall c0, c0 ∈ st_controls s -> dc_deletion_id c0 <> d -> control_target s' c0 = control_target s c0) ->
  dc_deletion_id c = d -> control_ok s' evs c -> ABORTED ∉ phases evs d ->
  run (view s evs d) os = Ok (view s' evs d) -> step_ok s evs s' evs.
Proof.
  intros HC HT Ec Ei Hin Hto Hd Hok Hna Hrun. pose proof HC as [A1 A2 A9 A10 A11 A12 A13].
  destruct (ko_intent _ _ _ Hok) as (i & Hi & Hcons). rewrite Hd in Hi. rewrite Forall_forall in A9. split.
  - split; try done.
    + apply Forall_forall. intros c0 Hc0. destruct (decide (dc_deletion_id c0 = d)) as [E|E].
      * destruct (Hin c0 Hc0) as [->|_]; [done|]. assert (control_of s' d = Some c0) as Hg.
        { rewrite <-E. apply (table_elem_get (A := DeletionControlOperationRecord)); [apply HT|done]. }
        rewrite Ec, decide_True in Hg by done. by injection Hg as <-.
      * destruct (Hin c0 Hc0) as [->|Hc0']; [done|]. pose proof (control_in _ _ _ HC Hc0') as Hcc.
        apply (control_ok_frame s evs); [by apply A9|done| |by apply Ei|by apply Hto|done]. rewrite Ec, decide_False; [done|congruence].
    + intros id. rewrite Ec. case_decide; [done|]. apply A10.
    + intros id j Hj. destruct (decide (id = d)) as [->|E]; [done|]. rewrite Ei in Hj by done. by apply A11.
    + intros id j Hj. rewrite Ec. case_decide as E; [by eexists|]. rewrite Ei in Hj by done. by eapply A12.
    + intros id j Hj. destruct (decide (id = d)) as [->|E]; [congruence|]. rewrite Ei in Hj by done. by eapply A13.
  - apply (refines_step _ _ _ _ d os); [done| | |done].
    + intros id Hk. unfold known. rewrite Ec. case_decide as E; [left; by eexists|]. destruct Hk as [H|[H|H]]; auto. rewrite Ei; auto.
    + intros id Hne _. apply view_frame; [by rewrite Ec, decide_False| |by rewrite Ei|done].
      intros c0 Hc0. destruct (table_get_elem _ _ _ Hc0) as [Hc0' Hid]. apply Hto; [done|]. change (dc_deletion_id c0 = id) in Hid. congruence.
Qed.

(** ** Fencing *)
Lemma chain_first evs e :
  legal evs -> e ∈ evs -> ev_phase e = PREPARED -> head (chain_of (ev_deletion_id e) evs) = Some e.
Proof.
  intros Hl He Hp. assert (e ∈ chain_of (ev_deletion_id e) evs) as Hin by (by apply chain_of_elem).
  pose proof (Hl (ev_deletion_id e)) as H. destruct (chain_of (ev_deletion_id e) evs) as [|x l]; [by apply elem_of_nil in Hin|].
  specialize (H ltac:(done)). cbn. apply elem_of_cons in Hin as [->|Hin]; [done|]. exfalso.
  apply list_elem_of_split in Hin as (l1 & l2 & ->). rewrite fmap_cons, fmap_app, fmap_cons, Hp in H.
  legal_cases4 H; simplify_list_eq; repeat (destruct l1 as [|? l1]; simplify_list_eq).
Qed.
Lemma unfenced_prepared s evs e i :
  Consistent s evs -> e ∈ evs -> ev_phase e = PREPARED -> intent_of s (ev_deletion_id e) = Some i ->
  control_of s (ev_deletion_id e) = None -> di_state i <> DI_INVALIDATED -> di_state i <> DI_CONSUMED ->
  phases evs (ev_deletion_id e) = [PREPARED].
Proof.
  intros HC He Hp Hi Hn Hinv Hcons. assert (e ∈ chain_of (ev_deletion_id e) evs) as Hin by (by apply chain_of_elem).
  pose proof (legal_phases evs (ev_deletion_id e) (co_legal _ _ HC)) as Hl.
  pose proof (co_unfenced _ _ HC _ Hn) as Hu. pose proof (co_aborted _ _ HC _ _ Hi) as Ha.
  pose proof (co_live _ _ HC _ _ Hi Hcons) as Hlv. legal_cases Hl; rewrite Hl in *; try done.
  - apply fmap_nil_inv in Hl. rewrite Hl in Hin. by apply elem_of_nil in Hin.
  - destruct Hlv. apply Hu. set_solver.
  - destruct Hlv. set_solver.
  - destruct Hinv. apply Ha. set_solver.
Qed.
Lemma put_target_rows t s : st_intents (put_target t s) = st_intents s /\ st_controls (put_target t s) = st_controls s.
Proof. by destruct t. Qed.
Lemma put_target_consistent_ids t s evs :
  Consistent s evs ->
  NoDup (row_id <$> users (st_base (put_target t s))) /\ NoDup (row_id <$> imports (st_base (put_target t s)))
  /\ NoDup (row_id <$> profile_versions (st_base (put_target t s))).
Proof. intros HC. destruct (put_target_ids t s) as (-> & -> & ->). split_and!; apply (co_tables _ _ HC). Qed.
Lemma put_target_generations t s : generations_ok s -> 0 <= target_lifecycle_generation t -> generations_ok (put_target t s).
Proof.
  intros (H1 & H2 & H3) Ht. destruct t; (split; [|split]); try done; cbn -[table_put].
  all: apply Forall_forall; intros x [->|[Hx _]]%elem_of_table_put; [done|]; rewrite Forall_forall in H1; rewrite Forall_forall in H2; rewrite Forall_forall in H3; auto.
Qed.
Lemma target_generation s kind scope t : generations_ok s -> target_by_scope s kind scope = Some t -> 0 <= target_lifecycle_generation t.
Proof.
  intros (H1 & H2 & H3) Ht. rewrite Forall_forall in H1; rewrite Forall_forall in H2; rewrite Forall_forall in H3.
  destruct kind; cbn in Ht; unfold kind_user, kind_import, kind_profile in Ht.
  1: destruct (find_by _ (users _)) as [x|] eqn:E in Ht; [|done]. 2: destruct (find_by _ (imports _)) as [x|] eqn:E in Ht; [|done].
  3: destruct (find_by _ (profile_versions _)) as [x|] eqn:E in Ht; [|done].
  all: injection Ht as <-; apply List.find_some in E as [Hin%list_elem_of_In _]; cbn; auto.
Qed.
Lemma resource_generation s kind id owner t :
  generations_ok s -> target_by_resource_id s kind id owner = Some t -> 0 <= target_lifecycle_generation t.
Proof.
  intros (H1 & H2 & H3) Ht. rewrite Forall_forall in H1; rewrite Forall_forall in H2; rewrite Forall_forall in H3.
  destruct kind; cbn in Ht; unfold kind_user, kind_import, kind_profile in Ht.
  1: destruct (find_by _ (users _)) as [x|] eqn:E in Ht; [|done]. 2: destruct (find_by _ (imports _)) as [x|] eqn:E in Ht; [|done].
  3: destruct (find_by _ (profile_versions _)) as [x|] eqn:E in Ht; [|done].
  all: injection Ht as <-; apply List.find_some in E as [Hin%list_elem_of_In _]; cbn; auto.
Qed.
Lemma target_with s l kind scope : target_by_scope (set_controls l s) kind scope = target_by_scope s kind scope.
Proof. by destruct kind. Qed.
Lemma target_intent s i kind scope : target_by_scope (put_intent i s) kind scope = target_by_scope s kind scope.
Proof. by destruct kind. Qed.
Lemma life_set state g t : target_lifecycle_state (set_lifecycle state g t) = state /\ target_lifecycle_generation (set_lifecycle state g t) = g.
Proof. by destruct t. Qed.

Definition fence_store (prepared : LedgerEvent) (i : DeletionIntentRecord) (t : DeletionTarget) (prepared_at now : Z) (s : Store) : Store :=
  set_controls (st_controls s ++ [fence_control prepared i now])
    (put_intent (consume_intent prepared prepared_at now i)
      (put_target (set_lifecycle LC_DELETION_PENDING_LEDGER (ev_proposed_generation prepared) t) s)).
Lemma write_fence_rows prepared i t uid prepared_at now s s' :
  write_fence prepared i t uid prepared_at now s = Ok s' ->
  same_rows (fence_store prepared i t prepared_at now s) s'
  /\ existsb (control_conflict (fence_control prepared i now)) (st_controls s) = false.
Proof.
  unfold write_fence. cbv zeta. intros H. case_match; [|done]. unfold add_control in H.
  apply bind_ok in H as ([] & Hx%raise_if_ok & [= <-]).
  split; [unfold fence_store; split; case_decide; by destruct t|]. revert Hx. case_decide; by destruct t.
Qed.
Lemma fence_tables prepared i t prepared_at now s evs :
  Consistent s evs -> intent_ok i -> 0 <= ev_proposed_generation prepared ->
  (forall c0, c0 ∈ st_controls s -> dc_deletion_id c0 <> ev_deletion_id prepared /\ dc_target_scope_id c0 <> di_target_scope_id i) ->
  Tables (fence_store prepared i t prepared_at now s).
Proof.
  intros HC Hi Hpos Hnew. set (t' := set_lifecycle LC_DELETION_PENDING_LEDGER (ev_proposed_generation prepared) t).
  assert (Tables (put_target t' s)) as HT.
  { destruct (put_target_consistent_ids t' _ _ HC) as (N1 & N2 & N3), (put_target_rows t' s) as [R1 R2], (co_tables _ _ HC) as [B1 B2 B3 B4 B5 B6 B7 B8].
    assert (generations_ok (put_target t' s)) by (apply put_target_generations; [done|]; unfold t'; by rewrite (proj2 (life_set _ _ _))).
    split; rewrite ?R1, ?R2; done. }
  apply (put_intent_tables _ (consume_intent prepared prepared_at now i)) in HT; [|by eapply intent_ok_same; [apply set_intent_same|]].
  destruct HT as [C1 C2 C3 C4 C5 C6 C7 C8]. split; try done; cbn [fence_store set_controls st_controls].
  all: apply NoDup_fmap_snoc; [apply (co_tables _ _ HC)|].
  all: intros (c0 & E & Hc0)%list_elem_of_fmap; destruct (Hnew _ Hc0) as [H1 H2]; by symmetry in E.
Qed.
Lemma fence_step prepared i t uid prepared_at now s evs s' :
  Consistent s evs -> prepared ∈ evs -> ev_phase prepared = PREPARED -> intent_of s (ev_deletion_id prepared) = Some i ->
  control_of s (ev_deletion_id prepared) = None -> target_by_scope s (di_target_kind i) (di_target_scope_id i) = Some t ->
  target_lifecycle_state t = LC_ACTIVE -> di_state i <> DI_INVALIDATED -> di_state i <> DI_CONSUMED ->
  request_ok (event_request prepared) -> ev_original_generation prepared = di_original_generation i ->
  ev_proposed_generation prepared = di_proposed_generation i ->
  write_fence prepared i t uid prepared_at now s = Ok s' -> step_ok s evs s' evs.
Proof.
  intros HC He Hp Hi Hn Ht Hact Hinv Hcons Hrq Hog Hpg Hw.
  apply write_fence_rows in Hw as [Hsame Hconf]. set (d := ev_deletion_id prepared) in *.
  set (c := fence_control prepared i now). set (s1 := fence_store prepared i t prepared_at now s) in *.
  pose proof (unfenced_prepared _ _ _ _ HC He Hp Hi Hn Hinv Hcons) as Hph. fold d in Hph.
  destruct (intent_elem _ _ _ _ HC Hi) as [[Hid [Hg Hpg']] Hdi].
  assert (forall id, control_of s1 id = if decide (d = id) then Some c else control_of s id) as Ec.
  { intros id. unfold control_of, s1, fence_store. cbn [st_controls set_controls].
    rewrite (table_get_snoc (A := DeletionControlOperationRecord)); [done|]. by apply table_get_None. }
  assert (forall id, intent_of s1 id = if decide (d = id) then Some (consume_intent prepared prepared_at now i) else intent_of s id) as Ei.
  { intros id. unfold intent_of, s1, fence_store, put_intent. cbn [set_controls set_intents st_intents].
    destruct (put_target_rows (set_lifecycle LC_DELETION_PENDING_LEDGER (ev_proposed_generation prepared) t) s) as [-> _].
    rewrite (table_put_opt_get _ _ _ i); change (di_deletion_id (consume_intent prepared prepared_at now i)) with (di_deletion_id i); by rewrite Hdi. }
  assert (control_target s1 c = Some (set_lifecycle LC_DELETION_PENDING_LEDGER (ev_proposed_generation prepared) t)) as Etc.
  { unfold control_target, s1, fence_store. rewrite target_with, target_intent. by eapply put_target_same. }
  assert (forall c0, c0 ∈ st_controls s -> dc_deletion_id c0 <> d /\ dc_target_scope_id c0 <> di_target_scope_id i) as Hnew.
  { intros c0 Hc0. apply not_true_iff_false in Hconf. split; intros E; apply Hconf, existsb_exists; exists c0.
    all: split; [by apply list_elem_of_In|]; unfold control_conflict; cbn; apply orb_true_iff; left; apply orb_true_iff.
    - left. by apply String.eqb_eq.
    - right. by apply String.eqb_eq. }
  assert (view s1 evs d = {| lifecycle := DELETION_PENDING_LEDGER; original_generation := di_original_generation i;
    generation := di_original_generation i + 1; ledger_chain := [PREPARED]; intent_consumed := true; sweep_checkpoint := Some "FENCE" |}) as Ev.
  { unfold view, start_generation. rewrite Ec, decide_True, Etc by done. destruct (life_set LC_DELETION_PENDING_LEDGER (ev_proposed_generation prepared) t) as [-> _].
    rewrite Hph. cbn. f_equal; lia. }
  assert (step_ok s evs s1 evs) as H1.
  { apply (control_step s evs s1 c d [OpFence]); try done.
    - apply (fence_tables _ _ _ _ _ _ evs); [done|by split|lia|done].
    - intros id Hne. by rewrite Ei, decide_False.
    - intros c0. change (c0 ∈ st_controls s ++ [c] -> c0 = c \/ c0 ∈ st_controls s). rewrite elem_of_app, list_elem_of_singleton. tauto.
    - intros c0 Hc0 _. unfold control_target, s1, fence_store. rewrite target_with, target_intent.
      eapply put_target_other; [done|exact Ht|]. by apply Hnew.
    - split.
      + exact Hrq.
      + cbn. lia.
      + exists (consume_intent prepared prepared_at now i). split; [|done]. change (dc_deletion_id c) with d. by rewrite Ei, decide_True.
      + eexists. split; [exact Etc|]. by destruct (life_set LC_DELETION_PENDING_LEDGER (ev_proposed_generation prepared) t) as [_ ->].
      + change (dc_deletion_id c) with d. unfold d. by rewrite (chain_first evs prepared (co_legal _ _ HC)).
      + change (dc_deletion_id c) with d. rewrite Ev. change (dc_original_generation c) with (ev_original_generation prepared).
        rewrite Hog. apply ph_fenced. by left.
    - rewrite Hph. set_solver.
    - rewrite Ev. unfold view, start_generation. by rewrite Hn, Hi, Hph. }
  eapply step_ok_trans; [exact H1|]. apply same_rows_step; [apply H1|done].
Qed.

(** ** Draining *)
Lemma put_control_get s c id c0 :
  control_of s (dc_deletion_id c) = Some c0 -> control_of (put_control c s) id = if decide (dc_deletion_id c = id) then Some c else control_of s id.
Proof.
  intros Hc. unfold control_of, put_control. cbn -[table_put table_get]. destruct (decide (dc_deletion_id c = id)) as [<-|Hne].
  - exact (table_get_put_eq c _ c0 Hc).
  - by apply (table_get_put_ne c).
Qed.
Definition drain_store (job : string) (c : DeletionControlOperationRecord) (t : DeletionTarget) (now : Z) (s : Store) : Store :=
  put_control (begin_drain job now c) (put_target (set_lifecycle LC_DELETING (target_lifecycle_generation t) t) s).
Lemma write_drain_rows {SH : Sha256} job c t u g now s s' :
  write_drain job c t u g now s = Ok s' -> same_rows (drain_store job c t now s) s'.
Proof.
  unfold write_drain. intros H. apply bind_ok in H as (jobs' & _ & H). cbv zeta in H. case_match; [|done]. apply ok_inj in H as <-.
  unfold drain_store. split; by destruct t.
Qed.
Lemma drain_tables job c t now s evs :
  Consistent s evs -> control_of s (dc_deletion_id c) = Some c -> control_target s c = Some t -> Tables (drain_store job c t now s).
Proof.
  intros HC Hc Ht. set (t' := set_lifecycle LC_DELETING (target_lifecycle_generation t) t).
  destruct (put_target_consistent_ids t' _ _ HC) as (N1 & N2 & N3), (put_target_rows t' s) as [R1 R2], (co_tables _ _ HC) as [B1 B2 B3 B4 B5 B6 B7 B8].
  assert (generations_ok (put_target t' s)).
  { apply put_target_generations; [done|]. unfold t'. rewrite (proj2 (life_set _ _ _)). by eapply target_generation. }
  split; try done; unfold drain_store, put_control; cbn [set_controls st_controls st_intents]; rewrite ?R1, ?R2; try done; fold t'; rewrite ?R2, ?R1; try done.
  - change dc_deletion_id with (row_id (A := DeletionControlOperationRecord)). by rewrite table_put_ids.
  - assert (dc_target_scope_id <$> table_put (begin_drain job now c) (st_controls s) = dc_target_scope_id <$> st_controls s) as ->; [|done].
    unfold table_put. rewrite <-list_fmap_compose. apply list_fmap_ext. intros k x Hx. simpl. case_decide as E; [|done].
    pose proof (control_in s evs x HC) as Hin. specialize (Hin ltac:(by eapply list_elem_of_lookup_2)).
    change (dc_deletion_id x = dc_deletion_id c) in E. rewrite E in Hin. assert (x = c) as -> by congruence. done.
Qed.
Lemma drain_step {SH : Sha256} job c t u g now s evs s' :
  Consistent s evs -> control_of s (dc_deletion_id c) = Some c -> control_target s c = Some t ->
  target_lifecycle_state t = LC_DELETION_PENDING_LEDGER -> REQUESTED ∈ phases evs (dc_deletion_id c) ->
  write_drain job c t u g now s = Ok s' -> step_ok s evs s' evs.
Proof.
  intros HC Hc Ht Hst Hreq Hw. apply write_drain_rows in Hw as Hsame. set (s1 := drain_store job c t now s) in *. set (d := dc_deletion_id c) in *.
  destruct (control_elem _ _ _ _ HC Hc) as [Hok _]. set (c' := begin_drain job now c).
  set (t' := set_lifecycle LC_DELETING (target_lifecycle_generation t) t).
  assert (forall id, control_of s1 id = if decide (d = id) then Some c' else control_of s id) as Ec.
  { intros id. unfold s1, drain_store. fold c' t'. rewrite (put_control_get _ _ _ c); unfold control_of; by rewrite (proj2 (put_target_rows t' s)). }
  assert (forall id, intent_of s1 id = intent_of s id) as Ei.
  { intros id. unfold intent_of. change (st_intents s1) with (st_intents (put_target t' s)). by rewrite (proj1 (put_target_rows t' s)). }
  assert (control_target s1 c' = Some t') as Etc.
  { unfold control_target, s1, drain_store, put_control. rewrite target_with. by eapply put_target_same. }
  pose proof (control_phase _ _ _ _ HC Hc) as Hp.
  assert (phases evs d = [PREPARED; REQUESTED]) as Hph.
  { revert Hp. unfold view, start_generation. rewrite Hc, Ht, Hst. cbn. intros Hp.
    inversion Hp as [| | |ch Hor| |]. subst ch. destruct Hor as [Hq|Hq]; [|done]. rewrite Hq in Hreq. set_solver. }
  assert (view s evs d = {| lifecycle := DELETION_PENDING_LEDGER; original_generation := dc_original_generation c;
    generation := dc_deletion_generation c; ledger_chain := [PREPARED; REQUESTED]; intent_consumed := true;
    sweep_checkpoint := Some (control_phase_str (dc_phase c)) |}) as Ev by (unfold view, start_generation; by rewrite Hc, Ht, Hst, Hph).
  assert (view s1 evs d = {| lifecycle := DELETING; original_generation := dc_original_generation c;
    generation := dc_deletion_generation c; ledger_chain := [PREPARED; REQUESTED]; intent_consumed := true;
    sweep_checkpoint := Some "DRAIN" |}) as Ev1.
  { unfold view, start_generation. rewrite Ec, decide_True, Etc, Hph by done. by destruct t. }
  destruct Hok as [K1 K2 K3 K4 K5 K6]. fold d in K3, K5.
  assert (step_ok s evs s1 evs) as Hstep; [|eapply step_ok_trans; [exact Hstep|apply same_rows_step; [apply Hstep|done]]].
  apply (control_step s evs s1 c' d [OpBeginSweep]); try done.
  - by eapply drain_tables.
  - intros c0. change (st_controls s1) with (table_put c' (st_controls (put_target t' s))). rewrite (proj2 (put_target_rows t' s)). intros Hc0.
    apply elem_of_table_put in Hc0 as [->|[? _]]; auto.
  - intros c0 Hc0 Hne. unfold control_target, s1, drain_store, put_control. rewrite target_with.
    eapply put_target_other; [done|exact Ht|]. intros E. apply Hne. apply table_get_elem in Hc as [Hcin _].
    assert (c0 = c) as ->; [|done]. apply (NoDup_fmap_elem dc_target_scope_id (st_controls s)); [apply (co_tables _ _ HC)|done|done|done].
  - split; try done.
    + exists t'. split; [done|]. destruct K4 as (t0 & E & Hg). unfold t'. rewrite (proj2 (life_set _ _ _)). change (dc_deletion_generation c') with (dc_deletion_generation c). congruence.
    + change (dc_deletion_id c') with d. rewrite Ev1. change (dc_original_generation c') with (dc_original_generation c). rewrite K2.
      apply ph_sweeping; [by left|]. vm_compute. set_solver.
  - rewrite Hph. set_solver.
  - by rewrite Ev, Ev1.
Qed.
(** A deletion whose target is being swept by a job. *)
Definition sweeping (id : string) (s : Store) : Prop :=
  exists c t, control_of s id = Some c /\ is_Some (dc_deletion_job_id c) /\ control_target s c = Some t
  /\ target_lifecycle_state t = LC_DELETING.
Lemma drain_sweeping {SH : Sha256} job c t u g now s evs s' :
  Consistent s evs -> control_of s (dc_deletion_id c) = Some c -> control_target s c = Some t ->
  write_drain job c t u g now s = Ok s' -> sweeping (dc_deletion_id c) s'.
Proof.
  intros HC Hc Ht Hw. apply write_drain_rows in Hw. set (t' := set_lifecycle LC_DELETING (target_lifecycle_generation t) t).
  exists (begin_drain job now c), t'. unfold control_of, control_target. rewrite (sr_controls _ _ Hw), (same_target _ _ _ _ Hw).
  split_and!; [|by eexists| |by destruct t].
  - unfold drain_store. fold t'. change (control_of (put_control (begin_drain job now c) (put_target t' s)) (dc_deletion_id c) = Some (begin_drain job now c)).
    rewrite (put_control_get _ _ _ c); [by rewrite decide_True|]. unfold control_of. by rewrite (proj2 (put_target_rows t' s)).
  - unfold drain_store, put_control. rewrite target_with. by eapply put_target_same.
Qed.
Lemma sweeping_view s evs id :
  Consistent s evs -> sweeping id s -> exists c, control_of s id = Some c /\ is_Some (dc_deletion_job_id c)
  /\ lifecycle (view s evs id) = DELETING /\ intent_consumed (view s evs id) = true
  /\ generation (view s evs id) = original_generation (view s evs id) + 1.
Proof.
  intros HC (c & t & Hc & Hj & Ht & Hst). exists c. pose proof (control_elem _ _ _ _ HC Hc) as [Hok _].
  unfold view, start_generation. rewrite Hc, Ht, Hst. cbn. split_and!; try done. apply Hok.
Qed.
