(* ===== verification/DeletionsProofs.v ===== *)
(** * DeletionsProofs: every operation keeps the two stores in agreement

    [local] is the logic of the database: the part of an operation that does not
    call the ledger keeps [Consistent] and refines the protocol whatever it
    raises.  [sat] is the logic of whole operations. *)

From S2P Require Import Prelude Float Json JsonCanonical JsonLoads Calendar PyText IsoTime Base64 Keyrings Deletion.
From S2P Require Import Ledger LedgerProofs LedgerChains Database DeletionStore Deletions DeletionsInvariant.

(** ** Runs that return *)
Section Runs.
Context {L : Type} {RT : Runtime} {SH : Sha256} {IF : IsoFormats}.
Implicit Types (w : World L).
Lemma run_bind {A B} (m : op L A) (k : A -> op L B) w b w' :
  (m ≫= k) w = (Ok b, w') -> exists a w1, m w = (Ok a, w1) /\ k a w1 = (Ok b, w').
Proof. unfold mbind, op_bind. destruct (m w) as [[a|e] w1]; [eauto|done]. Qed.
Lemma run_pure {A B} (m : result A) (k : A -> op L B) w b w' :
  (pure m ≫= k) w = (Ok b, w') -> exists a, m = Ok a /\ k a w = (Ok b, w').
Proof. intros (a & w1 & [= -> <-] & H)%run_bind. eauto. Qed.
Lemma run_transaction {A} (m : op L A) w a w' :
  transaction m w = (Ok a, w') -> exists w1, m w = (Ok a, w1) /\ w_store w' = w_store w1.
Proof.
  unfold transaction. destruct (m w) as [[x|e] w1]; [|done]. destruct (commit_outcome _); try done. intros [= -> <-]. by exists w1.
Qed.
Lemma run_receipt e w w' : store_ledger_receipt e w = (Ok tt, w') -> exists rows, w_store w' = set_ledger_receipts rows (w_store w).
Proof.
  intros (s & w1 & [= <- <-] & H)%run_bind. destruct (find_by _ _).
  - injection H as _ <-. exists (st_ledger_receipts (w_store w)). by destruct (w_store w).
  - apply run_bind in H as (id & w1 & [= _ <-] & H). apply run_pure in H as (t & _ & H). unfold try_update in H.
    destruct (_ ≫= _) as [s'|x] eqn:E; [|done]. apply bind_ok in E as (rows & _ & [= <-]). injection H as <-. by exists rows.
Qed.
End Runs.

Section Proofs.
Context {L : Type} {DL : DeletionLedger L} {DLL : DeletionLedgerLaws L} {RT : Runtime} {RTL : RuntimeLaws}.
Context {CR : Crypto} {SH : Sha256} {DG : DigestLaws} {RH : Registry.ReceiptHasher} {JL : JsonLoads} {IF : IsoFormats}.
Variable keyring : VersionedKeyring.
Hypothesis keyring_ok : keyring_post_init keyring = Ok tt.
Implicit Types (w : World L) (evs : list LedgerEvent) (s : Store).

(** Every identifier in use has been drawn. *)
Definition drawn (s : Store) (evs : list LedgerEvent) (draws : nat) : Prop :=
  forall id, id ∈ (di_deletion_id <$> st_intents s) ++ (ev_deletion_id <$> evs) ->
  exists j, (j < draws)%nat /\ id = random_id j.
Record Good w evs : Prop := {
  gd_stored : stored (w_ledger w) evs;
  gd_consistent : Consistent (w_store w) evs;
  gd_drawn : drawn (w_store w) evs (w_draws w)
}.
Lemma drawn_mono s evs n m : drawn s evs n -> (n <= m)%nat -> drawn s evs m.
Proof. intros H Hle id Hid. destruct (H id Hid) as (j & Hj & ->). exists j. split; [lia|done]. Qed.
Lemma drawn_ids s s' evs n : st_intents s' = st_intents s -> drawn s evs n -> drawn s' evs n.
Proof. unfold drawn. by intros ->. Qed.

(** ** The database *)
Record Inv w evs : Prop := { iv_consistent : Consistent (w_store w) evs; iv_drawn : drawn (w_store w) evs (w_draws w) }.
Record Moves w w' evs : Prop := {
  mv_ledger : w_ledger w' = w_ledger w;
  mv_draws : (w_draws w <= w_draws w')%nat;
  mv_inv : Inv w' evs;
  mv_refines : Refines (w_store w) evs (w_store w') evs
}.
Definition local {A} w evs (m : op L A) (Q : A -> Store -> Prop) : Prop :=
  Inv w evs -> let (r, w') := m w in Moves w w' evs /\ match r with Ok a => Q a (w_store w') | Raise _ => True end.

Lemma moves_refl w evs : Inv w evs -> Moves w w evs.
Proof. split; [done|done|done|apply refines_refl]. Qed.
Lemma moves_trans w1 w2 w3 evs : Moves w1 w2 evs -> Moves w2 w3 evs -> Moves w1 w3 evs.
Proof. intros [L1 D1 _ R1] [L2 D2 I2 R2]. split; [congruence|lia|done|by eapply refines_trans]. Qed.
Lemma local_bind {A B} w evs (m : op L A) (k : A -> op L B) P Q :
  local w evs m P -> (forall a w', Moves w w' evs -> P a (w_store w') -> local w' evs (k a) Q) -> local w evs (m ≫= k) Q.
Proof.
  intros Hm Hk Hinv. specialize (Hm Hinv). unfold mbind, op_bind. destruct (m w) as [[a|e] w1]; [|done]. destruct Hm as [M HP].
  specialize (Hk a w1 M HP (mv_inv _ _ _ M)). destruct (k a w1) as [r w2]. destruct Hk as [M' HQ]. split; [by eapply moves_trans|done].
Qed.
Lemma local_mono {A} w evs (m : op L A) (P Q : A -> Store -> Prop) :
  (forall a s, P a s -> Q a s) -> local w evs m P -> local w evs m Q.
Proof. intros HPQ Hm Hinv. specialize (Hm Hinv). destruct (m w) as [[a|e] w1]; [|done]. destruct Hm. auto. Qed.
Lemma local_ret {A} w evs (a : A) (Q : A -> Store -> Prop) : Q a (w_store w) -> local w evs (mret a) Q.
Proof. intros HQ Hinv. split; [by apply moves_refl|done]. Qed.
Lemma local_pure {A} w evs (m : result A) (Q : A -> Store -> Prop) :
  (forall a, m = Ok a -> Q a (w_store w)) -> local w evs (pure m) Q.
Proof. intros HQ Hinv. unfold pure. destruct m as [a|e]; (split; [by apply moves_refl|auto]). Qed.
Lemma local_raise {A} w evs e (Q : A -> Store -> Prop) : local w evs (raise e) Q.
Proof. by apply local_pure. Qed.
Lemma local_require w evs b code (Q : unit -> Store -> Prop) : (b = true -> Q tt (w_store w)) -> local w evs (require_that b code) Q.
Proof. intros HQ. apply local_pure. intros [] H%raise_if_ok. apply HQ. by destruct b. Qed.
Lemma local_get w evs (Q : Store -> Store -> Prop) : Q (w_store w) (w_store w) -> local w evs get_store Q.
Proof. intros HQ Hinv. split; [by apply moves_refl|done]. Qed.
Lemma local_draw w evs f (Q : string -> Store -> Prop) : Q (f (w_draws w)) (w_store w) -> local w evs (draw_id f) Q.
Proof.
  intros HQ Hinv. split; [|done]. split; cbn; [done|lia| |apply refines_refl]. destruct Hinv as [HC HD]. split; [done|].
  eapply drawn_mono; [exact HD|]. cbn. lia.
Qed.
Lemma local_write w evs (f : Store -> result Store) (Q : unit -> Store -> Prop) :
  (forall s', Consistent (w_store w) evs -> drawn (w_store w) evs (w_draws w) -> f (w_store w) = Ok s' -> step_ok (w_store w) evs s' evs /\ drawn s' evs (w_draws w) /\ Q tt s') ->
  local w evs (try_update f) Q.
Proof.
  intros Hf Hinv. unfold try_update. destruct (f (w_store w)) as [s'|e]; [|split; [by apply moves_refl|done]].
  pose proof Hinv as [HC0 HD0]. destruct (Hf s' HC0 HD0 eq_refl) as ([HC HR] & HD & HQ). by split.
Qed.
Lemma local_update w evs (f : Store -> Store) (Q : unit -> Store -> Prop) :
  step_ok (w_store w) evs (f (w_store w)) evs -> drawn (f (w_store w)) evs (w_draws w) -> Q tt (f (w_store w)) ->
  local w evs (update f) Q.
Proof. intros [HC HR] HD HQ Hinv. by split. Qed.
Lemma local_transaction {A} w evs (body : op L A) (Q : A -> Store -> Prop) :
  local w evs body Q -> local w evs (transaction body) Q.
Proof.
  intros Hb Hinv. specialize (Hb Hinv). unfold transaction. destruct (body w) as [[a|e] w1]; destruct Hb as [[ML MD [MC MI] MR] HQ].
  - destruct (commit_outcome (w_commits w1)).
    + split; [|exact HQ]. split; [exact ML|exact MD|split; [exact MC|exact MI]|exact MR].
    + split; [|done]. split; cbn; [done|done| |apply refines_refl]. split; [apply Hinv|]. eapply drawn_mono; [apply Hinv|done].
    + split; [|done]. split; [exact ML|exact MD|split; [exact MC|exact MI]|exact MR].
  - split; [|done]. split; cbn; [done|done| |apply refines_refl]. split; [apply Hinv|]. eapply drawn_mono; [apply Hinv|done].
Qed.
Lemma local_rows w evs (f : Store -> Store) (Q : unit -> Store -> Prop) :
  (forall s, same_rows s (f s)) -> Q tt (f (w_store w)) -> local w evs (update f) Q.
Proof.
  intros Hf HQ Hinv. pose proof Hinv as [HC HD]. destruct (same_rows_step _ _ evs HC (Hf (w_store w))) as [C R].
  split; [|done]. split; [done|done| |done]. split; [done|]. eapply drawn_ids; [apply (Hf (w_store w))|done].
Qed.
Lemma local_inv {A} w evs (m : op L A) (Q : A -> Store -> Prop) :
  (Consistent (w_store w) evs -> drawn (w_store w) evs (w_draws w) -> local w evs m Q) -> local w evs m Q.
Proof. intros Hm Hinv. pose proof Hinv as [HC HD]. by apply Hm. Qed.
Lemma get_bind {A} w evs (k : Store -> op L A) (Q : A -> Store -> Prop) :
  local w evs (k (w_store w)) Q -> local w evs (get_store ≫= k) Q.
Proof. done. Qed.
Lemma pure_bind {A B} w evs (m : result A) (k : A -> op L B) (Q : B -> Store -> Prop) :
  (forall a, m = Ok a -> local w evs (k a) Q) -> local w evs (pure m ≫= k) Q.
Proof. intros Hk. destruct m as [a|e]; [by apply Hk|]. intros Hinv. split; [by apply moves_refl|done]. Qed.
Lemma require_bind {B} w evs b code (k : unit -> op L B) (Q : B -> Store -> Prop) :
  (b = true -> local w evs (k tt) Q) -> local w evs (require_that b code ≫= k) Q.
Proof. intros Hk. apply pure_bind. intros [] H%raise_if_ok. apply Hk. by destruct b. Qed.
Lemma draw_bind {B} w evs f (k : string -> op L B) (Q : B -> Store -> Prop) :
  (forall w', w_store w' = w_store w -> w_draws w' = S (w_draws w) -> local w' evs (k (f (w_draws w))) Q) ->
  local w evs (draw_id f ≫= k) Q.
Proof.
  intros Hk Hinv. unfold mbind, op_bind, draw_id.
  set (w1 := {| w_store := w_store w; w_ledger := w_ledger w; w_draws := S (w_draws w); w_commits := w_commits w |}).
  assert (Moves w w1 evs) as M.
  { destruct Hinv as [HC HD]. split; cbn; [done|lia|split; [done|]|apply refines_refl]. eapply drawn_mono; [exact HD|]. cbn. lia. }
  specialize (Hk w1 eq_refl eq_refl (mv_inv _ _ _ M)). destruct (k (f (w_draws w)) w1) as [r w2]. destruct Hk as [M2 HQ].
  split; [by eapply moves_trans|done].
Qed.
Lemma write_bind {B} w evs (f : Store -> result Store) (k : unit -> op L B) (Q : B -> Store -> Prop) :
  (forall s', Consistent (w_store w) evs -> drawn (w_store w) evs (w_draws w) -> f (w_store w) = Ok s' ->
    step_ok (w_store w) evs s' evs /\ drawn s' evs (w_draws w)
    /\ forall w', w_store w' = s' -> w_draws w' = w_draws w -> local w' evs (k tt) Q) ->
  local w evs (try_update f ≫= k) Q.
Proof.
  intros Hf Hinv. pose proof Hinv as [HC HD]. unfold mbind, op_bind, try_update. destruct (f (w_store w)) as [s'|e] eqn:E; [|split; [by apply moves_refl|done]].
  destruct (Hf s' HC HD eq_refl) as ([HC' HR] & HD' & Hk).
  assert (Moves w (set_store s' w) evs) as M by (split; [done|done|by split|done]).
  specialize (Hk (set_store s' w) eq_refl eq_refl (mv_inv _ _ _ M)). destruct (k tt (set_store s' w)) as [r w2]. destruct Hk as [M2 HQ].
  split; [by eapply moves_trans|done].
Qed.
Lemma rows_bind {B} w evs (f : Store -> Store) (k : unit -> op L B) (Q : B -> Store -> Prop) :
  (forall s, same_rows s (f s)) ->
  (forall w', w_store w' = f (w_store w) -> w_draws w' = w_draws w -> local w' evs (k tt) Q) -> local w evs (update f ≫= k) Q.
Proof.
  intros Hf Hk. change (update f) with (try_update (L := L) (fun s => Ok (f s))). apply write_bind. intros s' HC HD [= <-].
  split; [|split; [|done]]; [by apply same_rows_step|]. by eapply drawn_ids; [apply (Hf (w_store w))|].
Qed.

(** ** Receipts and digests *)
Lemma store_ledger_receipt_local w evs e (Q : unit -> Store -> Prop) :
  (forall s, same_rows (w_store w) s -> Q tt s) -> local w evs (store_ledger_receipt e) Q.
Proof.
  intros HQ. unfold store_ledger_receipt. eapply local_bind; [by apply (local_get _ _ (fun a s => a = s /\ s = w_store w))|].
  intros s w1 M [-> Es]. destruct (find_by _ _) as [stored|]; [apply local_pure; intros [] _; apply HQ; rewrite Es; by split|].
  eapply local_bind; [by apply (local_draw _ _ _ (fun _ s => s = w_store w))|]. intros id w2 M2 E2.
  eapply local_bind; [by apply (local_pure _ _ _ (fun _ s => s = w_store w))|]. intros t w3 M3 E3.
  intros Hinv. pose proof Hinv as [HC HD]. unfold try_update. destruct (_ ≫= _) as [s'|x] eqn:Ew; [|split; [by apply moves_refl|done]].
  apply bind_ok in Ew as (rows & _ & [= <-]). set (s' := set_ledger_receipts rows (w_store w3)).
  assert (same_rows (w_store w3) s') as Hs by done. destruct (same_rows_step _ _ evs HC Hs) as [C R].
  split; [split; [done|done|split; [done|by eapply drawn_ids]|done]|]. cbn. apply HQ. rewrite <-E3. exact Hs.
Qed.
Lemma receipt_bind {B} w evs e (k : unit -> op L B) (Q : B -> Store -> Prop) :
  (forall w', same_rows (w_store w) (w_store w') -> local w' evs (k tt) Q) -> local w evs (store_ledger_receipt e ≫= k) Q.
Proof.
  intros Hk. eapply local_bind; [apply (store_ledger_receipt_local _ _ _ (fun _ s => same_rows (w_store w) s)); auto|].
  intros [] w' _ Hs. by apply Hk.
Qed.
Lemma keyring_version v key : require keyring v = Ok key -> plain_string v = true /\ v <> "".
Proof.
  intros Hr. unfold require in Hr. destruct (dict_get v (keys keyring)) as [k|] eqn:E; [|done]. apply dict_get_elem in E.
  pose proof keyring_ok as Hk. unfold keyring_post_init in Hk. apply bind_ok in Hk as ([] & _ & Hk). apply bind_ok in Hk as ([] & Hf & _).
  apply forM_ok in Hf. rewrite Forall_forall in Hf. specialize (Hf _ E). apply bind_ok in Hf as ([] & Hv & _).
  apply raise_if_ok, negb_false_iff in Hv. by apply KEY_VERSION_text.
Qed.
Lemma prepared_arguments_ok i v rq :
  intent_ok i -> prepared_arguments keyring i v = Ok rq ->
  request_ok rq /\ rq_deletion_id rq = di_deletion_id i /\ rq_original_generation rq = di_original_generation i
  /\ rq_proposed_generation rq = di_proposed_generation i.
Proof.
  intros [Hid [Hg Hp]] H. unfold prepared_arguments in H. apply bind_ok in H as (key & Hk & H). apply bind_ok in H as (token & Ht & [= <-]).
  assert (require keyring v = Ok key) as Hk' by (unfold except in Hk; by destruct (require keyring v)).
  unfold scope_token in Ht. apply bind_ok in Ht as ([] & _ & [= <-]). split; [|done]. split; cbn.
  - done.
  - split; [apply mac_digest|]. apply digest_nonempty, mac_digest.
  - by eapply keyring_version.
  - lia.
  - split; apply hash_digest.
Qed.
Lemma intent_event_ok e i :
  intent_ok i -> validate_event keyring e i = Ok tt ->
  ev_phase e = PREPARED /\ request_ok (event_request e) /\ ev_deletion_id e = di_deletion_id i
  /\ ev_original_generation e = di_original_generation i /\ ev_proposed_generation e = di_proposed_generation i.
Proof.
  intros Hi H. unfold validate_event in H. apply bind_ok in H as (t & _ & H). apply bind_ok in H as (rq & Hrq & H).
  apply raise_if_ok, orb_false_iff in H as [H1 H2]. bools. destruct (prepared_arguments_ok _ _ _ Hi Hrq) as (H3 & H4 & H5 & H6).
  subst rq. auto.
Qed.

(** ** Intents *)
Lemma intent_in s evs i : Consistent s evs -> i ∈ st_intents s -> intent_of s (di_deletion_id i) = Some i.
Proof. intros HC Hi. apply (table_elem_get (A := DeletionIntentRecord)); [apply (co_tables _ _ HC)|done]. Qed.
Lemma drawn_put_intent s evs n i : drawn s evs n -> drawn (put_intent i s) evs n.
Proof.
  unfold drawn, put_intent. cbn -[table_put]. change di_deletion_id with (row_id (A := DeletionIntentRecord)). by rewrite table_put_ids.
Qed.
Lemma replace_active_local w evs scope now : local w evs (replace_active scope now) (fun _ _ => True).
Proof.
  unfold replace_active. apply get_bind. destruct (find_by _ _) as [active|] eqn:E; [|by apply local_ret].
  apply require_bind. intros Hx. unfold expired_intent in Hx. bools. apply local_inv. intros HC HD.
  apply List.find_some in E as [Hin%list_elem_of_In _].
  apply local_update; [|by apply drawn_put_intent|done].
  apply (put_intent_step _ _ active); [done|by eapply intent_in|done|congruence|done|done].
Qed.
Lemma create_intent_local w evs owner kind resource key secret now :
  local w evs (create_intent_for owner kind resource key secret now) (fun _ _ => True).
Proof.
  unfold create_intent_for. apply pure_bind. intros [] _. apply require_bind. intros _. apply local_transaction.
  apply get_bind, require_bind. intros _. destruct (target_by_resource_id _ kind resource owner) as [t|] eqn:Et; [|apply local_raise].
  destruct (find_by _ _) as [keyed|]; [by apply local_pure|]. apply require_bind. intros Hact.
  apply local_inv. intros HC0 _. pose proof (resource_generation _ _ _ _ _ (tb_generations _ (co_tables _ _ HC0)) Et) as Hg. clear HC0.
  eapply local_bind; [apply replace_active_local|]. intros _ w1 M _. apply get_bind, require_bind. intros _.
  apply local_inv. intros _ HD1. apply draw_bind. intros w2 E2 D2. apply pure_bind. intros expires _. apply draw_bind. intros w3 E3 D3.
  apply write_bind. intros s' HC HD Hadd. set (i := new_intent _ _ _ _ _ _ _ _ _) in Hadd. rewrite E3, E2 in *. split; [|split].
  - apply (add_intent_step _ _ i); [done| |done| |done]; [split; [apply random_id_text|cbn; lia]|].
    destruct (chain_of (di_deletion_id i) evs) as [|e l] eqn:E; [done|]. exfalso.
    assert (e ∈ chain_of (di_deletion_id i) evs) as He by (rewrite E; by left). apply chain_of_elem in He as [He Hin].
    destruct (HD1 (ev_deletion_id e)) as (j & Hj & Ej); [apply elem_of_app; right; by apply list_elem_of_fmap_2|].
    rewrite He in Ej. apply (inj random_id) in Ej. lia.
  - unfold add_intent in Hadd. apply bind_ok in Hadd as ([] & _ & [= <-]). intros id. cbn [set_intents st_intents].
    rewrite fmap_app, !elem_of_app. intros [[Hid|Hid%list_elem_of_singleton]|Hid].
    + apply HD. apply elem_of_app. by left.
    + exists (w_draws w1). split; [lia|done].
    + apply HD. apply elem_of_app. by right.
  - intros w4 E4 D4. apply write_bind. intros s4 HC4 HD4 Hr. unfold add_receipt in Hr. apply bind_ok in Hr as (rows & _ & [= <-]).
    split; [by apply same_rows_step|split; [by eapply drawn_ids|]]. intros w5 _ _. by apply local_ret.
Qed.
Lemma authorized_intent_local w evs owner id secret now :
  local w evs (authorized_intent owner id secret now)
    (fun i s => intent_of s id = Some i /\ di_state i <> DI_INVALIDATED).
Proof.
  unfold authorized_intent. apply get_bind. destruct (table_get id (st_intents _)) as [i|] eqn:Ei; [|apply local_raise].
  destruct (table_get id (st_receipts _)) as [r|]; [|apply local_raise]. apply require_bind. intros _. apply require_bind. intros Hst.
  apply local_ret. split; [done|]. intros E. by rewrite E in Hst.
Qed.

(** ** Preparing and fencing *)
Lemma acknowledge_prepared_local w evs current e :
  intent_of (w_store w) (di_deletion_id current) = Some current -> e ∈ evs ->
  local w evs (acknowledge_prepared keyring current e) (fun e' _ => e' = e /\ ev_phase e = PREPARED).
Proof.
  intros Hi He. unfold acknowledge_prepared. apply local_inv. intros HC _. destruct (intent_elem _ _ _ _ HC Hi) as [Hok _].
  apply pure_bind. intros [] Hv. apply (intent_event_ok _ _ Hok) in Hv as (Hp & _ & Hid & _). apply receipt_bind. intros w1 Hs1.
  eapply (local_bind _ _ _ _ (fun _ _ => True)).
  - case_bool_decide as Hst; [|by apply local_ret]. apply pure_bind. intros t _. apply local_inv. intros HC1 HD1.
    apply local_update; [|by apply drawn_put_intent|done].
    apply (put_intent_step _ _ current); [done| |done|congruence|done|congruence].
    unfold intent_of. by rewrite (sr_intents _ _ Hs1).
  - intros _ w2 _ _. apply get_bind. destruct (table_get _ _) as [receipt|]; [|apply local_raise].
    case_bool_decide; [|by apply local_ret]. apply rows_bind; [done|]. intros w3 _ _. by apply local_ret.
Qed.
Lemma fence_allowed_ok prepared i target user :
  fence_allowed prepared i target user = Ok true ->
  exists u t, user = Some u /\ target = Some t /\ target_lifecycle_state t = LC_ACTIVE /\ di_state i <> DI_INVALIDATED /\ di_state i <> DI_CONSUMED.
Proof.
  unfold fence_allowed. destruct user as [u|]; [|done]. destruct target as [t|]; [|done]. intros H. apply bind_ok in H as (o & _ & H).
  injection H as H. unfold mem in H. bools. exists u, t.
  assert (di_state i ∈ [DI_INTENT_CREATED; DI_PREPARED]) as Hm by done. rewrite !elem_of_cons, elem_of_nil in Hm.
  split_and!; [done|done|done|..]; intros E; rewrite E in Hm; naive_solver.
Qed.
Lemma fence_prepared_local w evs prepared now :
  prepared ∈ evs -> local w evs (fence_prepared keyring prepared now) (fun _ _ => True).
Proof.
  intros He. unfold fence_prepared. apply require_bind. intros Hp. bools. apply local_transaction, get_bind.
  destruct (table_get (ev_deletion_id prepared) (st_intents _)) as [i|] eqn:Ei; [|apply local_raise].
  apply local_inv. intros HC _. destruct (intent_elem _ _ _ _ HC Ei) as [Hok _].
  apply pure_bind. intros [] Hv. apply (intent_event_ok _ _ Hok) in Hv as (_ & Hrq & Hid & Hog & Hpg). apply receipt_bind. intros w1 Hs.
  destruct (table_get (ev_deletion_id prepared) (st_controls _)) as [c|] eqn:Ec.
  - apply pure_bind. intros b _. by apply local_require.
  - apply pure_bind. intros allowed Ha. apply require_bind. intros ->. apply fence_allowed_ok in Ha as (u & t & Hu & Ht & Hact & Hinv & Hcons).
    rewrite Hu, Ht. apply pure_bind. intros prepared_at _. apply local_write. intros s' HC1 HD1 Hw.
    assert (step_ok (w_store w1) evs s' evs) as Hstep.
    { eapply (fence_step prepared i t); try done.
      - unfold intent_of. by rewrite (sr_intents _ _ Hs).
      - unfold control_of. by rewrite (sr_controls _ _ Hs).
      - by rewrite (same_target (w_store w)). }
    split; [done|split; [|done]]. apply write_fence_rows in Hw as [Hrows _]. eapply drawn_ids; [apply Hrows|].
    unfold drawn, fence_store, put_intent. cbn [set_controls set_intents st_intents]. destruct (put_target_rows (set_lifecycle LC_DELETION_PENDING_LEDGER (ev_proposed_generation prepared) t) (w_store w1)) as [-> _].
    change di_deletion_id with (row_id (A := DeletionIntentRecord)). by rewrite table_put_ids.
Qed.

(** ** Requesting *)
Lemma fenced_control_local w evs id :
  local w evs (fenced_control id) (fun c s => control_of s id = Some c).
Proof.
  unfold fenced_control. apply get_bind. destruct (table_get id (st_controls _)) as [c|] eqn:Ec; [|apply local_raise].
  apply pure_bind. intros user _. apply require_bind. intros _. by apply local_ret.
Qed.
Lemma acknowledge_requested_local w evs id e now :
  e ∈ evs -> ev_phase e = REQUESTED -> ev_deletion_id e = id -> local w evs (acknowledge_requested id e now) (fun _ s => sweeping id s).
Proof.
  intros He Hp Hid. unfold acknowledge_requested. apply local_transaction, get_bind.
  destruct (table_get id (st_controls _)) as [c|] eqn:Ec; [|apply local_raise]. apply local_inv. intros HC _.
  destruct (control_elem _ _ _ _ HC Ec) as [Hok Hcid].
  apply pure_bind. intros user _. apply pure_bind. intros [] _. apply require_bind. intros Hat.
  destruct (target_by_scope _ _ _) as [t|] eqn:Et; [|apply local_raise]. destruct user as [u|]; [|apply local_raise].
  apply receipt_bind. intros w1 Hs. case_decide as Hdel.
  { apply local_require. intros Hj. bools. exists c, t. unfold control_of, control_target.
    by rewrite (sr_controls _ _ Hs), (same_target _ _ _ _ Hs). }
  apply draw_bind. intros w2 E2 _.
  apply pure_bind. intros g _. apply local_write. intros s' HC1 HD1 Hw. rewrite E2 in *.
  cbn in Hat. unfold fenced, mem in Hat. bools.
  assert (target_lifecycle_state t ∈ [LC_DELETION_PENDING_LEDGER; LC_DELETING]) as Hm by done. rewrite !elem_of_cons, elem_of_nil in Hm.
  assert (target_lifecycle_state t = LC_DELETION_PENDING_LEDGER) as Hst by naive_solver.
  assert (control_of (w_store w1) (dc_deletion_id c) = Some c) as Ec1 by (unfold control_of; by rewrite (sr_controls _ _ Hs), Hcid).
  assert (control_target (w_store w1) c = Some t) as Et1 by (unfold control_target; by rewrite (same_target (w_store w))).
  assert (step_ok (w_store w1) evs s' evs) as Hstep.
  { eapply (drain_step _ c t); try done.
    rewrite Hcid. apply list_elem_of_fmap. exists e. split; [done|]. by apply chain_of_elem. }
  split; [done|split; [|rewrite <-Hcid; by eapply drain_sweeping]]. apply write_drain_rows in Hw. eapply drawn_ids; [apply Hw|].
  unfold drawn, drain_store. by destruct t.
Qed.

(** ** Whole operations *)
Definition sat {A} w evs (m : op L A) (Q : A -> Store -> list LedgerEvent -> Prop) : Prop :=
  Good w evs -> let (r, w') := m w in
  exists evs', Good w' evs' /\ Refines (w_store w) evs (w_store w') evs'
  /\ match r with Ok a => Q a (w_store w') evs' | Raise _ => True end.
Notation any := (fun _ _ _ => True).

Lemma good_inv w evs : Good w evs -> Inv w evs.
Proof. by intros [_ HC HD]. Qed.
Lemma sat_bind {A B} w evs (m : op L A) (k : A -> op L B) P Q :
  sat w evs m P -> (forall a w' evs', evs `prefix_of` evs' -> P a (w_store w') evs' -> sat w' evs' (k a) Q) -> sat w evs (m ≫= k) Q.
Proof.
  intros Hm Hk HG. specialize (Hm HG). unfold mbind, op_bind. destruct (m w) as [[a|e] w1]; [|done]. destruct Hm as (evs1 & HG1 & HR & HP).
  specialize (Hk a w1 evs1 (re_prefix _ _ _ _ HR) HP HG1). destruct (k a w1) as [r w2]. destruct Hk as (evs2 & HG2 & HR2 & HQ).
  exists evs2. split_and!; [done|by eapply refines_trans|done].
Qed.
Lemma sat_mono {A} w evs (m : op L A) (P Q : A -> Store -> list LedgerEvent -> Prop) :
  (forall a s e, P a s e -> Q a s e) -> sat w evs m P -> sat w evs m Q.
Proof. intros H Hm HG. specialize (Hm HG). destruct (m w) as [[a|e] w1]; [|done]. destruct Hm as (evs1 & ? & ? & ?). exists evs1. auto. Qed.
Lemma sat_local {A} w evs (m : op L A) (Q : A -> Store -> Prop) : local w evs m Q -> sat w evs m (fun a s e => Q a s /\ e = evs).
Proof.
  intros Hm HG. specialize (Hm (good_inv _ _ HG)). destruct (m w) as [r w']. destruct Hm as [[ML MD [MC MI] MR] HQ].
  exists evs. split_and!; [split; [rewrite ML; apply HG|done|done]|done|by destruct r].
Qed.
Lemma sat_local_any {A} w evs (m : op L A) (Q : A -> Store -> Prop) : local w evs m Q -> sat w evs m any.
Proof. intros Hm. eapply sat_mono; [|by apply sat_local]. done. Qed.
Lemma sat_ret {A} w evs (a : A) (Q : A -> Store -> list LedgerEvent -> Prop) : Q a (w_store w) evs -> sat w evs (mret a) Q.
Proof. intros HQ HG. exists evs. split_and!; [done|apply refines_refl|done]. Qed.
Lemma sat_pure {A} w evs (m : result A) (Q : A -> Store -> list LedgerEvent -> Prop) :
  (forall a, m = Ok a -> Q a (w_store w) evs) -> sat w evs (pure m) Q.
Proof. intros HQ HG. exists evs. destruct m as [a|e]; (split_and!; [done|apply refines_refl|auto]). Qed.
Lemma sat_get {A} w evs (k : Store -> op L A) Q : sat w evs (k (w_store w)) Q -> sat w evs (get_store ≫= k) Q.
Proof. done. Qed.
Lemma sat_pure_bind {A B} w evs (m : result A) (k : A -> op L B) Q :
  (forall a, m = Ok a -> sat w evs (k a) Q) -> sat w evs (pure m ≫= k) Q.
Proof. intros Hk. destruct m as [a|e]; [by apply Hk|]. intros HG. exists evs. split_and!; [done|apply refines_refl|done]. Qed.
Lemma sat_require_bind {B} w evs b code (k : unit -> op L B) Q :
  (b = true -> sat w evs (k tt) Q) -> sat w evs (require_that b code ≫= k) Q.
Proof. intros Hk. apply sat_pure_bind. intros [] H%raise_if_ok. apply Hk. by destruct b. Qed.

(** The ledger and its events. *)
Lemma ledger_world w (l : L) evs evs' :
  Good w evs -> stored l evs' -> step_ok (w_store w) evs (w_store w) evs' ->
  (forall e, e ∈ evs' -> e ∈ evs \/ ev_deletion_id e ∈ di_deletion_id <$> st_intents (w_store w)) ->
  Good {| w_store := w_store w; w_ledger := l; w_draws := w_draws w; w_commits := w_commits w |} evs'.
Proof.
  intros [HS HC HD] Hl [HC' _] Hnew. split; [done|done|]. intros id. cbn. rewrite elem_of_app. intros [Hid|Hid].
  - apply HD, elem_of_app. by left.
  - apply list_elem_of_fmap in Hid as (e & -> & He). apply HD, elem_of_app. destruct (Hnew e He) as [H|H]; [|by left].
    right. by apply list_elem_of_fmap_2.
Qed.
Lemma sat_chain w evs id : sat w evs (call_ledger (ledger_chain id)) (fun c s e => c = chain_of id e /\ s = w_store w /\ e = evs).
Proof.
  intros HG. unfold call_ledger. destruct (ledger_chain id (w_ledger w)) as [r l] eqn:E. destruct (chain_law _ _ _ _ _ (gd_stored _ _ HG) E) as [Hl Hc].
  exists evs. split_and!; [|apply refines_refl|].
  - apply (ledger_world w l evs); [done|done|apply step_ok_refl, HG|auto].
  - destruct r as [c|e]; [|done]. split_and!; [by apply Hc|done|done].
Qed.
Lemma append_world w evs rq phase t r l' :
  Good w evs -> request_ok rq -> in_calendar t -> is_Some (intent_of (w_store w) (rq_deletion_id rq)) ->
  (forall e evs', legal evs' -> extends rq phase evs e evs' -> step_ok (w_store w) evs (w_store w) evs') ->
  ledger_append rq phase t (w_ledger w) = (r, l') ->
  exists evs', Good {| w_store := w_store w; w_ledger := l'; w_draws := w_draws w; w_commits := w_commits w |} evs'
  /\ step_ok (w_store w) evs (w_store w) evs' /\ forall e, r = Ok e -> e ∈ evs' /\ ev_deletion_id e = rq_deletion_id rq /\ ev_phase e = phase.
Proof.
  intros HG Hrq Ht [i Hi] Hstep E. destruct (append_law _ _ _ _ _ _ _ (gd_stored _ _ HG) Hrq Ht E) as (evs' & Hl & Hcase & Hr). exists evs'.
  assert (step_ok (w_store w) evs (w_store w) evs') as Hok.
  { destruct Hcase as [->|(e & Hext)]; [apply step_ok_refl, HG|]. eapply Hstep; [by eapply stored_legal|exact Hext]. }
  split_and!; [|done|done]. apply (ledger_world w l' evs); [done|done|done|]. intros e He. destruct Hcase as [->|(e' & [-> Hrq' _ _ _])]; [by left|].
  apply elem_of_app in He as [He|He%list_elem_of_singleton]; [by left|right]. subst e' rq. destruct (table_get_elem _ _ _ Hi) as [Hin Hid].
  change (di_deletion_id i = ev_deletion_id e) in Hid. rewrite <-Hid. by apply list_elem_of_fmap_2.
Qed.
Lemma sat_append w evs rq phase t :
  request_ok rq -> in_calendar t -> (Good w evs -> is_Some (intent_of (w_store w) (rq_deletion_id rq))) ->
  (Good w evs -> forall e evs', legal evs' -> extends rq phase evs e evs' -> step_ok (w_store w) evs (w_store w) evs') ->
  sat w evs (call_ledger (ledger_append rq phase t)) (fun e s evs' => e ∈ evs' /\ ev_deletion_id e = rq_deletion_id rq /\ ev_phase e = phase /\ s = w_store w).
Proof.
  intros Hrq Ht Hi Hstep HG. unfold call_ledger. destruct (ledger_append rq phase t (w_ledger w)) as [r l] eqn:E.
  destruct (append_world _ _ _ _ _ _ _ HG Hrq Ht (Hi HG) (Hstep HG) E) as (evs' & HG' & [_ HR] & Hr). exists evs'. split_and!; [done|done|].
  destruct r as [e|x]; [|done]. destruct (Hr e eq_refl) as (H1 & H2 & H3). auto.
Qed.

(** A transaction that calls the ledger first: the rows are rolled back, the events stay. *)
Definition ledger_only {A} (m : op L A) : Prop := forall w, w_store (m w).2 = w_store w.
Lemma ledger_only_pure {A} (m : result A) : ledger_only (pure m).
Proof. done. Qed.
Lemma ledger_only_call {A} (f : L -> result A * L) : ledger_only (call_ledger f).
Proof. intros w. unfold call_ledger. by destruct (f (w_ledger w)). Qed.
Lemma ledger_only_bind {A B} (m : op L A) (k : A -> op L B) : ledger_only m -> (forall a, ledger_only (k a)) -> ledger_only (m ≫= k).
Proof.
  intros Hm Hk w. unfold mbind, op_bind. specialize (Hm w). destruct (m w) as [[a|e] w1]; [|done]. rewrite <-Hm. apply Hk.
Qed.
Lemma sat_transaction {A B} w evs (m : op L A) (k : A -> op L B) P Q :
  ledger_only m -> sat w evs m P ->
  (forall a w' evs', w_store w' = w_store w -> P a (w_store w') evs' -> local w' evs' (k a) (fun b s => Q b s evs')) ->
  sat w evs (transaction (m ≫= k)) Q.
Proof.
  intros Hs Hm Hk HG. specialize (Hs w). specialize (Hm HG). destruct (m w) as [[a|x] w1] eqn:E; destruct Hm as (evs1 & HG1 & HR & HP).
  - assert (transaction (m ≫= k) w = transaction (k a) w1) as ->
      by (unfold transaction, mbind, op_bind; by rewrite E, <-Hs).
    pose proof (sat_local _ _ _ _ (local_transaction _ _ _ _ (Hk a w1 evs1 Hs HP)) HG1) as H. destruct (transaction (k a) w1) as [r w2].
    destruct H as (evs2 & HG2 & HR2 & HQ). exists evs2. split_and!; [done|by eapply refines_trans|]. destruct r; [|done]. by destruct HQ as [? ->].
  - assert (transaction (m ≫= k) w = (Raise x, w1)) as ->; [|exists evs1; auto].
    unfold transaction, mbind, op_bind. rewrite E. cbn in Hs. rewrite <-Hs. by destruct w1.
Qed.
Lemma sat_get_transaction {A} w evs (k : Store -> op L A) Q :
  sat w evs (transaction (k (w_store w))) Q -> sat w evs (transaction (get_store ≫= k)) Q.
Proof. done. Qed.
Lemma sat_good {A} w evs (m : op L A) Q : (Good w evs -> sat w evs m Q) -> sat w evs m Q.
Proof. intros Hm HG. by apply Hm. Qed.

Section Time.
Variable now : Z.
Hypothesis now_ok : in_calendar now.

(** ** Preparing *)
Lemma prepared_event_sat w evs i :
  intent_of (w_store w) (di_deletion_id i) = Some i ->
  sat w evs (prepared_event keyring i now) (fun e s evs' => e ∈ evs').
Proof.
  intros Hi. unfold prepared_event. apply sat_good. intros HG. pose proof (gd_consistent _ _ HG) as HC.
  destruct (intent_elem _ _ _ _ HC Hi) as [Hok _].
  eapply sat_bind; [apply sat_chain|]. intros c w1 evs1 _ (-> & Es & ->). destruct (head _) as [e|] eqn:Eh.
  - apply sat_pure_bind. intros [] _. apply sat_ret. apply head_Some_elem_of in Eh. by apply chain_of_elem in Eh as [_ ?].
  - apply sat_pure_bind. intros rq Hrq. destruct (prepared_arguments_ok _ _ _ Hok Hrq) as (Hrqok & Hid & _).
    rewrite <-Es in *. eapply sat_mono; [|apply sat_append; [done|done|rewrite Hid; by eexists|]]; [naive_solver|].
    intros HG1 e evs' Hl Hext. eapply append_prepared_step; [done|done|exact Hext|by rewrite Hid|]. rewrite Hid.
    destruct (control_of _ _) as [c|] eqn:Ec; [|done]. destruct (control_elem _ _ _ _ HC Ec) as [[_ _ _ _ Hf _] Hcid].
    rewrite Hcid, Eh in Hf. done.
Qed.
Lemma ensure_prepared_sat w evs id :
  sat w evs (ensure_prepared keyring id now) (fun e _ evs' => e ∈ evs').
Proof.
  unfold ensure_prepared. apply sat_get_transaction. destruct (table_get id (st_intents _)) as [i|] eqn:Ei.
  - apply sat_good. intros HG. destruct (intent_elem _ _ _ _ (gd_consistent _ _ HG) Ei) as [_ Hid]. rewrite <-Hid in Ei.
    eapply sat_transaction; [|by apply prepared_event_sat|].
    + apply ledger_only_bind; [apply ledger_only_call|]. intros c. destruct (head c); apply ledger_only_bind; [done|done|done|].
      intros rq. apply ledger_only_call.
    + intros e w1 evs1 Es He. eapply local_mono; [|apply acknowledge_prepared_local; [|exact He]]; [by intros ? ? [-> _]|].
      by rewrite Es.
  - eapply sat_mono; [|apply sat_local, local_transaction, (local_raise _ _ _ (fun _ _ => False))]. naive_solver.
Qed.

(** ** Requesting *)
Lemma find_phase_elem phase evs id e :
  find_phase phase (chain_of id evs) = Some e -> e ∈ evs /\ ev_phase e = phase /\ ev_deletion_id e = id.
Proof.
  intros H. apply List.find_some in H as [Hin%list_elem_of_In Hp]. bools. apply chain_of_elem in Hin as [? ?]. auto.
Qed.
Lemma ensure_requested_sat w evs id :
  sat w evs (ensure_requested id now) (fun _ s evs' => sweeping id s /\ REQUESTED ∈ phases evs' id).
Proof.
  unfold ensure_requested. eapply sat_bind; [apply sat_local, fenced_control_local|]. intros c w1 evs1 _ [Hc ->].
  apply sat_good. intros HG. destruct (control_elem _ _ _ _ (gd_consistent _ _ HG) Hc) as [Hok Hcid].
  eapply sat_bind; [apply sat_chain|]. intros ch w2 evs2 _ (-> & Es & ->).
  eapply (sat_bind _ _ _ _ (fun e _ evs' => e ∈ evs' /\ ev_phase e = REQUESTED /\ ev_deletion_id e = id)).
  - destruct (find_phase _ _) as [e|] eqn:Ef; [apply sat_ret; by apply find_phase_elem|].
    eapply sat_bind; [apply sat_append; [apply Hok|done|..]|].
    + intros _. destruct Hok as [_ _ (i & Hi & _) _ _ _]. rewrite Es. by exists i.
    + intros HG2 e evs' Hl Hext. eapply (append_requested_step _ _ _ _ _ c); [apply HG2|done|exact Hext|]. cbn. by rewrite Es, Hcid.
    + intros e w3 evs3 _ (He & Hrq & Hp & _). apply sat_pure_bind. intros [] _. apply sat_ret. by rewrite <-Hcid.
  - intros e w3 evs3 _ (He & Hp & Hid). eapply sat_mono; [|by apply sat_local, acknowledge_requested_local].
    intros _ s evs' [Hs ->]. split; [done|]. apply list_elem_of_fmap. exists e. split; [done|]. by apply chain_of_elem.
Qed.

(** ** Aborting *)
Definition noncommit (prepared : LedgerEvent) (s : Store) : Prop :=
  exists i, intent_of s (ev_deletion_id prepared) = Some i /\ di_state i = DI_INVALIDATED
  /\ control_of s (ev_deletion_id prepared) = None /\ request_ok (event_request prepared).
Lemma proved_noncommit_local w evs prepared :
  local w evs (preparation_has_proved_noncommit keyring prepared) (fun b s => b = true -> noncommit prepared s).
Proof.
  unfold preparation_has_proved_noncommit. apply get_bind. destruct (table_get _ (st_intents _)) as [i|] eqn:Ei; [|by apply local_ret].
  apply local_inv. intros HC _. destruct (intent_elem _ _ _ _ HC Ei) as [Hok _]. destruct (validate_event _ _ _) as [[]|x] eqn:Ev.
  - case_match eqn:Eb; [|by apply local_ret]. apply local_pure. intros b _ _. bools. apply (intent_event_ok _ _ Hok) in Ev as (_ & Hrq & _).
    exists i. split_and!; try done. destruct (table_get _ (st_controls _)) eqn:E; [|done]. naive_solver.
  - destruct (is_class _ x); [by apply local_ret|apply local_raise].
Qed.
Lemma ensure_aborted_sat w evs prepared : sat w evs (ensure_aborted keyring prepared now) any.
Proof.
  unfold ensure_aborted. eapply sat_bind; [apply sat_local, proved_noncommit_local|]. intros b w1 evs1 _ [Hb ->].
  apply sat_require_bind. intros ->. specialize (Hb eq_refl). destruct Hb as (i & Hi & Hinv & Hn & Hrq).
  eapply sat_bind; [apply sat_chain|]. intros ch w2 evs2 _ (-> & Es & ->).
  eapply (sat_bind _ _ _ _ any).
  - destruct (find_phase _ _) as [e|]; [by apply sat_ret|].
    eapply sat_mono; [done|]. apply sat_append; [done|done|rewrite Es; by exists i|].
    intros HG e evs' Hl Hext. eapply append_aborted_step; [apply HG|done|exact Hext|by rewrite Es|].
    rewrite Es. cbn. intros j Hj. congruence.
  - intros e w3 evs3 _ _. eapply (sat_local_any _ _ _ (fun _ _ => True)), local_transaction, receipt_bind. intros w4 _. apply get_bind.
    destruct (table_get _ _); [|apply local_raise]. by apply local_rows.
Qed.
Lemma prove_noncommit_and_abort_sat w evs id : sat w evs (prove_noncommit_and_abort keyring id now) any.
Proof.
  unfold prove_noncommit_and_abort. eapply sat_bind; [apply sat_chain|]. intros ch w1 evs1 _ _.
  destruct ch as [|prepared [|? ?]]; try by apply sat_pure. apply sat_require_bind. intros _.
  eapply (sat_bind _ _ _ _ any); [|intros; apply ensure_aborted_sat].
  eapply (sat_local_any _ _ _ (fun _ _ => True)), local_transaction, get_bind.
  destruct (table_get id (st_intents _)) as [i|] eqn:Ei; [|apply local_raise]. apply pure_bind. intros [] _.
  case_match eqn:Eb; (apply pure_bind || (change (mret false) with (pure (L := L) (Ok false)); apply pure_bind)); intros provable Hp; apply require_bind; intros ->; [|done].
  apply local_inv. intros HC HD. apply local_update; [|by apply drawn_put_intent|done]. bools.
  assert (di_state i ∈ [DI_INTENT_CREATED; DI_PREPARED]) as Hm by done. rewrite !elem_of_cons, elem_of_nil in Hm.
  destruct (intent_elem _ _ _ _ HC Ei) as [_ Hid]. rewrite <-Hid in Ei.
  apply (put_intent_step _ _ i); [done|done|done| |done|done]. naive_solver congruence.
Qed.

(** ** Reconciling *)
Lemma attempt_sat w evs (m : op L unit) : sat w evs m any -> sat w evs (attempt m) any.
Proof.
  intros Hm HG. specialize (Hm HG). unfold attempt. destruct (m w) as [[a|e] w1]; destruct Hm as (evs1 & ? & ? & _); [by exists evs1|].
  destruct (_ || _); exists evs1; auto.
Qed.
Lemma op_foldM_sat {T A} (P : A -> list LedgerEvent -> Prop) (f : T -> A -> op L T) (l : list A) :
  (forall x e e', P x e -> e `prefix_of` e' -> P x e') ->
  (forall t x w evs, P x evs -> sat w evs (f t x) any) ->
  forall w evs t, Forall (fun x => P x evs) l -> sat w evs (op_foldM f t l) any.
Proof.
  intros Hmono Hf. induction l as [|x l IH]; intros w evs t Hl; [by apply sat_ret|]. apply Forall_cons in Hl as [Hx Hl]. cbn [op_foldM].
  eapply sat_bind; [by apply Hf|]. intros t' w' evs' Hp _. apply IH. eapply Forall_impl; [exact Hl|]. intros y Hy. exact (Hmono _ _ _ Hy Hp).
Qed.
Lemma reconcile_item_sat w evs (m : op L unit) counts : sat w evs m any -> sat w evs (reconcile_item m counts) any.
Proof. intros Hm. eapply sat_bind; [by apply attempt_sat|]. intros b w' evs' _ _. by apply sat_ret. Qed.
Lemma reconcile_preparation_sat w evs e : e ∈ evs -> sat w evs (reconcile_preparation keyring e now) any.
Proof.
  intros He. unfold reconcile_preparation. eapply sat_bind; [apply sat_local, proved_noncommit_local|]. intros b w1 evs1 _ [_ ->].
  destruct b; [apply ensure_aborted_sat|]. eapply sat_bind; [by apply sat_local, fence_prepared_local|]. intros _ w2 evs2 _ _.
  eapply sat_mono; [|apply ensure_requested_sat]. done.
Qed.
Lemma sat_unresolved w evs : sat w evs (call_ledger ledger_unresolved_preparations) (fun c _ evs' => Forall (fun e => e ∈ evs') c).
Proof.
  intros HG. unfold call_ledger. destruct (ledger_unresolved_preparations (w_ledger w)) as [r l] eqn:E.
  destruct (unresolved_law _ _ _ _ (gd_stored _ _ HG) E) as [Hl Hc]. exists evs. split_and!; [|apply refines_refl|].
  - apply (ledger_world w l evs); [done|done|apply step_ok_refl, HG|auto].
  - destruct r as [c|e]; [|done]. eapply Forall_impl; [by apply Hc|]. by intros e [? _].
Qed.
Lemma reconcile_sat w evs : sat w evs (reconcile keyring now) any.
Proof.
  unfold reconcile. eapply sat_bind; [apply sat_unresolved|]. intros events w1 evs1 _ He.
  eapply sat_bind.
  { apply (op_foldM_sat (fun e evs' => e ∈ evs')); [|intros; by apply reconcile_item_sat, reconcile_preparation_sat|exact He].
    intros e l l' Hin [k ->]. apply elem_of_app. by left. }
  intros counts w2 evs2 _ _. apply sat_get. eapply sat_bind.
  { apply (op_foldM_sat (fun _ _ => True)); [done| |by apply Forall_true]. intros. apply reconcile_item_sat. eapply sat_mono; [|apply ensure_requested_sat]; done. }
  intros counts' w3 evs3 _ _. by apply sat_ret.
Qed.

(** ** Starting *)
Definition started (st : DeletionStatus) (s : Store) (evs : list LedgerEvent) : Prop :=
  sweeping (ds_deletion_id st) s /\ REQUESTED ∈ phases evs (ds_deletion_id st).
Lemma status_sat w evs id secret :
  sat w evs (status id secret now) (fun st s evs' => ds_deletion_id st = id /\ s = w_store w /\ evs' = evs).
Proof.
  apply sat_pure_bind. intros [] _. apply sat_get, sat_pure. intros st H. split; [|done]. unfold read_status in H.
  destruct (table_get id (st_receipts _)) as [r|] eqn:Er; [|by apply bind_ok in H as (? & _ & H)]. apply table_get_elem in Er as [_ Hid].
  do 4 (apply bind_ok in H as (? & _ & H)). by injection H as <-.
Qed.
Lemma authorize_and_start_sat w evs owner id secret : sat w evs (authorize_and_start keyring owner id secret now) started.
Proof.
  unfold authorize_and_start. apply sat_pure_bind. intros [] _. eapply sat_bind; [apply sat_local, authorized_intent_local|].
  intros i w1 evs1 _ _. eapply sat_bind; [apply ensure_prepared_sat|]. intros e w2 evs2 _ He. apply sat_pure_bind. intros [] _.
  eapply sat_bind; [by apply sat_local, fence_prepared_local|]. intros _ w3 evs3 _ _. apply sat_pure_bind. intros [] _.
  eapply sat_bind; [apply ensure_requested_sat|]. intros _ w4 evs4 _ [Hs Hr]. eapply sat_mono; [|apply status_sat].
  intros st s evs' (Hid & -> & ->). unfold started. by rewrite Hid.
Qed.
Lemma start_resource_deletion_sat w evs owner kind resource key secret :
  sat w evs (start_resource_deletion keyring owner kind resource key secret now) started.
Proof.
  unfold start_resource_deletion. eapply sat_bind; [apply sat_local, create_intent_local|]. intros v w1 evs1 _ _.
  apply authorize_and_start_sat.
Qed.
End Time.
End Proofs.
