(* ===== verification/DeletionsModel.v ===== *)
(** * DeletionsModel: the ledgers a coordinator runs on, and a concrete service

    The adapter of deletion_ledger.py keeps the promises the coordinator relies
    on, whatever writes of its disk fail, and so does a list of events that grows
    by the contract of [append].  The service is a user with an import, a queued
    job and a session, a file ledger on the platform of [LedgerModel], numbered
    tokens, and commits of which a given set is refused. *)

From S2P Require Import Prelude Float Json JsonCanonical JsonLoads Calendar PyText IsoTime Base64 Keyrings Deletion.
From S2P Require Import Ledger LedgerText LedgerProofs LedgerChains LedgerSafety LedgerTheorems LedgerModel Database.
From S2P Require Import DeletionStore Deletions DeletionsInvariant DeletionsProofs.

Section Ledgers.
Context {CR : Crypto} {SH : Sha256} {JL : JsonLoads} {IF : IsoFormats} {LB : LooseBase64}.
Variable lg : Ledger.

(** ** The contract *)
Lemma append_spec_extends rq phase t evs e evs' :
  append_spec lg rq phase t evs = Ok (e, evs') ->
  (evs' = evs \/ extends rq phase evs e evs') /\ e ∈ evs' /\ ev_deletion_id e = rq_deletion_id rq /\ ev_phase e = phase.
Proof.
  intros H. unfold append_spec in H. apply bind_ok in H as ([] & Hid%raise_if_ok & H). destruct (List.find _ _) as [x|] eqn:Ef.
  - apply bind_ok in H as (c & _ & H). apply bind_ok in H as ([] & _ & [= <- <-]).
    apply List.find_some in Ef as [Hin%list_elem_of_In Hp]. apply chain_of_elem in Hin as [? ?]. bools. auto.
  - apply bind_ok in H as ([] & Hl%raise_if_ok & H). apply bind_ok in H as (c & Hc & [= <- <-]).
    destruct (make_event_fields _ _ _ _ _ _ _ Hc) as (Hrq & Hp & _). unfold mem in Hl. bools. split_and!.
    + right. split; [done|done|done|done|]. intros first Hf. rewrite Hf in Hid. bools. done.
    + apply elem_of_app. right. by apply list_elem_of_singleton.
    + by rewrite <-Hrq.
    + done.
Qed.
Lemma unresolved_prepared evs : Forall (fun e => e ∈ evs /\ ev_phase e = PREPARED) (unresolved evs).
Proof.
  apply Forall_forall. intros e [Hp Hc]%elem_of_unresolved. split; [|done].
  assert (e ∈ chain_of (ev_deletion_id e) evs) as Hin by (rewrite Hc; by left). by apply chain_of_elem in Hin as [_ ?].
Qed.
Lemma extends_legal rq phase evs e evs' : legal evs -> extends rq phase evs e evs' -> legal evs'.
Proof.
  intros Hl Hext id Hne. rewrite (extends_chain _ _ _ _ _ id Hext) in *. case_decide as E; [|by apply Hl].
  rewrite fmap_app, <-E. cbn. rewrite (ext_phase _ _ _ _ _ Hext). by apply Hext.
Qed.
Definition memory_append rq phase t (evs : list LedgerEvent) : result LedgerEvent * list LedgerEvent :=
  match append_spec lg rq phase t evs with Ok (e, evs') => (Ok e, evs') | Raise x => (Raise x, evs) end.
#[local] Instance memory_ledger : DeletionLedger (list LedgerEvent) := {
  ledger_append := memory_append;
  ledger_chain id evs := (Ok (chain_of id evs), evs);
  ledger_unresolved_preparations evs := (Ok (unresolved evs), evs)
}.
Definition memory_ledger_laws : DeletionLedgerLaws (list LedgerEvent).
Proof.
  refine {| stored l evs := l = evs /\ legal evs |}.
  - by intros l evs [_ ?].
  - intros l evs rq phase t r l' [-> Hl] _ _ E. cbn in E. unfold memory_append in E.
    destruct (append_spec _ _ _ _ _) as [[e evs']|x] eqn:Es; injection E as <- <-.
    + destruct (append_spec_extends _ _ _ _ _ _ Es) as (Hext & Hin & Hid & Hp).
      exists evs'. split_and!; [done|by destruct Hext as [->|Hext]; [|eapply extends_legal]|destruct Hext; eauto|by intros e' [= <-]].
    + exists evs. split_and!; [done|done|by left|done].
  - intros l evs id r l' [-> Hl] [= <- <-]. split; [done|]. by intros c [= <-].
  - intros l evs r l' [-> Hl] [= <- <-]. split; [done|]. intros c [= <-]. apply unresolved_prepared.
Defined.

(** ** The adapter *)
(** Its disk, and how often its clock was read. *)
Context {PF : Platform} {LL : LedgerLaws}.
Variable clock : nat -> Z.
Definition timed {A} (m : Z -> io A) (l : Disk * nat) : result A * (Disk * nat) :=
  let (r, d) := m (clock l.2) l.1 in (r, (d, S l.2)).
#[local] Instance disk_ledger : DeletionLedger (Disk * nat) := {
  ledger_append rq phase t := timed (fun now => append lg now rq phase (Some t));
  ledger_chain id := timed (fun now => chain lg now id);
  ledger_unresolved_preparations := timed (fun now => unresolved_preparations lg now)
}.

Hypothesis lg_ok : config_ok lg.
Hypothesis lg_settled : settled lg.
Hypothesis writes : no_short_writes.
Hypothesis clock_ok : forall i, in_calendar (clock i).
Definition disk_stored (l : Disk * nat) (evs : list LedgerEvent) : Prop :=
  exists id sc n, Holds lg l.1 id sc n /\ sc_events sc = evs.
Lemma disk_append l evs rq phase t r l' :
  disk_stored l evs -> request_ok rq -> in_calendar t -> ledger_append rq phase t l = (r, l') ->
  exists evs', disk_stored l' evs' /\ (evs' = evs \/ exists e, extends rq phase evs e evs')
  /\ forall e, r = Ok e -> e ∈ evs' /\ ev_deletion_id e = rq_deletion_id rq /\ ev_phase e = phase.
Proof.
  intros (id & sc & n & HH & <-) Hrq Ht E. cbn [ledger_append disk_ledger] in E. unfold timed in E. destruct (append lg _ _ _ _ _) as [r0 d'] eqn:Er. injection E as <- <-.
  pose proof (wp_run _ _ _ _ _ (append_wp lg _ _ id sc n rq phase t lg_ok lg_settled writes (clock_ok _) Hrq Ht HH) Er) as (sc' & n' & H' & _ & Hcase).
  exists (sc_events sc'). split; [by exists id, sc', n'|]. destruct (append_spec lg rq phase t (sc_events sc)) as [[e evs]|x] eqn:Es.
  - destruct (append_spec_extends _ _ _ _ _ _ Es) as (Hext & Hin & Hid & Hp).
    destruct Hcase as [(-> & -> & _)|[(x & -> & _) Hev]].
    + split; [destruct Hext; eauto|]. intros e' [= <-]. done.
    + split; [|done]. destruct Hev as [->| ->]; [by left|]. destruct Hext; eauto.
  - destruct Hcase as [Hr ->]. split; [by left|]. intros e ->. destruct Hr as [?|(y & ? & _)]; done.
Qed.
Lemma disk_read {A} (operation : string) (view : LedgerState -> A) (f : list LedgerEvent -> A) l evs r l' :
  operation ∈ ALLOWED_OPERATIONS -> (forall s, view s = f (ls_events s)) -> disk_stored l evs ->
  timed (fun now => audited lg now operation view) l = (r, l') -> disk_stored l' evs /\ forall v, r = Ok v -> v = f evs.
Proof.
  intros Hop Hview (id & sc & n & HH & <-) E. unfold timed in E. destruct (audited lg _ _ _ _) as [r0 d'] eqn:Er. injection E as <- <-.
  assert (forall s, ls_events s = sc_events sc -> view s = f (sc_events sc)) as Hv by (intros s <-; apply Hview).
  destruct (wp_run _ _ _ _ _ (audited_read_wp lg _ _ id sc n operation view _ lg_ok lg_settled writes (clock_ok _) Hop HH Hv) Er)
    as (sc' & n' & H' & Hev & _ & Hr).
  split; [by exists id, sc', n'|]. intros v ->. by destruct Hr as [-> _].
Qed.
Definition disk_ledger_laws : DeletionLedgerLaws (Disk * nat).
Proof.
  refine {| stored := disk_stored; append_law := disk_append |}.
  - intros l evs (id & sc & n & HH & <-). by apply validate_chains_iff, (holds_chains _ _ _ _ _ HH).
  - intros l evs id r l' Hs E. eapply (disk_read "READ_CHAIN" _ (chain_of id)); [solve_keys| |exact Hs|exact E]. done.
  - intros l evs r l' Hs E. destruct (disk_read "ENUMERATE_UNRESOLVED" (fun s => unresolved (ls_events s)) unresolved l evs r l') as [H1 H2];
      [solve_keys|done|done|exact E|]. split; [done|]. intros c ->. rewrite (H2 c eq_refl). apply unresolved_prepared.
Defined.
End Ledgers.

(** A database without deletions agrees with an empty ledger. *)
Lemma fresh_consistent s :
  st_intents s = [] -> st_controls s = [] -> NoDup (row_id <$> users (st_base s)) -> NoDup (row_id <$> imports (st_base s)) ->
  NoDup (row_id <$> profile_versions (st_base s)) -> generations_ok s -> Consistent s [].
Proof.
  intros Hi Hc H1 H2 H3 Hg. assert (forall id, intent_of s id = None) as Hn by (intros id; unfold intent_of; by rewrite Hi).
  split; [by intros id Hne| |by rewrite Hc|..].
  - split; rewrite ?Hi, ?Hc; try done; constructor.
  - intros id _ H. by apply elem_of_nil in H.
  - intros id i H. by rewrite Hn in H.
  - intros id i H. by rewrite Hn in H.
  - intros id i H. by rewrite Hn in H.
Qed.

Fixpoint numeral (n : nat) : string := match n with O => "t" | S n' => String (Ascii.ascii_of_N 116) (numeral n') end.
Lemma numeral_length n : String.length (numeral n) = S n.
Proof. induction n as [|n IH]; [done|]. cbn. by rewrite IH. Qed.
Definition toy_runtime (outcome : nat -> commit) : Runtime :=
  {| random_id := numeral; receipt_salt := numeral; commit_outcome := outcome; checkpoint_observer _ _ := Ok tt |}.
Lemma toy_runtime_laws outcome : @RuntimeLaws (toy_runtime outcome).
Proof.
  split.
  - intros i. cbn. split; [|by destruct i]. induction i as [|i IH]; [done|]. exact IH.
  - intros i j E. apply (f_equal String.length) in E. cbn in E. rewrite !numeral_length in E. lia.
Qed.
Lemma toy_digests : @DigestLaws toy_crypto toy_sha.
Proof. split; intros; apply toy_digest_ok. Qed.

(** ** The database *)
Definition toy_user : UserRecord :=
  {| usr_id := "u1"; username_canonical := "ada"; password_hash := ""; usr_created_at := 0; usr_lifecycle_state := LC_ACTIVE;
     usr_lifecycle_generation := 1; usr_deletion_scope_id := "scope-u1" |}.
Definition toy_import : ImportRecord :=
  {| imp_id := "i1"; imp_owner_user_id := "u1"; imp_state := IMP_READY; imp_lifecycle_state := LC_ACTIVE;
     imp_lifecycle_generation := 1; imp_deletion_scope_id := "scope-i1"; imp_adapter := "PGE_CSV"; raw_content_hash := "";
     imp_created_at := 0; imp_published_at := None; imp_confirmed_at := None; imp_failure_code := None;
     imp_profile_version_id := None |}.
Definition toy_job : JobRecord :=
  {| job_submission :=
       {| job_id := "j1"; job_owner_user_id := Some "u1"; job_kind := "IMPORT"; job_request_schema_version := "v1";
          job_request_hash := ""; job_scope_mode := "ACTIVE_SCOPE"; job_request_json := "{}"; job_import_id := Some "i1";
          job_profile_version_id := None; captured_account_generation := 1; captured_import_generation := Some 1;
          captured_profile_generation := None; max_attempts := 3; requested_semantic_hash := None;
          calculation_contract_version := None; job_created_at := 0 |};
     job_state := QUEUED; attempt_count := 0; fencing_generation := 0; lease_owner := None; lease_acquired_at := None;
     lease_expires_at := None; heartbeat_at := None; not_before := 0; cancel_requested := false; job_failure_code := None;
     terminal_result_type := None; terminal_result_id := None; terminal_semantic_hash := None; job_completed_at := None |}.
Definition toy_session : SessionRecord :=
  {| ses_id := "s1"; ses_user_id := "u1"; ses_token_hash := ""; ses_csrf_hash := ""; ses_created_at := 0;
     ses_last_seen_at := 0; ses_idle_expires_at := 1000000; ses_absolute_expires_at := 1000000; ses_revoked_at := None |}.
Definition toy_store : Store :=
  {| st_base := {| users := [toy_user]; imports := [toy_import]; profile_versions := []; jobs := [toy_job];
                   job_attempts := []; audit_events := [] |};
     st_sessions := [toy_session]; st_intents := []; st_receipts := []; st_controls := []; st_ledger_receipts := [];
     st_audits := []; st_archive := empty_archive |}.
Lemma toy_consistent : Consistent toy_store [].
Proof.
  apply fresh_consistent; cbn; try done; try apply NoDup_singleton; [constructor|].
  split; [|split]; repeat constructor; cbn; lia.
Qed.

(** ** The service *)
Definition restore_keys : VersionedKeyring := {| current_version := "r1"; keys := [("r1", key_a)] |}.
Lemma restore_keys_ok : keyring_post_init restore_keys = Ok tt.
Proof. by vm_compute. Qed.
Definition toy_clock (i : nat) : Z := 0.
Lemma toy_clock_ok i : in_calendar (toy_clock i).
Proof. by vm_compute. Qed.
Definition toy_disk_ledger (fails : nat -> bool) : DeletionLedger (Disk * nat) :=
  disk_ledger (CR := toy_crypto) (SH := toy_sha) (JL := no_loads) (IF := no_iso) (LB := no_b64) (PF := toy_platform fails)
    old_ledger toy_clock.
Definition toy_disk_laws (fails : nat -> bool) : @DeletionLedgerLaws (Disk * nat) (toy_disk_ledger fails) :=
  disk_ledger_laws (LL := toy_laws fails) old_ledger toy_clock (proj1 old_config) (proj2 old_config) (toy_whole fails) toy_clock_ok.
Definition toy_world (fails : nat -> bool) : World (Disk * nat) :=
  {| w_store := toy_store; w_ledger := (new_disk fails, O); w_draws := 0; w_commits := 0 |}.
Lemma toy_world_good fails outcome :
  (created fails).1 = Ok tt -> Good (DLL := toy_disk_laws fails) (RT := toy_runtime outcome) (toy_world fails) [].
Proof.
  intros Hc. split; cbn [w_store w_ledger toy_world].
  - destruct (new_disk_holds fails Hc) as [id HH]. by exists id, empty_scan, 0.
  - apply toy_consistent.
  - intros id. cbn. intros H. by apply elem_of_nil in H.
Qed.

(** ** A service in memory *)
(** Its digests are constant. *)
Definition zeros : string := "0000000000000000000000000000000000000000000000000000000000000000".
Definition flat_crypto : Crypto :=
  {| hkdf_sha256 salt info master := ""; hmac_sha256_hex key message := zeros; aes_encrypt key nonce data aad := data;
     aes_decrypt key nonce data aad := Some data |}.
Definition flat_sha : Sha256 := fun _ => zeros.
Lemma flat_digests : @DigestLaws flat_crypto flat_sha.
Proof. split; intros; by vm_compute. Qed.
Definition flat_ledger : DeletionLedger (list LedgerEvent) := memory_ledger (CR := flat_crypto) old_ledger.
Definition flat_laws : @DeletionLedgerLaws (list LedgerEvent) flat_ledger := memory_ledger_laws (CR := flat_crypto) old_ledger.
Definition flat_world : World (list LedgerEvent) := {| w_store := toy_store; w_ledger := []; w_draws := 0; w_commits := 0 |}.
Lemma flat_world_good outcome : Good (DLL := flat_laws) (RT := toy_runtime outcome) flat_world [].
Proof.
  split; cbn [w_store w_ledger flat_world]; [split; [done|by intros id Hne]| |].
  - apply toy_consistent.
  - intros id. cbn. intros H. by apply elem_of_nil in H.
Qed.
Definition toy_secret : string := "00000000000000000000000000000000".
Definition all_commit (i : nat) : commit := Committed.
(** The first fence is refused by the database. *)
Definition one_refused (i : nat) : commit := if decide (i = 2%nat) then Refused else Committed.

Section Service.
Variable outcome : nat -> commit.
#[local] Existing Instance flat_ledger.
#[local] Existing Instance flat_crypto.
#[local] Existing Instance flat_sha.
#[local] Existing Instance no_loads.
#[local] Existing Instance no_iso.
#[local] Existing Instance Registry.plain_hasher.
#[local] Instance service_runtime : Runtime := toy_runtime outcome.
#[local] Existing Instance flat_laws.
#[local] Existing Instance flat_digests.
#[local] Instance service_runtime_laws : RuntimeLaws := toy_runtime_laws outcome.
(** The user asks for the deletion of the import; the deletion is prepared; it is started. *)
Definition intended : World (list LedgerEvent) := (create_intent_for "u1" IMPORT "i1" "key" toy_secret 0 flat_world).2.
Definition preparing := ensure_prepared restore_keys "t" 1000000 intended.
Definition flat_fence (e : LedgerEvent) := fence_prepared restore_keys e 1000000 preparing.2.
Definition flat_start (w : World (list LedgerEvent)) := authorize_and_start restore_keys "u1" "t" toy_secret 1000000 w.

Lemma second_ok : in_calendar 1000000.
Proof. by vm_compute. Qed.
Lemma intended_good : exists evs, Good intended evs.
Proof.
  pose proof (create_intent_local flat_world [] "u1" IMPORT "i1" "key" toy_secret 0) as H. apply sat_local in H.
  specialize (H (flat_world_good outcome)). unfold intended. destruct (create_intent_for _ _ _ _ _ _ _) as [r w].
  destruct H as (evs & HG & _). by exists evs.
Qed.
Lemma preparing_good : exists evs, Good preparing.2 evs.
Proof.
  destruct intended_good as [evs HG]. pose proof (ensure_prepared_sat restore_keys restore_keys_ok 1000000 second_ok intended evs "t" HG) as H.
  unfold preparing. destruct (ensure_prepared _ _ _ _) as [r w]. destruct H as (evs' & HG' & _). by exists evs'.
Qed.
End Service.

(** A start whose fence the database refuses raises; repeating it succeeds. *)
Definition deleting : DeletionStatus :=
  {| ds_deletion_id := "t"; ds_status := RS_DELETING; ds_artifact_counts := []; ds_completed_at := None |}.
Example retry_after_refused_fence :
  let first := flat_start one_refused (intended one_refused) in
  first.1 = Raise (PyError "OperationalError") /\ (flat_start one_refused first.2).1 = Ok deleting.
Proof. by vm_compute. Qed.
