(* ===== verification/DeletionsTheorems.v ===== *)
(** * DeletionsTheorems: what the deletion coordinator guarantees

    However its calls fail, the coordinator keeps the database and the ledger in
    the deletion protocol; a start that returns is authorised and durable; a
    committed fence cuts off the jobs and sessions of its target. *)

From S2P Require Import Prelude Float Json JsonCanonical JsonLoads Calendar PyText IsoTime Base64 Keyrings Deletion.
From S2P Require Import Ledger LedgerProofs LedgerChains LedgerSafety LedgerTheorems LedgerModel Database DeletionStore Deletions.
From S2P Require Import DeletionsInvariant DeletionsProofs DeletionsModel.

(** ** Sequences of calls *)
(** A call of the service, with its arguments and the time it is made at. *)
Inductive Call :=
| CreateIntent (owner : string) (kind : TargetKind) (resource key secret : string)
| Start (owner deletion_id secret : string)
| StartResource (owner : string) (kind : TargetKind) (resource key secret : string)
| Abandon (deletion_id : string)
| Reconcile
| ReadStatus (deletion_id secret : string).

Section Theorems.
Context {L : Type} {DL : DeletionLedger L} {DLL : DeletionLedgerLaws L} {RT : Runtime} {RTL : RuntimeLaws}.
Context {CR : Crypto} {SH : Sha256} {DG : DigestLaws} {RH : Registry.ReceiptHasher} {JL : JsonLoads} {IF : IsoFormats}.
Variable keyring : VersionedKeyring.
Implicit Types (w : World L) (evs : list LedgerEvent) (s : Store).

(** The world a call leaves, whether it returns or raises. *)
Definition perform w (c : Call * Z) : World L :=
  let now := c.2 in
  match c.1 with
  | CreateIntent owner kind resource key secret => (create_intent_for owner kind resource key secret now w).2
  | Start owner id secret => (authorize_and_start keyring owner id secret now w).2
  | StartResource owner kind resource key secret =>
      (start_resource_deletion keyring owner kind resource key secret now w).2
  | Abandon id => (prove_noncommit_and_abort keyring id now w).2
  | Reconcile => (reconcile keyring now w).2
  | ReadStatus id secret => (status id secret now w).2
  end.
Definition reaches w evs w' evs' : Prop := Good w' evs' /\ Refines (w_store w) evs (w_store w') evs'.
Lemma sat_reaches {A} w evs (m : op L A) Q : Good w evs -> sat w evs m Q -> exists evs', reaches w evs (m w).2 evs'.
Proof. intros HG Hm. specialize (Hm HG). destruct (m w) as [r w']. destruct Hm as (evs' & H1 & H2 & _). by exists evs'. Qed.
Lemma perform_reaches w evs c :
  keyring_post_init keyring = Ok tt -> in_calendar c.2 -> Good w evs -> exists evs', reaches w evs (perform w c) evs'.
Proof.
  intros Hk Hn HG. destruct c as [[owner kind resource key secret|owner id secret|owner kind resource key secret|id| |id secret] now]; cbn [perform fst snd].
  - eapply sat_reaches; [done|]. by eapply sat_local, create_intent_local.
  - eapply sat_reaches; [done|]. by apply authorize_and_start_sat.
  - eapply sat_reaches; [done|]. by apply start_resource_deletion_sat.
  - eapply sat_reaches; [done|]. by apply prove_noncommit_and_abort_sat.
  - eapply sat_reaches; [done|]. by apply reconcile_sat.
  - eapply sat_reaches; [done|]. by apply status_sat.
Qed.
Lemma performs_reach cs w evs :
  keyring_post_init keyring = Ok tt -> Forall (fun c => in_calendar c.2) cs -> Good w evs ->
  exists evs', reaches w evs (foldl perform w cs) evs'.
Proof.
  intros Hk. revert w evs. induction cs as [|c cs IH]; intros w evs Hcs HG; [exists evs; split; [done|apply refines_refl]|].
  apply Forall_cons in Hcs as [Hc Hcs]. destruct (perform_reaches w evs c Hk Hc HG) as (evs1 & HG1 & HR1).
  destruct (IH _ _ Hcs HG1) as (evs2 & HG2 & HR2). exists evs2. split; [done|by eapply refines_trans].
Qed.

(** C27: the coordinator refines the deletion protocol.  From a database and a
    ledger that agree, after any sequence of calls, whatever commits are refused
    or unacknowledged, whatever ledger writes fail and wherever a call is cut
    off, they agree again; the ledger only grew; and every deletion moved from
    its protocol state to a reachable one by protocol operations. *)
Theorem coordinator_refines_protocol w evs cs :
  keyring_post_init keyring = Ok tt -> Good w evs -> Forall (fun c => in_calendar c.2) cs ->
  let w' := foldl perform w cs in
  exists evs', Good w' evs' /\ evs `prefix_of` evs'
  /\ (forall id, known (w_store w) evs id ->
      exists os, Protocol.run (view (w_store w) evs id) os = Ok (view (w_store w') evs' id))
  /\ (forall id, Protocol.reachable (start_generation (w_store w') evs' id) (view (w_store w') evs' id)).
Proof.
  intros Hk HG Hcs. destruct (performs_reach cs w evs Hk Hcs HG) as (evs' & HG' & [Hp _ Hr]). exists evs'. split_and!; [done|done|done|].
  intros id. eapply Protocol.run_reachable, Protocol.run_path_to, consistent_phase, HG'.
Qed.

(** ** Starting *)
(** The caller owns the intent, knows its secret and is in time. *)
Definition authorized s (owner id secret : string) (now : Z) : bool :=
  match table_get id (st_intents s), table_get id (st_receipts s) with
  | Some i, Some r =>
      String.eqb (di_owner_user_id i) owner && Registry.receipt_verify (rc_receipt_verifier r) secret
      && negb (bool_decide (di_state i = DI_INVALIDATED)) && negb (expired_intent i now)
  | _, _ => false
  end.
Lemma unauthorized_start w owner id secret now :
  authorized (w_store w) owner id secret now = false ->
  exists code, authorize_and_start keyring owner id secret now w = (Raise (service_error code), w)
  /\ code ∈ ["INVALID_DELETION_PROOF"; "INTENT_EXPIRED"].
Proof.
  intros Ha. unfold authorize_and_start, validate_receipt_secret. unfold mbind at 1, op_bind at 1, pure at 1.
  destruct (negb _); [exists "INVALID_DELETION_PROOF"; split; [done|set_solver]|]. cbn [raise_if].
  unfold mbind at 1, op_bind at 1, authorized_intent, mbind at 1, op_bind at 1, get_store at 1. unfold authorized in Ha.
  destruct (table_get id (st_intents _)) as [i|]; [|exists "INVALID_DELETION_PROOF"; split; [done|set_solver]].
  destruct (table_get id (st_receipts _)) as [r|]; [|exists "INVALID_DELETION_PROOF"; split; [done|set_solver]].
  unfold mbind, op_bind, require_that, pure.
  destruct (String.eqb _ _ && _); [|exists "INVALID_DELETION_PROOF"; split; [done|set_solver]]. cbn [negb raise_if andb] in *.
  exists "INTENT_EXPIRED". split; [|set_solver]. rewrite negb_involutive, <-negb_orb in *. apply negb_false_iff in Ha. by rewrite Ha.
Qed.
(** C28: starting a deletion needs the authority of its owner and is durable when
    it returns.  A call whose caller does not own a live intent or does not know
    its receipt secret is refused and changes nothing, in the database or in the
    ledger.  When a call returns, the request is in the ledger, the intent is
    consumed, the target is being deleted at its next generation and a sweep job
    is named. *)
Theorem start_authorized_and_durable w evs owner id secret now :
  keyring_post_init keyring = Ok tt -> Good w evs -> in_calendar now ->
  let run := authorize_and_start keyring owner id secret now w in
  (authorized (w_store w) owner id secret now = false -> exists code, run = (Raise (service_error code), w)
     /\ code ∈ ["INVALID_DELETION_PROOF"; "INTENT_EXPIRED"])
  /\ (forall st, run.1 = Ok st -> exists evs' c, let s' := w_store run.2 in let v := view s' evs' (ds_deletion_id st) in
      Good run.2 evs' /\ evs `prefix_of` evs' /\ control_of s' (ds_deletion_id st) = Some c /\ is_Some (dc_deletion_job_id c)
      /\ REQUESTED ∈ Protocol.ledger_chain v /\ Protocol.intent_consumed v = true
      /\ Protocol.lifecycle v = DELETING /\ Protocol.generation v = Protocol.original_generation v + 1).
Proof.
  intros Hk HG Hn run. split; [apply unauthorized_start|]. intros st Hst.
  pose proof (authorize_and_start_sat keyring Hk now Hn w evs owner id secret HG) as H. fold run in H. destruct run as [r w']. cbn [fst] in Hst. subst r.
  destruct H as (evs' & HG' & HR & Hs & Hreq). destruct (sweeping_view _ evs' _ (gd_consistent _ _ HG') Hs) as (c & Hc & Hj & H1 & H2 & H3).
  exists evs', c. cbn [fst snd]. split_and!; try done; [apply HR|]. unfold view. by rewrite Hc.
Qed.

(** ** Fencing *)
Lemma fence_run e now w w' :
  fence_prepared keyring e now w = (Ok tt, w') -> control_of (w_store w) (ev_deletion_id e) = None ->
  exists i t u prepared_at rows, intent_of (w_store w) (ev_deletion_id e) = Some i
  /\ target_by_scope (w_store w) (di_target_kind i) (di_target_scope_id i) = Some t
  /\ usr_id u = di_owner_user_id i /\ fence_allowed e i (Some t) (Some u) = Ok true
  /\ write_fence e i t (usr_id u) prepared_at now (set_ledger_receipts rows (w_store w)) = Ok (w_store w').
Proof.
  intros H Hc. apply run_bind in H as ([] & w0 & Hp & H). assert (w0 = w) as -> by (unfold require_that, pure in Hp; by injection Hp).
  clear Hp. apply run_transaction in H as (w1 & H & ->). apply run_bind in H as (s & w2 & [= <- <-] & H).
  destruct (table_get _ (st_intents _)) as [i|] eqn:Ei; [|done]. apply run_pure in H as ([] & _ & H).
  apply run_bind in H as ([] & w2 & [rows Er]%run_receipt & H). unfold control_of in Hc. rewrite Hc in H.
  apply run_pure in H as (allowed & Ha & H). apply run_bind in H as ([] & w3 & Hall & H). unfold require_that, pure in Hall.
  injection Hall as Hall <-. destruct allowed; [|done]. apply run_pure in H as (prepared_at & _ & H).
  destruct (target_by_scope _ _ _) as [t|] eqn:Et; [|done]. destruct (table_get _ (users _)) as [u|] eqn:Eu; [|done].
  unfold try_update in H. destruct (write_fence _ _ _ _ _ _ _) as [s'|x] eqn:Ew; [|done]. injection H as <-.
  exists i, t, u, prepared_at, rows. split_and!; try done; [|by rewrite <-Er]. by apply table_get_elem in Eu as [_ ?].
Qed.
Lemma write_fence_effects e i t uid prepared_at now s s' :
  write_fence e i t uid prepared_at now s = Ok s' ->
  jobs (st_base s') = (fun j => if dependent_job (di_target_kind i) t uid j
                                then cancel_job (kind_str (di_target_kind i) +:+ "_DELETION") now j else j) <$> jobs (st_base s)
  /\ (di_target_kind i = ACCOUNT -> st_sessions s' = st_sessions (revoke_sessions uid now s)).
Proof.
  unfold write_fence. cbv zeta. intros H. destruct (table_get _ _); [|done]. unfold add_control in H.
  apply bind_ok in H as ([] & _ & [= <-]). split; [|intros E]; case_decide; try done; by destruct t.
Qed.
Lemma cancelled_job kind t uid code now j :
  dependent_job kind t uid (cancel_job code now j) = true -> cancel_requested (cancel_job code now j) = true /\ job_state (cancel_job code now j) <> QUEUED.
Proof. intros _. split; [done|]. cbn. case_bool_decide; congruence. Qed.

(** C29: a fence cuts off what works on its target.  When [_fence_prepared]
    commits a new fence, its target was live and owned by the user of the intent
    and is now pending deletion at the next generation; every live job of the
    target is asked to stop and none of them is queued any more, the other jobs
    are untouched, and for an account every session of the user is revoked. *)
Theorem fence_cuts_access w evs e now w' :
  Good w evs -> control_of (w_store w) (ev_deletion_id e) = None -> fence_prepared keyring e now w = (Ok tt, w') ->
  exists i t, let s' := w_store w' in let owner := di_owner_user_id i in let kind := di_target_kind i in
  intent_of (w_store w) (ev_deletion_id e) = Some i /\ target_by_scope (w_store w) kind (di_target_scope_id i) = Some t
  /\ target_lifecycle_state t = LC_ACTIVE /\ target_owner_id kind t = Ok owner
  /\ target_by_scope s' kind (di_target_scope_id i)
     = Some (set_lifecycle LC_DELETION_PENDING_LEDGER (ev_proposed_generation e) t)
  /\ (forall j, j ∈ jobs (st_base s') -> dependent_job kind t owner j = true -> cancel_requested j = true /\ job_state j <> QUEUED)
  /\ (forall j, j ∈ jobs (st_base (w_store w)) -> dependent_job kind t owner j = false -> j ∈ jobs (st_base s'))
  /\ (kind = ACCOUNT -> forall r, r ∈ st_sessions s' -> ses_user_id r = owner -> is_Some (ses_revoked_at r)).
Proof.
  intros HG Hc H. destruct (fence_run _ _ _ _ H Hc) as (i & t & u & prepared_at & rows & Hi & Ht & Hu & Ha & Hw). rewrite Hu in Hw.
  exists i, t. cbv zeta. destruct (write_fence_effects _ _ _ _ _ _ _ _ Hw) as [Hj Hs]. apply write_fence_rows in Hw as [Hrows _].
  cbn [set_ledger_receipts st_base] in Hj. unfold fence_allowed in Ha. apply bind_ok in Ha as (o & Ho & Ha). unfold owned_by in Ho.
  apply bind_ok in Ho as (oid & Hoid & Ho). apply ok_inj in Ha, Ho. subst o. bools.
  assert (oid = di_owner_user_id i) by (by apply String.eqb_eq). split_and!; try done; [congruence|..].
  - rewrite (same_target _ _ _ _ Hrows). unfold fence_store. rewrite target_with, target_intent.
    destruct (same_rows_step (w_store w) (set_ledger_receipts rows (w_store w)) evs (gd_consistent _ _ HG) ltac:(done)) as [HC1 _].
    by eapply put_target_same; [exact HC1|].
  - rewrite Hj. intros j (j0 & -> & _)%list_elem_of_fmap. destruct (dependent_job _ _ _ j0) eqn:E; [apply cancelled_job|congruence].
  - rewrite Hj. intros j Hin E. apply list_elem_of_fmap. exists j. by rewrite E.
  - intros E r. rewrite (Hs E). cbn. intros (r0 & -> & _)%list_elem_of_fmap. destruct (String.eqb _ _ && _) eqn:Eb; [by eexists|].
    intros Eo. apply String.eqb_eq in Eo. rewrite Eo in Eb. cbn in Eb. bools. done.
Qed.
End Theorems.

(** ** Examples *)
Section Examples.
(** The sixth write to the ledger and the third commit of the database fail. *)
Let flaky : nat -> bool := fun i => Nat.eqb i 6.
Let calls : list (Call * Z) :=
  [(StartResource "u1" IMPORT "i1" "key" toy_secret, 0); (Reconcile, 1000000); (Abandon "t", 1000000); (ReadStatus "t" toy_secret, 1000000)].

Lemma coordinator_refines_protocol_witness :
  let w' := foldl (perform (DL := toy_disk_ledger flaky) (RT := toy_runtime one_refused) (CR := toy_crypto) (SH := toy_sha)
                     (RH := Registry.plain_hasher) (JL := no_loads) (IF := no_iso) restore_keys) (toy_world flaky) calls in
  exists evs', Consistent (w_store w') evs'
  /\ (forall id, Protocol.reachable (start_generation (w_store w') evs' id) (view (w_store w') evs' id)).
Proof.
  destruct (coordinator_refines_protocol (DLL := toy_disk_laws flaky) (RTL := toy_runtime_laws one_refused) (DG := toy_digests)
    (RH := Registry.plain_hasher) (JL := no_loads) (IF := no_iso) restore_keys (toy_world flaky) [] calls restore_keys_ok
    (toy_world_good flaky one_refused eq_refl)) as (evs' & HG & _ & _ & Hr).
  - repeat constructor; by vm_compute.
  - exists evs'. split; [apply HG|exact Hr].
Defined.

Notation the_start := (authorize_and_start (DL := flat_ledger) (RT := service_runtime all_commit) (CR := flat_crypto) (SH := flat_sha)
  (RH := Registry.plain_hasher) (JL := no_loads) (IF := no_iso) restore_keys "u1" "t" toy_secret 1000000 (intended all_commit)).
Lemma the_start_returns : the_start.1 = Ok deleting.
Proof. by vm_compute. Qed.
Lemma start_authorized_and_durable_witness :
  the_start.1 = Ok deleting
  /\ exists evs' c, control_of (w_store the_start.2) (ds_deletion_id deleting) = Some c /\ is_Some (dc_deletion_job_id c)
     /\ REQUESTED ∈ Protocol.ledger_chain (view (w_store the_start.2) evs' (ds_deletion_id deleting)).
Proof.
  split; [exact the_start_returns|]. destruct (intended_good all_commit) as [evs HG].
  destruct (start_authorized_and_durable (DLL := flat_laws) (RTL := service_runtime_laws all_commit) (DG := flat_digests)
    (RH := Registry.plain_hasher) (JL := no_loads) (IF := no_iso) restore_keys (intended all_commit) evs "u1" "t" toy_secret 1000000
    restore_keys_ok HG second_ok) as [_ H].
  destruct (H deleting the_start_returns) as (evs' & c & _ & _ & Hc & Hj & Hr & _). exists evs', c.
  split; [exact Hc|]. split; [exact Hj|exact Hr].
Defined.

Definition the_event : LedgerEvent := match (preparing all_commit).1 with Ok e => e | Raise _ => toy_legacy end.
Notation the_fence := (fence_prepared (RT := service_runtime all_commit) (CR := flat_crypto) (SH := flat_sha)
  (IF := no_iso) restore_keys the_event 1000000 (preparing all_commit).2).
Lemma the_fence_returns : the_fence.1 = Ok tt.
Proof. by vm_compute. Qed.
Lemma the_fence_is_new : control_of (w_store (preparing all_commit).2) (ev_deletion_id the_event) = None.
Proof. by vm_compute. Qed.
Lemma fence_cuts_access_witness :
  the_fence.1 = Ok tt
  /\ exists i t, intent_of (w_store (preparing all_commit).2) (ev_deletion_id the_event) = Some i
     /\ target_by_scope (w_store the_fence.2) (di_target_kind i) (di_target_scope_id i)
        = Some (set_lifecycle LC_DELETION_PENDING_LEDGER (ev_proposed_generation the_event) t)
     /\ forall j, j ∈ jobs (st_base (w_store the_fence.2)) -> dependent_job (di_target_kind i) t (di_owner_user_id i) j = true ->
        cancel_requested j = true.
Proof.
  split; [exact the_fence_returns|]. destruct (preparing_good all_commit) as [evs HG].
  assert (the_fence = (Ok tt, the_fence.2)) as E by (rewrite <-the_fence_returns; apply surjective_pairing).
  destruct (fence_cuts_access (DLL := flat_laws) (RT := service_runtime all_commit) (SH := flat_sha) (CR := flat_crypto) (IF := no_iso) restore_keys
    (preparing all_commit).2 evs the_event 1000000 _ HG the_fence_is_new E) as (i & t & Hi & _ & _ & _ & Ht & Hj & _).
  exists i, t. split; [exact Hi|]. split; [exact Ht|]. intros j Hin Hd. exact (proj1 (Hj j Hin Hd)).
Defined.
End Examples.
