(* ===== verification/DeletionSweep.v ===== *)
(** * DeletionSweep: drain, sweep, verify and complete (persistence/deletion_sweep.py)

    [DeletionSweepService.advance] moves one deletion by one persisted phase
    under the lease of its job.  The services outside the database are the ledger
    and the object store.  A foreign key without a cascade only refuses a
    transaction, which [commit_outcome] covers. *)

From S2P Require Import Prelude Float Json JsonCanonical JsonLoads Calendar PyText IsoTime Base64 Keyrings Deletion.
From S2P Require Import Ledger Database Jobs DeletionStore Deletions.

(** What the sweep calls of the object store (persistence/object_store.py). *)
Class ObjectStore (L : Type) := {
  object_delete : string -> L -> result unit * L;
  object_exists : string -> L -> result bool * L;
  object_list_prefix : string -> L -> result (list string) * L
}.

Definition sweep_error (code : string) : exn := ServiceError "DeletionSweepError" code.
Definition stale : exn := sweep_error "STALE_DELETION_LEASE".
Definition require_sweep {L} (b : bool) (code : string) : op L unit := pure (raise_if (negb b) (sweep_error code)).
(** [except DeletionServiceError as error: raise DeletionSweepError(error.code, ...)]. *)
Definition as_sweep_error (e : exn) : exn :=
  match e with
  | ServiceError "DeletionServiceError" code => sweep_error code
  | _ => e
  end.

Inductive SweepState := ADVANCED | PENDING | COMPLETED_SWEEP.
#[export] Instance SweepState_eq_dec : EqDecision SweepState.
Proof. solve_decision. Defined.
Record SweepOutcome := { so_state : SweepState; so_phase : string }.
Record ResourceGraph := {
  g_import_ids : list string; g_profile_ids : list string; g_job_ids : list string; g_replay_ids : list string;
  g_comparison_ids : list string; g_scenario_ids : list string; g_scenario_result_ids : list string;
  g_scenario_load_ids : list string; g_report_export_ids : list string; g_upload_ids : list string;
  g_operation_ids : list string; g_object_keys : list string; g_object_prefixes : list string
}.

(** ** Deleting rows *)
Definition on_archive (f : Archive -> Archive) (s : Store) : Store := set_archive (f (st_archive s)) s.
Definition delete_sessions (p : SessionRecord -> bool) (s : Store) : Store := set_sessions (table_delete p (st_sessions s)) s.
Definition delete_intents (p : DeletionIntentRecord -> bool) (s : Store) : Store := set_intents (table_delete p (st_intents s)) s.
Definition delete_controls (p : DeletionControlOperationRecord -> bool) (s : Store) : Store :=
  set_controls (table_delete p (st_controls s)) s.
Definition delete_ledger_receipts (p : DeletionLedgerReceiptRecord -> bool) (s : Store) : Store :=
  set_ledger_receipts (table_delete p (st_ledger_receipts s)) s.
Definition delete_jobs (p : JobRecord -> bool) (s : Store) : Store := set_jobs (table_delete p (jobs (st_base s))) s.
Definition delete_attempts (p : JobAttemptRecord -> bool) (s : Store) : Store :=
  let b := st_base s in
  set_base {| users := users b; imports := imports b; profile_versions := profile_versions b; jobs := jobs b;
              job_attempts := table_delete p (job_attempts b); audit_events := audit_events b |} s.
Definition delete_audit_events (p : AuditEventRecord -> bool) (s : Store) : Store :=
  let b := st_base s in
  set_base {| users := users b; imports := imports b; profile_versions := profile_versions b; jobs := jobs b;
              job_attempts := job_attempts b; audit_events := table_delete p (audit_events b) |} s.
Definition delete_profiles (p : ProfileVersionRecord -> bool) (s : Store) : Store :=
  let b := st_base s in
  set_base {| users := users b; imports := imports b; profile_versions := table_delete p (profile_versions b);
              jobs := jobs b; job_attempts := job_attempts b; audit_events := audit_events b |} s.
Definition delete_imports (p : ImportRecord -> bool) (s : Store) : Store :=
  let b := st_base s in
  on_archive (cascade_imports (ids p (imports b)))
    (set_base {| users := users b; imports := table_delete p (imports b); profile_versions := profile_versions b;
                 jobs := jobs b; job_attempts := job_attempts b; audit_events := audit_events b |} s).
Definition delete_users (p : UserRecord -> bool) (s : Store) : Store :=
  let b := st_base s in
  let gone := ids p (users b) in
  delete_sessions (fun r => in_list gone (ses_user_id r))
    (delete_audit_events (fun r => in_list_opt gone (ev_owner_user_id r))
      (set_base {| users := table_delete p (users b); imports := imports b; profile_versions := profile_versions b;
                   jobs := jobs b; job_attempts := job_attempts b; audit_events := audit_events b |} s)).

(** ** Assignments *)
Definition set_control (phase : ControlPhase) (counts : string) (now : Z) (c : DeletionControlOperationRecord)
    : DeletionControlOperationRecord :=
  {| dc_deletion_id := dc_deletion_id c; dc_target_kind := dc_target_kind c; dc_target_scope_id := dc_target_scope_id c;
     dc_scope_token := dc_scope_token c; dc_restore_key_version := dc_restore_key_version c;
     dc_original_generation := dc_original_generation c; dc_deletion_generation := dc_deletion_generation c;
     dc_preparation_digest := dc_preparation_digest c; dc_intent_proof_digest := dc_intent_proof_digest c;
     dc_phase := phase; dc_deletion_job_id := dc_deletion_job_id c; dc_artifact_counts_json := counts;
     dc_created_at := dc_created_at c; dc_updated_at := now |}.
Definition set_counts (counts : string) (r : DeletionReceiptRecord) : DeletionReceiptRecord :=
  {| rc_deletion_id := rc_deletion_id r; rc_receipt_verifier := rc_receipt_verifier r; rc_status := rc_status r;
     rc_artifact_counts_json := counts; rc_created_at := rc_created_at r; rc_completed_at := rc_completed_at r;
     rc_verifier_expires_at := rc_verifier_expires_at r |}.
Definition finish_receipt (counts : string) (now expiry : Z) (r : DeletionReceiptRecord) : DeletionReceiptRecord :=
  {| rc_deletion_id := rc_deletion_id r; rc_receipt_verifier := rc_receipt_verifier r; rc_status := RS_DELETED;
     rc_artifact_counts_json := counts; rc_created_at := rc_created_at r; rc_completed_at := Some now;
     rc_verifier_expires_at := Some expiry |}.
Definition audit_of (c : DeletionControlOperationRecord) (r : DeletionReceiptRecord) (code : string) (now expiry : Z)
    : DeletionAuditRecord :=
  {| da_deletion_id := dc_deletion_id c; da_target_kind := dc_target_kind c;
     da_receipt_verifier := Some (rc_receipt_verifier r); da_verifier_expires_at := expiry;
     da_scope_token := dc_scope_token c; da_restore_key_version := dc_restore_key_version c;
     da_deletion_generation := dc_deletion_generation c; da_completed_at := now;
     da_artifact_counts_json := dc_artifact_counts_json c; da_status := "DELETED"; da_status_code := code |}.
Definition set_upload (state : UploadState) (now : Z) (deleted : option Z) (u : ObjectUploadRegistrationRecord)
    : ObjectUploadRegistrationRecord :=
  {| ul_id := ul_id u; ul_owner_user_id := ul_owner_user_id u; ul_job_id := ul_job_id u;
     ul_attempt_number := ul_attempt_number u; ul_fencing_generation := ul_fencing_generation u;
     ul_artifact_class := ul_artifact_class u; ul_object_key := ul_object_key u;
     ul_upload_identifier := ul_upload_identifier u; ul_state := state; ul_content_hash := ul_content_hash u;
     ul_size_bytes := ul_size_bytes u; ul_created_at := ul_created_at u; ul_updated_at := now;
     ul_accepted_at := ul_accepted_at u; ul_deleted_at := deleted |}.
Definition resolve_fence (now : Z) (f : DeletionFenceTargetRecord) : DeletionFenceTargetRecord :=
  {| ft_id := ft_id f; ft_deletion_id := ft_deletion_id f; ft_target_kind := ft_target_kind f;
     ft_target_id := ft_target_id f; ft_observed_generation := ft_observed_generation f;
     ft_observed_state := ft_observed_state f; ft_created_at := ft_created_at f; ft_resolved_at := Some now |}.
Definition put_upload (u : ObjectUploadRegistrationRecord) : Store -> Store :=
  on_archive (fun a => set_uploads (table_put u (ar_uploads a)) a).
Definition put_fence (f : DeletionFenceTargetRecord) : Store -> Store :=
  on_archive (fun a => set_fences (table_put f (ar_fences a)) a).

Section Sweep.
Context {L : Type} {DL : DeletionLedger L} {OS : ObjectStore L} {RT : Runtime} {SH : Sha256} {IF : IsoFormats}.

(** ** Guards *)
Definition control_by_job (s : Store) (job_id : string) : option DeletionControlOperationRecord :=
  find_by (fun c => bool_decide (dc_deletion_job_id c = Some job_id)) (st_controls s).
(** [_read_control] and [_locked_control]: the same rows, read with and without locks. *)
Definition locked_control (lease : JobLease) (phase : ControlPhase) (now : Z) (s : Store)
    : result (DeletionControlOperationRecord * UserRecord) :=
  match control_by_job s (l_job_id lease) with
  | None => Raise stale
  | Some control =>
      let target := target_by_scope s (dc_target_kind control) (dc_target_scope_id control) in
      user ← owner_of s control target;
      match target, user, current_fenced_job lease now [RUNNING] (st_base s) with
      | Some t, Some u, Some job =>
          _ ← raise_if (negb (bool_decide (dc_phase control = phase))
                        || negb (bool_decide (target_lifecycle_state t = LC_DELETING))
                        || negb (target_lifecycle_generation t =? dc_deletion_generation control)
                        || negb (bool_decide (job_owner_user_id job = Some (usr_id u)))
                        || negb (parent_scope_is_active (dc_target_kind control) (Some u))) stale;
          Ok (control, u)
      | _, _, _ => Raise stale
      end
  end.
Definition receipt_of (s : Store) (deletion_id : string) : result DeletionReceiptRecord :=
  from_option (sweep_error "DELETION_RECEIPT_MISSING") (table_get deletion_id (st_receipts s)).
Definition requested_event (control : DeletionControlOperationRecord) : op L LedgerEvent :=
  chain ← call_ledger (ledger_chain (dc_deletion_id control));
  match find_phase REQUESTED chain with
  | None => raise (sweep_error "REQUESTED_LEDGER_MISSING")
  | Some requested =>
      _ ← pure (except as_sweep_error (validate_control_event requested control REQUESTED));
      mret requested
  end.
Definition control_for_lease (lease : JobLease) (now : Z) : op L DeletionControlOperationRecord :=
  s ← get_store;
  match current_fenced_job lease now [RUNNING] (st_base s), control_by_job s (l_job_id lease) with
  | Some job, Some control =>
      _ ← require_sweep (bool_decide (is_Some (job_owner_user_id job))) "STALE_DELETION_LEASE";
      _ ← requested_event control;
      mret control
  | _, _ => raise stale
  end.

(** ** Draining *)
(** [column < generation]; a [NULL] is below nothing. *)
Definition captured_below (v : option Z) (g : Z) : bool := match v with Some v => v <? g | None => false end.
Definition dependent_criterion (c : DeletionControlOperationRecord) (t : DeletionTarget) (owner : string)
    : result (JobRecord -> bool) :=
  let owned (j : JobRecord) := bool_decide (job_owner_user_id j = Some owner) in
  match dc_target_kind c, t with
  | ACCOUNT, TUser _ => Ok (fun j : JobRecord => owned j && (captured_account_generation j <? dc_deletion_generation c))
  | IMPORT, TImport i =>
      Ok (fun j : JobRecord => owned j && bool_decide (job_import_id j = Some (imp_id i))
                   && captured_below (captured_import_generation j) (dc_deletion_generation c))
  | PROFILE, TProfile p =>
      Ok (fun j : JobRecord => owned j && bool_decide (job_profile_version_id j = Some (pv_id p))
                   && captured_below (captured_profile_generation j) (dc_deletion_generation c))
  | _, _ => Raise (sweep_error "DELETION_CONTROL_CORRUPT")
  end.
Definition dependent_jobs (lease : JobLease) (c : DeletionControlOperationRecord) (t : DeletionTarget) (owner : string)
    (s : Store) : result (list JobRecord) :=
  criterion ← dependent_criterion c t owner;
  Ok (List.filter (fun j : JobRecord => negb (String.eqb (job_id j) (l_job_id lease)) && criterion j) (jobs (st_base s))).
Definition att_state_str (a : AttemptState) : string :=
  match a with
  | ATT_LEASED => "LEASED" | ATT_RUNNING => "RUNNING" | ATT_SUCCEEDED => "SUCCEEDED" | ATT_FAILED => "FAILED"
  | ATT_CANCELLED => "CANCELLED" | ATT_EXPIRED => "EXPIRED"
  end.
Definition fence_of (s : Store) (deletion_id : string) (kind : FenceKind) (target_id : string)
    : option DeletionFenceTargetRecord :=
  find_by (fun f => String.eqb (ft_deletion_id f) deletion_id && bool_decide (ft_target_kind f = kind)
                    && String.eqb (ft_target_id f) target_id) (ar_fences (st_archive s)).
Definition fence_target (deletion_id : string) (kind : FenceKind) (target_id : string) (generation : Z) (state : string)
    (now : Z) : op L DeletionFenceTargetRecord :=
  s ← get_store;
  match fence_of s deletion_id kind target_id with
  | Some existing =>
      _ ← require_sweep (ft_observed_generation existing =? generation) "DELETION_FENCE_MISMATCH"; mret existing
  | None =>
      id ← draw_id random_id;
      let created := {| ft_id := id; ft_deletion_id := deletion_id; ft_target_kind := kind; ft_target_id := target_id;
                        ft_observed_generation := generation; ft_observed_state := state; ft_created_at := now;
                        ft_resolved_at := None |} in
      _ ← try_update (fun s => t ← table_add created (ar_fences (st_archive s)); Ok (on_archive (set_fences t) s));
      mret created
  end.
Definition resolve_new (f : DeletionFenceTargetRecord) (now : Z) : op L unit :=
  if bool_decide (ft_resolved_at f = None) then update (put_fence (resolve_fence now f)) else mret tt.
(** A lease of this generation that has not run out. *)
Definition writer_live (job : JobRecord) (generation now : Z) : bool :=
  mem (job_state job) [LEASED; RUNNING] && lease_live job now && (fencing_generation job =? generation).
Definition drain_attempt (deletion_id : string) (ordinary : list JobRecord) (now : Z) (pending : bool)
    (attempt : JobAttemptRecord) : op L bool :=
  fence ← fence_target deletion_id FK_JOB_ATTEMPT (att_id attempt) (att_fencing_generation attempt)
            (att_state_str (att_state attempt)) now;
  match table_get (att_job_id attempt) ordinary with
  | None => raise (PyError "KeyError")
  | Some job =>
      if writer_live job (att_fencing_generation attempt) now then mret true
      else _ ← resolve_new fence now; mret pending
  end.
Definition drain_upload (deletion_id : string) (now : Z) (acc : bool * list (string * string))
    (upload : ObjectUploadRegistrationRecord) : op L (bool * list (string * string)) :=
  fence ← fence_target deletion_id FK_UPLOAD (ul_id upload) (ul_fencing_generation upload)
            (upload_state_str (ul_state upload)) now;
  s ← get_store;
  let parent_live := match table_get (ul_job_id upload) (jobs (st_base s)) with
                     | Some parent => writer_live parent (ul_fencing_generation upload) now | None => false end in
  if bool_decide (ul_state upload = UP_REGISTERED) && parent_live then mret (true, acc.2)
  else if mem (ul_state upload) [UP_REGISTERED; UP_STAGED; UP_DELETE_PENDING] then
    _ ← update (put_upload (set_upload UP_DELETE_PENDING now (ul_deleted_at upload) upload));
    mret (acc.1, acc.2 ++ [(ul_id upload, ul_object_key upload)])
  else if bool_decide (ul_state upload = UP_DELETED) then _ ← resolve_new fence now; mret acc
  else mret acc.
(** The target of a locked control. *)
Definition drain_target (c : DeletionControlOperationRecord) (s : Store) : result DeletionTarget :=
  from_option stale (target_by_scope s (dc_target_kind c) (dc_target_scope_id c)).
Definition observe_writers (lease : JobLease) (now : Z) : op L (bool * list (string * string)) :=
  transaction (
    s ← get_store;
    cu ← pure (locked_control lease CP_DRAIN now s);
    target ← pure (drain_target cu.1 s);
    ordinary ← pure (dependent_jobs lease cu.1 target (usr_id cu.2) s);
    let ordinary_ids := row_id <$> ordinary in
    let attempts := List.filter (fun a => in_list ordinary_ids (att_job_id a)) (job_attempts (st_base s)) in
    pending ← op_foldM (drain_attempt (dc_deletion_id cu.1) ordinary now) false attempts;
    s ← get_store;
    let uploads := List.filter (fun u => in_list ordinary_ids (ul_job_id u)) (ar_uploads (st_archive s)) in
    op_foldM (drain_upload (dc_deletion_id cu.1) now) (pending, []) uploads).
Definition clean_upload (deletion_id : string) (now : Z) (entry : string * string) : op L unit :=
  _ ← call_ledger (object_delete entry.2);
  transaction (
    s ← get_store;
    _ ← match table_get entry.1 (ar_uploads (st_archive s)) with
        | Some registration =>
            if bool_decide (ul_state registration = UP_DELETE_PENDING)
            then update (put_upload (set_upload UP_DELETED now (Some now) registration)) else mret tt
        | None => mret tt
        end;
    match fence_of s deletion_id FK_UPLOAD entry.1 with
    | Some fence => update (put_fence (resolve_fence now fence))
    | None => mret tt
    end).
(** [select(func.count())]. *)
Definition count {A} (l : list A) : Z := Z.of_nat (length l).
Definition live_jobs (dependent : list JobRecord) (now : Z) : list JobRecord :=
  List.filter (fun j => mem (job_state j) [LEASED; RUNNING] && lease_live j now) dependent.
Definition live_uploads (dependent : list JobRecord) (s : Store) : list ObjectUploadRegistrationRecord :=
  List.filter (fun u => in_list (row_id <$> dependent) (ul_job_id u) && bool_decide (ul_state u = UP_REGISTERED))
    (ar_uploads (st_archive s)).
(** [control.phase = phase; receipt.status = status] with its counts left alone. *)
Definition enter_phase (phase : ControlPhase) (status : ReceiptStatus) (c : DeletionControlOperationRecord) (now : Z)
    (s : Store) : result Store :=
  let s := put_control (set_control phase (dc_artifact_counts_json c) now c) s in
  receipt ← receipt_of s (dc_deletion_id c);
  Ok (put_receipt (set_receipt_status status receipt) s).
Definition drain (lease : JobLease) (snapshot : DeletionControlOperationRecord) (now : Z) : op L SweepOutcome :=
  _ ← requested_event snapshot;
  observed ← observe_writers lease now;
  _ ← op_foldM (fun _ entry => clean_upload (dc_deletion_id snapshot) now entry) tt observed.2;
  transaction (
    s ← get_store;
    cu ← pure (locked_control lease CP_DRAIN now s);
    target ← pure (drain_target cu.1 s);
    dependent ← pure (dependent_jobs lease cu.1 target (usr_id cu.2) s);
    if observed.1 || (0 <? count (live_jobs dependent now)) || (0 <? count (live_uploads dependent s))
    then mret {| so_state := PENDING; so_phase := "DRAIN" |}
    else _ ← try_update (enter_phase CP_SWEEP RS_SWEEP cu.1 now);
         mret {| so_state := ADVANCED; so_phase := "SWEEP" |}).

(** ** The rows of an import or a profile *)
Definition corrupt : exn := sweep_error "DELETION_CONTROL_CORRUPT".
(** The imports and the profiles of the target. *)
Definition graph_roots (s : Store) (c : DeletionControlOperationRecord) (t : DeletionTarget)
    : result (list string * list string) :=
  match dc_target_kind c, t with
  | IMPORT, TImport i =>
      Ok ([imp_id i], ids (fun p => String.eqb (pv_import_id p) (imp_id i) && String.eqb (pv_owner_user_id p) (imp_owner_user_id i))
                        (profile_versions (st_base s)))
  | PROFILE, TProfile p => Ok ([], [pv_id p])
  | _, _ => Raise corrupt
  end.
Definition graph_job (c : DeletionControlOperationRecord) (t : DeletionTarget) (owner deletion_job_id : string)
    (j : JobRecord) : bool :=
  bool_decide (job_owner_user_id j = Some owner) && negb (String.eqb (job_id j) deletion_job_id)
  && match dc_target_kind c with
     | IMPORT => bool_decide (job_import_id j = Some (target_id t))
     | _ => bool_decide (job_profile_version_id j = Some (target_id t))
     end.
(** The graph below the roots; [of_target] selects its jobs. *)
Definition graph_of (import_ids profile_ids : list string) (of_target : JobRecord -> bool) (owner_id : string) (s : Store)
    : ResourceGraph :=
  let a := st_archive s in
  let replay_ids := ids (fun r => in_list profile_ids (rp_profile_version_id r)) (ar_replays a) in
  let comparison_ids := ids (fun r => in_list profile_ids (cr_profile_version_id r)
                                      || in_list replay_ids (cr_current_replay_id r)) (ar_comparisons a) in
  let scenario_ids := ids (fun r => in_list profile_ids (sn_profile_version_id r)) (ar_scenarios a) in
  let scenario_result_ids := ids (fun r => in_list profile_ids (sr_profile_version_id r)
                                           || in_list scenario_ids (sr_scenario_id r)) (ar_results a) in
  let scenario_load_ids := ids (fun r => in_list scenario_ids (sl_scenario_id r)) (ar_loads a) in
  let report_export_ids := ids (fun r => in_list profile_ids (rx_profile_version_id r)
                                         || in_list scenario_ids (rx_scenario_id r)
                                         || in_list scenario_result_ids (rx_scenario_result_id r)) (ar_reports a) in
  let job_ids := ids of_target (jobs (st_base s)) in
  let upload_ids := ids (fun r => in_list job_ids (ul_job_id r)) (ar_uploads a) in
  let resource_ids := remove_dups (import_ids ++ profile_ids ++ job_ids ++ replay_ids ++ comparison_ids ++ scenario_ids
                                   ++ scenario_result_ids ++ report_export_ids) in
  let operation_ids := ids (fun r => in_list resource_ids (or_operation_id r)) (ar_operations a) in
  let raw_keys := raw_object_key <$> List.filter (fun r => in_list import_ids (raw_import_id r)) (ar_raw_objects a) in
  let upload_keys := ul_object_key <$> List.filter (fun r => in_list upload_ids (ul_id r)) (ar_uploads a) in
  let report_keys := rx_object_key <$> List.filter (fun r => in_list report_export_ids (rx_id r)) (ar_reports a) in
  {| g_import_ids := import_ids; g_profile_ids := profile_ids; g_job_ids := job_ids; g_replay_ids := replay_ids;
     g_comparison_ids := comparison_ids; g_scenario_ids := scenario_ids; g_scenario_result_ids := scenario_result_ids;
     g_scenario_load_ids := scenario_load_ids; g_report_export_ids := report_export_ids; g_upload_ids := upload_ids;
     g_operation_ids := operation_ids; g_object_keys := remove_dups (raw_keys ++ upload_keys ++ report_keys);
     g_object_prefixes := ((fun i => "owners/" +:+ owner_id +:+ "/imports/" +:+ i) <$> import_ids)
                          ++ ((fun j => "owners/" +:+ owner_id +:+ "/jobs/" +:+ j) <$> job_ids) |}.
Definition resource_graph (c : DeletionControlOperationRecord) (deletion_job_id : string) (s : Store) : result ResourceGraph :=
  match target_by_scope s (dc_target_kind c) (dc_target_scope_id c) with
  | None => Raise corrupt
  | Some target =>
      roots ← graph_roots s c target;
      owner_id ← target_owner_id (dc_target_kind c) target;
      Ok (graph_of roots.1 roots.2 (graph_job c target owner_id deletion_job_id) owner_id s)
  end.
Definition resource_counts (g : ResourceGraph) : list (string * Z) :=
  [("comparisons", count (g_comparison_ids g)); ("imports", count (g_import_ids g)); ("jobs", count (g_job_ids g));
   ("object_uploads", count (g_upload_ids g)); ("operation_requests", count (g_operation_ids g));
   ("profiles", count (g_profile_ids g)); ("replays", count (g_replay_ids g));
   ("report_exports", count (g_report_export_ids g)); ("scenario_loads", count (g_scenario_load_ids g));
   ("scenario_results", count (g_scenario_result_ids g)); ("scenarios", count (g_scenario_ids g))].
Definition subject_ids (g : ResourceGraph) : list string :=
  remove_dups (g_import_ids g ++ g_profile_ids g ++ g_job_ids g ++ g_replay_ids g ++ g_comparison_ids g ++ g_scenario_ids g
               ++ g_scenario_result_ids g ++ g_report_export_ids g).
(** Every statement of [_delete_resource_rows]; one whose list is empty matches nothing. *)
Definition delete_results_of (g : ResourceGraph) (a : Archive) : Archive :=
  let a := delete_manifests (fun r => in_list_opt (g_replay_ids g) (cm_replay_id r)
                                      || in_list_opt (g_scenario_result_ids g) (cm_scenario_result_id r)) a in
  let a := delete_reports (fun r => in_list (g_report_export_ids g) (rx_id r)) a in
  let a := delete_schedules (fun r => in_list (g_scenario_load_ids g) (ss_scenario_load_id r)) a in
  let a := delete_loads (fun r => in_list (g_scenario_load_ids g) (sl_id r)) a in
  let a := delete_results (fun r => in_list (g_scenario_result_ids g) (sr_id r)) a in
  let a := delete_scenarios (fun r => in_list (g_scenario_ids g) (sn_id r)) a in
  let a := delete_comparisons (fun r => in_list (g_comparison_ids g) (cr_id r)) a in
  let a := delete_replays (fun r => in_list (g_replay_ids g) (rp_id r)) a in
  let a := delete_claims (fun r => in_list (g_job_ids g) (jc_accepted_job_id r)) a in
  delete_uploads (fun r => in_list (g_upload_ids g) (ul_id r)) a.
Definition delete_import_rows (g : ResourceGraph) (a : Archive) : Archive :=
  let a := delete_findings (fun r => in_list (g_import_ids g) (fd_import_id r)) a in
  let a := delete_readings (fun r => in_list (g_import_ids g) (rd_import_id r)) a in
  delete_raw_objects (fun r => in_list (g_import_ids g) (raw_import_id r)) a.
Definition delete_resource_rows (c : DeletionControlOperationRecord) (deletion_job_id : string) (s : Store) : result Store :=
  g ← resource_graph c deletion_job_id s;
  let s := on_archive (delete_results_of g) s in
  let s := delete_attempts (fun a => in_list (g_job_ids g) (att_job_id a)) s in
  let s := delete_jobs (fun j => in_list (g_job_ids g) (job_id j)) s in
  let s := on_archive (delete_operations (fun r => in_list (g_operation_ids g) (or_id r))) s in
  match target_by_scope s (dc_target_kind c) (dc_target_scope_id c) with
  | None => Raise corrupt
  | Some target =>
      owner ← target_owner_id (dc_target_kind c) target;
      let s := delete_audit_events (fun e => bool_decide (ev_owner_user_id e = Some owner)
                                             && in_list (subject_ids g) (ev_subject_id e)) s in
      let s := on_archive (delete_import_rows g) s in
      let profile_ids := match dc_target_kind c, target with
                         | PROFILE, TProfile p => List.filter (fun v => negb (String.eqb v (pv_id p))) (g_profile_ids g)
                         | _, _ => g_profile_ids g
                         end in
      Ok (delete_profiles (fun p => in_list profile_ids (pv_id p)) s)
  end.
(** [sum(counts.values())] without the target itself. *)
Definition prohibited_resource_rows (c : DeletionControlOperationRecord) (deletion_job_id : string) (s : Store) : result Z :=
  g ← resource_graph c deletion_job_id s;
  let own := match dc_target_kind c with IMPORT => "imports" | _ => "profiles" end in
  Ok (zsum ((fun kv => if String.eqb kv.1 own then Z.max 0 (kv.2 - 1) else kv.2) <$> resource_counts g)).

(** ** The rows of an account *)
Definition owned_jobs (owner deletion_job_id : string) (j : JobRecord) : bool :=
  bool_decide (job_owner_user_id j = Some owner) && negb (String.eqb (job_id j) deletion_job_id).
Record OwnerIds := {
  w_import_ids : list string; w_profile_ids : list string; w_job_ids : list string; w_replay_ids : list string;
  w_scenario_ids : list string; w_scenario_result_ids : list string; w_scenario_load_ids : list string
}.
Definition owner_ids (owner deletion_job_id : string) (s : Store) : OwnerIds :=
  let a := st_archive s in
  let scenario_ids := ids (fun r => String.eqb (sn_owner_user_id r) owner) (ar_scenarios a) in
  {| w_import_ids := ids (fun i => String.eqb (imp_owner_user_id i) owner) (imports (st_base s));
     w_profile_ids := ids (fun p => String.eqb (pv_owner_user_id p) owner) (profile_versions (st_base s));
     w_job_ids := ids (owned_jobs owner deletion_job_id) (jobs (st_base s));
     w_replay_ids := ids (fun r => String.eqb (rp_owner_user_id r) owner) (ar_replays a);
     w_scenario_ids := scenario_ids;
     w_scenario_result_ids := ids (fun r => String.eqb (sr_owner_user_id r) owner) (ar_results a);
     w_scenario_load_ids := ids (fun r => in_list scenario_ids (sl_scenario_id r)) (ar_loads a) |}.
Definition count_where {A} (p : A -> bool) (t : list A) : Z := count (List.filter p t).
Definition owner_counts (owner : string) (i : OwnerIds) (s : Store) : list (string * Z) :=
  let a := st_archive s in
  [("audit_events", count_where (fun e => bool_decide (ev_owner_user_id e = Some owner)) (audit_events (st_base s)));
   ("calculation_manifests", count_where (fun r => in_list_opt (w_replay_ids i) (cm_replay_id r)
      || in_list_opt (w_scenario_result_ids i) (cm_scenario_result_id r)) (ar_manifests a));
   ("comparisons", count_where (fun r => String.eqb (cr_owner_user_id r) owner) (ar_comparisons a));
   ("imports", count (w_import_ids i));
   ("interval_readings", count_where (fun r => in_list (w_import_ids i) (rd_import_id r)) (ar_readings a));
   ("jobs", count (w_job_ids i));
   ("object_uploads", count_where (fun r => String.eqb (ul_owner_user_id r) owner) (ar_uploads a));
   ("operation_requests", count_where (fun r => String.eqb (or_owner_user_id r) owner) (ar_operations a));
   ("profiles", count (w_profile_ids i));
   ("quality_findings", count_where (fun r => in_list (w_import_ids i) (fd_import_id r)) (ar_findings a));
   ("raw_objects", count_where (fun r => String.eqb (raw_owner_user_id r) owner) (ar_raw_objects a));
   ("replays", count (w_replay_ids i));
   ("report_exports", count_where (fun r => String.eqb (rx_owner_user_id r) owner) (ar_reports a));
   ("scenario_loads", count (w_scenario_load_ids i));
   ("scenario_results", count (w_scenario_result_ids i));
   ("scenarios", count (w_scenario_ids i));
   ("sessions", count_where (fun r => String.eqb (ses_user_id r) owner) (st_sessions s))].
Definition sweep_results_of (owner : string) (i : OwnerIds) (a : Archive) : Archive :=
  let a := delete_manifests (fun r => in_list_opt (w_replay_ids i) (cm_replay_id r)
                                      || in_list_opt (w_scenario_result_ids i) (cm_scenario_result_id r)) a in
  let a := delete_schedules (fun r => in_list (w_scenario_load_ids i) (ss_scenario_load_id r)) a in
  let a := delete_comparisons (fun r => String.eqb (cr_owner_user_id r) owner) a in
  let a := delete_reports (fun r => String.eqb (rx_owner_user_id r) owner) a in
  let a := delete_results (fun r => String.eqb (sr_owner_user_id r) owner) a in
  let a := delete_loads (fun r => in_list (w_scenario_ids i) (sl_scenario_id r)) a in
  let a := delete_scenarios (fun r => String.eqb (sn_owner_user_id r) owner) a in
  let a := delete_replays (fun r => String.eqb (rp_owner_user_id r) owner) a in
  let a := delete_claims (fun r => String.eqb (jc_owner_user_id r) owner) a in
  delete_uploads (fun r => String.eqb (ul_owner_user_id r) owner) a.
Definition sweep_import_rows (owner : string) (i : OwnerIds) (a : Archive) : Archive :=
  let a := delete_findings (fun r => in_list (w_import_ids i) (fd_import_id r)) a in
  let a := delete_readings (fun r => in_list (w_import_ids i) (rd_import_id r)) a in
  delete_raw_objects (fun r => String.eqb (raw_owner_user_id r) owner) a.
Definition sweep_owner_rows (owner deletion_job_id : string) (s : Store) : Store * list (string * Z) :=
  let i := owner_ids owner deletion_job_id s in
  let counts := owner_counts owner i s in
  let s := on_archive (sweep_results_of owner i) s in
  let s := delete_attempts (fun a => in_list (w_job_ids i) (att_job_id a)) s in
  let s := delete_jobs (fun j => in_list (w_job_ids i) (job_id j)) s in
  let s := on_archive (delete_operations (fun r => String.eqb (or_owner_user_id r) owner)) s in
  let s := delete_audit_events (fun e => bool_decide (ev_owner_user_id e = Some owner)) s in
  let s := on_archive (sweep_import_rows owner i) s in
  let s := delete_profiles (fun p => String.eqb (pv_owner_user_id p) owner) s in
  let s := delete_imports (fun r => String.eqb (imp_owner_user_id r) owner) s in
  let s := delete_sessions (fun r => String.eqb (ses_user_id r) owner) s in
  (delete_intents (fun r => String.eqb (di_owner_user_id r) owner) s, counts).
Definition prohibited_rows (owner deletion_job_id : string) (s : Store) : Z :=
  let a := st_archive s in
  zsum [count_where (fun e => bool_decide (ev_owner_user_id e = Some owner)) (audit_events (st_base s));
        count_where (fun r => String.eqb (ses_user_id r) owner) (st_sessions s);
        count_where (fun r => String.eqb (or_owner_user_id r) owner) (ar_operations a);
        count_where (fun r => String.eqb (imp_owner_user_id r) owner) (imports (st_base s));
        count_where (fun r => String.eqb (raw_owner_user_id r) owner) (ar_raw_objects a);
        count_where (fun r => String.eqb (pv_owner_user_id r) owner) (profile_versions (st_base s));
        count_where (fun r => String.eqb (jc_owner_user_id r) owner) (ar_claims a);
        count_where (fun r => String.eqb (ul_owner_user_id r) owner) (ar_uploads a);
        count_where (fun r => String.eqb (rp_owner_user_id r) owner) (ar_replays a);
        count_where (fun r => String.eqb (rx_owner_user_id r) owner) (ar_reports a);
        count_where (fun r => String.eqb (cr_owner_user_id r) owner) (ar_comparisons a);
        count_where (fun r => String.eqb (sn_owner_user_id r) owner) (ar_scenarios a);
        count_where (fun r => String.eqb (sr_owner_user_id r) owner) (ar_results a);
        count_where (fun r => String.eqb (di_owner_user_id r) owner) (st_intents s);
        count_where (owned_jobs owner deletion_job_id) (jobs (st_base s))].

(** ** Sweeping *)
Fixpoint list_prefixes (prefixes : list string) : op L (list string) :=
  match prefixes with
  | [] => mret []
  | p :: rest => keys ← call_ledger (object_list_prefix p); more ← list_prefixes rest; mret (keys ++ more)
  end.
Fixpoint existing (keys : list string) : op L (list string) :=
  match keys with
  | [] => mret []
  | k :: rest => found ← call_ledger (object_exists k); more ← existing rest; mret (if (found : bool) then k :: more else more)
  end.
Definition listed_resource_objects (g : ResourceGraph) : op L (list string) :=
  listed ← list_prefixes (g_object_prefixes g);
  keys ← existing (remove_dups (g_object_keys g ++ listed));
  mret (sorted_by id keys).
(** The objects of the account, or those of the graph. *)
Definition listed_objects (owner : string) (graph : option ResourceGraph) : op L (list string) :=
  match graph with
  | None => call_ledger (object_list_prefix ("owners/" +:+ owner))
  | Some g => listed_resource_objects g
  end.
Definition child_graph (c : DeletionControlOperationRecord) (lease : JobLease) (s : Store) : result (option ResourceGraph) :=
  if decide (dc_target_kind c = ACCOUNT) then Ok None else g ← resource_graph c (l_job_id lease) s; Ok (Some g).

Definition control_is_subordinate (s : Store) (parent candidate : DeletionControlOperationRecord) : bool :=
  match dc_target_kind parent, dc_target_kind candidate with
  | ACCOUNT, (IMPORT | PROFILE) => true
  | IMPORT, PROFILE =>
      match target_by_scope s IMPORT (dc_target_scope_id parent), target_by_scope s PROFILE (dc_target_scope_id candidate) with
      | Some (TImport i), Some (TProfile p) =>
          String.eqb (pv_import_id p) (imp_id i) && String.eqb (pv_owner_user_id p) (imp_owner_user_id i)
      | _, _ => false
      end
  | _, _ => false
  end.
(** The controls of the owner's other deletions, by the owner of their intents. *)
Definition subordinates (s : Store) (parent : DeletionControlOperationRecord) (owner : string)
    : list DeletionControlOperationRecord :=
  List.filter (fun c => existsb (fun i => String.eqb (di_deletion_id i) (dc_deletion_id c)
                                          && String.eqb (di_owner_user_id i) owner) (st_intents s)
                        && negb (String.eqb (dc_deletion_id c) (dc_deletion_id parent))
                        && control_is_subordinate s parent c) (st_controls s).
(** The control rows of a finished deletion. *)
Definition delete_control_rows (deletion_id : string) (s : Store) : Store :=
  let s := on_archive (delete_fences (fun f => String.eqb (ft_deletion_id f) deletion_id)) s in
  let s := delete_ledger_receipts (fun r => String.eqb (lr_deletion_id r) deletion_id) s in
  let s := delete_intents (fun i => String.eqb (di_deletion_id i) deletion_id) s in
  delete_controls (fun c => String.eqb (dc_deletion_id c) deletion_id) s.
Definition delete_job_rows (job_id : string) (s : Store) : Store :=
  delete_jobs (fun j => String.eqb (Database.job_id j) job_id) (delete_attempts (fun a => String.eqb (att_job_id a) job_id) s).
Definition write_subsumed (c : DeletionControlOperationRecord) (now : Z) (s : Store) : result Store :=
  receipt ← receipt_of s (dc_deletion_id c);
  expiry ← datetime_check (now + RECEIPT_LIFETIME);
  audits ← match table_get (dc_deletion_id c) (st_audits s) with
           | Some _ => Ok (st_audits s)
           | None => table_add (audit_of c receipt "SUBSUMED_BY_PARENT_DELETION" now expiry) (st_audits s)
           end;
  let s := set_audits audits s in
  let s := put_receipt (finish_receipt (dc_artifact_counts_json c) now expiry receipt) s in
  let s := delete_control_rows (dc_deletion_id c) s in
  Ok match dc_deletion_job_id c with Some job => delete_job_rows job s | None => s end.
Definition complete_subsumed (now : Z) (candidate : DeletionControlOperationRecord) : op L unit :=
  chain ← call_ledger (ledger_chain (dc_deletion_id candidate));
  match find_phase PREPARED chain with
  | None => raise (sweep_error "SUBSUMED_PREPARATION_MISSING")
  | Some prepared =>
      requested ← match find_phase REQUESTED chain with
                  | Some e => mret e
                  | None => call_ledger (ledger_append (event_request prepared) REQUESTED now)
                  end;
      completed ← match find_phase COMPLETED chain with
                  | Some e => mret e
                  | None => call_ledger (ledger_append (event_request requested) COMPLETED now)
                  end;
      transaction (
        s ← get_store;
        match table_get (dc_deletion_id candidate) (st_controls s) with
        | None => mret tt
        | Some control =>
            _ ← pure (except as_sweep_error
                  (_ ← validate_control_event requested control REQUESTED; validate_control_event completed control COMPLETED));
            _ ← store_ledger_receipt requested;
            _ ← store_ledger_receipt completed;
            try_update (write_subsumed control now)
        end)
  end.
(** The rows of [_sweep]: an account loses its rows here, a resource when it is verified. *)
Definition write_sweep (lease : JobLease) (c : DeletionControlOperationRecord) (u : UserRecord) (objects : list string)
    (now : Z) (s : Store) : result Store :=
  swept ← (if decide (dc_target_kind c = ACCOUNT) then Ok (sweep_owner_rows (usr_id u) (l_job_id lease) s)
           else g ← resource_graph c (l_job_id lease) s; Ok (s, resource_counts g));
  let encoded := canonical ((fun kv => (kv.1, JInt kv.2)) <$> swept.2 ++ [("objects", count objects)]) in
  let s := put_control (set_control CP_VERIFY encoded now c) swept.1 in
  receipt ← receipt_of s (dc_deletion_id c);
  Ok (put_receipt (set_counts encoded (set_receipt_status RS_VERIFY receipt)) s).
Definition sweep (lease : JobLease) (snapshot : DeletionControlOperationRecord) (now : Z) : op L SweepOutcome :=
  _ ← requested_event snapshot;
  s ← get_store;
  cu ← pure (locked_control lease CP_SWEEP now s);
  let owner := usr_id cu.2 in
  _ ← op_foldM (fun _ c => complete_subsumed now c) tt (subordinates s cu.1 owner);
  s ← get_store;
  cu ← pure (locked_control lease CP_SWEEP now s);
  graph ← pure (child_graph cu.1 lease s);
  objects ← listed_objects owner graph;
  _ ← op_foldM (fun _ key => call_ledger (object_delete key)) tt objects;
  _ ← transaction (
        s ← get_store;
        cu ← pure (locked_control lease CP_SWEEP now s);
        try_update (write_sweep lease cu.1 cu.2 objects now));
  mret {| so_state := ADVANCED; so_phase := "VERIFY" |}.

(** ** Verifying *)
Definition write_verified (lease : JobLease) (c : DeletionControlOperationRecord) (now : Z) (s : Store) : result Store :=
  s ← (if decide (dc_target_kind c = ACCOUNT) then Ok s
       else s ← delete_resource_rows c (l_job_id lease) s;
            left ← prohibited_resource_rows c (l_job_id lease) s;
            _ ← raise_if (negb (left =? 0)) (sweep_error "DELETION_VERIFY_FAILED");
            Ok s);
  enter_phase CP_COMPLETE RS_COMPLETE c now s.
Definition verify (lease : JobLease) (snapshot : DeletionControlOperationRecord) (now : Z) : op L SweepOutcome :=
  _ ← requested_event snapshot;
  s ← get_store;
  cu ← pure (locked_control lease CP_VERIFY now s);
  let owner := usr_id cu.2 in
  graph ← pure (child_graph cu.1 lease s);
  let prohibited := match graph with None => prohibited_rows owner (l_job_id lease) s | Some _ => 0 end in
  objects ← listed_objects owner graph;
  transaction (
    s ← get_store;
    cu ← pure (locked_control lease CP_VERIFY now s);
    _ ← pure (receipt_of s (dc_deletion_id cu.1));
    if (0 <? count objects) || negb (prohibited =? 0) then
      _ ← try_update (enter_phase CP_SWEEP RS_SWEEP cu.1 now);
      mret {| so_state := ADVANCED; so_phase := "SWEEP" |}
    else
      _ ← try_update (write_verified lease cu.1 now);
      mret {| so_state := ADVANCED; so_phase := "COMPLETE" |}).

(** ** Completing *)
(** The row of the target itself; an import whose profile goes is open again. *)
Definition reopen_import (i : ImportRecord) : ImportRecord :=
  {| imp_id := imp_id i; imp_owner_user_id := imp_owner_user_id i; imp_state := IMP_READY;
     imp_lifecycle_state := imp_lifecycle_state i; imp_lifecycle_generation := imp_lifecycle_generation i;
     imp_deletion_scope_id := imp_deletion_scope_id i; imp_adapter := imp_adapter i; raw_content_hash := raw_content_hash i;
     imp_created_at := imp_created_at i; imp_published_at := imp_published_at i; imp_confirmed_at := None;
     imp_failure_code := imp_failure_code i; imp_profile_version_id := None |}.
Definition delete_target (t : DeletionTarget) (user_id : string) (s : Store) : Store :=
  match t with
  | TUser _ => delete_users (fun u => String.eqb (usr_id u) user_id) s
  | TImport i => delete_imports (fun r => String.eqb (imp_id r) (imp_id i)) s
  | TProfile p =>
      let s := match table_get (pv_import_id p) (imports (st_base s)) with
               | Some i => if bool_decide (imp_profile_version_id i = Some (pv_id p))
                           then put_target (TImport (reopen_import i)) s else s
               | None => s
               end in
      delete_profiles (fun r => String.eqb (pv_id r) (pv_id p)) s
  end.
(** The job and its attempt succeed in the transaction that deletes them. *)
Definition write_completed (lease : JobLease) (c : DeletionControlOperationRecord) (u : UserRecord) (now : Z) (s : Store)
    : result Store :=
  receipt ← receipt_of s (dc_deletion_id c);
  expiry ← datetime_check (now + RECEIPT_LIFETIME);
  audits ← table_add (audit_of c receipt "VERIFIED_COMPLETE" now expiry) (st_audits s);
  let s := set_audits audits s in
  let s := put_receipt (finish_receipt (dc_artifact_counts_json c) now expiry receipt) s in
  _ ← raise_if (negb (bool_decide (is_Some (table_get (l_job_id lease) (jobs (st_base s)))))
                || negb (existsb (fun a => String.eqb (att_job_id a) (l_job_id lease)
                                           && (att_fencing_generation a =? l_fencing_generation lease))
                           (job_attempts (st_base s)))) (sweep_error "DELETION_JOB_MISSING");
  match target_by_scope s (dc_target_kind c) (dc_target_scope_id c) with
  | None => Raise (sweep_error "DELETION_TARGET_MISSING")
  | Some target =>
      let s := put_target (set_lifecycle LC_DELETED (target_lifecycle_generation target) target) s in
      let s := delete_control_rows (dc_deletion_id c) s in
      Ok (delete_target target (usr_id u) (delete_job_rows (l_job_id lease) s))
  end.
Definition complete (lease : JobLease) (snapshot : DeletionControlOperationRecord) (now : Z) : op L SweepOutcome :=
  requested ← requested_event snapshot;
  chain ← call_ledger (ledger_chain (dc_deletion_id snapshot));
  completed ← match find_phase COMPLETED chain with
              | Some e => mret e
              | None => call_ledger (ledger_append (event_request requested) COMPLETED now)
              end;
  _ ← transaction (
        s ← get_store;
        cu ← pure (locked_control lease CP_COMPLETE now s);
        _ ← pure (except as_sweep_error (validate_control_event completed cu.1 COMPLETED));
        _ ← store_ledger_receipt completed;
        try_update (write_completed lease cu.1 cu.2 now));
  mret {| so_state := COMPLETED_SWEEP; so_phase := "DELETED" |}.

(** ** The service *)
Definition advance (lease : JobLease) (now : Z) : op L SweepOutcome :=
  _ ← require_sweep (String.eqb (l_kind lease) "DELETION" && String.eqb (l_scope_mode lease) "DELETING_SCOPE")
        "INVALID_DELETION_LEASE";
  control ← control_for_lease lease now;
  match dc_phase control with
  | CP_DRAIN => drain lease control now
  | CP_SWEEP => sweep lease control now
  | CP_VERIFY => verify lease control now
  | CP_COMPLETE => complete lease control now
  | CP_FENCE | CP_REQUESTED => raise (sweep_error "INVALID_DELETION_PHASE")
  end.
Definition clear_verifier (a : DeletionAuditRecord) : DeletionAuditRecord :=
  {| da_deletion_id := da_deletion_id a; da_target_kind := da_target_kind a; da_receipt_verifier := None;
     da_verifier_expires_at := da_verifier_expires_at a; da_scope_token := da_scope_token a;
     da_restore_key_version := da_restore_key_version a; da_deletion_generation := da_deletion_generation a;
     da_completed_at := da_completed_at a; da_artifact_counts_json := da_artifact_counts_json a;
     da_status := da_status a; da_status_code := da_status_code a |}.
Definition expire_receipt (s : Store) (receipt : DeletionReceiptRecord) : result Store :=
  match table_get (rc_deletion_id receipt) (st_audits s) with
  | None => Raise (sweep_error "DELETION_AUDIT_MISSING")
  | Some audit =>
      let s := set_audits (table_put (clear_verifier audit) (st_audits s)) s in
      Ok (set_receipts (table_delete (fun r => String.eqb (rc_deletion_id r) (rc_deletion_id receipt)) (st_receipts s)) s)
  end.
Definition expired_receipt (now : Z) (r : DeletionReceiptRecord) : bool :=
  bool_decide (rc_status r = RS_DELETED) && passed (rc_verifier_expires_at r) now.
Definition expire_receipt_verifiers (now : Z) : op L Z :=
  transaction (
    s ← get_store;
    let receipts := List.filter (expired_receipt now) (st_receipts s) in
    _ ← try_update (fun s => foldM expire_receipt s receipts);
    mret (count receipts)).
End Sweep.
