(* ===== verification/DeletionSweepProofs.v ===== *)
(** * DeletionSweepProofs: what a sweep removes, and what it leaves

    The statements of a sweep are filters of tables; composed, they remove
    exactly the rows of the deleted account or resource. *)

From S2P Require Import Prelude Float Json JsonCanonical JsonLoads Calendar PyText IsoTime Base64 Keyrings Deletion.
From S2P Require Import Ledger LedgerProofs LedgerChains LedgerSafety Database Jobs DeletionStore Deletions DeletionsInvariant DeletionSweep.

(** ** Filters *)
Section Filters.
Context {A : Type}.
Implicit Types (p q : A -> bool) (t : list A).
Lemma table_delete_delete p q t : table_delete p (table_delete q t) = table_delete (fun r => q r || p r) t.
Proof. unfold table_delete. induction t as [|r t IH]; [done|]. simpl. destruct (q r); simpl; [done|]. by destruct (p r); simpl; rewrite IH. Qed.
Lemma table_delete_ext p q t : (forall r, r ∈ t -> p r = q r) -> table_delete p t = table_delete q t.
Proof.
  unfold table_delete. induction t as [|r t IH]; intros H; [done|]. simpl. rewrite (H r) by left.
  rewrite IH; [done|]. intros r' Hr. apply H. by right.
Qed.
Lemma elem_of_table_delete p t r : r ∈ table_delete p t <-> r ∈ t /\ p r = false.
Proof. unfold table_delete. rewrite !list_elem_of_In, filter_In, negb_true_iff. done. Qed.
Lemma filter_deleted p q t : (forall r, r ∈ t -> p r = true -> q r = true) -> List.filter p (table_delete q t) = [].
Proof.
  intros H. destruct (List.filter p (table_delete q t)) as [|r l] eqn:E; [done|]. exfalso.
  assert (In r (List.filter p (table_delete q t))) as Hr by (rewrite E; by left). apply filter_In in Hr as [Hr Hp].
  apply list_elem_of_In, elem_of_table_delete in Hr as [Hr Hq]. rewrite (H r Hr Hp) in Hq. done.
Qed.
Lemma filter_drops_none p t : (forall r, r ∈ t -> p r = false) -> List.filter p t = [].
Proof. induction t as [|r t IH]; intros H; [done|]. simpl. rewrite (H r) by left. apply IH. intros r' Hr. apply H. by right. Qed.
End Filters.
Lemma elem_of_ids {A} `{Row A} (p : A -> bool) (t : list A) x : x ∈ ids p t <-> exists r, r ∈ t /\ p r = true /\ row_id r = x.
Proof.
  unfold ids. rewrite list_elem_of_fmap. split.
  - intros (r & -> & Hr). apply list_elem_of_In, filter_In in Hr as [Hr Hp]. exists r. by rewrite list_elem_of_In.
  - intros (r & Hr & Hp & <-). exists r. split; [done|]. apply list_elem_of_In, filter_In. by rewrite <-list_elem_of_In.
Qed.
Lemma in_list_true l x : in_list l x = true <-> x ∈ l.
Proof. unfold in_list, mem. apply bool_decide_eq_true. Qed.
Lemma row_in_ids {A} `{Row A} (p : A -> bool) (t : list A) r : r ∈ t -> p r = true -> in_list (ids p t) (row_id r) = true.
Proof. intros Hr Hp. apply in_list_true, elem_of_ids. eauto. Qed.
Lemma ids_deleted {A} `{Row A} (p q : A -> bool) (t : list A) :
  (forall r, r ∈ t -> p r = true -> q r = true) -> ids p (table_delete q t) = [].
Proof. intros H1. unfold ids. by rewrite filter_deleted. Qed.
Lemma count_nil {A} (l : list A) : count l = 0 <-> l = [].
Proof. unfold count. destruct l; simpl; [done|]. split; [lia|done]. Qed.
Lemma count_nonneg {A} (l : list A) : 0 <= count l.
Proof. unfold count. lia. Qed.
Lemma count_where_zero {A} (p : A -> bool) (t : list A) : count_where p t = 0 -> forall r, r ∈ t -> p r = false.
Proof.
  unfold count_where. intros H%count_nil r Hr. destruct (p r) eqn:E; [|done]. exfalso.
  assert (In r (List.filter p t)) as Hin by (apply filter_In; by rewrite <-list_elem_of_In). by rewrite H in Hin.
Qed.

(** ** Sweeping an account *)
(** Every table after the sweep of an account: the rows left, in their order. *)
Record swept (owner job : string) (s s' : Store) : Prop := {
  sw_users : users (st_base s') = users (st_base s);
  sw_imports : imports (st_base s') = table_delete (fun r => String.eqb (imp_owner_user_id r) owner) (imports (st_base s));
  sw_profiles : profile_versions (st_base s')
                = table_delete (fun r => String.eqb (pv_owner_user_id r) owner) (profile_versions (st_base s));
  sw_jobs : jobs (st_base s') = table_delete (fun j : JobRecord => in_list (w_job_ids (owner_ids owner job s)) (job_id j)) (jobs (st_base s));
  sw_attempts : job_attempts (st_base s')
                = table_delete (fun r => in_list (w_job_ids (owner_ids owner job s)) (att_job_id r)) (job_attempts (st_base s));
  sw_audit : audit_events (st_base s')
             = table_delete (fun e => bool_decide (ev_owner_user_id e = Some owner)) (audit_events (st_base s));
  sw_sessions : st_sessions s' = table_delete (fun r => String.eqb (ses_user_id r) owner) (st_sessions s);
  sw_intents : st_intents s' = table_delete (fun r => String.eqb (di_owner_user_id r) owner) (st_intents s);
  sw_controls : st_controls s' = st_controls s;
  sw_receipts : st_receipts s' = st_receipts s;
  sw_ledger_receipts : st_ledger_receipts s' = st_ledger_receipts s;
  sw_audits : st_audits s' = st_audits s;
  sw_archive : let a := st_archive s in let a' := st_archive s' in let i := owner_ids owner job s in
    ar_raw_objects a' = table_delete (fun r => String.eqb (raw_owner_user_id r) owner || in_list (w_import_ids i) (raw_import_id r))
                          (ar_raw_objects a)
    /\ ar_operations a' = table_delete (fun r => String.eqb (or_owner_user_id r) owner) (ar_operations a)
    /\ ar_readings a' = table_delete (fun r => in_list (w_import_ids i) (rd_import_id r)) (ar_readings a)
    /\ ar_findings a' = table_delete (fun r => in_list (w_import_ids i) (fd_import_id r)) (ar_findings a)
    /\ ar_uploads a' = table_delete (fun r => String.eqb (ul_owner_user_id r) owner) (ar_uploads a)
    /\ ar_claims a' = table_delete (fun r => String.eqb (jc_owner_user_id r) owner) (ar_claims a)
    /\ ar_replays a' = table_delete (fun r => String.eqb (rp_owner_user_id r) owner) (ar_replays a)
    /\ ar_scenarios a' = table_delete (fun r => String.eqb (sn_owner_user_id r) owner) (ar_scenarios a)
    /\ ar_loads a' = table_delete (fun r => in_list (w_scenario_ids i) (sl_scenario_id r)) (ar_loads a)
    /\ ar_schedules a' = table_delete (fun r => in_list (w_scenario_load_ids i) (ss_scenario_load_id r)) (ar_schedules a)
    /\ ar_results a' = table_delete (fun r => String.eqb (sr_owner_user_id r) owner) (ar_results a)
    /\ ar_manifests a' = table_delete (fun r => in_list_opt (w_replay_ids i) (cm_replay_id r)
                                                || in_list_opt (w_scenario_result_ids i) (cm_scenario_result_id r)) (ar_manifests a)
    /\ ar_comparisons a' = table_delete (fun r => String.eqb (cr_owner_user_id r) owner) (ar_comparisons a)
    /\ ar_reports a' = table_delete (fun r => String.eqb (rx_owner_user_id r) owner) (ar_reports a)
    /\ ar_fences a' = ar_fences a
}.
Lemma in_list_nil x : in_list [] x = false.
Proof. done. Qed.
(** Composed filters of one table. *)
Ltac filters :=
  repeat rewrite ids_deleted by (by intros); rewrite ?table_delete_delete; apply table_delete_ext; intros r _; rewrite ?in_list_nil;
  repeat match goal with
         | |- context [in_list ?l ?x] => destruct (in_list l x)
         | |- context [in_list_opt ?l ?x] => destruct (in_list_opt l x)
         | |- context [String.eqb ?x ?y] => destruct (String.eqb x y)
         end; reflexivity.
Lemma sweep_owner_rows_swept owner job s : swept owner job s (sweep_owner_rows owner job s).1.
Proof. split; try done. cbn -[table_delete ids]. split_and!; try done; filters. Qed.
Lemma count_where_deleted {A} (p q : A -> bool) (t : list A) :
  (forall r, r ∈ t -> p r = true -> q r = true) -> count_where p (table_delete q t) = 0.
Proof. intros H. unfold count_where. by rewrite filter_deleted. Qed.
Lemma swept_nothing_left owner job s s' : swept owner job s s' -> prohibited_rows owner job s' = 0.
Proof.
  intros [_ H2 H3 H4 _ H6 H7 H8 _ _ _ _ Ha]. cbn zeta in Ha. destruct Ha as (B1 & B2 & _ & _ & B5 & B6 & B7 & B8 & _ & _ & B11 & _ & B13 & B14 & _).
  unfold prohibited_rows. rewrite H2, H3, H4, H6, H7, H8, B1, B2, B5, B6, B7, B8, B11, B13, B14.
  rewrite !count_where_deleted; [done|..]; intros r Hr Hp; rewrite ?Hp; try done.
  exact (row_in_ids (owned_jobs owner job) (jobs (st_base s)) r Hr Hp).
Qed.

(** ** Deleting a resource *)
Lemma ids_gone {A} `{Row A} (p q : A -> bool) (t : list A) :
  (forall r, r ∈ t -> q r = true -> p r = true) -> ids q (table_delete (fun r => in_list (ids p t) (row_id r)) t) = [].
Proof. intros H1. apply ids_deleted. intros r Hr Hq. apply row_in_ids; auto. Qed.
Lemma ids_none {A} `{Row A} (q : A -> bool) (t : list A) : (forall r, q r = false) -> ids q t = [].
Proof. intros H1. unfold ids. by rewrite filter_drops_none. Qed.
Lemma in_list_mono l l' x : (forall y, y ∈ l -> y ∈ l') -> in_list l x = true -> in_list l' x = true.
Proof. rewrite !in_list_true. auto. Qed.
(** The tables of a graph once its rows are gone. *)
Record graph_deleted (g : ResourceGraph) (s s' : Store) : Prop := {
  gd_jobs : jobs (st_base s') = table_delete (fun j => in_list (g_job_ids g) (row_id j)) (jobs (st_base s));
  gd_uploads : ar_uploads (st_archive s') = table_delete (fun r => in_list (g_upload_ids g) (row_id r)) (ar_uploads (st_archive s));
  gd_replays : ar_replays (st_archive s') = table_delete (fun r => in_list (g_replay_ids g) (row_id r)) (ar_replays (st_archive s));
  gd_comparisons : ar_comparisons (st_archive s') = table_delete (fun r => in_list (g_comparison_ids g) (row_id r)) (ar_comparisons (st_archive s));
  gd_scenarios : ar_scenarios (st_archive s') = table_delete (fun r => in_list (g_scenario_ids g) (row_id r)) (ar_scenarios (st_archive s));
  gd_results : ar_results (st_archive s') = table_delete (fun r => in_list (g_scenario_result_ids g) (row_id r)) (ar_results (st_archive s));
  gd_reports : ar_reports (st_archive s') = table_delete (fun r => in_list (g_report_export_ids g) (row_id r)) (ar_reports (st_archive s));
  gd_operations : ar_operations (st_archive s') = table_delete (fun r => in_list (g_operation_ids g) (row_id r)) (ar_operations (st_archive s))
}.
Lemma graph_left I P jp owner owner' s s' P' :
  (forall x, x ∈ P' -> x ∈ P) -> graph_deleted (graph_of I P jp owner s) s s' ->
  exists keys prefixes, graph_of I P' jp owner' s' =
  {| g_import_ids := I; g_profile_ids := P'; g_job_ids := []; g_replay_ids := []; g_comparison_ids := []; g_scenario_ids := [];
     g_scenario_result_ids := []; g_scenario_load_ids := []; g_report_export_ids := []; g_upload_ids := [];
     g_operation_ids := []; g_object_keys := keys; g_object_prefixes := prefixes |}.
Proof.
  intros HP [D1 D2 D3 D4 D5 D6 D7 D8]. pose proof (fun x => in_list_mono P' P x HP) as HI.
  unfold graph_of in *. cbn [g_job_ids g_upload_ids g_replay_ids g_comparison_ids g_scenario_ids g_scenario_result_ids g_report_export_ids g_operation_ids] in *.
  rewrite D1, D2, D3, D4, D5, D6, D7, D8. clear D1 D2 D3 D4 D5 D6 D7 D8.
  rewrite (ids_gone jp jp) by done. rewrite (ids_none (fun r => in_list [] (ul_job_id r))) by done.
  rewrite (ids_gone (fun r => in_list P (rp_profile_version_id r))) by eauto.
  rewrite (ids_gone (fun r => in_list P (sn_profile_version_id r))) by eauto.
  rewrite (ids_none (fun r => in_list [] (sl_scenario_id r))) by done.
  rewrite ids_gone by (intros r _; rewrite in_list_nil, orb_false_r; intros H; rewrite (HI _ H); done).
  rewrite ids_gone by (intros r _; rewrite in_list_nil, orb_false_r; intros H; rewrite (HI _ H); done).
  rewrite ids_gone by (intros r _; rewrite !in_list_nil, !orb_false_r; intros H; rewrite (HI _ H); done).
  rewrite ids_gone; [eauto|]. intros r _. apply in_list_mono. intros y. rewrite !elem_of_remove_dups, !elem_of_app.
  intros [?|[?|Hn]]; [auto|auto|]. rewrite !elem_of_nil in Hn. tauto.
Qed.
Lemma delete_rows_graph c job s s' :
  dc_target_kind c <> ACCOUNT -> delete_resource_rows c job s = Ok s' ->
  exists g, resource_graph c job s = Ok g /\ graph_deleted g s s' /\ users (st_base s') = users (st_base s)
  /\ imports (st_base s') = imports (st_base s)
  /\ exists t, target_by_scope s (dc_target_kind c) (dc_target_scope_id c) = Some t
     /\ profile_versions (st_base s') = table_delete (fun p => in_list (match dc_target_kind c, t with
                         | PROFILE, TProfile p => List.filter (fun v => negb (String.eqb v (pv_id p))) (g_profile_ids g)
                         | _, _ => g_profile_ids g
                         end) (row_id p)) (profile_versions (st_base s)).
Proof.
  intros Hk H. unfold delete_resource_rows in H. apply bind_ok in H as (g & Hg & H). exists g. split; [done|]. cbv zeta in H.
  match type of H with context [target_by_scope ?x _ _] => change (target_by_scope x) with (target_by_scope s) in H end.
  destruct (target_by_scope s _ _) as [t|] eqn:Et; [|done]. apply bind_ok in H as (owner & _ & <-%ok_inj).
  split; [by split|]. split; [done|]. split; [done|]. by exists t.
Qed.
Lemma table_delete_nothing {A} (t : list A) (f : A -> string) : table_delete (fun r => in_list [] (f r)) t = t.
Proof. induction t as [|r t IH]; [done|]. unfold table_delete in *. cbn. by rewrite IH. Qed.
Lemma other_self x : List.filter (fun v => negb (String.eqb v x)) [x] = [].
Proof. cbn. by rewrite String.eqb_refl. Qed.
Lemma same_targets s s' kind scope :
  users (st_base s') = users (st_base s) -> imports (st_base s') = imports (st_base s) ->
  (kind = PROFILE -> profile_versions (st_base s') = profile_versions (st_base s)) ->
  target_by_scope s' kind scope = target_by_scope s kind scope.
Proof. intros H1 H2 H3. destruct kind; cbn; unfold kind_user, kind_import, kind_profile; rewrite ?H1, ?H2, ?H3 by done; done. Qed.
Lemma resource_rows_gone c job s s' :
  dc_target_kind c <> ACCOUNT -> delete_resource_rows c job s = Ok s' -> prohibited_resource_rows c job s' = Ok 0.
Proof.
  intros Hk H. destruct (delete_rows_graph _ _ _ _ Hk H) as (g & Hg & Hd & Hu & Hi & t & Ht & Hp). clear H.
  unfold resource_graph in Hg. rewrite Ht in Hg. apply bind_ok in Hg as (roots & Hr & Hg). apply bind_ok in Hg as (owner & Ho & <-%ok_inj).
  unfold prohibited_resource_rows, resource_graph, graph_roots in *. destruct (dc_target_kind c) eqn:Ek; [done|..].
  - destruct t as [u|i|p]; try done. apply ok_inj in Hr as <-. injection Ho as <-. cbn [graph_of g_profile_ids fst snd] in Hp.
    rewrite (same_targets s s') by done. rewrite Ht. rewrite Hp. rewrite ids_gone by done. cbn [mbind result_bind fst snd target_owner_id].
    edestruct (graph_left [imp_id i] _ _ _ (imp_owner_user_id i) _ _ [] ltac:(intros x Hx; by apply elem_of_nil in Hx) Hd) as (keys & prefixes & ->).
    reflexivity.
  - destruct t as [u|i|p]; try done. apply ok_inj in Hr as <-. injection Ho as <-. cbn [graph_of g_profile_ids fst snd] in Hp.
    rewrite other_self, table_delete_nothing in Hp. rewrite (same_targets s s') by done. rewrite Ht. cbn [mbind result_bind fst snd target_owner_id].
    edestruct (graph_left [] _ _ _ (pv_owner_user_id p) _ _ [pv_id p] ltac:(done) Hd) as (keys & prefixes & ->).
    reflexivity.
Qed.

Create HintDb keeps.
Section LedgerLogic.
Context {L : Type} {DL : DeletionLedger L} {DLL : DeletionLedgerLaws L} {RT : Runtime}.
Implicit Types (w : World L) (evs : list LedgerEvent).

(** ** The ledger during an operation *)
(** The events of the ledger, each of them a request that was accepted. *)
Definition recorded (l : L) evs : Prop := stored l evs /\ Forall (fun e => request_ok (event_request e)) evs.
(** [m] only adds events, and its result satisfies [P]. *)
Definition adds {A} (m : op L A) (P : A -> list LedgerEvent -> Prop) evs : Prop :=
  forall w, recorded (w_ledger w) evs ->
  exists evs', recorded (w_ledger (m w).2) evs' /\ evs `prefix_of` evs' /\ forall a, (m w).1 = Ok a -> P a evs'.
(** [m] leaves the events alone. *)
Definition keeps {A} (m : op L A) : Prop :=
  forall w evs, recorded (w_ledger w) evs -> recorded (w_ledger (m w).2) evs.

Lemma adds_bind {A B} (m : op L A) (k : A -> op L B) P Q evs :
  adds m P evs -> (forall a evs', evs `prefix_of` evs' -> P a evs' -> adds (k a) Q evs') -> adds (m ≫= k) Q evs.
Proof.
  intros Hm Hk w Hw. destruct (Hm w Hw) as (evs1 & H1 & Hp & Ha). unfold mbind, op_bind. destruct (m w) as [[a|e] w1]; cbn in *.
  - destruct (Hk a evs1 Hp (Ha a eq_refl) w1 H1) as (evs2 & H2 & Hp2 & Hb). exists evs2. split_and!; [done|by transitivity evs1|done].
  - exists evs1. by split_and!.
Qed.
Lemma adds_keeps {A} (m : op L A) evs : keeps m -> adds m (fun _ _ => True) evs.
Proof. intros Hm w Hw. exists evs. split_and!; auto. Qed.
Lemma adds_weaken {A} (m : op L A) P Q evs : adds m P evs -> (forall a evs', P a evs' -> Q a evs') -> adds m Q evs.
Proof. intros Hm HQ w Hw. destruct (Hm w Hw) as (evs' & ? & ? & ?). exists evs'. split_and!; auto. Qed.
Lemma adds_pure {A} (r : result A) evs : adds (pure r) (fun a _ => r = Ok a) evs.
Proof. intros w Hw. exists evs. by split_and!. Qed.
Lemma adds_foldM {S A} (f : S -> A -> op L S) (l : list A) st evs :
  (forall st x evs', x ∈ l -> evs `prefix_of` evs' -> adds (f st x) (fun _ _ => True) evs') ->
  adds (op_foldM f st l) (fun _ _ => True) evs.
Proof.
  revert st evs. induction l as [|x l IH]; intros st evs H; [by apply adds_keeps; intros w evs' Hw|]. cbn [op_foldM].
  eapply adds_bind; [by apply H; [left|]|]. intros st' evs' Hp _. apply IH. intros st2 y evs2 Hy Hp2. apply H; [by right|by transitivity evs'].
Qed.
Lemma adds_transaction {A} (m : op L A) P evs : adds m P evs -> adds (transaction m) P evs.
Proof.
  intros Hm w Hw. destruct (Hm w Hw) as (evs' & H1 & Hp & Ha). exists evs'. unfold transaction.
  destruct (m w) as [[a|e] w1]; [destruct (commit_outcome _)|]; cbn in *; split_and!; auto; done.
Qed.

Lemma keeps_bind {A B} (m : op L A) (k : A -> op L B) : keeps m -> (forall a, keeps (k a)) -> keeps (m ≫= k).
Proof.
  intros Hm Hk w evs Hw. specialize (Hm w evs Hw). unfold mbind, op_bind. destruct (m w) as [[a|e] w1]; [by apply Hk|done].
Qed.
Lemma keeps_ret {A} (a : A) : keeps (mret a).
Proof. by intros w evs. Qed.
Lemma keeps_pure {A} (r : result A) : keeps (pure r).
Proof. by intros w evs. Qed.
Lemma keeps_get : keeps get_store.
Proof. by intros w evs. Qed.
Lemma keeps_update f : keeps (update f).
Proof. by intros w evs. Qed.
Lemma keeps_try f : keeps (try_update f).
Proof. intros w evs Hw. unfold try_update. by destruct (f _). Qed.
Lemma keeps_draw f : keeps (draw_id f).
Proof. by intros w evs. Qed.
Lemma keeps_transaction {A} (m : op L A) : keeps m -> keeps (transaction m).
Proof.
  intros Hm w evs Hw. specialize (Hm w evs Hw). unfold transaction. destruct (m w) as [[a|e] w1]; [|done]. by destruct (commit_outcome _).
Qed.
Lemma keeps_foldM {S A} (f : S -> A -> op L S) l st : (forall st x, keeps (f st x)) -> keeps (op_foldM f st l).
Proof. intros H. revert st. induction l as [|x l IH]; intros st; [apply keeps_ret|]. apply keeps_bind; [apply H|]. intros st'. apply IH. Qed.
Lemma keeps_call {A} (f : L -> result A * L) : (forall l evs, stored l evs -> stored (f l).2 evs) -> keeps (call_ledger f).
Proof. intros Hf w evs [Hw Hr]. unfold call_ledger. specialize (Hf _ _ Hw). destruct (f (w_ledger w)). by split. Qed.
Lemma keeps_chain id : keeps (call_ledger (ledger_chain id)).
Proof. apply keeps_call. intros l evs Hs. destruct (ledger_chain id l) as [r l'] eqn:E. by destruct (chain_law _ _ _ _ _ Hs E). Qed.
Lemma keeps_remaining : keeps (call_ledger ledger_unresolved_preparations).
Proof.
  apply keeps_call. intros l evs Hs. destruct (ledger_unresolved_preparations l) as [r l'] eqn:E. by destruct (unresolved_law _ _ _ _ Hs E).
Qed.
Lemma adds_append rq phase now evs :
  in_calendar now -> request_ok rq -> adds (call_ledger (ledger_append rq phase now))
    (fun e evs' => e ∈ evs' /\ ev_deletion_id e = rq_deletion_id rq /\ ev_phase e = phase) evs.
Proof.
  intros Hn Hrq w [Hs Hr]. unfold call_ledger. destruct (ledger_append rq phase now (w_ledger w)) as [r l] eqn:E.
  destruct (append_law _ _ _ _ _ _ _ Hs Hrq Hn E) as (evs' & Hs' & Hc & He). exists evs'. cbn.
  destruct Hc as [->|(e & Hx)]; [by split_and!|]. rewrite (ext_events _ _ _ _ _ Hx) in *. split_and!; [|by eexists|done].
  split; [done|]. apply Forall_app. split; [done|]. apply Forall_singleton. by rewrite (ext_request _ _ _ _ _ Hx).
Qed.
Lemma adds_chain id evs : adds (call_ledger (ledger_chain id)) (fun c evs' => evs' = evs /\ c = chain_of id evs) evs.
Proof.
  intros w [Hs Hr]. unfold call_ledger. destruct (ledger_chain id (w_ledger w)) as [r l] eqn:E.
  destruct (chain_law _ _ _ _ _ Hs E) as [Hs' Hc]. exists evs. cbn. split_and!; [done|done|]. intros a ->. split; [done|]. by apply Hc.
Qed.
Lemma request_in e evs : Forall (fun e => request_ok (event_request e)) evs -> e ∈ evs -> request_ok (event_request e).
Proof. rewrite Forall_forall. auto. Qed.
(** An operation that needs the requests of the recorded events. *)
Lemma adds_recorded {A} (m : op L A) P evs :
  (Forall (fun e => request_ok (event_request e)) evs -> adds m P evs) -> adds m P evs.
Proof. intros H w Hw. apply (H (proj2 Hw)), Hw. Qed.
(** What is known of the ledger when an operation has returned. *)
Lemma adds_run {A} (m : op L A) P evs w a w' :
  adds m P evs -> recorded (w_ledger w) evs -> m w = (Ok a, w') ->
  exists evs', recorded (w_ledger w') evs' /\ evs `prefix_of` evs' /\ P a evs'.
Proof. intros Hm Hw E. destruct (Hm w Hw) as (evs' & H1 & H2 & H3). rewrite E in *. exists evs'. auto. Qed.
Lemma keeps_run {A} (m : op L A) evs w a w' :
  keeps m -> recorded (w_ledger w) evs -> m w = (a, w') -> recorded (w_ledger w') evs.
Proof. intros Hm Hw E. specialize (Hm w evs Hw). by rewrite E in Hm. Qed.
End LedgerLogic.
#[export] Hint Resolve keeps_ret keeps_pure keeps_get keeps_update keeps_try keeps_draw keeps_chain keeps_remaining : keeps.
Ltac keeping :=
  repeat lazymatch goal with
    | |- keeps (_ ≫= _) => apply keeps_bind; [|intros ?]
    | |- keeps (transaction _) => apply keeps_transaction
    | |- keeps (op_foldM _ _ _) => apply keeps_foldM; intros ? ?
    | |- keeps (match ?x with _ => _ end) => destruct x
    | |- keeps _ => solve [auto with keeps]
    end.
Lemma keeps_receipt `{DeletionLedgerLaws L, Runtime, Sha256, IsoFormats} e : keeps (L := L) (store_ledger_receipt e).
Proof. unfold store_ledger_receipt. keeping. Qed.
#[export] Hint Resolve keeps_receipt : keeps.
