(* ===== verification/DeletionSweepTheorems.v ===== *)
(** * DeletionSweepTheorems: what the deletion sweep guarantees

    A service in memory with an object store, in which the account and an import
    of its user are deleted from the first request to the end, shows the laws of
    the object store.  The drain waits for every live writer; an account loses
    exactly its own rows and is complete only without rows and objects; a
    resource loses everything derived from it; a completed deletion leaves its
    tombstone. *)

From S2P Require Import Prelude Float Json JsonCanonical JsonLoads Calendar PyText IsoTime Base64 Keyrings Deletion.
From S2P Require Import Ledger LedgerProofs LedgerChains LedgerSafety LedgerTheorems LedgerModel Database Jobs.
From S2P Require Import DeletionStore Deletions DeletionsInvariant DeletionsProofs DeletionsModel DeletionSweep DeletionSweepProofs.

(** The keys at or below a prefix. *)
Definition below (prefix key : string) : bool := String.eqb key prefix || String.prefix (prefix +:+ "/") key.

(** ** Services in memory *)
(** A ledger next to an object store. *)
Section Pairs.
Context {L O : Type} {DL : DeletionLedger L} {OS : ObjectStore O}.
Definition on_first {A} (f : L -> result A * L) (l : L * O) : result A * (L * O) := let (r, l') := f l.1 in (r, (l', l.2)).
Definition on_second {A} (f : O -> result A * O) (l : L * O) : result A * (L * O) := let (r, o) := f l.2 in (r, (l.1, o)).
Definition paired_ledger : DeletionLedger (L * O) := {|
  ledger_append rq phase t := on_first (ledger_append rq phase t);
  ledger_chain id := on_first (ledger_chain id);
  ledger_unresolved_preparations := on_first ledger_unresolved_preparations
|}.
Definition paired_objects : ObjectStore (L * O) := {|
  object_delete k := on_second (object_delete k); object_exists k := on_second (object_exists k);
  object_list_prefix p := on_second (object_list_prefix p)
|}.
Lemma on_first_run {A} (f : L -> result A * L) l r l' : on_first f l = (r, l') -> f l.1 = (r, l'.1).
Proof. unfold on_first. destruct (f l.1) as [r0 l0]. by intros [= <- <-]. Qed.
Lemma on_second_run {A} (f : O -> result A * O) l r l' : on_second f l = (r, l') -> f l.2 = (r, l'.2).
Proof. unfold on_second. destruct (f l.2) as [r0 l0]. by intros [= <- <-]. Qed.
#[local] Existing Instance paired_ledger.
Definition paired_ledger_laws {DLL : DeletionLedgerLaws L} : DeletionLedgerLaws (L * O).
Proof.
  refine {| stored l := stored l.1 |}.
  - intros l evs. apply stored_legal.
  - intros l evs rq phase t r l' Hs Hrq Ht E%on_first_run. by eapply append_law.
  - intros l evs id r l' Hs E%on_first_run. by eapply chain_law.
  - intros l evs r l' Hs E%on_first_run. by eapply unresolved_law.
Defined.
End Pairs.
Definition memory_objects : ObjectStore (list string) := {|
  object_delete k l := (Ok tt, List.filter (fun x => negb (String.eqb x k)) l);
  object_exists k l := (Ok (mem k l), l);
  object_list_prefix p l := (Ok (List.filter (below p) l), l)
|}.
Definition Services : Type := list LedgerEvent * list string.
Definition services_ledger : DeletionLedger Services := paired_ledger (DL := flat_ledger).
Definition services_objects : ObjectStore Services := paired_objects (OS := memory_objects).
Section Run.
Variable outcome : nat -> commit.
#[local] Existing Instance services_ledger.
#[local] Existing Instance services_objects.
#[local] Existing Instance flat_crypto.
#[local] Existing Instance flat_sha.
#[local] Existing Instance no_loads.
#[local] Existing Instance no_iso.
#[local] Existing Instance Registry.plain_hasher.
#[local] Instance sweep_runtime : Runtime := toy_runtime outcome.
Definition stored_objects : list string := ["owners/u1/imports/i1/raw"; "owners/u2/imports/i2/raw"].
Definition sweep_world : World Services := {| w_store := toy_store; w_ledger := ([], stored_objects); w_draws := 0; w_commits := 0 |}.
Definition requested_deletion (kind : TargetKind) (id key : string) (w : World Services) : World Services :=
  (start_resource_deletion restore_keys "u1" kind id key toy_secret 0 w).2.
(** A worker takes the deletion job. *)
Definition sweep_job (w : World Services) : string :=
  match st_controls (w_store w) with c :: _ => default "" (dc_deletion_job_id c) | [] => "" end.
Definition run_job (id : string) (j : JobRecord) : JobRecord :=
  if String.eqb (job_id j) id then
    {| job_submission := job_submission j; job_state := RUNNING; attempt_count := 1; fencing_generation := 1;
       lease_owner := Some "w1"; lease_acquired_at := Some 0; lease_expires_at := Some 1000000000; heartbeat_at := Some 0;
       not_before := not_before j; cancel_requested := cancel_requested j; job_failure_code := None;
       terminal_result_type := None; terminal_result_id := None; terminal_semantic_hash := None; job_completed_at := None |}
  else j.
Definition leased (w : World Services) : World Services :=
  let s := w_store w in
  let id := sweep_job w in
  let attempt := {| att_id := "a1"; att_job_id := id; attempt_number := 1; att_fencing_generation := 1; att_worker_id := "w1";
                    att_state := ATT_RUNNING; leased_at := 0; att_lease_expires_at := 1000000000; att_completed_at := None;
                    att_failure_code := None |} in
  let b := st_base s in
  set_store (set_base {| users := users b; imports := imports b; profile_versions := profile_versions b;
                         jobs := run_job id <$> jobs b; job_attempts := job_attempts b ++ [attempt];
                         audit_events := audit_events b |} s) w.
Definition sweep_lease (kind : TargetKind) (w : World Services) : JobLease :=
  {| l_job_id := sweep_job w; l_import_id := match kind with IMPORT => Some "i1" | _ => None end; l_worker_id := "w1";
     l_attempt_number := 1; l_fencing_generation := 1; l_lease_expires_at := 1000000000; l_kind := "DELETION";
     l_profile_version_id := None; l_scope_mode := "DELETING_SCOPE" |}.
Fixpoint advances (n : nat) (lease : JobLease) (w : World Services) : list (result SweepOutcome) * World Services :=
  match n with
  | O => ([], w)
  | S n' => let (r, w') := advance lease 1000000 w in let (rs, w'') := advances n' lease w' in (r :: rs, w'')
  end.
Definition swept_deletion (kind : TargetKind) (id : string) (n : nat) (w : World Services)
    : list (result SweepOutcome) * World Services :=
  let w := leased (requested_deletion kind id "key" w) in advances n (sweep_lease kind w) w.
End Run.

(** From the request to the end. *)
Definition all_phases : list (result SweepOutcome) :=
  [Ok {| so_state := ADVANCED; so_phase := "SWEEP" |}; Ok {| so_state := ADVANCED; so_phase := "VERIFY" |};
   Ok {| so_state := ADVANCED; so_phase := "COMPLETE" |}; Ok {| so_state := COMPLETED_SWEEP; so_phase := "DELETED" |}].
Example account_deleted :
  let run := swept_deletion all_commit ACCOUNT "u1" 4 sweep_world in
  run.1 = all_phases /\ st_base (w_store run.2) = {| users := []; imports := []; profile_versions := []; jobs := [];
                                                     job_attempts := []; audit_events := [] |}
  /\ (w_ledger run.2).2 = ["owners/u2/imports/i2/raw"].
Proof. by vm_compute. Qed.
Example import_deleted :
  let run := swept_deletion all_commit IMPORT "i1" 4 sweep_world in
  run.1 = all_phases /\ users (st_base (w_store run.2)) = [toy_user] /\ imports (st_base (w_store run.2)) = [].
Proof. by vm_compute. Qed.

(** The deletion of an import is prepared when the database refuses its fence;
    then the account is deleted. *)
Definition orphaned : World Services :=
  (swept_deletion one_refused ACCOUNT "u1" 4 (requested_deletion one_refused IMPORT "i1" "child" sweep_world)).2.
Notation flat_reconcile := (reconcile (DL := services_ledger) (RT := toy_runtime all_commit) (CR := flat_crypto) (SH := flat_sha)
  (IF := no_iso) restore_keys).
Notation flat_abort := (prove_noncommit_and_abort (DL := services_ledger) (RT := toy_runtime all_commit) (CR := flat_crypto)
  (SH := flat_sha) (IF := no_iso) restore_keys).
(** The sweep of the account takes the intent of the prepared deletion with it:
    the preparation is not subsumed, and no later call can resolve it. *)
Theorem account_sweep_orphans_preparation :
  (ev_phase <$> chain_of "t" (w_ledger orphaned).1) = [PREPARED]
  /\ (flat_reconcile 2000000 orphaned).1
     = Ok {| rr_prepared_examined := 1; rr_controls_examined := 0; rr_advanced := 0; rr_quarantined := 1 |}
  /\ (w_ledger (flat_reconcile 2000000 orphaned).2).1 = (w_ledger orphaned).1
  /\ (flat_abort "t" 2000000 orphaned).1 = Raise (service_error "ABORT_NOT_PROVABLE").
Proof. by vm_compute. Qed.

(** ** Stops of the deletion of the account and of an import *)
Definition toy_lease (kind : TargetKind) (id : string) : JobLease :=
  sweep_lease kind (leased (requested_deletion all_commit kind id "key" sweep_world)).
Definition stop (kind : TargetKind) (id : string) (n : nat) : World Services := (swept_deletion all_commit kind id n sweep_world).2.

(** ** Object stores *)
Class ObjectStoreLaws (L : Type) {OS : ObjectStore L} := {
  objects : L -> gset string;
  delete_law k l r l' : object_delete k l = (r, l') ->
    objects l ∖ {[k]} ⊆ objects l' /\ objects l' ⊆ objects l /\ (r = Ok tt -> k ∉ objects l');
  exists_law k l r l' : object_exists k l = (r, l') ->
    objects l' = objects l /\ forall b, r = Ok b -> b = bool_decide (k ∈ objects l);
  list_law p l r l' : object_list_prefix p l = (r, l') ->
    objects l' = objects l /\ forall ks, r = Ok ks -> forall k, k ∈ ks <-> k ∈ objects l /\ below p k = true
}.

Definition memory_objects_laws : @ObjectStoreLaws (list string) memory_objects.
Proof.
  refine {| objects l := list_to_set l |}.
  - intros k l r l' [= <- <-]. split_and!; [|intros x; rewrite !elem_of_list_to_set|intros _; rewrite elem_of_list_to_set].
    + intros x. rewrite elem_of_difference, elem_of_singleton, !elem_of_list_to_set. intros [Hx Hne].
      apply list_elem_of_In, filter_In. split; [by apply list_elem_of_In|]. apply negb_true_iff. by apply String.eqb_neq.
    + intros Hx%list_elem_of_In%filter_In. destruct Hx as [Hx _]. by apply list_elem_of_In.
    + intros Hk%list_elem_of_In%filter_In. destruct Hk as [_ Hk]. by rewrite String.eqb_refl in Hk.
  - intros k l r l' [= <- <-]. split; [done|]. intros b [= <-]. unfold mem. apply bool_decide_ext. by rewrite elem_of_list_to_set.
  - intros p l r l' [= <- <-]. split; [done|]. intros ks [= <-] k. rewrite elem_of_list_to_set, !list_elem_of_In. apply filter_In.
Defined.
Definition paired_objects_laws {L O} {OS : ObjectStore O} {OL : ObjectStoreLaws O} : @ObjectStoreLaws (L * O) paired_objects.
Proof.
  refine {| objects l := objects l.2 |}.
  - intros k l r l' E%on_second_run. by eapply delete_law.
  - intros k l r l' E%on_second_run. by eapply exists_law.
  - intros p l r l' E%on_second_run. by eapply list_law.
Defined.
Definition services_laws : @ObjectStoreLaws Services services_objects := paired_objects_laws (OL := memory_objects_laws).

Section Theorems.
Context {L : Type} {DL : DeletionLedger L} {OS : ObjectStore L} {OL : ObjectStoreLaws L}.
Context {RT : Runtime} {SH : Sha256} {IF : IsoFormats}.
Implicit Types (w : World L) (s : Store).

(** ** Accounts *)
(** No owner column names the account: of the tables with such a column, every
    one but [users] itself, and of the jobs every one but the job of the
    deletion.  These are the columns that [_prohibited_account_rows] counts. *)
Definition owner_columns_clear (owner job : string) s : Prop :=
  let a := st_archive s in
  (forall r, r ∈ audit_events (st_base s) -> ev_owner_user_id r <> Some owner)
  /\ (forall r, r ∈ st_sessions s -> ses_user_id r <> owner)
  /\ (forall r, r ∈ ar_operations a -> or_owner_user_id r <> owner)
  /\ (forall r, r ∈ imports (st_base s) -> imp_owner_user_id r <> owner)
  /\ (forall r, r ∈ ar_raw_objects a -> raw_owner_user_id r <> owner)
  /\ (forall r, r ∈ profile_versions (st_base s) -> pv_owner_user_id r <> owner)
  /\ (forall r, r ∈ ar_claims a -> jc_owner_user_id r <> owner)
  /\ (forall r, r ∈ ar_uploads a -> ul_owner_user_id r <> owner)
  /\ (forall r, r ∈ ar_replays a -> rp_owner_user_id r <> owner)
  /\ (forall r, r ∈ ar_reports a -> rx_owner_user_id r <> owner)
  /\ (forall r, r ∈ ar_comparisons a -> cr_owner_user_id r <> owner)
  /\ (forall r, r ∈ ar_scenarios a -> sn_owner_user_id r <> owner)
  /\ (forall r, r ∈ ar_results a -> sr_owner_user_id r <> owner)
  /\ (forall r, r ∈ st_intents s -> di_owner_user_id r <> owner)
  /\ (forall r : JobRecord, r ∈ jobs (st_base s) -> job_id r <> job -> job_owner_user_id r <> Some owner).
(** The tables without an owner column reach an owner through a foreign key: a
    reading and a finding through its import, a load through its scenario, a
    reference schedule through its load, a manifest through the replay or the
    scenario result it has, an attempt through its job. *)
Definition refers {B} `{Row B} (x : string) (t : list B) (P : B -> Prop) : Prop := exists b, b ∈ t /\ row_id b = x /\ P b.
Record foreign_keys (P : ImportRecord -> Prop) (Q : ScenarioRecord -> Prop) (R : ReplayResultRecord -> Prop)
    (T : ScenarioResultRecord -> Prop) (J : JobRecord -> Prop) s : Prop := {
  fk_reading r : r ∈ ar_readings (st_archive s) -> refers (rd_import_id r) (imports (st_base s)) P;
  fk_finding r : r ∈ ar_findings (st_archive s) -> refers (fd_import_id r) (imports (st_base s)) P;
  fk_load r : r ∈ ar_loads (st_archive s) -> refers (sl_scenario_id r) (ar_scenarios (st_archive s)) Q;
  fk_schedule r : r ∈ ar_schedules (st_archive s) -> refers (ss_scenario_load_id r) (ar_loads (st_archive s))
    (fun l => refers (sl_scenario_id l) (ar_scenarios (st_archive s)) Q);
  fk_manifest r : r ∈ ar_manifests (st_archive s) ->
    (exists x, cm_replay_id r = Some x /\ refers x (ar_replays (st_archive s)) R)
    \/ (exists x, cm_scenario_result_id r = Some x /\ refers x (ar_results (st_archive s)) T);
  fk_attempt r : r ∈ job_attempts (st_base s) -> refers (att_job_id r) (jobs (st_base s)) J
}.
(** The constraints of models.py on these columns, which the database keeps. *)
Definition references_ok s : Prop :=
  foreign_keys (fun _ => True) (fun _ => True) (fun _ => True) (fun _ => True) (fun _ => True) s.
(** Every row of these tables hangs off a row of another owner; an attempt may
    also be one of the job of the deletion. *)
Definition dependents_of_others (owner job : string) s : Prop :=
  foreign_keys (fun i => imp_owner_user_id i <> owner) (fun n => sn_owner_user_id n <> owner)
    (fun r => rp_owner_user_id r <> owner) (fun r => sr_owner_user_id r <> owner)
    (fun j => job_id j = job \/ job_owner_user_id j <> Some owner) s.
(** What is left of an account is its own row, the job of its deletion with the
    attempts of that job, and the rows a deletion is known by, which have no
    owner: controls, receipts, ledger receipts, fences and tombstones. *)
Definition owner_erased (owner job : string) s : Prop := owner_columns_clear owner job s /\ dependents_of_others owner job s.

Lemma refers_impl {B} `{Row B} x (t : list B) (P Q : B -> Prop) :
  refers x t P -> (forall b, b ∈ t -> P b -> Q b) -> refers x t Q.
Proof. intros (b & Hb & Hx & HP) H0. exists b. auto. Qed.
Lemma columns_erased owner job s : references_ok s -> owner_columns_clear owner job s -> owner_erased owner job s.
Proof.
  intros [F1 F2 F3 F4 F5 F6] Hc. split; [done|]. destruct Hc as (_ & _ & _ & H4 & _ & _ & _ & _ & H9 & _ & _ & H12 & H13 & _ & H15).
  split.
  - intros r Hr. eapply refers_impl; [by apply F1|]. auto.
  - intros r Hr. eapply refers_impl; [by apply F2|]. auto.
  - intros r Hr. eapply refers_impl; [by apply F3|]. auto.
  - intros r Hr. eapply refers_impl; [by apply F4|]. intros l _ Hl. eapply refers_impl; [exact Hl|]. auto.
  - intros r Hr. destruct (F5 r Hr) as [(x & Hx & Hf)|(x & Hx & Hf)]; [left|right]; exists x; (split; [done|]);
      (eapply refers_impl; [exact Hf|]); auto.
  - intros r Hr. eapply refers_impl; [by apply F6|]. intros j Hj _. destruct (decide (job_id j = job)); auto.
Qed.
(** A reference to a row that is not deleted still holds. *)
Lemma reference_kept {B} `{Row B} (p : B -> bool) (t : list B) x P :
  refers x t P -> in_list (ids p t) x = false -> refers x (table_delete p t) P.
Proof.
  intros (b & Hb & Hx & HP) Hi. exists b. split; [|done]. apply elem_of_table_delete. split; [done|].
  apply not_true_is_false. intros Hp. by rewrite <-Hx, (row_in_ids p t b Hb Hp) in Hi.
Qed.
Lemma zsum_zero_all (l : list Z) : Forall (fun x => 0 <= x) l -> zsum l = 0 -> Forall (fun x => x = 0) l.
Proof.
  induction 1 as [|x l Hx Hl IH]; intros H; [constructor|]. assert (0 <= zsum l) as Hs.
  { clear -Hl. induction Hl as [|y l Hy _ IHl]; [done|]. change (0 <= y + zsum l). lia. }
  change (x + zsum l = 0) in H. constructor; [lia|]. apply IH. lia.
Qed.
Lemma no_prohibited_rows owner job s : prohibited_rows owner job s = 0 -> owner_columns_clear owner job s.
Proof.
  intros H. unfold prohibited_rows in H. apply zsum_zero_all in H; [|repeat constructor; apply count_nonneg].
  rewrite !Forall_cons in H. destruct H as (H1 & H2 & H3 & H4 & H5 & H6 & H7 & H8 & H9 & H10 & H11 & H12 & H13 & H14 & H15 & _).
  unfold owner_columns_clear. split_and!; intros r Hr.
  all: match goal with Hr : ?x ∈ ?t, H : count_where ?p ?t = 0 |- _ => pose proof (count_where_zero p t H x Hr) as E end.
  all: cbn beta in E; try (by apply String.eqb_neq in E); try (by bools).
  intros Hj Ho. unfold owned_jobs in E. apply String.eqb_neq in Hj.
  rewrite Hj, bool_decide_true in E by done. done.
Qed.

(** *** Runs *)
Lemma requested_event_only c : ledger_only (L := L) (requested_event c).
Proof.
  apply ledger_only_bind; [apply ledger_only_call|]. intros chain. destruct (find_phase _ _); [|done]. by apply ledger_only_bind.
Qed.
Lemma run_only {A B} (m : op L A) (k : A -> op L B) w b w' :
  ledger_only m -> (m ≫= k) w = (Ok b, w') -> exists a w1, m w = (Ok a, w1) /\ k a w1 = (Ok b, w') /\ w_store w1 = w_store w.
Proof. intros Hm (a & w1 & H1 & H2)%run_bind. exists a, w1. split_and!; [done|done|]. specialize (Hm w). by rewrite H1 in Hm. Qed.
Lemma run_get {B} (k : Store -> op L B) w b w' : (get_store ≫= k) w = (Ok b, w') -> k (w_store w) w = (Ok b, w').
Proof. done. Qed.
Lemma run_try {B} (f : Store -> result Store) (k : unit -> op L B) w b w' :
  (try_update f ≫= k) w = (Ok b, w') -> exists s1, f (w_store w) = Ok s1 /\ k tt (set_store s1 w) = (Ok b, w').
Proof. unfold mbind, op_bind, try_update. destruct (f (w_store w)) as [s1|e]; [eauto|done]. Qed.
Lemma run_transaction_ledger {A} (m : op L A) w a w' :
  transaction m w = (Ok a, w') -> exists w1, m w = (Ok a, w1) /\ w_store w' = w_store w1 /\ w_ledger w' = w_ledger w1.
Proof.
  unfold transaction. destruct (m w) as [[x|e] w1]; [|done]. destruct (commit_outcome _); try done. intros [= -> <-]. by exists w1.
Qed.
Lemma enter_phase_rows phase status c now s s' :
  enter_phase phase status c now s = Ok s' -> st_base s' = st_base s /\ st_sessions s' = st_sessions s
  /\ st_intents s' = st_intents s /\ st_archive s' = st_archive s
  /\ st_controls s' = table_put (set_control phase (dc_artifact_counts_json c) now c) (st_controls s).
Proof. unfold enter_phase. intros (r & _ & <-%ok_inj)%bind_ok. done. Qed.

(** C30: an account is reported complete only when it is erased.  When the
    verification of a deleted account advances to [COMPLETE], no owner column of
    any table but [users] names the account, the job that deletes it apart, and,
    as the database keeps its foreign keys, every reading, finding, load,
    reference schedule, manifest and attempt left hangs off a row of another
    owner, the attempts of that job apart; the object store holds no object of
    the owner.  The row of the account is left for the completion to delete, and
    the control, receipt, ledger receipt, fence and tombstone rows of deletions,
    which have no owner column, are not claimed to be gone. *)
Theorem verified_account_erased w lease snapshot now c u o w' :
  locked_control lease CP_VERIFY now (w_store w) = Ok (c, u) -> dc_target_kind c = ACCOUNT ->
  verify lease snapshot now w = (Ok o, w') -> so_phase o = "COMPLETE" ->
  owner_columns_clear (usr_id u) (l_job_id lease) (w_store w')
  /\ (references_ok (w_store w') -> dependents_of_others (usr_id u) (l_job_id lease) (w_store w'))
  /\ (forall k, k ∈ objects (w_ledger w') -> below ("owners/" +:+ usr_id u) k = false)
  /\ users (st_base (w_store w')) = users (st_base (w_store w)).
Proof.
  intros Hl Hk H Ho. unfold verify in H. apply run_only in H as (e & w1 & _ & H & E1); [|apply requested_event_only].
  apply run_get, run_pure in H as (cu & Hcu & H). rewrite E1, Hl in Hcu. apply ok_inj in Hcu as <-. cbn [fst snd] in H. cbv zeta in H.
  unfold child_graph in H. rewrite decide_True in H by done. apply run_pure in H as (g & <-%ok_inj & H). cbn [listed_objects] in H.
  apply run_only in H as (keys & w2 & Hlist & H & E2); [|apply ledger_only_call].
  apply run_transaction_ledger in H as (w3 & H & E3 & L3). apply run_get, run_pure in H as (cu2 & Hcu2 & H).
  rewrite E2, E1, Hl in Hcu2. apply ok_inj in Hcu2 as <-. cbn [fst snd] in H. apply run_pure in H as (r & _ & H).
  destruct ((0 <? count keys) || negb _) eqn:Eb; [apply run_try in H as (s1 & _ & [= <- _]); by cbn in Ho|].
  apply run_try in H as (s1 & Hs1 & [= _ <-]). apply orb_false_iff in Eb as [Ek Ep]. apply negb_false_iff, Z.eqb_eq in Ep.
  unfold write_verified in Hs1. rewrite decide_True in Hs1 by done. cbn [mbind result_bind] in Hs1.
  apply enter_phase_rows in Hs1 as (B1 & B2 & B3 & B4 & _). rewrite E2, E1 in B1, B2, B3, B4. rewrite E1 in Ep.
  rewrite E3, L3. cbn [set_store w_store w_ledger].
  assert (owner_columns_clear (usr_id u) (l_job_id lease) s1) as Hc.
  { apply no_prohibited_rows in Ep. unfold owner_columns_clear in *. by rewrite B1, B2, B3, B4. }
  split; [done|]. split; [intros Hf; by apply columns_erased|]. split; [clear B1 B2 B3 B4 Hc|by rewrite B1].
  { unfold call_ledger in Hlist. destruct (object_list_prefix _ _) as [r' l'] eqn:El. injection Hlist as -> <-. cbn [w_ledger].
    destruct (list_law _ _ _ _ El) as [Eo Hks]. intros k Hin. rewrite Eo in Hin. destruct (below _ k) eqn:Ebl; [|done]. exfalso.
    assert (k ∈ keys) as Hkk by (by apply (Hks keys eq_refl)). destruct keys as [|k0 keys]; [by apply elem_of_nil in Hkk|].
    apply Z.ltb_ge in Ek. unfold count in Ek. cbn [length] in Ek. lia. }
Qed.

Lemma swept_references owner job s s' : swept owner job s s' -> references_ok s -> references_ok s'.
Proof.
  intros [_ Hi _ Hj Ht _ _ _ _ _ _ _ Ha] [F1 F2 F3 F4 F5 F6]. cbv zeta in Ha.
  destruct Ha as (_ & _ & A1 & A2 & _ & _ & A3 & A4 & A5 & A6 & A7 & A8 & _).
  split; rewrite ?Hi, ?Hj, ?Ht, ?A1, ?A2, ?A3, ?A4, ?A5, ?A6, ?A7, ?A8; intros r [Hr Hk]%elem_of_table_delete.
  - apply (reference_kept _ (imports (st_base s))); auto.
  - apply (reference_kept _ (imports (st_base s))); auto.
  - apply (reference_kept _ (ar_scenarios (st_archive s))); auto.
  - destruct (F4 r Hr) as (l & Hl & Hx & Hn).
    assert (in_list (w_scenario_ids (owner_ids owner job s)) (sl_scenario_id l) = false) as Hs.
    { apply not_true_is_false. intros Hs. cbn [owner_ids w_scenario_load_ids w_scenario_ids] in *. rewrite <-Hx in Hk.
      by rewrite (row_in_ids (fun r => in_list (ids _ _) (sl_scenario_id r)) _ l Hl Hs) in Hk. }
    exists l. split_and!; [by apply elem_of_table_delete|done|]. by apply (reference_kept _ (ar_scenarios (st_archive s))).
  - apply orb_false_iff in Hk as [K1 K2]. destruct (F5 r Hr) as [(x & Hx & Hf)|(x & Hx & Hf)]; [left|right]; exists x; (split; [done|]).
    + rewrite Hx in K1. by apply (reference_kept _ (ar_replays (st_archive s))).
    + rewrite Hx in K2. by apply (reference_kept _ (ar_results (st_archive s))).
  - apply (reference_kept _ (jobs (st_base s))); [by apply F6|]. apply not_true_is_false.
    intros (j & _ & Hin & Hx)%in_list_true%elem_of_ids. change (job_id j = att_job_id r) in Hx. by rewrite Hx, Hk in Hin.
Qed.
(** C31: sweeping an account removes its rows and nothing else.  Of every table
    with an owner column except [users], and of every table that hangs off such
    rows, exactly the rows named by [swept] go and the others stay in their
    order: those that name the owner, those that hang off its imports (the raw
    objects, which cascade with the import, whoever they name as owner),
    scenarios, loads, replays, results or jobs.  The row of the account, the job
    of the deletion with its attempts, and the control, receipt, ledger receipt,
    fence and tombstone rows stay.  No owner column names the account afterwards,
    and foreign keys that held still hold and lead to other owners. *)
Theorem account_sweep_exact owner job s :
  let s' := (sweep_owner_rows owner job s).1 in
  swept owner job s s' /\ owner_columns_clear owner job s'
  /\ (forall j : JobRecord, j ∈ jobs (st_base s) -> job_id j = job -> j ∈ jobs (st_base s'))
  /\ (references_ok s -> references_ok s' /\ dependents_of_others owner job s').
Proof.
  cbv zeta. pose proof (sweep_owner_rows_swept owner job s) as H. split; [done|].
  assert (owner_columns_clear owner job (sweep_owner_rows owner job s).1) as Hc
    by (apply no_prohibited_rows; by eapply swept_nothing_left).
  split; [done|]. split.
  - intros j Hj Hid. rewrite (sw_jobs _ _ _ _ H). apply elem_of_table_delete. split; [done|]. apply not_true_is_false.
    intros (r & _ & Hr & Hx)%in_list_true%elem_of_ids. unfold owned_jobs in Hr. apply andb_true_iff in Hr as [_ Hr].
    change (job_id r = job_id j) in Hx. by rewrite Hx, Hid, String.eqb_refl in Hr.
  - intros Hf. apply (swept_references _ _ _ _ H) in Hf. split; [done|]. by apply columns_erased.
Qed.

(** ** Resources *)
(** C32: deleting an import or a profile removes everything derived from it.  The
    rows that go are those of its graph of profiles, jobs, uploads, results,
    scenarios, reports and requests, and what is left of that graph is the target
    alone: the check that follows cannot fail, so the verification always
    advances. *)
Theorem resource_deletion_complete lease c now s s' :
  dc_target_kind c <> ACCOUNT -> delete_resource_rows c (l_job_id lease) s = Ok s' ->
  (exists g, resource_graph c (l_job_id lease) s = Ok g /\ graph_deleted g s s')
  /\ users (st_base s') = users (st_base s) /\ imports (st_base s') = imports (st_base s)
  /\ prohibited_resource_rows c (l_job_id lease) s' = Ok 0
  /\ write_verified lease c now s = enter_phase CP_COMPLETE RS_COMPLETE c now s'.
Proof.
  intros Hk H. pose proof (resource_rows_gone _ _ _ _ Hk H) as Hz. destruct (delete_rows_graph _ _ _ _ Hk H) as (g & Hg & Hd & Hu & Hi & _).
  split; [by exists g|]. split_and!; [done|done|done|]. unfold write_verified. rewrite decide_False by done. rewrite H. cbn [mbind result_bind].
  by rewrite Hz.
Qed.

(** ** Draining *)
Lemma filter_empty {A} (p : A -> bool) l : (0 <? count (List.filter p l)) = false -> forall x, x ∈ l -> p x = false.
Proof.
  intros H x Hx. apply Z.ltb_ge in H. pose proof (count_nonneg (List.filter p l)). apply (count_where_zero p l); [|done]. unfold count_where. lia.
Qed.
(** The dependent jobs of the control that a lease works on: those of the target
    of the control, under the owner of the target. *)
Definition drain_scope (lease : JobLease) s : result (DeletionControlOperationRecord * list JobRecord) :=
  c ← from_option stale (control_by_job s (l_job_id lease));
  t ← from_option stale (target_by_scope s (dc_target_kind c) (dc_target_scope_id c));
  user ← owner_of s c (Some t);
  u ← from_option stale user;
  dependent ← dependent_jobs lease c t (usr_id u) s;
  Ok (c, dependent).
Lemma drain_scope_ok lease s c t u dependent :
  control_by_job s (l_job_id lease) = Some c -> target_by_scope s (dc_target_kind c) (dc_target_scope_id c) = Some t ->
  owner_of s c (Some t) = Ok (Some u) -> dependent_jobs lease c t (usr_id u) s = Ok dependent ->
  drain_scope lease s = Ok (c, dependent).
Proof.
  intros Hc Ht Ho Hd. unfold drain_scope. rewrite Hc. cbn [from_option mbind result_bind]. rewrite Ht.
  cbn [from_option mbind result_bind]. rewrite Ho. cbn [from_option mbind result_bind]. by rewrite Hd.
Qed.
(** What a drain that advanced has established of them. *)
Definition drained (lease : JobLease) (now : Z) s : Prop :=
  exists c dependent, drain_scope lease s = Ok (c, dependent) /\ dc_phase c = CP_SWEEP
  /\ (forall j, j ∈ dependent -> job_state j ∈ [LEASED; RUNNING] -> lease_live j now = false)
  /\ (forall r, r ∈ ar_uploads (st_archive s) -> ul_job_id r ∈ row_id <$> dependent -> ul_state r <> UP_REGISTERED).
Lemma find_put {A} `{Row A} (p : A -> bool) (r c : A) (t : list A) :
  find_by p t = Some c -> row_id r = row_id c -> p r = true -> find_by p (table_put r t) = Some r.
Proof.
  intros Hf Hid Hp. unfold find_by in *. induction t as [|x t IH]; [done|].
  change (table_put r (x :: t)) with ((if decide (row_id x = row_id r) then r else x) :: table_put r t). cbn [List.find] in Hf |- *.
  case_decide as E; [by rewrite Hp|]. destruct (p x); [|by apply IH]. injection Hf as ->. by rewrite Hid in E.
Qed.
(** The control that the lease works on, after its phase has changed. *)
Lemma control_entered s s1 lease phase status c now :
  control_by_job s (l_job_id lease) = Some c -> enter_phase phase status c now s = Ok s1 ->
  control_by_job s1 (l_job_id lease) = Some (set_control phase (dc_artifact_counts_json c) now c).
Proof.
  intros Hc Hs. apply enter_phase_rows in Hs as (_ & _ & _ & _ & E). unfold control_by_job. rewrite E.
  apply (find_put _ _ c); [exact Hc|done|]. unfold control_by_job, find_by in Hc. apply List.find_some in Hc as [_ Hj]. exact Hj.
Qed.
Lemma locked_control_inv lease phase now s c u : locked_control lease phase now s = Ok (c, u) ->
  control_by_job s (l_job_id lease) = Some c
  /\ exists t, target_by_scope s (dc_target_kind c) (dc_target_scope_id c) = Some t /\ owner_of s c (Some t) = Ok (Some u).
Proof.
  unfold locked_control. destruct (control_by_job _ _) as [c'|]; [|done]. intros H. apply bind_ok in H as (user & Hu & H).
  destruct (target_by_scope _ _ _) as [t|] eqn:Et; [|done]. destruct user as [u'|]; [|done].
  destruct (current_fenced_job _ _ _ _); [|done]. apply bind_ok in H as (? & _ & H). injection H as -> ->. eauto.
Qed.
(** C33: the drain waits for every writer.  When a drain advances, the control of
    its lease is in the phase [SWEEP], and of the jobs that depend on the target
    of that control, under the owner of the target, none has a lease that has
    not run out and none has an upload that is still registered; a drain that
    returns otherwise leaves the control in its phase. *)
Theorem drain_waits_for_writers w lease snapshot now o w' :
  drain lease snapshot now w = (Ok o, w') ->
  match so_state o with
  | ADVANCED => drained lease now (w_store w')
  | PENDING => exists c u, locked_control lease CP_DRAIN now (w_store w') = Ok (c, u)
  | COMPLETED_SWEEP => False
  end.
Proof.
  intros H. unfold drain in H. apply run_bind in H as (e & w1 & _ & H). apply run_bind in H as (observed & w2 & _ & H).
  apply run_bind in H as (x & w3 & _ & H). apply run_transaction in H as (w4 & H & ->). apply run_get, run_pure in H as (cu & Hcu & H).
  apply run_pure in H as (t & Ht & H). apply run_pure in H as (dependent & Hd & H). destruct cu as [c u]. cbn [fst snd] in *.
  destruct (observed.1 || _ || _) eqn:Eb; [injection H as <- <-; cbn [so_state]; by exists c, u|].
  apply run_try in H as (s1 & Hs1 & [= <- <-]). cbn [so_state set_store w_store].
  apply orb_false_iff in Eb as [Eb Eu]. apply orb_false_iff in Eb as [_ Ej].
  apply locked_control_inv in Hcu as (Hc & t' & Ht' & Ho). pose proof (control_entered _ _ _ _ _ _ _ Hc Hs1) as Hc1.
  apply enter_phase_rows in Hs1 as (B1 & _ & _ & B4 & _). unfold drain_target in Ht. apply from_option_ok in Ht.
  assert (t' = t) as -> by congruence. eexists _, dependent. split_and!.
  - apply (drain_scope_ok _ _ _ t u); [exact Hc1|..].
    + rewrite <-Ht. unfold target_by_scope, kind_user, kind_import, kind_profile. by rewrite B1.
    + rewrite <-Ho. unfold owner_of. by rewrite B1.
    + rewrite <-Hd. unfold dependent_jobs. by rewrite B1.
  - done.
  - intros j Hj Hst. pose proof (filter_empty _ _ Ej j Hj) as E. cbn beta in E. apply andb_false_iff in E as [E|E]; [|done].
    unfold mem in E. bools. done.
  - rewrite B4. intros r Hr Hjob Hst. pose proof (filter_empty _ _ Eu r Hr) as E. cbn beta in E. apply in_list_true in Hjob.
    rewrite Hjob, bool_decide_true in E by done. done.
Qed.

(** ** Completing *)
Definition target_gone (t : DeletionTarget) s : Prop :=
  match t with
  | TUser x => forall r, r ∈ users (st_base s) -> usr_id r <> usr_id x
  | TImport x => forall r, r ∈ imports (st_base s) -> imp_id r <> imp_id x
  | TProfile x => forall r, r ∈ profile_versions (st_base s) -> pv_id r <> pv_id x
  end.
(** The rows of a deletion that are left: none of its control rows, a tombstone and its receipt. *)
Record finished (c : DeletionControlOperationRecord) (job : string) (verifier : string) (now : Z) s : Prop := {
  fi_control r : r ∈ st_controls s -> dc_deletion_id r <> dc_deletion_id c;
  fi_intent r : r ∈ st_intents s -> di_deletion_id r <> dc_deletion_id c;
  fi_acknowledged r : r ∈ st_ledger_receipts s -> lr_deletion_id r <> dc_deletion_id c;
  fi_fence r : r ∈ ar_fences (st_archive s) -> ft_deletion_id r <> dc_deletion_id c;
  fi_job (r : JobRecord) : r ∈ jobs (st_base s) -> job_id r <> job;
  fi_attempt r : r ∈ job_attempts (st_base s) -> att_job_id r <> job;
  fi_tombstone : exists a, a ∈ st_audits s /\ da_deletion_id a = dc_deletion_id c /\ da_scope_token a = dc_scope_token c
    /\ da_deletion_generation a = dc_deletion_generation c /\ da_receipt_verifier a = Some verifier
    /\ da_verifier_expires_at a = now + RECEIPT_LIFETIME /\ da_status a = "DELETED";
  fi_receipt : exists r, r ∈ st_receipts s /\ rc_deletion_id r = dc_deletion_id c /\ rc_status r = RS_DELETED
    /\ rc_verifier_expires_at r = Some (now + RECEIPT_LIFETIME)
}.
Lemma deleted_rows {A} (f : A -> string) x (t : list A) r : r ∈ table_delete (fun r => String.eqb (f r) x) t -> f r <> x.
Proof. intros [_ H]%elem_of_table_delete. by apply String.eqb_neq. Qed.
Lemma delete_target_rows t id s :
  st_controls (delete_target t id s) = st_controls s /\ st_intents (delete_target t id s) = st_intents s
  /\ st_ledger_receipts (delete_target t id s) = st_ledger_receipts s /\ ar_fences (st_archive (delete_target t id s)) = ar_fences (st_archive s)
  /\ jobs (st_base (delete_target t id s)) = jobs (st_base s) /\ job_attempts (st_base (delete_target t id s)) = job_attempts (st_base s)
  /\ st_audits (delete_target t id s) = st_audits s /\ st_receipts (delete_target t id s) = st_receipts s.
Proof.
  destruct t as [x|x|x]; [split_and!; reflexivity..|]. unfold delete_target. cbv zeta. destruct (table_get _ _) as [i|]; [|split_and!; reflexivity].
  destruct (bool_decide _); split_and!; reflexivity.
Qed.
Lemma target_deleted t u s : (forall x, t = TUser x -> usr_id u = usr_id x) -> target_gone t (delete_target t (usr_id u) s).
Proof.
  intros Hu. destruct t as [x|x|x]; cbn -[table_delete]; intros r Hr.
  - rewrite <-(Hu x eq_refl). by apply (deleted_rows usr_id) in Hr.
  - by apply (deleted_rows imp_id) in Hr.
  - by apply (deleted_rows pv_id) in Hr.
Qed.
Lemma write_completed_finished lease c u now s s' :
  write_completed lease c u now s = Ok s' -> exists receipt t, table_get (dc_deletion_id c) (st_receipts s) = Some receipt
  /\ target_by_scope s (dc_target_kind c) (dc_target_scope_id c) = Some t
  /\ finished c (l_job_id lease) (rc_receipt_verifier receipt) now s' /\ exists s0, s' = delete_target t (usr_id u) s0.
Proof.
  unfold write_completed. intros H. apply bind_ok in H as (receipt & Hr & H). apply from_option_ok in Hr.
  apply bind_ok in H as (expiry & He & H). apply datetime_check_ok in He as [-> _]. apply bind_ok in H as (audits & Ha & H). cbv zeta in H.
  apply bind_ok in H as ([] & _ & H). match type of H with context [target_by_scope ?x _ _] => change (target_by_scope x) with (target_by_scope s) in H end.
  destruct (target_by_scope s _ _) as [t|] eqn:Et; [|done]. apply ok_inj in H. exists receipt, t. split; [done|]. split; [done|].
  split; [|eauto]. subst s'. match goal with |- finished _ _ _ _ (delete_target t ?i ?x) => destruct (delete_target_rows t i x) as (E1 & E2 & E3 & E4 & E5 & E6 & E7 & E8) end.
  split; rewrite ?E1, ?E2, ?E3, ?E4, ?E5, ?E6, ?E7, ?E8; clear E1 E2 E3 E4 E5 E6 E7 E8.
  - intros r Hin. by apply (deleted_rows dc_deletion_id) in Hin.
  - intros r Hin. by apply (deleted_rows di_deletion_id) in Hin.
  - intros r Hin. by apply (deleted_rows lr_deletion_id) in Hin.
  - intros r Hin. by apply (deleted_rows ft_deletion_id) in Hin.
  - intros r Hin. by apply (deleted_rows (fun j : JobRecord => job_id j)) in Hin.
  - intros r Hin. by apply (deleted_rows att_job_id) in Hin.
  - unfold table_add in Ha. apply bind_ok in Ha as (? & _ & <-%ok_inj). exists (audit_of c receipt "VERIFIED_COMPLETE" now (now + RECEIPT_LIFETIME)). split; [|done]. destruct t; apply elem_of_app; right; by left.
  - exists (finish_receipt (dc_artifact_counts_json c) now (now + RECEIPT_LIFETIME) receipt). apply table_get_elem in Hr as [Hin Hid].
    split; [|done]. destruct t; apply list_elem_of_fmap; exists receipt; (split; [by rewrite decide_True|done]).
Qed.
(** *** The event of a completion *)
Context {DLL : DeletionLedgerLaws L}.
Lemma find_phase_in phase id evs e : find_phase phase (chain_of id evs) = Some e -> e ∈ evs.
Proof. intros [Hin _]%List.find_some. apply list_elem_of_In, chain_of_elem in Hin. tauto. Qed.
Lemma adds_ret {A} (a : A) P evs : P a evs -> adds (L := L) (mret a) P evs.
Proof. intros Ha w Hw. exists evs. split_and!; [done|done|]. by intros ? [= <-]. Qed.
Lemma adds_requested c evs : adds (requested_event c) (fun e evs' => e ∈ evs') evs.
Proof.
  unfold requested_event. eapply adds_bind; [apply adds_chain|]. intros chain evs' _ [-> ->].
  destruct (find_phase REQUESTED _) as [e|] eqn:E; [|by intros w Hw; exists evs; split_and!].
  apply find_phase_in in E. eapply adds_bind; [apply adds_pure|]. intros [] evs' [more ->] _. apply adds_ret, elem_of_app. by left.
Qed.
Lemma adds_completed id rq now evs :
  in_calendar now -> request_ok rq ->
  adds (match find_phase COMPLETED (chain_of id evs) with Some e => mret e | None => call_ledger (ledger_append rq COMPLETED now) end)
    (fun e evs' => e ∈ evs') evs.
Proof.
  intros Hn Hrq. destruct (find_phase COMPLETED _) as [e|] eqn:E; [apply adds_ret; by apply find_phase_in in E|].
  eapply adds_weaken; [by apply adds_append|]. cbn beta. tauto.
Qed.
Lemma keeps_validated (r : result unit) (m : op L unit) : keeps m -> keeps (_ ← pure r; m).
Proof. intros Hm. by keeping. Qed.
(** A chain with a completion is that of a whole deletion. *)
Lemma completed_chain evs e :
  legal evs -> e ∈ evs -> ev_phase e = COMPLETED -> phases evs (ev_deletion_id e) = [PREPARED; REQUESTED; COMPLETED].
Proof.
  intros Hl He Hp. assert (e ∈ chain_of (ev_deletion_id e) evs) as Hc by (by apply chain_of_elem).
  assert (COMPLETED ∈ phases evs (ev_deletion_id e)) as Hin by (rewrite <-Hp; by apply list_elem_of_fmap_2).
  assert (phases evs (ev_deletion_id e) ∈ LEGAL_CHAINS) as Hlegal by (apply Hl; intros E; rewrite E in Hc; by apply elem_of_nil in Hc).
  revert Hin Hlegal. generalize (phases evs (ev_deletion_id e)). unfold LEGAL_CHAINS. intros ps Hin.
  rewrite !elem_of_cons, elem_of_nil. intros [->|[->|[->|[->|[]]]]]; [exfalso..|done|exfalso]; revert Hin; solve_keys || set_solver.
Qed.
(** The rows that the last transaction of a completion leaves. *)
Lemma finishing lease completed now w w' :
  transaction (
    s ← get_store;
    cu ← pure (locked_control lease CP_COMPLETE now s);
    _ ← pure (except as_sweep_error (validate_control_event completed cu.1 COMPLETED));
    _ ← store_ledger_receipt completed;
    try_update (write_completed lease cu.1 cu.2 now)) w = (Ok tt, w') ->
  exists c u t verifier, locked_control lease CP_COMPLETE now (w_store w) = Ok (c, u)
  /\ ev_phase completed = COMPLETED /\ event_request completed = control_request c
  /\ target_by_scope (w_store w) (dc_target_kind c) (dc_target_scope_id c) = Some t /\ target_gone t (w_store w')
  /\ finished c (l_job_id lease) verifier now (w_store w').
Proof.
  intros H. apply run_transaction in H as (w5 & H & ->). apply run_get, run_pure in H as (cu & Hcu & H).
  apply run_pure in H as ([] & Hv & H). apply run_bind in H as ([] & w6 & [rows Er]%run_receipt & H). unfold try_update in H.
  destruct (write_completed _ _ _ _ _) as [s1|x] eqn:Ew; [|done]. injection H as <-. cbn [set_store w_store]. destruct cu as [c u]. cbn [fst snd] in *.
  apply write_completed_finished in Ew as (receipt & t & _ & Ht & Hf & s0 & ->). rewrite Er in Ht.
  change (target_by_scope (set_ledger_receipts rows (w_store w))) with (target_by_scope (w_store w)) in Ht.
  unfold validate_control_event in Hv. destruct (raise_if _ _) as [[]|x] eqn:Ev; [|done]. apply raise_if_ok, orb_false_iff in Ev as [V1 V2]. bools.
  exists c, u, t, (rc_receipt_verifier receipt). split_and!; try done. apply target_deleted. intros x ->.
  apply locked_control_inv in Hcu as (_ & t' & Ht' & Hu). rewrite Ht in Ht'. injection Ht' as <-.
  cbn in Hu. apply bind_ok in Hu as (id & Hid & Hu). apply ok_inj, table_get_elem in Hu as [_ Hu].
  case_decide; [|done]. injection Hid as <-. exact Hu.
Qed.
(** C34: a deletion completes as a whole.  Whatever events the ledger holds,
    when [_complete] returns it holds them and the [COMPLETED] event of exactly
    this deletion, whose chain is then whole; its target is gone and so are its
    control, its intent, its fences, its acknowledgements and its job; a tombstone
    remains with the scope token and generation that a restored backup is checked
    against, and the receipt of the owner, which expires thirty days later. *)
Theorem completion_leaves_tombstone w lease snapshot now evs o w' :
  recorded (w_ledger w) evs -> in_calendar now -> complete lease snapshot now w = (Ok o, w') ->
  exists c u t e verifier evs', locked_control lease CP_COMPLETE now (w_store w) = Ok (c, u)
  /\ recorded (w_ledger w') evs' /\ evs `prefix_of` evs' /\ e ∈ evs'
  /\ ev_phase e = COMPLETED /\ event_request e = control_request c
  /\ phases evs' (dc_deletion_id c) = [PREPARED; REQUESTED; COMPLETED]
  /\ target_by_scope (w_store w) (dc_target_kind c) (dc_target_scope_id c) = Some t /\ target_gone t (w_store w')
  /\ finished c (l_job_id lease) verifier now (w_store w') /\ so_state o = COMPLETED_SWEEP.
Proof.
  intros Hw Hn H. unfold complete in H. apply run_only in H as (req & w1 & R1 & H & E1); [|apply requested_event_only].
  apply run_only in H as (chain & w2 & R2 & H & E2); [|apply ledger_only_call].
  apply run_only in H as (e & w3 & R3 & H & E3); [|destruct (find_phase _ _); [done|apply ledger_only_call]].
  apply run_bind in H as ([] & w4 & R4 & [= <- <-]).
  destruct (adds_run _ _ _ _ _ _ (adds_requested _ _) Hw R1) as (evs1 & H1 & Hp1 & Hreq).
  destruct (adds_run _ _ _ _ _ _ (adds_chain _ _) H1 R2) as (evs2 & H2 & Hp2 & -> & ->).
  pose proof (request_in _ _ (proj2 H1) Hreq) as Hok.
  destruct (adds_run _ _ _ _ _ _ (adds_completed _ _ _ _ Hn Hok) H2 R3) as (evs3 & H3 & Hp3 & He).
  assert (recorded (w_ledger w4) evs3) as H4 by (eapply keeps_run; [|exact H3|exact R4]; by keeping).
  apply finishing in R4 as (c & u & t & verifier & Hl & He1 & He2 & Ht & Hg & Hf). rewrite E3, E2, E1 in Hl, Ht.
  exists c, u, t, e, verifier, evs3. split_and!; try done; [by do 2 etrans|].
  assert (dc_deletion_id c = ev_deletion_id e) as -> by (by injection He2). apply completed_chain; [|done|done]. exact (stored_legal _ _ (proj1 H4)).
Qed.
End Theorems.

(** ** Examples *)
Section Examples.
#[local] Existing Instance services_ledger.
#[local] Existing Instance services_objects.
#[local] Existing Instance flat_sha.
#[local] Existing Instance no_iso.
#[local] Instance runtime : Runtime := sweep_runtime all_commit.
#[local] Existing Instance services_laws.
#[local] Instance services_ledger_laws : DeletionLedgerLaws Services := paired_ledger_laws (DLL := flat_laws).

Definition account_lease : JobLease := toy_lease ACCOUNT "u1".
Lemma verify_returns :
  match locked_control account_lease CP_VERIFY 1000000 (w_store (stop ACCOUNT "u1" 2)) with
  | Ok (c, u) => dc_target_kind c = ACCOUNT
                 /\ (verify account_lease c 1000000 (stop ACCOUNT "u1" 2)).1 = Ok {| so_state := ADVANCED; so_phase := "COMPLETE" |}
  | Raise _ => False
  end.
Proof. by vm_compute. Qed.
(** After the verification only the job of the deletion and its attempt are left, and the attempt names the job. *)
Lemma verified_references :
  match locked_control account_lease CP_VERIFY 1000000 (w_store (stop ACCOUNT "u1" 2)) with
  | Ok (c, _) => references_ok (w_store (verify account_lease c 1000000 (stop ACCOUNT "u1" 2)).2)
  | Raise _ => False
  end.
Proof.
  vm_compute. split; intros r Hr; try by apply elem_of_nil in Hr. apply list_elem_of_singleton in Hr as ->.
  eexists. split; [by left|done].
Qed.
Lemma verified_account_erased_witness :
  exists c u, locked_control account_lease CP_VERIFY 1000000 (w_store (stop ACCOUNT "u1" 2)) = Ok (c, u)
  /\ owner_erased (usr_id u) (l_job_id account_lease) (w_store (verify account_lease c 1000000 (stop ACCOUNT "u1" 2)).2).
Proof.
  pose proof verify_returns as H. pose proof verified_references as Hf.
  destruct (locked_control account_lease CP_VERIFY 1000000 (w_store (stop ACCOUNT "u1" 2))) as [[c u]|x] eqn:E; [|destruct H].
  destruct H as [Hk Hv]. exists c, u. split; [reflexivity|].
  destruct (verify account_lease c 1000000 (stop ACCOUNT "u1" 2)) as [r w'] eqn:Er. cbn [fst] in Hv. cbn [snd] in Hf |- *. subst r.
  destruct (verified_account_erased (stop ACCOUNT "u1" 2) account_lease c 1000000 c u _ w' E Hk Er eq_refl) as (He & Hd & _).
  split; [exact He|exact (Hd Hf)].
Defined.

Lemma drain_returns :
  match control_by_job (w_store (stop ACCOUNT "u1" 0)) (l_job_id account_lease) with
  | Some c => (drain account_lease c 1000000 (stop ACCOUNT "u1" 0)).1 = Ok {| so_state := ADVANCED; so_phase := "SWEEP" |}
  | None => False
  end.
Proof. by vm_compute. Qed.
Lemma drain_waits_for_writers_witness :
  exists c, drained account_lease 1000000 (w_store (drain account_lease c 1000000 (stop ACCOUNT "u1" 0)).2).
Proof.
  pose proof drain_returns as H. destruct (control_by_job (w_store (stop ACCOUNT "u1" 0)) (l_job_id account_lease)) as [c|]; [|destruct H].
  exists c. destruct (drain account_lease c 1000000 (stop ACCOUNT "u1" 0)) as [r w'] eqn:Er. cbn [fst] in H. subst r.
  exact (drain_waits_for_writers (stop ACCOUNT "u1" 0) account_lease c 1000000 _ w' Er).
Defined.

Lemma complete_returns :
  match control_by_job (w_store (stop ACCOUNT "u1" 3)) (l_job_id account_lease) with
  | Some c => (complete account_lease c 1000000 (stop ACCOUNT "u1" 3)).1 = Ok {| so_state := COMPLETED_SWEEP; so_phase := "DELETED" |}
  | None => False
  end.
Proof. by vm_compute. Qed.
(** The ledger at that point: a prepared and requested deletion. *)
Lemma stop_recorded : recorded (w_ledger (stop ACCOUNT "u1" 3)) (w_ledger (stop ACCOUNT "u1" 3)).1.
Proof.
  split; [split; [done|]|].
  - assert (validate_event_chains (w_ledger (stop ACCOUNT "u1" 3)).1 = Ok tt) as H%validate_chains_iff by by vm_compute. apply H.
  - assert (Forall (fun e => request_ok (event_request e)) (w_ledger (stop ACCOUNT "u1" 3)).1) as H; [|exact H].
    let l := eval vm_compute in (w_ledger (stop ACCOUNT "u1" 3)).1 in assert ((w_ledger (stop ACCOUNT "u1" 3)).1 = l) as -> by by vm_compute.
    repeat constructor; by vm_compute.
Qed.
Lemma completion_leaves_tombstone_witness :
  exists snapshot c e verifier evs,
    finished c (l_job_id account_lease) verifier 1000000 (w_store (complete account_lease snapshot 1000000 (stop ACCOUNT "u1" 3)).2)
    /\ recorded (w_ledger (complete account_lease snapshot 1000000 (stop ACCOUNT "u1" 3)).2) evs
    /\ e ∈ evs /\ ev_phase e = COMPLETED /\ event_request e = control_request c.
Proof.
  pose proof complete_returns as H. pose proof stop_recorded as R.
  destruct (control_by_job (w_store (stop ACCOUNT "u1" 3)) (l_job_id account_lease)) as [c|]; [|destruct H].
  exists c. revert R. generalize (w_ledger (stop ACCOUNT "u1" 3)).1 as evs. intros evs R.
  destruct (complete account_lease c 1000000 (stop ACCOUNT "u1" 3)) as [r w'] eqn:Er. cbn [fst] in H. subst r. cbn [snd].
  destruct (completion_leaves_tombstone (stop ACCOUNT "u1" 3) account_lease c 1000000 evs _ w' R second_ok Er)
    as (c' & u & t & e & v & evs' & _ & Hr & _ & He & Hp & Hq & _ & _ & _ & Hf & _).
  exists c', e, v, evs'. split; [exact Hf|]. split; [exact Hr|]. split; [exact He|]. split; [exact Hp|exact Hq].
Defined.

Definition import_lease : JobLease := toy_lease IMPORT "i1".
Lemma import_rows_deleted :
  match control_by_job (w_store (stop IMPORT "i1" 2)) (l_job_id import_lease) with
  | Some c => dc_target_kind c = IMPORT /\ match delete_resource_rows c (l_job_id import_lease) (w_store (stop IMPORT "i1" 2)) with Ok _ => True | Raise _ => False end
  | None => False
  end.
Proof. by vm_compute. Qed.
Lemma resource_deletion_complete_witness :
  exists c s', delete_resource_rows c (l_job_id import_lease) (w_store (stop IMPORT "i1" 2)) = Ok s'
  /\ prohibited_resource_rows c (l_job_id import_lease) s' = Ok 0.
Proof.
  pose proof import_rows_deleted as H. destruct (control_by_job (w_store (stop IMPORT "i1" 2)) (l_job_id import_lease)) as [c|]; [|destruct H].
  destruct H as [Hk Hd]. destruct (delete_resource_rows c (l_job_id import_lease) (w_store (stop IMPORT "i1" 2))) as [s'|x] eqn:E; [|destruct Hd].
  exists c, s'. split; [exact E|]. assert (dc_target_kind c <> ACCOUNT) as Hne by (rewrite Hk; discriminate).
  destruct (resource_deletion_complete import_lease c 1000000 _ s' Hne E) as (_ & _ & _ & Hz & _). exact Hz.
Defined.
End Examples.
